(* ===== verification/_CoqProject ===== *)
-Q . S2P
Prelude.v
CString.v
CFile.v
Bpf.v
BpfFilter.v
BpfValidate.v
BpfImage.v
Datalink.v
PcapInt.v
UsbHeader.v
SfPcap.v
SfPcapNg.v
Savefile.v
SavefileSpec.v
PcapNgSpec.v
Pcap.v
PcapSpec.v
LinuxInt.v
LinuxFilter.v
LinuxFilterSpec.v
LinuxRing.v
LinuxRingSpec.v
GenConst.v
LinuxSys.v
LinuxIface.v
LinuxActivate.v
LinuxOs.v
LinuxIfaceSpec.v
LinuxActivateSpec.v
LinuxOpenSpec.v
LinuxCapture.v
LinuxRead.v
LinuxReadSpec.v
Scanf.v
LinuxBus.v
LinuxBusSpec.v
Devices.v
DevicesSpec.v
Gencode.v
GenLink.v
GenProto.v
GenArth.v
GenMisc.v
GenWlan.v
Names.v
GenName.v
GenOffsets.v
ScannerTab.v
GrammarTab.v
Scanner.v
Parser.v
ScannerSpec.v
AutomatonTab.v
Automaton.v
GencodeSpec.v
GenTriple.v
Icode.v
OptFlow.v
OptValue.v
Optimize.v
Compile.v
IcodeSpec.v
OptValueSpec.v
IcodeCorrect.v
OptimizeSpec.v
OptDeadSpec.v
OptFlowSpec.v
OptLiveSpec.v
OptDomSpec.v
GenStraight.v
GenShape.v
ActionSpec.v
GenFinish.v
ParserSpec.v
CompileSpec.v
StockWire.v
StockServer.v
StockLive.v
StockFilter.v
Coefficient.v
