(* ===== verification/Prelude.v ===== *)
(** * The stock demonstration and its packet library

    The program is a small demonstration: a client ([client/main.cpp]) sends
    UDP datagrams with stock prices, a server ([server/main.cpp]) captures
    them with libpcap, keeps the latest closing prices of each stock, and
    looks for the pair of stocks whose correlation coefficient is closest to
    zero with CUDA kernels ([server/coefficient.cu]).  The library it is built
    on is bundled ([libpcap-1.4.0/]) and is by far the larger part of the
    code.  This development models the demonstration and the library as it is
    built for Linux: the filter compiler with its scanner, parser, code
    generator and optimizer, the filter machine and its checker, live captures
    on network interfaces, CAN and USB buses, the list of devices, savefiles,
    and the capture handle with its packet loops.

    ** How the parts interact

    A capture is opened by its name ([open_live], [Devices]); each kind has an
    [activate_op] ([pcap_activate_linux], [can_activate], [usb_activate]) that
    works on a [live] handle and asks the system; [pcap_close] runs the
    handle's [cleanup_op].  [pcap_findalldevs] tries every device in this way
    before it lists it: this promise is the class [Opener], with the laws
    [OpenerOk], against which the list is proved and which the captures
    fulfil.  A filter is a text: [pcap_compile] runs the scanner ([lex]) and
    the parser ([yyparse]), whose actions call the generators ([gen_*]) that
    build a flow graph; [finish_parse] completes it, [bpf_optimize] works on
    it, and [icode_to_fcode] writes it as an array.  [pcap_setfilter] installs
    the program, on Linux in the kernel if it can be ([fix_program],
    [set_kernel_filter]), else in the library ([install_bpf_program]), where
    [bpf_filter] runs it on each packet that a socket ([pcap_read_packet]), a
    mapped ring ([handle_frame]), a USB bus ([usb_deliver]) or a savefile
    ([pcap_offline_read]) gives.  [pcap_dispatch] and [pcap_loop] call these and
    hand the packets to the application; the server's [my_callback] strips the
    headers, decodes the stocks that the client's [stock::encode] wrote, and
    once each of the 400 stocks has 4096 prices calls [coefficient].

    ** The files

    Shared:
    - [Prelude]: this header; machine integers ([uwrap], [swrap]), the
      notations of C's bit operators, big-endian bytes, checked list access,
      the hint database [cint] and the tactics [clia] and [zcompute].
    - [CString], [Scanf], [CFile]: the C library's [printf], [sscanf] and
      [strtol], streams, and structures in bytes.

    The filter machine (bpf/net/bpf_filter.c, bpf_image.c, bpf_dump.c):
    - [Bpf], [BpfFilter], [BpfValidate], [BpfImage]: the instruction encoding,
      [bpf_filter] ([exec] is one pass through the [switch], [run] the loop),
      [bpf_validate], [bpf_image] and [bpf_dump].

    Savefiles and the handle (savefile.c, sf-pcap.c, sf-pcap-ng.c, pcap.c,
    pcap-common.c):
    - [Datalink], [PcapInt], [UsbHeader]: link-layer types and names, [struct
      pcap], [swap_linux_usb_header].
    - [SfPcap], [SfPcapNg], [Savefile] with [SavefileSpec] and [PcapNgSpec]:
      the two formats and [pcap_offline_read].
    - [Pcap] and [PcapSpec]: settings, activation, operations and loops.

    Captures on Linux (pcap-linux.c, pcap-can-linux.c, pcap-usb-linux.c):
    - [LinuxInt], [LinuxFilter], [LinuxRing]: the state, the installation of
      filters, the mapped ring; [LinuxFilterSpec] and [LinuxRingSpec].
    - [LinuxSys], [LinuxIface], [LinuxActivate]: system calls as a free monad
      ([sys]), the questions about an interface and monitor mode, and
      [pcap_activate_linux] with its cleanup.
    - [LinuxOs]: what the system may answer ([answers]), and the logic [wp] and
      [always] over it; [LinuxIfaceSpec], [LinuxActivateSpec], [LinuxOpenSpec]
      and [LinuxCapture] prove what opening and closing a capture does.
    - [LinuxRead] and [LinuxReadSpec]: [pcap_read_packet], sending, statistics.
    - [LinuxBus] and [LinuxBusSpec]: CAN and USB buses.
    - [Devices] and [DevicesSpec]: inet.c, fad-getad.c and the scans.

    The filter compiler (gencode.c, grammar.c, scanner.c, nametoaddr.c,
    etherent.c, optimize.c):
    - [GenConst], [Gencode], [GenLink], [GenProto], [GenArth], [GenMisc],
      [GenWlan], [Names], [GenName], [GenOffsets]: constants, the flow graph
      and its combinators, and the generators.
    - [ScannerTab], [Scanner], [GrammarTab], [Parser], [Compile]: the tables
      that flex and bison have generated, the automata, the actions, and
      [pcap_compile].
    - [Icode], [OptFlow], [OptValue], [Optimize]: the conversion to an array
      and the optimizer.
    - [GencodeSpec], [GenTriple], [GenStraight], [GenShape], [GenFinish]: what
      the generators build; [ScannerSpec], [AutomatonTab], [Automaton],
      [ParserSpec], [ActionSpec]: that the scanner and the parser end and
      respect types; [CompileSpec] puts them together.
    - [IcodeSpec], [IcodeCorrect]: the conversion keeps the meaning;
      [OptValueSpec], [OptimizeSpec], [OptDeadSpec], [OptFlowSpec],
      [OptLiveSpec], [OptDomSpec]: the passes of the optimizer.

    The demonstration:
    - [StockWire], [StockServer], [StockLive], [StockFilter], [Coefficient].

    Within a file the definitions come first, then the lemmas and the
    properties, each with its identifier C1, C2, ...; a property with
    hypotheses is followed by its application to a concrete input, named
    [*_witness].

    ** What the theorems show

    - The filter machine: a program [bpf_validate] accepts stays in its code
      and its scratch memory ([bpf_validate_safe]); a strict one, which
      excludes what the checker lets through and the interpreter does not
      survive, returns a verdict for every packet ([bpf_filter_total]);
      [bpf_load_check_wraps] shows, for every packet and every load, which
      offsets get past the interpreter's check and out of the packet.
    - The compiler: the scanner, the parser and the whole end on every text
      ([compile_ends]); without the optimizer no pointer to nothing is followed
      and a program that is returned is one the checker accepts
      ([pcap_compile_valid]); [icode_to_fcode_correct] carries the meaning of
      the graph to the array; [server_filter_correct] says what the server's
      filter accepts.
    - The optimizer: value numbering, sharing of equal blocks, dead stores and
      dominators ([opt_stmts_sound], [intern_blocks_correct],
      [dead_stores_keep_verdicts], [find_dom_correct]), and where it changes
      the meaning of a filter for every packet ([optimizer_changes_filters]).
    - Live captures: the switch of filters neither loses, repeats nor invents
      packets, on a socket as long as the kernel lets go of the old filter, on
      a ring that is not in cooked mode ([setfilter_linux_exact],
      [setfilter_mmap_exact], [fix_program_correct]); opening and closing gives
      back all but what is listed and misuses the system in no way but one, the
      [munmap] of what a failed [mmap] returned ([open_close_gives_back],
      [M_unmapped]), and an open capture is ready to be read
      ([activated_ready]); what is read is what was captured
      ([read_packet_exact], [ring_and_socket_agree]), and of a line of [usbmon]
      all but the upper half of its tag ([usb_line_read]).
    - The list of devices: its order and content ([interfaces_listed]) and its
      memory ([findalldevs_gives_back]).
    - Savefiles: safe reading of any bytes ([offline_read_safe]), writing and
      reading back ([pcap_dump_roundtrip], [savefile_image_read]), refinement
      of taking the accepted packets ([offline_read_delivers]), time stamps
      ([ng_timestamp_exact]), the USB conversion
      ([swap_linux_usb_header_safe]).
    - The handle: its settings are fixed by activation
      ([activation_locks_settings]) and its operations report an error if that
      has failed ([failed_activation_ops]); [pcap_loop] on a savefile returns,
      with what ([pcap_loop_savefile]); link-layer types: [linktype_roundtrip].
    - The demonstration: the encoding and the datagrams
      ([stock_wire_roundtrip], [client_datagram_handled]), the table of prices
      ([price_window]), what the callback reads ([my_callback_bounds]), that
      the server stops before it can compute ([server_never_computes]) and
      would compute otherwise ([server_computes]), what the kernels add up
      ([kernels_ignore_elements]) and what the search reports
      ([search_min_spec]).

    ** Modelling choices

    The host is a little-endian 64-bit one ([size_t] and [long] have 64 bits),
    and the configuration is that of config.h: Linux with the packet ring in
    version 2, VLAN tags in the auxiliary data, wireless extensions, IPv6, CAN
    and USB, without libnl.  A C integer is a [Z] with every conversion written
    out.  What C leaves undefined, or turns into [abort], is a value of its
    own: [fault], [undefined], [read_fault], [misuse].  Memory that starts
    uninitialised is a parameter ([mem0], the answers to [StrayWords]) or an
    option.  Error messages are a format with its numbers, the words left out,
    or constructors where only their cause matters.

    The blocks of the filter compiler live in a heap and are named by their
    addresses; the compiler's own allocator never runs out.  The optimizer's
    marks are sets, its bit sets are integers.  Names that the resolver of the
    system knows are a parameter of the compiler.

    System calls are a parameter: a computation in [sys] is a tree of calls,
    and a theorem about it holds for every answer that [answers] admits, which
    is the calls' documented behaviour; what is open, allocated and mapped is
    tracked in [os], and using what is not is a [misuse].  A directory or a
    stream is given with all its entries.  The filter in the handle
    ([p->fcode]) is not tracked as memory.  Deliveries of the kernel into the
    ring interleave with the library's reads as steps of a relation.  Whether
    [malloc] succeeds, the application's callback, the values [rand] returns
    and whether the CUDA compiler contracts [t += a*b] are parameters as well.
    Floating point is the Standard Library's [SpecFloat]: binary32 for the
    kernels, binary64 for the client's prices.  A [map<int, deque<int> >] is the
    list of its entries by key; threads of a kernel interleave by explicit
    schedules of their reads and writes.

    Fuel.  [bpf_filter] gets one unit per instruction and one more, enough for
    every program whose [ja]s go forward ([bpf_filter_total]).  The readers of
    a file get one unit per byte that is left and one more.  The parser gets
    four turns per character and six more, and [compile_ends] shows that they
    suffice.  The loop of [opt_loop] is given its turns as an argument, since
    nothing in the code bounds them; the loop of [intern_blocks] gets fuel that
    [intern_blocks_correct] shows to be enough.  The loops of a capture that
    wait for the system recurse on the answers they are given.  [pcap_loop] on
    a live source may not end, and its model returns [None] then; on a savefile
    it ends.

    ** What is not modelled

    The back ends for other systems and devices (pcap-bpf.c, pcap-dlpi.c,
    pcap-dos.c, pcap-win32.c, pcap-bt-linux.c, pcap-netfilter-linux.c,
    pcap-dag.c, pcap-snf.c and the like; msdos/, Win32/) are not compiled in
    this configuration: most of what they do is done by drivers whose code is
    not part of the source.  The other ways to list interfaces (fad-gifc.c,
    fad-glifc.c, fad-win32.c) are not built either.  Of the rest, [fopen] and
    [fclose] of savefiles, printing to a terminal, the sockets of the client,
    the functions that are never called ([tcpClient], [HandleClient],
    [cuda_test]), and the release of device memory are left out.  The passes of
    the optimizer that move branches and pull up blocks ([opt_j],
    [or_pullup], [and_pullup]) are modelled and run in examples; their
    soundness, and with it that of [bpf_optimize] as a whole, is not proved
    and does not hold without conditions ([optimizer_changes_filters]).  *)
From Stdlib Require Export ZArith Lia Bool.
From stdpp Require Export base option list list_numbers numbers gmap strings.
From coqutil Require Export Byte.
From coqutil Require Export Word.LittleEndianList.
From coqutil Require Import Z.bitblast.

#[global] Open Scope Z_scope.

(** ** Machine integers

    A C integer is a [Z]; every conversion the source makes is written out
    with one of the functions below.  [uN] is conversion to the unsigned
    [N]-bit type (reduction modulo [2^N]); [iN] is conversion to the signed
    one (two's complement, as every ABI the program builds for has it). *)

Definition uwrap (w z : Z) : Z := z mod 2 ^ w.
Definition swrap (w z : Z) : Z := (z + 2 ^ (w - 1)) mod 2 ^ w - 2 ^ (w - 1).

Abbreviation u8 := (uwrap 8) (only parsing).
Abbreviation u16 := (uwrap 16) (only parsing).
Abbreviation u32 := (uwrap 32) (only parsing).
Abbreviation u64 := (uwrap 64) (only parsing).
Abbreviation i8 := (swrap 8) (only parsing).
Abbreviation i16 := (swrap 16) (only parsing).
Abbreviation i32 := (swrap 32) (only parsing).
Abbreviation i64 := (swrap 64) (only parsing).

(** [is_u w z]: [z] is a value of the unsigned [w]-bit type. *)
Definition is_u (w z : Z) : Prop := 0 <= z < 2 ^ w.
Definition is_i (w z : Z) : Prop := - 2 ^ (w - 1) <= z < 2 ^ (w - 1).

Declare Scope c_scope.
Delimit Scope c_scope with c.
Infix ".|" := Z.lor (at level 50, left associativity) : c_scope.
Infix ".&" := Z.land (at level 40, left associativity) : c_scope.
Infix "<<" := Z.shiftl (at level 45, left associativity) : c_scope.
Infix ">>" := Z.shiftr (at level 45, left associativity) : c_scope.

Create HintDb cint.
Create Rewrite HintDb cint.

Section Wrap.
Context (w : Z) (Hw : 0 < w).

Lemma uwrap_range z : 0 <= uwrap w z < 2 ^ w.
Proof using Hw. apply Z.mod_pos_bound, Z.pow_pos_nonneg; lia. Qed.

Lemma uwrap_id z : is_u w z -> uwrap w z = z.
Proof using Type. apply Z.mod_small. Qed.

Lemma uwrap_idemp z : uwrap w (uwrap w z) = uwrap w z.
Proof using Hw. apply uwrap_id, uwrap_range. Qed.

Lemma pow_double : 2 ^ w = 2 * 2 ^ (w - 1).
Proof using Hw. rewrite <- Z.pow_succ_r by lia. f_equal; lia. Qed.

Lemma swrap_range z : - 2 ^ (w - 1) <= swrap w z < 2 ^ (w - 1).
Proof using Hw.
  unfold swrap. pose proof pow_double.
  pose proof (Z.mod_pos_bound (z + 2 ^ (w - 1)) (2 ^ w)
                ltac:(apply Z.pow_pos_nonneg; lia)). lia.
Qed.

Lemma swrap_id z : is_i w z -> swrap w z = z.
Proof using Hw.
  unfold is_i, swrap. intros H. pose proof pow_double.
  rewrite Z.mod_small; lia.
Qed.

(** A signed value converted to the unsigned type and back is itself, and
    the other way round: the two conversions only reinterpret the bits. *)
Lemma uwrap_swrap z : uwrap w (swrap w z) = uwrap w z.
Proof using Hw.
  unfold uwrap, swrap. rewrite Zminus_mod_idemp_l. f_equal. lia.
Qed.

Lemma swrap_uwrap z : swrap w (uwrap w z) = swrap w z.
Proof using Hw. unfold uwrap, swrap. rewrite Zplus_mod_idemp_l. reflexivity. Qed.

Lemma swrap_add_l a b : swrap w (swrap w a + b) = swrap w (a + b).
Proof using Hw.
  unfold swrap. f_equal.
  pose proof (Z.pow_pos_nonneg 2 w). pose proof (Z.div_mod (a + 2 ^ (w - 1)) (2 ^ w)).
  rewrite <- (Z.mod_add _ ((a + 2 ^ (w - 1)) / 2 ^ w) (2 ^ w)) by lia. f_equal. lia.
Qed.

Lemma uwrap_neg z : - 2 ^ w <= z < 0 -> uwrap w z = z + 2 ^ w.
Proof using Hw.
  unfold uwrap. intros. pose proof pow_double.
  rewrite <- (Z.mod_add z 1 (2 ^ w)) by lia. rewrite Z.mod_small; lia.
Qed.

Lemma swrap_nonneg z : is_u w z -> z < 2 ^ (w - 1) -> swrap w z = z.
Proof using Hw.
  unfold is_u. intros. apply swrap_id. unfold is_i. pose proof pow_double. lia.
Qed.

Lemma swrap_neg z : is_u w z -> 2 ^ (w - 1) <= z -> swrap w z = z - 2 ^ w.
Proof using Hw.
  unfold is_u, swrap. intros. pose proof pow_double.
  replace (z + 2 ^ (w - 1)) with (z - 2 ^ (w - 1) + 1 * 2 ^ w) by lia.
  rewrite Z.mod_add by lia. rewrite Z.mod_small by lia. lia.
Qed.
End Wrap.

#[export] Hint Rewrite uwrap_idemp uwrap_swrap swrap_uwrap using lia : cint.

Lemma u32_ok z : is_u 32 (u32 z).
Proof. apply uwrap_range. lia. Qed.

Lemma i32_ok z : is_i 32 (i32 z).
Proof. apply swrap_range. lia. Qed.

#[export] Hint Resolve u32_ok i32_ok : cint.

(** Unfold the range predicates at a concrete width, for [lia]. *)
Ltac cranges :=
  unfold is_u, is_i in *;
  change (2 ^ 8) with 256 in *; change (2 ^ 16) with 65536 in *;
  change (2 ^ 32) with 4294967296 in *;
  change (2 ^ 64) with 18446744073709551616 in *;
  change (2 ^ (8 - 1)) with 128 in *; change (2 ^ (16 - 1)) with 32768 in *;
  change (2 ^ (32 - 1)) with 2147483648 in *;
  change (2 ^ (64 - 1)) with 9223372036854775808 in *.
Ltac clia := cranges; lia.

(** Close closed goals about literals by evaluation. *)
Ltac zcompute :=
  unfold is_u, is_i; repeat match goal with |- _ /\ _ => split end;
  vm_compute; first [reflexivity | discriminate].

(** ** Bytes

    Memory read from a file or a packet is a [list byte]; [byte] is the
    Standard Library's, with coqutil's conversions to and from [Z]. *)

Definition be_combine (l : list byte) : Z := le_combine (rev l).
Definition be_split (n : nat) (z : Z) : list byte := rev (le_split n z).

#[local] Open Scope c_scope.

Lemma lor_high_low a b n : 0 <= n -> 0 <= b < 2 ^ n -> a * 2 ^ n .| b = a * 2 ^ n + b.
Proof.
  intros Hn Hb. rewrite <- Z.shiftl_mul_pow2 by lia. apply Z.or_to_plus.
  apply Z.bits_inj'. intros i Hi. rewrite Z.land_spec, Z.bits_0.
  destruct (Z_lt_le_dec i n).
  - rewrite Z.shiftl_spec_low by lia. done.
  - rewrite <- (Z.mod_small b (2 ^ n)), Z.mod_pow2_bits_high by lia. apply andb_false_r.
Qed.

Lemma land_field y m n : 0 <= m -> 0 <= n ->
  y .& (Z.ones n << m) = (y / 2 ^ m) mod 2 ^ n * 2 ^ m.
Proof.
  intros. rewrite <- Z.land_ones, <- Z.shiftr_div_pow2, <- Z.shiftl_mul_pow2 by lia.
  rewrite Z.shiftl_land. apply Z.bits_inj'. intros i Hi. rewrite !Z.land_spec.
  destruct (Z_lt_le_dec i m).
  - by rewrite !Z.shiftl_spec_low, !andb_false_r by lia.
  - rewrite !(Z.shiftl_spec _ m i), Z.shiftr_spec by lia. do 2 f_equal. lia.
Qed.

Lemma le_combine_cons h t : le_combine (h :: t) = byte.unsigned h + 256 * le_combine t.
Proof.
  change (le_combine (h :: t)) with (Z.lor (byte.unsigned h) (Z.shiftl (le_combine t) 8)).
  rewrite Z.lor_comm, Z.shiftl_mul_pow2 by lia. pose proof (byte.unsigned_range h).
  rewrite lor_high_low by lia. lia.
Qed.

Lemma length_be_split n z : length (be_split n z) = n.
Proof. unfold be_split. rewrite length_rev. apply length_le_split. Qed.

Lemma be_combine_split n z : be_combine (be_split n z) = z mod 2 ^ (Z.of_nat n * 8).
Proof. unfold be_combine, be_split. rewrite rev_involutive. apply le_combine_split. Qed.

Lemma be_split_combine l : be_split (length l) (be_combine l) = l.
Proof.
  unfold be_combine, be_split. rewrite <- length_rev, split_le_combine.
  apply rev_involutive.
Qed.

Lemma be_combine_bound l : 0 <= be_combine l < 2 ^ (8 * Z.of_nat (length l)).
Proof. unfold be_combine. rewrite <- length_rev. apply le_combine_bound. Qed.

(** [sub off n l]: the [n] bytes of [l] from offset [off], when they exist. *)
Definition sub {A} (off n : Z) (l : list A) : option (list A) :=
  if (0 <=? off) && (0 <=? n) && (off + n <=? Z.of_nat (length l))
  then Some (take (Z.to_nat n) (drop (Z.to_nat off) l)) else None.

Lemma sub_Some {A} off n (l : list A) :
  0 <= off -> 0 <= n -> off + n <= Z.of_nat (length l) ->
  sub off n l = Some (take (Z.to_nat n) (drop (Z.to_nat off) l)).
Proof.
  intros. unfold sub.
  by rewrite !(proj2 (Z.leb_le _ _)) by lia.
Qed.

Lemma sub_Some_inv {A} off n (l r : list A) :
  sub off n l = Some r ->
  0 <= off /\ 0 <= n /\ off + n <= Z.of_nat (length l) /\ Z.of_nat (length r) = n.
Proof.
  unfold sub. destruct (_ && _) eqn:E; intros [= <-].
  apply andb_prop in E as [[H1 H2]%andb_prop H3]. rewrite !Z.leb_le in *.
  repeat split; try lia. rewrite length_take, length_drop. lia.
Qed.

Lemma sub_None {A} off n (l : list A) :
  off < 0 \/ n < 0 \/ Z.of_nat (length l) < off + n -> sub off n l = None.
Proof.
  unfold sub. intros H. destruct (_ && _) eqn:E; [|done].
  apply andb_prop in E as [[H1 H2]%andb_prop H3]. rewrite !Z.leb_le in *. lia.
Qed.

(** [nthZ l i]: the element at the integer index [i], if it is in range. *)
Definition nthZ {A} (l : list A) (i : Z) : option A :=
  if i <? 0 then None else l !! Z.to_nat i.

Lemma nthZ_Some_lt {A} (l : list A) i x :
  nthZ l i = Some x -> 0 <= i < Z.of_nat (length l).
Proof.
  unfold nthZ. destruct (Z.ltb_spec i 0); [done|].
  intros ?%lookup_lt_Some. lia.
Qed.

Lemma nthZ_is_Some {A} (l : list A) i :
  0 <= i < Z.of_nat (length l) -> is_Some (nthZ l i).
Proof.
  intros. unfold nthZ. destruct (Z.ltb_spec i 0); [lia|].
  apply lookup_lt_is_Some. lia.
Qed.

Lemma nthZ_Forall {A} (P : A -> Prop) l i x : Forall P l -> nthZ l i = Some x -> P x.
Proof.
  unfold nthZ. destruct (i <? 0); [done|]. rewrite Forall_lookup. eauto.
Qed.

Lemma nthZ_forallb {A} (P : A -> bool) l i x :
  forallb P l = true -> nthZ l i = Some x -> P x = true.
Proof.
  intros Hl Hi. unfold nthZ in Hi. destruct (i <? 0); [done|].
  eapply List.forallb_forall in Hl; [exact Hl|].
  apply list_elem_of_In, list_elem_of_lookup_2 with (i := Z.to_nat i). done.
Qed.

Lemma nthZ_elem_of {A} (l : list A) i x : nthZ l i = Some x -> x ∈ l.
Proof. unfold nthZ. destruct (i <? 0); [done|]. apply list_elem_of_lookup_2. Qed.
