(* ===== verification/CString.v ===== *)
(** The pieces of C's string library the program uses: [printf] conversions
    with field widths and [snprintf]'s truncation, character classes, and
    string comparison. *)
From S2P Require Import Prelude.
From Stdlib Require Export Ascii.
From stdpp Require Export pretty.

#[local] Open Scope string_scope.
#[local] Open Scope Z_scope.

(** ** [printf] conversions *)

(** [%d] of an [int]; [pretty] prints the decimal digits with a sign. *)
Definition fmt_d (z : Z) : string := pretty z.

Definition hex_digit (d : Z) : ascii :=
  match d with
  | 0 => "0" | 1 => "1" | 2 => "2" | 3 => "3" | 4 => "4" | 5 => "5" | 6 => "6"
  | 7 => "7" | 8 => "8" | 9 => "9" | 10 => "a" | 11 => "b" | 12 => "c"
  | 13 => "d" | 14 => "e" | _ => "f"
  end%char.

(** The digits of [z] in base 16, most significant first, at most [fuel]
    after the last one. *)
Fixpoint hex_go (fuel : nat) (z : Z) (acc : string) : string :=
  let acc := String (hex_digit (z mod 16)) acc in
  match fuel with
  | O => acc
  | S fuel => if z <? 16 then acc else hex_go fuel (z / 16) acc
  end.

(** [%x] of an [unsigned int]: seven divisions reach the top nibble. *)
Definition fmt_x (z : Z) : string := hex_go 7 (u32 z) "".

Fixpoint rep (n : nat) (c : ascii) : string :=
  match n with O => "" | S n => String c (rep n c) end.

(** [%-ws] pads on the right, [%0wd] pads a number with zeros after its sign. *)
Definition pad_right (w : nat) (s : string) : string := s +:+ rep (w - String.length s) " ".
Definition pad_zero (w : nat) (z : Z) : string :=
  if z <? 0
  then String "-" (rep (w - String.length (fmt_d z)) "0" +:+ fmt_d (- z))
  else rep (w - String.length (fmt_d z)) "0" +:+ fmt_d z.

(** [snprintf (buf, size, ...)] keeps at most [size - 1] characters. *)
Definition snprintf (size : nat) (s : string) : string := String.substring 0 (size - 1) s.

Lemma length_append s t :
  String.length (s +:+ t) = (String.length s + String.length t)%nat.
Proof.
  induction s as [|c s IH]; [done|].
  change (String c s +:+ t) with (String c (s +:+ t)). simpl. by rewrite IH.
Qed.

Lemma length_rep n c : String.length (rep n c) = n.
Proof. induction n; simpl; congruence. Qed.

Lemma substring_all s n : (String.length s <= n)%nat -> String.substring 0 n s = s.
Proof.
  revert n. induction s as [|c s IH]; intros [|n] Hn; simpl in *; try done; try lia.
  f_equal. apply IH. lia.
Qed.

Lemma snprintf_fits size s : (String.length s < size)%nat -> snprintf size s = s.
Proof. intros. apply substring_all. lia. Qed.

Lemma length_snprintf size s : (0 < size)%nat -> (String.length (snprintf size s) < size)%nat.
Proof.
  intros Hs. unfold snprintf.
  assert (Hl : forall s n, (String.length (String.substring 0 n s) <= n)%nat).
  { clear. induction s as [|c s IH]; intros [|n]; simpl; try lia. specialize (IH n). lia. }
  specialize (Hl s (size - 1)%nat). lia.
Qed.

(** ** Lengths of the conversions *)

Lemma length_hex_go fuel z acc :
  (String.length (hex_go fuel z acc) <= S fuel + String.length acc)%nat.
Proof.
  revert z acc. induction fuel as [|fuel IH]; intros z acc; cbn [hex_go]; [simpl; lia|].
  destruct (z <? 16); [simpl; lia|]. etransitivity; [apply IH|]. simpl. lia.
Qed.

Lemma length_fmt_x z : (String.length (fmt_x z) <= 8)%nat.
Proof. unfold fmt_x. etransitivity; [apply length_hex_go|]. simpl. lia. Qed.

Lemma length_pretty_N_go n s (d : nat) :
  (n < 10 ^ N.of_nat d)%N ->
  (String.length (pretty_N_go n s) <= d + String.length s)%nat.
Proof.
  revert n s. induction d as [|d IH]; intros n s Hn.
  - simpl in Hn. replace n with 0%N by lia. by rewrite pretty_N_go_0.
  - destruct (decide (n = 0%N)) as [->|?]; [rewrite pretty_N_go_0; lia|].
    rewrite pretty_N_go_step by lia. etransitivity; [apply IH|simpl; lia].
    rewrite Nat2N.inj_succ, N.pow_succ_r' in Hn. apply N.Div0.div_lt_upper_bound. lia.
Qed.

Lemma length_pretty_N (n : N) (d : nat) :
  (0 < d)%nat -> Z.of_N n < 10 ^ Z.of_nat d -> (String.length (pretty n) <= d)%nat.
Proof.
  intros Hd Hn. unfold pretty, pretty_N. case_decide; [simpl; lia|].
  etransitivity; [apply (length_pretty_N_go n "" d)|simpl; lia]. lia.
Qed.

Lemma length_fmt_d z (d : nat) :
  (0 < d)%nat -> Z.abs z < 10 ^ Z.of_nat d -> (String.length (fmt_d z) <= S d)%nat.
Proof.
  intros Hd Hz.
  unfold fmt_d, pretty, pretty_Z. destruct z as [|p|p]; [simpl; lia| |].
  - etransitivity; [apply (length_pretty_N _ d); lia|lia].
  - simpl. apply le_n_S, length_pretty_N; lia.
Qed.

Lemma length_fmt_d_int z : is_i 32 z -> (String.length (fmt_d z) <= 11)%nat.
Proof. intros. apply (length_fmt_d z 10); clia. Qed.

Lemma length_fmt_d_pos z (d : nat) :
  (0 < d)%nat -> 0 <= z < 10 ^ Z.of_nat d -> (String.length (fmt_d z) <= d)%nat.
Proof.
  intros Hd Hz. unfold fmt_d, pretty, pretty_Z. destruct z as [|p|p]; [simpl; lia| |lia].
  apply length_pretty_N; lia.
Qed.
