(* ===== verification/CFile.v ===== *)
(** The program's view of [<stdio.h>] streams and of memory: a stream being
    read is the bytes that are left in it, and C structures are read from and
    written to byte lists with the layout of a little-endian 64-bit host. *)
From S2P Require Import Prelude.

#[local] Open Scope c_scope.

(** ** Streams *)

(** [f_err] says what stops the stream: the end of the file, or an error, so
    that [ferror] is true after a short read. *)
Record file := File { f_rest : list byte; f_err : bool }.

Definition ferror (f : file) : bool := f_err f.

(** [fread (buf, 1, n, fp)]: the bytes read, fewer than [n] at the end. *)
Definition fread (n : Z) (f : file) : list byte * file :=
  (take (Z.to_nat n) (f_rest f), File (drop (Z.to_nat n) (f_rest f)) (f_err f)).

Definition lenZ {A} (l : list A) : Z := Z.of_nat (length l).

Lemma fread_full n (bs rest : list byte) e :
  lenZ bs = n -> fread n (File (bs ++ rest) e) = (bs, File rest e).
Proof.
  unfold lenZ. intros <-. unfold fread. simpl. rewrite Nat2Z.id.
  by rewrite take_app_length, drop_app_length.
Qed.

Lemma fread_nil n e : fread n (File [] e) = ([], File [] e).
Proof. unfold fread. simpl. by rewrite take_nil, drop_nil. Qed.

Lemma fread_length n f : 0 <= n -> lenZ (fread n f).1 = Z.min n (lenZ (f_rest f)).
Proof. unfold fread, lenZ. simpl. rewrite length_take. lia. Qed.

(** The bytes read and the bytes left make up what was there. *)
Lemma fread_split n f : (fread n f).1 ++ f_rest (fread n f).2 = f_rest f.
Proof. unfold fread. simpl. apply take_drop. Qed.

(** ** Fields of structures *)

(** The unsigned field of [n] bytes at offset [off]. *)
Definition get_le (off n : nat) (b : list byte) : Z := le_combine (take n (drop off b)).

(** Store a field of [n] bytes at offset [off]. *)
Definition put_le (off n : nat) (v : Z) (b : list byte) : list byte :=
  take off b ++ le_split n v ++ drop (off + n) b.

Lemma get_le_range off n b : 0 <= get_le off n b < 2 ^ (8 * Z.of_nat n).
Proof.
  unfold get_le. pose proof (le_combine_bound (take n (drop off b))) as Hb.
  split; [lia|]. eapply Z.lt_le_trans; [apply Hb|]. apply Z.pow_le_mono_r; [lia|].
  rewrite length_take. lia.
Qed.

Lemma get_le_u off n b w : w = 8 * Z.of_nat n -> is_u w (get_le off n b).
Proof. intros ->. apply get_le_range. Qed.

(** Reading a field out of a structure written field by field. *)
Lemma get_le_app_skip off n (a b : list byte) :
  (length a <= off)%nat -> get_le off n (a ++ b) = get_le (off - length a) n b.
Proof. intros. unfold get_le. by rewrite drop_app_ge by lia. Qed.

Lemma get_le_here n v (b : list byte) :
  get_le 0 n (le_split n v ++ b) = v mod 2 ^ (Z.of_nat n * 8).
Proof.
  unfold get_le. rewrite drop_0, take_app_le by (rewrite length_le_split; lia).
  rewrite take_ge by (rewrite length_le_split; lia). apply le_combine_split.
Qed.

Lemma get_le_prefix off n (a b : list byte) :
  (off + n <= length a)%nat -> get_le off n (a ++ b) = get_le off n a.
Proof.
  intros. unfold get_le. rewrite drop_app_le by lia.
  rewrite take_app_le by (rewrite length_drop; lia). done.
Qed.

Lemma length_put_le off n v b :
  (off + n <= length b)%nat -> length (put_le off n v b) = length b.
Proof.
  intros. unfold put_le. rewrite !length_app, length_le_split, length_take, length_drop. lia.
Qed.

(** ** Byte swapping ([pcap-common.h], [pcap-int.h]) *)

Definition SWAPLONG (y : Z) : Z :=
  ((y .& 0xff) << 24) .| ((y .& 0xff00) << 8) .| ((y .& 0xff0000) >> 8) .| ((y >> 24) .& 0xff).

Definition SWAPSHORT (y : Z) : Z := ((y .& 0xff) << 8) .| ((y .& 0xff00) >> 8).

Definition SWAPLL (ull : Z) : Z :=
  ((ull .& 0xff00000000000000) >> 56) .| ((ull .& 0x00ff000000000000) >> 40) .|
  ((ull .& 0x0000ff0000000000) >> 24) .| ((ull .& 0x000000ff00000000) >> 8) .|
  ((ull .& 0x00000000ff000000) << 8) .| ((ull .& 0x0000000000ff0000) << 24) .|
  ((ull .& 0x000000000000ff00) << 40) .| ((ull .& 0x00000000000000ff) << 56).

(** Swapping a field is reading its bytes in the opposite order. *)
Lemma SWAPLONG_arith y :
  SWAPLONG y = y mod 256 * 16777216 + (y / 256) mod 256 * 65536
               + (y / 65536) mod 256 * 256 + (y / 16777216) mod 256.
Proof.
  unfold SWAPLONG.
  change 0xff00 with (Z.ones 8 << 8). change 0xff0000 with (Z.ones 8 << 16). change 0xff with (Z.ones 8).
  rewrite !land_field, !Z.land_ones, !Z.shiftl_mul_pow2, !Z.shiftr_div_pow2 by lia.
  change (2 ^ 8) with 256. change (2 ^ 16) with 65536. change (2 ^ 24) with 16777216.
  pose proof (Z.mod_pos_bound y 256). pose proof (Z.mod_pos_bound (y / 256) 256).
  pose proof (Z.mod_pos_bound (y / 65536) 256). pose proof (Z.mod_pos_bound (y / 16777216) 256).
  generalize dependent (y mod 256). generalize dependent ((y / 256) mod 256).
  generalize dependent ((y / 65536) mod 256). generalize dependent ((y / 16777216) mod 256).
  intros d ? c ? b ? a ?.
  replace (c * 65536 / 256) with (c * 256) by (Z.div_mod_to_equations; lia).
  change 16777216 with (2 ^ 24).
  rewrite lor_high_low by lia.
  replace (a * 2 ^ 24 + b * 256 * 256) with ((a * 256 + b) * 2 ^ 16) by lia.
  rewrite lor_high_low by lia.
  replace ((a * 256 + b) * 2 ^ 16 + c * 256) with ((a * 65536 + b * 256 + c) * 2 ^ 8) by lia.
  rewrite lor_high_low by lia. lia.
Qed.

(** The sign of a field does not matter to its swapped value. *)
Lemma SWAPLONG_i32 y : SWAPLONG (i32 y) = SWAPLONG y.
Proof. rewrite !SWAPLONG_arith. unfold swrap. Z.div_mod_to_equations. lia. Qed.

Lemma SWAPLONG_bytes a b c d : SWAPLONG (le_combine [a; b; c; d]) = le_combine [d; c; b; a].
Proof.
  rewrite SWAPLONG_arith, !le_combine_cons. change (le_combine []) with 0.
  pose proof (byte.unsigned_range a). pose proof (byte.unsigned_range b).
  pose proof (byte.unsigned_range c). pose proof (byte.unsigned_range d).
  Z.div_mod_to_equations. lia.
Qed.

Lemma SWAPSHORT_bytes a b : SWAPSHORT (le_combine [a; b]) = le_combine [b; a].
Proof.
  unfold SWAPSHORT. change 0xff00 with (Z.ones 8 << 8). change 0xff with (Z.ones 8).
  rewrite !land_field, !Z.land_ones, !Z.shiftl_mul_pow2, !Z.shiftr_div_pow2 by lia.
  rewrite Z.div_mul, lor_high_low by first [lia|apply Z.mod_pos_bound; lia].
  change (2 ^ 8) with 256.
  rewrite !le_combine_cons. change (le_combine []) with 0.
  pose proof (byte.unsigned_range a). pose proof (byte.unsigned_range b).
  Z.div_mod_to_equations. lia.
Qed.

(** ** Fields written in either byte order *)

(** A field of [n] bytes as a host of the other byte order ([sw]) or of ours
    writes it, and the value the reader gets back. *)
Definition enc (sw : bool) (n : nat) (v : Z) : list byte :=
  if sw then be_split n v else le_split n v.

Lemma length_enc sw n v : length (enc sw n v) = n.
Proof. unfold enc, be_split. destruct sw; by rewrite ?length_rev, length_le_split. Qed.

Definition long_of (sw : bool) (v : Z) : Z := if sw then SWAPLONG v else v.
Definition short_of (sw : bool) (v : Z) : Z := if sw then SWAPSHORT v else v.

Lemma list_4 {A} (l : list A) : length l = 4%nat -> exists a b c d, l = [a; b; c; d].
Proof. intros. destruct l as [|a [|b [|c [|d [|]]]]]; try done; eauto. Qed.

Lemma list_2 {A} (l : list A) : length l = 2%nat -> exists a b, l = [a; b].
Proof. intros. destruct l as [|a [|b [|]]]; try done; eauto. Qed.

Lemma get_le_exact n (a b : list byte) : length a = n -> get_le 0 n (a ++ b) = le_combine a.
Proof. intros <-. unfold get_le. by rewrite drop_0, take_app_length. Qed.

Lemma long_of_enc sw v b : long_of sw (get_le 0 4 (enc sw 4 v ++ b)) = u32 v.
Proof.
  rewrite get_le_exact by apply length_enc. unfold long_of, enc, be_split.
  pose proof (le_combine_split 4 v) as Hv. pose proof (length_le_split 4 v) as Hl.
  destruct (list_4 _ Hl) as (x & y & z & w & He). rewrite He in Hv |- *.
  destruct sw; [simpl rev; rewrite SWAPLONG_bytes|]; exact Hv.
Qed.

Lemma short_of_enc sw v b : short_of sw (get_le 0 2 (enc sw 2 v ++ b)) = u16 v.
Proof.
  rewrite get_le_exact by apply length_enc. unfold short_of, enc, be_split.
  pose proof (le_combine_split 2 v) as Hv. pose proof (length_le_split 2 v) as Hl.
  destruct (list_2 _ Hl) as (x & y & He). rewrite He in Hv |- *.
  destruct sw; [simpl rev; rewrite SWAPSHORT_bytes|]; exact Hv.
Qed.

(** The same, with the macros written out. *)
Lemma SWAPLONG_enc v b : SWAPLONG (get_le 0 4 (enc true 4 v ++ b)) = u32 v.
Proof. exact (long_of_enc true v b). Qed.
Lemma get_le4_enc v b : get_le 0 4 (enc false 4 v ++ b) = u32 v.
Proof. exact (long_of_enc false v b). Qed.
Lemma SWAPSHORT_enc v b : SWAPSHORT (get_le 0 2 (enc true 2 v ++ b)) = u16 v.
Proof. exact (short_of_enc true v b). Qed.
Lemma get_le2_enc v b : get_le 0 2 (enc false 2 v ++ b) = u16 v.
Proof. exact (short_of_enc false v b). Qed.

Create Rewrite HintDb fields.
#[export] Hint Rewrite SWAPLONG_enc get_le4_enc SWAPSHORT_enc get_le2_enc : fields.

(** Skip the fields in front of the one that is read, then read it. *)
Ltac skip_fields :=
  repeat match goal with
    |- context [get_le (S ?o) ?n (?a ++ ?b)] =>
      rewrite (get_le_app_skip (S o) n a b) by (rewrite ?length_enc; simpl; lia);
      rewrite ?length_enc; cbn [Nat.sub length]
    end.
Ltac read_fields := rewrite <- ?app_assoc; skip_fields; autorewrite with fields.
