(* ===== verification/Bpf.v ===== *)
(** The BPF virtual machine's instruction set: the encoding macros of
    [pcap/bpf.h] and the dispatch on [pc->code] that [bpf_filter],
    [bpf_image] and the optimizer share. *)
From S2P Require Import Prelude.

#[local] Open Scope c_scope.

(** ** Instruction encodings (macros of [pcap/bpf.h]) *)

Definition BPF_CLASS (code : Z) : Z := code .& 0x07.
Definition BPF_LD := 0x00.
Definition BPF_LDX := 0x01.
Definition BPF_ST := 0x02.
Definition BPF_STX := 0x03.
Definition BPF_ALU := 0x04.
Definition BPF_JMP := 0x05.
Definition BPF_RET := 0x06.
Definition BPF_MISC := 0x07.

Definition BPF_SIZE (code : Z) : Z := code .& 0x18.
Definition BPF_W := 0x00.
Definition BPF_H := 0x08.
Definition BPF_B := 0x10.

Definition BPF_MODE (code : Z) : Z := code .& 0xe0.
Definition BPF_IMM := 0x00.
Definition BPF_ABS := 0x20.
Definition BPF_IND := 0x40.
Definition BPF_MEM := 0x60.
Definition BPF_LEN := 0x80.
Definition BPF_MSH := 0xa0.

Definition BPF_OP (code : Z) : Z := code .& 0xf0.
Definition BPF_ADD := 0x00.
Definition BPF_SUB := 0x10.
Definition BPF_MUL := 0x20.
Definition BPF_DIV := 0x30.
Definition BPF_OR := 0x40.
Definition BPF_AND := 0x50.
Definition BPF_LSH := 0x60.
Definition BPF_RSH := 0x70.
Definition BPF_NEG := 0x80.
Definition BPF_JA := 0x00.
Definition BPF_JEQ := 0x10.
Definition BPF_JGT := 0x20.
Definition BPF_JGE := 0x30.
Definition BPF_JSET := 0x40.

Definition BPF_SRC (code : Z) : Z := code .& 0x08.
Definition BPF_K := 0x00.
Definition BPF_X := 0x08.

Definition BPF_RVAL (code : Z) : Z := code .& 0x18.
Definition BPF_A := 0x10.

Definition BPF_MISCOP (code : Z) : Z := code .& 0xf8.
Definition BPF_TAX := 0x00.
Definition BPF_TXA := 0x80.

Definition BPF_MEMWORDS := 16.

Create HintDb bpf.
#[export] Hint Unfold BPF_CLASS BPF_LD BPF_LDX BPF_ST BPF_STX BPF_ALU BPF_JMP BPF_RET BPF_MISC
  BPF_SIZE BPF_W BPF_H BPF_B BPF_MODE BPF_IMM BPF_ABS BPF_IND BPF_MEM
  BPF_LEN BPF_MSH BPF_OP BPF_ADD BPF_SUB BPF_MUL BPF_DIV BPF_OR BPF_AND
  BPF_LSH BPF_RSH BPF_NEG BPF_JA BPF_JEQ BPF_JGT BPF_JGE BPF_JSET BPF_SRC
  BPF_K BPF_X BPF_RVAL BPF_A BPF_MISCOP BPF_TAX BPF_TXA BPF_MEMWORDS : bpf.

(** [struct bpf_insn]: [code] is a [u_short], [jt] and [jf] are [u_char],
    [k] is a [bpf_u_int32]. *)
Record bpf_insn := Insn { code : Z; jt : Z; jf : Z; k : Z }.

#[export] Instance bpf_insn_eq_dec : EqDecision bpf_insn.
Proof. solve_decision. Defined.

(** [BPF_STMT] and [BPF_JUMP], the array initializers. *)
Definition BPF_STMT (c kk : Z) : bpf_insn := Insn (u16 c) 0 0 kk.
Definition BPF_JUMP (c kk t f : Z) : bpf_insn := Insn (u16 c) t f kk.

(** The fields are within their C types. *)
Definition insn_ok (i : bpf_insn) : Prop :=
  is_u 16 (code i) /\ is_u 8 (jt i) /\ is_u 8 (jf i) /\ is_u 32 (k i).

Definition insn_okb (i : bpf_insn) : bool :=
  ((0 <=? code i) && (code i <? 2 ^ 16) && (0 <=? jt i) && (jt i <? 2 ^ 8) &&
   (0 <=? jf i) && (jf i <? 2 ^ 8) && (0 <=? k i) && (k i <? 2 ^ 32))%bool.

Lemma insn_okb_spec i : insn_okb i = true <-> insn_ok i.
Proof. unfold insn_okb, insn_ok, is_u. lia. Qed.

Abbreviation program := (list bpf_insn).
Definition prog_ok (f : program) : Prop := Forall insn_ok f.

(** ** The case labels

    [opcode] has one value per [case] label of the [switch (pc->code)] of
    [bpf_filter]; [opcode_bits] is the label's expression. *)

Inductive size := W | H | B.
Inductive src := K | X.
Inductive aluop := Add | Sub | Mul | Div | And | Or | Lsh | Rsh.
Inductive jmpop := Jgt | Jge | Jeq | Jset.

Inductive opcode :=
| RetK | RetA
| LdAbs (s : size) | LdLen | LdxLen | LdInd (s : size) | LdxMsh
| LdImm | LdxImm | LdMem | LdxMem | StM | StxM
| JmpJa | JmpIf (j : jmpop) (s : src)
| AluOp (a : aluop) (s : src) | AluNeg
| MiscTax | MiscTxa.

#[export] Instance size_eq_dec : EqDecision size.
Proof. solve_decision. Defined.
#[export] Instance src_eq_dec : EqDecision src.
Proof. solve_decision. Defined.
#[export] Instance aluop_eq_dec : EqDecision aluop.
Proof. solve_decision. Defined.
#[export] Instance jmpop_eq_dec : EqDecision jmpop.
Proof. solve_decision. Defined.
#[export] Instance opcode_eq_dec : EqDecision opcode.
Proof. solve_decision. Defined.

Definition size_bits (s : size) : Z :=
  match s with W => BPF_W | H => BPF_H | B => BPF_B end.
Definition src_bits (s : src) : Z := match s with K => BPF_K | X => BPF_X end.
Definition alu_bits (a : aluop) : Z :=
  match a with
  | Add => BPF_ADD | Sub => BPF_SUB | Mul => BPF_MUL | Div => BPF_DIV
  | And => BPF_AND | Or => BPF_OR | Lsh => BPF_LSH | Rsh => BPF_RSH
  end.
Definition jmp_bits (j : jmpop) : Z :=
  match j with Jgt => BPF_JGT | Jge => BPF_JGE | Jeq => BPF_JEQ | Jset => BPF_JSET end.

Definition opcode_bits (o : opcode) : Z :=
  match o with
  | RetK => BPF_RET .| BPF_K
  | RetA => BPF_RET .| BPF_A
  | LdAbs s => BPF_LD .| size_bits s .| BPF_ABS
  | LdLen => BPF_LD .| BPF_W .| BPF_LEN
  | LdxLen => BPF_LDX .| BPF_W .| BPF_LEN
  | LdInd s => BPF_LD .| size_bits s .| BPF_IND
  | LdxMsh => BPF_LDX .| BPF_MSH .| BPF_B
  | LdImm => BPF_LD .| BPF_IMM
  | LdxImm => BPF_LDX .| BPF_IMM
  | LdMem => BPF_LD .| BPF_MEM
  | LdxMem => BPF_LDX .| BPF_MEM
  | StM => BPF_ST
  | StxM => BPF_STX
  | JmpJa => BPF_JMP .| BPF_JA
  | JmpIf j s => BPF_JMP .| jmp_bits j .| src_bits s
  | AluOp a s => BPF_ALU .| alu_bits a .| src_bits s
  | AluNeg => BPF_ALU .| BPF_NEG
  | MiscTax => BPF_MISC .| BPF_TAX
  | MiscTxa => BPF_MISC .| BPF_TXA
  end.

Definition all_sizes := [W; H; B].
Definition all_srcs := [K; X].
Definition all_aluops := [Add; Sub; Mul; Div; And; Or; Lsh; Rsh].
Definition all_jmpops := [Jgt; Jge; Jeq; Jset].

Definition all_opcodes : list opcode :=
  [RetK; RetA; LdLen; LdxLen; LdxMsh; LdImm; LdxImm; LdMem; LdxMem; StM; StxM;
   JmpJa; AluNeg; MiscTax; MiscTxa]
  ++ map LdAbs all_sizes ++ map LdInd all_sizes
  ++ flat_map (fun j => map (JmpIf j) all_srcs) all_jmpops
  ++ flat_map (fun a => map (AluOp a) all_srcs) all_aluops.

(** Which [case] a code selects; [None] is [default]. *)
Definition decode (c : Z) : option opcode :=
  List.find (fun o => opcode_bits o =? c) all_opcodes.

(** Case analysis over all 43 labels. *)
Ltac opcode_cases o :=
  destruct o as [| |[]| | |[]| | | | | | | | |[] []|[] []| | |].

Lemma all_opcodes_complete o : In o all_opcodes.
Proof. opcode_cases o; vm_compute; tauto. Qed.

Lemma decode_encode o : decode (opcode_bits o) = Some o.
Proof. opcode_cases o; reflexivity. Qed.

Lemma decode_Some c o : decode c = Some o -> c = opcode_bits o.
Proof. intros [_ ?]%List.find_some. lia. Qed.

Lemma decode_None c : decode c = None -> forall o, opcode_bits o <> c.
Proof.
  intros Hn o. pose proof (List.find_none _ _ Hn o (all_opcodes_complete o)). simpl in *. lia.
Qed.

#[export] Hint Unfold opcode_bits size_bits src_bits alu_bits jmp_bits : bpf.

(** Evaluate the encoding macros on the code of a known label. *)
Ltac fold_bits_in H :=
  repeat match type of H with
  | context [Z.lor ?a ?b] =>
      let v := eval vm_compute in (Z.lor a b) in change (Z.lor a b) with v in H
  | context [Z.land ?a ?b] =>
      let v := eval vm_compute in (Z.land a b) in change (Z.land a b) with v in H
  end.
Ltac bpf_compute_in H :=
  autounfold with bpf in H; fold_bits_in H; cbn -[uwrap swrap] in H.
