(* ===== verification/BpfFilter.v ===== *)
(** [bpf/net/bpf_filter.c]: the BPF interpreter [bpf_filter] (userland
    build, 64-bit [size_t]).  What C leaves undefined, or turns into
    [abort()], is an explicit [fault]. *)
From S2P Require Import Prelude Bpf.

#[local] Open Scope c_scope.

(** ** Machine state *)

(** [A] and [X] are [u_int32]; [mem] is [int32 mem[BPF_MEMWORDS]], whose
    initial contents are indeterminate and therefore a parameter. *)
Record machine := Machine { rA : Z; rX : Z; rpc : Z; rmem : list Z }.

Inductive fault :=
| BadPc (at_ : Z)        (* [pc] left the program *)
| Aborted (c : Z)        (* [abort()] in the [default] case *)
| BadPacket (off : Z)    (* a read outside the packet buffer *)
| BadMem (idx : Z)       (* [mem[idx]] out of bounds *)
| DivZero                (* [A /= 0] *)
| BadShift (n : Z).      (* a shift by the width or more *)

Inductive outcome := Returned (v : Z) | Faulted (e : fault).
Inductive step_result := Next (m : machine) | Done (o : outcome).

Definition machine_ok (m : machine) : Prop :=
  is_u 32 (rA m) /\ is_u 32 (rX m) /\
  length (rmem m) = Z.to_nat BPF_MEMWORDS /\ Forall (is_i 32) (rmem m).

Definition setA (m : machine) (v : Z) : step_result :=
  Next (Machine v (rX m) (rpc m + 1) (rmem m)).
Definition setX (m : machine) (v : Z) : step_result :=
  Next (Machine (rA m) v (rpc m + 1) (rmem m)).
Definition jump (m : machine) (off : Z) : step_result :=
  Next (Machine (rA m) (rX m) (rpc m + 1 + off) (rmem m)).

(** ** Loads *)

Inductive fetched := Short | Loaded (v : Z) | Outside (off : Z).

Definition size_bytes (s : size) : Z := match s with W => 4 | H => 2 | B => 1 end.

(** The bounds test each load makes before it reads [p[kk]]; [kk] is an
    [int], the sum [kk + sizeof(...)] is a [size_t], and the byte-sized load
    compares [kk] with the unsigned [buflen]. *)
Definition too_short (s : size) (kk buflen : Z) : bool :=
  match s with
  | B => buflen <=? u32 kk
  | _ => buflen <? u64 (kk + size_bytes s)
  end.

(** [EXTRACT_LONG], [EXTRACT_SHORT] and [p[k]]: network byte order. *)
Definition extract (s : size) (p : list byte) (kk : Z) : fetched :=
  match sub kk (size_bytes s) p with
  | Some bs => Loaded (be_combine bs)
  | None => Outside kk
  end.

Definition load (s : size) (p : list byte) (buflen kk : Z) : fetched :=
  if too_short s kk buflen then Short else extract s p kk.

(** [k = pc->k] and [k = X + pc->k], as [int]. *)
Definition abs_off (i : bpf_insn) : Z := i32 (k i).
Definition ind_off (m : machine) (i : bpf_insn) : Z := i32 (u32 (rX m + k i)).

Definition with_loaded (r : fetched) (f : Z -> step_result) : step_result :=
  match r with
  | Short => Done (Returned 0)
  | Loaded v => f v
  | Outside off => Done (Faulted (BadPacket off))
  end.

(** [mem[pc->k]] read and written. *)
Definition mem_get (m : machine) (idx : Z) (f : Z -> step_result) : step_result :=
  match nthZ (rmem m) idx with
  | Some v => f (u32 v)
  | None => Done (Faulted (BadMem idx))
  end.
Definition mem_set (m : machine) (idx v : Z) : step_result :=
  match nthZ (rmem m) idx with
  | Some _ => Next (Machine (rA m) (rX m) (rpc m + 1) (<[Z.to_nat idx := i32 v]> (rmem m)))
  | None => Done (Faulted (BadMem idx))
  end.

(** ** Arithmetic and tests *)

Definition operand (m : machine) (i : bpf_insn) (s : src) : Z :=
  match s with X => rX m | K => k i end.

(** The [BPF_ALU] cases.  [BPF_DIV|BPF_X] tests for zero and rejects the
    packet; [BPF_DIV|BPF_K] divides without a test. *)
Definition alu (m : machine) (a : aluop) (s : src) (v : Z) : step_result :=
  let A := rA m in
  match a with
  | Add => setA m (u32 (A + v))
  | Sub => setA m (u32 (A - v))
  | Mul => setA m (u32 (A * v))
  | Div => if v =? 0
           then match s with X => Done (Returned 0) | K => Done (Faulted DivZero) end
           else setA m (A / v)
  | And => setA m (A .& v)
  | Or => setA m (A .| v)
  | Lsh => if v <? 32 then setA m (u32 (A << v)) else Done (Faulted (BadShift v))
  | Rsh => if v <? 32 then setA m (A >> v) else Done (Faulted (BadShift v))
  end.

Definition test (j : jmpop) (a v : Z) : bool :=
  match j with
  | Jgt => v <? a
  | Jge => v <=? a
  | Jeq => a =? v
  | Jset => negb (a .& v =? 0)
  end.

(** ** One iteration of the loop *)

Definition exec (i : bpf_insn) (p : list byte) (wirelen buflen : Z) (m : machine)
    (o : opcode) : step_result :=
  match o with
  | RetK => Done (Returned (k i))
  | RetA => Done (Returned (rA m))
  | LdAbs s => with_loaded (load s p buflen (abs_off i)) (setA m)
  | LdLen => setA m wirelen
  | LdxLen => setX m wirelen
  | LdInd s => with_loaded (load s p buflen (ind_off m i)) (setA m)
  | LdxMsh =>
      if buflen <=? u32 (abs_off i) then Done (Returned 0)
      else with_loaded (extract B p (k i)) (fun b => setX m ((b .& 0xf) << 2))
  | LdImm => setA m (k i)
  | LdxImm => setX m (k i)
  | LdMem => mem_get m (k i) (setA m)
  | LdxMem => mem_get m (k i) (setX m)
  | StM => mem_set m (k i) (rA m)
  | StxM => mem_set m (k i) (rX m)
  | JmpJa => jump m (i32 (k i))
  | JmpIf j s => jump m (if test j (rA m) (operand m i s) then jt i else jf i)
  | AluOp a s => alu m a s (operand m i s)
  | AluNeg => setA m (u32 (- rA m))
  | MiscTax => setX m (rA m)
  | MiscTxa => setA m (rX m)
  end.

Definition step (f : program) (p : list byte) (wirelen buflen : Z) (m : machine)
    : step_result :=
  match nthZ f (rpc m) with
  | None => Done (Faulted (BadPc (rpc m)))
  | Some i =>
      match decode (code i) with
      | None => Done (Faulted (Aborted (code i)))
      | Some o => exec i p wirelen buflen m o
      end
  end.

(** The [while (1)] loop: a program may loop for ever through a backward
    [ja], so the loop takes fuel, and [None] means that it ran out. *)
Fixpoint run (fuel : nat) (f : program) (p : list byte) (wirelen buflen : Z)
    (m : machine) : option outcome :=
  match fuel with
  | O => None
  | S fuel =>
      match step f p wirelen buflen m with
      | Done o => Some o
      | Next m' => run fuel f p wirelen buflen m'
      end
  end.

Definition init_machine (mem0 : list Z) : machine := Machine 0 0 0 mem0.

(** [bpf_filter (pc, p, wirelen, buflen)]: a null program accepts all. *)
Definition bpf_filter (fuel : nat) (mem0 : list Z) (pc : option program)
    (p : list byte) (wirelen buflen : Z) : option outcome :=
  match pc with
  | None => Some (Returned (u32 (-1)))
  | Some f => run fuel f p wirelen buflen (init_machine mem0)
  end.

(** A scratch memory for evaluating concrete runs. *)
Definition zero_mem : list Z := repeat 0 16.

(** ** Invariant: registers stay within their types *)

Definition result_ok (r : step_result) : Prop :=
  match r with
  | Next m => machine_ok m
  | Done (Returned v) => is_u 32 v
  | Done (Faulted _) => True
  end.

Lemma size_bytes_bound s : 0 < size_bytes s <= 4.
Proof. destruct s; simpl; lia. Qed.

Lemma land_u32 a b : is_u 32 a -> is_u 32 b -> is_u 32 (a .& b).
Proof.
  unfold is_u. intros. split; [apply Z.land_nonneg; lia|].
  destruct (Z.eq_dec (a .& b) 0) as [->|?]; [lia|].
  apply Z.log2_lt_pow2.
  - assert (0 <= a .& b) by (apply Z.land_nonneg; lia). lia.
  - eapply Z.le_lt_trans; [apply Z.log2_land; lia|].
    destruct (Z.eq_dec a 0) as [->|?]; [simpl; lia|].
    apply Z.min_lt_iff. left. apply Z.log2_lt_pow2; lia.
Qed.

Lemma lor_u32 a b : is_u 32 a -> is_u 32 b -> is_u 32 (a .| b).
Proof.
  unfold is_u. intros. split; [apply Z.lor_nonneg; lia|].
  destruct (Z.eq_dec (a .| b) 0) as [->|?]; [lia|].
  apply Z.log2_lt_pow2.
  - assert (0 <= a .| b) by (apply Z.lor_nonneg; lia). lia.
  - rewrite Z.log2_lor by lia.
    apply Z.max_lub_lt;
      [destruct (Z.eq_dec a 0) as [->|?]|destruct (Z.eq_dec b 0) as [->|?]];
      first [simpl; lia | apply Z.log2_lt_pow2; lia].
Qed.

Lemma shr_u32 a n : is_u 32 a -> 0 <= n -> is_u 32 (a >> n).
Proof.
  unfold is_u. intros. rewrite Z.shiftr_div_pow2 by lia.
  pose proof (Z.pow_pos_nonneg 2 n). split; [apply Z.div_pos; lia|].
  apply Z.div_lt_upper_bound; [lia|]. nia.
Qed.

Lemma zero_ok : is_u 32 0.
Proof. clia. Qed.

#[export] Hint Resolve zero_ok land_u32 lor_u32 shr_u32 : cint.

Lemma extract_ok s p kk v : extract s p kk = Loaded v -> is_u 32 v.
Proof.
  unfold extract. destruct (sub _ _ _) as [bs|] eqn:E; [|done]. intros [= <-].
  apply sub_Some_inv in E as (_ & _ & _ & E).
  pose proof (be_combine_bound bs) as Hb. pose proof (size_bytes_bound s).
  split; [lia|]. eapply Z.lt_le_trans; [apply Hb|]. apply Z.pow_le_mono_r; lia.
Qed.

Lemma load_ok s p buflen kk v : load s p buflen kk = Loaded v -> is_u 32 v.
Proof. unfold load. destruct (too_short _ _ _); [done|]. apply extract_ok. Qed.

Lemma setA_ok m v : machine_ok m -> is_u 32 v -> result_ok (setA m v).
Proof. unfold setA, setX, jump, result_ok, machine_ok. simpl. tauto. Qed.
Lemma setX_ok m v : machine_ok m -> is_u 32 v -> result_ok (setX m v).
Proof. unfold setA, setX, jump, result_ok, machine_ok. simpl. tauto. Qed.
Lemma jump_ok m off : machine_ok m -> result_ok (jump m off).
Proof. unfold setA, setX, jump, result_ok, machine_ok. simpl. tauto. Qed.

Lemma with_loaded_ok s p kk f :
  (forall v, extract s p kk = Loaded v -> result_ok (f v)) ->
  result_ok (with_loaded (extract s p kk) f).
Proof. intros Hf. destruct (extract _ _ _) eqn:E; cbn; auto with cint. Qed.

Lemma with_load_ok s p buflen kk f :
  (forall v, is_u 32 v -> result_ok (f v)) ->
  result_ok (with_loaded (load s p buflen kk) f).
Proof.
  intros Hf. destruct (load _ _ _ _) eqn:E; cbn; eauto using load_ok with cint.
Qed.

Lemma mem_get_ok m idx f :
  (forall v, is_u 32 v -> result_ok (f v)) -> result_ok (mem_get m idx f).
Proof. intros Hf. unfold mem_get. destruct (nthZ _ _); simpl; auto using u32_ok. Qed.

Lemma mem_set_ok m idx v : machine_ok m -> result_ok (mem_set m idx v).
Proof.
  unfold mem_set, result_ok, machine_ok. intros (? & ? & Hl & Hf).
  destruct (nthZ _ _); simpl; [|done]. rewrite length_insert.
  split_and!; auto. apply Forall_insert; auto using i32_ok.
Qed.

#[export] Hint Resolve setA_ok setX_ok jump_ok : cint.

Lemma div_u32 a v : is_u 32 a -> is_u 32 v -> v <> 0 -> is_u 32 (a / v).
Proof.
  unfold is_u. intros. split; [apply Z.div_pos; lia|].
  apply Z.div_lt_upper_bound; nia.
Qed.

Lemma alu_ok m a s v : machine_ok m -> is_u 32 v -> result_ok (alu m a s v).
Proof.
  intros Hm Hv. pose proof Hm as (HA & _).
  assert (0 <= v) by (unfold is_u in Hv; lia).
  destruct a; cbn [alu]; auto with cint.
  - destruct (Z.eqb_spec v 0); [|auto using div_u32 with cint].
    destruct s; cbn; auto with cint.
  - destruct (Z.ltb_spec v 32); cbn [result_ok]; auto with cint.
  - destruct (Z.ltb_spec v 32); cbn [result_ok]; auto with cint.
Qed.

Lemma msh_ok b : 0 <= b -> is_u 32 ((b .& 0xf) << 2).
Proof.
  intros. change 0xf with (Z.ones 4). rewrite Z.land_ones by lia.
  rewrite Z.shiftl_mul_pow2 by lia. pose proof (Z.mod_pos_bound b (2 ^ 4)). clia.
Qed.

Lemma exec_ok i p wirelen buflen m o :
  insn_ok i -> is_u 32 wirelen -> machine_ok m ->
  result_ok (exec i p wirelen buflen m o).
Proof.
  intros (_ & _ & _ & Hk) Hw Hm. pose proof Hm as (HA & HX & _).
  destruct o; cbn [exec]; auto using with_load_ok, mem_get_ok, mem_set_ok with cint.
  - destruct (_ <=? _); [cbn; auto with cint|]. apply with_loaded_ok. intros v Hv.
    apply setX_ok; [done|]. apply msh_ok. apply extract_ok in Hv. clia.
  - apply alu_ok; [done|]. by destruct s.
Qed.

Lemma step_ok f p wirelen buflen m :
  prog_ok f -> is_u 32 wirelen -> machine_ok m ->
  result_ok (step f p wirelen buflen m).
Proof.
  intros Hf Hw Hm. unfold step. destruct (nthZ f (rpc m)) as [i|] eqn:E; [|done].
  destruct (decode (code i)); [|done].
  apply exec_ok; auto. eapply nthZ_Forall; eauto.
Qed.
