(* ===== verification/BpfValidate.v ===== *)
(** [bpf/net/bpf_filter.c]: the program checker [bpf_validate], and what an
    accepted program is guaranteed when [bpf_filter] runs it. *)
From S2P Require Import Prelude Bpf BpfFilter.

#[local] Open Scope c_scope.

(** ** The checker *)

(** The body of the loop: the checks on the instruction [p] at index [i] of a
    program of [len] instructions.  [from] is a [u_int], and so is the sum of
    [from] and an offset; [len], an [int], is converted for the comparison. *)
Definition bpf_validate_insn (len i : Z) (p : bpf_insn) : bool :=
  let cls := BPF_CLASS (code p) in
  let mode := BPF_MODE (code p) in
  let op := BPF_OP (code p) in
  let from := u32 (i + 1) in
  if (cls =? BPF_LD) || (cls =? BPF_LDX) then
    if mode =? BPF_IMM then true
    else if (mode =? BPF_ABS) || (mode =? BPF_IND) || (mode =? BPF_MSH) then true
    else if mode =? BPF_MEM then negb (BPF_MEMWORDS <=? k p)
    else mode =? BPF_LEN
  else if (cls =? BPF_ST) || (cls =? BPF_STX) then negb (BPF_MEMWORDS <=? k p)
  else if cls =? BPF_ALU then
    if (op =? BPF_ADD) || (op =? BPF_SUB) || (op =? BPF_MUL) || (op =? BPF_OR)
       || (op =? BPF_AND) || (op =? BPF_LSH) || (op =? BPF_RSH) || (op =? BPF_NEG)
    then true
    else if op =? BPF_DIV then negb ((BPF_SRC (code p) =? BPF_K) && (k p =? 0))
    else false
  else if cls =? BPF_JMP then
    if op =? BPF_JA then negb (u32 len <=? u32 (from + k p))
    else if (op =? BPF_JEQ) || (op =? BPF_JGT) || (op =? BPF_JGE) || (op =? BPF_JSET)
    then negb ((u32 len <=? u32 (from + jt p)) || (u32 len <=? u32 (from + jf p)))
    else false
  else (cls =? BPF_RET) || (cls =? BPF_MISC).

(** The [for] loop from index [i]. *)
Fixpoint bpf_validate_from (len i : Z) (f : program) : bool :=
  match f with
  | [] => true
  | p :: f' => if bpf_validate_insn len i p then bpf_validate_from len (i + 1) f' else false
  end.

(** [bpf_validate (f, len)] for [f] an array of [len] instructions. *)
Definition bpf_validate (f : program) : bool :=
  let len := Z.of_nat (length f) in
  if len <? 1 then false
  else if bpf_validate_from len 0 f then
    match last f with
    | Some p => BPF_CLASS (code p) =? BPF_RET
    | None => false
    end
  else false.

(** ** What the checks amount to, per [case] label *)

Definition checked (len i : Z) (p : bpf_insn) (o : opcode) : Prop :=
  match o with
  | LdMem | LdxMem | StM | StxM => k p < 16
  | AluOp Div K => k p <> 0
  | JmpJa => u32 (u32 (i + 1) + k p) < u32 len
  | JmpIf _ _ => u32 (u32 (i + 1) + jt p) < u32 len /\ u32 (u32 (i + 1) + jf p) < u32 len
  | _ => True
  end.

Lemma validate_insn_checked len i p o :
  bpf_validate_insn len i p = true -> decode (code p) = Some o -> checked len i p o.
Proof.
  intros Hv Hd%decode_Some. unfold bpf_validate_insn in Hv. rewrite Hd in Hv.
  unfold checked. opcode_cases o; try exact I; bpf_compute_in Hv; lia.
Qed.

Lemma checked_validate_insn len i x o :
  decode (code x) = Some o -> checked len i x o -> bpf_validate_insn len i x = true.
Proof.
  intros Hd%decode_Some Hc. unfold bpf_validate_insn. rewrite Hd. unfold checked in Hc.
  opcode_cases o; try reflexivity;
    autounfold with bpf;
    repeat match goal with
    | |- context [Z.lor ?a ?b] => let v := eval vm_compute in (Z.lor a b) in change (Z.lor a b) with v
    | |- context [Z.land ?a ?b] => let v := eval vm_compute in (Z.land a b) in change (Z.land a b) with v
    end; cbn -[uwrap swrap]; lia.
Qed.

Lemma validate_from_nth len i f n p :
  bpf_validate_from len i f = true -> f !! n = Some p ->
  bpf_validate_insn len (i + Z.of_nat n) p = true.
Proof.
  revert i n. induction f as [|q f IH]; intros i n Hv Hn; [done|].
  simpl in Hv. destruct (bpf_validate_insn len i q) eqn:E; [|done].
  destruct n as [|n]; simpl in Hn.
  - injection Hn as <-. by rewrite Z.add_0_r.
  - rewrite Nat2Z.inj_succ, Z.add_succ_r, <- Z.add_succ_l. apply IH; [|done].
    by rewrite <- Z.add_1_r.
Qed.

(** The ways a validated program can still go wrong at an instruction. *)
Definition residual (i : bpf_insn) (e : fault) : Prop :=
  match e with
  | Aborted c => c = code i /\ decode c = None
  | BadPacket off => -4 <= off < 0 /\
      exists s, s <> B /\ (decode (code i) = Some (LdAbs s) \/ decode (code i) = Some (LdInd s))
  | BadShift n => 32 <= n /\
      exists s, decode (code i) = Some (AluOp Lsh s) \/ decode (code i) = Some (AluOp Rsh s)
  | _ => False
  end.

Lemma load_outside s (p : list byte) buflen kk off :
  is_i 32 kk -> 0 <= buflen <= Z.of_nat (length p) -> buflen <= 2 ^ 31 ->
  load s p buflen kk = Outside off -> off = kk /\ -4 <= off < 0 /\ s <> B.
Proof.
  unfold load. intros Hk Hb Hb'. destruct (too_short s kk buflen) eqn:Ht; [done|].
  unfold extract. destruct (sub _ _ _) eqn:E; [done|]. intros [= <-]. split; [done|].
  pose proof (size_bytes_bound s).
  destruct (Z_lt_le_dec kk 0).
  - unfold too_short in Ht. cranges.
    destruct s; cbn [size_bytes] in *; try (rewrite uwrap_neg in Ht by clia; clia);
      (destruct (Z_lt_le_dec kk (-4)); [|split; [lia|done]]);
      rewrite uwrap_neg in Ht by clia; clia.
  - exfalso. unfold sub in E. unfold too_short in Ht. cranges.
    destruct s; cbn [size_bytes] in *; rewrite uwrap_id in Ht by clia;
      (rewrite !(proj2 (Z.leb_le _ _)) in E by lia; done).
Qed.
Lemma with_loaded_next r f m' : with_loaded r f = Next m' -> exists v, f v = Next m'.
Proof. destruct r; simpl; [done|eauto|done]. Qed.

Lemma alu_next m a s v m' : alu m a s v = Next m' -> rpc m' = rpc m + 1.
Proof.
  destruct a; cbn [alu]; intros Hs;
    repeat (case_match; try done); injection Hs as <-; done.
Qed.

(** Where the program counter goes. *)
Lemma exec_next i p wirelen buflen m o m' :
  exec i p wirelen buflen m o = Next m' ->
  o <> RetK /\ o <> RetA /\
  rpc m' = rpc m + 1 + match o with
                       | JmpJa => i32 (k i)
                       | JmpIf j s => if test j (rA m) (operand m i s) then jt i else jf i
                       | _ => 0
                       end.
Proof.
  destruct o; cbn [exec]; intros Hs; try discriminate Hs; (split; [done|]); (split; [done|]);
    try (apply alu_next in Hs; lia);
    unfold mem_get, mem_set in Hs; repeat (case_match; try done);
    try (apply with_loaded_next in Hs as [v Hs]);
    injection Hs as <-; simpl; lia.
Qed.

Lemma with_loaded_fault r f e :
  with_loaded r f = Done (Faulted e) ->
  (exists off, r = Outside off /\ e = BadPacket off) \/ exists v, f v = Done (Faulted e).
Proof. destruct r; simpl; [done|eauto|]. intros [= <-]. eauto. Qed.

Lemma mem_in_range m idx : machine_ok m -> 0 <= idx < 16 -> is_Some (nthZ (rmem m) idx).
Proof. intros (_ & _ & Hl & _) ?. apply nthZ_is_Some. rewrite Hl. unfold BPF_MEMWORDS. lia. Qed.

Lemma alu_fault i m a s v e :
  decode (code i) = Some (AluOp a s) -> (s = K -> a = Div -> v <> 0) ->
  alu m a s v = Done (Faulted e) -> residual i e.
Proof.
  destruct a; cbn [alu]; intros Hd Hz Hs; try done.
  - destruct (Z.eqb_spec v 0); [|done]. destruct s; [|done]. by destruct Hz.
  - destruct (Z.ltb_spec v 32); [done|]. injection Hs as <-. simpl. eauto.
  - destruct (Z.ltb_spec v 32); [done|]. injection Hs as <-. simpl. eauto.
Qed.

Lemma exec_fault len pos i p wirelen buflen m o e :
  insn_ok i -> machine_ok m -> decode (code i) = Some o -> checked len pos i o ->
  0 <= buflen <= Z.of_nat (length p) -> buflen <= 2 ^ 31 ->
  exec i p wirelen buflen m o = Done (Faulted e) -> residual i e.
Proof.
  intros (_ & _ & _ & Hk) Hm Hd Hc Hb Hb' Hs.
  pose proof (mem_in_range m (k i) Hm) as Hmem.
  destruct o; cbn [exec] in Hs; try done.
  - apply with_loaded_fault in Hs as [(off & Ho & ->)|[v Hs]]; [|done].
    apply load_outside in Ho as (-> & ? & ?); eauto using i32_ok. simpl; eauto.
  - apply with_loaded_fault in Hs as [(off & Ho & ->)|[v Hs]]; [|done].
    apply load_outside in Ho as (-> & ? & ?); eauto using i32_ok. simpl; eauto.
  - destruct (Z.leb_spec buflen (u32 (abs_off i))) as [|Hlt]; [done|].
    unfold abs_off in Hlt. autorewrite with cint in Hlt.
    rewrite uwrap_id in Hlt by done. unfold extract in Hs.
    rewrite sub_Some in Hs by (cbn [size_bytes]; clia). done.
  - unfold mem_get in Hs. destruct Hmem as [v Hv]; [simpl in Hc; clia|]. by rewrite Hv in Hs.
  - unfold mem_get in Hs. destruct Hmem as [v Hv]; [simpl in Hc; clia|]. by rewrite Hv in Hs.
  - unfold mem_set in Hs. destruct Hmem as [v Hv]; [simpl in Hc; clia|]. by rewrite Hv in Hs.
  - unfold mem_set in Hs. destruct Hmem as [v Hv]; [simpl in Hc; clia|]. by rewrite Hv in Hs.
  - eapply alu_fault; eauto. intros -> ->. exact Hc.
Qed.

Section Validated.
Context (f : program) (Hok : prog_ok f) (Hlen : Z.of_nat (length f) < 2 ^ 31)
        (Hval : bpf_validate f = true).

Let len := Z.of_nat (length f).

Lemma validated_insn i p o :
  nthZ f i = Some p -> decode (code p) = Some o -> checked len i p o.
Proof using Hval.
  intros Hn Hd. pose proof (nthZ_Some_lt _ _ _ Hn) as Hi.
  unfold nthZ in Hn. destruct (Z.ltb_spec i 0); [done|].
  unfold bpf_validate in Hval. destruct (_ <? 1); [done|].
  destruct (bpf_validate_from _ 0 f) eqn:Hfrom; [|done].
  pose proof (validate_from_nth _ _ _ _ _ Hfrom Hn) as Hc.
  rewrite Z2Nat.id in Hc by lia. eapply validate_insn_checked; eauto.
Qed.

(** Execution does not fall off the end: the last instruction returns. *)
Lemma validated_last i p o :
  nthZ f i = Some p -> decode (code p) = Some o -> o <> RetK -> o <> RetA ->
  0 <= i + 1 < len.
Proof using Hval.
  intros Hn Hd%decode_Some Hk Ha. pose proof (nthZ_Some_lt _ _ _ Hn) as Hi.
  split; [lia|]. destruct (Z.eq_dec (i + 1) len) as [Heq|?]; [exfalso|unfold len in *; lia].
  unfold bpf_validate in Hval. destruct (_ <? 1); [done|].
  destruct (bpf_validate_from _ 0 f); [|done].
  rewrite last_lookup in Hval. unfold nthZ in Hn. destruct (Z.ltb_spec i 0); [done|].
  replace (Init.Nat.pred (length f)) with (Z.to_nat i) in Hval by (unfold len in *; lia).
  rewrite Hn, Hd in Hval.
  opcode_cases o; done.
Qed.

Lemma jump_target_short i off :
  0 <= i < len -> is_u 8 off -> u32 (u32 (i + 1) + off) < u32 len ->
  0 <= i + 1 + off < len.
Proof using Hlen.
  unfold len in *. intros Hi Ho. cranges.
  rewrite (uwrap_id 32 (i + 1)), (uwrap_id 32 (Z.of_nat _)), uwrap_id by clia. lia.
Qed.

Lemma jump_target_ja i kk :
  0 <= i < len -> is_u 32 kk -> u32 (u32 (i + 1) + kk) < u32 len ->
  0 <= i + 1 + i32 kk < len.
Proof using Hlen.
  unfold len in *. intros Hi Hk. cranges.
  rewrite (uwrap_id 32 (i + 1)), (uwrap_id 32 (Z.of_nat _)) by clia. intros Hlt.
  destruct (Z_lt_le_dec kk 2147483648).
  - rewrite swrap_nonneg by clia. rewrite uwrap_id in Hlt by clia. lia.
  - rewrite swrap_neg by clia. cranges.
    destruct (Z_lt_le_dec (i + 1 + kk) 4294967296).
    + rewrite uwrap_id in Hlt by clia. lia.
    + replace (i + 1 + kk) with (i + 1 + kk - 4294967296 + 1 * 2 ^ 32) in Hlt by lia.
      unfold uwrap in Hlt. rewrite Z.mod_add in Hlt by lia.
      rewrite Z.mod_small in Hlt by clia. lia.
Qed.

Definition in_prog (m : machine) : Prop := 0 <= rpc m < len.

(** What one step of a validated program can be. *)
Definition good_result (r : step_result) : Prop :=
  match r with
  | Next m => machine_ok m /\ in_prog m
  | Done (Returned v) => is_u 32 v
  | Done (Faulted e) => exists i, i ∈ f /\ residual i e
  end.

Lemma next_in_prog i p wirelen buflen m o m' :
  in_prog m -> nthZ f (rpc m) = Some i -> decode (code i) = Some o ->
  exec i p wirelen buflen m o = Next m' -> in_prog m'.
Proof using Hok Hlen Hval.
  intros Hin Hi Hd Hs. pose proof (validated_insn _ _ _ Hi Hd) as Hc.
  pose proof (nthZ_Forall _ _ _ _ Hok Hi) as (_ & Ht & Hf & Hk).
  apply exec_next in Hs as (Hnk & Hna & Hpc).
  pose proof (validated_last _ _ _ Hi Hd Hnk Hna). unfold in_prog in *. rewrite Hpc.
  destruct o; try lia; cbn [checked] in Hc.
  - by apply jump_target_ja.
  - destruct Hc. destruct (test _ _ _); by apply jump_target_short.
Qed.

Section Packet.
Context (p : list byte) (wirelen buflen : Z) (Hwire : is_u 32 wirelen)
        (Hbuf : 0 <= buflen <= Z.of_nat (length p)) (Hbuf' : buflen <= 2 ^ 31).

Lemma validated_step m :
  machine_ok m -> in_prog m -> good_result (step f p wirelen buflen m).
Proof using All.
  intros Hm Hin. pose proof (step_ok f p wirelen buflen m Hok Hwire Hm) as Hs.
  unfold step in *. destruct (nthZ_is_Some f (rpc m) Hin) as [i Hi]. rewrite Hi in *.
  pose proof (nthZ_Forall _ _ _ _ Hok Hi) as Hii.
  pose proof (nthZ_elem_of _ _ _ Hi) as Hif.
  destruct (decode (code i)) as [o|] eqn:Hd; [|exists i; simpl; eauto].
  destruct (exec i p wirelen buflen m o) as [m'|[v|e]] eqn:Hx; [|exact Hs|].
  - split; [exact Hs|]. eapply next_in_prog; eauto.
  - exists i. split; [done|]. eapply exec_fault; eauto. eapply validated_insn; eauto.
Qed.

Lemma validated_run fuel m o :
  machine_ok m -> in_prog m -> run fuel f p wirelen buflen m = Some o ->
  good_result (Done o).
Proof using All.
  revert m. induction fuel as [|fuel IH]; intros m Hm Hin; simpl; [done|].
  pose proof (validated_step m Hm Hin) as Hs.
  destruct (step f p wirelen buflen m) as [m'|o']; [|intros [= <-]; exact Hs].
  destruct Hs. by apply IH.
Qed.
End Packet.
End Validated.

(** ** Forward-only programs terminate *)

Definition ja_forward (i : bpf_insn) : bool :=
  match decode (code i) with
  | Some JmpJa => k i <? 2 ^ 31
  | _ => true
  end.

Lemma step_forward f p wirelen buflen m m' :
  prog_ok f -> forallb ja_forward f = true ->
  step f p wirelen buflen m = Next m' -> rpc m < rpc m'.
Proof.
  intros Hok Hfwd Hs. unfold step in Hs.
  destruct (nthZ f (rpc m)) as [i|] eqn:Hi; [|done].
  destruct (decode (code i)) as [o|] eqn:Hd; [|done].
  pose proof (nthZ_Forall _ _ _ _ Hok Hi) as (_ & Ht & Hf & Hk).
  apply exec_next in Hs as (_ & _ & ->). cranges.
  pose proof (nthZ_forallb _ _ _ _ Hfwd Hi) as Hj.
  unfold ja_forward in Hj. rewrite Hd in Hj.
  destruct o; try lia; [|destruct (test _ _ _); lia].
  rewrite swrap_nonneg by clia. lia.
Qed.

Lemma run_terminates f p wirelen buflen m fuel :
  prog_ok f -> forallb ja_forward f = true -> 0 <= rpc m ->
  Z.max 0 (Z.of_nat (length f) - rpc m) < Z.of_nat fuel ->
  exists o, run fuel f p wirelen buflen m = Some o.
Proof.
  intros Hok Hfwd. revert m. induction fuel as [|fuel IH]; intros m H0 Hlt.
  - lia.
  - simpl. destruct (step f p wirelen buflen m) as [m'|o] eqn:Hs; [|eauto].
    assert (rpc m < Z.of_nat (length f)).
    { unfold step in Hs. destruct (nthZ f (rpc m)) eqn:Hi; [|done].
      apply nthZ_Some_lt in Hi. lia. }
    apply step_forward in Hs; [|done..]. apply IH; lia.
Qed.

(** A run that leaves the program stops there, so [length f] steps suffice
    when every step stays inside. *)
Lemma run_fuel_mono f p wirelen buflen m fuel fuel' o :
  (fuel <= fuel')%nat -> run fuel f p wirelen buflen m = Some o ->
  run fuel' f p wirelen buflen m = Some o.
Proof.
  revert m fuel'. induction fuel as [|fuel IH]; intros m fuel' Hle Hr; [done|].
  destruct fuel' as [|fuel']; [lia|]. simpl in *.
  destruct (step f p wirelen buflen m); [|done]. apply IH; [lia|done].
Qed.

(** ** Programs that never fault

    [strict_insn] adds to the validator's checks what it leaves open: the
    code is one [bpf_filter] implements, word and half-word offsets cannot
    wrap, shifts are below the width and [ja] goes forward.  [X] is only
    written by [ldx 4*([k]&0xf)], as the code generator does to skip an IPv4
    header, so an indirect offset cannot wrap either. *)
Definition strict_insn (i : bpf_insn) : bool :=
  match decode (code i) with
  | None => false
  | Some o =>
      match o with
      | LdAbs B | LdInd B => true
      | LdAbs _ => k i <? 2 ^ 31
      | LdInd _ => k i <? 2 ^ 31 - 60
      | LdxLen | LdxImm | LdxMem | MiscTax => false
      | JmpJa => k i <? 2 ^ 31
      | AluOp (Lsh | Rsh) X => false
      | AluOp (Lsh | Rsh) K => k i <? 32
      | _ => true
      end
  end.
Definition strict (f : program) : bool := forallb strict_insn f.

Lemma strict_ja_forward f : strict f = true -> forallb ja_forward f = true.
Proof.
  unfold strict. rewrite !List.forallb_forall. intros Hs i Hi. specialize (Hs i Hi).
  unfold strict_insn in Hs. unfold ja_forward.
  destruct (decode (code i)) as [[]|]; auto.
Qed.

Definition small_X (m : machine) : Prop := 0 <= rX m <= 60.

Lemma msh_small b : 0 <= b -> 0 <= ((b .& 0xf) << 2) <= 60.
Proof.
  intros. change 0xf with (Z.ones 4). rewrite Z.land_ones by lia.
  rewrite Z.shiftl_mul_pow2 by lia. pose proof (Z.mod_pos_bound b (2 ^ 4)). lia.
Qed.

Lemma exec_small_X i p wirelen buflen m o m' :
  strict_insn i = true -> decode (code i) = Some o ->
  exec i p wirelen buflen m o = Next m' -> small_X m -> small_X m'.
Proof.
  unfold strict_insn. intros Hst Hd. rewrite Hd in Hst. unfold small_X.
  destruct o; try discriminate Hst; cbn [exec]; intros Hs;
    repeat match type of Hs with
    | alu _ ?a _ _ = _ => destruct a; cbn [alu] in Hs
    | context [mem_get] => unfold mem_get in Hs
    | context [mem_set] => unfold mem_set in Hs
    | context [match nthZ ?l ?j with _ => _ end] => destruct (nthZ l j)
    | context [if ?b then _ else _] => destruct b
    | context [match ?s with K => _ | X => _ end] => destruct s
    | with_loaded ?r _ = _ =>
        let E := fresh "E" in destruct r eqn:E; cbn [with_loaded] in Hs
    end; try discriminate Hs; injection Hs as <-; auto.
  intros _. simpl. apply msh_small. apply extract_ok in E. clia.
Qed.

Lemma residual_strict i p wirelen buflen m o e :
  insn_ok i -> strict_insn i = true -> decode (code i) = Some o -> small_X m ->
  0 <= buflen <= Z.of_nat (length p) -> buflen <= 2 ^ 31 ->
  exec i p wirelen buflen m o = Done (Faulted e) -> residual i e -> False.
Proof.
  intros (_ & _ & _ & Hk) Hst Hd HX Hb Hb' Hs Hr. unfold strict_insn in Hst. rewrite Hd in Hst.
  destruct e; simpl in Hr; try done.
  - destruct Hr as [-> Hr]. congruence.
  - destruct Hr as (Ho & s & Hs' & [Hd'|Hd']); rewrite Hd' in Hd; injection Hd as <-;
      cbn [exec] in Hs; apply with_loaded_fault in Hs as [(off' & Hl & [= ->])|[? ?]]; try done;
      (apply load_outside in Hl as (-> & _); [|apply i32_ok|done|done]).
    + unfold abs_off in *. rewrite swrap_nonneg in Ho by (destruct s; [clia|clia|done]). clia.
    + unfold ind_off, small_X in *.
      rewrite (uwrap_id 32), swrap_nonneg in Ho by (destruct s; [clia|clia|done]). clia.
  - destruct Hr as (Hn & [] & [Hd'|Hd']); rewrite Hd' in Hd; injection Hd as <-; try done;
      cbn -[Z.ltb Z.pow] in Hst;
      cbn [exec alu operand] in Hs; rewrite Hst in Hs; done.
Qed.

Section Strict.
Context (f : program) (Hok : prog_ok f) (Hlen : Z.of_nat (length f) < 2 ^ 31)
        (Hval : bpf_validate f = true) (Hstrict : strict f = true)
        (p : list byte) (wirelen buflen : Z) (Hwire : is_u 32 wirelen)
        (Hbuf : 0 <= buflen <= Z.of_nat (length p)) (Hbuf' : buflen <= 2 ^ 31).

Lemma strict_run fuel m o :
  machine_ok m -> in_prog f m -> small_X m ->
  run fuel f p wirelen buflen m = Some o -> exists v, o = Returned v /\ is_u 32 v.
Proof using All.
  revert m. induction fuel as [|fuel IH]; intros m Hm Hin HX; simpl; [done|].
  pose proof (validated_step f Hok Hlen Hval p wirelen buflen Hwire Hbuf Hbuf' m Hm Hin) as Hs.
  unfold step in *. destruct (nthZ f (rpc m)) as [i|] eqn:Hi;
    [|apply nthZ_is_Some in Hin as [? ?]; congruence].
  pose proof (nthZ_Forall _ _ _ _ Hok Hi) as Hii.
  pose proof (nthZ_forallb _ _ _ _ Hstrict Hi) as Hsi.
  destruct (decode (code i)) as [o'|] eqn:Hd.
  2: { unfold strict_insn in Hsi. by rewrite Hd in Hsi. }
  destruct (exec i p wirelen buflen m o') as [m'|[v|e]] eqn:Hx; simpl in Hs.
  - destruct Hs. apply IH; auto. eapply exec_small_X; eauto.
  - intros [= <-]. eauto.
  - exfalso. destruct (nthZ_is_Some f (rpc m) Hin) as [i' Hi']. rewrite Hi in Hi'.
    injection Hi' as <-. eapply residual_strict; eauto.
    eapply exec_fault; eauto. eapply validated_insn; eauto.
Qed.
End Strict.

(** ** Properties *)

Definition mem_ok (mem0 : list Z) : Prop :=
  length mem0 = Z.to_nat BPF_MEMWORDS /\ Forall (is_i 32) mem0.

Lemma init_machine_ok mem0 : mem_ok mem0 -> machine_ok (init_machine mem0).
Proof. intros [? ?]. split_and!; simpl; auto using zero_ok. Qed.

Lemma zero_mem_ok : mem_ok zero_mem.
Proof. split; [done|]. unfold zero_mem. simpl. repeat constructor; clia. Qed.

Lemma validated_nonempty f : bpf_validate f = true -> 0 < Z.of_nat (length f).
Proof. unfold bpf_validate. destruct (Z.ltb_spec (Z.of_nat (length f)) 1); [done|lia]. Qed.

Lemma init_in_prog f mem0 : bpf_validate f = true -> in_prog f (init_machine mem0).
Proof. intros ?%validated_nonempty. unfold in_prog. simpl. lia. Qed.

(** C1: A program [bpf_validate] accepts never leaves its own code, never
    indexes the scratch memory out of bounds and never divides by zero,
    however long it runs and whatever the packet holds: a run that goes wrong
    does so at an instruction with an unimplemented code, at a word or
    half-word load whose [int] offset lies in [-4..-1], or at a shift by 32
    or more. *)
Theorem bpf_validate_safe f p wirelen buflen mem0 fuel e :
  prog_ok f -> Z.of_nat (length f) < 2 ^ 31 -> bpf_validate f = true ->
  mem_ok mem0 -> is_u 32 wirelen ->
  0 <= buflen <= Z.of_nat (length p) -> buflen <= 2 ^ 31 ->
  bpf_filter fuel mem0 (Some f) p wirelen buflen = Some (Faulted e) ->
  exists i, i ∈ f /\ residual i e.
Proof.
  intros Hok Hlen Hval Hmem Hw Hb Hb' Hr. simpl in Hr.
  eapply (validated_run f Hok Hlen Hval p wirelen buflen Hw Hb Hb' fuel) in Hr; [exact Hr|..].
  - by apply init_machine_ok.
  - by apply init_in_prog.
Qed.

(** An accepted program whose [ja] offsets go forward terminates: the
    interpreter's loop runs at most once per instruction. *)
Theorem bpf_filter_terminates f p wirelen buflen mem0 :
  prog_ok f -> bpf_validate f = true -> forallb ja_forward f = true ->
  exists o, bpf_filter (S (length f)) mem0 (Some f) p wirelen buflen = Some o.
Proof. intros Hok Hval Hfwd. cbn [bpf_filter]. apply run_terminates; simpl; auto; lia. Qed.

Lemma strict_total f p wirelen buflen mem0 :
  prog_ok f -> Z.of_nat (length f) < 2 ^ 31 -> bpf_validate f = true ->
  strict f = true -> mem_ok mem0 -> is_u 32 wirelen ->
  0 <= buflen <= Z.of_nat (length p) -> buflen <= 2 ^ 31 ->
  exists v, run (S (length f)) f p wirelen buflen (init_machine mem0) = Some (Returned v)
            /\ is_u 32 v.
Proof.
  intros Hok Hlen Hval Hst Hmem Hw Hb Hb'.
  assert (exists o, run (S (length f)) f p wirelen buflen (init_machine mem0) = Some o)
    as [o Ho] by (apply run_terminates; auto using strict_ja_forward; simpl; lia).
  rewrite Ho.
  edestruct (strict_run f Hok Hlen Hval Hst p wirelen buflen Hw Hb Hb') as (v & -> & Hv);
    eauto using init_machine_ok, init_in_prog.
  unfold small_X. simpl. lia.
Qed.

(** C2: Total safety: on a program that [bpf_validate] accepts and that is
    [strict], [bpf_filter] always returns a 32-bit verdict, for every packet,
    every length and every content of the uninitialized scratch memory. *)
Theorem bpf_filter_total f p wirelen buflen mem0 :
  prog_ok f -> Z.of_nat (length f) < 2 ^ 31 -> bpf_validate f = true ->
  strict f = true -> mem_ok mem0 -> is_u 32 wirelen ->
  0 <= buflen <= Z.of_nat (length p) -> buflen <= 2 ^ 31 ->
  exists v, bpf_filter (S (length f)) mem0 (Some f) p wirelen buflen = Some (Returned v)
            /\ is_u 32 v.
Proof. intros. cbn [bpf_filter]. by apply strict_total. Qed.

(** The program [(000) ldh [12]; (001) jeq #0x800 jt 2 jf 3; (002) ret #65535;
    (003) ret #0]. *)
Definition ip_prog : program :=
  [BPF_STMT (BPF_LD .| BPF_H .| BPF_ABS) 12;
   BPF_JUMP (BPF_JMP .| BPF_JEQ .| BPF_K) 0x800 0 1;
   BPF_STMT (BPF_RET .| BPF_K) 65535;
   BPF_STMT (BPF_RET .| BPF_K) 0].

Definition bad_code_prog : program := [BPF_STMT (BPF_RET .| BPF_X) 0].
Definition zeros (n : nat) : list byte := repeat (byte.of_Z 0) n.

Lemma prog_okb f : forallb insn_okb f = true -> prog_ok f.
Proof.
  intros Hf. apply Forall_forall. intros x ?%list_elem_of_In.
  apply insn_okb_spec. by eapply List.forallb_forall in Hf.
Qed.

(** Witness of C1, at a program with a code [bpf_filter] does not implement. *)
Lemma bpf_validate_safe_witness :
  bpf_filter 9 zero_mem (Some bad_code_prog) (zeros 4) 4 4
    = Some (Faulted (Aborted 14)) /\
  exists i, i ∈ bad_code_prog /\ residual i (Aborted 14).
Proof.
  split; [vm_compute; reflexivity|].
  apply (bpf_validate_safe bad_code_prog (zeros 4) 4 4 zero_mem 9);
    [by apply prog_okb|zcompute|zcompute|apply zero_mem_ok|zcompute..].
Defined.

(** Witness of C2. *)
Lemma bpf_filter_terminates_witness :
  exists o, bpf_filter 5 zero_mem (Some ip_prog) (zeros 14) 14 14 = Some o.
Proof. apply (bpf_filter_terminates ip_prog); [by apply prog_okb|reflexivity..]. Defined.

(** Witness of C3. *)
Lemma bpf_filter_total_witness :
  exists v, bpf_filter 5 zero_mem (Some ip_prog) (zeros 14) 14 14 = Some (Returned v)
            /\ is_u 32 v.
Proof.
  apply (bpf_filter_total ip_prog);
    [by apply prog_okb|zcompute|zcompute|zcompute|apply zero_mem_ok|zcompute..].
Defined.

(** A load at a fixed offset, exactly: of a packet of at most [2^31] bytes it
    gives the bytes at the offset if they are there, it fails if they are not,
    and it reads before the packet if the offset is negative and the sum of
    offset and size is not. *)
Lemma load_exact s (p : list byte) buflen kk :
  is_i 32 kk -> 0 <= buflen <= Z.of_nat (length p) -> buflen <= 2 ^ 31 ->
  load s p buflen kk =
    if (0 <=? kk) && (kk + size_bytes s <=? buflen)
    then Loaded (be_combine (take (Z.to_nat (size_bytes s)) (drop (Z.to_nat kk) p)))
    else if negb (bool_decide (s = B)) && (kk <? 0) && (0 <=? kk + size_bytes s)
            && (kk + size_bytes s <=? buflen)
    then Outside kk else Short.
Proof.
  intros Hk Hb Hb'. pose proof (size_bytes_bound s) as Hs. unfold load, extract.
  destruct (Z.ltb_spec kk 0) as [Hneg|Hpos].
  - replace (0 <=? kk) with false by lia. rewrite andb_false_l.
    rewrite sub_None by lia. cranges.
    destruct s; cbn [too_short size_bytes] in *.
    + destruct (Z_lt_le_dec kk (-4)).
      * rewrite uwrap_neg by clia. repeat case_match; first [done | clia].
      * rewrite uwrap_id by clia. case_bool_decide; [done|]. repeat case_match; first [done | clia].
    + destruct (Z_lt_le_dec kk (-2)).
      * rewrite uwrap_neg by clia. repeat case_match; first [done | clia].
      * rewrite uwrap_id by clia. case_bool_decide; [done|]. repeat case_match; first [done | clia].
    + rewrite uwrap_neg by clia. case_bool_decide; [|done]. repeat case_match; first [done | clia].
  - replace (0 <=? kk) with true by lia. rewrite andb_true_l, andb_false_r. cranges.
    assert (too_short s kk buflen = negb (kk + size_bytes s <=? buflen)) as ->
      by (destruct s; cbn [too_short size_bytes]; rewrite uwrap_id by clia; clia).
    destruct (Z.leb_spec (kk + size_bytes s) buflen); simpl; [|done].
    by rewrite sub_Some by lia.
Qed.

(** [ld [kk]; ret a], [ldh] or [ldb]. *)
Definition load_prog (s : size) (kk : Z) : program :=
  [BPF_STMT (BPF_LD .| size_bits s .| BPF_ABS) kk; BPF_STMT (BPF_RET .| BPF_A) 0].

(** C40: The bounds test of the word and half-word loads wraps.  For every
    offset [kk] and every packet of at most [2^31] captured bytes,
    [bpf_validate] accepts the program that loads a word, a half-word or a
    byte at [kk] and returns it.  [bpf_filter] gives the bytes if they are in
    the packet; it reads before the packet if [kk], taken as an int, is
    negative (-4 to -1 for a word, -2 and -1 for a half-word) and the packet
    reaches to the end of what is loaded; otherwise it rejects the packet.  A
    byte load never does so.  And [bpf_validate] accepts every code of the
    class [BPF_RET] that [bpf_filter] does not implement, which aborts on it,
    whatever the packet. *)
Theorem bpf_load_check_wraps (s : size) (kk wirelen buflen : Z) (p : list byte) (mem0 : list Z) :
  is_u 32 kk -> 0 <= buflen <= Z.of_nat (length p) -> buflen <= 2 ^ 31 ->
  let off := i32 kk in
  let n := size_bytes s in
  bpf_validate (load_prog s kk) = true /\
  bpf_filter 2 mem0 (Some (load_prog s kk)) p wirelen buflen = Some (
    if (0 <=? off) && (off + n <=? buflen)
    then Returned (be_combine (take (Z.to_nat n) (drop (Z.to_nat off) p)))
    else if negb (bool_decide (s = B)) && (off <? 0) && (0 <=? off + n) && (off + n <=? buflen)
    then Faulted (BadPacket off) else Returned 0) /\
  forall c, is_u 16 c -> BPF_CLASS c = BPF_RET -> decode c = None ->
    bpf_validate [BPF_STMT c kk] = true /\
    bpf_filter 1 mem0 (Some [BPF_STMT c kk]) p wirelen buflen = Some (Faulted (Aborted c)).
Proof.
  intros Hk Hb Hb' off n. split; [|split].
  - destruct s; reflexivity.
  - assert (forall m, rpc m = 0 -> step (load_prog s kk) p wirelen buflen m
                               = with_loaded (load s p buflen off) (setA m)) as Hld.
    { intros m Hm. unfold step. rewrite Hm. by destruct s. }
    assert (forall m, rpc m = 1 -> step (load_prog s kk) p wirelen buflen m
                               = Done (Returned (rA m))) as Hret.
    { intros m Hm. unfold step. by rewrite Hm. }
    unfold bpf_filter. cbn [run]. rewrite Hld by done.
    rewrite load_exact by (try apply i32_ok; assumption). fold n.
    destruct (_ && _); cbn [with_loaded setA]; [|by destruct (_ && _)].
    by rewrite Hret.
  - intros c Hc Hcls Hd.
    assert (code (BPF_STMT c kk) = c) as Hcode by (cbn [BPF_STMT code]; by apply uwrap_id).
    split.
    + assert (bpf_validate_insn 1 0 (BPF_STMT c kk) = true) as Hv
        by (unfold bpf_validate_insn; by rewrite Hcode, Hcls).
      unfold bpf_validate. change (length [BPF_STMT c kk]) with 1%nat.
      cbn [bpf_validate_from last]. change (Z.of_nat 1) with 1.
      by rewrite Hv, Hcode, Hcls.
    + assert (step [BPF_STMT c kk] p wirelen buflen (init_machine mem0)
              = Done (Faulted (Aborted c))) as Hs.
      { unfold step. change (nthZ _ _) with (Some (BPF_STMT c kk)). cbv beta iota.
        by rewrite Hcode, Hd. }
      unfold bpf_filter. cbn [run]. by rewrite Hs.
Qed.

(** Witness of C40: half-words at -1, and [BPF_RET|BPF_X]. *)
Lemma bpf_load_check_wraps_witness :
  bpf_filter 2 zero_mem (Some (load_prog H 0xffffffff)) (zeros 4) 4 4
    = Some (Faulted (BadPacket (-1))) /\
  bpf_filter 1 zero_mem (Some [BPF_STMT 14 0xffffffff]) (zeros 4) 4 4
    = Some (Faulted (Aborted 14)).
Proof.
  destruct (bpf_load_check_wraps H 0xffffffff 4 4 (zeros 4) zero_mem) as (_ & Hf & Ha);
    [zcompute..|].
  split; [exact Hf|]. apply Ha; zcompute.
Defined.
