(* ===== verification/BpfImage.v ===== *)
(** [bpf_image.c] and [bpf_dump.c]: the disassembler [bpf_image], and the
    listing of programs. *)
From S2P Require Import Prelude CString Bpf BpfFilter BpfValidate.

#[local] Open Scope string_scope.
#[local] Open Scope Z_scope.
#[local] Open Scope c_scope.

(** The formats the [switch] selects, all with at most one conversion. *)
Inductive opfmt :=
| FD (pre post : string)    (* pre %d post *)
| FX (pre : string)         (* pre %x *)
| FS (s : string).          (* no conversion *)

Definition format (f : opfmt) (v : Z) : string :=
  match f with
  | FD pre post => pre +:+ fmt_d v +:+ post
  | FX pre => pre +:+ fmt_x v
  | FS s => s
  end.

Definition alu_name (a : aluop) : string :=
  match a with
  | Add => "add" | Sub => "sub" | Mul => "mul" | Div => "div"
  | And => "and" | Or => "or" | Lsh => "lsh" | Rsh => "rsh"
  end.
Definition jmp_name (j : jmpop) : string :=
  match j with Jgt => "jgt" | Jge => "jge" | Jeq => "jeq" | Jset => "jset" end.
Definition ld_name (s : size) : string :=
  match s with W => "ld" | H => "ldh" | B => "ldb" end.

(** [op], [fmt] and [v] as the [switch] leaves them.  There is no case for
    [BPF_LDX|BPF_W|BPF_LEN], which falls into [default]. *)
Definition image_default (p : bpf_insn) : string * opfmt * Z := ("unimp", FX "0x", code p).

Definition image_case (p : bpf_insn) (n : Z) : string * opfmt * Z :=
  let v := i32 (k p) in
  match decode (code p) with
  | None => image_default p
  | Some o =>
      match o with
      | RetK => ("ret", FD "#" "", v)
      | RetA => ("ret", FS "", v)
      | LdAbs s => (ld_name s, FD "[" "]", v)
      | LdLen => ("ld", FS "#pktlen", v)
      | LdxLen => image_default p
      | LdInd s => (ld_name s, FD "[x + " "]", v)
      | LdImm => ("ld", FX "#0x", v)
      | LdxImm => ("ldx", FX "#0x", v)
      | LdxMsh => ("ldxb", FD "4*([" "]&0xf)", v)
      | LdMem => ("ld", FD "M[" "]", v)
      | LdxMem => ("ldx", FD "M[" "]", v)
      | StM => ("st", FD "M[" "]", v)
      | StxM => ("stx", FD "M[" "]", v)
      | JmpJa => ("ja", FD "" "", i32 (u32 (n + 1 + k p)))
      | JmpIf j K => (jmp_name j, FX "#0x", v)
      | JmpIf j X => (jmp_name j, FS "x", v)
      | AluOp a X => (alu_name a, FS "x", v)
      | AluOp And K => ("and", FX "#0x", v)
      | AluOp Or K => ("or", FX "#0x", v)
      | AluOp a K => (alu_name a, FD "#" "", v)
      | AluNeg => ("neg", FS "", v)
      | MiscTax => ("tax", FS "", v)
      | MiscTxa => ("txa", FS "", v)
      end
  end.

Definition tab : string := String (Ascii.ascii_of_nat 9) "".

(** The second [snprintf], before its truncation. *)
Definition image_line (p : bpf_insn) (n : Z) (op operand : string) : string :=
  if (BPF_CLASS (code p) =? BPF_JMP) && negb (BPF_OP (code p) =? BPF_JA)
  then "(" +:+ pad_zero 3 n +:+ ") " +:+ pad_right 8 op +:+ " " +:+ pad_right 16 operand
         +:+ " jt " +:+ fmt_d (i32 (n + 1 + jt p)) +:+ tab +:+ "jf " +:+ fmt_d (i32 (n + 1 + jf p))
  else "(" +:+ pad_zero 3 n +:+ ") " +:+ pad_right 8 op +:+ " " +:+ operand.

(** [char operand[64]; static char image[256]]. *)
Definition bpf_image (p : bpf_insn) (n : Z) : string :=
  let '(op, f, v) := image_case p n in
  snprintf 256 (image_line p n op (snprintf 64 (format f v))).

(** ** [bpf_dump] (bpf_dump.c)

    The lines that are printed; [%08x] pads with zeros. *)
Definition pad_hex (z : Z) : string := rep (8 - String.length (fmt_x z)) "0" +:+ fmt_x z.
Definition bpf_dump (p : list bpf_insn) (option : Z) : list string :=
  if 2 <? option then
    fmt_d (Z.of_nat (length p)) ::
    map (fun i => fmt_d (code i) +:+ " " +:+ fmt_d (jt i) +:+ " " +:+ fmt_d (jf i) +:+ " " +:+ fmt_d (k i)) p
  else if 1 <? option then
    map (fun i => "{ 0x" +:+ fmt_x (code i) +:+ ", " +:+ fmt_d (jt i) +:+ ", " +:+ fmt_d (jf i) +:+ ", 0x" +:+ pad_hex (k i) +:+ " },") p
  else imap (fun n i => bpf_image i (Z.of_nat n)) p.

Example dump_ret : bpf_dump [BPF_STMT (BPF_RET .| BPF_K) 96] 2 = ["{ 0x6, 0, 0, 0x00000060 },"] /\
  bpf_dump [BPF_STMT (BPF_RET .| BPF_K) 96] 3 = ["1"; "6 0 0 96"] /\ bpf_dump [BPF_STMT (BPF_RET .| BPF_K) 96] 1 = ["(000) ret      #96"].
Proof. split_and!; reflexivity. Qed.

(** ** Properties *)

Definition opfmt_len (f : opfmt) : nat :=
  match f with
  | FD pre post => String.length pre + 11 + String.length post
  | FX pre => String.length pre + 8
  | FS s => String.length s
  end.

Lemma length_format f v : is_i 32 v -> (String.length (format f v) <= opfmt_len f)%nat.
Proof.
  intros Hv. destruct f; simpl; rewrite ?length_append; [|pose proof (length_fmt_x v); lia|lia].
  pose proof (length_fmt_d_int v Hv). lia.
Qed.

Lemma image_case_bounds p n op f v :
  insn_ok p -> image_case p n = (op, f, v) ->
  (String.length op <= 5)%nat /\ (opfmt_len f <= 22)%nat /\ is_i 32 v.
Proof.
  intros (Hc & _). unfold image_case, image_default.
  assert (is_i 32 (code p)) by clia. pose proof (i32_ok (k p)).
  pose proof (i32_ok (u32 (n + 1 + k p))).
  destruct (decode (code p)) as [o|]; [opcode_cases o|];
    intros [= <- <- <-]; simpl; split_and!; auto; lia.
Qed.

Lemma length_pad_right w s :
  String.length (pad_right w s) = Nat.max w (String.length s).
Proof. unfold pad_right. rewrite length_append, length_rep. lia. Qed.

Lemma length_pad_zero n : is_i 32 n -> (String.length (pad_zero 3 n) <= 15)%nat.
Proof.
  intros Hn. pose proof (length_fmt_d_int n Hn). unfold pad_zero.
  destruct (Z.ltb_spec n 0); cbn [String.length]; rewrite length_append, length_rep.
  - pose proof (length_fmt_d (- n) 10 ltac:(lia) ltac:(clia)). lia.
  - lia.
Qed.

(** The two fixed buffers of [bpf_image] are large enough: for every
    instruction and every index, neither the operand nor the line is cut
    short by [snprintf]. *)
Theorem bpf_image_not_truncated p n op f v :
  insn_ok p -> is_i 32 n -> image_case p n = (op, f, v) ->
  bpf_image p n = image_line p n op (format f v).
Proof.
  intros Hp Hn Hc. unfold bpf_image. rewrite Hc.
  destruct (image_case_bounds _ _ _ _ _ Hp Hc) as (Hop & Hf & Hv).
  pose proof (length_format f v Hv).
  rewrite (snprintf_fits 64) by lia. apply snprintf_fits.
  pose proof (length_pad_zero n Hn).
  pose proof (length_fmt_d_int _ (i32_ok (n + 1 + jt p))).
  pose proof (length_fmt_d_int _ (i32_ok (n + 1 + jf p))).
  unfold image_line. destruct (_ && _);
    rewrite !length_append, !length_pad_right; simpl; lia.
Qed.

Lemma bpf_image_not_truncated_witness :
  insn_ok (BPF_JUMP (BPF_JMP .| BPF_JEQ .| BPF_K) 0x800 0 1) /\
  bpf_image (BPF_JUMP (BPF_JMP .| BPF_JEQ .| BPF_K) 0x800 0 1) 1
    = "(001) jeq      #0x800           jt 2" +:+ tab +:+ "jf 3".
Proof.
  split; [by apply insn_okb_spec|].
  rewrite (bpf_image_not_truncated _ _ "jeq" (FX "#0x") 0x800);
    [reflexivity|by apply insn_okb_spec|zcompute|reflexivity].
Defined.

(** The disassembler knows every instruction the interpreter executes
    except [ldx #pktlen]: a code is printed as [unimp] exactly when
    [bpf_filter] aborts on it or it is [BPF_LDX|BPF_W|BPF_LEN]. *)
Theorem bpf_image_unimp p n :
  (image_case p n).1.1 = "unimp" <->
  decode (code p) = None \/ decode (code p) = Some LdxLen.
Proof.
  unfold image_case. destruct (decode (code p)) as [o|]; [|simpl; tauto].
  split; [|intros [|[= ->]]; done].
  opcode_cases o; simpl; intros [=]; auto.
Qed.
