(* ===== verification/Datalink.v ===== *)
(** Link-layer types: the [DLT_*] values of [pcap/bpf.h], the [LINKTYPE_*]
    values that savefiles hold and the mapping between the two
    ([pcap-common.c]), and the table of names and descriptions behind
    [pcap_datalink_name_to_val] and its companions ([pcap.c]).

    The tables are the ones a Linux build sees: the branches of [bpf.h] for
    the BSDs are not taken, so [DLT_RAW] is 12, [DLT_SLIP_BSDOS] 15,
    [DLT_PPP_BSDOS] 16, 121 is [DLT_HHDLC], [DLT_PFSYNC] is 246 and [DLT_FR]
    is not defined. *)
From S2P Require Import Prelude CString.

#[local] Open Scope string_scope.
#[local] Open Scope Z_scope.

(** ** [DLT_*] and [LINKTYPE_*] values

    One table per stretch of the header or source file, name and value. *)

Definition dlt_defs_1 : list (string * Z) :=
  [("DLT_NULL", 0); ("DLT_EN10MB", 1);
   ("DLT_EN3MB", 2); ("DLT_AX25", 3);
   ("DLT_PRONET", 4); ("DLT_CHAOS", 5);
   ("DLT_IEEE802", 6); ("DLT_ARCNET", 7);
   ("DLT_SLIP", 8); ("DLT_PPP", 9);
   ("DLT_FDDI", 10); ("DLT_ATM_RFC1483", 11);
   ("DLT_RAW", 12); ("DLT_SLIP_BSDOS", 15);
   ("DLT_PPP_BSDOS", 16); ("DLT_ATM_CLIP", 19);
   ("DLT_REDBACK_SMARTEDGE", 32); ("DLT_PPP_SERIAL", 50);
   ("DLT_PPP_ETHER", 51); ("DLT_SYMANTEC_FIREWALL", 99);
   ("DLT_MATCHING_MIN", 104); ("DLT_C_HDLC", 104);
   ("DLT_CHDLC", 104); ("DLT_IEEE802_11", 105)].

Definition dlt_defs_2 : list (string * Z) :=
  [("DLT_FRELAY", 107); ("DLT_LOOP", 108);
   ("DLT_ENC", 109); ("DLT_LINUX_SLL", 113);
   ("DLT_LTALK", 114); ("DLT_ECONET", 115);
   ("DLT_IPFILTER", 116); ("DLT_PFLOG", 117);
   ("DLT_CISCO_IOS", 118); ("DLT_PRISM_HEADER", 119);
   ("DLT_AIRONET_HEADER", 120); ("DLT_HHDLC", 121);
   ("DLT_IP_OVER_FC", 122); ("DLT_SUNATM", 123)].

Definition dlt_defs_3 : list (string * Z) :=
  [("DLT_RIO", 124); ("DLT_PCI_EXP", 125);
   ("DLT_AURORA", 126); ("DLT_IEEE802_11_RADIO", 127);
   ("DLT_TZSP", 128); ("DLT_ARCNET_LINUX", 129);
   ("DLT_JUNIPER_MLPPP", 130); ("DLT_JUNIPER_MLFR", 131);
   ("DLT_JUNIPER_ES", 132); ("DLT_JUNIPER_GGSN", 133);
   ("DLT_JUNIPER_MFR", 134); ("DLT_JUNIPER_ATM2", 135);
   ("DLT_JUNIPER_SERVICES", 136); ("DLT_JUNIPER_ATM1", 137);
   ("DLT_APPLE_IP_OVER_IEEE1394", 138); ("DLT_MTP2_WITH_PHDR", 139);
   ("DLT_MTP2", 140); ("DLT_MTP3", 141);
   ("DLT_SCCP", 142); ("DLT_DOCSIS", 143);
   ("DLT_LINUX_IRDA", 144); ("DLT_IBM_SP", 145);
   ("DLT_IBM_SN", 146); ("DLT_USER0", 147);
   ("DLT_USER1", 148); ("DLT_USER2", 149);
   ("DLT_USER3", 150); ("DLT_USER4", 151);
   ("DLT_USER5", 152); ("DLT_USER6", 153);
   ("DLT_USER7", 154); ("DLT_USER8", 155);
   ("DLT_USER9", 156); ("DLT_USER10", 157);
   ("DLT_USER11", 158); ("DLT_USER12", 159);
   ("DLT_USER13", 160); ("DLT_USER14", 161);
   ("DLT_USER15", 162)].

Definition dlt_defs_4 : list (string * Z) :=
  [("DLT_IEEE802_11_RADIO_AVS", 163); ("DLT_JUNIPER_MONITOR", 164);
   ("DLT_BACNET_MS_TP", 165); ("DLT_PPP_PPPD", 166);
   ("DLT_PPP_WITH_DIRECTION", 166); ("DLT_LINUX_PPP_WITHDIRECTION", 166);
   ("DLT_JUNIPER_PPPOE", 167); ("DLT_JUNIPER_PPPOE_ATM", 168);
   ("DLT_GPRS_LLC", 169); ("DLT_GPF_T", 170);
   ("DLT_GPF_F", 171); ("DLT_GCOM_T1E1", 172);
   ("DLT_GCOM_SERIAL", 173); ("DLT_JUNIPER_PIC_PEER", 174);
   ("DLT_ERF_ETH", 175); ("DLT_ERF_POS", 176);
   ("DLT_LINUX_LAPD", 177); ("DLT_JUNIPER_ETHER", 178);
   ("DLT_JUNIPER_PPP", 179); ("DLT_JUNIPER_FRELAY", 180);
   ("DLT_JUNIPER_CHDLC", 181); ("DLT_MFR", 182);
   ("DLT_JUNIPER_VP", 183); ("DLT_A429", 184);
   ("DLT_A653_ICM", 185); ("DLT_USB", 186);
   ("DLT_BLUETOOTH_HCI_H4", 187); ("DLT_IEEE802_16_MAC_CPS", 188)].

Definition dlt_defs_5 : list (string * Z) :=
  [("DLT_USB_LINUX", 189); ("DLT_CAN20B", 190);
   ("DLT_IEEE802_15_4_LINUX", 191); ("DLT_PPI", 192);
   ("DLT_IEEE802_16_MAC_CPS_RADIO", 193); ("DLT_JUNIPER_ISM", 194);
   ("DLT_IEEE802_15_4", 195); ("DLT_SITA", 196);
   ("DLT_ERF", 197); ("DLT_RAIF1", 198);
   ("DLT_IPMB", 199); ("DLT_JUNIPER_ST", 200);
   ("DLT_BLUETOOTH_HCI_H4_WITH_PHDR", 201); ("DLT_AX25_KISS", 202);
   ("DLT_LAPD", 203); ("DLT_PPP_WITH_DIR", 204);
   ("DLT_C_HDLC_WITH_DIR", 205); ("DLT_FRELAY_WITH_DIR", 206);
   ("DLT_LAPB_WITH_DIR", 207); ("DLT_IPMB_LINUX", 209);
   ("DLT_FLEXRAY", 210); ("DLT_MOST", 211);
   ("DLT_LIN", 212)].

Definition dlt_defs_6 : list (string * Z) :=
  [("DLT_X2E_SERIAL", 213); ("DLT_X2E_XORAYA", 214);
   ("DLT_IEEE802_15_4_NONASK_PHY", 215); ("DLT_LINUX_EVDEV", 216);
   ("DLT_GSMTAP_UM", 217); ("DLT_GSMTAP_ABIS", 218);
   ("DLT_MPLS", 219); ("DLT_USB_LINUX_MMAPPED", 220);
   ("DLT_DECT", 221); ("DLT_AOS", 222);
   ("DLT_WIHART", 223); ("DLT_FC_2", 224);
   ("DLT_FC_2_WITH_FRAME_DELIMS", 225); ("DLT_IPNET", 226);
   ("DLT_CAN_SOCKETCAN", 227)].

Definition dlt_defs_7 : list (string * Z) :=
  [("DLT_IPV4", 228); ("DLT_IPV6", 229);
   ("DLT_IEEE802_15_4_NOFCS", 230); ("DLT_DBUS", 231);
   ("DLT_JUNIPER_VS", 232); ("DLT_JUNIPER_SRX_E2E", 233);
   ("DLT_JUNIPER_FIBRECHANNEL", 234); ("DLT_DVB_CI", 235);
   ("DLT_MUX27010", 236); ("DLT_STANAG_5066_D_PDU", 237);
   ("DLT_JUNIPER_ATM_CEMIC", 238); ("DLT_NFLOG", 239);
   ("DLT_NETANALYZER", 240); ("DLT_NETANALYZER_TRANSPARENT", 241);
   ("DLT_IPOIB", 242); ("DLT_MPEG_2_TS", 243);
   ("DLT_NG40", 244); ("DLT_NFC_LLCP", 245);
   ("DLT_PFSYNC", 246); ("DLT_INFINIBAND", 247)].

Definition dlt_defs_8 : list (string * Z) :=
  [("DLT_SCTP", 248); ("DLT_MATCHING_MAX", 248)].

Definition dlt_defs : list (string * Z) :=
  dlt_defs_1 ++ dlt_defs_2 ++ dlt_defs_3 ++ dlt_defs_4 ++ dlt_defs_5 ++ dlt_defs_6
  ++ dlt_defs_7 ++ dlt_defs_8.

Definition linktype_defs_1 : list (string * Z) :=
  [("LINKTYPE_NULL", 0); ("LINKTYPE_ETHERNET", 1);
   ("LINKTYPE_EXP_ETHERNET", 2); ("LINKTYPE_AX25", 3);
   ("LINKTYPE_PRONET", 4); ("LINKTYPE_CHAOS", 5);
   ("LINKTYPE_IEEE802_5", 6); ("LINKTYPE_ARCNET_BSD", 7);
   ("LINKTYPE_SLIP", 8); ("LINKTYPE_PPP", 9);
   ("LINKTYPE_FDDI", 10); ("LINKTYPE_PPP_HDLC", 50);
   ("LINKTYPE_PPP_ETHER", 51); ("LINKTYPE_SYMANTEC_FIREWALL", 99);
   ("LINKTYPE_ATM_RFC1483", 100); ("LINKTYPE_RAW", 101);
   ("LINKTYPE_SLIP_BSDOS", 102); ("LINKTYPE_PPP_BSDOS", 103);
   ("LINKTYPE_MATCHING_MIN", 104); ("LINKTYPE_C_HDLC", 104);
   ("LINKTYPE_IEEE802_11", 105); ("LINKTYPE_ATM_CLIP", 106);
   ("LINKTYPE_FRELAY", 107); ("LINKTYPE_LOOP", 108);
   ("LINKTYPE_ENC", 109); ("LINKTYPE_LANE8023", 110);
   ("LINKTYPE_HIPPI", 111); ("LINKTYPE_HDLC", 112);
   ("LINKTYPE_LINUX_SLL", 113); ("LINKTYPE_LTALK", 114);
   ("LINKTYPE_ECONET", 115); ("LINKTYPE_IPFILTER", 116);
   ("LINKTYPE_PFLOG", 117); ("LINKTYPE_CISCO_IOS", 118);
   ("LINKTYPE_IEEE802_11_PRISM", 119); ("LINKTYPE_IEEE802_11_AIRONET", 120);
   ("LINKTYPE_HHDLC", 121); ("LINKTYPE_IP_OVER_FC", 122);
   ("LINKTYPE_SUNATM", 123); ("LINKTYPE_RIO", 124);
   ("LINKTYPE_PCI_EXP", 125); ("LINKTYPE_AURORA", 126);
   ("LINKTYPE_IEEE802_11_RADIOTAP", 127); ("LINKTYPE_TZSP", 128);
   ("LINKTYPE_ARCNET_LINUX", 129); ("LINKTYPE_JUNIPER_MLPPP", 130);
   ("LINKTYPE_JUNIPER_MLFR", 131); ("LINKTYPE_JUNIPER_ES", 132);
   ("LINKTYPE_JUNIPER_GGSN", 133); ("LINKTYPE_JUNIPER_MFR", 134);
   ("LINKTYPE_JUNIPER_ATM2", 135); ("LINKTYPE_JUNIPER_SERVICES", 136);
   ("LINKTYPE_JUNIPER_ATM1", 137); ("LINKTYPE_APPLE_IP_OVER_IEEE1394", 138);
   ("LINKTYPE_MTP2_WITH_PHDR", 139); ("LINKTYPE_MTP2", 140);
   ("LINKTYPE_MTP3", 141); ("LINKTYPE_SCCP", 142);
   ("LINKTYPE_DOCSIS", 143); ("LINKTYPE_LINUX_IRDA", 144);
   ("LINKTYPE_IBM_SP", 145); ("LINKTYPE_IBM_SN", 146)].

Definition linktype_defs_2 : list (string * Z) :=
  [("LINKTYPE_USER0", 147); ("LINKTYPE_USER1", 148);
   ("LINKTYPE_USER2", 149); ("LINKTYPE_USER3", 150);
   ("LINKTYPE_USER4", 151); ("LINKTYPE_USER5", 152);
   ("LINKTYPE_USER6", 153); ("LINKTYPE_USER7", 154);
   ("LINKTYPE_USER8", 155); ("LINKTYPE_USER9", 156);
   ("LINKTYPE_USER10", 157); ("LINKTYPE_USER11", 158);
   ("LINKTYPE_USER12", 159); ("LINKTYPE_USER13", 160);
   ("LINKTYPE_USER14", 161); ("LINKTYPE_USER15", 162);
   ("LINKTYPE_IEEE802_11_AVS", 163); ("LINKTYPE_JUNIPER_MONITOR", 164);
   ("LINKTYPE_BACNET_MS_TP", 165); ("LINKTYPE_PPP_PPPD", 166);
   ("LINKTYPE_JUNIPER_PPPOE", 167); ("LINKTYPE_JUNIPER_PPPOE_ATM", 168);
   ("LINKTYPE_GPRS_LLC", 169); ("LINKTYPE_GPF_T", 170);
   ("LINKTYPE_GPF_F", 171); ("LINKTYPE_GCOM_T1E1", 172);
   ("LINKTYPE_GCOM_SERIAL", 173); ("LINKTYPE_JUNIPER_PIC_PEER", 174);
   ("LINKTYPE_ERF_ETH", 175); ("LINKTYPE_ERF_POS", 176);
   ("LINKTYPE_LINUX_LAPD", 177); ("LINKTYPE_JUNIPER_ETHER", 178);
   ("LINKTYPE_JUNIPER_PPP", 179); ("LINKTYPE_JUNIPER_FRELAY", 180);
   ("LINKTYPE_JUNIPER_CHDLC", 181); ("LINKTYPE_MFR", 182);
   ("LINKTYPE_JUNIPER_VP", 183)].

Definition linktype_defs_3 : list (string * Z) :=
  [("LINKTYPE_A429", 184); ("LINKTYPE_A653_ICM", 185);
   ("LINKTYPE_USB", 186); ("LINKTYPE_BLUETOOTH_HCI_H4", 187);
   ("LINKTYPE_IEEE802_16_MAC_CPS", 188); ("LINKTYPE_USB_LINUX", 189);
   ("LINKTYPE_CAN20B", 190); ("LINKTYPE_IEEE802_15_4_LINUX", 191);
   ("LINKTYPE_PPI", 192); ("LINKTYPE_IEEE802_16_MAC_CPS_RADIO", 193);
   ("LINKTYPE_JUNIPER_ISM", 194); ("LINKTYPE_IEEE802_15_4", 195);
   ("LINKTYPE_SITA", 196); ("LINKTYPE_ERF", 197);
   ("LINKTYPE_RAIF1", 198); ("LINKTYPE_IPMB", 199);
   ("LINKTYPE_JUNIPER_ST", 200); ("LINKTYPE_BLUETOOTH_HCI_H4_WITH_PHDR", 201);
   ("LINKTYPE_AX25_KISS", 202); ("LINKTYPE_LAPD", 203);
   ("LINKTYPE_PPP_WITH_DIR", 204); ("LINKTYPE_C_HDLC_WITH_DIR", 205);
   ("LINKTYPE_FRELAY_WITH_DIR", 206); ("LINKTYPE_LAPB_WITH_DIR", 207)].

Definition linktype_defs_4 : list (string * Z) :=
  [("LINKTYPE_IPMB_LINUX", 209); ("LINKTYPE_FLEXRAY", 210);
   ("LINKTYPE_MOST", 211); ("LINKTYPE_LIN", 212);
   ("LINKTYPE_X2E_SERIAL", 213); ("LINKTYPE_X2E_XORAYA", 214);
   ("LINKTYPE_IEEE802_15_4_NONASK_PHY", 215); ("LINKTYPE_LINUX_EVDEV", 216);
   ("LINKTYPE_GSMTAP_UM", 217); ("LINKTYPE_GSMTAP_ABIS", 218);
   ("LINKTYPE_MPLS", 219); ("LINKTYPE_USB_LINUX_MMAPPED", 220);
   ("LINKTYPE_DECT", 221); ("LINKTYPE_AOS", 222);
   ("LINKTYPE_WIHART", 223); ("LINKTYPE_FC_2", 224);
   ("LINKTYPE_FC_2_WITH_FRAME_DELIMS", 225)].

Definition linktype_defs_5 : list (string * Z) :=
  [("LINKTYPE_IPNET", 226); ("LINKTYPE_CAN_SOCKETCAN", 227);
   ("LINKTYPE_IPV4", 228); ("LINKTYPE_IPV6", 229);
   ("LINKTYPE_IEEE802_15_4_NOFCS", 230); ("LINKTYPE_DBUS", 231);
   ("LINKTYPE_JUNIPER_VS", 232); ("LINKTYPE_JUNIPER_SRX_E2E", 233);
   ("LINKTYPE_JUNIPER_FIBRECHANNEL", 234); ("LINKTYPE_DVB_CI", 235);
   ("LINKTYPE_MUX27010", 236); ("LINKTYPE_STANAG_5066_D_PDU", 237);
   ("LINKTYPE_JUNIPER_ATM_CEMIC", 238); ("LINKTYPE_NFLOG", 239);
   ("LINKTYPE_NETANALYZER", 240); ("LINKTYPE_NETANALYZER_TRANSPARENT", 241);
   ("LINKTYPE_IPOIB", 242); ("LINKTYPE_MPEG_2_TS", 243);
   ("LINKTYPE_NG40", 244)].

Definition linktype_defs_6 : list (string * Z) :=
  [("LINKTYPE_NFC_LLCP", 245); ("LINKTYPE_PFSYNC", 246);
   ("LINKTYPE_INFINIBAND", 247); ("LINKTYPE_SCTP", 248);
   ("LINKTYPE_MATCHING_MAX", 248)].

Definition linktype_defs : list (string * Z) :=
  linktype_defs_1 ++ linktype_defs_2 ++ linktype_defs_3 ++ linktype_defs_4
  ++ linktype_defs_5 ++ linktype_defs_6.

(** The values the code below names. *)
Definition DLT_NULL := 0.
Definition DLT_EN10MB := 1.
Definition DLT_EN3MB := 2.
Definition DLT_AX25 := 3.
Definition DLT_PRONET := 4.
Definition DLT_CHAOS := 5.
Definition DLT_IEEE802 := 6.
Definition DLT_ARCNET := 7.
Definition DLT_SLIP := 8.
Definition DLT_PPP := 9.
Definition DLT_FDDI := 10.
Definition DLT_SYMANTEC_FIREWALL := 99.
Definition DLT_ATM_RFC1483 := 11.
Definition DLT_RAW := 12.
Definition DLT_SLIP_BSDOS := 15.
Definition DLT_PPP_BSDOS := 16.
Definition DLT_C_HDLC := 104.
Definition DLT_ATM_CLIP := 19.
Definition DLT_PPP_SERIAL := 50.
Definition DLT_PPP_ETHER := 51.
Definition DLT_PFSYNC := 246.
Definition DLT_MATCHING_MIN := 104.
Definition DLT_MATCHING_MAX := 248.
Definition DLT_DOCSIS := 143.
Definition DLT_USB_LINUX := 189.
Definition DLT_USB_LINUX_MMAPPED := 220.
Definition LINKTYPE_NULL := 0.
Definition LINKTYPE_ETHERNET := 1.
Definition LINKTYPE_EXP_ETHERNET := 2.
Definition LINKTYPE_AX25 := 3.
Definition LINKTYPE_PRONET := 4.
Definition LINKTYPE_CHAOS := 5.
Definition LINKTYPE_IEEE802_5 := 6.
Definition LINKTYPE_ARCNET_BSD := 7.
Definition LINKTYPE_SLIP := 8.
Definition LINKTYPE_PPP := 9.
Definition LINKTYPE_FDDI := 10.
Definition LINKTYPE_SYMANTEC_FIREWALL := 99.
Definition LINKTYPE_ATM_RFC1483 := 100.
Definition LINKTYPE_RAW := 101.
Definition LINKTYPE_SLIP_BSDOS := 102.
Definition LINKTYPE_PPP_BSDOS := 103.
Definition LINKTYPE_C_HDLC := 104.
Definition LINKTYPE_ATM_CLIP := 106.
Definition LINKTYPE_PPP_HDLC := 50.
Definition LINKTYPE_PPP_ETHER := 51.
Definition LINKTYPE_PFSYNC := 246.
Definition LINKTYPE_MATCHING_MIN := 104.
Definition LINKTYPE_MATCHING_MAX := 248.

(** ** [pcap-common.c]: [map], [dlt_to_linktype] and [linktype_to_dlt] *)

Definition linktype_map : list (Z * Z) :=
  [(DLT_NULL, LINKTYPE_NULL);
   (DLT_EN10MB, LINKTYPE_ETHERNET);
   (DLT_EN3MB, LINKTYPE_EXP_ETHERNET);
   (DLT_AX25, LINKTYPE_AX25);
   (DLT_PRONET, LINKTYPE_PRONET);
   (DLT_CHAOS, LINKTYPE_CHAOS);
   (DLT_IEEE802, LINKTYPE_IEEE802_5);
   (DLT_ARCNET, LINKTYPE_ARCNET_BSD);
   (DLT_SLIP, LINKTYPE_SLIP);
   (DLT_PPP, LINKTYPE_PPP);
   (DLT_FDDI, LINKTYPE_FDDI);
   (DLT_SYMANTEC_FIREWALL, LINKTYPE_SYMANTEC_FIREWALL);
   (DLT_ATM_RFC1483, LINKTYPE_ATM_RFC1483);
   (DLT_RAW, LINKTYPE_RAW);
   (DLT_SLIP_BSDOS, LINKTYPE_SLIP_BSDOS);
   (DLT_PPP_BSDOS, LINKTYPE_PPP_BSDOS);
   (DLT_C_HDLC, LINKTYPE_C_HDLC);
   (DLT_ATM_CLIP, LINKTYPE_ATM_CLIP);
   (DLT_PPP_SERIAL, LINKTYPE_PPP_HDLC);
   (DLT_PPP_ETHER, LINKTYPE_PPP_ETHER)].

(** The value for [dlt] or [-1]. *)
Definition dlt_to_linktype (dlt : Z) : Z :=
  if dlt =? DLT_PFSYNC then LINKTYPE_PFSYNC
  else if (DLT_MATCHING_MIN <=? dlt) && (dlt <=? DLT_MATCHING_MAX) then dlt
  else match List.find (fun e => e.1 =? dlt) linktype_map with
       | Some e => e.2
       | None => -1
       end.

Definition linktype_to_dlt (linktype : Z) : Z :=
  if linktype =? LINKTYPE_PFSYNC then DLT_PFSYNC
  else if (LINKTYPE_MATCHING_MIN <=? linktype) && (linktype <=? LINKTYPE_MATCHING_MAX)
  then linktype
  else match List.find (fun e => e.2 =? linktype) linktype_map with
       | Some e => e.1
       | None => linktype
       end.

(** ** [pcap.c]: case-insensitive comparison *)

Definition charmap : list Z :=
  [0; 1; 2; 3; 4; 5; 6; 7; 8; 9; 10; 11; 12; 13; 14; 15;
   16; 17; 18; 19; 20; 21; 22; 23; 24; 25; 26; 27; 28; 29; 30; 31;
   32; 33; 34; 35; 36; 37; 38; 39; 40; 41; 42; 43; 44; 45; 46; 47;
   48; 49; 50; 51; 52; 53; 54; 55; 56; 57; 58; 59; 60; 61; 62; 63;
   64; 97; 98; 99; 100; 101; 102; 103; 104; 105; 106; 107; 108; 109; 110; 111;
   112; 113; 114; 115; 116; 117; 118; 119; 120; 121; 122; 91; 92; 93; 94; 95;
   96; 97; 98; 99; 100; 101; 102; 103; 104; 105; 106; 107; 108; 109; 110; 111;
   112; 113; 114; 115; 116; 117; 118; 119; 120; 121; 122; 123; 124; 125; 126; 127;
   128; 129; 130; 131; 132; 133; 134; 135; 136; 137; 138; 139; 140; 141; 142; 143;
   144; 145; 146; 147; 148; 149; 150; 151; 152; 153; 154; 155; 156; 157; 158; 159;
   160; 161; 162; 163; 164; 165; 166; 167; 168; 169; 170; 171; 172; 173; 174; 175;
   176; 177; 178; 179; 180; 181; 182; 183; 184; 185; 186; 187; 188; 189; 190; 191;
   192; 225; 226; 227; 228; 229; 230; 231; 232; 233; 234; 235; 236; 237; 238; 239;
   240; 241; 242; 243; 244; 245; 246; 247; 248; 249; 250; 219; 220; 221; 222; 223;
   224; 225; 226; 227; 228; 229; 230; 231; 232; 233; 234; 235; 236; 237; 238; 239;
   240; 241; 242; 243; 244; 245; 246; 247; 248; 249; 250; 251; 252; 253; 254; 255].

(** [cm[c]] *)
Definition cm (c : ascii) : Z := nth (nat_of_ascii c) charmap 0.

(** The characters of a string up to and with its terminating NUL. *)
Definition head_char (s : string) : ascii :=
  match s with String c _ => c | EmptyString => Ascii.zero end.
Definition tail_str (s : string) : string :=
  match s with String _ s => s | EmptyString => EmptyString end.

Fixpoint pcap_strcasecmp (s1 s2 : string) : Z :=
  if cm (head_char s1) =? cm (head_char s2) then
    match s1 with
    | EmptyString => 0
    | String c s1' =>
        if Ascii.eqb c Ascii.zero then 0 else pcap_strcasecmp s1' (tail_str s2)
    end
  else cm (head_char s1) - cm (head_char s2).

(** ** [pcap.c]: [dlt_choices] and the functions that search it *)

Definition dlt_choices : list (string * string * Z) :=
  [("DLT_NULL", "BSD loopback", 0);
   ("DLT_EN10MB", "Ethernet", 1);
   ("DLT_IEEE802", "Token ring", 6);
   ("DLT_ARCNET", "BSD ARCNET", 7);
   ("DLT_SLIP", "SLIP", 8);
   ("DLT_PPP", "PPP", 9);
   ("DLT_FDDI", "FDDI", 10);
   ("DLT_ATM_RFC1483", "RFC 1483 LLC-encapsulated ATM", 11);
   ("DLT_RAW", "Raw IP", 12);
   ("DLT_SLIP_BSDOS", "BSD/OS SLIP", 15);
   ("DLT_PPP_BSDOS", "BSD/OS PPP", 16);
   ("DLT_ATM_CLIP", "Linux Classical IP-over-ATM", 19);
   ("DLT_PPP_SERIAL", "PPP over serial", 50);
   ("DLT_PPP_ETHER", "PPPoE", 51);
   ("DLT_SYMANTEC_FIREWALL", "Symantec Firewall", 99);
   ("DLT_C_HDLC", "Cisco HDLC", 104);
   ("DLT_IEEE802_11", "802.11", 105);
   ("DLT_FRELAY", "Frame Relay", 107);
   ("DLT_LOOP", "OpenBSD loopback", 108);
   ("DLT_ENC", "OpenBSD encapsulated IP", 109);
   ("DLT_LINUX_SLL", "Linux cooked", 113);
   ("DLT_LTALK", "Localtalk", 114);
   ("DLT_PFLOG", "OpenBSD pflog file", 117);
   ("DLT_PFSYNC", "Packet filter state syncing", 246);
   ("DLT_PRISM_HEADER", "802.11 plus Prism header", 119);
   ("DLT_IP_OVER_FC", "RFC 2625 IP-over-Fibre Channel", 122);
   ("DLT_SUNATM", "Sun raw ATM", 123);
   ("DLT_IEEE802_11_RADIO", "802.11 plus radiotap header", 127);
   ("DLT_ARCNET_LINUX", "Linux ARCNET", 129);
   ("DLT_JUNIPER_MLPPP", "Juniper Multi-Link PPP", 130);
   ("DLT_JUNIPER_MLFR", "Juniper Multi-Link Frame Relay", 131);
   ("DLT_JUNIPER_ES", "Juniper Encryption Services PIC", 132);
   ("DLT_JUNIPER_GGSN", "Juniper GGSN PIC", 133);
   ("DLT_JUNIPER_MFR", "Juniper FRF.16 Frame Relay", 134);
   ("DLT_JUNIPER_ATM2", "Juniper ATM2 PIC", 135);
   ("DLT_JUNIPER_SERVICES", "Juniper Advanced Services PIC", 136);
   ("DLT_JUNIPER_ATM1", "Juniper ATM1 PIC", 137);
   ("DLT_APPLE_IP_OVER_IEEE1394", "Apple IP-over-IEEE 1394", 138);
   ("DLT_MTP2_WITH_PHDR", "SS7 MTP2 with Pseudo-header", 139);
   ("DLT_MTP2", "SS7 MTP2", 140);
   ("DLT_MTP3", "SS7 MTP3", 141);
   ("DLT_SCCP", "SS7 SCCP", 142);
   ("DLT_DOCSIS", "DOCSIS", 143);
   ("DLT_LINUX_IRDA", "Linux IrDA", 144);
   ("DLT_IEEE802_11_RADIO_AVS", "802.11 plus AVS radio information header", 163);
   ("DLT_JUNIPER_MONITOR", "Juniper Passive Monitor PIC", 164);
   ("DLT_PPP_PPPD", "PPP for pppd, with direction flag", 166);
   ("DLT_JUNIPER_PPPOE", "Juniper PPPoE", 167);
   ("DLT_JUNIPER_PPPOE_ATM", "Juniper PPPoE/ATM", 168);
   ("DLT_GPRS_LLC", "GPRS LLC", 169);
   ("DLT_GPF_T", "GPF-T", 170);
   ("DLT_GPF_F", "GPF-F", 171);
   ("DLT_JUNIPER_PIC_PEER", "Juniper PIC Peer", 174);
   ("DLT_ERF_ETH", "Ethernet with Endace ERF header", 175);
   ("DLT_ERF_POS", "Packet-over-SONET with Endace ERF header", 176);
   ("DLT_LINUX_LAPD", "Linux vISDN LAPD", 177);
   ("DLT_JUNIPER_ETHER", "Juniper Ethernet", 178);
   ("DLT_JUNIPER_PPP", "Juniper PPP", 179);
   ("DLT_JUNIPER_FRELAY", "Juniper Frame Relay", 180);
   ("DLT_JUNIPER_CHDLC", "Juniper C-HDLC", 181);
   ("DLT_MFR", "FRF.16 Frame Relay", 182);
   ("DLT_JUNIPER_VP", "Juniper Voice PIC", 183);
   ("DLT_A429", "Arinc 429", 184);
   ("DLT_A653_ICM", "Arinc 653 Interpartition Communication", 185);
   ("DLT_USB", "USB", 186);
   ("DLT_BLUETOOTH_HCI_H4", "Bluetooth HCI UART transport layer", 187);
   ("DLT_IEEE802_16_MAC_CPS", "IEEE 802.16 MAC Common Part Sublayer", 188);
   ("DLT_USB_LINUX", "USB with Linux header", 189);
   ("DLT_CAN20B", "Controller Area Network (CAN) v. 2.0B", 190);
   ("DLT_IEEE802_15_4_LINUX", "IEEE 802.15.4 with Linux padding", 191);
   ("DLT_PPI", "Per-Packet Information", 192);
   ("DLT_IEEE802_16_MAC_CPS_RADIO", "IEEE 802.16 MAC Common Part Sublayer plus radiotap header", 193);
   ("DLT_JUNIPER_ISM", "Juniper Integrated Service Module", 194);
   ("DLT_IEEE802_15_4", "IEEE 802.15.4 with FCS", 195);
   ("DLT_SITA", "SITA pseudo-header", 196);
   ("DLT_ERF", "Endace ERF header", 197);
   ("DLT_RAIF1", "Ethernet with u10 Networks pseudo-header", 198);
   ("DLT_IPMB", "IPMB", 199);
   ("DLT_JUNIPER_ST", "Juniper Secure Tunnel", 200);
   ("DLT_BLUETOOTH_HCI_H4_WITH_PHDR", "Bluetooth HCI UART transport layer plus pseudo-header", 201);
   ("DLT_AX25_KISS", "AX.25 with KISS header", 202);
   ("DLT_IEEE802_15_4_NONASK_PHY", "IEEE 802.15.4 with non-ASK PHY data", 215);
   ("DLT_MPLS", "MPLS with label as link-layer header", 219);
   ("DLT_USB_LINUX_MMAPPED", "USB with padded Linux header", 220);
   ("DLT_DECT", "DECT", 221);
   ("DLT_AOS", "AOS Space Data Link protocol", 222);
   ("DLT_WIHART", "Wireless HART", 223);
   ("DLT_FC_2", "Fibre Channel FC-2", 224);
   ("DLT_FC_2_WITH_FRAME_DELIMS", "Fibre Channel FC-2 with frame delimiters", 225);
   ("DLT_IPNET", "Solaris ipnet", 226);
   ("DLT_CAN_SOCKETCAN", "CAN-bus with SocketCAN headers", 227);
   ("DLT_IPV4", "Raw IPv4", 228);
   ("DLT_IPV6", "Raw IPv6", 229);
   ("DLT_IEEE802_15_4_NOFCS", "IEEE 802.15.4 without FCS", 230);
   ("DLT_JUNIPER_VS", "Juniper Virtual Server", 232);
   ("DLT_JUNIPER_SRX_E2E", "Juniper SRX E2E", 233);
   ("DLT_JUNIPER_FIBRECHANNEL", "Juniper Fibre Channel", 234);
   ("DLT_DVB_CI", "DVB-CI", 235);
   ("DLT_JUNIPER_ATM_CEMIC", "Juniper ATM CEMIC", 238);
   ("DLT_NFLOG", "Linux netfilter log messages", 239);
   ("DLT_NETANALYZER", "Ethernet with Hilscher netANALYZER pseudo-header", 240);
   ("DLT_NETANALYZER_TRANSPARENT", "Ethernet with Hilscher netANALYZER pseudo-header and with preamble and SFD", 241);
   ("DLT_IPOIB", "RFC 4391 IP-over-Infiniband", 242)].

(** [dlt_choices[i].name + sizeof("DLT_") - 1] *)
Definition skip_DLT (s : string) : string := String.substring 4 (String.length s - 4) s.

Definition pcap_datalink_name_to_val (name : string) : Z :=
  match List.find (fun c => pcap_strcasecmp (skip_DLT c.1.1) name =? 0) dlt_choices with
  | Some c => c.2
  | None => -1
  end.

Definition pcap_datalink_val_to_name (dlt : Z) : option string :=
  match List.find (fun c => c.2 =? dlt) dlt_choices with
  | Some c => Some (skip_DLT c.1.1)
  | None => None
  end.

Definition pcap_datalink_val_to_description (dlt : Z) : option string :=
  match List.find (fun c => c.2 =? dlt) dlt_choices with
  | Some c => Some c.1.2
  | None => None
  end.

(** ** [pcap.c]: time stamp types *)

Definition PCAP_ERROR := -1.
Definition PCAP_TSTAMP_HOST := 0.
Definition PCAP_TSTAMP_HOST_LOWPREC := 1.
Definition PCAP_TSTAMP_HOST_HIPREC := 2.
Definition PCAP_TSTAMP_ADAPTER := 3.
Definition PCAP_TSTAMP_ADAPTER_UNSYNCED := 4.

Definition tstamp_type_choices : list (string * string * Z) :=
  [("host", "Host", PCAP_TSTAMP_HOST);
   ("host_lowprec", "Host, low precision", PCAP_TSTAMP_HOST_LOWPREC);
   ("host_hiprec", "Host, high precision", PCAP_TSTAMP_HOST_HIPREC);
   ("adapter", "Adapter", PCAP_TSTAMP_ADAPTER);
   ("adapter_unsynced", "Adapter, not synced with system time", PCAP_TSTAMP_ADAPTER_UNSYNCED)].

Definition pcap_tstamp_type_name_to_val (name : string) : Z :=
  match List.find (fun c => pcap_strcasecmp c.1.1 name =? 0) tstamp_type_choices with
  | Some c => c.2
  | None => PCAP_ERROR
  end.

Definition pcap_tstamp_type_val_to_name (tstamp_type : Z) : option string :=
  match List.find (fun c => c.2 =? tstamp_type) tstamp_type_choices with
  | Some c => Some c.1.1
  | None => None
  end.

Definition pcap_tstamp_type_val_to_description (tstamp_type : Z) : option string :=
  match List.find (fun c => c.2 =? tstamp_type) tstamp_type_choices with
  | Some c => Some c.1.2
  | None => None
  end.

(** ** Lemmas *)

Lemma ascii_forall (P : ascii -> bool) :
  forallb (fun n => P (ascii_of_nat n)) (seq 0 256) = true -> forall c, P c = true.
Proof.
  intros Hall c. rewrite List.forallb_forall in Hall.
  rewrite <- (ascii_nat_embedding c). apply Hall.
  apply List.in_seq. pose proof (nat_ascii_bounded c). lia.
Qed.

(** What [charmap] does: it maps the letters A-Z, and the letters of the
    upper half from 0xC1 to 0xDA, to lower case. *)
Definition lower (c : ascii) : Z :=
  let n := Z.of_nat (nat_of_ascii c) in
  if ((65 <=? n) && (n <=? 90)) || ((193 <=? n) && (n <=? 218)) then n + 32 else n.

Lemma cm_lower c : cm c = lower c.
Proof.
  apply Z.eqb_eq. revert c.
  apply (ascii_forall (fun c => cm c =? lower c)). vm_compute. reflexivity.
Qed.

Lemma cm_zero c : cm c = 0 <-> c = Ascii.zero.
Proof.
  split; [|intros ->; reflexivity]. intros Hc.
  assert (H : forall c, (negb (cm c =? 0) || Ascii.eqb c Ascii.zero) = true).
  { apply (ascii_forall (fun c => negb (cm c =? 0) || Ascii.eqb c Ascii.zero)).
    vm_compute. reflexivity. }
  specialize (H c). rewrite Hc in H. by apply Ascii.eqb_eq.
Qed.

(** A C string has no NUL before its end. *)
Fixpoint no_nul (s : string) : bool :=
  match s with
  | EmptyString => true
  | String c s => negb (Ascii.eqb c Ascii.zero) && no_nul s
  end.

Fixpoint lower_str (s : string) : list Z :=
  match s with EmptyString => [] | String c s => lower c :: lower_str s end.

Lemma head_nonzero c s : no_nul (String c s) = true -> cm c <> 0 /\ no_nul s = true.
Proof.
  simpl. intros [Hc Hs]%andb_prop. split; [|done]. rewrite cm_zero.
  intros ->. done.
Qed.

(** The difference of the first two elements that differ, the end of a list
    counting as 0. *)
Fixpoint first_diff (l1 l2 : list Z) : Z :=
  match l1, l2 with
  | [], [] => 0
  | [], b :: _ => - b
  | a :: _, [] => a
  | a :: l1, b :: l2 => if a =? b then first_diff l1 l2 else a - b
  end.

Lemma strcasecmp_diff s1 s2 :
  no_nul s1 = true -> no_nul s2 = true ->
  pcap_strcasecmp s1 s2 = first_diff (lower_str s1) (lower_str s2).
Proof.
  revert s2. induction s1 as [|c1 s1 IH]; intros [|c2 s2] H1 H2;
    cbn [pcap_strcasecmp head_char tail_str lower_str first_diff].
  - done.
  - apply head_nonzero in H2 as [Hc _]. change (cm Ascii.zero) with 0.
    destruct (Z.eqb_spec 0 (cm c2)); [lia|]. by rewrite cm_lower.
  - apply head_nonzero in H1 as [Hc _]. change (cm Ascii.zero) with 0.
    destruct (Z.eqb_spec (cm c1) 0); [lia|]. rewrite cm_lower. lia.
  - apply head_nonzero in H1 as [Hc1 H1]. apply head_nonzero in H2 as [_ H2].
    rewrite <- !cm_lower. destruct (Ascii.eqb_spec c1 Ascii.zero) as [->|_]; [by destruct Hc1|].
    destruct (_ =? _); auto.
Qed.

Lemma lower_nonzero c s : no_nul (String c s) = true -> lower c <> 0.
Proof. intros [? _]%head_nonzero. by rewrite <- cm_lower. Qed.

Lemma first_diff_0 s1 s2 :
  no_nul s1 = true -> no_nul s2 = true ->
  first_diff (lower_str s1) (lower_str s2) = 0 <-> lower_str s1 = lower_str s2.
Proof.
  revert s2. induction s1 as [|c1 s1 IH]; intros [|c2 s2] H1 H2; cbn [lower_str first_diff].
  - done.
  - apply lower_nonzero in H2. split; [lia|done].
  - apply lower_nonzero in H1. split; [lia|done].
  - apply head_nonzero in H1 as [_ H1]. apply head_nonzero in H2 as [_ H2].
    destruct (Z.eqb_spec (lower c1) (lower c2)) as [->|Hne].
    + rewrite IH by done. split; [congruence|intros [=]; done].
    + split; [lia|intros [=]; done].
Qed.

Lemma strcasecmp_spec s1 s2 :
  no_nul s1 = true -> no_nul s2 = true ->
  pcap_strcasecmp s1 s2 = 0 <-> lower_str s1 = lower_str s2.
Proof. intros. rewrite strcasecmp_diff by done. by apply first_diff_0. Qed.

Lemma strcasecmp_fold x s s' :
  no_nul x = true -> no_nul s = true -> no_nul s' = true -> lower_str s = lower_str s' ->
  (pcap_strcasecmp x s =? 0) = (pcap_strcasecmp x s' =? 0).
Proof.
  intros Hx Hs Hs' He. apply eq_true_iff_eq. rewrite !Z.eqb_eq.
  rewrite !strcasecmp_spec by done. by rewrite He.
Qed.

Lemma find_ext_in {A} (P Q : A -> bool) l :
  (forall x, In x l -> P x = Q x) -> List.find P l = List.find Q l.
Proof.
  induction l as [|x l IH]; intros HPQ; simpl; [done|].
  rewrite <- HPQ by (by left). destruct (P x); [done|]. apply IH. intros; apply HPQ; by right.
Qed.

(** ** Properties *)

(** The range of values that are the same on both sides; 246 is below it. *)
Lemma matching_not_pfsync v :
  (DLT_MATCHING_MIN <=? v) && (v <=? DLT_MATCHING_MAX) = true ->
  v <> DLT_PFSYNC -> linktype_to_dlt v = v.
Proof.
  intros Hm Hp. unfold linktype_to_dlt.
  change LINKTYPE_MATCHING_MIN with DLT_MATCHING_MIN.
  change LINKTYPE_MATCHING_MAX with DLT_MATCHING_MAX. rewrite Hm.
  unfold LINKTYPE_PFSYNC, DLT_PFSYNC in *. by destruct (Z.eqb_spec v 246).
Qed.

Lemma dlt_to_linktype_cases dlt :
  dlt_to_linktype dlt <> -1 ->
  dlt = DLT_PFSYNC \/
  (dlt <> DLT_PFSYNC /\ (DLT_MATCHING_MIN <=? dlt) && (dlt <=? DLT_MATCHING_MAX) = true
   /\ dlt_to_linktype dlt = dlt) \/
  exists e, In e linktype_map /\ e.1 = dlt /\ dlt_to_linktype dlt = e.2.
Proof.
  unfold dlt_to_linktype.
  destruct (Z.eqb_spec dlt DLT_PFSYNC) as [->|Hp]; [by left|].
  destruct (_ && _) eqn:Hm; [by auto|].
  destruct (List.find _ linktype_map) as [e|] eqn:Hf; [|done]. intros _.
  apply List.find_some in Hf as [Hin He%Z.eqb_eq]. eauto 6.
Qed.

Lemma linktype_back dlt :
  dlt_to_linktype dlt <> -1 -> dlt <> DLT_ATM_CLIP ->
  linktype_to_dlt (dlt_to_linktype dlt) = dlt.
Proof.
  intros Hd Hc. destruct (dlt_to_linktype_cases dlt Hd) as [->|[(Hp & Hm & ->)|(e & Hin & <- & ->)]].
  - done.
  - by apply matching_not_pfsync.
  - assert (Hall : forallb (fun e => (e.1 =? DLT_ATM_CLIP) || (linktype_to_dlt e.2 =? e.1))
                     linktype_map = true) by (vm_compute; reflexivity).
    rewrite List.forallb_forall in Hall. apply Hall in Hin as [?%Z.eqb_eq|?%Z.eqb_eq]%orb_prop;
      [done|lia].
Qed.

Lemma dlt_to_linktype_range dlt :
  dlt_to_linktype dlt <> -1 -> 0 <= dlt_to_linktype dlt < 2 ^ 26.
Proof.
  intros Hd. destruct (dlt_to_linktype_cases dlt Hd) as [->|[(Hp & Hm & ->)|(e & Hin & _ & ->)]].
  - zcompute.
  - apply andb_prop in Hm. unfold DLT_MATCHING_MIN, DLT_MATCHING_MAX in Hm. lia.
  - assert (Hall : forallb (fun e => (0 <=? e.2) && (e.2 <? 2 ^ 26)) linktype_map = true)
      by (vm_compute; reflexivity).
    rewrite List.forallb_forall in Hall. apply Hall in Hin. lia.
Qed.

(** C36: Writing and reading a link-layer type: a [DLT_] value with a
    [LINKTYPE_] value, written to a savefile and read back, is the same value
    again, except [DLT_ATM_CLIP] (19), which comes back as 106: the table
    entry [{ DLT_ATM_CLIP, LINKTYPE_ATM_CLIP }] is never reached when reading,
    since 106 lies in the range whose values are returned unchanged. *)
Theorem linktype_roundtrip dlt :
  dlt_to_linktype dlt <> -1 ->
  linktype_to_dlt (dlt_to_linktype dlt) = if dlt =? DLT_ATM_CLIP then 106 else dlt.
Proof. destruct (Z.eqb_spec dlt DLT_ATM_CLIP) as [->|?]; [done|auto using linktype_back]. Qed.

Lemma linktype_roundtrip_witness :
  dlt_to_linktype DLT_RAW <> -1 /\ linktype_to_dlt (dlt_to_linktype DLT_RAW) = DLT_RAW.
Proof. split; [done|]. rewrite (linktype_roundtrip DLT_RAW) by done. reflexivity. Defined.

(** [pcap_strcasecmp] compares strings as their lower-case characters
    compare: its result is the difference at the first place where these
    differ, with the end of a string counting as 0, and it is 0 exactly for
    strings that are equal once upper-case letters are folded. *)
Theorem pcap_strcasecmp_correct s1 s2 :
  no_nul s1 = true -> no_nul s2 = true ->
  pcap_strcasecmp s1 s2 = first_diff (lower_str s1) (lower_str s2) /\
  (pcap_strcasecmp s1 s2 = 0 <-> lower_str s1 = lower_str s2).
Proof. auto using strcasecmp_diff, strcasecmp_spec. Qed.

Lemma pcap_strcasecmp_correct_witness :
  pcap_strcasecmp "EN10mb" "en10MB" = 0 /\ pcap_strcasecmp "raw" "ra" = 119.
Proof.
  split; [apply (pcap_strcasecmp_correct "EN10mb" "en10MB"); reflexivity|].
  destruct (pcap_strcasecmp_correct "raw" "ra") as [-> _]; reflexivity.
Defined.

Lemma choices_no_nul c : In c dlt_choices -> no_nul (skip_DLT c.1.1) = true.
Proof.
  assert (H : forallb (fun c => no_nul (skip_DLT c.1.1)) dlt_choices = true)
    by (vm_compute; reflexivity).
  rewrite List.forallb_forall in H. apply H.
Qed.

Lemma name_val_table c :
  In c dlt_choices ->
  pcap_datalink_val_to_name c.2 = Some (skip_DLT c.1.1) /\
  pcap_datalink_name_to_val (skip_DLT c.1.1) = c.2.
Proof.
  assert (H : forallb (fun c =>
      bool_decide (pcap_datalink_val_to_name c.2 = Some (skip_DLT c.1.1)) &&
      (pcap_datalink_name_to_val (skip_DLT c.1.1) =? c.2)) dlt_choices = true)
    by (vm_compute; reflexivity).
  rewrite List.forallb_forall in H. intros Hc.
  apply H in Hc as [Hn Hv]%andb_prop.
  split; [by apply bool_decide_eq_true_1 in Hn|by apply Z.eqb_eq].
Qed.

(** Names of link-layer types round-trip, whatever their case: if a value
    prints as a name, every spelling of that name reads as the value, and the
    value also has a description. *)
Theorem datalink_name_roundtrip dlt name name' :
  pcap_datalink_val_to_name dlt = Some name ->
  no_nul name' = true -> lower_str name' = lower_str name ->
  pcap_datalink_name_to_val name' = dlt /\
  is_Some (pcap_datalink_val_to_description dlt).
Proof.
  unfold pcap_datalink_val_to_name, pcap_datalink_val_to_description.
  destruct (List.find _ dlt_choices) as [c|] eqn:Hf; [|done].
  apply List.find_some in Hf as [Hin Hc%Z.eqb_eq]. intros [= <-] Hn Hl.
  split; [|eauto]. destruct (name_val_table c Hin) as [_ <-] in Hc. rewrite <- Hc.
  unfold pcap_datalink_name_to_val.
  rewrite (find_ext_in _ (fun c' => pcap_strcasecmp (skip_DLT c'.1.1) (skip_DLT c.1.1) =? 0));
    [done|].
  intros x Hx. apply strcasecmp_fold; auto using choices_no_nul.
Qed.

Lemma datalink_name_roundtrip_witness :
  pcap_datalink_val_to_name 1 = Some "EN10MB" /\ pcap_datalink_name_to_val "en10mb" = 1.
Proof.
  split; [reflexivity|].
  apply (datalink_name_roundtrip 1 "EN10MB" "en10mb"); reflexivity.
Defined.

(** [DLT_X] and [LINKTYPE_X] have the same suffix. *)
Definition same_suffix (d l : string) : bool :=
  String.eqb (String.substring 4 (String.length d - 4) d)
             (String.substring 9 (String.length l - 9) l).

(** The mapping respects the names: whenever [pcap/bpf.h] defines [DLT_X]
    and [pcap-common.c] defines [LINKTYPE_X], [DLT_X] is written as
    [LINKTYPE_X]. *)
Theorem linktype_names_agree d v l v' :
  In (d, v) dlt_defs -> In (l, v') linktype_defs -> same_suffix d l = true ->
  dlt_to_linktype v = v'.
Proof.
  assert (H : forallb (fun e => forallb (fun e' =>
      negb (same_suffix e.1 e'.1) || (dlt_to_linktype e.2 =? e'.2)) linktype_defs) dlt_defs = true)
    by (vm_compute; reflexivity).
  intros Hd Hl Hs. rewrite List.forallb_forall in H. specialize (H _ Hd). cbv beta in H.
  rewrite List.forallb_forall in H. specialize (H _ Hl). cbn [fst snd] in H.
  rewrite Hs in H. by apply Z.eqb_eq.
Qed.

Lemma linktype_names_agree_witness : dlt_to_linktype 11 = 100.
Proof.
  apply (linktype_names_agree "DLT_ATM_RFC1483" 11 "LINKTYPE_ATM_RFC1483" 100);
    [repeat (first [left; reflexivity|right])..|reflexivity].
Defined.
