(* ===== verification/PcapInt.v ===== *)
(** [pcap-int.h]: the part of [pcap_t] and of its structures that the reading
    and writing of savefiles uses, and the errors the library reports. *)
From S2P Require Import Prelude CFile Bpf.

(** ** Packet header and savefile structures *)

(** [struct pcap_pkthdr] *)
Record pcap_pkthdr := Pkthdr { tv_sec : Z; tv_usec : Z; caplen : Z; len : Z }.

#[export] Instance pcap_pkthdr_eq_dec : EqDecision pcap_pkthdr.
Proof. solve_decision. Defined.

(** [swapped_type_t] *)
Inductive swapped_type_t := NOT_SWAPPED | SWAPPED | MAYBE_SWAPPED.

(** What [sf.next_packet_op] points to. *)
Inductive next_packet_op := no_next_packet | op_pcap_next_packet | op_pcap_ng_next_packet.

(** [struct pcap_sf], without the [FILE *]. *)
Record pcap_sf := PcapSf {
  swapped : bool;
  sf_next_packet : next_packet_op;
  hdrsize : Z;
  lengths_swapped : swapped_type_t;
  version_major : Z;
  version_minor : Z;
  ifcount : Z;
  tsresol : Z;
  tsscale : Z;
  tsoffset : Z }.

(** [struct pcap]: the fields the savefile code reads or writes. *)
Record pcap_t := Pcap {
  snapshot : Z;
  linktype : Z;
  linktype_ext : Z;
  tzoff : Z;
  activated : bool;
  break_loop : bool;
  bufsize : Z;
  fcode : option program;
  sf : pcap_sf }.

(** [pcap_create_common] clears the structure and sets the snapshot length. *)
Definition sf0 : pcap_sf :=
  PcapSf false no_next_packet 0 NOT_SWAPPED 0 0 0 0 0 0.
Definition pcap0 : pcap_t := Pcap 65535 0 0 0 false false 0 None sf0.

Definition with_sf (p : pcap_t) (s : pcap_sf) : pcap_t :=
  Pcap (snapshot p) (linktype p) (linktype_ext p) (tzoff p) (activated p) (break_loop p)
       (bufsize p) (fcode p) s.
Definition with_bufsize (p : pcap_t) (n : Z) : pcap_t :=
  Pcap (snapshot p) (linktype p) (linktype_ext p) (tzoff p) (activated p) (break_loop p)
       n (fcode p) (sf p).
Definition with_break_loop (p : pcap_t) (b : bool) : pcap_t :=
  Pcap (snapshot p) (linktype p) (linktype_ext p) (tzoff p) (activated p) b
       (bufsize p) (fcode p) (sf p).
Definition with_activated (p : pcap_t) (b : bool) : pcap_t :=
  Pcap (snapshot p) (linktype p) (linktype_ext p) (tzoff p) b (break_loop p)
       (bufsize p) (fcode p) (sf p).
Definition with_swapped (p : pcap_t) (b : bool) : pcap_t :=
  let s := sf p in
  with_sf p (PcapSf b (sf_next_packet s) (hdrsize s) (lengths_swapped s) (version_major s)
               (version_minor s) (ifcount s) (tsresol s) (tsscale s) (tsoffset s)).
Definition with_ifcount (p : pcap_t) (n : Z) : pcap_t :=
  let s := sf p in
  with_sf p (PcapSf (swapped s) (sf_next_packet s) (hdrsize s) (lengths_swapped s)
               (version_major s) (version_minor s) n (tsresol s) (tsscale s) (tsoffset s)).

(** ** Errors

    One constructor per [snprintf] into an error buffer, with its arguments;
    [strerror] text is left out. *)
Inductive perr :=
| E_read                                (* error reading dump file: %s *)
| E_trunc_file_header (want got : Z)    (* truncated dump file; ... file header bytes ... *)
| E_archaic                             (* archaic pcap savefile format *)
| E_nomem                               (* out of memory *)
| E_trunc_header (want got : Z)         (* truncated dump file; ... header bytes ... *)
| E_bogus_header                        (* bogus savefile header *)
| E_bufmod                              (* BUFMOD hack malloc *)
| E_trunc_captured (want got : Z)       (* truncated dump file; ... captured bytes ... *)
| E_trunc_bytes (want got : Z)          (* truncated dump file; tried to read %lu bytes *)
| E_block_too_big (n : Z)               (* pcap-ng block size %u > maximum %u *)
| E_block_too_small (n : Z)             (* block in pcap-ng dump file has a length of %u < %lu *)
| E_block_short (ty : Z)                (* block of type %u in pcap-ng dump file is too short *)
| E_endofopt_len (n : Z)
| E_tsresol_len (n : Z)
| E_tsresol_dup
| E_tsresol_high (opt : Z)
| E_tsoffset_len (n : Z)
| E_tsoffset_dup
| E_shb_len (n : Z)
| E_version (v : Z)
| E_no_idb
| E_packet_before_idb
| E_if_linktype (v : Z)
| E_if_snaplen (v : Z)
| E_if_tsresol
| E_if_tsoffset
| E_byte_order_changes
| E_bad_byte_order
| E_no_interface (n : Z)
| E_unknown_format.

#[export] Instance perr_eq_dec : EqDecision perr.
Proof. solve_decision. Defined.

(** Where a message was written: the caller's [errbuf] or [p->errbuf]. *)
Inductive sink := to_errbuf | to_p_errbuf.

(** Result of a [check_headers] function: 0, -1 or 1; [CUndef] where C leaves
    the behaviour undefined (a shift by [n] bits). *)
Inductive check_result := CNope | CFail (s : sink) (e : perr) | CFound | CUndef (n : Z).

(** Result of a [next_packet_op]: 0 with the header and the data, 1, -1. *)
Inductive next_result :=
| NPacket (h : pcap_pkthdr) (data : list byte)
| NEof
| NError (e : perr)
| NUndef (n : Z).
