(* ===== verification/UsbHeader.v ===== *)
(** [pcap-common.c]: [swap_linux_usb_header], the byte-order conversion of
    the pseudo-header of Linux USB captures. *)
From S2P Require Import Prelude CFile PcapInt.

(** The fields the function walks over: [Skip n] only advances [offset],
    [Swap n] advances it by [n], returns if the captured data ends before,
    and otherwise swaps the field that ends there ([SWAPSHORT], [SWAPLONG] or
    [SWAPLL], by its size). *)
Inductive field := Skip (n : nat) | Swap (n : nat).

Definition swap_value (n : nat) (v : Z) : Z :=
  match n with 2%nat => SWAPSHORT v | 4%nat => SWAPLONG v | _ => SWAPLL v end.

(** [None] is the early [return]. *)
Fixpoint swap_fields (caplen : Z) (fs : list field) (off : nat) (buf : list byte)
    : list byte * option nat :=
  match fs with
  | [] => (buf, Some off)
  | Skip n :: fs => swap_fields caplen fs (off + n) buf
  | Swap n :: fs =>
      if caplen <? Z.of_nat (off + n) then (buf, None)
      else swap_fields caplen fs (off + n)
             (put_le off n (swap_value n (get_le off n buf)) buf)
  end.

(** From [id] to [data_len]: 40 bytes. *)
Definition usb_common_fields : list field :=
  [Swap 8; Skip 4; Swap 2; Skip 2; Swap 8; Swap 4; Swap 4; Swap 4; Swap 4].
(** [s.iso.error_count], [s.iso.numdesc], or the USB setup header. *)
Definition usb_iso_fields : list field := [Swap 4; Swap 4].
Definition usb_setup_fields : list field := [Skip 8].
(** [interval], [start_frame], [xfer_flags], [ndesc]. *)
Definition usb_mmapped_fields : list field := [Swap 4; Swap 4; Swap 4; Swap 4].
(** [struct usb_isodesc]: [status], [offset], [len] and padding. *)
Definition usb_isodesc_fields : list field := [Swap 4; Swap 4; Swap 4; Skip 4].

Definition URB_ISOCHRONOUS := 0.
Definition transfer_type_off := 9%nat.
Definition iso_numdesc_off := 44%nat.

(** The loop over the isochronous descriptors; it ends at the end of the
    captured data at the latest, so [fuel] need not exceed [caplen]. *)
Fixpoint swap_isodescs (fuel : nat) (caplen i numdesc : Z) (off : nat) (buf : list byte)
    : list byte :=
  match fuel with
  | O => buf
  | S fuel =>
      if i <? numdesc then
        match swap_fields caplen usb_isodesc_fields off buf with
        | (buf, None) => buf
        | (buf, Some off) => swap_isodescs fuel caplen (i + 1) numdesc off buf
        end
      else buf
  end.

Definition is_isochronous (buf : list byte) : bool :=
  get_le transfer_type_off 1 buf =? URB_ISOCHRONOUS.

Definition swap_linux_usb_header (caplen : Z) (buf : list byte) (header_len_64_bytes : bool)
    : list byte :=
  match swap_fields caplen usb_common_fields 0 buf with
  | (buf, None) => buf
  | (buf, Some off) =>
      let fs := (if is_isochronous buf then usb_iso_fields else usb_setup_fields)
                ++ (if header_len_64_bytes then usb_mmapped_fields else []) in
      match swap_fields caplen fs off buf with
      | (buf, None) => buf
      | (buf, Some off) =>
          if is_isochronous buf
          then swap_isodescs (S (Z.to_nat caplen)) caplen 0 (i32 (get_le iso_numdesc_off 4 buf))
                 off buf
          else buf
      end
  end.

(** ** Memory safety: only captured bytes are written

    Whatever the packet claims, the buffer keeps its length and every byte at
    or after [caplen] keeps its value. *)

Definition agree_from (n : Z) (b b' : list byte) : Prop :=
  length b' = length b /\ forall i, n <= Z.of_nat i -> b' !! i = b !! i.

#[export] Instance agree_from_refl n : Reflexive (agree_from n).
Proof. by split. Qed.

#[export] Instance agree_from_trans n : Transitive (agree_from n).
Proof.
  intros a b c [H1 H2] [H3 H4]. split; [congruence|]. intros i Hi. by rewrite H4, H2.
Qed.

Lemma put_le_agree off n v b caplen :
  Z.of_nat (off + n) <= caplen -> caplen <= lenZ b -> agree_from caplen b (put_le off n v b).
Proof.
  unfold lenZ. intros Ho Hc. split; [apply length_put_le; lia|]. intros i Hi.
  unfold put_le. rewrite lookup_app_r by (rewrite length_take; lia).
  rewrite length_take, lookup_app_r by (rewrite length_le_split; lia).
  rewrite length_le_split, lookup_drop. f_equal. lia.
Qed.

Lemma swap_fields_agree caplen fs off b :
  caplen <= lenZ b -> agree_from caplen b (swap_fields caplen fs off b).1.
Proof.
  revert off b. induction fs as [|[n|n] fs IH]; intros off b Hc; cbn [swap_fields].
  - reflexivity.
  - by apply IH.
  - destruct (Z.ltb_spec caplen (Z.of_nat (off + n))); [reflexivity|].
    pose proof (put_le_agree off n (swap_value n (get_le off n b)) b caplen ltac:(lia) Hc) as Ha.
    etransitivity; [exact Ha|]. apply IH. unfold lenZ in *. destruct Ha as [-> _]. done.
Qed.

Lemma swap_isodescs_agree fuel caplen i numdesc off b :
  caplen <= lenZ b -> agree_from caplen b (swap_isodescs fuel caplen i numdesc off b).
Proof.
  revert i off b. induction fuel as [|fuel IH]; intros i off b Hc; cbn [swap_isodescs]; [reflexivity|].
  destruct (i <? numdesc); [|reflexivity].
  pose proof (swap_fields_agree caplen usb_isodesc_fields off b Hc) as Ha.
  destruct (swap_fields _ _ _ _) as [b' [off'|]]; simpl in Ha; [|done].
  etransitivity; [exact Ha|]. apply IH. unfold lenZ in *. destruct Ha as [-> _]. done.
Qed.

Lemma swap_linux_usb_header_agree caplen buf b64 :
  caplen <= lenZ buf -> agree_from caplen buf (swap_linux_usb_header caplen buf b64).
Proof.
  intros Hc. unfold swap_linux_usb_header.
  pose proof (swap_fields_agree caplen usb_common_fields 0 buf Hc) as Ha.
  destruct (swap_fields _ usb_common_fields _ _) as [b1 [off|]]; simpl in Ha; [|done].
  assert (Hc1 : caplen <= lenZ b1) by (unfold lenZ in *; destruct Ha as [-> _]; done).
  etransitivity; [exact Ha|].
  match goal with |- context [swap_fields caplen ?fs off b1] =>
    pose proof (swap_fields_agree caplen fs off b1 Hc1) as Hb;
    destruct (swap_fields caplen fs off b1) as [b2 [off2|]] end; simpl in Hb; [|done].
  assert (Hc2 : caplen <= lenZ b2) by (unfold lenZ in *; destruct Hb as [-> _]; done).
  etransitivity; [exact Hb|].
  destruct (is_isochronous b2); [by apply swap_isodescs_agree|reflexivity].
Qed.

(** C37: Converting a USB pseudo-header never touches memory past the captured
    bytes and never changes the packet's length, whatever counts the packet
    holds. *)
Theorem swap_linux_usb_header_safe caplen buf b64 :
  caplen <= lenZ buf ->
  lenZ (swap_linux_usb_header caplen buf b64) = lenZ buf /\
  forall i, caplen <= Z.of_nat i -> swap_linux_usb_header caplen buf b64 !! i = buf !! i.
Proof.
  intros Hc. destruct (swap_linux_usb_header_agree caplen buf b64 Hc) as [Hl Hi].
  unfold lenZ. by rewrite Hl.
Qed.

Lemma swap_linux_usb_header_safe_witness :
  5 <= lenZ (repeat (byte.of_Z 1) 64) /\
  lenZ (swap_linux_usb_header 5 (repeat (byte.of_Z 1) 64) true) = 64.
Proof.
  split; [zcompute|].
  destruct (swap_linux_usb_header_safe 5 (repeat (byte.of_Z 1) 64) true) as [-> _]; zcompute.
Defined.

(** The fuel of the descriptor loop is enough: with one step per captured
    byte, more makes no difference. *)
Lemma swap_isodescs_fuel fuel fuel' caplen i numdesc off b :
  caplen - Z.of_nat off < Z.of_nat fuel -> (fuel <= fuel')%nat ->
  swap_isodescs fuel caplen i numdesc off b = swap_isodescs fuel' caplen i numdesc off b.
Proof.
  assert (Hoff : forall off b b' off', swap_fields caplen usb_isodesc_fields off b = (b', Some off') ->
            off' = (off + 16)%nat /\ Z.of_nat (off + 12) <= caplen).
  { clear. intros off b b' off'. cbn [swap_fields usb_isodesc_fields].
    do 3 (case_match; [done|]). intros [= _ <-]. rewrite !Z.ltb_ge in *. lia. }
  revert fuel' i off b. induction fuel as [|fuel IH]; intros fuel' i off b Hf Hle.
  - destruct fuel' as [|fuel']; [done|]. cbn [swap_isodescs].
    destruct (i <? numdesc); [|done]. cbn [swap_fields usb_isodesc_fields].
    destruct (Z.ltb_spec caplen (Z.of_nat (off + 4))); [done|lia].
  - destruct fuel' as [|fuel']; [lia|]. cbn [swap_isodescs].
    destruct (i <? numdesc); [|done].
    destruct (swap_fields _ _ off b) as [b' [off'|]] eqn:Hs; [|done].
    apply Hoff in Hs as [-> ?]. apply IH; lia.
Qed.
