(* ===== verification/SfPcap.v ===== *)
(** [sf-pcap.c]: reading and writing pcap savefiles. *)
From S2P Require Import Prelude CFile Bpf PcapInt Datalink UsbHeader.

#[local] Open Scope c_scope.

(** ** Magic numbers and link-type masks *)

Definition TCPDUMP_MAGIC := 0xa1b2c3d4.
Definition KUZNETZOV_TCPDUMP_MAGIC := 0xa1b2cd34.
Definition LT_LINKTYPE (x : Z) : Z := x .& 0x03FFFFFF.
Definition LT_LINKTYPE_EXT (x : Z) : Z := x .& 0xFC000000.
Definition PCAP_VERSION_MAJOR := 2.
Definition PCAP_VERSION_MINOR := 4.

(** [sizeof (struct pcap_file_header)], [sizeof (struct pcap_sf_pkthdr)] and
    [sizeof (struct pcap_sf_patched_pkthdr)]. *)
Definition sizeof_file_header := 24.
Definition sizeof_sf_pkthdr := 16.
Definition sizeof_sf_patched_pkthdr := 24.

Definition is_magic (m : Z) : bool := (m =? TCPDUMP_MAGIC) || (m =? KUZNETZOV_TCPDUMP_MAGIC).

(** [struct pcap_file_header] *)
Record pcap_file_header := FileHeader {
  fh_magic : Z; fh_version_major : Z; fh_version_minor : Z; fh_thiszone : Z;
  fh_sigfigs : Z; fh_snaplen : Z; fh_linktype : Z }.

(** The structure behind its 24 bytes, and the bytes of a structure. *)
Definition parse_file_header (b : list byte) : pcap_file_header :=
  FileHeader (get_le 0 4 b) (get_le 4 2 b) (get_le 6 2 b) (i32 (get_le 8 4 b))
             (get_le 12 4 b) (get_le 16 4 b) (get_le 20 4 b).
Definition file_header_bytes (h : pcap_file_header) : list byte :=
  le_split 4 (fh_magic h) ++ le_split 2 (fh_version_major h) ++ le_split 2 (fh_version_minor h)
  ++ le_split 4 (fh_thiszone h) ++ le_split 4 (fh_sigfigs h) ++ le_split 4 (fh_snaplen h)
  ++ le_split 4 (fh_linktype h).

(** The byte swapping of the header after its magic number. *)
Definition swap_file_header (h : pcap_file_header) : pcap_file_header :=
  FileHeader (fh_magic h) (SWAPSHORT (fh_version_major h)) (SWAPSHORT (fh_version_minor h))
             (i32 (SWAPLONG (fh_thiszone h))) (SWAPLONG (fh_sigfigs h))
             (SWAPLONG (fh_snaplen h)) (SWAPLONG (fh_linktype h)).

Section Malloc.
(** Whether [malloc] of a size succeeds. *)
Context (malloc_ok : Z -> bool).

(** The two switches on the version number and the magic number. *)
Definition header_lengths_swapped (h : pcap_file_header) : swapped_type_t :=
  if fh_version_major h =? 2 then
    if fh_version_minor h <? 3 then SWAPPED
    else if fh_version_minor h =? 3 then MAYBE_SWAPPED else NOT_SWAPPED
  else if fh_version_major h =? 543 then SWAPPED else NOT_SWAPPED.

Definition header_hdrsize (magic : Z) : Z :=
  if magic =? KUZNETZOV_TCPDUMP_MAGIC then sizeof_sf_patched_pkthdr else sizeof_sf_pkthdr.

(** [p->snapshot]: the snapshot length as an [int], 14 more for a patched
    Ethernet capture. *)
Definition header_snapshot (magic dlt snaplen : Z) : Z :=
  if (magic =? KUZNETZOV_TCPDUMP_MAGIC) && (dlt =? DLT_EN10MB)
  then i32 (i32 snaplen + 14) else i32 snaplen.

Definition header_bufsize (snap : Z) : Z := if snap <=? 0 then 65536 else snap.

(** The assignments to [*p], from the header in host byte order. *)
Definition fill_pcap (p : pcap_t) (sw : bool) (h : pcap_file_header) : pcap_t :=
  let dlt := linktype_to_dlt (i32 (LT_LINKTYPE (fh_linktype h))) in
  let snap := header_snapshot (fh_magic h) dlt (fh_snaplen h) in
  let s := sf p in
  Pcap snap dlt (i32 (LT_LINKTYPE_EXT (fh_linktype h))) (fh_thiszone h)
    (activated p) (break_loop p) (header_bufsize snap) (fcode p)
    (PcapSf sw op_pcap_next_packet (header_hdrsize (fh_magic h)) (header_lengths_swapped h)
       (fh_version_major h) (fh_version_minor h) (ifcount s) (tsresol s) (tsscale s)
       (tsoffset s)).

(** [magic] is the first four bytes of the file, already read. *)
Definition pcap_check_header (p : pcap_t) (magic : Z) (fp : file)
    : check_result * pcap_t * file :=
  let sw := negb (is_magic magic) in
  let magic := if sw then SWAPLONG magic else magic in
  if negb (is_magic magic) then (CNope, p, fp)
  else
    let p := if sw then with_swapped p true else p in
    let want := sizeof_file_header - 4 in
    let '(rest, fp) := fread want fp in
    if negb (lenZ rest =? want) then
      (CFail to_errbuf (if ferror fp then E_read
                        else E_trunc_file_header sizeof_file_header (lenZ rest)), p, fp)
    else
      let h := parse_file_header (le_split 4 magic ++ rest) in
      let h := if swapped (sf p) then swap_file_header h else h in
      if fh_version_major h <? PCAP_VERSION_MAJOR then (CFail to_errbuf E_archaic, p, fp)
      else
        let p := fill_pcap p (swapped (sf p)) h in
        if malloc_ok (bufsize p) then (CFound, p, fp)
        else (CFail to_errbuf E_nomem, p, fp).

(** ** Packet records *)

(** [struct pcap_sf_pkthdr] from its bytes; the fields of a patched header
    that follow are not looked at. *)
Definition parse_pkthdr (sw : bool) (b : list byte) : pcap_pkthdr :=
  let long v := if sw then SWAPLONG v else v in
  Pkthdr (i32 (long (get_le 0 4 b))) (i32 (long (get_le 4 4 b)))
         (long (get_le 8 4 b)) (long (get_le 12 4 b)).

Definition swap_lengths (h : pcap_pkthdr) : pcap_pkthdr :=
  Pkthdr (tv_sec h) (tv_usec h) (len h) (caplen h).

Definition fix_lengths (ls : swapped_type_t) (h : pcap_pkthdr) : pcap_pkthdr :=
  match ls with
  | NOT_SWAPPED => h
  | MAYBE_SWAPPED => if caplen h <=? len h then h else swap_lengths h
  | SWAPPED => swap_lengths h
  end.

Definition with_caplen (h : pcap_pkthdr) (n : Z) : pcap_pkthdr :=
  Pkthdr (tv_sec h) (tv_usec h) n (len h).

(** The conversion of pseudo-headers at the end of [pcap_next_packet]. *)
Definition swap_pseudo_header (p : pcap_t) (h : pcap_pkthdr) (data : list byte) : list byte :=
  if swapped (sf p) then
    if linktype p =? DLT_USB_LINUX then swap_linux_usb_header (caplen h) data false
    else if linktype p =? DLT_USB_LINUX_MMAPPED then swap_linux_usb_header (caplen h) data true
    else data
  else data.

(** Read [n] bytes of packet data, or fail. *)
Definition read_captured (n : Z) (fp : file) : (perr + list byte) * file :=
  let '(data, fp) := fread n fp in
  if negb (lenZ data =? n) then
    (inl (if ferror fp then E_read else E_trunc_captured n (lenZ data)), fp)
  else (inr data, fp).

(** [tsize] is the function's [static size_t tsize], the size of the
    oversized-packet buffer [tp] that has been allocated so far. *)
Definition grow_tp (tsize n : Z) : option Z :=
  if tsize <? n then
    let want := (n + 1023) / 1024 * 1024 in
    if malloc_ok want then Some want else None
  else Some tsize.

Definition pcap_next_packet (p : pcap_t) (tsize : Z) (fp : file) : next_result * Z * file :=
  let '(hb, fp) := fread (hdrsize (sf p)) fp in
  if negb (lenZ hb =? hdrsize (sf p)) then
    if ferror fp then (NError E_read, tsize, fp)
    else if negb (lenZ hb =? 0) then (NError (E_trunc_header (hdrsize (sf p)) (lenZ hb)), tsize, fp)
    else (NEof, tsize, fp)
  else
    let h := fix_lengths (lengths_swapped (sf p)) (parse_pkthdr (swapped (sf p)) hb) in
    if u32 (bufsize p) <? caplen h then
      if 65535 <? caplen h then (NError E_bogus_header, tsize, fp)
      else
        match grow_tp tsize (caplen h) with
        | None => (NError E_bufmod, 0, fp)
        | Some tsize =>
            match read_captured (caplen h) fp with
            | (inl e, fp) => (NError e, tsize, fp)
            | (inr tp, fp) =>
                let h := with_caplen h (bufsize p) in
                let data := take (Z.to_nat (bufsize p)) tp in
                (NPacket h (swap_pseudo_header p h data), tsize, fp)
            end
        end
    else
      match read_captured (caplen h) fp with
      | (inl e, fp) => (NError e, tsize, fp)
      | (inr data, fp) => (NPacket h (swap_pseudo_header p h data), tsize, fp)
      end.
End Malloc.

(** ** Writing *)

Definition sf_write_header (linktype thiszone snaplen : Z) : list byte :=
  file_header_bytes (FileHeader TCPDUMP_MAGIC PCAP_VERSION_MAJOR PCAP_VERSION_MINOR
                       thiszone 0 snaplen linktype).

(** [pcap_dump]: the record appended to the file; [sp] is the packet buffer,
    of which [h->caplen] bytes are written. *)
Definition sf_pkthdr_bytes (h : pcap_pkthdr) : list byte :=
  le_split 4 (tv_sec h) ++ le_split 4 (tv_usec h) ++ le_split 4 (caplen h) ++ le_split 4 (len h).
Definition pcap_dump (h : pcap_pkthdr) (sp : list byte) : list byte :=
  sf_pkthdr_bytes h ++ take (Z.to_nat (caplen h)) sp.

(** The outcome of opening a dump file: the file's first bytes, or why not. *)
Inductive dump_error := D_not_activated | D_linktype (dlt : Z).

(** [pcap_dump_fopen] and [pcap_dump_open], up to the call of [fopen];
    [pcap_setup_dump] writes the header. *)
Definition pcap_dump_fopen (p : pcap_t) : dump_error + list byte :=
  let lt := dlt_to_linktype (linktype p) in
  if lt =? -1 then inl (D_linktype (linktype p))
  else inr (sf_write_header (lt .| linktype_ext p) (tzoff p) (snapshot p)).

Definition pcap_dump_open (p : pcap_t) : dump_error + list byte :=
  if negb (activated p) then inl D_not_activated else pcap_dump_fopen p.

(** ** Lemmas: what a packet record is, once read *)

Lemma SWAPLONG_u32 y : is_u 32 (SWAPLONG y).
Proof.
  rewrite SWAPLONG_arith. pose proof (Z.mod_pos_bound y 256).
  pose proof (Z.mod_pos_bound (y / 256) 256). pose proof (Z.mod_pos_bound (y / 65536) 256).
  pose proof (Z.mod_pos_bound (y / 16777216) 256). clia.
Qed.

Lemma get_le4_u32 off b : is_u 32 (get_le off 4 b).
Proof. by apply get_le_u. Qed.

#[export] Hint Resolve SWAPLONG_u32 get_le4_u32 : cint.

(** Every field lies in its type's range. *)
Definition pkthdr_ok (h : pcap_pkthdr) : Prop :=
  is_i 32 (tv_sec h) /\ is_i 32 (tv_usec h) /\ is_u 32 (caplen h) /\ is_u 32 (len h).

Lemma parse_pkthdr_ok sw b : pkthdr_ok (parse_pkthdr sw b).
Proof. unfold pkthdr_ok, parse_pkthdr. destruct sw; simpl; split_and!; auto with cint. Qed.

Lemma fix_lengths_ok ls h : pkthdr_ok h -> pkthdr_ok (fix_lengths ls h).
Proof.
  unfold pkthdr_ok, fix_lengths. destruct ls; [tauto|simpl; tauto|].
  destruct (caplen h <=? len h); simpl; tauto.
Qed.

Lemma swap_pseudo_header_length p h d :
  caplen h <= lenZ d -> lenZ (swap_pseudo_header p h d) = lenZ d.
Proof.
  intros Hc. unfold swap_pseudo_header, lenZ in *.
  repeat case_match; try done; f_equal; by apply swap_linux_usb_header_agree.
Qed.

Lemma read_captured_ok n fp d fp' :
  read_captured n fp = (inr d, fp') -> lenZ d = n /\ fp' = (fread n fp).2.
Proof.
  unfold read_captured. destruct (fread n fp) as [d' fp''].
  destruct (Z.eqb_spec (lenZ d') n); simpl; [|done]. by intros [= -> ->].
Qed.

Lemma fread_rest_le n f : (length (f_rest (fread n f).2) <= length (f_rest f))%nat.
Proof. unfold fread. simpl. rewrite length_drop. lia. Qed.

Lemma fread_rest_exact n f :
  lenZ (fread n f).1 = n -> lenZ (f_rest (fread n f).2) = lenZ (f_rest f) - n.
Proof. unfold fread, lenZ. simpl. rewrite length_drop, length_take. lia. Qed.

(** What the reader's state satisfies once the file header has been read. *)
Definition reader_ok (p : pcap_t) : Prop :=
  0 < bufsize p < 2 ^ 31 /\ (hdrsize (sf p) = 16 \/ hdrsize (sf p) = 24).

(** A packet handed to the caller: its header's fields are in range, and its
    data is exactly as long as the header says. *)
Definition packet_ok (h : pcap_pkthdr) (d : list byte) : Prop :=
  lenZ d = caplen h /\ is_u 32 (caplen h) /\ is_u 32 (len h).

Section Safety.
Context (malloc_ok : Z -> bool) (p : pcap_t) (Hp : reader_ok p).

Lemma next_packet_safe tsize fp h d tsize' fp' :
  pcap_next_packet malloc_ok p tsize fp = (NPacket h d, tsize', fp') ->
  packet_ok h d /\ caplen h <= bufsize p /\ is_i 32 (tv_sec h) /\ is_i 32 (tv_usec h) /\
  (length (f_rest fp') < length (f_rest fp))%nat.
Proof using Hp.
  destruct Hp as [Hb Hh]. unfold pcap_next_packet. rewrite uwrap_id by clia.
  destruct (fread (hdrsize (sf p)) fp) as [hb fp1] eqn:Hr1.
  destruct (Z.eqb_spec (lenZ hb) (hdrsize (sf p))) as [Hl|]; simpl;
    [|repeat case_match; intros; simplify_eq].
  pose proof (fread_rest_exact (hdrsize (sf p)) fp) as Hrest. rewrite Hr1 in Hrest.
  specialize (Hrest Hl). simpl in Hrest. clear Hr1.
  set (h0 := fix_lengths _ _).
  assert (Hh0 : pkthdr_ok h0) by apply fix_lengths_ok, parse_pkthdr_ok.
  destruct Hh0 as (Hs & Hu & Hc & Hn). clearbody h0.
  destruct (Z.ltb_spec (bufsize p) (caplen h0)).
  - destruct (_ <? _); [intros; simplify_eq|]. destruct (grow_tp _ _ _) as [ts|]; [|by intros].
    destruct (read_captured (caplen h0) fp1) as [[e|tp] fp2] eqn:Hr; intros [= <- <- <- <-].
    apply read_captured_ok in Hr as [Ht ->].
    assert (Hlt : lenZ (take (Z.to_nat (bufsize p)) tp) = bufsize p)
      by (unfold lenZ in *; rewrite length_take; lia).
    pose proof (fread_rest_le (caplen h0) fp1) as Hle.
    destruct (fread (caplen h0) fp1) as [? fp2]. simpl in Hle |- *. unfold packet_ok.
    rewrite swap_pseudo_header_length by (simpl; lia). simpl.
    unfold lenZ in *. split_and!; try tauto; try clia.
  - destruct (read_captured (caplen h0) fp1) as [[e|tp] fp2] eqn:Hr; intros [= <- <- <- <-].
    apply read_captured_ok in Hr as [Ht ->].
    pose proof (fread_rest_le (caplen h0) fp1) as Hle.
    destruct (fread (caplen h0) fp1) as [? fp2]. simpl in Hle |- *. unfold packet_ok.
    rewrite swap_pseudo_header_length by lia.
    unfold lenZ in *. split_and!; try tauto; try lia.
Qed.

Lemma next_packet_rest tsize fp :
  (length (f_rest (pcap_next_packet malloc_ok p tsize fp).2) <= length (f_rest fp))%nat.
Proof using.
  unfold pcap_next_packet. pose proof (fread_rest_le (hdrsize (sf p)) fp) as Hr.
  destruct (fread (hdrsize (sf p)) fp) as [hb fp1]. simpl in Hr.
  set (h0 := fix_lengths _ _). unfold read_captured.
  pose proof (fread_rest_le (caplen h0) fp1) as Hr2.
  destruct (fread (caplen h0) fp1) as [d fp2]. simpl in Hr2.
  repeat case_match; simplify_eq; simpl; lia.
Qed.
End Safety.

Lemma header_bufsize_ok snap : is_i 32 snap -> 0 < header_bufsize snap < 2 ^ 31.
Proof. unfold header_bufsize. intros Hs. destruct (snap <=? 0) eqn:E; clia. Qed.

Lemma header_snapshot_ok magic dlt s : is_i 32 (header_snapshot magic dlt s).
Proof. unfold header_snapshot. destruct (_ && _); apply swrap_range; lia. Qed.

Lemma check_header_ok malloc_ok p magic fp p' fp' :
  pcap_check_header malloc_ok p magic fp = (CFound, p', fp') ->
  reader_ok p' /\ sf_next_packet (sf p') = op_pcap_next_packet /\
  fcode p' = fcode p /\ break_loop p' = break_loop p.
Proof.
  unfold pcap_check_header.
  destruct (negb (is_magic (if negb (is_magic magic) then _ else _))); [done|].
  destruct (fread _ fp) as [rest fp1]. destruct (negb _); [by destruct (ferror fp1)|].
  destruct (_ <? PCAP_VERSION_MAJOR); [done|].
  destruct (malloc_ok _); [|done]. intros [= <- <-].
  split_and!; [split| | |]; cbn; try done.
  - apply header_bufsize_ok, header_snapshot_ok.
  - unfold header_hdrsize. destruct (_ =? _); auto.
  - by destruct (negb (is_magic magic)).
  - by destruct (negb (is_magic magic)).
Qed.

(** ** The image of a savefile

    What a host of either byte order writes: the file header and a packet
    record, and what reading them back gives. *)

Definition file_header_image (sw : bool) (h : pcap_file_header) : list byte :=
  enc sw 4 (fh_magic h) ++ enc sw 2 (fh_version_major h) ++ enc sw 2 (fh_version_minor h)
  ++ enc sw 4 (fh_thiszone h) ++ enc sw 4 (fh_sigfigs h) ++ enc sw 4 (fh_snaplen h)
  ++ enc sw 4 (fh_linktype h) ++ [].

Definition file_header_ok (h : pcap_file_header) : Prop :=
  is_magic (fh_magic h) = true /\ is_u 16 (fh_version_major h) /\ is_u 16 (fh_version_minor h) /\
  is_i 32 (fh_thiszone h) /\ is_u 32 (fh_sigfigs h) /\ is_u 32 (fh_snaplen h) /\
  is_u 32 (fh_linktype h).

Definition pkthdr_image (sw : bool) (h : pcap_pkthdr) : list byte :=
  enc sw 4 (tv_sec h) ++ enc sw 4 (tv_usec h) ++ enc sw 4 (caplen h) ++ enc sw 4 (len h) ++ [].

Lemma length_file_header_image sw h : length (file_header_image sw h) = 24%nat.
Proof. unfold file_header_image. by rewrite !length_app, !length_enc. Qed.

Lemma length_pkthdr_image sw h : length (pkthdr_image sw h) = 16%nat.
Proof. unfold pkthdr_image. by rewrite !length_app, !length_enc. Qed.

Lemma i32_u32 z : is_i 32 z -> i32 (u32 z) = z.
Proof. intros. rewrite swrap_uwrap by lia. by apply swrap_id. Qed.

Lemma parse_pkthdr_image sw h b :
  pkthdr_ok h -> parse_pkthdr sw (pkthdr_image sw h ++ b) = h.
Proof.
  intros (Hs & Hu & Hc & Hl). unfold parse_pkthdr, pkthdr_image.
  destruct sw; read_fields; rewrite !i32_u32, !(uwrap_id 32) by done; by destruct h.
Qed.

Lemma parse_file_header_image sw h :
  file_header_ok h ->
  let h' := parse_file_header (le_split 4 (fh_magic h) ++ drop 4 (file_header_image sw h)) in
  (if sw then swap_file_header h' else h') = h.
Proof.
  intros (Hm & Hv & Hw & Hz & Hs & Hn & Hl). unfold file_header_image.
  rewrite (drop_app_length' _ _ 4) by (by rewrite length_enc).
  change (le_split 4 (fh_magic h)) with (enc false 4 (fh_magic h)).
  assert (is_u 32 (fh_magic h)).
  { unfold is_magic, TCPDUMP_MAGIC, KUZNETZOV_TCPDUMP_MAGIC in Hm.
    apply orb_prop in Hm as [?%Z.eqb_eq|?%Z.eqb_eq]; clia. }
  unfold parse_file_header, swap_file_header.
  destruct sw; cbn [fh_magic fh_version_major fh_version_minor fh_thiszone fh_sigfigs fh_snaplen
    fh_linktype]; read_fields.
  - rewrite SWAPLONG_i32. read_fields. rewrite !i32_u32, !(uwrap_id 32), !(uwrap_id 16) by done.
    by destruct h.
  - rewrite !i32_u32, !(uwrap_id 32), !(uwrap_id 16) by done. by destruct h.
Qed.

(** The four bytes the file format is recognised by. *)
Lemma magic_of_image sw h b :
  file_header_ok h ->
  let m := get_le 0 4 (file_header_image sw h ++ b) in
  is_magic m = negb sw /\ (if sw then SWAPLONG m else m) = fh_magic h.
Proof.
  intros (Hm & _). unfold file_header_image. rewrite <- app_assoc.
  rewrite get_le_exact by apply length_enc.
  unfold is_magic in Hm. apply orb_prop in Hm as [->%Z.eqb_eq| ->%Z.eqb_eq];
    destruct sw; vm_compute; done.
Qed.

Lemma check_header_image malloc_ok sw p h b e :
  swapped (sf p) = false -> file_header_ok h -> PCAP_VERSION_MAJOR <= fh_version_major h ->
  let p' := fill_pcap p sw h in
  pcap_check_header malloc_ok p (get_le 0 4 (file_header_image sw h ++ b))
    (File (drop 4 (file_header_image sw h) ++ b) e)
  = if malloc_ok (bufsize p') then (CFound, p', File b e)
    else (CFail to_errbuf E_nomem, p', File b e).
Proof.
  intros Hp Hh Hv p'. destruct (magic_of_image sw h b Hh) as [Hm1 Hm2].
  set (m := get_le 0 4 _) in *. clearbody m. unfold pcap_check_header.
  rewrite Hm1, negb_involutive, Hm2. destruct Hh as [Hmg Hrest] eqn:E. rewrite Hmg. simpl negb.
  rewrite fread_full by (unfold lenZ; rewrite length_drop, length_file_header_image; done).
  unfold lenZ at 1. rewrite length_drop, length_file_header_image. change (_ =? _) with true at 1.
  simpl negb.
  replace (swapped (sf (if sw then with_swapped p true else p))) with sw by (by destruct sw).
  rewrite parse_file_header_image by (split; done).
  destruct (Z.ltb_spec (fh_version_major h) PCAP_VERSION_MAJOR); [lia|].
  replace (fill_pcap (if sw then with_swapped p true else p) sw h) with p'; [done|].
  by destruct sw.
Qed.

(** A packet record whose data fits the buffer is delivered as it is. *)
Lemma next_packet_image malloc_ok p tsize h pad d b e :
  reader_ok p -> pkthdr_ok h -> lenZ pad = hdrsize (sf p) - 16 ->
  lenZ d = caplen (fix_lengths (lengths_swapped (sf p)) h) -> lenZ d <= bufsize p ->
  pcap_next_packet malloc_ok p tsize
    (File (pkthdr_image (swapped (sf p)) h ++ pad ++ d ++ b) e)
  = let h := fix_lengths (lengths_swapped (sf p)) h in
    (NPacket h (swap_pseudo_header p h d), tsize, File b e).
Proof.
  intros [Hb Hhs] Hh Hpad Hd Hle. unfold pcap_next_packet.
  rewrite app_assoc, fread_full
    by (unfold lenZ in *; rewrite length_app, length_pkthdr_image; lia).
  assert (lenZ (pkthdr_image (swapped (sf p)) h ++ pad) = hdrsize (sf p)) as ->
    by (unfold lenZ in *; rewrite length_app, length_pkthdr_image; lia).
  rewrite Z.eqb_refl. simpl negb. rewrite parse_pkthdr_image by done. cbv zeta.
  rewrite uwrap_id by clia. set (h' := fix_lengths _ h) in *.
  destruct (Z.ltb_spec (bufsize p) (caplen h')); [lia|].
  unfold read_captured. by rewrite fread_full, Hd, Z.eqb_refl by done.
Qed.

Lemma next_packet_eof malloc_ok p tsize :
  reader_ok p -> pcap_next_packet malloc_ok p tsize (File [] false) = (NEof, tsize, File [] false).
Proof.
  intros [_ Hh]. unfold pcap_next_packet. rewrite fread_nil.
  by destruct Hh as [->| ->].
Qed.
