(* ===== verification/SfPcapNg.v ===== *)
(** [sf-pcap-ng.c]: reading pcap-ng savefiles. *)
From S2P Require Import Prelude CFile Bpf PcapInt Datalink UsbHeader SfPcap.

#[local] Open Scope c_scope.

(** ** Constants of the format *)

Definition OPT_ENDOFOPT := 0.
Definition IF_TSRESOL := 9.
Definition IF_TSOFFSET := 14.
Definition BT_SHB := 0x0A0D0D0A.
Definition BT_IDB := 0x00000001.
Definition BT_EPB := 0x00000006.
Definition BT_SPB := 0x00000003.
Definition BT_PB := 0x00000002.
Definition BYTE_ORDER_MAGIC := 0x1A2B3C4D.
Definition PCAP_NG_VERSION_MAJOR := 1.

Definition sizeof_block_header := 8.
Definition sizeof_block_trailer := 4.
Definition sizeof_section_header_block := 16.
Definition sizeof_interface_description_block := 8.
Definition sizeof_enhanced_packet_block := 20.
Definition sizeof_simple_packet_block := 4.
Definition sizeof_packet_block := 20.
Definition sizeof_option_header := 4.
Definition max_block_size := 16 * 1024 * 1024.

(** ** Reading bytes and blocks *)

(** [read_bytes]: -1 is [inl], 0 (end of file) is [inr None]. *)
Definition read_bytes (n : Z) (fail_on_eof : bool) (fp : file)
    : (perr + option (list byte)) * file :=
  let '(bs, fp) := fread n fp in
  if negb (lenZ bs =? n) then
    if ferror fp then (inl E_read, fp)
    else if (lenZ bs =? 0) && negb fail_on_eof then (inr None, fp)
    else (inl (E_trunc_bytes n (lenZ bs)), fp)
  else (inr (Some bs), fp).

(** [struct block_cursor]: the data of the block that has not been consumed;
    [data_remaining] is its length. *)
Record block_cursor := Cursor { c_data : list byte; block_type : Z }.
Definition data_remaining (c : block_cursor) : Z := lenZ (c_data c).

Definition get_from_block_data (c : block_cursor) (chunk_size : Z)
    : perr + list byte * block_cursor :=
  if data_remaining c <? chunk_size then inl (E_block_short (block_type c))
  else inr (take (Z.to_nat chunk_size) (c_data c),
            Cursor (drop (Z.to_nat chunk_size) (c_data c)) (block_type c)).

(** Fields, in the byte order of the section. *)
Definition field16 (sw : bool) (off : nat) (b : list byte) : Z :=
  if sw then SWAPSHORT (get_le off 2 b) else get_le off 2 b.
Definition field32 (sw : bool) (off : nat) (b : list byte) : Z :=
  if sw then SWAPLONG (get_le off 4 b) else get_le off 4 b.
Definition field64 (sw : bool) (off : nat) (b : list byte) : Z :=
  if sw then SWAPLL (get_le off 8 b) else get_le off 8 b.

(** [get_opthdr_from_block_data]: the option's code and length. *)
Definition get_opthdr_from_block_data (sw : bool) (c : block_cursor)
    : perr + (Z * Z) * block_cursor :=
  match get_from_block_data c sizeof_option_header with
  | inl e => inl e
  | inr (b, c) => inr ((field16 sw 0 b, field16 sw 2 b), c)
  end.

(** [get_optvalue_from_block_data]: the value, padded to a multiple of 4. *)
Definition get_optvalue_from_block_data (c : block_cursor) (option_length : Z)
    : perr + list byte * block_cursor :=
  get_from_block_data c ((option_length + 3) / 4 * 4).

(** ** Options of an Interface Description Block *)

(** The resolution as a [u_int]: powers of 10 and, through an [int] shift,
    powers of 2; a shift by 32 or more is undefined. *)
Fixpoint pow10 (n : nat) : Z := match n with O => 1 | S n => u32 (pow10 n * 10) end.

Definition tsresol_of_opt (opt : Z) : option Z :=
  if negb (opt .& 0x80 =? 0) then
    let n := opt .& 0x7F in
    if n <? 32 then Some (u32 (1 << n)) else None
  else Some (pow10 (Z.to_nat opt)).

Inductive idb_result := IdbErr (e : perr) | IdbUndef (n : Z) | IdbOk (tsresol tsoffset : Z).

(** The [while] loop; an iteration consumes at least an option header. *)
Fixpoint process_idb_loop (fuel : nat) (sw : bool) (c : block_cursor)
    (saw_tsresol saw_tsoffset : bool) (tsresol tsoffset : Z) : idb_result :=
  match fuel with
  | O => IdbOk tsresol tsoffset
  | S fuel =>
      if data_remaining c =? 0 then IdbOk tsresol tsoffset
      else
        match get_opthdr_from_block_data sw c with
        | inl e => IdbErr e
        | inr ((option_code, option_length), c) =>
            match get_optvalue_from_block_data c option_length with
            | inl e => IdbErr e
            | inr (optvalue, c) =>
                if option_code =? OPT_ENDOFOPT then
                  if negb (option_length =? 0) then IdbErr (E_endofopt_len option_length)
                  else IdbOk tsresol tsoffset
                else if option_code =? IF_TSRESOL then
                  if negb (option_length =? 1) then IdbErr (E_tsresol_len option_length)
                  else if saw_tsresol then IdbErr E_tsresol_dup
                  else
                    let opt := u8 (get_le 0 4 optvalue) in
                    match tsresol_of_opt opt with
                    | None => IdbUndef (opt .& 0x7F)
                    | Some r =>
                        if r =? 0 then IdbErr (E_tsresol_high opt)
                        else process_idb_loop fuel sw c true saw_tsoffset r tsoffset
                    end
                else if option_code =? IF_TSOFFSET then
                  if negb (option_length =? 8) then IdbErr (E_tsoffset_len option_length)
                  else if saw_tsoffset then IdbErr E_tsoffset_dup
                  else process_idb_loop fuel sw c saw_tsresol true tsresol
                         (field64 sw 0 optvalue)
                else process_idb_loop fuel sw c saw_tsresol saw_tsoffset tsresol tsoffset
            end
        end
  end.

Definition process_idb_options (sw : bool) (c : block_cursor) (tsresol tsoffset : Z)
    : idb_result :=
  process_idb_loop (S (length (c_data c))) sw c false false tsresol tsoffset.

Section Malloc.
(** Whether [malloc] or [realloc] of a size succeeds. *)
Context (malloc_ok : Z -> bool).

(** [read_block]: [inr None] is the end of the file. *)
Definition read_block (p : pcap_t) (fp : file) : (perr + option block_cursor) * file :=
  match read_bytes sizeof_block_header false fp with
  | (inl e, fp) => (inl e, fp)
  | (inr None, fp) => (inr None, fp)
  | (inr (Some bh), fp) =>
      let sw := swapped (sf p) in
      let ty := field32 sw 0 bh in
      let total_length := field32 sw 4 bh in
      if max_block_size <? total_length then (inl (E_block_too_big total_length), fp)
      else if total_length <? sizeof_block_header + sizeof_block_trailer then
        (inl (E_block_too_small total_length), fp)
      else if (u32 (bufsize p) <? total_length) && negb (malloc_ok total_length) then
        (inl E_nomem, fp)
      else
        match read_bytes (total_length - sizeof_block_header) true fp with
        | (inl e, fp) => (inl e, fp)
        | (inr None, fp) => (inr None, fp)
        | (inr (Some body), fp) =>
            let n := total_length - sizeof_block_header - sizeof_block_trailer in
            (inr (Some (Cursor (take (Z.to_nat n) body) ty)), fp)
        end
  end.

(** ** The file header *)

(** The scaling factor to microseconds. *)
Definition tsscale_of (tsresol : Z) : Z :=
  if 1000000 <? tsresol then tsresol / 1000000 else 1000000 / tsresol.

(** What the first Interface Description Block sets. *)
Definition fill_idb (p : pcap_t) (lt snaplen tsres tsoff : Z) : pcap_t :=
  let s := sf p in
  Pcap (i32 snaplen) (linktype_to_dlt lt) 0 0 (activated p) (break_loop p) (bufsize p)
    (fcode p)
    (PcapSf (swapped s) op_pcap_ng_next_packet (hdrsize s) (lengths_swapped s)
       (version_major s) (version_minor s) (ifcount s) tsres (tsscale_of tsres) tsoff).

(** The [for] loop that looks for an Interface Description Block; every
    block is at least 12 bytes long. *)
Fixpoint find_idb (fuel : nat) (p : pcap_t) (fp : file) : check_result * pcap_t * file :=
  match fuel with
  | O => (CFail to_p_errbuf E_no_idb, p, fp)
  | S fuel =>
      match read_block p fp with
      | (inl e, fp) => (CFail to_errbuf e, p, fp)
      | (inr None, fp) => (CFail to_p_errbuf E_no_idb, p, fp)
      | (inr (Some c), fp) =>
          if block_type c =? BT_IDB then
            match get_from_block_data c sizeof_interface_description_block with
            | inl e => (CFail to_errbuf e, p, fp)
            | inr (idb, c) =>
                let sw := swapped (sf p) in
                let p := with_ifcount p (u32 (ifcount (sf p) + 1)) in
                match process_idb_options sw c (tsresol (sf p)) (tsoffset (sf p)) with
                | IdbErr e => (CFail to_errbuf e, p, fp)
                | IdbUndef n => (CUndef n, p, fp)
                | IdbOk r o =>
                    (CFound, fill_idb p (field16 sw 0 idb) (field32 sw 4 idb) r o, fp)
                end
            end
          else if (block_type c =? BT_EPB) || (block_type c =? BT_SPB)
                  || (block_type c =? BT_PB) then
            (CFail to_p_errbuf E_packet_before_idb, p, fp)
          else find_idb fuel p fp
      end
  end.

(** The version and the default time stamp resolution and offset. *)
Definition fill_shb (p : pcap_t) (major minor : Z) : pcap_t :=
  let s := sf p in
  with_sf p (PcapSf (swapped s) (sf_next_packet s) (hdrsize s) (lengths_swapped s)
               major minor (ifcount s) 1000000 1 0).

Definition shb_min : Z :=
  sizeof_block_header + sizeof_section_header_block + sizeof_block_trailer.

(** [magic] is the first four bytes of the file, already read. *)
Definition pcap_ng_check_header (p : pcap_t) (magic : Z) (fp : file)
    : check_result * pcap_t * file :=
  if negb (magic =? BT_SHB) then (CNope, p, fp)
  else
    let '(b, fp) := fread 4 fp in
    if lenZ b <? 4 then (if ferror fp then CFail to_errbuf E_read else CNope, p, fp)
    else
      let total_length := get_le 0 4 b in
      let '(b, fp) := fread 4 fp in
      if lenZ b <? 4 then (if ferror fp then CFail to_errbuf E_read else CNope, p, fp)
      else
        let bom := get_le 0 4 b in
        let sw := negb (bom =? BYTE_ORDER_MAGIC) in
        if sw && negb (SWAPLONG bom =? BYTE_ORDER_MAGIC) then (CNope, p, fp)
        else
          let p := if sw then with_swapped p true else p in
          let total_length := if sw then SWAPLONG total_length else total_length in
          if total_length <? shb_min then (CFail to_errbuf (E_shb_len total_length), p, fp)
          else
            let p := with_bufsize p (if 2048 <? total_length then i32 total_length else 2048) in
            if negb (malloc_ok (u64 (bufsize p))) then (CFail to_errbuf E_nomem, p, fp)
            else
              match read_bytes (total_length - 12) true fp with
              | (inl e, fp) => (CFail to_errbuf e, p, fp)
              | (inr None, fp) => (CFail to_errbuf (E_trunc_bytes (total_length - 12) 0), p, fp)
              | (inr (Some rest), fp) =>
                  let major := field16 (swapped (sf p)) 0 rest in
                  let minor := field16 (swapped (sf p)) 2 rest in
                  if negb (major =? PCAP_NG_VERSION_MAJOR) then
                    (CFail to_errbuf (E_version major), p, fp)
                  else find_idb (S (length (f_rest fp))) (fill_shb p major minor) fp
              end.

(** ** Packets *)

(** What the fixed part of a packet block gives: the interface, the lengths
    and the time stamp. *)
Record packet_fields := PacketFields { interface_id : Z; pf_caplen : Z; pf_len : Z; pf_t : Z }.

Definition timestamp (high low : Z) : Z := (high << 32) .| low.

Definition epb_fields (sw : bool) (b : list byte) : packet_fields :=
  PacketFields (field32 sw 0 b) (field32 sw 12 b) (field32 sw 16 b)
               (timestamp (field32 sw 4 b) (field32 sw 8 b)).
Definition pb_fields (sw : bool) (b : list byte) : packet_fields :=
  PacketFields (field16 sw 0 b) (field32 sw 12 b) (field32 sw 16 b)
               (timestamp (field32 sw 4 b) (field32 sw 8 b)).
Definition spb_fields (sw : bool) (snap : Z) (b : list byte) : packet_fields :=
  let n := field32 sw 0 b in
  PacketFields 0 (if u32 snap <? n then u32 snap else n) n 0.

(** One block: a packet, an error or an undefined shift ends the search, any
    other block lets it go on. *)
Inductive block_result :=
| BFound (f : packet_fields) (c : block_cursor)
| BError (e : perr)
| BUndef (n : Z)
| BMore.

Definition next_idb (p : pcap_t) (c : block_cursor) : block_result * pcap_t :=
  match get_from_block_data c sizeof_interface_description_block with
  | inl e => (BError e, p)
  | inr (idb, c) =>
      let sw := swapped (sf p) in
      if negb (linktype p =? field16 sw 0 idb) then (BError (E_if_linktype (field16 sw 0 idb)), p)
      else if negb (u32 (snapshot p) =? field32 sw 4 idb) then
        (BError (E_if_snaplen (field32 sw 4 idb)), p)
      else
        let p := with_ifcount p (u32 (ifcount (sf p) + 1)) in
        match process_idb_options sw c 1000000 0 with
        | IdbErr e => (BError e, p)
        | IdbUndef n => (BUndef n, p)
        | IdbOk r o =>
            if negb (r =? tsresol (sf p)) then (BError E_if_tsresol, p)
            else if negb (o =? tsoffset (sf p)) then (BError E_if_tsoffset, p)
            else (BMore, p)
        end
  end.

Definition next_shb (p : pcap_t) (c : block_cursor) : block_result * pcap_t :=
  match get_from_block_data c sizeof_section_header_block with
  | inl e => (BError e, p)
  | inr (shb, c) =>
      let sw := swapped (sf p) in
      if field32 sw 0 shb =? BYTE_ORDER_MAGIC then
        if negb (field16 sw 4 shb =? PCAP_NG_VERSION_MAJOR) then
          (BError (E_version (field16 sw 4 shb)), p)
        else (BMore, with_ifcount p 0)
      else if field32 sw 0 shb =? SWAPLONG BYTE_ORDER_MAGIC then (BError E_byte_order_changes, p)
      else (BError E_bad_byte_order, p)
  end.

(** The [switch] on the block's type. *)
Definition next_block (p : pcap_t) (c : block_cursor) : block_result * pcap_t :=
  let sw := swapped (sf p) in
  let packet size fields :=
    match get_from_block_data c size with
    | inl e => (BError e, p)
    | inr (b, c) => (BFound (fields b) c, p)
    end in
  if block_type c =? BT_EPB then packet sizeof_enhanced_packet_block (epb_fields sw)
  else if block_type c =? BT_SPB then
    packet sizeof_simple_packet_block (spb_fields sw (snapshot p))
  else if block_type c =? BT_PB then packet sizeof_packet_block (pb_fields sw)
  else if block_type c =? BT_IDB then next_idb p c
  else if block_type c =? BT_SHB then next_shb p c
  else (BMore, p).

(** The time stamp as a [struct timeval]. *)
Definition ts_sec (s : pcap_sf) (t : Z) : Z := i64 (u64 (t / tsresol s + tsoffset s)).
Definition ts_usec (s : pcap_sf) (t : Z) : Z :=
  let frac := t mod tsresol s in
  i64 (u64 (if 1000000 <? tsresol s then frac / tsscale s else frac * tsscale s)).

(** From the label [found:] to the end of the function. *)
Definition found_packet (p : pcap_t) (f : packet_fields) (c : block_cursor) : next_result :=
  if ifcount (sf p) <=? interface_id f then NError (E_no_interface (interface_id f))
  else
    let h := Pkthdr (ts_sec (sf p) (pf_t f)) (ts_usec (sf p) (pf_t f)) (pf_caplen f) (pf_len f) in
    match get_from_block_data c (caplen h) with
    | inl e => NError e
    | inr (data, _) => NPacket h (swap_pseudo_header p h data)
    end.

(** The [for] loop; every block takes at least 12 bytes of the file, so fuel
    beyond its length is never used up. *)
Fixpoint next_packet_loop (fuel : nat) (p : pcap_t) (fp : file) : next_result * pcap_t * file :=
  match fuel with
  | O => (NEof, p, fp)
  | S fuel =>
      match read_block p fp with
      | (inl e, fp) => (NError e, p, fp)
      | (inr None, fp) => (NEof, p, fp)
      | (inr (Some c), fp) =>
          match next_block p c with
          | (BFound f c, p) => (found_packet p f c, p, fp)
          | (BError e, p) => (NError e, p, fp)
          | (BUndef n, p) => (NUndef n, p, fp)
          | (BMore, p) => next_packet_loop fuel p fp
          end
      end
  end.

Definition pcap_ng_next_packet (p : pcap_t) (fp : file) : next_result * pcap_t * file :=
  next_packet_loop (S (length (f_rest fp))) p fp.
End Malloc.

(** ** Lemmas: how much of the file a block takes *)

Lemma read_bytes_ok n eof fp bs fp' :
  read_bytes n eof fp = (inr (Some bs), fp') ->
  lenZ bs = n /\ lenZ (f_rest fp') = lenZ (f_rest fp) - n.
Proof.
  unfold read_bytes. pose proof (fread_rest_exact n fp) as Hr.
  destruct (fread n fp) as [b fp1]. simpl in Hr.
  destruct (Z.eqb_spec (lenZ b) n) as [Hl|]; simpl; [|by repeat case_match; intros].
  intros [= <- <-]. auto.
Qed.

Lemma read_bytes_rest n eof fp :
  (length (f_rest (read_bytes n eof fp).2) <= length (f_rest fp))%nat.
Proof.
  unfold read_bytes. pose proof (fread_rest_le n fp) as Hr.
  destruct (fread n fp) as [b fp1]. simpl in Hr. by repeat case_match.
Qed.

Lemma get_from_block_data_ok c n b c' :
  get_from_block_data c n = inr (b, c') -> 0 <= n ->
  lenZ b = n /\ n <= data_remaining c /\ data_remaining c' = data_remaining c - n /\
  block_type c' = block_type c /\ c_data c = b ++ c_data c'.
Proof.
  unfold get_from_block_data, data_remaining, lenZ.
  destruct (Z.ltb_spec (Z.of_nat (length (c_data c))) n); [done|]. intros [= <- <-] Hn. simpl.
  rewrite length_take, length_drop, take_drop. split_and!; try done; lia.
Qed.

(** A block is at least 12 bytes of the file, at most 16 MB. *)
Lemma read_block_ok malloc_ok p fp c fp' :
  read_block malloc_ok p fp = (inr (Some c), fp') ->
  data_remaining c <= max_block_size /\ lenZ (f_rest fp') + 12 <= lenZ (f_rest fp).
Proof.
  unfold read_block.
  destruct (read_bytes sizeof_block_header false fp) as [[e|[bh|]] fp1] eqn:H1; [done| |done].
  apply read_bytes_ok in H1 as [_ H1]. unfold sizeof_block_header, sizeof_block_trailer in *.
  set (n := field32 _ 4 bh). clearbody n.
  destruct (Z.ltb_spec max_block_size n); [done|].
  destruct (Z.ltb_spec n (8 + 4)); [done|]. destruct (_ && _); [done|].
  destruct (read_bytes (n - 8) true fp1) as [[e|[body|]] fp2] eqn:H2; [done| |done].
  apply read_bytes_ok in H2 as [Hb H2]. intros [= <- <-].
  unfold data_remaining. simpl. unfold lenZ in *. rewrite length_take. lia.
Qed.

Lemma read_block_rest malloc_ok p fp :
  (length (f_rest (read_block malloc_ok p fp).2) <= length (f_rest fp))%nat.
Proof.
  unfold read_block. pose proof (read_bytes_rest sizeof_block_header false fp) as Hb1.
  destruct (read_bytes _ false fp) as [[e|[bh|]] fp1]; simpl in Hb1 |- *; [lia| |lia].
  case_match; [simpl; lia|]. case_match; [simpl; lia|]. case_match; [simpl; lia|].
  match goal with |- context [read_bytes ?n true fp1] =>
    pose proof (read_bytes_rest n true fp1) as Hb2;
    destruct (read_bytes n true fp1) as [[e|[body|]] fp2] end; simpl in *; lia.
Qed.

(** ** What the blocks between packets change *)

(** Two states that differ in the number of interfaces only. *)
Definition same_but_ifcount (p p' : pcap_t) : Prop := exists n, p' = with_ifcount p n.

#[export] Instance same_but_ifcount_refl : Reflexive same_but_ifcount.
Proof. intros p. exists (ifcount (sf p)). by destruct p as [???????? []]. Qed.

#[export] Instance same_but_ifcount_trans : Transitive same_but_ifcount.
Proof. intros p p' p'' [n ->] [m ->]. by exists m. Qed.

Lemma next_block_same p c : same_but_ifcount p (next_block p c).2.
Proof.
  unfold next_block, next_idb, next_shb.
  repeat case_match; simplify_eq; cbn [snd]; first [reflexivity | by eexists].
Qed.

Lemma next_block_found p c f c' p' :
  next_block p c = (BFound f c', p') -> data_remaining c' <= data_remaining c.
Proof.
  unfold next_block, next_idb, next_shb.
  repeat case_match; intros; simplify_eq;
    match goal with H : get_from_block_data _ _ = inr _ |- _ =>
      apply get_from_block_data_ok in H; [|by vm_compute] end;
    match goal with H : _ /\ _ |- _ => destruct H as (? & ? & ? & _) end;
    unfold sizeof_enhanced_packet_block, sizeof_simple_packet_block, sizeof_packet_block in *; lia.
Qed.

Lemma field32_u32 sw off b : is_u 32 (field32 sw off b).
Proof. unfold field32. destruct sw; auto with cint. Qed.

#[export] Hint Resolve field32_u32 : cint.

Definition fields_ok (f : packet_fields) : Prop := is_u 32 (pf_caplen f) /\ is_u 32 (pf_len f).

Lemma next_block_fields p c f c' p' : next_block p c = (BFound f c', p') -> fields_ok f.
Proof.
  unfold next_block, next_idb, next_shb, fields_ok.
  repeat case_match; intros; simplify_eq;
    cbn [pf_caplen pf_len epb_fields pb_fields spb_fields]; auto with cint.
  unfold spb_fields. cbn [pf_caplen pf_len]. case_match; auto with cint.
Qed.

Lemma found_packet_ok p f c h d :
  found_packet p f c = NPacket h d -> fields_ok f ->
  packet_ok h d /\ caplen h <= data_remaining c.
Proof.
  unfold found_packet, fields_ok, packet_ok. intros Hf [Hc Hl].
  destruct (ifcount (sf p) <=? interface_id f); [done|]. cbv zeta in Hf. cbn [caplen] in Hf.
  destruct (get_from_block_data c (pf_caplen f)) as [e|[b c']] eqn:Hg; [done|].
  apply get_from_block_data_ok in Hg as (Hb & Hr & _); [|clia].
  injection Hf as <- <-. cbn [caplen len].
  rewrite swap_pseudo_header_length by (cbn; lia). auto.
Qed.

(** ** The loop over the blocks *)

Section Loop.
Context (malloc_ok : Z -> bool).

(** Fuel beyond the length of the file changes nothing: the loop ends. *)
Lemma next_packet_loop_fuel n n' p fp :
  (length (f_rest fp) < n)%nat -> (length (f_rest fp) < n')%nat ->
  next_packet_loop malloc_ok n p fp = next_packet_loop malloc_ok n' p fp.
Proof using.
  revert n' p fp. induction n as [|n IH]; intros [|n'] p fp H1 H2; [lia..|].
  cbn [next_packet_loop].
  destruct (read_block malloc_ok p fp) as [[e|[c|]] fp'] eqn:Hb; [done| |done].
  apply read_block_ok in Hb as [_ Hb]. unfold lenZ in Hb.
  destruct (next_block p c) as [[] p']; [done..|]. apply IH; lia.
Qed.

(** A packet of the file, whatever bytes the file holds. *)
Lemma next_packet_loop_safe n p fp h d p' fp' :
  next_packet_loop malloc_ok n p fp = (NPacket h d, p', fp') ->
  packet_ok h d /\ caplen h <= max_block_size /\ same_but_ifcount p p' /\
  (length (f_rest fp') < length (f_rest fp))%nat.
Proof using.
  revert p fp. induction n as [|n IH]; intros p fp; cbn [next_packet_loop]; [done|].
  destruct (read_block malloc_ok p fp) as [[e|[c|]] fp1] eqn:Hb; [done| |done].
  apply read_block_ok in Hb as [Hc Hb]. unfold lenZ in Hb.
  pose proof (next_block_same p c) as Hs.
  destruct (next_block p c) as [[f c'|e|k|] p1] eqn:Hn; [|done|done|].
  - intros [= Hf <- <-]. pose proof (next_block_fields _ _ _ _ _ Hn) as Hok.
    apply next_block_found in Hn. apply found_packet_ok in Hf as [? ?]; [|done].
    split_and!; try done; lia.
  - intros Hr. apply IH in Hr as (? & ? & ? & ?). split_and!; try done; [|lia].
    by transitivity p1.
Qed.

Lemma next_packet_loop_same n p fp :
  same_but_ifcount p (next_packet_loop malloc_ok n p fp).1.2 /\
  (length (f_rest (next_packet_loop malloc_ok n p fp).2) <= length (f_rest fp))%nat.
Proof using.
  revert p fp. induction n as [|n IH]; intros p fp; cbn [next_packet_loop]; [done|].
  pose proof (read_block_rest malloc_ok p fp) as Hb.
  destruct (read_block malloc_ok p fp) as [[e|[c|]] fp1]; simpl in Hb; [done| |done].
  pose proof (next_block_same p c) as Hs.
  destruct (next_block p c) as [[f c'|e|k|] p1]; try done.
  destruct (IH p1 fp1) as [? ?]. split; [by transitivity p1|lia].
Qed.
End Loop.

(** The only undefined behaviour is the shift of a power-of-two resolution. *)
Lemma process_idb_loop_undef fuel sw c s1 s2 r o n :
  process_idb_loop fuel sw c s1 s2 r o = IdbUndef n -> 32 <= n.
Proof.
  revert c s1 s2 r o. induction fuel as [|fuel IH]; intros c s1 s2 r o; cbn [process_idb_loop]; [done|].
  destruct (data_remaining c =? 0); [done|].
  destruct (get_opthdr_from_block_data sw c) as [|[[code length] c1]]; [done|].
  destruct (get_optvalue_from_block_data c1 length) as [|[v c2]]; [done|].
  destruct (code =? OPT_ENDOFOPT); [by destruct (negb _)|].
  destruct (code =? IF_TSRESOL).
  - destruct (negb _); [done|]. destruct s1; [done|]. cbv zeta.
    destruct (tsresol_of_opt _) as [t|] eqn:Ht.
    + destruct (t =? 0); [done|]. apply IH.
    + intros [= <-]. unfold tsresol_of_opt in Ht. destruct (negb _); [|done].
      destruct (Z.ltb_spec (u8 (get_le 0 4 v) .& 0x7F) 32); [done|lia].
  - destruct (code =? IF_TSOFFSET); [|apply IH].
    destruct (negb _); [done|]. destruct s2; [done|]. apply IH.
Qed.

Lemma next_block_undef p c n p' : next_block p c = (BUndef n, p') -> 32 <= n.
Proof.
  unfold next_block, next_idb, next_shb.
  repeat case_match; intros; simplify_eq.
  eapply process_idb_loop_undef. eassumption.
Qed.

Lemma next_packet_loop_undef malloc_ok k p fp n p' fp' :
  next_packet_loop malloc_ok k p fp = (NUndef n, p', fp') -> 32 <= n.
Proof.
  revert p fp. induction k as [|k IH]; intros p fp; cbn [next_packet_loop]; [done|].
  destruct (read_block malloc_ok p fp) as [[e|[c|]] fp1]; [done| |done].
  destruct (next_block p c) as [[f c'|e|m|] p1] eqn:Hn; [|done| |].
  - unfold found_packet. by repeat case_match.
  - intros [= -> <- <-]. by eapply next_block_undef.
  - apply IH.
Qed.
