(* ===== verification/Savefile.v ===== *)
(** [savefile.c]: opening a savefile and reading its packets. *)
From S2P Require Import Prelude CFile Bpf BpfFilter BpfValidate PcapInt SfPcap SfPcapNg.

#[local] Open Scope c_scope.

(** An open savefile: the [pcap_t], the stream [p->sf.rfile] and
    [pcap_next_packet]'s [static size_t tsize]. *)
Record offline := Offline { o_p : pcap_t; o_tsize : Z; o_fp : file }.

(** ** The operations a savefile does not support *)

Inductive sf_error := Sf_nonblock | Sf_stats | Sf_inject | Sf_direction.

Definition sf_getnonblock (p : pcap_t) : Z := 0.
Definition sf_setnonblock (p : pcap_t) (nonblock : Z) : Z * sf_error := (-1, Sf_nonblock).
Definition sf_stats (p : pcap_t) : Z * sf_error := (-1, Sf_stats).
Definition sf_inject (p : pcap_t) (buf : list byte) : Z * sf_error := (-1, Sf_inject).
Definition sf_setdirection (p : pcap_t) (d : Z) : Z * sf_error := (-1, Sf_direction).

Section Savefile.
(** Whether [malloc] of a size succeeds. *)
Context (malloc_ok : Z -> bool).

(** ** Opening *)

(** The result of opening: the savefile, or the error and where its message
    was written; an undefined shift ends it too. *)
Inductive open_result :=
| Opened (o : offline)
| OpenFailed (s : sink) (e : perr)
| OpenUndef (n : Z).

Definition check_headers : list (pcap_t -> Z -> file -> check_result * pcap_t * file) :=
  [pcap_check_header malloc_ok; pcap_ng_check_header malloc_ok].

(** The loop over the file types. *)
Fixpoint try_headers (checks : list (pcap_t -> Z -> file -> check_result * pcap_t * file))
    (p : pcap_t) (magic tsize : Z) (fp : file) : open_result :=
  match checks with
  | [] => OpenFailed to_errbuf E_unknown_format
  | check :: checks =>
      match check p magic fp with
      | (CFail s e, _, _) => OpenFailed s e
      | (CFound, p, fp) => Opened (Offline (with_activated p true) tsize fp)
      | (CNope, p, fp) => try_headers checks p magic tsize fp
      | (CUndef n, _, _) => OpenUndef n
      end
  end.

(** [tsize] is what earlier savefiles of the process have left in it. *)
Definition pcap_fopen_offline (tsize : Z) (fp : file) : open_result :=
  let '(b, fp) := fread 4 fp in
  if negb (lenZ b =? 4) then
    OpenFailed to_errbuf (if ferror fp then E_read else E_trunc_file_header 4 (lenZ b))
  else try_headers check_headers pcap0 (get_le 0 4 b) tsize fp.

(** ** Reading *)

(** The call of [p->sf.next_packet_op]; through a null pointer, undefined. *)
Definition is_null (o : offline) : bool :=
  match sf_next_packet (sf (o_p o)) with no_next_packet => true | _ => false end.
Definition next_packet (o : offline) : next_result * offline :=
  match sf_next_packet (sf (o_p o)) with
  | op_pcap_next_packet =>
      let '(r, tsize, fp) := pcap_next_packet malloc_ok (o_p o) (o_tsize o) (o_fp o) in
      (r, Offline (o_p o) tsize fp)
  | op_pcap_ng_next_packet =>
      let '(r, p, fp) := pcap_ng_next_packet malloc_ok (o_p o) (o_fp o) in
      (r, Offline p (o_tsize o) fp)
  | no_next_packet => (NUndef 0, o)
  end.

(** [pcap_offline_read]'s result: a status, or why there is none: an
    undefined shift by the file format's reader, a null function pointer, a
    filter that faults or one that does not return. *)
Inductive undefined := U_shift (n : Z) | U_null | U_filter (e : fault) | U_loop.
Inductive read_result := ReadRet (status : Z) | ReadUndef (why : undefined).

(** The test of the packet against the installed filter; [mem0] is what
    [bpf_filter]'s scratch memory starts with. *)
Context (mem0 : list Z).

Definition filter_packet (fcode : option program) (h : pcap_pkthdr) (data : list byte)
    : undefined + bool :=
  match fcode with
  | None => inr true
  | Some f =>
      match bpf_filter (S (length f)) mem0 (Some f) data (len h) (caplen h) with
      | Some (Returned v) => inr (negb (v =? 0))
      | Some (Faulted e) => inl (U_filter e)
      | None => inl U_loop
      end
  end.

(** [callback]: the application's function; the [bool] says that it called
    [pcap_breakloop]. *)
Context {user_t : Type} (callback : user_t -> pcap_pkthdr -> list byte -> user_t * bool).

Definition set_p (o : offline) (p : pcap_t) : offline := Offline p (o_tsize o) (o_fp o).
Definition clear_break (o : offline) : offline := set_p o (with_break_loop (o_p o) false).
Definition set_break (o : offline) : offline := set_p o (with_break_loop (o_p o) true).

(** The [while] loop, after [n] packets; a packet takes at least a byte of
    the file, so fuel beyond its length is never used up. *)
Fixpoint read_loop (fuel : nat) (o : offline) (cnt n : Z) (u : user_t)
    : read_result * offline * user_t :=
  match fuel with
  | O => (ReadUndef U_loop, o, u)
  | S fuel =>
      if break_loop (o_p o) then
        if n =? 0 then (ReadRet (-2), clear_break o, u) else (ReadRet n, o, u)
      else
        match next_packet o with
        | (NEof, o) => (ReadRet 0, o, u)
        | (NError _, o) => (ReadRet (-1), o, u)
        | (NUndef n, o) => (ReadUndef (if is_null o then U_null else U_shift n), o, u)
        | (NPacket h data, o) =>
            match filter_packet (fcode (o_p o)) h data with
            | inl why => (ReadUndef why, o, u)
            | inr false => read_loop fuel o cnt n u
            | inr true =>
                let '(u, brk) := callback u h data in
                let o := if brk then set_break o else o in
                let n := i32 (n + 1) in
                if (cnt <=? n) && (0 <? cnt) then (ReadRet n, o, u)
                else read_loop fuel o cnt n u
            end
        end
  end.

Definition pcap_offline_read (o : offline) (cnt : Z) (u : user_t)
    : read_result * offline * user_t :=
  read_loop (S (length (f_rest (o_fp o)))) o cnt 0 u.
End Savefile.

(** [install_bpf_program] of [optimize.c]: the filter is validated, the old
    one is freed, and the new one is copied. *)
Inductive install_error := I_not_valid | I_nomem.

Definition with_fcode (p : pcap_t) (f : option program) : pcap_t :=
  Pcap (snapshot p) (linktype p) (linktype_ext p) (tzoff p) (activated p) (break_loop p)
       (bufsize p) f (sf p).

Definition install_bpf_program (malloc_ok : Z -> bool) (p : pcap_t) (f : program)
    : option install_error * pcap_t :=
  if negb (bpf_validate f) then (Some I_not_valid, p)
  else if malloc_ok (8 * Z.of_nat (length f)) then (None, with_fcode p (Some f))
  else (Some I_nomem, with_fcode p None).
