(* ===== verification/SavefileSpec.v ===== *)
(** What savefiles promise: reading back a well-formed pcap file of either
    byte order, the round trip through the writer, and the safety of reading
    arbitrary bytes through a filter. *)
From S2P Require Import Prelude CFile Bpf BpfFilter BpfValidate PcapInt.
From S2P Require Import Datalink UsbHeader SfPcap SfPcapNg Savefile.

#[local] Open Scope c_scope.

(** ** Reading a whole file *)

(** The packets [next_packet] delivers, and the result that ends them. *)
Fixpoint read_all (malloc_ok : Z -> bool) (fuel : nat) (o : offline)
    : list (pcap_pkthdr * list byte) * option next_result :=
  match fuel with
  | O => ([], None)
  | S fuel =>
      match next_packet malloc_ok o with
      | (NPacket h d, o) =>
          let '(l, r) := read_all malloc_ok fuel o in ((h, d) :: l, r)
      | (r, _) => ([], Some r)
      end
  end.

(** A packet record of a file: the packet's header, whether its two lengths
    were stored in exchanged order, the rest of a patched header, and the
    data. *)
Record srec := SRec { r_hdr : pcap_pkthdr; r_exchanged : bool; r_pad : list byte; r_data : list byte }.

Definition stored_hdr (r : srec) : pcap_pkthdr :=
  let h := r_hdr r in
  if r_exchanged r then Pkthdr (tv_sec h) (tv_usec h) (len h) (caplen h) else h.

Definition srec_image (sw : bool) (r : srec) : list byte :=
  pkthdr_image sw (stored_hdr r) ++ r_pad r ++ r_data r.

Definition savefile_image (sw : bool) (h : pcap_file_header) (rs : list srec) : list byte :=
  file_header_image sw h ++ flat_map (srec_image sw) rs.

(** What a file header means. *)
Definition patched (h : pcap_file_header) : bool := fh_magic h =? KUZNETZOV_TCPDUMP_MAGIC.
Definition file_linktype (h : pcap_file_header) : Z := linktype_to_dlt (fh_linktype h mod 2 ^ 26).
Definition file_snapshot (h : pcap_file_header) : Z :=
  i32 (fh_snaplen h + if patched h && (file_linktype h =? DLT_EN10MB) then 14 else 0).
Definition file_buffer (h : pcap_file_header) : Z :=
  if file_snapshot h <=? 0 then 65536 else file_snapshot h.

(** Which versions store the lengths in exchanged order: those before 2.3 and
    543.0 always do, 2.3 sometimes does, and then the shorter length is the
    captured one. *)
Definition exchange_ok (h : pcap_file_header) (r : srec) : Prop :=
  if (fh_version_major h =? 543) || (fh_version_major h =? 2) && (fh_version_minor h <? 3)
  then r_exchanged r = true
  else if (fh_version_major h =? 2) && (fh_version_minor h =? 3)
  then caplen (r_hdr r) <= len (r_hdr r)
  else r_exchanged r = false.

(** The record is complete and its data fits the reader's buffer. *)
Definition srec_ok (h : pcap_file_header) (r : srec) : Prop :=
  pkthdr_ok (r_hdr r) /\ exchange_ok h r /\
  lenZ (r_pad r) = (if patched h then 8 else 0) /\
  lenZ (r_data r) = caplen (r_hdr r) /\ lenZ (r_data r) <= file_buffer h.

(** What the reader delivers for it: the packet, a USB pseudo-header in host
    byte order. *)
Definition delivered (p : pcap_t) (r : srec) : pcap_pkthdr * list byte :=
  (r_hdr r, swap_pseudo_header p (r_hdr r) (r_data r)).

Lemma fix_lengths_stored h r :
  exchange_ok h r -> fix_lengths (header_lengths_swapped h) (stored_hdr r) = r_hdr r.
Proof.
  unfold exchange_ok, header_lengths_swapped, stored_hdr. destruct r as [[s u c l] x pad d].
  cbn [r_hdr r_exchanged caplen len tv_sec tv_usec].
  destruct (Z.eqb_spec (fh_version_major h) 2) as [->|]; simpl orb.
  - destruct (fh_version_minor h <? 3); simpl; [by intros ->|].
    destruct (fh_version_minor h =? 3); simpl; [|by intros ->]. intros Hle. destruct x; simpl.
    + destruct (Z.leb_spec l c); [|done]. by replace l with c by lia.
    + by destruct (Z.leb_spec c l); [|lia].
  - destruct (fh_version_major h =? 543); simpl; by intros ->.
Qed.

Lemma stored_hdr_ok r : pkthdr_ok (r_hdr r) -> pkthdr_ok (stored_hdr r).
Proof. unfold pkthdr_ok, stored_hdr. destruct (r_exchanged r); simpl; tauto. Qed.

Lemma fill_pcap_linktype p sw h :
  is_u 32 (fh_linktype h) -> linktype (fill_pcap p sw h) = file_linktype h.
Proof.
  intros Hl. cbn. unfold file_linktype, LT_LINKTYPE. f_equal.
  change 0x03FFFFFF with (Z.ones 26). rewrite Z.land_ones by lia.
  pose proof (Z.mod_pos_bound (fh_linktype h) (2 ^ 26)). apply swrap_id; clia.
Qed.

Lemma fill_pcap_snapshot p sw h :
  is_u 32 (fh_linktype h) -> snapshot (fill_pcap p sw h) = file_snapshot h.
Proof.
  intros Hl. pose proof (fill_pcap_linktype p sw h Hl) as Hd. cbn in Hd |- *.
  unfold header_snapshot, file_snapshot, patched. rewrite Hd.
  destruct (_ && _); [|by rewrite Z.add_0_r]. apply swrap_add_l. lia.
Qed.

Lemma read_all_S malloc_ok n o :
  read_all malloc_ok (S n) o =
  match next_packet malloc_ok o with
  | (NPacket h d, o) => let '(l, r) := read_all malloc_ok n o in ((h, d) :: l, r)
  | (r, _) => ([], Some r)
  end.
Proof. done. Qed.

Lemma read_all_image malloc_ok h p tsize rs :
  reader_ok p -> sf_next_packet (sf p) = op_pcap_next_packet ->
  lengths_swapped (sf p) = header_lengths_swapped h ->
  hdrsize (sf p) = header_hdrsize (fh_magic h) -> bufsize p = file_buffer h ->
  Forall (srec_ok h) rs ->
  read_all malloc_ok (S (length rs))
    (Offline p tsize (File (flat_map (srec_image (swapped (sf p))) rs) false))
  = (map (delivered p) rs, Some NEof).
Proof.
  intros Hp Hop Hls Hhs Hbuf.
  induction 1 as [|r rs (Hh & Hx%fix_lengths_stored & Hpad & Hd & Hle) _ IH];
    cbn [flat_map length]; rewrite read_all_S; unfold next_packet; cbn [o_p o_tsize o_fp];
    rewrite Hop.
  - by rewrite next_packet_eof.
  - rewrite <- Hls in Hx. unfold srec_image at 1. rewrite <- !app_assoc, next_packet_image.
    + cbv beta zeta iota. rewrite IH, Hx. done.
    + done.
    + by apply stored_hdr_ok.
    + rewrite Hhs, Hpad. unfold header_hdrsize, patched. by destruct (_ =? _).
    + by rewrite Hx.
    + by rewrite Hbuf.
Qed.

Lemma fopen_image malloc_ok sw h b tsize :
  file_header_ok h -> PCAP_VERSION_MAJOR <= fh_version_major h ->
  let p := fill_pcap pcap0 sw h in
  malloc_ok (bufsize p) = true ->
  pcap_fopen_offline malloc_ok tsize (File (file_header_image sw h ++ b) false)
  = Opened (Offline (with_activated p true) tsize (File b false)).
Proof.
  intros Hh Hv p Hm. unfold pcap_fopen_offline.
  rewrite <- (take_drop 4 (file_header_image sw h)) at 1. rewrite <- app_assoc.
  rewrite fread_full by (unfold lenZ; rewrite length_take, length_file_header_image; done).
  unfold lenZ at 1. rewrite length_take, length_file_header_image. simpl negb. cbv iota.
  cbn [try_headers check_headers].
  replace (get_le 0 4 (take 4 (file_header_image sw h)))
    with (get_le 0 4 (file_header_image sw h ++ b)).
  - rewrite check_header_image by done. by fold p; rewrite Hm.
  - unfold get_le. rewrite !drop_0, take_app_le by (rewrite length_file_header_image; lia).
    by rewrite take_take.
Qed.

(** The state a header opens to satisfies the reader's invariant. *)
Lemma fill_pcap_ok p sw h : reader_ok (fill_pcap p sw h).
Proof.
  split; cbn.
  - apply header_bufsize_ok, header_snapshot_ok.
  - unfold header_hdrsize. destruct (_ =? _); auto.
Qed.

(** C24: Reading a well-formed pcap savefile, standard or patched, written on a
    host of either byte order, gives exactly the packets that are in it: the
    file opens with the link-layer type, snapshot length, time zone and version
    of its header, every record is delivered in order with its lengths the
    right way round whatever the version stores, and then comes the end of the
    file. *)
Theorem savefile_image_read malloc_ok sw h rs tsize :
  file_header_ok h -> PCAP_VERSION_MAJOR <= fh_version_major h ->
  malloc_ok (file_buffer h) = true -> Forall (srec_ok h) rs ->
  exists o, pcap_fopen_offline malloc_ok tsize (File (savefile_image sw h rs) false) = Opened o /\
    linktype (o_p o) = file_linktype h /\ snapshot (o_p o) = file_snapshot h /\
    tzoff (o_p o) = fh_thiszone h /\ swapped (sf (o_p o)) = sw /\
    version_major (sf (o_p o)) = fh_version_major h /\
    version_minor (sf (o_p o)) = fh_version_minor h /\
    read_all malloc_ok (S (length rs)) o = (map (delivered (o_p o)) rs, Some NEof).
Proof.
  intros Hh Hv Hm Hrs. pose proof Hh as (_ & _ & _ & _ & _ & _ & Hl).
  set (p := with_activated (fill_pcap pcap0 sw h) true).
  assert (Hsnap : snapshot p = file_snapshot h) by (by apply fill_pcap_snapshot).
  assert (Hbuf : bufsize p = file_buffer h)
    by (change (bufsize p) with (header_bufsize (snapshot p)); by rewrite Hsnap).
  exists (Offline p tsize (File (flat_map (srec_image sw) rs) false)).
  unfold savefile_image. rewrite fopen_image by (try done; by rewrite <- Hm, <- Hbuf).
  split_and!; try done; [by apply fill_pcap_linktype|].
  change sw with (swapped (sf p)). apply (read_all_image malloc_ok h); try done.
  apply fill_pcap_ok.
Qed.

(** A two-packet Ethernet capture of version 2.3, where lengths may be
    swapped, written on a big-endian host. *)
Definition old_header : pcap_file_header := FileHeader TCPDUMP_MAGIC 2 3 (-3600) 0 96 1.
Definition old_records : list srec :=
  [SRec (Pkthdr 1365674154 25000 2 60) false [] [byte.of_Z 1; byte.of_Z 2];
   SRec (Pkthdr 1365674155 0 1 60) true [] [byte.of_Z 3]].

Lemma savefile_image_read_witness :
  Forall (srec_ok old_header) old_records /\
  exists o, pcap_fopen_offline (fun _ => true) 0
              (File (savefile_image true old_header old_records) false) = Opened o /\
    tzoff (o_p o) = -3600 /\ linktype (o_p o) = DLT_EN10MB /\
    (read_all (fun _ => true) 3 o).1.*1 =
      [Pkthdr 1365674154 25000 2 60; Pkthdr 1365674155 0 1 60].
Proof.
  assert (Hrs : Forall (srec_ok old_header) old_records) by (repeat constructor; zcompute).
  split; [exact Hrs|].
  destruct (savefile_image_read (fun _ => true) true old_header old_records 0)
    as (o & Ho & Hlk & _ & Hz & _ & _ & _ & Hr).
  - unfold file_header_ok. zcompute.
  - zcompute.
  - reflexivity.
  - exact Hrs.
  - exists o. split; [exact Ho|]. split; [exact Hz|]. split; [exact Hlk|].
    change 3%nat with (S (length old_records)). rewrite Hr. reflexivity.
Defined.

(** ** The writer *)

(** The [linktype] field holds the link-layer type in its low 26 bits and
    [linktype_ext] in the others. *)
Lemma linktype_field_split lt ext :
  0 <= lt < 2 ^ 26 -> is_i 32 ext -> ext mod 2 ^ 26 = 0 ->
  let v := u32 (lt .| ext) in
  i32 (LT_LINKTYPE v) = lt /\ i32 (LT_LINKTYPE_EXT v) = ext.
Proof.
  intros Hlt Hext Hm v. unfold LT_LINKTYPE, LT_LINKTYPE_EXT.
  assert (Hv : v = u32 (ext + lt)).
  { unfold v. rewrite Z.lor_comm. f_equal.
    rewrite (Z.div_mod ext (2 ^ 26)), Hm, Z.add_0_r, Z.mul_comm by lia.
    rewrite lor_high_low by lia. lia. }
  change 0xFC000000 with (Z.ones 6 << 26). change 0x03FFFFFF with (Z.ones 26).
  rewrite land_field, Z.land_ones, Hv by lia. unfold uwrap, swrap.
  change (2 ^ 26) with 67108864 in *. change (2 ^ 6) with 64. cranges.
  change (2 ^ 32) with 4294967296. change (2 ^ (32 - 1)) with 2147483648.
  Z.div_mod_to_equations. lia.
Qed.

Lemma pcap_dump_image h d :
  lenZ d >= caplen h -> 0 <= caplen h ->
  pcap_dump h d = srec_image false (SRec h false [] (take (Z.to_nat (caplen h)) d)).
Proof.
  intros. unfold pcap_dump, srec_image, sf_pkthdr_bytes, pkthdr_image. simpl r_hdr. simpl r_pad.
  by rewrite app_nil_r, app_nil_l.
Qed.

(** What the writer needs of the capture it copies the parameters of. *)
Definition writable (p : pcap_t) : Prop :=
  activated p = true /\ dlt_to_linktype (linktype p) <> -1 /\ linktype p <> DLT_ATM_CLIP /\
  is_i 32 (snapshot p) /\ is_i 32 (tzoff p) /\
  is_i 32 (linktype_ext p) /\ linktype_ext p mod 2 ^ 26 = 0.

Definition dump_header (p : pcap_t) : pcap_file_header :=
  FileHeader TCPDUMP_MAGIC PCAP_VERSION_MAJOR PCAP_VERSION_MINOR (tzoff p) 0 (u32 (snapshot p))
    (u32 (dlt_to_linktype (linktype p) .| linktype_ext p)).

Lemma dump_open_image p :
  writable p -> pcap_dump_open p = inr (file_header_image false (dump_header p)).
Proof.
  intros (Ha & Hl & _). unfold pcap_dump_open, pcap_dump_fopen. rewrite Ha. simpl negb.
  destruct (Z.eqb_spec (dlt_to_linktype (linktype p)) (-1)); [done|].
  f_equal. unfold sf_write_header, file_header_bytes, file_header_image, dump_header, enc.
  cbn [fh_magic fh_version_major fh_version_minor fh_thiszone fh_sigfigs fh_snaplen fh_linktype].
  by rewrite !app_nil_r, (le_split_mod (snapshot p)), (le_split_mod (_ .| _)).
Qed.

Lemma dump_header_ok p : writable p -> file_header_ok (dump_header p).
Proof.
  intros (_ & _ & _ & _ & Hz & _). unfold file_header_ok, dump_header. cbn.
  split_and!; auto with cint; zcompute.
Qed.

Lemma dump_header_buffer p :
  writable p -> file_buffer (dump_header p) = header_bufsize (snapshot p).
Proof.
  intros (_ & _ & _ & Hs & _). unfold file_buffer, file_snapshot, header_bufsize.
  change (patched (dump_header p)) with false. cbn [andb dump_header fh_snaplen].
  by rewrite Z.add_0_r, i32_u32.
Qed.

(** The packet can be written by [pcap_dump] and fits the reader's buffer. *)
Definition dumpable (p : pcap_t) (hd : pcap_pkthdr * list byte) : Prop :=
  pkthdr_ok hd.1 /\ caplen hd.1 <= lenZ hd.2 /\ caplen hd.1 <= header_bufsize (snapshot p).

(** C22: The round trip: what [pcap_dump_open] and [pcap_dump] write for a
    capture, [pcap_open_offline] and the packet reader give back: the same
    link-layer type and extension, snapshot length and time zone, then the
    same packets in the same order, each with the bytes its [caplen] says,
    and the end of the file. *)
Theorem pcap_dump_roundtrip malloc_ok p pkts tsize :
  writable p -> Forall (dumpable p) pkts ->
  malloc_ok (header_bufsize (snapshot p)) = true ->
  exists hd o,
    pcap_dump_open p = inr hd /\
    pcap_fopen_offline malloc_ok tsize
      (File (hd ++ flat_map (fun hd => pcap_dump hd.1 hd.2) pkts) false) = Opened o /\
    linktype (o_p o) = linktype p /\ linktype_ext (o_p o) = linktype_ext p /\
    snapshot (o_p o) = snapshot p /\ tzoff (o_p o) = tzoff p /\
    read_all malloc_ok (S (length pkts)) o
    = (map (fun hd => (hd.1, take (Z.to_nat (caplen hd.1)) hd.2)) pkts, Some NEof).
Proof.
  intros Hp Hpk Hm. pose proof (dump_header_ok p Hp) as Hh.
  exists (file_header_image false (dump_header p)).
  set (p' := with_activated (fill_pcap pcap0 false (dump_header p)) true).
  pose proof Hp as (_ & Hl & Hc & Hs & Hz & He & He').
  destruct (linktype_field_split _ _ (dlt_to_linktype_range _ Hl) He He') as [Hlt Hext].
  assert (Hsnap : snapshot p' = snapshot p) by (cbn; apply i32_u32; done).
  assert (Hlink : linktype p' = linktype p).
  { cbn. rewrite Hlt. by apply linktype_back. }
  set (rs := map (fun hd : pcap_pkthdr * list byte =>
                    SRec hd.1 false [] (take (Z.to_nat (caplen hd.1)) hd.2)) pkts).
  assert (Hbody : flat_map (fun hd => pcap_dump hd.1 hd.2) pkts = flat_map (srec_image false) rs).
  { unfold rs. clear -Hpk. induction Hpk as [|[h d] l (Hh & Hd & _) _ IH]; [done|].
    cbn [flat_map map fst snd] in *. unfold pkthdr_ok in Hh.
    rewrite IH, pcap_dump_image by clia. done. }
  assert (Hbuf : bufsize p' = header_bufsize (snapshot p)).
  { change (bufsize p') with (header_bufsize (snapshot p')). by rewrite Hsnap. }
  rewrite Hbody. exists (Offline p' tsize (File (flat_map (srec_image false) rs) false)).
  split_and!; [by apply dump_open_image| | exact Hlink | exact Hext | exact Hsnap | done |].
  - apply fopen_image; [done|done|]. rewrite <- Hm. f_equal. exact Hbuf.
  - replace (length pkts) with (length rs) by (unfold rs; by rewrite length_map).
    change false with (swapped (sf p')) at 2. rewrite (read_all_image malloc_ok (dump_header p)).
    + unfold rs. rewrite map_map. done.
    + apply fill_pcap_ok.
    + done.
    + done.
    + done.
    + rewrite Hbuf. by rewrite <- (dump_header_buffer p) by done.
    + unfold rs. apply List.Forall_map. eapply Forall_impl; [exact Hpk|].
      intros [h d] (Hok & Hd & Hle). cbn [fst snd] in *. unfold srec_ok.
      rewrite dump_header_buffer by done.
      pose proof Hok as (_ & _ & Hcap & _). unfold lenZ in *. cbn [r_hdr r_pad r_data].
      rewrite length_take. split_and!; try done; clia.
Qed.

(** A raw-IP capture with the FCS-length bits of [linktype_ext] set. *)
Definition live_capture : pcap_t :=
  Pcap 96 DLT_RAW 0x14000000 (-3600) true false 0 None sf0.
Definition live_packets : list (pcap_pkthdr * list byte) :=
  [(Pkthdr 1365674154 25000 2 60, [byte.of_Z 0x45; byte.of_Z 0; byte.of_Z 0xff])].

Lemma pcap_dump_roundtrip_witness :
  Forall (dumpable live_capture) live_packets /\
  exists hd o,
    pcap_dump_open live_capture = inr hd /\
    pcap_fopen_offline (fun _ => true) 0
      (File (hd ++ flat_map (fun hd => pcap_dump hd.1 hd.2) live_packets) false) = Opened o /\
    linktype (o_p o) = DLT_RAW /\
    (read_all (fun _ => true) 2 o).1
      = [(Pkthdr 1365674154 25000 2 60, [byte.of_Z 0x45; byte.of_Z 0])].
Proof.
  assert (Hl : Forall (dumpable live_capture) live_packets) by (repeat constructor; zcompute).
  split; [done|].
  destruct (pcap_dump_roundtrip (fun _ => true) live_capture live_packets 0)
    as (hd & o & Hd & Ho & Hlk & _ & _ & _ & Hr).
  - unfold writable. split_and!; zcompute.
  - exact Hl.
  - done.
  - exists hd, o. change 2%nat with (S (length live_packets)). rewrite Hr. done.
Defined.

(** ** Arbitrary files *)

(** The state an open savefile is in; the number of interfaces of a pcap-ng
    file changes, nothing else does. *)
Definition offline_ok (o : offline) : Prop :=
  match sf_next_packet (sf (o_p o)) with
  | op_pcap_next_packet => reader_ok (o_p o)
  | op_pcap_ng_next_packet => True
  | no_next_packet => False
  end.

Lemma find_idb_op malloc_ok n p fp p' fp' :
  find_idb malloc_ok n p fp = (CFound, p', fp') ->
  sf_next_packet (sf p') = op_pcap_ng_next_packet /\ fcode p' = fcode p /\
  break_loop p' = break_loop p.
Proof.
  revert p fp. induction n as [|n IH]; intros p fp; cbn [find_idb]; [done|].
  destruct (read_block malloc_ok p fp) as [[e|[c|]] fp1]; [done| |done].
  destruct (block_type c =? BT_IDB).
  - destruct (get_from_block_data c _) as [e|[idb c']]; [done|].
    destruct (process_idb_options _ _ _ _); try done. by intros [= <- <-].
  - destruct (_ || _); [done|]. apply IH.
Qed.

Lemma ng_check_header_op malloc_ok p magic fp p' fp' :
  pcap_ng_check_header malloc_ok p magic fp = (CFound, p', fp') ->
  sf_next_packet (sf p') = op_pcap_ng_next_packet /\ fcode p' = fcode p /\
  break_loop p' = break_loop p.
Proof.
  unfold pcap_ng_check_header.
  repeat (case_match; try done).
  all: intros Hf; simplify_eq; apply find_idb_op in Hf; exact Hf.
Qed.

Lemma fopen_ok malloc_ok tsize fp o :
  pcap_fopen_offline malloc_ok tsize fp = Opened o ->
  offline_ok o /\ fcode (o_p o) = None /\ break_loop (o_p o) = false.
Proof.
  unfold pcap_fopen_offline. destruct (fread 4 fp) as [b fp1].
  destruct (negb _); [done|]. cbn [try_headers check_headers].
  destruct (pcap_check_header _ _ _ _) as [[[] p1] fp2] eqn:H1; try done.
  - destruct (pcap_ng_check_header _ _ _ _) as [[[] p2] fp3] eqn:H2; try done.
    intros [= <-]. apply ng_check_header_op in H2 as (Ho & Hf & Hb).
    unfold offline_ok. simpl. rewrite Ho, Hf, Hb.
    enough (fcode p1 = None /\ break_loop p1 = false) as [-> ->] by done.
    unfold pcap_check_header in H1. repeat case_match; by simplify_eq.
  - intros [= <-]. apply check_header_ok in H1 as (Hr & Ho & Hf & Hb).
    unfold offline_ok. simpl. rewrite Ho, Hf, Hb. done.
Qed.

(** One call of [next_packet_op]. *)
Lemma next_packet_step malloc_ok o r o' :
  offline_ok o -> next_packet malloc_ok o = (r, o') ->
  offline_ok o' /\ fcode (o_p o') = fcode (o_p o) /\ break_loop (o_p o') = break_loop (o_p o) /\
  (length (f_rest (o_fp o')) <= length (f_rest (o_fp o)))%nat /\
  forall h d, r = NPacket h d ->
    packet_ok h d /\ caplen h <= 2 ^ 31 /\
    (length (f_rest (o_fp o')) < length (f_rest (o_fp o)))%nat.
Proof.
  unfold offline_ok, next_packet. intros Ho.
  destruct (sf_next_packet (sf (o_p o))) eqn:Hop; [done|..].
  - pose proof (next_packet_rest malloc_ok (o_p o) (o_tsize o) (o_fp o)) as Hrest.
    destruct (pcap_next_packet _ _ _ _) as [[r' ts] fp] eqn:Hn. simpl in Hrest.
    intros [= <- <-]. simpl. rewrite Hop. split_and!; try done.
    intros h d ->. apply next_packet_safe in Hn as (? & ? & _ & _ & ?); [|done].
    destruct Ho. split_and!; try done; lia.
  - unfold pcap_ng_next_packet.
    destruct (next_packet_loop_same malloc_ok (S (length (f_rest (o_fp o)))) (o_p o) (o_fp o))
      as [[n Hs] Hrest].
    destruct (next_packet_loop _ _ _ _) as [[r' p'] fp] eqn:Hn. simpl in Hs, Hrest. subst p'.
    intros [= <- <-]. simpl. rewrite Hop. split_and!; try done.
    intros h d ->. apply next_packet_loop_safe in Hn as (? & ? & _ & ?).
    unfold max_block_size in *. split_and!; try done; lia.
Qed.

Lemma next_packet_undef malloc_ok o n o' :
  offline_ok o -> next_packet malloc_ok o = (NUndef n, o') -> is_null o' = false /\ 32 <= n.
Proof.
  unfold offline_ok, next_packet, is_null. intros Ho.
  destruct (sf_next_packet (sf (o_p o))) eqn:Hop; [done|..].
  - destruct (pcap_next_packet _ _ _ _) as [[r ts] fp] eqn:Hn. intros [= -> <-].
    unfold pcap_next_packet in Hn. repeat case_match; simplify_eq.
  - unfold pcap_ng_next_packet.
    pose proof (next_packet_loop_same malloc_ok (S (length (f_rest (o_fp o)))) (o_p o) (o_fp o))
      as [[k Hs] _].
    destruct (next_packet_loop _ _ _ _) as [[r p'] fp] eqn:Hn. simpl in Hs. subst p'.
    intros [= -> <-]. simpl. rewrite Hop. eauto using next_packet_loop_undef.
Qed.

(** ** The read loop *)

Section ReadLoop.
Context (malloc_ok : Z -> bool) (mem0 : list Z) {user_t : Type}
        (callback : user_t -> pcap_pkthdr -> list byte -> user_t * bool).

(** A filter that is validated, well-typed and strict. *)
Definition filter_ok (f : option program) : Prop :=
  match f with
  | None => True
  | Some f => prog_ok f /\ Z.of_nat (length f) < 2 ^ 31 /\ bpf_validate f = true
              /\ strict f = true
  end.

Lemma filter_packet_ok f h d :
  mem_ok mem0 -> filter_ok f -> packet_ok h d -> caplen h <= 2 ^ 31 ->
  exists b, filter_packet mem0 f h d = inr b.
Proof using Type.
  intros Hm Hf (Hd & Hc & Hl) Hle. destruct f as [f|]; [|by exists true].
  destruct Hf as (Hok & Hlen & Hv & Hs). unfold filter_packet, bpf_filter.
  destruct (strict_total f d (len h) (caplen h) mem0 Hok Hlen Hv Hs Hm Hl) as (v & -> & _);
    [unfold lenZ in Hd; clia|done|eauto].
Qed.

Context (Inv : user_t -> Prop)
        (Hinv : forall u h d, Inv u -> packet_ok h d -> Inv (callback u h d).1).

Lemma read_loop_safe fuel o cnt n u :
  offline_ok o -> filter_ok (fcode (o_p o)) -> mem_ok mem0 -> Inv u ->
  (length (f_rest (o_fp o)) < fuel)%nat ->
  let '(r, _, u') := read_loop malloc_ok mem0 callback fuel o cnt n u in
  Inv u' /\ forall why, r = ReadUndef why -> exists k, why = U_shift k /\ 32 <= k.
Proof using Hinv.
  revert o n u. induction fuel as [|fuel IH]; intros o n u Ho Hf Hm Hu Hfuel; [lia|].
  cbn [read_loop]. destruct (break_loop (o_p o)); [by destruct (n =? 0)|].
  destruct (next_packet malloc_ok o) as [r o1] eqn:Hn.
  pose proof (next_packet_step malloc_ok o r o1 Ho Hn) as (Ho1 & Hf1 & _ & _ & Hpk).
  destruct r as [h d| |e|k]; [|done|done|].
  - destruct (Hpk h d eq_refl) as (Hok & Hcap & Hlt).
    destruct (filter_packet_ok (fcode (o_p o1)) h d Hm ltac:(by rewrite Hf1) Hok Hcap) as [b ->].
    destruct b.
    + pose proof (Hinv u h d Hu Hok) as Hu'. destruct (callback u h d) as [u' brk]. simpl in Hu'.
      destruct ((cnt <=? _) && _); [by destruct brk|].
      apply IH; destruct brk; simpl; try done; try lia; by rewrite Hf1.
    + apply IH; try done; [by rewrite Hf1|lia].
  - apply next_packet_undef in Hn as [-> Hk]; [|done]. split; [done|].
    intros why [= <-]. eauto.
Qed.
End ReadLoop.

(** C21: Reading is safe on arbitrary bytes: a savefile that opens, whatever it
    holds, read with a filter that [pcap_setfilter] installed and that is
    strict, gives a status and never runs out of bounds, whatever the count
    and whatever the application does with the packets; the one exception is
    the shift by 32 or more of a pcap-ng time stamp resolution.  Every packet
    the application sees has as many bytes of data as its header says. *)
Theorem offline_read_safe malloc_ok mem0 {user_t} (callback : user_t -> _ -> _ -> user_t * bool)
    (Inv : user_t -> Prop) tsize fp o f p cnt u :
  pcap_fopen_offline malloc_ok tsize fp = Opened o ->
  install_bpf_program malloc_ok (o_p o) f = (None, p) ->
  prog_ok f -> Z.of_nat (length f) < 2 ^ 31 -> strict f = true -> mem_ok mem0 ->
  (forall u h d, Inv u -> packet_ok h d -> Inv (callback u h d).1) -> Inv u ->
  let '(r, _, u') := pcap_offline_read malloc_ok mem0 callback (set_p o p) cnt u in
  Inv u' /\ forall why, r = ReadUndef why -> exists k, why = U_shift k /\ 32 <= k.
Proof.
  intros Hopen Hinst Hok Hlen Hs Hm Hinv Hu. apply fopen_ok in Hopen as (Ho & _ & _).
  unfold install_bpf_program in Hinst. destruct (bpf_validate f) eqn:Hv; [|done]. simpl in Hinst.
  destruct (malloc_ok (8 * _)); [|done]. injection Hinst as <-.
  apply (read_loop_safe malloc_ok mem0 callback Inv Hinv); try done. simpl. lia.
Qed.

(** A savefile, a filter that accepts every packet, and an application that
    counts packets and bytes. *)
Definition old_open : offline :=
  Offline (with_activated (fill_pcap pcap0 true old_header) true) 0
    (File (flat_map (srec_image true) old_records) false).
Definition accept_all : program := [Insn (BPF_RET .| BPF_K) 0 0 96].
Definition count_bytes (u : Z * Z) (h : pcap_pkthdr) (d : list byte) : Z * Z * bool :=
  (u.1 + 1, u.2 + lenZ d, false).

Lemma offline_read_safe_witness :
  let '(r, _, u) := pcap_offline_read (fun _ => true) zero_mem count_bytes
      (set_p old_open (with_fcode (o_p old_open) (Some accept_all))) 0 (0, 0) in
  0 <= u.2 /\ forall why, r = ReadUndef why -> exists k, why = U_shift k /\ 32 <= k.
Proof.
  apply (offline_read_safe (fun _ => true) zero_mem count_bytes (fun u => 0 <= u.2)
           0 (File (savefile_image true old_header old_records) false) old_open accept_all).
  - vm_compute. reflexivity.
  - vm_compute. reflexivity.
  - repeat constructor; zcompute.
  - zcompute.
  - reflexivity.
  - apply zero_mem_ok.
  - intros u h d Hu _. unfold count_bytes, lenZ. simpl. lia.
  - simpl. lia.
Defined.

(** ** What the read loop delivers *)

Section Delivery.
Context (malloc_ok : Z -> bool) (mem0 : list Z) {user_t : Type}
        (callback : user_t -> pcap_pkthdr -> list byte -> user_t * bool).

Definition accepts (f : option program) (hd : pcap_pkthdr * list byte) : bool :=
  match filter_packet mem0 f hd.1 hd.2 with inr b => b | inl _ => false end.

(** The application handed a list of packets, and for each of them whether it
    called [pcap_breakloop]. *)
Fixpoint handle_all (u : user_t) (l : list (pcap_pkthdr * list byte)) : user_t * list bool :=
  match l with
  | [] => (u, [])
  | (h, d) :: l =>
      let '(u, brk) := callback u h d in
      let '(u, brks) := handle_all u l in (u, brk :: brks)
  end.

(** The status at the end of the packets. *)
Definition end_status (r : next_result) : Z := match r with NEof => 0 | _ => -1 end.
Definition ends (r : next_result) : Prop := match r with NEof | NError _ => True | _ => False end.

(** The outcome of a loop that has handed over [n] packets before and [acc] is
    what is left to hand over: the first [k] of [acc] have been, the
    application has broken out of the loop at the last of them at most, and
    either it has, or the count is reached, and the status is the number of
    packets; or [acc] is exhausted. *)
Definition delivered_as (cnt n : Z) (acc : list (pcap_pkthdr * list byte)) (e : next_result)
    (u : user_t) (s : read_result) (o' : offline) (u' : user_t) : Prop :=
  exists (k : nat) (brks : list bool),
    handle_all u (take k acc) = (u', brks) /\ (k <= length acc)%nat /\
    (0 < cnt -> n + Z.of_nat k <= cnt) /\
    (s = ReadRet (end_status e) /\ k = length acc /\ (0 < cnt -> n + Z.of_nat k < cnt) /\
       brks = repeat false k /\ break_loop (o_p o') = false \/
     exists b, s = ReadRet (n + Z.of_nat k) /\ brks = repeat false (k - 1) ++ [b] /\
       (b = true \/ n + Z.of_nat k = cnt) /\ break_loop (o_p o') = b).

Lemma delivered_as_cons cnt n h d acc e u s o' u' :
  delivered_as cnt (n + 1) acc e (callback u h d).1 s o' u' ->
  (callback u h d).2 = false -> (cnt <= 0 \/ n + 1 < cnt) ->
  delivered_as cnt n ((h, d) :: acc) e u s o' u'.
Proof using Type.
  intros (k & brks & Hh & Hk & Hc & Hr) Hb Hcnt. exists (S k), (false :: brks).
  split_and!; [|simpl; lia|lia|].
  - simpl. destruct (callback u h d) as [u1 b]. simpl in *. subst b. by rewrite Hh.
  - destruct Hr as [(-> & -> & Hlt & -> & Ho)|(b & -> & -> & Hb' & Ho)].
    + left. split_and!; try done; lia.
    + right. exists b. destruct k as [|k].
      * (* no packet of [acc], so the count was reached before *)
        exfalso. destruct acc; simpl in Hh; injection Hh as _ Hh; done.
      * split_and!; [f_equal; lia| |destruct Hb'; [by left|right; lia]|done].
        replace (S (S k) - 1)%nat with (S (S k - 1)) by lia. done.
Qed.

Lemma delivered_as_last cnt n h d acc e u o' b u' :
  callback u h d = (u', b) -> break_loop (o_p o') = b -> (b = true \/ n + 1 = cnt) ->
  (0 < cnt -> n + 1 <= cnt) ->
  delivered_as cnt n ((h, d) :: acc) e u (ReadRet (n + 1)) o' u'.
Proof using Type.
  intros Hcb Ho Hb Hc. exists 1%nat, [b]. split_and!; [|simpl; lia|lia|].
  - simpl. rewrite Hcb. by destruct acc.
  - right. exists b. split_and!; try done.
Qed.

Lemma read_loop_delivers fuel o cnt n u l r :
  offline_ok o -> filter_ok (fcode (o_p o)) -> mem_ok mem0 -> break_loop (o_p o) = false ->
  read_all malloc_ok fuel o = (l, Some r) -> ends r ->
  0 <= n -> n + lenZ l < 2 ^ 31 -> (cnt <= 0 \/ n < cnt) ->
  let '(s, o', u') := read_loop malloc_ok mem0 callback fuel o cnt n u in
  delivered_as cnt n (List.filter (accepts (fcode (o_p o))) l) r u s o' u'.
Proof using Type.
  revert o n u l. induction fuel as [|fuel IH]; intros o n u l Ho Hf Hm Hb Hr Hends Hn Hl Hc; [done|].
  rewrite read_all_S in Hr. cbn [read_loop]. rewrite Hb.
  destruct (next_packet malloc_ok o) as [r1 o1] eqn:Hnp.
  pose proof (next_packet_step malloc_ok o r1 o1 Ho Hnp) as (Ho1 & Hf1 & Hb1 & _ & Hpk).
  destruct r1 as [h d| |e|k].
  2,3: injection Hr as <- <-; exists 0%nat, []; split_and!; [done|simpl; lia|lia|left];
    split_and!; try done; simpl; try lia; by rewrite Hb1.
  2: { injection Hr as <- <-. done. }
  destruct (read_all malloc_ok fuel o1) as [l1 r2] eqn:Hr1. injection Hr as <- ->.
  destruct (Hpk h d eq_refl) as (Hok & Hcap & _).
  destruct (filter_packet_ok mem0 (fcode (o_p o1)) h d Hm ltac:(by rewrite Hf1) Hok Hcap) as [b Hb2].
  rewrite Hf1 in Hb2 |- *. rewrite Hb2. cbn [List.filter].
  assert (Hacc : accepts (fcode (o_p o)) (h, d) = b) by (unfold accepts; simpl; by rewrite Hb2).
  assert (Hlen : lenZ ((h, d) :: l1) = 1 + lenZ l1) by (unfold lenZ; simpl length; lia).
  rewrite Hacc. rewrite Hlen in Hl.
  pose proof (Nat2Z.is_nonneg (length l1)) as Hl0. fold (lenZ l1) in Hl0.
  destruct b.
  - destruct (callback u h d) as [u1 brk] eqn:Hcb. rewrite swrap_id by clia.
    destruct ((cnt <=? n + 1) && (0 <? cnt)) eqn:E.
    + eapply delivered_as_last; [exact Hcb| | |]; [destruct brk; simpl; [done|by rewrite Hb1]|right; lia|lia].
    + destruct brk.
      * (* the loop ends at its next turn *)
        destruct fuel as [|fuel]; [done|]. cbn [read_loop]. simpl break_loop. cbv iota.
        replace (n + 1 =? 0) with false by lia.
        eapply delivered_as_last; [exact Hcb|done|by left|lia].
      * specialize (IH o1 (n + 1) u1 l1 Ho1 ltac:(by rewrite Hf1) Hm ltac:(by rewrite Hb1)
                   Hr1 Hends ltac:(lia) ltac:(lia) ltac:(lia)).
        rewrite Hf1 in IH. destruct (read_loop _ _ _ _ _ _ _) as [[s o'] u'].
        apply delivered_as_cons; rewrite ?Hcb; [exact IH|done|lia].
  - specialize (IH o1 n u l1 Ho1 ltac:(by rewrite Hf1) Hm ltac:(by rewrite Hb1)
                   Hr1 Hends ltac:(lia) ltac:(lia) Hc).
    rewrite Hf1 in IH. exact IH.
Qed.
End Delivery.

(** C25: [pcap_offline_read] on a savefile whose records end with the end of
    the file or an error, through no filter or a strict one that the checker
    accepts, hands the application, in order and each once, the first [k] of
    the packets the filter accepts.  It stops at the packet with which the
    application calls [pcap_breakloop] or, when [cnt] is positive, at the
    [cnt]-th, and returns [k]; otherwise it hands over all of them and returns
    the status of the end: -1 for an error, and 0 for the end of the file,
    however many packets there were, where the manual page promises their
    number.  The break flag is left set after a break; if it is set before
    the call nothing is handed over, -2 is returned and the flag is
    cleared. *)
Theorem offline_read_delivers malloc_ok mem0 {user_t}
    (callback : user_t -> pcap_pkthdr -> list byte -> user_t * bool) o cnt u l r :
  offline_ok o -> filter_ok (fcode (o_p o)) -> mem_ok mem0 ->
  read_all malloc_ok (S (length (f_rest (o_fp o)))) o = (l, Some r) -> ends r ->
  lenZ l < 2 ^ 31 ->
  let acc := List.filter (accepts mem0 (fcode (o_p o))) l in
  let '(s, o', u') := pcap_offline_read malloc_ok mem0 callback o cnt u in
  if break_loop (o_p o)
  then s = ReadRet (-2) /\ u' = u /\ break_loop (o_p o') = false
  else exists (k : nat) (brks : list bool),
    handle_all callback u (take k acc) = (u', brks) /\ (k <= length acc)%nat /\
    (0 < cnt -> Z.of_nat k <= cnt) /\
    (s = ReadRet (end_status r) /\ k = length acc /\ (0 < cnt -> Z.of_nat k < cnt) /\
       brks = repeat false k /\ break_loop (o_p o') = false \/
     exists b, s = ReadRet (Z.of_nat k) /\ brks = repeat false (k - 1) ++ [b] /\
       (b = true \/ Z.of_nat k = cnt) /\ break_loop (o_p o') = b).
Proof.
  intros Ho Hf Hm Hr He Hl acc. destruct (break_loop (o_p o)) eqn:Hb.
  - unfold pcap_offline_read. cbn [read_loop]. by rewrite Hb.
  - pose proof (read_loop_delivers malloc_ok mem0 callback _ o cnt 0 u l r Ho Hf Hm Hb Hr He
                  ltac:(lia) ltac:(lia) ltac:(lia)) as H.
    exact H.
Qed.

(** The old capture without a filter, read by an application that breaks at
    the first packet: it gets that one only. *)
Lemma offline_read_delivers_witness :
  exists k brks,
    handle_all (fun u h d => (u ++ [caplen h], true)) []
      (take k (map (delivered (o_p old_open)) old_records)) = ([2], brks) /\ k = 1%nat.
Proof.
  pose proof (offline_read_delivers (fun _ => true) zero_mem (fun u h d => (u ++ [caplen h], true))
    old_open (-1) [] (map (delivered (o_p old_open)) old_records) NEof
    (fill_pcap_ok pcap0 true old_header) I zero_mem_ok
    ltac:(vm_compute; reflexivity) I ltac:(zcompute)) as H.
  destruct (pcap_offline_read _ _ _ _ _ _) as [[s o'] u'] eqn:E. vm_compute in E.
  injection E as <- <- <-. destruct H as (k & brks & Hh & Hk & _ & Hr).
  exists k, brks. split; [exact Hh|].
  destruct Hr as [(Hs & _)|(b & Hs & _)]; [discriminate Hs|]. injection Hs. lia.
Defined.
