(* ===== verification/PcapNgSpec.v ===== *)
(** What the pcap-ng reader promises about time stamps and interfaces. *)
From S2P Require Import Prelude CFile Bpf PcapInt Datalink UsbHeader SfPcap.
From S2P Require Import SfPcapNg.

#[local] Open Scope c_scope.

(** ** Time stamps *)

(** The state an Interface Description Block with resolution [r] and offset
    [off] leaves. *)
Definition ng_state (r off : Z) : pcap_sf :=
  PcapSf false op_pcap_ng_next_packet 0 NOT_SWAPPED 1 0 1 r (tsscale_of r) off.

Lemma tsscale_pos r : 0 < r -> 0 < tsscale_of r.
Proof.
  intros. unfold tsscale_of. destruct (Z.ltb_spec 1000000 r); Z.div_mod_to_equations; nia.
Qed.

(** The microseconds before any wrap-around. *)
Definition usec_of (r t : Z) : Z :=
  if 1000000 <? r then t mod r / tsscale_of r else t mod r * tsscale_of r.

Lemma usec_of_bound r t :
  0 < r -> 0 <= usec_of r t < 2000000 /\ (r <= 1000000 -> usec_of r t < 1000000).
Proof.
  intros Hr. pose proof (Z.mod_pos_bound t r Hr) as Hm. unfold usec_of, tsscale_of.
  destruct (Z.ltb_spec 1000000 r) as [Hlt|Hge].
  - assert (1 <= r / 1000000) by (apply Z.div_le_lower_bound; lia).
    assert (r < (r / 1000000 + 1) * 1000000) by (Z.div_mod_to_equations; lia).
    set (q := r / 1000000) in *. clearbody q.
    split; [|lia]. split; [apply Z.div_pos; lia|]. apply Z.div_lt_upper_bound; nia.
  - assert (0 <= 1000000 / r) by (apply Z.div_pos; lia).
    assert (r * (1000000 / r) <= 1000000) by (apply Z.mul_div_le; lia).
    set (q := 1000000 / r) in *. clearbody q. nia.
Qed.

Lemma ts_usec_of r off t : 0 < r -> ts_usec (ng_state r off) t = usec_of r t.
Proof.
  intros Hr. unfold ts_usec. cbn [tsresol tsscale ng_state]. fold (usec_of r t).
  destruct (usec_of_bound r t Hr) as [Hb _]. rewrite uwrap_id, swrap_id by clia. done.
Qed.

(** C33: Time stamps are exact for every resolution that divides the
    microsecond or that a microsecond divides, all powers of ten among them:
    the [timeval] is the time stamp in microseconds, rounded down, plus the
    offset, with the microseconds below one million. *)
Theorem ng_timestamp_exact r off t :
  0 < r -> (r | 1000000) \/ (1000000 | r) ->
  0 <= t -> 0 <= t / r + off < 2 ^ 63 ->
  let s := ng_state r off in
  ts_sec s t * 1000000 + ts_usec s t = t * 1000000 / r + off * 1000000 /\
  0 <= ts_usec s t < 1000000.
Proof.
  intros Hr Hd Ht Hsec s.
  assert (Hs : ts_sec s t = t / r + off).
  { unfold ts_sec, s. cbn [tsresol tsoffset ng_state]. rewrite uwrap_id, swrap_id by clia. done. }
  assert (Hu : ts_usec s t = usec_of r t) by by apply ts_usec_of.
  rewrite Hs, Hu. clear Hs Hu. unfold usec_of, tsscale_of.
  pose proof (Z.mod_pos_bound t r Hr) as Hm. pose proof (Z.div_mod t r ltac:(lia)) as Ht'.
  set (m := t mod r) in *. set (q := t / r) in *. clearbody m q. subst t.
  destruct (Z.ltb_spec 1000000 r) as [Hlt|Hge].
  - destruct Hd as [Hd|[k ->]]; [apply Z.divide_pos_le in Hd; lia|].
    rewrite Z.div_mul by lia.
    replace ((k * 1000000 * q + m) * 1000000) with ((q * 1000000 * k + m) * 1000000) by lia.
    rewrite Z.div_mul_cancel_r, Z.div_add_l by lia.
    split; [lia|]. split; [apply Z.div_pos; lia|]. apply Z.div_lt_upper_bound; lia.
  - assert (exists k, 1000000 = k * r) as [k Hk].
    { destruct Hd as [Hd|[k ->]]; [exact Hd|]. assert (k = 1) by nia. subst k. by exists 1. }
    replace (1000000 / r) with k by (rewrite Hk; symmetry; apply Z.div_mul; lia).
    assert (Hmk : m * 1000000 = m * k * r) by (rewrite Hk; ring).
    replace ((r * q + m) * 1000000) with ((q * 1000000 + m * k) * r) by lia.
    rewrite Z.div_mul by lia. split; [lia|]. nia.
Qed.

Lemma ng_timestamp_exact_witness :
  let s := ng_state 1000000000 0 in
  ts_sec s 1365674154123456789 * 1000000 + ts_usec s 1365674154123456789 = 1365674154123456.
Proof.
  edestruct (ng_timestamp_exact 1000000000 0 1365674154123456789) as [H _].
  - lia.
  - right. by exists 1000.
  - lia.
  - zcompute.
  - cbv zeta in *. etransitivity; [exact H|]. reflexivity.
Defined.

(** For any resolution the microseconds stay below two million, and below
    one million up to microsecond resolution.  Above it they need not be a
    valid [timeval]: the scaling factor is rounded down, so that with a
    resolution of 2^-20 s the last tick of a second is 1048575 microseconds. *)
Theorem ng_usec_bound r off t :
  0 < r ->
  0 <= ts_usec (ng_state r off) t < 2000000 /\
  (r <= 1000000 -> ts_usec (ng_state r off) t < 1000000) /\
  tsresol_of_opt 0x94 = Some 1048576 /\ ts_usec (ng_state 1048576 off) 1048575 = 1048575.
Proof.
  intros Hr. rewrite ts_usec_of by done. destruct (usec_of_bound r t Hr) as [? ?].
  split_and!; try done; lia.
Qed.

Lemma ng_usec_bound_witness : 0 <= ts_usec (ng_state 1024 0) 1023 < 1000000.
Proof.
  destruct (ng_usec_bound 1024 0 1023 ltac:(lia)) as ([H0 _] & H & _). split; [exact H0|].
  apply H. lia.
Defined.

(** ** Resolutions *)

(** What an [if_tsresol] option is read as: a value with the top bit clear
    is a power of ten, exactly up to 10^9 and reduced modulo 2^32 above, and
    the test that is to reject the resolutions that do not fit lets all of
    them through up to 10^31; one with the top bit set is a power of two up to
    2^31, and an undefined shift above. *)
Theorem tsresol_of_opt_spec opt :
  is_u 8 opt ->
  tsresol_of_opt opt =
    (if opt <? 128 then Some (u32 (10 ^ opt))
     else if opt <? 160 then Some (2 ^ (opt - 128)) else None) /\
  (opt <= 9 -> tsresol_of_opt opt = Some (10 ^ opt)) /\
  (10 <= opt < 32 -> exists r, tsresol_of_opt opt = Some r /\ r <> 0 /\ r <> 10 ^ opt).
Proof.
  intros Ho.
  assert (H : forallb (fun n => let opt := Z.of_nat n in
    bool_decide (tsresol_of_opt opt =
      (if opt <? 128 then Some (u32 (10 ^ opt))
       else if opt <? 160 then Some (2 ^ (opt - 128)) else None)) &&
    ((9 <? opt) || bool_decide (tsresol_of_opt opt = Some (10 ^ opt))) &&
    (negb ((10 <=? opt) && (opt <? 32)) ||
      match tsresol_of_opt opt with
      | Some r => negb (r =? 0) && negb (r =? 10 ^ opt) | None => false end))
    (seq 0 256) = true) by (vm_compute; reflexivity).
  rewrite List.forallb_forall in H. specialize (H (Z.to_nat opt)). cbv zeta in H.
  rewrite Z2Nat.id in H by clia.
  apply andb_prop in H as [[H1 H2]%andb_prop H3]; [|apply List.in_seq; clia].
  apply bool_decide_eq_true_1 in H1. split; [exact H1|]. split.
  - intros. apply orb_prop in H2 as [H2|H2]; [lia|]. by apply bool_decide_eq_true_1 in H2.
  - intros. apply orb_prop in H3 as [H3|H3]; [lia|].
    destruct (tsresol_of_opt opt) as [r|]; [|done]. exists r. split; [done|].
    apply andb_prop in H3 as [H3 H4]. apply negb_true_iff, Z.eqb_neq in H3.
    by apply negb_true_iff, Z.eqb_neq in H4.
Qed.

Lemma tsresol_of_opt_spec_witness : tsresol_of_opt 10 = Some 1410065408 /\ tsresol_of_opt 9 = Some 1000000000.
Proof.
  destruct (tsresol_of_opt_spec 10 ltac:(zcompute)) as [-> _].
  destruct (tsresol_of_opt_spec 9 ltac:(zcompute)) as (_ & H & _). rewrite H by lia. done.
Defined.

(** ** Interfaces *)

(** A second interface described exactly like the first is accepted when
    the file's link-layer type is its own [DLT_] value; when it is mapped to
    another one, the file's value is compared with the mapped one, and the
    file is rejected. *)
Theorem next_idb_same p0 c c' idb lt snap r off :
  get_from_block_data c sizeof_interface_description_block = inr (idb, c') ->
  field16 (swapped (sf p0)) 0 idb = lt -> field32 (swapped (sf p0)) 4 idb = snap ->
  process_idb_options (swapped (sf p0)) c' 1000000 0 = IdbOk r off ->
  let p := fill_idb p0 lt snap r off in
  next_idb p c =
    if linktype_to_dlt lt =? lt
    then (BMore, with_ifcount p (u32 (ifcount (sf p0) + 1)))
    else (BError (E_if_linktype lt), p).
Proof.
  intros Hc Hl Hs Ho p. unfold next_idb. rewrite Hc.
  change (swapped (sf p)) with (swapped (sf p0)). cbv zeta.
  change (linktype p) with (linktype_to_dlt lt). rewrite Hl.
  destruct (Z.eqb_spec (linktype_to_dlt lt) lt) as [_|Hne]; simpl negb; [|done].
  change (snapshot p) with (i32 snap). rewrite uwrap_swrap by lia.
  rewrite uwrap_id by (rewrite <- Hs; auto with cint).
  rewrite Hs, Z.eqb_refl. simpl negb. cbv iota. rewrite Ho.
  change (tsresol (sf _)) with r. change (tsoffset (sf _)) with off.
  by rewrite !Z.eqb_refl.
Qed.

(** An interface of type [LINKTYPE_RAW] (101), read as [DLT_RAW] (12). *)
Definition raw_idb : list byte := le_split 2 101 ++ le_split 2 0 ++ le_split 4 65535.

Lemma next_idb_same_witness :
  let p := fill_idb pcap0 101 65535 1000000 0 in
  next_idb p (Cursor raw_idb BT_IDB) = (BError (E_if_linktype 101), p).
Proof.
  apply (next_idb_same pcap0 (Cursor raw_idb BT_IDB) (Cursor [] BT_IDB) raw_idb 101 65535 1000000 0);
    vm_compute; reflexivity.
Defined.
