(* ===== verification/Pcap.v ===== *)
(** [pcap.c]: the capture handle's settings and operations, and the loops that
    read packets. *)
From S2P Require Import Prelude CString CFile Bpf BpfFilter PcapInt Datalink SfPcap SfPcapNg.
From S2P Require Import Savefile.

#[local] Open Scope string_scope.
#[local] Open Scope Z_scope.

(** ** Status values ([pcap/pcap.h]) *)

Definition PCAP_ERROR_BREAK := -2.
Definition PCAP_ERROR_NOT_ACTIVATED := -3.
Definition PCAP_ERROR_ACTIVATED := -4.
Definition PCAP_ERROR_NO_SUCH_DEVICE := -5.
Definition PCAP_ERROR_RFMON_NOTSUP := -6.
Definition PCAP_ERROR_NOT_RFMON := -7.
Definition PCAP_ERROR_PERM_DENIED := -8.
Definition PCAP_ERROR_IFACE_NOT_UP := -9.
Definition PCAP_ERROR_CANTSET_TSTAMP_TYPE := -10.
Definition PCAP_ERROR_PROMISC_PERM_DENIED := -11.
Definition PCAP_WARNING := 1.
Definition PCAP_WARNING_PROMISC_NOTSUP := 2.
Definition PCAP_WARNING_TSTAMP_TYPE_NOTSUP := 3.
Definition PCAP_ERRBUF_SIZE := 256%nat.

(** The size of [pcap_statustostr]'s static buffer. *)
Definition status_ebuf_size : nat := 15 + 10 + 1.

Definition pcap_statustostr (errnum : Z) : string :=
  if errnum =? PCAP_WARNING then "Generic warning"
  else if errnum =? PCAP_WARNING_TSTAMP_TYPE_NOTSUP then
    "That type of time stamp is not supported by that device"
  else if errnum =? PCAP_WARNING_PROMISC_NOTSUP then
    "That device doesn't support promiscuous mode"
  else if errnum =? PCAP_ERROR then "Generic error"
  else if errnum =? PCAP_ERROR_BREAK then "Loop terminated by pcap_breakloop"
  else if errnum =? PCAP_ERROR_NOT_ACTIVATED then "The pcap_t has not been activated"
  else if errnum =? PCAP_ERROR_ACTIVATED then
    "The setting can't be changed after the pcap_t is activated"
  else if errnum =? PCAP_ERROR_NO_SUCH_DEVICE then "No such device exists"
  else if errnum =? PCAP_ERROR_RFMON_NOTSUP then "That device doesn't support monitor mode"
  else if errnum =? PCAP_ERROR_NOT_RFMON then
    "That operation is supported only in monitor mode"
  else if errnum =? PCAP_ERROR_PERM_DENIED then
    "You don't have permission to capture on that device"
  else if errnum =? PCAP_ERROR_IFACE_NOT_UP then "That device is not up"
  else if errnum =? PCAP_ERROR_CANTSET_TSTAMP_TYPE then
    "That device doesn't support setting the time stamp type"
  else if errnum =? PCAP_ERROR_PROMISC_PERM_DENIED then
    "You don't have permission to capture in promiscuous mode on that device"
  else snprintf status_ebuf_size ("Unknown error: " +:+ fmt_d errnum).

(** ** The handle *)

(** The operations behind the handle's function pointers, as the status each
    call returns; [None] is a null pointer.  What the read operations of the
    back ends hand over is modelled with them; here [read_op] stands for the
    status alone. *)
Record ops := Ops {
  read_op : Z -> Z;
  inject_op : list byte -> Z;
  setfilter_op : program -> Z;
  setdirection_op : option (Z -> Z);
  set_datalink_op : option (Z -> Z);
  getnonblock_op : Z;
  setnonblock_op : Z -> Z;
  stats_op : Z }.

(** [struct pcap_opt], and the fields of [struct pcap] the functions below use. *)
Record pcap_opt := Opt {
  opt_buffer_size : Z; opt_source : string; opt_promisc : Z; opt_rfmon : Z; opt_tstamp_type : Z }.

Record handle := Handle {
  h_snapshot : Z;
  h_linktype : Z;
  h_activated : bool;
  h_oldstyle : bool;
  h_timeout : Z;
  h_opt : pcap_opt;
  h_ops : ops;
  h_errbuf : string;
  dlt_list : list Z;
  tstamp_type_list : list Z }.

Definition set_opt (p : handle) (o : pcap_opt) : handle :=
  Handle (h_snapshot p) (h_linktype p) (h_activated p) (h_oldstyle p) (h_timeout p) o (h_ops p)
         (h_errbuf p) (dlt_list p) (tstamp_type_list p).
Definition set_errbuf (p : handle) (s : string) : handle :=
  Handle (h_snapshot p) (h_linktype p) (h_activated p) (h_oldstyle p) (h_timeout p) (h_opt p)
         (h_ops p) (snprintf PCAP_ERRBUF_SIZE s) (dlt_list p) (tstamp_type_list p).
Definition set_ops (p : handle) (o : ops) : handle :=
  Handle (h_snapshot p) (h_linktype p) (h_activated p) (h_oldstyle p) (h_timeout p) (h_opt p) o
         (h_errbuf p) (dlt_list p) (tstamp_type_list p).
Definition set_activated (p : handle) : handle :=
  Handle (h_snapshot p) (h_linktype p) true (h_oldstyle p) (h_timeout p) (h_opt p) (h_ops p)
         (h_errbuf p) (dlt_list p) (tstamp_type_list p).
Definition set_oldstyle (p : handle) : handle :=
  Handle (h_snapshot p) (h_linktype p) (h_activated p) true (h_timeout p) (h_opt p) (h_ops p)
         (h_errbuf p) (dlt_list p) (tstamp_type_list p).
Definition set_linktype (p : handle) (dlt : Z) : handle :=
  Handle (h_snapshot p) dlt (h_activated p) (h_oldstyle p) (h_timeout p) (h_opt p) (h_ops p)
         (h_errbuf p) (dlt_list p) (tstamp_type_list p).

(** [pcap_not_initialized] and [initialize_ops] *)
Definition pcap_not_initialized : Z := PCAP_ERROR_NOT_ACTIVATED.
Definition not_initialized_ops : ops :=
  Ops (fun _ => pcap_not_initialized) (fun _ => pcap_not_initialized)
      (fun _ => pcap_not_initialized)
      (Some (fun _ => pcap_not_initialized)) (Some (fun _ => pcap_not_initialized))
      pcap_not_initialized (fun _ => pcap_not_initialized) pcap_not_initialized.
Definition initialize_ops (p : handle) : handle := set_ops p not_initialized_ops.

(** ** Settings *)

Definition pcap_check_activated (p : handle) : Z * handle :=
  if h_activated p then (-1, set_errbuf p "can't perform  operation on activated capture")
  else (0, p).

(** Every setter starts with the same test. *)
Definition setter (p : handle) (k : handle -> Z * handle) : Z * handle :=
  let '(s, p) := pcap_check_activated p in
  if negb (s =? 0) then (PCAP_ERROR_ACTIVATED, p) else k p.

Definition pcap_set_snaplen (p : handle) (snaplen : Z) : Z * handle :=
  setter p (fun p => (0, Handle snaplen (h_linktype p) (h_activated p) (h_oldstyle p) (h_timeout p)
                           (h_opt p) (h_ops p) (h_errbuf p) (dlt_list p) (tstamp_type_list p))).

Definition pcap_set_promisc (p : handle) (promisc : Z) : Z * handle :=
  setter p (fun p => let o := h_opt p in
    (0, set_opt p (Opt (opt_buffer_size o) (opt_source o) promisc (opt_rfmon o) (opt_tstamp_type o)))).

Definition pcap_set_rfmon (p : handle) (rfmon : Z) : Z * handle :=
  setter p (fun p => let o := h_opt p in
    (0, set_opt p (Opt (opt_buffer_size o) (opt_source o) (opt_promisc o) rfmon (opt_tstamp_type o)))).

Definition pcap_set_timeout (p : handle) (timeout_ms : Z) : Z * handle :=
  setter p (fun p => (0, Handle (h_snapshot p) (h_linktype p) (h_activated p) (h_oldstyle p) timeout_ms
                           (h_opt p) (h_ops p) (h_errbuf p) (dlt_list p) (tstamp_type_list p))).

Definition pcap_set_tstamp_type (p : handle) (tstamp_type : Z) : Z * handle :=
  setter p (fun p =>
    if (length (tstamp_type_list p) =? 0)%nat then (PCAP_ERROR_CANTSET_TSTAMP_TYPE, p)
    else if existsb (Z.eqb tstamp_type) (tstamp_type_list p) then
      let o := h_opt p in
      (0, set_opt p (Opt (opt_buffer_size o) (opt_source o) (opt_promisc o) (opt_rfmon o) tstamp_type))
    else (PCAP_WARNING_TSTAMP_TYPE_NOTSUP, p)).

Definition pcap_set_buffer_size (p : handle) (buffer_size : Z) : Z * handle :=
  setter p (fun p => let o := h_opt p in
    (0, set_opt p (Opt buffer_size (opt_source o) (opt_promisc o) (opt_rfmon o) (opt_tstamp_type o)))).

(** [pcap_create_common], when [malloc] and [strdup] succeed. *)
Definition pcap_create_common (source : string) : handle :=
  let p := Handle 0 0 false false 0 (Opt 0 source 0 0 0) not_initialized_ops "" [] [] in
  let p := initialize_ops p in
  let p := (pcap_set_timeout p 0).2 in
  let p := (pcap_set_snaplen p 65535).2 in
  set_opt p (Opt 0 source 0 (opt_rfmon (h_opt p)) (-1)).

Section Device.
(** The platform's [activate_op]: its status, and what it does to the
    handle. *)
Context (activate_op : handle -> Z * handle).

Definition pcap_activate (p : handle) : Z * handle :=
  let '(s, p) := pcap_check_activated p in
  if negb (s =? 0) then (PCAP_ERROR_ACTIVATED, p)
  else
    let '(status, p) := activate_op p in
    if 0 <=? status then (status, set_activated p)
    else
      let p := if String.eqb (h_errbuf p) "" then set_errbuf p (pcap_statustostr status) else p in
      (status, initialize_ops p).

(** [pcap_create] for the source: the handle, or the message in [errbuf]. *)
Context (pcap_create : string -> string + handle).

Definition open_live_error (source : string) (status : Z) (p : handle) : string :=
  snprintf PCAP_ERRBUF_SIZE
    (if status =? PCAP_ERROR then source +:+ ": " +:+ h_errbuf p
     else if (status =? PCAP_ERROR_NO_SUCH_DEVICE) || (status =? PCAP_ERROR_PERM_DENIED)
             || (status =? PCAP_ERROR_PROMISC_PERM_DENIED)
     then source +:+ ": " +:+ pcap_statustostr status +:+ " (" +:+ h_errbuf p +:+ ")"
     else source +:+ ": " +:+ pcap_statustostr status).

Definition pcap_open_live (source : string) (snaplen promisc to_ms : Z) : string + handle :=
  match pcap_create source with
  | inl e => inl e
  | inr p =>
      let '(status, p) := pcap_set_snaplen p snaplen in
      if status <? 0 then inl (open_live_error source status p)
      else
        let '(status, p) := pcap_set_promisc p promisc in
        if status <? 0 then inl (open_live_error source status p)
        else
          let '(status, p) := pcap_set_timeout p to_ms in
          if status <? 0 then inl (open_live_error source status p)
          else
            let '(status, p) := pcap_activate (set_oldstyle p) in
            if status <? 0 then inl (open_live_error source status p) else inr p
  end.
End Device.

(** ** Queries and operations *)

(** The copies [pcap_list_tstamp_types] and [pcap_list_datalinks] return with
    the list's length; [calloc_ok] is whether the allocation succeeds. *)
Definition pcap_list_tstamp_types (calloc_ok : bool) (p : handle) : option (list Z) :=
  match tstamp_type_list p with
  | [] => Some []
  | l => if calloc_ok then Some l else None
  end.

Definition pcap_list_datalinks (calloc_ok : bool) (p : handle) : option (list Z) :=
  if calloc_ok then
    match dlt_list p with [] => Some [h_linktype p] | l => Some l end
  else None.


Definition dlt_unsupported (p : handle) (dlt : Z) : Z * handle :=
  (-1, set_errbuf p
         match pcap_datalink_val_to_name dlt with
         | Some name => name +:+ " is not one of the DLTs supported by this device"
         | None => "DLT " +:+ fmt_d dlt +:+ " is not one of the DLTs supported by this device"
         end).

Definition pcap_set_datalink (p : handle) (dlt : Z) : Z * handle :=
  match dlt_list p, set_datalink_op (h_ops p) with
  | [], _ | _, None => if negb (h_linktype p =? dlt) then dlt_unsupported p dlt else (0, p)
  | l, Some op =>
      if negb (existsb (Z.eqb dlt) l) then dlt_unsupported p dlt
      else if (length l =? 2)%nat && (nth 0 l 0 =? DLT_EN10MB) && (dlt =? DLT_DOCSIS) then
        (0, set_linktype p dlt)
      else if op dlt =? -1 then (-1, p)
      else (0, set_linktype p dlt)
  end.

Definition pcap_setfilter (p : handle) (fp : program) : Z := setfilter_op (h_ops p) fp.

Definition pcap_setdirection (p : handle) (d : Z) : Z * handle :=
  match setdirection_op (h_ops p) with
  | None => (-1, set_errbuf p "Setting direction is not implemented on this platform")
  | Some op => (op d, p)
  end.

Definition pcap_stats (p : handle) : Z := stats_op (h_ops p).

(** [errbuf] is the caller's buffer after the operation. *)
Definition pcap_getnonblock (p : handle) (errbuf : string) : Z * handle :=
  let ret := getnonblock_op (h_ops p) in
  (ret, if ret =? -1 then set_errbuf p errbuf else p).
Definition pcap_setnonblock (p : handle) (nonblock : Z) (errbuf : string) : Z * handle :=
  let ret := setnonblock_op (h_ops p) nonblock in
  (ret, if ret =? -1 then set_errbuf p errbuf else p).

Definition pcap_inject (p : handle) (buf : list byte) : Z := inject_op (h_ops p) buf.
Definition pcap_sendpacket (p : handle) (buf : list byte) : Z :=
  if inject_op (h_ops p) buf =? -1 then -1 else 0.

Definition pcap_snapshot (p : pcap_t) : Z := snapshot p.
Definition pcap_datalink (p : pcap_t) : Z := linktype p.
Definition pcap_datalink_ext (p : pcap_t) : Z := linktype_ext p.
Definition pcap_is_swapped (p : pcap_t) : bool := swapped (sf p).
Definition pcap_major_version (p : pcap_t) : Z := version_major (sf p).
Definition pcap_minor_version (p : pcap_t) : Z := version_minor (sf p).

(** [pcap_open_dead] *)
Definition pcap_open_dead (linktype snaplen : Z) : pcap_t :=
  Pcap snaplen linktype 0 0 true false 0 None sf0.

(** [pcap_offline_filter]: the verdict converted to [int]; a null program
    rejects, unlike [bpf_filter] itself. *)
Definition pcap_offline_filter (fuel : nat) (mem0 : list Z) (fp : option program) (h : pcap_pkthdr)
    (pkt : list byte) : option outcome :=
  match fp with
  | Some f =>
      match bpf_filter fuel mem0 (Some f) pkt (len h) (caplen h) with
      | Some (Returned v) => Some (Returned (i32 v))
      | r => r
      end
  | None => Some (Returned 0)
  end.

(** ** The handles to close at exit

    [pcaps_to_close] is a linked list of handles, here of their addresses,
    most recent first. *)

Definition pcap_add_to_pcaps_to_close (l : list Z) (p : Z) : list Z := p :: l.

(** The first occurrence goes. *)
Fixpoint pcap_remove_from_pcaps_to_close (l : list Z) (p : Z) : list Z :=
  match l with
  | [] => []
  | pc :: l => if pc =? p then l else pc :: pcap_remove_from_pcaps_to_close l p
  end.

(** [pcap_close_all]: [cleanup] is what closing the first handle does to the
    list. *)
Fixpoint pcap_close_all (fuel : nat) (cleanup : Z -> list Z -> list Z) (l : list Z)
    (closed : list Z) : option (list Z) :=
  match l with
  | [] => Some closed
  | h :: _ =>
      match fuel with
      | O => None
      | S fuel => pcap_close_all fuel cleanup (cleanup h l) (closed ++ [h])
      end
  end.

(** ** Reading packets *)

Section Loop.
(** The state of a source of packets and the application's state; [read] is
    [pcap_offline_read] for a savefile and [read_op] otherwise. *)
Context {St user_t : Type} (read : St -> Z -> user_t -> read_result * St * user_t)
        (is_savefile : bool).

Definition pcap_dispatch (st : St) (cnt : Z) (u : user_t) : read_result * St * user_t :=
  read st cnt u.

(** [pcap_loop]; a live source may never deliver anything, so the loop takes
    fuel, and [None] means that it ran out. *)
Fixpoint pcap_loop (fuel : nat) (st : St) (cnt : Z) (u : user_t)
    : option (read_result * St * user_t) :=
  match fuel with
  | O => None
  | S fuel =>
      match read st cnt u with
      | (ReadUndef w, st, u) => Some (ReadUndef w, st, u)
      | (ReadRet n, st, u) =>
          if negb is_savefile && (n =? 0) then pcap_loop fuel st cnt u
          else if n <=? 0 then Some (ReadRet n, st, u)
          else if 0 <? cnt then
            let cnt := i32 (cnt - n) in
            if cnt <=? 0 then Some (ReadRet 0, st, u) else pcap_loop fuel st cnt u
          else pcap_loop fuel st cnt u
      end
  end.
End Loop.

Section OneShot.
(** [read] with the callback that stores the packet. *)
Context {St : Type}
  (read : St -> Z -> option (pcap_pkthdr * list byte) ->
          read_result * St * option (pcap_pkthdr * list byte))
  (is_savefile : bool).

Definition pcap_oneshot (_ : option (pcap_pkthdr * list byte)) (h : pcap_pkthdr)
    (pkt : list byte) : option (pcap_pkthdr * list byte) := Some (h, pkt).

(** [pcap_next]: no packet at the end and on an error. *)
Definition pcap_next (st : St) : option (option (pcap_pkthdr * list byte)) * St :=
  match read st 1 None with
  | (ReadRet n, st, pkt) => (Some (if n <=? 0 then None else pkt), st)
  | (ReadUndef _, st, _) => (None, st)
  end.

(** [pcap_next_ex]: the status and the packet. *)
Definition pcap_next_ex (st : St) : read_result * St * option (pcap_pkthdr * list byte) :=
  match read st 1 None with
  | (ReadRet n, st, pkt) => (ReadRet (if is_savefile && (n =? 0) then -2 else n), st, pkt)
  | r => r
  end.
End OneShot.
