(* ===== verification/PcapSpec.v ===== *)
(** What the capture handle and the packet loops of [pcap.c] promise. *)
From S2P Require Import Prelude CString CFile Bpf BpfFilter BpfValidate PcapInt Datalink SfPcap.
From S2P Require Import Savefile SavefileSpec Pcap.

#[local] Open Scope string_scope.
#[local] Open Scope Z_scope.

(** ** Settings and activation *)

Inductive setting :=
| SetSnaplen (n : Z) | SetPromisc (n : Z) | SetRfmon (n : Z) | SetTimeout (n : Z)
| SetTstampType (n : Z) | SetBufferSize (n : Z).

Definition apply_setting (p : handle) (s : setting) : Z * handle :=
  match s with
  | SetSnaplen n => pcap_set_snaplen p n
  | SetPromisc n => pcap_set_promisc p n
  | SetRfmon n => pcap_set_rfmon p n
  | SetTimeout n => pcap_set_timeout p n
  | SetTstampType n => pcap_set_tstamp_type p n
  | SetBufferSize n => pcap_set_buffer_size p n
  end.

(** The settings of a handle, and what a setting does to them: a time stamp
    type counts only if the device supports it. *)
Record config := Config {
  c_snaplen : Z; c_promisc : Z; c_rfmon : Z; c_timeout : Z; c_tstamp : Z; c_buffer : Z }.

Definition config_of (p : handle) : config :=
  Config (h_snapshot p) (opt_promisc (h_opt p)) (opt_rfmon (h_opt p)) (h_timeout p)
         (opt_tstamp_type (h_opt p)) (opt_buffer_size (h_opt p)).

Definition set_config (types : list Z) (c : config) (s : setting) : config :=
  match s with
  | SetSnaplen n => Config n (c_promisc c) (c_rfmon c) (c_timeout c) (c_tstamp c) (c_buffer c)
  | SetPromisc n => Config (c_snaplen c) n (c_rfmon c) (c_timeout c) (c_tstamp c) (c_buffer c)
  | SetRfmon n => Config (c_snaplen c) (c_promisc c) n (c_timeout c) (c_tstamp c) (c_buffer c)
  | SetTimeout n => Config (c_snaplen c) (c_promisc c) (c_rfmon c) n (c_tstamp c) (c_buffer c)
  | SetTstampType n =>
      if existsb (Z.eqb n) types
      then Config (c_snaplen c) (c_promisc c) (c_rfmon c) (c_timeout c) n (c_buffer c) else c
  | SetBufferSize n => Config (c_snaplen c) (c_promisc c) (c_rfmon c) (c_timeout c) (c_tstamp c) n
  end.

Fixpoint apply_settings (p : handle) (l : list setting) : list Z * handle :=
  match l with
  | [] => ([], p)
  | s :: l =>
      let '(st, p) := apply_setting p s in
      let '(sts, p) := apply_settings p l in (st :: sts, p)
  end.

Lemma apply_setting_open p s :
  h_activated p = false ->
  let p' := (apply_setting p s).2 in
  config_of p' = set_config (tstamp_type_list p) (config_of p) s /\
  h_activated p' = false /\ tstamp_type_list p' = tstamp_type_list p /\
  ((apply_setting p s).1 = 0 \/
   exists n, s = SetTstampType n /\ existsb (Z.eqb n) (tstamp_type_list p) = false).
Proof.
  intros Ha. destruct p as [sn lt ac od tm [bs so pr rf ts] o e dl tl]. simpl in Ha. subst ac.
  destruct s as [n|n|n|n|n|n]; try (split_and!; auto; fail).
  cbn. unfold pcap_set_tstamp_type, setter. cbn.
  destruct (length tl =? 0)%nat eqn:El; cbn.
  - destruct tl; [|done]. split_and!; eauto.
  - destruct (existsb (Z.eqb n) tl) eqn:Ex; cbn; split_and!; eauto.
Qed.

(** Equal but for the error message. *)
Definition same_but_message (p q : handle) : Prop := set_errbuf p "" = set_errbuf q "".

Lemma apply_setting_refused p s :
  h_activated p = true ->
  let '(st, p') := apply_setting p s in
  st = PCAP_ERROR_ACTIVATED /\ same_but_message p' p.
Proof.
  intros Ha. destruct s; cbn [apply_setting];
    unfold pcap_set_snaplen, pcap_set_promisc, pcap_set_rfmon, pcap_set_timeout,
      pcap_set_tstamp_type, pcap_set_buffer_size, setter, pcap_check_activated;
    by rewrite Ha.
Qed.

Lemma apply_settings_open p l :
  h_activated p = false ->
  config_of (apply_settings p l).2
    = fold_left (set_config (tstamp_type_list p)) l (config_of p) /\
  h_activated (apply_settings p l).2 = false.
Proof.
  revert p. induction l as [|s l IH]; intros p Ha; [done|].
  cbn [apply_settings fold_left]. destruct (apply_setting_open p s Ha) as (Hc & Ha' & Ht & _).
  destruct (apply_setting p s) as [st p1]. cbn [snd] in *.
  destruct (IH p1 Ha') as [IH1 IH2]. destruct (apply_settings p1 l) as [sts p2].
  cbn [snd] in *. rewrite IH1, Hc, Ht. done.
Qed.

Lemma same_but_message_activated p q :
  same_but_message p q -> h_activated p = h_activated q.
Proof. intros H. exact (f_equal h_activated H). Qed.

Lemma apply_settings_refused p l :
  h_activated p = true ->
  Forall (eq PCAP_ERROR_ACTIVATED) (apply_settings p l).1 /\
  same_but_message (apply_settings p l).2 p.
Proof.
  revert p. induction l as [|s l IH]; intros p Ha; [by split|]. cbn [apply_settings].
  pose proof (apply_setting_refused p s Ha) as Hs.
  destruct (apply_setting p s) as [st p1]. destruct Hs as (-> & Hp1).
  destruct (IH p1) as [IH1 IH2]; [by rewrite (same_but_message_activated _ _ Hp1)|].
  destruct (apply_settings p1 l) as [sts p2]. cbn [fst snd] in *.
  split; [by constructor|]. unfold same_but_message in *. congruence.
Qed.

(** C34: Settings take effect before activation and not after.  On a handle
    that is not activated the setters leave, in the handle that the platform's
    activation is then given, the last value given to each setting (a time
    stamp type that is not in the device's list is ignored) and the others
    untouched.  If that activation reports success, whatever it has made of
    the settings, every setter and a second [pcap_activate] are refused with
    [PCAP_ERROR_ACTIVATED], and nothing but the error message of the handle it
    has left changes. *)
Theorem activation_locks_settings activate_op p before :
  h_activated p = false ->
  let q := (apply_settings p before).2 in
  config_of q = fold_left (set_config (tstamp_type_list p)) before (config_of p) /\
  forall after, 0 <= (activate_op q).1 ->
    let p' := (pcap_activate activate_op q).2 in
    let p'' := (apply_settings p' after).2 in
    (pcap_activate activate_op q).1 = (activate_op q).1 /\
    p' = set_activated (activate_op q).2 /\
    Forall (eq PCAP_ERROR_ACTIVATED) (apply_settings p' after).1 /\
    same_but_message p'' p' /\
    (pcap_activate activate_op p'').1 = PCAP_ERROR_ACTIVATED /\
    same_but_message (pcap_activate activate_op p'').2 p'.
Proof.
  intros Ha q. destruct (apply_settings_open p before Ha) as [Hc Hq]. fold q in Hc, Hq.
  split; [exact Hc|]. intros after Hst p' p''.
  assert (pcap_activate activate_op q = ((activate_op q).1, set_activated (activate_op q).2)) as Hact.
  { unfold pcap_activate, pcap_check_activated. rewrite Hq. simpl negb. cbv iota.
    destruct (activate_op q) as [st r]. cbn [fst snd] in *. by destruct (Z.leb_spec 0 st); [|lia]. }
  assert (p' = set_activated (activate_op q).2) as Hp' by (unfold p'; by rewrite Hact).
  assert (h_activated p' = true) as Ha' by (by rewrite Hp').
  destruct (apply_settings_refused p' after Ha') as [Hf Hs]. fold p'' in Hs.
  assert (h_activated p'' = true) as Ha'' by (by rewrite (same_but_message_activated _ _ Hs)).
  split_and!; try done; [by rewrite Hact|..];
    unfold pcap_activate, pcap_check_activated; rewrite Ha''; done.
Qed.

Definition eth0 : handle := pcap_create_common "eth0".
Definition eth0_settings : list setting := [SetSnaplen 96; SetPromisc 1; SetSnaplen 128].
Definition activate_ok (q : handle) : Z * handle := (0, q).
Definition eth0_active : handle :=
  (pcap_activate activate_ok (apply_settings eth0 eth0_settings).2).2.

Lemma activation_locks_settings_witness :
  h_snapshot (apply_settings eth0_active [SetSnaplen 5]).2 = 128 /\
  (apply_settings eth0_active [SetSnaplen 5]).1 = [PCAP_ERROR_ACTIVATED].
Proof.
  destruct (activation_locks_settings activate_ok eth0 eth0_settings eq_refl) as [_ H].
  destruct (H [SetSnaplen 5] ltac:(vm_compute; discriminate)) as (_ & _ & _ & Hs & _).
  split; [exact (f_equal h_snapshot Hs)|vm_compute; reflexivity].
Defined.

(** ** Operations on a handle that is not activated *)

Lemma statustostr_nonempty n : exists c s, pcap_statustostr n = String c s.
Proof. unfold pcap_statustostr. repeat case_match; eexists _, _; reflexivity. Qed.

(** Reading from a live handle through [read_op], when that hands over no
    packet. *)
Definition live_read {user_t} (p : handle) (cnt : Z) (u : user_t) : read_result * handle * user_t :=
  (ReadRet (read_op (h_ops p) cnt), p, u).

(** C38: After a failed activation the operations of the handle
    ([pcap_dispatch], [pcap_loop], [pcap_next_ex], [pcap_inject],
    [pcap_setfilter], [pcap_setdirection], [pcap_getnonblock],
    [pcap_setnonblock] and [pcap_stats]) all report
    [PCAP_ERROR_NOT_ACTIVATED] and change nothing, [pcap_next] gives no packet,
    and the handle has an error message.  Two of them test for -1 only:
    [pcap_sendpacket] reports success although nothing was sent, and
    [pcap_set_datalink] sets the type and reports success for every
    link-layer type the failed activation had listed; for another it reports
    -1, or success if nothing was listed and it is the type of the handle. *)
Theorem failed_activation_ops activate_op p buf fp dir nb eb cnt dlt {user_t} (u : user_t) :
  h_activated p = false -> (activate_op p).1 < 0 ->
  let '(status, p') := pcap_activate activate_op p in
  status = (activate_op p).1 /\
  pcap_dispatch live_read p' cnt u = (ReadRet PCAP_ERROR_NOT_ACTIVATED, p', u) /\
  pcap_loop live_read false 1 p' cnt u = Some (ReadRet PCAP_ERROR_NOT_ACTIVATED, p', u) /\
  pcap_next_ex live_read false p' = (ReadRet PCAP_ERROR_NOT_ACTIVATED, p', None) /\
  pcap_next live_read p' = (Some None, p') /\
  pcap_inject p' buf = PCAP_ERROR_NOT_ACTIVATED /\
  pcap_setfilter p' fp = PCAP_ERROR_NOT_ACTIVATED /\
  pcap_setdirection p' dir = (PCAP_ERROR_NOT_ACTIVATED, p') /\
  pcap_getnonblock p' eb = (PCAP_ERROR_NOT_ACTIVATED, p') /\
  pcap_setnonblock p' nb eb = (PCAP_ERROR_NOT_ACTIVATED, p') /\
  pcap_stats p' = PCAP_ERROR_NOT_ACTIVATED /\
  pcap_sendpacket p' buf = 0 /\
  pcap_set_datalink p' dlt =
    (if existsb (Z.eqb dlt) (dlt_list p') then (0, set_linktype p' dlt)
     else if (length (dlt_list p') =? 0)%nat && (h_linktype p' =? dlt) then (0, p')
     else dlt_unsupported p' dlt) /\
  h_errbuf p' <> "".
Proof.
  intros Ha. unfold pcap_activate, pcap_check_activated. rewrite Ha. simpl negb. cbv iota.
  destruct (activate_op p) as [status q]. simpl fst. destruct (Z.leb_spec 0 status); [lia|]. intros _.
  split_and!; try done.
  - set (p' := initialize_ops _). unfold pcap_set_datalink.
    change (set_datalink_op (h_ops p')) with (set_datalink_op not_initialized_ops).
    cbn [set_datalink_op not_initialized_ops].
    destruct (dlt_list p') as [|d l] eqn:El; [by destruct (h_linktype p' =? dlt)|].
    destruct (existsb _ _); simpl negb; cbv iota; [|done]. by destruct (_ && _).
  - destruct (String.eqb_spec (h_errbuf q) "") as [He|He]; [|exact He].
    destruct (statustostr_nonempty status) as (c & t & ->). discriminate.
Qed.

Definition failing_activate (q : handle) : Z * handle :=
  (PCAP_ERROR_PERM_DENIED,
   Handle (h_snapshot q) (h_linktype q) (h_activated q) (h_oldstyle q) (h_timeout q) (h_opt q)
     (h_ops q) "" [DLT_EN10MB; DLT_DOCSIS] []).

Lemma failed_activation_ops_witness :
  let p := (pcap_activate failing_activate eth0).2 in
  (pcap_activate failing_activate eth0).1 = -8 /\ pcap_sendpacket p [] = 0 /\
  (pcap_set_datalink p DLT_DOCSIS).1 = 0 /\ (pcap_set_datalink p DLT_RAW).1 = -1.
Proof.
  pose proof (fun dlt => failed_activation_ops failing_activate eth0 [] [] 0 0 "" (-1) dlt tt
                eq_refl ltac:(vm_compute; reflexivity)) as H.
  destruct (pcap_activate failing_activate eth0) as [status p] eqn:E. cbn [fst snd].
  pose proof (H DLT_DOCSIS) as (Hs & _ & _ & _ & _ & _ & _ & _ & _ & _ & _ & Hsend & Hd & _).
  pose proof (H DLT_RAW) as (_ & _ & _ & _ & _ & _ & _ & _ & _ & _ & _ & _ & Hr & _).
  vm_compute in E. injection E as <- <-.
  split_and!; [exact Hs|exact Hsend|rewrite Hd; reflexivity|rewrite Hr; reflexivity].
Defined.

(** ** Status messages *)

(** [pcap_statustostr] names every status value of [pcap.h]; another value
    is printed after a fixed text, and the static buffer has room for ten
    characters of it, so that it is printed in full exactly when it has at
    most ten: values of -1000000000 and below lose their last digit. *)
Theorem statustostr_unknown n :
  is_i 32 n -> n < -11 \/ n = 0 \/ 3 < n ->
  (-1000000000 < n -> pcap_statustostr n = "Unknown error: " +:+ fmt_d n) /\
  (String.length (pcap_statustostr n) <= 25)%nat /\
  pcap_statustostr (-2147483648) = "Unknown error: -214748364".
Proof.
  intros Hn Hs.
  assert (Hp : pcap_statustostr n = snprintf status_ebuf_size ("Unknown error: " +:+ fmt_d n)).
  { unfold pcap_statustostr, PCAP_WARNING, PCAP_WARNING_TSTAMP_TYPE_NOTSUP,
      PCAP_WARNING_PROMISC_NOTSUP, PCAP_ERROR, PCAP_ERROR_BREAK, PCAP_ERROR_NOT_ACTIVATED,
      PCAP_ERROR_ACTIVATED, PCAP_ERROR_NO_SUCH_DEVICE, PCAP_ERROR_RFMON_NOTSUP,
      PCAP_ERROR_NOT_RFMON, PCAP_ERROR_PERM_DENIED, PCAP_ERROR_IFACE_NOT_UP,
      PCAP_ERROR_CANTSET_TSTAMP_TYPE, PCAP_ERROR_PROMISC_PERM_DENIED.
    repeat (case_match; [lia|]). done. }
  rewrite Hp. split_and!.
  - intros Hlow. apply snprintf_fits. rewrite length_append.
    assert (String.length (fmt_d n) <= 10)%nat.
    { destruct (Z.lt_ge_cases (Z.abs n) (10 ^ 9)) as [Hlt|Hge].
      - etransitivity; [apply (length_fmt_d n 9); [lia|exact Hlt]|lia].
      - apply (length_fmt_d_pos n 10); [lia|clia]. }
    unfold status_ebuf_size. simpl String.length at 1. lia.
  - pose proof (length_snprintf status_ebuf_size ("Unknown error: " +:+ fmt_d n)
                  ltac:(vm_compute; lia)) as H. unfold status_ebuf_size in *. lia.
  - vm_compute. reflexivity.
Qed.

Lemma statustostr_unknown_witness : pcap_statustostr 2147483647 = "Unknown error: 2147483647".
Proof.
  destruct (statustostr_unknown 2147483647 ltac:(zcompute) ltac:(lia)) as (H & _ & _).
  etransitivity; [apply H; lia|vm_compute; reflexivity].
Defined.

(** ** Handles to close at exit *)

Lemma remove_head l h : pcap_remove_from_pcaps_to_close (h :: l) h = l.
Proof. simpl. by rewrite Z.eqb_refl. Qed.

(** Closing at exit: when each handle's cleanup takes it off the list,
    [pcap_close_all] ends after closing every handle once, latest first; a
    handle whose cleanup leaves it on the list makes it never end. *)
Theorem pcap_close_all_ends l :
  pcap_close_all (length l) (fun h l => pcap_remove_from_pcaps_to_close l h) l [] = Some l /\
  forall h fuel closed, pcap_close_all fuel (fun _ l => l) (h :: l) closed = None.
Proof.
  split.
  - enough (H : forall closed, pcap_close_all (length l)
      (fun h l => pcap_remove_from_pcaps_to_close l h) l closed = Some (closed ++ l)%list) by apply H.
    induction l as [|h l IH]; intros closed; [by rewrite app_nil_r|].
    cbn [length pcap_close_all]. rewrite remove_head, IH, <- app_assoc. done.
  - intros h fuel. induction fuel as [|fuel IH]; intros closed; [done|]. apply IH.
Qed.

(** ** The packet loops on a savefile *)

Section Loops.
Context (malloc_ok : Z -> bool) (mem0 : list Z) {user_t : Type}
        (callback : user_t -> pcap_pkthdr -> list byte -> user_t * bool).

Definition rest_of (o : offline) : Z := lenZ (f_rest (o_fp o)).

(** A status the read loop returns is -1, -2, 0 or positive; for a positive
    one at least a byte of the file has been read since the count was 0. *)
Lemma read_loop_progress fuel o cnt n u s o' u' :
  offline_ok o -> filter_ok (fcode (o_p o)) -> 0 <= n -> n + rest_of o < 2 ^ 31 ->
  read_loop malloc_ok mem0 callback fuel o cnt n u = (ReadRet s, o', u') ->
  offline_ok o' /\ filter_ok (fcode (o_p o')) /\ rest_of o' <= rest_of o /\
  -2 <= s /\ (0 < s -> rest_of o' < rest_of o \/ s = n) /\ (s = -2 -> break_loop (o_p o') = false).
Proof using Type.
  unfold rest_of, lenZ. revert o n u. induction fuel as [|fuel IH]; intros o n u Ho Hf Hn Hlt;
    cbn [read_loop]; [done|].
  destruct (break_loop (o_p o)) eqn:Hb.
  - destruct (Z.eqb_spec n 0); intros [= <- <- <-]; split_and!; try done; lia.
  - destruct (next_packet malloc_ok o) as [r o1] eqn:Hnp.
    pose proof (next_packet_step malloc_ok o r o1 Ho Hnp) as (Ho1 & Hf1 & _ & Hr & Hpk).
    rewrite <- Hf1 in Hf.
    destruct r as [h d| |e|k]; try (intros [= <- <- <-]; split_and!; try done; lia).
    destruct (Hpk h d eq_refl) as (_ & _ & Hlt1).
    destruct (filter_packet mem0 (fcode (o_p o1)) h d) as [w|[|]]; [done| |].
    + destruct (callback u h d) as [u1 brk].
      rewrite swrap_id by clia.
      destruct ((cnt <=? n + 1) && (0 <? cnt)).
      * intros [= <- <- <-]. destruct brk; simpl; split_and!; try done; lia.
      * intros Hl. apply IH in Hl; [|by destruct brk|by destruct brk|lia|destruct brk; simpl; lia].
        destruct brk; simpl in Hl; destruct Hl as (? & ? & ? & ? & ? & ?); split_and!; try done; lia.
    + intros Hl. apply IH in Hl; [|done|done|lia|lia].
      destruct Hl as (? & ? & ? & ? & ? & ?). split_and!; try done; lia.
Qed.

(** What [pcap_loop] returns on a savefile. *)
Definition loop_result (r : read_result) (o : offline) : Prop :=
  r = ReadRet 0 \/ r = ReadRet (-1) \/ r = ReadRet (-2) /\ break_loop (o_p o) = false \/
  exists k, r = ReadUndef (U_shift k) /\ 32 <= k.

Lemma loop_savefile fuel o cnt u :
  offline_ok o -> filter_ok (fcode (o_p o)) -> mem_ok mem0 -> rest_of o < 2 ^ 31 ->
  rest_of o < Z.of_nat fuel ->
  exists r o' u',
    pcap_loop (pcap_offline_read malloc_ok mem0 callback) true fuel o cnt u = Some (r, o', u') /\
    loop_result r o'.
Proof using Type.
  intros Ho Hf Hm. revert o cnt u Ho Hf.
  induction fuel as [|fuel IH]; intros o cnt u Ho Hf Hr Hfuel; [unfold rest_of, lenZ in *; lia|].
  cbn [pcap_loop]. unfold pcap_offline_read at 1.
  pose proof (read_loop_safe malloc_ok mem0 callback (fun _ => True) (fun _ _ _ _ _ => I)
                (S (length (f_rest (o_fp o)))) o cnt 0 u Ho Hf Hm I ltac:(lia)) as Hsafe.
  destruct (read_loop _ _ _ _ o cnt 0 u) as [[[s|w] o1] u1] eqn:Hl.
  2: { destruct Hsafe as [_ Hw]. destruct (Hw w eq_refl) as (k & -> & Hk).
       do 3 eexists. split; [reflexivity|]. unfold loop_result. eauto 8. }
  apply read_loop_progress in Hl as (Ho1 & Hf1 & Hr1 & Hs & Hpos & Hbrk); [|done|done|lia|lia].
  simpl negb. cbv iota. simpl andb. cbv iota.
  destruct (Z.leb_spec s 0) as [Hle|Hgt].
  - do 3 eexists. split; [reflexivity|]. unfold loop_result.
    assert (s = 0 \/ s = -1 \/ s = -2) as [->|[->| ->]] by lia; auto 6.
  - assert (rest_of o1 < rest_of o) by (destruct Hpos; lia).
    destruct (0 <? cnt); [cbv zeta; destruct (_ <=? 0)|];
      [|apply IH; try done; lia..].
    do 3 eexists. split; [reflexivity|]. by left.
Qed.
End Loops.

(** C35: [pcap_loop] on a savefile shorter than [2^31] bytes, through no filter
    or a strict one that the checker accepts, always returns, however often the
    application breaks out of it: it goes round at most once per byte of the
    file and once more, and returns 0, -1 or -2, never a count of packets; when
    it returns -2, also after packets have been processed, the break flag has
    been cleared.  Neither its fuel nor the reader's nor the filter's runs out;
    the one undefined behaviour left is the shift by 32 or more of a pcap-ng
    time stamp resolution. *)
Theorem pcap_loop_savefile malloc_ok mem0 {user_t}
    (callback : user_t -> pcap_pkthdr -> list byte -> user_t * bool) o cnt u :
  offline_ok o -> filter_ok (fcode (o_p o)) -> mem_ok mem0 -> lenZ (f_rest (o_fp o)) < 2 ^ 31 ->
  exists r o' u',
    pcap_loop (pcap_offline_read malloc_ok mem0 callback) true
      (S (length (f_rest (o_fp o)))) o cnt u = Some (r, o', u') /\
    (r = ReadRet 0 \/ r = ReadRet (-1) \/ r = ReadRet (-2) /\ break_loop (o_p o') = false \/
     exists k, r = ReadUndef (U_shift k) /\ 32 <= k).
Proof. intros. apply loop_savefile; try done. unfold rest_of, lenZ in *. lia. Qed.

Lemma pcap_loop_savefile_witness :
  offline_ok old_open /\
  exists r o' u',
    pcap_loop (pcap_offline_read (fun _ => true) zero_mem count_bytes) true 36 old_open 0 (0, 0)
      = Some (r, o', u') /\ loop_result r o'.
Proof.
  assert (Ho : offline_ok old_open) by exact (fill_pcap_ok pcap0 true old_header).
  split; [exact Ho|].
  exact (pcap_loop_savefile (fun _ => true) zero_mem count_bytes old_open 0 (0, 0) Ho I
           zero_mem_ok ltac:(vm_compute; reflexivity)).
Defined.

(** Breaking out of the loop: an application that calls [pcap_breakloop]
    on the first packet sees that packet only; [pcap_dispatch] then returns 1
    and leaves the flag set, while [pcap_loop] goes round again, finds the flag
    and returns -2 with the packet already processed. *)
Theorem pcap_loop_break malloc_ok mem0 {user_t}
    (callback : user_t -> pcap_pkthdr -> list byte -> user_t) o o1 h d cnt u :
  offline_ok o -> fcode (o_p o) = None -> break_loop (o_p o) = false ->
  next_packet malloc_ok o = (NPacket h d, o1) -> is_i 32 cnt -> cnt <> 1 ->
  let read := pcap_offline_read malloc_ok mem0 (fun u h d => (callback u h d, true)) in
  (exists o2, pcap_dispatch read o cnt u = (ReadRet 1, o2, callback u h d) /\
              break_loop (o_p o2) = true) /\
  exists o3, pcap_loop read true 2 o cnt u = Some (ReadRet (-2), o3, callback u h d) /\
             break_loop (o_p o3) = false.
Proof.
  intros Ho Hf Hb Hn Hi Hc read.
  pose proof (next_packet_step malloc_ok o _ o1 Ho Hn) as (_ & Hf1 & _ & _ & Hpk).
  destruct (Hpk h d eq_refl) as (_ & _ & Hlt).
  assert (Hd : forall u, read o cnt u = (ReadRet 1, set_break o1, callback u h d)).
  { intros u'. unfold read, pcap_offline_read.
    destruct (length (f_rest (o_fp o))) as [|n] eqn:El; [lia|].
    cbn [read_loop]. rewrite Hb, Hn, Hf1, Hf. cbn [filter_packet].
    change (i32 (0 + 1)) with 1.
    destruct (Z.leb_spec cnt 1), (Z.ltb_spec 0 cnt); try lia; simpl andb; cbv iota;
      cbn [read_loop]; reflexivity. }
  assert (Hbrk : forall cnt u, read (set_break o1) cnt u = (ReadRet (-2), clear_break (set_break o1), u))
    by reflexivity.
  clearbody read. split; [exists (set_break o1); split; [apply Hd|done]|].
  exists (clear_break (set_break o1)). split; [|done].
  cbn [pcap_loop]. rewrite Hd. simpl negb. cbv iota. simpl andb. cbv iota.
  change (1 <=? 0) with false. cbv iota zeta. rewrite !Hbrk. simpl.
  destruct (Z.ltb_spec 0 cnt); [|done].
  rewrite swrap_id by clia. destruct (Z.leb_spec (cnt - 1) 0); [lia|done].
Qed.

Lemma pcap_loop_break_witness :
  exists o, pcap_loop (pcap_offline_read (fun _ => true) zero_mem
                         (fun u h d => (u + caplen h, true))) true 2 old_open 0 0
            = Some (ReadRet (-2), o, 2) /\ break_loop (o_p o) = false.
Proof.
  destruct (next_packet (fun _ => true) old_open) as [r o1] eqn:Hn.
  assert (Hr : r = NPacket (Pkthdr 1365674154 25000 2 60) [byte.of_Z 1; byte.of_Z 2]).
  { transitivity (next_packet (fun _ => true) old_open).1; [by rewrite Hn|vm_compute; reflexivity]. }
  subst r.
  destruct (pcap_loop_break (fun _ => true) zero_mem (fun u h d => u + caplen h) old_open o1
    (Pkthdr 1365674154 25000 2 60) [byte.of_Z 1; byte.of_Z 2] 0 0) as (_ & o3 & H3 & Hb3).
  - exact (fill_pcap_ok pcap0 true old_header).
  - reflexivity.
  - reflexivity.
  - exact Hn.
  - zcompute.
  - lia.
  - exists o3. split; [exact H3|exact Hb3].
Defined.

(** One packet at a time: [pcap_next_ex] on a savefile returns 1 with the
    first packet that the filter accepts; when there is none it returns -2 at
    the end of the file and -1 after an error. *)
Theorem pcap_next_ex_first malloc_ok mem0 o l r :
  offline_ok o -> filter_ok (fcode (o_p o)) -> mem_ok mem0 -> break_loop (o_p o) = false ->
  read_all malloc_ok (S (length (f_rest (o_fp o)))) o = (l, Some r) -> ends r ->
  lenZ l < 2 ^ 31 ->
  let '(s, _, pkt) :=
    pcap_next_ex (pcap_offline_read malloc_ok mem0 (fun u h d => (pcap_oneshot u h d, false))) true o in
  (s, pkt) = match List.filter (accepts mem0 (fcode (o_p o))) l with
             | [] => (ReadRet (match r with NEof => -2 | _ => -1 end), None)
             | p :: _ => (ReadRet 1, Some p)
             end.
Proof.
  intros Ho Hf Hm Hb Hr He Hl.
  pose proof (read_loop_delivers malloc_ok mem0 (fun u h d => (pcap_oneshot u h d, false)) _ o 1 0
                None l r Ho Hf Hm Hb Hr He ltac:(lia) ltac:(lia) ltac:(lia)) as H.
  unfold pcap_next_ex, pcap_offline_read.
  destruct (read_loop _ _ _ _ _ _ _ _) as [[s o'] pkt].
  destruct H as (k & brks & Hh & Hk & Hc & Hend).
  destruct (List.filter _ l) as [|[h d] acc].
  - destruct Hend as [(-> & -> & _)|(b & -> & Hbr & _)].
    + injection Hh as <- _. by destruct r.
    + destruct k; [|simpl in Hk; lia]. injection Hh as _ <-. done.
  - assert (k = 1%nat) as ->.
    { destruct Hend as [(_ & -> & Hlt & _)|(b & _ & Hbr & _)]; [simpl in *; lia|].
      destruct k as [|k]; [injection Hh as _ <-; done|lia]. }
    destruct Hend as [(_ & _ & Hlt & _)|(b & -> & _)]; [lia|].
    by injection Hh as <- _.
Qed.

Lemma pcap_next_ex_first_witness :
  let '(s, _, pkt) := pcap_next_ex (pcap_offline_read (fun _ => true) zero_mem
      (fun u h d => (pcap_oneshot u h d, false))) true old_open in
  (s, pkt) = (ReadRet 1, Some (Pkthdr 1365674154 25000 2 60, [byte.of_Z 1; byte.of_Z 2])).
Proof.
  refine (pcap_next_ex_first (fun _ => true) zero_mem old_open
    (map (delivered (o_p old_open)) old_records) NEof _ _ _ _ _ _ _).
  - exact (fill_pcap_ok pcap0 true old_header).
  - exact I.
  - apply zero_mem_ok.
  - reflexivity.
  - vm_compute. reflexivity.
  - exact I.
  - zcompute.
Defined.
