(* ===== verification/LinuxInt.v ===== *)
(** [pcap-int.h] and [pcap-linux.c]: the state of a live capture on Linux, and
    the constants of the system's headers that the code uses. *)
From S2P Require Import Prelude CString CFile Bpf PcapInt Pcap.

#[local] Open Scope Z_scope.
#[local] Open Scope c_scope.

(** ** Constants *)

Definition SLL_HDR_LEN := 16.
Definition SLL_ADDRLEN := 8.
Definition LINUX_SLL_HOST := 0.
Definition LINUX_SLL_BROADCAST := 1.
Definition LINUX_SLL_MULTICAST := 2.
Definition LINUX_SLL_OTHERHOST := 3.
Definition LINUX_SLL_OUTGOING := 4.
Definition VLAN_TAG_LEN := 4.
Definition BIGGER_THAN_ALL_MTUS := 64 * 1024.
Definition MAX_LINKHEADER_SIZE := 256.
Definition PCAP_D_INOUT := 0.
Definition PCAP_D_IN := 1.
Definition PCAP_D_OUT := 2.

(** From the headers of Linux and of the C library. *)
Definition PACKET_HOST := 0.
Definition PACKET_BROADCAST := 1.
Definition PACKET_MULTICAST := 2.
Definition PACKET_OTHERHOST := 3.
Definition PACKET_OUTGOING := 4.
Definition ETH_ALEN := 6.
Definition ETH_P_8021Q := 0x8100.
Definition TPACKET_V1 := 0.
Definition TPACKET_V2 := 1.
Definition TP_STATUS_KERNEL := 0.
Definition TP_STATUS_USER := 1.
Definition TP_STATUS_VLAN_VALID := 16.
Definition TPACKET_ALIGN (x : Z) : Z := Z.ldiff (u32 (x + 15)) 15.
Definition sizeof_tpacket_hdr := 32.
Definition sizeof_sockaddr_ll := 20.
Definition SKF_AD_OFF := -0x1000.
Definition SKF_AD_PROTOCOL := 0.
Definition SKF_AD_PKTTYPE := 4.
Definition USHRT_MAX := 65535.
Definition EPERM := 1.
Definition EINTR := 4.
Definition EAGAIN := 11.
Definition ENOMEM := 12.
Definition EACCES := 13.
Definition ENODEV := 19.
Definition EINVAL := 22.
Definition ENOPROTOOPT := 92.
Definition EOPNOTSUPP := 95.
Definition EAFNOSUPPORT := 97.
Definition ENETDOWN := 100.

(** ** The state of a capture *)

(** [struct pcap_stat] *)
Record pcap_stat := Stat { ps_recv : Z; ps_drop : Z; ps_ifdrop : Z }.

(** [struct pcap_md] as it is on Linux, but for the fields that only opening
    and closing use; [mmapbuf] and [oneshot_buffer] are addresses, 0 for
    [NULL]. *)
Record pcap_md := Md {
  stat : pcap_stat;
  use_bpf : Z;
  timeout : Z;
  sock_packet : bool;
  cooked : bool;
  ifindex : Z;
  lo_ifindex : Z;
  packets_read : Z;
  mmapbuf : Z;
  mmapbuflen : Z;
  vlan_offset : Z;
  tp_version : Z;
  tp_hdrlen : Z;
  oneshot_buffer : Z;
  proc_dropped : Z }.

(** [struct pcap]: the common part and the fields of a live capture. *)
Record linux := Linux {
  l_p : pcap_t;
  md : pcap_md;
  offset : Z;
  cc : Z;
  direction : Z }.

Definition with_p (h : linux) (p : pcap_t) : linux := Linux p (md h) (offset h) (cc h) (direction h).
Definition with_md (h : linux) (m : pcap_md) : linux := Linux (l_p h) m (offset h) (cc h) (direction h).
Definition with_offset (h : linux) (n : Z) : linux := Linux (l_p h) (md h) n (cc h) (direction h).
Definition with_cc (h : linux) (n : Z) : linux := Linux (l_p h) (md h) (offset h) n (direction h).
Definition with_direction (h : linux) (d : Z) : linux := Linux (l_p h) (md h) (offset h) (cc h) d.

Definition with_use_bpf (h : linux) (n : Z) : linux :=
  let m := md h in
  with_md h (Md (stat m) n (timeout m) (sock_packet m) (cooked m) (ifindex m) (lo_ifindex m) (packets_read m)
               (mmapbuf m) (mmapbuflen m) (vlan_offset m) (tp_version m) (tp_hdrlen m) (oneshot_buffer m) (proc_dropped m)).
Definition with_timeout (h : linux) (n : Z) : linux :=
  let m := md h in
  with_md h (Md (stat m) (use_bpf m) n (sock_packet m) (cooked m) (ifindex m) (lo_ifindex m) (packets_read m)
               (mmapbuf m) (mmapbuflen m) (vlan_offset m) (tp_version m) (tp_hdrlen m) (oneshot_buffer m) (proc_dropped m)).
Definition with_packets_read (h : linux) (n : Z) : linux :=
  let m := md h in
  with_md h (Md (stat m) (use_bpf m) (timeout m) (sock_packet m) (cooked m) (ifindex m) (lo_ifindex m) n
               (mmapbuf m) (mmapbuflen m) (vlan_offset m) (tp_version m) (tp_hdrlen m) (oneshot_buffer m) (proc_dropped m)).
Definition with_stat (h : linux) (s : pcap_stat) (dropped : Z) : linux :=
  let m := md h in
  with_md h (Md s (use_bpf m) (timeout m) (sock_packet m) (cooked m) (ifindex m) (lo_ifindex m) (packets_read m)
               (mmapbuf m) (mmapbuflen m) (vlan_offset m) (tp_version m) (tp_hdrlen m) (oneshot_buffer m) dropped).
Definition with_tpacket (h : linux) (version hdrlen : Z) : linux :=
  let m := md h in
  with_md h (Md (stat m) (use_bpf m) (timeout m) (sock_packet m) (cooked m) (ifindex m) (lo_ifindex m) (packets_read m)
               (mmapbuf m) (mmapbuflen m) (vlan_offset m) version hdrlen (oneshot_buffer m) (proc_dropped m)).
Definition with_mmap (h : linux) (addr buflen : Z) : linux :=
  let m := md h in
  with_md h (Md (stat m) (use_bpf m) (timeout m) (sock_packet m) (cooked m) (ifindex m) (lo_ifindex m) (packets_read m)
               addr buflen (vlan_offset m) (tp_version m) (tp_hdrlen m) (oneshot_buffer m) (proc_dropped m)).
Definition with_oneshot (h : linux) (p : Z) : linux :=
  let m := md h in
  with_md h (Md (stat m) (use_bpf m) (timeout m) (sock_packet m) (cooked m) (ifindex m) (lo_ifindex m) (packets_read m)
               (mmapbuf m) (mmapbuflen m) (vlan_offset m) (tp_version m) (tp_hdrlen m) p (proc_dropped m)).

Definition with_socket (h : linux) (old is_cooked : bool) : linux :=
  let m := md h in
  with_md h (Md (stat m) (use_bpf m) (timeout m) old is_cooked (ifindex m) (lo_ifindex m) (packets_read m)
               (mmapbuf m) (mmapbuflen m) (vlan_offset m) (tp_version m) (tp_hdrlen m) (oneshot_buffer m) (proc_dropped m)).
Definition with_ifindex (h : linux) (i : Z) : linux :=
  let m := md h in
  with_md h (Md (stat m) (use_bpf m) (timeout m) (sock_packet m) (cooked m) i (lo_ifindex m) (packets_read m)
               (mmapbuf m) (mmapbuflen m) (vlan_offset m) (tp_version m) (tp_hdrlen m) (oneshot_buffer m) (proc_dropped m)).
Definition with_lo_ifindex (h : linux) (i : Z) : linux :=
  let m := md h in
  with_md h (Md (stat m) (use_bpf m) (timeout m) (sock_packet m) (cooked m) (ifindex m) i (packets_read m)
               (mmapbuf m) (mmapbuflen m) (vlan_offset m) (tp_version m) (tp_hdrlen m) (oneshot_buffer m) (proc_dropped m)).
Definition with_vlan_offset (h : linux) (n : Z) : linux :=
  let m := md h in
  with_md h (Md (stat m) (use_bpf m) (timeout m) (sock_packet m) (cooked m) (ifindex m) (lo_ifindex m) (packets_read m)
               (mmapbuf m) (mmapbuflen m) n (tp_version m) (tp_hdrlen m) (oneshot_buffer m) (proc_dropped m)).
Definition with_linktype (h : linux) (dlt : Z) : linux :=
  let p := l_p h in with_p h (Pcap (snapshot p) dlt (linktype_ext p) (tzoff p) (activated p) (break_loop p) (bufsize p) (fcode p) (sf p)).
Definition with_snapshot (h : linux) (n : Z) : linux :=
  let p := l_p h in with_p h (Pcap n (linktype p) (linktype_ext p) (tzoff p) (activated p) (break_loop p) (bufsize p) (fcode p) (sf p)).

(** ** The address of a packet and the header made of it *)

(** [struct sockaddr_ll]; [sll_protocol] is in network order. *)
Record sockaddr_ll := SockaddrLl {
  sll_protocol : Z; sll_ifindex : Z; sll_hatype : Z; sll_pkttype : Z; sll_halen : Z; sll_addr : list byte }.

Definition htons (x : Z) : Z := SWAPSHORT (u16 x).

(** A [short], -1 for the other types. *)
Definition map_packet_type_to_sll_type (sll_pkttype : Z) : Z :=
  if sll_pkttype =? PACKET_HOST then htons LINUX_SLL_HOST
  else if sll_pkttype =? PACKET_BROADCAST then htons LINUX_SLL_BROADCAST
  else if sll_pkttype =? PACKET_MULTICAST then htons LINUX_SLL_MULTICAST
  else if sll_pkttype =? PACKET_OTHERHOST then htons LINUX_SLL_OTHERHOST
  else if sll_pkttype =? PACKET_OUTGOING then htons LINUX_SLL_OUTGOING
  else -1.

(** The bytes of a [struct sll_header] with the address bytes [addr]. *)
Definition sll_header (from : sockaddr_ll) (addr : list byte) : list byte :=
  le_split 2 (u16 (map_packet_type_to_sll_type (sll_pkttype from))) ++ le_split 2 (htons (sll_hatype from))
  ++ le_split 2 (htons (sll_halen from)) ++ addr ++ le_split 2 (sll_protocol from).
