(* ===== verification/LinuxFilter.v ===== *)
(** [pcap-linux.c]: the installation of a filter in the kernel -
    [fix_program], [set_kernel_filter], [pcap_setfilter_linux_common]. *)
From S2P Require Import Prelude CString CFile Bpf BpfFilter BpfValidate PcapInt Savefile Pcap LinuxInt.

#[local] Open Scope Z_scope.
#[local] Open Scope c_scope.

(** ** [fix_offset] and [fix_program] *)

Definition insn_k (i : bpf_insn) (kk : Z) : bpf_insn := Insn (code i) (jt i) (jf i) (u32 kk).

(** [None] is the return of -1.  [p->k] is unsigned. *)
Definition fix_offset (p : bpf_insn) : option bpf_insn :=
  if SLL_HDR_LEN <=? k p then Some (insn_k p (k p - SLL_HDR_LEN))
  else if k p =? 0 then Some (insn_k p (SKF_AD_OFF + SKF_AD_PKTTYPE))
  else if k p =? 14 then Some (insn_k p (SKF_AD_OFF + SKF_AD_PROTOCOL))
  else if 0 <? i32 (k p) then None
  else Some p.

Definition fix_insn (is_cooked is_mmapped : bool) (p : bpf_insn) : option bpf_insn :=
  let cls := BPF_CLASS (code p) in
  if cls =? BPF_RET then
    Some (if negb is_mmapped && (BPF_MODE (code p) =? BPF_K) && negb (k p =? 0) then insn_k p 65535 else p)
  else if (cls =? BPF_LD) || (cls =? BPF_LDX) then
    let mode := BPF_MODE (code p) in
    if ((mode =? BPF_ABS) || (mode =? BPF_IND) || (mode =? BPF_MSH)) && is_cooked then fix_offset p else Some p
  else Some p.

(** The loop over the copy of the program. *)
Fixpoint fix_insns (is_cooked is_mmapped : bool) (f : program) : option program :=
  match f with
  | [] => Some []
  | p :: f =>
      match fix_insn is_cooked is_mmapped p with
      | None => None
      | Some p =>
          match fix_insns is_cooked is_mmapped f with
          | None => None
          | Some f => Some (p :: f)
          end
      end
  end.

Inductive fix_result := FixNomem | FixPunt | FixDone (f : program).

Definition fix_program (malloc_ok : Z -> bool) (h : linux) (f : program) (is_mmapped : bool) : fix_result :=
  if negb (malloc_ok (8 * lenZ f)) then FixNomem
  else match fix_insns (cooked (md h)) is_mmapped f with Some f => FixDone f | None => FixPunt end.

(** ** The socket

    The filter attached to the socket and the packets queued on it, and what
    the system calls return: [None], or [errno]. *)
Record socket (packet : Type) := Socket { attached : option program; queued : list packet }.
Arguments Socket {packet}.
Arguments attached {packet}.
Arguments queued {packet}.

Record calls := Calls {
  attach_total : option Z;     (* SO_ATTACH_FILTER of the total filter *)
  getfl_ok : bool;             (* F_GETFL *)
  setfl_ok : bool;             (* F_SETFL *)
  recv_errno : Z;              (* of the [recv] that ends the loop *)
  attach_filter : option Z;    (* SO_ATTACH_FILTER of the filter *)
  detach : option Z }.         (* SO_DETACH_FILTER *)

Definition total_fcode : program := [BPF_STMT (BPF_RET .| BPF_K) 0].

Section Install.
Context {packet : Type} (sys : calls).

Definition setsockopt_attach (r : option Z) (f : program) (s : socket packet) : socket packet :=
  match r with None => Socket (Some f) (queued s) | Some _ => s end.

Definition reset_kernel_filter (s : socket packet) : option Z * socket packet :=
  (detach sys, match detach sys with None => Socket None (queued s) | Some _ => s end).

(** The loop of [recv]s, while the total filter lets nothing in. *)
Definition drain (s : socket packet) : socket packet := Socket (attached s) [].

(** 0, -1 and [errno], or -2. *)
Inductive attach_result := Attached | AttachFailed (errno : Z) | DrainFailed (errno : Z).

Definition attach_new_filter (f : program) (total_filter_on : bool) (s : socket packet) : attach_result * socket packet :=
  let s := setsockopt_attach (attach_filter sys) f s in
  match attach_filter sys with
  | None => (Attached, s)
  | Some errno => (AttachFailed errno, if total_filter_on then (reset_kernel_filter s).2 else s)
  end.

Definition set_kernel_filter (f : program) (s : socket packet) : attach_result * socket packet :=
  match attach_total sys with
  | Some _ => attach_new_filter f false s
  | None =>
      let s := setsockopt_attach None total_fcode s in
      if getfl_ok sys && setfl_ok sys then
        let s := drain s in
        if negb (recv_errno sys =? EAGAIN) then (DrainFailed (recv_errno sys), (reset_kernel_filter s).2)
        else attach_new_filter f true s
      else attach_new_filter f true s
  end.

(** ** [pcap_setfilter_linux_common] *)

(** What is written to the standard error stream. *)
Inductive warning := FilterTooComplex | KernelFilterFailed (errno : Z).

Context (malloc_ok : Z -> bool).

(** From the call of [set_kernel_filter] on. *)
Definition install_kernel (h : linux) (fixed : option program) (w : list warning) (s : socket packet)
    : Z * linux * socket packet * list warning :=
  let '(r, s) := match fixed with
                 | Some f => let '(r, s) := set_kernel_filter f s in (Some r, s)
                 | None => (None, s)
                 end in
  let '(h, w) := match r with
                 | Some Attached => (with_use_bpf h 1, w)
                 | Some (AttachFailed errno) =>
                     (h, if (errno =? ENOPROTOOPT) || (errno =? EOPNOTSUPP) then w else (w ++ [KernelFilterFailed errno])%list)
                 | Some (DrainFailed _) | None => (h, w)
                 end in
  let s := if use_bpf (md h) =? 0 then (reset_kernel_filter s).2 else s in
  (match r with Some (DrainFailed _) => -1 | _ => 0 end, h, s, w).

Definition pcap_setfilter_linux_common (h : linux) (filter : option program) (is_mmapped : bool) (s : socket packet)
    : Z * linux * socket packet * list warning :=
  match filter with
  | None => (-1, h, s, [])
  | Some f =>
      match install_bpf_program malloc_ok (l_p h) f with
      | (Some _, p) => (-1, with_p h p, s, [])
      | (None, p) =>
          let h := with_use_bpf (with_p h p) 0 in
          if USHRT_MAX <? lenZ f then install_kernel h None [FilterTooComplex] s
          else
            match fix_program malloc_ok h f is_mmapped with
            | FixNomem => (-1, h, s, [])
            | FixPunt => install_kernel h None [] s
            | FixDone g => install_kernel h (Some g) [] s
            end
      end
  end.

Definition pcap_setfilter_linux (h : linux) (filter : option program) (s : socket packet)
    : Z * linux * socket packet * list warning := pcap_setfilter_linux_common h filter false s.
End Install.
