(* ===== verification/LinuxFilterSpec.v ===== *)
(** What [fix_program] and [pcap_setfilter_linux_common] promise: the program
    that the kernel gets judges a packet as the one that the library keeps,
    and the socket never keeps a filter that does not belong to it. *)
From S2P Require Import Prelude CString CFile Bpf BpfFilter BpfValidate PcapInt Savefile Pcap LinuxInt LinuxFilter.

#[local] Open Scope Z_scope.
#[local] Open Scope c_scope.

(** ** The filter machine of the kernel

    What the kernel's machine loads is a parameter: [kload s off] is the value
    at the offset [off], an [int], or [None] when it rejects the packet, and
    [klen] the length that it loads.  All the rest is the machine of
    [bpf_filter]. *)
Section Kernel.
Context (kload : size -> Z -> option Z) (klen : Z).

Definition kloaded (r : option Z) (f : Z -> step_result) : step_result :=
  match r with Some v => f v | None => Done (Returned 0) end.

Definition kexec (i : bpf_insn) (m : machine) (o : opcode) : step_result :=
  match o with
  | LdAbs s => kloaded (kload s (abs_off i)) (setA m)
  | LdInd s => kloaded (kload s (ind_off m i)) (setA m)
  | LdxMsh => kloaded (kload B (abs_off i)) (fun b => setX m ((b .& 0xf) << 2))
  | LdLen => setA m klen
  | LdxLen => setX m klen
  | o => exec i [] 0 0 m o
  end.

Definition kstep (f : program) (m : machine) : step_result :=
  match nthZ f (rpc m) with
  | None => Done (Faulted (BadPc (rpc m)))
  | Some i =>
      match decode (code i) with
      | None => Done (Faulted (Aborted (code i)))
      | Some o => kexec i m o
      end
  end.

Fixpoint krun (fuel : nat) (f : program) (m : machine) : option outcome :=
  match fuel with
  | O => None
  | S fuel => match kstep f m with Done o => Some o | Next m => krun fuel f m end
  end.

(** What the documentation of socket filters says of the loads: a packet of a
    raw socket is loaded from its link-layer header on; that of a cooked one
    from the network header on, and its protocol and packet type are at the
    offsets of the ancillary data. *)
Record loads (is_cooked : bool) (from : sockaddr_ll) (payload : list byte) (wirelen : Z) := Loads {
  kl_packet s off : 0 <= off < 2 ^ 31 -> kload s off = be_combine <$> sub off (size_bytes s) payload;
  kl_pkttype s : is_cooked = true -> kload s (SKF_AD_OFF + SKF_AD_PKTTYPE) = Some (sll_pkttype from);
  kl_protocol s : is_cooked = true -> kload s (SKF_AD_OFF + SKF_AD_PROTOCOL) = Some (htons (sll_protocol from));
  kl_len : is_cooked = false -> klen = wirelen }.
End Kernel.

(** The packet as the application sees it, and [bpf_filter]. *)
Definition user_packet (is_cooked : bool) (from : sockaddr_ll) (payload : list byte) : list byte :=
  if is_cooked then (sll_header from (sll_addr from) ++ payload)%list else payload.

Definition sockaddr_ok (from : sockaddr_ll) : Prop :=
  is_u 16 (sll_protocol from) /\ 0 <= sll_pkttype from <= PACKET_OUTGOING /\ length (sll_addr from) = 8%nat.

(** ** Programs that can be moved

    Loads from the payload, and of the two fields that the kernel has. *)
Definition header_len (is_cooked : bool) : Z := if is_cooked then SLL_HDR_LEN else 0.
Definition is_half (s : size) : bool := match s with H => true | _ => false end.
Definition portable (is_cooked : bool) (i : bpf_insn) : bool :=
  let hdr := header_len is_cooked in
  match decode (code i) with
  | Some (LdAbs s) =>
      ((hdr <=? k i) && (k i <? 2 ^ 31)) || (is_cooked && is_half s && ((k i =? 0) || (k i =? 14)))
  | Some (LdInd _) => (hdr <=? k i) && (k i <? 2 ^ 31 - 60)
  | Some LdxMsh => (hdr <=? k i) && (k i <? 2 ^ 31)
  | Some LdLen => negb is_cooked
  | Some _ => true
  | None => false
  end.

(** ** The header *)

Lemma two_bytes v : is_u 16 v -> exists a b, v = le_combine [a; b].
Proof.
  intros Hv. pose proof (le_combine_split 2 v) as H. rewrite Z.mod_small in H by clia.
  destruct (le_split 2 v) as [|a [|b [|]]] eqn:E; try (apply (f_equal length) in E; rewrite length_le_split in E; done).
  by exists a, b.
Qed.
Lemma two_split a b : le_split 2 (le_combine [a; b]) = [a; b].
Proof. exact (split_le_combine [a; b]). Qed.

Lemma htons_bytes v : is_u 16 v -> le_split 2 (htons v) = be_split 2 v.
Proof.
  intros Hv. unfold htons, be_split. rewrite (uwrap_id 16) by done. destruct (two_bytes v Hv) as (a & b & ->).
  by rewrite SWAPSHORT_bytes, !two_split.
Qed.

Lemma pkttype_bytes t : 0 <= t <= PACKET_OUTGOING ->
  le_split 2 (u16 (map_packet_type_to_sll_type t)) = be_split 2 t.
Proof.
  unfold PACKET_OUTGOING. intros Ht.
  assert (t = 0 \/ t = 1 \/ t = 2 \/ t = 3 \/ t = 4) as [->|[->|[->|[->| ->]]]] by lia; reflexivity.
Qed.

Lemma protocol_bytes v : is_u 16 v -> be_combine (le_split 2 v) = htons v.
Proof.
  intros Hv. unfold htons, be_combine. rewrite (uwrap_id 16) by done. destruct (two_bytes v Hv) as (a & b & ->).
  by rewrite SWAPSHORT_bytes, !two_split.
Qed.

Lemma length_sll_header from addr : length (sll_header from addr) = (8 + length addr)%nat.
Proof. unfold sll_header. rewrite !length_app, !length_le_split. lia. Qed.

(** ** One instruction *)

(** The same next state, or verdicts that agree: equal ones if [exact]. *)
Definition agree (exact : bool) (r r' : step_result) : Prop :=
  r' = r \/ exists v v', r = Done (Returned v) /\ r' = Done (Returned v') /\ (v = 0 <-> v' = 0) /\ (exact = true -> v' = v).

Lemma load_in_range s p off : 0 <= off < 2 ^ 31 ->
  load s p (lenZ p) off = match sub off (size_bytes s) p with Some bs => Loaded (be_combine bs) | None => Short end.
Proof.
  intros Ho. unfold load, too_short, extract, lenZ. pose proof (size_bytes_bound s) as Hs.
  assert (Hlt : (match s with B => Z.of_nat (length p) <=? u32 off | _ => Z.of_nat (length p) <? u64 (off + size_bytes s) end)
                = (Z.of_nat (length p) <? off + size_bytes s)).
  { destruct s; cbn [size_bytes] in *; [rewrite (uwrap_id 64) by clia; done..|].
    rewrite (uwrap_id 32) by clia. apply eq_true_iff_eq. rewrite Z.leb_le, Z.ltb_lt. lia. }
  rewrite Hlt. destruct (Z.ltb_spec (Z.of_nat (length p)) (off + size_bytes s)); [rewrite sub_None by lia; done|].
  by rewrite sub_Some by lia.
Qed.

Lemma sub_app_r {A} off n (a b : list A) : lenZ a <= off -> sub off n (a ++ b) = sub (off - lenZ a) n b.
Proof.
  unfold lenZ. intros Ha. unfold sub. rewrite length_app, drop_app_ge by lia.
  replace (Z.to_nat (off - Z.of_nat (length a))) with (Z.to_nat off - length a)%nat by lia.
  replace (off - Z.of_nat (length a) + n <=? Z.of_nat (length b)) with (off + n <=? Z.of_nat (length a + length b)).
  2: { apply eq_true_iff_eq. rewrite !Z.leb_le. lia. }
  by rewrite (proj2 (Z.leb_le 0 off)), (proj2 (Z.leb_le 0 (off - _))) by lia.
Qed.

Lemma loaded_sub s q off f :
  with_loaded (match sub off (size_bytes s) q with Some bs => Loaded (be_combine bs) | None => Short end) f =
  kloaded (be_combine <$> sub off (size_bytes s) q) f.
Proof. by destruct (sub _ _ _). Qed.

Lemma fix_insn_decoded is_cooked is_mmapped i o : decode (code i) = Some o ->
  fix_insn is_cooked is_mmapped i =
  match o with
  | RetK | RetA => Some (if negb is_mmapped && negb (k i =? 0) then insn_k i 65535 else i)
  | LdAbs _ | LdInd _ | LdxMsh => if is_cooked then fix_offset i else Some i
  | _ => Some i
  end.
Proof.
  intros E%decode_Some. unfold fix_insn. rewrite E. opcode_cases o; try reflexivity;
    destruct is_cooked; try reflexivity; by destruct is_mmapped.
Qed.

(** A load from the payload. *)
Lemma fix_offset_payload (is_cooked : bool) i : insn_ok i -> header_len is_cooked <= k i ->
  (if is_cooked then fix_offset i else Some i) = Some (insn_k i (k i - header_len is_cooked)).
Proof.
  intros (_ & _ & _ & Hk) Hi. unfold header_len in *. destruct is_cooked.
  - unfold fix_offset. by rewrite (proj2 (Z.leb_le _ _) Hi).
  - unfold insn_k. rewrite Z.sub_0_r, (uwrap_id 32) by done. by destruct i.
Qed.

Lemma header_len_range (is_cooked : bool) : 0 <= header_len is_cooked <= 16.
Proof. unfold header_len, SLL_HDR_LEN. destruct is_cooked; lia. Qed.

Lemma insn_k_off kk : 0 <= kk < 2 ^ 31 -> forall i, abs_off (insn_k i kk) = kk /\ k (insn_k i kk) = kk.
Proof.
  intros Hk i. unfold abs_off, insn_k. cbn [k]. rewrite (uwrap_id 32) by clia. split; [|done]. apply swrap_id; clia.
Qed.

Section Fixed.
Context (kload : size -> Z -> option Z) (klen : Z) (is_cooked : bool) (from : sockaddr_ll)
        (payload : list byte) (wirelen : Z).
Context (Hl : loads kload klen is_cooked from payload wirelen) (Hfrom : sockaddr_ok from).
Let hdr := header_len is_cooked.
Let p := user_packet is_cooked from payload.

Lemma user_packet_sub off n : hdr <= off -> sub off n p = sub (off - hdr) n payload.
Proof using All.
  intros Ho. destruct Hfrom as (_ & _ & Ha). unfold p, user_packet, hdr, header_len in *. destruct is_cooked.
  - rewrite sub_app_r by (unfold lenZ; rewrite length_sll_header, Ha; exact Ho).
    unfold lenZ. rewrite length_sll_header, Ha. done.
  - by rewrite Z.sub_0_r.
Qed.

Lemma payload_load s off : hdr <= off < 2 ^ 31 ->
  forall f, with_loaded (load s p (lenZ p) off) f = kloaded (kload s (off - hdr)) f.
Proof using All.
  intros Ho f. assert (0 <= hdr) by (unfold hdr, header_len, SLL_HDR_LEN; destruct is_cooked; lia).
  rewrite load_in_range by lia. rewrite (kl_packet _ _ _ _ _ _ Hl) by lia.
  rewrite user_packet_sub by lia. apply loaded_sub.
Qed.

Lemma header_half off v : is_cooked = true -> sub off 2 (sll_header from (sll_addr from)) = Some (be_split 2 v) ->
  is_u 16 v -> 0 <= off < 16 -> forall f, with_loaded (load H p (lenZ p) off) f = f v.
Proof using All.
  intros Hc Hs Hv Ho f. rewrite load_in_range by lia. cbn [size_bytes].
  assert (E : sub off 2 p = Some (be_split 2 v)).
  { unfold p, user_packet. rewrite Hc. pose proof (sub_Some_inv _ _ _ _ Hs) as (_ & _ & Hle & _).
    revert Hs. unfold sub. rewrite length_app. rewrite !(proj2 (Z.leb_le _ _)) by lia.
    cbn [andb]. intros [= <-]. rewrite drop_app_le by lia. by rewrite take_app_le by (rewrite length_drop; lia). }
  rewrite E, be_combine_split. cbn [with_loaded]. f_equal. apply Z.mod_small. clia.
Qed.

(** The two fields of the header. *)
Lemma special_load i : is_cooked = true -> k i = 0 \/ k i = 14 ->
  exists i', fix_offset i = Some i' /\ code i' = code i /\
  forall f, with_loaded (load H p (lenZ p) (abs_off i)) f = kloaded (kload H (abs_off i')) f.
Proof using All.
  intros Hc Hi. pose proof Hfrom as (Hp & Ht & Ha). unfold fix_offset, SLL_HDR_LEN.
  destruct Hi as [Hi|Hi]; rewrite Hi; cbn [Z.leb Z.eqb Z.compare Pos.compare Pos.compare_cont]; eexists; (split; [reflexivity|]);
    (split; [reflexivity|]); intros f; unfold abs_off at 1; rewrite Hi.
  - change (i32 0) with 0. change (abs_off _) with (SKF_AD_OFF + SKF_AD_PKTTYPE). rewrite (kl_pkttype _ _ _ _ _ _ Hl) by done.
    cbn [kloaded]. apply (header_half 0); [done| |unfold PACKET_OUTGOING in Ht; clia|lia].
    rewrite sub_Some by (rewrite ?length_sll_header; lia). unfold sll_header. rewrite pkttype_bytes by done.
    change (Z.to_nat 0) with 0%nat. change (Z.to_nat 2) with 2%nat.
    by rewrite drop_0, take_app_le, firstn_all2 by (rewrite length_be_split; lia).
  - change (i32 14) with 14. change (abs_off _) with (SKF_AD_OFF + SKF_AD_PROTOCOL). rewrite (kl_protocol _ _ _ _ _ _ Hl) by done.
    cbn [kloaded]. assert (Hh : is_u 16 (htons (sll_protocol from))).
    { rewrite <- protocol_bytes by done. pose proof (be_combine_bound (le_split 2 (sll_protocol from))) as Hb.
      rewrite length_le_split in Hb. exact Hb. }
    apply (header_half 14); [done| |done|lia].
    rewrite sub_Some by (rewrite ?length_sll_header, ?Ha; lia). rewrite <- protocol_bytes by done.
    pose proof (be_split_combine (le_split 2 (sll_protocol from))) as E. rewrite length_le_split in E. rewrite E.
    unfold sll_header. f_equal. rewrite !app_assoc. rewrite drop_app_ge; rewrite !length_app, !length_le_split, Ha; [|lia].
    cbn [Nat.sub Nat.add Z.to_nat Pos.to_nat Pos.iter_op]. rewrite drop_0, firstn_all2 by (rewrite length_le_split; lia). done.
Qed.

Context (is_mmapped : bool).

(** An instruction and what it becomes. *)
Record moved (i i' : bpf_insn) := Moved {
  mv_code : code i' = code i;
  mv_jt : jt i' = jt i;
  mv_jf : jf i' = jf i;
  mv_valid len n o : decode (code i) = Some o -> checked len n i o -> checked len n i' o;
  mv_exec m o : decode (code i) = Some o -> small_X m ->
    agree is_mmapped (exec i p wirelen (lenZ p) m o) (kexec kload klen i' m o) }.

Lemma agree_same r : agree is_mmapped r r.
Proof using Type. by left. Qed.

Lemma moved_same i o : decode (code i) = Some o ->
  (forall m, small_X m -> kexec kload klen i m o = exec i p wirelen (lenZ p) m o) -> moved i i.
Proof using Type.
  intros Hd He. constructor; try done. intros m o' Hd' Hm. rewrite Hd in Hd'. injection Hd' as <-. rewrite He by done.
  by left.
Qed.

Lemma moved_load i o : decode (code i) = Some o -> (forall len n j, checked len n j o) -> insn_ok i ->
  (forall m, small_X m -> kexec kload klen (insn_k i (k i - hdr)) m o = exec i p wirelen (lenZ p) m o) ->
  moved i (insn_k i (k i - hdr)).
Proof using Type.
  intros Hd Hc Hi He. constructor; try done.
  - intros len n o' Hd' _. rewrite Hd in Hd'. injection Hd' as <-. apply Hc.
  - intros m o' Hd' Hm. rewrite Hd in Hd'. injection Hd' as <-. rewrite He by done. by left.
Qed.

Lemma moved_ret i o : decode (code i) = Some o -> o = RetK \/ o = RetA -> insn_ok i ->
  moved i (if negb is_mmapped && negb (k i =? 0) then insn_k i 65535 else i).
Proof using Type.
  intros Hd Ho Hi. destruct (negb is_mmapped && negb (k i =? 0)) eqn:E.
  - apply andb_prop in E as [E1 E2]. constructor; try done.
    + intros len n o' Hd' _. rewrite Hd in Hd'. injection Hd' as <-. by destruct Ho; subst.
    + intros m o' Hd' _. rewrite Hd in Hd'. injection Hd' as <-. destruct Ho; subst; [|by left].
      right. exists (k i), 65535. split_and!; try done; [lia|]. by destruct is_mmapped.
  - apply (moved_same i o Hd). intros m _. by destruct Ho; subst.
Qed.

(** Loads at an offset that the instruction alone gives, and with [X]. *)
Lemma exec_abs i s : hdr <= k i < 2 ^ 31 -> forall m,
  kexec kload klen (insn_k i (k i - hdr)) m (LdAbs s) = exec i p wirelen (lenZ p) m (LdAbs s).
Proof using All.
  intros Hk m. pose proof (header_len_range is_cooked) as Hh. fold hdr in Hh. cbn [kexec exec].
  rewrite (proj1 (insn_k_off (k i - hdr) ltac:(lia) i)). symmetry. unfold abs_off. rewrite (swrap_id 32) by clia. by apply payload_load.
Qed.

Lemma exec_ind i s : hdr <= k i < 2 ^ 31 - 60 -> forall m, small_X m ->
  kexec kload klen (insn_k i (k i - hdr)) m (LdInd s) = exec i p wirelen (lenZ p) m (LdInd s).
Proof using All.
  intros Hk m Hm. pose proof (header_len_range is_cooked) as Hh. fold hdr in Hh. unfold small_X in Hm. cbn [kexec exec]. unfold ind_off.
  rewrite (proj2 (insn_k_off (k i - hdr) ltac:(lia) i)). rewrite !(uwrap_id 32), !(swrap_id 32) by clia.
  symmetry. rewrite payload_load by lia. do 2 f_equal. lia.
Qed.

Lemma exec_msh i : hdr <= k i < 2 ^ 31 -> forall m,
  kexec kload klen (insn_k i (k i - hdr)) m LdxMsh = exec i p wirelen (lenZ p) m LdxMsh.
Proof using All.
  intros Hk m. pose proof (header_len_range is_cooked) as Hh. fold hdr in Hh. cbn [kexec exec].
  rewrite (proj1 (insn_k_off (k i - hdr) ltac:(lia) i)). rewrite <- payload_load by lia.
  unfold load, too_short, abs_off. rewrite (swrap_id 32) by clia. by destruct (_ <=? _).
Qed.

Lemma fix_moved i : insn_ok i -> strict_insn i = true -> portable is_cooked i = true ->
  exists i', fix_insn is_cooked is_mmapped i = Some i' /\ moved i i'.
Proof using All.
  intros Hi Hst Hp. unfold portable, strict_insn in *. destruct (decode (code i)) as [o|] eqn:Hd; [|done].
  rewrite (fix_insn_decoded _ _ _ _ Hd). fold hdr in Hp.
  assert (Hsame : (forall m, small_X m -> kexec kload klen i m o = exec i p wirelen (lenZ p) m o) ->
                  exists i', Some i = Some i' /\ moved i i') by (intros He; exists i; eauto using moved_same).
  destruct o; try done; try (apply Hsame; intros; reflexivity); try (eexists; split; [reflexivity|]; eapply moved_ret; eauto).
  - apply orb_prop in Hp as [Hp|Hp].
    + rewrite fix_offset_payload by (done || fold hdr; lia). eexists. split; [done|].
      apply (moved_load _ _ Hd); [done..|]. intros. apply exec_abs. lia.
    + apply andb_prop in Hp as [[Hc Hs]%andb_prop Hk]. destruct s; try done.
      destruct (special_load i Hc ltac:(lia)) as (i' & E & Hcode & He). rewrite Hc in *. exists i'. split; [done|].
      assert (Hj : jt i' = jt i /\ jf i' = jf i).
      { unfold fix_offset in E. repeat case_match; by simplify_eq. }
      constructor; try tauto.
      * intros len n o' Hd' _. rewrite Hd in Hd'. by injection Hd' as <-.
      * intros m o' Hd' _. rewrite Hd in Hd'. injection Hd' as <-. left. symmetry. apply He.
  - apply Hsame. intros m _. cbn. by rewrite (kl_len _ _ _ _ _ _ Hl) by (by apply negb_true_iff).
  - rewrite fix_offset_payload by (done || fold hdr; lia). eexists. split; [done|].
    apply (moved_load _ _ Hd); [done..|]. intros. apply exec_ind; [|done]. destruct s; lia.
  - rewrite fix_offset_payload by (done || fold hdr; lia). eexists. split; [done|].
    apply (moved_load _ _ Hd); [done..|]. intros. apply exec_msh. lia.
Qed.

(** ** The program *)

Lemma fix_insns_moved f : prog_ok f -> strict f = true -> forallb (portable is_cooked) f = true ->
  exists g, fix_insns is_cooked is_mmapped f = Some g /\ Forall2 moved f g.
Proof using All.
  induction f as [|i f IH]; intros Hok Hst Hp; [by exists []|]. inversion Hok as [|? ? Hi Hok']; subst.
  cbn [strict forallb] in Hst, Hp. apply andb_prop in Hst as [Hsi Hst], Hp as [Hpi Hp].
  destruct (fix_moved i Hi Hsi Hpi) as (i' & E & Hm). destruct (IH Hok' Hst Hp) as (g & Eg & Hg).
  exists (i' :: g). cbn [fix_insns]. rewrite E, Eg. split; [done|by constructor].
Qed.

Lemma strict_decodes i : strict_insn i = true -> exists o, decode (code i) = Some o.
Proof using Type. unfold strict_insn. destruct (decode (code i)); [eauto|done]. Qed.

Lemma moved_validate_from len n f g : Forall2 moved f g -> strict f = true ->
  bpf_validate_from len n f = true -> bpf_validate_from len n g = true.
Proof using Type.
  intros Hg. revert n. induction Hg as [|i i' f g Hm _ IH]; intros n Hst; [done|].
  cbn [strict forallb] in Hst. apply andb_prop in Hst as [Hsi Hst]. destruct (strict_decodes i Hsi) as [o Ho].
  cbn [bpf_validate_from]. destruct (bpf_validate_insn len n i) eqn:E; [|done]. intros Hv.
  rewrite (checked_validate_insn len n i' o); [by apply IH|by rewrite (mv_code _ _ Hm)|].
  apply (mv_valid _ _ Hm); [done|]. by apply validate_insn_checked.
Qed.

Lemma moved_last f g : Forall2 moved f g -> code <$> last g = code <$> last f.
Proof using Type.
  induction 1 as [|i i' f g Hm Hg IH]; [done|]. destruct Hg; [cbn; by rewrite (mv_code _ _ Hm)|exact IH].
Qed.

Lemma moved_validate f g : Forall2 moved f g -> strict f = true -> bpf_validate f = true -> bpf_validate g = true.
Proof using Type.
  intros Hg Hst. unfold bpf_validate. rewrite <- (Forall2_length _ _ _ Hg). destruct (_ <? 1); [done|].
  destruct (bpf_validate_from _ 0 f) eqn:E; [|done]. rewrite (moved_validate_from _ _ _ _ Hg Hst E).
  pose proof (moved_last f g Hg) as Hla. destruct (last f), (last g); try done. cbn in Hla. by injection Hla as ->.
Qed.

Lemma moved_run fuel f g : Forall2 moved f g -> strict f = true -> forall m v, small_X m ->
  run fuel f p wirelen (lenZ p) m = Some (Returned v) ->
  exists v', krun kload klen fuel g m = Some (Returned v') /\ (v = 0 <-> v' = 0) /\ (is_mmapped = true -> v' = v).
Proof using Type.
  intros Hg Hst. induction fuel as [|fuel IH]; intros m v Hx; [done|]. cbn [run krun]. unfold step, kstep, nthZ.
  destruct (rpc m <? 0); [done|]. destruct (f !! Z.to_nat (rpc m)) as [i|] eqn:Hi; [|done].
  destruct (Forall2_lookup_l _ _ _ _ _ Hg Hi) as (i' & -> & Hm). rewrite (mv_code _ _ Hm).
  assert (Hsi : strict_insn i = true).
  { eapply List.forallb_forall in Hst; [exact Hst|]. apply list_elem_of_In. by eapply list_elem_of_lookup_2. }
  destruct (decode (code i)) as [o|] eqn:Hd; [|done].
  destruct (mv_exec _ _ Hm m o Hd Hx) as [->|(v1 & v' & -> & -> & H0 & Hex)].
  - destruct (exec i p wirelen (lenZ p) m o) as [m'|[w|e]] eqn:E; [|intros [= ->]; by exists v|done].
    apply IH. by eapply exec_small_X.
  - intros [= <-]. by exists v'.
Qed.
End Fixed.

(** ** Properties *)

(** C8: What the kernel gets is equivalent to the program of the application:
    if a strict program looks, in cooked mode, at nothing of the header but its
    packet type and its protocol, and does not ask for the length, it can be
    moved to the kernel, the checker accepts what it becomes, and on every
    packet that is captured whole the kernel rejects what [bpf_filter] rejects
    and accepts what it accepts, with the same length if the capture is
    mapped. *)
Theorem fix_program_correct malloc_ok h f is_mmapped kload klen from payload wirelen mem0 :
  malloc_ok (8 * lenZ f) = true -> prog_ok f -> lenZ f < 2 ^ 31 -> bpf_validate f = true -> strict f = true ->
  forallb (portable (cooked (md h))) f = true -> mem_ok mem0 ->
  loads kload klen (cooked (md h)) from payload wirelen -> sockaddr_ok from -> is_u 32 wirelen ->
  let p := user_packet (cooked (md h)) from payload in lenZ p <= 2 ^ 31 ->
  exists g v v', fix_program malloc_ok h f is_mmapped = FixDone g /\ bpf_validate g = true /\
    bpf_filter (S (length f)) mem0 (Some f) p wirelen (lenZ p) = Some (Returned v) /\
    krun kload klen (S (length g)) g (init_machine mem0) = Some (Returned v') /\
    (v = 0 <-> v' = 0) /\ (is_mmapped = true -> v' = v).
Proof.
  intros Hma Hok Hlen Hval Hst Hp Hmem Hl Hfrom Hw p Hle. unfold fix_program. rewrite Hma. cbn [negb].
  destruct (fix_insns_moved _ _ _ _ _ _ Hl Hfrom is_mmapped f Hok Hst Hp) as (g & -> & Hg).
  destruct (strict_total f p wirelen (lenZ p) mem0) as (v & Hr & _); try done; [unfold lenZ; lia|].
  destruct (moved_run _ _ _ _ _ _ _ _ _ _ Hg Hst (init_machine mem0) v ltac:(unfold small_X; cbn; lia) Hr) as (v' & Hr' & H0 & Hex).
  exists g, v, v'. rewrite <- (Forall2_length _ _ _ Hg). split_and!; try done. by eapply moved_validate.
Qed.

(** What a program says of a packet, and whether the packet reaches the
    application: it has to pass the filter on the socket, and that of the
    library if the kernel is not trusted with it. *)
Definition accepts (o : option outcome) : option bool :=
  match o with Some (Returned v) => Some (negb (v =? 0)) | _ => None end.
Definition reaches {packet} (kload : size -> Z -> option Z) (klen : Z) (h : linux) (s : socket packet)
    (mem0 : list Z) (p : list byte) (wirelen : Z) : option bool :=
  match attached s with
  | Some g =>
      match accepts (krun kload klen (S (length g)) g (init_machine mem0)) with
      | Some true => if use_bpf (md h) =? 0
                     then match fcode (l_p h) with
                          | Some f => accepts (bpf_filter (S (length f)) mem0 (Some f) p wirelen (lenZ p))
                          | None => Some true
                          end
                     else Some true
      | r => r
      end
  | None => if use_bpf (md h) =? 0
            then match fcode (l_p h) with
                 | Some f => accepts (bpf_filter (S (length f)) mem0 (Some f) p wirelen (lenZ p))
                 | None => Some true
                 end
            else Some true
  end.

(** When the socket can be freed of its filter, the kernel's is there exactly
    if the library relies on it. *)
Lemma install_kernel_state {packet} sys h fixed w (s : socket packet) r h' s' w' :
  detach sys = None -> use_bpf (md h) = 0 -> install_kernel sys h fixed w s = (r, h', s', w') ->
  h' = with_use_bpf h (use_bpf (md h')) /\
  ((use_bpf (md h') = 0 /\ attached s' = None) \/
   (use_bpf (md h') = 1 /\ (exists g, fixed = Some g /\ attached s' = Some g) /\
    (attach_total sys = None -> getfl_ok sys = true -> setfl_ok sys = true -> queued s' = []))).
Proof.
  intros Hd Hb. unfold install_kernel, set_kernel_filter, attach_new_filter, reset_kernel_filter. rewrite Hd.
  assert (Hh : h = with_use_bpf h (use_bpf (md h))) by (by destruct h as [? [] ? ? ?]).
  destruct fixed as [g|]; [|rewrite Hb; intros [= <- <- <- <-]; by auto].
  destruct (attach_total sys) as [e|] eqn:Et.
  - destruct (attach_filter sys) as [e'|] eqn:Ea; cbn.
    + rewrite Hb. intros [= <- <- <- <-]. by auto.
    + intros [= <- <- <- <-]. split; [done|]. right. split_and!; try done. by exists g.
  - destruct (getfl_ok sys && setfl_ok sys) eqn:Eg; cbn.
    + destruct (negb _); cbn; [rewrite Hb; intros [= <- <- <- <-]; by auto|].
      destruct (attach_filter sys) as [e'|] eqn:Ea; cbn; [rewrite Hb; intros [= <- <- <- <-]; by auto|].
      intros [= <- <- <- <-]. split; [done|]. right. split_and!; try done. by exists g.
    + destruct (attach_filter sys) as [e'|] eqn:Ea; cbn; [rewrite Hb; intros [= <- <- <- <-]; by auto|].
      intros [= <- <- <- <-]. split; [done|]. right. split_and!; try done; [by exists g|].
      intros _ H1 H2. by rewrite H1, H2 in Eg.
Qed.

Lemma setfilter_common_state {packet} sys malloc_ok h f is_mmapped (s : socket packet) h' s' w :
  (forall n, malloc_ok n = true) -> detach sys = None -> bpf_validate f = true ->
  pcap_setfilter_linux_common sys malloc_ok h (Some f) is_mmapped s = (0, h', s', w) ->
  h' = with_use_bpf (with_p h (with_fcode (l_p h) (Some f))) (use_bpf (md h')) /\
  ((use_bpf (md h') = 0 /\ attached s' = None) \/
   (use_bpf (md h') = 1 /\ (exists g, fix_insns (cooked (md h)) is_mmapped f = Some g /\ attached s' = Some g) /\
    (attach_total sys = None -> getfl_ok sys = true -> setfl_ok sys = true -> queued s' = []))).
Proof.
  intros Hma Hd Hval. unfold pcap_setfilter_linux_common, install_bpf_program. rewrite Hval, Hma. cbn [negb].
  set (h1 := with_p _ _). set (h0 := with_use_bpf h1 0).
  assert (Hk : forall fixed w0, (forall g, fixed = Some g -> fix_insns (cooked (md h)) is_mmapped f = Some g) ->
    install_kernel sys h0 fixed w0 s = (0, h', s', w) ->
    h' = with_use_bpf h1 (use_bpf (md h')) /\
    ((use_bpf (md h') = 0 /\ attached s' = None) \/
     (use_bpf (md h') = 1 /\ (exists g, fix_insns (cooked (md h)) is_mmapped f = Some g /\ attached s' = Some g) /\
      (attach_total sys = None -> getfl_ok sys = true -> setfl_ok sys = true -> queued s' = [])))).
  { intros fixed w0 Hfix Hi. apply install_kernel_state in Hi as (Hh & Hc); [|done|done]. split; [exact Hh|].
    destruct Hc as [Hc|(Hb & (g & -> & Ha) & Hq)]; [by left|]. right. split_and!; try done. exists g. split; [by apply Hfix|done]. }
  destruct (USHRT_MAX <? lenZ f); [by apply Hk|]. unfold fix_program. rewrite Hma. cbn [negb].
  change (cooked (md h0)) with (cooked (md h)). destruct (fix_insns (cooked (md h)) is_mmapped f) as [g|]; [|by apply Hk].
  intros Hi. eapply (Hk (Some g)); [|exact Hi]. by intros ? [= <-].
Qed.

(** C7: Let [pcap_setfilter] get a strict program that the checker accepts,
    whose loads are portable unless it is one that cannot be fixed for the
    kernel, let memory be available, and let detaching a filter, if it is
    tried, succeed.  Whatever the other system calls answer, if it returns 0
    the application gets exactly those packets that the program accepts: those
    that the kernel's copy accepts, if it is installed, and otherwise those
    that [bpf_filter] accepts.  The packets are as the kernel gives them, with
    the header of cooked mode but before a VLAN tag is put back.  And when the
    kernel filters and the total filter could be used, no packet from before
    is left in the queue. *)
Theorem setfilter_linux_exact {packet} sys malloc_ok h f is_mmapped (s : socket packet) h' s' w kload klen from payload wirelen mem0 :
  (forall n, malloc_ok n = true) -> detach sys = None ->
  prog_ok f -> lenZ f < 2 ^ 31 -> bpf_validate f = true -> strict f = true ->
  (fix_insns (cooked (md h)) is_mmapped f = None \/ forallb (portable (cooked (md h))) f = true) -> mem_ok mem0 ->
  loads kload klen (cooked (md h)) from payload wirelen -> sockaddr_ok from -> is_u 32 wirelen ->
  let p := user_packet (cooked (md h)) from payload in lenZ p <= 2 ^ 31 ->
  pcap_setfilter_linux_common sys malloc_ok h (Some f) is_mmapped s = (0, h', s', w) ->
  (exists v, bpf_filter (S (length f)) mem0 (Some f) p wirelen (lenZ p) = Some (Returned v) /\
             reaches kload klen h' s' mem0 p wirelen = Some (negb (v =? 0))) /\
  (use_bpf (md h') <> 0 -> attach_total sys = None -> getfl_ok sys = true -> setfl_ok sys = true -> queued s' = []).
Proof.
  intros Hma Hd Hok Hlen Hval Hst Hp Hmem Hl Hfrom Hw p Hle Hset.
  destruct (setfilter_common_state _ _ _ _ _ _ _ _ _ Hma Hd Hval Hset) as (Hh & Hc).
  destruct (strict_total f p wirelen (lenZ p) mem0) as (v & Hr & _); try done; [unfold lenZ; lia|].
  assert (Hf : fcode (l_p h') = Some f) by (by rewrite Hh).
  destruct Hc as [(Hb & Ha)|(Hb & (g & Eg & Ha) & Hq)]; (split; [exists v; split; [done|]; unfold reaches; rewrite Ha, Hb|by rewrite ?Hb; auto]).
  - rewrite Hf. cbn [Z.eqb bpf_filter]. by rewrite Hr.
  - destruct Hp as [Hn|Hp]; [by rewrite Hn in Eg|].
    destruct (fix_insns_moved _ _ _ _ _ _ Hl Hfrom is_mmapped f Hok Hst Hp) as (g' & E & Hg). rewrite E in Eg. injection Eg as ->.
    destruct (moved_run _ _ _ _ _ _ _ _ _ _ Hg Hst (init_machine mem0) v ltac:(unfold small_X; cbn; lia) Hr) as (v' & Hr' & H0 & _).
    rewrite <- (Forall2_length _ _ _ Hg), Hr'. cbn [accepts].
    replace (v' =? 0) with (v =? 0) by (apply eq_true_iff_eq; rewrite !Z.eqb_eq; tauto). by destruct (v =? 0).
Qed.

(** ** A kernel

    Loads as the documentation has them, that reject everything else. *)
Definition kernel_load (is_cooked : bool) (from : sockaddr_ll) (payload : list byte) (s : size) (off : Z) : option Z :=
  if 0 <=? off then be_combine <$> sub off (size_bytes s) payload
  else if negb is_cooked then None
  else if off =? SKF_AD_OFF + SKF_AD_PKTTYPE then Some (sll_pkttype from)
  else if off =? SKF_AD_OFF + SKF_AD_PROTOCOL then Some (htons (sll_protocol from))
  else None.

Lemma kernel_loads is_cooked from payload wirelen :
  loads (kernel_load is_cooked from payload) wirelen is_cooked from payload wirelen.
Proof.
  constructor; [|by intros s ->..|done]. intros s off Ho. unfold kernel_load. by rewrite (proj2 (Z.leb_le 0 off)) by lia.
Qed.

(** The filter [port 4567 and udp] as it is compiled for the [any] device. *)
Definition any_program : program :=
  [Insn 40 0 0 14; Insn 21 0 8 34525; Insn 48 0 0 22; Insn 21 19 0 132; Insn 21 18 0 6; Insn 21 0 17 17; Insn 40 0 0 56;
   Insn 21 14 0 4567; Insn 40 0 0 58; Insn 21 12 13 4567; Insn 21 0 12 2048; Insn 48 0 0 25; Insn 21 10 0 132; Insn 21 9 0 6;
   Insn 21 0 8 17; Insn 40 0 0 22; Insn 69 6 0 8191; Insn 177 0 0 16; Insn 72 0 0 16; Insn 21 2 0 4567; Insn 72 0 0 18;
   Insn 21 0 1 4567; Insn 6 0 0 8192; Insn 6 0 0 0].

(** A capture in cooked mode, and an incoming datagram over IPv4 to port 4567. *)
Definition cooked_md : pcap_md := Md (Stat 0 0 0) 0 1000 false true (-1) 1 0 0 0 14 TPACKET_V2 32 0 0.
Definition cooked_capture : linux := Linux (Pcap 8192 113 0 0 true false 0 None sf0) cooked_md 0 0 PCAP_D_INOUT.
Definition from_host : sockaddr_ll := SockaddrLl (htons 0x800) 2 1 PACKET_HOST 6 (repeat (byte.of_Z 0) 8).
Definition udp_payload : list byte := map byte.of_Z
  [0x45; 0; 0; 32; 0; 1; 0; 0; 64; 17; 0; 0; 10; 0; 0; 1; 10; 0; 0; 2; 0x30; 0x39; 0x11; 0xd7; 0; 12; 0; 0; 1; 2; 3; 4].

Lemma any_program_ok : prog_ok any_program.
Proof. apply prog_okb. vm_compute. reflexivity. Qed.

Lemma from_host_ok : sockaddr_ok from_host.
Proof. unfold sockaddr_ok. vm_compute. repeat split; discriminate. Qed.

Lemma fix_program_correct_witness : exists g v v', fix_program (fun _ => true) cooked_capture any_program false = FixDone g /\
  bpf_filter 25 zero_mem (Some any_program) (user_packet true from_host udp_payload) 48 48 = Some (Returned v) /\
  krun (kernel_load true from_host udp_payload) 32 25 g (init_machine zero_mem) = Some (Returned v') /\
  v = 8192 /\ v' = 65535.
Proof.
  destruct (fix_program_correct (fun _ => true) cooked_capture any_program false
              (kernel_load true from_host udp_payload) 32 from_host udp_payload 32 zero_mem)
    as (g & v & v' & Hf & _ & Hr & Hk & _ & _);
    [reflexivity|exact any_program_ok|reflexivity|reflexivity|reflexivity|reflexivity|exact zero_mem_ok
    |apply kernel_loads|exact from_host_ok|vm_compute; split; discriminate||reflexivity|vm_compute; discriminate|].
  exists g, v, v'. vm_compute in Hf. injection Hf as <-. vm_compute in Hr, Hk. split_and!.
  - reflexivity.
  - vm_compute. exact Hr.
  - vm_compute. exact Hk.
  - congruence.
  - congruence.
Defined.

(** System calls that all succeed. *)
Definition all_succeed : calls := Calls None true true EAGAIN None None.

Lemma setfilter_linux_exact_witness : exists h' s' v,
  pcap_setfilter_linux all_succeed (fun _ => true) cooked_capture (Some any_program) (Socket None [udp_payload]) = (0, h', s', []) /\
  use_bpf (md h') = 1 /\ queued s' = [] /\ v <> 0 /\
  reaches (kernel_load true from_host udp_payload) 32 h' s' zero_mem (user_packet true from_host udp_payload) 32 = Some (negb (v =? 0)).
Proof.
  destruct (pcap_setfilter_linux all_succeed (fun _ => true) cooked_capture (Some any_program) (Socket None [udp_payload]))
    as [[[r h'] s'] w] eqn:E.
  assert (Hr : r = 0 /\ w = [] /\ use_bpf (md h') = 1) by (vm_compute in E; injection E as <- <- <- <-; done).
  destruct Hr as (-> & -> & Hu).
  destruct (setfilter_linux_exact all_succeed (fun _ => true) cooked_capture any_program false (Socket None [udp_payload]) h' s' []
              (kernel_load true from_host udp_payload) 32 from_host udp_payload 32 zero_mem) as [(v & Hv & Hp) Hq];
    [done|reflexivity|exact any_program_ok|reflexivity|reflexivity|reflexivity|right; reflexivity|exact zero_mem_ok
    |apply kernel_loads|exact from_host_ok|vm_compute; split; discriminate||reflexivity|vm_compute; discriminate|exact E|].
  exists h', s', v. split_and!; [done|done|apply Hq; congruence||reflexivity| |done].
  vm_compute in Hv. injection Hv as <-. discriminate.
Defined.
