(* ===== verification/LinuxRing.v ===== *)
(** [pcap-linux.c]: reading packets from the ring that the kernel shares with
    the library - [pcap_get_ring_frame], [pcap_read_linux_mmap] - and what goes
    with it: [pcap_setfilter_linux_mmap], [pcap_setnonblock_mmap],
    [pcap_oneshot_mmap]. *)
From S2P Require Import Prelude CString CFile Bpf BpfFilter PcapInt Savefile Pcap LinuxInt LinuxFilter.

#[local] Open Scope Z_scope.
#[local] Open Scope c_scope.

(** ** The ring *)

(** A frame: the fields of its [struct tpacket_hdr] or [struct tpacket2_hdr],
    the address after it, and all of its bytes.  [tp_frac] is [tp_usec] or
    [tp_nsec]; a frame of version 1 has no [tp_vlan_tci]. *)
Record frame := Frame {
  tp_status : Z; tp_len : Z; tp_mac : Z; tp_snaplen : Z; tp_sec : Z; tp_frac : Z; tp_vlan_tci : Z;
  f_sll : sockaddr_ll; f_mem : list byte }.

Definition with_status (f : frame) (s : Z) : frame :=
  Frame s (tp_len f) (tp_mac f) (tp_snaplen f) (tp_sec f) (tp_frac f) (tp_vlan_tci f) (f_sll f) (f_mem f).
Definition with_mem (f : frame) (m : list byte) : frame :=
  Frame (tp_status f) (tp_len f) (tp_mac f) (tp_snaplen f) (tp_sec f) (tp_frac f) (tp_vlan_tci f) (f_sll f) m.

(** What C leaves undefined: a frame outside the ring, bytes outside the
    frame, a write over the frame's header, or a filter that faults or does not
    end. *)
Inductive ring_fault := R_frame | R_bytes | R_header | R_filter (why : undefined).

Definition get_frame (ring : list frame) (i : Z) : ring_fault + frame :=
  match nthZ ring i with Some f => inr f | None => inl R_frame end.

(** [None] is [NULL]. *)
Definition pcap_get_ring_frame (ring : list frame) (h : linux) (i status : Z) : ring_fault + option frame :=
  match get_frame ring i with
  | inl e => inl e
  | inr f =>
      if (tp_version (md h) =? TPACKET_V1) || (tp_version (md h) =? TPACKET_V2) then
        inr (if status =? (if tp_status f =? 0 then TP_STATUS_KERNEL else TP_STATUS_USER) then Some f else None)
      else inr (Some f)
  end.

(** ** [pcap_setnonblock_mmap] and [pcap_getnonblock_mmap] *)

Definition pcap_getnonblock_mmap (h : linux) : Z := if timeout (md h) <? 0 then 1 else 0.
Definition pcap_setnonblock_mmap (h : linux) (nonblock : bool) : Z * linux :=
  (0, if nonblock then if 0 <=? timeout (md h) then with_timeout h (Z.lnot (timeout (md h))) else h
      else if timeout (md h) <? 0 then with_timeout h (Z.lnot (timeout (md h))) else h).

(** ** Waiting for a frame *)

(** An answer of [poll]: interrupted, where a signal handler may have called
    [pcap_breakloop]; another error; no frame in time; or events, with the
    answer of the [recv] that an error asks for ([None] is no error). *)
Inductive poll_result :=
| PollEintr (breaks : bool)
| PollError (errno : Z)
| PollTimeout (breaks : bool)
| PollEvents (hup err nval : bool) (recv : option Z) (breaks : bool).

Inductive ring_error :=
| E_poll (errno : Z) | E_hangup | E_iface_down | E_socket (errno : Z) | E_polling_request
| E_version_unsupported (v : Z) | E_corrupted_frame | E_no_room.
(** The value that a read returns, with the message if it is -1. *)
Inductive ring_result := RingRet (n : Z) | RingErr (e : ring_error) | RingFault (e : ring_fault) | RingFuel.

Definition poll_timeout (h : linux) : Z :=
  if timeout (md h) =? 0 then -1 else if 0 <? timeout (md h) then timeout (md h) else 0.

Definition break_flag (h : linux) : bool := break_loop (l_p h).
Definition set_break_flag (h : linux) (b : bool) : linux := with_p h (with_break_loop (l_p h) b).
Definition or_break (h : linux) (b : bool) : linux := if b then set_break_flag h true else h.

(** The [do] loop: [inr] when the frames are to be looked at. *)
Fixpoint poll_loop (polls : list poll_result) (h : linux) : (ring_result * linux) + linux :=
  let check h := if break_flag h then inl (RingRet PCAP_ERROR_BREAK, set_break_flag h false) else inr h in
  match polls with
  | [] => inl (RingFuel, h)
  | PollError e :: _ => inl (RingErr (E_poll e), h)
  | PollEintr b :: polls =>
      match check (or_break h b) with inl r => inl r | inr h => poll_loop polls h end
  | PollTimeout b :: _ => check (or_break h b)
  | PollEvents hup err nval recv b :: _ =>
      let h := or_break h b in
      if hup then inl (RingErr E_hangup, h)
      else if err then
        match recv with
        | None => inr h
        | Some e => inl (RingErr (if e =? ENETDOWN then E_iface_down else E_socket e), h)
        end
      else if nval then inl (RingErr E_polling_request, h)
      else check h
  end.

(** ** One frame *)

(** Bytes stored at [pos]; nothing may be stored over the header. *)
Definition header_end (h : linux) : Z := TPACKET_ALIGN (tp_hdrlen (md h)) + sizeof_sockaddr_ll.
Definition put (h : linux) (pos : Z) (bs : list byte) (m : list byte) : ring_fault + list byte :=
  if pos <? header_end h then inl R_header
  else if lenZ m <? pos + lenZ bs then inl R_bytes
  else inr (take (Z.to_nat pos) m ++ bs ++ drop (Z.to_nat (pos + lenZ bs)) m)%list.
Definition peek (pos n : Z) (m : list byte) : ring_fault + list byte :=
  match sub pos n m with Some bs => inr bs | None => inl R_bytes end.

(** A packet under construction: [bp], the bytes of the frame, [pcaphdr]. *)
Record built := Built { bp : Z; b_mem : list byte; b_hdr : pcap_pkthdr }.

Definition longer (p : pcap_pkthdr) (n : Z) : pcap_pkthdr :=
  Pkthdr (tv_sec p) (tv_usec p) (u32 (caplen p + n)) (u32 (len p + n)).

Definition add_sll (h : linux) (f : frame) (b : built) : ring_result + built :=
  if negb (cooked (md h)) then inr b
  else
    let pos := bp b - SLL_HDR_LEN in
    if pos <? header_end h then inl (RingErr E_no_room)
    else
      match put h pos (sll_header (f_sll f) (sll_addr (f_sll f))) (b_mem b) with
      | inl e => inl (RingFault e)
      | inr m => inr (Built pos m (longer (b_hdr b) SLL_HDR_LEN))
      end.

Definition has_vlan (h : linux) (f : frame) : bool :=
  (tp_version (md h) =? TPACKET_V2)
  && (negb (tp_vlan_tci f =? 0) || negb (tp_status f .& TP_STATUS_VLAN_VALID =? 0))
  && negb (vlan_offset (md h) =? -1) && (u32 (vlan_offset (md h)) <=? tp_snaplen f).

Definition vlan_tag (tci : Z) : list byte := le_split 2 (htons ETH_P_8021Q) ++ le_split 2 (htons tci).

Definition add_vlan (h : linux) (f : frame) (b : built) : ring_result + built :=
  if negb (has_vlan h f) then inr b
  else
    let pos := bp b - VLAN_TAG_LEN in
    match peek (pos + VLAN_TAG_LEN) (vlan_offset (md h)) (b_mem b) with
    | inl e => inl (RingFault e)
    | inr macs =>
        match put h pos macs (b_mem b) with
        | inl e => inl (RingFault e)
        | inr m =>
            match put h (pos + vlan_offset (md h)) (vlan_tag (tp_vlan_tci f)) m with
            | inl e => inl (RingFault e)
            | inr m => inr (Built pos m (longer (b_hdr b) VLAN_TAG_LEN))
            end
        end
    end.

Definition trim (h : linux) (p : pcap_pkthdr) : pcap_pkthdr :=
  if u32 (snapshot (l_p h)) <? caplen p then Pkthdr (tv_sec p) (tv_usec p) (u32 (snapshot (l_p h))) (len p) else p.

(** The checks of the direction. *)
Definition right_direction (h : linux) (f : frame) : bool :=
  if sll_pkttype (f_sll f) =? PACKET_OUTGOING then
    if sll_ifindex (f_sll f) =? lo_ifindex (md h) then false else negb (direction h =? PCAP_D_IN)
  else negb (direction h =? PCAP_D_OUT).

Section Read.
(** The contents of the scratch memory of [bpf_filter]. *)
Context (mem0 : list Z).

(** [run_bpf], and the counter [use_bpf] after it. *)
Definition count_bpf (n : Z) : bool * Z :=
  if n =? 0 then (true, n) else if 1 <? n then (true, n - 1) else (false, n).

Definition pass_filter (h : linux) (f : frame) : ring_fault + bool :=
  match fcode (l_p h) with
  | None => inr true
  | Some _ =>
      match peek (tp_mac f) (tp_snaplen f) (f_mem f) with
      | inl e => inl e
      | inr data =>
          match filter_packet mem0 (fcode (l_p h)) (Pkthdr 0 0 (tp_snaplen f) (tp_len f)) data with
          | inl why => inl (R_filter why)
          | inr b => inr b
          end
      end
  end.

(** What the application gets of a frame: nothing, or the header, the bytes
    and the frame as it is then. *)
Inductive frame_result :=
| FrameSkip
| FramePacket (p : pcap_pkthdr) (data : list byte) (m : list byte)
| FrameStop (r : ring_result).

Definition usec_of (h : linux) (f : frame) : Z :=
  if tp_version (md h) =? TPACKET_V2 then tp_frac f / 1000 else tp_frac f.

Definition build_packet (h : linux) (f : frame) : frame_result :=
  let b := Built (tp_mac f) (f_mem f) (Pkthdr (tp_sec f) (usec_of h f) (tp_snaplen f) (tp_len f)) in
  match add_sll h f b with
  | inl r => FrameStop r
  | inr b =>
      match add_vlan h f b with
      | inl r => FrameStop r
      | inr b =>
          let p := trim h (b_hdr b) in
          match peek (bp b) (caplen p) (b_mem b) with
          | inl e => FrameStop (RingFault e)
          | inr data => FramePacket p data (b_mem b)
          end
      end
  end.

(** From the [switch] on the version to the call of the application. *)
Definition handle_frame (h : linux) (f : frame) : frame_result * linux :=
  if negb ((tp_version (md h) =? TPACKET_V1) || (tp_version (md h) =? TPACKET_V2)) then
    (FrameStop (RingErr (E_version_unsupported (tp_version (md h)))), h)
  else if u32 (bufsize (l_p h)) <? u32 (tp_mac f + tp_snaplen f) then (FrameStop (RingErr E_corrupted_frame), h)
  else
    let '(run_bpf, n) := count_bpf (use_bpf (md h)) in
    let h := with_use_bpf h n in
    match (if run_bpf then pass_filter h f else inr true) with
    | inl e => (FrameStop (RingFault e), h)
    | inr false => (FrameSkip, h)
    | inr true => if right_direction h f then (build_packet h f, h) else (FrameSkip, h)
    end.

(** ** The loop *)

(** What the kernel does to the ring before the library looks at it for the
    [n]th time; the application's function, which may call [pcap_breakloop]. *)
Context (kernel : nat -> list frame -> list frame).
Context {user_t : Type} (callback : user_t -> pcap_pkthdr -> list byte -> user_t * bool).

(** The label [skip]: the frame goes back to the kernel. *)
Definition release (ring : list frame) (h : linux) : list frame * linux :=
  (alter (fun f => with_status f TP_STATUS_KERNEL) (Z.to_nat (offset h)) ring,
   with_offset h (if cc h <=? offset h + 1 then 0 else offset h + 1)).

(** One turn of the [while] loop: the state after it, and the value returned if
    the turn is the last. *)
Definition ring_turn (ring : list frame) (h : linux) (pkts : Z) (u : user_t)
    : option ring_result * list frame * linux * Z * user_t :=
  match pcap_get_ring_frame ring h (offset h) TP_STATUS_USER with
  | inl e => (Some (RingFault e), ring, h, pkts, u)
  | inr None => (Some (RingRet pkts), ring, h, pkts, u)
  | inr (Some f) =>
      match handle_frame h f with
      | (FrameStop r, h) => (Some r, ring, h, pkts, u)
      | (r, h) =>
          let '(ring, h, pkts, u) :=
            match r with
            | FramePacket p data m =>
                let ring := alter (fun f => with_mem f m) (Z.to_nat (offset h)) ring in
                let '(u, brk) := callback u p data in
                let h := with_packets_read (or_break h brk) (u32 (packets_read (md h) + 1)) in
                (ring, h, pkts + 1, u)
            | _ => (ring, h, pkts, u)
            end in
          let '(ring, h) := release ring h in
          if break_flag h then (Some (RingRet PCAP_ERROR_BREAK), ring, set_break_flag h false, pkts, u)
          else (None, ring, h, pkts, u)
      end
  end.

Fixpoint ring_loop (fuel n : nat) (ring : list frame) (h : linux) (max_packets pkts : Z) (u : user_t)
    : ring_result * list frame * linux * user_t :=
  if negb ((pkts <? max_packets) || (max_packets <=? 0)) then (RingRet pkts, ring, h, u)
  else
    match fuel with
    | O => (RingFuel, ring, h, u)
    | S fuel =>
        match ring_turn (kernel n ring) h pkts u with
        | (Some r, ring, h, _, u) => (r, ring, h, u)
        | (None, ring, h, pkts, u) => ring_loop fuel (S n) ring h max_packets pkts u
        end
    end.

(** [polls] is what [poll] answers to its timeout. *)
Definition pcap_read_linux_mmap (fuel : nat) (polls : Z -> list poll_result) (ring : list frame) (h : linux)
    (max_packets : Z) (u : user_t) : ring_result * list frame * linux * user_t :=
  let ring := kernel 0 ring in
  match pcap_get_ring_frame ring h (offset h) TP_STATUS_USER with
  | inl e => (RingFault e, ring, h, u)
  | inr r =>
      match (match r with Some _ => inr h | None => poll_loop (polls (poll_timeout h)) h end) with
      | inl (r, h) => (r, ring, h, u)
      | inr h => ring_loop fuel 1 ring h max_packets 0 u
      end
  end.
End Read.

(** [pcap_oneshot_mmap]: the packet is copied, since its frame is released. *)
Definition pcap_oneshot_mmap (_ : option (pcap_pkthdr * list byte)) (p : pcap_pkthdr) (bytes : list byte)
    : option (pcap_pkthdr * list byte) := Some (p, bytes).

(** ** [pcap_setfilter_linux_mmap] *)

Definition back (h : linux) (i : Z) : Z := if i - 1 <? 0 then cc h - 1 else i - 1.

(** The loop that counts the free frames backward, from [n] on. *)
Fixpoint count_free (fuel : nat) (ring : list frame) (h : linux) (i n : Z) : ring_fault + Z :=
  match fuel with
  | O => inr n
  | S fuel =>
      let i := back h i in
      match pcap_get_ring_frame ring h i TP_STATUS_KERNEL with
      | inl e => inl e
      | inr None => inr n
      | inr (Some _) => count_free fuel ring h i (n + 1)
      end
  end.

Inductive setfilter_result := SetRet (r : Z) | SetFault (e : ring_fault).

Definition pcap_setfilter_linux_mmap {packet} (sys : calls) (malloc_ok : Z -> bool) (ring : list frame) (h : linux)
    (filter : option program) (s : socket packet) : setfilter_result * linux * socket packet * list warning :=
  let '(ret, h, s, w) := pcap_setfilter_linux_common sys malloc_ok h filter true s in
  if ret <? 0 then (SetRet ret, h, s, w)
  else if use_bpf (md h) =? 0 then (SetRet ret, h, s, w)
  else
    match count_free (Z.to_nat (cc h)) ring h (back h (offset h)) 0 with
    | inl e => (SetFault e, h, s, w)
    | inr n => (SetRet ret, with_use_bpf h (1 + (cc h - n)), s, w)
    end.
