(* ===== verification/LinuxRingSpec.v ===== *)
(** What reading from the ring promises: the packets that the application gets
    are those that the kernel put into the ring, each once and in order, as far
    as the filter accepts them, however the kernel and the library take turns. *)
From S2P Require Import Prelude CString CFile Bpf BpfFilter BpfValidate PcapInt Savefile Pcap LinuxInt LinuxFilter LinuxFilterSpec LinuxRing.

#[local] Open Scope Z_scope.
#[local] Open Scope c_scope.

(** ** The window of the ring

    The frames that are the library's are the [pending] ones, from the reading
    position on; the others are the kernel's. *)
Section Window.
Context (N : nat) (HN : (0 < N)%nat).

Definition slot (off i : nat) : nat := (off + i) mod N.

Record window (ring : list frame) (off : nat) (pending : list frame) : Prop := Window {
  w_off : (off < N)%nat;
  w_ring : length ring = N;
  w_pending : (length pending <= N)%nat;
  w_user i f : pending !! i = Some f -> ring !! slot off i = Some f /\ tp_status f <> 0;
  w_kernel i : (length pending <= i < N)%nat -> exists f, ring !! slot off i = Some f /\ tp_status f = 0 }.

Lemma slot_lt off i : (slot off i < N)%nat.
Proof using HN. apply Nat.mod_upper_bound. lia. Qed.

Lemma slot_val off i : (off < N)%nat -> (i <= N)%nat -> slot off i = (if off + i <? N then off + i else off + i - N)%nat.
Proof using HN.
  intros Ho Hi. unfold slot. destruct (Nat.ltb_spec (off + i) N); [by apply Nat.mod_small|].
  replace (off + i)%nat with (off + i - N + 1 * N)%nat at 1 by lia. rewrite Nat.Div0.mod_add. apply Nat.mod_small. lia.
Qed.

Lemma slot_inj off i j : (off < N)%nat -> (i < N)%nat -> (j < N)%nat -> slot off i = slot off j -> i = j.
Proof using HN.
  intros Ho Hi Hj. rewrite !slot_val by lia. destruct (Nat.ltb_spec (off + i) N), (Nat.ltb_spec (off + j) N); lia.
Qed.

Lemma slot_succ off i : (off < N)%nat -> slot (slot off 1) i = slot off (S i).
Proof using HN.
  intros Ho. unfold slot. rewrite Nat.Div0.add_mod_idemp_l. f_equal. lia.
Qed.

(** The kernel puts a frame where its position is. *)
Lemma window_put ring off pending f g : window ring off pending ->
  ring !! slot off (length pending) = Some g -> tp_status g = 0 -> tp_status f <> 0 ->
  window (<[slot off (length pending) := f]> ring) off (pending ++ [f]).
Proof using HN.
  intros [Ho Hr Hp Hu Hk] Hg H0 Hf. assert (Hlt : (length pending < N)%nat).
  { destruct (decide (length pending = N)) as [E|]; [|lia]. exfalso. destruct pending as [|f0 pending']; [cbn in E; lia|].
    destruct (Hu 0%nat f0 eq_refl) as [H1 H2]. rewrite E in Hg.
    assert (Es : slot off N = slot off 0). { unfold slot. rewrite Nat.add_0_r, <- (Nat.mul_1_l N) at 1. apply Nat.Div0.mod_add. }
    rewrite Es, H1 in Hg. injection Hg as <-. done. }
  constructor; [done|by rewrite length_insert|rewrite length_app; cbn; lia| |].
  - intros i f'. rewrite lookup_app. destruct (pending !! i) as [f1|] eqn:E.
    + intros [= <-]. destruct (Hu i f1 E) as [H1 H2]. split; [|done]. apply lookup_lt_Some in E.
      rewrite list_lookup_insert_ne; [done|]. intros Eq. apply slot_inj in Eq; lia.
    + apply lookup_ge_None in E. intros Hi. destruct (decide (i = length pending)) as [->|Hne].
      * rewrite Nat.sub_diag in Hi. injection Hi as <-. split; [|done]. apply list_lookup_insert_eq. rewrite Hr. apply slot_lt.
      * destruct (i - length pending)%nat as [|] eqn:Ei; [lia|done].
  - intros i. rewrite length_app. cbn [length]. intros Hi. destruct (Hk i ltac:(lia)) as (f' & H1 & H2). exists f'. split; [|done].
    rewrite list_lookup_insert_ne; [done|]. intros Eq. apply slot_inj in Eq; lia.
Qed.

(** The library gives the first of its frames back. *)
Lemma window_release ring off pending f k : window ring off (f :: pending) ->
  (forall f, tp_status (k f) = 0) -> window (alter k off ring) (slot off 1) pending.
Proof using HN.
  intros [Ho Hr Hp Hu Hk] H0. cbn [length] in *.
  assert (Hz : slot off 0 = off) by (unfold slot; rewrite Nat.add_0_r; by apply Nat.mod_small).
  assert (Hne : forall i, (S i < N)%nat -> slot off (S i) <> off).
  { intros i Hi Eq. rewrite <- Hz in Eq at 2. apply slot_inj in Eq; lia. }
  constructor; [apply slot_lt|by rewrite length_alter|lia| |].
  - intros i f' Hi. rewrite slot_succ by done. pose proof (lookup_lt_Some _ _ _ Hi).
    rewrite list_lookup_alter_ne by (apply not_eq_sym, Hne; lia). exact (Hu (S i) f' Hi).
  - intros i Hi. rewrite slot_succ by done. destruct (decide (i = (N - 1)%nat)) as [->|].
    + replace (slot off (S (N - 1))) with off.
      2: { rewrite slot_val by lia. destruct (Nat.ltb_spec (off + S (N - 1)) N); lia. }
      destruct (Hu 0%nat f eq_refl) as [H1 _]. rewrite Hz in H1. exists (k f). by rewrite list_lookup_alter_eq, H1.
    + destruct (Hk (S i) ltac:(lia)) as (f' & H1 & H2). exists f'. split; [|done].
      rewrite list_lookup_alter_ne by (apply not_eq_sym, Hne; lia). done.
Qed.

Lemma window_first ring off pending : window ring off pending ->
  exists g, ring !! off = Some g /\ (tp_status g = 0 <-> pending = []) /\ (pending = [] \/ head pending = Some g).
Proof using HN.
  intros [Ho Hr Hp Hu Hk]. assert (Hz : slot off 0 = off) by (unfold slot; rewrite Nat.add_0_r; by apply Nat.mod_small).
  destruct pending as [|f pending].
  - destruct (Hk 0%nat ltac:(cbn; lia)) as (g & Hg & H0). rewrite Hz in Hg. exists g. split_and!; [done|tauto|by left].
  - destruct (Hu 0%nat f eq_refl) as [Hg H0]. rewrite Hz in Hg. exists f. split_and!; [done|split; done|by right].
Qed.
End Window.

(** ** Looking at a frame *)

Definition known_version (h : linux) : bool := (tp_version (md h) =? TPACKET_V1) || (tp_version (md h) =? TPACKET_V2).

Lemma ring_frame_at h ring i status f : known_version h = true -> nthZ ring i = Some f ->
  pcap_get_ring_frame ring h i status =
  inr (if status =? (if tp_status f =? 0 then TP_STATUS_KERNEL else TP_STATUS_USER) then Some f else None).
Proof. unfold known_version, pcap_get_ring_frame, get_frame. by intros -> ->. Qed.

Lemma nthZ_nat {A} (l : list A) (i : nat) : nthZ l (Z.of_nat i) = l !! i.
Proof. unfold nthZ. rewrite (proj2 (Z.ltb_ge (Z.of_nat i) 0)) by lia. by rewrite Nat2Z.id. Qed.

(** ** Counting the free frames *)

Section Count.
Context (N : nat) (HN : (0 < N)%nat) (h : linux) (Hcc : cc h = Z.of_nat N) (Hv : known_version h = true).
Context (ring : list frame) (off : nat) (pending : list frame) (Hw : window N ring off pending).

Lemma back_slot x : (0 < x < N)%nat -> back h (Z.of_nat (slot N off x)) = Z.of_nat (slot N off (x - 1)).
Proof using All.
  intros Hx. destruct Hw as [Ho _ _ _ _]. unfold back. rewrite Hcc, !slot_val by lia.
  destruct (Nat.ltb_spec (off + x) N), (Nat.ltb_spec (off + (x - 1)) N);
    match goal with |- context [?a <? ?b] => destruct (Z.ltb_spec a b) end; lia.
Qed.

Lemma back_first : back h (Z.of_nat off) = Z.of_nat (slot N off (N - 1)).
Proof using All.
  destruct Hw as [Ho _ _ _ _]. unfold back. rewrite Hcc, slot_val by lia.
  destruct (Nat.ltb_spec (off + (N - 1)) N);
    match goal with |- context [?a <? ?b] => destruct (Z.ltb_spec a b) end; lia.
Qed.

(** A look at the [x]th frame of the window. *)
Lemma look x : (x < N)%nat -> exists r, pcap_get_ring_frame ring h (Z.of_nat (slot N off x)) TP_STATUS_KERNEL = inr r /\
  (r = None <-> (x < length pending)%nat).
Proof using All.
  intros Hx. destruct Hw as [Ho Hr Hp Hu Hk]. destruct (decide (x < length pending)%nat) as [Hlt|Hge].
  - destruct (lookup_lt_is_Some_2 pending x Hlt) as [f Hf]. destruct (Hu x f Hf) as [Hg H0].
    exists None. rewrite (ring_frame_at h ring _ _ f) by (done || by rewrite nthZ_nat).
    destruct (Z.eqb_spec (tp_status f) 0); [done|]. by split.
  - destruct (Hk x ltac:(lia)) as (f & Hg & H0). exists (Some f).
    rewrite (ring_frame_at h ring _ _ f) by (done || by rewrite nthZ_nat). rewrite H0. split; [done|split; [done|lia]].
Qed.

Lemma count_from fuel : forall x n, (length pending <= x < N)%nat -> (0 < length pending)%nat ->
  exists n', count_free fuel ring h (Z.of_nat (slot N off x)) n = inr n' /\ n <= n' <= n + Z.of_nat (x - length pending).
Proof using All.
  induction fuel as [|fuel IH]; intros x n Hx Hp; cbn [count_free]; [exists n; split; [done|lia]|].
  rewrite back_slot by lia. destruct (look (x - 1) ltac:(lia)) as (r & -> & Hr). destruct r as [f|].
  - assert (~ (x - 1 < length pending)%nat) by (intros H; by apply Hr in H).
    destruct (IH (x - 1)%nat (n + 1) ltac:(lia) Hp) as (n' & -> & Hn). exists n'. split; [done|lia].
  - exists n. split; [done|lia].
Qed.

Lemma count_empty fuel : pending = [] -> forall x n, (x < N)%nat ->
  exists n', count_free fuel ring h (Z.of_nat (slot N off x)) n = inr n' /\ n <= n' <= n + Z.of_nat fuel.
Proof using All.
  intros He. induction fuel as [|fuel IH]; intros x n Hx; cbn [count_free]; [exists n; split; [done|lia]|].
  assert (Hb : exists y, (y < N)%nat /\ back h (Z.of_nat (slot N off x)) = Z.of_nat (slot N off y)).
  { destruct (decide (x = 0%nat)) as [->|]; [|exists (x - 1)%nat; split; [lia|apply back_slot; lia]].
    exists (N - 1)%nat. split; [lia|]. destruct Hw as [Ho _ _ _ _].
    assert (slot N off 0 = off) as -> by (unfold slot; rewrite Nat.add_0_r; by apply Nat.mod_small). apply back_first. }
  destruct Hb as (y & Hy & ->). destruct (look y Hy) as (r & -> & Hr). destruct r as [f|].
  - destruct (IH y (n + 1) Hy) as (n' & -> & Hn). exists n'. split; [done|lia].
  - exfalso. rewrite He in Hr. cbn [length] in Hr. destruct Hr as [Hr _]. specialize (Hr eq_refl). lia.
Qed.

(** The count is never greater than the number of frames that are free. *)
Lemma count_free_bound fuel : fuel = N -> exists n, count_free fuel ring h (back h (Z.of_nat off)) 0 = inr n /\
  0 <= n <= Z.of_nat N - Z.of_nat (length pending).
Proof using All.
  intros Ef. rewrite back_first. pose proof Hw as [Ho _ Hp _ _]. destruct (decide (pending = [])) as [He|Hne].
  { destruct (count_empty fuel He (N - 1)%nat 0 ltac:(lia)) as (n & -> & Hn). exists n. split; [done|].
    rewrite He. cbn [length]. lia. }
  assert (Hpos : (0 < length pending)%nat) by (destruct pending; [done|cbn; lia]).
  destruct (decide (length pending = N)) as [HeN|HnN].
  - destruct fuel as [|fuel]; [lia|]. cbn [count_free]. exists 0. split; [|lia].
    assert (Hb : exists y, (y < N)%nat /\ back h (Z.of_nat (slot N off (N - 1))) = Z.of_nat (slot N off y)).
    { destruct (decide (N = 1%nat)) as [E1|]; [|exists (N - 1 - 1)%nat; split; [lia|apply back_slot; lia]].
      exists (N - 1)%nat. split; [lia|]. replace (slot N off (N - 1)) with off at 1; [exact back_first|].
      rewrite slot_val by lia. destruct (Nat.ltb_spec (off + (N - 1)) N); lia. }
    destruct Hb as (y & Hy & ->). destruct (look y Hy) as (r & -> & Hr). destruct r; [|done].
    exfalso. assert (y < length pending)%nat as H%Hr by lia. done.
  - destruct (count_from fuel (N - 1)%nat 0 ltac:(lia) Hpos) as (n & -> & Hn). exists n. split; [done|lia].
Qed.
End Count.

(** ** The packet that is made of a frame *)

Definition captured (f : frame) : list byte := take (Z.to_nat (tp_snaplen f)) (drop (Z.to_nat (tp_mac f)) (f_mem f)).
Definition with_header (h : linux) (f : frame) : list byte :=
  if cooked (md h) then (sll_header (f_sll f) (sll_addr (f_sll f)) ++ captured f)%list else captured f.
Definition shown (h : linux) (f : frame) : list byte :=
  if has_vlan h f then
    let o := Z.to_nat (vlan_offset (md h)) in
    (take o (with_header h f) ++ vlan_tag (tp_vlan_tci f) ++ drop o (with_header h f))%list
  else with_header h f.
Definition packet_of (h : linux) (f : frame) : pcap_pkthdr * list byte :=
  let n := Z.min (snapshot (l_p h)) (lenZ (shown h f)) in
  (Pkthdr (tp_sec f) (usec_of h f) n (tp_len f + (lenZ (shown h f) - tp_snaplen f)), take (Z.to_nat n) (shown h f)).

(** A handle on a ring: what [activate_new] and [create_ring] leave. *)
Record handle_ok (h : linux) : Prop := HandleOk {
  ho_version : known_version h = true;
  ho_snapshot : 0 < snapshot (l_p h) < 2 ^ 31;
  ho_bufsize : 0 <= bufsize (l_p h) < 2 ^ 31;
  ho_vlan : vlan_offset (md h) = -1 \/ 0 <= vlan_offset (md h) <= 16 }.

(** The room before a packet that a VLAN tag may take; [PACKET_RESERVE] asks for
    it, and only [TPACKET_V2] gives tags. *)
Definition tag_room (h : linux) : Z := if tp_version (md h) =? TPACKET_V2 then VLAN_TAG_LEN else 0.
Lemma tag_room_range h : 0 <= tag_room h <= 4.
Proof. unfold tag_room, VLAN_TAG_LEN. destruct (_ =? _); lia. Qed.

(** A frame that the kernel has filled: the packet is inside, with room before
    it for the headers. *)
Record frame_ok (h : linux) (f : frame) : Prop := FrameOk {
  fo_mem : lenZ (f_mem f) = bufsize (l_p h);
  fo_snaplen : 0 <= tp_snaplen f <= tp_len f;
  fo_len : tp_len f < 2 ^ 31;
  fo_end : tp_mac f + tp_snaplen f <= bufsize (l_p h);
  fo_room : header_end h + header_len (cooked (md h)) + tag_room h <= tp_mac f;
  fo_addr : length (sll_addr (f_sll f)) = 8%nat }.

Lemma put_at h pos a b c bs : header_end h <= pos -> lenZ a = pos -> lenZ b = lenZ bs ->
  put h pos bs (a ++ b ++ c) = inr (a ++ bs ++ c)%list.
Proof.
  unfold put, lenZ. intros Hp Ha Hb. rewrite (proj2 (Z.ltb_ge pos _)) by done.
  rewrite !length_app. rewrite (proj2 (Z.ltb_ge _ _)) by lia. do 2 f_equal.
  - rewrite take_app_le, firstn_all2 by lia. done.
  - f_equal. rewrite app_assoc, drop_app_ge; rewrite length_app; [|lia].
    replace (Z.to_nat (pos + Z.of_nat (length bs)) - (length a + length b))%nat with 0%nat by lia. done.
Qed.

Lemma peek_at pos n a b c : lenZ a = pos -> lenZ b = n -> peek pos n (a ++ b ++ c) = inr b.
Proof.
  unfold peek, lenZ. intros Ha Hb. rewrite sub_app_r by (unfold lenZ; lia). unfold lenZ. rewrite Ha, Z.sub_diag.
  rewrite sub_Some by (rewrite ?length_app; lia). rewrite drop_0, take_app_le, firstn_all2 by lia. done.
Qed.

Lemma header_end_nonneg h : 0 <= header_end h.
Proof.
  unfold header_end, TPACKET_ALIGN, sizeof_sockaddr_ll. assert (0 <= Z.ldiff (u32 (tp_hdrlen (md h) + 15)) 15); [|lia].
  apply Z.ldiff_nonneg. left. apply uwrap_range. lia.
Qed.

(** A list cut before and after a range. *)
Lemma cut {A} (l : list A) (i n : Z) : 0 <= i -> 0 <= n -> i + n <= lenZ l -> exists a b c, l = (a ++ b ++ c)%list /\ lenZ a = i /\ lenZ b = n.
Proof.
  unfold lenZ. intros Hi Hn Hl. exists (take (Z.to_nat i) l), (take (Z.to_nat n) (drop (Z.to_nat i) l)), (drop (Z.to_nat n) (drop (Z.to_nat i) l)).
  rewrite !take_drop, !length_take, !length_drop. split_and!; [done|lia|lia].
Qed.

Lemma captured_mid a b c f : f_mem f = (a ++ b ++ c)%list -> lenZ a = tp_mac f -> lenZ b = tp_snaplen f -> captured f = b.
Proof.
  unfold captured, lenZ. intros -> Ha Hb. rewrite drop_app_ge by lia.
  replace (Z.to_nat (tp_mac f) - length a)%nat with 0%nat by lia. rewrite drop_0, take_app_le, firstn_all2 by lia. done.
Qed.

(** What the two headers make of a packet: its bytes stand at [bp] with room
    for a tag before them. *)
Record standing (h : linux) (q : list byte) (b : built) (room : Z) : Prop := Standing {
  st_mem : exists a c, b_mem b = (a ++ q ++ c)%list /\ lenZ a = bp b;
  st_room : header_end h + room <= bp b }.

Lemma add_sll_ok h f : frame_ok h f ->
  let b := Built (tp_mac f) (f_mem f) (Pkthdr (tp_sec f) (usec_of h f) (tp_snaplen f) (tp_len f)) in
  exists b', add_sll h f b = inr b' /\ standing h (with_header h f) b' (tag_room h) /\
    b_hdr b' = Pkthdr (tp_sec f) (usec_of h f) (lenZ (with_header h f)) (tp_len f + (lenZ (with_header h f) - tp_snaplen f)).
Proof.
  intros [Hm Hs Hl He Hr Ha] b. pose proof (header_end_nonneg h) as Hh. pose proof (tag_room_range h) as Ht. unfold header_len, SLL_HDR_LEN in Hr.
  unfold add_sll, with_header, SLL_HDR_LEN. destruct (cooked (md h)); cbn [negb].
  - destruct (cut (f_mem f) (tp_mac f - 16) 16) as (a & s & r & E & H1 & H2); [lia..|].
    destruct (cut r 0 (tp_snaplen f)) as (z & q & c & Er & H3 & H4); [lia..| |].
    { rewrite E in Hm. unfold lenZ in *. rewrite !length_app in Hm. lia. }
    destruct z; [|done]. cbn [app] in Er. subst r. cbn [bp b_mem b].
    rewrite (proj2 (Z.ltb_ge _ _)) by lia. rewrite E, put_at; [|lia|done|unfold lenZ in *; rewrite length_sll_header, Ha; lia].
    assert (Hc : captured f = q).
    { apply (captured_mid (a ++ s) q c); [by rewrite E, <- app_assoc|unfold lenZ in *; rewrite length_app; lia|done]. }
    eexists. split; [reflexivity|]. rewrite Hc. split.
    + split; [|cbn [bp]; lia]. exists a, c. cbn [b_mem bp]. by rewrite <- app_assoc.
    + cbn [b_hdr]. unfold longer. cbn [tv_sec tv_usec caplen len b_hdr b]. unfold lenZ in *. rewrite length_app, length_sll_header, Ha.
      rewrite !(uwrap_id 32) by clia. f_equal; lia.
  - destruct (cut (f_mem f) (tp_mac f) (tp_snaplen f)) as (a & q & c & E & H1 & H2); [lia..|].
    assert (Hc : captured f = q) by (by apply (captured_mid a q c)). eexists. split; [reflexivity|]. rewrite Hc. split.
    + split; [|cbn [bp b]; lia]. by exists a, c.
    + cbn [b_hdr b]. rewrite H2. f_equal; lia.
Qed.

Lemma add_vlan_ok h f b : handle_ok h -> frame_ok h f -> standing h (with_header h f) b (tag_room h) ->
  b_hdr b = Pkthdr (tp_sec f) (usec_of h f) (lenZ (with_header h f)) (tp_len f + (lenZ (with_header h f) - tp_snaplen f)) ->
  exists b', add_vlan h f b = inr b' /\ standing h (shown h f) b' 0 /\
    b_hdr b' = Pkthdr (tp_sec f) (usec_of h f) (lenZ (shown h f)) (tp_len f + (lenZ (shown h f) - tp_snaplen f)).
Proof.
  intros Hok Hf [(a & c & Em & Ha) Hroom] Hh. pose proof (tag_room_range h) as Ht. unfold add_vlan, shown.
  assert (Hq : tp_snaplen f <= lenZ (with_header h f) <= tp_snaplen f + 16).
  { destruct Hf as [Hm Hs _ He Hr Haddr]. pose proof (header_end_nonneg h). pose proof (header_len_range (cooked (md h))).
    unfold with_header, captured, lenZ in *. destruct (cooked (md h)); rewrite ?length_app, ?length_sll_header, length_take, length_drop; lia. }
  destruct (has_vlan h f) eqn:Ev; cbn [negb].
  2: { exists b. split; [done|]. split; [|done]. split; [by exists a, c|lia]. }
  unfold has_vlan in Ev. apply andb_prop in Ev as [Ev Hle]. apply andb_prop in Ev as [Ev Hvo]. apply andb_prop in Ev as [Hv2 _].
  assert (Hroom4 : tag_room h = VLAN_TAG_LEN) by (unfold tag_room; by rewrite Hv2). rewrite Hroom4 in *.
  destruct Hf as [Hm Hs Hl He _ _]. clear Ht. destruct (ho_vlan h Hok) as [Hn|Hvr]; [by rewrite Hn in Hvo|]. apply Z.leb_le in Hle.
  rewrite (uwrap_id 32) in Hle by clia. unfold VLAN_TAG_LEN in *.
  set (q := with_header h f) in *. set (vo := vlan_offset (md h)) in *.
  destruct (cut q 0 vo) as (z & q1 & q2 & Eq & Hz & H1); [lia..|]. destruct z; [|done]. cbn [app] in Eq. rewrite Eq in Em.
  pose proof (header_end_nonneg h).
  destruct (cut a 0 (bp b - 4)) as (z & a1 & s & Ea & Hz' & H2); [lia..|]. destruct z; [|done]. cbn [app] in Ea.
  assert (Hs4 : lenZ s = 4) by (rewrite Ea in Ha; unfold lenZ in *; rewrite length_app in Ha; lia).
  rewrite Em. replace (bp b - 4 + 4) with (bp b) by lia. rewrite <- app_assoc. rewrite (peek_at (bp b) vo a q1) by done.
  rewrite Ea, <- app_assoc.
  destruct (cut (s ++ q1) 0 vo) as (z & x & t & Es & Hz2 & H3); [lia|lia|unfold lenZ in *; rewrite length_app; lia|].
  destruct z; [|done]. cbn [app] in Es. rewrite (app_assoc s q1), Es, <- app_assoc.
  rewrite (put_at h (bp b - 4) a1 x (t ++ q2 ++ c) q1) by (done || lia).
  assert (Ht : lenZ t = 4). { apply (f_equal length) in Es. rewrite !length_app in Es. unfold lenZ in *. lia. }
  rewrite (app_assoc a1 q1).
  rewrite (put_at h _ (a1 ++ q1) t (q2 ++ c)); [|lia|unfold lenZ in *; rewrite length_app; lia|by rewrite Ht].
  eexists. split; [reflexivity|].
  assert (E1 : take (Z.to_nat vo) q = q1) by (rewrite Eq, take_app_le, firstn_all2 by (unfold lenZ in *; lia); done).
  assert (E2 : drop (Z.to_nat vo) q = q2).
  { rewrite Eq, drop_app_ge by (unfold lenZ in *; lia). by replace (Z.to_nat vo - length q1)%nat with 0%nat by (unfold lenZ in *; lia). }
  rewrite E1, E2. split.
  - split; [|cbn [bp]; lia]. exists a1, c. cbn [b_mem bp]. by rewrite <- !app_assoc.
  - cbn [b_hdr]. rewrite Hh. unfold longer. cbn [tv_sec tv_usec caplen len].
    assert (E3 : lenZ (q1 ++ vlan_tag (tp_vlan_tci f) ++ q2) = lenZ q + 4).
    { rewrite Eq. unfold lenZ, vlan_tag. rewrite !length_app, !length_le_split. lia. }
    rewrite E3. rewrite !(uwrap_id 32) by clia. f_equal; lia.
Qed.

(** The packet that the application gets. *)
Lemma build_packet_ok h f : handle_ok h -> frame_ok h f ->
  exists m, build_packet h f = FramePacket (packet_of h f).1 (packet_of h f).2 m.
Proof.
  intros Hok Hf. unfold build_packet. destruct (add_sll_ok h f Hf) as (b & -> & Hst & Hb).
  destruct (add_vlan_ok h f b Hok Hf Hst Hb) as (b' & -> & [(a & c & Em & Ha) _] & Hb'). exists (b_mem b').
  unfold trim, packet_of. rewrite Hb'. cbn [caplen tv_sec tv_usec len]. pose proof (ho_snapshot h Hok) as Hsn.
  rewrite (uwrap_id 32) by clia. set (q := shown h f) in *.
  set (n := Z.min (snapshot (l_p h)) (lenZ q)).
  assert (Hn : 0 <= n <= lenZ q) by (unfold n, lenZ; lia).
  assert (Hp : peek (bp b') n (b_mem b') = inr (take (Z.to_nat n) q)).
  { rewrite Em. rewrite <- (take_drop (Z.to_nat n) q) at 1. rewrite <- app_assoc. apply peek_at; [done|].
    unfold lenZ in *. rewrite length_take. lia. }
  destruct (Z.ltb_spec (snapshot (l_p h)) (lenZ q)); cbn [caplen].
  - assert (En : n = snapshot (l_p h)) by (unfold n; lia). rewrite <- En, Hp. by cbn [fst snd].
  - assert (En : n = lenZ q) by (unfold n; lia). rewrite <- En, Hp. by cbn [fst snd].
Qed.

(** ** A capture in progress *)

(** What of the handle does not change while packets are read. *)
Record same_capture (h h' : linux) : Prop := SameCapture {
  sc_snapshot : snapshot (l_p h') = snapshot (l_p h);
  sc_bufsize : bufsize (l_p h') = bufsize (l_p h);
  sc_fcode : fcode (l_p h') = fcode (l_p h);
  sc_version : tp_version (md h') = tp_version (md h);
  sc_hdrlen : tp_hdrlen (md h') = tp_hdrlen (md h);
  sc_cooked : cooked (md h') = cooked (md h);
  sc_vlan : vlan_offset (md h') = vlan_offset (md h);
  sc_lo : lo_ifindex (md h') = lo_ifindex (md h);
  sc_direction : direction h' = direction h;
  sc_cc : cc h' = cc h }.

Lemma same_capture_refl h : same_capture h h.
Proof. by constructor. Qed.
Lemma same_capture_trans h1 h2 h3 : same_capture h1 h2 -> same_capture h2 h3 -> same_capture h1 h3.
Proof. intros [] []. constructor; congruence. Qed.

Lemma same_packet h h' f : same_capture h h' -> packet_of h' f = packet_of h f.
Proof.
  intros [Hs Hb Hf Hv Hh Hc Hvl Hl Hd Hcc]. unfold packet_of, shown, with_header, has_vlan, usec_of. by rewrite Hs, Hv, Hc, Hvl.
Qed.
Lemma same_direction h h' f : same_capture h h' -> right_direction h' f = right_direction h f.
Proof. intros []. unfold right_direction. by rewrite sc_lo0, sc_direction0. Qed.
Lemma same_handle_ok h h' : same_capture h h' -> handle_ok h -> handle_ok h'.
Proof. intros [] []. constructor; unfold known_version in *; by rewrite ?sc_version0, ?sc_snapshot0, ?sc_bufsize0, ?sc_vlan0. Qed.
Lemma same_frame_ok h h' f : same_capture h h' -> frame_ok h f -> frame_ok h' f.
Proof. intros [] []. constructor; unfold header_end, tag_room in *; by rewrite ?sc_bufsize0, ?sc_hdrlen0, ?sc_cooked0, ?sc_version0. Qed.

Lemma length_captured h f : frame_ok h f -> lenZ (captured f) = tp_snaplen f.
Proof.
  intros [Hm Hs _ He Hr _]. pose proof (header_end_nonneg h). pose proof (header_len_range (cooked (md h))). pose proof (tag_room_range h).
  unfold captured, lenZ in *. rewrite length_take, length_drop. lia.
Qed.

Section System.
Context (N : nat) (HN : (0 < N)%nat) (mem0 : list Z) (Hmem : mem_ok mem0).
(** The program of the application and the loads of the kernel's machine. *)
Context (fp : program) (Hok : prog_ok fp) (Hlen : lenZ fp < 2 ^ 31) (Hval : bpf_validate fp = true) (Hst : strict fp = true).
Context (kload : frame -> size -> Z -> option Z) (klen : frame -> Z).

(** A packet that is in its frame as a whole, and what the filter of the
    application, and a filter on the socket, say of it. *)
Record whole (h : linux) (f : frame) : Prop := Whole {
  wh_ok : frame_ok h f;
  wh_snaplen : tp_snaplen f = tp_len f;
  wh_addr : sockaddr_ok (f_sll f);
  wh_loads : loads (kload f) (klen f) false (f_sll f) (captured f) (tp_len f) }.

Definition accepted (f : frame) : bool :=
  match run (S (length fp)) fp (captured f) (tp_len f) (lenZ (captured f)) (init_machine mem0) with
  | Some (Returned v) => negb (v =? 0)
  | _ => false
  end.
Definition admits (g : option program) (f : frame) : Prop :=
  match g with
  | None => True
  | Some g => exists v, krun (kload f) (klen f) (S (length g)) g (init_machine mem0) = Some (Returned v) /\ v <> 0
  end.
Definition keep (h : linux) (f : frame) : bool := accepted f && right_direction h f.

(** The filter of the library on a whole packet. *)
Lemma pass_filter_whole h f : fcode (l_p h) = Some fp -> handle_ok h -> whole h f ->
  pass_filter mem0 h f = inr (accepted f).
Proof using HN Hmem Hok Hlen Hval Hst.
  intros Hf Hh [Hfo Hs _ _]. pose proof (length_captured h f Hfo) as Hc. destruct Hfo as [Hm Hsn Hl He Hr _].
  pose proof (header_end_nonneg h). pose proof (header_len_range (cooked (md h))). pose proof (tag_room_range h).
  unfold pass_filter, peek. rewrite Hf. rewrite sub_Some by (unfold lenZ in *; lia).
  change (take (Z.to_nat (tp_snaplen f)) (drop (Z.to_nat (tp_mac f)) (f_mem f))) with (captured f).
  unfold filter_packet, accepted. cbn [caplen len bpf_filter]. rewrite Hc.
  destruct (strict_total fp (captured f) (tp_len f) (tp_snaplen f) mem0) as (v & -> & _); try done; unfold lenZ in *; [clia|lia|lia].
Qed.

(** A packet that the kernel's copy of the program lets in is accepted. *)
Lemma admits_accepted h f g : cooked (md h) = false -> forallb (portable false) fp = true ->
  fix_insns false true fp = Some g -> whole h f -> admits (Some g) f -> accepted f = true.
Proof using HN Hmem Hok Hlen Hval Hst.
  intros Hc Hp Eg [Hfo Hs Ha Hl] (v' & Hk & Hv'). pose proof (length_captured h f Hfo) as Hcl. destruct Hfo as [Hm Hsn Hle He Hr _].
  destruct (fix_insns_moved _ _ _ _ _ _ Hl Ha true fp Hok Hst Hp) as (g' & E & Hg). rewrite E in Eg. injection Eg as ->.
  destruct (strict_total fp (captured f) (tp_len f) (lenZ (captured f)) mem0) as (v & Hr' & _); try done; try (unfold lenZ in *; clia).
  destruct (moved_run _ _ _ _ _ _ _ _ _ _ Hg Hst (init_machine mem0) v ltac:(unfold small_X; cbn; lia) Hr') as (v1 & Hk1 & H0 & _).
  rewrite (Forall2_length _ _ _ Hg) in Hk1. rewrite Hk in Hk1. injection Hk1 as ->. unfold accepted. rewrite Hr'.
  destruct (Z.eqb_spec v 0); [tauto|done].
Qed.

(** Whether the application calls [pcap_breakloop] after so many packets. *)
Context (brk : nat -> bool).

Definition record_packet (u : list (pcap_pkthdr * list byte)) (p : pcap_pkthdr) (data : list byte)
    : list (pcap_pkthdr * list byte) * bool := ((u ++ [(p, data)])%list, brk (length u)).

(** The ring, the handle, what the application has got; and, as the account of
    it, the frames that are the library's, those that it has given back, and
    those that the kernel has put. *)
Record system := System {
  y_ring : list frame; y_h : linux; y_log : list (pcap_pkthdr * list byte);
  y_pending : list frame; y_taken : list frame; y_put : list frame }.

Definition position (y : system) : nat := Z.to_nat (offset (y_h y)).

(** The kernel puts a packet into the frame at its position if that is its
    own; the library goes once round its loop; a signal sets the flag that ends
    the loop. *)
Inductive turn (g : option program) (y : system) : system -> Prop :=
| kernel_puts f old :
    whole (y_h y) f -> tp_status f <> 0 -> admits g f ->
    y_ring y !! slot N (position y) (length (y_pending y)) = Some old -> tp_status old = 0 ->
    turn g y (System (<[slot N (position y) (length (y_pending y)) := f]> (y_ring y)) (y_h y) (y_log y)
                     (y_pending y ++ [f])%list (y_taken y) (y_put y ++ [f])%list)
| library_reads n r ring h n' u :
    ring_turn mem0 record_packet (y_ring y) (y_h y) n (y_log y) = (r, ring, h, n', u) ->
    turn g y (System ring h u (tail (y_pending y)) (y_taken y ++ option_list (head (y_pending y)))%list (y_put y))
| signal_breaks b :
    turn g y (System (y_ring y) (set_break_flag (y_h y) b) (y_log y) (y_pending y) (y_taken y) (y_put y)).

Lemma same_use_bpf h n : same_capture h (with_use_bpf h n).
Proof using Type. by constructor. Qed.

Lemma handle_frame_whole h f : fcode (l_p h) = Some fp -> handle_ok h -> whole h f ->
  ((count_bpf (use_bpf (md h))).1 = false -> accepted f = true) ->
  exists m, handle_frame mem0 h f =
    (if keep h f then FramePacket (packet_of h f).1 (packet_of h f).2 m else FrameSkip,
     with_use_bpf h (count_bpf (use_bpf (md h))).2).
Proof using All.
  intros Hf Hh Hw Hacc. unfold handle_frame. pose proof (ho_version h Hh) as Hv. unfold known_version in Hv. rewrite Hv. cbn [negb].
  destruct (wh_ok _ _ Hw) as [Hm Hsn Hl He Hr _]. pose proof (header_end_nonneg h). pose proof (header_len_range (cooked (md h))).
  pose proof (tag_room_range h). pose proof (ho_bufsize h Hh).
  rewrite !(uwrap_id 32) by clia. rewrite (proj2 (Z.ltb_ge _ _)) by lia.
  destruct (count_bpf (use_bpf (md h))) as [run n] eqn:Ec. cbn [fst snd] in *. set (h' := with_use_bpf h n).
  pose proof (same_use_bpf h n) as Hsame. fold h' in Hsame.
  assert (Hh' : handle_ok h') by (by eapply same_handle_ok). assert (Hfo : frame_ok h' f) by (eapply same_frame_ok, Hw; done).
  assert (Hp : (if run then pass_filter mem0 h' f else inr true) = inr (accepted f)).
  { destruct run; [|by rewrite Hacc]. apply pass_filter_whole; [done|done|]. destruct Hw; by constructor. }
  rewrite Hp. unfold keep. rewrite <- (same_direction h h') by done. destruct (accepted f); cbn [andb]; [|by exists []].
  destruct (right_direction h' f); [|by exists []]. destruct (build_packet_ok h' f Hh' Hfo) as [m ->].
  exists m. by rewrite !(same_packet h h').
Qed.

(** The invariant. *)
Record invariant (h0 : linux) (y : system) : Prop := Invariant {
  iv_same : same_capture h0 (y_h y);
  iv_offset : 0 <= offset (y_h y);
  iv_window : window N (y_ring y) (position y) (y_pending y);
  iv_whole : Forall (whole h0) (y_pending y);
  iv_put : y_put y = (y_taken y ++ y_pending y)%list;
  iv_log : y_log y = map (packet_of h0) (List.filter (keep h0) (y_taken y));
  iv_zero : use_bpf (md h0) = 0 -> use_bpf (md (y_h y)) = 0;
  iv_count : use_bpf (md (y_h y)) = 0 \/
             (1 <= use_bpf (md (y_h y)) /\
              Forall (fun f => accepted f = true) (drop (Z.to_nat (use_bpf (md (y_h y)) - 1)) (y_pending y))) }.

Context (h0 : linux) (Hf0 : fcode (l_p h0) = Some fp) (Hh0 : handle_ok h0) (Hcc0 : cc h0 = Z.of_nat N).

Lemma keep_same h f : same_capture h0 h -> keep h f = keep h0 f.
Proof using Type. intros Hs. unfold keep. by rewrite (same_direction h0 h). Qed.

Lemma whole_same h f : same_capture h0 h -> whole h0 f -> whole h f.
Proof using Type. intros Hs []. constructor; [by eapply same_frame_ok|done..]. Qed.
Lemma whole_back h f : same_capture h0 h -> whole h f -> whole h0 f.
Proof using Type.
  intros []. intros [[] ? ? ?]. constructor; try done. constructor; unfold header_end, tag_room in *; congruence || (by rewrite <- ?sc_bufsize0, <- ?sc_hdrlen0, <- ?sc_cooked0, <- ?sc_version0).
Qed.

Lemma put_keeps g f old y : (forall f, whole h0 f -> admits g f -> use_bpf (md (y_h y)) = 0 \/ accepted f = true) -> invariant h0 y ->
  whole (y_h y) f -> tp_status f <> 0 -> admits g f ->
  y_ring y !! slot N (position y) (length (y_pending y)) = Some old -> tp_status old = 0 ->
  invariant h0 (System (<[slot N (position y) (length (y_pending y)) := f]> (y_ring y)) (y_h y) (y_log y)
                     (y_pending y ++ [f])%list (y_taken y) (y_put y ++ [f])%list).
Proof using All.
  intros Hg [Hs Ho Hw Hwh Hp Hl Hz0 Hc] Hf Hst0 Ha Hold H0. pose proof (whole_back _ _ Hs Hf) as Hf1.
  constructor; cbn [y_ring y_h y_log y_pending y_taken y_put]; try done.
  - exact (window_put N HN _ _ _ f old Hw Hold H0 Hst0).
  - apply Forall_app. by split; [|constructor].
  - by rewrite Hp, app_assoc.
  - destruct Hc as [Hc|[H1 Hc]]; [by left|]. destruct (Hg f Hf1 Ha) as [Hz|Hacc]; [lia|]. right. split; [done|].
    set (k := Z.to_nat _) in *. destruct (decide (k <= length (y_pending y))%nat).
    + rewrite drop_app_le by lia. apply Forall_app. by split; [|constructor].
    + rewrite drop_app_ge by lia. apply Forall_drop. by constructor.
Qed.

(** The position after a frame is given back. *)
Lemma next_position h : cc h = Z.of_nat N -> 0 <= offset h < Z.of_nat N ->
  0 <= (if cc h <=? offset h + 1 then 0 else offset h + 1) /\
  Z.to_nat (if cc h <=? offset h + 1 then 0 else offset h + 1) = slot N (Z.to_nat (offset h)) 1.
Proof using HN.
  intros -> Ho. rewrite slot_val by lia. destruct (Z.leb_spec (Z.of_nat N) (offset h + 1)), (Nat.ltb_spec (Z.to_nat (offset h) + 1) N); lia.
Qed.

(** A turn of the loop on a frame of the library's: the packet is delivered if
    the filter accepts it and the direction is right. *)
Lemma ring_turn_whole ring h n u f : fcode (l_p h) = Some fp -> handle_ok h -> whole h f ->
  ((count_bpf (use_bpf (md h))).1 = false -> accepted f = true) ->
  0 <= offset h -> ring !! Z.to_nat (offset h) = Some f -> tp_status f <> 0 ->
  exists r k h' n', ring_turn mem0 record_packet ring h n u =
      (r, alter k (Z.to_nat (offset h)) ring, h', n', if keep h f then (u ++ [packet_of h f])%list else u) /\
    (forall f, tp_status (k f) = 0) /\ same_capture h h' /\
    offset h' = (if cc h <=? offset h + 1 then 0 else offset h + 1) /\ use_bpf (md h') = (count_bpf (use_bpf (md h))).2.
Proof using All.
  intros Hf Hh Hw Hacc Ho Hr Hs. unfold ring_turn.
  rewrite (ring_frame_at h ring _ _ f); [|exact (ho_version h Hh)|].
  2: { rewrite <- nthZ_nat in Hr. by rewrite Z2Nat.id in Hr by lia. }
  rewrite (proj2 (Z.eqb_neq (tp_status f) 0)) by done. cbn [Z.eqb Pos.eqb].
  change (TP_STATUS_USER =? TP_STATUS_USER) with true. cbv iota.
  destruct (handle_frame_whole h f Hf Hh Hw Hacc) as [m ->]. set (c := count_bpf _).
  destruct (keep h f).
  - unfold record_packet. destruct (packet_of h f) as [p d]. cbn [fst snd]. destruct (brk (length u)); unfold or_break, release, break_flag; cbn;
      [|destruct (break_loop (l_p h)); cbn]; do 4 eexists; rewrite list_alter_alter_eq; (split; [reflexivity|]);
      split_and!; try done; by constructor.
  - unfold release, break_flag; cbn. destruct (break_loop (l_p h)); cbn; do 4 eexists; (split; [done|]);
      split_and!; try done; by constructor.
Qed.

Lemma read_keeps y n r ring h n' u : invariant h0 y ->
  ring_turn mem0 record_packet (y_ring y) (y_h y) n (y_log y) = (r, ring, h, n', u) ->
  invariant h0 (System ring h u (tail (y_pending y)) (y_taken y ++ option_list (head (y_pending y)))%list (y_put y)).
Proof using All.
  intros [Hs Ho Hw Hwh Hp Hl Hz0 Hc] Hr.
  assert (Hh : handle_ok (y_h y)) by (by eapply same_handle_ok).
  assert (Hf : fcode (l_p (y_h y)) = Some fp) by (by rewrite (sc_fcode _ _ Hs)).
  assert (Hcc : cc (y_h y) = Z.of_nat N) by (by rewrite (sc_cc _ _ Hs)).
  destruct (window_first N HN _ _ _ Hw) as (g & Hg & Hg0 & Hhead).
  destruct (y_pending y) as [|f rest] eqn:Ep.
  - assert (Hst0 : tp_status g = 0) by (by apply Hg0). unfold ring_turn in Hr.
    rewrite (ring_frame_at _ _ _ _ g) in Hr; [|exact (ho_version _ Hh)|].
    2: { rewrite <- Hg, <- nthZ_nat. unfold position. by rewrite Z2Nat.id by lia. }
    rewrite Hst0 in Hr. change (TP_STATUS_USER =? _) with false in Hr. cbv iota in Hr. injection Hr as <- <- <- <- <-.
    constructor; cbn [y_ring y_h y_log y_pending y_taken y_put tail head option_list]; rewrite ?app_nil_r; try done.
    by rewrite app_nil_r in Hp.
  - destruct Hhead as [|Hhead]; [done|]. cbn [head] in Hhead. injection Hhead as ->. cbn [tail head option_list].
    assert (Hst0 : tp_status g <> 0) by (intros E; by apply Hg0 in E).
    inversion Hwh as [|? ? Hwg Hwrest]; subst.
    destruct (ring_turn_whole (y_ring y) (y_h y) n (y_log y) g Hf Hh (whole_same _ _ Hs Hwg)) as (r' & k & h' & n1 & E & Hk & Hs' & Hoff & Hb);
      [|done|exact Hg|done|].
    { intros Hrun. unfold count_bpf in Hrun. destruct (Z.eqb_spec (use_bpf (md (y_h y))) 0); [done|].
      destruct (Z.ltb_spec 1 (use_bpf (md (y_h y)))); [done|]. destruct Hc as [|[H1 Hc]]; [done|].
      replace (Z.to_nat _) with 0%nat in Hc by lia. rewrite drop_0 in Hc. by inversion Hc. }
    rewrite E in Hr. injection Hr as <- <- <- <- <-. pose proof (w_off N _ _ _ Hw) as Hpos. unfold position in *.
    destruct (next_position (y_h y) Hcc ltac:(lia)) as [Hn1 Hn2].
    constructor; cbn [y_ring y_h y_log y_pending y_taken y_put].
    + by eapply same_capture_trans.
    + by rewrite Hoff.
    + unfold position. cbn [y_h]. rewrite Hoff, Hn2. by apply (window_release N HN _ _ _ g).
    + done.
    + by rewrite Hp, <- app_assoc.
    + rewrite List.filter_app, map_app. change (option_list (Some g)) with [g]. cbn [List.filter]. rewrite (keep_same _ g Hs).
      destruct (keep h0 g); [|by rewrite app_nil_r]. cbn [map]. by rewrite (same_packet h0 (y_h y)), Hl.
    + intros Hz%Hz0. by rewrite Hb, Hz.
    + rewrite Hb. unfold count_bpf. destruct (Z.eqb_spec (use_bpf (md (y_h y))) 0); [by left|].
      destruct Hc as [|[H1 Hc]]; [done|]. right. destruct (Z.ltb_spec 1 (use_bpf (md (y_h y)))); cbn [snd].
      * split; [lia|]. replace (Z.to_nat (use_bpf (md (y_h y)) - 1)) with (S (Z.to_nat (use_bpf (md (y_h y)) - 1 - 1))) in Hc by lia.
        exact Hc.
      * split; [done|]. replace (Z.to_nat _) with 0%nat in * by lia. rewrite drop_0 in *. by inversion Hc.
Qed.

Lemma break_keeps y b : invariant h0 y ->
  invariant h0 (System (y_ring y) (set_break_flag (y_h y) b) (y_log y) (y_pending y) (y_taken y) (y_put y)).
Proof using Type. intros [[] Ho Hw Hwh Hp Hl Hz Hc]. by constructor. Qed.

Lemma reachable_invariant g y y' : (use_bpf (md h0) = 0 \/ forall f, whole h0 f -> admits g f -> accepted f = true) ->
  invariant h0 y -> rtc (turn g) y y' -> invariant h0 y'.
Proof using All.
  intros Hg Hy Hr. induction Hr as [|y y1 y' Ht _ IH]; [done|]. apply IH. destruct Ht as [f old Hwf Hs0 Ha Hold H0|n r ring h n' u Hr|b].
  - eapply put_keeps; try done. intros f' Hw' Ha'. destruct Hg as [Hz|Hg]; [left; by apply (iv_zero _ _ Hy)|right; by apply Hg].
  - by eapply read_keeps.
  - by apply break_keeps.
Qed.
End System.

(** What [pcap_setfilter] leaves on a ring is a start of the invariant. *)
Lemma setfilter_mmap_start {packet} N mem0 fp kload klen sys malloc_ok ring h (s : socket packet) pending h1 s1 w :
  (0 < N)%nat -> mem_ok mem0 -> prog_ok fp -> lenZ fp < 2 ^ 31 -> bpf_validate fp = true -> strict fp = true ->
  forallb (portable false) fp = true -> (forall n, malloc_ok n = true) -> detach sys = None ->
  handle_ok h -> cooked (md h) = false -> cc h = Z.of_nat N -> 0 <= offset h ->
  window N ring (Z.to_nat (offset h)) pending -> Forall (whole kload klen h) pending ->
  pcap_setfilter_linux_mmap sys malloc_ok ring h (Some fp) s = (SetRet 0, h1, s1, w) ->
  handle_ok h1 /\ cc h1 = Z.of_nat N /\ fcode (l_p h1) = Some fp /\
  invariant N mem0 fp kload klen h1 (System ring h1 [] pending [] pending) /\
  (use_bpf (md h1) = 0 \/ forall f, whole kload klen h1 f -> admits mem0 kload klen (attached s1) f -> accepted mem0 fp f = true).
Proof.
  intros HN Hmem Hok Hlen Hval Hst Hp Hma Hd Hh Hc Hcc Ho Hw Hwh Hset. unfold pcap_setfilter_linux_mmap in Hset.
  destruct (pcap_setfilter_linux_common sys malloc_ok h (Some fp) true s) as [[[ret h2] s2] w2] eqn:E.
  assert (Hr0 : ret = 0 /\ s2 = s1).
  { destruct (ret <? 0); [by injection Hset as -> _ <- _|]. destruct (use_bpf (md h2) =? 0); [by injection Hset as -> _ <- _|].
    destruct (count_free _ _ _ _ _); [done|]. by injection Hset as -> _ <- _. }
  destruct Hr0 as [-> ->]. cbn [Z.ltb Z.compare] in Hset.
  destruct (setfilter_common_state _ _ _ _ _ _ _ _ _ Hma Hd Hval E) as (H2 & Hcase).
  assert (Hsame : forall n, same_capture h2 (with_use_bpf h2 n)) by (intros n; by constructor).
  assert (Hv2 : handle_ok h2) by (rewrite H2; destruct Hh; by constructor).
  assert (Hc2 : cc h2 = Z.of_nat N) by (by rewrite H2). assert (Ho2 : offset h2 = offset h) by (by rewrite H2).
  assert (Hf2 : fcode (l_p h2) = Some fp) by (by rewrite H2).
  assert (Hwh2 : Forall (whole kload klen h2) pending).
  { eapply Forall_impl; [exact Hwh|]. intros f [[] ? ? ?]. constructor; try done. rewrite H2. by constructor. }
  assert (Hinv : forall n, (n = 0 \/ 1 <= n /\ (length pending <= Z.to_nat (n - 1))%nat) ->
    invariant N mem0 fp kload klen (with_use_bpf h2 n) (System ring (with_use_bpf h2 n) [] pending [] pending)).
  { intros n Hn. constructor; cbn [y_ring y_h y_log y_pending y_taken y_put]; try done; unfold position; cbn [y_h];
      change (offset (with_use_bpf h2 n)) with (offset h2); rewrite ?Ho2; try done.
    - eapply Forall_impl; [exact Hwh2|]. intros f [[] ? ? ?]. by constructor.
    - change (use_bpf _) with n. destruct Hn as [->|[H1 Hn]]; [by left|right]. split; [done|]. rewrite drop_ge by done. constructor. }
  destruct Hcase as [(Hb & Ha)|(Hb & (g & Eg & Ha) & _)]; rewrite Hb in Hset; cbn [Z.eqb Pos.eqb] in Hset.
  - injection Hset as <- <-. split_and!; try done; [|by left].
    specialize (Hinv 0 (or_introl eq_refl)). rewrite <- Hb in Hinv.
    replace (with_use_bpf h2 (use_bpf (md h2))) with h2 in Hinv by (by destruct h2 as [? [] ? ? ?]). exact Hinv.
  - destruct (count_free_bound N HN h2 Hc2 (ho_version _ Hv2) ring (Z.to_nat (offset h)) pending Hw N eq_refl) as (n & Hn & Hn').
    rewrite Hc2, Nat2Z.id, Ho2 in Hset. rewrite Z2Nat.id in Hn by done. rewrite Hn in Hset. injection Hset as <- <-.
    split_and!; try done; [destruct Hv2; by constructor|apply Hinv; right; lia|right].
    rewrite Hc in Eg. rewrite Ha. intros f Hf Hadm.
    eapply (admits_accepted N HN mem0 Hmem fp Hok Hlen Hval Hst kload klen _ f g); [|exact Hp|exact Eg|exact Hf|exact Hadm].
    rewrite H2. exact Hc.
Qed.

(** ** Properties *)

(** C6: A filter set on a mapped ring of a capture that is not cooked takes
    effect at once and exactly.  The program is one that the checker accepts,
    strict, and with loads only inside the packet ([portable]); memory is
    available, and detaching a filter, if it is tried, succeeds; the kernel
    puts packets whole into frames ([whole]).  When [pcap_setfilter] has then
    returned 0, however the kernel and the library take turns from there, the
    application has got, in order and each once, the packets of those frames
    that the library has given back, which the filter accepts and whose
    direction is asked for - even of the frames that were in the ring already,
    which no filter or another one had let in; and what the kernel has put is
    what has been given back and then what is still in the ring.  (On a cooked
    ring the filter is run without the header that it expects.) *)
Theorem setfilter_mmap_exact {packet} N mem0 fp kload klen brk sys malloc_ok ring h (s : socket packet) pending h1 s1 w y :
  (0 < N)%nat -> mem_ok mem0 -> prog_ok fp -> lenZ fp < 2 ^ 31 -> bpf_validate fp = true -> strict fp = true ->
  forallb (portable false) fp = true -> (forall n, malloc_ok n = true) -> detach sys = None ->
  handle_ok h -> cooked (md h) = false -> cc h = Z.of_nat N -> 0 <= offset h ->
  window N ring (Z.to_nat (offset h)) pending -> Forall (whole kload klen h) pending ->
  pcap_setfilter_linux_mmap sys malloc_ok ring h (Some fp) s = (SetRet 0, h1, s1, w) ->
  rtc (turn N mem0 kload klen brk (attached s1)) (System ring h1 [] pending [] pending) y ->
  y_log y = map (packet_of h1) (List.filter (keep mem0 fp h1) (y_taken y)) /\
  y_put y = (y_taken y ++ y_pending y)%list /\ window N (y_ring y) (position y) (y_pending y).
Proof.
  intros HN Hmem Hok Hlen Hval Hst Hp Hma Hd Hh Hc Hcc Ho Hw Hwh Hset Hr.
  destruct (setfilter_mmap_start _ _ _ _ _ _ _ _ _ _ _ _ _ _ HN Hmem Hok Hlen Hval Hst Hp Hma Hd Hh Hc Hcc Ho Hw Hwh Hset)
    as (Hh1 & Hcc1 & Hf1 & Hinv & Hg).
  destruct (reachable_invariant N HN mem0 Hmem fp Hok Hlen Hval Hst kload klen brk h1 Hf1 Hh1 Hcc1 _ _ _ Hg Hinv Hr) as [_ _ Hw' _ Hp' Hl' _ _].
  done.
Qed.

(** A ring of two frames on an Ethernet device, a frame of the library's with
    an ARP packet, and an IPv4 packet that arrives later. *)
Definition raw_md : pcap_md := Md (Stat 0 0 0) 0 1000 false false 2 1 0 1 400 12 TPACKET_V2 32 2 0.
Definition raw_capture : linux := Linux (Pcap 8192 1 0 0 true false 200 None sf0) raw_md 0 2 PCAP_D_INOUT.
Definition frame_with (status : Z) (bytes : list byte) : frame :=
  Frame status (lenZ bytes) 80 (lenZ bytes) 1371568000 500000000 0 from_host (zeros 80 ++ bytes ++ zeros (120 - length bytes)).
Definition arp_frame : frame := frame_with 1 (zeros 12 ++ map byte.of_Z [8; 6] ++ zeros 28).
Definition ip_frame : frame := frame_with 1 (zeros 12 ++ map byte.of_Z [8; 0; 0x45] ++ zeros 19).
Definition start_ring : list frame := [arp_frame; frame_with 0 []].
Definition frame_load (f : frame) : size -> Z -> option Z := kernel_load false (f_sll f) (captured f).

Lemma frame_with_whole h bytes : bufsize (l_p h) = 200 -> header_end h = 52 -> cooked (md h) = false ->
  (length bytes <= 120)%nat -> whole frame_load (fun f => tp_len f) h (frame_with 1 bytes).
Proof.
  intros Hb He Hc Hl. constructor; [|done|exact from_host_ok|apply kernel_loads].
  constructor; cbn [frame_with f_mem tp_snaplen tp_len tp_mac f_sll]; unfold lenZ, zeros; rewrite ?length_app, ?repeat_length, ?Hb, ?He, ?Hc;
    try lia; [|done].
  unfold header_len. pose proof (tag_room_range h). lia.
Qed.

Lemma start_window : window 2 start_ring 0 [arp_frame].
Proof.
  constructor; [lia|done|cbn; lia| |].
  - intros [|i] f; [|done]. intros [= <-]. done.
  - intros i Hi. cbn [length] in Hi. assert (i = 1%nat) as -> by lia. by exists (frame_with 0 []).
Qed.

Lemma setfilter_mmap_exact_witness : exists h1 s1 y,
  pcap_setfilter_linux_mmap all_succeed (fun _ => true) start_ring raw_capture (Some ip_prog) (Socket (packet := unit) None []) = (SetRet 0, h1, s1, []) /\
  rtc (turn 2 zero_mem frame_load (fun f => tp_len f) (fun _ => false) (attached s1)) (System start_ring h1 [] [arp_frame] [] [arp_frame]) y /\
  y_taken y = [arp_frame; ip_frame] /\ y_log y = [packet_of h1 ip_frame].
Proof.
  destruct (pcap_setfilter_linux_mmap all_succeed (fun _ => true) start_ring raw_capture (Some ip_prog) (Socket (packet := unit) None []))
    as [[[r h1] s1] w] eqn:E.
  assert (Hr : r = SetRet 0 /\ w = [] /\ attached s1 = Some ip_prog /\ offset h1 = 0 /\
    bufsize (l_p h1) = 200 /\ header_end h1 = 52 /\ cooked (md h1) = false).
  { vm_compute in E. injection E as <- <- <- <-. split_and!; reflexivity. }
  destruct Hr as (-> & -> & Ha & Ho & Hb & He & Hc).
  assert (Hrun : rtc (turn 2 zero_mem frame_load (fun f => tp_len f) (fun _ => false) (attached s1)) (System start_ring h1 [] [arp_frame] [] [arp_frame])
    (System (alter (fun f => with_status (with_mem f (f_mem ip_frame)) 0) 1%nat (alter (fun f => with_status f 0) 0%nat [arp_frame; ip_frame]))
            (with_offset (with_packets_read (with_use_bpf h1 1) 1) 0) [packet_of h1 ip_frame] [] [arp_frame; ip_frame] [arp_frame; ip_frame])).
  { eapply rtc_l; [apply (kernel_puts _ _ _ _ _ _ _ ip_frame (frame_with 0 []))|].
    - cbn [y_h]. apply frame_with_whole; [done..|]. vm_compute. lia.
    - done.
    - rewrite Ha. exists 65535. split; [vm_compute; reflexivity|done].
    - unfold position. cbn [y_h]. by rewrite Ho.
    - done.
    - vm_compute in E. injection E as <- <-. eapply rtc_l; [eapply library_reads with (n := 0); vm_compute; reflexivity|].
      eapply rtc_l; [eapply library_reads with (n := 0); vm_compute; reflexivity|].
      vm_compute. apply rtc_refl. }
  do 3 eexists. split; [reflexivity|]. split; [exact Hrun|]. split; [reflexivity|].
  destruct (setfilter_mmap_exact 2 zero_mem ip_prog frame_load (fun f => tp_len f) (fun _ => false) all_succeed (fun _ => true) start_ring
              raw_capture (Socket (packet := unit) None []) [arp_frame] h1 s1 [] _ ltac:(lia) zero_mem_ok
              ltac:(apply prog_okb; vm_compute; reflexivity) ltac:(reflexivity) ltac:(reflexivity) ltac:(reflexivity) ltac:(reflexivity)
              ltac:(reflexivity) ltac:(reflexivity) ltac:(constructor; vm_compute; repeat split; try discriminate; by right) ltac:(reflexivity)
              ltac:(reflexivity) ltac:(discriminate) start_window
              ltac:(constructor; [apply frame_with_whole; [reflexivity..|vm_compute; lia]|constructor]) E Hrun) as (Hl & _ & _).
  rewrite Hl. cbn [y_taken]. vm_compute in E. injection E as <- <-. vm_compute. reflexivity.
Defined.
