(* ===== verification/LinuxSys.v ===== *)
(** [pcap-linux.c] and the operating system: the calls the code makes, the
    state of a capture while it is opened, and what may happen when the calls
    are made. *)
From stdpp Require Import gmap strings.
From S2P Require Import Prelude CString CFile Bpf PcapInt Pcap LinuxInt.

#[local] Open Scope string_scope.
#[local] Open Scope Z_scope.

(** ** The calls *)

(** What [SIOCGIWPRIV] tells of a private request of a wireless device, and
    what such a request is given. *)
Record iw_priv_args := IwPriv { priv_cmd : Z; priv_set_args : Z; priv_name : string }.
Inductive iw_args := IwInts (args : list Z) | IwString (s : string).

(** [ioctl]s, by what they give when they succeed. *)
Inductive ioctl : Type -> Type :=
| SIOCGIFINDEX (dev : string) : ioctl Z
| SIOCGIFMTU (dev : string) : ioctl Z
| SIOCGIFHWADDR (dev : string) : ioctl Z
| SIOCETHTOOL (dev : string) (cmd : Z) : ioctl Z
| SIOCGIFFLAGS (dev : string) : ioctl Z
| SIOCSIFFLAGS (dev : string) (flags : Z) : ioctl unit
| SIOCGIWNAME (dev : string) : ioctl unit
| SIOCGIWPRIV (dev : string) (count : Z) : ioctl (list iw_priv_args)
| SIOCGIWMODE (dev : string) : ioctl Z
| SIOCSIWMODE (dev : string) (mode : Z) : ioctl unit
| SIOCGIWFREQ (dev : string) : ioctl Z
| SIOCGIFADDR (dev : string) : ioctl Z       (* [sin_addr.s_addr] *)
| SIOCGIFNETMASK (dev : string) : ioctl Z
| MON_IOCQ_RING_SIZE : ioctl Z
| USBDEVFS_CONTROL (dev : string) : ioctl unit
| IwPrivate (dev : string) (cmd : Z) (args : iw_args) : ioctl unit.

(** [struct tpacket_req] *)
Record tpacket_req := Req { tp_block_size : Z; tp_block_nr : Z; tp_frame_size : Z; tp_frame_nr : Z }.

Inductive sockopt :=
| PACKET_ADD_MEMBERSHIP (ifindex : Z)      (* PACKET_MR_PROMISC *)
| PACKET_AUXDATA (on : Z)
| PACKET_VERSION (v : Z)
| PACKET_RESERVE (n : Z)
| PACKET_RX_RING (req : tpacket_req)
| SO_RCVBUF (n : Z).

Inductive sockquery := SO_TYPE | SO_ERROR | GET_PACKET_RESERVE | GET_PACKET_HDRLEN (v : Z).

(** What is written to [errbuf] or to the standard error stream: the format
    and the numbers that go into it; an [errno] stands for its text. *)
Record message := Message { m_format : string; m_args : list Z }.

(** A directory that has been opened: its address, the entries [readdir] gives,
    by name and type, and [errno] when it gives no more; a file that has been
    opened as a stream: what each [fgets] gives, and whether an error ends it. *)
Record dirstream := Dir { dir_ptr : Z; dir_entries : list (string * Z); dir_errno : Z }.
Record stream := Stream { s_ptr : Z; s_chunks : list string; s_error : option Z }.

(** An address of an interface, as [getifaddrs] gives it: addresses are the
    bytes of the [struct sockaddr]; [ifa_broadaddr] and [ifa_dstaddr] are one
    field. *)
Record ifaddrs := Ifaddrs {
  ifa_name : string; ifa_flags : Z; ifa_addr : option (list byte); ifa_netmask : option (list byte); ifa_ifu : option (list byte) }.

(** The calls, by their results; [inl] is a failure with [errno]. *)
Inductive sysE : Type -> Type :=
| Malloc (size : Z) : sysE Z
| Strdup (s : string) : sysE Z
| AddressOf (literal : string) : sysE Z
| StrayWords (n : nat) : sysE (list Z)         (* read from memory that nothing has been stored in *)
| Free (p : Z) : sysE unit
| OpenSocket (domain type : Z) : sysE (Z + Z)
| Close (fd : Z) : sysE (option Z)
| Ioctl {X} (fd : Z) (r : ioctl X) : sysE (Z + X)
| PrivCount (fd : Z) (dev : string) : sysE (option (Z * Z))   (* SIOCGIWPRIV without a buffer: errno and the length *)
| Setsockopt (fd : Z) (o : sockopt) : sysE (option Z)
| Getsockopt (fd : Z) (o : sockquery) : sysE (Z + Z)
| Bind (fd : Z) (ifindex : Z) : sysE (option Z)
| BindOld (fd : Z) (dev : string) : sysE (option Z)
| BindCan (fd : Z) (ifindex : Z) : sysE (option Z)
| OpenFile (path : string) : sysE (Z + Z)
| Opendir (path : string) : sysE (Z + dirstream)
| Closedir (p : Z) : sysE unit
| Fopen (path : string) : sysE (Z + stream)
| Fclose (p : Z) : sysE unit
| Lstat (path : string) : sysE bool            (* whether it succeeds *)
| Getifaddrs : sysE (Z + (Z * list ifaddrs))
| Freeifaddrs (p : Z) : sysE unit
| Mmap (len fd : Z) : sysE (Z + Z)
| Munmap (p len : Z) : sysE unit
| Getpagesize : sysE Z
| Uname : sysE (option string)
| ProcNetDev : sysE (option (list string))   (* the lines of /proc/net/dev *)
| Atexit : sysE bool
| Stderr (m : message) : sysE unit.

(** What C leaves undefined or never ends; closing a descriptor that is not
    open; and unmapping an address where nothing is mapped. *)
Inductive misuse := M_div_zero | M_endless | M_outside | M_closed | M_unmapped.

(** A computation that makes calls. *)
Inductive sys (A : Type) : Type :=
| Done (a : A)
| Call {X : Type} (c : sysE X) (k : X -> sys A)
| Wrong (u : misuse).
Arguments Done {A} a.
Arguments Call {A X} c k.
Arguments Wrong {A} u.

Fixpoint sbind {A B} (m : sys A) (f : A -> sys B) : sys B :=
  match m with
  | Done a => f a
  | Call c k => Call c (fun x => sbind (k x) f)
  | Wrong u => Wrong u
  end.

(** What a computation gives if the system answers as [w] does, from the
    number of the call on. *)
Fixpoint answered {A} (w : nat -> forall X, sysE X -> X) (n : nat) (m : sys A) : misuse + A :=
  match m with
  | Done a => inr a
  | Call c k => answered w (S n) (k (w n _ c))
  | Wrong u => inl u
  end.

(** ** The capture *)

(** The functions behind the pointers of a handle that are not the same for
    every capture. *)
Inductive method :=
| Not_initialized
| Pcap_read_linux | Pcap_read_linux_mmap
| Pcap_cleanup_live_common | Pcap_cleanup_linux | Pcap_cleanup_linux_mmap
| Pcap_setfilter_linux | Pcap_setfilter_linux_mmap
| Pcap_getnonblock_fd | Pcap_getnonblock_mmap | Pcap_setnonblock_fd | Pcap_setnonblock_mmap
| Pcap_inject_linux | Pcap_setdirection_linux | Pcap_stats_linux
| Pcap_oneshot | Pcap_oneshot_mmap
| Can_read_linux | Can_inject_linux | Can_setfilter_linux | Can_setdirection_linux | Can_stats_linux
| Usb_read_linux | Usb_read_linux_bin | Usb_read_linux_mmap | Usb_inject_linux | Usb_setdirection_linux
| Usb_stats_linux | Usb_stats_linux_bin | Usb_cleanup_linux_mmap | Install_bpf_program.

Record methods := Methods {
  read_m : method; cleanup_m : method; setfilter_m : method; getnonblock_m : method; setnonblock_m : method;
  inject_m : method; setdirection_m : method; stats_m : method; oneshot_m : method }.

(** [pcap.c]'s globals for what is to be done when the program exits. *)
Record globals := Globals { did_atexit : bool; pcaps_to_close : list Z }.

(** A [struct pcap] whose capture is being opened: the part that reading
    uses, and the rest.  Addresses are numbers, 0 for [NULL]; [m_device] and
    [mondevice] are copies of a name, with their address; [frame_ptrs] is what
    is in [buffer] if it is a ring. *)
Record live := Live {
  lx : linux;
  fd : Z;
  selectable_fd : Z;
  lopt : pcap_opt;
  buffer : Z;
  frame_ptrs : list Z;
  dlts : option (Z * list Z);
  tstamp_ptr : Z;
  m_device : option (Z * string);
  mondevice : option (Z * string);
  must_do_on_close : Z;
  oldmode : Z;
  meths : methods;
  errbuf : option message;
  self : Z;
  globs : globals }.

Definition with_lx (h : live) (x : linux) : live :=
  Live x (fd h) (selectable_fd h) (lopt h) (buffer h) (frame_ptrs h) (dlts h) (tstamp_ptr h) (m_device h) (mondevice h)
       (must_do_on_close h) (oldmode h) (meths h) (errbuf h) (self h) (globs h).
Definition with_fd (h : live) (f : Z) : live :=
  Live (lx h) f (selectable_fd h) (lopt h) (buffer h) (frame_ptrs h) (dlts h) (tstamp_ptr h) (m_device h) (mondevice h)
       (must_do_on_close h) (oldmode h) (meths h) (errbuf h) (self h) (globs h).
Definition with_selectable (h : live) (f : Z) : live :=
  Live (lx h) (fd h) f (lopt h) (buffer h) (frame_ptrs h) (dlts h) (tstamp_ptr h) (m_device h) (mondevice h)
       (must_do_on_close h) (oldmode h) (meths h) (errbuf h) (self h) (globs h).
Definition with_lopt (h : live) (o : pcap_opt) : live :=
  Live (lx h) (fd h) (selectable_fd h) o (buffer h) (frame_ptrs h) (dlts h) (tstamp_ptr h) (m_device h) (mondevice h)
       (must_do_on_close h) (oldmode h) (meths h) (errbuf h) (self h) (globs h).
Definition with_buffer (h : live) (p : Z) : live :=
  Live (lx h) (fd h) (selectable_fd h) (lopt h) p (frame_ptrs h) (dlts h) (tstamp_ptr h) (m_device h) (mondevice h)
       (must_do_on_close h) (oldmode h) (meths h) (errbuf h) (self h) (globs h).
Definition with_frame_ptrs (h : live) (l : list Z) : live :=
  Live (lx h) (fd h) (selectable_fd h) (lopt h) (buffer h) l (dlts h) (tstamp_ptr h) (m_device h) (mondevice h)
       (must_do_on_close h) (oldmode h) (meths h) (errbuf h) (self h) (globs h).
Definition with_dlts (h : live) (d : option (Z * list Z)) : live :=
  Live (lx h) (fd h) (selectable_fd h) (lopt h) (buffer h) (frame_ptrs h) d (tstamp_ptr h) (m_device h) (mondevice h)
       (must_do_on_close h) (oldmode h) (meths h) (errbuf h) (self h) (globs h).
Definition with_tstamp_ptr (h : live) (p : Z) : live :=
  Live (lx h) (fd h) (selectable_fd h) (lopt h) (buffer h) (frame_ptrs h) (dlts h) p (m_device h) (mondevice h)
       (must_do_on_close h) (oldmode h) (meths h) (errbuf h) (self h) (globs h).
Definition with_device (h : live) (d : option (Z * string)) : live :=
  Live (lx h) (fd h) (selectable_fd h) (lopt h) (buffer h) (frame_ptrs h) (dlts h) (tstamp_ptr h) d (mondevice h)
       (must_do_on_close h) (oldmode h) (meths h) (errbuf h) (self h) (globs h).
Definition with_mondevice (h : live) (d : option (Z * string)) : live :=
  Live (lx h) (fd h) (selectable_fd h) (lopt h) (buffer h) (frame_ptrs h) (dlts h) (tstamp_ptr h) (m_device h) d
       (must_do_on_close h) (oldmode h) (meths h) (errbuf h) (self h) (globs h).
Definition with_must (h : live) (n : Z) : live :=
  Live (lx h) (fd h) (selectable_fd h) (lopt h) (buffer h) (frame_ptrs h) (dlts h) (tstamp_ptr h) (m_device h) (mondevice h)
       n (oldmode h) (meths h) (errbuf h) (self h) (globs h).
Definition with_oldmode (h : live) (n : Z) : live :=
  Live (lx h) (fd h) (selectable_fd h) (lopt h) (buffer h) (frame_ptrs h) (dlts h) (tstamp_ptr h) (m_device h) (mondevice h)
       (must_do_on_close h) n (meths h) (errbuf h) (self h) (globs h).
Definition with_meths (h : live) (m : methods) : live :=
  Live (lx h) (fd h) (selectable_fd h) (lopt h) (buffer h) (frame_ptrs h) (dlts h) (tstamp_ptr h) (m_device h) (mondevice h)
       (must_do_on_close h) (oldmode h) m (errbuf h) (self h) (globs h).
Definition with_errbuf (h : live) (m : message) : live :=
  Live (lx h) (fd h) (selectable_fd h) (lopt h) (buffer h) (frame_ptrs h) (dlts h) (tstamp_ptr h) (m_device h) (mondevice h)
       (must_do_on_close h) (oldmode h) (meths h) (Some m) (self h) (globs h).
Definition with_globs (h : live) (g : globals) : live :=
  Live (lx h) (fd h) (selectable_fd h) (lopt h) (buffer h) (frame_ptrs h) (dlts h) (tstamp_ptr h) (m_device h) (mondevice h)
       (must_do_on_close h) (oldmode h) (meths h) (errbuf h) (self h) g.

(** ** Functions of the library

    The body of a function works on the handle, and may return early:
    [inl] is the value that the function returns. *)

Definition body (R A : Type) : Type := live -> sys ((R + A) * live).

Definition bret {R A} (a : A) : body R A := fun h => Done (inr a, h).
Definition leave {R A} (r : R) : body R A := fun h => Done (inl r, h).
Definition bbind {R A B} (m : body R A) (f : A -> body R B) : body R B :=
  fun h => sbind (m h) (fun '(r, h) => match r with inl r => Done (inl r, h) | inr a => f a h end).
Definition sys_call {R X} (c : sysE X) : body R X := fun h => Call c (fun x => Done (inr x, h)).
Definition get {R A} (f : live -> A) : body R A := fun h => Done (inr (f h), h).
Definition put {R} (f : live -> live) : body R unit := fun h => Done (inr tt, f h).
Definition wrong {R A} (u : misuse) : body R A := fun _ => Wrong u.
(** The call of a function: it ends where its body returns. *)
Definition run {R S} (m : body R R) : body S R :=
  fun h => sbind (m h) (fun '(r, h) => Done (inr (match r with inl r => r | inr r => r end), h)).

Declare Scope sys_scope.
Notation "x <- m ;; k" := (bbind m (fun x => k))
  (at level 100, m at next level, k at level 200, right associativity) : sys_scope.
Notation "' x <- m ;; k" := (bbind m (fun x => k))
  (at level 100, x pattern, m at next level, k at level 200, right associativity) : sys_scope.
Notation "m ;; k" := (bbind m (fun _ => k)) (at level 100, k at level 200, right associativity) : sys_scope.

(** [snprintf] to [errbuf]. *)
Definition err {R} (fmt : string) (args : list Z) : body R unit := put (fun h => with_errbuf h (Message fmt args)).

(** A change of the part that reading uses. *)
Definition on_lx {R} (f : linux -> linux) : body R unit := put (fun h => with_lx h (f (lx h))).
