(* ===== verification/LinuxIface.v ===== *)
(** [pcap-linux.c]: what is asked of an interface and of the system -
    [iface_get_id], [iface_bind], [enter_rfmon_mode_wext], [linux_if_drops] and
    the like - and the choice of a link-layer type. *)
From S2P Require Import Prelude CString CFile Bpf PcapInt Datalink GenConst Pcap LinuxInt LinuxSys.

#[local] Open Scope string_scope.
#[local] Open Scope Z_scope.
#[local] Open Scope c_scope.
#[local] Open Scope sys_scope.

(** ** Constants of the system's headers *)

Definition IFNAMSIZ : nat := 16.
Definition IFF_UP := 1.
Definition IFF_PROMISC := 0x100.
Definition IW_PRIV_TYPE_MASK := 0x7000.
Definition IW_PRIV_TYPE_INT := 0x4000.
Definition IW_PRIV_TYPE_CHAR := 0x2000.
Definition IW_PRIV_SIZE_FIXED := 0x0800.
Definition IW_PRIV_SIZE_MASK := 0x07ff.
Definition IW_MODE_MONITOR := 6.
Definition sizeof_iw_priv_args := 24.
Definition E2BIG := 7.
Definition ETHTOOL_GTSO := 0x1e.
Definition ETHTOOL_GUFO := 0x21.
Definition ETHTOOL_GGSO := 0x23.
Definition ETHTOOL_GFLAGS := 0x25.
Definition ETHTOOL_GGRO := 0x2b.
Definition ETH_FLAG_LRO := 0x8000.
Definition MUST_CLEAR_PROMISC := 1.
Definition MUST_CLEAR_RFMON := 2.

(** A name in a [struct ifreq], which need not end with a NUL, and in a
    [struct iwreq]. *)
Definition ifr_name (device : string) : string := String.substring 0 IFNAMSIZ device.
Definition iwr_name (device : string) : string := String.substring 0 (IFNAMSIZ - 1) device.

(** ** Questions about an interface *)

Definition iface_get_id (sock : Z) (device : string) : body Z Z :=
  r <- sys_call (Ioctl sock (SIOCGIFINDEX (ifr_name device))) ;;
  match r with
  | inl e => err "SIOCGIFINDEX: %s" [e] ;; leave (-1)
  | inr i => leave i
  end.

Definition iface_get_mtu (sock : Z) (device : string) : body Z Z :=
  r <- sys_call (Ioctl sock (SIOCGIFMTU (ifr_name device))) ;;
  match r with
  | inl e => err "SIOCGIFMTU: %s" [e] ;; leave (-1)
  | inr mtu => leave mtu
  end.

Definition iface_get_arptype (sock : Z) (device : string) : body Z Z :=
  r <- sys_call (Ioctl sock (SIOCGIFHWADDR (ifr_name device))) ;;
  match r with
  | inl e =>
      err "SIOCGIFHWADDR: %s" [e] ;;
      (if e =? ENODEV then leave PCAP_ERROR_NO_SUCH_DEVICE else leave PCAP_ERROR)
  | inr family => leave family
  end.

Definition iface_bind (sock ifindex : Z) : body Z Z :=
  r <- sys_call (Bind sock ifindex) ;;
  match r with
  | Some e => if e =? ENETDOWN then leave PCAP_ERROR_IFACE_NOT_UP else err "bind: %s" [e] ;; leave PCAP_ERROR
  | None =>
      r <- sys_call (Getsockopt sock SO_ERROR) ;;
      match r with
      | inl e => err "getsockopt: %s" [e] ;; leave 0
      | inr pending =>
          if pending =? ENETDOWN then leave PCAP_ERROR_IFACE_NOT_UP
          else if 0 <? pending then err "bind: %s" [pending] ;; leave 0
          else leave 1
      end
  end.

Definition iface_bind_old (sock : Z) (device : string) : body Z Z :=
  r <- sys_call (BindOld sock (String.substring 0 14 device)) ;;
  match r with
  | Some e => err "bind: %s" [e] ;; leave (-1)
  | None =>
      r <- sys_call (Getsockopt sock SO_ERROR) ;;
      match r with
      | inl e => err "getsockopt: %s" [e] ;; leave (-1)
      | inr pending => if 0 <? pending then err "bind: %s" [pending] ;; leave (-1) else leave 0
      end
  end.

(** [eval.data] is unsigned, the result an [int]. *)
Definition iface_ethtool_ioctl (cmd : Z) (cmdname : string) : body Z Z :=
  h <- get id ;;
  r <- sys_call (Ioctl (fd h) (SIOCETHTOOL (ifr_name (opt_source (lopt h))) cmd)) ;;
  match r with
  | inl e =>
      if (e =? EOPNOTSUPP) || (e =? EINVAL) then leave 0
      else err ("%s: SIOETHTOOL(" +:+ cmdname +:+ ") ioctl failed: %s") [e] ;; leave (-1)
  | inr data => leave (i32 data)
  end.

Definition iface_get_offload : body Z Z :=
  ret <- run (iface_ethtool_ioctl ETHTOOL_GTSO "ETHTOOL_GTSO") ;;
  if ret =? -1 then leave (-1) else if negb (ret =? 0) then leave 1 else
  ret <- run (iface_ethtool_ioctl ETHTOOL_GUFO "ETHTOOL_GUFO") ;;
  if ret =? -1 then leave (-1) else if negb (ret =? 0) then leave 1 else
  ret <- run (iface_ethtool_ioctl ETHTOOL_GGSO "ETHTOOL_GGSO") ;;
  if ret =? -1 then leave (-1) else if negb (ret =? 0) then leave 1 else
  ret <- run (iface_ethtool_ioctl ETHTOOL_GFLAGS "ETHTOOL_GFLAGS") ;;
  if ret =? -1 then leave (-1) else if negb (ret .& ETH_FLAG_LRO =? 0) then leave 1 else
  ret <- run (iface_ethtool_ioctl ETHTOOL_GGRO "ETHTOOL_GGRO") ;;
  if ret =? -1 then leave (-1) else if negb (ret =? 0) then leave 1 else leave 0.

(** ** [linux_if_drops] *)

(** [strtol] in base 10, for a 64-bit [long]. *)
Fixpoint digits_val (acc : Z) (s : string) : Z :=
  match s with
  | String c s' => let d := Z.of_nat (nat_of_ascii c) - 48 in
                   if (0 <=? d) && (d <=? 9) then digits_val (10 * acc + d) s' else acc
  | EmptyString => acc
  end.
Fixpoint skip_white (s : string) : string :=
  match s with
  | String c s' => let n := nat_of_ascii c in if (n =? 32)%nat || ((9 <=? n)%nat && (n <=? 13)%nat) then skip_white s' else s
  | EmptyString => s
  end.
Definition strtol10 (s : string) : Z :=
  let clamp z := Z.max (- 2 ^ 63) (Z.min z (2 ^ 63 - 1)) in
  match skip_white s with
  | String "-" s => clamp (- digits_val 0 s)
  | String "+" s => clamp (digits_val 0 s)
  | s => clamp (digits_val 0 s)
  end.

(** The two inner loops, each of which also takes the character that ends it,
    and the last loop, which does not. *)
Fixpoint past_spaces (s : string) : string :=
  match s with String " " s => past_spaces s | String _ s => s | EmptyString => s end.
Fixpoint past_word (s : string) : string :=
  match s with String " " s => s | String _ s => past_word s | EmptyString => s end.
Fixpoint drop_spaces (s : string) : string :=
  match s with String " " s => drop_spaces s | _ => s end.
Fixpoint skip_columns (n : nat) (s : string) : string :=
  match n, s with
  | S n, String _ _ => skip_columns n (past_word (past_spaces s))
  | _, _ => s
  end.

(** The rest of the line after the name and its colon. *)
Definition find_iface (if_name line : string) : option string :=
  match String.index 0 if_name line with
  | None => None
  | Some p =>
      let before := match p with O => true | S q => match String.get q line with Some " "%char => true | _ => false end end in
      match before, String.get (p + String.length if_name) line with
      | true, Some ":"%char => Some (String.substring (p + String.length if_name + 1) (String.length line) line)
      | _, _ => None
      end
  end.

Fixpoint scan_drops (if_name : string) (field_to_convert : nat) (lines : list string) : Z :=
  match lines with
  | [] => 0
  | line :: lines =>
      if negb (field_to_convert =? 4)%nat && match String.index 0 "bytes" line with Some _ => true | None => false end then
        scan_drops if_name 4 lines
      else
        match find_iface if_name line with
        | Some rest =>
            match drop_spaces (skip_columns (field_to_convert - 1) rest) with
            | EmptyString => 0
            | s => strtol10 s
            end
        | None => scan_drops if_name field_to_convert lines
        end
  end.

Definition linux_if_drops (if_name : string) : body Z Z :=
  r <- sys_call ProcNetDev ;;
  match r with
  | None => leave 0
  | Some lines => leave (scan_drops if_name 3 lines)
  end.

(** ** The link-layer type *)

Definition ARPHRD_ETHER := 1.
Definition ARPHRD_EETHER := 2.
Definition ARPHRD_AX25 := 3.
Definition ARPHRD_PRONET := 4.
Definition ARPHRD_CHAOS := 5.
Definition ARPHRD_IEEE802 := 6.
Definition ARPHRD_ARCNET := 7.
Definition ARPHRD_DLCI := 15.
Definition ARPHRD_ATM := 19.
Definition ARPHRD_METRICOM := 23.
Definition ARPHRD_SLIP := 256.
Definition ARPHRD_CSLIP := 257.
Definition ARPHRD_SLIP6 := 258.
Definition ARPHRD_CSLIP6 := 259.
Definition ARPHRD_ADAPT := 264.
Definition ARPHRD_CAN := 280.
Definition ARPHRD_PPP := 512.
Definition ARPHRD_CISCO := 513.
Definition ARPHRD_RAWHDLC := 518.
Definition ARPHRD_TUNNEL := 768.
Definition ARPHRD_FRAD := 770.
Definition ARPHRD_LOOPBACK := 772.
Definition ARPHRD_LOCALTLK := 773.
Definition ARPHRD_FDDI := 774.
Definition ARPHRD_SIT := 776.
Definition ARPHRD_IRDA := 783.
Definition ARPHRD_FCPP := 784.
Definition ARPHRD_FCAL := 785.
Definition ARPHRD_FCPL := 786.
Definition ARPHRD_FCFABRIC := 787.
Definition ARPHRD_IEEE802_TR := 800.
Definition ARPHRD_IEEE80211 := 801.
Definition ARPHRD_IEEE80211_PRISM := 802.
Definition ARPHRD_IEEE80211_RADIOTAP := 803.
Definition ARPHRD_IEEE802154 := 804.
Definition ARPHRD_LAPD := 8445.
Definition ARPHRD_NONE := 0xFFFE.

(** The link-layer type, from the case of PPP on. *)
Definition arphrd_linktype_ip (arptype : Z) (cooked_ok : bool) : Z :=
  let is_one := existsb (Z.eqb arptype) in
  if arptype =? ARPHRD_PPP then if cooked_ok then DLT_LINUX_SLL else DLT_RAW
  else if arptype =? ARPHRD_CISCO then DLT_C_HDLC
  else if is_one [ARPHRD_TUNNEL; ARPHRD_SIT; ARPHRD_CSLIP; ARPHRD_SLIP6; ARPHRD_CSLIP6; ARPHRD_ADAPT; ARPHRD_SLIP;
                  ARPHRD_RAWHDLC; ARPHRD_DLCI] then DLT_RAW
  else if arptype =? ARPHRD_FRAD then DLT_FRELAY
  else if arptype =? ARPHRD_LOCALTLK then DLT_LTALK
  else if is_one [ARPHRD_FCPP; ARPHRD_FCAL; ARPHRD_FCPL; ARPHRD_FCFABRIC] then DLT_IP_OVER_FC
  else if arptype =? ARPHRD_IRDA then DLT_LINUX_IRDA
  else if arptype =? ARPHRD_LAPD then DLT_LINUX_LAPD
  else if arptype =? ARPHRD_NONE then DLT_RAW
  else if arptype =? ARPHRD_IEEE802154 then DLT_IEEE802_15_4_NOFCS
  else -1.

(** The link-layer type. *)
Definition arphrd_linktype (arptype : Z) (cooked_ok : bool) : Z :=
  let is_one := existsb (Z.eqb arptype) in
  if is_one [ARPHRD_ETHER; ARPHRD_METRICOM; ARPHRD_LOOPBACK] then DLT_EN10MB
  else if arptype =? ARPHRD_EETHER then DLT_EN3MB
  else if arptype =? ARPHRD_AX25 then DLT_AX25_KISS
  else if arptype =? ARPHRD_PRONET then DLT_PRONET
  else if arptype =? ARPHRD_CHAOS then DLT_CHAOS
  else if arptype =? ARPHRD_CAN then DLT_CAN_SOCKETCAN
  else if is_one [ARPHRD_IEEE802_TR; ARPHRD_IEEE802] then DLT_IEEE802
  else if arptype =? ARPHRD_ARCNET then DLT_ARCNET_LINUX
  else if arptype =? ARPHRD_FDDI then DLT_FDDI
  else if arptype =? ARPHRD_ATM then if cooked_ok then DLT_LINUX_SLL else -1
  else if arptype =? ARPHRD_IEEE80211 then DLT_IEEE802_11
  else if arptype =? ARPHRD_IEEE80211_PRISM then DLT_PRISM_HEADER
  else if arptype =? ARPHRD_IEEE80211_RADIOTAP then DLT_IEEE802_11_RADIO
  else arphrd_linktype_ip arptype cooked_ok.

(** [None] if the offset stays as it is. *)
Definition arphrd_offset (arptype : Z) : option Z :=
  if existsb (Z.eqb arptype) [ARPHRD_ETHER; ARPHRD_METRICOM; ARPHRD_LOOPBACK; ARPHRD_IEEE802_TR; ARPHRD_IEEE802] then Some 2
  else if arptype =? ARPHRD_FDDI then Some 3
  else None.

Definition map_arphrd_to_dlt {R} (arptype : Z) (cooked_ok : bool) : body R unit :=
  (if arptype =? ARPHRD_ETHER then
     p <- sys_call (Malloc (4 * 2)) ;;
     if p =? 0 then put (fun h => with_dlts h None) else put (fun h => with_dlts h (Some (p, [DLT_EN10MB; DLT_DOCSIS])))
   else bret tt) ;;
  on_lx (fun x => with_linktype x (arphrd_linktype arptype cooked_ok)) ;;
  match arphrd_offset arptype with Some n => on_lx (fun x => with_offset x n) | None => bret tt end.

(** ** Monitor mode *)

Definition has_wext (sock : Z) (device : string) : body Z Z :=
  r <- sys_call (Ioctl sock (SIOCGIWNAME (iwr_name device))) ;;
  match r with
  | inr tt => leave 1
  | inl e =>
      err "%s: SIOCGIWPRIV: %s" [e] ;;
      (if e =? ENODEV then leave PCAP_ERROR_NO_SUCH_DEVICE else leave 0)
  end.

Inductive monitor_type :=
| MONITOR_WEXT | MONITOR_HOSTAP | MONITOR_PRISM | MONITOR_PRISM54 | MONITOR_ACX100 | MONITOR_RT2500 | MONITOR_RT2570
| MONITOR_RT73 | MONITOR_RTL8XXX.

(** The tests of a request's arguments. *)
Definition priv_type (p : iw_priv_args) (t : Z) : bool := priv_set_args p .& IW_PRIV_TYPE_MASK =? t.
Definition priv_fixed (p : iw_priv_args) : bool := negb (priv_set_args p .& IW_PRIV_SIZE_FIXED =? 0).
Definition priv_size (p : iw_priv_args) : Z := priv_set_args p .& IW_PRIV_SIZE_MASK.
Definition one_int (p : iw_priv_args) : bool := priv_type p IW_PRIV_TYPE_INT && priv_fixed p && (priv_size p =? 1).

(** The loop over the private requests: [montype] and [cmd] after it.  Every
    name but the last ends it. *)
Fixpoint scan_priv (priv : list iw_priv_args) (montype : monitor_type) (cmd : Z) : monitor_type * Z :=
  match priv with
  | [] => (montype, cmd)
  | p :: priv =>
      let found (ok : bool) (m : monitor_type) := if ok then (m, priv_cmd p) else (montype, cmd) in
      let named := String.eqb (priv_name p) in
      if named "monitor_type" then found (one_int p) MONITOR_HOSTAP
      else if named "set_prismhdr" then found (one_int p) MONITOR_PRISM54
      else if named "forceprismheader" then found (one_int p) MONITOR_RT2570
      else if named "forceprism" then found (priv_type p IW_PRIV_TYPE_CHAR && negb (priv_fixed p)) MONITOR_RT73
      else if named "prismhdr" then found (one_int p) MONITOR_RTL8XXX
      else if named "rfmontx" then found (priv_type p IW_PRIV_TYPE_INT && (priv_size p =? 2)) MONITOR_RT2500
      else if named "monitor" then
        if negb (priv_type p IW_PRIV_TYPE_INT) then (montype, cmd)
        else if negb (priv_fixed p) then (montype, cmd)
        else if priv_size p =? 1 then scan_priv priv MONITOR_PRISM (priv_cmd p)
        else if priv_size p =? 2 then scan_priv priv MONITOR_ACX100 (priv_cmd p)
        else scan_priv priv montype cmd
      else scan_priv priv montype cmd
  end.

(** The private requests of the device, up to the end of the loop. *)
Definition find_priv (sock : Z) (device : string) : body Z (monitor_type * Z) :=
  r <- sys_call (PrivCount sock (iwr_name device)) ;;
  match r with
  | None => err "%s: SIOCGIWPRIV with a zero-length buffer didn't fail!" [] ;; leave PCAP_ERROR
  | Some (e, count) =>
      if e =? EOPNOTSUPP then bret (MONITOR_WEXT, 0)
      else if negb (e =? E2BIG) then err "%s: SIOCGIWPRIV: %s" [e] ;; leave PCAP_ERROR
      else
        priv <- sys_call (Malloc (count * sizeof_iw_priv_args)) ;;
        if priv =? 0 then err "malloc: %s" [ENOMEM] ;; leave PCAP_ERROR
        else
          r <- sys_call (Ioctl sock (SIOCGIWPRIV (iwr_name device) count)) ;;
          match r with
          | inl e => err "%s: SIOCGIWPRIV: %s" [e] ;; sys_call (Free priv) ;; leave PCAP_ERROR
          | inr l =>
              let found := scan_priv l MONITOR_WEXT 0 in
              sys_call (Free priv) ;; bret found
          end
  end.

Definition pcap_do_addexit : body Z Z :=
  h <- get id ;;
  if did_atexit (globs h) then leave 1
  else
    ok <- sys_call Atexit ;;
    if negb ok then err "atexit failed" [] ;; leave 0
    else put (fun h => with_globs h (Globals true (pcaps_to_close (globs h)))) ;; leave 1.

Definition add_to_close {R} : body R unit :=
  put (fun h => with_globs h (Globals (did_atexit (globs h)) (pcap_add_to_pcaps_to_close (pcaps_to_close (globs h)) (self h)))).
Definition remove_from_close {R} : body R unit :=
  put (fun h => with_globs h (Globals (did_atexit (globs h)) (pcap_remove_from_pcaps_to_close (pcaps_to_close (globs h)) (self h)))).
Definition must {R} (what : Z) : body R unit := put (fun h => with_must h (must_do_on_close h .| what)).

Definition private {R} (sock : Z) (device : string) (cmd : Z) (args : iw_args) : body R bool :=
  r <- sys_call (Ioctl sock (IwPrivate (iwr_name device) cmd args)) ;;
  bret (match r with inr tt => true | inl _ => false end).

(** The choice of a radio header; what the word of [ireq] is then that is the
    mode in other requests. *)
Definition select_header (sock : Z) (device : string) (montype : monitor_type) (cmd : Z) : body Z Z :=
  let request args := private sock device cmd (IwInts args) in
  match montype with
  | MONITOR_WEXT | MONITOR_PRISM => bret IW_MODE_MONITOR
  | MONITOR_HOSTAP =>
      ok <- request [3] ;;
      if ok : bool then bret 3
      else
        ok <- request [2] ;;
        if ok : bool then bret 2 else request [1] ;; bret 1
  | MONITOR_PRISM54 => request [3] ;; bret 3
  | MONITOR_ACX100 =>
      r <- sys_call (Ioctl sock (SIOCGIWFREQ (iwr_name device))) ;;
      match r with
      | inl e => err "%s: SIOCGIWFREQ: %s" [e] ;; leave PCAP_ERROR
      | inr channel => request [1; channel] ;; bret 1
      end
  | MONITOR_RT2500 => request [0] ;; bret 0
  | MONITOR_RT2570 | MONITOR_RTL8XXX => request [1] ;; bret 1
  | MONITOR_RT73 =>
      text <- sys_call (AddressOf "1") ;;
      private sock device cmd (IwString "1") ;; bret text
  end.

(** From the call of [SIOCGIFFLAGS] on. *)
Definition enter_by_mode (sock : Z) (device : string) (montype : monitor_type) (cmd : Z) : body Z Z :=
  r <- sys_call (Ioctl sock (SIOCGIFFLAGS (ifr_name device))) ;;
  match r with
  | inl e => err "%s: Can't get flags: %s" [e] ;; leave PCAP_ERROR
  | inr flags =>
      let up := negb (flags .& IFF_UP =? 0) in
      let oldflags := if up then flags else 0 in
      r <- (if up then sys_call (Ioctl sock (SIOCSIFFLAGS (ifr_name device) (Z.ldiff flags IFF_UP))) else bret (inr tt)) ;;
      match r with
      | inl e => err "%s: Can't set flags: %s" [e] ;; leave PCAP_ERROR
      | inr tt =>
          r <- sys_call (Ioctl sock (SIOCSIWMODE (iwr_name device) IW_MODE_MONITOR)) ;;
          match r with
          | inl _ =>
              r <- sys_call (Ioctl sock (SIOCSIFFLAGS (ifr_name device) oldflags)) ;;
              match r with
              | inl e => err "%s: Can't set flags: %s" [e] ;; leave PCAP_ERROR
              | inr tt => leave PCAP_ERROR_RFMON_NOTSUP
              end
          | inr tt =>
              word <- select_header sock device montype cmd ;;
              r <- (if oldflags =? 0 then bret (inr tt) else sys_call (Ioctl sock (SIOCSIFFLAGS (ifr_name device) oldflags))) ;;
              match r with
              | inl e =>
                  err "%s: Can't set flags: %s" [e] ;;
                  h <- get id ;;
                  r <- sys_call (Ioctl (fd h) (SIOCSIWMODE (iwr_name device) word)) ;;
                  match r with
                  | inl e => sys_call (Stderr (Message "Can't restore interface wireless mode (SIOCSIWMODE failed: %s)." [e])) ;;
                             leave PCAP_ERROR
                  | inr tt => leave PCAP_ERROR
                  end
              | inr tt => must MUST_CLEAR_RFMON ;; add_to_close ;; leave 1
              end
          end
      end
  end.

Definition enter_rfmon_mode_wext (sock : Z) (device : string) : body Z Z :=
  ok <- run (has_wext sock device) ;;
  if ok <=? 0 then leave ok
  else
    '(montype, cmd) <- find_priv sock device ;;
    r <- sys_call (Ioctl sock (SIOCGIWMODE (iwr_name device))) ;;
    match r with
    | inl _ => leave PCAP_ERROR_RFMON_NOTSUP
    | inr mode =>
        if mode =? IW_MODE_MONITOR then leave 1
        else
          ok <- run pcap_do_addexit ;;
          if ok =? 0 then leave PCAP_ERROR_RFMON_NOTSUP
          else
            put (fun h => with_oldmode h mode) ;;
            match montype with
            | MONITOR_PRISM =>
                stray <- sys_call (StrayWords 3) ;;
                ok <- private sock device cmd (IwInts (3 :: stray)) ;;
                if ok : bool then must MUST_CLEAR_RFMON ;; add_to_close ;; leave 1
                else enter_by_mode sock device montype cmd
            | _ => enter_by_mode sock device montype cmd
            end
    end.

Definition enter_rfmon_mode (sock : Z) (device : string) : body Z Z :=
  ret <- run (enter_rfmon_mode_wext sock device) ;;
  if ret <? 0 then leave ret else if ret =? 1 then leave 1 else leave 0.

Definition ETH_P_ALL := 3.
Definition PF_INET := 2.
Definition PF_PACKET := 17.
Definition SOCK_DGRAM := 2.
Definition SOCK_RAW := 3.
Definition SOCK_PACKET := 10.

Definition pcap_can_set_rfmon_linux : body Z Z :=
  h <- get id ;;
  if String.eqb (opt_source (lopt h)) "any" then leave 0
  else
    r <- sys_call (OpenSocket PF_PACKET SOCK_RAW) ;;
    match r with
    | inl e => err "socket: %s" [e] ;; leave PCAP_ERROR
    | inr sock_fd =>
        r <- sys_call (Ioctl sock_fd (SIOCGIWMODE (iwr_name (opt_source (lopt h))))) ;;
        match r with
        | inr _ => sys_call (Close sock_fd) ;; leave 1
        | inl e =>
            if e =? ENODEV then
              err "SIOCGIWMODE failed: %s" [e] ;; sys_call (Close sock_fd) ;; leave PCAP_ERROR_NO_SUCH_DEVICE
            else sys_call (Close sock_fd) ;; leave 0
        end
    end.
