(* ===== verification/LinuxActivate.v ===== *)
(** [pcap-linux.c]: opening and closing a capture - [pcap_create_interface],
    [pcap_activate_linux], [activate_new], [activate_mmap], [create_ring],
    [activate_old], [pcap_cleanup_linux]. *)
From S2P Require Import Prelude CString CFile Bpf PcapInt Datalink GenConst Savefile Pcap LinuxInt LinuxSys LinuxIface.

#[local] Open Scope string_scope.
#[local] Open Scope Z_scope.
#[local] Open Scope c_scope.
#[local] Open Scope sys_scope.

Definition quoted_any : string := String "034" ("any" +:+ String "034" "").

(** [if (e) s;] *)
Definition unless_null {R} (p : Z) (m : body R unit) : body R unit := if p =? 0 then bret tt else m.

(** ** Closing *)

(** The fields that [pcap_cleanup_live_common] (pcap.c) clears. *)
Definition pcap_cleanup_live_common : body unit unit :=
  h <- get id ;;
  unless_null (buffer h) (sys_call (Free (buffer h)) ;; put (fun h => with_buffer h 0)) ;;
  match dlts h with
  | Some (p, _) => sys_call (Free p) ;; put (fun h => with_dlts h None)
  | None => bret tt
  end ;;
  unless_null (tstamp_ptr h) (sys_call (Free (tstamp_ptr h)) ;; put (fun h => with_tstamp_ptr h 0)) ;;
  on_lx (fun x => with_p x (with_fcode (l_p x) None)) ;;
  (if 0 <=? fd h then sys_call (Close (fd h)) ;; put (fun h => with_fd h (-1)) else bret tt) ;;
  put (fun h => with_selectable h (-1)).

(** The flags of the interface are restored by hand: the name is that of
    [md.device]. *)
Definition clear_promisc (name : string) : body unit unit :=
  h <- get id ;;
  r <- sys_call (Ioctl (fd h) (SIOCGIFFLAGS (ifr_name name))) ;;
  match r with
  | inl e => sys_call (Stderr (Message "Can't restore interface %s flags (SIOCGIFFLAGS failed: %s)." [e]))
  | inr flags =>
      if flags .& IFF_PROMISC =? 0 then bret tt
      else
        r <- sys_call (Ioctl (fd h) (SIOCSIFFLAGS (ifr_name name) (Z.ldiff flags IFF_PROMISC))) ;;
        match r with
        | inl e => sys_call (Stderr (Message "Can't restore interface %s flags (SIOCSIFFLAGS failed: %s)." [e]))
        | inr tt => bret tt
        end
  end.

Definition clear_rfmon (name : string) : body unit unit :=
  h <- get id ;;
  r <- sys_call (Ioctl (fd h) (SIOCGIFFLAGS (ifr_name name))) ;;
  oldflags <- match r with
              | inl _ => bret 0
              | inr flags =>
                  if flags .& IFF_UP =? 0 then bret 0
                  else
                    r <- sys_call (Ioctl (fd h) (SIOCSIFFLAGS (ifr_name name) (Z.ldiff flags IFF_UP))) ;;
                    bret (match r with inl _ => 0 | inr tt => flags end)
              end ;;
  r <- sys_call (Ioctl (fd h) (SIOCSIWMODE (iwr_name name) (oldmode h))) ;;
  match r with
  | inl e => sys_call (Stderr (Message "Can't restore interface %s wireless mode (SIOCSIWMODE failed: %s)." [e]))
  | inr tt => bret tt
  end ;;
  (if oldflags =? 0 then bret tt
   else
     r <- sys_call (Ioctl (fd h) (SIOCSIFFLAGS (ifr_name name) oldflags)) ;;
     match r with
     | inl e => sys_call (Stderr (Message "Can't bring interface %s back up (SIOCSIFFLAGS failed: %s)." [e]))
     | inr tt => bret tt
     end).

(** [md.device] is not [NULL] when there is something to do. *)
Definition device_name (h : live) : string := match m_device h with Some (_, s) => s | None => "" end.

Definition pcap_cleanup_linux : body unit unit :=
  h <- get id ;;
  (if must_do_on_close h =? 0 then bret tt
   else
     (if must_do_on_close h .& MUST_CLEAR_PROMISC =? 0 then bret tt else clear_promisc (device_name h)) ;;
     (if must_do_on_close h .& MUST_CLEAR_RFMON =? 0 then bret tt else clear_rfmon (device_name h)) ;;
     remove_from_close) ;;
  match mondevice h with
  | Some (p, _) => sys_call (Free p) ;; put (fun h => with_mondevice h None)
  | None => bret tt
  end ;;
  match m_device h with
  | Some (p, _) => sys_call (Free p) ;; put (fun h => with_device h None)
  | None => bret tt
  end ;;
  run pcap_cleanup_live_common.

Definition MAP_FAILED := -1.

Definition destroy_ring : body unit unit :=
  h <- get id ;;
  sys_call (Setsockopt (fd h) (PACKET_RX_RING (Req 0 0 0 0))) ;;
  unless_null (mmapbuf (md (lx h)))
    (sys_call (Munmap (mmapbuf (md (lx h))) (mmapbuflen (md (lx h)))) ;;
     on_lx (fun x => with_mmap x 0 (mmapbuflen (md x)))).

Definition pcap_cleanup_linux_mmap : body unit unit :=
  run destroy_ring ;;
  h <- get id ;;
  unless_null (oneshot_buffer (md (lx h)))
    (sys_call (Free (oneshot_buffer (md (lx h)))) ;; on_lx (fun x => with_oneshot x 0)) ;;
  run pcap_cleanup_linux.

(** ** [activate_new] *)

(** An [errno] of [socket]. *)
Definition socket_error (e : Z) : body Z Z :=
  err "socket: %s" [e] ;; (if (e =? EPERM) || (e =? EACCES) then leave PCAP_ERROR_PERM_DENIED else leave PCAP_ERROR).

Definition is_any (h : live) : bool := String.eqb (opt_source (lopt h)) "any".

(** The types that are captured in cooked mode. *)
Definition needs_cooked (linktype : Z) (device : string) : bool :=
  (linktype =? -1) || (linktype =? DLT_LINUX_SLL) || (linktype =? DLT_LINUX_IRDA) || (linktype =? DLT_LINUX_LAPD)
  || ((linktype =? DLT_EN10MB)
      && (String.eqb (String.substring 0 4 device) "isdn" || String.eqb (String.substring 0 4 device) "isdY")).

(** The socket is closed and opened anew: its descriptor. *)
Definition reopen_cooked (sock_fd arptype : Z) : body Z Z :=
  r <- sys_call (Close sock_fd) ;;
  match r with
  | Some e => err "close: %s" [e] ;; leave PCAP_ERROR
  | None =>
      r <- sys_call (OpenSocket PF_PACKET SOCK_DGRAM) ;;
      match r with
      | inl e => socket_error e
      | inr sock_fd =>
          on_lx (fun x => with_socket x (sock_packet (md x)) true) ;;
          h <- get id ;;
          match dlts h with
          | Some (p, _) => sys_call (Free p) ;; put (fun h => with_dlts h None)
          | None => bret tt
          end ;;
          (if linktype (l_p (lx h)) =? -1 then
             err "arptype %d not supported by libpcap - falling back to cooked socket" [arptype]
           else bret tt) ;;
          (if negb (linktype (l_p (lx h)) =? DLT_LINUX_IRDA) && negb (linktype (l_p (lx h)) =? DLT_LINUX_LAPD) then
             on_lx (fun x => with_linktype x DLT_LINUX_SLL)
           else bret tt) ;;
          bret sock_fd
      end
  end.

(** [close(sock_fd); return v;] *)
Definition close_leave {A} (sock_fd v : Z) : body Z A := sys_call (Close sock_fd) ;; leave v.

(** Monitor mode, and the device to use then. *)
Definition monitor_device (sock_fd : Z) (device : string) : body Z string :=
  h <- get id ;;
  if opt_rfmon (lopt h) =? 0 then bret device
  else
    e <- run (enter_rfmon_mode sock_fd device) ;;
    if e <? 0 then close_leave sock_fd e
    else if e =? 0 then close_leave sock_fd PCAP_ERROR_RFMON_NOTSUP
    else
      h <- get id ;;
      bret (match mondevice h with Some (_, d) => d | None => device end).

(** The device is not [any]: the descriptor of the socket bound to it. *)
Definition bind_device (sock_fd : Z) (device : string) : body Z Z :=
  on_lx (fun x => with_socket x (sock_packet (md x)) false) ;;
  device <- monitor_device sock_fd device ;;
  arptype <- run (iface_get_arptype sock_fd device) ;;
  if arptype <? 0 then close_leave sock_fd arptype
  else
    map_arphrd_to_dlt arptype true ;;
    h <- get id ;;
    sock_fd <- (if needs_cooked (linktype (l_p (lx h))) device then reopen_cooked sock_fd arptype else bret sock_fd) ;;
    i <- run (iface_get_id sock_fd device) ;;
    on_lx (fun x => with_ifindex x i) ;;
    if i =? -1 then close_leave sock_fd PCAP_ERROR
    else
      e <- run (iface_bind sock_fd i) ;;
      if e =? 1 then bret sock_fd
      else if e <? 0 then close_leave sock_fd e
      else close_leave sock_fd 0.

(** The [any] device; the socket stays open if monitor mode is asked for. *)
Definition bind_any (sock_fd : Z) : body Z Z :=
  h <- get id ;;
  if negb (opt_rfmon (lopt h) =? 0) then leave PCAP_ERROR_RFMON_NOTSUP
  else
    on_lx (fun x => with_ifindex (with_linktype (with_socket x (sock_packet (md x)) true) DLT_LINUX_SLL) (-1)) ;;
    bret sock_fd.

Definition vlan_offset_of (linktype : Z) : Z :=
  if linktype =? DLT_EN10MB then 2 * ETH_ALEN else if linktype =? DLT_LINUX_SLL then 14 else -1.

(** From the choice of promiscuous mode on. *)
Definition set_up_socket (sock_fd : Z) : body Z Z :=
  h <- get id ;;
  r <- (if negb (is_any h) && negb (opt_promisc (lopt h) =? 0) then
          sys_call (Setsockopt sock_fd (PACKET_ADD_MEMBERSHIP (ifindex (md (lx h)))))
        else bret None) ;;
  match r with
  | Some e => err "setsockopt: %s" [e] ;; close_leave sock_fd PCAP_ERROR
  | None =>
      r <- sys_call (Setsockopt sock_fd (PACKET_AUXDATA 1)) ;;
      if match r with Some e => negb (e =? ENOPROTOOPT) | None => false end then
        err "setsockopt: %s" (match r with Some e => [e] | None => [] end) ;; close_leave sock_fd PCAP_ERROR
      else
        on_lx (fun x => with_offset x (offset x + VLAN_TAG_LEN)) ;;
        on_lx (fun x => if cooked (md x) && (snapshot (l_p x) <? SLL_HDR_LEN + 1) then with_snapshot x (SLL_HDR_LEN + 1) else x) ;;
        on_lx (fun x => with_p x (with_bufsize (l_p x) (snapshot (l_p x)))) ;;
        on_lx (fun x => with_vlan_offset x (vlan_offset_of (linktype (l_p x)))) ;;
        put (fun h => with_fd h sock_fd) ;;
        leave 1
  end.

Definition activate_new : body Z Z :=
  h <- get id ;;
  let device := opt_source (lopt h) in
  r <- sys_call (OpenSocket PF_PACKET (if is_any h then SOCK_DGRAM else SOCK_RAW)) ;;
  match r with
  | inl e => if (e =? EINVAL) || (e =? EAFNOSUPPORT) then leave 0 else socket_error e
  | inr sock_fd =>
      on_lx (fun x => with_socket x false (cooked (md x))) ;;
      lo <- run (iface_get_id sock_fd "lo") ;;
      on_lx (fun x => with_offset (with_lo_ifindex x lo) 0) ;;
      sock_fd <- (if is_any h then bind_any sock_fd else bind_device sock_fd device) ;;
      set_up_socket sock_fd
  end.

(** ** The ring *)

Definition prepare_tpacket_socket : body Z Z :=
  on_lx (fun x => with_tpacket x TPACKET_V1 sizeof_tpacket_hdr) ;;
  h <- get id ;;
  r <- sys_call (Getsockopt (fd h) (GET_PACKET_HDRLEN TPACKET_V2)) ;;
  match r with
  | inl e =>
      if e =? ENOPROTOOPT then leave 1
      else err "can't get TPACKET_V2 header len on packet socket: %s" [e] ;; leave (-1)
  | inr val =>
      on_lx (fun x => with_tpacket x (tp_version (md x)) (u32 val)) ;;
      r <- sys_call (Setsockopt (fd h) (PACKET_VERSION TPACKET_V2)) ;;
      match r with
      | Some e => err "can't activate TPACKET_V2 on packet socket: %s" [e] ;; leave (-1)
      | None =>
          on_lx (fun x => with_tpacket x TPACKET_V2 (tp_hdrlen (md x))) ;;
          r <- sys_call (Setsockopt (fd h) (PACKET_RESERVE VLAN_TAG_LEN)) ;;
          match r with
          | Some e => err "can't set up reserve on packet socket: %s" [e] ;; leave (-1)
          | None => leave 1
          end
      end
  end.

(** [create_ring] gives its result and [*status]. *)
Definition frame_size_of : body (Z * Z) Z :=
  h <- get id ;;
  let frame_size := u32 (snapshot (l_p (lx h))) in
  if negb (linktype (l_p (lx h)) =? DLT_EN10MB) then bret frame_size
  else
    offload <- run iface_get_offload ;;
    if offload =? -1 then leave (-1, PCAP_ERROR)
    else if negb (offload =? 0) then bret frame_size
    else
      mtu <- run (iface_get_mtu (fd h) (opt_source (lopt h))) ;;
      if mtu =? -1 then leave (-1, PCAP_ERROR)
      else bret (if u32 (mtu + 18) <? frame_size then u32 (mtu + 18) else frame_size).

(** The place of the packet in a frame, as the kernel computes it. *)
Definition netoff_of (hdrlen maclen reserve : Z) : Z :=
  u32 (TPACKET_ALIGN (u32 (u32 (TPACKET_ALIGN hdrlen + sizeof_sockaddr_ll) + (if maclen <? 16 then 16 else maclen))) + reserve).
Definition tp_frame_size_of (hdrlen sk_type reserve frame_size : Z) : Z :=
  let maclen := if sk_type =? SOCK_DGRAM then 0 else MAX_LINKHEADER_SIZE in
  TPACKET_ALIGN (u32 (u32 (netoff_of hdrlen maclen reserve - maclen) + frame_size)).

(** The loop that doubles the size of a block: it ends before the size is
    shifted out, or never. *)
Fixpoint block_size_loop (fuel : nat) (block_size frame_size : Z) : option Z :=
  if frame_size <=? block_size then Some block_size
  else match fuel with O => None | S fuel => block_size_loop fuel (u32 (Z.shiftl block_size 1)) frame_size end.

(** The label [retry]; [tp_frame_nr] goes down each time. *)
Fixpoint request_ring (fuel : nat) (frame_size block_size frames_per_block frame_nr : Z) : body (Z * Z) tpacket_req :=
  h <- get id ;;
  let block_nr := frame_nr / frames_per_block in
  let frame_nr := u32 (block_nr * frames_per_block) in
  let req := Req block_size block_nr frame_size frame_nr in
  r <- sys_call (Setsockopt (fd h) (PACKET_RX_RING req)) ;;
  match r with
  | None => bret req
  | Some e =>
      if (e =? ENOMEM) && (1 <? block_nr) then
        match fuel with
        | O => wrong M_endless
        | S fuel =>
            request_ring fuel frame_size block_size frames_per_block
              (if frame_nr <? 20 then frame_nr - 1 else frame_nr - frame_nr / 20)
        end
      else if e =? ENOPROTOOPT then leave (0, 0)
      else err "can't create rx ring on packet socket: %s" [e] ;; leave (-1, PCAP_ERROR)
  end.

(** The addresses that the two loops store, one after the other. *)
Definition frame_addresses (base : Z) (req : tpacket_req) (frames_per_block : Z) : list Z :=
  flat_map (fun i => map (fun j => base + u32 (i * tp_block_size req) + j * tp_frame_size req) (seqZ 0 frames_per_block))
           (seqZ 0 (tp_block_nr req)).

(** From [mmap] on. *)
Definition map_ring (req : tpacket_req) (frames_per_block : Z) : body (Z * Z) (Z * Z) :=
  h <- get id ;;
  let buflen := u32 (tp_block_nr req * tp_block_size req) in
  r <- sys_call (Mmap buflen (fd h)) ;;
  match r with
  | inl e =>
      on_lx (fun x => with_mmap x MAP_FAILED buflen) ;;
      err "can't mmap rx ring: %s" [e] ;; run destroy_ring ;; leave (-1, PCAP_ERROR)
  | inr base =>
      on_lx (fun x => with_mmap x base buflen) ;;
      on_lx (fun x => with_cc x (i32 (tp_frame_nr req))) ;;
      p <- sys_call (Malloc (i32 (tp_frame_nr req) * 8)) ;;
      put (fun h => with_buffer h p) ;;
      if p =? 0 then
        err "can't allocate ring of frame headers: %s" [ENOMEM] ;; run destroy_ring ;; leave (-1, PCAP_ERROR)
      else
        put (fun h => with_frame_ptrs h (frame_addresses base req frames_per_block)) ;;
        on_lx (fun x => with_offset (with_p x (with_bufsize (l_p x) (i32 (tp_frame_size req)))) 0) ;;
        leave (1, 0)
  end.

Definition create_ring : body (Z * Z) (Z * Z) :=
  frame_size <- frame_size_of ;;
  h <- get id ;;
  r <- sys_call (Getsockopt (fd h) SO_TYPE) ;;
  match r with
  | inl e => err "getsockopt: %s" [e] ;; leave (-1, PCAP_ERROR)
  | inr sk_type =>
      r <- sys_call (Getsockopt (fd h) GET_PACKET_RESERVE) ;;
      reserve <- match r with
                 | inl e => if negb (e =? ENOPROTOOPT) then err "getsockopt: %s" [e] ;; leave (-1, PCAP_ERROR) else bret 0
                 | inr n => bret n
                 end ;;
      let size := tp_frame_size_of (tp_hdrlen (md (lx h))) sk_type reserve frame_size in
      if size =? 0 then wrong M_div_zero
      else
        let frame_nr := u32 (opt_buffer_size (lopt h)) / size in
        page <- sys_call Getpagesize ;;
        match block_size_loop 32 page size with
        | None => wrong M_endless
        | Some block_size =>
            let frames_per_block := block_size / size in
            req <- request_ring (Z.to_nat (frame_nr / frames_per_block)) size block_size frames_per_block frame_nr ;;
            map_ring req frames_per_block
        end
  end.

(** ** [activate_mmap] *)

Definition mmap_methods (m : methods) : methods :=
  Methods Pcap_read_linux_mmap Pcap_cleanup_linux_mmap Pcap_setfilter_linux_mmap Pcap_getnonblock_mmap Pcap_setnonblock_mmap
          (inject_m m) (setdirection_m m) (stats_m m) Pcap_oneshot_mmap.

Definition with_buffer_size (o : pcap_opt) (n : Z) : pcap_opt :=
  Opt n (opt_source o) (opt_promisc o) (opt_rfmon o) (opt_tstamp_type o).

(** Its result, and [*status] unless the result is 0. *)
Definition activate_mmap : body (Z * Z) (Z * Z) :=
  h <- get id ;;
  p <- sys_call (Malloc (snapshot (l_p (lx h)))) ;;
  on_lx (fun x => with_oneshot x p) ;;
  if p =? 0 then err "can't allocate oneshot buffer: %s" [ENOMEM] ;; leave (-1, PCAP_ERROR)
  else
    (if opt_buffer_size (lopt h) =? 0 then put (fun h => with_lopt h (with_buffer_size (lopt h) (2 * 1024 * 1024))) else bret tt) ;;
    ret <- run prepare_tpacket_socket ;;
    if ret =? -1 then sys_call (Free p) ;; leave (-1, PCAP_ERROR)
    else
      '(ret, status) <- run create_ring ;;
      if ret =? 0 then sys_call (Free p) ;; leave (0, status)
      else if ret =? -1 then sys_call (Free p) ;; leave (-1, status)
      else
        put (fun h => with_selectable (with_meths h (mmap_methods (meths h))) (fd h)) ;;
        leave (1, status).

(** ** [activate_old] *)

(** Promiscuous mode the old way. *)
Definition set_promisc_old (sock_fd : Z) (device : string) : body Z unit :=
  r <- sys_call (Ioctl sock_fd (SIOCGIFFLAGS (ifr_name device))) ;;
  match r with
  | inl e => err "SIOCGIFFLAGS: %s" [e] ;; leave PCAP_ERROR
  | inr flags =>
      if negb (flags .& IFF_PROMISC =? 0) then bret tt
      else
        ok <- run pcap_do_addexit ;;
        if ok =? 0 then leave PCAP_ERROR
        else
          r <- sys_call (Ioctl sock_fd (SIOCSIFFLAGS (ifr_name device) (flags .| IFF_PROMISC))) ;;
          match r with
          | inl e => err "SIOCSIFFLAGS: %s" [e] ;; leave PCAP_ERROR
          | inr tt => must MUST_CLEAR_PROMISC ;; add_to_close
          end
  end.

Definition activate_old : body Z Z :=
  r <- sys_call (OpenSocket PF_INET SOCK_PACKET) ;;
  match r with
  | inl e => put (fun h => with_fd h (-1)) ;; socket_error e
  | inr sock_fd =>
      put (fun h => with_fd h sock_fd) ;;
      on_lx (fun x => with_socket x true false) ;;
      h <- get id ;;
      let device := opt_source (lopt h) in
      if is_any h then
        err ("pcap_activate: The " +:+ quoted_any +:+ " device isn't supported on 2.0[.x]-kernel systems") [] ;; leave PCAP_ERROR
      else
        ret <- run (iface_bind_old sock_fd device) ;;
        if ret =? -1 then leave PCAP_ERROR
        else
          arptype <- run (iface_get_arptype sock_fd device) ;;
          if arptype <? 0 then leave PCAP_ERROR
          else
            map_arphrd_to_dlt arptype false ;;
            h <- get id ;;
            if linktype (l_p (lx h)) =? -1 then err "unknown arptype %d" [arptype] ;; leave PCAP_ERROR
            else
              (if opt_promisc (lopt h) =? 0 then bret tt else set_promisc_old sock_fd device) ;;
              u <- sys_call Uname ;;
              n <- (if match u with None => true | Some release => String.eqb (String.substring 0 3 release) "2.0" end then
                      mtu <- run (iface_get_mtu sock_fd device) ;;
                      if mtu =? -1 then leave PCAP_ERROR
                      else bret (Z.max (MAX_LINKHEADER_SIZE + mtu) (snapshot (l_p (lx h))))
                    else bret (snapshot (l_p (lx h)))) ;;
              on_lx (fun x => with_vlan_offset (with_offset (with_p x (with_bufsize (l_p x) n)) 0) (-1)) ;;
              leave 1
  end.

(** ** [pcap_activate_linux] *)

Definition linux_methods : methods :=
  Methods Pcap_read_linux Pcap_cleanup_linux Pcap_setfilter_linux Pcap_getnonblock_fd Pcap_setnonblock_fd
          Pcap_inject_linux Pcap_setdirection_linux Pcap_stats_linux Pcap_oneshot.

Definition without_promisc (o : pcap_opt) : pcap_opt :=
  Opt (opt_buffer_size o) (opt_source o) 0 (opt_rfmon o) (opt_tstamp_type o).

(** The label [fail]. *)
Definition fail_with {A} (status : Z) : body Z A := run pcap_cleanup_linux ;; leave status.

(** The capture reads from the socket. *)
Definition finish_socket : body Z Z :=
  h <- get id ;;
  r <- (if opt_buffer_size (lopt h) =? 0 then bret None
        else sys_call (Setsockopt (fd h) (SO_RCVBUF (opt_buffer_size (lopt h))))) ;;
  match r with
  | Some e => err "SO_RCVBUF: %s" [e] ;; fail_with PCAP_ERROR
  | None =>
      p <- sys_call (Malloc (bufsize (l_p (lx h)) + offset (lx h))) ;;
      put (fun h => with_buffer h p) ;;
      if p =? 0 then err "malloc: %s" [ENOMEM] ;; fail_with PCAP_ERROR
      else put (fun h => with_selectable h (fd h)) ;; leave 0
  end.

Definition pcap_activate_linux : body Z Z :=
  put (fun h => with_meths h linux_methods) ;;
  h <- get id ;;
  (if is_any h && negb (opt_promisc (lopt h) =? 0) then
     put (fun h => with_lopt h (without_promisc (lopt h))) ;;
     err ("Promiscuous mode not supported on the " +:+ quoted_any +:+ " device") []
   else bret tt) ;;
  let device := opt_source (lopt h) in
  p <- sys_call (Strdup device) ;;
  put (fun h => with_device h (if p =? 0 then None else Some (p, device))) ;;
  if p =? 0 then err "strdup: %s" [ENOMEM] ;; leave PCAP_ERROR
  else
    h <- get id ;;
    (if opt_promisc (lopt h) =? 0 then bret tt
     else dropped <- run (linux_if_drops device) ;; on_lx (fun x => with_stat x (stat (md x)) dropped)) ;;
    status <- run activate_new ;;
    if status <? 0 then fail_with status
    else if status =? 1 then
      '(r, status) <- run activate_mmap ;;
      if r =? 1 then leave status
      else if r =? -1 then fail_with status
      else finish_socket
    else
      status <- run activate_old ;;
      if negb (status =? 1) then fail_with status else finish_socket.

(** ** [pcap_activate] and [pcap_close] (pcap.c) *)

Definition initial_methods : methods :=
  Methods Not_initialized Pcap_cleanup_live_common Not_initialized Not_initialized Not_initialized Not_initialized
          Not_initialized Not_initialized Pcap_oneshot.

(** What [pcap_create_interface] returns when there is memory: [pcap_create_common] clears the structure; the
    address of the structure is [self]. *)
Definition pcap_create_interface (source : string) (self : Z) (g : globals) : live :=
  Live (Linux pcap0 (Md (Stat 0 0 0) 0 0 false false 0 0 0 0 0 0 0 0 0 0) 0 0 0) (-1) (-1) (Opt 0 source 0 0 (-1))
       0 [] None 0 None None 0 0 initial_methods None self g.

(** [pcap-usb-linux.c] *)
Definition usb_cleanup_linux_mmap : body unit unit :=
  h <- get id ;;
  unless_null (mmapbuf (md (lx h)))
    (sys_call (Munmap (mmapbuf (md (lx h))) (mmapbuflen (md (lx h)))) ;;
     on_lx (fun x => with_mmap x 0 (mmapbuflen (md x)))) ;;
  run pcap_cleanup_live_common.

(** [p->cleanup_op(p)] *)
Definition cleanup_op : body unit unit :=
  h <- get id ;;
  match cleanup_m (meths h) with
  | Pcap_cleanup_linux_mmap => run pcap_cleanup_linux_mmap
  | Pcap_cleanup_linux => run pcap_cleanup_linux
  | Usb_cleanup_linux_mmap => run usb_cleanup_linux_mmap
  | _ => run pcap_cleanup_live_common
  end.

(** [pcap_activate], where [activate_op] is the function of the device. *)
Definition activate_by (activate_op : body Z Z) : body Z Z :=
  h <- get id ;;
  if activated (l_p (lx h)) then err "can't perform  operation on activated capture" [] ;; leave PCAP_ERROR_ACTIVATED
  else
    status <- run activate_op ;;
    if 0 <=? status then
      on_lx (fun x => with_p x (with_activated (l_p x) true)) ;; leave status
    else
      put (fun h => match errbuf h with None => with_errbuf h (Message (pcap_statustostr status) []) | Some _ => h end) ;;
      put (fun h => with_meths h initial_methods) ;;
      leave status.
Definition activate_live : body Z Z := activate_by pcap_activate_linux.
