(* ===== verification/LinuxOs.v ===== *)
(** What the operating system may do when [pcap-linux.c] calls it: the
    documented behaviour of sockets, memory and interfaces, as far as it
    matters to a program that must give back what it takes; and the reasoning
    about every way the system may answer. *)
From stdpp Require Import gmap strings.
From S2P Require Import Prelude CString CFile Bpf PcapInt Pcap LinuxInt LinuxSys LinuxIface.

#[local] Open Scope Z_scope.
#[local] Open Scope c_scope.

(** ** The state of the system *)

(** An open packet socket: its type and the room it reserves in a frame; the
    type of other descriptors is 0. *)
Record sock := Sock { s_type : Z; s_reserve : Z }.

(** The open descriptors, the memory allocated - that of open directories,
    streams and lists of addresses included - and mapped, and the mode and the
    flags of the interface that is captured. *)
Record os := Os { socks : gmap Z sock; heap : gset Z; maps : gset Z; iwmode : Z; ifflags : Z }.

Definition with_socks (s : os) (x : gmap Z sock) : os := Os x (heap s) (maps s) (iwmode s) (ifflags s).
Definition with_heap (s : os) (x : gset Z) : os := Os (socks s) x (maps s) (iwmode s) (ifflags s).
Definition with_maps (s : os) (x : gset Z) : os := Os (socks s) (heap s) x (iwmode s) (ifflags s).
Definition with_iwmode (s : os) (x : Z) : os := Os (socks s) (heap s) (maps s) x (ifflags s).
Definition with_ifflags (s : os) (x : Z) : os := Os (socks s) (heap s) (maps s) (iwmode s) x.

(** What a program may do: it frees, closes and unmaps what it has, and once. *)
Definition allowed {X} (c : sysE X) (s : os) : Prop :=
  match c with
  | Free p => p ∈ heap s
  | Close fd => is_Some (socks s !! fd)
  | Munmap p _ => p ∈ maps s
  | Closedir p | Fclose p | Freeifaddrs p => p ∈ heap s
  | _ => True
  end.

(** A fresh piece of memory, or none. *)
Definition takes (s : os) (p : Z) (s' : os) : Prop := 0 < p /\ p ∉ heap s /\ s' = with_heap s ({[p]} ∪ heap s).
Definition allocates (s : os) (p : Z) (s' : os) : Prop := p = 0 /\ s' = s \/ takes s p s'.

(** The length of an address, by its family (fad-getad.c); an interface has a
    mask as long as its address. *)
Definition sockaddr_len (sa : list byte) : Z :=
  let family := le_combine (take 2 sa) in
  if family =? 2 then 16 else if family =? 10 then 28 else if family =? 17 then 20 else 16.
Definition ifaddrs_ok (i : ifaddrs) : Prop :=
  (forall a, ifa_addr i = Some a -> sockaddr_len a <= lenZ a /\ forall m, ifa_netmask i = Some m -> sockaddr_len a <= lenZ m) /\
  (forall a, ifa_ifu i = Some a -> sockaddr_len a <= lenZ a).

(** An [ioctl] that succeeds. *)
Definition ioctl_answers {X} (r : ioctl X) (s : os) : X -> os -> Prop :=
  match r in ioctl X return X -> os -> Prop with
  | SIOCGIFINDEX _ => fun i s' => 0 < i < 2 ^ 31 /\ s' = s
  | SIOCGIFMTU _ => fun mtu s' => 0 <= mtu < 2 ^ 31 - 4096 /\ s' = s
  | SIOCGIFHWADDR _ => fun family s' => 0 <= family < 2 ^ 16 /\ s' = s
  | SIOCETHTOOL _ _ => fun data s' => 0 <= data < 2 ^ 32 /\ s' = s
  | SIOCGIFFLAGS _ => fun flags s' => flags = ifflags s /\ s' = s
  | SIOCSIFFLAGS _ flags => fun _ s' => s' = with_ifflags s flags
  | SIOCGIWNAME _ => fun _ s' => s' = s
  | SIOCGIWPRIV _ n => fun l s' => lenZ l <= n /\ s' = s
  | SIOCGIWMODE _ => fun mode s' => mode = iwmode s /\ s' = s
  | SIOCSIWMODE _ mode => fun _ s' => s' = with_iwmode s mode
  | SIOCGIWFREQ _ => fun _ s' => s' = s
  | SIOCGIFADDR _ | SIOCGIFNETMASK _ => fun a s' => 0 <= a < 2 ^ 32 /\ s' = s
  | MON_IOCQ_RING_SIZE => fun n s' => 0 < n < 2 ^ 31 /\ s' = s
  | USBDEVFS_CONTROL _ => fun _ s' => s' = s
  | IwPrivate _ _ _ => fun _ s' => s' = s \/ s' = with_iwmode s IW_MODE_MONITOR
  end.

(** The system's answer and its state after it: a failure changes nothing,
    and what is not an open socket fails.  A kernel that does not know
    [PACKET_RESERVE] has not reserved anything. *)
Definition answers {X} (c : sysE X) (s : os) : X -> os -> Prop :=
  match c in sysE X return X -> os -> Prop with
  | Malloc _ | Strdup _ => fun p s' => allocates s p s'
  | AddressOf _ => fun _ s' => s' = s
  | StrayWords n => fun l s' => length l = n /\ s' = s
  | Free p => fun _ s' => s' = with_heap s (heap s ∖ {[p]})
  | OpenSocket _ type => fun r s' =>
      match r with
      | inl e => 0 < e /\ s' = s
      | inr fd => 0 <= fd /\ socks s !! fd = None /\ s' = with_socks s (<[fd := Sock type 0]> (socks s))
      end
  | Close fd => fun r s' => s' = with_socks s (delete fd (socks s))
  | Ioctl fd q => fun r s' =>
      match r with inl e => 0 < e /\ s' = s | inr x => is_Some (socks s !! fd) /\ ioctl_answers q s x s' end
  | PrivCount _ _ => fun r s' => s' = s /\ match r with Some (e, n) => 0 < e /\ 0 <= n < 2 ^ 16 | None => True end
  | Setsockopt fd o => fun r s' =>
      match r with
      | Some e => 0 < e /\ s' = s
      | None =>
          exists k, socks s !! fd = Some k /\
            s' = match o with PACKET_RESERVE n => with_socks s (<[fd := Sock (s_type k) n]> (socks s)) | _ => s end
      end
  | Getsockopt fd q => fun r s' =>
      s' = s /\
      match r with
      | inl e => 0 < e /\ (q = GET_PACKET_RESERVE -> e = ENOPROTOOPT -> forall k, socks s !! fd = Some k -> s_reserve k = 0)
      | inr v =>
          exists k, socks s !! fd = Some k /\
            match q with
            | SO_TYPE => v = s_type k
            | SO_ERROR => 0 <= v < 2 ^ 31
            | GET_PACKET_RESERVE => v = s_reserve k
            | GET_PACKET_HDRLEN _ => 0 < v <= 1024
            end
      end
  | OpenFile _ => fun r s' =>
      match r with
      | inl e => 0 < e /\ s' = s
      | inr fd => 0 <= fd /\ socks s !! fd = None /\ s' = with_socks s (<[fd := Sock 0 0]> (socks s))
      end
  | Opendir _ => fun r s' => match r with inl e => 0 < e /\ s' = s | inr d => takes s (dir_ptr d) s' end
  | Fopen _ => fun r s' => match r with inl e => 0 < e /\ s' = s | inr f => takes s (s_ptr f) s' end
  | Getifaddrs => fun r s' => match r with inl e => 0 < e /\ s' = s | inr (p, l) => takes s p s' /\ Forall ifaddrs_ok l end
  | Closedir p | Fclose p | Freeifaddrs p => fun _ s' => s' = with_heap s (heap s ∖ {[p]})
  | Lstat _ => fun _ s' => s' = s
  | Bind fd _ | BindOld fd _ | BindCan fd _ => fun r s' => s' = s /\ match r with Some e => 0 < e | None => is_Some (socks s !! fd) end
  | Mmap len fd => fun r s' =>
      match r with
      | inl e => 0 < e /\ s' = s
      | inr p => is_Some (socks s !! fd) /\ 0 < len /\ 0 < p /\ p ∉ maps s /\ s' = with_maps s ({[p]} ∪ maps s)
      end
  | Munmap p _ => fun _ s' => s' = with_maps s (maps s ∖ {[p]})
  | Getpagesize => fun p s' => s' = s /\ exists k, 12 <= k <= 16 /\ p = 2 ^ k
  | Uname | ProcNetDev | Atexit | Stderr _ => fun _ s' => s' = s
  end.

(** ** Every way a computation may go

    [always bad m Q s]: however the system answers, [m] asks for nothing that
    is not allowed and ends, in [Q] - or in a misuse that [bad] admits.  Two of
    them the system survives: closing a descriptor that is not open, and
    unmapping [MAP_FAILED], both of which only fail. *)
Definition permitted {X} (bad : misuse -> Prop) (c : sysE X) (s : os) : Prop :=
  allowed c s \/
  (bad M_closed /\ exists fd, match c with Close f => f = fd | _ => False end /\ socks s !! fd = None) \/
  (bad M_unmapped /\ match c with Munmap p _ => p = -1 | _ => False end).
Fixpoint always {A} (bad : misuse -> Prop) (m : sys A) (Q : A -> os -> Prop) (s : os) : Prop :=
  match m with
  | Done a => Q a s
  | Call c k => permitted bad c s /\ forall x s', answers c s x s' -> always bad (k x) Q s'
  | Wrong u => bad u
  end.

Lemma always_bind {A B} bad (m : sys A) (f : A -> sys B) Q s :
  always bad m (fun a => always bad (f a) Q) s -> always bad (sbind m f) Q s.
Proof.
  revert s. induction m as [a|X c k IH|u]; intros s H; [done| |done]. destruct H as [Ha H].
  split; [done|]. intros x s' Hx. apply IH. by apply H.
Qed.

Lemma always_weaken {A} bad (m : sys A) (Q Q' : A -> os -> Prop) s :
  (forall a s', Q a s' -> Q' a s') -> always bad m Q s -> always bad m Q' s.
Proof.
  intros HQ. revert s. induction m as [a|X c k IH|u]; intros s H; [by apply HQ| |done]. destruct H as [Ha H].
  split; [done|]. intros x s' Hx. apply IH. by apply H.
Qed.

(** The body of a function, from a handle and a state on. *)
Definition wp {R A} (bad : misuse -> Prop) (m : body R A) (Q : R + A -> live -> os -> Prop) (h : live) (s : os) : Prop :=
  always bad (m h) (fun '(r, h) s => Q r h s) s.

Section Wp.
Context {R : Type} (bad : misuse -> Prop).

Lemma wp_mono {A} (m : body R A) (Q Q' : R + A -> live -> os -> Prop) h s :
  (forall r h' s', Q r h' s' -> Q' r h' s') -> wp bad m Q h s -> wp bad m Q' h s.
Proof using. intros HQ. apply always_weaken. intros [r h'] s'. apply HQ. Qed.

Lemma wp_ret {A} (a : A) (Q : R + A -> live -> os -> Prop) h s : Q (inr a) h s -> wp bad (bret a) Q h s.
Proof using. done. Qed.
Lemma wp_leave {A} (r : R) (Q : R + A -> live -> os -> Prop) h s : Q (inl r) h s -> wp bad (leave r) Q h s.
Proof using. done. Qed.
Lemma wp_bind {A B} (m : body R A) (f : A -> body R B) (Q : R + B -> live -> os -> Prop) h s :
  wp bad m (fun r h s => match r with inl r => Q (inl r) h s | inr a => wp bad (f a) Q h s end) h s ->
  wp bad (bbind m f) Q h s.
Proof using.
  intros H. unfold wp, bbind. apply always_bind. unfold wp in H. eapply always_weaken; [|exact H].
  intros [[r|a] h'] s' HQ; exact HQ.
Qed.
Lemma wp_call {X} (c : sysE X) (Q : R + X -> live -> os -> Prop) h s :
  allowed c s -> (forall x s', answers c s x s' -> Q (inr x) h s') -> wp bad (sys_call c) Q h s.
Proof using. intros Ha H. split; [by left|exact H]. Qed.
Lemma wp_get {A} (f : live -> A) (Q : R + A -> live -> os -> Prop) h s : Q (inr (f h)) h s -> wp bad (get f) Q h s.
Proof using. done. Qed.
Lemma wp_put (f : live -> live) (Q : R + unit -> live -> os -> Prop) h s : Q (inr tt) (f h) s -> wp bad (put f) Q h s.
Proof using. done. Qed.
Lemma wp_err fmt args (Q : R + unit -> live -> os -> Prop) h s :
  Q (inr tt) (with_errbuf h (Message fmt args)) s -> wp bad (err fmt args) Q h s.
Proof using. done. Qed.
Lemma wp_on_lx f (Q : R + unit -> live -> os -> Prop) h s : Q (inr tt) (with_lx h (f (lx h))) s -> wp bad (on_lx f) Q h s.
Proof using. done. Qed.
Lemma wp_run {S} (m : body S S) (Q : R + S -> live -> os -> Prop) h s :
  wp bad m (fun r h s => Q (inr (match r with inl r => r | inr r => r end)) h s) h s -> wp bad (run m) Q h s.
Proof using.
  intros H. unfold wp, run. apply always_bind. eapply always_weaken; [|exact H]. intros [[r|r] h'] s' HQ; exact HQ.
Qed.
End Wp.

(** One step of a body; what the system answers is left to be told apart. *)
Ltac wp_step :=
  lazymatch goal with
  | |- wp _ (bret _) _ _ _ => apply wp_ret
  | |- wp _ (leave _) _ _ _ => apply wp_leave
  | |- wp _ (bbind _ _) _ _ _ => apply wp_bind
  | |- wp _ (get _) _ _ _ => apply wp_get; cbv [id]
  | |- wp _ (err _ _) _ _ _ => apply wp_err
  | |- wp _ (on_lx _) _ _ _ => apply wp_on_lx
  | |- wp _ (put _) _ _ _ => apply wp_put
  | |- wp _ (if ?b then _ else _) _ _ _ => destruct b eqn:?
  | |- wp _ (match ?x with inl _ => _ | inr _ => _ end) _ _ _ => destruct x
  | |- wp _ (match ?x with Some _ => _ | None => _ end) _ _ _ => destruct x
  | |- wp _ (match ?x with tt => _ end) _ _ _ => destruct x
  | |- wp _ (let (_, _) := ?x in _) _ _ _ => destruct x
  end.
