(* ===== verification/LinuxIfaceSpec.v ===== *)
(** What the questions about an interface leave alone: no socket is opened or
    closed, no memory is kept; what entering monitor mode changes; and the
    rules for what a computation has taken and not given back. *)
From stdpp Require Import gmap strings.
From S2P Require Import Prelude CString CFile Bpf Datalink PcapInt Pcap LinuxInt GenConst LinuxSys LinuxIface LinuxOs.

#[local] Open Scope Z_scope.
#[local] Open Scope c_scope.

(** The same sockets, memory and mappings. *)
Definition same_res (s s' : os) : Prop := socks s' = socks s /\ heap s' = heap s /\ maps s' = maps s.

Lemma same_res_refl s : same_res s s.
Proof. done. Qed.
Lemma same_res_trans s1 s2 s3 : same_res s1 s2 -> same_res s2 s3 -> same_res s1 s3.
Proof. intros (? & ? & ?) (? & ? & ?). split_and!; congruence. Qed.

(** The calls that do not touch them. *)
Definition quiet_call {X} (c : sysE X) : bool :=
  match c with
  | OpenFile _ | Opendir _ | Closedir _ | Fopen _ | Fclose _ | Getifaddrs | Freeifaddrs _ => false
  | Malloc _ | Strdup _ | Free _ | OpenSocket _ _ | Close _ | Mmap _ _ | Munmap _ _ | Setsockopt _ (PACKET_RESERVE _) => false
  | _ => true
  end.

Lemma ioctl_quiet {X} (r : ioctl X) s x s' : ioctl_answers r s x s' -> same_res s s'.
Proof. destruct r; cbn; intros H; destruct_and?; subst; try done. by destruct H as [->| ->]. Qed.

Lemma quiet_same {X} (c : sysE X) s x s' : quiet_call c = true -> answers c s x s' -> same_res s s'.
Proof.
  destruct c; cbn; intros Hq H; try discriminate; destruct_and?; subst; try done.
  - destruct x; destruct_and?; subst; [done|by eapply ioctl_quiet].
  - destruct x; [by destruct_and?; subst|]. destruct H as (k & Hk & ->). by destruct o.
Qed.

Lemma quiet_allowed {X} (c : sysE X) s : quiet_call c = true -> allowed c s.
Proof. by destruct c. Qed.

(** A handle with another text in [errbuf]. *)
Definition said (h : live) (e : option message) : live :=
  Live (lx h) (fd h) (selectable_fd h) (lopt h) (buffer h) (frame_ptrs h) (dlts h) (tstamp_ptr h) (m_device h) (mondevice h)
       (must_do_on_close h) (oldmode h) (meths h) e (self h) (globs h).

Lemma said_self h : said h (errbuf h) = h.
Proof. by destruct h. Qed.

(** A function that only asks: its value, and perhaps a message. *)
Definition quiet {A} (m : body A A) (P : A -> Prop) : Prop :=
  forall bad h s, wp bad m (fun r h' s' => (exists e, h' = said h e) /\ same_res s s' /\ P (match r with inl a => a | inr a => a end)) h s.

Section Quiet.
Context {R : Type} (bad : misuse -> Prop).

Lemma wp_quiet_call {X} (c : sysE X) (Q : R + X -> live -> os -> Prop) h s :
  quiet_call c = true -> (forall x s', answers c s x s' -> same_res s s' -> Q (inr x) h s') -> wp bad (sys_call c) Q h s.
Proof using. intros Hc H. apply wp_call; [by apply quiet_allowed|]. intros x s' Hx. apply H; [done|by eapply quiet_same]. Qed.

Lemma wp_run_quiet {A} (m : body A A) P (Q : R + A -> live -> os -> Prop) h s :
  quiet m P -> (forall a e s', same_res s s' -> P a -> Q (inr a) (said h e) s') -> wp bad (run m) Q h s.
Proof using.
  intros Hm H. apply wp_run. eapply wp_mono; [|apply (Hm bad h s)]. intros r h' s' ((e & ->) & Hs & HP). by apply H.
Qed.
End Quiet.

Ltac same_res_go :=
  first [ assumption | apply same_res_refl
        | match goal with H : same_res _ ?b |- same_res _ ?b => eapply same_res_trans; [|exact H]; same_res_go end ].

(** The proof of [quiet]: every call is one that does not touch resources. *)
Ltac quiet_done :=
  split; [lazymatch goal with
          | |- exists e, said ?h ?e' = _ => by exists e'
          | |- exists e, with_errbuf _ ?m = _ => by exists (Some m)
          | |- exists e, ?h = _ => exists (errbuf h); symmetry; apply said_self
          end | split; [same_res_go|try done]].
Ltac quiet_call :=
  apply wp_quiet_call; [done|]; intros ? ? ? ?.
Create HintDb quietdb.
Ltac quiet_step :=
  wp_step || quiet_call
  || (eapply wp_run_quiet; [solve [eauto with quietdb]|]; intros ? ? ? ? ?).
Ltac quiet_go := intros ???; repeat quiet_step; try quiet_done.

Lemma iface_get_id_quiet sock device : quiet (iface_get_id sock device) (fun i => i = -1 \/ 0 < i < 2 ^ 31).
Proof. unfold iface_get_id. quiet_go; [by left|]. cbn in *. destruct_and?. by right. Qed.
Lemma iface_get_mtu_quiet sock device : quiet (iface_get_mtu sock device) (fun mtu => mtu = -1 \/ 0 <= mtu < 2 ^ 31 - 4096).
Proof. unfold iface_get_mtu. quiet_go; [by left|]. cbn in *. destruct_and?. by right. Qed.
Lemma iface_get_arptype_quiet sock device :
  quiet (iface_get_arptype sock device) (fun a => a = PCAP_ERROR_NO_SUCH_DEVICE \/ a = PCAP_ERROR \/ 0 <= a < 2 ^ 16).
Proof. unfold iface_get_arptype. quiet_go; [by left|by right; left|]. cbn in *. destruct_and?. by right; right. Qed.
Lemma iface_bind_quiet sock i :
  quiet (iface_bind sock i) (fun e => e = 1 \/ e = 0 \/ e = PCAP_ERROR_IFACE_NOT_UP \/ e = PCAP_ERROR).
Proof. unfold iface_bind. quiet_go; tauto. Qed.
Lemma iface_bind_old_quiet sock device : quiet (iface_bind_old sock device) (fun e => e = 0 \/ e = -1).
Proof. unfold iface_bind_old. quiet_go; tauto. Qed.
Lemma iface_ethtool_quiet cmd name : quiet (iface_ethtool_ioctl cmd name) (fun _ => True).
Proof. unfold iface_ethtool_ioctl. quiet_go. Qed.
#[export] Hint Resolve iface_get_id_quiet iface_get_mtu_quiet iface_get_arptype_quiet iface_bind_quiet iface_bind_old_quiet
  iface_ethtool_quiet : quietdb.
Lemma iface_get_offload_quiet : quiet iface_get_offload (fun r => r = -1 \/ r = 0 \/ r = 1).
Proof. unfold iface_get_offload. quiet_go; tauto. Qed.
Lemma linux_if_drops_quiet name : quiet (linux_if_drops name) (fun _ => True).
Proof. unfold linux_if_drops. quiet_go. Qed.
Lemma has_wext_quiet sock device : quiet (has_wext sock device) (fun r => r = 1 \/ r = 0 \/ r = PCAP_ERROR_NO_SUCH_DEVICE).
Proof. unfold has_wext. quiet_go; tauto. Qed.
#[export] Hint Resolve iface_get_offload_quiet linux_if_drops_quiet has_wext_quiet : quietdb.

(** ** Monitor mode *)

(** What it may change of the handle. *)
Definition aside (h : live) (m o : Z) (g : globals) (e : option message) : live :=
  Live (lx h) (fd h) (selectable_fd h) (lopt h) (buffer h) (frame_ptrs h) (dlts h) (tstamp_ptr h) (m_device h) (mondevice h)
       m o (meths h) e (self h) g.
Definition puts_aside (h h' : live) : Prop := exists m o g e, h' = aside h m o g e.

Lemma puts_aside_refl h : puts_aside h h.
Proof. exists (must_do_on_close h), (oldmode h), (globs h), (errbuf h). by destruct h. Qed.
Lemma puts_aside_more h h1 m o g e : puts_aside h h1 -> puts_aside h (aside h1 m o g e).
Proof. intros (m1 & o1 & g1 & e1 & ->). by exists m, o, g, e. Qed.

(** A computation that keeps resources and changes no more than that. *)
Definition keeps {R A} (m : body R A) (P : R + A -> Prop) : Prop :=
  forall bad h s, wp bad m (fun r h' s' => puts_aside h h' /\ same_res s s' /\ P r) h s.

Lemma wp_keeps {R A} bad (m : body R A) P (Q : R + A -> live -> os -> Prop) h s :
  keeps m P -> (forall r h' s', puts_aside h h' -> same_res s s' -> P r -> Q r h' s') -> wp bad m Q h s.
Proof. intros Hm H. eapply wp_mono; [|apply (Hm bad h s)]. intros r h' s' (Hh & Hs & HP). by apply H. Qed.

Lemma wp_run_keeps {R A} bad (m : body A A) P (Q : R + A -> live -> os -> Prop) h s :
  keeps m P -> (forall r h' s', puts_aside h h' -> same_res s s' -> P r -> Q (inr (match r with inl a => a | inr a => a end)) h' s') ->
  wp bad (run m) Q h s.
Proof. intros Hm H. apply wp_run. by eapply wp_keeps. Qed.

Lemma puts_aside_trans h1 h2 h3 : puts_aside h1 h2 -> puts_aside h2 h3 -> puts_aside h1 h3.
Proof. intros (m1 & o1 & g1 & e1 & ->) (m2 & o2 & g2 & e2 & ->). by exists m2, o2, g2, e2. Qed.
Lemma puts_aside_said h h1 e : puts_aside h h1 -> puts_aside h (said h1 e).
Proof. intros H. exact (puts_aside_more h h1 _ _ _ e H). Qed.
Lemma puts_aside_err h h1 m : puts_aside h h1 -> puts_aside h (with_errbuf h1 m).
Proof. intros H. exact (puts_aside_more h h1 _ _ _ (Some m) H). Qed.
Lemma puts_aside_must h h1 n : puts_aside h h1 -> puts_aside h (with_must h1 n).
Proof. intros H. exact (puts_aside_more h h1 n _ _ _ H). Qed.
Lemma puts_aside_oldmode h h1 n : puts_aside h h1 -> puts_aside h (with_oldmode h1 n).
Proof. intros H. exact (puts_aside_more h h1 _ n _ _ H). Qed.
Lemma puts_aside_globs h h1 g : puts_aside h h1 -> puts_aside h (with_globs h1 g).
Proof. intros H. exact (puts_aside_more h h1 _ _ g _ H). Qed.

Ltac puts_aside_go :=
  first
    [ assumption | apply puts_aside_refl
    | first [apply puts_aside_said | apply puts_aside_err | apply puts_aside_must | apply puts_aside_oldmode | apply puts_aside_globs];
      puts_aside_go
    | match goal with H : puts_aside _ ?b |- puts_aside _ ?b => eapply puts_aside_trans; [|exact H]; puts_aside_go end ].
Create HintDb keepsdb.
Ltac keeps_step :=
  wp_step || quiet_call
  || (eapply wp_run_quiet; [solve [eauto with quietdb]|]; intros ? ? ? ? ?)
  || (eapply wp_run_keeps; [solve [eauto with keepsdb]|]; intros ? ? ? ? ? ?)
  || (eapply wp_keeps; [solve [eauto with keepsdb]|]; let Hk := fresh "Hk" in intros [?|?] ? ? ? ? Hk; try (exfalso; clear -Hk; intuition discriminate)).
Ltac keeps_done := split; [puts_aside_go|split; [same_res_go|try done]].
Ltac keeps_go := intros ???; repeat keeps_step; try keeps_done.

Lemma add_exit_keeps : keeps pcap_do_addexit (fun _ => True).
Proof. unfold pcap_do_addexit. keeps_go. Qed.
Lemma private_keeps {R} sock device cmd args : keeps (private (R := R) sock device cmd args) (fun r => r = inr true \/ r = inr false).
Proof. unfold private. keeps_go. match goal with |- context [match ?x with inl _ => _ | inr _ => _ end] => destruct x as [|[]] end; auto. Qed.
Lemma add_to_close_keeps {R} : keeps (add_to_close (R := R)) (fun r => r = inr tt).
Proof. unfold add_to_close. keeps_go. Qed.
Lemma remove_from_close_keeps {R} : keeps (remove_from_close (R := R)) (fun r => r = inr tt).
Proof. unfold remove_from_close. keeps_go. Qed.
Lemma must_keeps {R} n : keeps (must (R := R) n) (fun r => r = inr tt).
Proof. unfold must. keeps_go. Qed.
#[export] Hint Resolve add_exit_keeps private_keeps add_to_close_keeps remove_from_close_keeps must_keeps : keepsdb.

(** Memory taken and given back. *)
Lemma freed_again s p s2 : p ∉ heap s -> same_res (with_heap s ({[p]} ∪ heap s)) s2 ->
  p ∈ heap s2 /\ same_res s (with_heap s2 (heap s2 ∖ {[p]})).
Proof.
  intros Hp (Hs & Hh & Hm). cbn in *. split; [set_solver|]. split_and!; [done| |done]. cbn. rewrite Hh. set_solver.
Qed.

Lemma find_priv_keeps sock device : keeps (find_priv sock device) (fun r => match r with inl e => e = PCAP_ERROR | inr _ => True end).
Proof.
  unfold find_priv. intros bad h s. repeat keeps_step; try keeps_done.
  apply wp_call; [done|]. intros p s2 [[-> ->]|(Hp & Hn & ->)].
  { repeat keeps_step; keeps_done. }
  destruct (Z.eqb_spec p 0) as [->|_]; [lia|]. keeps_step. apply wp_quiet_call; [done|]. intros x s3 _ Hs.
  destruct (freed_again _ _ _ Hn Hs) as [Hin Hback].
  repeat keeps_step; (apply wp_call; [done|]); intros ?? Hf; cbn in Hf; subst; repeat keeps_step; keeps_done.
Qed.
#[export] Hint Resolve find_priv_keeps : keepsdb.

Lemma select_header_keeps sock device t cmd :
  keeps (select_header sock device t cmd) (fun r => match r with inl e => e = PCAP_ERROR | inr _ => True end).
Proof. unfold select_header. intros bad h s. destruct t; repeat keeps_step; keeps_done. Qed.
#[export] Hint Resolve select_header_keeps : keepsdb.

Definition at_most_one (r : Z + Z) : Prop := match r with inl v | inr v => v <= 1 end.

Lemma enter_by_mode_keeps sock device t cmd : keeps (enter_by_mode sock device t cmd) at_most_one.
Proof. unfold enter_by_mode. keeps_go; subst; unfold at_most_one, PCAP_ERROR; lia. Qed.
#[export] Hint Resolve enter_by_mode_keeps : keepsdb.

Lemma enter_wext_keeps sock device : keeps (enter_rfmon_mode_wext sock device) at_most_one.
Proof.
  unfold enter_rfmon_mode_wext. keeps_go; [unfold at_most_one; apply Z.leb_le in Heqb; lia|subst; unfold at_most_one, PCAP_ERROR; lia|].
  destruct m; repeat keeps_step; keeps_done.
Qed.
#[export] Hint Resolve enter_wext_keeps : keepsdb.

Lemma enter_rfmon_keeps sock device : keeps (enter_rfmon_mode sock device) at_most_one.
Proof. unfold enter_rfmon_mode. keeps_go. unfold at_most_one. apply Z.ltb_lt in Heqb. lia. Qed.
#[export] Hint Resolve enter_rfmon_keeps : keepsdb.

Definition owned (base cur : gset Z) (l : list Z) : Prop :=
  NoDup l /\ (forall p, p ∈ l -> p ∉ base) /\ cur = list_to_set l ∪ base.

(** From [s0] on, [F] has been opened, [H] allocated and [M] mapped. *)
Record holds (s0 s : os) (F H M : list Z) : Prop := Holds {
  ho_socks : owned (dom (socks s0)) (dom (socks s)) F;
  ho_heap : owned (heap s0) (heap s) H;
  ho_maps : owned (maps s0) (maps s) M }.

Lemma owned_nil base : owned base base [].
Proof. split_and!; [constructor|set_solver|set_solver]. Qed.
Lemma owned_perm base cur l l' : l ≡ₚ l' -> owned base cur l -> owned base cur l'.
Proof. intros Hp (Hn & Hd & ->). split_and!; [by rewrite <- Hp|intros p Hin; apply Hd; by rewrite Hp|by rewrite Hp]. Qed.
Lemma owned_add base cur l p : p ∉ cur -> owned base cur l -> owned base ({[p]} ∪ cur) (p :: l).
Proof.
  intros Hp (Hn & Hd & ->). rewrite not_elem_of_union, not_elem_of_list_to_set in Hp. destruct Hp as [Hl Hb].
  split_and!; [by constructor|intros q [->|Hq]%elem_of_cons; [done|by apply Hd]|rewrite list_to_set_cons; set_solver].
Qed.
Lemma owned_del base cur l p : owned base cur (p :: l) -> owned base (cur ∖ {[p]}) l.
Proof.
  intros (Hn & Hd & ->). apply NoDup_cons in Hn as [Hp Hn]. assert (p ∉ base) by (apply Hd; left).
  split_and!; [done|intros q Hq; apply Hd; by right|]. rewrite list_to_set_cons. apply set_eq. intros q.
  assert (p ∉@{gset Z} list_to_set l) by by rewrite elem_of_list_to_set. set_solver.
Qed.
Lemma owned_in base cur l p : owned base cur l -> p ∈ l -> p ∈ cur.
Proof. intros (_ & _ & ->) Hp. rewrite elem_of_union, elem_of_list_to_set. by left. Qed.

Lemma holds_start s : holds s s [] [] [].
Proof. split; apply owned_nil. Qed.
Lemma holds_same s0 s s' F H M : same_res s s' -> holds s0 s F H M -> holds s0 s' F H M.
Proof. intros (Es & Eh & Em) [Hs Hh Hm]. split; by rewrite ?Es, ?Eh, ?Em. Qed.
Lemma holds_reorder s0 s F H M F' H' M' : F ≡ₚ F' -> H ≡ₚ H' -> M ≡ₚ M' -> holds s0 s F H M -> holds s0 s F' H' M'.
Proof. intros ??? []. split; by eapply owned_perm. Qed.
Lemma holds_nothing s0 s : holds s0 s [] [] [] -> dom (socks s) = dom (socks s0) /\ heap s = heap s0 /\ maps s = maps s0.
Proof. intros [(_ & _ & ->) (_ & _ & ->) (_ & _ & ->)]. set_solver. Qed.

(** ** The calls *)

Section Calls.
Context {R : Type} (bad : misuse -> Prop) (s0 : os).

Lemma wp_malloc n (Q : R + Z -> live -> os -> Prop) h s F H M : holds s0 s F H M ->
  Q (inr 0) h s -> (forall p s', 0 < p -> holds s0 s' F (p :: H) M -> socks s' = socks s -> Q (inr p) h s') ->
  wp bad (sys_call (Malloc n)) Q h s.
Proof using.
  intros [Hs Hh Hm] H0 H1. apply wp_call; [done|]. intros p s' [[-> ->]|(Hp & Hn & ->)]; [done|].
  apply H1; [done| |done]. split; [done|by apply owned_add|done].
Qed.

Lemma wp_strdup t (Q : R + Z -> live -> os -> Prop) h s F H M : holds s0 s F H M ->
  Q (inr 0) h s -> (forall p s', 0 < p -> holds s0 s' F (p :: H) M -> socks s' = socks s -> Q (inr p) h s') ->
  wp bad (sys_call (Strdup t)) Q h s.
Proof using. exact (wp_malloc 0 Q h s F H M). Qed.

Lemma wp_free p (Q : R + unit -> live -> os -> Prop) h s F H H' M : holds s0 s F H M -> H ≡ₚ p :: H' ->
  (forall s', holds s0 s' F H' M -> socks s' = socks s -> Q (inr tt) h s') -> wp bad (sys_call (Free p)) Q h s.
Proof using.
  intros [Hs Hh Hm] Hp HQ. apply (owned_perm _ _ _ _ Hp) in Hh. apply wp_call.
  { eapply owned_in; [done|left]. }
  intros [] s' ->. apply HQ; [|done]. split; [done| |done]. by apply owned_del.
Qed.

Lemma wp_socket d t (Q : R + (Z + Z) -> live -> os -> Prop) h s F H M : holds s0 s F H M ->
  (forall e, 0 < e -> Q (inr (inl e)) h s) ->
  (forall f s', 0 <= f -> f ∉ F -> holds s0 s' (f :: F) H M -> socks s' = <[f := Sock t 0]> (socks s) -> Q (inr (inr f)) h s') ->
  wp bad (sys_call (OpenSocket d t)) Q h s.
Proof using.
  intros [Hs Hh Hm] H0 H1. apply wp_call; [done|]. intros [e|f] s'; cbn; [intros [He ->]; by apply H0|].
  intros (Hf & Hn & ->). assert (f ∉ dom (socks s)) by by apply not_elem_of_dom.
  apply H1; [done| | |done].
  - intros Hin. by eapply owned_in in Hs.
  - split; [|done|done]. cbn. rewrite dom_insert_L. by apply owned_add.
Qed.

Lemma wp_close f (Q : R + option Z -> live -> os -> Prop) h s F F' H M : holds s0 s F H M -> F ≡ₚ f :: F' ->
  (forall r s', holds s0 s' F' H M -> socks s' = delete f (socks s) -> Q (inr r) h s') -> wp bad (sys_call (Close f)) Q h s.
Proof using.
  intros [Hs Hh Hm] Hp HQ. apply (owned_perm _ _ _ _ Hp) in Hs. apply wp_call.
  { cbn. apply elem_of_dom. eapply owned_in; [done|left]. }
  intros r s' ->. apply HQ; [|done]. split; [|done|done]. cbn. rewrite dom_delete_L. by apply owned_del.
Qed.

Lemma wp_mmap n f (Q : R + (Z + Z) -> live -> os -> Prop) h s F H M : holds s0 s F H M ->
  (forall e, 0 < e -> Q (inr (inl e)) h s) ->
  (forall p s', 0 < p -> 0 < n -> holds s0 s' F H (p :: M) -> socks s' = socks s -> Q (inr (inr p)) h s') ->
  wp bad (sys_call (Mmap n f)) Q h s.
Proof using.
  intros [Hs Hh Hm] H0 H1. apply wp_call; [done|]. intros [e|p] s'; cbn; [intros [He ->]; by apply H0|].
  intros (_ & Hl & Hp & Hn & ->). apply H1; [done|done| |done]. split; [done|done|by apply owned_add].
Qed.

Lemma wp_munmap p n (Q : R + unit -> live -> os -> Prop) h s F H M : holds s0 s F H (p :: M) ->
  (forall s', holds s0 s' F H M -> socks s' = socks s -> Q (inr tt) h s') -> wp bad (sys_call (Munmap p n)) Q h s.
Proof using.
  intros [Hs Hh Hm] HQ. apply wp_call.
  { eapply owned_in; [done|left]. }
  intros [] s' ->. apply HQ; [|done]. split; [done|done|by apply owned_del].
Qed.
Lemma wp_munmap_failed n (Q : R + unit -> live -> os -> Prop) h s F H M : bad M_unmapped -> holds s0 s F H M -> -1 ∉ maps s ->
  (forall s', holds s0 s' F H M -> socks s' = socks s -> Q (inr tt) h s') -> wp bad (sys_call (Munmap (-1) n)) Q h s.
Proof using.
  intros Hbad [Hs Hh Hm] Hn HQ. split; [right; right; by split|]. intros [] s' ->. apply HQ; [|done]. split; [done|done|].
  cbn. replace (maps s ∖ {[-1]}) with (maps s) by set_solver. done.
Qed.

(** The room reserved in the frames of a socket that is held. *)
Lemma wp_reserve f n (Q : R + option Z -> live -> os -> Prop) h s F H M k : holds s0 s F H M -> socks s !! f = Some k ->
  (forall e, 0 < e -> Q (inr (Some e)) h s) ->
  (forall s', holds s0 s' F H M -> socks s' = <[f := Sock (s_type k) n]> (socks s) -> Q (inr None) h s') ->
  wp bad (sys_call (Setsockopt f (PACKET_RESERVE n))) Q h s.
Proof using.
  intros [Hs Hh Hm] Hk H0 H1. apply wp_call; [done|]. intros [e|] s'; cbn; [intros [He ->]; by apply H0|].
  intros (k' & Hk' & ->). rewrite Hk in Hk'. simplify_eq. apply H1; [|done]. split; [|done|done].
  cbn. rewrite dom_insert_L. apply elem_of_dom_2 in Hk. by replace ({[f]} ∪ dom (socks s)) with (dom (socks s)) by set_solver.
Qed.
End Calls.
