(* ===== verification/LinuxActivateSpec.v ===== *)
(** Opening and closing a capture: whatever the system answers, nothing is
    freed or closed twice, what has been taken is given back, and a capture
    that has been opened is ready to be read from; the sizes that [create_ring]
    computes for the ring do not wrap around, its loops end, and the frames it
    finds in the mapping are inside it and apart. *)
From stdpp Require Import gmap list_numbers.
From stdpp Require Import gmap strings.
From S2P Require Import Prelude CString CFile Bpf Datalink PcapInt Savefile Pcap LinuxInt GenConst LinuxSys LinuxIface LinuxActivate LinuxOs.
From S2P Require Import LinuxIfaceSpec.

#[local] Open Scope Z_scope.
#[local] Open Scope c_scope.

(** ** The size of a frame *)

Lemma align_spec x : 0 <= x <= 2 ^ 32 - 16 -> TPACKET_ALIGN x = 16 * ((x + 15) / 16).
Proof.
  intros Hx. unfold TPACKET_ALIGN. rewrite (uwrap_id 32) by clia. change 15 with (Z.ones 4) at 2.
  rewrite Z.ldiff_ones_r by lia. rewrite Z.shiftr_div_pow2, Z.shiftl_mul_pow2 by lia. change (2 ^ 4) with 16. lia.
Qed.

Lemma align_bounds x : 0 <= x <= 2 ^ 32 - 16 -> x <= TPACKET_ALIGN x <= x + 15.
Proof.
  intros Hx. rewrite align_spec by done. pose proof (Z.mod_pos_bound (x + 15) 16). pose proof (Z.div_mod (x + 15) 16). lia.
Qed.

(** Where the packet is in a frame. *)
Definition macoff_of (hdrlen sk_type reserve : Z) : Z :=
  let maclen := if sk_type =? SOCK_DGRAM then 0 else MAX_LINKHEADER_SIZE in netoff_of hdrlen maclen reserve - maclen.

Lemma macoff_exact hdrlen sk_type reserve : 0 < hdrlen <= 1024 -> 0 <= reserve <= 1024 ->
  macoff_of hdrlen sk_type reserve = TPACKET_ALIGN hdrlen + (if sk_type =? SOCK_DGRAM then 48 else 32) + reserve.
Proof.
  intros Hh Hr. unfold macoff_of, netoff_of, sizeof_sockaddr_ll, MAX_LINKHEADER_SIZE.
  rewrite (align_spec hdrlen) in * by lia. assert (1 <= (hdrlen + 15) / 16 <= 65) by (split; [apply Z.div_le_lower_bound|apply Z.div_le_upper_bound]; lia).
  set (a := (hdrlen + 15) / 16) in *. rewrite (uwrap_id 32 (16 * a + 20)) by clia.
  destruct (sk_type =? SOCK_DGRAM); cbn [Z.ltb Z.compare Pos.compare Pos.compare_cont].
  - rewrite (uwrap_id 32 (_ + 16)) by clia. rewrite align_spec by lia.
    replace ((16 * a + 20 + 16 + 15) / 16) with (a + 3) by (apply Z.div_unique with 3; lia). rewrite (uwrap_id 32) by clia. lia.
  - rewrite (uwrap_id 32 (_ + 256)) by clia. rewrite align_spec by lia.
    replace ((16 * a + 20 + 256 + 15) / 16) with (a + 18) by (apply Z.div_unique with 3; lia). rewrite (uwrap_id 32) by clia. lia.
Qed.

(** The header of the kernel, the address, and the room that is reserved end
    before it; in cooked mode there is room for the header of the library, too,
    and always for the tag of a VLAN, since the kernel aligns. *)
Lemma macoff_bounds hdrlen sk_type reserve : 0 < hdrlen <= 1024 -> 0 <= reserve <= 1024 ->
  TPACKET_ALIGN hdrlen + sizeof_sockaddr_ll + (if sk_type =? SOCK_DGRAM then SLL_HDR_LEN else 0) + VLAN_TAG_LEN + reserve
  <= macoff_of hdrlen sk_type reserve <= 2500.
Proof.
  intros Hh Hr. rewrite macoff_exact by done. unfold sizeof_sockaddr_ll, SLL_HDR_LEN, VLAN_TAG_LEN.
  pose proof (align_bounds hdrlen ltac:(lia)). destruct (sk_type =? SOCK_DGRAM); lia.
Qed.

Lemma frame_size_bounds hdrlen sk_type reserve n : 0 < hdrlen <= 1024 -> 0 <= reserve <= 1024 -> 0 <= n <= 2 ^ 31 - 4096 ->
  let size := tp_frame_size_of hdrlen sk_type reserve n in
  macoff_of hdrlen sk_type reserve + n <= size < 2 ^ 31 /\ 0 < size.
Proof.
  intros Hh Hr Hn. pose proof (macoff_bounds hdrlen sk_type reserve Hh Hr) as Hm. pose proof (align_bounds hdrlen ltac:(lia)).
  cbv zeta. unfold tp_frame_size_of, macoff_of in *. unfold sizeof_sockaddr_ll, SLL_HDR_LEN, VLAN_TAG_LEN in Hm. set (m := netoff_of _ _ _ - _) in *.
  assert (0 < m) by (destruct (sk_type =? SOCK_DGRAM); lia).
  rewrite (uwrap_id 32 m) by clia. rewrite (uwrap_id 32 (m + n)) by clia. pose proof (align_bounds (m + n) ltac:(lia)). lia.
Qed.

(** ** The size of a block *)

(** A power of two, at least a page and a frame, and not much more. *)
Record block_ok (page size block : Z) : Prop := BlockOk {
  bo_pow : exists j, 0 <= j <= 31 /\ block = 2 ^ j;
  bo_size : size <= block;
  bo_page : page <= block;
  bo_least : block = page \/ block < 2 * size }.

Lemma block_size_loop_from fuel j size : 0 < size <= 2 ^ 31 -> 0 <= j <= 31 -> 31 - j <= Z.of_nat fuel ->
  exists block, block_size_loop fuel (2 ^ j) size = Some block /\ block_ok (2 ^ j) size block.
Proof.
  revert j. induction fuel as [|fuel IH]; intros j Hs Hj Hf; cbn [block_size_loop];
    (destruct (Z.leb_spec size (2 ^ j)) as [Hle|Hlt];
     [exists (2 ^ j); split; [done|]; split; [by exists j|done|lia|by left]|]).
  { assert (j = 31) by lia. subst. lia. }
  assert (Hj' : j < 31). { destruct (Z.eq_dec j 31) as [->|]; lia. }
  rewrite Z.shiftl_mul_pow2 by lia. change (2 ^ 1) with 2.
  assert (Ep : 2 ^ j * 2 = 2 ^ (j + 1)) by (rewrite Z.pow_add_r by lia; lia).
  assert (2 ^ (j + 1) <= 2 ^ 31) by (apply Z.pow_le_mono_r; lia).
  rewrite (uwrap_id 32) by (split; [pose proof (Z.pow_pos_nonneg 2 j); lia|rewrite Ep; lia]).
  rewrite Ep. destruct (IH (j + 1) Hs ltac:(lia) ltac:(lia)) as (block & -> & [Hp Hb Hg Hl]). exists block. split; [done|].
  split; [done|done|lia|]. right. destruct Hl as [->|]; lia.
Qed.

Lemma block_size_ok k size : 0 < size <= 2 ^ 31 -> 12 <= k <= 16 ->
  exists block, block_size_loop 32 (2 ^ k) size = Some block /\ block_ok (2 ^ k) size block.
Proof. intros. apply block_size_loop_from; lia. Qed.

(** The frames of a block fill more than half of it. *)
Lemma frames_per_block_ok size block : 0 < size <= block ->
  let n := block / size in 1 <= n /\ n * size <= block < 2 * (n * size).
Proof.
  intros Hs. cbv zeta. pose proof (Z.div_mod block size ltac:(lia)). pose proof (Z.mod_pos_bound block size ltac:(lia)).
  assert (1 <= block / size) by (apply Z.div_le_lower_bound; lia). nia.
Qed.

(** ** The ring *)

(** The request that the kernel has granted: [per_block] frames in each block,
    no more than were asked for. *)
Record req_ok (req : tpacket_req) (per_block asked : Z) : Prop := ReqOk {
  rq_per_block : 1 <= per_block;
  rq_size : 0 < tp_frame_size req;
  rq_block : per_block * tp_frame_size req <= tp_block_size req < 2 * (per_block * tp_frame_size req);
  rq_nr : tp_frame_nr req = tp_block_nr req * per_block;
  rq_nonneg : 0 <= tp_block_nr req;
  rq_asked : tp_frame_nr req <= asked }.

(** What is mapped is less than twice the buffer that was asked for. *)
Lemma req_total req per_block asked n : req_ok req per_block asked -> asked * tp_frame_size req <= n ->
  tp_block_nr req * tp_block_size req <= 2 * n.
Proof. intros [H1 H2 H3 H4 H5 H6] Hn. rewrite H4 in H6. nia. Qed.

(** The frames at the addresses: as many as the ring has, each inside the
    mapping, and each before the next. *)
Record layout_ok (base len size : Z) (ptrs : list Z) : Prop := LayoutOk {
  lo_inside : forall i p, ptrs !! i = Some p -> base <= p /\ p + size <= base + len;
  lo_apart : forall i j p q, (i < j)%nat -> ptrs !! i = Some p -> ptrs !! j = Some q -> p + size <= q }.

Lemma length_frame_addresses base req n : 0 <= tp_block_nr req -> 0 <= n ->
  lenZ (frame_addresses base req n) = tp_block_nr req * n.
Proof.
  intros Hb Hn. unfold frame_addresses, lenZ.
  assert (H : forall l, Z.of_nat (length (flat_map (fun i => map (fun j => base + u32 (i * tp_block_size req) + j * tp_frame_size req) (seqZ 0 n)) l))
                        = Z.of_nat (length l) * n).
  { induction l as [|i l IH]; [done|]. cbn [flat_map]. rewrite length_app, length_map, length_seqZ. cbn [length]. lia. }
  rewrite H, length_seqZ. lia.
Qed.

Lemma frame_address_lookup base req n k p : 0 < n -> frame_addresses base req n !! k = Some p ->
  exists i j, 0 <= i < tp_block_nr req /\ 0 <= j < n /\ Z.of_nat k = i * n + j /\
    p = base + u32 (i * tp_block_size req) + j * tp_frame_size req.
Proof.
  intros Hn. unfold frame_addresses.
  assert (H : forall len s k, flat_map (fun i => map (fun j => base + u32 (i * tp_block_size req) + j * tp_frame_size req) (seqZ 0 n)) (seqZ s (Z.of_nat len)) !! k = Some p ->
    exists i j, s <= i < s + Z.of_nat len /\ 0 <= j < n /\ Z.of_nat k = (i - s) * n + j /\ p = base + u32 (i * tp_block_size req) + j * tp_frame_size req).
  { induction len as [|len IH]; intros s k' Hk.
    - rewrite (seqZ_nil s) in Hk by lia. done.
    - rewrite (seqZ_cons s) in Hk by lia. cbn [flat_map] in Hk. apply lookup_app_Some in Hk as [Hk|[Hlen Hk]].
      + rewrite list_lookup_fmap in Hk. apply fmap_Some in Hk as (j & Hj & ->). apply lookup_seqZ in Hj as [-> Hj].
        exists s, (0 + Z.of_nat k'). split_and!; lia.
      + replace (Z.pred (Z.of_nat (S len))) with (Z.of_nat len) in Hk by lia. apply IH in Hk as (i & j & Hi & Hj & Ek & ->).
        rewrite length_map, length_seqZ in Hlen, Ek. exists i, j. split_and!; lia. }
  intros Hk. destruct (Z.le_gt_cases (tp_block_nr req) 0) as [Hle|Hgt].
  { rewrite (seqZ_nil 0 (tp_block_nr req)) in Hk by lia. done. }
  specialize (H (Z.to_nat (tp_block_nr req)) 0 k). rewrite Z2Nat.id in H by lia. apply H in Hk as (i & j & ? & ? & Ek & ->).
  exists i, j. split_and!; lia.
Qed.

Lemma frame_layout base req n asked : req_ok req n asked -> tp_block_nr req * tp_block_size req < 2 ^ 32 ->
  layout_ok base (tp_block_nr req * tp_block_size req) (tp_frame_size req) (frame_addresses base req n).
Proof.
  intros [H1 H2 H3 H4 H5 H6] Hlen.
  assert (Hu : forall i, 0 <= i < tp_block_nr req -> u32 (i * tp_block_size req) = i * tp_block_size req).
  { intros i Hi. apply uwrap_id. split; [nia|]. nia. }
  split.
  - intros k p Hk. apply frame_address_lookup in Hk as (i & j & Hi & Hj & _ & ->); [|lia]. rewrite Hu by done. nia.
  - intros k1 k2 p q Hlt Hp Hq. apply frame_address_lookup in Hp as (i & j & Hi & Hj & E1 & ->); [|lia].
    apply frame_address_lookup in Hq as (i' & j' & Hi' & Hj' & E2 & ->); [|lia]. rewrite !Hu by done.
    assert (i < i' \/ i = i' /\ j < j') as [Hlt'|[-> Hlt']] by nia; nia.
Qed.

(** ** What a handle holds *)

Definition opt_ptr {A} (o : option (Z * A)) : list Z := match o with Some (p, _) => [p] | None => [] end.
Definition non_null (p : Z) : list Z := if p =? 0 then [] else [p].
Definition non_neg (f : Z) : list Z := if 0 <=? f then [f] else [].

(** The memory of a handle [h] opened from [h0], beside [L]; its sockets are
    [F], its mappings [M].  The other fields are as they were. *)
Record held (s0 : os) (h0 : live) (F L M : list Z) (h : live) (s : os) : Prop := Held {
  he_holds : holds s0 s F (non_null (buffer h) ++ opt_ptr (dlts h) ++ opt_ptr (m_device h) ++ L) M;
  he_tstamp : tstamp_ptr h = 0;
  he_mondevice : mondevice h = None;
  he_opt : opt_source (lopt h) = opt_source (lopt h0) /\ opt_rfmon (lopt h) = opt_rfmon (lopt h0) }.

(** Changes of the handle that [held] does not see. *)
Definition same_held (h h' : live) : Prop :=
  buffer h' = buffer h /\ dlts h' = dlts h /\ m_device h' = m_device h /\ tstamp_ptr h' = tstamp_ptr h /\
  mondevice h' = mondevice h /\ lopt h' = lopt h.

Lemma held_same s0 h0 F L M h s h' s' : same_held h h' -> same_res s s' -> held s0 h0 F L M h s -> held s0 h0 F L M h' s'.
Proof.
  intros (Eb & Ed & Em & Et & Eo & El) Hs [Hh Ht Hm Ho]. split; rewrite ?Eb, ?Ed, ?Em, ?Et, ?Eo, ?El; try done. by eapply holds_same.
Qed.
Lemma said_same h e : same_held h (said h e).
Proof. done. Qed.
Lemma aside_same h h' : puts_aside h h' -> same_held h h'.
Proof. by intros (m & o & g & e & ->). Qed.

(** ** Closing *)

Ltac no_result := repeat match goal with x : unit |- _ => destruct x end; done.
Lemma clear_promisc_keeps name : keeps (clear_promisc name) (fun r => r = inr tt).
Proof. unfold clear_promisc. keeps_go; no_result. Qed.
Lemma clear_rfmon_keeps name : keeps (clear_rfmon name) (fun r => r = inr tt).
Proof. unfold clear_rfmon. keeps_go; no_result. Qed.
#[export] Hint Resolve clear_promisc_keeps clear_rfmon_keeps : keepsdb.

Section Close.
Context (bad : misuse -> Prop) (s0 : os) (h0 : live).

Lemma wp_mono_post {R A} (m : body R A) (Q Q' : R + A -> live -> os -> Prop) h s :
  wp bad m Q h s -> (forall r h' s', Q r h' s' -> Q' r h' s') -> wp bad m Q' h s.
Proof using. intros H HQ. by eapply wp_mono. Qed.

Lemma wp_free_non_null {R} p f (Q : R + unit -> live -> os -> Prop) h s F H M : holds s0 s F (non_null p ++ H) M ->
  (forall h' s', p = 0 /\ h' = h \/ h' = f h -> holds s0 s' F H M -> socks s' = socks s -> Q (inr tt) h' s') ->
  wp bad (unless_null p (bbind (sys_call (Free p)) (fun _ => put f))) Q h s.
Proof using.
  unfold unless_null, non_null. intros Hh HQ. destruct (Z.eqb_spec p 0); [apply wp_ret, HQ; auto|].
  apply wp_bind. eapply wp_free; [exact Hh|exact (Permutation_refl (p :: H))|]. intros s' Hs' Es. apply wp_put, HQ; auto.
Qed.

Lemma wp_free_opt {R A} (o : option (Z * A)) f (Q : R + unit -> live -> os -> Prop) h s F H M : holds s0 s F (opt_ptr o ++ H) M ->
  (forall h' s', o = None /\ h' = h \/ h' = f h -> holds s0 s' F H M -> socks s' = socks s -> Q (inr tt) h' s') ->
  wp bad (match o with Some (p, _) => bbind (sys_call (Free p)) (fun _ => put f) | None => bret tt end) Q h s.
Proof using.
  intros Hh HQ. destruct o as [[p a]|]; [|apply wp_ret, HQ; auto].
  apply wp_bind. eapply wp_free; [exact Hh|exact (Permutation_refl (p :: H))|]. intros s' Hs' Es. apply wp_put, HQ; auto.
Qed.

(** A handle that holds nothing but the name of its device. *)
Record emptied (h : live) : Prop := Emptied {
  em_buffer : buffer h = 0;
  em_dlts : dlts h = None;
  em_tstamp : tstamp_ptr h = 0;
  em_mondevice : mondevice h = None;
  em_fd : fd h < 0 }.

(** The end of [pcap_cleanup_live_common]. *)
Definition close_rest (f : Z) : body unit unit :=
  bbind (on_lx (fun x => with_p x (with_fcode (l_p x) None))) (fun _ =>
  bbind (if 0 <=? f then bbind (sys_call (Close f)) (fun _ => put (fun h => with_fd h (-1))) else bret tt) (fun _ =>
  put (fun h => with_selectable h (-1)))).

Lemma cleanup_frees_wp F L M h s (Q : unit + unit -> live -> os -> Prop) : held s0 h0 F L M h s ->
  (forall h' s', buffer h' = 0 /\ tstamp_ptr h' = 0 /\ mondevice h' = None /\ m_device h' = m_device h /\ dlts h' = None /\ fd h' = fd h ->
    holds s0 s' F (opt_ptr (m_device h) ++ L) M -> wp bad (close_rest (fd h)) Q h' s') -> wp bad pcap_cleanup_live_common Q h s.
Proof using.
  intros [Hh Ht Hm _] HQ. unfold pcap_cleanup_live_common. do 3 wp_step.
  eapply wp_free_non_null; [exact Hh|]. intros h1 s1 E1 H1 _.
  assert (B1 : buffer h1 = 0 /\ tstamp_ptr h1 = 0 /\ mondevice h1 = None /\ m_device h1 = m_device h /\ dlts h1 = dlts h /\ fd h1 = fd h)
    by by destruct E1 as [[? ->]| ->]. clear E1. wp_step.
  eapply wp_free_opt; [exact H1|]. intros h2 s2 E2 H2 _.
  assert (B2 : buffer h2 = 0 /\ tstamp_ptr h2 = 0 /\ mondevice h2 = None /\ m_device h2 = m_device h /\ dlts h2 = None /\ fd h2 = fd h)
    by (destruct E2 as [[? ->]| ->]; destruct_and! B1; split_and!; cbn; congruence). clear E2 B1. wp_step.
  eapply wp_free_non_null; [rewrite Ht; exact H2|]. intros h3 s3 E3 H3 _. apply HQ; [|exact H3].
  destruct E3 as [[? ->]| ->]; destruct_and! B2; split_and!; cbn; congruence.
Qed.

Lemma cleanup_live_common_wp F L M h s : held s0 h0 (non_neg (fd h) ++ F) L M h s ->
  wp bad pcap_cleanup_live_common (fun _ h' s' => holds s0 s' F (opt_ptr (m_device h) ++ L) M /\ emptied h' /\ m_device h' = m_device h) h s.
Proof using.
  intros Hh. eapply cleanup_frees_wp; [exact Hh|]. intros h3 s3 B3 H3. unfold close_rest. do 2 wp_step.
  destruct_and! B3. unfold non_neg in H3. destruct (Z.leb_spec 0 (fd h)); repeat wp_step.
  - eapply wp_close; [exact H3|exact (Permutation_refl (fd h :: F))|]. intros r s4 Hs4 _. repeat wp_step. split; [done|]. by split; [split|].
  - split; [done|]. split; [split; try done; cbn; lia|done].
Qed.

(** A descriptor that has been closed is closed again. *)
Lemma cleanup_closed_wp F L M h s : bad M_closed -> 0 <= fd h -> fd h ∉ dom (socks s0) -> fd h ∉ F -> held s0 h0 F L M h s ->
  wp bad pcap_cleanup_live_common (fun _ h' s' => holds s0 s' F (opt_ptr (m_device h) ++ L) M /\ emptied h' /\ m_device h' = m_device h) h s.
Proof using.
  intros Hbad Hfd Hn0 HnF Hh. eapply cleanup_frees_wp; [exact Hh|]. intros h3 s3 B3 H3. unfold close_rest. do 2 wp_step.
  destruct_and! B3. destruct (Z.leb_spec 0 (fd h)); [|lia]. do 2 wp_step.
  assert (Hno : socks s3 !! fd h = None).
  { apply not_elem_of_dom. destruct H3 as [(_ & _ & ->) _ _]. rewrite elem_of_union, elem_of_list_to_set. tauto. }
  split; [right; left; split; [done|]; by exists (fd h)|]. intros r s4 ->. cbn [sbind]. split; [|by split; [split|]].
  destruct H3 as [A1 A2 A3]. split; [|done|done]. cbn. by rewrite delete_id.
Qed.

Lemma perm_third (a b l : list Z) p : a ++ b ++ [p] ++ l ≡ₚ p :: a ++ b ++ l.
Proof using. rewrite !(assoc_L app a b). symmetry. apply Permutation_middle. Qed.

Lemma perm_fourth (a b c l : list Z) p : a ++ b ++ c ++ p :: l ≡ₚ p :: a ++ b ++ c ++ l.
Proof using. rewrite !(assoc_L app). symmetry. apply Permutation_middle. Qed.

(** What is to be restored when closing. *)
Definition restore (h : live) : body unit unit :=
  if must_do_on_close h =? 0 then bret tt
  else
    bbind (if must_do_on_close h .& MUST_CLEAR_PROMISC =? 0 then bret tt else clear_promisc (device_name h)) (fun _ =>
    bbind (if must_do_on_close h .& MUST_CLEAR_RFMON =? 0 then bret tt else clear_rfmon (device_name h)) (fun _ =>
    remove_from_close)).
Lemma restore_keeps h : keeps (restore h) (fun r => r = inr tt).
Proof using. unfold restore. keeps_go. Qed.

Lemma cleanup_linux_wp F L M h s : held s0 h0 (non_neg (fd h) ++ F) L M h s ->
  wp bad pcap_cleanup_linux (fun _ h' s' => holds s0 s' F L M /\ emptied h' /\ m_device h' = None) h s.
Proof using.
  intros Hh. unfold pcap_cleanup_linux. do 3 wp_step. eapply wp_keeps; [apply restore_keeps|].
  intros r h1 s1 Ha Hs ->. apply (held_same _ _ _ _ _ _ _ _ _ (aside_same _ _ Ha) Hs) in Hh as Hh1.
  destruct Hh as [_ _ Hm _]. rewrite Hm. assert (Ef : fd h1 = fd h) by by destruct Ha as (? & ? & ? & ? & ->).
  destruct (aside_same _ _ Ha) as (_ & _ & Ed & _). rewrite <- Ef in Hh1. repeat wp_step.
  - destruct Hh1 as [H1 Ht1 Hm1 Ho1]. rewrite Ed in H1. eapply wp_free; [exact H1| |].
    { apply perm_third. }
    intros s3 H3 _. repeat wp_step. apply wp_run. eapply wp_mono_post; [apply (cleanup_live_common_wp F L M)|done].
    by split.
  - apply wp_run. eapply wp_mono_post; [by apply (cleanup_live_common_wp F L M)|]. rewrite Ed. done.
Qed.

Lemma destroy_ring_wp F L M h s : mmapbuf (md (lx h)) = 0 \/ mmapbuf (md (lx h)) = MAP_FAILED /\ -1 ∉ maps s /\ bad M_unmapped ->
  held s0 h0 F L M h s ->
  wp bad destroy_ring (fun _ h' s' => held s0 h0 F L M h' s' /\ exists x, h' = with_lx h x) h s.
Proof using.
  intros Hm Hh. unfold destroy_ring, unless_null. do 3 wp_step. quiet_call. wp_step; [wp_step|].
  { split; [by eapply held_same|]. exists (lx h). by destruct h. }
  destruct Hm as [Hm|(Hm & Hn & Hun)]; rewrite Hm in *; [done|]. destruct Hh as [H1 Ht Ho Hl].
  apply wp_bind. eapply wp_munmap_failed; [done|by eapply holds_same|by destruct H0 as (_ & _ & ->)|].
  intros s2 H2 _. repeat wp_step. split; [by split|]. by eexists.
Qed.

Lemma unmap_ring_wp F L M h s : 0 < mmapbuf (md (lx h)) -> held s0 h0 F L (mmapbuf (md (lx h)) :: M) h s ->
  wp bad destroy_ring (fun _ h' s' => held s0 h0 F L M h' s' /\ exists x, h' = with_lx h x /\ oneshot_buffer (md x) = oneshot_buffer (md (lx h))) h s.
Proof using.
  intros Hm Hh. unfold destroy_ring, unless_null. do 3 wp_step. quiet_call. wp_step; [apply Z.eqb_eq in Heqb; lia|].
  destruct Hh as [H1 Ht Ho Hl]. apply wp_bind. eapply wp_munmap; [by eapply holds_same|].
  intros s2 H2 _. repeat wp_step. split; [by split|]. by eexists.
Qed.

(** A capture from a mapped ring. *)
Lemma cleanup_mmap_wp F L h s : 0 < mmapbuf (md (lx h)) -> 0 < oneshot_buffer (md (lx h)) ->
  held s0 h0 (non_neg (fd h) ++ F) (oneshot_buffer (md (lx h)) :: L) [mmapbuf (md (lx h))] h s ->
  wp bad pcap_cleanup_linux_mmap (fun _ h' s' => holds s0 s' F L [] /\ emptied h' /\ m_device h' = None) h s.
Proof using.
  intros Hm Ho Hh. unfold pcap_cleanup_linux_mmap, unless_null. wp_step. apply wp_run.
  eapply wp_mono_post; [by eapply unmap_ring_wp|]. intros r h1 s1 (H1 & x & -> & Ex). do 3 wp_step. cbn [lx with_lx]. rewrite Ex.
  wp_step; [apply Z.eqb_eq in Heqb; lia|]. destruct H1 as [H1 Ht1 Ho1 Hl1]. apply wp_bind.
  eapply wp_free; [exact H1|apply perm_fourth|]. intros s2 H2 _. repeat wp_step. apply wp_run.
  eapply wp_mono_post; [by apply (cleanup_linux_wp F L [])|done].
Qed.
End Close.

(** ** Opening a packet socket *)

(** What is settled before the link-layer type is asked for. *)
Record same_core (h h' : live) : Prop := SameCore {
  sc_buffer : buffer h' = buffer h;
  sc_device : m_device h' = m_device h;
  sc_tstamp : tstamp_ptr h' = tstamp_ptr h;
  sc_mondevice : mondevice h' = mondevice h;
  sc_lopt : lopt h' = lopt h;
  sc_meths : meths h' = meths h;
  sc_old : sock_packet (md (lx h')) = sock_packet (md (lx h));
  sc_map : mmapbuf (md (lx h')) = mmapbuf (md (lx h));
  sc_oneshot : oneshot_buffer (md (lx h')) = oneshot_buffer (md (lx h)) }.

Record same_base (h h' : live) : Prop := SameBase {
  sb_core : same_core h h';
  sb_fd : fd h' = fd h;
  sb_snapshot : snapshot (l_p (lx h')) = snapshot (l_p (lx h)) }.

Lemma same_core_refl h : same_core h h.
Proof. by split. Qed.
Lemma same_core_trans h1 h2 h3 : same_core h1 h2 -> same_core h2 h3 -> same_core h1 h3.
Proof. intros [] []. split; congruence. Qed.
Lemma same_base_refl h : same_base h h.
Proof. split; [apply same_core_refl|done..]. Qed.
Lemma same_base_trans h1 h2 h3 : same_base h1 h2 -> same_base h2 h3 -> same_base h1 h3.
Proof. intros [] []. split; [by eapply same_core_trans|congruence..]. Qed.
Lemma same_base_said h e : same_base h (said h e).
Proof. by split. Qed.
Lemma same_base_aside h h' : puts_aside h h' -> same_base h h'.
Proof. intros (m & o & g & e & ->). by split. Qed.

Ltac base_go := split; [split; done|done|done].

(** The type of the socket and the link-layer type that go together. *)
Definition link_ok (type : Z) (h : live) : Prop :=
  let l := linktype (l_p (lx h)) in
  if cooked (md (lx h)) then type = SOCK_DGRAM /\ (l = DLT_LINUX_SLL \/ l = DLT_LINUX_IRDA \/ l = DLT_LINUX_LAPD) /\ dlts h = None
  else type = SOCK_RAW /\ l <> -1 /\ l <> DLT_LINUX_SLL /\ l <> DLT_LINUX_IRDA /\ l <> DLT_LINUX_LAPD.

Section Open.
Context (bad : misuse -> Prop) (s0 : os) (h0 : live).

(** The rules for what leaves the sockets and the memory alone. *)
Lemma wp_ask {R A} (m : body A A) P (Q : R + A -> live -> os -> Prop) F L M h s :
  quiet m P -> held s0 h0 F L M h s ->
  (forall a e s', held s0 h0 F L M (said h e) s' -> socks s' = socks s -> P a -> Q (inr a) (said h e) s') -> wp bad (run m) Q h s.
Proof using.
  intros Hm Hh HQ. eapply wp_run_quiet; [done|]. intros a e s' Hs Ha. apply HQ; [|apply Hs|done].
  by eapply held_same; [apply said_same|done|].
Qed.

Lemma wp_ask_call {R X} (c : sysE X) (Q : R + X -> live -> os -> Prop) F L M h s :
  quiet_call c = true -> held s0 h0 F L M h s ->
  (forall x s', answers c s x s' -> held s0 h0 F L M h s' -> socks s' = socks s -> Q (inr x) h s') -> wp bad (sys_call c) Q h s.
Proof using.
  intros Hc Hh HQ. apply wp_quiet_call; [done|]. intros x s' Hx Hs. apply HQ; [done| |apply Hs]. by eapply held_same.
Qed.

Lemma wp_closed {R} f (Q : R + option Z -> live -> os -> Prop) F L M h s : held s0 h0 (f :: F) L M h s ->
  (forall r s', held s0 h0 F L M h s' -> Q (inr r) h s') -> wp bad (sys_call (Close f)) Q h s.
Proof using.
  intros [H1 H2 H3 H4] HQ. eapply wp_close; [exact H1|done|]. intros r s' H' _. apply HQ. by split.
Qed.

Lemma wp_opened {R} d t (Q : R + (Z + Z) -> live -> os -> Prop) F L M h s : held s0 h0 F L M h s ->
  (forall e, 0 < e -> Q (inr (inl e)) h s) ->
  (forall f s', 0 <= f -> held s0 h0 (f :: F) L M h s' -> socks s' !! f = Some (Sock t 0) -> Q (inr (inr f)) h s') ->
  wp bad (sys_call (OpenSocket d t)) Q h s.
Proof using.
  intros [H1 H2 H3 H4] HQ0 HQ. eapply wp_socket; [exact H1|exact HQ0|]. intros f s' Hf _ H' Es.
  apply HQ; [done|by split|by rewrite Es, lookup_insert_eq].
Qed.

Lemma socket_error_wp e (Q : Z + Z -> live -> os -> Prop) h s :
  (forall e' v, v = PCAP_ERROR \/ v = PCAP_ERROR_PERM_DENIED -> Q (inl v) (said h e') s) -> wp bad (socket_error e) Q h s.
Proof using. intros HQ. unfold socket_error. repeat wp_step; apply (HQ (Some _)); auto. Qed.

Lemma close_leave_wp {A} f v (Q : Z + A -> live -> os -> Prop) F L M h s : held s0 h0 (f :: F) L M h s ->
  (forall s', held s0 h0 F L M h s' -> Q (inl v) h s') -> wp bad (close_leave f v) Q h s.
Proof using. intros Hh HQ. unfold close_leave. wp_step. eapply wp_closed; [done|]. intros r s' H'. wp_step. by apply HQ. Qed.

(** What [bind_device] may end in. *)
Definition bound (h : live) (F L M : list Z) (r : Z + Z) (h' : live) (s' : os) : Prop :=
  same_base h h' /\
  match r with
  | inl v => v <= 0 /\ held s0 h0 F L M h' s'
  | inr f => 0 <= f /\ held s0 h0 (f :: F) L M h' s' /\ exists type, socks s' !! f = Some (Sock type 0) /\ link_ok type h'
  end.

Lemma monitor_device_wp f device F L M h s : held s0 h0 (f :: F) L M h s ->
  wp bad (monitor_device f device) (fun r h' s' => same_base h h' /\ lx h' = lx h /\ dlts h' = dlts h /\
    match r with
    | inl v => v <= 0 /\ held s0 h0 F L M h' s'
    | inr _ => held s0 h0 (f :: F) L M h' s' /\ socks s' = socks s
    end) h s.
Proof using.
  intros Hh. unfold monitor_device. do 3 wp_step.
  { wp_step. split; [apply same_base_refl|done]. }
  wp_step. eapply wp_run_keeps; [apply enter_rfmon_keeps|]. intros r h1 s1 Ha Hs Hr.
  assert (Hh1 : held s0 h0 (f :: F) L M h1 s1) by by eapply held_same; [apply aside_same|..].
  pose proof (same_base_aside _ _ Ha) as Hb. assert (El : lx h1 = lx h /\ dlts h1 = dlts h) by by destruct Ha as (? & ? & ? & ? & ->).
  destruct El as [El Ed]. wp_step; [|wp_step].
  - eapply close_leave_wp; [done|]. intros s2 H2. split_and!; try done. destruct r; apply Z.ltb_lt in Heqb0; lia.
  - eapply close_leave_wp; [done|]. intros s2 H2. done.
  - repeat wp_step. split_and!; try done. apply Hs.
Qed.

(** A handle whose part that reading uses is another. *)
Lemma held_lx F L M h s x : held s0 h0 F L M h s -> held s0 h0 F L M (with_lx h x) s.
Proof using. by apply held_same. Qed.

Lemma held_said F L M h s e : held s0 h0 F L M h s -> held s0 h0 F L M (said h e) s.
Proof using. by apply held_same. Qed.

Lemma held_err F L M h s m : held s0 h0 F L M h s -> held s0 h0 F L M (with_errbuf h m) s.
Proof using. by apply held_same. Qed.

(** The choice of a link-layer type; the memory of a list that there already
    was is lost. *)
Lemma map_arphrd_again_wp {R} arptype ok (Q : R + unit -> live -> os -> Prop) F L M h s :
  held s0 h0 F L M h s ->
  (forall lost h' s', lost = [] \/ lost = opt_ptr (dlts h) -> held s0 h0 F (lost ++ L) M h' s' -> socks s' = socks s -> same_base h h' ->
     linktype (l_p (lx h')) = arphrd_linktype arptype ok -> cooked (md (lx h')) = cooked (md (lx h)) -> Q (inr tt) h' s') ->
  wp bad (map_arphrd_to_dlt arptype ok) Q h s.
Proof using.
  intros Hh HQ. unfold map_arphrd_to_dlt.
  assert (Htail : forall lost h1 s1, lost = [] \/ lost = opt_ptr (dlts h) -> held s0 h0 F (lost ++ L) M h1 s1 -> socks s1 = socks s ->
    same_base h h1 -> cooked (md (lx h1)) = cooked (md (lx h)) ->
    wp bad (bbind (on_lx (fun x => with_linktype x (arphrd_linktype arptype ok))) (fun _ =>
      match arphrd_offset arptype with Some n => on_lx (fun x => with_offset x n) | None => bret tt end)) Q h1 s1).
  { intros lost h1 s1 Hl H1 Es Hb Hc. do 2 wp_step.
    destruct (arphrd_offset arptype); wp_step; eapply HQ; try done; try (by repeat apply held_lx); (eapply same_base_trans; [done|by split]). }
  wp_step. destruct (arptype =? ARPHRD_ETHER).
  - wp_step. destruct Hh as [H1 H2 H3 H4].
    eapply wp_malloc; [exact H1| |].
    + cbn [Z.eqb]. wp_step. eapply Htail; [by right| |done|by split|done]. split; try done. eapply holds_reorder; [done| |done|exact H1]. cbn.
      rewrite (app_assoc (opt_ptr (dlts h))), (Permutation_app_comm (opt_ptr (dlts h))). by rewrite <- app_assoc.
    + intros p s1 Hp' Hs1 Es. destruct (Z.eqb_spec p 0) as [->|_]; [lia|]. wp_step. eapply Htail; [by right| |done|by split|done].
      split; try done. eapply holds_reorder; [done| |done|exact Hs1]. cbn.
      rewrite (app_assoc (opt_ptr (dlts h))), (Permutation_app_comm (opt_ptr (dlts h))), <- app_assoc. apply Permutation_middle.
  - wp_step. eapply (Htail []); [by left|done|done|apply same_base_refl|done].
Qed.

Lemma map_arphrd_wp {R} arptype ok (Q : R + unit -> live -> os -> Prop) F L M h s :
  held s0 h0 F L M h s -> dlts h = None ->
  (forall h' s', held s0 h0 F L M h' s' -> socks s' = socks s -> same_base h h' ->
     linktype (l_p (lx h')) = arphrd_linktype arptype ok -> cooked (md (lx h')) = cooked (md (lx h)) -> Q (inr tt) h' s') ->
  wp bad (map_arphrd_to_dlt arptype ok) Q h s.
Proof using.
  intros Hh Hd HQ. eapply map_arphrd_again_wp; [done|]. rewrite Hd. intros lost h' s' [->| ->] H'; by apply HQ.
Qed.

Lemma wp_drop_dlts {R} F L M o (Q : R + unit -> live -> os -> Prop) h s : o = dlts h -> held s0 h0 F L M h s ->
  (forall s', held s0 h0 F L M (with_dlts h None) s' -> socks s' = socks s -> Q (inr tt) (with_dlts h None) s') ->
  wp bad (match o with Some (p, _) => bbind (sys_call (Free p)) (fun _ => put (fun h => with_dlts h None)) | None => bret tt end) Q h s.
Proof using.
  intros -> Hh HQ. destruct (dlts h) as [[p l]|] eqn:Ed.
  - wp_step. destruct Hh as [H1 H2 H3 H4]. eapply wp_free; [exact H1|rewrite Ed; cbn; symmetry; apply Permutation_middle|].
    intros s' H' Es. wp_step. apply HQ; [by split|done].
  - wp_step. assert (Eh : h = with_dlts h None) by (destruct h; cbn in *; by subst). rewrite Eh. apply HQ; [by rewrite <- Eh|done].
Qed.

Lemma reopen_cooked_wp f arptype (Q : Z + Z -> live -> os -> Prop) F L M h s : held s0 h0 (f :: F) L M h s ->
  (forall v h' s', v <= 0 -> same_base h h' -> held s0 h0 F L M h' s' -> Q (inl v) h' s') ->
  (forall f' h' s', 0 <= f' -> same_base h h' -> held s0 h0 (f' :: F) L M h' s' -> socks s' !! f' = Some (Sock SOCK_DGRAM 0) ->
     link_ok SOCK_DGRAM h' -> cooked (md (lx h')) = true -> Q (inr f') h' s') ->
  wp bad (reopen_cooked f arptype) Q h s.
Proof using.
  intros Hh HQ0 HQ. unfold reopen_cooked. wp_step. eapply wp_closed; [done|]. intros [e|] s1 H1.
  { repeat wp_step. apply HQ0; [done|by split|]. by apply held_err. }
  wp_step. eapply wp_opened; [done| |].
  { intros e He. apply socket_error_wp. intros e' v Hv. apply HQ0; [by destruct Hv as [->| ->]|by split|]. by apply held_said. }
  intros f' s2 Hf' H2 Ef'. do 5 wp_step. cbn [lx dlts with_lx].
  apply (wp_drop_dlts (f' :: F) L M); [done|by apply held_lx|]. intros s3 H3 E3. wp_step. cbn [l_p with_socket with_md].
  rewrite <- E3 in Ef'. set (hc := with_dlts _ None) in *.
  assert (Hend : forall e, wp bad (bbind (if negb (linktype (l_p (lx h)) =? DLT_LINUX_IRDA) && negb (linktype (l_p (lx h)) =? DLT_LINUX_LAPD)
       then on_lx (fun x => with_linktype x DLT_LINUX_SLL) else bret tt) (fun _ => bret f')) Q (said hc e) s3).
  { intros e. wp_step. destruct (Z.eqb_spec (linktype (l_p (lx h))) DLT_LINUX_IRDA) as [Ei|Ei]; cbn [negb andb];
      [|destruct (Z.eqb_spec (linktype (l_p (lx h))) DLT_LINUX_LAPD) as [Ea|Ea]; cbn [negb]]; repeat wp_step;
      (apply HQ; [done|by split|repeat first [apply held_lx|apply held_said]; done|done| |done]); unfold link_ok; cbn; auto. }
  destruct (linktype (l_p (lx h)) =? -1); wp_step; [exact (Hend (Some _))|rewrite <- (said_self hc); apply Hend].
Qed.

Lemma needs_cooked_spec l device : needs_cooked l device = false -> l <> -1 /\ l <> DLT_LINUX_SLL /\ l <> DLT_LINUX_IRDA /\ l <> DLT_LINUX_LAPD.
Proof using. unfold needs_cooked. rewrite !orb_false_iff, !Z.eqb_neq. tauto. Qed.

Lemma bind_device_wp f device F L M h s : 0 <= f -> held s0 h0 (f :: F) L M h s -> dlts h = None ->
  socks s !! f = Some (Sock SOCK_RAW 0) -> wp bad (bind_device f device) (bound h F L M) h s.
Proof using.
  intros Hf Hh Hd Ef. unfold bind_device. do 3 wp_step. apply (held_lx _ _ _ _ _ (with_socket (lx h) (sock_packet (md (lx h))) false)) in Hh.
  set (h1 := with_lx h _) in *. assert (Hb1 : same_base h h1) by by split.
  eapply wp_mono_post; [by eapply monitor_device_wp|]. intros [v|dev] h2 s2 (Hb2 & El & Ed & Hr).
  { destruct Hr. split; [by eapply same_base_trans|done]. }
  destruct Hr as [H2 Es2]. wp_step. eapply wp_ask; [apply iface_get_arptype_quiet|done|]. intros a e s3 H3 Es3 _.
  assert (Hb3 : same_base h (said h2 e)) by (eapply same_base_trans; [|apply same_base_said]; by eapply same_base_trans).
  wp_step. { eapply close_leave_wp; [done|]. intros s4 H4. split; [done|]. apply Z.ltb_lt in Heqb. split; [lia|done]. }
  wp_step. eapply map_arphrd_wp; [done|by cbn; rewrite Ed|]. intros h4 s4 H4 Es4 Hb4 Elt Ec. do 3 wp_step.
  assert (Hb : same_base h h4) by by eapply same_base_trans.
  assert (Ec4 : cooked (md (lx h4)) = false) by (rewrite Ec; cbn; rewrite El; done).
  assert (Ef4 : socks s4 !! f = Some (Sock SOCK_RAW 0)) by congruence.
  assert (Hrest : forall f5 h5 s5 type, 0 <= f5 -> same_base h h5 -> held s0 h0 (f5 :: F) L M h5 s5 -> socks s5 !! f5 = Some (Sock type 0) ->
    link_ok type h5 -> wp bad (bbind (run (iface_get_id f5 dev)) (fun i => bbind (on_lx (fun x => with_ifindex x i)) (fun _ =>
      if i =? -1 then close_leave f5 PCAP_ERROR
      else bbind (run (iface_bind f5 i)) (fun e => if e =? 1 then bret f5 else if e <? 0 then close_leave f5 e else close_leave f5 0))))
      (bound h F L M) h5 s5).
  { intros f5 h5 s5 type Hf5 Hb5 H5 E5 Hl5. wp_step. eapply wp_ask; [apply iface_get_id_quiet|done|]. intros i e6 s6 H6 Es6 _.
    do 2 wp_step. apply (held_lx _ _ _ _ _ (with_ifindex (lx (said h5 e6)) i)) in H6. set (h6 := with_lx (said h5 e6) _) in *.
    assert (Hb6 : same_base h h6) by (eapply same_base_trans; [exact Hb5|base_go]).
    wp_step. { eapply close_leave_wp; [done|]. intros s7 H7. by split. }
    wp_step. eapply wp_ask; [apply iface_bind_quiet|done|]. intros b e7 s7 H7 Es7 _.
    assert (Hb7 : same_base h (said h6 e7)) by (eapply same_base_trans; [exact Hb6|base_go]).
    wp_step; [|wp_step].
    - wp_step. split; [done|]. split; [done|]. split; [done|]. exists type. split; [congruence|done].
    - eapply close_leave_wp; [done|]. intros s8 H8. split; [done|]. apply Z.ltb_lt in Heqb2. split; [lia|done].
    - eapply close_leave_wp; [done|]. intros s8 H8. by split. }
  destruct (needs_cooked _ dev) eqn:En.
  - eapply reopen_cooked_wp; [done| |].
    + intros v h5 s5 Hv Hb5 H5. split; [by eapply same_base_trans|done].
    + intros f5 h5 s5 Hf5 Hb5 H5 E5 Hl5 _. eapply Hrest; try done. by eapply same_base_trans.
  - wp_step. eapply Hrest; try done. apply needs_cooked_spec in En. unfold link_ok. rewrite Ec4. by split.
Qed.

(** A packet socket that is ready: what [activate_new] leaves. *)
Record opened (h : live) (f type : Z) (h' : live) : Prop := Opened {
  op_core : same_core h h';
  op_fd : fd h' = f;
  op_link : link_ok type h';
  op_snapshot : snapshot (l_p (lx h')) =
    if cooked (md (lx h')) then Z.max (SLL_HDR_LEN + 1) (snapshot (l_p (lx h))) else snapshot (l_p (lx h));
  op_bufsize : bufsize (l_p (lx h')) = snapshot (l_p (lx h'));
  op_vlan : vlan_offset (md (lx h')) = vlan_offset_of (linktype (l_p (lx h'))) }.

Lemma set_up_socket_wp f type F L M h s : 0 <= f -> held s0 h0 (f :: F) L M h s -> link_ok type h ->
  socks s !! f = Some (Sock type 0) ->
  wp bad (set_up_socket f) (fun r h' s' =>
    match r with inl v | inr v =>
      v = PCAP_ERROR /\ same_base h h' /\ held s0 h0 F L M h' s' \/
      v = 1 /\ opened h f type h' /\ held s0 h0 (f :: F) L M h' s' /\ socks s' !! f = Some (Sock type 0)
    end) h s.
Proof using.
  intros Hf Hh Hl Ef. unfold set_up_socket. do 3 wp_step.
  assert (Herr : forall args s1, held s0 h0 (f :: F) L M h s1 -> wp bad (bbind (err "setsockopt: %s" args) (fun _ => close_leave (A := Z) f PCAP_ERROR))
    (fun r h' s' => match r with inl v | inr v =>
      v = PCAP_ERROR /\ same_base h h' /\ held s0 h0 F L M h' s' \/
      v = 1 /\ opened h f type h' /\ held s0 h0 (f :: F) L M h' s' /\ socks s' !! f = Some (Sock type 0) end) h s1).
  { intros args s1 H1. do 2 wp_step. eapply close_leave_wp; [by apply held_err|]. intros s2 H2. left. split; [done|]. split; [base_go|done]. }
  assert (Hgo : forall s1, held s0 h0 (f :: F) L M h s1 -> socks s1 = socks s ->
    wp bad (bbind (sys_call (Setsockopt f (PACKET_AUXDATA 1))) (fun r =>
      if match r with Some e => negb (e =? ENOPROTOOPT) | None => false end then
        bbind (err "setsockopt: %s" (match r with Some e => [e] | None => [] end)) (fun _ => close_leave f PCAP_ERROR)
      else
        bbind (on_lx (fun x => with_offset x (offset x + VLAN_TAG_LEN))) (fun _ =>
        bbind (on_lx (fun x => if cooked (md x) && (snapshot (l_p x) <? SLL_HDR_LEN + 1) then with_snapshot x (SLL_HDR_LEN + 1) else x)) (fun _ =>
        bbind (on_lx (fun x => with_p x (with_bufsize (l_p x) (snapshot (l_p x))))) (fun _ =>
        bbind (on_lx (fun x => with_vlan_offset x (vlan_offset_of (linktype (l_p x))))) (fun _ =>
        bbind (put (fun h => with_fd h f)) (fun _ => leave 1)))))))
    (fun r h' s' => match r with inl v | inr v =>
      v = PCAP_ERROR /\ same_base h h' /\ held s0 h0 F L M h' s' \/
      v = 1 /\ opened h f type h' /\ held s0 h0 (f :: F) L M h' s' /\ socks s' !! f = Some (Sock type 0) end) h s1).
  { intros s1 H1 E1. wp_step. eapply wp_ask_call; [done|exact H1|]. intros r s2 _ H2 E2.
    destruct (match r with Some e => negb (e =? ENOPROTOOPT) | None => false end); [by apply Herr|].
    do 11 wp_step. right. split; [done|].
    set (x := if _ && _ then _ else _). assert (Hx : md x = md (lx h) /\ linktype (l_p x) = linktype (l_p (lx h)) /\
      snapshot (l_p x) = if cooked (md (lx h)) then Z.max (SLL_HDR_LEN + 1) (snapshot (l_p (lx h))) else snapshot (l_p (lx h))).
    { unfold x. cbn. destruct (cooked (md (lx h))); cbn [andb]; [|done].
      destruct (Z.ltb_spec (snapshot (l_p (lx h))) (SLL_HDR_LEN + 1)); cbn; (split; [done|split; [done|lia]]). }
    clearbody x. destruct Hx as (Em & El & Es).
    split; [|split; [|congruence]].
    - split; cbn; try done; [split; cbn; by rewrite ?Em|unfold link_ok in *; cbn; by rewrite Em, El|by rewrite Em].
    - eapply held_same; [|apply same_res_refl|exact H2]. done. }
  destruct (negb (is_any h) && negb (opt_promisc (lopt h) =? 0)).
  - eapply wp_ask_call; [done|exact Hh|]. intros [e|] s1 _ H1 E1; [by apply Herr|by apply Hgo].
  - wp_step. by apply Hgo.
Qed.

Lemma bind_any_wp f F L M h s : 0 <= f -> held s0 h0 (f :: F) L M h s -> dlts h = None -> socks s !! f = Some (Sock SOCK_DGRAM 0) ->
  wp bad (bind_any f) (fun r h' s' => same_base h h' /\
    match r with
    | inl v => v = PCAP_ERROR_RFMON_NOTSUP /\ opt_rfmon (lopt h) <> 0 /\ held s0 h0 (f :: F) L M h' s'
    | inr f' => f' = f /\ held s0 h0 (f :: F) L M h' s' /\ socks s' = socks s /\ link_ok SOCK_DGRAM h'
    end) h s.
Proof using.
  intros Hf Hh Hd Ef. unfold bind_any. do 3 wp_step; [wp_step|do 3 wp_step].
  - split; [apply same_base_refl|]. split; [done|]. apply negb_true_iff, Z.eqb_neq in Heqb. done.
  - split; [base_go|]. split; [done|]. split; [by apply held_lx|]. split; [done|]. unfold link_ok. cbn. auto.
Qed.

(** A handle that uses the new sockets. *)
Definition as_new (h : live) : live := with_lx h (with_socket (lx h) false (cooked (md (lx h)))).

(** The one socket that is not closed. *)
Definition left_open (h : live) (v : Z) (leak : list Z) : Prop :=
  leak = [] \/ (exists f, leak = [f]) /\ is_any h = true /\ opt_rfmon (lopt h) <> 0 /\ v = PCAP_ERROR_RFMON_NOTSUP.

Definition new_result (h : live) (F L M : list Z) (v : Z) (h' : live) (s' : os) : Prop :=
  v <= 0 /\ (same_base h h' \/ same_base (as_new h) h') /\ (exists leak, left_open h v leak /\ held s0 h0 (leak ++ F) L M h' s') \/
  v = 1 /\ exists f type, 0 <= f /\ opened (as_new h) f type h' /\ held s0 h0 (f :: F) L M h' s' /\ socks s' !! f = Some (Sock type 0).

Lemma failed_new h F L M v h' s' : v <= 0 -> same_base h h' \/ same_base (as_new h) h' -> held s0 h0 F L M h' s' -> new_result h F L M v h' s'.
Proof using. intros Hv Hb Hh. left. split; [done|]. split; [done|]. exists []. split; [by left|done]. Qed.

Lemma activate_new_wp F L M h s : held s0 h0 F L M h s -> dlts h = None ->
  wp bad activate_new (fun r h' s' => match r with inl v | inr v => new_result h F L M v h' s' end) h s.
Proof using.
  intros Hh Hd. unfold activate_new. do 3 wp_step. eapply wp_opened; [done| |].
  { intros e He. wp_step; [wp_step; apply failed_new; [done|left; apply same_base_refl|done]|].
    apply socket_error_wp. intros e' v Hv. apply failed_new; [by destruct Hv as [->| ->]|left; apply same_base_said|by apply held_said]. }
  intros f s1 Hf H1 E1. do 2 wp_step. apply (held_lx _ _ _ _ _ (with_socket (lx h) false (cooked (md (lx h))))) in H1.
  fold (as_new h) in *. wp_step. eapply wp_ask; [apply iface_get_id_quiet|exact H1|]. intros lo e s2 H2 E2 _.
  do 3 wp_step. apply (held_lx _ _ _ _ _ (with_offset (with_lo_ifindex (lx (said (as_new h) e)) lo) 0)) in H2.
  set (h2 := with_lx (said (as_new h) e) _) in *. assert (Hb2 : same_base (as_new h) h2) by base_go.
  assert (Ef2 : socks s2 !! f = Some (Sock (if is_any h then SOCK_DGRAM else SOCK_RAW) 0)) by congruence.
  assert (Hup : forall f3 type h3 s3, 0 <= f3 -> same_base (as_new h) h3 -> held s0 h0 (f3 :: F) L M h3 s3 -> link_ok type h3 ->
    socks s3 !! f3 = Some (Sock type 0) ->
    wp bad (set_up_socket f3) (fun r h' s' => match r with inl v | inr v => new_result h F L M v h' s' end) h3 s3).
  { intros f3 type h3 s3 Hf3 Hb3 H3 Hl3 E3. eapply wp_mono_post; [by eapply set_up_socket_wp|].
    intros [v|v] h4 s4 [(-> & Hb4 & H4)|(-> & Ho & H4 & E4)];
      try (apply failed_new; [done|right; by eapply same_base_trans|done]);
      right; (split; [done|]); exists f3, type; split_and!; try done; destruct Ho as [Hc ? ? Hs ? ?], Hb3 as [Hc3 _ Hs3];
      split; try done; try (by eapply same_core_trans); by rewrite Hs, Hs3. }
  destruct (is_any h) eqn:Ea.
  - eapply wp_mono_post; [by apply (bind_any_wp f F L M)|]. intros [v|f3] h3 s3 [Hb3 Hr].
    + destruct Hr as (-> & Hm & H3). left. split; [done|]. split; [right; by eapply same_base_trans|]. exists [f].
      split; [right; split; [by exists f|done]|done].
    + destruct Hr as (-> & H3 & E3 & Hl3). eapply Hup; try done; [by eapply same_base_trans|congruence].
  - eapply wp_mono_post; [by apply (bind_device_wp f (opt_source (lopt h)) F L M)|]. intros [v|f3] h3 s3 [Hb3 Hr].
    + destruct Hr as [Hv H3]. apply failed_new; [done|right; by eapply same_base_trans|done].
    + destruct Hr as (Hf3 & H3 & type & E3 & Hl3). eapply Hup; try done. by eapply same_base_trans.
Qed.
End Open.

(** ** The ring *)

Section Ring.
Context (bad : misuse -> Prop) (s0 : os) (h0 : live).

(** A handle whose ring has another version. *)
Definition versioned (h : live) (v hdrlen : Z) (e : option message) : live := said (with_lx h (with_tpacket (lx h) v hdrlen)) e.

Lemma prepare_wp f type F L M h s : fd h = f -> held s0 h0 (f :: F) L M h s -> socks s !! f = Some (Sock type 0) ->
  wp bad prepare_tpacket_socket (fun r h' s' => exists v hl e, h' = versioned h v hl e /\ held s0 h0 (f :: F) L M h' s' /\
    match r with inl n | inr n => n = -1 \/ n = 1 /\ 0 < hl <= 1024 /\
      exists reserve, socks s' !! f = Some (Sock type reserve) /\ (v = TPACKET_V1 /\ reserve = 0 \/ v = TPACKET_V2 /\ reserve = VLAN_TAG_LEN)
    end) h s.
Proof using.
  intros Ef Hh Es. unfold prepare_tpacket_socket. do 5 wp_step. cbn [fd with_lx]. rewrite Ef.
  apply (held_lx _ _ _ _ _ _ _ (with_tpacket (lx h) TPACKET_V1 sizeof_tpacket_hdr)) in Hh. set (h1 := with_lx h _) in *.
  eapply wp_ask_call; [done|exact Hh|]. intros r s1 Ha H1 E1. destruct r as [e|val].
  { wp_step; repeat wp_step.
    - exists TPACKET_V1, sizeof_tpacket_hdr, (errbuf h). split; [by destruct h|]. split; [done|]. right. split; [done|]. split; [done|].
      exists 0. split; [congruence|by left].
    - exists TPACKET_V1, sizeof_tpacket_hdr. eexists. split; [done|]. split; [by apply held_err|by left]. }
  destruct Ha as [_ (k & Hk & Hv)]. rewrite Es in Hk. injection Hk as <-.
  do 3 wp_step. apply (held_lx _ _ _ _ _ _ _ (with_tpacket (lx h1) (tp_version (md (lx h1))) (u32 val))) in H1.
  set (h2 := with_lx h1 _) in *. assert (Eu : u32 val = val) by (apply uwrap_id; clia).
  eapply wp_ask_call; [done|exact H1|]. intros [e|] s2 _ H2 E2.
  { repeat wp_step. exists TPACKET_V1, (u32 val). eexists. split; [done|]. split; [by apply held_err|by left]. }
  do 3 wp_step. apply (held_lx _ _ _ _ _ _ _ (with_tpacket (lx h2) TPACKET_V2 (tp_hdrlen (md (lx h2))))) in H2.
  set (h3 := with_lx h2 _) in *. destruct H2 as [Ha2 Hb2 Hc2 Hd2]. eapply wp_reserve; [exact Ha2|by rewrite E2, E1| |].
  - intros e He. repeat wp_step. exists TPACKET_V2, (u32 val). eexists. split; [done|]. split; [|by left]. by apply held_err.
  - intros s3 H3 E3. repeat wp_step. exists TPACKET_V2, (u32 val), (errbuf h). split; [by destruct h|]. split; [by split|]. right. split; [done|].
    rewrite Eu. split; [done|]. exists VLAN_TAG_LEN. rewrite E3. split; [by rewrite lookup_insert_eq|by right].
Qed.

(** The length of a packet that a frame is to have room for. *)
Definition wanted (h : live) (n : Z) : Prop := 0 <= n <= snapshot (l_p (lx h)) /\ (linktype (l_p (lx h)) <> DLT_EN10MB -> n = snapshot (l_p (lx h))).

Lemma frame_size_wp F L M h s : 0 <= snapshot (l_p (lx h)) <= 2 ^ 31 - 4096 -> held s0 h0 F L M h s ->
  wp bad frame_size_of (fun r h' s' => (exists e, h' = said h e) /\ held s0 h0 F L M h' s' /\ socks s' = socks s /\
    match r with inl v => v = (-1, PCAP_ERROR) | inr n => wanted h n end) h s.
Proof using.
  intros Hn Hh. unfold frame_size_of. do 2 wp_step. rewrite (uwrap_id 32) by clia.
  wp_step.
  { wp_step. split; [by exists (errbuf h); rewrite said_self|]. split; [done|]. split; [done|]. unfold wanted. lia. }
  wp_step. eapply wp_ask; [apply iface_get_offload_quiet|done|]. intros a e s1 H1 E1 _. wp_step; [|wp_step].
  - wp_step. split; [by exists e|done].
  - wp_step. split; [by exists e|]. split; [done|]. split; [done|]. unfold wanted. lia.
  - wp_step. eapply wp_ask; [apply iface_get_mtu_quiet|done|]. intros mtu e2 s2 H2 E2 Hmtu. wp_step.
    + wp_step. split; [by exists e2|]. split; [done|]. split; [congruence|done].
    + apply Z.eqb_neq in Heqb2. destruct Hmtu as [->|Hmtu]; [done|]. wp_step. split; [by exists e2|]. split; [done|]. split; [congruence|].
      rewrite (uwrap_id 32) by clia. unfold wanted. apply negb_false_iff, Z.eqb_eq in Heqb. destruct (Z.ltb_spec (mtu + 18) (snapshot (l_p (lx h)))); lia.
Qed.

Lemma request_ring_wp fuel size block n asked F L M h s : 0 < size -> 1 <= n -> n * size <= block < 2 * (n * size) ->
  0 <= asked < 2 ^ 32 -> forall nr, 0 <= nr <= asked -> nr / n <= Z.of_nat fuel + 1 -> held s0 h0 F L M h s ->
  wp bad (request_ring fuel size block n nr) (fun r h' s' => (exists e, h' = said h e) /\ held s0 h0 F L M h' s' /\ socks s' = socks s /\
    match r with
    | inl v => v = (0, 0) \/ v = (-1, PCAP_ERROR)
    | inr req => req_ok req n asked /\ tp_frame_size req = size
    end) h s.
Proof using.
  intros Hs Hn Hb Hasked. revert h s. induction fuel as [|fuel IH]; intros h s nr Hnr Hf Hh; cbn [request_ring];
    do 3 wp_step; (eapply wp_ask_call; [done|exact Hh|]); intros r s1 _ H1 E1;
    pose proof (Z.div_mod nr n ltac:(lia)) as Hdm; pose proof (Z.mod_pos_bound nr n ltac:(lia)) as Hm;
    assert (H0 : 0 <= nr / n) by (apply Z.div_pos; lia); rewrite (uwrap_id 32 (nr / n * n)) by (split; nia);
    (destruct r as [e|]; [|wp_step; split; [by exists (errbuf h); rewrite said_self|]; split; [done|]; split; [done|]; split; [split; cbn; try lia; nia|done]]).
  - assert (1 <? nr / n = false) as -> by (apply Z.ltb_ge; lia). rewrite andb_false_r. wp_step.
    + wp_step. split; [by exists (errbuf h); rewrite said_self|]. split; [done|]. split; [done|by left].
    + do 3 wp_step. split; [by eexists|]. split; [by apply held_err|]. split; [done|by right].
  - wp_step; [|wp_step].
    + apply andb_prop in Heqb as [_ Hlt]. apply Z.ltb_lt in Hlt.
      set (nr' := if _ <? 20 then _ else _). assert (Hnr' : 0 <= nr' < nr / n * n).
      { unfold nr'. pose proof (Z.div_mod (nr / n * n) 20 ltac:(lia)). pose proof (Z.mod_pos_bound (nr / n * n) 20 ltac:(lia)).
        destruct (Z.ltb_spec (nr / n * n) 20); nia. }
      assert (nr' / n < nr / n) by (apply Z.div_lt_upper_bound; lia).
      eapply wp_mono_post; [apply (IH h s1 nr'); [nia|lia|done]|]. intros r h2 s2 (Hh2 & H2 & E2 & Hr). split_and!; try done. congruence.
    + wp_step. split; [by exists (errbuf h); rewrite said_self|]. split; [done|]. split; [done|by left].
    + do 3 wp_step. split; [by eexists|]. split; [by apply held_err|]. split; [done|by right].
Qed.
End Ring.
