(* ===== verification/LinuxOpenSpec.v ===== *)
(** Opening a capture as a whole: the ring that [create_ring] sets up, the two
    ways to read from a socket, and what [pcap_activate] and [pcap_close] leave
    in every case. *)
From stdpp Require Import gmap strings list_numbers.
From S2P Require Import Prelude CString CFile Bpf PcapInt Datalink GenConst Pcap LinuxInt LinuxSys LinuxIface LinuxActivate.
From S2P Require Import LinuxOs LinuxIfaceSpec LinuxActivateSpec.

#[local] Open Scope Z_scope.
#[local] Open Scope c_scope.

(** ** The ring *)

(** A ring that is mapped at [base]: the frames in it, and room for [n] bytes
    of a packet behind [room] bytes of headers. *)
Record ring_at (base n room most : Z) (h : live) : Prop := RingAt {
  ra_base : 0 < base /\ mmapbuf (md (lx h)) = base;
  ra_layout : layout_ok base (mmapbuflen (md (lx h))) (bufsize (l_p (lx h))) (frame_ptrs h);
  ra_count : lenZ (frame_ptrs h) = cc (lx h);
  ra_some : 0 < cc (lx h);
  ra_offset : offset (lx h) = 0;
  ra_room : room + n <= bufsize (l_p (lx h)) < 2 ^ 31;
  ra_most : 0 < mmapbuflen (md (lx h)) <= most }.

Lemma ring_at_same base n room most h h' : ring_at base n room most h -> lx h' = lx h -> frame_ptrs h' = frame_ptrs h ->
  ring_at base n room most h'.
Proof. intros [] El Ep. split; by rewrite ?El, ?Ep. Qed.

(** What setting up the ring leaves alone. *)
Definition same_mapped (h h' : live) : Prop :=
  exists b fp e n c base len, h' = said (with_buffer (with_frame_ptrs (with_lx h
    (with_offset (with_mmap (with_cc (with_p (lx h) (with_bufsize (l_p (lx h)) n)) c) base len) 0)) fp) b) e.

Section Ring.
Context (bad : misuse -> Prop) (s0 : os) (h0 : live).
Hypothesis Hmaps : -1 ∉ maps s0.
Hypothesis Hun : bad M_unmapped.

Lemma not_mapped F L h s : held s0 h0 F L [] h s -> -1 ∉ maps s.
Proof using Hmaps. clear Hun. intros [[_ _ (_ & _ & ->)] _ _ _]. set_solver. Qed.

(** The ends of [create_ring]: no ring, an error, a ring. *)
Definition ring_result (h : live) (F L : list Z) (n room most : Z) (r : Z * Z) (h' : live) (s' : os) : Prop :=
  r = (0, 0) /\ (exists e, h' = said h e) /\ held s0 h0 F L [] h' s' \/
  r = (-1, PCAP_ERROR) /\ fd h' = fd h /\ held s0 h0 F L [] h' s' \/
  r = (1, 0) /\ same_mapped h h' /\ ring_at (mmapbuf (md (lx h'))) n room most h' /\ 0 < buffer h' /\
    held s0 h0 F L [mmapbuf (md (lx h'))] h' s'.

Lemma destroy_failed F L n room most h1 h s : fd h1 = fd h -> mmapbuf (md (lx h)) = 0 \/ mmapbuf (md (lx h)) = MAP_FAILED ->
  held s0 h0 F L [] h s ->
  wp bad (bbind (run destroy_ring) (fun _ => leave (A := Z * Z) (-1, PCAP_ERROR)))
     (fun r h' s' => match r with inl v | inr v => ring_result h1 F L n room most v h' s' end) h s.
Proof using Hmaps Hun.
  intros Ef Hm Hh. wp_step. apply wp_run. eapply wp_mono_post; [eapply destroy_ring_wp; [|exact Hh]|].
  - destruct Hm as [Hm|Hm]; [by left|]. right. split_and!; [done|by eapply not_mapped|done].
  - intros r h2 s2 (H2 & x & ->). wp_step. right. left. split; [done|]. split; [by rewrite Ef|done].
Qed.
Lemma map_ring_wp req per_block F L n room most h s : buffer h = 0 -> mmapbuf (md (lx h)) = 0 -> held s0 h0 F L [] h s ->
  req_ok req per_block (tp_frame_nr req) -> tp_block_nr req * tp_block_size req <= most < 2 ^ 32 -> tp_frame_nr req < 2 ^ 31 ->
  room + n <= tp_frame_size req < 2 ^ 31 ->
  wp bad (map_ring req per_block) (fun r h' s' => match r with inl v | inr v => ring_result h F L n room most v h' s' end) h s.
Proof using Hmaps Hun.
  intros Hb Hm Hh Hr Ht Hf Hn. pose proof Hr as [R1 R2 R3 R4 R5 _].
  assert (Hl : 0 <= tp_block_nr req * tp_block_size req) by nia.
  unfold map_ring. do 2 wp_step. rewrite (uwrap_id 32) by clia. destruct Hh as [H1 Hts Hmd Hop]. wp_step.
  eapply wp_mmap; [exact H1| |].
  { intros e He. do 4 wp_step. eapply destroy_failed; [done|by right|]. by split. }
  intros base s1 Hp Hlen H2 E2. do 5 wp_step. cbn [lx with_lx]. eapply wp_malloc; [exact H2| |].
  - do 2 wp_step. cbn [Z.eqb]. do 3 wp_step. apply wp_run. eapply wp_mono_post; [eapply (unmap_ring_wp bad s0 h0 F L []); [exact Hp|]|].
    + split; cbn; rewrite ?Hb in H2; done.
    + intros r h2 s2 (H3 & x & -> & _). wp_step. right. left. by split.
  - intros p s2 Hpp H3 E3. do 2 wp_step. destruct (Z.eqb_spec p 0) as [->|_]; [lia|]. repeat wp_step.
    assert (0 < tp_block_nr req) by (apply Z.le_neq; split; [done|intros Ez; rewrite <- Ez in *; lia]). assert (Hfn : 0 < tp_frame_nr req) by (rewrite R4; nia).
    right. right. split; [done|].
    rewrite (swrap_id 32 eq_refl (tp_frame_nr req)), (swrap_id 32 eq_refl (tp_frame_size req)) by clia.
    split; [exists p, (frame_addresses base req per_block), (errbuf h), (tp_frame_size req), (tp_frame_nr req), base, (tp_block_nr req * tp_block_size req);
            done|].
    split; [|split; [done|]].
    + split; cbn; try done; [|rewrite length_frame_addresses by lia; lia|lia].
      apply (frame_layout base req per_block (tp_frame_nr req)); [done|lia].
    + split; cbn; try done. unfold non_null. destruct (Z.eqb_spec p 0) as [->|_]; [lia|]. rewrite Hb in H3. done.
Qed.
(** The sizes of a capture that [create_ring] can be asked to map. *)
Definition sizes_ok (h : live) : Prop := 0 <= snapshot (l_p (lx h)) <= 2 ^ 31 - 4096 /\ 0 <= opt_buffer_size (lopt h) < 2 ^ 31.

Lemma create_ring_wp f type reserve F L h s : fd h = f -> buffer h = 0 -> mmapbuf (md (lx h)) = 0 -> sizes_ok h ->
  0 < tp_hdrlen (md (lx h)) <= 1024 -> reserve = 0 \/ reserve = VLAN_TAG_LEN -> socks s !! f = Some (Sock type reserve) ->
  held s0 h0 F L [] h s ->
  wp bad create_ring (fun r h' s' => match r with inl v | inr v =>
    exists n, wanted h n /\
      ring_result h F L n (macoff_of (tp_hdrlen (md (lx h))) type reserve) (2 * opt_buffer_size (lopt h)) v h' s' end) h s.
Proof using Hmaps Hun.
  intros Ef Hb Hm [Hsn Hbs] Hhd Hrs Es Hh. unfold create_ring.
  assert (Hw : exists n, wanted h n) by (exists (snapshot (l_p (lx h))); unfold wanted; lia).
  wp_step. eapply wp_mono_post; [by eapply frame_size_wp|]. intros r1 h1 s1 ([e1 ->] & H1 & E1 & Hr1).
  assert (Hbad : forall h2 s2, fd h2 = fd h -> held s0 h0 F L [] h2 s2 -> exists n, wanted h n /\
    ring_result h F L n (macoff_of (tp_hdrlen (md (lx h))) type reserve) (2 * opt_buffer_size (lopt h)) (-1, PCAP_ERROR) h2 s2).
  { intros h2 s2 Ef2 H2. destruct Hw as [n Hn]. exists n. split; [done|]. right. by left. }
  destruct r1 as [v|n]; [subst v; by apply Hbad|]. do 3 wp_step. eapply wp_ask_call; [done|exact H1|]. intros [e|v] s2 Ha2 H2 E2.
  { do 3 wp_step. apply Hbad; [done|by apply held_err]. }
  cbn in Ha2. rewrite E1 in Ha2. cbn [fd said] in Ha2. rewrite Ef, Es in Ha2. destruct Ha2 as (_ & k & [= <-] & ->). cbn [s_type].
  wp_step. eapply wp_ask_call; [done|exact H2|]. intros r s3 Ha3 H3 E3. wp_step.
  assert (Hres : forall Q, (forall e2, held s0 h0 F L [] (said h e2) s3 -> Q (inl (-1, PCAP_ERROR)) (said h e2) s3) ->
    Q (inr reserve) (said h e1) s3 -> wp bad (match r with
      | inl e => if negb (e =? ENOPROTOOPT) then bbind (err "getsockopt: %s" [e]) (fun _ => leave (-1, PCAP_ERROR)) else bret 0
      | inr n => bret n end) Q (said h e1) s3).
  { intros Q HQ0 HQ. destruct Ha3 as [-> Ha3]. rewrite E2, E1 in Ha3. cbn [fd said] in Ha3. rewrite Ef in Ha3. destruct r as [e|rv].
    - wp_step.
      + do 3 wp_step. apply (HQ0 (Some _)). exact (held_said _ _ _ _ _ _ _ _ H3).
      + wp_step. apply negb_false_iff, Z.eqb_eq in Heqb. destruct Ha3 as [_ Ha3]. specialize (Ha3 eq_refl Heqb _ Es). cbn in Ha3. by rewrite Ha3 in HQ.
    - destruct Ha3 as (k & Hk & ->). rewrite Es in Hk. injection Hk as <-. by wp_step. }
  apply Hres.
  { intros e2 H4. by apply Hbad. }
  cbn [lx lopt said]. rewrite (uwrap_id 32 (opt_buffer_size (lopt h))) by clia.
  pose proof (frame_size_bounds (tp_hdrlen (md (lx h))) type reserve n Hhd ltac:(unfold VLAN_TAG_LEN in Hrs; lia) ltac:(unfold wanted in Hr1; lia)) as [Hroom Hpos].
  set (size := tp_frame_size_of _ _ _ _) in *. destruct (Z.eqb_spec size 0) as [|_]; [lia|].
  wp_step. eapply wp_ask_call; [done|exact H3|]. intros page s4 [_ (k & Hk & ->)] H4 E4.
  destruct (block_size_ok k size ltac:(lia) Hk) as (block & -> & [_ Hblk _ _]).
  destruct (frames_per_block_ok size block ltac:(lia)) as [Hn1 Hn2]. set (per := block / size) in *.
  set (asked := opt_buffer_size (lopt h) / size).
  assert (Hasked : 0 <= asked /\ asked * size <= opt_buffer_size (lopt h)).
  { split; [apply Z.div_pos; lia|]. pose proof (Z.mul_div_le (opt_buffer_size (lopt h)) size ltac:(lia)). lia. }
  wp_step. eapply wp_mono_post; [apply (request_ring_wp bad s0 h0 _ size block per asked F L []); try done; try lia; try nia|].
  intros r5 h5 s5 ([e5 ->] & H5 & E5 & Hr5). destruct r5 as [v|req].
  { destruct Hr5 as [-> | ->]; [|by apply Hbad]. exists n. split; [done|]. left. split; [done|]. split; [by eexists|done]. }
  destruct Hr5 as [[R1 R2 R3 R4 R5 R6] Esz]. rewrite <- Esz in *.
  eapply wp_mono_post; [apply (map_ring_wp req per F L n (macoff_of (tp_hdrlen (md (lx h))) type reserve) (2 * opt_buffer_size (lopt h)) (said h e5))|];
    try done; try lia.
  - split; [|lia]. apply (req_total req per asked); [split; try done; lia|lia].
  - nia.
  - intros r6 h6 s6 Hr6. assert (H6 : forall v, ring_result (said h e5) F L n (macoff_of (tp_hdrlen (md (lx h))) type reserve) (2 * opt_buffer_size (lopt h)) v h6 s6 ->
      exists n', wanted h n' /\ ring_result h F L n' (macoff_of (tp_hdrlen (md (lx h))) type reserve) (2 * opt_buffer_size (lopt h)) v h6 s6).
    { intros v Hv. exists n. split; [done|]. destruct Hv as [(-> & [e ->] & ?)|[?|(? & Hsame & ?)]]; [left; split; [done|]; split; [by exists e|done]|right; by left|].
      right. right. split; [done|]. split; [|done]. destruct Hsame as (b & fp & e & ? & ? & ? & ? & ->). by eexists _, _, _, _, _, _, _. }
    destruct r6; by apply H6.
Qed.

(** ** [activate_mmap] *)

Lemma wp_held_malloc {R} n (Q : R + Z -> live -> os -> Prop) F L M h s : held s0 h0 F L M h s -> Q (inr 0) h s ->
  (forall p s', 0 < p -> held s0 h0 F (p :: L) M h s' -> socks s' = socks s -> Q (inr p) h s') -> wp bad (sys_call (Malloc n)) Q h s.
Proof using.
  intros [H1 Ht Ho Hl] HQ0 HQ. eapply wp_malloc; [exact H1|done|]. intros p s' Hp H2 E2. apply HQ; [done| |done].
  split; try done. eapply holds_reorder; [done|symmetry; apply perm_fourth|done|exact H2].
Qed.

Lemma wp_held_free {R} p (Q : R + unit -> live -> os -> Prop) F L M h s : held s0 h0 F (p :: L) M h s ->
  (forall s', held s0 h0 F L M h s' -> socks s' = socks s -> Q (inr tt) h s') -> wp bad (sys_call (Free p)) Q h s.
Proof using.
  intros [H1 Ht Ho Hl] HQ. eapply wp_free; [exact H1|apply perm_fourth|]. intros s' H2 E2. apply HQ; [|done]. by split.
Qed.

(** The size of the buffer that is asked for. *)
Definition buffer_size (h : live) : Z := if opt_buffer_size (lopt h) =? 0 then 2 * 1024 * 1024 else opt_buffer_size (lopt h).

(** What reading and closing use that no ring changes. *)
Record same_link (h h' : live) : Prop := SameLink {
  sp_fd : fd h' = fd h;
  sp_dlts : dlts h' = dlts h;
  sp_link : linktype (l_p (lx h')) = linktype (l_p (lx h));
  sp_snapshot : snapshot (l_p (lx h')) = snapshot (l_p (lx h));
  sp_activated : activated (l_p (lx h')) = activated (l_p (lx h));
  sp_cooked : cooked (md (lx h')) = cooked (md (lx h));
  sp_vlan : vlan_offset (md (lx h')) = vlan_offset (md (lx h));
  sp_device : m_device h' = m_device h;
  sp_old : sock_packet (md (lx h')) = sock_packet (md (lx h)) }.

Lemma same_mapped_spec h h' : same_mapped h h' -> same_link h h' /\ meths h' = meths h /\
  tp_hdrlen (md (lx h')) = tp_hdrlen (md (lx h)) /\ tp_version (md (lx h')) = tp_version (md (lx h)) /\
  oneshot_buffer (md (lx h')) = oneshot_buffer (md (lx h)).
Proof using. by intros (b & fp & e & n & c & base & len & ->). Qed.

(** A capture that reads from a ring: the room in front of a packet is that of
    the version of the ring and the type of the socket. *)
Definition reads_ring (h : live) (type : Z) (h' : live) : Prop :=
  same_link h h' /\ selectable_fd h' = fd h' /\ meths h' = mmap_methods (meths h) /\ 0 < oneshot_buffer (md (lx h')) /\ 0 < buffer h' /\
  exists n reserve, wanted h n /\ 0 < tp_hdrlen (md (lx h')) <= 1024 /\
    (tp_version (md (lx h')) = TPACKET_V1 /\ reserve = 0 \/ tp_version (md (lx h')) = TPACKET_V2 /\ reserve = VLAN_TAG_LEN) /\
    ring_at (mmapbuf (md (lx h'))) n (macoff_of (tp_hdrlen (md (lx h'))) type reserve) (2 * buffer_size h) h'.

(** The ends of [activate_mmap]; without a ring the bytes in front of a
    packet and the size of the buffer are as before. *)
Definition mmap_result (h : live) (type : Z) (F L : list Z) (r : Z * Z) (h' : live) (s' : os) : Prop :=
  r.1 = 0 /\ same_link h h' /\ meths h' = meths h /\ buffer h' = buffer h /\
    offset (lx h') = offset (lx h) /\ bufsize (l_p (lx h')) = bufsize (l_p (lx h)) /\ held s0 h0 F L [] h' s' \/
  r = (-1, PCAP_ERROR) /\ fd h' = fd h /\ held s0 h0 F L [] h' s' \/
  r = (1, 0) /\ reads_ring h type h' /\ held s0 h0 F (oneshot_buffer (md (lx h')) :: L) [mmapbuf (md (lx h'))] h' s'.

Lemma with_same_size h : with_lopt h (with_buffer_size (lopt h) (opt_buffer_size (lopt h))) = h.
Proof using. destruct h as [? ? ? [] ? ? ? ? ? ? ? ? ? ? ? ?]. done. Qed.

(** The handle when the ring is to be set up. *)
Definition with_room (h : live) (p : Z) : live :=
  with_lopt (with_lx h (with_oneshot (lx h) p)) (with_buffer_size (lopt h) (buffer_size h)).

(** From [prepare_tpacket_socket] on. *)
Definition map_socket (p : Z) : body (Z * Z) (Z * Z) :=
  bbind (run prepare_tpacket_socket) (fun ret =>
    if ret =? -1 then bbind (sys_call (Free p)) (fun _ => leave (-1, PCAP_ERROR))
    else bbind (run create_ring) (fun '(ret, status) =>
      if ret =? 0 then bbind (sys_call (Free p)) (fun _ => leave (0, status))
      else if ret =? -1 then bbind (sys_call (Free p)) (fun _ => leave (-1, status))
      else bbind (put (fun h => with_selectable (with_meths h (mmap_methods (meths h))) (fd h))) (fun _ => leave (1, status)))).

Lemma map_socket_wp f type p F L h s : fd h = f -> buffer h = 0 -> mmapbuf (md (lx h)) = 0 -> sizes_ok h -> 0 < p ->
  socks s !! f = Some (Sock type 0) -> held s0 h0 (f :: F) (p :: L) [] (with_room h p) s ->
  wp bad (map_socket p) (fun r h' s' => match r with inl v | inr v => mmap_result h type (f :: F) L v h' s' end) (with_room h p) s.
Proof using Hmaps Hun.
  intros Ef Hb Hm [Hsn Hbs] Hp Es Hh. unfold map_socket. wp_step. apply wp_run. eapply wp_mono_post; [by apply (prepare_wp bad s0 h0 f type F (p :: L) [])|].
  intros r h1 s1 (v & hl & e & -> & H1 & Hr). set (n := match r with inl n | inr n => n end).
  assert (Hn : n = -1 \/ n = 1 /\ 0 < hl <= 1024 /\ exists reserve, socks s1 !! f = Some (Sock type reserve) /\
    (v = TPACKET_V1 /\ reserve = 0 \/ v = TPACKET_V2 /\ reserve = VLAN_TAG_LEN)) by by destruct r. clearbody n. clear Hr.
  assert (Herr : forall h2 s2, fd h2 = fd h -> held s0 h0 (f :: F) (p :: L) [] h2 s2 ->
    wp bad (bbind (sys_call (Free p)) (fun _ => leave (-1, PCAP_ERROR)))
       (fun r h' s' => match r with inl v | inr v => mmap_result h type (f :: F) L v h' s' end) h2 s2).
  { intros h2 s2 E2 H2. wp_step. eapply wp_held_free; [done|]. intros s3 H3 _. wp_step. right. by left. }
  destruct Hn as [-> | (-> & Hhl & reserve & Es1 & Hv)]; [by apply Herr|]. cbn [Z.eqb Z.compare].
  wp_step. apply wp_run. eapply wp_mono_post; [apply (create_ring_wp f type reserve (f :: F) (p :: L)); try done|].
  { split; [done|]. cbn. unfold buffer_size. destruct (opt_buffer_size (lopt h) =? 0); lia. }
  { by destruct Hv as [[_ ->]|[_ ->]]; [left|right]. }
  intros r2 h2 s2 Hr2. assert (Hr3 : exists n, wanted h n /\ ring_result (versioned (with_room h p) v hl e) (f :: F) (p :: L) n
    (macoff_of hl type reserve) (2 * buffer_size h) (match r2 with inl r | inr r => r end) h2 s2) by by destruct r2. clear Hr2.
  destruct Hr3 as (m & Hw & [(-> & [e2 ->] & H2)|[(-> & E2 & H2)|(-> & Hsame & Hring & Hbuf & H2)]]).
  - cbn [Z.eqb]. wp_step. eapply wp_held_free; [done|]. intros s3 H3 _. wp_step. left. split; [done|]. split; [by split|]. done.
  - cbn [Z.eqb Z.compare]. by apply Herr.
  - cbn [Z.eqb Z.compare Pos.compare Pos.compare_cont]. do 3 wp_step. right. right. split; [done|].
    destruct (same_mapped_spec _ _ Hsame) as (Hc & Em & Eh & Ev & Eo). cbn in Em, Eh, Ev, Eo.
    set (h3 := with_selectable _ _). assert (El : lx h3 = lx h2 /\ frame_ptrs h3 = frame_ptrs h2 /\ buffer h3 = buffer h2 /\ fd h3 = fd h2 /\
      dlts h3 = dlts h2 /\ selectable_fd h3 = fd h2 /\ meths h3 = mmap_methods (meths h)) by (cbn; by rewrite Em).
    assert (H3 : same_held h2 h3) by done. clearbody h3. pose proof H3 as (_ & _ & Edev & _). destruct El as (El & Ep & Eb & Efd & Ed & Es3 & Em3). split.
    + split; [destruct Hc; split; rewrite ?El, ?Efd, ?Ed, ?Edev; done|]. split; [congruence|]. split; [done|]. rewrite El, Eb, Eo, Ev, Eh.
      split; [done|]. split; [done|]. exists m, reserve. split; [done|]. split; [done|]. split; [done|]. by eapply ring_at_same.
    + rewrite El, Eo. by eapply held_same; [exact H3|apply same_res_refl|].
Qed.

Lemma activate_mmap_wp f type F L h s : fd h = f -> buffer h = 0 -> mmapbuf (md (lx h)) = 0 -> sizes_ok h ->
  socks s !! f = Some (Sock type 0) -> held s0 h0 (f :: F) L [] h s ->
  wp bad activate_mmap (fun r h' s' => match r with inl v | inr v => mmap_result h type (f :: F) L v h' s' end) h s.
Proof using Hmaps Hun.
  intros Ef Hb Hm Hsz Es Hh. unfold activate_mmap. do 3 wp_step. eapply wp_held_malloc; [done| |].
  { do 2 wp_step. cbn [Z.eqb]. do 3 wp_step. right. left. split; [done|]. split; [done|]. by apply held_err, held_lx. }
  intros p s1 Hp H1 E1. do 2 wp_step. destruct (Z.eqb_spec p 0) as [->|_]; [lia|]. wp_step. fold (map_socket p).
  assert (H2 : held s0 h0 (f :: F) (p :: L) [] (with_room h p) s1) by (destruct H1; by split).
  pose proof (map_socket_wp f type p F L h s1 Ef Hb Hm Hsz Hp ltac:(by rewrite E1) H2) as Hgo.
  unfold with_room, buffer_size in Hgo. destruct (opt_buffer_size (lopt h) =? 0); wp_step; [done|].
  pose proof (with_same_size (with_lx h (with_oneshot (lx h) p))) as Ex. cbn [lopt with_lx] in Ex. rewrite Ex in Hgo. done.
Qed.

(** ** [activate_old] *)

Lemma set_promisc_old_keeps f device : keeps (set_promisc_old f device) (fun r => match r with inl v => v = PCAP_ERROR | inr _ => True end).
Proof using. unfold set_promisc_old. keeps_go. Qed.

(** What closing uses that opening a socket leaves alone. *)
Record same_rest (h h' : live) : Prop := SameRest {
  sr_buffer : buffer h' = buffer h;
  sr_lopt : lopt h' = lopt h;
  sr_meths : meths h' = meths h;
  sr_device : m_device h' = m_device h;
  sr_map : mmapbuf (md (lx h')) = mmapbuf (md (lx h)) }.

Lemma core_rest h h' : same_core h h' -> same_rest h h'.
Proof using. intros []. by split. Qed.

(** A capture that is opened the old way. *)
Definition opened_old (n : Z) (h : live) : Prop :=
  snapshot (l_p (lx h)) = n /\ sock_packet (md (lx h)) = true /\ cooked (md (lx h)) = false /\ linktype (l_p (lx h)) <> -1 /\
  offset (lx h) = 0 /\ vlan_offset (md (lx h)) = -1 /\ is_any h = false.

Definition old_result (h : live) (F L : list Z) (v : Z) (h' : live) (s' : os) : Prop :=
  same_rest h h' /\ (exists lost, (lost = [] \/ lost = opt_ptr (dlts h)) /\ held s0 h0 (non_neg (fd h') ++ F) (lost ++ L) [] h' s') /\
  (v < 0 \/ v = 1 /\ 0 <= fd h' /\ opened_old (snapshot (l_p (lx h))) h' /\ socks s' !! fd h' = Some (Sock SOCK_PACKET 0)).

Lemma activate_old_wp F L h s : held s0 h0 F L [] h s ->
  wp bad activate_old (fun r h' s' => match r with inl v | inr v => old_result h F L v h' s' end) h s.
Proof using.
  intros Hh. unfold activate_old. wp_step. eapply wp_opened; [exact Hh| |].
  { intros e He. do 2 wp_step. eapply socket_error_wp. intros e' v Hv. split; [by split|]. split; [|left; by destruct Hv as [->| ->]].
    exists []. split; [by left|]. by apply held_said, held_same with (h := h) (s := s). }
  intros f s1 Hf H1 E1. do 6 wp_step.
  set (h1 := with_lx (with_fd h f) _) in *.
  assert (Hfd : forall f', 0 <= f' -> non_neg f' = [f']) by (intros f' Hf'; unfold non_neg; by destruct (Z.leb_spec 0 f'); [|lia]).
  assert (Hb1 : fd h1 = f /\ same_rest h h1 /\ dlts h1 = dlts h /\ snapshot (l_p (lx h1)) = snapshot (l_p (lx h))) by done.
  destruct Hb1 as (Ef & Hr1 & Ed & Esn).
  assert (Hbad : forall lost h2 s2, lost = [] \/ lost = opt_ptr (dlts h) -> same_base h1 h2 -> held s0 h0 (f :: F) (lost ++ L) [] h2 s2 ->
    old_result h F L PCAP_ERROR h2 s2).
  { intros lost h2 s2 Hl [Hc E2 _] H2. split; [|split; [exists lost; split; [done|]|by left]].
    - apply core_rest in Hc. destruct Hr1, Hc. split; congruence.
    - by rewrite E2, Ef, Hfd. }
  assert (H1' : held s0 h0 (f :: F) L [] h1 s1) by by apply held_same with (h := h) (s := s1). assert (Eo : sock_packet (md (lx h1)) = true /\ cooked (md (lx h1)) = false) by done.
  clearbody h1. destruct (is_any h1) eqn:Ea; [do 3 wp_step; eapply (Hbad []); [by left|by split|by apply held_err]|].
  assert (Es1 : socks s1 !! f = Some (Sock SOCK_PACKET 0)) by done. unfold is_any in Ea.
  wp_step. eapply wp_ask; [apply iface_bind_old_quiet|done|]. intros b e2 s2 H2 E2 _. wp_step.
  { wp_step. eapply (Hbad []); [by left|apply same_base_said|done]. }
  wp_step. eapply wp_ask; [apply iface_get_arptype_quiet|done|]. intros t e3 s3 H3 E3 _. wp_step.
  { wp_step. eapply (Hbad []); [by left|base_go|done]. }
  wp_step. eapply map_arphrd_again_wp; [done|]. cbn [dlts said]. rewrite Ed. intros lost h4 s4 Hl H4 E4 Hb4 El Ec. do 2 wp_step.
  assert (Hb : same_base h1 h4) by (eapply same_base_trans; [|exact Hb4]; base_go).
  destruct (Z.eqb_spec (linktype (l_p (lx h4))) (-1)) as [_|Hlt].
  { do 3 wp_step. apply (Hbad lost); [done|eapply same_base_trans; [done|by split]|by apply held_err]. }
  wp_step.
  assert (Hgo : forall h5 s5, puts_aside h4 h5 -> same_res s4 s5 -> wp bad (bbind (sys_call Uname) (fun u =>
    bbind (if match u with None => true | Some release => String.eqb (String.substring 0 3 release) "2.0" end then
             bbind (run (iface_get_mtu f (opt_source (lopt h1)))) (fun mtu => if mtu =? -1 then leave PCAP_ERROR
               else bret (Z.max (MAX_LINKHEADER_SIZE + mtu) (snapshot (l_p (lx h4)))))
           else bret (snapshot (l_p (lx h4)))) (fun n =>
    bbind (on_lx (fun x => with_vlan_offset (with_offset (with_p x (with_bufsize (l_p x) n)) 0) (-1))) (fun _ => leave 1))))
    (fun r h' s' => match r with inl v | inr v => old_result h F L v h' s' end) h5 s5).
  { intros h5 s5 Ha Hs. apply (held_same _ _ _ _ _ _ _ _ _ (aside_same _ _ Ha) Hs) in H4 as H5.
    assert (Hb5 : same_base h1 h5) by (eapply same_base_trans; [exact Hb|by apply same_base_aside]).
    assert (Hgood : forall n e s6, socks s6 = socks s5 -> held s0 h0 (f :: F) (lost ++ L) [] (said h5 e) s6 ->
      old_result h F L 1 (with_lx (said h5 e) (with_vlan_offset (with_offset (with_p (lx h5) (with_bufsize (l_p (lx h5)) n)) 0) (-1))) s6).
    { intros n e s6 E6 H6. destruct (Hbad lost _ s6 Hl (same_base_trans _ _ _ Hb5 (same_base_said _ e)) H6) as ([] & (l' & Hl' & H6') & _).
      destruct Hb5 as [Hc5 E5 Es5]. cbn in E5. split; [by split|]. split; [exists l'; split; [done|by apply held_lx]|]. right. cbn.
      rewrite E5, Ef. split; [done|]. split; [done|]. split.
      - unfold opened_old, is_any. cbn. destruct Ha as (? & ? & ? & ? & ->). destruct Hc5 as [_ _ _ _ El5 _ Eo5 _ _]. cbn in *. destruct Eo, Hs.
        rewrite El5. split_and!; congruence.
      - destruct Hs as [Es _]. congruence. }
    wp_step. eapply wp_ask_call; [done|exact H5|]. intros u s6 _ H6 E6. wp_step. wp_step.
    - wp_step. eapply wp_ask; [apply iface_get_mtu_quiet|exact H6|]. intros mtu e7 s7 H7 E7 _. wp_step.
      + wp_step. apply (Hbad lost); [done|eapply same_base_trans; [done|by split]|done].
      + do 4 wp_step. apply (Hgood _ e7); [congruence|done].
    - do 4 wp_step. apply (Hgood _ (errbuf h5)); [done|]. by rewrite said_self. }
  wp_step; [wp_step; apply Hgo; [apply puts_aside_refl|apply same_res_refl]|].
  eapply wp_keeps; [apply set_promisc_old_keeps|]. intros r h5 s5 Ha Hs Hr. destruct r as [v|[]]; [|by apply Hgo].
  subst v. apply (Hbad lost); [done| |].
  - eapply same_base_trans; [exact Hb|by apply same_base_aside].
  - by apply (held_same _ _ _ _ _ _ _ _ _ (aside_same _ _ Ha) Hs).
Qed.

(** ** [pcap_activate_linux] *)

(** A capture that could not be opened: [left] are sockets that are not closed. *)
Definition given_back (left lost : list Z) (h' : live) (s' : os) : Prop :=
  holds s0 s' left lost [] /\ emptied h' /\ m_device h' = None.

Lemma fail_with_wp {A} v (Q : Z + A -> live -> os -> Prop) F L h s : held s0 h0 (non_neg (fd h) ++ F) L [] h s ->
  (forall h' s', given_back F L h' s' -> Q (inl v) h' s') -> wp bad (fail_with v) Q h s.
Proof using.
  intros Hh HQ. unfold fail_with. wp_step. apply wp_run. eapply wp_mono_post; [by eapply cleanup_linux_wp|].
  intros r h' s' Hr. wp_step. by apply HQ.
Qed.

(** A capture that reads from the socket. *)
Definition reads_socket (h h' : live) : Prop :=
  same_link h h' /\ selectable_fd h' = fd h' /\ meths h' = meths h /\ 0 < buffer h' /\
  lopt h' = lopt h /\ offset (lx h') = offset (lx h) /\ bufsize (l_p (lx h')) = bufsize (l_p (lx h)).

Lemma finish_socket_wp F L h s : buffer h = 0 -> held s0 h0 (non_neg (fd h) ++ F) L [] h s ->
  wp bad finish_socket (fun r h' s' => match r with inl v | inr v =>
    v = 0 /\ reads_socket h h' /\ held s0 h0 (non_neg (fd h) ++ F) L [] h' s' \/ v = PCAP_ERROR /\ given_back F L h' s' end) h s.
Proof using.
  intros Hb Hh. unfold finish_socket. do 3 wp_step.
  assert (Hbuf : forall s1, held s0 h0 (non_neg (fd h) ++ F) L [] h s1 ->
    wp bad (bbind (sys_call (Malloc (bufsize (l_p (lx h)) + offset (lx h)))) (fun p => bbind (put (fun h => with_buffer h p)) (fun _ =>
      if p =? 0 then bbind (err "malloc: %s" [ENOMEM]) (fun _ => fail_with PCAP_ERROR)
      else bbind (put (fun h => with_selectable h (fd h))) (fun _ => leave 0))))
    (fun r h' s' => match r with inl v | inr v =>
      v = 0 /\ reads_socket h h' /\ held s0 h0 (non_neg (fd h) ++ F) L [] h' s' \/ v = PCAP_ERROR /\ given_back F L h' s' end) h s1).
  { intros s1 [H1 Ht Ho Hl]. wp_step. eapply wp_malloc; [exact H1| |].
    - do 2 wp_step. cbn [Z.eqb]. do 2 wp_step. eapply (fail_with_wp _ _ F L); [split; cbn; rewrite ?Hb in H1; done|]. intros h2 s2 H2. by right.
    - intros p s2 Hp H2 E2. do 2 wp_step. destruct (Z.eqb_spec p 0) as [->|_]; [lia|]. do 3 wp_step. left. split; [done|]. split.
      + split; [by split|]. done.
      + split; try done. cbn. unfold non_null. destruct (Z.eqb_spec p 0) as [->|_]; [lia|]. by rewrite Hb in H2. }
  wp_step.
  - wp_step. by apply Hbuf.
  - eapply wp_ask_call; [done|exact Hh|]. intros [e|] s1 _ H1 E1; [|by apply Hbuf].
    do 2 wp_step. eapply (fail_with_wp _ _ F L); [by apply held_err|]. intros h2 s2 H2. by right.
Qed.

(** A handle that [pcap_create] has made and the application has set up. *)
Record fresh (h : live) : Prop := Fresh {
  fr_fd : fd h = -1;
  fr_buffer : buffer h = 0;
  fr_dlts : dlts h = None;
  fr_tstamp : tstamp_ptr h = 0;
  fr_device : m_device h = None;
  fr_mondevice : mondevice h = None;
  fr_map : mmapbuf (md (lx h)) = 0;
  fr_activated : activated (l_p (lx h)) = false;
  fr_sizes : sizes_ok h }.

(** How the packets of a capture are read: from a ring that has room for the
    kernel's header, the address, and what is put before a packet, or with one
    call for each packet. *)
Definition reads_packets (size type : Z) (h : live) : Prop :=
  link_ok type h /\ vlan_offset (md (lx h)) = vlan_offset_of (linktype (l_p (lx h))) /\
  (meths h = linux_methods /\ bufsize (l_p (lx h)) = snapshot (l_p (lx h)) \/
   meths h = mmap_methods linux_methods /\ 0 < oneshot_buffer (md (lx h)) /\
   exists n reserve, wanted h n /\ 0 < tp_hdrlen (md (lx h)) <= 1024 /\
     (tp_version (md (lx h)) = TPACKET_V1 /\ reserve = 0 \/ tp_version (md (lx h)) = TPACKET_V2 /\ reserve = VLAN_TAG_LEN) /\
     ring_at (mmapbuf (md (lx h))) n (macoff_of (tp_hdrlen (md (lx h))) type reserve) (2 * size) h).

(** A capture that is open, from the handle [h] on. *)
Record usable (h h' : live) : Prop := Usable {
  us_fd : 0 <= fd h' /\ selectable_fd h' = fd h';
  us_buffer : 0 < buffer h';
  us_device : exists p, m_device h' = Some (p, opt_source (lopt h));
  us_snapshot : snapshot (l_p (lx h')) =
    if cooked (md (lx h')) then Z.max (SLL_HDR_LEN + 1) (snapshot (l_p (lx h))) else snapshot (l_p (lx h));
  us_reads : opened_old (snapshot (l_p (lx h))) h' /\ meths h' = linux_methods \/
             sock_packet (md (lx h')) = false /\ exists type, reads_packets (buffer_size h) type h' }.

(** What is never given back: the socket of [activate_new] for the device
    "any" in monitor mode, and the list of link-layer types that it had made
    before [activate_old] is tried. *)
Definition left_ok (h : live) (v : Z) (left : list Z) : Prop :=
  left = [] \/ (exists f, left = [f]) /\ is_any h = true /\ opt_rfmon (lopt h) <> 0 /\ v = PCAP_ERROR_RFMON_NOTSUP.
Definition lost_ok (lost : list Z) : Prop := lost = [] \/ exists p, lost = [p].

Definition open_result (h : live) (v : Z) (h' : live) (s' : os) : Prop :=
  v < 0 /\ (exists left lost, left_ok h v left /\ lost_ok lost /\ given_back left lost h' s') \/
  v = 0 /\ usable h h' /\
    (meths h' = mmap_methods linux_methods /\ held s0 h0 [fd h'] [oneshot_buffer (md (lx h'))] [mmapbuf (md (lx h'))] h' s' \/
     meths h' = linux_methods /\ exists lost, lost_ok lost /\ held s0 h0 [fd h'] lost [] h' s').

(** From [activate_new] on. *)
Definition open_socket : body Z Z :=
  bbind (run activate_new) (fun status =>
    if status <? 0 then fail_with status
    else if status =? 1 then
      bbind (run activate_mmap) (fun '(r, status) =>
        if r =? 1 then leave status else if r =? -1 then fail_with status else finish_socket)
    else bbind (run activate_old) (fun status => if negb (status =? 1) then fail_with status else finish_socket)).

(** A handle when [activate_new] is called. *)
Record prepared (h : live) : Prop := Prepared {
  pp_fd : fd h = -1;
  pp_buffer : buffer h = 0;
  pp_dlts : dlts h = None;
  pp_map : mmapbuf (md (lx h)) = 0;
  pp_meths : meths h = linux_methods;
  pp_device : exists p, m_device h = Some (p, opt_source (lopt h));
  pp_sizes : sizes_ok h }.

Lemma link_trans h1 h2 h3 : same_link h1 h2 -> same_link h2 h3 -> same_link h1 h3.
Proof using. intros [] []. split; congruence. Qed.

(** From [activate_new] to a capture that is usable. *)
Lemma opened_usable h h1 f type h2 : (exists p, m_device h = Some (p, opt_source (lopt h))) -> opened (as_new h) f type h1 -> same_link h1 h2 -> 0 <= f -> selectable_fd h2 = fd h2 -> 0 < buffer h2 ->
  (link_ok type h2 -> vlan_offset (md (lx h2)) = vlan_offset_of (linktype (l_p (lx h2))) -> reads_packets (buffer_size h) type h2) -> usable h h2.
Proof using.
  intros Hdev [Hc Ef Hl Hsn Hbs Hv] [] Hf Hs Hb Hr. destruct Hc. split; try done.
  - split; [congruence|done].
  - rewrite sp_device0. by rewrite sc_device.
  - rewrite sp_snapshot0, sp_cooked0. exact Hsn.
  - right. split; [by rewrite sp_old0, sc_old|]. exists type. apply Hr; [|congruence]. unfold link_ok in *. by rewrite sp_cooked0, sp_link0, sp_dlts0.
Qed.

Lemma opened_mmap_wp h h1 f type s : prepared h -> opened (as_new h) f type h1 -> 0 <= f -> held s0 h0 [f] [] [] h1 s ->
  socks s !! f = Some (Sock type 0) ->
  wp bad (bbind (run activate_mmap) (fun '(r, status) =>
    if r =? 1 then leave status else if r =? -1 then fail_with status else finish_socket))
    (fun r h' s' => match r with inl v | inr v => open_result h v h' s' end) h1 s.
Proof using Hmaps Hun.
  intros [Hfd Hb Hd Hm Hme Hdev Hsz] [Hc Ef Hl Hsn Hbs Hv] Hf Hh Es. wp_step. apply wp_run.
  assert (Hs1 : sizes_ok h1).
  { destruct Hc, Hsz. split; [rewrite Hsn; cbn; unfold SLL_HDR_LEN; destruct (cooked _); cbn; lia|by rewrite sc_lopt]. }
  eapply wp_mono_post; [apply (activate_mmap_wp f type [] []); try done|].
  { destruct Hc. by rewrite sc_buffer. }
  { destruct Hc. by rewrite sc_map. }
  assert (Hsize : buffer_size h1 = buffer_size h) by (destruct Hc; unfold buffer_size; by rewrite sc_lopt).
  assert (Hmeth : meths h1 = linux_methods) by (destruct Hc; by rewrite sc_meths).
  assert (Hnn : forall h2, fd h2 = f -> non_neg (fd h2) ++ [] = [f]) by (intros h2 ->; unfold non_neg; by destruct (Z.leb_spec 0 f); [|lia]).
  assert (Hop : opened (as_new h) f type h1) by by split.
  intros r h2 s2 Hr. assert (Hr2 : mmap_result h1 type [f] [] (match r with inl r => r | inr r => r end) h2 s2) by by destruct r.
  destruct (match r with inl r => r | inr r => r end) as [v status]. clear Hr.
  destruct Hr2 as [(Ev & Hl2 & Em2 & Eb2 & Eo2 & Ez2 & H2)|[([= -> ->] & E2 & H2)|([= -> ->] & Hring & H2)]].
  - cbn in Ev. subst v. cbn [Z.eqb]. eapply wp_mono_post; [apply (finish_socket_wp [] [] h2)|].
    + rewrite Eb2. destruct Hc. by rewrite sc_buffer.
    + rewrite Hnn; [done|]. destruct Hl2. congruence.
    + intros r3 h3 s3 Hr3. assert (Ef2 : fd h2 = f) by (destruct Hl2; congruence). rewrite (Hnn _ Ef2) in Hr3.
      assert (Hend : forall v, v = 0 /\ reads_socket h2 h3 /\ held s0 h0 [f] [] [] h3 s3 \/ v = PCAP_ERROR /\ given_back [] [] h3 s3 -> open_result h v h3 s3).
      { intros v [(-> & (Hl3 & Hs3 & Em3 & Hb3 & _ & _ & Ez3) & H3)|[-> H3]].
        - right. split; [done|]. pose proof (link_trans _ _ _ Hl2 Hl3) as Hl13. split.
          + eapply opened_usable; try done. intros Hlk Hvl. split; [done|]. split; [done|]. left. split; [congruence|].
            destruct Hl13. rewrite Ez3, Ez2, Hbs. by rewrite sp_snapshot0.
          + right. split; [congruence|]. exists []. split; [by left|]. destruct Hl3. by rewrite sp_fd0, Ef2.
        - left. split; [done|]. exists [], []. split; [by left|]. split; [by left|done]. }
      destruct r3; by apply Hend.
  - cbn [Z.eqb Z.compare]. eapply (fail_with_wp _ _ [] []); [rewrite Hnn; [done|congruence]|]. intros h3 s3 H3. left. split; [done|].
    exists [], []. split; [by left|]. split; [by left|done].
  - cbn [Z.eqb Pos.eqb]. wp_step. destruct Hring as (Hl2 & Hs2 & Em2 & Hos & Hb2 & n & reserve & Hw & Hrest). rewrite Hsize in Hrest.
    right. split; [done|]. assert (Ef2 : fd h2 = f) by (destruct Hl2; congruence). split.
    + eapply opened_usable; try done. intros Hlk Hvl. split; [done|]. split; [done|]. right. split; [by rewrite Em2, Hmeth|].
      split; [done|]. exists n, reserve. split; [|done]. destruct Hl2. unfold wanted in *. by rewrite sp_snapshot0, sp_link0.
    + left. split; [by rewrite Em2, Hmeth|]. by rewrite Ef2.
Qed.

(** What [activate_new] leaves of a handle whose socket it has not opened. *)
Lemma not_opened h h1 : prepared h -> same_base h h1 \/ same_base (as_new h) h1 ->
  fd h1 = -1 /\ buffer h1 = 0 /\ meths h1 = linux_methods /\ lopt h1 = lopt h /\ m_device h1 = m_device h /\
  snapshot (l_p (lx h1)) = snapshot (l_p (lx h)).
Proof using. intros [] [[[] ??]|[[] ??]]; cbn in *; split_and!; congruence. Qed.

Lemma tried_old_wp h h1 s : prepared h -> same_base h h1 \/ same_base (as_new h) h1 -> held s0 h0 [] [] [] h1 s ->
  wp bad (bbind (run activate_old) (fun status => if negb (status =? 1) then fail_with status else finish_socket))
    (fun r h' s' => match r with inl v | inr v => open_result h v h' s' end) h1 s.
Proof using.
  intros Hp Hb Hh. destruct (not_opened _ _ Hp Hb) as (Ef & Eb & Em & Eo & Ed & Es). wp_step. apply wp_run.
  eapply wp_mono_post; [by apply (activate_old_wp [] [])|]. intros r h2 s2 Hr.
  assert (Hr2 : old_result h1 [] [] (match r with inl r => r | inr r => r end) h2 s2) by by destruct r. clear Hr.
  destruct Hr2 as ([Eb2 El2 Em2 Ed2 _] & (lost & Hl & H2) & Hv). rewrite !app_nil_r in H2.
  assert (Hlost : lost_ok lost). { destruct Hl as [->| ->]; [by left|]. destruct (dlts h1) as [[p l]|]; [by right; exists p|by left]. }
  destruct Hv as [Hv|(-> & Hf & Hop & Es2)].
  - replace (negb (_ =? 1)) with true by (symmetry; apply negb_true_iff, Z.eqb_neq; lia).
    eapply (fail_with_wp _ _ [] lost); [by rewrite app_nil_r|]. intros h3 s3 H3. left. split; [done|]. exists [], lost. split; [by left|done].
  - cbn [negb Z.eqb Pos.eqb]. eapply wp_mono_post; [apply (finish_socket_wp [] lost h2); [congruence|by rewrite app_nil_r]|]. intros r3 h3 s3 Hr3.
    assert (Hend : forall v, v = 0 /\ reads_socket h2 h3 /\ held s0 h0 (non_neg (fd h2) ++ []) lost [] h3 s3 \/ v = PCAP_ERROR /\ given_back [] lost h3 s3 ->
      open_result h v h3 s3).
    { intros v [(-> & ([] & Hs3 & Em3 & Hb3 & El3 & Eo3 & Ez3) & H3)|[-> H3]].
      - right. split; [done|]. destruct Hop as (O1 & O2 & O3 & O4 & O5 & O6 & O7). assert (Hme : meths h3 = linux_methods) by congruence. split.
        + split; [split; [by rewrite sp_fd0|done]|done|rewrite sp_device0, Ed2, Ed; apply Hp| |].
          * rewrite sp_cooked0, O3. congruence.
          * left. split; [|done]. unfold opened_old, is_any in *. rewrite El3. split_and!; congruence.
        + right. split; [done|]. exists lost. split; [done|]. rewrite sp_fd0. unfold non_neg in H3. by destruct (Z.leb_spec 0 (fd h2)); [|lia].
      - left. split; [done|]. exists [], lost. split; [by left|done]. }
    destruct r3; by apply Hend.
Qed.

Lemma open_socket_wp h s : prepared h -> held s0 h0 [] [] [] h s ->
  wp bad open_socket (fun r h' s' => match r with inl v | inr v => open_result h v h' s' end) h s.
Proof using Hmaps Hun.
  intros Hp Hh. unfold open_socket. wp_step. apply wp_run. eapply wp_mono_post; [apply (activate_new_wp bad s0 h0 [] [] []); [done|by destruct Hp]|].
  intros r h1 s1 Hr. assert (Hr1 : new_result s0 h0 h [] [] [] (match r with inl r => r | inr r => r end) h1 s1) by by destruct r. clear Hr.
  set (v := match r with inl r => r | inr r => r end) in *. clearbody v.
  destruct Hr1 as [(Hv & Hb & leak & Hleak & H1)|(-> & f & type & Hf & Hop & H1 & Es1)].
  - assert (v <> 1) by lia. destruct (Z.ltb_spec v 0).
    + destruct (not_opened _ _ Hp Hb) as (Ef & _). rewrite app_nil_r in H1.
      eapply (fail_with_wp _ _ leak []); [by rewrite Ef|]. intros h2 s2 H2. left. split; [done|]. exists leak, []. split; [done|]. by split; [left|].
    + destruct (Z.eqb_spec v 1); [lia|]. destruct Hleak as [->|(_ & _ & _ & ->)]; [|done]. by apply tried_old_wp.
  - cbn [Z.ltb Z.compare Z.eqb Pos.eqb]. by eapply opened_mmap_wp.
Qed.

Lemma usable_from h0' h h' : opt_source (lopt h) = opt_source (lopt h0') -> buffer_size h = buffer_size h0' ->
  snapshot (l_p (lx h)) = snapshot (l_p (lx h0')) -> usable h h' -> usable h0' h'.
Proof using. intros E1 E2 E3 []. rewrite E1, E2, E3 in *. by split. Qed.

Lemma activate_linux_wp s : fresh h0 -> s = s0 ->
  wp bad pcap_activate_linux (fun r h' s' => match r with inl v | inr v => open_result h0 v h' s' end) h0 s.
Proof using Hmaps Hun.
  intros Hf ->. pose proof Hf as [Ffd Fb Fd Ft Fdev Fm Fmap Fa Fs]. unfold pcap_activate_linux. do 5 wp_step.
  set (h1 := with_meths h0 linux_methods).
  assert (Hgo : forall h2, lx h2 = lx h1 -> fd h2 = -1 -> buffer h2 = 0 -> dlts h2 = None -> tstamp_ptr h2 = 0 -> mondevice h2 = None ->
    meths h2 = linux_methods -> lopt h2 = lopt h0 \/ lopt h2 = without_promisc (lopt h0) -> m_device h2 = None ->
    wp bad (bbind (sys_call (Strdup (opt_source (lopt h1)))) (fun p =>
      bbind (put (fun h => with_device h (if p =? 0 then None else Some (p, opt_source (lopt h1))))) (fun _ =>
      if p =? 0 then bbind (err "strdup: %s" [ENOMEM]) (fun _ => leave PCAP_ERROR)
      else bbind (get id) (fun h => bbind (if opt_promisc (lopt h) =? 0 then bret tt
        else bbind (run (linux_if_drops (opt_source (lopt h1)))) (fun dropped => on_lx (fun x => with_stat x (stat (md x)) dropped))) (fun _ => open_socket)))))
      (fun r h' s' => match r with inl v | inr v => open_result h0 v h' s' end) h2 s0).
  { intros h2 El2 Ef2 Eb2 Ed2 Et2 Em2 Eme2 Eo2 Edev2.
    assert (Hopt : opt_source (lopt h2) = opt_source (lopt h0) /\ opt_rfmon (lopt h2) = opt_rfmon (lopt h0) /\ opt_buffer_size (lopt h2) = opt_buffer_size (lopt h0))
      by by destruct Eo2 as [-> | ->]. destruct Hopt as (Os & Or & Ob).
    wp_step. eapply wp_strdup; [apply holds_start| |].
    { do 2 wp_step. cbn [Z.eqb]. do 3 wp_step. left. split; [done|]. exists [], []. split; [by left|]. split; [by left|].
      split; [apply holds_start|]. split; [|done]. split; try done. cbn. lia. }
    intros p s1 Hp H1 E1. do 2 wp_step. destruct (Z.eqb_spec p 0) as [->|_]; [lia|]. do 2 wp_step.
    set (h3 := with_device h2 _).
    assert (Hopen : forall h4 s4, lx h4 = lx h3 \/ (exists n, lx h4 = with_stat (lx h3) (stat (md (lx h3))) n) -> same_held h3 h4 -> fd h4 = fd h3 -> meths h4 = meths h3 ->
      same_res s1 s4 -> wp bad open_socket (fun r h' s' => match r with inl v | inr v => open_result h0 v h' s' end) h4 s4).
    { intros h4 s4 El4 (Eb4 & Ed4 & Edv4 & Et4 & Emo4 & Eo4) Ef4 Eme4 Hs4. cbn in El4, Eb4, Ed4, Edv4, Et4, Emo4, Eo4, Ef4, Eme4, El2.
      assert (El : l_p (lx h4) = l_p (lx h0) /\ mmapbuf (md (lx h4)) = 0) by by destruct El4 as [-> | [n ->]]; cbn; rewrite El2.
      destruct El as [Elp Elm]. eapply wp_mono_post; [apply (open_socket_wp h4 s4)|].
      - split; try congruence; [exists p; congruence|]. unfold sizes_ok in *. by rewrite Elp, Eo4, Ob.
      - split; [|congruence..|split; congruence]. rewrite Eb4, Ed4, Edv4, Eb2, Ed2. eapply holds_same; [exact Hs4|exact H1].
      - intros r h5 s5 Hr. assert (Hend : forall v, open_result h4 v h5 s5 -> open_result h0 v h5 s5).
        { unfold open_result, left_ok, is_any. rewrite Eo4, Os, Or. intros v [Hv|(Hv & Hu & Hr')]; [by left|]. right. split; [done|]. split; [|done].
          eapply usable_from; [..|exact Hu]; [congruence|unfold buffer_size; by rewrite Eo4, Ob|by rewrite Elp]. }
        destruct r; by apply Hend. }
    wp_step. wp_step.
    - wp_step. apply Hopen; try done. by left.
    - wp_step. eapply wp_run_quiet; [apply linux_if_drops_quiet|]. intros n e s4 Hs4 _. wp_step. apply Hopen; try done. right. by exists n. }
  wp_step; [do 3 wp_step|wp_step]; apply Hgo; try done; [by right|by left].
Qed.
End Ring.
