(* ===== verification/LinuxCapture.v ===== *)
(** A live capture from [pcap_activate] to [pcap_close]: what it leaves
    behind, and what it is ready for when it has been opened. *)
From stdpp Require Import gmap strings list_numbers.
From S2P Require Import Prelude CString CFile Bpf BpfFilter PcapInt Datalink GenConst Pcap LinuxInt LinuxFilterSpec LinuxRing LinuxRingSpec.
From S2P Require Import LinuxSys LinuxIface LinuxActivate LinuxOs LinuxIfaceSpec LinuxActivateSpec LinuxOpenSpec.

#[local] Open Scope Z_scope.
#[local] Open Scope c_scope.

(** [pcap_activate] and [pcap_close]; the status of the first. *)
Definition open_and_close : body Z Z :=
  bbind (run activate_live) (fun status => bbind (run cleanup_op) (fun _ => bret status)).

(** The end of [pcap_activate]. *)
Definition activated_result (s0 : os) (h : live) (v : Z) (h' : live) (s' : os) : Prop :=
  v < 0 /\ (exists left lost, left_ok h v left /\ lost_ok lost /\ given_back s0 left lost h' s') /\ meths h' = initial_methods \/
  v = 0 /\ activated (l_p (lx h')) = true /\ usable h h' /\
    (meths h' = mmap_methods linux_methods /\ held s0 h [fd h'] [oneshot_buffer (md (lx h'))] [mmapbuf (md (lx h'))] h' s' \/
     meths h' = linux_methods /\ exists lost, lost_ok lost /\ held s0 h [fd h'] lost [] h' s').

Section Capture.
Context (bad : misuse -> Prop) (s : os) (h : live) (Hf : fresh h) (Hmaps : -1 ∉ maps s) (Hun : bad M_unmapped).

Lemma activated_usable h' : usable h h' -> usable h (with_lx h' (with_p (lx h') (with_activated (l_p (lx h')) true))).
Proof using.
  intros [Hfd Hb Hd Hs Hr]. split; try done. destruct Hr as [[Ho Hm]|(Ho & type & Hl & Hv & Hr)]; [by left|]. right. split; [done|].
  exists type. split; [done|]. split; [done|]. destruct Hr as [Hr|(Hm & Hos & n & reserve & Hw & Hh & Ht & [])]; [by left|]. right.
  split; [done|]. split; [done|]. exists n, reserve. split; [done|]. split; [done|]. split; [done|]. by split.
Qed.

Lemma activate_live_wp :
  wp bad activate_live (fun r h' s' => match r with inl v | inr v => activated_result s h v h' s' end) h s.
Proof using Hf Hmaps Hun.
  unfold activate_live, activate_by. do 2 wp_step. rewrite (fr_activated _ Hf). wp_step. apply wp_run.
  eapply wp_mono_post; [by apply (activate_linux_wp bad s h)|]. intros r h1 s1 Hr.
  assert (Hr1 : open_result s h h (match r with inl r => r | inr r => r end) h1 s1) by by destruct r. clear Hr.
  set (v := match r with inl r => r | inr r => r end) in *. clearbody v.
  destruct Hr1 as [(Hv & left & lost & Hleft & Hlost & Hg)|(-> & Hu & Hr)].
  - destruct (Z.leb_spec 0 v); [lia|]. repeat wp_step. left. split; [done|]. split; [|by destruct (errbuf h1)].
    exists left, lost. split; [done|]. split; [done|]. destruct Hg as (Hg1 & [] & Hg3).
    destruct (errbuf h1); (split; [done|]; split; [by split|done]).
  - cbn [Z.leb Z.compare]. do 3 wp_step. right. split; [done|]. split; [done|]. split; [by apply activated_usable|].
    destruct Hr as [[Hm Hh]|(Hm & lost & Hl & Hh)]; [left|right]; (split; [done|]); [by apply held_lx|]. exists lost. split; [done|]. by apply held_lx.
Qed.

(** [pcap_close] *)
Lemma cleanup_op_wp v h' s' : activated_result s h v h' s' ->
  wp bad cleanup_op (fun r h2 s2 => exists left lost, left_ok h v left /\ lost_ok lost /\ holds s s2 left lost [] /\ emptied h2) h' s'.
Proof using.
  intros Hr. unfold cleanup_op. do 2 wp_step. destruct Hr as [(Hv & (left & lost & Hl & Hlo & Hg & He & Hd) & Hm)|(-> & _ & Hu & Hr)].
  - rewrite Hm. cbn [cleanup_m initial_methods]. apply wp_run.
    eapply wp_mono_post; [apply (cleanup_live_common_wp bad s h' left lost [] h' s')|].
    + destruct He as [Eb Ed Et Em Ef]. split; [|done..]. unfold non_neg, non_null. rewrite Eb, Ed, Hd.
      destruct (Z.leb_spec 0 (fd h')); [lia|]. done.
    + intros r h2 s2 (H2 & He2 & _). rewrite Hd in H2. by exists left, lost.
  - destruct (us_fd _ _ Hu) as [Hfd _]. destruct Hr as [[Hm Hh]|(Hm & lost & Hlo & Hh)]; rewrite Hm; cbn [cleanup_m mmap_methods linux_methods]; apply wp_run.
    + destruct (us_reads _ _ Hu) as [[_ Hm2]|(_ & type & _ & _ & [[Hm2 _]|(_ & Hos & n & reserve & _ & _ & _ & Hra)])];
        [by rewrite Hm in Hm2..|].
      eapply wp_mono_post; [apply (cleanup_mmap_wp bad s h [] [] h' s'); [apply Hra|done|]|].
      * unfold non_neg. by destruct (Z.leb_spec 0 (fd h')); [|lia].
      * intros r h2 s2 (H2 & He & _). exists [], []. split; [by left|]. split; [by left|done].
    + eapply wp_mono_post; [apply (cleanup_linux_wp bad s h [] lost [] h' s')|].
      * unfold non_neg. by destruct (Z.leb_spec 0 (fd h')); [|lia].
      * intros r h2 s2 (H2 & He & _). exists [], lost. split; [by left|done].
Qed.
End Capture.



(** ** Reading from what has been opened *)

(** Where the kernel ([tpacket_rcv] of net/packet/af_packet.c) puts a packet
    with a link-layer header of [maclen] bytes in a frame: so that what follows
    that header is aligned, and the room that is reserved before it; on a
    [SOCK_DGRAM] socket the header is cut off.  The library does not know
    [maclen] and reckons with [MAX_LINKHEADER_SIZE]. *)
Definition kernel_mac (hdrlen type maclen reserve : Z) : Z :=
  let room := TPACKET_ALIGN hdrlen + sizeof_sockaddr_ll in
  if type =? SOCK_DGRAM then TPACKET_ALIGN room + 16 + reserve
  else TPACKET_ALIGN (room + Z.max 16 maclen) + reserve - maclen.

Example ethernet_mac : kernel_mac 32 SOCK_RAW 14 VLAN_TAG_LEN = 70.
Proof. reflexivity. Qed.

(** A frame of the ring that the kernel has filled: the packet is where the
    kernel places it, cut at the end of the frame. *)
Record kernel_frame (h : linux) (type reserve : Z) (f : frame) : Prop := KernelFrame {
  kf_mem : lenZ (f_mem f) = bufsize (l_p h);
  kf_mac : exists maclen, 0 <= maclen < 2 ^ 16 /\ tp_mac f = kernel_mac (tp_hdrlen (md h)) type maclen reserve;
  kf_snaplen : 0 <= tp_snaplen f <= tp_len f;
  kf_cut : tp_snaplen f <= Z.max 0 (bufsize (l_p h) - tp_mac f);
  kf_len : tp_len f < 2 ^ 31;
  kf_addr : length (sll_addr (f_sll f)) = 8%nat }.

Lemma kernel_mac_bounds hdrlen type maclen reserve : 0 < hdrlen <= 1024 -> 0 <= reserve <= 1024 -> 0 <= maclen < 2 ^ 16 ->
  TPACKET_ALIGN hdrlen + sizeof_sockaddr_ll + (if type =? SOCK_DGRAM then SLL_HDR_LEN else 0) + reserve
  <= kernel_mac hdrlen type maclen reserve <= macoff_of hdrlen type reserve + (if type =? SOCK_DGRAM then 0 else 16).
Proof.
  intros Hh Hr Hm. rewrite macoff_exact by done. unfold kernel_mac, sizeof_sockaddr_ll, SLL_HDR_LEN.
  pose proof (align_bounds hdrlen ltac:(lia)) as Ha. cbv zeta. destruct (type =? SOCK_DGRAM).
  - assert (TPACKET_ALIGN (TPACKET_ALIGN hdrlen + 20) = TPACKET_ALIGN hdrlen + 32) as ->; [|lia].
    rewrite (align_spec hdrlen) by lia. rewrite align_spec by (rewrite (align_spec hdrlen) in Ha by lia; lia).
    replace ((16 * ((hdrlen + 15) / 16) + 20 + 15) / 16) with ((hdrlen + 15) / 16 + 2) by (apply Z.div_unique with 3; lia). lia.
  - pose proof (align_bounds (TPACKET_ALIGN hdrlen + 20 + Z.max 16 maclen) ltac:(lia)) as Hx. split; [lia|].
    destruct (Z.le_gt_cases maclen 16) as [Hle|Hgt]; [|lia]. rewrite Z.max_l by lia.
    assert (TPACKET_ALIGN (TPACKET_ALIGN hdrlen + 20 + 16) = TPACKET_ALIGN hdrlen + 48) as ->; [|lia].
    rewrite (align_spec hdrlen) by lia. rewrite align_spec by (rewrite (align_spec hdrlen) in Ha by lia; lia).
    replace ((16 * ((hdrlen + 15) / 16) + 20 + 16 + 15) / 16) with ((hdrlen + 15) / 16 + 3) by (apply Z.div_unique with 3; lia). lia.
Qed.

Lemma vlan_offset_range l : vlan_offset_of l = -1 \/ 0 <= vlan_offset_of l <= 16.
Proof. unfold vlan_offset_of, ETH_ALEN. repeat case_match; lia. Qed.

Lemma ring_readable h type reserve n most : link_ok type h -> vlan_offset (md (lx h)) = vlan_offset_of (linktype (l_p (lx h))) ->
  0 < snapshot (l_p (lx h)) < 2 ^ 31 -> 0 <= n -> 0 < tp_hdrlen (md (lx h)) <= 1024 ->
  tp_version (md (lx h)) = TPACKET_V1 /\ reserve = 0 \/ tp_version (md (lx h)) = TPACKET_V2 /\ reserve = VLAN_TAG_LEN ->
  ring_at (mmapbuf (md (lx h))) n (macoff_of (tp_hdrlen (md (lx h))) type reserve) most h ->
  handle_ok (lx h) /\
  forall f, kernel_frame (lx h) type reserve f -> 16 <= n \/ tp_mac f <= bufsize (l_p (lx h)) -> frame_ok (lx h) f.
Proof.
  intros Hl Hv Hs Hn Hh Ht [_ _ _ _ _ Hroom _].
  assert (Hr : 0 <= reserve <= 1024) by (unfold VLAN_TAG_LEN in Ht; lia).
  pose proof (macoff_bounds (tp_hdrlen (md (lx h))) type reserve Hh Hr) as Hm. pose proof (align_bounds (tp_hdrlen (md (lx h))) ltac:(lia)).
  assert (Ht2 : type = SOCK_DGRAM <-> cooked (md (lx h)) = true).
  { unfold link_ok in Hl. destruct (cooked (md (lx h))); destruct Hl as [-> _]; done. }
  split; [split|].
  - unfold known_version. destruct Ht as [[-> _]|[-> _]]; done.
  - done.
  - unfold sizeof_sockaddr_ll, VLAN_TAG_LEN in Hm. destruct (type =? SOCK_DGRAM); unfold SLL_HDR_LEN in Hm; lia.
  - rewrite Hv. apply vlan_offset_range.
  - intros f [Km (maclen & Hml & Kc) Ks Kt Kl Ka] Hin.
    pose proof (kernel_mac_bounds (tp_hdrlen (md (lx h))) type maclen reserve Hh Hr Hml) as Hk. rewrite <- Kc in Hk.
    assert (Hfit : tp_mac f <= bufsize (l_p (lx h))) by (destruct Hin; [destruct (type =? SOCK_DGRAM); lia|done]).
    assert (Htag : tag_room (lx h) <= reserve) by (unfold tag_room; destruct Ht as [[-> ->]|[-> ->]]; done).
    split; try done; try lia. unfold header_end, header_len.
    destruct (Z.eqb_spec type SOCK_DGRAM) as [E|E].
    + rewrite (proj1 Ht2 E). lia.
    + destruct (cooked (md (lx h))); [by destruct E; apply Ht2|]. lia.
Qed.


(** ** A system *)

(** A kernel with a ring, where the only interface is an Ethernet. *)
Definition ethernet_ioctl {X} (r : ioctl X) : X :=
  match r in ioctl X return X with
  | SIOCGIFINDEX _ => 2 | SIOCGIFMTU _ => 1500 | SIOCGIFHWADDR _ => ARPHRD_ETHER | SIOCETHTOOL _ _ => 0
  | SIOCGIFFLAGS _ => IFF_UP | SIOCSIFFLAGS _ _ => tt | SIOCGIWNAME _ => tt | SIOCGIWPRIV _ _ => []
  | SIOCGIWMODE _ => 0 | SIOCSIWMODE _ _ => tt | SIOCGIWFREQ _ => 0 | SIOCGIFADDR _ => 0x0100000a | SIOCGIFNETMASK _ => 0xffffff
  | MON_IOCQ_RING_SIZE => 307200 | USBDEVFS_CONTROL _ => tt | IwPrivate _ _ _ => tt
  end.
Definition ethernet (n : nat) (X : Type) (c : sysE X) : X :=
  match c in sysE X return X with
  | Malloc _ | Strdup _ | AddressOf _ => 4096 * (Z.of_nat n + 1)
  | StrayWords n => repeat 0 n
  | Free _ => tt
  | OpenSocket _ _ => inr 3
  | Close _ => None
  | Ioctl _ r => inr (ethernet_ioctl r)
  | PrivCount _ _ => None
  | Setsockopt _ _ => None
  | Getsockopt _ q => inr (match q with SO_TYPE => SOCK_RAW | SO_ERROR => 0 | GET_PACKET_RESERVE => VLAN_TAG_LEN | GET_PACKET_HDRLEN _ => 32 end)
  | Bind _ _ | BindOld _ _ | BindCan _ _ => None
  | OpenFile _ => inr 4
  | Opendir _ => inl 2
  | Closedir _ => tt
  | Fopen _ => inl 2
  | Fclose _ => tt
  | Lstat _ => true
  | Getifaddrs => inl 12
  | Freeifaddrs _ => tt
  | Mmap _ _ => inr (2 ^ 30)
  | Munmap _ _ => tt
  | Getpagesize => 4096
  | Uname => None
  | ProcNetDev => None
  | Atexit => true
  | Stderr _ => tt
  end.

Definition no_os : os := Os ∅ ∅ ∅ 0 0.
Definition eth0 : live := pcap_create_interface "eth0" 1 (Globals false []).

Lemma created_fresh device self g : fresh (pcap_create_interface device self g).
Proof. by split. Qed.

Example ethernet_ring : exists h', answered ethernet 0 (activate_live eth0) = inr (inl 0, h') /\
  read_m (meths h') = Pcap_read_linux_mmap /\ linktype (l_p (lx h')) = DLT_EN10MB /\
  cc (lx h') = 1310 /\ bufsize (l_p (lx h')) = 1600 /\ mmapbuflen (md (lx h')) = 655 * 4096 /\
  take 3 (frame_ptrs h') = [2 ^ 30; 2 ^ 30 + 1600; 2 ^ 30 + 4096].
Proof. vm_compute. by eexists. Qed.

Example ethernet_closed : exists h', answered ethernet 0 (open_and_close eth0) = inr (inr 0, h') /\ fd h' = -1 /\ mmapbuf (md (lx h')) = 0.
Proof. vm_compute. by eexists. Qed.


