(* ===== verification/LinuxRead.v ===== *)
(** [pcap-linux.c]: reading a packet from a socket ([pcap_read_packet]),
    sending one ([pcap_inject_linux]), the direction, and the statistics. *)
From stdpp Require Import list.
From S2P Require Import Prelude CString CFile Bpf BpfFilter PcapInt Savefile Pcap LinuxInt LinuxRing LinuxSys LinuxIface.

#[local] Open Scope string_scope.
#[local] Open Scope Z_scope.
#[local] Open Scope c_scope.

(** ** Receiving *)

(** A packet in the queue of the socket: its bytes, where it is from - only
    [from.sll_halen] bytes of the address are meant -, the control messages of
    type [PACKET_AUXDATA] by [tp_vlan_tci] and [tp_status], [None] for others,
    and what [SIOCGSTAMP] gives after it has been received. *)
Record datagram := Datagram {
  d_data : list byte; d_from : sockaddr_ll; d_aux : list (option (Z * Z)); d_stamp : Z + Z * Z }.

(** What [recvmsg] gives; a signal handler may have called [pcap_breakloop]. *)
Inductive received := Received (d : datagram) | NotReceived (errno : Z) (breaks : bool).

(** What C leaves undefined: bytes outside the buffer, or a filter that faults
    or does not end. *)
Inductive read_fault := F_bytes | F_filter (why : undefined).
Inductive packet_result :=
| Return (n : Z)
| Failed (m : message)              (* -1 with the message *)
| Fault (e : read_fault)
| Blocked.                          (* no answer *)

(** The [do] loop: a packet, or the end. *)
Fixpoint receive (answers : list received) (h : linux) : (packet_result + datagram) * linux :=
  if break_flag h then (inl (Return PCAP_ERROR_BREAK), set_break_flag h false)
  else
    match answers with
    | [] => (inl Blocked, h)
    | Received d :: _ => (inr d, h)
    | NotReceived e b :: answers =>
        let h := or_break h b in
        if e =? EINTR then receive answers h
        else if e =? EAGAIN then (inl (Return 0), h)
        else if e =? ENETDOWN then (inl (Failed (Message "The interface went down" [])), h)
        else (inl (Failed (Message "recvfrom: %s" [e])), h)
    end.

(** Bytes stored in the buffer. *)
Definition store (pos : Z) (bs m : list byte) : read_fault + list byte :=
  if (pos <? 0) || (lenZ m <? pos + lenZ bs) then inl F_bytes
  else inr (take (Z.to_nat pos) m ++ bs ++ drop (Z.to_nat (pos + lenZ bs)) m)%list.
Definition fetch (pos n : Z) (m : list byte) : read_fault + list byte :=
  match sub pos n m with Some bs => inr bs | None => inl F_bytes end.

Definition fbind {A B} (r : read_fault + A) (f : A -> read_fault + B) : read_fault + B :=
  match r with inl e => inl e | inr a => f a end.
#[local] Notation "x <- m ;; k" := (fbind m (fun x => k)) (at level 100, m at next level, k at level 200, right associativity).

(** [iov.iov_len] *)
Definition iov_len (h : linux) : Z := u64 (bufsize (l_p h) - (if cooked (md h) then SLL_HDR_LEN else 0)).

(** The checks of the interface and of the direction. *)
Definition wanted_packet (h : linux) (from : sockaddr_ll) : bool :=
  sock_packet (md h)
  || ((ifindex (md h) =? -1) || (sll_ifindex from =? ifindex (md h)))
     && (if sll_pkttype from =? PACKET_OUTGOING then
           negb (sll_ifindex from =? lo_ifindex (md h)) && negb (direction h =? PCAP_D_IN)
         else negb (direction h =? PCAP_D_OUT)).

(** The header of cooked mode, field by field. *)
Definition fill_header (bp : Z) (from : sockaddr_ll) (m : list byte) : read_fault + list byte :=
  m <- store bp (le_split 2 (u16 (map_packet_type_to_sll_type (sll_pkttype from)))) m ;;
  m <- store (bp + 2) (le_split 2 (htons (sll_hatype from))) m ;;
  m <- store (bp + 4) (le_split 2 (htons (sll_halen from))) m ;;
  m <- store (bp + 6) (take (Z.to_nat (if SLL_ADDRLEN <? sll_halen from then SLL_ADDRLEN else sll_halen from)) (sll_addr from)) m ;;
  store (bp + 14) (le_split 2 (sll_protocol from)) m.

(** The loop over the control messages: [bp], the length and the buffer after it. *)
Fixpoint insert_tags (h : linux) (aux : list (option (Z * Z))) (bp packet_len : Z) (m : list byte) : read_fault + Z * Z * list byte :=
  match aux with
  | [] => inr (bp, packet_len, m)
  | None :: aux => insert_tags h aux bp packet_len m
  | Some (tci, status) :: aux =>
      if (tci =? 0) && (status .& TP_STATUS_VLAN_VALID =? 0) then insert_tags h aux bp packet_len m
      else
        let len := u32 (if iov_len h <? u64 packet_len then iov_len h else u64 packet_len) in
        if len <? u32 (vlan_offset (md h)) then inr (bp, packet_len, m)
        else
          let bp := bp - VLAN_TAG_LEN in
          macs <- fetch (bp + VLAN_TAG_LEN) (vlan_offset (md h)) m ;;
          m <- store bp macs m ;;
          m <- store (bp + vlan_offset (md h)) (vlan_tag tci) m ;;
          insert_tags h aux bp (i32 (packet_len + VLAN_TAG_LEN)) m
  end.

Section Read.
(** The contents of the scratch memory of [bpf_filter]. *)
Context (mem0 : list Z).
Context {user_t : Type} (callback : user_t -> pcap_pkthdr -> list byte -> user_t * bool).

(** The packet as it stands in the buffer: where, its length, and the buffer;
    [bp] is where it is read to. *)
Definition read_to_buffer (h : linux) (d : datagram) (m : list byte) : read_fault + Z * Z * list byte :=
  let bp := offset h in
  let hdr := if cooked (md h) then SLL_HDR_LEN else 0 in
  m <- store (bp + hdr) (take (Z.to_nat (iov_len h)) (d_data d)) m ;;
  let packet_len := i32 (lenZ (d_data d)) in
  if negb (wanted_packet h (d_from d)) then inr (bp, packet_len, m)
  else
    m <- (if cooked (md h) then fill_header bp (d_from d) m else inr m) ;;
    let packet_len := if cooked (md h) then i32 (packet_len + SLL_HDR_LEN) else packet_len in
    if vlan_offset (md h) =? -1 then inr (bp, packet_len, m) else insert_tags h (d_aux d) bp packet_len m.

(** [pcap_read_packet], on the buffer [m]: what it returns, the buffer and the
    handle after it, and the state of the application. *)
Definition pcap_read_packet (h : linux) (m : list byte) (answers : list received) (u : user_t)
    : packet_result * list byte * linux * user_t :=
  match receive answers h with
  | (inl r, h) => (r, m, h, u)
  | (inr d, h) =>
      match read_to_buffer h d m with
      | inl e => (Fault e, m, h, u)
      | inr (bp, packet_len, m) =>
          if negb (wanted_packet h (d_from d)) then (Return 0, m, h, u)
          else
            let caplen := if snapshot (l_p h) <? packet_len then snapshot (l_p h) else packet_len in
            match fetch bp caplen m with
            | inl e => (Fault e, m, h, u)
            | inr data =>
                match (if use_bpf (md h) =? 0 then filter_packet mem0 (fcode (l_p h)) (Pkthdr 0 0 caplen packet_len) data else inr true) with
                | inl why => (Fault (F_filter why), m, h, u)
                | inr false => (Return 0, m, h, u)
                | inr true =>
                    match d_stamp d with
                    | inl e => (Failed (Message "SIOCGSTAMP: %s" [e]), m, h, u)
                    | inr (sec, usec) =>
                        let h := with_packets_read h (u32 (packets_read (md h) + 1)) in
                        let '(u, brk) := callback u (Pkthdr sec usec caplen packet_len) data in
                        (Return 1, m, or_break h brk, u)
                    end
                end
            end
      end
  end.

(** One packet in each call. *)
Definition pcap_read_linux (h : linux) (m : list byte) (answers : list received) (max_packets : Z) (u : user_t) :=
  pcap_read_packet h m answers u.
End Read.

(** ** Sending, the direction, the statistics *)

(** [send] gives the number of bytes sent, or fails; the result, and what has
    been sent. *)
Definition pcap_inject_linux (send : list byte -> Z + Z) (h : linux) (buf : list byte) : (message + Z) * list (list byte) :=
  let sending :=
    match send buf with
    | inl e => (inl (Message "send: %s" [e]), [])
    | inr n => (inr n, [buf])
    end in
  if sock_packet (md h) then sending
  else if ifindex (md h) =? -1 then
    (inl (Message ("Sending packets isn't supported on the " +:+ String "034" ("any" +:+ String "034" " device")) []), [])
  else if cooked (md h) then (inl (Message "Sending packets isn't supported in cooked mode" []), [])
  else sending.

Definition pcap_setdirection_linux (h : linux) (d : Z) : (message + Z) * linux :=
  if negb (sock_packet (md h)) then (inr 0, with_direction h d)
  else (inl (Message "Setting direction is not supported on SOCK_PACKET sockets" []), h).

(** [kstats] is what [PACKET_STATISTICS] gives, [dropped] what [linux_if_drops]
    does; [promisc] is [opt.promisc]. *)
Definition pcap_stats_linux (promisc : Z) (dropped : Z) (kstats : Z + Z * Z) (h : linux) : (message + pcap_stat) * linux :=
  let h :=
    if promisc =? 0 then h
    else
      let s := stat (md h) in
      with_stat h (Stat (ps_recv s) (ps_drop s) (u32 (ps_ifdrop s + (dropped - proc_dropped (md h))))) dropped in
  match kstats with
  | inr (tp_packets, tp_drops) =>
      let s := stat (md h) in
      let s := Stat (u32 (ps_recv s + tp_packets)) (u32 (ps_drop s + tp_drops)) (ps_ifdrop s) in
      (inr s, with_stat h s (proc_dropped (md h)))
  | inl e =>
      if negb (e =? EOPNOTSUPP) then (inl (Message "pcap_stats: %s" [e]), h)
      else (inr (Stat (packets_read (md h)) 0 (ps_ifdrop (stat (md h)))), h)
  end.

(** ** Blocking ([pcap_getnonblock_fd] and [pcap_setnonblock_fd] of [pcap.c]) *)

Definition O_NONBLOCK := 2048.

(** [getfl] is what [fcntl(F_GETFL)] gives; [setfl] what [F_SETFL] does with the
    flags, [None] if it succeeds. *)
Definition pcap_getnonblock_fd (getfl : Z + Z) : message + Z :=
  match getfl with
  | inl e => inl (Message "F_GETFL: %s" [e])
  | inr fdflags => inr (if fdflags .& O_NONBLOCK =? 0 then 0 else 1)
  end.

(** The result and the flags of the descriptor after it, if they were set. *)
Definition pcap_setnonblock_fd (getfl : Z + Z) (setfl : Z -> option Z) (nonblock : Z) : (message + Z) * option Z :=
  match getfl with
  | inl e => (inl (Message "F_GETFL: %s" [e]), None)
  | inr fdflags =>
      let fdflags := if negb (nonblock =? 0) then fdflags .| O_NONBLOCK else Z.ldiff fdflags O_NONBLOCK in
      match setfl fdflags with
      | Some e => (inl (Message "F_SETFL: %s" [e]), None)
      | None => (inr 0, Some fdflags)
      end
  end.

(** What has been set is what is read back, and the other flags stay. *)
Lemma setnonblock_fd_get fdflags setfl nonblock flags :
  pcap_setnonblock_fd (inr fdflags) setfl nonblock = (inr 0, Some flags) ->
  pcap_getnonblock_fd (inr flags) = inr (if nonblock =? 0 then 0 else 1) /\ Z.ldiff flags O_NONBLOCK = Z.ldiff fdflags O_NONBLOCK.
Proof.
  unfold pcap_setnonblock_fd, pcap_getnonblock_fd. destruct (setfl _); [done|]. intros [= <-]. destruct (nonblock =? 0); cbn [negb].
  - replace (Z.ldiff fdflags O_NONBLOCK .& O_NONBLOCK) with 0; [split; [done|]|]; apply Z.bits_inj'; intros i _;
      rewrite ?Z.land_spec, ?Z.ldiff_spec, ?Z.bits_0; by destruct (Z.testbit fdflags i), (Z.testbit O_NONBLOCK i).
  - split; [destruct (Z.eqb_spec ((fdflags .| O_NONBLOCK) .& O_NONBLOCK) 0) as [E|]; [|done]|].
    + apply (f_equal (fun z => Z.testbit z 11)) in E. by rewrite Z.land_spec, Z.lor_spec, orb_true_r in E.
    + apply Z.bits_inj'; intros i _. rewrite !Z.ldiff_spec, Z.lor_spec. by destruct (Z.testbit fdflags i), (Z.testbit O_NONBLOCK i).
Qed.
