(* ===== verification/LinuxReadSpec.v ===== *)
(** Reading from a socket: what the application gets of a packet, that no byte
    outside the buffer is touched, and that it is what reading from a ring
    gives. *)
From stdpp Require Import list.
From S2P Require Import Prelude CString CFile Bpf BpfFilter BpfValidate PcapInt Savefile Pcap LinuxInt LinuxFilterSpec LinuxRing LinuxRingSpec.
From S2P Require Import LinuxSys LinuxIface LinuxRead.

#[local] Open Scope Z_scope.
#[local] Open Scope c_scope.

(** ** The packet *)

(** The address as it is in the buffer: what [from.sll_halen] does not cover
    are bytes that were there before. *)
Definition over (from : sockaddr_ll) (old : list byte) : sockaddr_ll :=
  let n := Z.to_nat (Z.min SLL_ADDRLEN (sll_halen from)) in
  SockaddrLl (sll_protocol from) (sll_ifindex from) (sll_hatype from) (sll_pkttype from) (sll_halen from)
             (take n (sll_addr from) ++ drop n old).

(** The tags that are put back. *)
Definition tags (aux : list (option (Z * Z))) : list Z :=
  omap (fun a => match a with
                 | Some (tci, status) => if (tci =? 0) && (status .& TP_STATUS_VLAN_VALID =? 0) then None else Some tci
                 | None => None
                 end) aux.

(** The whole packet, with the headers of the library. *)
Definition socket_packet (h : linux) (from : sockaddr_ll) (data : list byte) (aux : list (option (Z * Z))) : list byte :=
  let p := user_packet (cooked (md h)) from data in
  match tags aux with
  | tci :: _ =>
      if negb (vlan_offset (md h) =? -1) && (vlan_offset (md h) <=? Z.min (iov_len h) (lenZ p)) then
        let o := Z.to_nat (vlan_offset (md h)) in (take o p ++ vlan_tag tci ++ drop o p)%list
      else p
  | [] => p
  end.

(** What [pcap_activate_linux] leaves for reading from a socket. *)
Record socket_ok (h : linux) (m : list byte) : Prop := SocketOk {
  so_snapshot : 0 < snapshot (l_p h) < 2 ^ 31;
  so_cooked : cooked (md h) = true -> SLL_HDR_LEN < snapshot (l_p h);
  so_bufsize : bufsize (l_p h) = snapshot (l_p h);
  so_offset : VLAN_TAG_LEN <= offset h;
  so_buffer : lenZ m = bufsize (l_p h) + offset h;
  so_vlan : vlan_offset (md h) = -1 \/ 0 <= vlan_offset (md h) <= 16 }.

(** What the kernel gives: at most one tag. *)
Record datagram_ok (d : datagram) : Prop := DatagramOk {
  do_len : lenZ (d_data d) < 2 ^ 31 - 64;
  do_addr : length (sll_addr (d_from d)) = 8%nat;
  do_halen : 0 <= sll_halen (d_from d) < 256;
  do_tags : (length (tags (d_aux d)) <= 1)%nat }.

(** ** The buffer *)

Lemma store_at pos a b c bs : lenZ a = pos -> lenZ b = lenZ bs -> store pos bs (a ++ b ++ c) = inr (a ++ bs ++ c)%list.
Proof.
  unfold store, lenZ. intros <- Hb. rewrite (proj2 (Z.ltb_ge _ 0)) by lia. rewrite !length_app. rewrite (proj2 (Z.ltb_ge _ _)) by lia.
  cbn [orb]. do 2 f_equal.
  - by rewrite Nat2Z.id, take_app_length.
  - f_equal. rewrite app_assoc, drop_app_ge; rewrite length_app; [|lia].
    replace (Z.to_nat (Z.of_nat (length a) + Z.of_nat (length bs)) - (length a + length b))%nat with 0%nat by lia. done.
Qed.

Lemma fetch_at pos n a b c : lenZ a = pos -> lenZ b = n -> fetch pos n (a ++ b ++ c) = inr b.
Proof.
  intros Ha Hb. pose proof (peek_at pos n a b c Ha Hb) as H. unfold peek in H. unfold fetch. by destruct (sub pos n (a ++ b ++ c)) as [bs|]; [injection H as ->|].
Qed.

(** A list in two pieces. *)
Lemma two_pieces {A} (l : list A) (n : Z) : 0 <= n <= lenZ l -> exists a b, l = (a ++ b)%list /\ lenZ a = n.
Proof. unfold lenZ. intros Hn. exists (take (Z.to_nat n) l), (drop (Z.to_nat n) l). rewrite take_drop, length_take. split; [done|lia]. Qed.

Lemma store_eq pos m a b c bs : m = (a ++ b ++ c)%list -> lenZ a = pos -> lenZ b = lenZ bs -> store pos bs m = inr (a ++ bs ++ c)%list.
Proof. intros ->. apply store_at. Qed.

Lemma lenZ_app {A} (l l' : list A) : lenZ (l ++ l') = lenZ l + lenZ l'.
Proof. unfold lenZ. rewrite length_app. lia. Qed.
Lemma lenZ_split n v : lenZ (le_split n v) = Z.of_nat n.
Proof. unfold lenZ. by rewrite length_le_split. Qed.

Lemma fill_header_at bp from a s r : lenZ a = bp -> lenZ s = SLL_HDR_LEN -> length (sll_addr from) = 8%nat -> 0 <= sll_halen from ->
  exists old, length old = 8%nat /\ fill_header bp from (a ++ s ++ r) = inr (a ++ sll_header (over from old) (sll_addr (over from old)) ++ r)%list.
Proof.
  intros Ha Hs Hl Hh. unfold SLL_HDR_LEN in Hs.
  destruct (two_pieces s 2) as (s1 & t1 & -> & H1); [lia|]. unfold lenZ in Hs. rewrite length_app in Hs.
  destruct (two_pieces t1 2) as (s2 & t2 & -> & H2); [unfold lenZ in *; lia|]. rewrite length_app in Hs.
  destruct (two_pieces t2 2) as (s3 & t3 & -> & H3); [unfold lenZ in *; lia|]. rewrite length_app in Hs.
  destruct (two_pieces t3 8) as (s4 & s5 & -> & H4); [unfold lenZ in *; lia|]. rewrite length_app in Hs.
  unfold lenZ in *. exists s4. split; [lia|]. unfold fill_header.
  set (n := if SLL_ADDRLEN <? sll_halen from then SLL_ADDRLEN else sll_halen from).
  assert (En : n = Z.min SLL_ADDRLEN (sll_halen from)) by (unfold n, SLL_ADDRLEN in *; destruct (Z.ltb_spec 8 (sll_halen from)); lia).
  assert (Hn : 0 <= n <= 8) by (unfold SLL_ADDRLEN in *; lia). clearbody n.
  set (b1 := le_split 2 (u16 _)). set (b2 := le_split 2 (htons (sll_hatype from))). set (b3 := le_split 2 (htons (sll_halen from))).
  set (b5 := le_split 2 (sll_protocol from)). set (adr := take (Z.to_nat n) (sll_addr from)).
  assert (Hb : lenZ b1 = 2 /\ lenZ b2 = 2 /\ lenZ b3 = 2 /\ lenZ b5 = 2) by (unfold b1, b2, b3, b5; by rewrite !lenZ_split).
  assert (Hadr : lenZ adr = n) by (unfold adr, lenZ; rewrite length_take; lia).
  assert (H5 : lenZ s5 = 2) by (unfold lenZ; lia). clear Hs.
  destruct (two_pieces s4 n) as (o1 & o2 & -> & Ho); [unfold lenZ; lia|]. rewrite length_app in H4. unfold lenZ in *.
  rewrite (store_eq bp _ a s1 (s2 ++ s3 ++ (o1 ++ o2) ++ s5 ++ r)); [|by rewrite <- !app_assoc|unfold lenZ; lia..]. cbn [fbind].
  rewrite (store_eq (bp + 2) _ (a ++ b1) s2 (s3 ++ (o1 ++ o2) ++ s5 ++ r)); [|by rewrite <- !app_assoc|unfold lenZ; rewrite ?length_app; lia..]. cbn [fbind].
  rewrite (store_eq (bp + 4) _ (a ++ b1 ++ b2) s3 ((o1 ++ o2) ++ s5 ++ r)); [|by rewrite <- !app_assoc|unfold lenZ; rewrite ?length_app; lia..]. cbn [fbind].
  rewrite (store_eq (bp + 6) _ (a ++ b1 ++ b2 ++ b3) o1 (o2 ++ s5 ++ r)); [|by rewrite <- !app_assoc|unfold lenZ; rewrite ?length_app; lia..]. cbn [fbind].
  rewrite (store_eq (bp + 14) _ (a ++ b1 ++ b2 ++ b3 ++ adr ++ o2) s5 r); [|by rewrite <- !app_assoc|unfold lenZ; rewrite ?length_app; lia..].
  f_equal. unfold sll_header, over. cbn [sll_pkttype sll_hatype sll_halen sll_protocol sll_addr]. rewrite <- En.
  fold adr b1 b2 b3 b5. replace (drop (Z.to_nat n) (o1 ++ o2)) with o2; [by rewrite <- !app_assoc|].
  rewrite drop_app_ge by lia. by replace (Z.to_nat n - length o1)%nat with 0%nat by lia.
Qed.

Lemma insert_none h aux bp n m : tags aux = [] -> insert_tags h aux bp n m = inr (bp, n, m).
Proof.
  induction aux as [|[[tci st]|] aux IH]; [done| |exact IH]. unfold tags. cbn [omap list_omap insert_tags].
  destruct ((tci =? 0) && _); [exact IH|done].
Qed.

Lemma insert_one h aux bp n a q c tci : tags aux = [tci] -> lenZ a = bp -> VLAN_TAG_LEN <= bp -> 0 <= n < 2 ^ 31 - 8 ->
  0 <= iov_len h < 2 ^ 31 -> 0 <= vlan_offset (md h) <= 16 -> Z.min (iov_len h) n <= lenZ q ->
  insert_tags h aux bp n (a ++ q ++ c) =
  if vlan_offset (md h) <=? Z.min (iov_len h) n then
    inr (bp - VLAN_TAG_LEN, n + VLAN_TAG_LEN,
         take (Z.to_nat (bp - VLAN_TAG_LEN)) a ++
         (take (Z.to_nat (vlan_offset (md h))) q ++ vlan_tag tci ++ drop (Z.to_nat (vlan_offset (md h))) q) ++ c)%list
  else inr (bp, n, (a ++ q ++ c)%list).
Proof.
  intros Ht Ha Hb Hn HL Ho Hq. unfold VLAN_TAG_LEN in *. induction aux as [|[[t st]|] aux IH]; [done| |exact (IH Ht)].
  unfold tags in Ht. cbn [omap list_omap] in Ht. cbn [insert_tags]. destruct ((t =? 0) && _); [exact (IH Ht)|].
  injection Ht as -> Ht. rewrite (uwrap_id 64 n) by clia.
  assert (E : (if iov_len h <? n then iov_len h else n) = Z.min (iov_len h) n) by (destruct (Z.ltb_spec (iov_len h) n); lia).
  rewrite E, (uwrap_id 32 (Z.min _ _)), (uwrap_id 32 (vlan_offset _)) by clia. clear IH E.
  set (o := vlan_offset (md h)) in *. rewrite Z.ltb_antisym. destruct (Z.leb_spec o (Z.min (iov_len h) n)); cbn [negb]; [|done].
  destruct (two_pieces a (lenZ a - 4)) as (a1 & a2 & -> & H1); [unfold lenZ in *; lia|].
  destruct (two_pieces q o) as (q1 & q2 & -> & H2); [unfold lenZ in *; lia|].
  rewrite lenZ_app in *. unfold VLAN_TAG_LEN.
  replace (take (Z.to_nat (bp - 4)) (a1 ++ a2)) with a1 by (rewrite take_app_le, firstn_all2 by (unfold lenZ in *; lia); done).
  replace (take (Z.to_nat o) (q1 ++ q2)) with q1 by (rewrite take_app_le, firstn_all2 by (unfold lenZ in *; lia); done).
  replace (drop (Z.to_nat o) (q1 ++ q2)) with q2 by (rewrite drop_app_ge by (unfold lenZ in *; lia); replace (Z.to_nat o - length q1)%nat with 0%nat by (unfold lenZ in *; lia); done).
  replace ((a1 ++ a2) ++ (q1 ++ q2) ++ c)%list with ((a1 ++ a2) ++ q1 ++ (q2 ++ c))%list by (by rewrite <- !app_assoc).
  rewrite (fetch_at (bp - 4 + 4) o (a1 ++ a2) q1 (q2 ++ c)); [|rewrite lenZ_app; lia|lia]. cbn [fbind].
  destruct (two_pieces (a2 ++ q1) o) as (z1 & z2 & E & H3); [rewrite lenZ_app; lia|].
  assert (Ez : lenZ z2 = 4) by (apply (f_equal lenZ) in E; rewrite !lenZ_app in E; lia).
  rewrite (store_eq (bp - 4) _ a1 z1 (z2 ++ q2 ++ c)); [|rewrite <- !app_assoc; f_equal; rewrite !app_assoc; f_equal; f_equal; by rewrite <- E|lia|lia]. cbn [fbind].
  rewrite (store_eq (bp - 4 + o) _ (a1 ++ q1) z2 (q2 ++ c)); [|by rewrite <- !app_assoc|rewrite lenZ_app; lia|].
  2: { rewrite Ez. unfold vlan_tag. by rewrite lenZ_app, !lenZ_split. }
  cbn [fbind]. rewrite swrap_id by clia. rewrite insert_none by done. by rewrite <- !app_assoc.
Qed.

(** The tag in the part of the packet that has been read. *)
Lemma take_tagged {A} (p tag : list A) (n o k : nat) : (o <= n)%nat -> (k <= n)%nat ->
  take k (take o (take n p) ++ tag ++ drop o (take n p)) = take k (take o p ++ tag ++ drop o p).
Proof.
  intros Ho Hk. rewrite take_take, Nat.min_l by done. destruct (decide (length p <= o)%nat) as [Hp|Hp].
  { rewrite !drop_ge; [done|lia|rewrite length_take; lia]. }
  rewrite !take_app, length_take, Nat.min_l by lia. f_equal. f_equal. rewrite skipn_firstn_comm, take_take. f_equal. lia.
Qed.

Lemma lenZ_take {A} (l : list A) n : 0 <= n -> lenZ (take (Z.to_nat n) l) = Z.min n (lenZ l).
Proof. unfold lenZ. intros Hn. rewrite length_take. lia. Qed.

Section Packet.
Context (h : linux) (d : datagram) (Hd : datagram_ok d).

Definition hdr_len : Z := if cooked (md h) then SLL_HDR_LEN else 0.

Lemma lenZ_user from data : length (sll_addr from) = 8%nat -> lenZ (user_packet (cooked (md h)) from data) = hdr_len + lenZ data.
Proof using. intros Ha. unfold user_packet, hdr_len, SLL_HDR_LEN. destruct (cooked (md h)); [|lia]. rewrite lenZ_app. unfold lenZ. rewrite length_sll_header. lia. Qed.

Lemma user_take from n data : length (sll_addr from) = 8%nat -> hdr_len <= n ->
  user_packet (cooked (md h)) from (take (Z.to_nat (n - hdr_len)) data) = take (Z.to_nat n) (user_packet (cooked (md h)) from data).
Proof using.
  intros Ha Hn. unfold user_packet, hdr_len, SLL_HDR_LEN in *. destruct (cooked (md h)); [|by rewrite Z.sub_0_r].
  rewrite take_app_ge by (rewrite length_sll_header; lia). f_equal. f_equal. rewrite length_sll_header. lia.
Qed.

Lemma length_over from old : length (sll_addr from) = 8%nat -> length old = 8%nat -> length (sll_addr (over from old)) = 8%nat.
Proof using. intros Ha Ho. unfold over. cbn. rewrite length_app, length_take, length_drop. lia. Qed.

Lemma iov_len_ok m : socket_ok h m -> iov_len h = snapshot (l_p h) - hdr_len /\ 0 <= snapshot (l_p h) - hdr_len /\ 0 <= hdr_len <= 16.
Proof using.
  intros [Hs Hc Hb _ _ _]. unfold iov_len, hdr_len, SLL_HDR_LEN in *. rewrite Hb.
  destruct (cooked (md h)); [specialize (Hc eq_refl)|]; rewrite uwrap_id by clia; lia.
Qed.

(** A packet that is not wanted is read, too. *)
Lemma read_unwanted m : socket_ok h m -> wanted_packet h (d_from d) = false ->
  exists n m', lenZ m' = lenZ m /\ read_to_buffer h d m = inr (offset h, n, m').
Proof using.
  intros Hok Hw. destruct (iov_len_ok m Hok) as (EL & HL & Hh). destruct Hok as [Hs _ Hb Ho Hm _]. unfold VLAN_TAG_LEN in Ho.
  unfold read_to_buffer. fold hdr_len. rewrite EL, Hw. set (t := take _ (d_data d)).
  assert (Ht : lenZ t <= snapshot (l_p h) - hdr_len) by (unfold t; rewrite lenZ_take by lia; lia).
  destruct (two_pieces m (offset h + hdr_len)) as (a & m1 & -> & H1); [lia|]. rewrite lenZ_app in Hm.
  destruct (two_pieces m1 (lenZ t)) as (z & c & -> & H3); [unfold lenZ at 1; lia|].
  rewrite store_at by done. cbn [fbind negb]. eexists _, _. split; [|done]. rewrite !lenZ_app. lia.
Qed.

(** The buffer when the packet has been read and the header has been made. *)
Lemma received_at m : socket_ok h m -> wanted_packet h (d_from d) = true ->
  exists old a q c, length old = 8%nat /\ lenZ a = offset h /\ lenZ (a ++ q ++ c)%list = lenZ m /\
    q = take (Z.to_nat (snapshot (l_p h))) (user_packet (cooked (md h)) (over (d_from d) old) (d_data d)) /\
    read_to_buffer h d m =
      (let n := lenZ (user_packet (cooked (md h)) (over (d_from d) old) (d_data d)) in
       if vlan_offset (md h) =? -1 then inr (offset h, n, (a ++ q ++ c)%list) else insert_tags h (d_aux d) (offset h) n (a ++ q ++ c)).
Proof using Hd.
  intros Hok Hw. destruct (iov_len_ok m Hok) as (EL & HL). destruct Hok as [Hs Hc Hb Ho Hm Hv]. destruct Hd as [Hl Ha Hh _]. unfold VLAN_TAG_LEN in Ho.
  set (L := snapshot (l_p h) - hdr_len) in *. set (t := take (Z.to_nat L) (d_data d)).
  assert (Ht : lenZ t <= L) by (unfold t; rewrite lenZ_take by lia; lia).
  destruct (two_pieces m (offset h)) as (a & m1 & -> & H1); [lia|]. rewrite lenZ_app in Hm.
  destruct (two_pieces m1 hdr_len) as (s & m2 & -> & H2); [lia|]. rewrite lenZ_app in Hm.
  destruct (two_pieces m2 (lenZ t)) as (z & c & -> & H3); [unfold lenZ at 1; lia|].
  unfold read_to_buffer. fold hdr_len. rewrite EL. fold t. rewrite Hw. cbn [negb].
  rewrite (store_eq (offset h + hdr_len) _ (a ++ s) z c); [|by rewrite <- !app_assoc|rewrite lenZ_app; lia|done]. cbn [fbind].
  rewrite (swrap_id 32 eq_refl (lenZ (d_data d))) by (unfold lenZ in *; clia).
  assert (Hq : forall old, length old = 8%nat -> user_packet (cooked (md h)) (over (d_from d) old) t =
    take (Z.to_nat (snapshot (l_p h))) (user_packet (cooked (md h)) (over (d_from d) old) (d_data d))).
  { intros old Hold. rewrite <- user_take; [done|by apply length_over|lia]. }
  assert (Hlen : forall old, length old = 8%nat -> lenZ (user_packet (cooked (md h)) (over (d_from d) old) (d_data d)) = hdr_len + lenZ (d_data d)).
  { intros old Hold. by apply lenZ_user, length_over. }
  unfold hdr_len in *. destruct (cooked (md h)) eqn:Ec.
  - rewrite <- app_assoc. destruct (fill_header_at (offset h) (d_from d) a s (t ++ c)) as (old & Hold & ->); [done|done|done|lia|]. cbn [fbind].
    exists old, a, (user_packet true (over (d_from d) old) t), c. split; [done|]. split; [done|]. split.
    { rewrite !lenZ_app. unfold user_packet. rewrite lenZ_app. unfold lenZ. rewrite length_sll_header, length_over by done. unfold lenZ, SLL_HDR_LEN in *. lia. }
    split; [by apply Hq|]. rewrite Hlen by done. rewrite (swrap_id 32 eq_refl) by (unfold lenZ, SLL_HDR_LEN in *; clia).
    unfold user_packet. rewrite <- app_assoc. rewrite (Z.add_comm (lenZ _)). done.
  - destruct s as [|]; [|unfold lenZ in H2; cbn in H2; lia]. cbn [fbind]. exists (replicate 8 Byte.x00), a, t, c.
    split; [done|]. split; [done|]. split; [rewrite !lenZ_app; cbn; unfold lenZ in *; cbn in *; lia|]. split; [by apply (Hq (replicate 8 Byte.x00))|].
    rewrite app_nil_r, Hlen by done. done.
Qed.

Lemma fetch_take pos n a q c p : lenZ a = pos -> 0 <= n <= lenZ q -> take (Z.to_nat n) q = take (Z.to_nat n) p ->
  fetch pos n (a ++ q ++ c) = inr (take (Z.to_nat n) p).
Proof using.
  intros Ha Hn <-. destruct (two_pieces q n Hn) as (q1 & q2 & -> & H1). rewrite take_app_le, firstn_all2 by (unfold lenZ in *; lia).
  rewrite <- app_assoc. by apply fetch_at.
Qed.

Lemma length_tagged (p tag : list byte) o : lenZ (take o p ++ tag ++ drop o p) = lenZ p + lenZ tag.
Proof using. rewrite !lenZ_app. unfold lenZ. rewrite length_take, length_drop. lia. Qed.
Lemma length_vlan_tag tci : lenZ (vlan_tag tci) = VLAN_TAG_LEN.
Proof using. unfold vlan_tag. by rewrite lenZ_app, !lenZ_split. Qed.

(** What stands in the buffer is the packet, up to the snapshot length. *)
Lemma read_to_buffer_exact m : socket_ok h m -> wanted_packet h (d_from d) = true ->
  exists old bp m', length old = 8%nat /\ lenZ m' = lenZ m /\
    let p := socket_packet h (over (d_from d) old) (d_data d) (d_aux d) in
    lenZ p < 2 ^ 31 /\ read_to_buffer h d m = inr (bp, lenZ p, m') /\
    fetch bp (Z.min (snapshot (l_p h)) (lenZ p)) m' = inr (take (Z.to_nat (Z.min (snapshot (l_p h)) (lenZ p))) p).
Proof using Hd.
  intros Hok Hw. destruct (received_at m Hok Hw) as (old & a & q & c & Hold & Ha & Hm & Hq & Hr). exists old.
  destruct (iov_len_ok m Hok) as (EL & HL0 & Hh0). destruct Hok as [Hs Hc Hb Ho _ Hv]. destruct Hd as [Hl Haddr Hh Htags]. unfold socket_packet.
  set (p := user_packet _ _ _) in *. assert (Hp : 0 <= lenZ p < 2 ^ 31 - 32).
  { unfold p. rewrite lenZ_user by (by apply length_over). unfold hdr_len, SLL_HDR_LEN, lenZ in *. destruct (cooked (md h)); lia. }
  assert (HL : 0 <= iov_len h <= snapshot (l_p h)) by lia.
  assert (Elq : lenZ q = Z.min (snapshot (l_p h)) (lenZ p)) by (rewrite Hq, lenZ_take by lia; done). cbv zeta in Hr.
  assert (Hplain : fetch (offset h) (Z.min (snapshot (l_p h)) (lenZ p)) (a ++ q ++ c) = inr (take (Z.to_nat (Z.min (snapshot (l_p h)) (lenZ p))) p)).
  { apply fetch_take; [done|lia|]. rewrite Hq, take_take. f_equal. lia. }
  destruct (tags (d_aux d)) as [|tci [|]] eqn:Et; [| |cbn in Htags; lia].
  { exists (offset h), (a ++ q ++ c)%list. split_and!; try done; [lia|]. rewrite Hr. destruct (vlan_offset (md h) =? -1); [done|]. by apply insert_none. }
  destruct (Z.eqb_spec (vlan_offset (md h)) (-1)) as [Ev|Ev]; cbn [negb andb].
  { exists (offset h), (a ++ q ++ c)%list. split_and!; try done. lia. }
  destruct Hv as [|Hv]; [done|]. rewrite (insert_one h _ _ _ a q c tci) in Hr by (done || lia).
  destruct (Z.leb_spec (vlan_offset (md h)) (Z.min (iov_len h) (lenZ p))) as [Hle|Hgt].
  2: { exists (offset h), (a ++ q ++ c)%list. split_and!; try done. lia. }
  rewrite length_tagged, length_vlan_tag. eexists _, _. split; [done|]. split; [|split; [unfold VLAN_TAG_LEN; lia|split; [exact Hr|]]].
  - rewrite <- Hm, (lenZ_app _ (_ ++ c)), (lenZ_app _ c), length_tagged, length_vlan_tag, lenZ_take by (unfold VLAN_TAG_LEN in *; lia).
    rewrite !lenZ_app. unfold VLAN_TAG_LEN in *. lia.
  - apply fetch_take.
    + rewrite lenZ_take, Ha by (unfold VLAN_TAG_LEN in *; lia). unfold VLAN_TAG_LEN in *. lia.
    + rewrite length_tagged, length_vlan_tag, Elq. unfold VLAN_TAG_LEN. lia.
    + rewrite Hq. apply take_tagged; lia.
Qed.
End Packet.

(** ** Reading *)

(** The filter of a handle: none, or a strict one that the checker accepts. *)
Definition filter_valid (h : linux) : Prop :=
  match fcode (l_p h) with
  | Some fp => prog_ok fp /\ lenZ fp < 2 ^ 31 /\ bpf_validate fp = true /\ strict fp = true
  | None => True
  end.

Section Reading.
Context (mem0 : list Z) (Hmem : mem_ok mem0).
Context {user_t : Type} (callback : user_t -> pcap_pkthdr -> list byte -> user_t * bool).

(** Whether the filter of the library lets a packet through. *)
Definition passes (h : linux) (p : list byte) : bool :=
  match fcode (l_p h) with
  | Some fp =>
      if use_bpf (md h) =? 0 then
        let n := Z.min (snapshot (l_p h)) (lenZ p) in
        match bpf_filter (S (length fp)) mem0 (Some fp) (take (Z.to_nat n) p) (lenZ p) n with
        | Some (Returned v) => negb (v =? 0)
        | _ => false
        end
      else true
  | None => true
  end.

Lemma passes_filter h p : filter_valid h -> 0 < snapshot (l_p h) < 2 ^ 31 -> lenZ p < 2 ^ 31 ->
  let n := Z.min (snapshot (l_p h)) (lenZ p) in
  (if use_bpf (md h) =? 0 then filter_packet mem0 (fcode (l_p h)) (Pkthdr 0 0 n (lenZ p)) (take (Z.to_nat n) p) else inr true) = inr (passes h p).
Proof using Hmem.
  intros Hf Hs Hl n. unfold passes, filter_valid, filter_packet in *. destruct (fcode (l_p h)) as [fp|]; [|by destruct (use_bpf (md h) =? 0)].
  destruct (use_bpf (md h) =? 0); [|done]. destruct Hf as (H1 & H2 & H3 & H4). cbn [len caplen]. fold n.
  destruct (bpf_filter_total fp (take (Z.to_nat n) p) (lenZ p) n mem0) as (v & -> & _); try done; unfold lenZ in *; [clia|rewrite length_take; lia|lia].
Qed.

Lemma receive_first h pre d rest : break_flag h = false -> Forall (fun r => r = NotReceived EINTR false) pre ->
  receive (pre ++ Received d :: rest) h = (inr d, h).
Proof using. intros Hb. induction 1 as [|r pre -> _ IH]; cbn [receive app]; rewrite Hb; [done|]. exact IH. Qed.

(** What the reader does with the packet [d] once it is in the buffer: what
    it returns, and the handle and the application's state after it. *)
Definition handed_over (h : linux) (d : datagram) (old : list byte) (u : user_t) : packet_result * linux * user_t :=
  let p := socket_packet h (over (d_from d) old) (d_data d) (d_aux d) in
  let n := Z.min (snapshot (l_p h)) (lenZ p) in
  if wanted_packet h (d_from d) && passes h p then
    match d_stamp d with
    | inl e => (Failed (Message "SIOCGSTAMP: %s" [e]), h, u)
    | inr (sec, usec) =>
        let '(u, brk) := callback u (Pkthdr sec usec n (lenZ p)) (take (Z.to_nat n) p) in
        (Return 1, or_break (with_packets_read h (u32 (packets_read (md h) + 1))) brk, u)
    end
  else (Return 0, h, u).

Lemma read_packet_received h m pre d rest u : socket_ok h m -> datagram_ok d -> filter_valid h -> break_flag h = false ->
  Forall (fun r => r = NotReceived EINTR false) pre ->
  exists old m', length old = 8%nat /\ socket_ok h m' /\
    pcap_read_packet mem0 callback h m (pre ++ Received d :: rest) u =
    let '(r, h, u) := handed_over h d old u in (r, m', h, u).
Proof using Hmem.
  intros Hok Hd Hf Hb Hpre. unfold pcap_read_packet, handed_over. rewrite receive_first by done.
  destruct (wanted_packet h (d_from d)) eqn:Hw.
  - destruct (read_to_buffer_exact h d Hd m Hok Hw) as (old & bp & m' & Hold & Hm & Hl & -> & Hfetch). exists old, m'.
    split; [done|]. split; [destruct Hok; split; try done; lia|]. cbv zeta. cbn [negb andb]. set (p := socket_packet _ _ _ _) in *.
    replace (if snapshot (l_p h) <? lenZ p then snapshot (l_p h) else lenZ p) with (Z.min (snapshot (l_p h)) (lenZ p))
      by (destruct (Z.ltb_spec (snapshot (l_p h)) (lenZ p)); lia).
    rewrite Hfetch, passes_filter by (done || apply Hok). destruct (passes h p); [|done]. destruct (d_stamp d) as [e|[sec usec]]; [done|].
    by destruct (callback u _ _).
  - destruct (read_unwanted h d m Hok Hw) as (n & m' & Hm & ->). exists (replicate 8 Byte.x00), m'. split; [done|].
    split; [destruct Hok; split; try done; lia|]. done.
Qed.

(** C11: [pcap_read_packet] on a packet socket that [pcap_activate] has opened
    (not the old [SOCK_PACKET] kind, whose buffer has no room for a tag),
    through no filter or a strict one that the checker accepts (one that is
    not strict can load from before the packet), touches no byte outside the
    buffer, for a packet of fewer than [2^31 - 64] bytes with at most one tag,
    whatever signals have interrupted it before, and hands
    over a packet of the right interface and direction that the filter lets
    through: the whole packet, its header in cooked mode and its tag put back,
    cut at the snapshot length, under its length; only bytes of the link-layer
    address that the kernel does not give are those of an earlier packet.  If
    the time of the packet cannot be read an error is reported instead.  (The
    break flag is clear before.) *)
Theorem read_packet_exact h m pre d rest u : socket_ok h m -> datagram_ok d -> filter_valid h -> break_flag h = false ->
  Forall (fun r => r = NotReceived EINTR false) pre ->
  exists old m', length old = 8%nat /\ socket_ok h m' /\
    let p := socket_packet h (over (d_from d) old) (d_data d) (d_aux d) in
    let n := Z.min (snapshot (l_p h)) (lenZ p) in
    pcap_read_packet mem0 callback h m (pre ++ Received d :: rest) u =
    if wanted_packet h (d_from d) && passes h p then
      match d_stamp d with
      | inl e => (Failed (Message "SIOCGSTAMP: %s" [e]), m', h, u)
      | inr (sec, usec) =>
          let '(u, brk) := callback u (Pkthdr sec usec n (lenZ p)) (take (Z.to_nat n) p) in
          (Return 1, m', or_break (with_packets_read h (u32 (packets_read (md h) + 1))) brk, u)
      end
    else (Return 0, m', h, u).
Proof using Hmem.
  intros Hok Hd Hf Hb Hpre. destruct (read_packet_received h m pre d rest u Hok Hd Hf Hb Hpre) as (old & m' & Hold & Hm & Hr).
  exists old, m'. split; [done|]. split; [done|]. cbv zeta. rewrite Hr. unfold handed_over. cbv zeta.
  destruct (_ && _); [|done]. destruct (d_stamp d) as [e|[sec usec]]; [done|]. by destruct (callback u _ _).
Qed.

(** ** The two ways to read *)

(** A frame whose address is as a socket gives it. *)
Definition readdressed (f : frame) (old : list byte) : frame :=
  Frame (tp_status f) (tp_len f) (tp_mac f) (tp_snaplen f) (tp_sec f) (tp_frac f) (tp_vlan_tci f) (over (f_sll f) old) (f_mem f).

(** A packet that the kernel gives to a ring and to a socket. *)
Record same_packet (hr : linux) (f : frame) (d : datagram) : Prop := SamePacket {
  sk_data : captured f = take (Z.to_nat (tp_snaplen f)) (d_data d);
  sk_len : tp_len f = lenZ (d_data d);
  sk_from : f_sll f = d_from d;
  sk_aux : d_aux d = [Some (tp_vlan_tci f, tp_status f)];
  sk_stamp : d_stamp d = inr (tp_sec f, usec_of hr f) }.

(** A ring and a socket with the same settings; the packet fits, and so does
    its tag. *)
Record same_settings (hr hs : linux) (f : frame) : Prop := SameSettings {
  se_version : tp_version (md hr) = TPACKET_V2;
  se_snapshot : snapshot (l_p hr) = snapshot (l_p hs);
  se_cooked : cooked (md hr) = cooked (md hs);
  se_vlan : vlan_offset (md hr) = vlan_offset (md hs);
  se_room : Z.min (snapshot (l_p hs)) (tp_len f) <= tp_snaplen f;
  se_tag : tp_vlan_tci f = 0 /\ tp_status f .& TP_STATUS_VLAN_VALID = 0 \/
           vlan_offset (md hs) <= Z.min (tp_snaplen f) (iov_len hs) }.

Lemma packets_agree hr hs f d old m : frame_ok hr f -> socket_ok hs m -> same_packet hr f d -> same_settings hr hs f -> length old = 8%nat ->
  let p := socket_packet hs (over (d_from d) old) (d_data d) (d_aux d) in
  let n := Z.min (snapshot (l_p hs)) (lenZ p) in
  packet_of hr (readdressed f old) = (Pkthdr (tp_sec f) (usec_of hr f) n (lenZ p), take (Z.to_nat n) p).
Proof using.
  intros Hf Hso [Kd Kl Kf Ka _] [Ev Es Ec Eo Er Et] Hold. destruct (iov_len_ok hs m Hso) as (EL & HL & Hh). destruct Hso as [Hs _ _ _ _ Hv].
  pose proof Hf as [Fm Fs Fl _ _ Fa].
  set (w := user_packet (cooked (md hs)) (over (d_from d) old) (d_data d)). set (s := tp_snaplen f) in *.
  assert (Hw : lenZ w = hdr_len hs + lenZ (d_data d)) by (apply lenZ_user, length_over; [by rewrite <- Kf|done]).
  assert (Hwh : with_header hr (readdressed f old) = take (Z.to_nat (hdr_len hs + s)) w).
  { unfold w. rewrite <- user_take by (try apply length_over; try done; try lia; by rewrite <- Kf).
    unfold with_header, user_packet, readdressed. rewrite Ec, <- Kf. cbn [f_sll].
    replace (captured _) with (captured f) by done. rewrite Kd. by replace (hdr_len hs + s - hdr_len hs) with s by lia. }
  assert (Hcase : take (Z.to_nat (hdr_len hs + s)) w = w \/ snapshot (l_p hs) <= s).
  { destruct (Z.le_gt_cases (snapshot (l_p hs)) s); [by right|left]. apply firstn_all2. unfold lenZ in *. lia. }
  assert (Hlt : lenZ (take (Z.to_nat (hdr_len hs + s)) w) = hdr_len hs + s) by (rewrite lenZ_take by lia; lia).
  unfold packet_of, shown. rewrite Es, Hwh, Eo. change (tp_len (readdressed f old)) with (tp_len f). change (tp_snaplen (readdressed f old)) with s.
  change (tp_sec (readdressed f old)) with (tp_sec f). change (usec_of hr (readdressed f old)) with (usec_of hr f).
  unfold has_vlan, socket_packet. rewrite Ka, Ev, Eo. cbn [tp_vlan_tci tp_status tp_snaplen readdressed]. fold w s. unfold tags. cbn [omap list_omap].
  change (TPACKET_V2 =? TPACKET_V2) with true. cbn [andb]. rewrite <- negb_andb.
  destruct ((tp_vlan_tci f =? 0) && (tp_status f .& TP_STATUS_VLAN_VALID =? 0)) eqn:Etag; cbn [negb andb].
  - cbv zeta. rewrite Hlt. f_equal; [f_equal; lia|]. replace (Z.min (snapshot (l_p hs)) (hdr_len hs + s)) with (Z.min (snapshot (l_p hs)) (lenZ w)) by lia.
    rewrite take_take. f_equal. lia.
  - destruct Et as [[E1 E2]|Et]; [by rewrite E1, E2 in Etag|]. destruct Hv as [Hv|Hv]; [rewrite Hv; cbn [negb Z.eqb Pos.eqb andb]|].
    { cbv zeta. rewrite Hlt. f_equal; [f_equal; lia|]. replace (Z.min (snapshot (l_p hs)) (hdr_len hs + s)) with (Z.min (snapshot (l_p hs)) (lenZ w)) by lia.
      rewrite take_take. f_equal. lia. }
    rewrite (proj2 (Z.eqb_neq _ (-1))) by lia. rewrite (uwrap_id 32) by clia. cbn [negb andb].
    rewrite !(proj2 (Z.leb_le _ _)) by lia. cbv zeta. rewrite !length_tagged, length_vlan_tag, Hlt. unfold VLAN_TAG_LEN.
    f_equal; [f_equal; lia|]. replace (Z.min (snapshot (l_p hs)) (hdr_len hs + s + 4)) with (Z.min (snapshot (l_p hs)) (lenZ w + 4)) by lia.
    destruct Hcase as [->|Hcase]; [done|]. apply take_tagged; lia.
Qed.

(** C12: the two ways to read agree: of a packet that the kernel gives to a ring
    and to a socket with the same settings, the application gets the same
    header and the same bytes, whether the ring is read in place or a socket
    with [recvmsg] - the address bytes that a socket does not give apart. *)
Theorem ring_and_socket_agree hr hs f d m u : handle_ok hr -> frame_ok hr f -> socket_ok hs m -> datagram_ok d -> filter_valid hs ->
  break_flag hs = false -> same_packet hr f d -> same_settings hr hs f -> wanted_packet hs (d_from d) = true ->
  fcode (l_p hs) = None \/ use_bpf (md hs) <> 0 ->
  exists old hdr data m' ring_mem, length old = 8%nat /\
    build_packet hr (readdressed f old) = FramePacket hdr data ring_mem /\
    pcap_read_packet mem0 callback hs m [Received d] u =
      (let '(u, brk) := callback u hdr data in (Return 1, m', or_break (with_packets_read hs (u32 (packets_read (md hs) + 1))) brk, u)).
Proof using Hmem.
  intros Hh Hf Hso Hd Hfi Hb Hk Hse Hw Hp.
  destruct (read_packet_received hs m [] d [] u Hso Hd Hfi Hb (Forall_nil_2 _)) as (old & m' & Hold & _ & Hr).
  pose proof (packets_agree hr hs f d old m Hf Hso Hk Hse Hold) as Ep. unfold handed_over in Hr. cbv zeta in Hr, Ep. set (p := socket_packet _ _ _ _) in *.
  assert (Hf' : frame_ok hr (readdressed f old)) by (destruct Hf; split; try done; by apply length_over).
  destruct (build_packet_ok hr _ Hh Hf') as (rm & Hbuild). rewrite Ep in Hbuild. eexists old, _, _, m', rm. split; [done|]. split; [exact Hbuild|].
  assert (Ha : passes hs p = true).
  { unfold passes. destruct Hp as [->|Hp]; [done|]. destruct (fcode (l_p hs)); [|done]. by rewrite (proj2 (Z.eqb_neq _ 0) Hp). }
  cbn [app] in Hr. rewrite Hr, Hw, Ha. cbn [andb fst snd]. rewrite (sk_stamp _ _ _ Hk). by destruct (callback u _ _).
Qed.
End Reading.

(** A cooked capture on all devices, and a packet with a tag; a capture of an
    Ethernet device, by a ring and by a socket. *)
Definition log_packet (u : list (pcap_pkthdr * list byte)) (p : pcap_pkthdr) (data : list byte) : list (pcap_pkthdr * list byte) * bool :=
  ((u ++ [(p, data)])%list, false).
Definition any_md : pcap_md := Md (Stat 0 0 0) 0 0 false true (-1) 1 0 0 0 14 0 0 0 0.
Definition any_socket : linux := Linux (Pcap 96 113 0 0 true false 96 None sf0) any_md 4 0 PCAP_D_INOUT.
Definition tagged_udp : datagram := Datagram udp_payload from_host [None; Some (100, 1)] (inr (1371568000, 500000)).
Definition ether_md : pcap_md := Md (Stat 0 0 0) 0 0 false false 2 1 0 0 0 12 0 0 0 0.
Definition ether_socket : linux := Linux (Pcap 96 1 0 0 true false 96 None sf0) ether_md 6 0 PCAP_D_INOUT.
Definition ether_ring : linux := with_snapshot raw_capture 96.
Definition tagged_frame : frame :=
  Frame 1 (tp_len ip_frame) 80 (tp_len ip_frame) 1371568000 500000000 100 from_host (f_mem ip_frame).
Definition tagged_ip : datagram := Datagram (captured ip_frame) from_host [Some (100, 1)] (inr (1371568000, 500000)).

Lemma any_socket_ok : socket_ok any_socket (zeros 100).
Proof. split; [zcompute|done|done|zcompute|done|by right]. Qed.
Lemma tagged_udp_ok : datagram_ok tagged_udp.
Proof. split; [zcompute|done|done|cbn; lia]. Qed.

Lemma read_packet_exact_witness :
  (exists m h, pcap_read_packet zero_mem log_packet any_socket (zeros 100) [NotReceived EINTR false; Received tagged_udp] [] =
    (Return 1, m, h, [(Pkthdr 1371568000 500000 52 52, socket_packet any_socket from_host udp_payload [Some (100, 1)])])) /\
  exists old m', length old = 8%nat /\ socket_ok any_socket m' /\
    let p := socket_packet any_socket (over from_host old) udp_payload [None; Some (100, 1)] in
    let n := Z.min 96 (lenZ p) in
    pcap_read_packet zero_mem log_packet any_socket (zeros 100) [NotReceived EINTR false; Received tagged_udp] [] =
    if wanted_packet any_socket from_host && passes zero_mem any_socket p then
      (Return 1, m', with_packets_read any_socket 1, [(Pkthdr 1371568000 500000 n (lenZ p), take (Z.to_nat n) p)])
    else (Return 0, m', any_socket, []).
Proof.
  split; [vm_compute; eauto|].
  exact (read_packet_exact zero_mem zero_mem_ok log_packet any_socket (zeros 100) [NotReceived EINTR false] tagged_udp [] []
           any_socket_ok tagged_udp_ok I eq_refl (Forall_cons_2 _ _ _ eq_refl (Forall_nil_2 _))).
Defined.

Lemma ether_ring_ok : handle_ok ether_ring /\ frame_ok ether_ring tagged_frame.
Proof.
  split; [split; [done|zcompute|zcompute|by right]|].
  destruct (frame_with_whole ether_ring (zeros 12 ++ map byte.of_Z [8; 0; 0x45] ++ zeros 19)) as [[] _ _ _]; [done..|cbn; lia|]. by split.
Qed.
Lemma ether_socket_ok : socket_ok ether_socket (zeros 102) /\ datagram_ok tagged_ip.
Proof. split; split; try done; try zcompute. by right. Qed.
Lemma ether_same : same_packet ether_ring tagged_frame tagged_ip /\ same_settings ether_ring ether_socket tagged_frame.
Proof. split; split; try done; try zcompute. by right. Qed.

Lemma ring_and_socket_agree_witness : exists old hdr data m' ring_mem, length old = 8%nat /\
  build_packet ether_ring (readdressed tagged_frame old) = FramePacket hdr data ring_mem /\
  pcap_read_packet zero_mem log_packet ether_socket (zeros 102) [Received tagged_ip] [] =
    (Return 1, m', with_packets_read ether_socket 1, [(hdr, data)]) /\ caplen hdr = 38.
Proof.
  destruct (ring_and_socket_agree zero_mem zero_mem_ok log_packet ether_ring ether_socket tagged_frame tagged_ip (zeros 102) []
    (proj1 ether_ring_ok) (proj2 ether_ring_ok) (proj1 ether_socket_ok) (proj2 ether_socket_ok) I eq_refl (proj1 ether_same) (proj2 ether_same)
    eq_refl (or_introl eq_refl)) as (old & hdr & data & m' & rm & Hold & Hb & Hr).
  exists old, hdr, data, m', rm. split; [done|]. split; [done|]. split; [exact Hr|].
  vm_compute in Hr. injection Hr as _ <- _. done.
Defined.
