(* ===== verification/Scanf.v ===== *)
(** The scanning functions of the C library, as the device lists and the USB
    captures use them: [strtol], [strtoul] and [sscanf], on strings that end
    at their first NUL. *)
From Stdlib Require Import String.
From S2P Require Import Prelude CString.

#[local] Open Scope string_scope.
#[local] Open Scope Z_scope.

(** ** Characters *)

Definition code_of (c : ascii) : Z := Z.of_nat (nat_of_ascii c).
Definition c_isspace (c : ascii) : bool := (code_of c =? 32) || (9 <=? code_of c) && (code_of c <=? 13).
Definition c_isdigit (c : ascii) : bool := (48 <=? code_of c) && (code_of c <=? 57).
Definition c_isascii (c : ascii) : bool := code_of c <? 128.

(** The value of a digit, 36 for a character that is none. *)
Definition digit_of (c : ascii) : Z :=
  let n := code_of c in
  if c_isdigit c then n - 48
  else if (97 <=? n) && (n <=? 122) then n - 87
  else if (65 <=? n) && (n <=? 90) then n - 55 else 36.

(** Up to the first NUL. *)
Fixpoint c_str (s : string) : string :=
  match s with
  | EmptyString => EmptyString
  | String c s => if code_of c =? 0 then EmptyString else String c (c_str s)
  end.

(** The longest prefix of characters for which [p] holds, and the rest. *)
Fixpoint span (p : ascii -> bool) (s : string) : string * string :=
  match s with
  | EmptyString => ("", "")
  | String c t => if p c then let '(a, b) := span p t in (String c a, b) else ("", s)
  end.
Definition drop_white (s : string) : string := snd (span c_isspace s).

(** ** Numbers *)

Definition number (base : Z) (digits : string) : Z :=
  (fix go (acc : Z) (s : string) : Z := match s with EmptyString => acc | String c s => go (base * acc + digit_of c) s end) 0 digits.

Definition is_digit_of (base : Z) (c : ascii) : bool := digit_of c <? base.

(** The sign, and what follows it. *)
Definition take_sign (s : string) : bool * string :=
  match s with
  | String c t => if Ascii.eqb c "-" then (true, t) else if Ascii.eqb c "+" then (false, t) else (false, s)
  | EmptyString => (false, s)
  end.
(** In base 16 the digits may follow [0x]. *)
Definition take_prefix (base : Z) (s : string) : string :=
  match s with
  | String z (String x (String c t)) =>
      if (base =? 16) && Ascii.eqb z "0" && (Ascii.eqb x "x" || Ascii.eqb x "X") && is_digit_of base c then String c t else s
  | _ => s
  end.

(** A number without leading white space: its value and the rest. *)
Definition scan_number (base : Z) (s : string) : option (Z * string) :=
  let '(neg, s) := take_sign s in
  let '(digits, rest) := span (is_digit_of base) (take_prefix base s) in
  if (String.length digits =? 0)%nat then None
  else Some ((if neg then - number base digits else number base digits), rest).

(** [strtol] and the end it stores; the end is the string itself when there is
    no number.  A [long] has 64 bits. *)
Definition clamp_long (z : Z) : Z := Z.max (- 2 ^ 63) (Z.min z (2 ^ 63 - 1)).
Definition strtol (base : Z) (s : string) : Z * string :=
  match scan_number base (drop_white s) with Some (z, rest) => (clamp_long z, rest) | None => (0, s) end.
(** A number that is too large gives the largest [unsigned long], also after a
    minus sign. *)
Definition strtoul (base : Z) (s : string) : Z :=
  match scan_number base (drop_white s) with
  | Some (z, _) => if 2 ^ 64 - 1 <? Z.abs z then 2 ^ 64 - 1 else uwrap 64 z
  | None => 0
  end.
(** An [int] that is too small for the number keeps its low bits. *)
Definition atoi (s : string) : Z := i32 (fst (strtol 10 s)).

(** ** [sscanf] *)

Inductive directive := Lit (c : ascii) | White | Conv_d | Conv_x | Conv_c | Conv_s | Conv_n.
Inductive item := Int (z : Z) | Char (c : ascii) | Str (s : string) | Count (n : Z).

(** Why it ended. *)
Inductive scan_end := All | Mismatch | Input_end.

Definition input_or (s : string) : scan_end := if (String.length s =? 0)%nat then Input_end else Mismatch.

(** What is stored, in order; [n] characters have been read. *)
Fixpoint scan (fmt : list directive) (n : nat) (s : string) : list item * scan_end :=
  match fmt with
  | [] => ([], All)
  | Lit c :: fmt =>
      match s with
      | String d t => if Ascii.eqb c d then scan fmt (S n) t else ([], Mismatch)
      | EmptyString => ([], Input_end)
      end
  | White :: fmt => let t := drop_white s in scan fmt (n + (String.length s - String.length t)) t
  | Conv_d :: fmt =>
      match scan_number 10 (drop_white s) with
      | Some (z, t) => let '(l, e) := scan fmt (n + (String.length s - String.length t)) t in (Int (i32 (clamp_long z)) :: l, e)
      | None => ([], input_or (drop_white s))
      end
  | Conv_x :: fmt =>
      match scan_number 16 (drop_white s) with
      | Some (z, t) => let '(l, e) := scan fmt (n + (String.length s - String.length t)) t in (Int (i32 (strtoul 16 s)) :: l, e)
      | None => ([], input_or (drop_white s))
      end
  | Conv_c :: fmt =>
      match s with
      | String c t => let '(l, e) := scan fmt (S n) t in (Char c :: l, e)
      | EmptyString => ([], Input_end)
      end
  | Conv_s :: fmt =>
      let '(w, t) := span (fun c => negb (c_isspace c)) (drop_white s) in
      if (String.length w =? 0)%nat then ([], input_or (drop_white s))
      else let '(l, e) := scan fmt (n + (String.length s - String.length t)) t in (Str w :: l, e)
  | Conv_n :: fmt => let '(l, e) := scan fmt n s in (Count (Z.of_nat n) :: l, e)
  end.

Definition is_count (v : item) : bool := match v with Count _ => true | _ => false end.

(** The value of [sscanf] and what it stores: [EOF], which is -1, if the
    string ends before anything is stored. *)
Definition sscanf (fmt : list directive) (s : string) : Z * list item :=
  let '(l, e) := scan fmt 0 s in
  let stored := Z.of_nat (length (List.filter (fun v => negb (is_count v)) l)) in
  (match e with Input_end => if stored =? 0 then -1 else stored | _ => stored end, l).

(** A word in a format. *)
Fixpoint lits (s : string) : list directive := match s with EmptyString => [] | String c s => Lit c :: lits s end.

Example scan_usbmon : sscanf (lits "usbmon" ++ [Conv_d]) "usbmon12" = (1, [Int 12]).
Proof. reflexivity. Qed.
Example scan_nothing : sscanf [Conv_d] "" = (-1, []) /\ sscanf [Conv_d] "x" = (0, []).
Proof. split; reflexivity. Qed.
Example scan_tokens :
  sscanf [Conv_x; White; Conv_d; White; Conv_c; Conv_s; Conv_n] "d5ea89a0 35 Ci:001:00 s" =
  (4, [Int (i32 0xd5ea89a0); Int 35; Char "C"; Str "i:001:00"; Count 21]).
Proof. reflexivity. Qed.
