(* ===== verification/LinuxBus.v ===== *)
(** Captures on CAN and USB buses ([pcap-can-linux.c] and [pcap-usb-linux.c]):
    opening them, reading from a raw CAN socket, reading the text, the binary
    and the mapped interface of [usbmon], and statistics. *)
From stdpp Require Import list.
From S2P Require Import Prelude CString CFile Bpf BpfFilter Datalink PcapInt Savefile Pcap LinuxInt LinuxRing GenConst LinuxSys LinuxIface.
From S2P Require Import LinuxActivate LinuxRead Scanf.

#[local] Open Scope string_scope.
#[local] Open Scope Z_scope.
#[local] Open Scope c_scope.
#[local] Open Scope sys_scope.

Definition PF_CAN := 29.

(** [strrchr(device, '/')], and the name itself if there is none. *)
Fixpoint last_slash (s : string) : option string :=
  match s with
  | EmptyString => None
  | String c t => match last_slash t with Some r => Some r | None => if Ascii.eqb c "/" then Some s else None end
  end.
Definition base_name (device : string) : string := match last_slash device with Some s => s | None => device end.

(** [strncmp(s, prefix, strlen(prefix)) == 0], and what follows. *)
Fixpoint after_prefix (prefix s : string) : option string :=
  match prefix, s with
  | EmptyString, _ => Some s
  | String p prefix, String c s => if Ascii.eqb p c then after_prefix prefix s else None
  | String _ _, EmptyString => None
  end.

(** A number from 0 and nothing else. *)
Definition device_number (s : string) : bool :=
  let '(devnum, rest) := strtol 10 s in
  negb (String.eqb rest s) && String.eqb rest "" && (0 <=? devnum).

(** [can_create]: whether the device is a CAN bus. *)
Definition can_is_ours (device : string) : bool :=
  let cp := base_name device in
  match after_prefix "can" cp with
  | Some number => device_number number
  | None => match after_prefix "vcan" cp with Some number => device_number number | None => false end
  end.

(** Besides regular interfaces there is none. *)
Definition can_findalldevs {A} (alldevs : A) : Z * A := (0, alldevs).

(** ** Opening *)

Definition can_methods : methods :=
  Methods Can_read_linux Pcap_cleanup_live_common Can_setfilter_linux Pcap_getnonblock_fd Pcap_setnonblock_fd
          Can_inject_linux Can_setdirection_linux Can_stats_linux Pcap_oneshot.

Definition with_bufsize_of (x : linux) (n : Z) : linux := with_p x (with_bufsize (l_p x) n).

Definition can_activate : body Z Z :=
  on_lx (fun x => with_linktype (with_offset (with_bufsize_of x 24) 8) DLT_CAN_SOCKETCAN) ;;
  put (fun h => with_meths h can_methods) ;;
  r <- sys_call (OpenSocket PF_CAN SOCK_RAW) ;;
  match r with
  | inl e => put (fun h => with_fd h (-1)) ;; err "Can't create raw socket %d:%s" [e; e] ;; leave PCAP_ERROR
  | inr fd =>
      put (fun h => with_fd h fd) ;;
      h <- get id ;;
      r <- sys_call (Ioctl fd (SIOCGIFINDEX (ifr_name (opt_source (lopt h))))) ;;
      match r with
      | inl e => err "Unable to get interface index: %s" [e] ;; run pcap_cleanup_live_common ;; leave PCAP_ERROR
      | inr i =>
          on_lx (fun x => with_ifindex x i) ;;
          p <- sys_call (Malloc (bufsize (l_p (lx h)))) ;;
          put (fun h => with_buffer h p) ;;
          if p =? 0 then
            err "Can't allocate dump buffer: %s" [ENOMEM] ;; run pcap_cleanup_live_common ;; leave PCAP_ERROR
          else
            r <- sys_call (BindCan fd i) ;;
            match r with
            | Some e => err "Can't attach to device %d %d:%s" [i; e; e] ;; run pcap_cleanup_live_common ;; leave PCAP_ERROR
            | None =>
                if negb (opt_rfmon (lopt h) =? 0) then run pcap_cleanup_live_common ;; leave PCAP_ERROR
                else put (fun h => with_selectable h fd) ;; leave 0
            end
      end
  end.

(** ** Reading *)

(** What [recvmsg] gives: a [struct can_frame], or [errno]; and whether a
    signal handler has called [pcap_breakloop] meanwhile. *)
Inductive can_received := CanFrame (bytes : list byte) (breaks : bool) | CanError (errno : Z) (breaks : bool).

(** The [do] loop on the buffer [m]: [pkth.caplen], which is unsigned. *)
Fixpoint can_receive (answers : list can_received) (h : linux) (m : list byte) : (packet_result + Z) * linux * list byte :=
  match answers with
  | [] => (inl Blocked, h, m)
  | CanFrame bytes b :: _ =>
      let h := or_break h b in
      let bytes := take (Z.to_nat (u64 (snapshot (l_p h)))) bytes in
      match store (offset h) bytes m with
      | inl e => (inl (Fault e), h, m)
      | inr m => if break_flag h then (inl (Return PCAP_ERROR_BREAK), set_break_flag h false, m) else (inr (u32 (lenZ bytes)), h, m)
      end
  | CanError e b :: answers =>
      let h := or_break h b in
      if break_flag h then (inl (Return PCAP_ERROR_BREAK), set_break_flag h false, m)
      else if e =? EINTR then can_receive answers h m
      else (inr (u32 (-1)), h, m)
  end.

Section Read.
Context {user_t : Type} (callback : user_t -> pcap_pkthdr -> list byte -> user_t * bool).

(** The test for a negative length is never true. [clock] is what
    [gettimeofday] gives; the callback is given the buffer from the frame on. *)
Definition can_read_linux (h : linux) (m : list byte) (answers : list can_received) (clock : Z + Z * Z) (u : user_t)
    : packet_result * list byte * linux * user_t :=
  match can_receive answers h m with
  | (inl r, h, m) => (r, m, h, u)
  | (inr caplen, h, m) =>
      match fetch (8 + 4) 1 m, fetch 8 4 m with
      | inr dlc, inr id =>
          let caplen := u32 (caplen - (8 - le_combine dlc)) in
          match store 8 (le_split 4 (SWAPLONG (le_combine id))) m with
          | inl e => (Fault e, m, h, u)
          | inr m =>
              match clock with
              | inl e => (Failed (Message "Can't get time of day %d:%s" [e; e]), m, h, u)
              | inr (sec, usec) =>
                  let '(u, brk) := callback u (Pkthdr sec usec caplen caplen) (drop 8 m) in
                  (Return 1, m, or_break h brk, u)
              end
          end
      | inl e, _ | _, inl e => (Fault e, m, h, u)
      end
  end.
End Read.

Definition can_inject_linux (h : linux) (buf : list byte) : message + Z := inl (Message "inject not supported on can devices" []).
Definition can_stats_linux (h : linux) : pcap_stat := Stat 0 0 0.
(** The filter is not installed. *)
Definition can_setfilter_linux (h : linux) (fp : program) : Z * linux := (0, h).
Definition can_setdirection_linux (h : linux) (d : Z) : (message + Z) * linux :=
  if d =? PCAP_D_OUT then (inl (Message "Setting direction to PCAP_D_OUT is not supported on can" []), h)
  else (inr 0, with_direction h d).

Definition USB_IFACE := "usbmon".
Definition USB_TEXT_DIR_OLD := "/sys/kernel/debug/usbmon".
Definition USB_TEXT_DIR := "/sys/kernel/debug/usb/usbmon".
Definition LINUX_USB_MON_DEV := "/dev/usbmon".
Definition USB_LINE_LEN : nat := 4096.
Definition ENOENT := 2.

(** [usb_create]: whether the device is a USB bus. *)
Definition usb_is_ours (device : string) : bool :=
  match after_prefix USB_IFACE (base_name device) with Some number => device_number number | None => false end.

(** ** Opening *)

Definition usb_mmap : body Z Z :=
  h <- get id ;;
  r <- sys_call (Ioctl (fd h) MON_IOCQ_RING_SIZE) ;;
  match r with
  | inl _ => leave 0
  | inr len =>
      r <- sys_call (Mmap len (fd h)) ;;
      match r with
      | inl _ => on_lx (fun x => with_mmap x MAP_FAILED len) ;; leave 0
      | inr p => on_lx (fun x => with_mmap x p len) ;; leave 1
      end
  end.

(** A descriptor is asked of every device of the bus, until one does not give
    it. *)
Fixpoint probe_entries (bus : Z) (entries : list (string * Z)) : body unit unit :=
  match entries with
  | [] => bret tt
  | (name, _) :: entries =>
      match name with
      | String "." _ => probe_entries bus entries
      | _ =>
          let path := snprintf 40 ("/dev/bus/usb/" +:+ pad_zero 3 bus +:+ "/" +:+ name) in
          r <- sys_call (OpenFile path) ;;
          match r with
          | inl _ => probe_entries bus entries
          | inr fd =>
              r <- sys_call (Ioctl fd (USBDEVFS_CONTROL path)) ;;
              sys_call (Close fd) ;;
              match r with inl _ => bret tt | inr tt => probe_entries bus entries end
          end
      end
  end.

Definition probe_devices (bus : Z) : body unit unit :=
  r <- sys_call (Opendir (snprintf 40 ("/dev/bus/usb/" +:+ pad_zero 3 bus))) ;;
  match r with
  | inl _ => leave tt
  | inr dir => probe_entries bus (dir_entries dir) ;; sys_call (Closedir (dir_ptr dir))
  end.

(** The operations of every USB capture; those of reading are set later. *)
Definition usb_methods (m : methods) : methods :=
  Methods (read_m m) (cleanup_m m) Install_bpf_program Pcap_getnonblock_fd Pcap_setnonblock_fd Usb_inject_linux
          Usb_setdirection_linux (stats_m m) (oneshot_m m).
Definition read_with (read stats : method) (m : methods) : methods :=
  Methods read (cleanup_m m) (setfilter_m m) (getnonblock_m m) (setnonblock_m m) (inject_m m) (setdirection_m m) stats (oneshot_m m).
Definition cleanup_with (cleanup : method) (m : methods) : methods :=
  Methods (read_m m) cleanup (setfilter_m m) (getnonblock_m m) (setnonblock_m m) (inject_m m) (setdirection_m m) (stats_m m) (oneshot_m m).

(** The file of text, at its new place or its old one. *)
Definition open_text : body Z unit :=
  h <- get id ;;
  let file := "/" +:+ fmt_d (ifindex (md (lx h))) +:+ "t" in
  let no_more e := put (fun h => with_fd h (-1)) ;; err "Can't open USB bus file %s: %s" [e] ;; leave PCAP_ERROR in
  r <- sys_call (OpenFile (snprintf USB_LINE_LEN (USB_TEXT_DIR +:+ file))) ;;
  match r with
  | inr fd => put (fun h => with_fd h fd)
  | inl e =>
      if e =? ENOENT then
        r <- sys_call (OpenFile (snprintf USB_LINE_LEN (USB_TEXT_DIR_OLD +:+ file))) ;;
        match r with inr fd => put (fun h => with_fd h fd) | inl e => no_more e end
      else no_more e
  end.

(** A USB device has no monitor mode; [fd] keeps its value. *)
Definition refuse_rfmon : body Z unit :=
  h <- get id ;;
  if opt_rfmon (lopt h) =? 0 then bret tt
  else sys_call (Close (fd h)) ;; leave PCAP_ERROR_RFMON_NOTSUP.

(** From the choice of the read method on. *)
Definition usb_read_buffer : body Z Z :=
  h <- get id ;;
  put (fun h => with_selectable h (fd h)) ;;
  p <- sys_call (Malloc (bufsize (l_p (lx h)))) ;;
  put (fun h => with_buffer h p) ;;
  if p =? 0 then err "malloc: %s" [ENOMEM] ;; sys_call (Close (fd h)) ;; leave PCAP_ERROR
  else leave 0.

Definition usb_open : body Z Z :=
  h <- get id ;;
  let bus := ifindex (md (lx h)) in
  r <- sys_call (OpenFile (snprintf USB_LINE_LEN (LINUX_USB_MON_DEV +:+ fmt_d bus))) ;;
  match r with
  | inr fd =>
      put (fun h => with_fd h fd) ;;
      refuse_rfmon ;;
      mapped <- run usb_mmap ;;
      if negb (mapped =? 0) then
        on_lx (fun x => with_linktype x DLT_USB_LINUX_MMAPPED) ;;
        put (fun h => with_meths h (cleanup_with Usb_cleanup_linux_mmap (read_with Usb_read_linux_mmap Usb_stats_linux_bin (meths h)))) ;;
        run (probe_devices bus) ;;
        put (fun h => with_selectable h fd) ;;
        leave 0
      else
        put (fun h => with_meths h (read_with Usb_read_linux_bin Usb_stats_linux_bin (meths h))) ;;
        run (probe_devices bus) ;;
        usb_read_buffer
  | inl _ =>
      put (fun h => with_fd h (-1)) ;;
      open_text ;;
      refuse_rfmon ;;
      put (fun h => with_meths h (read_with Usb_read_linux Usb_stats_linux (meths h))) ;;
      usb_read_buffer
  end.

Definition usb_activate : body Z Z :=
  on_lx (fun x => with_linktype (with_offset (with_bufsize_of x (snapshot (l_p x))) 0) DLT_USB_LINUX) ;;
  put (fun h => with_meths h (usb_methods (meths h))) ;;
  h <- get id ;;
  match sscanf (lits USB_IFACE ++ [Conv_d])%list (opt_source (lopt h)) with
  | (1, [Int bus]) => on_lx (fun x => with_ifindex x bus) ;; usb_open
  | _ => err "Can't get USB bus index from %s" [] ;; leave PCAP_ERROR
  end.

(** ** The header of an event

    The places of the fields of [pcap_usb_header]; [pcap_usb_header_mmapped]
    begins like it. *)
Definition off_id := 0.
Definition off_event_type := 8.
Definition off_transfer_type := 9.
Definition off_endpoint_number := 10.
Definition off_device_address := 11.
Definition off_bus_id := 12.
Definition off_setup_flag := 14.
Definition off_data_flag := 15.
Definition off_ts_sec := 16.
Definition off_ts_usec := 24.
Definition off_status := 28.
Definition off_urb_len := 32.
Definition off_data_len := 36.
Definition off_setup := 40.
Definition sizeof_usb_header := 48.
Definition sizeof_usb_header_mmapped := 64.

Definition URB_TRANSFER_IN := 0x80.
Definition URB_INTERRUPT := 1.
Definition URB_CONTROL := 2.
Definition URB_BULK := 3.

Definition letter (s : ascii) : byte := byte.of_Z (code_of s).

(** ** What the system gives *)

(** Each answer to a [read] or an [ioctl], and whether a signal handler has
    called [pcap_breakloop] meanwhile: a value, or [errno]. *)
Inductive answer (A : Type) := Got (a : A) (breaks : bool) | Refused (errno : Z) (breaks : bool).
Arguments Got {A}. Arguments Refused {A}.

(** The [do] loop of the three ways to read; [what] is the message of an error. *)
Fixpoint usb_receive {A} (what : Z -> message) (answers : list (answer A)) (h : linux) : (packet_result + A) * linux * list (answer A) :=
  match answers with
  | [] => (inl Blocked, h, [])
  | Got a b :: answers =>
      let h := or_break h b in
      if break_flag h then (inl (Return PCAP_ERROR_BREAK), set_break_flag h false, answers) else (inr a, h, answers)
  | Refused e b :: answers =>
      let h := or_break h b in
      if break_flag h then (inl (Return PCAP_ERROR_BREAK), set_break_flag h false, answers)
      else if e =? EINTR then usb_receive what answers h
      else if e =? EAGAIN then (inl (Return 0), h, answers)
      else (inl (Failed (what e)), h, answers)
  end.

(** ** Reading text *)

(** A step that works on the buffer, and may return early. *)
Definition step_on (A : Type) : Type := list byte -> (packet_result + A) * list byte.
Definition done {A} (a : A) : step_on A := fun m => (inr a, m).
Definition stop {A} (r : packet_result) : step_on A := fun m => (inl r, m).
Definition sthen {A B} (x : step_on A) (f : A -> step_on B) : step_on B := fun m =>
  match x m with (inl r, m) => (inl r, m) | (inr a, m) => f a m end.
#[local] Notation "x <- m ;; k" := (sthen m (fun x => k)) (at level 100, m at next level, k at level 200, right associativity).
#[local] Notation "m ;; k" := (sthen m (fun _ => k)) (at level 100, k at level 200, right associativity).
Definition set (pos : Z) (bs : list byte) : step_on unit := fun m =>
  match store pos bs m with inl e => (inl (Fault e), m) | inr m => (inr tt, m) end.

(** What is left of a string; a byte behind its end counts as one outside. *)
Fixpoint skip (n : nat) (s : string) : string :=
  match n, s with S n, String _ s => skip n s | _, _ => s end.
Definition skip_within (n : nat) (s : string) : step_on string :=
  if (String.length s <? n)%nat then stop (Fault F_bytes) else done (skip n s).

(** [sscanf] stores words in arrays of these sizes. *)
Fixpoint fits (rooms : list nat) (items : list item) : bool :=
  match items with
  | [] => true
  | Str s :: items => match rooms with r :: rooms => (String.length s <? r)%nat && fits rooms items | [] => false end
  | _ :: items => fits rooms items
  end.
Definition usb_sscanf (rooms : list nat) (fmt : list directive) (s : string) : step_on (Z * list item) :=
  let '(n, items) := sscanf fmt s in
  if fits rooms items then done (n, items) else stop (Fault F_bytes).

(** A [char] is signed. *)
Definition ascii_to_int (s : ascii) : Z :=
  let c := i8 (code_of s) in
  if c <? code_of "A" then c - code_of "0" else if c <? code_of "a" then c - code_of "A" + 10 else c - code_of "a" + 10.

Definition too_few (expected got : Z) : message :=
  Message "Can't parse USB bus message '%s', too few tokens (expected %d got %d)" [expected; got].

(** What the first token says: address, kind and direction. *)
Record urb := Urb {
  u_tag : Z; u_type : ascii; u_pipe1 : ascii; u_pipe2 : ascii; u_dev : Z; u_ep : Z; u_status : string }.
Definition urb_format : list directive :=
  [Conv_x; White; Conv_d; White; Conv_c; White; Conv_c; Conv_c; Lit ":"; Conv_d; Lit ":"; Conv_d; White; Conv_s; Conv_n].
Definition read_urb (string : string) : step_on (urb * String.string) :=
  r <- usb_sscanf [16%nat] urb_format string ;;
  match r with
  | (_, [Int tag; Int timestamp; Char etype; Char pipeid1; Char pipeid2; Int dev_addr; Int ep_num; Str status; Count cnt]) =>
      done (Urb tag etype pipeid1 pipeid2 dev_addr ep_num status, skip (Z.to_nat cnt) string)
  | (ret, _) => stop (Failed (too_few 8 ret))
  end.

Definition transfer_of (pipeid1 : ascii) : Z :=
  if Ascii.eqb pipeid1 "C" then URB_CONTROL
  else if Ascii.eqb pipeid1 "Z" then 0
  else if Ascii.eqb pipeid1 "I" then URB_INTERRUPT
  else if Ascii.eqb pipeid1 "B" then URB_BULK else 0.
Definition is_in (x : urb) : bool := Ascii.eqb (u_pipe2 x) "i".
Definition incoming (x : urb) : bool := if Ascii.eqb (u_type x) "C" then negb (is_in x) else is_in x.
Definition endpoint (x : urb) : Z := if is_in x then u_ep x .| URB_TRANSFER_IN else u_ep x.
Definition unwanted (direction : Z) (x : urb) : bool :=
  if incoming x then direction =? PCAP_D_OUT else direction =? PCAP_D_IN.

(** The setup packet, in hexadecimal or underscores, if the status is no
    number. *)
Definition setup_format : list directive :=
  [Conv_s; White; Conv_s; White; Conv_s; White; Conv_s; White; Conv_s; Conv_n].
Definition read_setup (status string : string) : step_on String.string :=
  if fst (sscanf [Conv_d] status) =? 1 then set off_setup_flag (le_split 1 1) ;; done string
  else
    r <- usb_sscanf [3; 3; 5; 5; 5]%nat setup_format string ;;
    match r with
    | (_, [Str str1; Str str2; Str str3; Str str4; Str str5; Count cnt]) =>
        set off_setup (le_split 1 (strtoul 16 str1)) ;;
        set (off_setup + 1) (le_split 1 (strtoul 16 str2)) ;;
        set (off_setup + 2) (le_split 2 (strtoul 16 str3)) ;;
        set (off_setup + 4) (le_split 2 (strtoul 16 str4)) ;;
        set (off_setup + 6) (le_split 2 (strtoul 16 str5)) ;;
        set off_setup_flag (le_split 1 0) ;;
        done (skip (Z.to_nat cnt) string)
    | (ret, _) => stop (Failed (too_few 5 ret))
    end.

(** The data, two digits for a byte: [caplen] and [data_len] after it. *)
Fixpoint read_data (snapshot caplen data_len : Z) (string : string) : step_on (Z * Z) :=
  match string with
  | String a (String b rest) =>
      if caplen <? u32 snapshot then
        set (sizeof_usb_header + data_len) (le_split 1 (ascii_to_int a * 16 + ascii_to_int b)) ;;
        match rest with
        | String c rest' =>
            read_data snapshot (u32 (caplen + 1)) (data_len + 1) (if Ascii.eqb c " " then rest' else rest)
        | EmptyString => done (u32 (caplen + 1), data_len + 1)
        end
      else done (caplen, data_len)
  | _ => done (caplen, data_len)
  end.

(** From the length on: [pkth.caplen] before it is cut, [pkth.len], and
    [data_len]. *)
Definition read_lengths (snapshot : Z) (string : string) : step_on (Z * Z * Z) :=
  match sscanf [White; Conv_d; Conv_n] string with
  | (_, [Int urb_len; Count cnt]) =>
      let string := skip (Z.to_nat cnt) string in
      let caplen := sizeof_usb_header in
      let len := u32 (urb_len + caplen) in
      set off_urb_len (le_split 4 (u32 urb_len)) ;;
      set off_data_flag (le_split 1 1) ;;
      if u32 urb_len =? 0 then done (caplen, len, 0)
      else
        match sscanf [White; Conv_c] string with
        | (1, [Char urb_tag]) =>
            if negb (Ascii.eqb urb_tag "=") then done (caplen, len, 0)
            else
              string <- skip_within 3 string ;;
              set off_data_flag (le_split 1 0) ;;
              r <- read_data snapshot caplen 0 string ;;
              done (fst r, len, snd r)
        | _ => stop (Failed (Message "Can't parse urb tag from '%s'" []))
        end
  | _ => stop (Failed (Message "Can't parse urb length from '%s'" []))
  end.

(** [usb_read_linux] from the line on, up to the filter; [clock] is what
    [gettimeofday] gives. *)
Definition usb_text (h : linux) (clock : Z + Z * Z) (line : string) : step_on pcap_pkthdr :=
  r <- read_urb line ;;
  let '(x, string) := r in
  set off_id (le_split 8 (u64 (u_tag x))) ;;
  set off_device_address (le_split 1 (u_dev x)) ;;
  set off_bus_id (le_split 2 (ifindex (md h))) ;;
  set off_status (le_split 4 0) ;;
  match clock with
  | inl e => stop (Failed (Message "Can't get timestamp for message '%s' %d:%s" [e; e]))
  | inr (sec, usec) =>
      set off_ts_sec (le_split 8 sec) ;;
      set off_ts_usec (le_split 4 usec) ;;
      if unwanted (direction h) x then stop (Return 0)
      else
        set off_event_type [letter (u_type x)] ;;
        set off_transfer_type (le_split 1 (transfer_of (u_pipe1 x))) ;;
        set off_endpoint_number (le_split 1 (endpoint x)) ;;
        string <- read_setup (u_status x) string ;;
        r <- read_lengths (snapshot (l_p h)) string ;;
        let '(caplen, len, data_len) := r in
        set off_data_len (le_split 4 data_len) ;;
        let limit := u32 (snapshot (l_p h)) in
        done (Pkthdr sec usec (if limit <? caplen then limit else caplen) len)
  end.

Section Read.
Context (mem0 : list Z).
Context {user_t : Type} (callback : user_t -> pcap_pkthdr -> list byte -> user_t * bool).

(** The filter, the count, the callback; the packet begins at [pos] in [m].
    Whether it has been passed on. *)
Definition usb_deliver (h : linux) (ph : pcap_pkthdr) (pos : Z) (m : list byte) (u : user_t) : (packet_result + bool) * linux * user_t :=
  match fetch pos (caplen ph) m with
  | inl e => (inl (Fault e), h, u)
  | inr data =>
      match filter_packet mem0 (fcode (l_p h)) ph data with
      | inl why => (inl (Fault (F_filter why)), h, u)
      | inr false => (inr false, h, u)
      | inr true =>
          let h := with_packets_read h (u32 (packets_read (md h) + 1)) in
          let '(u, brk) := callback u ph data in
          (inr true, or_break h brk, u)
      end
  end.
Definition one_packet (r : packet_result + bool) : packet_result :=
  match r with inl r => r | inr true => Return 1 | inr false => Return 0 end.

(** [read] is given room for one byte less than the line has. *)
Definition usb_read_linux (fd : Z) (h : linux) (m : list byte) (answers : list (answer string)) (clock : Z + Z * Z) (u : user_t)
    : packet_result * list byte * linux * user_t :=
  match usb_receive (fun e => Message "Can't read from fd %d: %s" [fd; e]) answers h with
  | (inl r, h, _) => (r, m, h, u)
  | (inr text, h, _) =>
      match usb_text h clock (c_str (String.substring 0 (USB_LINE_LEN - 1) text)) m with
      | (inl r, m) => (r, m, h, u)
      | (inr ph, m) => let '(r, h, u) := usb_deliver h ph 0 m u in (one_packet r, m, h, u)
      end
  end.

(** ** Reading binary events *)

(** What [MON_IOCX_GET] copies: the header, and of the data as much as there
    is room for. *)
Definition usb_read_linux_bin (fd : Z) (h : linux) (m : list byte) (answers : list (answer (list byte * list byte))) (u : user_t)
    : packet_result * list byte * linux * user_t :=
  let clen := i32 (snapshot (l_p h) - sizeof_usb_header) in
  let get :=
    match usb_receive (fun e => Message "Can't read from fd %d: %s" [fd; e]) answers h with
    | (inl r, h, _) => (inl r, m, h)
    | (inr (hdr, data), h, _) =>
        match store 0 hdr m with
        | inl e => (inl (Fault e), m, h)
        | inr m =>
            match store sizeof_usb_header (take (Z.to_nat (u64 clen)) data) m with
            | inl e => (inl (Fault e), m, h)
            | inr m => (inr tt, m, h)
            end
        end
    end in
  match get with
  | (inl r, m, h) => (r, m, h, u)
  | (inr _, m, h) =>
      let finish :=
        n <- (fun m => match fetch off_data_len 4 m with inl e => (inl (Fault e), m) | inr bs => (inr (le_combine bs), m) end) ;;
        let clen := if n <? u32 clen then i32 n else clen in
        set off_data_len (le_split 4 (u32 clen)) ;;
        (fun m =>
           match fetch off_ts_sec 8 m, fetch off_ts_usec 4 m with
           | inr sec, inr usec =>
               (inr (Pkthdr (i64 (le_combine sec)) (i32 (le_combine usec)) (u32 (clen + sizeof_usb_header)) (u32 (u32 clen + sizeof_usb_header))), m)
           | inl e, _ | _, inl e => (inl (Fault e), m)
           end) in
      match finish m with
      | (inl r, m) => (r, m, h, u)
      | (inr ph, m) => let '(r, h, u) := usb_deliver h ph 0 m u in (one_packet r, m, h, u)
      end
  end.

(** ** Reading the mapped ring *)

Definition VEC_SIZE := 32.

(** The event at [off] in the ring. *)
Definition event_header (max_clen off : Z) (ring : list byte) : read_fault + pcap_pkthdr :=
  match fetch (off + off_data_len) 4 ring, fetch (off + off_ts_sec) 8 ring, fetch (off + off_ts_usec) 4 ring with
  | inr n, inr sec, inr usec =>
      let data_len := le_combine n in
      let clen := if data_len <? u32 max_clen then i32 data_len else max_clen in
      inr (Pkthdr (i64 (le_combine sec)) (i32 (le_combine usec)) (u32 (clen + sizeof_usb_header_mmapped)) (u32 (data_len + sizeof_usb_header_mmapped)))
  | inl e, _, _ | _, inl e, _ | _, _, inl e => inl e
  end.

(** The [for] loop over what has been fetched; [packets] have been passed on. *)
Fixpoint usb_events (h : linux) (max_clen : Z) (ring : list byte) (vec : list Z) (packets : Z) (u : user_t) : (packet_result + Z) * linux * user_t :=
  match vec with
  | [] => (inr packets, h, u)
  | off :: vec =>
      match fetch (off + off_event_type) 1 ring with
      | inl e => (inl (Fault e), h, u)
      | inr t =>
          if le_combine t =? code_of "@" then usb_events h max_clen ring vec packets u
          else
            match event_header max_clen off ring with
            | inl e => (inl (Fault e), h, u)
            | inr ph =>
                match usb_deliver h ph off ring u with
                | (inl r, h, u) => (inl r, h, u)
                | (inr passed, h, u) => usb_events h max_clen ring vec (if passed then packets + 1 else packets) u
                end
            end
      end
  end.

Definition fetch_limit (max_packets packets : Z) : Z :=
  let limit := max_packets - packets in
  let limit := if limit <=? 0 then VEC_SIZE else limit in
  if VEC_SIZE <? limit then VEC_SIZE else limit.

(** An answer to [MON_IOCX_MFETCH] has the places of events, at most as many as
    asked for, and the ring as it is then.  Each round uses up an answer; the
    numbers are what is flushed, in each round and at the end. *)
Fixpoint usb_mmap_loop (rounds : nat) (fd : Z) (h : linux) (max_packets packets nflush : Z) (answers : list (answer (list Z * list byte))) (u : user_t)
    : packet_result * list Z * linux * user_t :=
  match rounds with
  | O => (Blocked, [], h, u)
  | S rounds =>
      let limit := fetch_limit max_packets packets in
      match usb_receive (fun e => Message "Can't mfetch fd %d: %s" [fd; e]) answers h with
      | (inl r, h, _) => (r, [nflush], h, u)
      | (inr (offs, ring), h, answers) =>
          let vec := take (Z.to_nat limit) offs in
          match usb_events h (i32 (snapshot (l_p h) - sizeof_usb_header)) ring vec packets u with
          | (inl r, h, u) => (r, [nflush], h, u)
          | (inr packets, h, u) =>
              if (max_packets <=? 0) || (packets =? max_packets) then (Return packets, [nflush; lenZ vec], h, u)
              else
                let '(r, flushed, h, u) := usb_mmap_loop rounds fd h max_packets packets (lenZ vec) answers u in
                (r, nflush :: flushed, h, u)
          end
      end
  end.
Definition usb_read_linux_mmap (fd : Z) (h : linux) (max_packets : Z) (answers : list (answer (list Z * list byte))) (u : user_t)
    : packet_result * list Z * linux * user_t :=
  usb_mmap_loop (S (length answers)) fd h max_packets 0 0 answers u.
End Read.

(** ** Statistics, sending, the direction *)

(** [MON_IOCG_STATS] gives the numbers of queued and dropped events. *)
Definition usb_stats_linux_bin (fd : Z) (kstats : Z + Z * Z) (h : linux) : message + pcap_stat :=
  match kstats with
  | inl e => inl (Message "Can't read stats from fd %d:%s " [fd; e])
  | inr (queued, dropped) => inr (Stat (u32 (packets_read (md h) + queued)) dropped 0)
  end.

(** The loop over the words of the file of statistics; [ret] is the length at
    first, and then what the second [sscanf] returns.  The number of dropped
    events is that after [nreaders]. *)
Fixpoint scan_stats (fuel : nat) (text : string) (consumed ret ps_drop : Z) : read_fault + Z :=
  match fuel with
  | O => inl (F_filter U_loop)
  | S fuel =>
      if consumed <? ret then
        if (String.length text <? Z.to_nat consumed)%nat then inl F_bytes
        else
          let ptr := skip (Z.to_nat consumed) text in
          match sscanf [Conv_s; Conv_n] ptr with
          | (ntok, [Str token; Count cnt]) =>
              let '(ret, l) := sscanf [Conv_d] (skip (Z.to_nat cnt) ptr) in
              let ps_drop := match l with [Int n] => if String.eqb token "nreaders" then u32 n else ps_drop | _ => ps_drop end in
              if ntok =? 1 then scan_stats fuel text (consumed + cnt + cnt) ret ps_drop else inr ps_drop
          | _ => inr ps_drop
          end
      else inr ps_drop
  end.

(** The file is opened at its new place, or at its old one if it is not there;
    [reads] are the answers to [read], with a line or [errno].  [stats] is what
    the caller's structure holds. *)
Fixpoint read_again (reads : list (Z + string)) : option (Z + string) :=
  match reads with
  | inl e :: reads => if e =? EINTR then read_again reads else Some (inl e)
  | inr s :: _ => Some (inr s)
  | [] => None
  end.
Definition usb_stats_linux (opens : Z + Z) (opens_old : Z + Z) (reads : list (Z + string)) (stats : pcap_stat) (h : linux)
    : read_fault + option (message + pcap_stat) :=
  let no_more e := inr (Some (inl (Message "Can't open USB stats file %s: %s" [e]))) in
  let go fd :=
    match read_again reads with
    | None => inr None
    | Some (inl e) => inr (Some (inl (Message "Can't read stats from fd %d " [fd])))
    | Some (inr s) =>
        let text := String.substring 0 (USB_LINE_LEN - 1) s in
        match scan_stats USB_LINE_LEN (c_str text) 0 (Z.of_nat (String.length text)) (ps_drop stats) with
        | inl e => inl e
        | inr drop => inr (Some (inr (Stat (packets_read (md h)) drop 0)))
        end
    end in
  match opens with
  | inr fd => go fd
  | inl e => if e =? ENOENT then match opens_old with inr fd => go fd | inl e => no_more e end else no_more e
  end.

Definition usb_inject_linux (h : linux) (buf : list byte) : message + Z := inl (Message "inject not supported on USB devices" []).
Definition usb_setdirection_linux (h : linux) (d : Z) : Z * linux := (0, with_direction h d).
