(* ===== verification/LinuxBusSpec.v ===== *)
(** Captures on CAN and USB buses: opening and closing them, what is given back
    and the descriptor that is closed twice; and reading the text of [usbmon],
    where an event that is written as the kernel documents it gets to the
    application as the header and the data that the words of the line mean. *)
From stdpp Require Import gmap strings.
From stdpp Require Import list.
From S2P Require Import Prelude CString CFile Bpf BpfFilter BpfValidate Datalink PcapInt Savefile Pcap LinuxInt LinuxRing GenConst LinuxSys.
From S2P Require Import LinuxIface LinuxActivate LinuxOs LinuxIfaceSpec LinuxActivateSpec LinuxOpenSpec LinuxCapture LinuxRead LinuxReadSpec Scanf LinuxBus.

#[local] Open Scope Z_scope.
#[local] Open Scope c_scope.

Section Buses.
Context (bad : misuse -> Prop) (s0 : os) (h0 : live).
Notation held := (held s0 h0).

(** A file is opened like a socket, a directory is memory while it is open. *)
Lemma wp_open_file {R} path (Q : R + (Z + Z) -> live -> os -> Prop) F L M h s : held F L M h s ->
  (forall e, 0 < e -> Q (inr (inl e)) h s) -> (forall f s', 0 <= f -> f ∉ dom (socks s) -> held (f :: F) L M h s' -> Q (inr (inr f)) h s') ->
  wp bad (sys_call (OpenFile path)) Q h s.
Proof using.
  intros [[Hs Hh Hm] Ht Ho Hl] H0 H1. apply wp_call; [done|]. intros [e|f] s'; cbn; [intros [He ->]; by apply H0|].
  intros (Hf & Hn & ->). assert (f ∉ dom (socks s)) by by apply not_elem_of_dom. apply H1; [done|done|]. split; [|done..].
  split; [|done|done]. cbn. rewrite dom_insert_L. by apply owned_add.
Qed.
Lemma wp_open_dir {R} path (Q : R + (Z + dirstream) -> live -> os -> Prop) F L M h s : held F L M h s ->
  (forall e, 0 < e -> Q (inr (inl e)) h s) -> (forall d s', held F (dir_ptr d :: L) M h s' -> Q (inr (inr d)) h s') ->
  wp bad (sys_call (Opendir path)) Q h s.
Proof using.
  intros [[Hs Hh Hm] Ht Ho Hl] H0 H1. apply wp_call; [done|]. intros [e|d] s'; cbn; [intros [He ->]; by apply H0|].
  intros (Hp & Hn & ->). apply H1. split; [|done..]. split; [done| |done]. cbn. eapply owned_perm; [|by apply owned_add].
  symmetry. rewrite !(assoc_L app). symmetry. apply Permutation_middle.
Qed.
Lemma wp_close_dir {R} p (Q : R + unit -> live -> os -> Prop) F L M h s : held F (p :: L) M h s ->
  (forall s', held F L M h s' -> Q (inr tt) h s') -> wp bad (sys_call (Closedir p)) Q h s.
Proof using.
  intros [[Hs Hh Hm] Ht Ho Hl] HQ.
  assert (Hh' : owned (heap s0) (heap s) (p :: non_null (buffer h) ++ opt_ptr (dlts h) ++ opt_ptr (m_device h) ++ L)).
  { eapply owned_perm; [|exact Hh]. rewrite !(assoc_L app). symmetry. apply Permutation_middle. }
  apply wp_call; [eapply owned_in; [exact Hh'|left]|]. intros [] s' ->. apply HQ. split; [|done..]. split; [done|by apply owned_del|done].
Qed.

(** The end of [can_activate] and of [usb_activate]: nothing is held - but the
    descriptor may still be in the handle after it has been closed -, or the
    capture is open. *)
Definition bus_result (v : Z) (h : live) (s : os) : Prop :=
  m_device h = None /\
  (v < 0 /\ (emptied h /\ holds s0 s [] [] [] \/ 0 <= fd h /\ fd h ∉ dom (socks s0) /\ held [] [] [] h s) \/
   v = 0 /\ 0 <= fd h /\
     (cleanup_m (meths h) = Pcap_cleanup_live_common /\ held [fd h] [] [] h s \/
      cleanup_m (meths h) = Usb_cleanup_linux_mmap /\ 0 < mmapbuf (md (lx h)) /\ held [fd h] [] [mmapbuf (md (lx h))] h s)).

(** ** CAN *)

(** A handle without memory of its own. *)
Record bare (h : live) : Prop := Bare {
  ba_buffer : buffer h = 0;
  ba_dlts : dlts h = None;
  ba_tstamp : tstamp_ptr h = 0;
  ba_device : m_device h = None;
  ba_mondevice : mondevice h = None;
  ba_opt : lopt h = lopt h0 }.

Lemma bare_held F M h s : bare h -> holds s0 s F [] M -> held F [] M h s.
Proof using. intros [Eb Ed Et Em Eo El] Hh. split; try done; [|by rewrite El]. by rewrite Eb, Ed, Em. Qed.
Lemma held_bare F M h s : bare h -> held F [] M h s -> holds s0 s F [] M.
Proof using. intros [Eb Ed Et Em Eo El] [Hh _ _ _]. by rewrite Eb, Ed, Em in Hh. Qed.
Lemma fresh_bare : fresh h0 -> bare h0.
Proof using. by intros []. Qed.
Lemma bare_empty v h s : v < 0 -> bare h -> fd h < 0 -> held [] [] [] h s -> bus_result v h s.
Proof using.
  intros Hv Hb Hfd Hh. apply held_bare in Hh; [|done]. destruct Hb. split; [done|]. left. split; [done|]. left. by split; [split|].
Qed.

Lemma non_neg_one f : 0 <= f -> non_neg f = [f].
Proof using. intros Hf. unfold non_neg. by destruct (Z.leb_spec 0 f); [|lia]. Qed.

Lemma failed_clean {A} (Q : Z + A -> live -> os -> Prop) h s : m_device h = None -> held (non_neg (fd h)) [] [] h s ->
  (forall h' s', bus_result PCAP_ERROR h' s' -> Q (inl PCAP_ERROR) h' s') ->
  wp bad (bbind (run pcap_cleanup_live_common) (fun _ => leave PCAP_ERROR)) Q h s.
Proof using.
  intros Hd Hh HQ. wp_step. apply wp_run. eapply wp_mono_post; [apply (cleanup_live_common_wp bad s0 h0 [] [] [] h s); by rewrite app_nil_r|].
  intros r h1 s1 (H1 & He & Ed). wp_step. apply HQ. rewrite Hd in *. split; [done|]. left. split; [done|]. by left.
Qed.

Lemma can_activate_wp : fresh h0 ->
  wp bad can_activate (fun r h' s' => match r with inl v | inr v => bus_result v h' s' end) h0 s0.
Proof using.
  intros Hf. pose proof (fresh_bare Hf) as Hb0. unfold can_activate. do 5 wp_step.
  set (h1 := with_meths _ _). assert (Hb : bare h1) by (destruct Hb0; by split). assert (Hm : cleanup_m (meths h1) = Pcap_cleanup_live_common) by done.
  assert (H1 : held [] [] [] h1 s0) by (apply bare_held; [done|apply holds_start]). clearbody h1.
  eapply wp_opened; [exact H1| |].
  { intros e He. repeat wp_step. apply bare_empty; [done|by destruct Hb; split|done|]. eapply held_same; [..|exact H1]; done. }
  intros f s1 Hf0 H2 _. do 4 wp_step. apply (held_same _ _ _ _ _ _ _ (with_fd h1 f) s1) in H2; [|done|done].
  set (h2 := with_fd h1 f) in *. assert (Hb2 : bare h2) by (destruct Hb; by split).
  assert (Hm2 : cleanup_m (meths h2) = Pcap_cleanup_live_common /\ fd h2 = f) by done. clearbody h2. destruct Hm2 as [Hm2 Ef].
  assert (Hfail : forall h s, m_device h = None -> fd h = f -> held [f] [] [] h s ->
    wp bad (bbind (run pcap_cleanup_live_common) (fun _ => leave PCAP_ERROR)) (fun r h' s' => match r with inl v | inr v => bus_result v h' s' end) h s).
  { intros h s Hd Ef' Hh. apply failed_clean; [done| |done]. by rewrite Ef', non_neg_one. }
  wp_step. eapply wp_ask_call; [done|exact H2|]. intros [e|i] s2 _ H3 _.
  { do 2 wp_step. apply Hfail; [by destruct Hb2|done|]. by apply held_err. }
  do 3 wp_step. apply (held_lx _ _ _ _ _ _ _ (with_ifindex (lx h2) i)) in H3. set (h3 := with_lx h2 _) in *.
  assert (Hb3 : bare h3) by (destruct Hb2; by split). assert (Hm3 : cleanup_m (meths h3) = Pcap_cleanup_live_common /\ fd h3 = f) by done.
  clearbody h3. destruct Hm3 as [Hm3 Ef3]. apply held_bare in H3; [|done]. eapply wp_malloc; [exact H3| |].
  { do 2 wp_step. cbn [Z.eqb]. do 2 wp_step. apply Hfail; [by destruct Hb3|done|]. apply bare_held; [destruct Hb3; by split|done]. }
  intros p s3 Hp H4 _. do 2 wp_step. destruct (Z.eqb_spec p 0) as [?|_]; [lia|]. set (h4 := with_buffer h3 p).
  assert (H5 : held [f] [] [] h4 s3).
  { destruct Hb3 as [Eb Ed Et Em Eo El]. split; try done; [|cbn; by rewrite El]. cbn. rewrite Ed, Em. unfold non_null.
    destruct (Z.eqb_spec p 0); [lia|]. exact H4. }
  assert (Hm4 : cleanup_m (meths h4) = Pcap_cleanup_live_common /\ fd h4 = f /\ m_device h4 = None) by (by destruct Hb3). clearbody h4. destruct Hm4 as (Hm4 & Ef4 & Hd4).
  wp_step. eapply wp_ask_call; [done|exact H5|]. intros [e|] s4 _ H6 _.
  { do 2 wp_step. apply Hfail; [done|done|]. by apply held_err. }
  wp_step; [by apply Hfail|]. do 3 wp_step. split; [done|]. right. split; [done|]. cbn [fd with_selectable]. rewrite Ef4. split; [done|]. left.
  split; [done|]. by eapply held_same; [..|exact H6].
Qed.

(** ** USB *)

Notation bus_post := (fun r h' s' => match r with inl v | inr v => bus_result v h' s' end).

(** A file of the bus has been opened. *)
Record file_open (f : Z) (h : live) : Prop := FileOpen {
  fo_bare : bare h;
  fo_fd : fd h = f;
  fo_pos : 0 <= f;
  fo_new : f ∉ dom (socks s0);
  fo_cleanup : cleanup_m (meths h) = Pcap_cleanup_live_common }.

Lemma new_descriptor F L M h s f : held F L M h s -> f ∉ dom (socks s) -> f ∉ dom (socks s0).
Proof using. intros [[(_ & _ & E) _ _] _ _ _] Hn Hin. apply Hn. rewrite E. set_solver. Qed.

(** [close(handle->fd); return v;] with the descriptor left in the handle. *)
Lemma closed_twice_wp {A} f v (Q : Z + A -> live -> os -> Prop) h s : v < 0 -> file_open f h -> held [f] [] [] h s ->
  (forall s', bus_result v h s' -> Q (inl v) h s') -> wp bad (bbind (sys_call (Close f)) (fun _ => leave v)) Q h s.
Proof using.
  intros Hv [Hb Hfd Hp Hn _] Hh HQ. wp_step. eapply wp_closed; [exact Hh|]. intros r s' H'. wp_step. apply HQ. split; [apply Hb|]. left. split; [done|].
  right. rewrite Hfd. by split_and!.
Qed.

Lemma refuse_rfmon_wp f (Q : Z + unit -> live -> os -> Prop) h s : file_open f h -> held [f] [] [] h s -> Q (inr tt) h s ->
  (forall v s', bus_result v h s' -> Q (inl v) h s') -> wp bad refuse_rfmon Q h s.
Proof using.
  intros Ho Hh H1 H2. unfold refuse_rfmon. do 2 wp_step. destruct (_ =? 0); [by wp_step|]. rewrite (fo_fd _ _ Ho).
  eapply closed_twice_wp; [|exact Ho|exact Hh|]; [done|]. apply H2.
Qed.

Lemma read_buffer_wp f h s : file_open f h -> held [f] [] [] h s -> wp bad usb_read_buffer bus_post h s.
Proof using.
  intros Ho Hh. unfold usb_read_buffer. do 5 wp_step. set (h1 := with_selectable h (fd h)).
  assert (Ho1 : file_open f h1) by (destruct Ho as [[]]; by split). assert (H1 : held [f] [] [] h1 s) by (by eapply held_same; [..|exact Hh]).
  assert (Ef : fd h = f) by apply Ho. pose proof (held_bare _ _ _ _ (fo_bare _ _ Ho1) H1) as H2. clearbody h1.
  eapply wp_malloc; [exact H2| |].
  - do 2 wp_step. cbn [Z.eqb]. do 2 wp_step. rewrite Ef.
    set (h2 := with_errbuf _ _). assert (Ho2 : file_open f h2) by (destruct Ho1 as [[]]; by split).
    eapply closed_twice_wp; [|exact Ho2| |done]; [done|]. by apply bare_held; [apply Ho2|].
  - intros p s2 Hp H3 _. do 2 wp_step. destruct (Z.eqb_spec p 0) as [?|_]; [lia|]. wp_step.
    destruct Ho1 as [[Eb Ed Et Em Eo El] Efd Hpos Hnew Hc]. split; [exact Em|]. right. split; [done|]. cbn [fd with_buffer]. rewrite Efd. split; [done|].
    left. split; [exact Hc|]. split; try done; [|cbn; by rewrite El]. cbn. rewrite Ed, Em. unfold non_null. by destruct (Z.eqb_spec p 0); [lia|].
Qed.

Lemma usb_mmap_wp f h s : file_open f h -> held [f] [] [] h s ->
  wp bad usb_mmap (fun r h' s' => match r with inl v | inr v => exists x, h' = with_lx h x /\
    (v = 0 /\ held [f] [] [] h' s' \/ v = 1 /\ 0 < mmapbuf (md x) /\ held [f] [] [mmapbuf (md x)] h' s') end) h s.
Proof using.
  intros Ho Hh. unfold usb_mmap. do 3 wp_step. eapply wp_ask_call; [done|exact Hh|]. intros [e|len] s1 Ha H1 _.
  { wp_step. exists (lx h). split; [by destruct h|]. by left. }
  wp_step. pose proof (held_bare _ _ _ _ (fo_bare _ _ Ho) H1) as H2. eapply wp_mmap; [exact H2| |].
  - intros e He. do 3 wp_step. exists (with_mmap (lx h) MAP_FAILED len). split; [done|]. left. split; [done|]. by apply held_lx.
  - intros p s2 Hp Hlen H3 _. do 3 wp_step. exists (with_mmap (lx h) p len). split; [done|]. right. split; [done|]. split; [done|].
    apply held_lx. by apply bare_held; [apply Ho|].
Qed.

(** Asking the devices leaves the handle and what it holds alone. *)
Lemma probe_entries_wp bus entries F L M h s : held F L M h s ->
  wp bad (probe_entries bus entries) (fun r h' s' => r = inr tt /\ h' = h /\ held F L M h s') h s.
Proof using.
  revert s. induction entries as [|[name t] entries IH]; intros s Hh; cbn [probe_entries]; [by wp_step|].
  assert (Hprobe : wp bad (bbind (sys_call (OpenFile (snprintf 40 ("/dev/bus/usb/" +:+ pad_zero 3 bus +:+ "/" +:+ name)))) (fun r =>
    match r with
    | inl _ => probe_entries bus entries
    | inr fd => bbind (sys_call (Ioctl fd (USBDEVFS_CONTROL (snprintf 40 ("/dev/bus/usb/" +:+ pad_zero 3 bus +:+ "/" +:+ name))))) (fun r =>
        bbind (sys_call (Close fd)) (fun _ => match r with inl _ => bret tt | inr tt => probe_entries bus entries end))
    end)) (fun r h' s' => r = inr tt /\ h' = h /\ held F L M h s') h s).
  { wp_step. eapply wp_open_file; [exact Hh|intros e _; by apply IH|]. intros f s1 _ _ H1. wp_step.
    eapply wp_ask_call; [done|exact H1|]. intros r s2 _ H2 _. wp_step. eapply wp_closed; [exact H2|]. intros r2 s3 H3.
    destruct r as [e|[]]; [by wp_step|by apply IH]. }
  destruct name as [|[[] [] [] [] [] [] [] []] rest]; first [exact Hprobe|by apply IH].
Qed.

Lemma probe_devices_wp bus F L M h s : held F L M h s ->
  wp bad (probe_devices bus) (fun r h' s' => h' = h /\ held F L M h s') h s.
Proof using.
  intros Hh. unfold probe_devices. wp_step. eapply wp_open_dir; [exact Hh|intros e _; by wp_step|]. intros d s1 H1. wp_step.
  eapply wp_mono_post; [by apply probe_entries_wp|]. intros r h2 s2 (-> & -> & H2). eapply wp_close_dir; [exact H2|]. intros s3 H3. done.
Qed.

Lemma file_open_same f h h' : lx h' = lx h \/ True -> buffer h' = buffer h -> dlts h' = dlts h -> tstamp_ptr h' = tstamp_ptr h -> m_device h' = m_device h ->
  mondevice h' = mondevice h -> lopt h' = lopt h -> fd h' = fd h -> cleanup_m (meths h') = cleanup_m (meths h) -> file_open f h -> file_open f h'.
Proof using. intros _ E1 E2 E3 E4 E5 E6 E7 E8 [[] ????]. split; [split|..]; congruence. Qed.

(** The handle while its file is being looked for. *)
Definition looking (h : live) : Prop := bare h /\ cleanup_m (meths h) = Pcap_cleanup_live_common.
Lemma looking_open f h : looking h -> 0 <= f -> f ∉ dom (socks s0) -> file_open f (with_fd h f).
Proof using. intros [[] Hc] Hf Hn. by split; [split|..]. Qed.

Lemma open_text_wp (Q : Z + unit -> live -> os -> Prop) h s : looking h -> held [] [] [] h s ->
  (forall f h' s', file_open f h' -> held [f] [] [] h' s' -> Q (inr tt) h' s') ->
  (forall h' s', bus_result PCAP_ERROR h' s' -> Q (inl PCAP_ERROR) h' s') -> wp bad open_text Q h s.
Proof using.
  intros Hlk Hh H1 H2. unfold open_text. do 2 wp_step. cbv zeta.
  assert (Hgive : forall e s', held [] [] [] h s' -> wp bad (bbind (put (fun h => with_fd h (-1))) (fun _ =>
    bbind (err "Can't open USB bus file %s: %s" [e]) (fun _ => leave PCAP_ERROR))) Q h s').
  { intros e s' Hs. do 5 wp_step. apply H2. destruct Hlk as [Hb Hc]. apply bare_empty; [done|by destruct Hb; split|done|]. by eapply held_same; [..|exact Hs]. }
  assert (Hgot : forall f s', 0 <= f -> f ∉ dom (socks s0) -> held [f] [] [] h s' -> wp bad (put (fun h => with_fd h f)) Q h s').
  { intros f s' Hf Hn Hs. wp_step. apply (H1 f); [by apply looking_open|]. by eapply held_same; [..|exact Hs]. }
  wp_step. eapply wp_open_file; [exact Hh| |].
  - intros e _. wp_step; [|by apply Hgive]. wp_step. eapply wp_open_file; [exact Hh|intros e2 _; by apply Hgive|].
    intros f s1 Hf Hn H3. apply Hgot; [done| |done]. exact (new_descriptor _ _ _ _ _ _ Hh Hn).
  - intros f s1 Hf Hn H3. apply Hgot; [done| |done]. exact (new_descriptor _ _ _ _ _ _ Hh Hn).
Qed.

Lemma usb_open_wp h s : looking h -> held [] [] [] h s -> wp bad usb_open bus_post h s.
Proof using.
  intros Hlk Hh. unfold usb_open. do 3 wp_step. eapply wp_open_file; [exact Hh| |].
  - intros e _. do 2 wp_step. wp_step. eapply (open_text_wp _ (with_fd h (-1))).
    + by destruct Hlk as [[] Hc]; split; [split|].
    + by eapply held_same; [..|exact Hh].
    + intros f h1 s1 Ho H1. wp_step. eapply refuse_rfmon_wp; [exact Ho|exact H1| |done]. do 2 wp_step.
      eapply read_buffer_wp; [by eapply file_open_same; [right|..|exact Ho]|]. by eapply held_same; [..|exact H1].
    + done.
  - intros f s1 Hf Hn H1. pose proof (new_descriptor _ _ _ _ _ _ Hh Hn) as Hnew. do 2 wp_step. set (h1 := with_fd h f).
    assert (Ho1 : file_open f h1) by by apply looking_open. assert (H1' : held [f] [] [] h1 s1) by (by eapply held_same; [..|exact H1]). clearbody h1.
    wp_step. eapply refuse_rfmon_wp; [exact Ho1|exact H1'| |done]. wp_step. apply wp_run.
    eapply wp_mono_post; [by eapply usb_mmap_wp|]. intros r h2 s2 Hr.
    assert (Hr2 : exists x, h2 = with_lx h1 x /\ ((match r with inl r => r | inr r => r end) = 0 /\ held [f] [] [] h2 s2 \/
      (match r with inl r => r | inr r => r end) = 1 /\ 0 < mmapbuf (md x) /\ held [f] [] [mmapbuf (md x)] h2 s2)) by by destruct r.
    clear Hr. destruct Hr2 as (x & -> & [[-> H2]|(-> & Hmap & H2)]); cbn [negb Z.eqb].
    + do 2 wp_step. set (h3 := with_meths _ _). assert (Ho3 : file_open f h3) by (by eapply file_open_same; [right|..|exact Ho1]).
      assert (H3 : held [f] [] [] h3 s2) by (by eapply held_same; [..|exact H2]). wp_step. apply wp_run.
      eapply wp_mono_post; [by apply probe_devices_wp|]. intros r3 h4 s4 [-> H4]. by eapply read_buffer_wp.
    + do 4 wp_step. set (h3 := with_meths _ _). assert (Hm3 : mmapbuf (md (lx h3)) = mmapbuf (md x) /\ fd h3 = f /\ m_device h3 = None /\ cleanup_m (meths h3) = Usb_cleanup_linux_mmap)
        by (destruct Ho1 as [[]]; done).
      assert (H3 : held [f] [] [mmapbuf (md x)] h3 s2) by (by eapply held_same; [..|exact H2]). clearbody h3. destruct Hm3 as (Em3 & Ef3 & Ed3 & Ec3).
      wp_step. apply wp_run. eapply wp_mono_post; [by apply probe_devices_wp|]. intros r3 h4 s4 [-> H4]. do 3 wp_step.
      split; [exact Ed3|]. right. split; [done|]. cbn [fd lx meths with_selectable]. rewrite Ef3, Em3. split; [done|]. right. split; [exact Ec3|].
      split; [done|]. by eapply held_same; [..|exact H4].
Qed.

Lemma usb_activate_wp : fresh h0 -> cleanup_m (meths h0) = Pcap_cleanup_live_common -> wp bad usb_activate bus_post h0 s0.
Proof using.
  intros Hf Hc0. pose proof (fresh_bare Hf) as Hb0. unfold usb_activate. do 6 wp_step. set (h1 := with_meths _ _).
  assert (Hlk : looking h1) by (split; [destruct Hb0; by split|exact Hc0]). assert (Hfd : fd h1 = -1) by (by destruct Hf). clearbody h1.
  assert (H1 : held [] [] [] h1 s0) by (apply bare_held; [apply Hlk|apply holds_start]).
  assert (Hno : wp bad (bbind (err "Can't get USB bus index from %s" []) (fun _ => leave PCAP_ERROR)) bus_post h1 s0).
  { repeat wp_step. destruct Hlk as [Hb _]. apply bare_empty; [done|by destruct Hb; split|cbn; lia|]. by apply held_err. }
  assert (Hyes : forall bus, wp bad (bbind (on_lx (fun x => with_ifindex x bus)) (fun _ => usb_open)) bus_post h1 s0).
  { intros bus. do 2 wp_step. apply usb_open_wp; [destruct Hlk as [[] Hc]; by split; [split|]|by apply held_lx]. }
  destruct (sscanf _ _) as [k l]. repeat case_match; first [exact Hno|apply Hyes].
Qed.
End Buses.

(** ** Reading text *)

Section Text.
Open Scope string_scope.
Open Scope Z_scope.
Open Scope c_scope.

(** *** Scanning *)

Fixpoint all_of (p : ascii -> bool) (s : string) : bool :=
  match s with EmptyString => true | String c s => p c && all_of p s end.
Definition begins (p : ascii -> bool) (s : string) : bool := match s with String c _ => p c | EmptyString => false end.

(** A word: characters that are no white space. *)
Definition graphic (c : ascii) : bool := negb (c_isspace c) && negb (code_of c =? 0).
Definition word (s : string) : bool := negb (String.eqb s "") && all_of graphic s.
Definition digits (base : Z) (s : string) : bool := negb (String.eqb s "") && all_of (is_digit_of base) s.

Lemma span_app p a s : all_of p a = true -> begins p s = false -> span p (a +:+ s) = (a, s).
Proof.
  induction a as [|c a IH]; intros Ha Hs.
  - destruct s as [|d s]; [done|]. cbn in Hs. change ("" +:+ String d s) with (String d s). cbn [span]. by rewrite Hs.
  - cbn in Ha. apply andb_prop in Ha as [Hc Ha]. change (String c a +:+ s) with (String c (a +:+ s)). cbn [span]. by rewrite Hc, IH.
Qed.
Lemma all_of_impl p q s : (forall c, p c = true -> q c = true) -> all_of p s = true -> all_of q s = true.
Proof. intros H. induction s as [|c s IH]; [done|]. cbn. intros [Hc Hs]%andb_prop. by rewrite H, IH. Qed.
Lemma drop_white_id s : begins c_isspace s = false -> drop_white s = s.
Proof. destruct s as [|c s]; [done|]. cbn. unfold drop_white. cbn. by intros ->. Qed.
Lemma begins_app p a s : a <> "" -> begins p (a +:+ s) = begins p a.
Proof. by destruct a. Qed.
Lemma skip_app k a s : skip (String.length a + k) (a +:+ s) = skip k s.
Proof. by induction a. Qed.

Lemma graphic_of base c : base <= 16 -> is_digit_of base c = true -> graphic c = true.
Proof.
  intros Hb. unfold is_digit_of. intros H%Z.ltb_lt. unfold graphic, c_isspace, digit_of, c_isdigit in *. pose proof (Nat2Z.is_nonneg (nat_of_ascii c)) as Hn.
  unfold code_of in *. repeat match goal with |- context [?a =? ?b] => destruct (Z.eqb_spec a b) end; repeat match goal with H : context [?a <=? ?b] |- _ => destruct (Z.leb_spec a b) | |- context [?a <=? ?b] => destruct (Z.leb_spec a b) end; cbn in *; try done; lia.
Qed.
Lemma digits_word base s : base <= 16 -> digits base s = true -> word s = true.
Proof. unfold digits, word. intros Hb [Hs H]%andb_prop. rewrite Hs. eapply all_of_impl; [|exact H]. intros c. by apply graphic_of. Qed.
Lemma word_nonempty s : word s = true -> s <> "".
Proof. by intros [H _]%andb_prop ->. Qed.
Lemma word_begins s t : word s = true -> begins c_isspace (s +:+ t) = false.
Proof.
  intros H. pose proof (word_nonempty s H) as Hn. apply andb_prop in H as [_ H]. rewrite begins_app by done.
  destruct s as [|c s]; [done|]. cbn in *. apply andb_prop in H as [H _]. apply andb_prop in H as [H _]. by apply negb_true_iff.
Qed.

(** A number that is not followed by a letter or a digit. *)
Definition alnum (c : ascii) : bool := digit_of c <? 36.
Lemma digit_alnum base c : base <= 16 -> alnum c = false -> is_digit_of base c = false.
Proof. unfold alnum, is_digit_of. rewrite !Z.ltb_ge. lia. Qed.
Lemma not_alnum base s : base <= 16 -> begins alnum s = false -> begins (is_digit_of base) s = false.
Proof. destruct s; [done|]. apply digit_alnum. Qed.

Lemma no_prefix base a s : base <= 16 -> digits base a = true -> begins alnum s = false -> take_prefix base (a +:+ s) = a +:+ s.
Proof.
  intros Hb [Hn H]%andb_prop Hs. destruct a as [|c a]; [done|]. change (String c a +:+ s) with (String c (a +:+ s)). unfold take_prefix.
  destruct (a +:+ s) as [|x [|d r]] eqn:E; try done.
  assert (Hx : is_digit_of 16 x = true \/ alnum x = false).
  { destruct a as [|x' a]; [right; change ("" +:+ s) with s in E; by rewrite E in Hs|left]. injection E as <- _. cbn in H. apply andb_prop in H as [_ [H _]%andb_prop].
    unfold is_digit_of in *. rewrite Z.ltb_lt in *. lia. }
  assert (Hd : forall c, (is_digit_of 16 c || negb (alnum c)) = true -> Ascii.eqb c "x" || Ascii.eqb c "X" = false).
  { intros y Hy. destruct (Ascii.eqb_spec y "x") as [->|_]; [done|]. by destruct (Ascii.eqb_spec y "X") as [->|_]. }
  rewrite Hd by (destruct Hx as [->| ->]; by rewrite ?orb_true_r). by rewrite andb_false_r.
Qed.
Lemma no_sign base a s : base <= 16 -> digits base a = true -> take_sign (a +:+ s) = (false, a +:+ s).
Proof.
  intros Hb [Hn H]%andb_prop. destruct a as [|c a]; [done|]. cbn in H. apply andb_prop in H as [Hc _]. unfold is_digit_of in Hc. apply Z.ltb_lt in Hc.
  change (String c a +:+ s) with (String c (a +:+ s)). cbn [take_sign]. destruct (Ascii.eqb_spec c "-") as [->|_]; [change (digit_of "-") with 36 in Hc; lia|].
  destruct (Ascii.eqb_spec c "+") as [->|_]; [change (digit_of "+") with 36 in Hc; lia|]. done.
Qed.
Lemma scan_number_app base a s : base <= 16 -> digits base a = true -> begins alnum s = false ->
  scan_number base (a +:+ s) = Some (number base a, s).
Proof.
  intros Hb Ha Hs. unfold scan_number. rewrite (no_sign base), no_prefix by done. pose proof Ha as [Hn H]%andb_prop.
  rewrite span_app by eauto using not_alnum. by destruct a.
Qed.

(** Each kind of directive on text that suits it, after the white space that
    [White] has left or that the conversion skips. *)
Definition blank (b : bool) (s : string) : string := if b then String " " s else s.
Lemma drop_blank b s : begins c_isspace s = false -> drop_white (blank b s) = s.
Proof. intros H. destruct b; [|by apply drop_white_id]. transitivity (drop_white s); [|by apply drop_white_id].
  unfold drop_white, blank. cbn [span]. change (c_isspace " ") with true. cbn iota. by destruct (span c_isspace s). Qed.
Lemma length_blank b s : String.length (blank b s) = ((if b then 1 else 0) + String.length s)%nat.
Proof. by destruct b. Qed.
Lemma read_length b a s : ((String.length (blank b (a +:+ s)) - String.length s) = (if b then 1 else 0) + String.length a)%nat.
Proof. rewrite length_blank, length_append. lia. Qed.

Lemma scan_White fmt n s : begins c_isspace s = false -> scan (White :: fmt) n (String " " s) = scan fmt (n + 1) s.
Proof. intros H. cbn [scan]. change (String " " s) with (blank true s). rewrite drop_blank, length_blank by done. f_equal. lia. Qed.
Lemma scan_Conv_d fmt n b a s : digits 10 a = true -> begins alnum s = false ->
  scan (Conv_d :: fmt) n (blank b (a +:+ s)) =
  let '(l, e) := scan fmt (n + ((if b then 1 else 0) + String.length a)) s in (Int (i32 (clamp_long (number 10 a))) :: l, e).
Proof.
  intros Ha Hs. cbn [scan]. rewrite drop_blank by (apply word_begins; by apply (digits_word 10)). rewrite scan_number_app by done. by rewrite read_length.
Qed.
Lemma scan_Conv_x fmt n b a s : digits 16 a = true -> begins alnum s = false -> number 16 a < 2 ^ 64 -> 0 <= number 16 a ->
  scan (Conv_x :: fmt) n (blank b (a +:+ s)) =
  let '(l, e) := scan fmt (n + ((if b then 1 else 0) + String.length a)) s in (Int (i32 (number 16 a)) :: l, e).
Proof.
  intros Ha Hs Hlt Hge. cbn [scan]. unfold strtoul. rewrite drop_blank by (apply word_begins; by apply (digits_word 16)).
  rewrite scan_number_app by done. rewrite read_length, (proj2 (Z.ltb_ge _ _)), uwrap_id by clia. done.
Qed.
Lemma scan_Conv_s fmt n b a s : word a = true -> begins (fun c => negb (c_isspace c)) s = false ->
  scan (Conv_s :: fmt) n (blank b (a +:+ s)) =
  let '(l, e) := scan fmt (n + ((if b then 1 else 0) + String.length a)) s in (Str a :: l, e).
Proof.
  intros Ha Hs. cbn [scan]. rewrite drop_blank by (by apply word_begins). pose proof Ha as [Hn H]%andb_prop.
  rewrite span_app; [|eapply all_of_impl; [|exact H]; by intros c [? _]%andb_prop|done].
  rewrite read_length. by destruct a.
Qed.

(** The same without white space before. *)
Lemma scan_d fmt n a s : digits 10 a = true -> begins alnum s = false ->
  scan (Conv_d :: fmt) n (a +:+ s) = let '(l, e) := scan fmt (n + String.length a) s in (Int (i32 (clamp_long (number 10 a))) :: l, e).
Proof. exact (scan_Conv_d fmt n false a s). Qed.
Lemma scan_x fmt n a s : digits 16 a = true -> begins alnum s = false -> number 16 a < 2 ^ 64 -> 0 <= number 16 a ->
  scan (Conv_x :: fmt) n (a +:+ s) = let '(l, e) := scan fmt (n + String.length a) s in (Int (i32 (number 16 a)) :: l, e).
Proof. exact (scan_Conv_x fmt n false a s). Qed.
Lemma scan_s fmt n a s : word a = true -> begins (fun c => negb (c_isspace c)) s = false ->
  scan (Conv_s :: fmt) n (a +:+ s) = let '(l, e) := scan fmt (n + String.length a) s in (Str a :: l, e).
Proof. exact (scan_Conv_s fmt n false a s). Qed.
Lemma scan_lit fmt n c s : scan (Lit c :: fmt) n (String c s) = scan fmt (S n) s.
Proof. cbn [scan]. by rewrite Ascii.eqb_refl. Qed.
Lemma scan_c fmt n c s : scan (Conv_c :: fmt) n (String c s) = let '(l, e) := scan fmt (S n) s in (Char c :: l, e).
Proof. done. Qed.

(** *** The buffer as a list of fields *)

(** The sizes of the fields of the header, the setup packet in its five. *)
Definition field_sizes : list nat := [8; 1; 1; 1; 1; 2; 1; 1; 8; 4; 4; 4; 4; 1; 1; 2; 2; 2]%nat.
Definition fields (cs : list (list byte)) : Prop := map length cs = field_sizes.

Lemma sthen_inr {A B} (x : step_on A) (f : A -> step_on B) a m m' : x m = (inr a, m') -> sthen x f m = f a m'.
Proof. unfold sthen. by intros ->. Qed.

Lemma cut_fields m : 48 <= lenZ m -> exists cs rest, fields cs /\ m = (concat cs ++ rest)%list.
Proof.
  intros Hm. assert (H : forall sizes (m : list byte), (sum_list sizes <= length m)%nat -> exists cs rest, map length cs = sizes /\ m = (concat cs ++ rest)%list).
  { induction sizes as [|n sizes IH]; intros l Hl; [by exists [], l|]. cbn in Hl.
    destruct (IH (drop n l)) as (cs & rest & Hc & E); [rewrite length_drop; lia|]. exists (take n l :: cs), rest. split.
    - cbn. rewrite length_take, Hc. f_equal. lia.
    - cbn. by rewrite <- app_assoc, <- E, take_drop. }
  apply H. unfold lenZ in Hm. change (sum_list field_sizes) with 48%nat. lia.
Qed.

Lemma set_field i pos bs cs rest : fields cs -> field_sizes !! i = Some (length bs) -> pos = Z.of_nat (sum_list (take i field_sizes)) ->
  set pos bs (concat cs ++ rest)%list = (inr tt, (concat (<[i := bs]> cs) ++ rest)%list) /\ fields (<[i := bs]> cs).
Proof.
  unfold fields. intros <- Hb Hp. rewrite list_lookup_fmap in Hb. destruct (cs !! i) as [b|] eqn:Hi; [|done]. injection Hb as Hb.
  rewrite <- (take_drop_middle cs i b Hi). set (l := take i cs). set (r := drop (S i) cs).
  assert (Hl : length l = i) by (apply length_take_le; apply lookup_lt_Some in Hi; lia).
  rewrite insert_app_r_alt, Hl, Nat.sub_diag by lia. cbn [insert list_insert]. split; [|rewrite !map_app; cbn; by rewrite Hb].
  assert (Hp' : pos = lenZ (concat l)).
  { rewrite Hp, firstn_map. fold l. unfold lenZ. f_equal. clear. induction l as [|b l IH]; [done|]. cbn. by rewrite length_app, IH. }
  unfold set. rewrite !concat_app. cbn [concat]. rewrite <- !app_assoc. rewrite (store_at pos (concat l) b); [|done|unfold lenZ; by rewrite Hb]. done.
Qed.

(** Writing the data behind the header. *)
Lemma length_fields cs : fields cs -> lenZ (concat cs) = 48.
Proof. intros H. transitivity (Z.of_nat (sum_list (map length cs))); [|by rewrite H]. unfold lenZ. f_equal. clear. induction cs; [done|]. cbn. by rewrite length_app, IHcs. Qed.

(** *** A line

    As [usbmon] writes it: tag, time, kind, address, status or setup packet,
    length, and the data, where each byte says whether a space follows. *)
Inductive line_data := No_tag | Other_tag (c : ascii) | Data (l : list (byte * bool)).
Record setup_words := Setup { w_type : string; w_request : string; w_value : string; w_index : string; w_length : string }.
Record usb_line := Line {
  ln_tag : string; ln_time : string; ln_type : ascii; ln_pipe1 : ascii; ln_pipe2 : ascii; ln_dev : string; ln_ep : string;
  ln_status : string; ln_setup : option setup_words; ln_len : string; ln_data : line_data }.

Definition newline : string := String "010" "".
Fixpoint bytes_text (l : list (byte * bool)) : string :=
  match l with
  | [] => newline
  | (b, space) :: l =>
      String (hex_digit (byte.unsigned b / 16)) (String (hex_digit (byte.unsigned b mod 16)) (blank space (bytes_text l)))
  end.
Definition data_text (d : line_data) : string :=
  match d with
  | No_tag => newline
  | Other_tag c => String " " (String c newline)
  | Data l => String " " (String "=" (String " " (bytes_text l)))
  end.
Definition tail_text (l : usb_line) : string := String " " (ln_len l +:+ data_text (ln_data l)).
Definition setup_text (w : setup_words) (rest : string) : string :=
  String " " (w_type w +:+ String " " (w_request w +:+ String " " (w_value w +:+ String " " (w_index w +:+ String " " (w_length w +:+ rest))))).
Definition status_text (l : usb_line) : string :=
  match ln_setup l with None => tail_text l | Some w => setup_text w (tail_text l) end.
Definition line_text (l : usb_line) : string :=
  ln_tag l +:+ String " " (ln_time l +:+ String " " (String (ln_type l) (String " " (String (ln_pipe1 l) (String (ln_pipe2 l) (String ":"
    (ln_dev l +:+ String ":" (ln_ep l +:+ String " " (ln_status l +:+ status_text l))))))))).

Record setup_ok (w : setup_words) : Prop := SetupOk {
  so_words : word (w_type w) = true /\ word (w_request w) = true /\ word (w_value w) = true /\ word (w_index w) = true /\ word (w_length w) = true;
  so_short : (String.length (w_type w) <= 2 /\ String.length (w_request w) <= 2 /\ String.length (w_value w) <= 4 /\
              String.length (w_index w) <= 4 /\ String.length (w_length w) <= 4)%nat }.
Definition small_number (s : string) : Prop := digits 10 s = true /\ 0 <= number 10 s < 2 ^ 31.
Record line_ok (l : usb_line) : Prop := LineOk {
  lo_tag : digits 16 (ln_tag l) = true /\ 0 <= number 16 (ln_tag l) < 2 ^ 64;
  lo_time : digits 10 (ln_time l) = true;
  lo_chars : graphic (ln_type l) = true /\ graphic (ln_pipe1 l) = true /\ graphic (ln_pipe2 l) = true;
  lo_dev : small_number (ln_dev l);
  lo_ep : small_number (ln_ep l);
  lo_status : word (ln_status l) = true /\ (String.length (ln_status l) < 16)%nat;
  lo_setup : match ln_setup l with None => fst (sscanf [Conv_d] (ln_status l)) = 1 | Some w => fst (sscanf [Conv_d] (ln_status l)) <> 1 /\ setup_ok w end;
  lo_len : small_number (ln_len l);
  lo_data : match ln_data l with
            | No_tag => number 10 (ln_len l) = 0
            | Other_tag c => 0 < number 10 (ln_len l) /\ graphic c = true /\ c <> "="%char
            | Data _ => 0 < number 10 (ln_len l)
            end }.

(** What the line means, and what the [int] of [%x] makes of the tag. *)
Definition urb_of (l : usb_line) : urb :=
  Urb (number 16 (ln_tag l)) (ln_type l) (ln_pipe1 l) (ln_pipe2 l) (number 10 (ln_dev l)) (number 10 (ln_ep l)) (ln_status l).
Definition through_int (x : urb) : urb :=
  Urb (i32 (u_tag x)) (u_type x) (u_pipe1 x) (u_pipe2 x) (u_dev x) (u_ep x) (u_status x).
Definition data_of (l : usb_line) : list byte := match ln_data l with Data d => map fst d | _ => [] end.

(** *** The steps on a line *)

Lemma i32_small s : small_number s -> i32 (clamp_long (number 10 s)) = number 10 s.
Proof. intros [_ H]. unfold clamp_long. rewrite Z.min_l, Z.max_r by lia. apply swrap_id; unfold is_i; lia. Qed.

Lemma graphic_begins c s : graphic c = true -> begins c_isspace (String c s) = false.
Proof. intros [H _]%andb_prop. by apply negb_true_iff in H. Qed.

Lemma read_urb_line l m : line_ok l -> read_urb (line_text l) m = (inr (through_int (urb_of l), status_text l), m).
Proof.
  intros [[Ht Htn] Hti (Hc & H1 & H2) [Hd Hdn] [He Hen] [Hs Hsl] _ _ _].
  assert (Hw : forall s, digits 10 s = true -> word s = true) by (intros s; by apply digits_word).
  assert (Hst : begins (fun c => negb (c_isspace c)) (status_text l) = false) by (unfold status_text, setup_text, tail_text; by destruct (ln_setup l)).
  set (len := String.length). set (cnt := (len (ln_tag l) + (1 + (len (ln_time l) + (6 + (len (ln_dev l) + (1 + (len (ln_ep l) + (1 + (len (ln_status l) + 0)))))))))%nat).
  assert (E : sscanf urb_format (line_text l) =
    (8, [Int (i32 (number 16 (ln_tag l))); Int (i32 (clamp_long (number 10 (ln_time l)))); Char (ln_type l); Char (ln_pipe1 l); Char (ln_pipe2 l);
         Int (number 10 (ln_dev l)); Int (number 10 (ln_ep l)); Str (ln_status l); Count (Z.of_nat cnt)])).
  { unfold sscanf, line_text, urb_format.
    rewrite scan_x by (done || lia). rewrite scan_White by (apply word_begins; by apply Hw).
    rewrite scan_d by done. rewrite scan_White by (by apply graphic_begins). rewrite scan_c.
    rewrite scan_White by (by apply graphic_begins). rewrite !scan_c, scan_lit, scan_d by done. rewrite scan_lit, scan_d by done.
    rewrite scan_White by (by apply word_begins). rewrite scan_s by done. cbn [scan List.filter is_count negb length].
    rewrite (i32_small (ln_dev l)), (i32_small (ln_ep l)) by (by split). unfold cnt, len. do 11 f_equal. lia. }
  unfold read_urb, usb_sscanf. rewrite E. cbn [fits]. rewrite (proj2 (Nat.ltb_lt _ _) Hsl). cbn [andb].
  unfold sthen, done. do 2 f_equal. rewrite Nat2Z.id. unfold through_int, urb_of, line_text. cbn [u_tag u_type u_pipe1 u_pipe2 u_dev u_ep u_status]. f_equal.
  unfold cnt, len. rewrite skip_app. cbn [skip Nat.add]. rewrite skip_app. cbn [skip Nat.add]. rewrite skip_app. cbn [skip Nat.add]. rewrite skip_app. cbn [skip Nat.add]. by rewrite skip_app.
Qed.

Lemma read_setup_none l cs rest : ln_setup l = None -> line_ok l -> fields cs ->
  read_setup (ln_status l) (status_text l) (concat cs ++ rest)%list =
  (inr (tail_text l), (concat (<[6%nat := le_split 1 1]> cs) ++ rest)%list) /\ fields (<[6%nat := le_split 1 1]> cs).
Proof.
  intros E Hl Hc. pose proof (lo_setup l Hl) as H. rewrite E in H. unfold read_setup. rewrite H. cbn [Z.eqb Pos.eqb].
  destruct (set_field 6 off_setup_flag (le_split 1 1) cs rest) as [Es Hf]; [done..|]. split; [|done].
  erewrite sthen_inr by exact Es. unfold status_text. by rewrite E.
Qed.

Definition setup_fields (w : setup_words) (cs : list (list byte)) : list (list byte) :=
  <[6%nat := le_split 1 0]> (<[17%nat := le_split 2 (strtoul 16 (w_length w))]> (<[16%nat := le_split 2 (strtoul 16 (w_index w))]>
    (<[15%nat := le_split 2 (strtoul 16 (w_value w))]> (<[14%nat := le_split 1 (strtoul 16 (w_request w))]> (<[13%nat := le_split 1 (strtoul 16 (w_type w))]> cs))))).

(** One [set] of a field after another. *)
Ltac set_step i :=
  match goal with
  | Hc : fields ?cs |- context [sthen (set ?pos ?bs) _ (concat ?cs ++ ?rest)%list] =>
      let Es := fresh "Es" in let Hf := fresh "Hf" in
      destruct (set_field i pos bs cs rest Hc) as [Es Hf]; [done|done|]; rewrite (sthen_inr _ _ _ _ _ Es); clear Es Hc; rename Hf into Hc
  end.

Lemma read_setup_some l w cs rest : ln_setup l = Some w -> line_ok l -> fields cs ->
  read_setup (ln_status l) (status_text l) (concat cs ++ rest)%list = (inr (tail_text l), (concat (setup_fields w cs) ++ rest)%list) /\ fields (setup_fields w cs).
Proof.
  intros E Hl Hc. pose proof (lo_setup l Hl) as H. rewrite E in H. destruct H as [Hn [(Hw1 & Hw2 & Hw3 & Hw4 & Hw5) (L1 & L2 & L3 & L4 & L5)]].
  unfold read_setup. rewrite (proj2 (Z.eqb_neq _ _) Hn).
  set (cnt := (1 + (String.length (w_type w) + (1 + (String.length (w_request w) + (1 + (String.length (w_value w) + (1 + (String.length (w_index w) + (1 + (String.length (w_length w) + 0))))))))))%nat).
  assert (Es : sscanf setup_format (status_text l) = (5, [Str (w_type w); Str (w_request w); Str (w_value w); Str (w_index w); Str (w_length w); Count (Z.of_nat cnt)])).
  { unfold sscanf, setup_format, status_text, setup_text. rewrite E. match goal with |- context [String " " (w_type w +:+ ?s)] => change (String " " (w_type w +:+ s)) with (blank true (w_type w +:+ s)) end.
    rewrite scan_Conv_s by done. do 4 (rewrite scan_White by (by apply word_begins); rewrite scan_s by done). cbn [scan List.filter is_count negb length].
    unfold cnt. do 8 f_equal. lia. }
  unfold usb_sscanf. rewrite Es. cbn [fits]. rewrite !(proj2 (Nat.ltb_lt _ _)) by lia. cbn [andb].
  erewrite sthen_inr by done. cbn iota. set_step 13%nat. set_step 14%nat. set_step 15%nat. set_step 16%nat. set_step 17%nat. set_step 6%nat.
  split; [|done]. unfold done. do 3 f_equal. rewrite Nat2Z.id. unfold status_text, setup_text. rewrite E. unfold cnt.
  do 4 (cbn [skip Nat.add]; rewrite skip_app). cbn [skip Nat.add]. by rewrite skip_app.
Qed.

(** *** The data *)

Lemma hex_digit_value d : 0 <= d < 16 -> ascii_to_int (hex_digit d) = d /\ Ascii.eqb (hex_digit d) " " = false.
Proof. intros Hd. assert (d ∈ seqZ 0 16) as H by (apply elem_of_seqZ; lia). cbn in H. repeat (apply elem_of_cons in H as [->|H]; [done|]). by apply elem_of_nil in H. Qed.
Lemma nibbles b : 0 <= byte.unsigned b / 16 < 16 /\ 0 <= byte.unsigned b mod 16 < 16.
Proof. pose proof (byte.unsigned_range b). split; [split; [apply Z.div_pos|apply Z.div_lt_upper_bound]|apply Z.mod_pos_bound]; lia. Qed.
Lemma byte_of_digits b : le_split 1 (ascii_to_int (hex_digit (byte.unsigned b / 16)) * 16 + ascii_to_int (hex_digit (byte.unsigned b mod 16))) = [b].
Proof.
  destruct (nibbles b) as [[-> _]%hex_digit_value [-> _]%hex_digit_value]. rewrite Z.mul_comm, <- Z.div_mod by lia. change ([byte.of_Z (byte.unsigned b)] = [b]). by rewrite byte.of_Z_unsigned.
Qed.
Lemma bytes_text_begins l : exists c s, bytes_text l = String c s /\ Ascii.eqb c " " = false.
Proof. destruct l as [|[b sp] l]; cbn [bytes_text]; do 2 eexists; [done|split; [done|]]. apply hex_digit_value, nibbles. Qed.

Lemma read_data_line snap l pre old : 48 <= lenZ pre <= snap -> snap < 2 ^ 31 -> snap - lenZ pre <= lenZ old ->
  let k := take (Z.to_nat (snap - lenZ pre)) (map fst l) in
  read_data snap (lenZ pre) (lenZ pre - 48) (bytes_text l) (pre ++ old)%list =
  (inr (lenZ pre + lenZ k, lenZ pre - 48 + lenZ k), (pre ++ k ++ drop (length k) old)%list).
Proof.
  revert pre old. induction l as [|[b sp] l IH]; intros pre old Hp Hs Ho.
  - cbn. rewrite take_nil. unfold done, lenZ. cbn. rewrite drop_0, !Z.add_0_r. done.
  - cbn [bytes_text read_data]. rewrite uwrap_id by clia. destruct (Z.ltb_spec (lenZ pre) snap) as [Hlt|Hge].
    + destruct old as [|o old]; [unfold lenZ in *; cbn in Ho; lia|]. rewrite byte_of_digits.
      assert (Es : set (sizeof_usb_header + (lenZ pre - 48)) [b] (pre ++ o :: old)%list = (inr tt, ((pre ++ [b]) ++ old)%list)).
      { unfold set. rewrite (store_eq _ _ pre [o] old); [by rewrite <- app_assoc|done|unfold sizeof_usb_header; lia|done]. }
      rewrite (sthen_inr _ _ _ _ _ Es).
      assert (Eb : forall cap dl, match blank sp (bytes_text l) with
        | "" => done (u32 (cap + 1), dl + 1)
        | String c rest' => read_data snap (u32 (cap + 1)) (dl + 1) (if Ascii.eqb c " " then rest' else blank sp (bytes_text l)) end
        = read_data snap (u32 (cap + 1)) (dl + 1) (bytes_text l)).
      { intros cap dl. destruct sp; [done|]. cbn [blank]. destruct (bytes_text_begins l) as (c & s & -> & ->). done. }
      rewrite Eb. rewrite uwrap_id by clia. assert (El : lenZ (pre ++ [b])%list = lenZ pre + 1) by (rewrite lenZ_app; done).
      replace (lenZ pre - 48 + 1) with (lenZ (pre ++ [b])%list - 48) by lia. rewrite <- El. rewrite IH; [|lia|lia|rewrite El; unfold lenZ in *; cbn in Ho; lia].
      rewrite El. replace (Z.to_nat (snap - lenZ pre)) with (S (Z.to_nat (snap - (lenZ pre + 1)))) by lia. cbn [map fst take drop length].
      rewrite <- !app_assoc. cbn [app]. unfold lenZ. cbn [length]. do 2 f_equal. f_equal; lia.
    + replace (Z.to_nat (snap - lenZ pre)) with 0%nat by lia. unfold done, lenZ. cbn. by rewrite !Z.add_0_r.
Qed.

Definition data_flag (l : usb_line) : Z := match ln_data l with Data _ => 0 | _ => 1 end.
Definition kept (snap : Z) (l : usb_line) : list byte := take (Z.to_nat (snap - 48)) (data_of l).
Definition length_fields_of (l : usb_line) (cs : list (list byte)) : list (list byte) :=
  <[7%nat := le_split 1 (data_flag l)]> (<[11%nat := le_split 4 (number 10 (ln_len l))]> cs).

Lemma scan_length l : line_ok l ->
  sscanf [White; Conv_d; Conv_n] (tail_text l) = (1, [Int (number 10 (ln_len l)); Count (Z.of_nat (1 + (String.length (ln_len l) + 0)))]).
Proof.
  intros Hl. pose proof (lo_len l Hl) as Hn. pose proof Hn as [Hd _]. unfold sscanf, tail_text. rewrite scan_White by (by apply word_begins, (digits_word 10)).
  rewrite scan_d; [|done|by destruct (ln_data l)]. cbn [scan List.filter is_count negb length]. rewrite i32_small by done. do 5 f_equal. lia.
Qed.

Lemma read_lengths_line snap l cs rest : line_ok l -> fields cs -> 48 <= snap < 2 ^ 31 -> snap - 48 <= lenZ rest ->
  read_lengths snap (tail_text l) (concat cs ++ rest)%list =
  (inr (48 + lenZ (kept snap l), 48 + number 10 (ln_len l), lenZ (kept snap l)),
   (concat (length_fields_of l cs) ++ kept snap l ++ drop (length (kept snap l)) rest)%list) /\ fields (length_fields_of l cs).
Proof.
  intros Hl Hc Hs Hr. pose proof (lo_len l Hl) as [Hd Hn]. pose proof (lo_data l Hl) as Ht. unfold read_lengths. rewrite scan_length by done.
  rewrite Nat2Z.id. unfold tail_text. cbn [skip Nat.add]. rewrite skip_app. cbn [skip]. rewrite !(uwrap_id 32) by (unfold sizeof_usb_header, is_u; lia).
  set_step 11%nat. set_step 7%nat. rewrite (Z.add_comm 48 (number 10 (ln_len l))).
  unfold length_fields_of, data_flag, kept, data_of. destruct (ln_data l) as [|c|d] eqn:Ed; cbn [data_text].
  - rewrite (proj2 (Z.eqb_eq _ _) Ht), take_nil. by split.
  - destruct Ht as (Hp & Hg & Hne). rewrite (proj2 (Z.eqb_neq _ 0)) by lia. unfold sscanf. rewrite scan_White by (by apply graphic_begins). rewrite scan_c.
    cbn [scan List.filter is_count negb length Z.of_nat Z.eqb Pos.of_succ_nat Pos.eqb]. destruct (Ascii.eqb_spec c "="); [done|]. cbn [negb].
    rewrite take_nil. by split.
  - rewrite (proj2 (Z.eqb_neq _ 0)) by lia. unfold sscanf. rewrite scan_White by done. rewrite scan_c.
    cbn [scan List.filter is_count negb length Z.of_nat Z.eqb Pos.of_succ_nat Pos.eqb Ascii.eqb Bool.eqb].
    change (Z.of_nat 1) with 1. cbn iota. erewrite sthen_inr by done. cbn [skip]. set_step 7%nat. rewrite list_insert_insert_eq in *.
    pose proof (length_fields _ Hc) as E48. pose proof (read_data_line snap d _ rest ltac:(rewrite E48; lia) ltac:(lia) ltac:(rewrite E48; lia)) as Er.
    rewrite E48 in Er. erewrite sthen_inr by exact Er. by split.
Qed.

(** *** The event *)

(** The header of the event; [old] is where a setup packet would be.  Its
    field for the tag has 64 bits, but the tag has gone through an [int]. *)
Definition usb_header (h : linux) (l : usb_line) (sec usec data_len : Z) (old : list byte) : list byte :=
  let x := urb_of l in
  (le_split 8 (u64 (i32 (u_tag x))) ++ [letter (u_type x)] ++ le_split 1 (transfer_of (u_pipe1 x)) ++ le_split 1 (endpoint x) ++
   le_split 1 (u_dev x) ++ le_split 2 (ifindex (md h)) ++ le_split 1 (match ln_setup l with Some _ => 0 | None => 1 end) ++
   le_split 1 (data_flag l) ++ le_split 8 sec ++ le_split 4 usec ++ le_split 4 0 ++ le_split 4 (number 10 (ln_len l)) ++ le_split 4 data_len ++
   match ln_setup l with
   | Some w => le_split 1 (strtoul 16 (w_type w)) ++ le_split 1 (strtoul 16 (w_request w)) ++ le_split 2 (strtoul 16 (w_value w)) ++
               le_split 2 (strtoul 16 (w_index w)) ++ le_split 2 (strtoul 16 (w_length w))
   | None => old
   end)%list.

Lemma eighteen cs : fields cs -> exists c0 c1 c2 c3 c4 c5 c6 c7 c8 c9 c10 c11 c12 s, cs = ([c0; c1; c2; c3; c4; c5; c6; c7; c8; c9; c10; c11; c12] ++ s)%list /\ length s = 5%nat.
Proof. intros Hc. assert (length cs = 18%nat) as H by (apply (f_equal length) in Hc; by rewrite length_map in Hc). do 13 (destruct cs as [|? cs]; [done|]). cbn in H. repeat eexists. lia. Qed.

Lemma eighteen_end cs rest : fields cs -> take 8 (drop 40 (concat cs ++ rest)%list) = concat (drop 13 cs).
Proof.
  intros Hc. assert (H : forall l : list (list byte), length (concat l) = sum_list (map length l)) by (intros l; induction l as [|b l IH]; [done|]; cbn; by rewrite length_app, IH).
  rewrite <- (take_drop 13 cs) at 1. rewrite concat_app, <- app_assoc, drop_app_length', take_app_length'; [done| |].
  - rewrite H, <- skipn_map, Hc. done.
  - rewrite H, <- firstn_map, Hc. done.
Qed.

Definition setup_of (l : usb_line) (cs : list (list byte)) : list (list byte) :=
  match ln_setup l with Some w => setup_fields w cs | None => <[6%nat := le_split 1 1]> cs end.
Lemma read_setup_line l cs rest : line_ok l -> fields cs ->
  read_setup (ln_status l) (status_text l) (concat cs ++ rest)%list = (inr (tail_text l), (concat (setup_of l cs) ++ rest)%list) /\ fields (setup_of l cs).
Proof. intros Hl Hc. unfold setup_of. destruct (ln_setup l) as [w|] eqn:E; [by apply read_setup_some|by apply read_setup_none]. Qed.

(** All fields, in the order in which they are written. *)
Definition all_set (h : linux) (l : usb_line) (sec usec n : Z) (cs : list (list byte)) : list (list byte) :=
  let x := urb_of l in
  <[12%nat := le_split 4 n]> (length_fields_of l (setup_of l
    (<[3%nat := le_split 1 (endpoint x)]> (<[2%nat := le_split 1 (transfer_of (u_pipe1 x))]> (<[1%nat := [letter (u_type x)]]>
    (<[9%nat := le_split 4 usec]> (<[8%nat := le_split 8 sec]> (<[10%nat := le_split 4 0]> (<[5%nat := le_split 2 (ifindex (md h))]>
    (<[4%nat := le_split 1 (u_dev x)]> (<[0%nat := le_split 8 (u64 (i32 (u_tag x)))]> cs))))))))))).
Lemma all_set_header h l sec usec n cs : fields cs -> concat (all_set h l sec usec n cs) = usb_header h l sec usec n (concat (drop 13 cs)).
Proof.
  intros (c0 & c1 & c2 & c3 & c4 & c5 & c6 & c7 & c8 & c9 & c10 & c11 & c12 & s & -> & Hs)%eighteen.
  do 5 (destruct s as [|? s]; [done|]). destruct s; [|done]. unfold all_set, usb_header, setup_of. destruct (ln_setup l); cbn [app insert list_insert length_fields_of setup_fields concat drop]; by rewrite ?app_nil_r.
Qed.

Lemma usb_text_line h l sec usec m : line_ok l -> 48 <= snapshot (l_p h) < 2 ^ 31 -> lenZ m = snapshot (l_p h) ->
  let k := kept (snapshot (l_p h)) l in
  exists m', lenZ m' = lenZ m /\
    if unwanted (direction h) (urb_of l) then usb_text h (inr (sec, usec)) (line_text l) m = (inl (Return 0), m')
    else exists rest, m' = (usb_header h l sec usec (lenZ k) (take 8 (drop 40 m)) ++ k ++ rest)%list /\
      usb_text h (inr (sec, usec)) (line_text l) m = (inr (Pkthdr sec usec (48 + lenZ k) (48 + number 10 (ln_len l))), m').
Proof.
  intros Hl Hs Hm k. destruct (cut_fields m) as (cs & rest & Hc0 & ->); [lia|]. pose proof Hc0 as Hc. rewrite lenZ_app, length_fields in Hm by done.
  unfold usb_text. rewrite (sthen_inr _ _ _ _ _ (read_urb_line l _ Hl)).
  change (unwanted (direction h) (through_int (urb_of l))) with (unwanted (direction h) (urb_of l)).
  change (endpoint (through_int (urb_of l))) with (endpoint (urb_of l)).
  cbn [through_int u_tag u_type u_pipe1 u_pipe2 u_dev u_ep u_status]. set_step 0%nat. set_step 4%nat. set_step 5%nat. set_step 10%nat.
  set_step 8%nat. set_step 9%nat. destruct (unwanted (direction h) (urb_of l)).
  { eexists. split; [|done]. by rewrite !lenZ_app, !length_fields. }
  set_step 1%nat. set_step 2%nat. set_step 3%nat.
  destruct (read_setup_line l _ rest Hl Hc) as [Er Hc']. rewrite (sthen_inr _ _ _ _ _ Er). clear Hc Er. rename Hc' into Hc.
  destruct (read_lengths_line (snapshot (l_p h)) l _ rest Hl Hc Hs ltac:(lia)) as [Er Hc']. rewrite (sthen_inr _ _ _ _ _ Er). clear Hc Er. rename Hc' into Hc.
  cbn iota. set_step 12%nat. rewrite uwrap_id by clia. fold k in Hc |- *.
  assert (Hk : 0 <= lenZ k <= lenZ rest) by (unfold k, kept, lenZ in *; rewrite length_take; lia).
  rewrite (proj2 (Z.ltb_ge _ _)) by lia. fold (all_set h l sec usec (lenZ k) cs) in Hc |- *.
  eexists. split; [|eexists; split; [|done]].
  - rewrite !lenZ_app, !length_fields by done. unfold lenZ. rewrite length_drop. unfold lenZ in Hk. lia.
  - by rewrite eighteen_end, all_set_header.
Qed.

Lemma length_header h l sec usec n old : length old = 8%nat -> lenZ (usb_header h l sec usec n old) = 48.
Proof. intros Ho. unfold usb_header. destruct (ln_setup l); unfold lenZ; rewrite !length_app, !length_le_split; cbn [length]; lia. Qed.

(** No NUL cuts the line short. *)
Definition not_nul (c : ascii) : bool := negb (code_of c =? 0).
Lemma c_str_id s : all_of not_nul s = true -> c_str s = s.
Proof. unfold not_nul. induction s as [|c s IH]; [done|]. cbn. intros [Hc%negb_true_iff Hs]%andb_prop. by rewrite Hc, IH. Qed.
Lemma not_nul_app a s : word a = true -> all_of not_nul s = true -> all_of not_nul (a +:+ s) = true.
Proof.
  intros [_ H]%andb_prop Hs. induction a as [|c a IH]; [done|]. cbn in H. apply andb_prop in H as [[_ Hc]%andb_prop H].
  change (String c a +:+ s) with (String c (a +:+ s)). cbn [all_of]. unfold not_nul at 1. by rewrite Hc, IH.
Qed.
Lemma not_nul_cons c s : not_nul c = true -> all_of not_nul s = true -> all_of not_nul (String c s) = true.
Proof. intros Hc Hs. cbn [all_of]. by rewrite Hc. Qed.
Lemma graphic_not_nul c : graphic c = true -> not_nul c = true.
Proof. by intros [_ Hc]%andb_prop. Qed.
Lemma not_nul_bytes l : all_of not_nul (bytes_text l) = true.
Proof.
  assert (Hd : forall d, not_nul (hex_digit d) = true) by (intros d; unfold hex_digit; repeat case_match; done).
  induction l as [|[b sp] l IH]; [done|]. cbn [bytes_text all_of]. rewrite !Hd. by destruct sp.
Qed.
Lemma line_not_nul l : line_ok l -> all_of not_nul (line_text l) = true.
Proof.
  intros [[Ht _] Hti (Hc & H1 & H2) [Hd _] [He _] [Hs _] Hset [Hl _] Hdata].
  assert (Hw : forall s, digits 10 s = true -> word s = true) by (intros s; by apply digits_word).
  assert (Htail : all_of not_nul (tail_text l) = true).
  { unfold tail_text. cbn [all_of]. apply not_nul_app; [by apply Hw|]. unfold data_text. destruct (ln_data l) as [|c|d]; [done| |exact (not_nul_bytes d)].
    apply not_nul_cons; [done|]. apply not_nul_cons; [|done]. by apply graphic_not_nul, Hdata. }
  assert (Hstat : all_of not_nul (status_text l) = true).
  { unfold status_text. destruct (ln_setup l) as [w|]; [|done]. destruct Hset as [_ [(W1 & W2 & W3 & W4 & W5) _]]. unfold setup_text.
    do 4 (cbn [all_of]; apply not_nul_app; [done|]). cbn [all_of]. by apply not_nul_app. }
  unfold line_text. apply not_nul_app; [by apply (digits_word 16)|]. apply not_nul_cons; [done|]. apply not_nul_app; [by apply Hw|].
  do 6 (apply not_nul_cons; [first [done|by apply graphic_not_nul]|]). apply not_nul_app; [by apply Hw|]. apply not_nul_cons; [done|].
  apply not_nul_app; [by apply Hw|]. apply not_nul_cons; [done|]. by apply not_nul_app.
Qed.

(** The tag that ends up in the header is the tag of the event exactly if its
    upper 33 bits are alike. *)
Lemma tag_kept t : 0 <= t < 2 ^ 64 -> u64 (i32 t) = t <-> t < 2 ^ 31 \/ 2 ^ 64 - 2 ^ 31 <= t.
Proof.
  intros Ht. pose proof (i32_ok t) as Hr. cranges. split.
  - intros He. destruct (Z_lt_le_dec (i32 t) 0).
    + rewrite uwrap_neg in He by clia. lia.
    + rewrite uwrap_id in He by clia. lia.
  - intros [Hlo|Hhi].
    + rewrite swrap_id, uwrap_id by clia. done.
    + replace (i32 t) with (t - 2 ^ 64); [rewrite uwrap_neg by clia; clia|].
      unfold swrap. replace (t + 2 ^ (32 - 1)) with (t + 2 ^ 31 - 2 ^ 64 + 2 ^ 32 * 2 ^ 32) by lia.
      rewrite Z.mod_add, Z.mod_small by lia. lia.
Qed.

(** C15: An event that [usbmon] writes as a line of text of less than 4096
    characters gets to the application, if the snapshot length is at least 48
    and the break flag is clear, as [DLT_USB_LINUX] has it: the header holds the kind, the address and the
    direction, the setup packet if there is one, the length and the time of
    reading; behind it are the bytes of the data, as many as the snapshot
    length admits.  The tag, which has 64 bits in the line and in the header,
    goes through an [int]: the header has the low 32 bits of it with the sign,
    which is the tag exactly if that is below [2^31], or at least
    [2^64 - 2^31].  The filter sees the packet as a whole, and an event of the
    other direction is passed over. *)
Theorem usb_line_read mem0 {user_t} (callback : user_t -> pcap_pkthdr -> list byte -> user_t * bool) fd h l sec usec m u :
  line_ok l -> (String.length (line_text l) < 4096)%nat -> 48 <= snapshot (l_p h) < 2 ^ 31 -> lenZ m = snapshot (l_p h) -> break_flag h = false ->
  let data := take (Z.to_nat (snapshot (l_p h) - 48)) (data_of l) in
  let packet := (usb_header h l sec usec (lenZ data) (take 8 (drop 40 m)) ++ data)%list in
  let ph := Pkthdr sec usec (48 + lenZ data) (48 + number 10 (ln_len l)) in
  le_combine (take 8 packet) = u64 (i32 (u_tag (urb_of l))) /\
  (u64 (i32 (u_tag (urb_of l))) = u_tag (urb_of l) <-> u_tag (urb_of l) < 2 ^ 31 \/ 2 ^ 64 - 2 ^ 31 <= u_tag (urb_of l)) /\
  exists m', lenZ m' = lenZ m /\
    usb_read_linux mem0 callback fd h m [Got (line_text l) false] (inr (sec, usec)) u =
    if unwanted (direction h) (urb_of l) then (Return 0, m', h, u)
    else match filter_packet mem0 (fcode (l_p h)) ph packet with
         | inl why => (Fault (F_filter why), m', h, u)
         | inr false => (Return 0, m', h, u)
         | inr true =>
             let '(u, brk) := callback u ph packet in
             (Return 1, m', or_break (with_packets_read h (u32 (packets_read (md h) + 1))) brk, u)
         end.
Proof.
  intros Hl Hlen Hs Hm Hb data packet ph. split; [|split; [apply tag_kept, (lo_tag l Hl)|]].
  { unfold packet, usb_header. rewrite <- !app_assoc, take_app_length' by (by rewrite length_le_split).
    rewrite le_combine_split. apply Z.mod_small, uwrap_range. lia. }
  destruct (usb_text_line h l sec usec m Hl Hs Hm) as (m' & Hm' & Ht). exists m'. split; [done|].
  unfold usb_read_linux, usb_receive, or_break. rewrite Hb. unfold USB_LINE_LEN. rewrite substring_all by lia. rewrite c_str_id by (by apply line_not_nul).
  destruct (unwanted (direction h) (urb_of l)); [by rewrite Ht|]. destruct Ht as (rest & -> & ->).
  fold (kept (snapshot (l_p h)) l) in data. fold data. unfold usb_deliver. cbn [caplen].
  replace (usb_header h l sec usec (lenZ data) (take 8 (drop 40 m)) ++ data ++ rest)%list with ([] ++ packet ++ rest)%list by (unfold packet; by rewrite <- app_assoc).
  rewrite (fetch_at 0 _ [] packet rest); [|done|]. 2: { unfold packet. rewrite lenZ_app, length_header; [done|]. rewrite length_take, length_drop. unfold lenZ in Hm. lia. }
  fold ph. destruct (filter_packet mem0 (fcode (l_p h)) ph packet) as [why|[|]]; [done| |done].
  by destruct (callback u ph packet).
Qed.

(** *** Two lines of a bus

    A request for the status of a hub's port, and its completion. *)
Definition bus_md : pcap_md := Md (Stat 0 0 0) 0 0 false false 2 0 0 0 0 0 0 0 0 0.
Definition bus_capture (snap : Z) : linux := Linux (Pcap snap 189 0 0 true false snap None sf0) bus_md 0 0 PCAP_D_INOUT.
Definition submission : usb_line :=
  Line "d5ea89a0" "3575914555" "S" "C" "i" "001" "00" "s" (Some (Setup "a3" "00" "0000" "0003" "0004")) "4" (Other_tag "<").
Definition completion : usb_line :=
  Line "d5ea89a0" "3575914560" "C" "C" "i" "001" "00" "0" None "4" (Data (map (fun z => (byte.of_Z z, false)) [1; 5; 0; 0])).

Example submission_text : line_text submission = "d5ea89a0 3575914555 S Ci:001:00 s a3 00 0000 0003 0004 4 <" +:+ newline.
Proof. reflexivity. Qed.
Example completion_text : line_text completion = "d5ea89a0 3575914560 C Ci:001:00 0 4 = 01050000" +:+ newline.
Proof. reflexivity. Qed.

(** A snapshot length of 50 keeps two of the four bytes. *)
Lemma usb_line_read_witness :
  (exists m h, usb_read_linux zero_mem log_packet 3 (bus_capture 50) (zeros 50) [Got (line_text completion) false] (inr (7, 9)) [] =
    (Return 1, m, h, [(Pkthdr 7 9 50 52, usb_header (bus_capture 50) completion 7 9 2 (zeros 8) ++ map byte.of_Z [1; 5])%list])) /\
  (exists m', lenZ m' = 50 /\
    usb_read_linux zero_mem log_packet 3 (bus_capture 50) (zeros 50) [Got (line_text completion) false] (inr (7, 9)) [] =
    (Return 1, m', with_packets_read (bus_capture 50) 1,
     [(Pkthdr 7 9 50 52, usb_header (bus_capture 50) completion 7 9 2 (zeros 8) ++ map byte.of_Z [1; 5])%list])) /\
  line_ok submission.
Proof.
  split; [vm_compute; eauto|].
  assert (Hc : line_ok completion) by (split; unfold small_number; cbn; split_and?; try done; try zcompute; lia).
  split.
  - destruct (usb_line_read zero_mem log_packet 3 (bus_capture 50) completion 7 9 (zeros 50) [] Hc) as (_ & _ & m' & Hm & E);
      [apply Nat.ltb_lt; by vm_compute|zcompute|done|done|]. exists m'. split; [exact Hm|]. rewrite E. reflexivity.
  - split; unfold small_number; cbn; split_and?; try done; try zcompute; try lia.
Defined.

End Text.
