(* ===== verification/Devices.v ===== *)
(** The list of the devices that can be opened ([inet.c], [fad-getad.c] and
    the scans of [pcap-linux.c] and [pcap-usb-linux.c]), what [pcap_lookupdev]
    and [pcap_lookupnet] make of it, and [pcap_open_live] and [pcap_close] of
    [pcap.c], by which a device is tried. *)
From Stdlib Require Import String.
From S2P Require Import Prelude CString CFile Bpf Datalink PcapInt Pcap LinuxInt LinuxSys LinuxIface LinuxActivate Scanf LinuxBus.

#[local] Open Scope string_scope.
#[local] Open Scope Z_scope.
#[local] Open Scope c_scope.
#[local] Notation "x <~ m ;; k" := (sbind m (fun x => k)) (at level 100, m at next level, k at level 200, right associativity).
#[local] Notation "' x <~ m ;; k" := (sbind m (fun x => k)) (at level 100, x pattern, m at next level, k at level 200, right associativity).
#[local] Notation "m ;;; k" := (sbind m (fun _ => k)) (at level 100, k at level 200, right associativity).

Definition call {X} (c : sysE X) : sys X := Call c (fun x => Done x).

Definition IFF_BROADCAST := 2.
Definition IFF_LOOPBACK := 8.
Definition IFF_POINTOPOINT := 16.
Definition PCAP_IF_LOOPBACK := 1.
Definition INT_MAX := 2 ^ 31 - 1.
Definition ENXIO := 6.
Definition EADDRNOTAVAIL := 99.
Definition DT_REG := 8.
Definition AF_INET := 2.

(** The sizes of structures do not matter here. *)
Definition some_size : Z := 1.

(** ** Opening and closing a device *)

(** The capture sources, in the order in which they are asked. *)
Inductive source_type := Can_bus | Usb_bus | Network_interface.
Definition source_type_of (source : string) : source_type :=
  if can_is_ours source then Can_bus else if usb_is_ours source then Usb_bus else Network_interface.
Definition activate_op (t : source_type) : body Z Z :=
  match t with Can_bus => can_activate | Usb_bus => usb_activate | Network_interface => pcap_activate_linux end.

(** A handle: its address and that of its name, and what it holds. *)
Record opened := Opened { o_self : Z; o_source : Z; o_type : source_type; o_live : live }.

(** All three kinds use [pcap_create_common]. *)
Definition pcap_create (source : string) (g : globals) : sys (option opened) :=
  p <~ call (Malloc some_size) ;;
  if p =? 0 then Done None
  else
    name <~ call (Strdup source) ;;
    if name =? 0 then call (Free p) ;;; Done None
    else Done (Some (Opened p name (source_type_of source) (pcap_create_interface source p g))).

(** [pcap_set_snaplen], [pcap_set_promisc] and [pcap_set_timeout] on a handle
    that is not activated. *)
Definition with_settings (h : live) (snaplen promisc to_ms : Z) : live :=
  let o := lopt h in
  with_lopt (with_lx h (with_timeout (with_snapshot (lx h) snaplen) to_ms))
            (Opt (opt_buffer_size o) (opt_source o) promisc (opt_rfmon o) (opt_tstamp_type o)).

Definition pcap_close (o : opened) : sys globals :=
  call (Free (o_source o)) ;;;
  '(_, h) <~ cleanup_op (o_live o) ;;
  call (Free (o_self o)) ;;;
  Done (globs h).

(** [pcap_open_live]: the status of what failed, or the handle. *)
Definition open_live (source : string) (snaplen promisc to_ms : Z) (g : globals) : sys ((Z + opened) * globals) :=
  o <~ pcap_create source g ;;
  match o with
  | None => Done (inl PCAP_ERROR, g)
  | Some o =>
      '(r, h) <~ activate_by (activate_op (o_type o)) (with_settings (o_live o) snaplen promisc to_ms) ;;
      let status := match r with inl v | inr v => v end in
      let o := Opened (o_self o) (o_source o) (o_type o) h in
      if status <? 0 then g <~ pcap_close o ;; Done (inl status, g) else Done (inr o, globs h)
  end.

(** ** Trying a device

    What the list asks of captures: to try whether a device can be opened. *)
Class Opener := try_device : string -> globals -> sys (bool * globals).

(** It is opened with a short snapshot length and closed again. *)
Definition try_open (name : string) (g : globals) : sys (bool * globals) :=
  '(r, g) <~ open_live name 68 0 0 g ;;
  match r with
  | inl _ => Done (false, g)
  | inr o => g <~ pcap_close o ;; Done (true, g)
  end.
#[export] Instance capture_opener : Opener := try_open.

(** ** The list *)

(** [struct pcap_addr] and [struct pcap_if]: the address of each piece of
    memory with what is in it. *)
Record pcap_addr := Addr {
  pa_ptr : Z; pa_addr : option (Z * list byte); pa_netmask : option (Z * list byte);
  pa_broadaddr : option (Z * list byte); pa_dstaddr : option (Z * list byte) }.
Record pcap_if := If {
  d_ptr : Z; d_name : Z * string; d_description : option (Z * string); d_addresses : list pcap_addr; d_flags : Z }.

Definition name_of (d : pcap_if) : string := snd (d_name d).
Definition is_loopback (d : pcap_if) : bool := negb (d_flags d .& PCAP_IF_LOOPBACK =? 0).

(** The first digits of a name; [any] comes after all others. *)
Definition get_instance (name : string) : Z :=
  if String.eqb name "any" then INT_MAX
  else atoi (snd (span (fun c => negb (c_isdigit c)) name)).

(** The list being built, and the globals of the library. *)
Record devs := Devs { alldevs : list pcap_if; d_globs : globals }.
Definition lister (A : Type) : Type := devs -> sys ((message + A) * devs).
Definition with_alldevs (st : devs) (l : list pcap_if) : devs := Devs l (d_globs st).

Definition no_memory : message := Message "malloc: %s" [ENOMEM].

(** Whether a new interface stands before [next]. *)
Definition goes_before (loopback : bool) (this_instance : Z) (next : pcap_if) : bool :=
  negb loopback && is_loopback next
  || (this_instance <? get_instance (name_of next)) && (negb loopback || is_loopback next).
Fixpoint insert_dev (d : pcap_if) (l : list pcap_if) : list pcap_if :=
  match l with
  | [] => [d]
  | next :: l => if goes_before (is_loopback d) (get_instance (name_of d)) next then d :: next :: l else next :: insert_dev d l
  end.

(** A new entry, [None] without memory. *)
Definition new_if (name : string) (flags : Z) (description : option string) : sys (option pcap_if) :=
  p <~ call (Malloc some_size) ;;
  if p =? 0 then Done None
  else
    n <~ call (Strdup name) ;;
    if n =? 0 then call (Free p) ;;; Done None
    else
      let entry descr := Done (Some (If p (n, name) descr [] (if flags .& IFF_LOOPBACK =? 0 then 0 else PCAP_IF_LOOPBACK))) in
      match description with
      | Some text =>
          t <~ call (Strdup text) ;;
          if t =? 0 then call (Free n) ;;; call (Free p) ;;; Done None else entry (Some (t, text))
      | None => entry None
      end.

(** The address of the entry; none if the interface cannot be opened. *)
Definition add_or_find_if {Op : Opener} (name : string) (flags : Z) (description : option string) : lister (option Z) := fun st =>
  match List.find (fun d => String.eqb name (name_of d)) (alldevs st) with
  | Some d => Done (inr (Some (d_ptr d)), st)
  | None =>
      '(ok, g) <~ try_device name (d_globs st) ;;
      let st := Devs (alldevs st) g in
      if negb ok then Done (inr None, st)
      else
        d <~ new_if name flags description ;;
        match d with
        | None => Done (inl no_memory, st)
        | Some d => Done (inr (Some (d_ptr d)), with_alldevs st (insert_dev d (alldevs st)))
        end
  end.

Definition pcap_add_if {Op : Opener} (name : string) (flags : Z) (description : option string) : lister (option Z) :=
  add_or_find_if name flags description.

(** ** Addresses *)

(** [get_sa_len] (fad-getad.c) *)
Definition get_sa_len (sa : list byte) : Z :=
  let family := le_combine (firstn 2 sa) in
  if family =? 2 then 16 else if family =? 10 then 28 else if family =? 17 then 20 else 16.

(** A copy in memory of its own, [None] without memory. *)
Definition dup_sockaddr (sa : list byte) (sa_length : Z) : sys (option (Z * list byte)) :=
  p <~ call (Malloc sa_length) ;;
  if p =? 0 then Done None
  else if lenZ sa <? sa_length then Wrong M_outside else Done (Some (p, firstn (Z.to_nat sa_length) sa)).
(** The copy of an address that may be missing; [None] without memory. *)
Definition dup_opt (sa : option (list byte)) (len : Z) : sys (option (option (Z * list byte))) :=
  match sa with
  | None => Done (Some None)
  | Some sa => r <~ dup_sockaddr sa len ;; Done (match r with None => None | Some r => Some (Some r) end)
  end.
Definition free_opt {A} (o : option (Z * A)) : sys unit := match o with Some (p, _) => call (Free p) | None => Done tt end.

Definition add_address (p : Z) (a : pcap_addr) (d : pcap_if) : pcap_if :=
  if d_ptr d =? p then If (d_ptr d) (d_name d) (d_description d) (d_addresses d ++ [a]) (d_flags d) else d.

(** The entry for the address is filled in field by field; without memory what
    has been filled in is freed. *)
Definition new_addr (addr : option (list byte)) (addr_size : Z) (netmask : option (list byte)) (netmask_size : Z)
    (broadaddr : option (list byte)) (broadaddr_size : Z) (dstaddr : option (list byte)) (dstaddr_size : Z) : sys (option pcap_addr) :=
  c <~ call (Malloc some_size) ;;
  if c =? 0 then Done None
  else
    a <~ dup_opt addr addr_size ;;
    match a with
    | None => call (Free c) ;;; Done None
    | Some a =>
        n <~ dup_opt netmask netmask_size ;;
        match n with
        | None => free_opt a ;;; call (Free c) ;;; Done None
        | Some n =>
            b <~ dup_opt broadaddr broadaddr_size ;;
            match b with
            | None => free_opt n ;;; free_opt a ;;; call (Free c) ;;; Done None
            | Some b =>
                d <~ dup_opt dstaddr dstaddr_size ;;
                match d with
                | None => free_opt b ;;; free_opt n ;;; free_opt a ;;; call (Free c) ;;; Done None
                | Some d => Done (Some (Addr c a n b d))
                end
            end
        end
    end.

Definition add_addr_to_iflist {Op : Opener} (name : string) (flags : Z) (addr : option (list byte)) (addr_size : Z)
    (netmask : option (list byte)) (netmask_size : Z) (broadaddr : option (list byte)) (broadaddr_size : Z)
    (dstaddr : option (list byte)) (dstaddr_size : Z) : lister unit := fun st =>
  '(r, st) <~ add_or_find_if name flags None st ;;
  match r with
  | inl m => Done (inl m, st)
  | inr None => Done (inr tt, st)
  | inr (Some p) =>
      a <~ new_addr addr addr_size netmask netmask_size broadaddr broadaddr_size dstaddr dstaddr_size ;;
      match a with
      | None => Done (inl no_memory, st)
      | Some a => Done (inr tt, with_alldevs st (map (add_address p a) (alldevs st)))
      end
  end.

(** ** Freeing the list *)

Definition free_addr (a : pcap_addr) : sys unit :=
  free_opt (pa_addr a) ;;; free_opt (pa_netmask a) ;;; free_opt (pa_broadaddr a) ;;; free_opt (pa_dstaddr a) ;;; call (Free (pa_ptr a)).
Fixpoint free_addrs (l : list pcap_addr) : sys unit :=
  match l with [] => Done tt | a :: l => free_addr a ;;; free_addrs l end.
Definition free_dev (d : pcap_if) : sys unit :=
  free_addrs (d_addresses d) ;;; call (Free (fst (d_name d))) ;;; free_opt (d_description d) ;;; call (Free (d_ptr d)).
Fixpoint pcap_freealldevs (l : list pcap_if) : sys unit :=
  match l with [] => Done tt | d :: l => free_dev d ;;; pcap_freealldevs l end.

(** ** [getifaddrs] *)

(** [ifa_broadaddr] and [ifa_dstaddr] are one field. *)
Definition ifa_broadaddr : ifaddrs -> option (list byte) := ifa_ifu.
Definition ifa_dstaddr : ifaddrs -> option (list byte) := ifa_ifu.

(** A colon followed by a number at the end of a name is stripped off. *)
Fixpoint strip_alias (name : string) : string :=
  match name with
  | EmptyString => EmptyString
  | String c rest =>
      if Ascii.eqb c ":" then if String.eqb (snd (span c_isdigit rest)) "" then EmptyString else name
      else String c (strip_alias rest)
  end.

Definition if_set (flags bit : Z) (sa : option (list byte)) : option (list byte) := if flags .& bit =? 0 then None else sa.
Definition size_of (sa : option (list byte)) : Z := match sa with Some a => get_sa_len a | None => 0 end.

Section Scan.
Context {Op : Opener}.

Definition add_ifaddrs (ifa : ifaddrs) : lister unit :=
  let addr := ifa_addr ifa in
  let netmask := match addr with Some _ => ifa_netmask ifa | None => None end in
  let broadaddr := if_set (ifa_flags ifa) IFF_BROADCAST (ifa_broadaddr ifa) in
  let dstaddr := if_set (ifa_flags ifa) IFF_POINTOPOINT (ifa_dstaddr ifa) in
  add_addr_to_iflist (strip_alias (ifa_name ifa)) (ifa_flags ifa) addr (size_of addr) netmask (size_of addr)
    broadaddr (size_of broadaddr) dstaddr (size_of dstaddr).

Fixpoint add_all_ifaddrs (l : list ifaddrs) : lister unit := fun st =>
  match l with
  | [] => Done (inr tt, st)
  | ifa :: l =>
      if ifa_flags ifa .& IFF_UP =? 0 then add_all_ifaddrs l st
      else
        '(r, st) <~ add_ifaddrs ifa st ;;
        match r with inl m => Done (inl m, st) | inr tt => add_all_ifaddrs l st end
  end.

(** The list of the caller is replaced, also by a list without entries. *)
Definition pcap_findalldevs_interfaces : lister unit := fun st =>
  r <~ call Getifaddrs ;;
  match r with
  | inl e => Done (inl (Message "getifaddrs: %s" [e]), st)
  | inr (ifap, l) =>
      '(r, st) <~ add_all_ifaddrs l (with_alldevs st []) ;;
      call (Freeifaddrs ifap) ;;;
      match r with
      | inl m => pcap_freealldevs (alldevs st) ;;; Done (inl m, with_alldevs st [])
      | inr tt => Done (inr tt, st)
      end
  end.

(** ** The scans of Linux *)

(** The name of an interface ends at a colon, white space or a character that
    is not ASCII: since [*p] is the colon, the loop over the digits of an
    alias never runs. *)
Definition scan_name (p : string) : string :=
  fst (span (fun c => c_isascii c && negb (c_isspace c) && negb (Ascii.eqb c ":")) p).

(** Asks for the flags of an interface, and adds it if it is up; errors that
    [gone] admits are passed over. *)
Definition add_if_up (fd : Z) (gone : Z -> bool) (name : string) : lister unit := fun st =>
  r <~ call (Ioctl fd (SIOCGIFFLAGS (ifr_name name))) ;;
  match r with
  | inl e => if gone e then Done (inr tt, st) else Done (inl (Message "SIOCGIFFLAGS: %.*s: %s" [e]), st)
  | inr flags =>
      if flags .& IFF_UP =? 0 then Done (inr tt, st)
      else
        '(r, st) <~ pcap_add_if name flags None st ;;
        Done (match r with inl m => inl m | inr _ => inr tt end, st)
  end.

Fixpoint scan_entries (fd : Z) (entries : list (string * Z)) : lister unit := fun st =>
  match entries with
  | [] => Done (inr tt, st)
  | (d_name, d_type) :: entries =>
      if String.eqb d_name "." || String.eqb d_name ".." || (d_type =? DT_REG) then scan_entries fd entries st
      else
        ok <~ call (Lstat ("/sys/class/net/" +:+ d_name +:+ "/ifindex")) ;;
        if negb ok then scan_entries fd entries st
        else
          '(r, st) <~ add_if_up fd (fun e => (e =? ENXIO) || (e =? ENODEV)) (scan_name d_name) st ;;
          match r with inl m => Done (inl m, st) | inr tt => scan_entries fd entries st end
  end.

(** 0 if there is no such directory, 1 if it has been read. *)
Definition scan_sys_class_net : lister Z := fun st =>
  r <~ call (Opendir "/sys/class/net") ;;
  match r with
  | inl e => if e =? ENOENT then Done (inr 0, st) else Done (inl (Message "Can't open /sys/class/net: %s" [e]), st)
  | inr dir =>
      r <~ call (OpenSocket AF_INET SOCK_DGRAM) ;;
      match r with
      | inl e => call (Closedir (dir_ptr dir)) ;;; Done (inl (Message "socket: %s" [e]), st)
      | inr fd =>
          '(r, st) <~ scan_entries fd (dir_entries dir) st ;;
          call (Close fd) ;;;
          call (Closedir (dir_ptr dir)) ;;;
          Done (match r with
                | inl m => inl m
                | inr tt => if dir_errno dir =? 0 then inr 1 else inl (Message "Error reading /sys/class/net: %s" [dir_errno dir])
                end, st)
      end
  end.

(** The first two pieces that [fgets] gives are passed over. *)
Fixpoint scan_lines (fd linenum : Z) (chunks : list string) : lister unit := fun st =>
  match chunks with
  | [] => Done (inr tt, st)
  | linebuf :: chunks =>
      let p := snd (span (fun c => c_isascii c && c_isspace c) linebuf) in
      if (linenum <=? 2) || String.eqb p "" then scan_lines fd (linenum + 1) chunks st
      else
        '(r, st) <~ add_if_up fd (fun e => e =? ENXIO) (scan_name p) st ;;
        match r with inl m => Done (inl m, st) | inr tt => scan_lines fd (linenum + 1) chunks st end
  end.

Definition scan_proc_net_dev : lister Z := fun st =>
  r <~ call (Fopen "/proc/net/dev") ;;
  match r with
  | inl e => if e =? ENOENT then Done (inr 0, st) else Done (inl (Message "Can't open /proc/net/dev: %s" [e]), st)
  | inr f =>
      r <~ call (OpenSocket AF_INET SOCK_DGRAM) ;;
      match r with
      | inl e => call (Fclose (s_ptr f)) ;;; Done (inl (Message "socket: %s" [e]), st)
      | inr fd =>
          '(r, st) <~ scan_lines fd 1 (s_chunks f) st ;;
          call (Close fd) ;;;
          call (Fclose (s_ptr f)) ;;;
          Done (match r, s_error f with
                | inl m, _ => inl m
                | inr tt, Some e => inl (Message "Error reading /proc/net/dev: %s" [e])
                | inr tt, None => inr 0
                end, st)
      end
  end.

Definition any_descr := "Pseudo-device that captures on all interfaces".

Definition pcap_platform_finddevs : lister unit := fun st =>
  '(r, st) <~ scan_sys_class_net st ;;
  match r with
  | inl m => Done (inl m, st)
  | inr ret =>
      '(r, st) <~ (if ret =? 0 then scan_proc_net_dev st else Done (inr 0, st)) ;;
      match r with
      | inl m => Done (inl m, st)
      | inr _ =>
          '(r, st) <~ pcap_add_if "any" 0 (Some any_descr) st ;;
          Done (match r with inl m => inl m | inr _ => inr tt end, st)
      end
  end.

(** ** USB buses *)

Definition usb_dev_add (n : Z) : lister unit := fun st =>
  '(r, st) <~ pcap_add_if (snprintf 10 (USB_IFACE +:+ fmt_d n)) 0 (Some (snprintf 30 ("USB bus number " +:+ fmt_d n))) st ;;
  Done (match r with inl m => inl m | inr _ => inr tt end, st).

(** [sscanf] stores nothing at the end of the string, but does not return 0
    then: [n] is what it was before. *)
Fixpoint scan_sys_usb (n : Z) (entries : list (string * Z)) : lister unit := fun st =>
  match entries with
  | [] => Done (inr tt, st)
  | (name, _) :: entries =>
      match after_prefix "usb" name with
      | None => scan_sys_usb n entries st
      | Some rest =>
          let '(k, l) := sscanf [Conv_d] rest in
          if k =? 0 then scan_sys_usb n entries st
          else
            let n := match l with Int i :: _ => i | _ => n end in
            '(r, st) <~ usb_dev_add n st ;;
            match r with inl m => Done (inl m, st) | inr tt => scan_sys_usb n entries st end
      end
  end.

(** The digits at the end of a name.  If there is nothing else the code looks
    at the byte before the name, which holds the type of the entry and is no
    digit. *)
Fixpoint last_digits (name : string) : string :=
  match name with
  | EmptyString => EmptyString
  | String c rest => if String.eqb (snd (span c_isdigit name)) "" then name else last_digits rest
  end.
Fixpoint scan_proc_usb (entries : list (string * Z)) : lister unit := fun st =>
  match entries with
  | [] => Done (inr tt, st)
  | (name, _) :: entries =>
      let digits := last_digits name in
      if String.eqb digits "" then scan_proc_usb entries st
      else
        match sscanf [Conv_d] digits with
        | (1, [Int n]) =>
            '(r, st) <~ usb_dev_add n st ;;
            match r with inl m => Done (inl m, st) | inr tt => scan_proc_usb entries st end
        | _ => scan_proc_usb entries st
        end
  end.

Definition usb_findalldevs : lister unit := fun st =>
  stray <~ call (StrayWords 1) ;;
  r <~ call (Opendir "/sys/bus/usb/devices") ;;
  match r with
  | inr dir =>
      '(r, st) <~ scan_sys_usb (hd 0 stray) (dir_entries dir) st ;;
      call (Closedir (dir_ptr dir)) ;;; Done (r, st)
  | inl _ =>
      r <~ call (Opendir "/proc/bus/usb") ;;
      match r with
      | inr dir =>
          '(r, st) <~ scan_proc_usb (dir_entries dir) st ;;
          call (Closedir (dir_ptr dir)) ;;; Done (r, st)
      | inl _ => Done (inr tt, st)
      end
  end.

(** ** All devices *)

(** [can_findalldevs] adds nothing. *)
Definition pcap_findalldevs : lister unit := fun st =>
  let fail_freeing m st := pcap_freealldevs (alldevs st) ;;; Done (inl m, with_alldevs st []) in
  '(r, st) <~ pcap_findalldevs_interfaces st ;;
  match r with
  | inl m => Done (inl m, st)
  | inr tt =>
      '(r, st) <~ pcap_platform_finddevs st ;;
      match r with
      | inl m => fail_freeing m st
      | inr tt =>
          let '(_, st) := can_findalldevs st in
          '(r, st) <~ usb_findalldevs st ;;
          match r with inl m => fail_freeing m st | inr tt => Done (inr tt, st) end
      end
  end.

Definition IF_NAMESIZE : nat := 16.

(** The first device of the list, unless it is a loopback device. *)
Definition pcap_lookupdev (g : globals) : sys ((message + string) * globals) :=
  '(r, st) <~ pcap_findalldevs (Devs [] g) ;;
  match r with
  | inl m => Done (inl m, d_globs st)
  | inr tt =>
      let ret :=
        match alldevs st with
        | d :: _ => if is_loopback d then inl (Message "no suitable device found" []) else inr (String.substring 0 IF_NAMESIZE (name_of d))
        | [] => inl (Message "no suitable device found" [])
        end in
      pcap_freealldevs (alldevs st) ;;; Done (ret, d_globs st)
  end.

End Scan.

(** ** The network of a device *)

(** The classes of addresses, as the system's headers test a number in the
    order of the machine. *)
Definition IN_CLASSA (a : Z) : bool := a .& 0x80000000 =? 0.
Definition IN_CLASSB (a : Z) : bool := a .& 0xc0000000 =? 0x80000000.
Definition IN_CLASSC (a : Z) : bool := a .& 0xe0000000 =? 0xc0000000.
Definition IN_CLASSA_NET := 0xff000000.
Definition IN_CLASSB_NET := 0xffff0000.
Definition IN_CLASSC_NET := 0xffffff00.

(** [strstr(s, word) != NULL] *)
Definition contains (word s : string) : bool := match String.index 0 word s with Some _ => true | None => false end.

(** From the two numbers the system gives, in network order, on. *)
Definition net_and_mask (net mask : Z) : message + Z * Z :=
  let and_mask mask := inr (net .& mask, mask) in
  if negb (mask =? 0) then and_mask mask
  else if IN_CLASSA net then and_mask IN_CLASSA_NET
  else if IN_CLASSB net then and_mask IN_CLASSB_NET
  else if IN_CLASSC net then and_mask IN_CLASSC_NET
  else inl (Message "inet class for 0x%x unknown" [net]).

(** [None] is a [NULL] device. *)
Definition pcap_lookupnet (device : option string) : sys (message + Z * Z) :=
  match device with
  | None => Done (inr (0, 0))
  | Some device =>
      if String.eqb device "any" || contains USB_IFACE device then Done (inr (0, 0))
      else
        r <~ call (OpenSocket AF_INET SOCK_DGRAM) ;;
        match r with
        | inl e => Done (inl (Message "socket: %s" [e]))
        | inr fd =>
            r <~ call (Ioctl fd (SIOCGIFADDR (ifr_name device))) ;;
            match r with
            | inl e =>
                call (Close fd) ;;;
                Done (inl (if e =? EADDRNOTAVAIL then Message "%s: no IPv4 address assigned" [] else Message "SIOCGIFADDR: %s: %s" [e]))
            | inr net =>
                r <~ call (Ioctl fd (SIOCGIFNETMASK (ifr_name device))) ;;
                match r with
                | inl e => call (Close fd) ;;; Done (inl (Message "SIOCGIFNETMASK: %s: %s" [e]))
                | inr mask => call (Close fd) ;;; Done (net_and_mask net mask)
                end
            end
        end
  end.

(** ** What the server asks for ([server/main.cpp])

    [listAllDevice] prints the names, and does not free the list. *)
Definition listAllDevice {Op : Opener} (g : globals) : sys ((message + list string) * globals) :=
  '(r, st) <~ pcap_findalldevs (Devs [] g) ;;
  Done (match r with inl m => inl m | inr tt => inr (map name_of (alldevs st)) end, d_globs st).

Definition SNIFF_DEVICE := "lo".
Definition BUFSIZ := 8192.

(** How [pcapServer] gets on before it compiles its filter: the ends of the
    process and of the function, in which the handle is not closed, or the open
    handle with the network and the mask. *)
Inductive server_start := Exits (m : message) | No_device | No_ethernet (o : opened) | Listens (o : opened) (net mask : Z).
Definition open_server {Op : Opener} (g : globals) : sys (server_start * globals) :=
  '(r, g) <~ listAllDevice g ;;
  match r with
  | inl m => Done (Exits m, g)
  | inr _ =>
      '(r, g) <~ open_live SNIFF_DEVICE BUFSIZ 1 1000 g ;;
      match r with
      | inl _ => Done (No_device, g)
      | inr o =>
          if negb (linktype (l_p (lx (o_live o))) =? DLT_EN10MB) then Done (No_ethernet o, g)
          else
            r <~ pcap_lookupnet (Some SNIFF_DEVICE) ;;
            Done (match r with inl _ => Listens o 0 0 | inr (net, mask) => Listens o net mask end, g)
      end
  end.
