(* ===== verification/DevicesSpec.v ===== *)
(** The list of devices: it is sorted, each device is in it once, and its
    memory is what has been allocated for it and not given back, whatever the
    system answers and whoever tries the devices; the three kinds of captures
    keep the promise it relies on; and what [pcap_findalldevs] lists. *)
From stdpp Require Import gmap strings sorting.
From AAC_tactics Require Import AAC.
From AAC_tactics Require Instances.
From stdpp Require Import gmap strings.
From S2P Require Import Prelude CString CFile Bpf Datalink PcapInt Savefile Pcap LinuxInt GenConst LinuxSys LinuxIface LinuxActivate LinuxOs.
From S2P Require Import LinuxIfaceSpec LinuxActivateSpec LinuxOpenSpec LinuxCapture Scanf LinuxBus LinuxBusSpec Devices.
Import Instances.Lists.

#[local] Open Scope Z_scope.
#[local] Open Scope c_scope.

(** ** Order *)

(** Loopback interfaces last, then by the number of the instance. *)
Definition dev_le (d e : pcap_if) : Prop :=
  is_loopback d = false /\ is_loopback e = true \/
  is_loopback d = is_loopback e /\ get_instance (name_of d) <= get_instance (name_of e).

#[export] Instance dev_le_trans : Transitive dev_le.
Proof. intros d e f [[? ?]|[? ?]] [[? ?]|[? ?]]; unfold dev_le; [congruence|left; split; congruence|left; split; congruence|right; split; [congruence|lia]]. Qed.

Lemma goes_before_le d e : goes_before (is_loopback d) (get_instance (name_of d)) e = true -> dev_le d e.
Proof.
  unfold goes_before, dev_le. destruct (is_loopback d), (is_loopback e); cbn; rewrite ?andb_true_r, ?andb_false_r, ?orb_false_r; intros Hb; try done;
    try (right; split; [done|]; apply Z.ltb_lt in Hb; lia); by left.
Qed.
Lemma goes_after_le d e : goes_before (is_loopback d) (get_instance (name_of d)) e = false -> dev_le e d.
Proof.
  unfold goes_before, dev_le. destruct (is_loopback d), (is_loopback e); cbn; rewrite ?andb_true_r, ?andb_false_r, ?orb_false_r; intros Hb; try done;
    try (right; split; [done|]; apply Z.ltb_ge in Hb; lia); by left.
Qed.

Lemma insert_perm d l : insert_dev d l ≡ₚ d :: l.
Proof. induction l as [|e l IH]; [done|]. cbn. destruct (goes_before _ _ e); [done|]. rewrite IH. by apply perm_swap. Qed.

Lemma insert_sorted d l : StronglySorted dev_le l -> StronglySorted dev_le (insert_dev d l).
Proof.
  induction 1 as [|e l Hl IH He]; [by repeat constructor|]. cbn. destruct (goes_before _ _ e) eqn:Hb.
  - apply goes_before_le in Hb. constructor; [by constructor|]. constructor; [done|]. eapply Forall_impl; [exact He|]. intros f. by transitivity e.
  - constructor; [done|]. rewrite insert_perm. constructor; [by apply goes_after_le|done].
Qed.

(** A list of devices: in order, and each of them once. *)
Record list_ok (l : list pcap_if) : Prop := ListOk {
  lk_sorted : StronglySorted dev_le l;
  lk_names : NoDup (map name_of l) }.

Lemma list_ok_nil : list_ok [].
Proof. by split; constructor. Qed.
Lemma list_ok_insert d l : name_of d ∉ map name_of l -> list_ok l -> list_ok (insert_dev d l).
Proof. intros Hn [Hs Hd]. split; [by apply insert_sorted|]. rewrite insert_perm. cbn. by constructor. Qed.
Lemma list_ok_map f l : (forall d, name_of (f d) = name_of d /\ d_flags (f d) = d_flags d) -> list_ok l -> list_ok (map f l).
Proof.
  intros Hf [Hs Hn]. split.
  - induction Hs as [|d l Hl IH Hd]; [constructor|]. cbn. apply NoDup_cons in Hn as [_ Hn]. constructor; [by apply IH|].
    apply Forall_map. eapply Forall_impl; [exact Hd|]. intros e. cbn. unfold dev_le, is_loopback.
    destruct (Hf d) as [-> ->], (Hf e) as [-> ->]. done.
  - rewrite map_map. erewrite map_ext; [exact Hn|]. intros d. apply Hf.
Qed.

(** ** Memory *)

Definition addr_ptrs (a : pcap_addr) : list Z :=
  pa_ptr a :: opt_ptr (pa_addr a) ++ opt_ptr (pa_netmask a) ++ opt_ptr (pa_broadaddr a) ++ opt_ptr (pa_dstaddr a).
Definition if_ptrs (d : pcap_if) : list Z :=
  d_ptr d :: fst (d_name d) :: opt_ptr (d_description d) ++ concat (map addr_ptrs (d_addresses d)).
Definition list_ptrs (l : list pcap_if) : list Z := concat (map if_ptrs l).

#[export] Instance permutation_lift {A} : AAC_lift (@Permutation A) (@Permutation A) := @aac_lift_proper _ _ _ _ _.

Lemma list_ptrs_perm l l' : l ≡ₚ l' -> list_ptrs l ≡ₚ list_ptrs l'.
Proof. unfold list_ptrs. induction 1; cbn [map concat]; [done|by f_equiv|aac_reflexivity|by etrans]. Qed.

Lemma cons_is_app {A} (x : A) l : x :: l = [x] ++ l.
Proof. done. Qed.

(** Goals about pieces of memory in another order. *)
Ltac perm_go :=
  unfold addr_ptrs, if_ptrs, list_ptrs in *; cbn [map concat app opt_ptr fst snd d_ptr d_name d_description d_addresses pa_ptr pa_addr pa_netmask pa_broadaddr pa_dstaddr] in *;
  repeat match goal with |- context [?x :: ?l] => lazymatch l with [] => fail | _ => rewrite (cons_is_app x l) end end;
  aac_reflexivity.

(** ** The calls *)

Section Calls.
Context (bad : misuse -> Prop) (s0 : os).

Definition some_live : live := pcap_create_interface "" 0 (Globals false []).

(** The rules for a body are rules for the calls. *)
Lemma al_call {X} (c : sysE X) (Q : X -> os -> Prop) s :
  wp bad (sys_call c) (fun (r : unit + X) _ s' => match r with inr x => Q x s' | inl _ => True end) some_live s -> always bad (call c) Q s.
Proof using. intros Hc. exact Hc. Qed.

Lemma al_quiet {X} (c : sysE X) (Q : X -> os -> Prop) s F H : quiet_call c = true -> holds s0 s F H [] ->
  (forall x s', answers c s x s' -> holds s0 s' F H [] -> Q x s') -> always bad (call c) Q s.
Proof using.
  intros Hc Hh HQ. apply al_call, wp_quiet_call; [done|]. intros x s' Hx Hs. apply HQ; [done|]. by eapply holds_same.
Qed.
Lemma al_malloc n (Q : Z -> os -> Prop) s F H : holds s0 s F H [] ->
  Q 0 s -> (forall p s', 0 < p -> holds s0 s' F (p :: H) [] -> Q p s') -> always bad (call (Malloc n)) Q s.
Proof using. intros Hh H0 H1. apply al_call. eapply wp_malloc; [exact Hh|exact H0|]. intros p s' Hp Hs _. by apply H1. Qed.
Lemma al_strdup t (Q : Z -> os -> Prop) s F H : holds s0 s F H [] ->
  Q 0 s -> (forall p s', 0 < p -> holds s0 s' F (p :: H) [] -> Q p s') -> always bad (call (Strdup t)) Q s.
Proof using. exact (al_malloc 0 Q s F H). Qed.
Lemma al_free p H' (Q : unit -> os -> Prop) s F H : holds s0 s F H [] -> H ≡ₚ p :: H' ->
  (forall s', holds s0 s' F H' [] -> Q tt s') -> always bad (call (Free p)) Q s.
Proof using. intros Hh Hp HQ. apply al_call. eapply wp_free; [exact Hh|exact Hp|]. intros s' Hs _. by apply HQ. Qed.
Lemma al_free_opt {A} (o : option (Z * A)) H' (Q : unit -> os -> Prop) s F H : holds s0 s F H [] -> H ≡ₚ opt_ptr o ++ H' ->
  (forall s', holds s0 s' F H' [] -> Q tt s') -> always bad (free_opt o) Q s.
Proof using.
  intros Hh Hp HQ. destruct o as [[p a]|]; [eapply al_free; [exact Hh|exact Hp|exact HQ]|]. apply HQ. exact (holds_reorder _ _ _ _ _ _ _ _ (Permutation_refl _) Hp (Permutation_refl _) Hh).
Qed.
Lemma al_socket d t (Q : Z + Z -> os -> Prop) s F H : holds s0 s F H [] ->
  (forall e, 0 < e -> Q (inl e) s) -> (forall f s', holds s0 s' (f :: F) H [] -> Q (inr f) s') -> always bad (call (OpenSocket d t)) Q s.
Proof using. intros Hh H0 H1. apply al_call. eapply wp_socket; [exact Hh|exact H0|]. intros f s' _ _ Hs _. by apply H1. Qed.
Lemma al_close f (Q : option Z -> os -> Prop) s F H : holds s0 s (f :: F) H [] ->
  (forall r s', holds s0 s' F H [] -> Q r s') -> always bad (call (Close f)) Q s.
Proof using. intros Hh HQ. apply al_call. eapply wp_close; [exact Hh|done|]. intros r s' Hs _. by apply HQ. Qed.

(** A directory, a stream and a list of addresses are memory while they are
    open. *)
Lemma holds_take s F H p s' : holds s0 s F H [] -> takes s p s' -> holds s0 s' F (p :: H) [].
Proof using. intros [Hs Hh Hm] (_ & Hn & ->). split; [done|by apply owned_add|done]. Qed.
Lemma holds_freed s F H H' p : holds s0 s F H [] -> H ≡ₚ p :: H' -> p ∈ heap s /\ holds s0 (with_heap s (heap s ∖ {[p]})) F H' [].
Proof using.
  intros [Hs Hh Hm] Hp. apply (owned_perm _ _ _ _ Hp) in Hh. split; [eapply owned_in; [exact Hh|left]|].
  split; [done|by apply owned_del|done].
Qed.
Lemma al_opendir path (Q : Z + dirstream -> os -> Prop) s F H : holds s0 s F H [] ->
  (forall e, 0 < e -> Q (inl e) s) -> (forall d s', holds s0 s' F (dir_ptr d :: H) [] -> Q (inr d) s') -> always bad (call (Opendir path)) Q s.
Proof using.
  intros Hh H0 H1. apply al_call, wp_call; [done|]. intros [e|d] s'; cbn; [intros [? ->]; by apply H0|]. intros Ht. by eapply H1, holds_take.
Qed.
Lemma al_fopen path (Q : Z + stream -> os -> Prop) s F H : holds s0 s F H [] ->
  (forall e, 0 < e -> Q (inl e) s) -> (forall f s', holds s0 s' F (s_ptr f :: H) [] -> Q (inr f) s') -> always bad (call (Fopen path)) Q s.
Proof using.
  intros Hh H0 H1. apply al_call, wp_call; [done|]. intros [e|d] s'; cbn; [intros [? ->]; by apply H0|]. intros Ht. by eapply H1, holds_take.
Qed.
Lemma al_getifaddrs (Q : Z + (Z * list ifaddrs) -> os -> Prop) s F H : holds s0 s F H [] ->
  (forall e, 0 < e -> Q (inl e) s) -> (forall p l s', Forall ifaddrs_ok l -> holds s0 s' F (p :: H) [] -> Q (inr (p, l)) s') ->
  always bad (call Getifaddrs) Q s.
Proof using.
  intros Hh H0 H1. apply al_call, wp_call; [done|]. intros [e|[p l]] s'; cbn; [intros [? ->]; by apply H0|]. intros [Ht Hl]. eapply H1; [done|]. by eapply holds_take.
Qed.
Lemma al_closedir p H' (Q : unit -> os -> Prop) s F H : holds s0 s F H [] -> H ≡ₚ p :: H' ->
  (forall s', holds s0 s' F H' [] -> Q tt s') -> always bad (call (Closedir p)) Q s.
Proof using. intros Hh Hp HQ. destruct (holds_freed _ _ _ _ _ Hh Hp). apply al_call, wp_call; [done|]. intros [] s' ->. by apply HQ. Qed.
Lemma al_fclose p H' (Q : unit -> os -> Prop) s F H : holds s0 s F H [] -> H ≡ₚ p :: H' ->
  (forall s', holds s0 s' F H' [] -> Q tt s') -> always bad (call (Fclose p)) Q s.
Proof using. exact (al_closedir p H' Q s F H). Qed.
Lemma al_freeifaddrs p H' (Q : unit -> os -> Prop) s F H : holds s0 s F H [] -> H ≡ₚ p :: H' ->
  (forall s', holds s0 s' F H' [] -> Q tt s') -> always bad (call (Freeifaddrs p)) Q s.
Proof using. exact (al_closedir p H' Q s F H). Qed.
End Calls.

(** ** Adding to the list *)

(** The laws of who tries devices: what it takes and does not give back is
    [Lost], what it says of a device is an [Answer]. *)
Class OpenerOk {Op : Opener} (bad : misuse -> Prop) (Lost : list Z -> Prop) (Answer : string -> bool -> Prop) : Prop := {
  lost_nil : Lost [];
  lost_app a b : Lost a -> Lost b -> Lost (a ++ b);
  try_ok name g s : -1 ∉ maps s ->
    always bad (try_device name g) (fun '(ok, _) s' => Answer name ok /\ exists lost, Lost lost /\ holds s s' [] lost []) s }.

Lemma holds_on s0 s s' F H F' H' : holds s0 s F H [] -> holds s s' F' H' [] -> holds s0 s' (F' ++ F) (H' ++ H) [].
Proof.
  assert (Hown : forall base cur l (cur' : gset Z) l', owned base cur l -> owned cur cur' l' -> owned base cur' (l' ++ l)).
  { intros base cur l cur' l' (Hn & Hd & ->) (Hn' & Hd' & ->). split_and!.
    - apply NoDup_app. split; [done|]. split; [|done]. intros p Hp Hl. apply (Hd' p Hp). rewrite elem_of_union, elem_of_list_to_set. by left.
    - intros p [Hp|Hp]%elem_of_app; [|by apply Hd]. specialize (Hd' p Hp). set_solver.
    - rewrite list_to_set_app_L. set_solver. }
  intros [A1 A2 A3] [B1 B2 B3]. split; [by eapply Hown..|]. destruct A3 as (_ & _ & E). rewrite E, list_to_set_nil, union_empty_l_L in B3. exact B3.
Qed.
Lemma holds_maps s0 s F H : holds s0 s F H [] -> maps s = maps s0.
Proof. intros [_ _ (_ & _ & ->)]. set_solver. Qed.

Section Adding.
Context (bad : misuse -> Prop) (Lost : list Z -> Prop) (Answer : string -> bool -> Prop) {Op : Opener} {OpOk : OpenerOk bad Lost Answer}.
Context (s0 : os) (Hmaps : -1 ∉ maps s0).

(** The list [l] and its memory; besides it [F] and [H] are held. *)
Record listed (F H : list Z) (l : list pcap_if) (s : os) : Prop := Listed {
  li_holds : exists lost, Lost lost /\ holds s0 s F (list_ptrs l ++ lost ++ H) [];
  li_ok : list_ok l }.

(** A new entry holds what has been allocated for it. *)
Lemma new_if_wp name flags descr s F H : holds s0 s F H [] ->
  always bad (new_if name flags descr) (fun r s' =>
    match r with
    | None => holds s0 s' F H []
    | Some d => holds s0 s' F (if_ptrs d ++ H) [] /\ name_of d = name /\ d_addresses d = [] /\
                is_loopback d = negb (flags .& IFF_LOOPBACK =? 0) /\ option_map snd (d_description d) = descr
    end) s.
Proof using.
  intros Hh. unfold new_if. apply always_bind. eapply al_malloc; [exact Hh|exact Hh|]. intros p s1 Hp H1.
  destruct (Z.eqb_spec p 0) as [?|_]; [lia|]. apply always_bind. eapply al_strdup; [exact H1| |].
  { cbn [Z.eqb]. apply always_bind. eapply al_free; [exact H1|done|]. by intros s2 H2. }
  intros n s2 Hn H2. destruct (Z.eqb_spec n 0) as [?|_]; [lia|].
  assert (Hloop : forall a b c e, is_loopback (If a b c e (if flags .& IFF_LOOPBACK =? 0 then 0 else PCAP_IF_LOOPBACK)) = negb (flags .& IFF_LOOPBACK =? 0))
    by (intros; unfold is_loopback; cbn; by destruct (flags .& IFF_LOOPBACK =? 0)).
  destruct descr as [text|].
  - apply always_bind. eapply al_strdup; [exact H2| |].
    + cbn [Z.eqb]. apply always_bind. eapply al_free; [exact H2|done|]. intros s3 H3. apply always_bind. eapply al_free; [exact H3|done|].
      by intros s4 H4.
    + intros t s3 Ht H3. destruct (Z.eqb_spec t 0) as [?|_]; [lia|]. split; [|done].
      eapply holds_reorder; [..|exact H3]; [done| |done]. perm_go.
  - split; [|done]. eapply holds_reorder; [..|exact H2]; [done| |done]. perm_go.
Qed.

Lemma listed_try name g l s F H : listed F H l s ->
  always bad (try_device name g) (fun '(ok, _) s' => Answer name ok /\ listed F H l s') s.
Proof using OpOk Hmaps.
  intros [(lost & Hl & Hh) Hok]. eapply always_weaken; [|apply try_ok].
  - intros [ok g'] s' (Ha & lost' & Hl' & Hh'). split; [done|]. split; [|done]. exists (lost' ++ lost). split; [by apply lost_app|].
    eapply holds_reorder; [..|exact (holds_on _ _ _ _ _ _ _ Hh Hh')]; [done| |done]. perm_go.
  - by rewrite (holds_maps _ _ _ _ Hh).
Qed.

(** What [add_or_find_if] does to the list: nothing, or a new entry. *)
Definition found (name : string) (flags : Z) (l : list pcap_if) (r : option Z) (l' : list pcap_if) : Prop :=
  match r with
  | None => name ∉ map name_of l /\ Answer name false /\ l' = l
  | Some p =>
      exists d, d_ptr d = p /\ name_of d = name /\
        (d ∈ l /\ l' = l \/
         name ∉ map name_of l /\ Answer name true /\ d_addresses d = [] /\ is_loopback d = negb (flags .& IFF_LOOPBACK =? 0) /\ l' = insert_dev d l)
  end.

Lemma find_name name l :
  match List.find (fun d => String.eqb name (name_of d)) l with
  | Some d => d ∈ l /\ name_of d = name
  | None => name ∉ map name_of l
  end.
Proof using.
  destruct (List.find _ l) eqn:E.
  - apply List.find_some in E as [Hin E]. apply String.eqb_eq in E. by rewrite list_elem_of_In.
  - intros (d & -> & Hd)%list_elem_of_fmap. rewrite list_elem_of_In in Hd. eapply List.find_none in E; [|exact Hd]. by rewrite String.eqb_refl in E.
Qed.

Lemma listed_insert F H d l s s1 : listed F H l s -> name_of d ∉ map name_of l ->
  (forall G, holds s0 s F G [] -> holds s0 s1 F (if_ptrs d ++ G) []) -> listed F H (insert_dev d l) s1.
Proof using.
  intros [(lost & Hl & Hh) Hok] Hn Hs. split; [|by apply list_ok_insert]. exists lost. split; [done|].
  eapply holds_reorder; [..|exact (Hs _ Hh)]; [done| |done]. rewrite (list_ptrs_perm _ _ (insert_perm d l)). unfold list_ptrs. cbn [map concat].
  by rewrite <- app_assoc.
Qed.

Lemma add_or_find_wp name flags descr st s F H : listed F H (alldevs st) s ->
  always bad (add_or_find_if name flags descr st) (fun '(r, st') s' => listed F H (alldevs st') s' /\
    match r with inl _ => alldevs st' = alldevs st | inr r => found name flags (alldevs st) r (alldevs st') end) s.
Proof using OpOk Hmaps.
  intros Hl. unfold add_or_find_if. pose proof (find_name name (alldevs st)) as Hfind.
  destruct (List.find _ _) as [d|]; [destruct Hfind; split; [done|]; exists d; by split_and!; [..|left]|].
  apply always_bind. eapply always_weaken; [|by apply listed_try]. intros [ok g] s1 [Ha Hl1]. destruct ok; cbn [negb]; [|done].
  apply always_bind. destruct Hl1 as [(lost & Hlost & Hh) Hok]. eapply always_weaken; [|by apply new_if_wp].
  intros [d|] s2; [|by intros Hh2; split; [split; [exists lost|]|]]. intros (Hh2 & Hn & Hd & Hloop & _). split.
  - cbn [alldevs with_alldevs]. split; [|apply list_ok_insert; [by rewrite Hn|done]]. exists lost. split; [done|].
    eapply holds_reorder; [..|exact Hh2]; [done| |done]. rewrite (list_ptrs_perm _ _ (insert_perm d (alldevs st))). unfold list_ptrs.
    cbn [map concat]. by rewrite <- app_assoc.
  - exists d. split; [done|]. split; [done|]. by right.
Qed.

(** ** Adding an address *)

(** An entry that has nothing yet, and holds nothing else. *)
Lemma dup_opt_wp sa n s F H : (forall a, sa = Some a -> n <= lenZ a) -> holds s0 s F H [] ->
  always bad (dup_opt sa n) (fun r s' =>
    match r with
    | None => holds s0 s' F H []
    | Some o => holds s0 s' F (opt_ptr o ++ H) [] /\ option_map snd o = option_map (firstn (Z.to_nat n)) sa
    end) s.
Proof using.
  intros Hn Hh. destruct sa as [a|]; [|done]. cbn [dup_opt]. unfold dup_sockaddr. do 2 apply always_bind.
  eapply al_malloc; [exact Hh|done|]. intros p s1 Hp H1. destruct (Z.eqb_spec p 0) as [?|_]; [lia|]. specialize (Hn a eq_refl).
  destruct (Z.ltb_spec (lenZ a) n); [lia|]. by split.
Qed.

Lemma new_addr_wp addr an mask mn broad bn dst dn s F H :
  (forall a, addr = Some a -> an <= lenZ a) -> (forall a, mask = Some a -> mn <= lenZ a) ->
  (forall a, broad = Some a -> bn <= lenZ a) -> (forall a, dst = Some a -> dn <= lenZ a) -> holds s0 s F H [] ->
  always bad (new_addr addr an mask mn broad bn dst dn) (fun r s' =>
    match r with
    | None => holds s0 s' F H []
    | Some a => holds s0 s' F (addr_ptrs a ++ H) [] /\
        option_map snd (pa_addr a) = option_map (firstn (Z.to_nat an)) addr /\ option_map snd (pa_netmask a) = option_map (firstn (Z.to_nat mn)) mask /\
        option_map snd (pa_broadaddr a) = option_map (firstn (Z.to_nat bn)) broad /\ option_map snd (pa_dstaddr a) = option_map (firstn (Z.to_nat dn)) dst
    end) s.
Proof using.
  intros A1 A2 A3 A4 Hh. unfold new_addr. apply always_bind. eapply al_malloc; [exact Hh|done|]. intros c s1 Hc H1.
  destruct (Z.eqb_spec c 0) as [?|_]; [lia|].
  assert (Hend : forall s' H', holds s0 s' F H' [] -> H' ≡ₚ c :: H -> always bad (sbind (call (Free c)) (fun _ => Done None))
    (fun (r : option pcap_addr) s' => match r with None => holds s0 s' F H [] | Some a => holds s0 s' F (addr_ptrs a ++ H) [] /\
        option_map snd (pa_addr a) = option_map (firstn (Z.to_nat an)) addr /\ option_map snd (pa_netmask a) = option_map (firstn (Z.to_nat mn)) mask /\
        option_map snd (pa_broadaddr a) = option_map (firstn (Z.to_nat bn)) broad /\ option_map snd (pa_dstaddr a) = option_map (firstn (Z.to_nat dn)) dst end) s').
  { intros s' H' Hs' Hp. apply always_bind. eapply al_free; [exact Hs'|exact Hp|]. by intros s'' Hs''. }
  apply always_bind. eapply always_weaken; [|by apply dup_opt_wp]. intros [a|] s2; [|intros H2; by eapply Hend]. intros [H2 Ea].
  apply always_bind. eapply always_weaken; [|by apply dup_opt_wp]. intros [m|] s3.
  2: { intros H3. apply always_bind. eapply al_free_opt; [exact H3|done|]. intros s4 H4. by eapply Hend. }
  intros [H3 Em]. apply always_bind. eapply always_weaken; [|by apply dup_opt_wp]. intros [b|] s4.
  2: { intros H4. apply always_bind. eapply al_free_opt; [exact H4|done|]. intros s5 H5. apply always_bind.
       eapply al_free_opt; [exact H5|done|]. intros s6 H6. by eapply Hend. }
  intros [H4 Eb]. apply always_bind. eapply always_weaken; [|by apply dup_opt_wp]. intros [d|] s5.
  2: { intros H5. apply always_bind. eapply al_free_opt; [exact H5|done|]. intros s6 H6. apply always_bind.
       eapply al_free_opt; [exact H6|done|]. intros s7 H7. apply always_bind. eapply al_free_opt; [exact H7|done|]. intros s8 H8. by eapply Hend. }
  intros [H5 Ed]. split; [|done]. eapply holds_reorder; [..|exact H5]; [done| |done]. perm_go.
Qed.

(** The entry is found again by its address. *)
Lemma ptrs_nodup l : NoDup (list_ptrs l) -> NoDup (map d_ptr l).
Proof using.
  induction l as [|d l IH]; [constructor|]. cbn [map]. change (list_ptrs (d :: l)) with (if_ptrs d ++ list_ptrs l).
  intros (Hd & Hdl & Hl)%NoDup_app. constructor; [|by apply IH]. intros (e & He & Hin)%list_elem_of_fmap.
  apply (Hdl (d_ptr d)); [left|]. rewrite He. unfold list_ptrs. apply list_elem_of_In, in_concat. exists (if_ptrs e).
  split; [by apply in_map, list_elem_of_In|left; done].
Qed.

Lemma add_address_ptrs p a l d : NoDup (map d_ptr l) -> d ∈ l -> d_ptr d = p ->
  list_ptrs (map (add_address p a) l) ≡ₚ addr_ptrs a ++ list_ptrs l.
Proof using.
  induction l as [|e l IH]; [by intros _ ?%elem_of_nil|]. cbn [map]. intros [He Hn]%NoDup_cons Hin <-.
  change (list_ptrs (?x :: ?t)) with (if_ptrs x ++ list_ptrs t). unfold add_address at 1. apply elem_of_cons in Hin as [<-|Hin].
  - rewrite Z.eqb_refl. rewrite (map_ext_in _ id), map_id; [|intros e Hine; unfold add_address; destruct (Z.eqb_spec (d_ptr e) (d_ptr d)) as [E|E]; [|done]].
    + unfold if_ptrs. cbn [d_ptr d_name d_description d_addresses]. rewrite map_app, concat_app. perm_go.
    + destruct He. rewrite <- E. by apply list_elem_of_In, in_map.
  - destruct (Z.eqb_spec (d_ptr e) (d_ptr d)) as [E|E]; [destruct He; rewrite E; apply list_elem_of_fmap; by exists d|]. rewrite (IH Hn Hin eq_refl). perm_go.
Qed.

Lemma listed_nodup F H l s : listed F H l s -> NoDup (map d_ptr l).
Proof using. intros [(lost & _ & [_ (Hn & _) _]) _]. apply ptrs_nodup. by apply NoDup_app in Hn as (Hn & _). Qed.

(** The four addresses, as they are copied. *)
Definition copied (a : pcap_addr) (addr : option (list byte)) (an : Z) (mask : option (list byte)) (mn : Z)
    (broad : option (list byte)) (bn : Z) (dst : option (list byte)) (dn : Z) : Prop :=
  option_map snd (pa_addr a) = option_map (firstn (Z.to_nat an)) addr /\ option_map snd (pa_netmask a) = option_map (firstn (Z.to_nat mn)) mask /\
  option_map snd (pa_broadaddr a) = option_map (firstn (Z.to_nat bn)) broad /\ option_map snd (pa_dstaddr a) = option_map (firstn (Z.to_nat dn)) dst.

Lemma add_addr_wp name flags addr an mask mn broad bn dst dn st s F H :
  (forall a, addr = Some a -> an <= lenZ a) -> (forall a, mask = Some a -> mn <= lenZ a) ->
  (forall a, broad = Some a -> bn <= lenZ a) -> (forall a, dst = Some a -> dn <= lenZ a) -> listed F H (alldevs st) s ->
  always bad (add_addr_to_iflist name flags addr an mask mn broad bn dst dn st) (fun '(r, st') s' => listed F H (alldevs st') s' /\
    match r with
    | inl _ => True
    | inr _ => exists r l, found name flags (alldevs st) r l /\ NoDup (map d_ptr l) /\
        match r with
        | None => alldevs st' = l
        | Some p => exists a, copied a addr an mask mn broad bn dst dn /\ alldevs st' = map (add_address p a) l
        end
    end) s.
Proof using OpOk Hmaps.
  intros A1 A2 A3 A4 Hl. unfold add_addr_to_iflist. apply always_bind. eapply always_weaken; [|by apply add_or_find_wp].
  intros [r st1] s1 [Hl1 Hr]. destruct r as [m|[p|]]; [done| |].
  - apply always_bind. pose proof (listed_nodup _ _ _ _ Hl1) as Hnd. destruct Hl1 as [(lost & Hlost & Hh) Hok].
    eapply always_weaken; [|by apply (new_addr_wp addr an mask mn broad bn dst dn)]. intros [a|] s2; [|intros H2; split; [split; [by exists lost|done]|done]].
    intros (H2 & Hc). pose proof Hr as (d & Hp & Hname & Hd).
    assert (Hin : d ∈ alldevs st1).
    { destruct Hd as [[Hin ->]|(_ & _ & _ & _ & ->)]; [done|]. rewrite insert_perm. left. }
    cbn [alldevs with_alldevs]. split.
    + split; [|apply list_ok_map; [intros e; unfold add_address; destruct (d_ptr e =? p); by split|done]]. exists lost. split; [done|].
      eapply holds_reorder; [..|exact H2]; [done| |done]. cbn [alldevs with_alldevs].
      rewrite (add_address_ptrs p a _ d Hnd Hin Hp). by rewrite <- app_assoc.
    + exists (Some p), (alldevs st1). split; [done|]. split; [done|]. by exists a.
  - split; [done|]. exists None, (alldevs st1). split; [done|]. split; [by eapply listed_nodup|done].
Qed.
End Adding.

(** ** Memory that a computation does not know of

    It does the same where more memory is allocated, and leaves that alone. *)

Definition plus (s : os) (x : Z) : os := with_heap s ({[x]} ∪ heap s).

Lemma permitted_plus bad {X} (c : sysE X) s x : permitted bad c s -> permitted bad c (plus s x).
Proof. intros [Ha|Hb]; [left|by right]. destruct c; cbn in *; try done; set_solver. Qed.

Lemma takes_plus s x p s' : takes (plus s x) p s' -> exists s1, takes s p s1 /\ s' = plus s1 x /\ (x ∉ heap s -> x ∉ heap s1).
Proof.
  intros (Hp & Hn & ->). cbn in Hn. exists (with_heap s ({[p]} ∪ heap s)). split; [split_and!; [done|set_solver|done]|].
  split; [unfold plus, with_heap; cbn; f_equal; set_solver|]. cbn. set_solver.
Qed.

Lemma take_result s x p s' : x ∉ heap s -> takes (plus s x) p s' -> exists s1, takes s p s1 /\ s' = plus s1 x /\ x ∉ heap s1.
Proof. intros Hx Ht. destruct (takes_plus _ _ _ _ Ht) as (s1 & H1 & H2 & H3). exists s1. auto. Qed.
Lemma allocate_result s x p s' : x ∉ heap s -> allocates (plus s x) p s' -> exists s1, allocates s p s1 /\ s' = plus s1 x /\ x ∉ heap s1.
Proof.
  intros Hx [[-> ->]|Ht]; [exists s; by split; [left|]|]. destruct (take_result _ _ _ _ Hx Ht) as (s1 & H1 & H2 & H3). exists s1. by split; [right|].
Qed.
Lemma drop_result s x p s' : x ∉ heap s -> p ∈ heap s -> s' = with_heap (plus s x) (heap (plus s x) ∖ {[p]}) ->
  exists s1, s1 = with_heap s (heap s ∖ {[p]}) /\ s' = plus s1 x /\ x ∉ heap s1.
Proof.
  intros Hx Hp ->. eexists. split; [done|]. unfold plus, with_heap. cbn. split; [f_equal; set_solver|set_solver].
Qed.

Lemma ioctl_plus {X} (r : ioctl X) s x v s' : ioctl_answers r (plus s x) v s' -> exists s1, ioctl_answers r s v s1 /\ s' = plus s1 x /\ heap s1 = heap s.
Proof.
  destruct r; cbn; intros H; try (destruct H as [H ->]; by exists s); try (subst s'; by exists s).
  - subst s'. by exists (with_ifflags s flags).
  - subst s'. by exists (with_iwmode s mode).
  - destruct H as [->| ->]; [by exists s; split; [left|]|exists (with_iwmode s IW_MODE_MONITOR); by split; [right|]].
Qed.

(** What the system answers beside more memory, it answers without. *)
Lemma answers_plus bad {X} (c : sysE X) s x v s' : permitted bad c s -> x ∉ heap s -> answers c (plus s x) v s' ->
  exists s1, answers c s v s1 /\ s' = plus s1 x /\ x ∉ heap s1.
Proof.
  intros Hc Hx Ha.
  assert (Hdrop : forall p, (allowed c s -> p ∈ heap s) -> match c with Close _ | Munmap _ _ => False | _ => True end -> p ∈ heap s).
  { intros p Hp Hn. destruct Hc as [Hc|[(_ & fd & Hc & _)|[_ Hc]]]; [by apply Hp|by destruct c..]. }
  destruct c; cbn in Ha |- *; try (subst s'; by exists s); try (destruct Ha as [-> Ha]; by exists s); try (destruct Ha as [Ha ->]; by exists s).
  all: try (apply allocate_result; assumption).
  all: try (apply drop_result; [done|by apply Hdrop|done]).
  - destruct v as [e|fd]; [destruct Ha as [He ->]; by exists s|]. destruct Ha as (H1 & H2 & ->).
    by exists (with_socks s (<[fd := Sock type 0]> (socks s))).
  - subst s'. by exists (with_socks s (delete fd (socks s))).
  - destruct v as [e|r0]; [destruct Ha as [He ->]; by exists s|]. destruct Ha as [Hs Hr]. destruct (ioctl_plus _ _ _ _ _ Hr) as (s1 & H1 & -> & E).
    exists s1. by rewrite E.
  - destruct v as [e|]; [destruct Ha as [He ->]; by exists s|]. destruct Ha as (k & Hk & ->).
    destruct o; try (exists s; split; [by exists k|done]). exists (with_socks s (<[fd := Sock (s_type k) n]> (socks s))). split; [by exists k|done].
  - destruct v as [e|fd]; [destruct Ha as [He ->]; by exists s|]. destruct Ha as (H1 & H2 & ->).
    by exists (with_socks s (<[fd := Sock 0 0]> (socks s))).
  - destruct v as [e|d]; [destruct Ha as [He ->]; by exists s|]. by apply take_result.
  - destruct v as [e|d]; [destruct Ha as [He ->]; by exists s|]. by apply take_result.
  - destruct v as [e|[p l]]; [destruct Ha as [He ->]; by exists s|]. destruct Ha as [Ht Hl].
    destruct (take_result _ _ _ _ Hx Ht) as (s1 & H1 & H2 & H3). by exists s1.
  - destruct v as [e|p]; [destruct Ha as [He ->]; by exists s|]. destruct Ha as (H1 & H2 & H3 & H4 & ->).
    by exists (with_maps s ({[p]} ∪ maps s)).
  - subst s'. by exists (with_maps s (maps s ∖ {[p]})).
Qed.

Lemma always_plus {A} bad (m : sys A) (Q : A -> os -> Prop) s x : x ∉ heap s -> always bad m Q s ->
  always bad m (fun a s' => exists s1, s' = plus s1 x /\ x ∉ heap s1 /\ Q a s1) (plus s x).
Proof.
  revert s. induction m as [a|X c k IH|u]; intros s Hx; [by exists s| |done]. intros [Hc Hk]. split; [by apply permitted_plus|].
  intros v s' Ha. destruct (answers_plus _ _ _ _ _ _ Hc Hx Ha) as (s1 & H1 & -> & Hx1). apply IH; [done|by apply Hk].
Qed.

(** ** Closing what has been opened *)

Section Closing.
Context (bad : misuse -> Prop) (Hbad : bad M_closed) (Hun : bad M_unmapped).

(** Closing the handle gives back everything since [s0], but for what has been
    lost. *)
Definition gives_back (s0 : os) (h : live) (s : os) : Prop :=
  wp bad cleanup_op (fun _ _ s' => exists lost, holds s0 s' [] lost []) h s.

Lemma common_gives_back s0 h s : cleanup_m (meths h) = Pcap_cleanup_live_common -> m_device h = None ->
  emptied h /\ holds s0 s [] [] [] \/ (exists h0, 0 <= fd h /\ fd h ∉ dom (socks s0) /\ held s0 h0 [] [] [] h s) \/ (exists h0, 0 <= fd h /\ held s0 h0 [fd h] [] [] h s) ->
  gives_back s0 h s.
Proof using Hbad Hun.
  intros Hm Hd Hh. unfold gives_back, cleanup_op. do 2 wp_step. unfold id. rewrite Hm. apply wp_run.
  destruct Hh as [[[Eb Ed Et Em Ef] Hh]|[(h0 & Hp & Hn & Hh)|(h0 & Hp & Hh)]].
  - eapply wp_mono_post; [apply (cleanup_live_common_wp bad s0 h [] [] [] h s)|].
    + split; try done. unfold non_neg, non_null. rewrite Eb, Ed, Hd. by destruct (Z.leb_spec 0 (fd h)); [lia|].
    + intros r h' s' (H' & _). rewrite Hd in H'. by exists [].
  - eapply wp_mono_post; [by apply (cleanup_closed_wp bad s0 h0 [] [] [] h s); [..|apply not_elem_of_nil|]|].
    intros r h' s' (H' & _). rewrite Hd in H'. by exists [].
  - eapply wp_mono_post; [apply (cleanup_live_common_wp bad s0 h0 [] [] [] h s)|].
    + by rewrite non_neg_one.
    + intros r h' s' (H' & _). rewrite Hd in H'. by exists [].
Qed.

Lemma mapped_gives_back s0 h0 h s : cleanup_m (meths h) = Usb_cleanup_linux_mmap -> m_device h = None -> 0 <= fd h -> 0 < mmapbuf (md (lx h)) ->
  held s0 h0 [fd h] [] [mmapbuf (md (lx h))] h s -> gives_back s0 h s.
Proof using.
  intros Hm Hd Hf Hmap Hh. unfold gives_back, cleanup_op. do 2 wp_step. unfold id. rewrite Hm. apply wp_run. unfold usb_cleanup_linux_mmap. do 3 wp_step.
  unfold unless_null. destruct (Z.eqb_spec (mmapbuf (md (lx h))) 0); [lia|]. wp_step. destruct Hh as [H1 H2 H3 H4].
  eapply wp_munmap; [exact H1|]. intros s1 Hs1 _. wp_step. apply wp_run.
  eapply wp_mono_post; [apply (cleanup_live_common_wp bad s0 h0 [] [] [])|].
  - cbn [fd with_lx]. rewrite non_neg_one by done. by split.
  - intros r h' s' (H' & _). cbn in H'. rewrite Hd in H'. by exists [].
Qed.

(** Opening ends in a handle that can be closed. *)
Lemma activate_by_wp t h s : fresh h -> cleanup_m (meths h) = Pcap_cleanup_live_common -> opt_rfmon (lopt h) = 0 -> -1 ∉ maps s ->
  wp bad (activate_by (activate_op t)) (fun _ h' s' => gives_back s h' s') h s.
Proof using Hbad Hun.
  intros Hf Hc Hr Hmaps.
  assert (Hbus : forall op, wp bad op (fun r h' s' => match r with inl v | inr v => bus_result s h v h' s' end) h s ->
    wp bad (activate_by op) (fun _ h' s' => gives_back s h' s') h s).
  { intros op Hop. unfold activate_by. do 2 wp_step. rewrite (fr_activated _ Hf). wp_step. apply wp_run.
    eapply wp_mono_post; [exact Hop|]. intros r h1 s1 Hr1.
    assert (Hb : bus_result s h (match r with inl v => v | inr v => v end) h1 s1) by by destruct r. clear Hr1.
    set (v := match r with inl v => v | inr v => v end) in *. clearbody v. destruct Hb as [Hd [[Hv Hb]|(-> & Hfd & Hb)]].
    - destruct (Z.leb_spec 0 v); [lia|]. repeat wp_step.
      set (h2 := with_meths (match errbuf h1 with Some _ => h1 | None => with_errbuf h1 _ end) _).
      assert (E : cleanup_m (meths h2) = Pcap_cleanup_live_common /\ m_device h2 = None /\ fd h2 = fd h1 /\ same_held h1 h2 /\ (emptied h1 -> emptied h2)).
      { unfold h2. destruct (errbuf h1); (split; [done|]; split; [done|]; split; [done|]; split; [done|]; by intros []). }
      destruct E as (E1 & E2 & E3 & E4 & E5). apply common_gives_back; [done|done|]. destruct Hb as [[He Hh]|(Hp & Hn & Hh)]; [left; auto|right; left].
      exists h. rewrite E3. split; [done|]. split; [done|]. by eapply held_same; [exact E4|apply same_res_refl|].
    - cbn [Z.leb Z.compare]. do 3 wp_step. destruct Hb as [[Hm Hh]|(Hm & Hmap & Hh)].
      + apply common_gives_back; [done|done|]. right; right. exists h. split; [done|]. by apply held_lx.
      + eapply (mapped_gives_back s h); [done|done|done|exact Hmap|]. by eapply held_same; [..|exact Hh]. }
  destruct t; cbn [activate_op].
  - apply Hbus. by apply can_activate_wp.
  - apply Hbus. by apply usb_activate_wp.
  - eapply wp_mono_post; [by apply (activate_live_wp bad s h)|]. intros r h1 s1 Hr1.
    assert (Hr2 : activated_result s h (match r with inl v => v | inr v => v end) h1 s1) by by destruct r. clear Hr1.
    unfold gives_back. eapply wp_mono_post; [by eapply cleanup_op_wp|]. intros r2 h2 s2 (left & lost & [->|(_ & _ & Hrf & _)] & _ & Hh & _); [by exists lost|by destruct Hrf].
Qed.
End Closing.

(** ** Trying a device *)

Lemma plus_minus s x : x ∉ heap s -> with_heap (plus s x) (heap (plus s x) ∖ {[x]}) = s.
Proof. intros Hx. destruct s as [a b c d e]. unfold plus, with_heap. cbn in *. f_equal. set_solver. Qed.
Lemma takes_is_plus s p s' : takes s p s' -> s' = plus s p /\ p ∉ heap s /\ 0 < p.
Proof. by intros (Hp & Hn & ->). Qed.

Lemma malloc_plus bad n (Q : Z -> os -> Prop) s : Q 0 s -> (forall p, 0 < p -> p ∉ heap s -> Q p (plus s p)) -> always bad (call (Malloc n)) Q s.
Proof. intros H0 H1. split; [by left|]. intros p s' [[-> ->]|Ht]; [done|]. apply takes_is_plus in Ht as (-> & Hp & Hp0). by apply H1. Qed.
Lemma strdup_plus bad t (Q : Z -> os -> Prop) s : Q 0 s -> (forall p, 0 < p -> p ∉ heap s -> Q p (plus s p)) -> always bad (call (Strdup t)) Q s.
Proof. exact (malloc_plus bad 0 Q s). Qed.
Lemma free_plus bad p (Q : unit -> os -> Prop) s : p ∉ heap s -> Q tt s -> always bad (call (Free p)) Q (plus s p).
Proof.
  intros Hp HQ. split; [left; cbn; set_solver|]. intros [] s' ->. by rewrite plus_minus.
Qed.

Section Trying.
Context (bad : misuse -> Prop) (Hbad : bad M_closed) (Hun : bad M_unmapped) (s0 : os) (Hmaps : -1 ∉ maps s0).

(** What a function leaves when it returns. *)
Definition returned {A} (_ : A) (s : os) : Prop := exists lost, holds s0 s [] lost [].

Lemma close_wp o s : gives_back bad s0 (o_live o) s -> o_self o ∉ heap s -> o_source o ∉ heap (plus s (o_self o)) ->
  always bad (pcap_close o) returned (plus (plus s (o_self o)) (o_source o)).
Proof using.
  intros Hg Hp Hn. unfold pcap_close. apply always_bind, free_plus; [done|]. apply always_bind. unfold gives_back, wp in Hg.
  eapply always_weaken; [|eapply (always_plus bad _ _ s (o_self o) Hp Hg)]. intros [r h] s1 (s2 & -> & Hp2 & Hs2). apply always_bind.
  by apply free_plus.
Qed.

Lemma open_live_wp name snaplen promisc to_ms g : 0 < snaplen <= 2 ^ 31 - 4096 ->
  always bad (open_live name snaplen promisc to_ms g) (fun '(r, _) s' =>
    match r with
    | inl _ => exists lost, holds s0 s' [] lost []
    | inr o => exists s1, s' = plus (plus s1 (o_self o)) (o_source o) /\ gives_back bad s0 (o_live o) s1 /\ o_self o ∉ heap s1 /\
                          o_source o ∉ heap (plus s1 (o_self o))
    end) s0.
Proof using Hbad Hun Hmaps.
  intros Hsnap. assert (Hnone : exists lost, holds s0 s0 [] lost []) by (exists []; apply holds_start).
  unfold open_live, pcap_create. do 2 apply always_bind. apply malloc_plus; [exact Hnone|]. intros p Hp0 Hp.
  destruct (Z.eqb_spec p 0) as [?|_]; [lia|]. apply always_bind. apply strdup_plus.
  { cbn [Z.eqb]. apply always_bind. by apply free_plus. }
  intros n Hn0 Hn. destruct (Z.eqb_spec n 0) as [?|_]; [lia|].
  cbn [o_type o_live always]. set (h := with_settings _ _ _ _). apply always_bind.
  assert (Hfresh : fresh h) by (split; try done; split; cbn; lia).
  eapply always_weaken.
  2: { apply always_plus; [exact Hn|]. apply always_plus; [exact Hp|]. by apply (activate_by_wp bad Hbad Hun (source_type_of name) h s0). }
  intros [r h1] s3 (s4 & -> & Hn4 & s5 & -> & Hp5 & Hg).
  set (status := match r with inl v | inr v => v end). destruct (status <? 0).
  - apply always_bind. eapply always_weaken; [|by apply (close_wp (Opened p n (source_type_of name) h1))]. by intros g' s6 H6.
  - by exists s5.
Qed.

Lemma try_device_wp name g : always bad (capture_opener name g) returned s0.
Proof using Hbad Hun Hmaps.
  unfold capture_opener, try_open. apply always_bind. eapply always_weaken; [|by apply open_live_wp]. intros [[v|o] g1] s1; [done|].
  intros (s2 & -> & Hg & Hp & Hn). apply always_bind. eapply always_weaken; [|by apply close_wp]. by intros g2 s3 H3.
Qed.
End Trying.

(** The promise to the list of devices: a descriptor may be closed twice, and
    something may be lost. *)
#[export] Instance capture_opener_ok : OpenerOk (Op := capture_opener) (fun u => u = M_closed \/ u = M_unmapped) (fun _ => True) (fun _ _ => True).
Proof.
  split; [done|done|]. intros name g s Hm. eapply always_weaken; [|by apply (try_device_wp (fun u => u = M_closed \/ u = M_unmapped) (or_introl eq_refl) (or_intror eq_refl) s Hm)].
  intros [ok g'] s' (lost & Hl). split; [done|]. by exists lost.
Qed.

(** ** What [getifaddrs] gives *)

Definition is_up (i : ifaddrs) : bool := negb (ifa_flags i .& IFF_UP =? 0).
Definition device_of (i : ifaddrs) : string := strip_alias (ifa_name i).
(** The addresses of a device, in order. *)
Definition of_device (name : string) (l : list ifaddrs) : list ifaddrs :=
  List.filter (fun i => is_up i && String.eqb (device_of i) name) l.

Definition cut (sa : option (list byte)) (n : Z) : option (list byte) := option_map (firstn (Z.to_nat n)) sa.
Definition netmask_of (i : ifaddrs) : option (list byte) := match ifa_addr i with Some _ => ifa_netmask i | None => None end.

(** The four addresses that the list shows. *)
Definition shown_addr (a : pcap_addr) : option (list byte) * option (list byte) * option (list byte) * option (list byte) :=
  (option_map snd (pa_addr a), option_map snd (pa_netmask a), option_map snd (pa_broadaddr a), option_map snd (pa_dstaddr a)).
Definition addr_of (i : ifaddrs) : option (list byte) * option (list byte) * option (list byte) * option (list byte) :=
  let n := size_of (ifa_addr i) in
  let b := if_set (ifa_flags i) IFF_BROADCAST (ifa_broadaddr i) in
  let d := if_set (ifa_flags i) IFF_POINTOPOINT (ifa_dstaddr i) in
  (cut (ifa_addr i) n, cut (netmask_of i) n, cut b (size_of b), cut d (size_of d)).

(** The list [l] shows the addresses [seen] of the devices that can be opened. *)
Record shows (openable : string -> bool) (seen : list ifaddrs) (l : list pcap_if) : Prop := Shows {
  sh_addresses : forall d, d ∈ l -> openable (name_of d) = true /\
    map shown_addr (d_addresses d) = map addr_of (of_device (name_of d) seen) /\
    exists i rest, of_device (name_of d) seen = i :: rest /\ is_loopback d = negb (ifa_flags i .& IFF_LOOPBACK =? 0);
  sh_devices : forall i, i ∈ seen -> is_up i = true -> openable (device_of i) = true -> device_of i ∈ map name_of l }.

Lemma of_device_app name a b : of_device name (a ++ b) = of_device name a ++ of_device name b.
Proof. apply List.filter_app. Qed.
Lemma of_device_this i : is_up i = true -> of_device (device_of i) [i] = [i].
Proof. intros Hu. unfold of_device. cbn. by rewrite Hu, String.eqb_refl. Qed.
Lemma of_device_other name i : name <> device_of i -> of_device name [i] = [].
Proof. intros Hn. unfold of_device. cbn. rewrite (proj2 (String.eqb_neq (device_of i) name)) by done. by rewrite andb_false_r. Qed.
Lemma of_device_down name i : is_up i = false -> of_device name [i] = [].
Proof. intros Hu. unfold of_device. cbn. by rewrite Hu. Qed.
Lemma of_device_none i seen : (forall j, j ∈ seen -> is_up j = true -> device_of j <> device_of i) -> of_device (device_of i) seen = [].
Proof.
  induction seen as [|j seen IH]; [done|]. intros Hj. unfold of_device in *. cbn. destruct (is_up j) eqn:Hu; cbn.
  - rewrite (proj2 (String.eqb_neq _ _)) by (apply Hj; [left|done]). apply IH. intros k Hk. apply Hj. by right.
  - apply IH. intros k Hk. apply Hj. by right.
Qed.

Lemma nodup_map_inj {A B} (f : A -> B) l x y : NoDup (map f l) -> x ∈ l -> y ∈ l -> f x = f y -> x = y.
Proof.
  induction l as [|z l IH]; [by intros _ ?%elem_of_nil|]. cbn [map]. intros [Hz Hn]%NoDup_cons Hx Hy E.
  apply elem_of_cons in Hx as [->|Hx]; apply elem_of_cons in Hy as [->|Hy]; [done| | |by apply IH].
  - destruct Hz. rewrite E. apply list_elem_of_fmap. by exists y.
  - destruct Hz. rewrite <- E. apply list_elem_of_fmap. by exists x.
Qed.

Lemma in_names d l : d ∈ l -> name_of d ∈ map name_of l.
Proof. intros Hd. apply list_elem_of_fmap. by exists d. Qed.
Lemma address_name p a d : name_of (add_address p a d) = name_of d.
Proof. unfold add_address. by destruct (_ =? _). Qed.

Section Shown.
Context (openable : string -> bool).
Notation Answer := (fun name ok => ok = openable name).

Lemma shows_down i seen l : is_up i = false -> shows openable seen l -> shows openable (seen ++ [i]) l.
Proof using.
  intros Hu [Ha Hd]. split.
  - intros d Hin. rewrite of_device_app, (of_device_down _ i), app_nil_r by done. by apply Ha.
  - intros j [Hj|Hj%list_elem_of_singleton]%elem_of_app; [by apply Hd|]. subst j. congruence.
Qed.

(** A device that cannot be opened is left out. *)
Lemma shows_closed i seen l : openable (device_of i) = false -> shows openable seen l -> shows openable (seen ++ [i]) l.
Proof using.
  intros Ho [Ha Hd]. split.
  - intros d Hin. destruct (Ha d Hin) as (Hop & Hr). split; [done|]. rewrite of_device_app, of_device_other, app_nil_r; [done|]. congruence.
  - intros j [Hj|Hj%list_elem_of_singleton]%elem_of_app; [by apply Hd|]. subst j. congruence.
Qed.

(** A new address of a device. *)
Lemma shows_added i seen l p lf a : is_up i = true -> found Answer (device_of i) (ifa_flags i) l (Some p) lf ->
  list_ok lf -> NoDup (map d_ptr lf) -> shown_addr a = addr_of i -> shows openable seen l ->
  shows openable (seen ++ [i]) (map (add_address p a) lf).
Proof using.
  intros Hu (d & Hp & Hn & Hd) [_ Hnames] Hptrs Ha [Haddr Hdev].
  assert (Hlf : d ∈ lf /\ (forall e, e ∈ lf -> e = d \/ e ∈ l) /\ (forall e, e ∈ l -> e ∈ lf)).
  { destruct Hd as [[Hd ->]|(_ & _ & _ & _ & ->)]; [by split_and!; [|right|]|]. setoid_rewrite (insert_perm d l).
    split; [left|]. split; [intros e [->|He]%elem_of_cons; [by left|by right]|by right]. }
  destruct Hlf as (Hin & Hfrom & Hto).
  assert (Hop : openable (device_of i) = true) by (destruct Hd as [[Hd _]|(_ & Ho & _)]; [rewrite <- Hn; by apply Haddr|done]).
  split.
  - intros e' (e & -> & He)%list_elem_of_fmap. rewrite address_name, of_device_app, map_app.
    unfold add_address. destruct (Z.eqb_spec (d_ptr e) p) as [E|E].
    + assert (e = d) as -> by (eapply (nodup_map_inj d_ptr); [exact Hptrs|done..|congruence]). cbn [d_addresses is_loopback d_flags]. unfold name_of; cbn [d_name].
      change (snd (d_name d)) with (name_of d). change (is_loopback (If _ _ _ _ (d_flags d))) with (is_loopback d).
      rewrite Hn, of_device_this, map_app by done. cbn [map]. rewrite Ha. split; [done|].
      destruct Hd as [[Hd _]|(Hnew & _ & Hd & Hloop & _)].
      * destruct (Haddr d Hd) as (_ & E1 & j & rest & E2 & E3). rewrite Hn in *. rewrite E1. split; [done|]. exists j, (rest ++ [i]). by rewrite E2.
      * assert (of_device (device_of i) seen = []) as ->.
        { apply of_device_none. intros j Hj Huj E1. apply Hnew. rewrite <- E1. apply Hdev; [done|done|by rewrite E1]. }
        rewrite Hd. split; [done|]. by exists i, [].
    + destruct (Hfrom e He) as [->|Hl]; [done|]. destruct (Haddr e Hl) as (H1 & H2 & H3). split; [done|].
      rewrite (of_device_other _ i), app_nil_r; [cbn [map]; by rewrite app_nil_r|]. intros En. apply E. rewrite <- Hp. f_equal.
      eapply (nodup_map_inj name_of); [exact Hnames|done..|congruence].
  - intros j Hj Huj Hoj. rewrite map_map. erewrite map_ext; [|intros e; apply address_name].
    apply elem_of_app in Hj as [Hj|Hj%list_elem_of_singleton].
    + specialize (Hdev j Hj Huj Hoj). apply list_elem_of_fmap in Hdev as (e & -> & He). by apply in_names, Hto.
    + subst j. rewrite <- Hn. by apply in_names.
Qed.
End Shown.

Section Scan.
Context (bad : misuse -> Prop) (Lost : list Z -> Prop) (Answer : string -> bool -> Prop) {Op : Opener} {OpOk : OpenerOk bad Lost Answer}.
Context (s0 : os) (Hmaps : -1 ∉ maps s0).
Notation listed := (listed Lost s0).

Lemma addresses_long i : ifaddrs_ok i ->
  (forall a, ifa_addr i = Some a -> size_of (ifa_addr i) <= lenZ a) /\ (forall a, netmask_of i = Some a -> size_of (ifa_addr i) <= lenZ a) /\
  (forall bit a, if_set (ifa_flags i) bit (ifa_ifu i) = Some a -> size_of (if_set (ifa_flags i) bit (ifa_ifu i)) <= lenZ a).
Proof using.
  intros [H1 H2]. split_and!.
  - intros a E. rewrite E. exact (proj1 (H1 a E)).
  - unfold netmask_of. intros m. destruct (ifa_addr i) as [a|]; [|done]. intros E. exact (proj2 (H1 a eq_refl) m E).
  - unfold if_set. intros bit a. destruct (_ =? 0); [done|]. intros E. rewrite E. exact (H2 a E).
Qed.

Lemma add_ifaddrs_wp i st s F H : ifaddrs_ok i -> listed F H (alldevs st) s ->
  always bad (add_ifaddrs i st) (fun '(r, st') s' => listed F H (alldevs st') s' /\
    match r with
    | inl _ => True
    | inr _ => exists r l, found Answer (device_of i) (ifa_flags i) (alldevs st) r l /\ NoDup (map d_ptr l) /\
        match r with
        | None => alldevs st' = l
        | Some p => exists a, shown_addr a = addr_of i /\ alldevs st' = map (add_address p a) l
        end
    end) s.
Proof using OpOk Hmaps.
  intros Hi Hl. destruct (addresses_long i Hi) as (A1 & A2 & A3). unfold add_ifaddrs. eapply always_weaken; [|eapply add_addr_wp; eauto].
  - intros [r st'] s' [Hl' Hr]. split; [done|]. destruct r as [m|u]; [done|]. destruct Hr as (r & l & Hf & Hn & Hr). exists r, l. split; [done|].
    split; [done|]. destruct r as [p|]; [|done]. destruct Hr as (a & (E1 & E2 & E3 & E4) & Hr). exists a. split; [|done].
    unfold shown_addr, addr_of, cut. by rewrite E1, E2, E3, E4.
Qed.

Lemma add_all_wp l st s F H : Forall ifaddrs_ok l -> listed F H (alldevs st) s ->
  always bad (add_all_ifaddrs l st) (fun '(r, st') s' => listed F H (alldevs st') s') s.
Proof using OpOk Hmaps.
  intros Hok. revert st s. induction Hok as [|i l Hi _ IH]; intros st s Hl; cbn [add_all_ifaddrs]; [done|].
  destruct (_ =? 0); [by apply IH|]. apply always_bind. eapply always_weaken; [|by apply add_ifaddrs_wp].
  intros [[m|[]] st1] s1 [Hl1 _]; [done|]. by apply IH.
Qed.

(** ** Freeing *)

Lemma free_addrs_wp l s F H G : holds s0 s F G [] -> G ≡ₚ concat (map addr_ptrs l) ++ H ->
  always bad (free_addrs l) (fun _ s' => holds s0 s' F H []) s.
Proof using.
  revert s G. induction l as [|a l IH]; intros s G Hh Hp; cbn [free_addrs].
  - exact (holds_reorder _ _ _ _ _ _ _ _ (Permutation_refl _) Hp (Permutation_refl _) Hh).
  - apply always_bind. unfold free_addr. cbn [map concat] in Hp. set (rest := concat _) in *.
    apply always_bind.
    eapply (al_free_opt _ _ _ (opt_ptr (pa_netmask a) ++ opt_ptr (pa_broadaddr a) ++ opt_ptr (pa_dstaddr a) ++ pa_ptr a :: rest ++ H));
      [exact Hh|etrans; [exact Hp|perm_go]|]. intros s1 H1.
    do 3 (apply always_bind; eapply al_free_opt; [eassumption|done|]; intros ? ?).
    eapply al_free; [eassumption|done|]. intros s5 H5. eapply IH; [exact H5|done].
Qed.

Lemma freealldevs_wp l s F H G : holds s0 s F G [] -> G ≡ₚ list_ptrs l ++ H ->
  always bad (pcap_freealldevs l) (fun _ s' => holds s0 s' F H []) s.
Proof using.
  revert s G. induction l as [|d l IH]; intros s G Hh Hp; cbn [pcap_freealldevs].
  - exact (holds_reorder _ _ _ _ _ _ _ _ (Permutation_refl _) Hp (Permutation_refl _) Hh).
  - apply always_bind. unfold free_dev. change (list_ptrs (d :: l)) with (if_ptrs d ++ list_ptrs l) in Hp. unfold if_ptrs in Hp. set (rest := list_ptrs l) in *.
    apply always_bind. eapply always_weaken; [|eapply (free_addrs_wp _ _ F (d_ptr d :: fst (d_name d) :: opt_ptr (d_description d) ++ rest ++ H)); [exact Hh|]].
    2: { etrans; [exact Hp|]. generalize (concat (map addr_ptrs (d_addresses d))). intros addresses. perm_go. }
    intros u s1 H1. cbn beta in H1. apply always_bind. eapply (al_free _ _ _ (d_ptr d :: opt_ptr (d_description d) ++ rest ++ H)); [exact H1|by apply perm_swap|]. intros s2 H2.
    apply always_bind. eapply (al_free_opt _ _ _ (d_ptr d :: rest ++ H)); [exact H2|perm_go|]. intros s3 H3.
    eapply al_free; [exact H3|done|]. intros s4 H4. eapply IH; [exact H4|done].
Qed.

(** ** The calls, beside a list *)

Lemma listed_quiet {X} (c : sysE X) (Q : X -> os -> Prop) s F H l : quiet_call c = true -> listed F H l s ->
  (forall x s', listed F H l s' -> Q x s') -> always bad (call c) Q s.
Proof using. intros Hc [(lost & Hl & Hh) Hok] HQ. eapply al_quiet; [done|exact Hh|]. intros x s' _ Hs. apply HQ. split; [by exists lost|done]. Qed.

Lemma perm_hold (l : list pcap_if) (lost H : list Z) p : p :: list_ptrs l ++ lost ++ H ≡ₚ list_ptrs l ++ lost ++ p :: H.
Proof using. generalize (list_ptrs l). intros a. perm_go. Qed.

Lemma listed_more F H l s s' p : (exists lost, Lost lost /\ holds s0 s' F (p :: list_ptrs l ++ lost ++ H) []) -> listed F H l s -> listed F (p :: H) l s'.
Proof using.
  intros (lost & Hl & Hh) [_ Hok]. split; [|done]. exists lost. split; [done|].
  exact (holds_reorder _ _ _ _ _ _ _ _ (Permutation_refl _) (perm_hold _ _ _ _) (Permutation_refl _) Hh).
Qed.

Lemma listed_socket d t (Q : Z + Z -> os -> Prop) s F H l : listed F H l s ->
  (forall e, Q (inl e) s) -> (forall f s', listed (f :: F) H l s' -> Q (inr f) s') -> always bad (call (OpenSocket d t)) Q s.
Proof using.
  intros [(lost & Hl & Hh) Hok] H0 H1. eapply al_socket; [exact Hh|intros e _; apply H0|]. intros f s' Hs. apply H1. split; [by exists lost|done].
Qed.
Lemma listed_close f (Q : option Z -> os -> Prop) s F H l : listed (f :: F) H l s ->
  (forall r s', listed F H l s' -> Q r s') -> always bad (call (Close f)) Q s.
Proof using. intros [(lost & Hl & Hh) Hok] HQ. eapply al_close; [exact Hh|]. intros r s' Hs. apply HQ. split; [by exists lost|done]. Qed.
Lemma listed_opendir path (Q : Z + dirstream -> os -> Prop) s F H l : listed F H l s ->
  (forall e, Q (inl e) s) -> (forall d s', listed F (dir_ptr d :: H) l s' -> Q (inr d) s') -> always bad (call (Opendir path)) Q s.
Proof using.
  intros Hli H0 H1. pose proof Hli as [(lost & Hl & Hh) _]. eapply al_opendir; [exact Hh|intros e _; apply H0|]. intros d s' Hs. apply H1.
  eapply listed_more; [by exists lost|exact Hli].
Qed.
Lemma listed_fopen path (Q : Z + stream -> os -> Prop) s F H l : listed F H l s ->
  (forall e, Q (inl e) s) -> (forall f s', listed F (s_ptr f :: H) l s' -> Q (inr f) s') -> always bad (call (Fopen path)) Q s.
Proof using.
  intros Hli H0 H1. pose proof Hli as [(lost & Hl & Hh) _]. eapply al_fopen; [exact Hh|intros e _; apply H0|]. intros d s' Hs. apply H1.
  eapply listed_more; [by exists lost|exact Hli].
Qed.
Lemma listed_closedir p (Q : unit -> os -> Prop) s F H l : listed F (p :: H) l s ->
  (forall s', listed F H l s' -> Q tt s') -> always bad (call (Closedir p)) Q s.
Proof using.
  intros [(lost & Hl & Hh) Hok] HQ. eapply al_closedir; [exact Hh|symmetry; apply perm_hold|]. intros s' Hs. apply HQ. split; [by exists lost|done].
Qed.
Lemma listed_fclose p (Q : unit -> os -> Prop) s F H l : listed F (p :: H) l s ->
  (forall s', listed F H l s' -> Q tt s') -> always bad (call (Fclose p)) Q s.
Proof using. exact (listed_closedir p Q s F H l). Qed.

(** ** The scans *)

(** A part of the search keeps the list in order and its memory together. *)
Definition keeps_list {A} (m : lister A) : Prop :=
  forall F H st s, listed F H (alldevs st) s -> always bad (m st) (fun '(_, st') s' => listed F H (alldevs st') s') s.

Lemma add_if_keeps name flags descr : keeps_list (pcap_add_if name flags descr).
Proof using OpOk Hmaps.
  intros F H st s Hl. eapply always_weaken; [|by eapply add_or_find_wp]. by intros [r st'] s' [Hl' _].
Qed.
Lemma if_up_keeps fd gone name : keeps_list (add_if_up fd gone name).
Proof using OpOk Hmaps.
  intros F H st s Hl. unfold add_if_up. apply always_bind. eapply listed_quiet; [done|exact Hl|]. intros [e|flags] s1 H1; [by destruct (gone e)|].
  destruct (_ =? 0); [done|]. apply always_bind. eapply always_weaken; [|by apply add_if_keeps]. by intros [[m|p] st1] s2 H2.
Qed.

Lemma entries_keeps fd entries : keeps_list (scan_entries fd entries).
Proof using OpOk Hmaps.
  intros F H. induction entries as [|[d_name d_type] entries IH]; intros st s Hl; cbn [scan_entries]; [done|].
  destruct (_ || _); [by apply IH|]. apply always_bind. eapply listed_quiet; [done|exact Hl|]. intros ok s1 H1. destruct ok; cbn [negb]; [|by apply IH].
  apply always_bind. eapply always_weaken; [|by apply if_up_keeps]. intros [[m|[]] st1] s2 H2; [done|by apply IH].
Qed.
Lemma lines_keeps fd n chunks : keeps_list (scan_lines fd n chunks).
Proof using OpOk Hmaps.
  intros F H. revert n. induction chunks as [|c chunks IH]; intros n st s Hl; cbn [scan_lines]; [done|].
  destruct (_ || _); [by apply IH|]. apply always_bind. eapply always_weaken; [|by apply if_up_keeps]. intros [[m|[]] st1] s2 H2; [done|by apply IH].
Qed.

Lemma sys_net_keeps : keeps_list scan_sys_class_net.
Proof using OpOk Hmaps.
  intros F H st s Hl. unfold scan_sys_class_net. apply always_bind. eapply listed_opendir; [exact Hl|intros e; by destruct (e =? ENOENT)|]. intros dir s1 H1.
  apply always_bind. eapply listed_socket; [exact H1| |].
  - intros e. apply always_bind. by eapply listed_closedir.
  - intros f s2 H2. apply always_bind. eapply always_weaken; [|by apply entries_keeps]. intros [r st1] s3 H3.
    apply always_bind. eapply listed_close; [exact H3|]. intros _ s4 H4. apply always_bind. by eapply listed_closedir.
Qed.
Lemma proc_net_keeps : keeps_list scan_proc_net_dev.
Proof using OpOk Hmaps.
  intros F H st s Hl. unfold scan_proc_net_dev. apply always_bind. eapply listed_fopen; [exact Hl|intros e; by destruct (e =? ENOENT)|]. intros f s1 H1.
  apply always_bind. eapply listed_socket; [exact H1| |].
  - intros e. apply always_bind. by eapply listed_fclose.
  - intros fd s2 H2. apply always_bind. eapply always_weaken; [|by apply lines_keeps]. intros [r st1] s3 H3.
    apply always_bind. eapply listed_close; [exact H3|]. intros _ s4 H4. apply always_bind. by eapply listed_fclose.
Qed.

Lemma platform_keeps : keeps_list pcap_platform_finddevs.
Proof using OpOk Hmaps.
  intros F H st s Hl. unfold pcap_platform_finddevs. apply always_bind. eapply always_weaken; [|by apply sys_net_keeps].
  intros [[m|ret] st1] s1 H1; [done|]. apply always_bind.
  assert (Hproc : always bad (if ret =? 0 then scan_proc_net_dev st1 else Done (inr 0, st1)) (fun '(_, st') s' => listed F H (alldevs st') s') s1)
    by (destruct (ret =? 0); [by apply proc_net_keeps|done]).
  eapply always_weaken; [|exact Hproc]. intros [[m|r] st2] s2 H2; [done|]. apply always_bind.
  eapply always_weaken; [|by apply add_if_keeps]. by intros [r3 st3] s3 H3.
Qed.

Lemma usb_dev_keeps n : keeps_list (usb_dev_add n).
Proof using OpOk Hmaps.
  intros F H st s Hl. unfold usb_dev_add. apply always_bind. eapply always_weaken; [|by apply add_if_keeps]. by intros [r3 st3] s3 H3.
Qed.
Lemma sys_usb_keeps n entries : keeps_list (scan_sys_usb n entries).
Proof using OpOk Hmaps.
  intros F H. revert n. induction entries as [|[name t] entries IH]; intros n st s Hl; cbn [scan_sys_usb]; [done|].
  destruct (after_prefix _ _) as [rest|]; [|by apply IH]. destruct (sscanf _ _) as [k l]. destruct (k =? 0); [by apply IH|].
  apply always_bind. eapply always_weaken; [|by apply usb_dev_keeps]. intros [[m|[]] st1] s2 H2; [done|by apply IH].
Qed.
Lemma proc_usb_keeps entries : keeps_list (scan_proc_usb entries).
Proof using OpOk Hmaps.
  intros F H. induction entries as [|[name t] entries IH]; intros st s Hl; cbn [scan_proc_usb]; [done|].
  destruct (String.eqb _ _); [by apply IH|]. destruct (sscanf _ _) as [k l].
  assert (Hadd : forall n, always bad (sbind (usb_dev_add n st) (fun '(r, st) => match r with inl m => Done (inl m, st) | inr tt => scan_proc_usb entries st end))
    (fun '(_, st') s' => listed F H (alldevs st') s') s).
  { intros n. apply always_bind. eapply always_weaken; [|by apply usb_dev_keeps]. intros [[m|[]] st1] s2 H2; [done|by apply IH]. }
  repeat case_match; first [by apply IH|apply Hadd].
Qed.
Lemma usb_keeps : keeps_list usb_findalldevs.
Proof using OpOk Hmaps.
  intros F H st s Hl. unfold usb_findalldevs. apply always_bind. eapply listed_quiet; [done|exact Hl|]. intros stray s1 H1.
  apply always_bind. eapply listed_opendir; [exact H1| |].
  - intros _. apply always_bind. eapply listed_opendir; [exact H1|done|]. intros dir s2 H2. apply always_bind.
    eapply always_weaken; [|by apply proc_usb_keeps]. intros [r st1] s3 H3. apply always_bind. by eapply listed_closedir.
  - intros dir s2 H2. apply always_bind. eapply always_weaken; [|by apply sys_usb_keeps]. intros [r st1] s3 H3. apply always_bind. by eapply listed_closedir.
Qed.

(** ** All devices *)

Lemma freed_list st s F H : listed F H (alldevs st) s ->
  always bad (pcap_freealldevs (alldevs st)) (fun _ s' => listed F H [] s') s.
Proof using.
  intros [(lost & Hl & Hh) _]. eapply always_weaken; [|eapply freealldevs_wp; [exact Hh|done]]. intros u s' Hs. cbn beta in Hs. split; [by exists lost|apply list_ok_nil].
Qed.

(** A list that the search gives up is freed. *)
Definition ends_listed (F H : list Z) (r : message + unit) (st : devs) (s : os) : Prop :=
  listed F H (alldevs st) s /\ forall m, r = inl m -> alldevs st = [].

Lemma interfaces_wp F H st s : alldevs st = [] -> listed F H [] s ->
  always bad (pcap_findalldevs_interfaces st) (fun '(r, st') s' => ends_listed F H r st' s') s.
Proof using OpOk Hmaps.
  intros He Hli. pose proof Hli as [(lost & Hl & Hh) _]. unfold pcap_findalldevs_interfaces. apply always_bind.
  eapply al_getifaddrs; [exact Hh|intros e _; split; by rewrite ?He|]. intros p l s1 Hok H1. apply always_bind.
  eapply always_weaken; [|eapply (add_all_wp l (with_alldevs st []) s1 F (p :: H) Hok)].
  2: { eapply listed_more; [by exists lost|exact Hli]. }
  intros [r st1] s2 H2. apply always_bind.
  eapply (listed_closedir p _ _ F H (alldevs st1)); [exact H2|]. intros s3 H3. destruct r as [m|[]].
  - apply always_bind. eapply always_weaken; [|by eapply freed_list]. intros u s4 H4. cbn beta in H4. by split.
  - by split.
Qed.

Lemma findalldevs_wp F H st s : alldevs st = [] -> listed F H [] s ->
  always bad (pcap_findalldevs st) (fun '(r, st') s' => ends_listed F H r st' s') s.
Proof using OpOk Hmaps.
  intros He Hl. unfold pcap_findalldevs. apply always_bind. eapply always_weaken; [|by apply interfaces_wp].
  intros [[m|[]] st1] s1 [H1 Hm]; [done|].
  assert (Hgive : forall m st s, listed F H (alldevs st) s ->
    always bad (sbind (pcap_freealldevs (alldevs st)) (fun _ => Done (inl m, with_alldevs st []))) (fun '(r, st') s' => ends_listed F H r st' s') s).
  { intros m st2 s2 H2. apply always_bind. eapply always_weaken; [|by eapply freed_list]. intros u s3 H3. cbn beta in H3. by split. }
  apply always_bind. eapply always_weaken; [|by apply platform_keeps]. intros [[m|[]] st2] s2 H2; [by apply Hgive|].
  cbn [can_findalldevs]. apply always_bind. eapply always_weaken; [|by apply usb_keeps]. intros [[m|[]] st3] s3 H3; [by apply Hgive|]. by split.
Qed.
End Scan.

(** C14: whatever the system answers, and whoever tries the devices,
    [pcap_findalldevs] ends with a list in which the loopback interfaces come
    last, the instances go up, and no device is twice, and with no list at all
    if it fails; [pcap_freealldevs] frees every piece of its memory once, and
    then nothing is left open or allocated but what the trying of devices has
    lost. *)
Theorem findalldevs_gives_back bad Lost Answer {Op : Opener} {OpOk : OpenerOk bad Lost Answer} g s : -1 ∉ maps s ->
  always bad (sbind (pcap_findalldevs (Devs [] g)) (fun '(r, st) => sbind (pcap_freealldevs (alldevs st)) (fun _ => Done (r, alldevs st))))
    (fun '(r, l) s' =>
       StronglySorted dev_le l /\ NoDup (map name_of l) /\ (forall m, r = inl m -> l = []) /\
       exists lost, Lost lost /\ dom (socks s') = dom (socks s) /\ heap s' = list_to_set lost ∪ heap s /\ maps s' = maps s) s.
Proof.
  intros Hm. apply always_bind.
  assert (Hl : listed Lost s [] [] [] s) by (split; [exists []; split; [apply lost_nil|apply holds_start]|apply list_ok_nil]).
  eapply always_weaken; [|by apply (findalldevs_wp bad Lost Answer s Hm [] [] (Devs [] g) s)]. intros [r st] s1 [H1 Hr]. apply always_bind.
  pose proof (li_ok _ _ _ _ _ _ H1) as [Hs Hn]. eapply always_weaken; [|by eapply freed_list]. intros u s2 [(lost & Hlost & [(_ & _ & E1) (_ & _ & E2) (_ & _ & E3)]) _].
  split; [done|]. split; [done|]. split; [done|]. exists lost. split; [done|]. cbn in E2. rewrite app_nil_r in E2. split_and!; [|done|]; set_solver.
Qed.

(** C13: from the addresses [l] that [getifaddrs] gives, the list is made of
    exactly the devices that are up and can be opened, named without their
    alias, each once and in order, with all of its addresses in the order in
    which they are given - broadcast and destination addresses if the flags
    say so -, as long as memory lasts; its memory is what has been allocated
    for it. *)
Theorem interfaces_listed bad Lost openable {Op : Opener} {OpOk : OpenerOk bad Lost (fun name ok => ok = openable name)} l g s :
  -1 ∉ maps s -> Forall ifaddrs_ok l ->
  always bad (add_all_ifaddrs l (Devs [] g)) (fun '(r, st) s' =>
    (exists lost, Lost lost /\ holds s s' [] (list_ptrs (alldevs st) ++ lost) []) /\
    StronglySorted dev_le (alldevs st) /\ NoDup (map name_of (alldevs st)) /\ (r = inr tt -> shows openable l (alldevs st))) s.
Proof.
  intros Hm Hok.
  assert (Hgo : forall seen st s1, listed Lost s [] [] (alldevs st) s1 -> shows openable seen (alldevs st) ->
    always bad (add_all_ifaddrs l st) (fun '(r, st) s' => listed Lost s [] [] (alldevs st) s' /\ (r = inr tt -> shows openable (seen ++ l) (alldevs st))) s1).
  { induction Hok as [|i l Hi _ IH]; intros seen st s1 Hl Hs; cbn [add_all_ifaddrs]; [by rewrite app_nil_r|].
    destruct (ifa_flags i .& IFF_UP =? 0) eqn:Eu.
    - eapply always_weaken; [|apply (IH (seen ++ [i])); [done|by apply shows_down; [unfold is_up; rewrite Eu|]]]. intros [r st'] s'. by rewrite <- app_assoc.
    - assert (Hu : is_up i = true) by (unfold is_up; by rewrite Eu). apply always_bind.
      eapply always_weaken; [|by eapply add_ifaddrs_wp]. intros [[m|[]] st1] s2 [Hl2 Hr]; [done|].
      destruct Hr as (r & lf & Hf & Hnd & Hr). eapply always_weaken; [|apply (IH (seen ++ [i])); [exact Hl2|]].
      { intros [r' st'] s'. by rewrite <- app_assoc. }
      destruct r as [p|].
      + destruct Hr as (a & Ha & Er). rewrite Er. eapply shows_added; try done.
        destruct Hl2 as [_ [Hs2 Hn2]]. rewrite Er in Hs2, Hn2. destruct Hf as (d & Hp & Hname & Hd). destruct Hl as [_ Hokl].
        destruct Hd as [[Hin ->]|(Hnew & _ & _ & _ & ->)]; [done|]. apply list_ok_insert; [by rewrite Hname|done].
      + destruct Hf as (_ & Hclosed & ->). rewrite Hr. by apply shows_closed. }
  eapply always_weaken; [|apply (Hgo [] (Devs [] g) s)].
  - intros [r st] s' [[(lost & Hlost & Hh) [Hs Hn]] Hr]. split; [|done]. exists lost. split; [done|]. by rewrite app_nil_r in Hh.
  - split; [exists []; split; [apply lost_nil|apply holds_start]|apply list_ok_nil].
  - split; [by intros d ?%elem_of_nil|by intros i ?%elem_of_nil].
Qed.

(** ** A system *)

(** Two Ethernets, one of them with an alias, a loopback interface, an
    interface that is down and one that cannot be opened. *)
Definition inet (a b c d : Z) : option (list byte) := Some (map byte.of_Z ([2; 0; 0; 0; a; b; c; d] ++ repeat 0 8)).
Definition host_addrs : list ifaddrs :=
  [Ifaddrs "lo" 0x49 (inet 127 0 0 1) (inet 255 0 0 0) (inet 127 0 0 1);
   Ifaddrs "eth1" 0x1043 (inet 10 1 0 1) (inet 255 255 0 0) (inet 10 1 255 255);
   Ifaddrs "eth0" 0x1043 (inet 10 0 0 1) (inet 255 255 0 0) (inet 10 0 255 255);
   Ifaddrs "ppp0" 0x1091 (inet 10 2 0 1) (inet 255 255 255 255) (inet 10 2 0 2);
   Ifaddrs "eth2" 0x1002 (inet 10 3 0 1) None None;
   Ifaddrs "eth0:1" 0x1043 (inet 10 0 0 2) None None].

Definition not_ppp (name : string) : bool := negb (String.eqb name "ppp0").
Definition plain_opener : Opener := fun name g => Done (not_ppp name, g).
#[local] Instance plain_opener_ok : OpenerOk (Op := plain_opener) (fun _ => False) (fun l => l = []) (fun name ok => ok = not_ppp name).
Proof. split; [done|by intros a b -> ->|]. intros name g s _. split; [done|]. exists []. split; [done|apply holds_start]. Qed.

Example host_devices : exists st, answered ethernet 0 (add_all_ifaddrs (Op := plain_opener) host_addrs (Devs [] (Globals false []))) = inr (inr tt, st) /\
  map name_of (alldevs st) = ["eth0"; "eth1"; "lo"]%string /\ map is_loopback (alldevs st) = [false; false; true] /\
  map (fun d => length (d_addresses d)) (alldevs st) = [2; 1; 1]%nat.
Proof. vm_compute. by eexists. Qed.

Lemma interfaces_listed_witness :
  always (fun _ => False) (add_all_ifaddrs (Op := plain_opener) host_addrs (Devs [] (Globals false []))) (fun '(r, st) s' =>
    (exists lost, lost = [] /\ holds no_os s' [] (list_ptrs (alldevs st) ++ lost) []) /\
    StronglySorted dev_le (alldevs st) /\ NoDup (map name_of (alldevs st)) /\ (r = inr tt -> shows not_ppp host_addrs (alldevs st))) no_os.
Proof.
  apply (interfaces_listed (fun _ => False) (fun l => l = []) not_ppp (Op := plain_opener) (OpOk := plain_opener_ok)); [set_solver|].
  repeat apply Forall_cons_2; try apply Forall_nil_2; (split; [intros a [= <-]; split; [|intros m [= <-]]|intros a [= <-]]; by vm_compute).
Defined.

Lemma findalldevs_gives_back_witness :
  always (fun u => u = M_closed \/ u = M_unmapped) (sbind (pcap_findalldevs (Devs [] (Globals false []))) (fun '(r, st) =>
      sbind (pcap_freealldevs (alldevs st)) (fun _ => Done (r, alldevs st))))
    (fun '(r, l) s' =>
       StronglySorted dev_le l /\ NoDup (map name_of l) /\ (forall m, r = inl m -> l = []) /\
       exists lost, True /\ dom (socks s') = dom (socks no_os) /\ heap s' = list_to_set lost ∪ heap no_os /\ maps s' = maps no_os) no_os.
Proof. apply (findalldevs_gives_back (fun u => u = M_closed \/ u = M_unmapped) (fun _ => True) (fun _ _ => True)). set_solver. Defined.
