(* ===== verification/Gencode.v ===== *)
(** [gencode.c], [gencode.h]: the flow graph the filter compiler builds, and
    the primitives that build and combine its blocks.

    Blocks live in a heap and are named by their addresses; the two branches
    of a block that is not complete yet are links to other incomplete blocks,
    as in the code. *)
From S2P Require Import Prelude Bpf BpfFilter Datalink GenConst.

#[local] Open Scope c_scope.

(** ** Blocks ([gencode.h]) *)

(** [struct slist] with its [struct stmt]; [sl_id] is its address, to which
    the branches [s.jt] and [s.jf] of block-local jumps refer. *)
Record slist := Slist { sl_id : nat; sl_code : Z; sl_k : Z; sl_jt : option nat; sl_jf : option nat }.

(** [struct block], as far as the compiler without the optimizer uses it:
    [JT(b)] is [et.succ] and [JF(b)] is [ef.succ]. *)
Record block := Block {
  b_stmts : list slist;
  b_code : Z;
  b_k : Z;
  b_jt : option nat;
  b_jf : option nat;
  b_sense : bool;
  b_head : nat;
  b_longjt : Z;
  b_longjf : Z;
  b_offset : Z }.

Abbreviation heap := (gmap nat block).

Definition with_stmts (b : block) (s : list slist) : block :=
  Block s (b_code b) (b_k b) (b_jt b) (b_jf b) (b_sense b) (b_head b) (b_longjt b) (b_longjf b)
        (b_offset b).
Definition with_jt (b : block) (t : option nat) : block :=
  Block (b_stmts b) (b_code b) (b_k b) t (b_jf b) (b_sense b) (b_head b) (b_longjt b) (b_longjf b)
        (b_offset b).
Definition with_jf (b : block) (f : option nat) : block :=
  Block (b_stmts b) (b_code b) (b_k b) (b_jt b) f (b_sense b) (b_head b) (b_longjt b) (b_longjf b)
        (b_offset b).
Definition with_sense (b : block) (s : bool) : block :=
  Block (b_stmts b) (b_code b) (b_k b) (b_jt b) (b_jf b) s (b_head b) (b_longjt b) (b_longjf b)
        (b_offset b).
Definition with_head (b : block) (h : nat) : block :=
  Block (b_stmts b) (b_code b) (b_k b) (b_jt b) (b_jf b) (b_sense b) h (b_longjt b) (b_longjf b)
        (b_offset b).

(** [b->sense = !b->sense] *)
Definition flip_sense (b : block) : block := with_sense b (negb (b_sense b)).

(** The field [sense] says is the link to the next unresolved block. *)
Definition link (b : block) : option nat := if b_sense b then b_jf b else b_jt b.
Definition with_link (b : block) (t : option nat) : block :=
  if b_sense b then with_jf b t else with_jt b t.

(** ** [backpatch] and [merge]

    Both follow the links from a block; [None] is a link to no block, or a
    list without an end, which the fuel cuts off. *)
Fixpoint backpatch (fuel : nat) (h : heap) (list : option nat) (target : nat) : option heap :=
  match list with
  | None => Some h
  | Some l =>
      match fuel, h !! l with
      | S fuel, Some b => backpatch fuel (<[l := with_link b (Some target)]> h) (link b) target
      | _, _ => None
      end
  end.

Fixpoint merge (fuel : nat) (h : heap) (b0 b1 : nat) : option heap :=
  match fuel, h !! b0 with
  | S fuel, Some b =>
      match link b with
      | Some next => merge fuel h next b1
      | None => Some (<[b0 := with_link b (Some b1)]> h)
      end
  | _, _ => None
  end.

(** ** The generator's state and errors *)

(** [G_error] is [bpf_error]; [G_abort] is [abort()]; [G_undef] is behaviour
    that C leaves undefined, for the arguments; [G_graph] is an access to a
    block, a value or an element of a table that is not there. *)
Inductive gerror := G_error (msg : string) | G_abort | G_undef | G_graph.

(** The static variables of [gencode.c] that describe the layout of a packet,
    the savefile's byte order, which [DLT_NULL] depends on, and [no_optimize];
    the [u_int] [-1] is [NONE]. *)
Definition NONE : Z := 0xffffffff.

Record layout := Layout {
  o_linktype : Z;                (* linktype *)
  off_linktype : Z;
  off_macpl : Z;
  off_macpl_is_variable : bool;
  off_nl : Z;
  off_nl_nosnap : Z;
  off_ll : Z;
  off_mac : Z;
  is_pppoes : bool;
  is_atm : bool;
  is_lane : bool;
  off_vpi : Z;
  off_vci : Z;
  off_proto : Z;
  off_payload : Z;
  off_li : Z;
  off_sio : Z;
  off_opc : Z;
  off_dpc : Z;
  off_sls : Z;
  orig_linktype : Z;
  orig_nl : Z;
  label_stack_depth : Z;
  o_swapped : bool;              (* bpf_pcap->sf.rfile != NULL && bpf_pcap->sf.swapped *)
  o_no_optimize : bool }.        (* no_optimize, as gen_protochain sets it *)

(** The scratch registers: [regused], [curreg], and the two that hold the
    lengths of variable-length headers, [-1] if none. *)
Record regs := Regs { regused : list bool; curreg : Z; reg_off_ll : Z; reg_off_macpl : Z }.

(** [init_regs], and the part of [init_linktype] about registers. *)
Definition regs0 : regs := Regs (repeat false (Z.to_nat BPF_MEMWORDS)) 0 (-1) (-1).

(** The heap, the next free address, the layout and the registers. *)
Record gst := Gst { g_heap : heap; g_next : nat; g_off : layout; g_regs : regs }.

Definition gen (A : Type) : Type := gst -> gerror + (A * gst).

Definition ret {A} (a : A) : gen A := fun s => inr (a, s).
Definition bind {A B} (g : gen A) (k : A -> gen B) : gen B :=
  fun s => match g s with inl e => inl e | inr (a, s) => k a s end.
Definition fail {A} (e : gerror) : gen A := fun _ => inl e.
Definition bpf_error {A} (msg : string) : gen A := fail (G_error msg).
Definition get_off : gen layout := fun s => inr (g_off s, s).
Definition set_off (o : layout) : gen unit :=
  fun s => inr (tt, Gst (g_heap s) (g_next s) o (g_regs s)).
Definition get_regs : gen regs := fun s => inr (g_regs s, s).
Definition set_regs (r : regs) : gen unit :=
  fun s => inr (tt, Gst (g_heap s) (g_next s) (g_off s) r).

Declare Scope gen_scope.
Notation "x <- g ;; k" := (bind g (fun x => k))
  (at level 100, g at next level, k at level 200, right associativity) : gen_scope.
Notation "g ;; k" := (bind g (fun _ => k)) (at level 100, k at level 200, right associativity) : gen_scope.
#[local] Open Scope gen_scope.

(** A change of the heap. *)
Definition on_heap (f : heap -> option heap) : gen unit :=
  fun s => match f (g_heap s) with
           | Some h => inr (tt, Gst h (g_next s) (g_off s) (g_regs s))
           | None => inl G_graph
           end.
Definition get_block (b : nat) : gen block :=
  fun s => match g_heap s !! b with Some blk => inr (blk, s) | None => inl G_graph end.
Definition update (b : nat) (f : block -> block) : gen unit :=
  on_heap (fun h => match h !! b with Some blk => Some (<[b := f blk]> h) | None => None end).

(** [new_block] and [new_stmt], which the code follows with the assignment of
    [s.k], a [bpf_int32]; the memory [newchunk] hands out is zero, and does not
    run out in the model. *)
Definition new_block (code : Z) : gen nat :=
  fun s => let p := g_next s in
           inr (p, Gst (<[p := Block [] code 0 None None false p 0 0 0]> (g_heap s)) (S p) (g_off s)
                  (g_regs s)).
Definition new_stmt (code k : Z) : gen slist :=
  fun s => inr (Slist (g_next s) code (i32 k) None None,
                Gst (g_heap s) (S (g_next s)) (g_off s) (g_regs s)).

(** Lists this long never run out of fuel: they have no block twice. *)
Definition backpatch_m (list target : nat) : gen unit :=
  on_heap (fun h => backpatch (S (base.size h)) h (Some list) target).
Definition merge_m (b0 b1 : nat) : gen unit :=
  on_heap (fun h => merge (S (base.size h)) h b0 b1).

(** ** [gen_and], [gen_or] and [gen_not] *)

Definition gen_and (b0 b1 : nat) : gen unit :=
  blk1 <- get_block b1 ;;
  backpatch_m b0 (b_head blk1) ;;
  update b0 flip_sense ;;
  update b1 flip_sense ;;
  merge_m b1 b0 ;;
  update b1 flip_sense ;;
  blk0 <- get_block b0 ;;
  update b1 (fun b => with_head b (b_head blk0)).

Definition gen_or (b0 b1 : nat) : gen unit :=
  update b0 flip_sense ;;
  blk1 <- get_block b1 ;;
  backpatch_m b0 (b_head blk1) ;;
  update b0 flip_sense ;;
  merge_m b1 b0 ;;
  blk0 <- get_block b0 ;;
  update b1 (fun b => with_head b (b_head blk0)).

Definition gen_not (b : nat) : gen unit := update b flip_sense.

(** ** Simple blocks *)

(** A block with its statements and its branch; the code sets the fields
    after [new_block]. *)
Definition set_stmts (b : nat) (s : list slist) : gen unit := update b (fun blk => with_stmts blk s).
Definition set_k (b : nat) (k : Z) : gen unit :=
  update b (fun blk => Block (b_stmts blk) (b_code blk) (i32 k) (b_jt blk) (b_jf blk) (b_sense blk)
                         (b_head blk) (b_longjt blk) (b_longjf blk) (b_offset blk)).
Definition new_branch (code : Z) (s : list slist) (k : Z) : gen nat :=
  b <- new_block code ;;
  set_stmts b s ;;
  set_k b k ;;
  ret b.

Definition gen_retblk (v : Z) : gen nat :=
  b <- new_block (BPF_RET .| BPF_K) ;;
  set_k b v ;;
  ret b.

Definition JMP (c : Z) : Z := c .| BPF_JMP .| BPF_K.

Definition gen_uncond (rsense : bool) : gen nat :=
  s <- new_stmt (BPF_LD .| BPF_IMM) (if rsense then 0 else 1) ;;
  new_branch (JMP BPF_JEQ) [s] 0.
Definition gen_true : gen nat := gen_uncond true.
Definition gen_false : gen nat := gen_uncond false.

(** ** Registers *)

(** The [while (--n >= 0)] loop. *)
Fixpoint alloc_reg_loop (n : nat) (r : regs) : option (Z * regs) :=
  match n with
  | O => None
  | S n =>
      match nthZ (regused r) (curreg r) with
      | Some true =>
          alloc_reg_loop n (Regs (regused r) ((curreg r + 1) mod BPF_MEMWORDS) (reg_off_ll r) (reg_off_macpl r))
      | _ => Some (curreg r, Regs (<[Z.to_nat (curreg r) := true]> (regused r)) (curreg r)
                              (reg_off_ll r) (reg_off_macpl r))
      end
  end.

Definition alloc_reg : gen Z :=
  r <- get_regs ;;
  match alloc_reg_loop (Z.to_nat BPF_MEMWORDS) r with
  | Some (n, r) => set_regs r ;; ret n
  | None => bpf_error "too many registers needed to evaluate expression"
  end.

Definition free_reg (n : Z) : gen unit :=
  r <- get_regs ;;
  set_regs (Regs (<[Z.to_nat n := false]> (regused r)) (curreg r) (reg_off_ll r) (reg_off_macpl r)).

(** The register for the length of the header before the link layer. *)
Definition need_off_ll : gen Z :=
  r <- get_regs ;;
  if reg_off_ll r =? -1 then
    n <- alloc_reg ;;
    r <- get_regs ;;
    set_regs (Regs (regused r) (curreg r) n (reg_off_macpl r)) ;;
    ret n
  else ret (reg_off_ll r).

(** [gen_prism_llprefixlen], [gen_avs_llprefixlen], [gen_radiotap_llprefixlen]
    and [gen_ppi_llprefixlen] have the same text. *)
Definition gen_some_llprefixlen : gen (list slist) :=
  n <- need_off_ll ;;
  s <- new_stmt (BPF_LDX .| BPF_MEM) n ;;
  ret [s].

(** Whether the radio header's length is in a register. *)
Definition has_llprefix (linktype : Z) : bool :=
  (linktype =? DLT_PRISM_HEADER) || (linktype =? DLT_IEEE802_11_RADIO_AVS) ||
  (linktype =? DLT_IEEE802_11_RADIO) || (linktype =? DLT_PPI).

(** [None] is [NULL]. *)
Definition gen_llprefixlen : gen (option (list slist)) :=
  o <- get_off ;;
  if has_llprefix (o_linktype o) then s <- gen_some_llprefixlen ;; ret (Some s)
  else ret None.

Definition gen_off_macpl : gen (option (list slist)) :=
  o <- get_off ;;
  if off_macpl_is_variable o then
    r <- get_regs ;;
    n <- (if reg_off_macpl r =? -1 then
            n <- alloc_reg ;;
            r <- get_regs ;;
            set_regs (Regs (regused r) (curreg r) (reg_off_ll r) n) ;;
            ret n
          else ret (reg_off_macpl r)) ;;
    s <- new_stmt (BPF_LDX .| BPF_MEM) n ;;
    ret (Some [s])
  else ret None.

(** ** Loads *)

Inductive e_offrel := OR_PACKET | OR_LINK | OR_MACPL | OR_NET | OR_NET_NOSNAP | OR_TRAN_IPV4 | OR_TRAN_IPV6.

(** [offset] and [size] are [u_int]s. *)
Definition gen_load_llrel (offset size : Z) : gen (list slist) :=
  o <- get_off ;;
  s <- gen_llprefixlen ;;
  match s with
  | Some s => s2 <- new_stmt (BPF_LD .| BPF_IND .| size) offset ;; ret (s ++ [s2])
  | None => s <- new_stmt (BPF_LD .| BPF_ABS .| size) (u32 (offset + off_ll o)) ;; ret [s]
  end.

Definition gen_load_macplrel (offset size : Z) : gen (list slist) :=
  o <- get_off ;;
  s <- gen_off_macpl ;;
  match s with
  | Some s => s2 <- new_stmt (BPF_LD .| BPF_IND .| size) offset ;; ret (s ++ [s2])
  | None => s <- new_stmt (BPF_LD .| BPF_ABS .| size) (u32 (off_macpl o + offset)) ;; ret [s]
  end.

Definition gen_loadx_iphdrlen : gen (list slist) :=
  o <- get_off ;;
  s <- gen_off_macpl ;;
  match s with
  | Some s =>
      s1 <- new_stmt (BPF_LD .| BPF_IND .| BPF_B) (off_nl o) ;;
      s2 <- new_stmt (BPF_ALU .| BPF_AND .| BPF_K) 0xf ;;
      s3 <- new_stmt (BPF_ALU .| BPF_LSH .| BPF_K) 2 ;;
      s4 <- new_stmt (BPF_ALU .| BPF_ADD .| BPF_X) 0 ;;
      s5 <- new_stmt (BPF_MISC .| BPF_TAX) 0 ;;
      ret (s ++ [s1; s2; s3; s4; s5])
  | None =>
      s <- new_stmt (BPF_LDX .| BPF_MSH .| BPF_B) (u32 (off_macpl o + off_nl o)) ;;
      ret [s]
  end.

Definition gen_load_a (offrel : e_offrel) (offset size : Z) : gen (list slist) :=
  o <- get_off ;;
  match offrel with
  | OR_PACKET => s <- new_stmt (BPF_LD .| BPF_ABS .| size) offset ;; ret [s]
  | OR_LINK => gen_load_llrel offset size
  | OR_MACPL => gen_load_macplrel offset size
  | OR_NET => gen_load_macplrel (u32 (off_nl o + offset)) size
  | OR_NET_NOSNAP => gen_load_macplrel (u32 (off_nl_nosnap o + offset)) size
  | OR_TRAN_IPV4 =>
      s <- gen_loadx_iphdrlen ;;
      s2 <- new_stmt (BPF_LD .| BPF_IND .| size) (u32 (off_macpl o + off_nl o + offset)) ;;
      ret (s ++ [s2])
  | OR_TRAN_IPV6 => gen_load_macplrel (u32 (off_nl o + 40 + offset)) size
  end.

(** ** Comparisons *)

(** The arguments have their C types: the callers convert. *)
Definition gen_ncmp (offrel : e_offrel) (offset size mask jtype : Z) (reverse : bool) (v : Z) : gen nat :=
  s <- gen_load_a offrel offset size ;;
  s <- (if mask =? 0xffffffff then ret s
        else s2 <- new_stmt (BPF_ALU .| BPF_AND .| BPF_K) mask ;; ret (s ++ [s2])) ;;
  b <- new_branch (JMP jtype) s v ;;
  (if reverse && ((jtype =? BPF_JGT) || (jtype =? BPF_JGE)) then gen_not b else ret tt) ;;
  ret b.

Definition gen_cmp (offrel : e_offrel) (offset size v : Z) : gen nat :=
  gen_ncmp offrel offset size 0xffffffff BPF_JEQ false v.
Definition gen_cmp_gt (offrel : e_offrel) (offset size v : Z) : gen nat :=
  gen_ncmp offrel offset size 0xffffffff BPF_JGT false v.
Definition gen_cmp_ge (offrel : e_offrel) (offset size v : Z) : gen nat :=
  gen_ncmp offrel offset size 0xffffffff BPF_JGE false v.
Definition gen_cmp_lt (offrel : e_offrel) (offset size v : Z) : gen nat :=
  gen_ncmp offrel offset size 0xffffffff BPF_JGE true v.
Definition gen_cmp_le (offrel : e_offrel) (offset size v : Z) : gen nat :=
  gen_ncmp offrel offset size 0xffffffff BPF_JGT true v.
Definition gen_mcmp (offrel : e_offrel) (offset size v mask : Z) : gen nat :=
  gen_ncmp offrel offset size mask BPF_JEQ false v.

(** [if (b != NULL) gen_and(b, tmp); b = tmp;] *)
Definition and_next (b : option nat) (tmp : nat) : gen (option nat) :=
  match b with Some b => gen_and b tmp | None => ret tt end ;;
  ret (Some tmp).

(** [gen_bcmp (offrel, offset, size, v)] for the [size] bytes [v]: words from
    the end, then a half-word, then a byte. *)
Fixpoint gen_bcmp_w (n : nat) (offrel : e_offrel) (offset : Z) (v : list byte) (b : option nat)
    : gen (option nat * list byte) :=
  match n with
  | O => ret (b, v)
  | S n =>
      let at_ := (length v - 4)%nat in
      tmp <- gen_cmp offrel (u32 (offset + Z.of_nat at_)) BPF_W (be_combine (drop at_ v)) ;;
      b <- and_next b tmp ;;
      gen_bcmp_w n offrel offset (take at_ v) b
  end.
Fixpoint gen_bcmp_h (n : nat) (offrel : e_offrel) (offset : Z) (v : list byte) (b : option nat)
    : gen (option nat * list byte) :=
  match n with
  | O => ret (b, v)
  | S n =>
      let at_ := (length v - 2)%nat in
      tmp <- gen_cmp offrel (u32 (offset + Z.of_nat at_)) BPF_H (be_combine (drop at_ v)) ;;
      b <- and_next b tmp ;;
      gen_bcmp_h n offrel offset (take at_ v) b
  end.
Definition gen_bcmp (offrel : e_offrel) (offset : Z) (v : list byte) : gen (option nat) :=
  r <- gen_bcmp_w (length v / 4) offrel offset v None ;;
  r <- gen_bcmp_h (length r.2 / 2) offrel offset r.2 r.1 ;;
  match r.2 with
  | [] => ret r.1
  | x :: _ => tmp <- gen_cmp offrel offset BPF_B (byte.unsigned x) ;; and_next r.1 tmp
  end.
