(* ===== verification/GenLink.v ===== *)
(** [gencode.c]: the layout of each link-layer type ([init_linktype]) and the
    tests for the protocol that a packet's link-layer header announces
    ([gen_linktype] and the functions it calls). *)
From S2P Require Import Prelude CFile Bpf BpfFilter Datalink GenConst Gencode.

#[local] Open Scope c_scope.
#[local] Open Scope gen_scope.

(** A [switch] label with several values. *)
Definition one_of (x : Z) (l : list Z) : bool := existsb (Z.eqb x) l.

(** ** [init_linktype] *)

(** The assignments before the [switch]. *)
Definition layout0 (linktype : Z) (swapped : bool) : layout :=
  Layout linktype NONE 0 false NONE NONE 0 0 false false false NONE NONE NONE NONE
         NONE NONE NONE NONE NONE NONE NONE 0 swapped false.

(** [off_linktype], [off_macpl], [off_nl] and [off_nl_nosnap]; most cases set
    nothing else. *)
Definition set_offs (o : layout) (lt macpl nl nosnap : Z) : layout :=
  Layout (o_linktype o) lt macpl (off_macpl_is_variable o) nl nosnap (off_ll o) (off_mac o)
         (is_pppoes o) (is_atm o) (is_lane o) (off_vpi o) (off_vci o) (off_proto o) (off_payload o)
         (off_li o) (off_sio o) (off_opc o) (off_dpc o) (off_sls o) (orig_linktype o) (orig_nl o)
         (label_stack_depth o) (o_swapped o) (o_no_optimize o).
Definition set_mac (o : layout) (mac : Z) : layout :=
  Layout (o_linktype o) (off_linktype o) (off_macpl o) (off_macpl_is_variable o) (off_nl o)
         (off_nl_nosnap o) (off_ll o) mac
         (is_pppoes o) (is_atm o) (is_lane o) (off_vpi o) (off_vci o) (off_proto o) (off_payload o)
         (off_li o) (off_sio o) (off_opc o) (off_dpc o) (off_sls o) (orig_linktype o) (orig_nl o)
         (label_stack_depth o) (o_swapped o) (o_no_optimize o).
Definition set_variable (o : layout) : layout :=
  Layout (o_linktype o) (off_linktype o) (off_macpl o) true (off_nl o)
         (off_nl_nosnap o) (off_ll o) (off_mac o)
         (is_pppoes o) (is_atm o) (is_lane o) (off_vpi o) (off_vci o) (off_proto o) (off_payload o)
         (off_li o) (off_sio o) (off_opc o) (off_dpc o) (off_sls o) (orig_linktype o) (orig_nl o)
         (label_stack_depth o) (o_swapped o) (o_no_optimize o).
Definition set_atm (o : layout) (vpi vci proto payload : Z) : layout :=
  Layout (o_linktype o) (off_linktype o) (off_macpl o) (off_macpl_is_variable o) (off_nl o)
         (off_nl_nosnap o) (off_ll o) (off_mac o)
         (is_pppoes o) true (is_lane o) vpi vci proto payload
         (off_li o) (off_sio o) (off_opc o) (off_dpc o) (off_sls o) (orig_linktype o) (orig_nl o)
         (label_stack_depth o) (o_swapped o) (o_no_optimize o).
Definition set_ss7 (o : layout) (li sio opc dpc sls : Z) : layout :=
  Layout (o_linktype o) (off_linktype o) (off_macpl o) (off_macpl_is_variable o) (off_nl o)
         (off_nl_nosnap o) (off_ll o) (off_mac o)
         (is_pppoes o) (is_atm o) (is_lane o) (off_vpi o) (off_vci o) (off_proto o) (off_payload o)
         li sio opc dpc sls (orig_linktype o) (orig_nl o)
         (label_stack_depth o) (o_swapped o) (o_no_optimize o).

(** The [switch], up to the Frame Relay cases; [None] is a type not found. *)
Definition init_linktype_1 (o : layout) : option layout :=
  let lt := o_linktype o in
  if lt =? DLT_ARCNET then Some (set_offs o 2 6 0 0)
  else if lt =? DLT_ARCNET_LINUX then Some (set_offs o 4 8 0 0)
  else if lt =? DLT_EN10MB then Some (set_offs o 12 14 0 3)
  else if lt =? DLT_SLIP then Some (set_offs o NONE 16 0 0)
  else if lt =? DLT_SLIP_BSDOS then Some (set_offs o NONE 24 0 0)
  else if one_of lt [DLT_NULL; DLT_LOOP] then Some (set_offs o 0 4 0 0)
  else if lt =? DLT_ENC then Some (set_offs o 0 12 0 0)
  else if one_of lt [DLT_PPP; DLT_PPP_PPPD; DLT_C_HDLC; DLT_PPP_SERIAL] then Some (set_offs o 2 4 0 0)
  else if lt =? DLT_PPP_ETHER then Some (set_offs o 6 8 0 0)
  else if lt =? DLT_PPP_BSDOS then Some (set_offs o 5 24 0 0)
  else if lt =? DLT_FDDI then Some (set_offs o 13 13 8 3)
  else if lt =? DLT_IEEE802 then Some (set_offs o 14 14 8 3)
  else if one_of lt [DLT_IEEE802_11; DLT_PRISM_HEADER; DLT_IEEE802_11_RADIO_AVS; DLT_IEEE802_11_RADIO]
  then Some (set_variable (set_offs o 24 0 8 3))
  else if lt =? DLT_PPI then Some (set_variable (set_offs o 24 0 8 3))
  else if one_of lt [DLT_ATM_RFC1483; DLT_ATM_CLIP] then Some (set_offs o 0 0 8 3)
  else if lt =? DLT_SUNATM then
    Some (set_offs (set_mac (set_atm o SUNATM_VPI_POS SUNATM_VCI_POS PROTO_POS SUNATM_PKT_BEGIN_POS) NONE)
                   SUNATM_PKT_BEGIN_POS SUNATM_PKT_BEGIN_POS 8 3)
  else if one_of lt [DLT_RAW; DLT_IPV4; DLT_IPV6] then Some (set_offs o NONE 0 0 0)
  else if lt =? DLT_LINUX_SLL then Some (set_offs o 14 16 0 0)
  else if lt =? DLT_LTALK then Some (set_offs o NONE 0 0 0)
  else if lt =? DLT_IP_OVER_FC then Some (set_offs o 16 16 8 3)
  else if lt =? DLT_FRELAY then Some (set_offs o NONE 0 0 0)
  else None.

(** The other cases. *)
Definition init_linktype_2 (o : layout) : option layout :=
  let lt := o_linktype o in
  if lt =? DLT_MFR then Some (set_offs o NONE 0 4 0)
  else if lt =? DLT_APPLE_IP_OVER_IEEE1394 then Some (set_offs o 16 18 0 0)
  else if lt =? DLT_SYMANTEC_FIREWALL then Some (set_offs o 6 44 0 0)
  else if one_of lt [DLT_JUNIPER_MFR; DLT_JUNIPER_MLFR; DLT_JUNIPER_MLPPP; DLT_JUNIPER_PPP;
                     DLT_JUNIPER_CHDLC; DLT_JUNIPER_FRELAY] then Some (set_offs o 4 4 0 NONE)
  else if lt =? DLT_JUNIPER_ATM1 then Some (set_offs o 4 4 0 10)
  else if lt =? DLT_JUNIPER_ATM2 then Some (set_offs o 8 8 0 10)
  else if one_of lt [DLT_JUNIPER_PPPOE; DLT_JUNIPER_ETHER] then Some (set_offs o 16 14 18 21)
  else if lt =? DLT_JUNIPER_PPPOE_ATM then Some (set_offs o 4 6 0 NONE)
  else if lt =? DLT_JUNIPER_GGSN then Some (set_offs o 6 12 0 NONE)
  else if lt =? DLT_JUNIPER_ES then Some (set_offs o 6 NONE NONE NONE)
  else if lt =? DLT_JUNIPER_MONITOR then Some (set_offs o 12 12 0 NONE)
  else if lt =? DLT_JUNIPER_SERVICES then Some (set_offs o 12 NONE NONE NONE)
  else if one_of lt [DLT_JUNIPER_VP; DLT_JUNIPER_ST] then Some (set_offs o 18 NONE NONE NONE)
  else if one_of lt [DLT_JUNIPER_ISM; DLT_JUNIPER_VS; DLT_JUNIPER_SRX_E2E; DLT_JUNIPER_FIBRECHANNEL;
                     DLT_JUNIPER_ATM_CEMIC] then Some (set_offs o 8 NONE NONE NONE)
  else if lt =? DLT_MTP2 then Some (set_ss7 (set_offs o NONE NONE NONE NONE) 2 3 4 4 7)
  else if lt =? DLT_MTP2_WITH_PHDR then Some (set_ss7 (set_offs o NONE NONE NONE NONE) 6 7 8 8 11)
  else if lt =? DLT_ERF then Some (set_ss7 (set_offs o NONE NONE NONE NONE) 22 23 24 24 27)
  else if lt =? DLT_PFSYNC then Some (set_offs o NONE 4 0 0)
  else if lt =? DLT_AX25_KISS then Some (set_mac (set_offs o NONE NONE NONE NONE) 1)
  else if lt =? DLT_IPNET then Some (set_offs o 1 24 0 NONE)
  else if lt =? DLT_NETANALYZER then Some (set_mac (set_offs o 16 18 0 3) 4)
  else if lt =? DLT_NETANALYZER_TRANSPARENT then Some (set_mac (set_offs o 24 26 0 3) 12)
  else if (DLT_MATCHING_MIN <=? lt) && (lt <=? DLT_MATCHING_MAX) then Some (set_offs o NONE NONE NONE NONE)
  else None.

Definition init_linktype (linktype : Z) (swapped : bool) : gerror + layout :=
  let o := layout0 linktype swapped in
  match init_linktype_1 o with
  | Some o => inr o
  | None =>
      match init_linktype_2 o with
      | Some o => inr o
      | None => inl (G_error (String.append "unknown data link type " (CString.fmt_d linktype)))
      end
  end.

(** ** 802.2 LLC *)

(** A pointer the code uses without a test for [NULL]. *)
Definition nonnull (b : option nat) : gen nat :=
  match b with Some b => ret b | None => fail G_graph end.

Definition gen_snap (orgcode ptype : Z) : gen nat :=
  b <- gen_bcmp OR_MACPL 0
         (map (fun x => byte.of_Z (u8 x))
            [LLCSAP_SNAP; LLCSAP_SNAP; 0x03; orgcode >> 16; orgcode >> 8; orgcode; ptype >> 8; ptype]) ;;
  nonnull b.

Definition gen_llc_linktype (proto : Z) : gen nat :=
  if one_of proto [LLCSAP_IP; LLCSAP_ISONS; LLCSAP_NETBEUI] then
    gen_cmp OR_MACPL 0 BPF_H ((proto << 8) .| proto)
  else if proto =? LLCSAP_IPX then gen_cmp OR_MACPL 0 BPF_B LLCSAP_IPX
  else if proto =? ETHERTYPE_ATALK then gen_snap 0x080007 ETHERTYPE_ATALK
  else if proto <=? ETHERMTU then gen_cmp OR_MACPL 0 BPF_B proto
  else gen_cmp OR_MACPL 6 BPF_H proto.

(** ** Ethernet *)

(** [b0 = gen_cmp_gt(OR_LINK, off_linktype, BPF_H, ETHERMTU); gen_not(b0);] *)
Definition gen_802_3 : gen nat :=
  o <- get_off ;;
  b0 <- gen_cmp_gt OR_LINK (off_linktype o) BPF_H ETHERMTU ;;
  gen_not b0 ;;
  ret b0.

(** The SNAP frames of AppleTalk and its ARP. *)
Definition gen_atalk_snap (proto : Z) : gen nat :=
  if proto =? ETHERTYPE_ATALK then gen_snap 0x080007 ETHERTYPE_ATALK
  else gen_snap 0x000000 ETHERTYPE_AARP.

Definition gen_ether_linktype (proto : Z) : gen nat :=
  o <- get_off ;;
  if one_of proto [LLCSAP_ISONS; LLCSAP_IP; LLCSAP_NETBEUI] then
    b0 <- gen_802_3 ;;
    b1 <- gen_cmp OR_MACPL 0 BPF_H ((proto << 8) .| proto) ;;
    gen_and b0 b1 ;;
    ret b1
  else if proto =? LLCSAP_IPX then
    b0 <- gen_cmp OR_MACPL 0 BPF_B LLCSAP_IPX ;;
    b1 <- gen_cmp OR_MACPL 0 BPF_H 0xffff ;;
    gen_or b0 b1 ;;
    b0 <- gen_snap 0x000000 ETHERTYPE_IPX ;;
    gen_or b0 b1 ;;
    b0 <- gen_802_3 ;;
    gen_and b0 b1 ;;
    b0 <- gen_cmp OR_LINK (off_linktype o) BPF_H ETHERTYPE_IPX ;;
    gen_or b0 b1 ;;
    ret b1
  else if one_of proto [ETHERTYPE_ATALK; ETHERTYPE_AARP] then
    b0 <- gen_802_3 ;;
    b1 <- gen_atalk_snap proto ;;
    gen_and b0 b1 ;;
    b0 <- gen_cmp OR_LINK (off_linktype o) BPF_H proto ;;
    gen_or b0 b1 ;;
    ret b1
  else if proto <=? ETHERMTU then
    b0 <- gen_802_3 ;;
    b1 <- gen_cmp OR_LINK (u32 (off_linktype o + 2)) BPF_B proto ;;
    gen_and b0 b1 ;;
    ret b1
  else gen_cmp OR_LINK (off_linktype o) BPF_H proto.

Definition gen_ipnet_linktype (proto : Z) : gen nat :=
  o <- get_off ;;
  if proto =? ETHERTYPE_IP then gen_cmp OR_LINK (off_linktype o) BPF_B IPH_AF_INET
  else if proto =? ETHERTYPE_IPV6 then gen_cmp OR_LINK (off_linktype o) BPF_B IPH_AF_INET6
  else gen_false.

(** ** Linux cooked captures *)

Definition gen_linux_sll_linktype (proto : Z) : gen nat :=
  o <- get_off ;;
  if one_of proto [LLCSAP_ISONS; LLCSAP_IP; LLCSAP_NETBEUI] then
    b0 <- gen_cmp OR_LINK (off_linktype o) BPF_H LINUX_SLL_P_802_2 ;;
    b1 <- gen_cmp OR_MACPL 0 BPF_H ((proto << 8) .| proto) ;;
    gen_and b0 b1 ;;
    ret b1
  else if proto =? LLCSAP_IPX then
    b0 <- gen_cmp OR_MACPL 0 BPF_B LLCSAP_IPX ;;
    b1 <- gen_snap 0x000000 ETHERTYPE_IPX ;;
    gen_or b0 b1 ;;
    b0 <- gen_cmp OR_LINK (off_linktype o) BPF_H LINUX_SLL_P_802_2 ;;
    gen_and b0 b1 ;;
    b0 <- gen_cmp OR_LINK (off_linktype o) BPF_H LINUX_SLL_P_802_3 ;;
    gen_or b0 b1 ;;
    b0 <- gen_cmp OR_LINK (off_linktype o) BPF_H ETHERTYPE_IPX ;;
    gen_or b0 b1 ;;
    ret b1
  else if one_of proto [ETHERTYPE_ATALK; ETHERTYPE_AARP] then
    b0 <- gen_cmp OR_LINK (off_linktype o) BPF_H LINUX_SLL_P_802_2 ;;
    b1 <- gen_atalk_snap proto ;;
    gen_and b0 b1 ;;
    b0 <- gen_cmp OR_LINK (off_linktype o) BPF_H proto ;;
    gen_or b0 b1 ;;
    ret b1
  else if proto <=? ETHERMTU then
    b0 <- gen_cmp OR_LINK (off_linktype o) BPF_H LINUX_SLL_P_802_2 ;;
    b1 <- gen_cmp OR_LINK (off_macpl o) BPF_B proto ;;
    gen_and b0 b1 ;;
    ret b1
  else gen_cmp OR_LINK (off_linktype o) BPF_H proto.

(** ** Other encapsulations *)

Definition ethertype_to_ppptype (proto : Z) : Z :=
  if proto =? ETHERTYPE_IP then PPP_IP
  else if proto =? ETHERTYPE_IPV6 then PPP_IPV6
  else if proto =? ETHERTYPE_DN then PPP_DECNET
  else if proto =? ETHERTYPE_ATALK then PPP_APPLE
  else if proto =? ETHERTYPE_NS then PPP_NS
  else if proto =? LLCSAP_ISONS then PPP_OSI
  else if proto =? LLCSAP_8021D then PPP_BRPDU
  else if proto =? LLCSAP_IPX then PPP_IPX
  else proto.

Definition gen_check_802_11_data_frame : gen nat :=
  s <- gen_load_a OR_LINK 0 BPF_B ;;
  b0 <- new_branch (JMP BPF_JSET) s 0x08 ;;
  s <- gen_load_a OR_LINK 0 BPF_B ;;
  b1 <- new_branch (JMP BPF_JSET) s 0x04 ;;
  gen_not b1 ;;
  gen_and b1 b0 ;;
  ret b0.

Definition gen_atmfield_code (atmfield jvalue jtype : Z) (reverse : bool) : gen nat :=
  o <- get_off ;;
  if atmfield =? A_VPI then
    if negb (is_atm o) then bpf_error "'vpi' supported only on raw ATM"
    else if off_vpi o =? NONE then fail G_abort
    else gen_ncmp OR_LINK (off_vpi o) BPF_B 0xffffffff jtype reverse jvalue
  else if atmfield =? A_VCI then
    if negb (is_atm o) then bpf_error "'vci' supported only on raw ATM"
    else if off_vci o =? NONE then fail G_abort
    else gen_ncmp OR_LINK (off_vci o) BPF_H 0xffffffff jtype reverse jvalue
  else if atmfield =? A_PROTOTYPE then
    if off_proto o =? NONE then fail G_abort
    else gen_ncmp OR_LINK (off_proto o) BPF_B 0x0f jtype reverse jvalue
  else if atmfield =? A_MSGTYPE then
    if off_payload o =? NONE then fail G_abort
    else gen_ncmp OR_LINK (u32 (off_payload o + MSG_TYPE_POS)) BPF_B 0xffffffff jtype reverse jvalue
  else if atmfield =? A_CALLREFTYPE then
    if negb (is_atm o) then bpf_error "'callref' supported only on raw ATM"
    else if off_proto o =? NONE then fail G_abort
    else gen_ncmp OR_LINK (off_proto o) BPF_B 0xffffffff jtype reverse jvalue
  else fail G_abort.

(** The offset [-2] is a [u_int]. *)
Definition gen_mpls_linktype (proto : Z) : gen nat :=
  if proto =? Q_IP then
    b0 <- gen_mcmp OR_NET (u32 (-2)) BPF_B 0x01 0x01 ;;
    b1 <- gen_mcmp OR_NET 0 BPF_B 0x40 0xf0 ;;
    gen_and b0 b1 ;;
    ret b1
  else if proto =? Q_IPV6 then
    b0 <- gen_mcmp OR_NET (u32 (-2)) BPF_B 0x01 0x01 ;;
    b1 <- gen_mcmp OR_NET 0 BPF_B 0x60 0xf0 ;;
    gen_and b0 b1 ;;
    ret b1
  else fail G_abort.

(** ** [gen_linktype]

    The [switch (linktype)] in four parts; [None] goes on to the next. *)

Definition linktype_1 (o : layout) (proto : Z) : option (gen nat) :=
  let lt := o_linktype o in
  if one_of lt [DLT_EN10MB; DLT_NETANALYZER; DLT_NETANALYZER_TRANSPARENT] then
    Some (gen_ether_linktype proto)
  else if lt =? DLT_C_HDLC then
    let proto := if proto =? LLCSAP_ISONS then (proto << 8) .| LLCSAP_ISONS else proto in
    Some (gen_cmp OR_LINK (off_linktype o) BPF_H proto)
  else if one_of lt [DLT_IEEE802_11; DLT_PRISM_HEADER; DLT_IEEE802_11_RADIO_AVS; DLT_IEEE802_11_RADIO;
                     DLT_PPI] then
    Some (b0 <- gen_check_802_11_data_frame ;;
          b1 <- gen_llc_linktype proto ;;
          gen_and b0 b1 ;;
          ret b1)
  else if one_of lt [DLT_FDDI; DLT_IEEE802; DLT_ATM_RFC1483; DLT_ATM_CLIP; DLT_IP_OVER_FC] then
    Some (gen_llc_linktype proto)
  else if lt =? DLT_SUNATM then
    Some (if is_lane o then
            b0 <- gen_cmp OR_LINK SUNATM_PKT_BEGIN_POS BPF_H 0xff00 ;;
            gen_not b0 ;;
            b1 <- gen_ether_linktype proto ;;
            gen_and b0 b1 ;;
            ret b1
          else
            b0 <- gen_atmfield_code A_PROTOTYPE PT_LLC BPF_JEQ false ;;
            b1 <- gen_llc_linktype proto ;;
            gen_and b0 b1 ;;
            ret b1)
  else if lt =? DLT_LINUX_SLL then Some (gen_linux_sll_linktype proto)
  else None.

Definition linktype_2 (o : layout) (proto : Z) : option (gen nat) :=
  let lt := o_linktype o in
  if one_of lt [DLT_SLIP; DLT_SLIP_BSDOS; DLT_RAW] then
    Some (if proto =? ETHERTYPE_IP then gen_mcmp OR_LINK 0 BPF_B 0x40 0xf0
          else if proto =? ETHERTYPE_IPV6 then gen_mcmp OR_LINK 0 BPF_B 0x60 0xf0
          else gen_false)
  else if lt =? DLT_IPV4 then Some (if proto =? ETHERTYPE_IP then gen_true else gen_false)
  else if lt =? DLT_IPV6 then Some (if proto =? ETHERTYPE_IPV6 then gen_true else gen_false)
  else if one_of lt [DLT_PPP; DLT_PPP_PPPD; DLT_PPP_SERIAL; DLT_PPP_ETHER] then
    Some (gen_cmp OR_LINK (off_linktype o) BPF_H (ethertype_to_ppptype proto))
  else if lt =? DLT_PPP_BSDOS then
    Some (if proto =? ETHERTYPE_IP then
            b0 <- gen_cmp OR_LINK (off_linktype o) BPF_H PPP_IP ;;
            b1 <- gen_cmp OR_LINK (off_linktype o) BPF_H PPP_VJC ;;
            gen_or b0 b1 ;;
            b0 <- gen_cmp OR_LINK (off_linktype o) BPF_H PPP_VJNC ;;
            gen_or b1 b0 ;;
            ret b0
          else gen_cmp OR_LINK (off_linktype o) BPF_H (ethertype_to_ppptype proto))
  else if one_of lt [DLT_NULL; DLT_LOOP; DLT_ENC] then
    let cmp af :=
      if one_of lt [DLT_NULL; DLT_ENC] then
        let af := if o_swapped o then SWAPLONG af else af in
        gen_cmp OR_LINK 0 BPF_W (SWAPLONG af)
      else gen_cmp OR_LINK 0 BPF_W af in
    Some (if proto =? ETHERTYPE_IP then cmp AF_INET
          else if proto =? ETHERTYPE_IPV6 then cmp AF_INET6
          else gen_false)
  else None.

Definition linktype_3 (o : layout) (proto : Z) : option (gen nat) :=
  let lt := o_linktype o in
  let arc v := gen_cmp OR_LINK (off_linktype o) BPF_B v in
  if one_of lt [DLT_ARCNET; DLT_ARCNET_LINUX] then
    Some (if proto =? ETHERTYPE_IPV6 then arc ARCTYPE_INET6
          else if proto =? ETHERTYPE_IP then
            b0 <- arc ARCTYPE_IP ;;
            b1 <- arc ARCTYPE_IP_OLD ;;
            gen_or b0 b1 ;;
            ret b1
          else if proto =? ETHERTYPE_ARP then
            b0 <- arc ARCTYPE_ARP ;;
            b1 <- arc ARCTYPE_ARP_OLD ;;
            gen_or b0 b1 ;;
            ret b1
          else if proto =? ETHERTYPE_REVARP then arc ARCTYPE_REVARP
          else if proto =? ETHERTYPE_ATALK then arc ARCTYPE_ATALK
          else gen_false)
  else if lt =? DLT_LTALK then Some (if proto =? ETHERTYPE_ATALK then gen_true else gen_false)
  else if lt =? DLT_FRELAY then
    let nlpid v := gen_cmp OR_LINK 2 BPF_H ((0x03 << 8) .| v) in
    Some (if proto =? ETHERTYPE_IP then nlpid 0xcc
          else if proto =? ETHERTYPE_IPV6 then nlpid 0x8e
          else if proto =? LLCSAP_ISONS then
            b0 <- nlpid ISO8473_CLNP ;;
            b1 <- nlpid ISO9542_ESIS ;;
            b2 <- nlpid ISO10589_ISIS ;;
            gen_or b1 b2 ;;
            gen_or b0 b2 ;;
            ret b2
          else gen_false)
  else None.

Definition linktype_4 (o : layout) (proto : Z) : option (gen nat) :=
  let lt := o_linktype o in
  let not_implemented what :=
    Some (bpf_error (String.append what " link-layer type filtering not implemented")) in
  if lt =? DLT_MFR then not_implemented "Multi-link Frame Relay"%string
  else if one_of lt [DLT_JUNIPER_MFR; DLT_JUNIPER_MLFR; DLT_JUNIPER_MLPPP; DLT_JUNIPER_ATM1;
                     DLT_JUNIPER_ATM2; DLT_JUNIPER_PPPOE; DLT_JUNIPER_PPPOE_ATM; DLT_JUNIPER_GGSN;
                     DLT_JUNIPER_ES; DLT_JUNIPER_MONITOR; DLT_JUNIPER_SERVICES; DLT_JUNIPER_ETHER;
                     DLT_JUNIPER_PPP; DLT_JUNIPER_FRELAY; DLT_JUNIPER_CHDLC; DLT_JUNIPER_VP;
                     DLT_JUNIPER_ST; DLT_JUNIPER_ISM; DLT_JUNIPER_VS; DLT_JUNIPER_SRX_E2E;
                     DLT_JUNIPER_FIBRECHANNEL; DLT_JUNIPER_ATM_CEMIC] then
    Some (gen_mcmp OR_LINK 0 BPF_W 0x4d474300 0xffffff00)
  else if lt =? DLT_IPNET then Some (gen_ipnet_linktype proto)
  else if lt =? DLT_LINUX_IRDA then not_implemented "IrDA"%string
  else if lt =? DLT_DOCSIS then not_implemented "DOCSIS"%string
  else if one_of lt [DLT_MTP2; DLT_MTP2_WITH_PHDR] then not_implemented "MTP2"%string
  else if lt =? DLT_ERF then not_implemented "ERF"%string
  else if lt =? DLT_PFSYNC then not_implemented "PFSYNC"%string
  else if lt =? DLT_LINUX_LAPD then not_implemented "LAPD"%string
  else if one_of lt [DLT_USB; DLT_USB_LINUX; DLT_USB_LINUX_MMAPPED] then not_implemented "USB"%string
  else if one_of lt [DLT_BLUETOOTH_HCI_H4; DLT_BLUETOOTH_HCI_H4_WITH_PHDR] then
    not_implemented "Bluetooth"%string
  else if one_of lt [DLT_CAN20B; DLT_CAN_SOCKETCAN] then not_implemented "CAN"%string
  else if one_of lt [DLT_IEEE802_15_4; DLT_IEEE802_15_4_LINUX; DLT_IEEE802_15_4_NONASK_PHY;
                     DLT_IEEE802_15_4_NOFCS] then not_implemented "IEEE 802.15.4"%string
  else if lt =? DLT_IEEE802_16_MAC_CPS_RADIO then not_implemented "IEEE 802.16"%string
  else if lt =? DLT_SITA then not_implemented "SITA"%string
  else if lt =? DLT_RAIF1 then not_implemented "RAIF1"%string
  else if lt =? DLT_IPMB then not_implemented "IPMB"%string
  else if lt =? DLT_AX25_KISS then not_implemented "AX.25"%string
  else None.

(** The first of several choices. *)
Definition first_of (l : list (option (gen nat))) (k : gen nat) : gen nat :=
  foldr (fun x k => match x with Some g => g | None => k end) k l.

Definition gen_linktype (proto : Z) : gen nat :=
  o <- get_off ;;
  if 0 <? label_stack_depth o then
    if one_of proto [ETHERTYPE_IP; PPP_IP] then gen_mpls_linktype Q_IP
    else if one_of proto [ETHERTYPE_IPV6; PPP_IPV6] then gen_mpls_linktype Q_IPV6
    else bpf_error "unsupported protocol over mpls"
  else if is_pppoes o then gen_cmp OR_MACPL (off_linktype o) BPF_H (ethertype_to_ppptype proto)
  else
    first_of [linktype_1 o proto; linktype_2 o proto; linktype_3 o proto; linktype_4 o proto]
      (if off_linktype o =? NONE then fail G_abort
       else gen_cmp OR_LINK (off_linktype o) BPF_H proto).
