(* ===== verification/GenProto.v ===== *)
(** [gencode.c]: tests for hosts, ports and protocols, and the other
    primitives that the grammar's actions call. *)
From S2P Require Import Prelude CString Bpf BpfFilter Datalink GenConst Gencode GenLink.

#[local] Open Scope Z_scope.
#[local] Open Scope c_scope.
#[local] Open Scope gen_scope.

(** Two tests joined by [gen_and] or [gen_or], the second one returned. *)
Definition both (g0 g1 : gen nat) : gen nat :=
  b0 <- g0 ;; b1 <- g1 ;; gen_and b0 b1 ;; ret b1.
Definition either (g0 g1 : gen nat) : gen nat :=
  b0 <- g0 ;; b1 <- g1 ;; gen_or b0 b1 ;; ret b1.

(** The [switch (dir)] of the address tests: [Q_AND], [Q_OR] and [Q_DEFAULT]
    test the source, then the destination. *)
Definition by_dir (dir : Z) (src dst : gen nat) (other : gen nat) : gen nat :=
  if dir =? Q_SRC then src
  else if dir =? Q_DST then dst
  else if dir =? Q_AND then both src dst
  else if one_of dir [Q_OR; Q_DEFAULT] then either src dst
  else other.

(** ** Addresses *)

Definition gen_hostop_at (addr mask proto offset : Z) : gen nat :=
  b0 <- gen_linktype proto ;;
  b1 <- gen_mcmp OR_NET offset BPF_W addr mask ;;
  gen_and b0 b1 ;;
  ret b1.
Definition gen_hostop (addr mask dir proto src_off dst_off : Z) : gen nat :=
  by_dir dir (gen_hostop_at addr mask proto src_off) (gen_hostop_at addr mask proto dst_off)
         (fail G_abort).

(** The addresses are the four words [ntohl] gives. *)
Definition gen_hostop6_at (a m : Z * Z * Z * Z) (proto offset : Z) : gen nat :=
  let '(a0, a1, a2, a3) := a in
  let '(m0, m1, m2, m3) := m in
  b1 <- gen_mcmp OR_NET (u32 (offset + 12)) BPF_W a3 m3 ;;
  b0 <- gen_mcmp OR_NET (u32 (offset + 8)) BPF_W a2 m2 ;;
  gen_and b0 b1 ;;
  b0 <- gen_mcmp OR_NET (u32 (offset + 4)) BPF_W a1 m1 ;;
  gen_and b0 b1 ;;
  b0 <- gen_mcmp OR_NET offset BPF_W a0 m0 ;;
  gen_and b0 b1 ;;
  b0 <- gen_linktype proto ;;
  gen_and b0 b1 ;;
  ret b1.
Definition gen_hostop6 (a m : Z * Z * Z * Z) (dir proto src_off dst_off : Z) : gen nat :=
  by_dir dir (gen_hostop6_at a m proto src_off) (gen_hostop6_at a m proto dst_off) (fail G_abort).

(** The errors of the directions that only 802.11 has. *)
Definition wlan_dir (where_ : string) (dir : Z) : gen nat :=
  let only what := bpf_error (String.append what (String.append " is only supported on " where_)) in
  if dir =? Q_ADDR1 then only "'addr1'"%string
  else if dir =? Q_ADDR2 then only "'addr2'"%string
  else if dir =? Q_ADDR3 then only "'addr3'"%string
  else if dir =? Q_ADDR4 then only "'addr4'"%string
  else if dir =? Q_RA then only "'ra'"%string
  else if dir =? Q_TA then only "'ta'"%string
  else fail G_abort.

Definition gen_mac (offset : Z) (eaddr : list byte) : gen nat :=
  b <- gen_bcmp OR_LINK offset eaddr ;; nonnull b.

Definition gen_ehostop (eaddr : list byte) (dir : Z) : gen nat :=
  o <- get_off ;;
  by_dir dir (gen_mac (u32 (off_mac o + 6)) eaddr) (gen_mac (off_mac o) eaddr)
         (wlan_dir "802.11 with 802.11 headers" dir).
Definition gen_fhostop (eaddr : list byte) (dir : Z) : gen nat :=
  by_dir dir (gen_mac 7 eaddr) (gen_mac 1 eaddr) (wlan_dir "802.11" dir).
Definition gen_thostop (eaddr : list byte) (dir : Z) : gen nat :=
  by_dir dir (gen_mac 8 eaddr) (gen_mac 2 eaddr) (wlan_dir "802.11" dir).
Definition gen_ipfchostop (eaddr : list byte) (dir : Z) : gen nat :=
  by_dir dir (gen_mac 10 eaddr) (gen_mac 2 eaddr) (wlan_dir "802.11" dir).

(** [ntohs] of a little-endian machine. *)
Definition ntohs (x : Z) : Z := (x .& 0xff) << 8 .| ((x >> 8) .& 0xff).

(** DECnet node [addr] as source or destination: long and short data packets,
    with and without a byte of padding. *)
Definition gen_dnhostop_at (addr offset_sh offset_lh : Z) : gen nat :=
  let node := ntohs (u16 addr) in
  b0 <- gen_linktype ETHERTYPE_DN ;;
  tmp <- gen_mcmp OR_NET 2 BPF_H (ntohs 0x0681) (ntohs 0x07ff) ;;
  b1 <- gen_cmp OR_NET (2 + 1 + offset_lh) BPF_H node ;;
  gen_and tmp b1 ;;
  tmp <- gen_mcmp OR_NET 2 BPF_B 0x06 0x7 ;;
  b2 <- gen_cmp OR_NET (2 + offset_lh) BPF_H node ;;
  gen_and tmp b2 ;;
  gen_or b2 b1 ;;
  tmp <- gen_mcmp OR_NET 2 BPF_H (ntohs 0x0281) (ntohs 0x07ff) ;;
  b2 <- gen_cmp OR_NET (2 + 1 + offset_sh) BPF_H node ;;
  gen_and tmp b2 ;;
  gen_or b2 b1 ;;
  tmp <- gen_mcmp OR_NET 2 BPF_B 0x02 0x7 ;;
  b2 <- gen_cmp OR_NET (2 + offset_sh) BPF_H node ;;
  gen_and tmp b2 ;;
  gen_or b2 b1 ;;
  gen_and b0 b1 ;;
  ret b1.
Definition gen_dnhostop (addr dir : Z) : gen nat :=
  by_dir dir (gen_dnhostop_at addr 3 15) (gen_dnhostop_at addr 1 7)
    (if dir =? Q_ISO then bpf_error "ISO host filtering not implemented" else fail G_abort).

(** The errors that [gen_host] and [gen_host6] share: qualifiers that name no
    host. *)
Definition bad_host_proto (proto type : Z) : gen nat :=
  let typestr := if type =? Q_NET then "net"%string else "host"%string in
  let modifier what :=
    bpf_error (String.append "'" (String.append what (String.append "' modifier applied to " typestr))) in
  let filtering what := bpf_error (String.append what " host filtering not implemented") in
  if proto =? Q_TCP then modifier "tcp"%string
  else if proto =? Q_SCTP then modifier "sctp"%string
  else if proto =? Q_UDP then modifier "udp"%string
  else if proto =? Q_ICMP then modifier "icmp"%string
  else if proto =? Q_IGMP then modifier "igmp"%string
  else if proto =? Q_IGRP then modifier "igrp"%string
  else if proto =? Q_PIM then modifier "pim"%string
  else if proto =? Q_VRRP then modifier "vrrp"%string
  else if proto =? Q_CARP then modifier "carp"%string
  else if proto =? Q_ATALK then filtering "ATALK"%string
  else if proto =? Q_AARP then filtering "AARP"%string
  else if proto =? Q_SCA then filtering "SCA"%string
  else if proto =? Q_LAT then filtering "LAT"%string
  else if proto =? Q_MOPDL then filtering "MOPDL"%string
  else if proto =? Q_MOPRC then filtering "MOPRC"%string
  else if proto =? Q_ICMPV6 then modifier "icmp6"%string
  else if proto =? Q_AH then modifier "ah"%string
  else if proto =? Q_ESP then modifier "esp"%string
  else if proto =? Q_ISO then filtering "ISO"%string
  else if proto =? Q_ESIS then modifier "esis"%string
  else if proto =? Q_ISIS then modifier "isis"%string
  else if proto =? Q_CLNP then modifier "clnp"%string
  else if proto =? Q_STP then modifier "stp"%string
  else if proto =? Q_IPX then filtering "IPX"%string
  else if proto =? Q_NETBEUI then modifier "netbeui"%string
  else if proto =? Q_RADIO then modifier "radio"%string
  else fail G_abort.

(** [gen_host] for a protocol other than [Q_DEFAULT]. *)
Definition gen_host_proto (addr mask proto dir type : Z) : gen nat :=
  if proto =? Q_IP then gen_hostop addr mask dir ETHERTYPE_IP 12 16
  else if proto =? Q_RARP then gen_hostop addr mask dir ETHERTYPE_REVARP 14 24
  else if proto =? Q_ARP then gen_hostop addr mask dir ETHERTYPE_ARP 14 24
  else if proto =? Q_DECNET then gen_dnhostop addr dir
  else if proto =? Q_IPV6 then bpf_error "'ip6' modifier applied to ip host"
  else bad_host_proto proto type.
Definition gen_host (addr mask proto dir type : Z) : gen nat :=
  if proto =? Q_DEFAULT then
    b0 <- gen_host_proto addr mask Q_IP dir type ;;
    o <- get_off ;;
    if label_stack_depth o =? 0 then
      b1 <- gen_host_proto addr mask Q_ARP dir type ;;
      gen_or b0 b1 ;;
      b0 <- gen_host_proto addr mask Q_RARP dir type ;;
      gen_or b1 b0 ;;
      ret b0
    else ret b0
  else gen_host_proto addr mask proto dir type.

Definition gen_host6 (a m : Z * Z * Z * Z) (proto dir type : Z) : gen nat :=
  let ip6 what :=
    bpf_error (String.append "'" (String.append what (String.append "' modifier applied to ip6 "
      (if type =? Q_NET then "net"%string else "host"%string)))) in
  if one_of proto [Q_DEFAULT; Q_IPV6] then gen_hostop6 a m dir ETHERTYPE_IPV6 8 24
  else if proto =? Q_IP then ip6 "ip"%string
  else if proto =? Q_RARP then ip6 "rarp"%string
  else if proto =? Q_ARP then ip6 "arp"%string
  else if proto =? Q_DECNET then ip6 "decnet"%string
  else bad_host_proto proto type.

(** ** Ports *)

Definition gen_ipfrag : gen nat :=
  s <- gen_load_a OR_NET 6 BPF_H ;;
  b <- new_branch (JMP BPF_JSET) s 0x1fff ;;
  gen_not b ;;
  ret b.

Definition gen_portatom (off v : Z) : gen nat := gen_cmp OR_TRAN_IPV4 off BPF_H v.
Definition gen_portatom6 (off v : Z) : gen nat := gen_cmp OR_TRAN_IPV6 off BPF_H v.

Definition gen_portrangeatom_at (offrel : e_offrel) (off v1 v2 : Z) : gen nat :=
  let '(v1, v2) := if v2 <? v1 then (v2, v1) else (v1, v2) in
  b1 <- gen_cmp_ge offrel off BPF_H v1 ;;
  b2 <- gen_cmp_le offrel off BPF_H v2 ;;
  gen_and b1 b2 ;;
  ret b2.
Definition gen_portrangeatom : Z -> Z -> Z -> gen nat := gen_portrangeatom_at OR_TRAN_IPV4.
Definition gen_portrangeatom6 : Z -> Z -> Z -> gen nat := gen_portrangeatom_at OR_TRAN_IPV6.

(** [gen_portop] and [gen_portrangeop] differ in their atom; so do the
    functions for IPv6. *)
Definition portop (atom : Z -> gen nat) (proto dir : Z) : gen nat :=
  tmp <- gen_cmp OR_NET 9 BPF_B proto ;;
  b0 <- gen_ipfrag ;;
  gen_and tmp b0 ;;
  b1 <- by_dir dir (atom 0) (atom 2) (fail G_abort) ;;
  gen_and b0 b1 ;;
  ret b1.
Definition portop6 (atom : Z -> gen nat) (proto dir : Z) : gen nat :=
  b0 <- gen_cmp OR_NET 6 BPF_B proto ;;
  b1 <- by_dir dir (atom 0) (atom 2) (fail G_abort) ;;
  gen_and b0 b1 ;;
  ret b1.

Definition gen_portop (port : Z) : Z -> Z -> gen nat := portop (fun off => gen_portatom off port).
Definition gen_portop6 (port : Z) : Z -> Z -> gen nat := portop6 (fun off => gen_portatom6 off port).
Definition gen_portrangeop (port1 port2 : Z) : Z -> Z -> gen nat :=
  portop (fun off => gen_portrangeatom off port1 port2).
Definition gen_portrangeop6 (port1 port2 : Z) : Z -> Z -> gen nat :=
  portop6 (fun off => gen_portrangeatom6 off port1 port2).

(** The test for the network protocol, and for one transport protocol or all
    that have ports. *)
Definition port_by_proto (op : Z -> Z -> gen nat) (ethertype ip_proto dir : Z) : gen nat :=
  b0 <- gen_linktype ethertype ;;
  b1 <- (if one_of ip_proto [IPPROTO_UDP; IPPROTO_TCP; IPPROTO_SCTP] then op ip_proto dir
         else if ip_proto =? PROTO_UNDEF then
           tmp <- op IPPROTO_TCP dir ;;
           b1 <- op IPPROTO_UDP dir ;;
           gen_or tmp b1 ;;
           tmp <- op IPPROTO_SCTP dir ;;
           gen_or tmp b1 ;;
           ret b1
         else fail G_abort) ;;
  gen_and b0 b1 ;;
  ret b1.
Definition gen_port (port : Z) : Z -> Z -> gen nat := port_by_proto (gen_portop port) ETHERTYPE_IP.
Definition gen_port6 (port : Z) : Z -> Z -> gen nat := port_by_proto (gen_portop6 port) ETHERTYPE_IPV6.
Definition gen_portrange (port1 port2 : Z) : Z -> Z -> gen nat :=
  port_by_proto (gen_portrangeop port1 port2) ETHERTYPE_IP.
Definition gen_portrange6 (port1 port2 : Z) : Z -> Z -> gen nat :=
  port_by_proto (gen_portrangeop6 port1 port2) ETHERTYPE_IPV6.

(** ** [gen_proto] *)

(** The errors of the protocols that carry no other. *)
Definition bad_proto (proto : Z) : gen nat :=
  let bogus what := bpf_error (String.append "'" (String.append what " proto' is bogus")) in
  let no_other what := bpf_error (String.append what " does not encapsulate another protocol") in
  if proto =? Q_ARP then no_other "arp"%string
  else if proto =? Q_RARP then no_other "rarp"%string
  else if proto =? Q_ATALK then bpf_error "atalk encapsulation is not specifiable"
  else if proto =? Q_DECNET then bpf_error "decnet encapsulation is not specifiable"
  else if proto =? Q_SCA then no_other "sca"%string
  else if proto =? Q_LAT then no_other "lat"%string
  else if proto =? Q_MOPRC then no_other "moprc"%string
  else if proto =? Q_MOPDL then no_other "mopdl"%string
  else if proto =? Q_UDP then bogus "udp"%string
  else if proto =? Q_TCP then bogus "tcp"%string
  else if proto =? Q_SCTP then bogus "sctp"%string
  else if proto =? Q_ICMP then bogus "icmp"%string
  else if proto =? Q_IGMP then bogus "igmp"%string
  else if proto =? Q_IGRP then bogus "igrp"%string
  else if proto =? Q_PIM then bogus "pim"%string
  else if proto =? Q_VRRP then bogus "vrrp"%string
  else if proto =? Q_CARP then bogus "carp"%string
  else if proto =? Q_ICMPV6 then bogus "icmp6"%string
  else if one_of proto [Q_AH; Q_ESP] then bogus "ah"%string
  else if proto =? Q_STP then bogus "stp"%string
  else if proto =? Q_IPX then bogus "ipx"%string
  else if proto =? Q_NETBEUI then bogus "netbeui"%string
  else if proto =? Q_RADIO then bogus "radio"%string
  else fail G_abort.

(** The cases of [gen_proto] that test for a protocol, with no direction. *)
Definition gen_proto_ip (v : Z) : gen nat :=
  both (gen_linktype ETHERTYPE_IP) (gen_cmp OR_NET 9 BPF_B v).

Definition gen_proto_ip6 (v : Z) : gen nat :=
  b0 <- gen_linktype ETHERTYPE_IPV6 ;;
  b2 <- gen_cmp OR_NET 6 BPF_B IPPROTO_FRAGMENT ;;
  b1 <- gen_cmp OR_NET 40 BPF_B v ;;
  gen_and b2 b1 ;;
  b2 <- gen_cmp OR_NET 6 BPF_B v ;;
  gen_or b2 b1 ;;
  gen_and b0 b1 ;;
  ret b1.

Definition gen_proto_iso (v : Z) : gen nat :=
  o <- get_off ;;
  if o_linktype o =? DLT_FRELAY then gen_cmp OR_LINK 2 BPF_H ((0x03 << 8) .| v)
  else if o_linktype o =? DLT_C_HDLC then
    both (gen_linktype ((LLCSAP_ISONS << 8) .| LLCSAP_ISONS)) (gen_cmp OR_NET_NOSNAP 1 BPF_B v)
  else both (gen_linktype LLCSAP_ISONS) (gen_cmp OR_NET_NOSNAP 0 BPF_B v).

Definition gen_proto_isis (v : Z) : gen nat :=
  both (gen_proto_iso ISO10589_ISIS) (gen_cmp OR_NET_NOSNAP 4 BPF_B v).

Definition gen_proto (v proto dir : Z) : gen nat :=
  if negb (dir =? Q_DEFAULT) then bpf_error "direction applied to 'proto'"
  else if proto =? Q_DEFAULT then either (gen_proto_ip v) (gen_proto_ip6 v)
  else if proto =? Q_IP then gen_proto_ip v
  else if proto =? Q_ISO then gen_proto_iso v
  else if proto =? Q_ISIS then gen_proto_isis v
  else if proto =? Q_LINK then gen_linktype v
  else if proto =? Q_IPV6 then gen_proto_ip6 v
  else bad_proto proto.

(** The abbreviations for a protocol over IPv4 and IPv6: the test for IPv4 is
    built first. *)
Definition gen_proto_46 (v : Z) : gen nat :=
  b1 <- gen_proto v Q_IP Q_DEFAULT ;;
  b0 <- gen_proto v Q_IPV6 Q_DEFAULT ;;
  gen_or b0 b1 ;;
  ret b1.

(** Several IS-IS PDU types. *)
Fixpoint gen_isis_more (b1 : nat) (vs : list Z) : gen nat :=
  match vs with
  | [] => ret b1
  | v :: vs =>
      b0 <- gen_proto v Q_ISIS Q_DEFAULT ;;
      gen_or b0 b1 ;;
      gen_isis_more b1 vs
  end.
Definition gen_isis_pdus (v0 v1 : Z) (vs : list Z) : gen nat :=
  b0 <- gen_proto v0 Q_ISIS Q_DEFAULT ;;
  b1 <- gen_proto v1 Q_ISIS Q_DEFAULT ;;
  gen_or b0 b1 ;;
  gen_isis_more b1 vs.

(** [gen_proto_abbrev], up to the IS-IS cases. *)
Definition proto_abbrev_1 (proto : Z) : option (gen nat) :=
  if proto =? Q_SCTP then Some (gen_proto_46 IPPROTO_SCTP)
  else if proto =? Q_TCP then Some (gen_proto_46 IPPROTO_TCP)
  else if proto =? Q_UDP then Some (gen_proto_46 IPPROTO_UDP)
  else if proto =? Q_ICMP then Some (gen_proto IPPROTO_ICMP Q_IP Q_DEFAULT)
  else if proto =? Q_IGMP then Some (gen_proto IPPROTO_IGMP Q_IP Q_DEFAULT)
  else if proto =? Q_IGRP then Some (gen_proto IPPROTO_IGRP Q_IP Q_DEFAULT)
  else if proto =? Q_PIM then Some (gen_proto_46 IPPROTO_PIM)
  else if proto =? Q_VRRP then Some (gen_proto IPPROTO_VRRP Q_IP Q_DEFAULT)
  else if proto =? Q_CARP then Some (gen_proto IPPROTO_CARP Q_IP Q_DEFAULT)
  else if proto =? Q_IP then Some (gen_linktype ETHERTYPE_IP)
  else if proto =? Q_ARP then Some (gen_linktype ETHERTYPE_ARP)
  else if proto =? Q_RARP then Some (gen_linktype ETHERTYPE_REVARP)
  else if proto =? Q_LINK then Some (bpf_error "link layer applied in wrong context")
  else if proto =? Q_ATALK then Some (gen_linktype ETHERTYPE_ATALK)
  else if proto =? Q_AARP then Some (gen_linktype ETHERTYPE_AARP)
  else if proto =? Q_DECNET then Some (gen_linktype ETHERTYPE_DN)
  else if proto =? Q_SCA then Some (gen_linktype ETHERTYPE_SCA)
  else if proto =? Q_LAT then Some (gen_linktype ETHERTYPE_LAT)
  else if proto =? Q_MOPDL then Some (gen_linktype ETHERTYPE_MOPDL)
  else if proto =? Q_MOPRC then Some (gen_linktype ETHERTYPE_MOPRC)
  else if proto =? Q_IPV6 then Some (gen_linktype ETHERTYPE_IPV6)
  else if proto =? Q_ICMPV6 then Some (gen_proto IPPROTO_ICMPV6 Q_IPV6 Q_DEFAULT)
  else if proto =? Q_AH then Some (gen_proto_46 IPPROTO_AH)
  else if proto =? Q_ESP then Some (gen_proto_46 IPPROTO_ESP)
  else None.

Definition proto_abbrev_2 (proto : Z) : option (gen nat) :=
  if proto =? Q_ISO then Some (gen_linktype LLCSAP_ISONS)
  else if proto =? Q_ESIS then Some (gen_proto ISO9542_ESIS Q_ISO Q_DEFAULT)
  else if proto =? Q_ISIS then Some (gen_proto ISO10589_ISIS Q_ISO Q_DEFAULT)
  else if proto =? Q_ISIS_L1 then
    Some (gen_isis_pdus ISIS_L1_LAN_IIH ISIS_PTP_IIH [ISIS_L1_LSP; ISIS_L1_CSNP; ISIS_L1_PSNP])
  else if proto =? Q_ISIS_L2 then
    Some (gen_isis_pdus ISIS_L2_LAN_IIH ISIS_PTP_IIH [ISIS_L2_LSP; ISIS_L2_CSNP; ISIS_L2_PSNP])
  else if proto =? Q_ISIS_IIH then Some (gen_isis_pdus ISIS_L1_LAN_IIH ISIS_L2_LAN_IIH [ISIS_PTP_IIH])
  else if proto =? Q_ISIS_LSP then Some (gen_isis_pdus ISIS_L1_LSP ISIS_L2_LSP [])
  else if proto =? Q_ISIS_SNP then
    Some (gen_isis_pdus ISIS_L1_CSNP ISIS_L2_CSNP [ISIS_L1_PSNP; ISIS_L2_PSNP])
  else if proto =? Q_ISIS_CSNP then Some (gen_isis_pdus ISIS_L1_CSNP ISIS_L2_CSNP [])
  else if proto =? Q_ISIS_PSNP then Some (gen_isis_pdus ISIS_L1_PSNP ISIS_L2_PSNP [])
  else if proto =? Q_CLNP then Some (gen_proto ISO8473_CLNP Q_ISO Q_DEFAULT)
  else if proto =? Q_STP then Some (gen_linktype LLCSAP_8021D)
  else if proto =? Q_IPX then Some (gen_linktype LLCSAP_IPX)
  else if proto =? Q_NETBEUI then Some (gen_linktype LLCSAP_NETBEUI)
  else if proto =? Q_RADIO then Some (bpf_error "'radio' is not a valid protocol type")
  else None.

Definition gen_proto_abbrev (proto : Z) : gen nat :=
  first_of [proto_abbrev_1 proto; proto_abbrev_2 proto] (fail G_abort).

(** ** Numbers *)

(** [struct qual] *)
Record qual := Qual { q_addr : Z; q_proto : Z; q_dir : Z }.

(** The [while] loop that promotes a short net number: at most four turns
    move a bit into the top byte. *)
Fixpoint promote_net (fuel : nat) (v mask : Z) : Z * Z :=
  match fuel with
  | O => (v, mask)
  | S fuel =>
      if negb (v =? 0) && (v .& 0xff000000 =? 0) then promote_net fuel (u32 (v << 8)) (u32 (mask << 8))
      else (v, mask)
  end.

(** The qualifier of a port as an IP protocol. *)
Definition port_proto (what : string) (proto : Z) : gen Z :=
  if proto =? Q_UDP then ret IPPROTO_UDP
  else if proto =? Q_TCP then ret IPPROTO_TCP
  else if proto =? Q_SCTP then ret IPPROTO_SCTP
  else if proto =? Q_DEFAULT then ret PROTO_UNDEF
  else bpf_error (String.append "illegal qualifier of '" (String.append what "'")).

(** ** Ethernet addresses, broadcasts and lengths *)

(** The check against an LE Control marker before an Ethernet address. *)
Definition gen_lane (g : gen nat) : gen nat :=
  tmp <- gen_cmp OR_LINK SUNATM_PKT_BEGIN_POS BPF_H 0xff00 ;;
  gen_not tmp ;;
  b <- g ;;
  gen_and tmp b ;;
  ret b.

Definition is_wlan (lt : Z) : bool :=
  one_of lt [DLT_IEEE802_11; DLT_PRISM_HEADER; DLT_IEEE802_11_RADIO_AVS; DLT_IEEE802_11_RADIO; DLT_PPI].

Definition gen_ahostop (eaddr : list byte) (dir : Z) : gen nat :=
  let at_ off := b <- gen_bcmp OR_LINK off eaddr ;; nonnull b in
  by_dir dir (at_ 0) (at_ 1) (wlan_dir "802.11" dir).

Definition gen_len (jmp n : Z) : gen nat :=
  s <- new_stmt (BPF_LD .| BPF_LEN) 0 ;;
  new_branch (JMP jmp) [s] n.
Definition gen_greater (n : Z) : gen nat := gen_len BPF_JGE n.
Definition gen_less (n : Z) : gen nat := b <- gen_len BPF_JGT n ;; gen_not b ;; ret b.

Inductive byteop := OpEq | OpLt | OpGt | OpOr | OpAnd.

(** [gen_byteop (op, idx, val)]: the last two operators apply to whatever the
    accumulator holds, for nothing is loaded. *)
Definition gen_byteop (op : byteop) (idx val : Z) : gen nat :=
  let combine code :=
    s <- new_stmt (BPF_ALU .| code .| BPF_K) val ;;
    b <- new_branch (JMP BPF_JEQ) [s] 0 ;;
    gen_not b ;;
    ret b in
  match op with
  | OpEq => gen_cmp OR_LINK (u32 idx) BPF_B val
  | OpLt => gen_cmp_lt OR_LINK (u32 idx) BPF_B val
  | OpGt => gen_cmp_gt OR_LINK (u32 idx) BPF_B val
  | OpOr => combine BPF_OR
  | OpAnd => combine BPF_AND
  end.
