(* ===== verification/GenArth.v ===== *)
(** [gencode.c]: arithmetic on packet data and the relations between its
    results. *)
From S2P Require Import Prelude Bpf BpfFilter Datalink GenConst Gencode GenLink GenProto.

#[local] Open Scope Z_scope.
#[local] Open Scope c_scope.
#[local] Open Scope gen_scope.

(** [struct arth]: [a_b] are the checks that the packet is of the protocols
    that are loaded from, [a_s] computes the value and leaves it in the
    register [a_regno]. *)
Record arth := Arth { a_b : option nat; a_s : list slist; a_regno : Z }.

Definition xfer_to_x (a : arth) : gen (list slist) :=
  s <- new_stmt (BPF_LDX .| BPF_MEM) (a_regno a) ;; ret [s].
Definition xfer_to_a (a : arth) : gen (list slist) :=
  s <- new_stmt (BPF_LD .| BPF_MEM) (a_regno a) ;; ret [s].

(** The store to a register that ends each computation. *)
Definition store_reg (n : Z) : gen (list slist) :=
  s <- new_stmt BPF_ST n ;; ret [s].

(** [A += X; X = A] after the index has been loaded into [A]. *)
Definition add_to_x (inst : arth) : gen (list slist) :=
  s1 <- xfer_to_a inst ;;
  s2 <- new_stmt (BPF_ALU .| BPF_ADD .| BPF_X) 0 ;;
  s3 <- new_stmt (BPF_MISC .| BPF_TAX) 0 ;;
  ret (s1 ++ [s2; s3]).

(** The index, plus what the code [s] leaves in [X], in [X]. *)
Definition index_in_x (s : option (list slist)) (inst : arth) : gen (list slist) :=
  match s with
  | Some s => s' <- add_to_x inst ;; ret (s ++ s')
  | None => xfer_to_x inst
  end.

(** [if (inst->b) gen_and(inst->b, b);] *)
Definition and_check (b0 : option nat) (b : nat) : gen unit :=
  match b0 with Some b0 => gen_and b0 b | None => ret tt end.

(** The cases of [gen_load]'s [switch (proto)] return the checks and the
    statements to append. *)
Definition gen_load_radio (inst : arth) (size : Z) : gen (option nat * list slist) :=
  o <- get_off ;;
  if negb (one_of (o_linktype o) [DLT_IEEE802_11_RADIO_AVS; DLT_IEEE802_11_RADIO; DLT_PRISM_HEADER]) then
    bpf_error "radio information not present in capture"
  else
    s <- xfer_to_x inst ;;
    tmp <- new_stmt (BPF_LD .| BPF_IND .| size) 0 ;;
    ret (a_b inst, s ++ [tmp]).

Definition gen_load_link (inst : arth) (size : Z) : gen (option nat * list slist) :=
  o <- get_off ;;
  s <- gen_llprefixlen ;;
  s <- index_in_x s inst ;;
  tmp <- new_stmt (BPF_LD .| BPF_IND .| size) (off_ll o) ;;
  ret (a_b inst, s ++ [tmp]).

Definition gen_load_net (proto : Z) (inst : arth) (size : Z) : gen (option nat * list slist) :=
  o <- get_off ;;
  s <- gen_off_macpl ;;
  s <- index_in_x s inst ;;
  tmp <- new_stmt (BPF_LD .| BPF_IND .| size) (u32 (off_macpl o + off_nl o)) ;;
  b <- gen_proto_abbrev proto ;;
  and_check (a_b inst) b ;;
  ret (Some b, s ++ [tmp]).

(** The arguments of [gen_and] are evaluated from left to right, an order
    that C leaves open. *)
Definition gen_load_tran (proto : Z) (inst : arth) (size : Z) : gen (option nat * list slist) :=
  o <- get_off ;;
  s <- gen_loadx_iphdrlen ;;
  s' <- add_to_x inst ;;
  tmp <- new_stmt (BPF_LD .| BPF_IND .| size) (u32 (off_macpl o + off_nl o)) ;;
  b0 <- gen_proto_abbrev proto ;;
  b <- gen_ipfrag ;;
  gen_and b0 b ;;
  and_check (a_b inst) b ;;
  b0 <- gen_proto_abbrev Q_IP ;;
  gen_and b0 b ;;
  ret (Some b, s ++ s' ++ [tmp]).

Definition gen_load (proto : Z) (inst : arth) (size : Z) : gen arth :=
  regno <- alloc_reg ;;
  free_reg (a_regno inst) ;;
  size <- (if size =? 1 then ret BPF_B
           else if size =? 2 then ret BPF_H
           else if size =? 4 then ret BPF_W
           else bpf_error "data size must be 1, 2, or 4") ;;
  r <- (if proto =? Q_RADIO then gen_load_radio inst size
        else if proto =? Q_LINK then gen_load_link inst size
        else if one_of proto [Q_IP; Q_ARP; Q_RARP; Q_ATALK; Q_DECNET; Q_SCA; Q_LAT; Q_MOPRC; Q_MOPDL; Q_IPV6]
        then gen_load_net proto inst size
        else if one_of proto [Q_SCTP; Q_TCP; Q_UDP; Q_ICMP; Q_IGMP; Q_IGRP; Q_PIM; Q_VRRP; Q_CARP]
        then gen_load_tran proto inst size
        else if proto =? Q_ICMPV6 then bpf_error "IPv6 upper-layer protocol is not supported by proto[x]"
        else bpf_error "unsupported index operation") ;;
  st <- store_reg regno ;;
  ret (Arth r.1 (a_s inst ++ r.2 ++ st) regno).

Definition gen_loadlen : gen arth :=
  regno <- alloc_reg ;;
  s <- new_stmt (BPF_LD .| BPF_LEN) 0 ;;
  st <- store_reg regno ;;
  ret (Arth None (s :: st) regno).

Definition gen_loadi (val : Z) : gen arth :=
  reg <- alloc_reg ;;
  s <- new_stmt (BPF_LD .| BPF_IMM) val ;;
  st <- store_reg reg ;;
  ret (Arth None (s :: st) reg).

Definition gen_neg (a : arth) : gen arth :=
  s <- xfer_to_a a ;;
  s2 <- new_stmt (BPF_ALU .| BPF_NEG) 0 ;;
  st <- store_reg (a_regno a) ;;
  ret (Arth (a_b a) (a_s a ++ s ++ [s2] ++ st) (a_regno a)).

(** The checks of [a1] are dropped: the code returns [a0]. *)
Definition gen_arth (code : Z) (a0 a1 : arth) : gen arth :=
  s0 <- xfer_to_x a1 ;;
  s1 <- xfer_to_a a0 ;;
  s2 <- new_stmt (BPF_ALU .| BPF_X .| code) 0 ;;
  free_reg (a_regno a0) ;;
  free_reg (a_regno a1) ;;
  n <- alloc_reg ;;
  st <- store_reg n ;;
  ret (Arth (a_b a0) (a_s a0 ++ a_s a1 ++ s0 ++ s1 ++ [s2] ++ st) n).

Definition gen_relation (code : Z) (a0 a1 : arth) (reversed : bool) : gen nat :=
  s0 <- xfer_to_x a1 ;;
  s1 <- xfer_to_a a0 ;;
  s2 <- (if code =? BPF_JEQ then s2 <- new_stmt (BPF_ALU .| BPF_SUB .| BPF_X) 0 ;; ret [s2] else ret []) ;;
  b <- new_block (if code =? BPF_JEQ then JMP code else BPF_JMP .| code .| BPF_X) ;;
  (if reversed then gen_not b else ret tt) ;;
  set_stmts b (a_s a0 ++ a_s a1 ++ s0 ++ s1 ++ s2) ;;
  free_reg (a_regno a0) ;;
  free_reg (a_regno a1) ;;
  tmp <- match a_b a0, a_b a1 with
         | Some b0, Some b1 => gen_and b0 b1 ;; ret (Some b1)
         | Some b0, None => ret (Some b0)
         | None, b1 => ret b1
         end ;;
  and_check tmp b ;;
  ret b.
