(* ===== verification/GenMisc.v ===== *)
(** [gencode.c]: multicast, direction, 802.11 and ARCNET tests, the
    encapsulations that shift the offsets of the tests after them (VLAN, MPLS
    and PPPoE), and ATM and SS7. *)
From S2P Require Import Prelude CString Bpf BpfFilter Datalink GenConst Gencode GenLink GenProto GenArth.

#[local] Open Scope Z_scope.
#[local] Open Scope c_scope.
#[local] Open Scope gen_scope.

(** [b = new_block(JMP(jtype)); b->s.k = k; b->stmts = gen_load_a(OR_LINK, offset, BPF_B);] *)
Definition gen_link_bits (offset k : Z) : gen nat :=
  s <- gen_load_a OR_LINK offset BPF_B ;;
  new_branch (JMP BPF_JSET) s k.
(** The same, inverted. *)
Definition gen_link_no_bits (offset k : Z) : gen nat :=
  b <- gen_link_bits offset k ;;
  gen_not b ;;
  ret b.

(** ** Multicast *)

Definition gen_mac_multicast (offset : Z) : gen nat := gen_link_bits (u32 offset) 1.

(** The tests of the destination of a 802.11 frame. *)
Definition gen_wlan_multicast : gen nat :=
  b1 <- gen_link_bits 1 0x01 ;;
  b0 <- gen_mac_multicast 16 ;;
  gen_and b1 b0 ;;
  b2 <- gen_link_no_bits 1 0x01 ;;
  b1 <- gen_mac_multicast 4 ;;
  gen_and b2 b1 ;;
  gen_or b1 b0 ;;
  b1 <- gen_link_bits 0 0x08 ;;
  gen_and b1 b0 ;;
  b2 <- gen_link_no_bits 0 0x08 ;;
  b1 <- gen_mac_multicast 4 ;;
  gen_and b2 b1 ;;
  gen_or b1 b0 ;;
  b1 <- gen_link_no_bits 0 0x04 ;;
  gen_and b1 b0 ;;
  ret b0.

Definition gen_multicast (proto : Z) : gen nat :=
  let bad := bpf_error "link-layer multicast filters supported only on ethernet/FDDI/token ring/ARCNET/802.11/ATM LANE/Fibre Channel" in
  o <- get_off ;;
  let lt := o_linktype o in
  if one_of proto [Q_DEFAULT; Q_LINK] then
    if one_of lt [DLT_ARCNET; DLT_ARCNET_LINUX] then gen_ahostop [byte.of_Z 0] Q_DST
    else if one_of lt [DLT_EN10MB; DLT_NETANALYZER; DLT_NETANALYZER_TRANSPARENT] then gen_mac_multicast 0
    else if lt =? DLT_FDDI then gen_mac_multicast 1
    else if lt =? DLT_IEEE802 then gen_mac_multicast 2
    else if is_wlan lt then gen_wlan_multicast
    else if lt =? DLT_IP_OVER_FC then gen_mac_multicast 2
    else if (lt =? DLT_SUNATM) && is_lane o then
      b1 <- gen_cmp OR_LINK SUNATM_PKT_BEGIN_POS BPF_H 0xff00 ;;
      gen_not b1 ;;
      b0 <- gen_mac_multicast (i32 (off_mac o)) ;;
      gen_and b1 b0 ;;
      ret b0
    else bad
  else if proto =? Q_IP then
    b0 <- gen_linktype ETHERTYPE_IP ;;
    b1 <- gen_cmp_ge OR_NET 16 BPF_B 224 ;;
    gen_and b0 b1 ;;
    ret b1
  else if proto =? Q_IPV6 then
    b0 <- gen_linktype ETHERTYPE_IPV6 ;;
    b1 <- gen_cmp OR_NET 24 BPF_B 255 ;;
    gen_and b0 b1 ;;
    ret b1
  else bad.

(** ** Direction *)

(** Linux's [SKF_AD_OFF + SKF_AD_PKTTYPE] and [PACKET_OUTGOING]. *)
Definition SKF_AD_OFF := -0x1000.
Definition SKF_AD_PKTTYPE := 4.
Definition PACKET_OUTGOING := 4.

Definition gen_outgoing (g : gen nat) (dir : bool) : gen nat :=
  b0 <- g ;;
  (if dir then ret tt else gen_not b0) ;;
  ret b0.

(** [rfile] says that packets are read from a savefile; the arguments of
    [gen_relation] are evaluated from left to right, an order that C leaves
    open. *)
Definition gen_inbound (rfile : bool) (dir : bool) : gen nat :=
  o <- get_off ;;
  let lt := o_linktype o in
  if lt =? DLT_SLIP then
    a <- gen_loadi 0 ;;
    a0 <- gen_load Q_LINK a 1 ;;
    a1 <- gen_loadi 0 ;;
    gen_relation BPF_JEQ a0 a1 dir
  else if lt =? DLT_IPNET then gen_cmp OR_LINK 2 BPF_H (if dir then IPNET_OUTBOUND else IPNET_INBOUND)
  else if lt =? DLT_LINUX_SLL then gen_outgoing (gen_cmp OR_LINK 0 BPF_H LINUX_SLL_OUTGOING) dir
  else if lt =? DLT_PPP_PPPD then gen_cmp OR_LINK 0 BPF_B (if dir then PPP_PPPD_OUT else PPP_PPPD_IN)
  else if one_of lt [DLT_JUNIPER_MFR; DLT_JUNIPER_MLFR; DLT_JUNIPER_MLPPP; DLT_JUNIPER_ATM1;
                     DLT_JUNIPER_ATM2; DLT_JUNIPER_PPPOE; DLT_JUNIPER_PPPOE_ATM; DLT_JUNIPER_GGSN;
                     DLT_JUNIPER_ES; DLT_JUNIPER_MONITOR; DLT_JUNIPER_SERVICES; DLT_JUNIPER_ETHER;
                     DLT_JUNIPER_PPP; DLT_JUNIPER_FRELAY; DLT_JUNIPER_CHDLC; DLT_JUNIPER_VP;
                     DLT_JUNIPER_ST; DLT_JUNIPER_ISM; DLT_JUNIPER_VS; DLT_JUNIPER_SRX_E2E;
                     DLT_JUNIPER_FIBRECHANNEL; DLT_JUNIPER_ATM_CEMIC] then
    gen_mcmp OR_LINK 3 BPF_B (if dir then 0 else 1) 0x01
  else if rfile then
    bpf_error (String.append "inbound/outbound not supported on linktype "
                 (String.append (fmt_d lt) " when reading savefiles"))
  else gen_outgoing (gen_cmp OR_LINK (u32 (SKF_AD_OFF + SKF_AD_PKTTYPE)) BPF_H PACKET_OUTGOING) dir.

(** The six tests of PF logs of a build without [net/pfvar.h]. *)
Definition gen_pf_ifname : gen nat := bpf_error "libpcap was compiled without pf support".
Definition gen_pf_other : gen nat := bpf_error "libpcap was compiled on a machine without pf support".

(** ** 802.11 and ARCNET *)

Definition is_80211 (lt : Z) : bool :=
  one_of lt [DLT_IEEE802_11; DLT_PRISM_HEADER; DLT_IEEE802_11_RADIO_AVS; DLT_IEEE802_11_RADIO].

Definition gen_p80211_type (type mask : Z) : gen nat :=
  o <- get_off ;;
  if is_80211 (o_linktype o) then gen_mcmp OR_LINK 0 BPF_B type (u32 mask)
  else bpf_error "802.11 link-layer types supported only on 802.11".

Definition gen_p80211_fcdir (fcdir : Z) : gen nat :=
  o <- get_off ;;
  if is_80211 (o_linktype o) then gen_mcmp OR_LINK 1 BPF_B fcdir IEEE80211_FC1_DIR_MASK
  else bpf_error "frame direction supported only with 802.11 headers".

Definition gen_acode (eaddr : list byte) (q : qual) : gen nat :=
  o <- get_off ;;
  if one_of (o_linktype o) [DLT_ARCNET; DLT_ARCNET_LINUX] then
    if one_of (q_addr q) [Q_HOST; Q_DEFAULT] && (q_proto q =? Q_LINK) then gen_ahostop eaddr (q_dir q)
    else bpf_error "ARCnet address used in non-arc expression"
  else bpf_error "aid supported only on ARCnet".

(** ** Encapsulations *)

(** [orig_linktype], [orig_nl], [label_stack_depth] and [is_pppoes]. *)
Definition set_encap (o : layout) (olt onl depth : Z) (pppoes : bool) : layout :=
  Layout (o_linktype o) (off_linktype o) (off_macpl o) (off_macpl_is_variable o) (off_nl o)
         (off_nl_nosnap o) (off_ll o) (off_mac o) pppoes (is_atm o) (is_lane o) (off_vpi o)
         (off_vci o) (off_proto o) (off_payload o) (off_li o) (off_sio o) (off_opc o) (off_dpc o)
         (off_sls o) olt onl depth (o_swapped o) (o_no_optimize o).
Definition set_lane (o : layout) (lane : bool) : layout :=
  Layout (o_linktype o) (off_linktype o) (off_macpl o) (off_macpl_is_variable o) (off_nl o)
         (off_nl_nosnap o) (off_ll o) (off_mac o) (is_pppoes o) (is_atm o) lane (off_vpi o)
         (off_vci o) (off_proto o) (off_payload o) (off_li o) (off_sio o) (off_opc o) (off_dpc o)
         (off_sls o) (orig_linktype o) (orig_nl o) (label_stack_depth o) (o_swapped o) (o_no_optimize o).

(** [b1 = g; gen_and(b0, b1); b0 = b1], if [n >= 0]. *)
Definition and_if (n : Z) (b0 : nat) (g : gen nat) : gen nat :=
  if 0 <=? n then b1 <- g ;; gen_and b0 b1 ;; ret b1 else ret b0.

Definition gen_vlan (vlan_num : Z) : gen nat :=
  o <- get_off ;;
  if 0 <? label_stack_depth o then bpf_error "no VLAN match after MPLS"
  else if one_of (o_linktype o) [DLT_EN10MB; DLT_NETANALYZER; DLT_NETANALYZER_TRANSPARENT] then
    b0 <- gen_cmp OR_LINK (off_linktype o) BPF_H ETHERTYPE_8021Q ;;
    b1 <- gen_cmp OR_LINK (off_linktype o) BPF_H ETHERTYPE_8021QINQ ;;
    gen_or b0 b1 ;;
    b0 <- and_if vlan_num b1 (gen_mcmp OR_MACPL 0 BPF_H vlan_num 0x0fff) ;;
    set_off (set_offs (set_encap o (orig_linktype o) (off_nl o) (label_stack_depth o) (is_pppoes o))
               (u32 (off_linktype o + 4)) (u32 (off_macpl o + 4)) (off_nl o) (off_nl_nosnap o)) ;;
    ret b0
  else bpf_error (String.append "no VLAN support for data link type " (fmt_d (o_linktype o))).

Definition gen_mpls (label_num : Z) : gen nat :=
  o <- get_off ;;
  b0 <- (if 0 <? label_stack_depth o then gen_mcmp OR_MACPL (u32 (off_nl o - 2)) BPF_B 0 0x01
         else if one_of (o_linktype o) [DLT_C_HDLC; DLT_EN10MB; DLT_NETANALYZER; DLT_NETANALYZER_TRANSPARENT]
         then gen_linktype ETHERTYPE_MPLS
         else if o_linktype o =? DLT_PPP then gen_linktype PPP_MPLS_UCAST
         else bpf_error (String.append "no MPLS support for data link type " (fmt_d (o_linktype o)))) ;;
  b0 <- and_if label_num b0 (gen_mcmp OR_MACPL (off_nl o) BPF_W (i32 (label_num << 12)) 0xfffff000) ;;
  set_off (set_offs (set_encap o (orig_linktype o) (off_nl o) (u32 (label_stack_depth o + 1)) (is_pppoes o))
             (off_linktype o) (off_macpl o) (u32 (off_nl o + 4)) (u32 (off_nl_nosnap o + 4))) ;;
  ret b0.

Definition gen_pppoed : gen nat := gen_linktype ETHERTYPE_PPPOED.
Definition gen_pppoes : gen nat :=
  b0 <- gen_linktype ETHERTYPE_PPPOES ;;
  o <- get_off ;;
  set_off (set_offs (set_encap o (off_linktype o) (off_nl o) (label_stack_depth o) true)
             (u32 (off_nl o + 6)) (off_macpl o) 8 8) ;;
  ret b0.

(** ** ATM *)

Definition atm_only (what : string) (g : gen nat) : gen nat :=
  o <- get_off ;;
  if is_atm o then g
  else bpf_error (String.append "'" (String.append what "' supported only on raw ATM")).

(** The circuit with VPI 0 and a VCI. *)
Definition gen_atm_circuit (vci : Z) : gen nat :=
  both (gen_atmfield_code A_VPI 0 BPF_JEQ false) (gen_atmfield_code A_VCI vci BPF_JEQ false).

Definition gen_atmtype_abbrev (type : Z) : gen nat :=
  if type =? A_METAC then atm_only "metac" (gen_atm_circuit 1)
  else if type =? A_BCC then atm_only "bcc" (gen_atm_circuit 2)
  else if type =? A_OAMF4SC then atm_only "oam4sc" (gen_atm_circuit 3)
  else if type =? A_OAMF4EC then atm_only "oam4ec" (gen_atm_circuit 4)
  else if type =? A_SC then atm_only "sc" (gen_atm_circuit 5)
  else if type =? A_ILMIC then atm_only "ilmic" (gen_atm_circuit 16)
  else if type =? A_LANE then
    atm_only "lane" (
      b1 <- gen_atmfield_code A_PROTOTYPE PT_LANE BPF_JEQ false ;;
      o <- get_off ;;
      let mac := u32 (off_payload o + 2) in
      set_off (set_offs (set_mac (set_lane o true) mac) (u32 (mac + 12)) (u32 (mac + 14)) 0 3) ;;
      ret b1)
  else if type =? A_LLC then
    atm_only "llc" (
      b1 <- gen_atmfield_code A_PROTOTYPE PT_LLC BPF_JEQ false ;;
      o <- get_off ;;
      set_off (set_lane o false) ;;
      ret b1)
  else fail G_abort.

Definition gen_msg_abbrev (type : Z) : gen nat :=
  let msg v := gen_atmfield_code A_MSGTYPE v BPF_JEQ false in
  if type =? A_SETUP then msg SETUP
  else if type =? A_CALLPROCEED then msg CALL_PROCEED
  else if type =? A_CONNECT then msg CONNECT
  else if type =? A_CONNECTACK then msg CONNECT_ACK
  else if type =? A_RELEASE then msg RELEASE
  else if type =? A_RELEASE_DONE then msg RELEASE_DONE
  else fail G_abort.

(** [b0 = g; gen_or(b0, b1);] for each message. *)
Fixpoint gen_or_msgs (types : list Z) (b1 : nat) : gen nat :=
  match types with
  | [] => ret b1
  | t :: types => b0 <- gen_msg_abbrev t ;; gen_or b0 b1 ;; gen_or_msgs types b1
  end.
Definition gen_msgs_of (types : list Z) (circuit : Z) : gen nat :=
  b0 <- gen_msg_abbrev A_SETUP ;;
  b1 <- gen_msg_abbrev A_CALLPROCEED ;;
  gen_or b0 b1 ;;
  b1 <- gen_or_msgs types b1 ;;
  b0 <- gen_atmtype_abbrev circuit ;;
  gen_and b0 b1 ;;
  ret b1.

Definition gen_oamf4 : gen nat :=
  atm_only "oamf4" (
    b0 <- gen_atmfield_code A_VCI 3 BPF_JEQ false ;;
    b1 <- gen_atmfield_code A_VCI 4 BPF_JEQ false ;;
    gen_or b0 b1 ;;
    b0 <- gen_atmfield_code A_VPI 0 BPF_JEQ false ;;
    gen_and b0 b1 ;;
    ret b1).
Definition gen_atmmulti_abbrev (type : Z) : gen nat :=
  if type =? A_OAM then atm_only "oam" gen_oamf4
  else if type =? A_OAMF4 then gen_oamf4
  else if type =? A_CONNECTMSG then
    atm_only "connectmsg" (gen_msgs_of [A_CONNECT; A_CONNECTACK; A_RELEASE; A_RELEASE_DONE] A_SC)
  else if type =? A_METACONNECT then
    atm_only "metaconnect" (gen_msgs_of [A_CONNECT; A_RELEASE; A_RELEASE_DONE] A_METAC)
  else fail G_abort.

(** ** SS7 *)

Definition gen_mtp2type_abbrev (type : Z) : gen nat :=
  o <- get_off ;;
  let only what g :=
    if one_of (o_linktype o) [DLT_MTP2; DLT_ERF; DLT_MTP2_WITH_PHDR] then g
    else bpf_error (String.append "'" (String.append what "' supported only on MTP2")) in
  if type =? M_FISU then only "fisu"%string (gen_ncmp OR_PACKET (off_li o) BPF_B 0x3f BPF_JEQ false 0)
  else if type =? M_LSSU then
    only "lssu"%string (
      b0 <- gen_ncmp OR_PACKET (off_li o) BPF_B 0x3f BPF_JGT true 2 ;;
      b1 <- gen_ncmp OR_PACKET (off_li o) BPF_B 0x3f BPF_JGT false 0 ;;
      gen_and b1 b0 ;;
      ret b0)
  else if type =? M_MSU then only "msu"%string (gen_ncmp OR_PACKET (off_li o) BPF_B 0x3f BPF_JGT false 2)
  else fail G_abort.

(** The forms in which SS7 messages hold the point codes. *)
Definition ss7_opc (v : Z) : Z :=
  ((v .& 0x3c00) >> 10) + ((v .& 0x3fc) << 6) + ((v .& 3) << 22).
Definition ss7_dpc (v : Z) : Z := ((v .& 0xff) << 24) + ((v .& 0x3f00) << 8).

(** [jvalue] is a [bpf_u_int32], and a [bpf_int32] in the comparison. *)
Definition gen_mtp3field_code (mtp3field jvalue jtype : Z) (reverse : bool) : gen nat :=
  o <- get_off ;;
  let field (what : string) off max size mask v :=
    if off =? NONE then bpf_error (String.append "'" (String.append what "' supported only on SS7"))
    else if max <? jvalue then
      bpf_error (String.append what (String.append " value " (String.append (fmt_d jvalue)
        (String.append " too big; max value = " (fmt_d max)))))
    else gen_ncmp OR_PACKET off size mask jtype reverse v in
  if mtp3field =? M_SIO then field "sio"%string (off_sio o) 255 BPF_B 0xffffffff jvalue
  else if mtp3field =? M_OPC then field "opc"%string (off_opc o) 16383 BPF_W 0x00c0ff0f (ss7_opc jvalue)
  else if mtp3field =? M_DPC then field "dpc"%string (off_dpc o) 16383 BPF_W 0xff3f0000 (i32 (ss7_dpc jvalue))
  else if mtp3field =? M_SLS then field "sls"%string (off_sls o) 15 BPF_B 0xf0 (jvalue << 4)
  else fail G_abort.
