(* ===== verification/GenWlan.v ===== *)
(** [gencode.c]: the addresses of 802.11 frames ([gen_wlanhostop]) and the
    loop that follows a chain of headers ([gen_protochain]). *)
From S2P Require Import Prelude Bpf BpfFilter Datalink GenConst Gencode GenLink GenProto GenMisc.

#[local] Open Scope Z_scope.
#[local] Open Scope c_scope.
#[local] Open Scope gen_scope.

(** ** [gen_wlanhostop] *)

(** [g0 AND address at offset], in the place of the test that is returned. *)
Definition and_mac (b : nat) (offset : Z) (eaddr : list byte) : gen nat :=
  b0 <- gen_mac offset eaddr ;;
  gen_and b b0 ;;
  ret b0.

(** The tests at the end of the cases [Q_SRC] and [Q_DST]: management frames
    have the address at [offset], control frames have none. *)
Definition wlan_frame_types (b0 : nat) (offset : Z) (eaddr : list byte) : gen nat :=
  b1 <- gen_link_bits 0 0x08 ;;
  gen_and b1 b0 ;;
  b2 <- gen_link_no_bits 0 0x08 ;;
  b1 <- and_mac b2 offset eaddr ;;
  gen_or b1 b0 ;;
  b1 <- gen_link_no_bits 0 0x04 ;;
  gen_and b1 b0 ;;
  ret b0.

Definition gen_wlan_src (eaddr : list byte) : gen nat :=
  b1 <- gen_link_bits 1 0x01 ;;
  b0 <- and_mac b1 24 eaddr ;;
  b2 <- gen_link_no_bits 1 0x01 ;;
  b1 <- and_mac b2 16 eaddr ;;
  gen_or b1 b0 ;;
  b1 <- gen_link_bits 1 0x02 ;;
  gen_and b1 b0 ;;
  b2 <- gen_link_no_bits 1 0x02 ;;
  b1 <- and_mac b2 10 eaddr ;;
  gen_or b1 b0 ;;
  wlan_frame_types b0 10 eaddr.

Definition gen_wlan_dst (eaddr : list byte) : gen nat :=
  b1 <- gen_link_bits 1 0x01 ;;
  b0 <- and_mac b1 16 eaddr ;;
  b2 <- gen_link_no_bits 1 0x01 ;;
  b1 <- and_mac b2 4 eaddr ;;
  gen_or b1 b0 ;;
  wlan_frame_types b0 4 eaddr.

(** Frames that are neither CTS nor ACK have a second address. *)
Definition gen_not_mcmp (v mask : Z) : gen nat :=
  b <- gen_mcmp OR_LINK 0 BPF_B v mask ;;
  gen_not b ;;
  ret b.
Definition gen_not_cts_ack : gen nat :=
  b0 <- gen_not_mcmp IEEE80211_FC0_TYPE_CTL IEEE80211_FC0_TYPE_MASK ;;
  b1 <- gen_not_mcmp IEEE80211_FC0_SUBTYPE_CTS IEEE80211_FC0_SUBTYPE_MASK ;;
  b2 <- gen_not_mcmp IEEE80211_FC0_SUBTYPE_ACK IEEE80211_FC0_SUBTYPE_MASK ;;
  gen_and b1 b2 ;;
  gen_or b0 b2 ;;
  ret b2.

(** The other directions name one of the address fields. *)
Definition gen_wlanhostop (eaddr : list byte) (dir : Z) : gen nat :=
  by_dir dir (gen_wlan_src eaddr) (gen_wlan_dst eaddr)
    (if dir =? Q_RA then b1 <- gen_link_bits 0 0x08 ;; and_mac b1 4 eaddr
     else if dir =? Q_TA then
       b2 <- gen_not_cts_ack ;;
       b1 <- gen_link_bits 0 0x08 ;;
       gen_and b1 b2 ;;
       and_mac b2 10 eaddr
     else if dir =? Q_ADDR1 then gen_mac 4 eaddr
     else if dir =? Q_ADDR2 then b2 <- gen_not_cts_ack ;; and_mac b2 10 eaddr
     else if dir =? Q_ADDR3 then
       b0 <- gen_not_mcmp IEEE80211_FC0_TYPE_CTL IEEE80211_FC0_TYPE_MASK ;;
       and_mac b0 16 eaddr
     else if dir =? Q_ADDR4 then
       b0 <- gen_mcmp OR_LINK 1 BPF_B IEEE80211_FC1_DIR_DSTODS IEEE80211_FC1_DIR_MASK ;;
       and_mac b0 24 eaddr
     else fail G_abort).

(** ** [gen_protochain] *)

Definition IPPROTO_NONE := 59.

(** The statements [s[0..]] with their branches as indices. *)
Record lstmt := Lstmt { l_code : Z; l_k : Z; l_jt : option nat; l_jf : option nat }.
Definition stmt_ (code k : Z) : lstmt := Lstmt code k None None.
Definition jump_ (k : Z) (jt jf : nat) : lstmt := Lstmt (BPF_JMP .| BPF_JEQ .| BPF_K) k (Some jt) (Some jf).

Fixpoint new_stmts (l : list lstmt) : gen (list slist) :=
  match l with
  | [] => ret []
  | x :: l => s <- new_stmt (l_code x) (l_k x) ;; ss <- new_stmts l ;; ret (s :: ss)
  end.
(** The assignments to [s[i]->s.jt] and [s[i]->s.jf]. *)
Definition link_stmts (l : list lstmt) (ss : list slist) : list slist :=
  let target i := match i with Some i => option_map sl_id (ss !! i) | None => None end in
  zip_with (fun x s => Slist (sl_id s) (sl_code s) (sl_k s) (target (l_jt x)) (target (l_jf x))) l ss.

(** The statements from the start to the test for AH, of which the first is
    the dummy. *)
Definition chain_ip (nl v : Z) : list lstmt :=
  [ stmt_ 0 0;
    stmt_ (BPF_LD .| BPF_ABS .| BPF_B) (u32 (nl + 9));
    stmt_ (BPF_LDX .| BPF_MSH .| BPF_B) nl;
    (* again: *)
    jump_ v 19 4;
    jump_ IPPROTO_NONE 19 5;
    stmt_ (BPF_ALU .| BPF_ADD .| BPF_K) 0 ].
Definition chain_ip6 (nl v reg2 : Z) : list lstmt :=
  [ stmt_ 0 0;
    stmt_ (BPF_LD .| BPF_ABS .| BPF_B) (u32 (nl + 6));
    stmt_ (BPF_LDX .| BPF_IMM) 40;
    (* again: *)
    jump_ v 31 4;
    jump_ IPPROTO_NONE 31 5;
    jump_ IPPROTO_HOPOPTS 9 6;
    jump_ IPPROTO_DSTOPTS 9 7;
    jump_ IPPROTO_ROUTING 9 8;
    jump_ IPPROTO_FRAGMENT 9 18;
    (* v6advance: *)
    stmt_ (BPF_LD .| BPF_IND .| BPF_B) nl;
    stmt_ BPF_ST reg2;
    stmt_ (BPF_LD .| BPF_IND .| BPF_B) (u32 (nl + 1));
    stmt_ (BPF_ALU .| BPF_ADD .| BPF_K) 1;
    stmt_ (BPF_ALU .| BPF_MUL .| BPF_K) 8;
    stmt_ (BPF_ALU .| BPF_ADD .| BPF_X) 0;
    stmt_ (BPF_MISC .| BPF_TAX) 0;
    Lstmt (BPF_LD .| BPF_MEM) reg2 None (Some 17%nat);
    stmt_ (BPF_JMP .| BPF_JA) (3 - 17 - 1) ].

(** From [ahcheck], which is [s[i]]. *)
Definition chain_ah (i : nat) (nl reg2 : Z) : list lstmt :=
  [ jump_ IPPROTO_AH (i + 1) (i + 13);
    stmt_ (BPF_MISC .| BPF_TXA) 0;
    stmt_ (BPF_LD .| BPF_IND .| BPF_B) nl;
    Lstmt BPF_ST reg2 (Some (i + 4)%nat) None;
    stmt_ (BPF_MISC .| BPF_TXA) 0;
    stmt_ (BPF_ALU .| BPF_ADD .| BPF_K) 1;
    stmt_ (BPF_MISC .| BPF_TAX) 0;
    stmt_ (BPF_LD .| BPF_IND .| BPF_B) nl;
    stmt_ (BPF_ALU .| BPF_ADD .| BPF_K) 2;
    stmt_ (BPF_ALU .| BPF_MUL .| BPF_K) 4;
    stmt_ (BPF_MISC .| BPF_TAX) 0;
    stmt_ (BPF_LD .| BPF_MEM) reg2;
    stmt_ (BPF_JMP .| BPF_JA) (3 - (Z.of_nat i + 12) - 1);
    (* end: *)
    stmt_ (BPF_ALU .| BPF_ADD .| BPF_K) 0 ].

Definition chain_stmts (v proto nl reg2 : Z) : list lstmt :=
  if proto =? Q_IP then chain_ip nl v ++ chain_ah 6 nl reg2
  else chain_ip6 nl v reg2 ++ chain_ah 18 nl reg2.

(** [no_optimize = 1] *)
Definition set_no_optimize (o : layout) : layout :=
  Layout (o_linktype o) (off_linktype o) (off_macpl o) (off_macpl_is_variable o) (off_nl o)
         (off_nl_nosnap o) (off_ll o) (off_mac o) (is_pppoes o) (is_atm o) (is_lane o) (off_vpi o)
         (off_vci o) (off_proto o) (off_payload o) (off_li o) (off_sio o) (off_opc o) (off_dpc o)
         (off_sls o) (orig_linktype o) (orig_nl o) (label_stack_depth o) (o_swapped o) true.

(** For one of [Q_IP] and [Q_IPV6]. *)
Definition gen_protochain_of (v proto reg2 : Z) : gen nat :=
  o <- get_off ;;
  if is_wlan (o_linktype o) then bpf_error "'protochain' not supported with 802.11"
  else
    set_off (set_no_optimize o) ;;
    b0 <- gen_linktype (if proto =? Q_IP then ETHERTYPE_IP else ETHERTYPE_IPV6) ;;
    let l := chain_stmts v proto (u32 (off_macpl o + off_nl o)) reg2 in
    ss <- new_stmts l ;;
    b <- new_branch (JMP BPF_JEQ) (drop 1 (link_stmts l ss)) v ;;
    free_reg reg2 ;;
    gen_and b0 b ;;
    ret b.

Definition gen_protochain (v proto dir : Z) : gen nat :=
  reg2 <- alloc_reg ;;
  if one_of proto [Q_IP; Q_IPV6] then gen_protochain_of v proto reg2
  else if proto =? Q_DEFAULT then
    reg <- alloc_reg ;;
    b0 <- gen_protochain_of v Q_IP reg ;;
    reg <- alloc_reg ;;
    b <- gen_protochain_of v Q_IPV6 reg ;;
    gen_or b0 b ;;
    ret b
  else bpf_error "bad protocol applied for 'protochain'".
