(* ===== verification/Names.v ===== *)
(** [nametoaddr.c] and [etherent.c]: names and numbers of the filter language,
    the tables of protocol names, and the [/etc/ethers] reader. *)
From S2P Require Import Prelude CString CFile Bpf BpfFilter Datalink GenConst Gencode GenProto.

#[local] Open Scope string_scope.
#[local] Open Scope Z_scope.
#[local] Open Scope c_scope.

(** ** Characters *)

(** A [char] as an [int]; it is signed. *)
Definition char_val (c : ascii) : Z := swrap 8 (Z.of_nat (nat_of_ascii c)).

(** [<ctype.h>] in the C locale. *)
Definition isdigit (c : Z) : bool := (48 <=? c) && (c <=? 57).
Definition islower (c : Z) : bool := (97 <=? c) && (c <=? 122).
Definition isxdigit (c : Z) : bool :=
  isdigit c || ((97 <=? c) && (c <=? 102)) || ((65 <=? c) && (c <=? 70)).
Definition isspace (c : Z) : bool := (c =? 32) || ((9 <=? c) && (c <=? 13)).

Definition xdtoi (c : Z) : Z :=
  if isdigit c then c - 48 else if islower c then c - 97 + 10 else c - 65 + 10.

(** ** Dotted numbers *)

(** [__pcap_atoin]: the number of bits and the address. *)
Fixpoint atoin_loop (s : string) (n addr len : Z) : Z * Z :=
  match s with
  | "" => (len + 8, u32 (addr << 8) .| (n .& 0xff))
  | String c s =>
      if (c =? ".")%char then atoin_loop s 0 (u32 (addr << 8) .| (n .& 0xff)) (len + 8)
      else atoin_loop s (u32 (n * 10 + char_val c - 48)) addr len
  end.
Definition pcap_atoin (s : string) : Z * Z := atoin_loop s 0 0 0.

(** [sscanf] conversions: [%d] reads white space, a sign and digits; the value
    of a number that is no [int] is taken modulo [2^32], the standard leaves it
    open. *)
Fixpoint skip_spaces (s : string) : string :=
  match s with
  | String c s' => if isspace (char_val c) then skip_spaces s' else s
  | "" => s
  end.
Fixpoint scan_digits (s : string) (n : Z) : Z * string :=
  match s with
  | String c s' => if isdigit (char_val c) then scan_digits s' (n * 10 + char_val c - 48) else (n, s)
  | "" => (n, s)
  end.
Definition scan_number (s : string) : option (Z * string) :=
  match s with
  | String c _ => if isdigit (char_val c) then Some (scan_digits s 0) else None
  | "" => None
  end.
Definition scan_d (s : string) : option (Z * string) :=
  match skip_spaces s with
  | String "-" s => match scan_number s with Some (n, s) => Some (i32 (- n), s) | None => None end
  | String "+" s => match scan_number s with Some (n, s) => Some (i32 n, s) | None => None end
  | s => match scan_number s with Some (n, s) => Some (i32 n, s) | None => None end
  end.
(** [sscanf (s, "%d<sep>%d", ...)], if both are converted. *)
Definition scan_pair (sep : ascii) (s : string) : option (Z * Z) :=
  match scan_d s with
  | Some (n1, String c s) =>
      if (c =? sep)%char then match scan_d s with Some (n2, _) => Some (n1, n2) | None => None end
      else None
  | _ => None
  end.

(** [__pcap_atodn]; the result is 32 bits. *)
Definition AREASHIFT := 10.
Definition AREAMASK := 0xfc00.
Definition NODEMASK := 0x3ff.
Definition pcap_atodn (s : string) : string + Z :=
  match scan_pair "." s with
  | Some (area, node) => inr ((u32 (area << AREASHIFT) .& AREAMASK) .| (u32 node .& NODEMASK))
  | None => inl ("malformed decnet address '" +:+ s +:+ "'")
  end.

(** ** Ethernet addresses *)

(** [*s == ':' || *s == '.' || *s == '-'] *)
Definition is_sep (c : ascii) : bool := (c =? ":")%char || (c =? ".")%char || (c =? "-")%char.

(** The [while] loop of [pcap_ether_aton]; [None] is a read beyond the string.
    Every turn consumes a character. *)
Fixpoint ether_aton_loop (fuel : nat) (s : string) : option (list byte) :=
  match fuel, s with
  | _, "" => Some []
  | O, _ => None
  | S fuel, String c s1 =>
      match (if is_sep c then s1 else s) with
      | "" => None
      | String c1 s2 =>
          let d := xdtoi (char_val c1) in
          let '(d, s) :=
            match s2 with
            | String c2 s3 =>
                if isxdigit (Z.of_nat (nat_of_ascii c2)) then ((d << 4) .| xdtoi (char_val c2), s3) else (d, s2)
            | "" => (d, s2)
            end in
          match ether_aton_loop fuel s with
          | Some l => Some (byte.of_Z (u8 d) :: l)
          | None => None
          end
      end
  end.
(** [pcap_ether_aton] writes to six bytes: more are out of bounds. *)
Definition pcap_ether_aton (s : string) : option (list byte) :=
  match ether_aton_loop (String.length s) s with
  | Some l => if (length l <=? 6)%nat then Some l else None
  | None => None
  end.

(** ** Protocol tables *)

Definition ETHERTYPE_PUP := 0x0200.
Definition ETHERTYPE_SPRITE := 0x0500.
Definition ETHERTYPE_LANBRIDGE := 0x8038.
Definition ETHERTYPE_DECDNS := 0x803c.
Definition ETHERTYPE_DECDTS := 0x803e.
Definition ETHERTYPE_VEXP := 0x805b.
Definition ETHERTYPE_VPROD := 0x805c.
Definition ETHERTYPE_LOOPBACK := 0x9000.

Definition eproto_db : list (string * Z) :=
  [ ("pup", ETHERTYPE_PUP); ("xns", ETHERTYPE_NS); ("ip", ETHERTYPE_IP); ("ip6", ETHERTYPE_IPV6);
    ("arp", ETHERTYPE_ARP); ("rarp", ETHERTYPE_REVARP); ("sprite", ETHERTYPE_SPRITE);
    ("mopdl", ETHERTYPE_MOPDL); ("moprc", ETHERTYPE_MOPRC); ("decnet", ETHERTYPE_DN);
    ("lat", ETHERTYPE_LAT); ("sca", ETHERTYPE_SCA); ("lanbridge", ETHERTYPE_LANBRIDGE);
    ("vexp", ETHERTYPE_VEXP); ("vprod", ETHERTYPE_VPROD); ("atalk", ETHERTYPE_ATALK);
    ("atalkarp", ETHERTYPE_AARP); ("loopback", ETHERTYPE_LOOPBACK); ("decdts", ETHERTYPE_DECDTS);
    ("decdns", ETHERTYPE_DECDNS) ].
Definition llc_db : list (string * Z) :=
  [ ("iso", LLCSAP_ISONS); ("stp", LLCSAP_8021D); ("ipx", LLCSAP_IPX); ("netbeui", LLCSAP_NETBEUI) ].

Fixpoint lookup_name (db : list (string * Z)) (s : string) : Z :=
  match db with
  | [] => PROTO_UNDEF
  | (name, p) :: db => if String.eqb name s then p else lookup_name db s
  end.
Definition pcap_nametoeproto (s : string) : Z := lookup_name eproto_db s.
Definition pcap_nametollc (s : string) : Z := lookup_name llc_db s.

(** ** The system's databases *)

(** An address of [getaddrinfo]; IPv4 addresses and the words of IPv6 ones are
    what [ntohl] makes of them. *)
Inductive sockaddr := Inet4 (a : Z) | Inet6 (a : Z * Z * Z * Z) | OtherFamily.

(** The resolver of the C library: [getservbyname] gives [s_port], in network
    byte order; [is_ip6] is whether [getaddrinfo] takes a text for a numeric
    IPv6 address. *)
Record resolver := Resolver {
  getnetbyname : string -> option Z;
  getservbyname : string -> string -> option Z;
  getprotobyname : string -> option Z;
  getaddrinfo : string -> option (list sockaddr);
  ether_hostton : string -> option (list byte);
  is_ip6 : string -> bool }.

Section Resolver.
Context (r : resolver).

Definition pcap_nametonetaddr (name : string) : Z :=
  match getnetbyname r name with Some n => n | None => 0 end.

Definition pcap_nametoproto (name : string) : Z :=
  match getprotobyname r name with Some p => p | None => PROTO_UNDEF end.

(** The port and its protocol. *)
Definition pcap_nametoport (name : string) : option (Z * Z) :=
  let port proto := match getservbyname r name proto with Some p => ntohs (u16 p) | None => -1 end in
  let tcp_port := port "tcp" in
  let udp_port := port "udp" in
  if 0 <=? tcp_port then
    Some (tcp_port, if (0 <=? udp_port) && (udp_port =? tcp_port) then PROTO_UNDEF else IPPROTO_TCP)
  else if 0 <=? udp_port then Some (udp_port, IPPROTO_UDP)
  else None.

(** The parts before and after the first ['-']. *)
Fixpoint split_dash (s : string) : option (string * string) :=
  match s with
  | "" => None
  | String c s =>
      if (c =? "-")%char then Some ("", s)
      else match split_dash s with Some (a, b) => Some (String c a, b) | None => None end
  end.

(** Two ports and their protocol; [strdup] succeeds. *)
Definition pcap_nametoportrange (name : string) : option (Z * Z * Z) :=
  match scan_pair "-" name with
  | Some (p1, p2) => Some (p1, p2, PROTO_UNDEF)
  | None =>
      match split_dash name with
      | None => None
      | Some (a, b) =>
          match pcap_nametoport a with
          | None => None
          | Some (port1, save_proto) =>
              match pcap_nametoport b with
              | None => None
              | Some (port2, proto) =>
                  Some (port1, port2, if proto =? save_proto then proto else PROTO_UNDEF)
              end
          end
      end
  end.

Definition pcap_ether_hostton (name : string) : option (list byte) := ether_hostton r name.
End Resolver.

(** ** [/etc/ethers] *)

(** [struct pcap_etherent]: the file is the characters left to read, [getc] at
    its end is [-1]. *)
Record etherent := Etherent { e_addr : list byte; e_name : list Z }.
Definition sizeof_name := 122.
Definition EOF := -1.

Definition getc (f : list byte) : Z * list byte :=
  match f with [] => (EOF, []) | c :: f => (byte.unsigned c, f) end.

(** [skip_space] and [skip_line]: the character they end with. *)
Fixpoint skip_space (f : list byte) : Z * list byte :=
  match f with
  | [] => (EOF, [])
  | b :: f => let c := byte.unsigned b in if isspace c && negb (c =? 10) then skip_space f else (c, f)
  end.
Fixpoint skip_line (f : list byte) : Z * list byte :=
  match f with
  | [] => (EOF, [])
  | b :: f => let c := byte.unsigned b in if c =? 10 then (c, f) else skip_line f
  end.

(** The [for] loop that reads the address, from the character [c] on, into the
    bytes [e]: those that are not read stay as they are. *)
Fixpoint read_addr (e : list byte) (c : Z) (f : list byte) : list byte * Z * list byte :=
  match e with
  | [] => ([], c, f)
  | _ :: e =>
      let d := xdtoi c in
      let '(c, f) := getc f in
      let '(d, c, f) :=
        if isxdigit c then let '(c', f) := getc f in ((d << 4) .| xdtoi c, c', f) else (d, c, f) in
      let a := byte.of_Z (u8 d) in
      if negb (c =? 58) then (a :: e, c, f)
      else let '(c, f) := getc f in
           let '(l, c, f) := read_addr e c f in (a :: l, c, f)
  end.

(** The [do] loop that reads the name: at most [d] characters. *)
Fixpoint read_name (d : nat) (c : Z) (f : list byte) : list Z * Z * list byte :=
  match d with
  | O => ([], c, f)
  | S d =>
      let '(c', f') := getc f in
      if negb (isspace c') && negb (c' =? EOF) then
        match d with
        | O => ([c], c', f')
        | S _ => let '(l, c'', f'') := read_name d c' f' in (c :: l, c'', f'')
        end
      else ([c], c', f')
  end.

(** One turn of the loop over the lines: an entry, the end, or another turn
    with the character that ended the line.  [e.addr] is cleared before the
    loop, and not by the turns. *)
Inductive turn := Found (e : etherent) (f : list byte) | NoEntry | Again (addr : list byte) (c : Z) (f : list byte).

Definition ethers_turn (addr : list byte) (f : list byte) : turn :=
  let '(c, f) := skip_space f in
  if c =? 10 then Again addr c f
  else if negb (isxdigit c) then let '(c, f) := skip_line f in Again addr c f
  else
    let '(addr, c, f) := read_addr addr c f in
    if c =? EOF then NoEntry
    else if negb (isspace c) then let '(c, f) := skip_line f in Again addr c f
    else
      let '(c, f) := skip_space f in
      if c =? 10 then Again addr c f
      else if c =? 35 then let '(c, f) := skip_line f in Again addr c f
      else
        let '(name, c, f) := read_name (Z.to_nat (sizeof_name - 1)) c f in
        let f := if c =? 10 then f else (skip_line f).2 in
        Found (Etherent addr name) f.

(** [pcap_next_etherent]: [Some None] is [NULL]. *)
Fixpoint next_etherent_loop (fuel : nat) (addr : list byte) (f : list byte)
    : option (option (etherent * list byte)) :=
  match fuel with
  | O => None
  | S fuel =>
      match ethers_turn addr f with
      | Found e f => Some (Some (e, f))
      | NoEntry => Some None
      | Again addr c f => if c =? EOF then Some None else next_etherent_loop fuel addr f
      end
  end.
(** A turn that is not the last reads a character. *)
Definition pcap_next_etherent (f : list byte) : option (option (etherent * list byte)) :=
  next_etherent_loop (S (length f)) (repeat (byte.of_Z 0) 6) f.
