(* ===== verification/GenName.v ===== *)
(** [gencode.c]: names, numbers and addresses with qualifiers ([gen_scode],
    [gen_mcode], [gen_ncode], [gen_mcode6], [gen_ecode]) and broadcasts. *)
From S2P Require Import Prelude CString CFile Bpf BpfFilter Datalink.
From S2P Require Import GenConst Gencode GenLink GenProto GenMisc GenWlan Names.

#[local] Open Scope Z_scope.
#[local] Open Scope c_scope.
#[local] Open Scope gen_scope.

(** A message with a [%s]. *)
Definition with_name (before name after : string) : string :=
  String.append before (String.append name after).

Definition quoted (s : string) : string := with_name (String "034" "") s (String "034" "").

(** ** Numbers *)

(** The part of [gen_ncode] after the number has been read: [vlen] is 32 when
    the number is not written as an address, and [short] says that it is not. *)
Definition gen_ncode_num (short : bool) (v vlen : Z) (q : qual) : gen nat :=
  let proto := q_proto q in
  let dir := q_dir q in
  let addr := q_addr q in
  if one_of addr [Q_DEFAULT; Q_HOST; Q_NET] then
    if proto =? Q_DECNET then gen_host v 0 proto dir addr
    else if proto =? Q_LINK then bpf_error "illegal link layer address"
    else
      let '(v, mask) :=
        if short && (addr =? Q_NET) then promote_net 4 v 0xffffffff
        else (u32 (v << (32 - vlen)), u32 (0xffffffff << (32 - vlen))) in
      gen_host v mask proto dir addr
  else if addr =? Q_PORT then
    proto <- port_proto "port" proto ;;
    if 65535 <? v then bpf_error (String.append "illegal port number " (String.append (fmt_d v) " > 65535"))
    else
      b <- gen_port v proto dir ;;
      b0 <- gen_port6 v proto dir ;;
      gen_or b0 b ;;
      ret b
  else if addr =? Q_PORTRANGE then
    proto <- port_proto "portrange" proto ;;
    if 65535 <? v then bpf_error (String.append "illegal port number " (String.append (fmt_d v) " > 65535"))
    else
      b <- gen_portrange v v proto dir ;;
      b0 <- gen_portrange6 v v proto dir ;;
      gen_or b0 b ;;
      ret b
  else if addr =? Q_GATEWAY then bpf_error "'gateway' requires a name"
  else if addr =? Q_PROTO then gen_proto (i32 v) proto dir
  else if addr =? Q_PROTOCHAIN then gen_protochain (i32 v) proto dir
  else if addr =? Q_UNDEF then bpf_error "syntax error in filter expression"
  else fail G_abort.

(** [__pcap_atodn] reports its error itself. *)
Definition gen_ncode (s : option string) (v : Z) (q : qual) : gen nat :=
  match s with
  | None => gen_ncode_num true v 32 q
  | Some s =>
      if q_proto q =? Q_DECNET then
        match pcap_atodn s with
        | inl msg => bpf_error msg
        | inr v => gen_ncode_num false v 32 q
        end
      else gen_ncode_num false (pcap_atoin s).2 (pcap_atoin s).1 q
  end.

(** The two forms of a mask: an address [s2], or a number of bits.  A
    negative one is the number of bits of an undefined shift. *)
Definition gen_mcode_mask (s1 : string) (s2 : option string) (masklen n : Z) : gen Z :=
  match s2 with
  | Some s2 =>
      let '(mlen, m) := pcap_atoin s2 in
      let m := u32 (m << (32 - mlen)) in
      if negb ((n .& Z.lnot m) =? 0) then
        bpf_error (String.append "non-network bits set in " (quoted (with_name s1 " mask " s2)))
      else ret m
  | None =>
      if 32 <? masklen then bpf_error "mask length must be <= 32"
      else if masklen <? 0 then fail G_undef
      else
        let m := if masklen =? 0 then 0 else u32 (0xffffffff << (32 - masklen)) in
        if negb ((n .& Z.lnot m) =? 0) then
          bpf_error (String.append "non-network bits set in " (quoted (with_name s1 "/" (fmt_d masklen))))
        else ret m
  end.
Definition gen_mcode (s1 : string) (s2 : option string) (masklen : Z) (q : qual) : gen nat :=
  let '(nlen, n) := pcap_atoin s1 in
  let n := u32 (n << (32 - nlen)) in
  m <- gen_mcode_mask s1 s2 masklen n ;;
  if q_addr q =? Q_NET then gen_host n m (q_proto q) (q_dir q) (q_addr q)
  else bpf_error "Mask syntax for networks only".

(** ** Ethernet addresses and broadcasts *)

(** The switch on the link-layer types that have MAC addresses. *)
Definition gen_mac_host (eaddr : list byte) (dir : Z) (no_lane other : gen nat) : gen nat :=
  o <- get_off ;;
  let lt := o_linktype o in
  if one_of lt [DLT_EN10MB; DLT_NETANALYZER; DLT_NETANALYZER_TRANSPARENT] then gen_ehostop eaddr dir
  else if lt =? DLT_FDDI then gen_fhostop eaddr dir
  else if lt =? DLT_IEEE802 then gen_thostop eaddr dir
  else if is_wlan lt then gen_wlanhostop eaddr dir
  else if lt =? DLT_SUNATM then
    if is_lane o then gen_lane (gen_ehostop eaddr dir) else no_lane
  else if lt =? DLT_IP_OVER_FC then gen_ipfchostop eaddr dir
  else other.

Definition gen_ecode (eaddr : list byte) (q : qual) : gen nat :=
  let bad := bpf_error "ethernet address used in non-ether expression" in
  if one_of (q_addr q) [Q_HOST; Q_DEFAULT] && (q_proto q =? Q_LINK) then
    gen_mac_host eaddr (q_dir q) bad
      (bpf_error "ethernet addresses supported only on ethernet/FDDI/token ring/802.11/ATM LANE/Fibre Channel")
  else bad.

Definition PCAP_NETMASK_UNKNOWN := 0xffffffff.

Definition gen_broadcast (netmask proto : Z) : gen nat :=
  let bad := bpf_error "only link-layer/IP broadcast filters supported" in
  if one_of proto [Q_DEFAULT; Q_LINK] then
    o <- get_off ;;
    if one_of (o_linktype o) [DLT_ARCNET; DLT_ARCNET_LINUX] then gen_ahostop [byte.of_Z 0] Q_DST
    else gen_mac_host (repeat (byte.of_Z 0xff) 6) Q_DST bad (bpf_error "not a broadcast link")
  else if proto =? Q_IP then
    if netmask =? PCAP_NETMASK_UNKNOWN then
      bpf_error "netmask not known, so 'ip broadcast' not supported"
    else
      let hostmask := u32 (Z.lnot netmask) in
      b0 <- gen_linktype ETHERTYPE_IP ;;
      b1 <- gen_mcmp OR_NET 16 BPF_W 0 hostmask ;;
      b2 <- gen_mcmp OR_NET 16 BPF_W hostmask hostmask ;;
      gen_or b1 b2 ;;
      gen_and b0 b2 ;;
      ret b2
  else bad.

(** ** Names *)

Section Resolver.
Context (r : resolver).

Definition lookup_proto (name : string) (proto : Z) : gen Z :=
  if one_of proto [Q_DEFAULT; Q_IP; Q_IPV6] then
    let v := pcap_nametoproto r name in
    if v =? PROTO_UNDEF then bpf_error (with_name "unknown ip proto '" name "'") else ret v
  else if proto =? Q_LINK then
    let v := pcap_nametoeproto name in
    if v =? PROTO_UNDEF then
      let v := pcap_nametollc name in
      if v =? PROTO_UNDEF then bpf_error (with_name "unknown ether proto '" name "'") else ret v
    else ret v
  else if proto =? Q_ISO then
    if String.eqb name "esis" then ret ISO9542_ESIS
    else if String.eqb name "isis" then ret ISO10589_ISIS
    else if String.eqb name "clnp" then ret ISO8473_CLNP
    else bpf_error (with_name "unknown osi proto '" name "'")
  else ret PROTO_UNDEF.

(** [eaddr = pcap_ether_hostton(name)], and the test made of it. *)
Definition with_ether_host (what name : string) (g : list byte -> gen nat) : gen nat :=
  match pcap_ether_hostton r name with
  | None => bpf_error (with_name "unknown " what (with_name " host '" name "'"))
  | Some eaddr => g eaddr
  end.

(** A host name as a link-layer address. *)
Definition gen_scode_link (name : string) (dir : Z) : gen nat :=
  o <- get_off ;;
  let lt := o_linktype o in
  if one_of lt [DLT_EN10MB; DLT_NETANALYZER; DLT_NETANALYZER_TRANSPARENT] then
    with_ether_host "ether" name (fun e => gen_ehostop e dir)
  else if lt =? DLT_FDDI then with_ether_host "FDDI" name (fun e => gen_fhostop e dir)
  else if lt =? DLT_IEEE802 then with_ether_host "token ring" name (fun e => gen_thostop e dir)
  else if is_wlan lt then with_ether_host "802.11" name (fun e => gen_wlanhostop e dir)
  else if lt =? DLT_IP_OVER_FC then with_ether_host "Fibre Channel" name (fun e => gen_ipfchostop e dir)
  else if (lt =? DLT_SUNATM) && is_lane o then
    gen_lane (with_ether_host "ether" name (fun e => gen_ehostop e dir))
  else bpf_error "only ethernet/FDDI/token ring/802.11/ATM LANE/Fibre Channel supports link-level host name".

(** The loop over the addresses of a host: the addresses of a family that is
    not asked for are skipped. *)
Fixpoint gen_scode_addrs (l : list sockaddr) (tproto tproto6 dir addr : Z) (b : option nat) : gen (option nat) :=
  match l with
  | [] => ret b
  | a :: l =>
      let add g :=
        tmp <- g ;;
        match b with Some b => gen_or b tmp | None => ret tt end ;;
        gen_scode_addrs l tproto tproto6 dir addr (Some tmp) in
      let skip := gen_scode_addrs l tproto tproto6 dir addr b in
      match a with
      | Inet4 a => if tproto =? Q_IPV6 then skip else add (gen_host a 0xffffffff tproto dir addr)
      | Inet6 a =>
          if tproto6 =? Q_IP then skip
          else add (gen_host6 a (0xffffffff, 0xffffffff, 0xffffffff, 0xffffffff) tproto6 dir addr)
      | OtherFamily => skip
      end
  end.

(** A host name as IP addresses. *)
Definition gen_scode_host (name : string) (proto dir addr : Z) : gen nat :=
  match getaddrinfo r name with
  | None => bpf_error (with_name "unknown host '" name "'")
  | Some l =>
      o <- get_off ;;
      let '(tproto, tproto6) :=
        if (off_linktype o =? NONE) && (proto =? Q_DEFAULT) then (Q_IP, Q_IPV6) else (proto, proto) in
      b <- gen_scode_addrs l tproto tproto6 dir addr None ;;
      match b with
      | Some b => ret b
      | None =>
          bpf_error (with_name "unknown host '" name
            (if proto =? Q_DEFAULT then "'" else "' for specified address family"))
      end
  end.

(** The protocol of a port, for the qualifier and the protocol of its name. *)
Definition port_real_proto (what name : string) (proto real_proto : Z) : gen Z :=
  let taken p := bpf_error (with_name what name (String.append "' is " p)) in
  if proto =? Q_UDP then
    if real_proto =? IPPROTO_TCP then taken "tcp"%string
    else if real_proto =? IPPROTO_SCTP then taken "sctp"%string
    else ret IPPROTO_UDP
  else if proto =? Q_TCP then
    if real_proto =? IPPROTO_UDP then taken "udp"%string
    else if real_proto =? IPPROTO_SCTP then taken "sctp"%string
    else ret IPPROTO_TCP
  else if proto =? Q_SCTP then
    if real_proto =? IPPROTO_UDP then taken "udp"%string
    else if real_proto =? IPPROTO_TCP then taken "tcp"%string
    else ret IPPROTO_SCTP
  else ret real_proto.

Definition check_port (port : Z) : gen unit :=
  let illegal what := bpf_error (with_name "illegal port number " (fmt_d port) what) in
  if port <? 0 then illegal " < 0"%string else if 65535 <? port then illegal " > 65535"%string else ret tt.

Definition gen_scode_port (name : string) (proto dir : Z) : gen nat :=
  if negb (one_of proto [Q_DEFAULT; Q_UDP; Q_TCP; Q_SCTP]) then bpf_error "illegal qualifier of 'port'"
  else
    match pcap_nametoport r name with
    | None => bpf_error (with_name "unknown port '" name "'")
    | Some (port, real_proto) =>
        real_proto <- port_real_proto "port '" name proto real_proto ;;
        check_port port ;;
        b <- gen_port port real_proto dir ;;
        b0 <- gen_port6 port real_proto dir ;;
        gen_or b0 b ;;
        ret b
    end.

Definition gen_scode_portrange (name : string) (proto dir : Z) : gen nat :=
  if negb (one_of proto [Q_DEFAULT; Q_UDP; Q_TCP; Q_SCTP]) then bpf_error "illegal qualifier of 'portrange'"
  else
    match pcap_nametoportrange r name with
    | None => bpf_error (with_name "unknown port in range '" name "'")
    | Some (port1, port2, real_proto) =>
        real_proto <- port_real_proto "port in range '" name proto real_proto ;;
        check_port port1 ;;
        check_port port2 ;;
        b <- gen_portrange port1 port2 real_proto dir ;;
        b0 <- gen_portrange6 port1 port2 real_proto dir ;;
        gen_or b0 b ;;
        ret b
    end.

(** [gen_scode] of a build with [INET6] and without [DECNETLIB]. *)
Definition gen_scode (name : string) (q : qual) : gen nat :=
  let proto := q_proto q in
  let dir := q_dir q in
  let addr := q_addr q in
  if addr =? Q_NET then
    let a := pcap_nametonetaddr r name in
    if a =? 0 then bpf_error (with_name "unknown network '" name "'")
    else let '(a, mask) := promote_net 4 a 0xffffffff in gen_host a mask proto dir addr
  else if one_of addr [Q_DEFAULT; Q_HOST] then
    if proto =? Q_LINK then gen_scode_link name dir
    else if proto =? Q_DECNET then
      bpf_error (with_name "decnet name support not included, '" name "' cannot be translated
")
    else gen_scode_host name proto dir addr
  else if addr =? Q_PORT then gen_scode_port name proto dir
  else if addr =? Q_PORTRANGE then gen_scode_portrange name proto dir
  else if addr =? Q_GATEWAY then bpf_error "'gateway' not supported in this configuration"
  else if one_of addr [Q_PROTO; Q_PROTOCHAIN] then
    real_proto <- lookup_proto name proto ;;
    if 0 <=? real_proto then
      if addr =? Q_PROTO then gen_proto real_proto proto dir else gen_protochain real_proto proto dir
    else bpf_error (String.append "unknown protocol: " name)
  else if addr =? Q_UNDEF then bpf_error "syntax error in filter expression"
  else fail G_abort.

(** The [i]-th word of the mask of [masklen] bits. *)
Definition mask6_word (masklen i : Z) : Z :=
  let n := Z.min 32 (Z.max 0 (masklen - 32 * i)) in
  u32 (0xffffffff << (32 - n)).

(** [gen_mcode6 (s1, NULL, masklen, q)]: the grammar gives no mask; a negative
    [masklen] is too long, for the comparison is of unsigned numbers.  The
    address is taken for an IPv6 one, as the scanner has made sure. *)
Definition gen_mcode6 (s1 : string) (masklen : Z) (q : qual) : gen nat :=
  match getaddrinfo r s1 with
  | None | Some [] => bpf_error (String.append "invalid ip6 address " s1)
  | Some (_ :: _ :: _) => bpf_error (String.append s1 " resolved to multiple address")
  | Some [Inet6 (a0, a1, a2, a3)] =>
      if (masklen <? 0) || (128 <? masklen) then bpf_error "mask length must be <= 128"
      else
        let m i := mask6_word masklen i in
        let outside a i := negb ((a .& Z.lnot (m i)) =? 0) in
        if outside a0 0 || outside a1 1 || outside a2 2 || outside a3 3 then
          bpf_error (String.append "non-network bits set in " (quoted (with_name s1 "/" (fmt_d masklen))))
        else if one_of (q_addr q) [Q_DEFAULT; Q_HOST; Q_NET] then
          if negb (q_addr q =? Q_NET) && negb (masklen =? 128) then bpf_error "Mask syntax for networks only"
          else gen_host6 (a0, a1, a2, a3) (m 0, m 1, m 2, m 3) (q_proto q) (q_dir q) (q_addr q)
        else bpf_error "invalid qualifier against IPv6 address"
  | Some _ => fail G_undef
  end.
End Resolver.
