(* ===== verification/GenOffsets.v ===== *)
(** [gencode.c]: the code that computes the lengths of variable-length headers
    ([insert_compute_vloffsets]) and the end of code generation
    ([finish_parse]). *)
From S2P Require Import Prelude CFile Bpf BpfFilter Datalink GenConst Gencode GenLink GenProto GenWlan.

#[local] Open Scope Z_scope.
#[local] Open Scope c_scope.
#[local] Open Scope gen_scope.

(** The code before the statements of a block is a list of statements whose
    branches are indices; an index one past their number is the first
    statement of the block ([snext]). *)
Definition jset_ (k : Z) (jt jf : nat) : lstmt := Lstmt (JMP BPF_JSET) k (Some jt) (Some jf).

(** ** The length of the header before the link-layer header *)

Definition load_prism_llprefixlen (reg : Z) : list lstmt :=
  [ stmt_ (BPF_LD .| BPF_W .| BPF_ABS) 0;
    stmt_ (BPF_ALU .| BPF_AND .| BPF_K) 0xfffff000;
    Lstmt (JMP BPF_JEQ) 0x80211000 (Some 3%nat) (Some 5%nat);
    stmt_ (BPF_LD .| BPF_W .| BPF_ABS) 4;
    Lstmt (JMP BPF_JA) 1 None (Some 6%nat);
    stmt_ (BPF_LD .| BPF_W .| BPF_IMM) 144;
    stmt_ BPF_ST reg;
    stmt_ (BPF_MISC .| BPF_TAX) 0 ].

Definition load_avs_llprefixlen (reg : Z) : list lstmt :=
  [ stmt_ (BPF_LD .| BPF_W .| BPF_ABS) 4;
    stmt_ BPF_ST reg;
    stmt_ (BPF_MISC .| BPF_TAX) 0 ].

(** [gen_load_ppi_llprefixlen] has the same text. *)
Definition load_radiotap_llprefixlen (reg : Z) : list lstmt :=
  [ stmt_ (BPF_LD .| BPF_B .| BPF_ABS) 3;
    stmt_ (BPF_ALU .| BPF_LSH .| BPF_K) 8;
    stmt_ (BPF_MISC .| BPF_TAX) 0;
    stmt_ (BPF_LD .| BPF_B .| BPF_ABS) 2;
    stmt_ (BPF_ALU .| BPF_OR .| BPF_X) 0;
    stmt_ BPF_ST reg;
    stmt_ (BPF_MISC .| BPF_TAX) 0 ].

(** No code if no register holds the length. *)
Definition load_llprefixlen (linktype reg : Z) : list lstmt :=
  if reg =? -1 then []
  else if linktype =? DLT_PRISM_HEADER then load_prism_llprefixlen reg
  else if linktype =? DLT_IEEE802_11_RADIO_AVS then load_avs_llprefixlen reg
  else if one_of linktype [DLT_IEEE802_11_RADIO; DLT_PPI] then load_radiotap_llprefixlen reg
  else [].

(** ** The offset of the MAC-layer payload *)

(** From the [n]-th statement on, the offset of the link-layer header being in
    [X]; [next] is [snext]. *)
Definition load_802_11_frame (n next : nat) (reg : Z) (radiotap : bool) : list lstmt :=
  [ stmt_ (BPF_MISC .| BPF_TXA) 0;
    stmt_ (BPF_ALU .| BPF_ADD .| BPF_K) 24;
    stmt_ BPF_ST reg;
    stmt_ (BPF_LD .| BPF_IND .| BPF_B) 0;
    jset_ 0x08 (n + 5) next;
    jset_ 0x04 next (n + 6);
    jset_ 0x80 (n + 7) (if radiotap then n + 10 else next)%nat;
    stmt_ (BPF_LD .| BPF_MEM) reg;
    stmt_ (BPF_ALU .| BPF_ADD .| BPF_IMM) 2;
    stmt_ BPF_ST reg ].

(** The padding between header and payload that a radiotap header announces. *)
Definition load_radiotap_pad (n next : nat) (reg : Z) : list lstmt :=
  [ stmt_ (BPF_LD .| BPF_ABS .| BPF_W) 4;
    jset_ (SWAPLONG 0x00000002) (n + 2) next;
    jset_ (SWAPLONG 0x00000001) (n + 3) (n + 5);
    stmt_ (BPF_LD .| BPF_ABS .| BPF_B) 16;
    jset_ 0x20 (n + 7) next;
    stmt_ (BPF_LD .| BPF_ABS .| BPF_B) 8;
    jset_ 0x20 (n + 7) next;
    stmt_ (BPF_LD .| BPF_MEM) reg;
    stmt_ (BPF_ALU .| BPF_ADD .| BPF_IMM) 3;
    stmt_ (BPF_ALU .| BPF_AND .| BPF_IMM) (Z.lnot 3);
    stmt_ BPF_ST reg ].

Definition load_802_11_header_len (l : list lstmt) (o : layout) (reg : Z) : list lstmt :=
  if reg =? -1 then l
  else
    let l := match l with [] => [stmt_ (BPF_LDX .| BPF_IMM) (off_ll o)] | _ => l end in
    let n := length l in
    let radiotap := o_linktype o =? DLT_IEEE802_11_RADIO in
    let next := (n + (if radiotap then 21 else 10))%nat in
    l ++ load_802_11_frame n next reg radiotap ++
      (if radiotap then load_radiotap_pad (n + 10) next reg else []).

Definition compute_vloffsets (o : layout) (r : regs) : list lstmt :=
  let l := load_llprefixlen (o_linktype o) (reg_off_ll r) in
  if is_wlan (o_linktype o) then load_802_11_header_len l o (reg_off_macpl r) else l.

(** Jumps among these statements make the code set [no_optimize]. *)
Definition vloffsets_jump (o : layout) (r : regs) : bool :=
  (o_linktype o =? DLT_PRISM_HEADER) || (is_wlan (o_linktype o) && negb (reg_off_macpl r =? -1)).
Definition no_optimize (s : gst) : bool := o_no_optimize (g_off s) || vloffsets_jump (g_off s) (g_regs s).

(** ** [insert_compute_vloffsets] and [gen_ppi_dlt_check] *)

(** The statements with their branches, before those of the block. *)
Definition prepend_stmts (l : list lstmt) (ss stmts : list slist) : list slist :=
  let target i := match i with Some i => option_map sl_id ((ss ++ stmts) !! i) | None => None end in
  zip_with (fun x s => Slist (sl_id s) (sl_code s) (sl_k s) (target (l_jt x)) (target (l_jf x))) l ss
  ++ stmts.

Definition insert_compute_vloffsets (b : nat) : gen unit :=
  o <- get_off ;;
  r <- get_regs ;;
  blk <- get_block b ;;
  let l := compute_vloffsets o r in
  ss <- new_stmts l ;;
  set_stmts b (prepend_stmts l ss (b_stmts blk)).

Definition gen_ppi_dlt_check : gen (option nat) :=
  o <- get_off ;;
  if o_linktype o =? DLT_PPI then
    s <- new_stmt (BPF_LD .| BPF_W .| BPF_ABS) 4 ;;
    b <- new_branch (JMP BPF_JEQ) [s] (SWAPLONG DLT_IEEE802_11) ;;
    ret (Some b)
  else ret None.

(** ** [finish_parse]

    The result is [root]. *)
Definition finish_parse (snaplen : Z) (p : nat) : gen nat :=
  blk <- get_block p ;;
  insert_compute_vloffsets (b_head blk) ;;
  ppi_dlt_check <- gen_ppi_dlt_check ;;
  match ppi_dlt_check with Some b => gen_and b p | None => ret tt end ;;
  t <- gen_retblk snaplen ;;
  backpatch_m p t ;;
  update p flip_sense ;;
  f <- gen_retblk 0 ;;
  backpatch_m p f ;;
  blk <- get_block p ;;
  ret (b_head blk).
