(* ===== verification/ScannerTab.v ===== *)
(** [scanner.c]: the tables of the scanner that flex has generated, as the file
    has them; a long one is cut into parts. *)
From S2P Require Import Prelude CFile.

(** An array given in parts, and its elements; [None] is beyond its end. *)
Definition table := list (list Z).
Fixpoint tab_get (t : table) (i : Z) : option Z :=
  match t with
  | [] => None
  | part :: t => if i <? lenZ part then nthZ part i else tab_get t (i - lenZ part)
  end.

Definition yy_accept_1 : list Z :=
  [0; 0; 0; 148; 145; 105; 105; 105; 106; 145; 106; 106; 106; 146; 115; 115; 106; 106; 106; 106;
    143; 143; 145; 143; 143; 143; 143; 143; 143; 143; 143; 143; 143; 143; 143; 143; 143; 143; 143;
    143; 143; 143; 143; 106; 145; 109; 113; 67; 0; 143; 115; 0; 143; 143; 143; 0; 117; 111; 108;
    110; 107; 112; 143; 144; 144; 143; 143; 143; 20; 143; 143; 143; 143; 143; 143; 143; 143; 143;
    143; 143; 143; 143; 143; 143; 143; 143; 143; 143; 143; 143; 143; 143; 143; 143; 143; 143; 7;
    143; 34; 35; 143; 143; 143; 143; 143; 143; 143; 143; 143; 143; 143; 143; 143; 143; 91; 143; 68;
    143; 143; 143; 143; 143; 143; 60; 143; 143; 143; 143; 85; 143; 143; 143; 143; 143; 143; 61; 143;
    4; 143; 143; 143; 143; 143; 143; 143; 68; 113; 143; 116; 116; 143; 115; 143; 0; 117; 115; 117;
    117; 117; 143; 143; 143; 67; 5; 143; 80; 143; 143; 143; 143; 143; 143; 143; 55; 103; 1; 0; 143;
    21; 143; 143; 143; 143; 143; 143; 143; 143; 143; 143; 36; 143; 143; 18; 43; 0; 143; 29; 143; 25;
    70; 143; 143; 78; 37; 143; 99; 143; 143; 143; 143; 100; 143; 46; 69; 81; 102; 143; 14; 143; 3;
    143; 143; 143; 143; 143; 93; 143; 143; 26; 143; 101; 143; 104; 38; 2; 143; 42; 143; 9; 143; 10;
    88; 143; 87; 143; 143; 0; 143; 143; 116; 143; 143; 143; 143; 115; 0; 143; 0; 118; 117; 117; 0;
    117; 0; 117; 0; 117; 0; 23; 143; 143; 143; 143; 64; 16; 41; 143; 39; 143; 143; 143; 30; 143; 97;
    143; 143; 45; 11; 143; 12; 13; 143; 143; 143; 32; 77; 143; 62; 3; 98; 47; 143; 143; 143; 74;
    143; 143; 143; 143; 48; 143; 143; 40; 143; 6; 143; 92; 143; 8; 94; 143; 143; 0; 143; 53; 73; 15;
    143; 116; 116; 143; 116; 116; 116; 143; 115; 143; 0; 117; 143; 0; 0; 117; 0; 117; 118; 117; 0;
    0; 0; 0; 117; 117; 117; 117; 117; 0; 143; 56; 57; 58; 59; 143; 22; 143; 143; 143; 143; 31; 143;
    143; 0; 19; 143; 143; 143; 86; 143; 33; 143; 79; 28; 27; 143; 143; 82; 143; 143; 143; 50; 17;
    143; 143; 143; 143; 143; 143; 143; 143; 143; 143; 143; 143; 0; 143; 143; 116; 143; 143; 143;
    143; 116; 116; 143; 115; 143; 0; 0; 117; 117; 117; 0; 0; 118; 117; 117; 118; 117; 0; 0; 117;
    117; 117; 117; 117; 0; 0; 0; 0; 117; 117; 0; 117; 0; 117; 0; 96; 143; 143; 143; 24; 143; 143;
    143; 143; 143; 143; 143; 143; 143; 143; 143; 143; 143; 143; 70; 143; 143; 143; 143; 143; 143;
    143; 75; 76; 143; 95; 143; 143; 143; 143; 143; 143; 143; 143; 143; 143; 143; 143; 116; 116; 143;
    116; 116; 116; 116; 143; 115; 143; 0; 117; 117; 0; 117; 0; 0; 117; 0; 117; 118; 117; 0; 0; 0;
    117; 117; 0; 117; 118; 117; 0; 0; 0; 0; 0; 0; 0; 117; 117; 117; 117; 117; 0; 143; 143; 143; 143;
    52; 63; 143; 143; 143; 143; 143; 143; 143; 143; 143; 143; 143; 143; 71; 143; 143; 44; 83; 84;
    143; 143; 143; 143; 54; 141; 137; 143; 139; 138; 142; 143; 0; 143; 143; 116; 143; 143; 143; 116;
    143; 115; 143; 0; 0; 117; 117; 117; 117; 117; 117; 0; 0; 118; 117; 117; 117; 0; 0; 117; 117;
    117; 117; 117; 0; 0; 0; 0; 0; 0; 0; 117; 117; 117; 117; 117; 0; 0; 0; 0; 0; 117; 117; 0; 117; 0;
    117; 0; 143; 143; 143; 143; 143; 143; 143; 143; 143; 143; 143; 143; 143; 120; 119; 143; 143; 72;
    143; 143; 143; 140; 136; 143; 143; 116; 116; 116; 116; 143; 115; 143; 0; 117; 117; 0; 117; 117;
    0; 117; 0; 0; 117; 0; 117; 118; 117; 0; 0; 0; 117; 117; 0; 117; 118; 117; 0; 0; 0; 0; 0; 117;
    117; 0; 117; 118; 117; 0; 117; 117; 0; 0; 0; 0; 0; 0; 0; 117; 117; 117; 117; 117; 0; 65; 143;
    55; 125; 132; 143; 143; 143; 143; 143; 143; 143; 143; 143; 66; 49; 143; 143; 0; 143; 143; 143;
    143; 143; 115; 143; 0; 0; 117; 117; 117; 117; 117; 117; 117; 117; 117; 0; 0; 118; 117; 117; 117;
    0; 0; 117; 117; 117; 117; 117; 0; 0; 0; 0; 0; 0; 0; 117; 117; 117; 117; 117; 0; 117; 117; 0; 0;
    0; 0; 0; 0; 0; 117; 117; 117; 117; 117; 0; 0; 0; 0; 0; 0; 117; 117; 0; 117; 0; 117; 0; 89; 143;
    143; 143; 143; 143; 143; 143; 143; 143; 143; 143; 51; 114; 114; 116; 116; 143; 115; 143; 0; 117;
    117; 0; 117; 117; 0; 117; 117; 0; 117; 0; 114; 117; 0; 117; 118; 117; 0; 0; 0; 117; 117; 0; 117;
    118; 117; 0; 0; 0; 0; 0; 117; 117; 0; 117; 118; 117; 0; 0; 0; 0; 0; 0; 117; 117; 0; 117; 118;
    117; 0; 117; 117; 117; 0; 0; 0; 0; 0; 0; 0; 117; 117; 117; 117; 117; 0; 143; 143; 143; 143; 143;
    143; 143; 143; 130; 143; 90; 114; 114; 116; 143; 114; 114; 0; 0; 117; 117; 117; 117; 117; 117;
    117; 117; 117; 117; 117; 117; 0; 114; 118; 117; 117; 117; 0; 0; 117; 117; 117; 117; 117; 0; 0;
    0; 0; 0; 0; 0; 117; 117; 117; 117; 117; 0; 117; 117; 0; 0; 0; 0; 0; 0; 0; 117; 117; 117; 117;
    117; 0; 117; 117; 117; 0; 0; 0; 0; 0; 0; 0; 117; 117; 117; 117; 117; 0; 0; 0; 0; 0; 0; 117; 117;
    0; 117; 0; 117; 0; 143; 143; 143; 134; 143; 143; 143; 143; 143; 143; 143; 122; 116; 143; 115; 0;
    117; 117; 0; 117; 117; 0; 117; 117; 0; 117; 117; 0; 117; 0; 0; 0; 117; 0; 0; 117; 118; 117; 0;
    0; 0; 117; 117; 0; 117; 118; 117; 0; 0; 0; 0; 0; 117; 117; 0; 117; 118; 117; 0; 0; 0; 0; 0; 0;
    117; 117; 0; 117; 118; 117; 0; 0; 0; 0; 0; 0; 117; 117; 0; 117; 118; 117; 0; 117; 117; 117; 0;
    0; 0; 0; 0; 0; 0; 117; 117; 117; 117; 117; 0; 143; 143; 143; 143; 124; 143; 143; 143; 128; 143;
    114; 0; 0; 117; 117; 117; 117; 117; 117; 117; 117; 117; 117; 117; 117; 117; 117; 117; 0; 0; 0;
    118; 0; 0; 117; 0; 0; 117; 117; 117; 0; 0; 0; 0; 0; 0; 0; 117; 117; 117; 0; 117; 117; 0; 0; 0;
    0; 0; 0; 0; 117; 117; 117; 0; 117; 117; 117; 0; 0; 0; 0; 0; 0; 0; 117; 117; 117; 0; 117; 117;
    117; 0; 0; 0; 0; 0; 0; 0; 117; 117; 117; 0; 0; 0; 0; 0; 0; 117; 117; 0; 117; 0; 117; 0; 121;
    133; 135; 129; 143; 143; 143; 143; 0; 0; 117; 0; 117; 0; 117; 117; 0; 117; 117; 0; 117; 117; 0;
    117; 117; 0; 117; 0; 0; 0; 0; 117; 117; 0; 117; 0; 0; 117; 117; 117; 0; 0; 0; 0; 117; 117; 117;
    0; 0; 0; 0; 0; 117; 117; 117; 0; 0; 0; 0; 0; 117; 117; 117; 0; 0; 0; 0; 0; 117; 117; 117; 117;
    117; 117; 0; 0; 0; 0; 0; 0; 0; 117; 117; 117; 0; 143; 143; 143; 143; 0; 0; 0; 117; 117; 117;
    117; 117; 117; 0; 0; 0; 0; 117; 117; 0; 0; 0; 0; 117; 117; 117; 0; 0; 0; 0; 0; 117; 117; 117;
    117; 0; 0; 0; 0; 0; 117; 117; 117; 117; 0; 0; 0; 0; 0; 117; 117; 117; 117; 0; 0; 0; 0; 0; 117;
    0; 0; 0; 0; 0; 117; 117; 117; 143; 143; 143; 131; 117; 117; 117; 117; 117; 117; 117].
Definition yy_accept_2 : list Z :=
  [117; 0; 0; 0; 0; 117; 117; 0; 0; 117; 0; 0; 0; 117; 0; 0; 0; 117; 0; 0; 0; 117; 0; 0; 0; 117;
    117; 117; 117; 0; 0; 0; 0; 0; 117; 126; 143; 123; 117; 0; 0; 117; 117; 0; 117; 117; 117; 0; 117;
    117; 117; 0; 117; 117; 117; 0; 117; 117; 117; 0; 0; 0; 0; 117; 127; 117; 117; 0; 0; 0; 0; 0; 0;
    117; 117; 117; 0; 0; 117; 117; 117; 117; 117; 0; 117; 117; 0].
Definition yy_accept : table := [yy_accept_1; yy_accept_2].

Definition yy_ec : list Z :=
  [0; 1; 1; 1; 1; 1; 1; 1; 1; 2; 3; 1; 1; 4; 1; 1; 1; 1; 1; 1; 1; 1; 1; 1; 1; 1; 1; 1; 1; 1; 1; 1;
    2; 5; 1; 1; 6; 1; 7; 1; 8; 8; 9; 9; 1; 10; 11; 9; 12; 13; 14; 15; 16; 17; 18; 17; 17; 17; 19; 1;
    20; 21; 22; 1; 1; 23; 23; 23; 23; 23; 23; 24; 24; 24; 24; 24; 24; 24; 24; 24; 24; 24; 24; 24;
    24; 24; 24; 24; 25; 24; 24; 26; 27; 26; 1; 28; 1; 29; 30; 31; 32; 33; 34; 35; 36; 37; 24; 38;
    39; 40; 41; 42; 43; 44; 45; 46; 47; 48; 49; 50; 51; 52; 24; 1; 53; 1; 1; 1; 1; 1; 1; 1; 1; 1; 1;
    1; 1; 1; 1; 1; 1; 1; 1; 1; 1; 1; 1; 1; 1; 1; 1; 1; 1; 1; 1; 1; 1; 1; 1; 1; 1; 1; 1; 1; 1; 1; 1;
    1; 1; 1; 1; 1; 1; 1; 1; 1; 1; 1; 1; 1; 1; 1; 1; 1; 1; 1; 1; 1; 1; 1; 1; 1; 1; 1; 1; 1; 1; 1; 1;
    1; 1; 1; 1; 1; 1; 1; 1; 1; 1; 1; 1; 1; 1; 1; 1; 1; 1; 1; 1; 1; 1; 1; 1; 1; 1; 1; 1; 1; 1; 1; 1;
    1; 1; 1; 1; 1; 1; 1; 1; 1; 1; 1; 1; 1; 1; 1; 1; 1; 1; 1; 1; 1; 1; 1; 1; 1].

Definition yy_meta : list Z :=
  [0; 1; 2; 2; 1; 2; 1; 3; 2; 1; 4; 5; 6; 6; 6; 6; 6; 6; 6; 7; 3; 3; 3; 8; 4; 9; 3; 1; 4; 8; 8; 8;
    8; 8; 8; 4; 4; 4; 4; 4; 4; 4; 4; 4; 4; 4; 4; 4; 4; 4; 4; 9; 4; 3].

Definition yy_base_1 : list Z :=
  [0; 0; 0; 3858; 53; 7396; 7396; 54; 3836; 60; 3849; 7396; 82; 7396; 100; 31; 152; 47; 3834; 49;
    169; 211; 169; 61; 44; 126; 61; 30; 63; 76; 3811; 215; 218; 160; 32; 166; 117; 171; 228; 145;
    3820; 229; 3812; 3782; 276; 7396; 0; 7396; 292; 315; 339; 3815; 363; 0; 370; 0; 404; 7396; 7396;
    7396; 7396; 7396; 274; 292; 0; 3788; 3785; 3799; 0; 3797; 3785; 3798; 3781; 3769; 3763; 3764;
    3767; 3765; 3764; 3773; 3743; 3756; 3739; 324; 3749; 3752; 3736; 3734; 3747; 3719; 3724; 3722;
    82; 3726; 3721; 3729; 148; 229; 0; 0; 37; 123; 3717; 3726; 167; 3695; 3693; 3696; 3699; 3689;
    3695; 3686; 3671; 3677; 0; 3685; 0; 3668; 3674; 3667; 3668; 3668; 3653; 160; 3664; 3647; 3658;
    3650; 56; 3645; 216; 3628; 126; 3627; 3639; 0; 3625; 0; 3624; 3622; 3627; 3634; 3610; 3601;
    3616; 7396; 7396; 429; 453; 212; 494; 518; 542; 3625; 549; 3631; 573; 269; 3621; 3581; 3586;
    3577; 0; 0; 3582; 0; 3591; 3585; 3574; 3573; 3559; 3556; 3557; 3564; 0; 0; 3558; 3548; 0; 3560;
    3540; 3528; 3542; 3545; 3526; 3528; 3541; 3526; 3525; 0; 3509; 3503; 0; 0; 3506; 3496; 0; 3507;
    0; 3504; 3492; 3499; 0; 0; 3474; 0; 3483; 3491; 203; 3473; 0; 3469; 3485; 0; 3480; 0; 3483; 0;
    3456; 3440; 3434; 3437; 3441; 3433; 3429; 0; 3427; 3440; 0; 3414; 0; 3413; 0; 0; 0; 3410; 0;
    171; 167; 3421; 0; 0; 3411; 0; 3408; 3409; 613; 3439; 636; 660; 3423; 667; 476; 267; 691; 3414;
    715; 3412; 3410; 723; 288; 3409; 3407; 483; 764; 787; 3391; 0; 0; 3367; 327; 3370; 3375; 0; 0;
    0; 3371; 0; 3370; 3371; 3340; 0; 3340; 0; 3334; 3334; 0; 590; 3328; 0; 0; 3334; 3307; 3308; 0;
    0; 3298; 0; 0; 0; 0; 3313; 3303; 3291; 0; 3284; 3287; 3303; 3276; 3271; 3268; 3248; 0; 3246; 0;
    3239; 0; 192; 0; 0; 3232; 3227; 715; 3218; 0; 0; 0; 812; 836; 312; 877; 3245; 3244; 381; 900;
    924; 948; 3235; 955; 597; 3234; 3231; 978; 752; 1002; 1025; 3230; 0; 3219; 400; 403; 1049; 3197;
    1073; 339; 3196; 3203; 3168; 0; 0; 0; 0; 3162; 0; 3161; 3159; 3142; 3141; 0; 3156; 3140; 1092;
    0; 3126; 3115; 3133; 0; 3108; 0; 3111; 3102; 0; 0; 3101; 3080; 237; 3079; 3097; 268; 3072; 0;
    3050; 3039; 3053; 3046; 3041; 3050; 3043; 3031; 3032; 3025; 3022; 3036; 1129; 3051; 1152; 1176;
    3039; 1183; 859; 305; 1207; 340; 1247; 1270; 1294; 3009; 3008; 1302; 364; 3007; 3005; 3003;
    3002; 1343; 373; 3001; 2976; 491; 607; 1384; 2975; 1408; 404; 2974; 2981; 2971; 866; 0; 347;
    2970; 1096; 1449; 1472; 2969; 0; 0; 2926; 2942; 2923; 0; 2931; 2914; 2920; 2933; 2918; 2919;
    2918; 407; 2901; 411; 2901; 2909; 2897; 2893; 0; 2883; 2893; 2881; 2886; 2853; 2842; 2841; 0; 0;
    2844; 0; 2838; 2830; 2843; 2827; 2821; 2817; 2811; 2809; 2813; 2818; 2817; 1497; 1521; 405;
    1562; 2825; 2824; 609; 1586; 1610; 1617; 1641; 2815; 1648; 1672; 1695; 2814; 2813; 2811; 1718;
    1103; 1742; 1765; 2810; 0; 1230; 0; 461; 2809; 1237; 1789; 1812; 2794; 0; 734; 761; 2801; 462;
    781; 812; 1836; 2792; 1860; 428; 2791; 2798; 381; 2761; 2766; 2763; 0; 0; 2753; 2755; 2741;
    2741; 2753; 2735; 2734; 2741; 2719; 2720; 2731; 2730; 0; 2721; 2714; 0; 0; 0; 2727; 2723; 2713;
    2700; 0; 0; 0; 2704; 0; 0; 0; 2693; 1900; 2728; 1923; 1947; 2725; 1954; 324; 1978; 2002; 2009;
    2033; 2716; 2715; 2041; 452; 2700; 2082; 488; 2699; 2698; 2697; 2696; 2123; 489; 2694; 874; 894;
    2164; 2693; 2188; 493; 2692; 2684; 1123; 1125; 2683; 2682; 1246; 1312; 2229; 2673; 2253; 494;
    2672; 2677; 1326; 0; 1333; 0; 527; 2668; 1366; 2294; 2317; 2653; 0; 2340; 428; 79; 255; 237;
    617; 546; 586; 2624; 362; 522; 547; 379; 2623; 2622; 1124; 2621; 2619; 1242; 849; 473; 2618;
    2617; 2378; 2415; 2451; 2487; 546; 2511; 588; 2519; 2543; 2629; 2550; 2574; 2597; 2628; 2621;
    2644; 2627; 2626; 2624; 2667; 1373; 2691; 2714; 2622; 0; 1431; 0; 675; 2606; 1438; 2738; 2761;
    2605; 0; 1544; 0; 1551; 0; 676; 2604; 1883; 2785; 2808; 2603; 0; 637; 1890; 2610; 1381; 1446;
    2608; 2607; 1466; 1497; 2832; 2598; 2856; 638; 2582; 2589; 567; 682; 591; 612; 763; 1246; 2051;
    1383; 628; 803; 805; 2078; 683; 829; 761; 828; 2076; 2080; 2898; 830; 2921; 892; 2944; 2109;
    2968; 2992; 2580; 2579; 3000; 737; 2577; 3041; 873; 2576; 3082; 876; 2575; 2559; 2558; 2557;
    3123; 897; 2556; 1559; 1689; 3164; 2555; 3188; 901; 2553; 2560; 1899; 2051; 2559; 2558; 2052;
    2058; 3229; 2528; 3253; 924; 2527; 2534; 925; 2146; 2533; 2118; 2119; 2532; 2530; 2120; 2140;
    3294; 2521; 3318; 926; 2520; 2527; 0; 2211; 0; 2218; 0; 732; 2496; 2276; 3359; 3382; 2495; 0;
    918; 970; 971; 972; 1899; 996; 1448; 1017; 1018; 2271; 1042; 1561; 1043; 3407; 3430; 3454; 998;
    3494; 3518; 3542; 2494; 3549; 3573; 3596; 2493; 3620; 3643; 2492; 3667; 3690; 2490; 2489; 2488;
    3713; 2363; 3737; 3760; 2487; 0; 2401; 0; 1011; 2440; 2438; 3784; 3807; 2439; 0; 2458; 0; 2465;
    0; 1058; 2438; 2472; 3831; 3854; 2424; 0; 0; 2479; 0; 2879; 0; 1082; 2423; 2886; 3878; 3901;
    2422; 0; 0; 1049; 3023; 2429; 2161; 2226; 2378; 2351; 2290; 2291; 3925; 2342; 3949; 1072; 2341;
    2348; 2293; 2354; 2355; 2122; 1123; 2228; 2356; 1066; 2357; 1198; 1121; 1145; 1199; 3991; 4015;
    4024; 1200; 2326; 2325; 4042; 1102; 2324; 4083; 1105; 2320; 4124; 1152; 2319; 4165; 1153; 2318;
    2303; 2301; 4205; 4229; 1154; 2300; 2409; 2410; 4270; 2281; 4294; 1182; 2278; 2285; 2591; 2638;
    2284; 2268; 2894; 2895; 4335; 2256; 4359; 1241; 2254; 2244; 1243; 3030; 2243; 2898; 3038; 2242;
    2239; 3051; 3057; 4400; 2230; 4424; 1244; 2197; 2204; 0; 1247; 3105; 2203; 3058; 3079; 2199;
    2198; 3099; 3118; 4465; 2170; 4489; 1271; 2169; 2174; 0; 3146; 0; 3211; 0; 1161; 2154; 3218;
    4530; 4553; 2149; 0; 3263; 3264; 3328; 1201; 2394; 2100; 1402; 2395; 2270; 1464; 1488; 1342;
    4578; 4602; 4611; 2130; 4628; 4652; 4675; 2100; 4699; 4722; 2070; 4746; 4769; 2068; 4793; 4816;
    2065; 2063; 4840; 1384; 2062; 2061; 3281; 4881; 2059; 2049; 0; 3345; 0; 1530; 2046; 3477; 4905;
    2018; 2016; 0; 3484; 0; 3972; 0; 1571; 2015; 3979; 4929; 2014; 2011; 0; 0; 4031; 0; 4065; 0;
    1594; 1981; 4072; 4953; 1980; 1906; 0; 0; 4106; 0; 4113; 0; 1595; 1863; 4147; 4977; 1844; 1819;
    0; 0; 1385; 4154; 1822; 3120; 3140; 1806; 1802; 3159; 3161; 5001; 1771; 5025; 1448; 1770; 1756;
    1490; 1664; 1665; 1515; 1666; 1736; 4163; 1687; 1711; 2396; 5067; 1747; 5084; 5108; 1556; 1725;
    5149; 1561; 1724; 5190; 1586; 1723; 5231; 1616; 1719; 5272; 1617; 1704; 1700; 4191; 5313; 1626;
    1620; 0; 1619; 3226; 3264; 5337; 1617; 1569; 1576; 3289; 3328; 1572; 1536; 3355; 3376; 5361;
    1521; 1505; 1512; 1618; 4252; 1508; 3407; 3493; 1483; 1464; 3590; 3637; 5385; 1451; 1450; 1418;
    0; 1619; 4259; 1397; 3684; 4175; 1394; 1393; 4176; 4200; 5409; 1352; 1350; 1356; 0; 1647; 4317;
    1354; 4204; 4267; 1353; 1319; 4311; 4330; 5433; 1310; 1309; 1315; 0; 4382; 0; 4389; 0; 1751;
    1305; 4447; 5457; 0; 1271; 0; 1735; 1758; 1759; 1781; 1782; 1969; 4483; 4499; 5481; 1648; 0;
    1254; 5522; 0; 1248; 5546; 0; 1216; 5570; 0; 1212; 5594; 0; 1183; 5618; 0; 1109; 4332; 4397;
    5642; 1107; 1103; 1076; 1064; 1028; 4454; 0; 1821; 1007; 983; 4516; 0; 4618; 0; 1845; 964; 960;
    0; 4863; 0; 4870; 0; 1869; 955; 925; 0; 5048; 0; 5055; 0; 1909; 924; 902; 0; 5074; 0; 5131; 0;
    1932; 885; 80; 0; 1671; 5138; 180; 4462; 4526; 187; 225; 4547; 4627; 5666; 280; 0; 301; 2358;
    1783; 1806; 1829; 5690; 299; 340; 0; 0; 0; 0; 0; 0; 5172; 0; 1962; 431; 496; 0; 4669; 4716; 511;
    532; 0; 1811; 5179; 559; 4763; 4810; 563; 605; 0; 0; 1833; 5213; 606; 4878; 5083; 628; 630; 0;
    0; 1835; 5220; 680; 5228; 5241; 702; 704; 0; 0; 1836; 5255; 705; 5269; 5282; 707; 708; 0; 0;
    5296; 0; 5504; 0; 1963; 728; 0; 3078; 2959; 2156; 1916; 0; 7396; 0; 0; 0; 0; 0].
Definition yy_base_2 : list Z :=
  [0; 5310; 5498; 739; 773; 0; 7396; 5512; 0; 7396; 0; 5713; 0; 7396; 0; 5720; 0; 7396; 0; 5727; 0;
    7396; 0; 5734; 0; 7396; 0; 1894; 5741; 779; 5749; 5750; 796; 2017; 0; 1970; 3336; 2057; 0; 5750;
    0; 1896; 5764; 798; 0; 1897; 5771; 800; 0; 1924; 5778; 803; 0; 1951; 5790; 844; 0; 1953; 5797;
    851; 0; 5804; 0; 7396; 2180; 1978; 5811; 853; 0; 0; 0; 0; 0; 0; 1980; 5818; 886; 0; 0; 0; 0; 0;
    0; 0; 0; 0; 7396; 5836; 5844; 5848; 5851; 5854; 5857; 5860; 5863; 5866; 5869; 5872; 5875; 5878;
    5881; 5884; 5887; 5890; 5893; 5896; 5900; 5904; 5907; 5910; 5913; 5916; 5919; 5922; 5925; 5928;
    5932; 5936; 5939; 5942; 5946; 5948; 5951; 5954; 5957; 5960; 5963; 5966; 5969; 5972; 5976; 5978;
    5981; 5985; 5990; 5994; 5997; 6001; 6004; 6007; 6010; 6013; 6016; 6019; 6022; 6026; 6030; 6033;
    6037; 6041; 6046; 6050; 6052; 6056; 6059; 6063; 6066; 6069; 6073; 6075; 6078; 6081; 6084; 6087;
    6090; 6093; 6096; 6099; 6102; 6106; 6108; 6111; 6114; 6117; 6121; 6123; 6126; 6129; 6134; 6138;
    6143; 6147; 6149; 6153; 6156; 6160; 6165; 6169; 6172; 6175; 6178; 6181; 6184; 6187; 6190; 6194;
    6198; 6201; 6205; 6209; 6214; 6218; 6220; 6224; 6227; 6231; 6234; 6239; 6243; 6248; 6252; 6254;
    6258; 6261; 6265; 6268; 6271; 6274; 6278; 6280; 6283; 6288; 6292; 6295; 6298; 6301; 6304; 6307;
    6310; 6313; 6316; 6320; 6322; 6325; 6328; 6331; 6335; 6337; 6340; 6343; 6346; 6349; 6353; 6355;
    6358; 6361; 6364; 6369; 6373; 6378; 6382; 6384; 6388; 6391; 6395; 6400; 6404; 6407; 6410; 6413;
    6416; 6419; 6422; 6425; 6429; 6433; 6436; 6440; 6444; 6449; 6453; 6455; 6459; 6462; 6466; 6469;
    6474; 6478; 6483; 6487; 6489; 6493; 6496; 6500; 6503; 6506; 6511; 6515; 6520; 6524; 6526; 6530;
    6533; 6537; 6540; 6543; 6546; 6550; 6552; 6555; 6560; 6564; 6567; 6570; 6573; 6576; 6579; 6582;
    6585; 6588; 6591; 6594; 6597; 6601; 6603; 6606; 6609; 6612; 6615; 6619; 6621; 6624; 6627; 6630;
    6633; 6636; 6640; 6642; 6645; 6648; 6651; 6654; 6657; 6661; 6663; 6666; 6669; 6672; 6675; 6680;
    6684; 6689; 6693; 6695; 6699; 6702; 6706; 6711; 6715; 6718; 6721; 6724; 6727; 6730; 6733; 6736;
    6739; 6742; 6746; 6750; 6753; 6757; 6761; 6766; 6770; 6772; 6776; 6779; 6783; 6786; 6791; 6795;
    6800; 6804; 6806; 6810; 6813; 6817; 6820; 6823; 6828; 6832; 6837; 6841; 6843; 6847; 6850; 6854;
    6857; 6860; 6865; 6869; 6874; 6878; 6880; 6884; 6887; 6891; 6894; 6897; 6900; 6904; 6906; 6909;
    6912; 6917; 6921; 6924; 6927; 6930; 6933; 6936; 6939; 6942; 6945; 6948; 6951; 6954; 6958; 6962;
    6965; 6968; 6972; 6975; 6978; 6982; 6984; 6987; 6990; 6994; 6996; 6999; 7002; 7005; 7009; 7011;
    7014; 7017; 7020; 7024; 7026; 7029; 7032; 7035; 7039; 7041; 7044; 7047; 7052; 7056; 7061; 7065;
    7067; 7071; 7074; 7078; 7083; 7087; 7090; 7093; 7096; 7099; 7102; 7105; 7108; 7111; 7115; 7117;
    7120; 7124; 7129; 7133; 7134; 7137; 7142; 7146; 7151; 7155; 7156; 7159; 7162; 7167; 7171; 7176;
    7180; 7181; 7184; 7187; 7192; 7196; 7201; 7205; 7206; 7209; 7212; 7217; 7221; 7226; 7230; 7231;
    7234; 7237; 7240; 7244; 7246; 7251; 7255; 7258; 7261; 7264; 7267; 7270; 7273; 7277; 7282; 7286;
    7287; 7290; 7293; 7296; 7299; 7302; 7305; 7308; 7311; 7314; 7317; 7322; 7326; 7329; 7332; 7335;
    7339; 7343; 7347; 7351; 7355; 7358; 7361; 7365; 7368; 7371; 7374; 7377; 7380; 7384; 7387].
Definition yy_base : table := [yy_base_1; yy_base_2].

Definition yy_def_1 : list Z :=
  [0; 1437; 1; 1437; 1437; 1437; 1437; 1437; 1437; 1438; 1437; 1437; 1437; 1437; 1437; 14; 1437;
    1437; 1437; 1437; 14; 20; 1439; 20; 20; 20; 20; 20; 20; 21; 21; 21; 21; 21; 21; 21; 21; 21; 21;
    21; 21; 21; 21; 1437; 1437; 1437; 1440; 1437; 21; 21; 20; 1441; 50; 21; 21; 21; 1437; 1437;
    1437; 1437; 1437; 1437; 49; 1439; 1439; 52; 52; 52; 21; 21; 21; 21; 52; 21; 21; 52; 21; 21; 21;
    52; 21; 21; 21; 21; 21; 52; 21; 21; 21; 21; 21; 21; 21; 21; 21; 21; 21; 21; 21; 21; 21; 21; 21;
    21; 21; 21; 21; 21; 21; 21; 21; 21; 21; 21; 21; 21; 21; 21; 21; 21; 21; 21; 21; 21; 21; 21; 21;
    21; 21; 21; 21; 21; 21; 21; 21; 21; 21; 21; 21; 21; 21; 21; 21; 21; 21; 1437; 1437; 21; 21; 148;
    21; 21; 151; 1442; 1437; 54; 1437; 156; 1443; 21; 21; 152; 21; 21; 21; 152; 21; 21; 21; 21; 21;
    21; 152; 21; 21; 21; 21; 21; 21; 21; 152; 21; 21; 21; 21; 21; 21; 21; 21; 21; 21; 21; 21; 21;
    21; 21; 21; 21; 21; 21; 21; 21; 21; 21; 21; 21; 21; 21; 21; 21; 21; 21; 21; 21; 21; 21; 21; 21;
    21; 21; 21; 21; 21; 21; 21; 21; 21; 21; 21; 21; 21; 21; 21; 21; 21; 21; 21; 21; 21; 21; 21; 21;
    21; 21; 21; 21; 21; 21; 21; 21; 21; 21; 248; 249; 152; 1444; 254; 1445; 1446; 1437; 259; 1447;
    1448; 1437; 1437; 1437; 1449; 1450; 21; 21; 21; 21; 21; 21; 21; 21; 21; 21; 21; 21; 21; 21; 21;
    21; 21; 21; 21; 21; 21; 21; 21; 21; 21; 21; 21; 21; 21; 21; 21; 21; 21; 21; 21; 21; 21; 21; 21;
    21; 21; 21; 21; 21; 21; 21; 21; 21; 21; 21; 21; 21; 21; 21; 21; 21; 21; 21; 21; 21; 21; 328; 21;
    249; 251; 249; 251; 251; 335; 1451; 1437; 334; 1452; 1453; 1437; 1437; 1437; 1437; 1454; 1455;
    1456; 1457; 1457; 1437; 1458; 1437; 353; 1459; 1450; 21; 21; 21; 21; 21; 21; 21; 21; 21; 21; 21;
    21; 21; 21; 21; 21; 21; 21; 21; 21; 21; 21; 21; 21; 21; 21; 21; 21; 21; 21; 21; 21; 21; 21; 21;
    21; 21; 21; 21; 21; 21; 21; 21; 21; 21; 21; 21; 21; 21; 21; 21; 21; 405; 406; 406; 411; 405;
    335; 414; 1460; 1461; 1437; 418; 1462; 1437; 1463; 1464; 1437; 424; 1465; 1466; 1467; 1467;
    1437; 1468; 1437; 432; 1469; 1455; 1437; 1437; 1470; 1471; 1437; 1437; 1437; 1437; 1472; 1473;
    21; 21; 21; 21; 21; 21; 21; 21; 21; 21; 21; 21; 21; 21; 21; 21; 21; 21; 21; 21; 21; 21; 21; 21;
    21; 21; 21; 21; 21; 21; 21; 21; 21; 21; 21; 21; 21; 21; 21; 21; 21; 21; 21; 21; 489; 21; 406;
    408; 406; 406; 495; 414; 497; 1474; 1437; 1437; 1437; 1475; 1476; 1477; 1437; 1437; 1437; 1437;
    1478; 1479; 1437; 1480; 1481; 1437; 1437; 1437; 1437; 1482; 1483; 1484; 1484; 1470; 1471; 1485;
    1485; 1437; 1486; 1437; 529; 1487; 1488; 21; 21; 21; 21; 21; 21; 21; 21; 21; 21; 21; 21; 21; 21;
    21; 21; 21; 21; 21; 21; 21; 21; 21; 21; 21; 21; 21; 21; 21; 21; 21; 21; 21; 21; 21; 21; 21; 21;
    21; 21; 21; 21; 572; 572; 576; 497; 578; 1489; 1490; 1437; 582; 1491; 1437; 585; 1492; 1437;
    1493; 1494; 1437; 591; 1495; 1496; 1496; 1437; 1497; 1437; 598; 1498; 1499; 1500; 1500; 1501;
    1502; 1503; 1503; 1437; 1504; 1437; 610; 1505; 1506; 1437; 1507; 1437; 1508; 1509; 1437; 1437;
    1437; 1437; 1510; 1511; 579; 625; 625; 625; 625; 625; 625; 625; 625; 625; 625; 625; 625; 625;
    625; 625; 625; 625; 625; 625; 625; 625; 625; 625; 625; 625; 650; 650; 650; 625; 650; 655; 1512;
    1437; 1437; 1437; 1513; 1437; 1437; 1514; 1515; 1516; 1437; 1437; 1437; 1437; 1517; 1518; 1437;
    1519; 1520; 1437; 1437; 1437; 1437; 1521; 1522; 1437; 1523; 1437; 1524; 1525; 1437; 1437; 1437;
    1437; 1526; 1527; 1528; 1437; 1529; 1530; 1530; 1531; 1532; 1533; 1533; 1437; 1534; 1437; 704;
    1535; 1536; 1537; 1537; 1537; 1537; 1537; 1537; 1537; 1537; 1537; 1537; 1537; 1537; 1537; 1537;
    1537; 1537; 1537; 1537; 1537; 1537; 726; 1537; 726; 730; 730; 732; 1538; 1539; 1437; 736; 1540;
    1437; 739; 1541; 1437; 742; 1542; 1437; 1543; 1544; 1437; 748; 1545; 1546; 1546; 1437; 1547;
    1437; 755; 1548; 1549; 1550; 1550; 1551; 1552; 1553; 1553; 1437; 1554; 1437; 767; 1555; 1556;
    1557; 1437; 1558; 1559; 1559; 1560; 1561; 1562; 1562; 1437; 1563; 1437; 782; 1564; 1565; 1566;
    1437; 1567; 1437; 1568; 1569; 1437; 1437; 1437; 1437; 1570; 1571; 1572; 1572; 1572; 1572; 1572;
    1572; 1572; 1572; 1572; 1572; 1572; 1572; 1572; 1572; 811; 811; 813; 811; 811; 816; 1573; 1437;
    1437; 1437; 1574; 1437; 1437; 1575; 1437; 1437; 1576; 1577; 1578; 1437; 1437; 1437; 1437; 1579;
    1580; 1437; 1581; 1582; 1437; 1437; 1437; 1437; 1583; 1584; 1437; 1585; 1437; 1586; 1587; 1437;
    1437; 1437; 1437; 1588; 1589; 1590; 1437; 1591; 1437; 1592; 1593; 1437; 1437; 1437; 1437; 1594;
    1595; 1596; 1597; 1437; 1598; 1599; 1599; 1600; 1601; 1602; 1602; 1437; 1603; 1437; 881; 1604;
    1605; 1606; 1606; 1606; 1606; 1606; 1606; 1606; 1606; 1606; 1606; 1606; 1606; 1606; 1606; 898;
    1606; 1606; 1607; 1608; 1437; 904; 1609; 1437; 907; 1610; 1437; 910; 1611; 1437; 913; 1612;
    1437; 1613; 1437; 1437; 919; 1614; 1615; 1615; 1437; 1616; 1437; 926; 1617; 1618; 1619; 1619;
    1620; 1621; 1622; 1622; 1437; 1623; 1437; 938; 1624; 1625; 1626; 1437; 1627; 1628; 1628; 1629;
    1630; 1631; 1631; 1437; 1632; 1437; 953; 1633; 1634; 1635; 1636; 1437; 1637; 1638; 1638; 1639;
    1640; 1641; 1641; 1437; 1642; 1437; 969; 1643; 1644; 1645; 1437; 1646; 1437; 1647; 1648; 1437;
    1437; 1437; 1437; 1649; 1650; 1651; 1651; 1651; 1651; 1651; 1651; 1651; 1651; 1651; 1651; 1651;
    1651; 1651; 997; 1651; 1652; 1437; 1437; 1437; 1653; 1437; 1437; 1654; 1437; 1437; 1655; 1437;
    1437; 1656; 1657; 1437; 1015; 1658; 1659; 1437; 1437; 1660; 1661; 1662; 1437; 1663; 1664; 1437;
    1437; 1437; 1665; 1666; 1667; 1437; 1668; 1437; 1669; 1670; 1437; 1437; 1437; 1671; 1672; 1673;
    1674; 1437; 1675; 1437; 1676; 1677; 1437; 1437; 1437; 1678; 1679; 1680; 1681; 1437; 1682; 1437;
    1683; 1684; 1437; 1437; 1437; 1685; 1686; 1687; 1688; 1689; 1437; 1690; 1691; 1691; 1692; 1693;
    1694; 1694; 1437; 1695; 1437; 1080; 1696; 1697; 1698; 1698; 1698; 1698; 1698; 1698; 1698; 1698;
    1698; 1698; 1698; 1699; 1437; 1437; 1097; 1700; 1437; 1100; 1701; 1437; 1103; 1702; 1437; 1106;
    1703; 1437; 1109; 1704; 1437; 1437; 1437; 1705; 1706; 1707; 1708; 1709; 1709; 1437; 1710; 1711;
    1712; 1713; 1713; 1714; 1715; 1716; 1716; 1437; 1717; 1718; 1719; 1720; 1437; 1721; 1722; 1722;
    1723; 1724; 1725; 1725; 1437; 1726; 1727; 1728; 1729; 1730; 1437; 1731; 1732; 1732; 1733; 1734;
    1735; 1735; 1437; 1736; 1737; 1738; 1739; 1740; 1437; 1741; 1742; 1742; 1743; 1744; 1745; 1745;
    1437; 1746; 1747; 1748; 1749; 1437; 1750; 1437; 1751; 1752; 1437; 1437; 1437; 1753; 1754; 1755;
    1756; 1756; 1756; 1756; 1756; 1756; 1756; 1756; 1437; 1196; 1757; 1758; 1437; 1759; 1760; 1437;
    1761; 1762; 1437; 1763; 1764; 1437; 1765; 1766; 1437; 1767; 1768; 1769; 1769; 1437; 1770; 1771;
    1772; 1773; 1774; 1437; 1775; 1776; 1437; 1777; 1437; 1778; 1437; 1779; 1780; 1437; 1781; 1782;
    1437; 1783; 1437; 1784; 1785; 1437; 1786; 1787; 1437; 1788; 1437; 1789; 1790; 1437; 1791; 1792;
    1437; 1793; 1437; 1794; 1795; 1437; 1796; 1797; 1798; 1437; 1799; 1800; 1800; 1801; 1802; 1803;
    1803; 1437; 1804; 1805; 1806; 1807; 1807; 1807; 1807; 1437; 1808; 1809; 1810; 1811; 1812; 1813;
    1814; 1815; 1437; 1816; 1817; 1437; 1818; 1819; 1820; 1820; 1821; 1822; 1823; 1824; 1437; 1825;
    1826; 1826; 1827; 1828; 1829; 1830; 1831; 1437; 1832; 1833; 1833; 1834; 1835; 1836; 1837; 1838;
    1437; 1839; 1840; 1840; 1841; 1842; 1843; 1844; 1845; 1437; 1846; 1847; 1847; 1848; 1849; 1850;
    1851; 1437; 1852; 1437; 1853; 1854; 1437; 1855; 1856; 1856; 1856; 1856; 1857; 1437; 1858; 1859;
    1860; 1861; 1862].
Definition yy_def_2 : list Z :=
  [1863; 1864; 1864; 1865; 1866; 1867; 1437; 1437; 1868; 1437; 1869; 1437; 1870; 1437; 1871; 1437;
    1872; 1437; 1873; 1437; 1874; 1437; 1875; 1437; 1876; 1437; 1851; 1877; 1437; 1852; 1878; 1878;
    1853; 1854; 1879; 1856; 1856; 1856; 1880; 1437; 1881; 1882; 1437; 1868; 1869; 1883; 1437; 1870;
    1871; 1884; 1437; 1872; 1873; 1885; 1437; 1874; 1875; 1886; 1437; 1876; 1887; 1437; 1888; 1437;
    1856; 1889; 1437; 1881; 1890; 1891; 1892; 1893; 1894; 1887; 1895; 1437; 1888; 1896; 1890; 1891;
    1892; 1893; 1894; 1897; 1896; 1897; 0; 1437; 1437; 1437; 1437; 1437; 1437; 1437; 1437; 1437;
    1437; 1437; 1437; 1437; 1437; 1437; 1437; 1437; 1437; 1437; 1437; 1437; 1437; 1437; 1437; 1437;
    1437; 1437; 1437; 1437; 1437; 1437; 1437; 1437; 1437; 1437; 1437; 1437; 1437; 1437; 1437; 1437;
    1437; 1437; 1437; 1437; 1437; 1437; 1437; 1437; 1437; 1437; 1437; 1437; 1437; 1437; 1437; 1437;
    1437; 1437; 1437; 1437; 1437; 1437; 1437; 1437; 1437; 1437; 1437; 1437; 1437; 1437; 1437; 1437;
    1437; 1437; 1437; 1437; 1437; 1437; 1437; 1437; 1437; 1437; 1437; 1437; 1437; 1437; 1437; 1437;
    1437; 1437; 1437; 1437; 1437; 1437; 1437; 1437; 1437; 1437; 1437; 1437; 1437; 1437; 1437; 1437;
    1437; 1437; 1437; 1437; 1437; 1437; 1437; 1437; 1437; 1437; 1437; 1437; 1437; 1437; 1437; 1437;
    1437; 1437; 1437; 1437; 1437; 1437; 1437; 1437; 1437; 1437; 1437; 1437; 1437; 1437; 1437; 1437;
    1437; 1437; 1437; 1437; 1437; 1437; 1437; 1437; 1437; 1437; 1437; 1437; 1437; 1437; 1437; 1437;
    1437; 1437; 1437; 1437; 1437; 1437; 1437; 1437; 1437; 1437; 1437; 1437; 1437; 1437; 1437; 1437;
    1437; 1437; 1437; 1437; 1437; 1437; 1437; 1437; 1437; 1437; 1437; 1437; 1437; 1437; 1437; 1437;
    1437; 1437; 1437; 1437; 1437; 1437; 1437; 1437; 1437; 1437; 1437; 1437; 1437; 1437; 1437; 1437;
    1437; 1437; 1437; 1437; 1437; 1437; 1437; 1437; 1437; 1437; 1437; 1437; 1437; 1437; 1437; 1437;
    1437; 1437; 1437; 1437; 1437; 1437; 1437; 1437; 1437; 1437; 1437; 1437; 1437; 1437; 1437; 1437;
    1437; 1437; 1437; 1437; 1437; 1437; 1437; 1437; 1437; 1437; 1437; 1437; 1437; 1437; 1437; 1437;
    1437; 1437; 1437; 1437; 1437; 1437; 1437; 1437; 1437; 1437; 1437; 1437; 1437; 1437; 1437; 1437;
    1437; 1437; 1437; 1437; 1437; 1437; 1437; 1437; 1437; 1437; 1437; 1437; 1437; 1437; 1437; 1437;
    1437; 1437; 1437; 1437; 1437; 1437; 1437; 1437; 1437; 1437; 1437; 1437; 1437; 1437; 1437; 1437;
    1437; 1437; 1437; 1437; 1437; 1437; 1437; 1437; 1437; 1437; 1437; 1437; 1437; 1437; 1437; 1437;
    1437; 1437; 1437; 1437; 1437; 1437; 1437; 1437; 1437; 1437; 1437; 1437; 1437; 1437; 1437; 1437;
    1437; 1437; 1437; 1437; 1437; 1437; 1437; 1437; 1437; 1437; 1437; 1437; 1437; 1437; 1437; 1437;
    1437; 1437; 1437; 1437; 1437; 1437; 1437; 1437; 1437; 1437; 1437; 1437; 1437; 1437; 1437; 1437;
    1437; 1437; 1437; 1437; 1437; 1437; 1437; 1437; 1437; 1437; 1437; 1437; 1437; 1437; 1437; 1437;
    1437; 1437; 1437; 1437; 1437; 1437; 1437; 1437; 1437; 1437; 1437; 1437; 1437; 1437; 1437; 1437;
    1437; 1437; 1437; 1437; 1437; 1437; 1437; 1437; 1437; 1437; 1437; 1437; 1437; 1437; 1437; 1437;
    1437; 1437; 1437; 1437; 1437; 1437; 1437; 1437; 1437; 1437; 1437; 1437; 1437; 1437; 1437; 1437;
    1437; 1437; 1437; 1437; 1437; 1437; 1437; 1437; 1437; 1437; 1437; 1437; 1437; 1437; 1437; 1437;
    1437; 1437; 1437; 1437; 1437; 1437; 1437; 1437; 1437; 1437; 1437; 1437; 1437; 1437; 1437; 1437;
    1437; 1437; 1437].
Definition yy_def : table := [yy_def_1; yy_def_2].

Definition yy_nxt_1 : list Z :=
  [0; 4; 5; 6; 7; 8; 9; 10; 11; 12; 11; 13; 14; 15; 15; 15; 15; 15; 15; 16; 17; 18; 19; 20; 21; 21;
    11; 22; 13; 23; 24; 25; 26; 27; 28; 29; 30; 31; 21; 32; 33; 34; 35; 36; 21; 37; 38; 39; 40; 41;
    42; 21; 21; 43; 44; 44; 53; 44; 44; 44; 44; 44; 44; 44; 44; 111; 44; 57; 58; 44; 60; 61; 44; 44;
    112; 72; 83; 84; 197; 44; 44; 44; 53; 44; 198; 228; 44; 44; 44; 73; 65; 44; 66; 67; 79; 85; 74;
    68; 80; 426; 86; 44; 69; 229; 81; 87; 70; 82; 71; 44; 48; 49; 50; 50; 50; 50; 50; 50; 50; 51;
    710; 88; 187; 52; 53; 54; 53; 188; 55; 52; 52; 52; 52; 52; 52; 53; 53; 53; 53; 53; 53; 53; 53;
    53; 53; 53; 53; 53; 53; 53; 53; 54; 53; 44; 118; 75; 44; 234; 44; 119; 120; 44; 121; 122; 199;
    76; 192; 235; 77; 200; 63; 56; 78; 63; 135; 63; 136; 322; 63; 44; 62; 52; 52; 52; 52; 52; 52;
    52; 63; 105; 137; 1177; 222; 106; 53; 113; 63; 138; 1179; 193; 123; 323; 107; 108; 124; 223;
    109; 114; 110; 115; 203; 116; 125; 204; 117; 205; 320; 126; 321; 127; 53; 55; 53; 53; 53; 53;
    53; 53; 53; 53; 1437; 98; 99; 392; 53; 302; 980; 53; 393; 194; 53; 53; 53; 53; 53; 53; 90; 100;
    303; 91; 92; 101; 93; 231; 94; 102; 95; 103; 96; 128; 140; 97; 232; 53; 104; 129; 195; 130; 141;
    131; 469; 196; 142; 132; 143; 133; 134; 44; 53; 333; 44; 712; 44; 470; 53; 44; 150; 150; 150;
    150; 150; 150; 150; 63; 1437; 44; 63; 711; 63; 1185; 473; 63; 53; 44; 147; 147; 147; 147; 147;
    147; 147; 63; 1183; 1437; 474; 147; 53; 494; 1345; 63; 1437; 147; 147; 147; 147; 147; 147; 148;
    149; 149; 149; 149; 149; 149; 176; 53; 652; 53; 150; 1437; 358; 359; 360; 361; 150; 150; 150;
    150; 150; 150; 49; 151; 151; 151; 151; 151; 151; 151; 263; 1278; 362; 177; 152; 53; 1437; 53;
    265; 178; 152; 152; 152; 152; 152; 152; 62; 152; 152; 152; 152; 152; 152; 152; 155; 155; 155;
    155; 155; 155; 155; 1437; 1437; 53; 410; 155; 358; 359; 360; 361; 1437; 155; 155; 155; 155; 155;
    155; 44; 251; 717; 44; 53; 44; 437; 720; 44; 437; 1437; 156; 157; 157; 157; 157; 157; 157; 44;
    1437; 438; 53; 158; 1437; 1437; 53; 44; 251; 158; 158; 158; 158; 158; 158; 246; 543; 247; 247;
    247; 247; 247; 247; 247; 546; 544; 1278; 438; 247; 1437; 1437; 1437; 53; 547; 247; 247; 247;
    247; 247; 247; 248; 249; 249; 249; 249; 249; 249; 249; 343; 263; 709; 53; 250; 1437; 251; 1437;
    502; 1437; 250; 250; 250; 250; 250; 250; 330; 330; 330; 330; 330; 330; 330; 349; 350; 350; 350;
    350; 350; 350; 512; 1437; 251; 252; 250; 250; 250; 250; 250; 250; 250; 1437; 1437; 426; 513;
    250; 1437; 1437; 53; 725; 1223; 250; 250; 250; 250; 250; 250; 253; 254; 254; 254; 254; 254; 254;
    254; 255; 441; 1437; 1437; 256; 513; 1019; 1437; 1437; 443; 256; 256; 256; 256; 256; 256; 53;
    256; 256; 256; 256; 256; 256; 256; 259; 260; 260; 260; 260; 260; 260; 261; 53; 1228; 574; 262;
    718; 1230; 714; 719; 55; 262; 262; 262; 262; 262; 262; 263; 264; 264; 264; 264; 264; 264; 264;
    265; 53; 53; 55; 266; 574; 267; 731; 371; 55; 266; 266; 266; 266; 266; 266; 372; 413; 413; 413;
    413; 413; 413; 413; 1028; 1236; 512; 55; 575; 373; 55; 715; 267; 327; 327; 327; 327; 327; 327;
    327; 1437; 53; 408; 53; 327; 374; 55; 1238; 55; 1039; 327; 327; 327; 327; 327; 327; 328; 329;
    329; 329; 329; 329; 329; 713; 55; 799; 1437; 330; 408; 804; 786; 1437; 53; 330; 330; 330; 330;
    330; 330; 248; 331; 331; 331; 331; 331; 331; 331; 332; 332; 332; 332; 332; 332; 332; 507; 516;
    786; 1437; 332; 1244; 55; 55; 660; 663; 332; 332; 332; 332; 332; 332; 334; 335; 335; 335; 335;
    335; 335; 335; 55; 55; 808; 1246; 336; 1051; 1252; 798; 1254; 1063; 336; 336; 336; 336; 336;
    336; 339; 336; 336; 336; 336; 336; 336; 336; 343; 344; 344; 344; 344; 344; 344; 344; 345; 620;
    396; 614; 346; 1185; 347; 397; 1286; 622; 346; 346; 346; 346; 346; 346; 398; 615; 399; 400;
    1437; 401; 428; 429; 429; 429; 429; 429; 429; 55; 614; 55; 347; 263; 351; 351; 351; 351; 351;
    351; 351; 265; 1113; 615; 1437; 352; 1437; 55; 1333; 55; 616; 352; 352; 352; 352; 352; 352; 353;
    354; 354; 354; 354; 354; 354; 617; 1335; 800; 1358; 355; 1362; 1437; 55; 1366; 55; 355; 355;
    355; 355; 355; 355; 403; 616; 404; 404; 404; 404; 404; 404; 404; 55; 617; 55; 805; 404; 806;
    1437; 55; 55; 726; 404; 404; 404; 404; 404; 404; 405; 406; 406; 406; 406; 406; 406; 406; 1370;
    55; 55; 55; 407; 809; 408; 1374; 1437; 1390; 407; 407; 407; 407; 407; 407; 491; 491; 491; 491;
    491; 491; 491; 521; 522; 522; 522; 522; 522; 522; 673; 724; 408; 409; 407; 407; 407; 407; 407;
    407; 407; 53; 1412; 1437; 674; 407; 1437; 55; 728; 1213; 673; 407; 407; 407; 407; 407; 407; 411;
    412; 412; 412; 412; 412; 412; 1437; 55; 426; 1437; 413; 1437; 674; 1437; 1437; 55; 413; 413;
    413; 413; 413; 413; 253; 414; 414; 414; 414; 414; 414; 414; 1210; 426; 1437; 55; 415; 1437;
    1437; 857; 1437; 1437; 415; 415; 415; 415; 415; 415; 53; 415; 415; 415; 415; 415; 415; 415; 418;
    419; 419; 419; 419; 419; 419; 1207; 1437; 857; 1437; 420; 426; 55; 55; 55; 1204; 420; 420; 420;
    420; 420; 420; 424; 425; 425; 425; 425; 425; 425; 426; 55; 55; 55; 427; 426; 885; 886; 887; 55;
    427; 427; 427; 427; 427; 427; 343; 430; 430; 430; 430; 430; 430; 430; 345; 668; 53; 55; 431;
    1201; 55; 55; 889; 821; 431; 431; 431; 431; 431; 431; 432; 433; 433; 433; 433; 433; 433; 426;
    55; 55; 426; 434; 53; 891; 892; 55; 55; 434; 434; 434; 434; 434; 434; 263; 439; 439; 439; 439;
    439; 439; 439; 265; 677; 55; 55; 440; 894; 973; 1113; 55; 824; 440; 440; 440; 440; 440; 440;
    441; 442; 442; 442; 442; 442; 442; 442; 443; 688; 55; 426; 444; 1437; 445; 994; 973; 827; 444;
    444; 444; 444; 444; 444; 525; 526; 526; 526; 526; 526; 526; 594; 595; 595; 595; 595; 595; 595;
    426; 1437; 445; 454; 1278; 1437; 1213; 455; 1437; 55; 456; 55; 682; 457; 682; 458; 459; 460;
    461; 488; 488; 488; 488; 488; 488; 488; 683; 55; 1437; 55; 488; 1437; 990; 55; 1437; 721; 488;
    488; 488; 488; 488; 488; 489; 490; 490; 490; 490; 490; 490; 53; 793; 55; 683; 491; 1437; 1437;
    1437; 1437; 795; 491; 491; 491; 491; 491; 491; 405; 492; 492; 492; 492; 492; 492; 492; 493; 493;
    493; 493; 493; 493; 493; 1210; 1437; 1437; 1437; 493; 1437; 55; 55; 55; 55; 493; 493; 493; 493;
    493; 493; 410; 495; 495; 495; 495; 495; 495; 495; 55; 55; 55; 55; 496; 1207; 251; 1437; 996;
    1204; 496; 496; 496; 496; 496; 496; 602; 603; 603; 603; 603; 603; 603; 606; 607; 607; 607; 607;
    607; 607; 55; 684; 251; 496; 496; 496; 496; 496; 496; 496; 1437; 1201; 1044; 1437; 496; 685;
    1056; 1278; 55; 723; 496; 496; 496; 496; 496; 496; 497; 497; 497; 497; 497; 497; 497; 53; 1185;
    801; 1437; 498; 1044; 1437; 1437; 685; 1056; 498; 498; 498; 498; 498; 498; 53; 498; 498; 498;
    498; 498; 498; 498; 343; 501; 501; 501; 501; 501; 501; 501; 502; 1437; 684; 982; 503; 1063; 347;
    426; 1213; 864; 503; 503; 503; 503; 503; 503; 1437; 693; 694; 694; 694; 694; 694; 694; 696; 697;
    697; 697; 697; 697].
Definition yy_nxt_2 : list Z :=
  [697; 55; 347; 507; 508; 508; 508; 508; 508; 508; 508; 509; 1437; 1059; 1057; 510; 1051; 511; 426;
    55; 1210; 510; 510; 510; 510; 510; 510; 700; 701; 701; 701; 701; 701; 701; 751; 752; 752; 752;
    752; 752; 752; 787; 55; 511; 343; 514; 514; 514; 514; 514; 514; 514; 502; 852; 1047; 788; 515;
    1045; 1437; 1176; 55; 55; 515; 515; 515; 515; 515; 515; 516; 517; 517; 517; 517; 517; 517; 517;
    518; 803; 1039; 55; 519; 788; 520; 1089; 1437; 1176; 519; 519; 519; 519; 519; 519; 759; 760;
    760; 760; 760; 760; 760; 763; 764; 764; 764; 764; 764; 764; 787; 55; 520; 441; 527; 527; 527;
    527; 527; 527; 527; 443; 426; 1207; 1437; 528; 1437; 55; 841; 55; 789; 528; 528; 528; 528; 528;
    528; 529; 530; 530; 530; 530; 530; 530; 790; 55; 890; 1035; 531; 1092; 1437; 55; 1437; 55; 531;
    531; 531; 531; 531; 531; 569; 789; 570; 570; 570; 570; 570; 570; 570; 55; 790; 55; 1033; 570;
    1093; 1437; 1028; 426; 55; 570; 570; 570; 570; 570; 570; 571; 572; 572; 572; 572; 572; 572; 572;
    1204; 832; 1188; 55; 573; 1191; 574; 832; 1437; 1003; 573; 573; 573; 573; 573; 573; 771; 772;
    772; 772; 772; 772; 772; 774; 775; 775; 775; 775; 775; 775; 837; 55; 574; 571; 573; 573; 573;
    573; 573; 573; 573; 1437; 841; 1024; 838; 573; 1437; 1019; 426; 55; 1006; 573; 573; 573; 573;
    573; 573; 410; 576; 576; 576; 576; 576; 576; 576; 852; 864; 1437; 895; 577; 838; 1437; 1437;
    1009; 1012; 577; 577; 577; 577; 577; 577; 53; 577; 577; 577; 577; 577; 577; 577; 578; 578; 578;
    578; 578; 578; 578; 1201; 1437; 426; 1115; 579; 1437; 1437; 1235; 1243; 1220; 579; 579; 579;
    579; 579; 579; 53; 579; 579; 579; 579; 579; 579; 579; 582; 583; 583; 583; 583; 583; 583; 1437;
    1437; 1235; 1243; 584; 1251; 1437; 55; 55; 55; 584; 584; 584; 584; 584; 584; 343; 430; 430; 430;
    430; 430; 430; 430; 502; 55; 55; 55; 431; 1332; 55; 1251; 1437; 837; 431; 431; 431; 431; 431;
    431; 585; 586; 586; 586; 586; 586; 586; 1437; 55; 1189; 1190; 587; 1096; 1194; 55; 1332; 1213;
    587; 587; 587; 587; 587; 587; 591; 592; 592; 592; 592; 592; 592; 426; 1210; 55; 1437; 593; 1207;
    1204; 1201; 55; 55; 593; 593; 593; 593; 593; 593; 507; 596; 596; 596; 596; 596; 596; 596; 509;
    980; 55; 55; 597; 1096; 980; 55; 55; 982; 597; 597; 597; 597; 597; 597; 598; 599; 599; 599; 599;
    599; 599; 426; 1192; 55; 55; 600; 1185; 982; 55; 55; 55; 600; 600; 600; 600; 600; 600; 516; 608;
    608; 608; 608; 608; 608; 608; 518; 55; 55; 55; 609; 793; 1341; 1273; 55; 976; 609; 609; 609;
    609; 609; 609; 610; 611; 611; 611; 611; 611; 611; 426; 1019; 974; 55; 612; 1361; 1342; 1065; 55;
    1201; 612; 612; 612; 612; 612; 612; 441; 618; 618; 618; 618; 618; 618; 618; 443; 1028; 55; 1365;
    619; 1369; 1373; 1361; 426; 1204; 619; 619; 619; 619; 619; 619; 620; 621; 621; 621; 621; 621;
    621; 621; 622; 1039; 1343; 1012; 623; 1365; 624; 1369; 1373; 1207; 623; 623; 623; 623; 623; 623;
    778; 779; 779; 779; 779; 779; 779; 694; 694; 694; 694; 694; 694; 694; 55; 846; 624; 648; 648;
    648; 648; 648; 648; 648; 1411; 1051; 1419; 1420; 648; 847; 1053; 55; 55; 1210; 648; 648; 648;
    648; 648; 648; 649; 649; 649; 649; 649; 649; 649; 888; 1063; 55; 1411; 649; 1419; 1420; 1421;
    847; 1213; 649; 649; 649; 649; 649; 649; 571; 650; 650; 650; 650; 650; 650; 650; 651; 651; 651;
    651; 651; 651; 651; 1113; 1183; 1421; 1422; 651; 1423; 55; 55; 1278; 1185; 651; 651; 651; 651;
    651; 651; 410; 653; 653; 653; 653; 653; 653; 653; 55; 55; 426; 1009; 654; 1422; 1428; 1423;
    1434; 1274; 654; 654; 654; 654; 654; 654; 53; 654; 654; 654; 654; 654; 654; 654; 655; 655; 655;
    655; 655; 655; 655; 1183; 1428; 1041; 1434; 656; 426; 1006; 1030; 1437; 426; 656; 656; 656; 656;
    656; 656; 53; 656; 656; 656; 656; 656; 656; 656; 507; 659; 659; 659; 659; 659; 659; 659; 660;
    55; 846; 848; 661; 1003; 511; 55; 1021; 848; 661; 661; 661; 661; 661; 661; 1437; 849; 426; 55;
    1115; 426; 1096; 1437; 1012; 55; 55; 1009; 55; 1006; 55; 802; 511; 516; 662; 662; 662; 662; 662;
    662; 662; 663; 1437; 849; 55; 664; 55; 520; 55; 1437; 55; 664; 664; 664; 664; 664; 664; 810;
    807; 1003; 319; 815; 815; 815; 815; 815; 815; 815; 55; 858; 858; 860; 55; 520; 668; 669; 669;
    669; 669; 669; 669; 669; 670; 859; 1437; 861; 671; 1088; 672; 1096; 55; 860; 671; 671; 671; 671;
    671; 671; 772; 772; 772; 772; 772; 772; 772; 1437; 55; 989; 982; 859; 1437; 861; 974; 795; 672;
    507; 675; 675; 675; 675; 675; 675; 675; 660; 55; 864; 975; 676; 1065; 1012; 55; 1437; 1388; 676;
    676; 676; 676; 676; 676; 677; 678; 678; 678; 678; 678; 678; 678; 679; 55; 688; 860; 680; 975;
    681; 858; 852; 1053; 680; 680; 680; 680; 680; 680; 870; 871; 871; 871; 871; 871; 871; 873; 874;
    874; 874; 874; 874; 874; 974; 55; 681; 516; 686; 686; 686; 686; 686; 686; 686; 663; 1009; 677;
    1437; 687; 848; 846; 841; 55; 991; 687; 687; 687; 687; 687; 687; 688; 689; 689; 689; 689; 689;
    689; 689; 690; 1041; 992; 1006; 691; 1437; 692; 668; 55; 55; 691; 691; 691; 691; 691; 691; 877;
    878; 878; 878; 878; 878; 878; 837; 832; 1030; 55; 55; 1003; 976; 976; 55; 692; 620; 702; 702;
    702; 702; 702; 702; 702; 622; 893; 977; 1437; 703; 1091; 1021; 918; 55; 903; 703; 703; 703; 703;
    703; 703; 704; 705; 705; 705; 705; 705; 705; 985; 1012; 1009; 1006; 706; 977; 1437; 1003; 1001;
    903; 706; 706; 706; 706; 706; 706; 53; 53; 53; 53; 53; 53; 53; 793; 982; 795; 620; 53; 55; 55;
    55; 55; 55; 53; 53; 53; 53; 53; 53; 922; 923; 923; 923; 923; 923; 923; 55; 55; 55; 55; 55; 708;
    726; 789; 727; 727; 727; 727; 727; 727; 727; 986; 987; 988; 993; 727; 995; 1340; 55; 55; 55;
    727; 727; 727; 727; 727; 727; 930; 931; 931; 931; 931; 931; 931; 1024; 1024; 55; 55; 55; 53;
    728; 729; 729; 729; 729; 729; 729; 729; 1025; 1437; 1087; 1090; 729; 1195; 787; 866; 827; 854;
    729; 729; 729; 729; 729; 729; 934; 935; 935; 935; 935; 935; 935; 824; 843; 821; 1025; 1437; 53;
    650; 650; 650; 650; 650; 650; 650; 942; 943; 943; 943; 943; 943; 943; 945; 946; 946; 946; 946;
    946; 946; 949; 950; 950; 950; 950; 950; 950; 958; 959; 959; 959; 959; 959; 959; 53; 651; 651;
    651; 651; 651; 651; 651; 834; 918; 903; 827; 651; 824; 821; 903; 795; 622; 651; 651; 651; 651;
    651; 651; 730; 331; 331; 331; 331; 331; 331; 331; 253; 732; 732; 732; 732; 732; 732; 732; 688;
    866; 827; 516; 733; 684; 682; 677; 854; 824; 733; 733; 733; 733; 733; 733; 53; 733; 733; 733;
    733; 733; 733; 733; 736; 737; 737; 737; 737; 737; 737; 507; 673; 668; 843; 738; 821; 834; 831;
    747; 735; 738; 738; 738; 738; 738; 738; 507; 596; 596; 596; 596; 596; 596; 596; 660; 827; 824;
    821; 597; 819; 735; 620; 795; 1033; 597; 597; 597; 597; 597; 597; 739; 740; 740; 740; 740; 740;
    740; 1034; 622; 441; 616; 741; 614; 690; 663; 679; 660; 741; 741; 741; 741; 741; 741; 516; 608;
    608; 608; 608; 608; 608; 608; 663; 670; 1034; 747; 609; 735; 663; 660; 735; 1033; 609; 609; 609;
    609; 609; 609; 742; 743; 743; 743; 743; 743; 743; 1437; 53; 53; 53; 744; 722; 53; 53; 716; 622;
    744; 744; 744; 744; 744; 744; 748; 749; 749; 749; 749; 749; 749; 426; 443; 516; 1437; 750; 690;
    663; 343; 512; 507; 750; 750; 750; 750; 750; 750; 668; 753; 753; 753; 753; 753; 753; 753; 670].
Definition yy_nxt_3 : list Z :=
  [679; 660; 670; 754; 667; 590; 581; 663; 660; 754; 754; 754; 754; 754; 754; 755; 756; 756; 756;
    756; 756; 756; 426; 658; 581; 571; 757; 569; 647; 646; 645; 644; 757; 757; 757; 757; 757; 757;
    677; 765; 765; 765; 765; 765; 765; 765; 679; 643; 642; 641; 766; 640; 639; 638; 637; 636; 766;
    766; 766; 766; 766; 766; 767; 768; 768; 768; 768; 768; 768; 426; 635; 634; 633; 769; 632; 631;
    630; 629; 628; 769; 769; 769; 769; 769; 769; 688; 780; 780; 780; 780; 780; 780; 780; 690; 627;
    626; 625; 781; 441; 622; 443; 437; 518; 781; 781; 781; 781; 781; 781; 782; 783; 783; 783; 783;
    783; 783; 426; 502; 509; 590; 784; 581; 502; 581; 575; 575; 784; 784; 784; 784; 784; 784; 620;
    791; 791; 791; 791; 791; 791; 791; 622; 568; 567; 566; 792; 565; 564; 563; 562; 561; 792; 792;
    792; 792; 792; 792; 793; 794; 794; 794; 794; 794; 794; 794; 795; 560; 316; 225; 796; 559; 797;
    558; 557; 556; 796; 796; 796; 796; 796; 796; 961; 962; 962; 962; 962; 962; 962; 965; 966; 966;
    966; 966; 966; 966; 1035; 1035; 797; 55; 1045; 811; 811; 811; 811; 811; 811; 811; 555; 554;
    1036; 1437; 811; 553; 1046; 552; 551; 55; 811; 811; 811; 811; 811; 811; 812; 812; 812; 812; 812;
    812; 812; 550; 549; 548; 545; 812; 1036; 1437; 542; 541; 1046; 812; 812; 812; 812; 812; 812;
    813; 814; 814; 814; 814; 814; 814; 540; 539; 538; 537; 815; 536; 55; 535; 534; 533; 815; 815;
    815; 815; 815; 815; 253; 816; 816; 816; 816; 816; 816; 816; 55; 443; 265; 426; 817; 343; 518;
    502; 509; 1387; 817; 817; 817; 817; 817; 817; 53; 817; 817; 817; 817; 817; 817; 817; 668; 820;
    820; 820; 820; 820; 820; 820; 821; 426; 506; 423; 822; 417; 672; 502; 500; 417; 822; 822; 822;
    822; 822; 822; 871; 871; 871; 871; 871; 871; 871; 943; 943; 943; 943; 943; 943; 943; 1045; 409;
    672; 677; 823; 823; 823; 823; 823; 823; 823; 824; 403; 1047; 1437; 825; 487; 681; 486; 1047;
    1057; 825; 825; 825; 825; 825; 825; 1048; 485; 484; 483; 482; 481; 1437; 1058; 480; 479; 478;
    477; 55; 1437; 1057; 476; 681; 688; 826; 826; 826; 826; 826; 826; 826; 827; 1048; 475; 1437;
    828; 55; 692; 1437; 1058; 1059; 828; 828; 828; 828; 828; 828; 959; 959; 959; 959; 959; 959; 959;
    1060; 1386; 472; 471; 468; 1059; 1437; 1177; 467; 692; 832; 833; 833; 833; 833; 833; 833; 833;
    834; 1437; 466; 1178; 835; 465; 836; 464; 1060; 1177; 835; 835; 835; 835; 835; 835; 1069; 1070;
    1070; 1070; 1070; 1070; 1070; 1437; 114; 463; 462; 1437; 1179; 1178; 1179; 453; 836; 668; 839;
    839; 839; 839; 839; 839; 839; 821; 1180; 452; 1437; 840; 451; 450; 449; 1437; 448; 840; 840;
    840; 840; 840; 840; 841; 842; 842; 842; 842; 842; 842; 842; 843; 447; 446; 1180; 844; 1437; 845;
    263; 443; 265; 844; 844; 844; 844; 844; 844; 1072; 1073; 1073; 1073; 1073; 1073; 1073; 1076;
    1077; 1077; 1077; 1077; 1077; 1077; 1223; 426; 845; 677; 850; 850; 850; 850; 850; 850; 850; 824;
    345; 423; 1224; 851; 417; 417; 410; 410; 402; 851; 851; 851; 851; 851; 851; 852; 853; 853; 853;
    853; 853; 853; 853; 854; 55; 55; 1223; 855; 1224; 856; 395; 394; 391; 855; 855; 855; 855; 855;
    855; 390; 1437; 389; 55; 55; 1119; 1120; 1120; 1120; 1120; 1120; 1120; 1228; 388; 1084; 1085;
    856; 688; 862; 862; 862; 862; 862; 862; 862; 827; 1229; 1437; 387; 863; 386; 385; 384; 383; 382;
    863; 863; 863; 863; 863; 863; 864; 865; 865; 865; 865; 865; 865; 865; 866; 55; 1228; 1229; 867;
    381; 868; 380; 379; 55; 867; 867; 867; 867; 867; 867; 1437; 378; 377; 55; 1125; 1126; 1126;
    1126; 1126; 1126; 1126; 55; 376; 1230; 1086; 375; 868; 793; 879; 879; 879; 879; 879; 879; 879;
    795; 1437; 1231; 370; 880; 1415; 369; 298; 368; 1230; 880; 880; 880; 880; 880; 880; 881; 882;
    882; 882; 882; 882; 882; 1437; 367; 366; 365; 883; 1231; 364; 363; 357; 265; 883; 883; 883; 883;
    883; 883; 55; 1236; 896; 896; 896; 896; 896; 896; 896; 345; 1437; 261; 342; 896; 258; 1237; 338;
    252; 55; 896; 896; 896; 896; 896; 896; 897; 897; 897; 897; 897; 897; 897; 246; 137; 326; 325;
    897; 324; 319; 298; 318; 1237; 897; 897; 897; 897; 897; 897; 575; 898; 898; 898; 898; 898; 898;
    898; 317; 316; 315; 314; 899; 313; 408; 312; 311; 310; 899; 899; 899; 899; 899; 899; 1129; 1130;
    1130; 1130; 1130; 1130; 1130; 1135; 1136; 1136; 1136; 1136; 1136; 1136; 309; 1236; 408; 899;
    899; 899; 899; 899; 899; 899; 308; 307; 306; 305; 899; 1437; 304; 301; 300; 299; 899; 899; 899;
    899; 899; 899; 253; 900; 900; 900; 900; 900; 900; 900; 298; 297; 296; 295; 901; 294; 293; 1437;
    292; 291; 901; 901; 901; 901; 901; 901; 53; 901; 901; 901; 901; 901; 901; 901; 904; 905; 905;
    905; 905; 905; 905; 290; 289; 288; 287; 906; 286; 285; 284; 283; 137; 906; 906; 906; 906; 906;
    906; 668; 753; 753; 753; 753; 753; 753; 753; 821; 282; 281; 280; 754; 279; 278; 277; 276; 1238;
    754; 754; 754; 754; 754; 754; 907; 908; 908; 908; 908; 908; 908; 1239; 275; 274; 273; 909; 272;
    271; 270; 269; 268; 909; 909; 909; 909; 909; 909; 677; 765; 765; 765; 765; 765; 765; 765; 824;
    265; 1239; 253; 766; 258; 245; 244; 243; 1238; 766; 766; 766; 766; 766; 766; 910; 911; 911; 911;
    911; 911; 911; 1437; 242; 241; 240; 912; 239; 238; 237; 236; 233; 912; 912; 912; 912; 912; 912;
    688; 780; 780; 780; 780; 780; 780; 780; 827; 230; 1437; 227; 781; 226; 225; 224; 221; 1244; 781;
    781; 781; 781; 781; 781; 913; 914; 914; 914; 914; 914; 914; 1245; 220; 219; 218; 915; 217; 216;
    215; 214; 213; 915; 915; 915; 915; 915; 915; 919; 920; 920; 920; 920; 920; 920; 426; 212; 211;
    1245; 921; 210; 209; 208; 207; 206; 921; 921; 921; 921; 921; 921; 832; 924; 924; 924; 924; 924;
    924; 924; 834; 202; 201; 191; 925; 190; 189; 186; 185; 184; 925; 925; 925; 925; 925; 925; 926;
    927; 927; 927; 927; 927; 927; 426; 183; 182; 181; 928; 180; 179; 175; 174; 173; 928; 928; 928;
    928; 928; 928; 841; 936; 936; 936; 936; 936; 936; 936; 843; 172; 171; 170; 937; 169; 168; 167;
    166; 165; 937; 937; 937; 937; 937; 937; 938; 939; 939; 939; 939; 939; 939; 426; 164; 163; 162;
    940; 161; 160; 159; 154; 145; 940; 940; 940; 940; 940; 940; 852; 951; 951; 951; 951; 951; 951;
    951; 854; 144; 139; 89; 952; 59; 47; 45; 1437; 1437; 952; 952; 952; 952; 952; 952; 953; 954;
    954; 954; 954; 954; 954; 426; 1437; 1437; 1437; 955; 1437; 1437; 1437; 1437; 1437; 955; 955;
    955; 955; 955; 955; 864; 967; 967; 967; 967; 967; 967; 967; 866; 1437; 1437; 1437; 968; 1437;
    1437; 1437; 1437; 1437; 968; 968; 968; 968; 968; 968; 969; 970; 970; 970; 970; 970; 970; 426;
    1437; 1437; 1437; 971; 1437; 1437; 1437; 1437; 1437; 971; 971; 971; 971; 971; 971; 793; 978;
    978; 978; 978; 978; 978; 978; 795; 1437; 1437; 1437; 979; 1437; 1437; 1437; 1437; 1437; 979;
    979; 979; 979; 979; 979; 980; 981; 981; 981; 981; 981; 981; 981; 982; 1437; 1437; 1437; 983;
    1437; 984; 1437; 1437; 1437; 983; 983; 983; 983; 983; 983; 1138; 1139; 1139; 1139; 1139; 1139;
    1139; 1142; 1143; 1143; 1143; 1143; 1143; 1143; 1437; 1437; 984; 55; 575; 997; 997; 997; 997;
    997; 997; 997; 1437; 1437; 1437; 1437; 998; 1437; 1437; 1437; 1437; 55; 998; 998; 998; 998; 998;
    998; 53; 998; 998; 998; 998; 998; 998; 998; 55; 253; 999; 999; 999; 999; 999; 999; 999; 1149;
    1150; 1150; 1150; 1150; 1150; 1150; 1437; 1437; 55; 832; 1002; 1002; 1002; 1002; 1002; 1002;
    1002; 1003; 1437; 1437; 1437; 1004; 1437; 836; 1437; 1437; 1437; 1004; 1004; 1004; 1004; 1004;
    1004; 1152; 1153; 1153; 1153].
Definition yy_nxt_4 : list Z :=
  [1153; 1153; 1153; 1156; 1157; 1157; 1157; 1157; 1157; 1157; 1437; 1437; 836; 841; 1005; 1005;
    1005; 1005; 1005; 1005; 1005; 1006; 1437; 1437; 1437; 1007; 1437; 845; 1437; 1437; 1437; 1007;
    1007; 1007; 1007; 1007; 1007; 1163; 1164; 1164; 1164; 1164; 1164; 1164; 1166; 1167; 1167; 1167;
    1167; 1167; 1167; 1437; 1437; 845; 852; 1008; 1008; 1008; 1008; 1008; 1008; 1008; 1009; 1437;
    1437; 1437; 1010; 1437; 856; 1437; 1437; 1437; 1010; 1010; 1010; 1010; 1010; 1010; 1170; 1171;
    1171; 1171; 1171; 1171; 1171; 1070; 1070; 1070; 1070; 1070; 1070; 1070; 55; 1437; 856; 864;
    1011; 1011; 1011; 1011; 1011; 1011; 1011; 1012; 1437; 1244; 1246; 1013; 1437; 868; 55; 1437;
    1437; 1013; 1013; 1013; 1013; 1013; 1013; 1437; 1247; 1193; 1215; 1216; 1216; 1216; 1216; 1216;
    1216; 1437; 1246; 1437; 1437; 1437; 1252; 868; 1015; 1016; 1016; 1016; 1016; 1016; 1016; 1017;
    1437; 1437; 1247; 1018; 1253; 1437; 1437; 1437; 1437; 1018; 1018; 1018; 1018; 1018; 1018; 1019;
    1020; 1020; 1020; 1020; 1020; 1020; 1020; 1021; 1437; 1437; 1437; 1022; 1437; 1023; 1253; 1437;
    1437; 1022; 1022; 1022; 1022; 1022; 1022; 1136; 1136; 1136; 1136; 1136; 1136; 1136; 1150; 1150;
    1150; 1150; 1150; 1150; 1150; 1252; 1437; 1023; 832; 1026; 1026; 1026; 1026; 1026; 1026; 1026;
    1003; 1437; 1437; 1437; 1027; 1437; 1437; 1437; 1437; 1437; 1027; 1027; 1027; 1027; 1027; 1027;
    1028; 1029; 1029; 1029; 1029; 1029; 1029; 1029; 1030; 1437; 1437; 1437; 1031; 1437; 1032; 1437;
    1437; 1254; 1031; 1031; 1031; 1031; 1031; 1031; 1164; 1164; 1164; 1164; 1164; 1164; 1164; 1255;
    1437; 1437; 1437; 1437; 1254; 1437; 1286; 1437; 1032; 841; 1037; 1037; 1037; 1037; 1037; 1037;
    1037; 1006; 1437; 1437; 1287; 1038; 1437; 1437; 1437; 1255; 1437; 1038; 1038; 1038; 1038; 1038;
    1038; 1039; 1040; 1040; 1040; 1040; 1040; 1040; 1040; 1041; 1437; 1437; 1437; 1042; 1287; 1043;
    1437; 1437; 1437; 1042; 1042; 1042; 1042; 1042; 1042; 1260; 1261; 1261; 1261; 1261; 1261; 1261;
    1263; 1264; 1264; 1264; 1264; 1264; 1264; 1286; 1437; 1043; 852; 1049; 1049; 1049; 1049; 1049;
    1049; 1049; 1009; 1437; 1437; 1437; 1050; 1437; 1437; 1437; 1437; 1437; 1050; 1050; 1050; 1050;
    1050; 1050; 1051; 1052; 1052; 1052; 1052; 1052; 1052; 1052; 1053; 1437; 1437; 1437; 1054; 1437;
    1055; 1437; 1437; 1437; 1054; 1054; 1054; 1054; 1054; 1054; 1267; 1268; 1268; 1268; 1268; 1268;
    1268; 1292; 1293; 1293; 1293; 1293; 1293; 1293; 1333; 1437; 1055; 864; 1061; 1061; 1061; 1061;
    1061; 1061; 1061; 1012; 1437; 1437; 1334; 1062; 1437; 1437; 1437; 1437; 55; 1062; 1062; 1062;
    1062; 1062; 1062; 1063; 1064; 1064; 1064; 1064; 1064; 1064; 1064; 1065; 55; 1437; 55; 1066;
    1334; 1067; 1437; 1437; 1437; 1066; 1066; 1066; 1066; 1066; 1066; 1275; 1437; 1437; 55; 1297;
    1298; 1298; 1298; 1298; 1298; 1298; 1437; 1437; 1333; 1276; 1437; 1067; 980; 1078; 1078; 1078;
    1078; 1078; 1078; 1078; 982; 1437; 1437; 1437; 1079; 1437; 1437; 1437; 1437; 1335; 1079; 1079;
    1079; 1079; 1079; 1079; 1080; 1081; 1081; 1081; 1081; 1081; 1081; 1336; 1437; 1437; 1437; 1082;
    1437; 1437; 1437; 1437; 1437; 1082; 1082; 1082; 1082; 1082; 1082; 55; 575; 1094; 1094; 1094;
    1094; 1094; 1094; 1094; 1437; 1336; 1437; 1437; 901; 1437; 1437; 1437; 1437; 55; 901; 901; 901;
    901; 901; 901; 53; 901; 901; 901; 901; 901; 901; 901; 55; 253; 999; 999; 999; 999; 999; 999;
    999; 1300; 1301; 1301; 1301; 1301; 1301; 1301; 1437; 1335; 55; 1097; 1098; 1098; 1098; 1098;
    1098; 1098; 1437; 1437; 1437; 1437; 1099; 1437; 1437; 1437; 1437; 1437; 1099; 1099; 1099; 1099;
    1099; 1099; 832; 924; 924; 924; 924; 924; 924; 924; 1003; 1437; 1437; 1437; 925; 1437; 1437;
    1437; 1437; 1358; 925; 925; 925; 925; 925; 925; 1100; 1101; 1101; 1101; 1101; 1101; 1101; 1359;
    1437; 1437; 1437; 1102; 1437; 1437; 1437; 1437; 1437; 1102; 1102; 1102; 1102; 1102; 1102; 841;
    936; 936; 936; 936; 936; 936; 936; 1006; 1437; 1359; 1437; 937; 1437; 1437; 1437; 1437; 1358;
    937; 937; 937; 937; 937; 937; 1103; 1104; 1104; 1104; 1104; 1104; 1104; 1437; 1437; 1437; 1437;
    1105; 1437; 1437; 1437; 1437; 1437; 1105; 1105; 1105; 1105; 1105; 1105; 852; 951; 951; 951; 951;
    951; 951; 951; 1009; 1437; 1437; 1437; 952; 1437; 1437; 1437; 1437; 1362; 952; 952; 952; 952;
    952; 952; 1106; 1107; 1107; 1107; 1107; 1107; 1107; 1363; 1437; 1437; 1437; 1108; 1437; 1437;
    1437; 1437; 1437; 1108; 1108; 1108; 1108; 1108; 1108; 864; 967; 967; 967; 967; 967; 967; 967;
    1012; 1437; 1363; 1437; 968; 1437; 1437; 1437; 1437; 1362; 968; 968; 968; 968; 968; 968; 1109;
    1110; 1110; 1110; 1110; 1110; 1110; 1437; 1437; 1437; 1437; 1111; 1437; 1437; 1437; 1437; 1437;
    1111; 1111; 1111; 1111; 1111; 1111; 1113; 1114; 1114; 1114; 1114; 1114; 1114; 1114; 1115; 1437;
    1437; 1437; 1116; 1437; 1117; 1437; 1437; 1437; 1116; 1116; 1116; 1116; 1116; 1116; 1306; 1307;
    1307; 1307; 1307; 1307; 1307; 1309; 1310; 1310; 1310; 1310; 1310; 1310; 1366; 1437; 1117; 1019;
    1121; 1121; 1121; 1121; 1121; 1121; 1121; 1021; 1437; 1437; 1367; 1122; 1437; 1437; 1437; 1437;
    1437; 1122; 1122; 1122; 1122; 1122; 1122; 1028; 1131; 1131; 1131; 1131; 1131; 1131; 1131; 1030;
    1437; 1437; 1437; 1132; 1367; 1437; 1437; 1437; 1437; 1132; 1132; 1132; 1132; 1132; 1132; 1039;
    1144; 1144; 1144; 1144; 1144; 1144; 1144; 1041; 1437; 1437; 1437; 1145; 1437; 1437; 1437; 1437;
    1437; 1145; 1145; 1145; 1145; 1145; 1145; 1051; 1158; 1158; 1158; 1158; 1158; 1158; 1158; 1053;
    1437; 1437; 1437; 1159; 1437; 1437; 1437; 1437; 1437; 1159; 1159; 1159; 1159; 1159; 1159; 1063;
    1172; 1172; 1172; 1172; 1172; 1172; 1172; 1065; 1437; 1437; 1437; 1173; 1437; 1437; 1437; 1437;
    1437; 1173; 1173; 1173; 1173; 1173; 1173; 980; 1181; 1181; 1181; 1181; 1181; 1181; 1181; 982;
    1437; 1437; 1437; 1182; 1437; 1437; 1437; 1437; 1437; 1182; 1182; 1182; 1182; 1182; 1182; 1183;
    1184; 1184; 1184; 1184; 1184; 1184; 1184; 1185; 1437; 1437; 1437; 1186; 1437; 1187; 1437; 1437;
    1437; 1186; 1186; 1186; 1186; 1186; 1186; 1315; 1316; 1316; 1316; 1316; 1316; 1316; 1318; 1319;
    1319; 1319; 1319; 1319; 1319; 1437; 1437; 1187; 55; 575; 492; 492; 492; 492; 492; 492; 492;
    1324; 1325; 1325; 1325; 1325; 1325; 1325; 1437; 1366; 55; 1196; 1197; 1197; 1197; 1197; 1197;
    1197; 1198; 1437; 1437; 1437; 1199; 1437; 1437; 1437; 1437; 1437; 1199; 1199; 1199; 1199; 1199;
    1199; 1019; 1200; 1200; 1200; 1200; 1200; 1200; 1200; 1201; 1437; 1437; 1437; 1202; 1437; 1023;
    1437; 1437; 1437; 1202; 1202; 1202; 1202; 1202; 1202; 1327; 1328; 1328; 1328; 1328; 1328; 1328;
    1261; 1261; 1261; 1261; 1261; 1261; 1261; 1437; 1437; 1023; 1028; 1203; 1203; 1203; 1203; 1203;
    1203; 1203; 1204; 1437; 1437; 1437; 1205; 1437; 1032; 1437; 1437; 1437; 1205; 1205; 1205; 1205;
    1205; 1205; 1352; 1353; 1353; 1353; 1353; 1353; 1353; 1298; 1298; 1298; 1298; 1298; 1298; 1298;
    1437; 1437; 1032; 1039; 1206; 1206; 1206; 1206; 1206; 1206; 1206; 1207; 1437; 1437; 1437; 1208;
    1437; 1043; 1437; 1437; 1437; 1208; 1208; 1208; 1208; 1208; 1208; 1307; 1307; 1307; 1307; 1307;
    1307; 1307; 1316; 1316; 1316; 1316; 1316; 1316; 1316; 1370; 1437; 1043; 1051; 1209; 1209; 1209;
    1209; 1209; 1209; 1209; 1210; 1437; 1370; 1371; 1211; 1437; 1055; 1437; 1437; 1437; 1211; 1211;
    1211; 1211; 1211; 1211; 1437; 1325; 1325; 1325; 1325; 1325; 1325; 1325; 1437; 1437; 1437; 1437;
    1437; 1371; 1374; 1437; 1055; 1063; 1212; 1212; 1212; 1212; 1212; 1212; 1212; 1213; 1437; 1374;
    1375; 1214; 1437; 1067; 1437; 1437; 1437; 1214; 1214; 1214; 1214; 1214; 1214; 1437; 1378; 1379;
    1379; 1379; 1379; 1379; 1379; 1437; 1437; 1437; 1437; 1437; 1375; 1390; 1437; 1067; 1113; 1217;
    1217; 1217; 1217; 1217; 1217; 1217; 1115; 1437; 1437; 1391; 1218; 1437; 1437; 1437; 1437; 1437;
    1218; 1218; 1218; 1218; 1218; 1218; 1019; 1225; 1225; 1225; 1225; 1225; 1225; 1225; 1201; 1437;
    1437; 1437; 1226; 1391; 1437; 1437; 1437; 1437; 1226; 1226; 1226; 1226; 1226; 1226; 1028; 1232;
    1232; 1232; 1232; 1232; 1232; 1232; 1204; 1437; 1437; 1437; 1233; 1437; 1437; 1437; 1437; 1437;
    1233; 1233; 1233; 1233; 1233; 1233; 1039; 1240; 1240; 1240; 1240; 1240; 1240; 1240; 1207; 1437;
    1437; 1437; 1241; 1437; 1437; 1437; 1437; 1437; 1241; 1241; 1241; 1241; 1241; 1241; 1051; 1248;
    1248; 1248; 1248; 1248; 1248; 1248; 1210; 1437; 1437; 1437; 1249; 1437; 1437; 1437; 1437; 1437;
    1249; 1249; 1249].
Definition yy_nxt_5 : list Z :=
  [1249; 1249; 1249; 1063; 1256; 1256; 1256; 1256; 1256; 1256; 1256; 1213; 1437; 1437; 1437; 1257;
    1437; 1437; 1437; 1437; 1437; 1257; 1257; 1257; 1257; 1257; 1257; 1183; 1269; 1269; 1269; 1269;
    1269; 1269; 1269; 1185; 1437; 1437; 1437; 1270; 1437; 1437; 1437; 1437; 1437; 1270; 1270; 1270;
    1270; 1270; 1270; 1113; 1277; 1277; 1277; 1277; 1277; 1277; 1277; 1278; 1437; 1437; 1437; 1279;
    1437; 1117; 1437; 1437; 1390; 1279; 1279; 1279; 1279; 1279; 1279; 1381; 1382; 1382; 1382; 1382;
    1382; 1382; 1437; 1392; 1393; 1393; 1393; 1393; 1393; 1393; 1437; 1117; 1019; 1121; 1121; 1121;
    1121; 1121; 1121; 1121; 1201; 1437; 1437; 1437; 1122; 1437; 1437; 1437; 1437; 1437; 1122; 1122;
    1122; 1122; 1122; 1122; 1028; 1131; 1131; 1131; 1131; 1131; 1131; 1131; 1204; 1437; 1437; 1437;
    1132; 1437; 1437; 1437; 1437; 1437; 1132; 1132; 1132; 1132; 1132; 1132; 1039; 1144; 1144; 1144;
    1144; 1144; 1144; 1144; 1207; 1437; 1437; 1437; 1145; 1437; 1437; 1437; 1437; 1437; 1145; 1145;
    1145; 1145; 1145; 1145; 1051; 1158; 1158; 1158; 1158; 1158; 1158; 1158; 1210; 1437; 1437; 1437;
    1159; 1437; 1437; 1437; 1437; 1437; 1159; 1159; 1159; 1159; 1159; 1159; 1063; 1172; 1172; 1172;
    1172; 1172; 1172; 1172; 1213; 1437; 1437; 1437; 1173; 1437; 1437; 1437; 1437; 1437; 1173; 1173;
    1173; 1173; 1173; 1173; 1113; 1288; 1288; 1288; 1288; 1288; 1288; 1288; 1278; 1437; 1437; 1437;
    1289; 1437; 1437; 1437; 1437; 1437; 1289; 1289; 1289; 1289; 1289; 1289; 1183; 1337; 1337; 1337;
    1337; 1337; 1337; 1337; 1185; 1437; 1437; 1437; 1338; 1437; 1437; 1437; 1437; 1437; 1338; 1338;
    1338; 1338; 1338; 1338; 1113; 1217; 1217; 1217; 1217; 1217; 1217; 1217; 1278; 1437; 1437; 1437;
    1218; 1437; 1437; 1437; 1437; 1437; 1218; 1218; 1218; 1218; 1218; 1218; 1396; 1397; 1397; 1397;
    1397; 1397; 1397; 1400; 1401; 1401; 1401; 1401; 1401; 1401; 1404; 1405; 1405; 1405; 1405; 1405;
    1405; 1408; 1409; 1409; 1409; 1409; 1409; 1409; 1379; 1379; 1379; 1379; 1379; 1379; 1379; 1412;
    1412; 1416; 1417; 1417; 1417; 1417; 1417; 1417; 1437; 1437; 1437; 1437; 1437; 1413; 1437; 1393;
    1393; 1393; 1393; 1393; 1393; 1393; 1397; 1397; 1397; 1397; 1397; 1397; 1397; 1401; 1401; 1401;
    1401; 1401; 1401; 1401; 1437; 1437; 1437; 1413; 1437; 1405; 1405; 1405; 1405; 1405; 1405; 1405;
    1409; 1409; 1409; 1409; 1409; 1409; 1409; 1425; 1426; 1426; 1426; 1426; 1426; 1426; 1417; 1417;
    1417; 1417; 1417; 1417; 1417; 1426; 1426; 1426; 1426; 1426; 1426; 1426; 46; 1437; 1437; 1437;
    1437; 46; 46; 46; 64; 1437; 64; 64; 64; 64; 64; 64; 64; 146; 1437; 146; 153; 153; 153; 257; 257;
    257; 266; 266; 266; 337; 337; 337; 340; 340; 340; 341; 341; 341; 348; 348; 348; 346; 346; 346;
    352; 352; 352; 356; 1437; 356; 416; 416; 416; 421; 421; 421; 422; 422; 422; 431; 431; 431; 435;
    1437; 435; 436; 436; 436; 350; 350; 1437; 1437; 350; 440; 440; 440; 444; 444; 444; 340; 340;
    340; 499; 499; 499; 503; 503; 503; 504; 504; 504; 505; 505; 505; 348; 348; 348; 510; 510; 510;
    429; 429; 1437; 1437; 429; 515; 515; 515; 519; 519; 519; 523; 1437; 523; 524; 524; 524; 528;
    528; 528; 532; 1437; 532; 580; 580; 580; 431; 431; 431; 588; 588; 588; 589; 589; 589; 597; 597;
    597; 601; 1437; 601; 604; 1437; 604; 605; 605; 605; 609; 609; 609; 613; 1437; 613; 522; 522;
    1437; 1437; 522; 526; 526; 1437; 1437; 526; 619; 619; 619; 623; 623; 623; 532; 532; 1437; 532;
    504; 504; 504; 657; 657; 657; 661; 661; 661; 664; 664; 664; 665; 665; 665; 666; 666; 666; 671;
    671; 671; 595; 595; 1437; 1437; 595; 676; 676; 676; 680; 680; 680; 601; 601; 1437; 601; 603;
    603; 1437; 1437; 603; 604; 604; 1437; 604; 605; 605; 607; 607; 1437; 1437; 607; 687; 687; 687;
    691; 691; 691; 613; 613; 1437; 613; 695; 1437; 695; 698; 1437; 698; 699; 699; 699; 703; 703;
    703; 707; 1437; 707; 734; 734; 734; 597; 597; 597; 609; 609; 609; 745; 745; 745; 746; 746; 746;
    754; 754; 754; 758; 1437; 758; 761; 1437; 761; 762; 762; 762; 766; 766; 766; 770; 1437; 770;
    773; 1437; 773; 776; 1437; 776; 777; 777; 777; 781; 781; 781; 785; 1437; 785; 694; 1437; 1437;
    694; 695; 695; 1437; 695; 697; 697; 1437; 1437; 697; 698; 698; 1437; 698; 699; 699; 701; 701;
    1437; 1437; 701; 792; 792; 792; 796; 796; 796; 707; 707; 1437; 707; 53; 53; 53; 1437; 53; 53;
    665; 665; 665; 818; 818; 818; 822; 822; 822; 825; 825; 825; 828; 828; 828; 829; 829; 829; 830;
    830; 830; 835; 835; 835; 752; 752; 1437; 1437; 752; 840; 840; 840; 844; 844; 844; 758; 758;
    1437; 758; 760; 760; 1437; 1437; 760; 761; 761; 1437; 761; 762; 762; 764; 764; 1437; 1437; 764;
    851; 851; 851; 855; 855; 855; 770; 770; 1437; 770; 772; 1437; 1437; 772; 773; 773; 1437; 773;
    775; 775; 1437; 1437; 775; 776; 776; 1437; 776; 777; 777; 779; 779; 1437; 1437; 779; 863; 863;
    863; 867; 867; 867; 785; 785; 1437; 785; 869; 1437; 869; 872; 1437; 872; 875; 1437; 875; 876;
    876; 876; 880; 880; 880; 884; 1437; 884; 53; 53; 53; 1437; 53; 53; 902; 902; 902; 754; 754; 754;
    766; 766; 766; 781; 781; 781; 916; 916; 916; 917; 917; 917; 925; 925; 925; 929; 1437; 929; 932;
    1437; 932; 933; 933; 933; 937; 937; 937; 941; 1437; 941; 944; 1437; 944; 947; 1437; 947; 948;
    948; 948; 952; 952; 952; 956; 1437; 956; 957; 1437; 957; 960; 1437; 960; 963; 1437; 963; 964;
    964; 964; 968; 968; 968; 972; 1437; 972; 869; 1437; 869; 871; 1437; 1437; 871; 872; 872; 1437;
    872; 874; 874; 1437; 1437; 874; 875; 875; 1437; 875; 876; 876; 878; 878; 1437; 1437; 878; 979;
    979; 979; 983; 983; 983; 884; 884; 1437; 884; 53; 53; 53; 1437; 53; 53; 829; 829; 829; 1000;
    1000; 1000; 1004; 1004; 1004; 1007; 1007; 1007; 1010; 1010; 1010; 1013; 1013; 1013; 1014; 1014;
    1014; 1022; 1022; 1022; 923; 923; 1437; 1437; 923; 1027; 1027; 1027; 1031; 1031; 1031; 929; 929;
    1437; 929; 931; 931; 1437; 1437; 931; 932; 932; 1437; 932; 933; 933; 935; 935; 1437; 1437; 935;
    1038; 1038; 1038; 1042; 1042; 1042; 941; 941; 1437; 941; 943; 1437; 1437; 943; 944; 944; 1437;
    944; 946; 946; 1437; 1437; 946; 947; 947; 1437; 947; 948; 948; 950; 950; 1437; 1437; 950; 1050;
    1050; 1050; 1054; 1054; 1054; 956; 956; 1437; 956; 957; 1437; 957; 959; 1437; 1437; 959; 960;
    960; 1437; 960; 962; 962; 1437; 1437; 962; 963; 963; 1437; 963; 964; 964; 966; 966; 1437; 1437;
    966; 1062; 1062; 1062; 1066; 1066; 1066; 972; 972; 1437; 972; 1068; 1437; 1068; 1071; 1437;
    1071; 1074; 1437; 1074; 1075; 1075; 1075; 1079; 1079; 1079; 1083; 1437; 1083; 53; 53; 53; 1437;
    53; 53; 1095; 1095; 1095; 925; 925; 925; 937; 937; 937; 952; 952; 952; 968; 968; 968; 1112;
    1112; 1112; 1118; 1118; 1118; 1116; 1116; 1116; 1123; 1123; 1123; 1122; 1122; 1122; 1124; 1437;
    1124; 1127; 1437; 1127; 1128; 1128; 1128; 1133; 1133; 1133; 1132; 1132; 1132; 1134; 1437; 1134;
    1137; 1437; 1137; 1140; 1437; 1140; 1141; 1141; 1141; 1146; 1146; 1146; 1145; 1145; 1145; 1147;
    1437; 1147; 1148; 1437; 1148; 1151; 1437; 1151; 1154; 1437; 1154; 1155; 1155; 1155; 1160; 1160;
    1160; 1159; 1159; 1159; 1161; 1437; 1161; 1162; 1437; 1162; 1165; 1437; 1165; 1168; 1437; 1168;
    1169; 1169; 1169; 1174; 1174; 1174; 1173; 1173; 1173; 1175; 1437; 1175; 1068; 1437; 1068; 1070;
    1437; 1437; 1070; 1071; 1071; 1437; 1071; 1073; 1073; 1437; 1437; 1073; 1074; 1074; 1437; 1074;
    1075; 1075; 1077; 1077; 1437; 1437; 1077; 1182; 1182; 1182; 1186; 1186; 1186; 1083; 1083; 1437;
    1083; 53; 53; 53; 1437; 53; 53; 1014; 1014; 1014; 1202; 1202; 1202; 1205; 1205; 1205; 1208;
    1208; 1208; 1211; 1211; 1211; 1214; 1214; 1214; 1219; 1219; 1219; 1218; 1218; 1218; 1221; 1437;
    1221; 1222; 1222; 1222; 1120; 1120; 1437; 1437; 1120; 1226; 1226; 1226; 1227; 1227; 1227; 1124;
    1124; 1437; 1124; 1126; 1126; 1437; 1437; 1126; 1127; 1127; 1437; 1127; 1128; 1128; 1130; 1130;
    1437; 1437; 1130; 1233; 1233; 1233; 1234; 1234; 1234; 1134; 1134; 1437; 1134; 1136; 1437; 1437;
    1136; 1137; 1137; 1437; 1137; 1139].
Definition yy_nxt_6 : list Z :=
  [1139; 1437; 1437; 1139; 1140; 1140; 1437; 1140; 1141; 1141; 1143; 1143; 1437; 1437; 1143; 1241;
    1241; 1241; 1242; 1242; 1242; 1147; 1147; 1437; 1147; 1148; 1437; 1148; 1150; 1437; 1437; 1150;
    1151; 1151; 1437; 1151; 1153; 1153; 1437; 1437; 1153; 1154; 1154; 1437; 1154; 1155; 1155; 1157;
    1157; 1437; 1437; 1157; 1249; 1249; 1249; 1250; 1250; 1250; 1161; 1161; 1437; 1161; 1162; 1437;
    1162; 1164; 1437; 1437; 1164; 1165; 1165; 1437; 1165; 1167; 1167; 1437; 1437; 1167; 1168; 1168;
    1437; 1168; 1169; 1169; 1171; 1171; 1437; 1437; 1171; 1257; 1257; 1257; 1258; 1258; 1258; 1175;
    1175; 1437; 1175; 1259; 1437; 1259; 1262; 1437; 1262; 1265; 1437; 1265; 1266; 1266; 1266; 1271;
    1437; 1271; 1270; 1270; 1270; 1272; 1437; 1272; 53; 53; 53; 1437; 53; 53; 1280; 1437; 1280;
    1279; 1279; 1279; 1281; 1437; 1281; 1122; 1122; 1122; 1282; 1437; 1282; 1132; 1132; 1132; 1283;
    1437; 1283; 1145; 1145; 1145; 1284; 1437; 1284; 1159; 1159; 1159; 1285; 1437; 1285; 1173; 1173;
    1173; 1216; 1216; 1437; 1437; 1216; 1289; 1289; 1289; 1290; 1290; 1290; 348; 348; 348; 1221;
    1221; 1437; 1221; 1291; 1291; 1291; 1294; 1437; 1294; 1295; 1295; 1295; 1296; 1296; 1296; 1299;
    1437; 1299; 1302; 1437; 1302; 1303; 1303; 1303; 1304; 1304; 1304; 1305; 1437; 1305; 1308; 1437;
    1308; 1311; 1437; 1311; 1312; 1312; 1312; 1313; 1313; 1313; 1314; 1437; 1314; 1317; 1437; 1317;
    1320; 1437; 1320; 1321; 1321; 1321; 1322; 1322; 1322; 1323; 1437; 1323; 1326; 1437; 1326; 1329;
    1437; 1329; 1330; 1330; 1330; 1331; 1331; 1331; 1259; 1437; 1259; 1261; 1437; 1437; 1261; 1262;
    1262; 1437; 1262; 1264; 1264; 1437; 1437; 1264; 1265; 1265; 1437; 1265; 1266; 1266; 1268; 1268;
    1437; 1437; 1268; 1338; 1338; 1338; 1339; 1437; 1339; 1272; 1272; 1437; 1272; 53; 53; 53; 1437;
    53; 53; 1344; 1344; 1344; 1218; 1218; 1218; 1346; 1437; 1346; 1347; 1437; 1347; 1348; 1437;
    1348; 1349; 1437; 1349; 1350; 1437; 1350; 1351; 1437; 1351; 1354; 1437; 1354; 1355; 1355; 1355;
    1356; 1356; 1356; 1357; 1437; 1357; 1293; 1293; 1437; 1437; 1293; 1294; 1294; 1437; 1294; 1295;
    1295; 1360; 1437; 1360; 1298; 1437; 1437; 1298; 1299; 1299; 1437; 1299; 1301; 1301; 1437; 1437;
    1301; 1302; 1302; 1437; 1302; 1303; 1303; 1364; 1437; 1364; 1305; 1437; 1305; 1307; 1437; 1437;
    1307; 1308; 1308; 1437; 1308; 1310; 1310; 1437; 1437; 1310; 1311; 1311; 1437; 1311; 1312; 1312;
    1368; 1437; 1368; 1314; 1437; 1314; 1316; 1437; 1437; 1316; 1317; 1317; 1437; 1317; 1319; 1319;
    1437; 1437; 1319; 1320; 1320; 1437; 1320; 1321; 1321; 1372; 1437; 1372; 1323; 1437; 1323; 1325;
    1437; 1437; 1325; 1326; 1326; 1437; 1326; 1328; 1328; 1437; 1437; 1328; 1329; 1329; 1437; 1329;
    1330; 1330; 1376; 1437; 1376; 1377; 1437; 1377; 1380; 1437; 1380; 1383; 1437; 1383; 1384; 1384;
    1384; 1385; 1437; 1385; 53; 53; 53; 1437; 53; 53; 1389; 1437; 1389; 1291; 1437; 1291; 1296;
    1437; 1296; 1304; 1437; 1304; 1313; 1437; 1313; 1322; 1437; 1322; 1331; 1437; 1331; 1353; 1353;
    1437; 1437; 1353; 1354; 1354; 1437; 1354; 1355; 1355; 1345; 1437; 1345; 1394; 1437; 1394; 1395;
    1437; 1395; 1398; 1437; 1398; 1399; 1437; 1399; 1402; 1437; 1402; 1403; 1437; 1403; 1406; 1437;
    1406; 1407; 1437; 1407; 1410; 1437; 1410; 1379; 1437; 1437; 1379; 1382; 1382; 1437; 1437; 1382;
    1414; 1437; 1414; 1356; 1437; 1356; 1418; 1437; 1418; 1393; 1437; 1437; 1393; 1397; 1437; 1437;
    1397; 1401; 1437; 1437; 1401; 1405; 1437; 1437; 1405; 1409; 1437; 1437; 1409; 1424; 1437; 1424;
    1427; 1437; 1427; 1417; 1437; 1437; 1417; 1429; 1437; 1429; 1430; 1437; 1430; 1431; 1437; 1431;
    1432; 1437; 1432; 1433; 1437; 1433; 1426; 1437; 1437; 1426; 1435; 1437; 1435; 1436; 1437; 1436;
    3; 1437; 1437; 1437; 1437; 1437; 1437; 1437; 1437; 1437; 1437; 1437; 1437; 1437; 1437; 1437;
    1437; 1437; 1437; 1437; 1437; 1437; 1437; 1437; 1437; 1437; 1437; 1437; 1437; 1437; 1437; 1437;
    1437; 1437; 1437; 1437; 1437; 1437; 1437; 1437; 1437; 1437; 1437; 1437; 1437; 1437; 1437; 1437;
    1437; 1437; 1437; 1437; 1437; 1437].
Definition yy_nxt : table := [yy_nxt_1; yy_nxt_2; yy_nxt_3; yy_nxt_4; yy_nxt_5; yy_nxt_6].

Definition yy_chk_1 : list Z :=
  [0; 1; 1; 1; 1; 1; 1; 1; 1; 1; 1; 1; 1; 1; 1; 1; 1; 1; 1; 1; 1; 1; 1; 1; 1; 1; 1; 1; 1; 1; 1; 1;
    1; 1; 1; 1; 1; 1; 1; 1; 1; 1; 1; 1; 1; 1; 1; 1; 1; 1; 1; 1; 1; 1; 4; 7; 15; 4; 7; 4; 7; 9; 4; 7;
    9; 34; 9; 17; 17; 9; 19; 19; 4; 7; 34; 24; 27; 27; 100; 9; 4; 7; 15; 12; 100; 128; 12; 9; 12;
    24; 23; 12; 23; 23; 26; 28; 24; 23; 26; 1258; 28; 12; 23; 128; 26; 29; 23; 26; 23; 12; 14; 14;
    14; 14; 14; 14; 14; 14; 14; 14; 627; 29; 92; 14; 14; 14; 627; 92; 14; 14; 14; 14; 14; 14; 14;
    14; 14; 14; 14; 14; 14; 14; 14; 14; 14; 14; 14; 14; 14; 14; 14; 14; 14; 16; 36; 25; 16; 132; 16;
    36; 36; 16; 36; 36; 101; 25; 96; 132; 25; 101; 22; 16; 25; 22; 39; 22; 39; 238; 22; 16; 20; 20;
    20; 20; 20; 20; 20; 20; 22; 33; 39; 1262; 123; 33; 20; 35; 22; 39; 1265; 96; 37; 238; 33; 33;
    37; 123; 33; 35; 33; 35; 104; 35; 37; 104; 35; 104; 237; 37; 237; 37; 20; 21; 21; 21; 21; 21;
    21; 21; 21; 21; 21; 32; 32; 317; 21; 208; 1266; 149; 317; 97; 21; 21; 21; 21; 21; 21; 31; 32;
    208; 31; 31; 32; 31; 130; 31; 32; 31; 32; 31; 38; 41; 31; 130; 149; 32; 38; 97; 38; 41; 38; 385;
    97; 41; 38; 41; 38; 38; 44; 253; 253; 44; 629; 44; 385; 629; 44; 62; 62; 62; 62; 62; 62; 62; 63;
    157; 44; 63; 628; 63; 1270; 388; 63; 628; 44; 48; 48; 48; 48; 48; 48; 48; 63; 1272; 260; 388;
    48; 410; 410; 1278; 63; 157; 48; 48; 48; 48; 48; 48; 49; 49; 49; 49; 49; 49; 49; 83; 575; 575;
    329; 49; 260; 270; 270; 270; 270; 49; 49; 49; 49; 49; 49; 50; 50; 50; 50; 50; 50; 50; 50; 439;
    1279; 270; 83; 50; 329; 354; 412; 439; 83; 50; 50; 50; 50; 50; 50; 52; 52; 52; 52; 52; 52; 52;
    52; 54; 54; 54; 54; 54; 54; 54; 419; 354; 412; 333; 54; 533; 533; 533; 533; 425; 54; 54; 54; 54;
    54; 54; 56; 333; 634; 56; 634; 56; 349; 637; 56; 350; 419; 56; 56; 56; 56; 56; 56; 56; 56; 425;
    349; 637; 56; 350; 433; 490; 56; 333; 56; 56; 56; 56; 56; 56; 147; 458; 147; 147; 147; 147; 147;
    147; 147; 460; 458; 1289; 349; 147; 530; 350; 433; 490; 460; 147; 147; 147; 147; 147; 147; 148;
    148; 148; 148; 148; 148; 148; 148; 514; 524; 626; 626; 148; 583; 148; 530; 514; 524; 148; 148;
    148; 148; 148; 148; 252; 252; 252; 252; 252; 252; 252; 263; 263; 263; 263; 263; 263; 263; 428;
    583; 148; 150; 150; 150; 150; 150; 150; 150; 150; 586; 592; 1290; 428; 150; 599; 611; 645; 645;
    1294; 150; 150; 150; 150; 150; 150; 151; 151; 151; 151; 151; 151; 151; 151; 151; 618; 586; 592;
    151; 428; 1295; 599; 611; 618; 151; 151; 151; 151; 151; 151; 152; 152; 152; 152; 152; 152; 152;
    152; 154; 154; 154; 154; 154; 154; 154; 154; 635; 1299; 652; 154; 635; 1302; 631; 636; 708; 154;
    154; 154; 154; 154; 154; 156; 156; 156; 156; 156; 156; 156; 156; 156; 631; 636; 708; 156; 652;
    156; 654; 287; 710; 156; 156; 156; 156; 156; 156; 287; 339; 339; 339; 339; 339; 339; 339; 1303;
    1308; 429; 710; 494; 287; 711; 632; 156; 246; 246; 246; 246; 246; 246; 246; 429; 632; 494; 654;
    246; 287; 716; 1311; 711; 1312; 246; 246; 246; 246; 246; 246; 248; 248; 248; 248; 248; 248; 248;
    630; 716; 711; 429; 248; 494; 716; 693; 705; 630; 248; 248; 248; 248; 248; 248; 249; 249; 249;
    249; 249; 249; 249; 249; 251; 251; 251; 251; 251; 251; 251; 675; 686; 693; 705; 251; 1317; 709;
    720; 675; 686; 251; 251; 251; 251; 251; 251; 254; 254; 254; 254; 254; 254; 254; 254; 709; 720;
    720; 1320; 254; 1321; 1326; 709; 1329; 1330; 254; 254; 254; 254; 254; 254; 256; 256; 256; 256;
    256; 256; 256; 256; 259; 259; 259; 259; 259; 259; 259; 259; 259; 791; 322; 521; 259; 1338; 259;
    322; 1354; 791; 259; 259; 259; 259; 259; 259; 322; 521; 322; 322; 737; 322; 343; 343; 343; 343;
    343; 343; 343; 722; 522; 712; 259; 264; 264; 264; 264; 264; 264; 264; 264; 264; 1355; 521; 522;
    264; 737; 722; 1380; 712; 525; 264; 264; 264; 264; 264; 264; 265; 265; 265; 265; 265; 265; 265;
    525; 1383; 712; 1394; 265; 1398; 522; 717; 1402; 718; 265; 265; 265; 265; 265; 265; 327; 526;
    327; 327; 327; 327; 327; 327; 327; 717; 525; 718; 717; 327; 718; 526; 723; 721; 727; 327; 327;
    327; 327; 327; 327; 328; 328; 328; 328; 328; 328; 328; 328; 1406; 723; 721; 727; 328; 721; 328;
    1410; 526; 1418; 328; 328; 328; 328; 328; 328; 409; 409; 409; 409; 409; 409; 409; 437; 437; 437;
    437; 437; 437; 437; 594; 644; 328; 330; 330; 330; 330; 330; 330; 330; 330; 644; 1427; 740; 594;
    330; 743; 729; 729; 1257; 595; 330; 330; 330; 330; 330; 330; 334; 334; 334; 334; 334; 334; 334;
    595; 729; 1250; 749; 334; 740; 594; 756; 743; 798; 334; 334; 334; 334; 334; 334; 335; 335; 335;
    335; 335; 335; 335; 335; 1249; 1242; 595; 798; 335; 749; 768; 771; 783; 756; 335; 335; 335; 335;
    335; 335; 336; 336; 336; 336; 336; 336; 336; 336; 338; 338; 338; 338; 338; 338; 338; 1241; 768;
    771; 783; 338; 1234; 799; 800; 801; 1233; 338; 338; 338; 338; 338; 338; 342; 342; 342; 342; 342;
    342; 342; 342; 799; 800; 801; 342; 1227; 799; 800; 801; 803; 342; 342; 342; 342; 342; 342; 344;
    344; 344; 344; 344; 344; 344; 344; 344; 839; 814; 803; 344; 1226; 805; 806; 803; 839; 344; 344;
    344; 344; 344; 344; 345; 345; 345; 345; 345; 345; 345; 345; 805; 806; 1222; 345; 814; 805; 806;
    808; 810; 345; 345; 345; 345; 345; 345; 351; 351; 351; 351; 351; 351; 351; 351; 351; 850; 808;
    810; 351; 808; 870; 1221; 892; 850; 351; 351; 351; 351; 351; 351; 353; 353; 353; 353; 353; 353;
    353; 353; 353; 862; 892; 1220; 353; 882; 353; 892; 870; 862; 353; 353; 353; 353; 353; 353; 441;
    441; 441; 441; 441; 441; 441; 507; 507; 507; 507; 507; 507; 507; 1219; 882; 353; 371; 1218; 905;
    1214; 371; 908; 895; 371; 889; 602; 371; 603; 371; 371; 371; 371; 403; 403; 403; 403; 403; 403;
    403; 602; 895; 603; 889; 403; 905; 889; 896; 908; 640; 403; 403; 403; 403; 403; 403; 405; 405;
    405; 405; 405; 405; 405; 640; 978; 896; 602; 405; 603; 911; 914; 920; 978; 405; 405; 405; 405;
    405; 405; 406; 406; 406; 406; 406; 406; 406; 406; 408; 408; 408; 408; 408; 408; 408; 1211; 911;
    914; 920; 408; 927; 894; 897; 901; 988; 408; 408; 408; 408; 408; 408; 411; 411; 411; 411; 411;
    411; 411; 411; 894; 897; 901; 988; 411; 1208; 411; 927; 894; 1205; 411; 411; 411; 411; 411; 411;
    512; 512; 512; 512; 512; 512; 512; 516; 516; 516; 516; 516; 516; 516; 713; 606; 411; 413; 413;
    413; 413; 413; 413; 413; 939; 1202; 942; 954; 413; 606; 958; 1199; 713; 643; 413; 413; 413; 413;
    413; 413; 414; 414; 414; 414; 414; 414; 414; 643; 1186; 713; 939; 414; 942; 954; 970; 606; 958;
    414; 414; 414; 414; 414; 414; 415; 415; 415; 415; 415; 415; 415; 415; 418; 418; 418; 418; 418;
    418; 418; 418; 418; 970; 607; 1182; 418; 1175; 418; 1174; 1173; 1169; 418; 418; 418; 418; 418;
    418; 607; 614; 614; 614; 614; 614; 614; 614; 616; 616; 616; 616; 616; 616].
Definition yy_chk_2 : list Z :=
  [616; 996; 418; 424; 424; 424; 424; 424; 424; 424; 424; 424; 607; 1168; 1165; 424; 1161; 424;
    1160; 996; 1159; 424; 424; 424; 424; 424; 424; 620; 620; 620; 620; 620; 620; 620; 668; 668; 668;
    668; 668; 668; 668; 696; 715; 424; 430; 430; 430; 430; 430; 430; 430; 430; 430; 1155; 1154; 696;
    430; 1151; 1016; 1069; 715; 991; 430; 430; 430; 430; 430; 430; 432; 432; 432; 432; 432; 432;
    432; 432; 432; 715; 1147; 991; 432; 696; 432; 991; 1016; 1069; 432; 432; 432; 432; 432; 432;
    673; 673; 673; 673; 673; 673; 673; 677; 677; 677; 677; 677; 677; 677; 697; 804; 432; 442; 442;
    442; 442; 442; 442; 442; 442; 442; 1146; 1145; 697; 442; 1081; 994; 1141; 804; 700; 442; 442;
    442; 442; 442; 442; 443; 443; 443; 443; 443; 443; 443; 700; 994; 804; 1140; 443; 994; 697; 995;
    1081; 1084; 443; 443; 443; 443; 443; 443; 488; 701; 488; 488; 488; 488; 488; 488; 488; 995; 700;
    1084; 1137; 488; 995; 701; 1134; 1133; 1087; 488; 488; 488; 488; 488; 488; 489; 489; 489; 489;
    489; 489; 489; 489; 1132; 1026; 1084; 1087; 489; 1087; 489; 1128; 701; 1026; 489; 489; 489; 489;
    489; 489; 682; 682; 682; 682; 682; 682; 682; 684; 684; 684; 684; 684; 684; 684; 751; 809; 489;
    491; 491; 491; 491; 491; 491; 491; 491; 1098; 1037; 1127; 751; 491; 1101; 1124; 1123; 809; 1037;
    491; 491; 491; 491; 491; 491; 495; 495; 495; 495; 495; 495; 495; 495; 1049; 1061; 1098; 809;
    495; 751; 1104; 1101; 1049; 1061; 495; 495; 495; 495; 495; 495; 496; 496; 496; 496; 496; 496;
    496; 496; 497; 497; 497; 497; 497; 497; 497; 1122; 1104; 1118; 1116; 497; 1107; 1110; 1135;
    1149; 1115; 497; 497; 497; 497; 497; 497; 498; 498; 498; 498; 498; 498; 498; 498; 500; 500; 500;
    500; 500; 500; 500; 1107; 1110; 1135; 1149; 500; 1163; 1197; 1085; 1086; 1088; 500; 500; 500;
    500; 500; 500; 501; 501; 501; 501; 501; 501; 501; 501; 501; 1085; 1086; 1088; 501; 1260; 1091;
    1163; 1197; 752; 501; 501; 501; 501; 501; 501; 502; 502; 502; 502; 502; 502; 502; 752; 1091;
    1085; 1086; 502; 1112; 1091; 1092; 1260; 1111; 502; 502; 502; 502; 502; 502; 506; 506; 506; 506;
    506; 506; 506; 506; 1108; 1092; 752; 506; 1105; 1102; 1099; 1188; 1089; 506; 506; 506; 506; 506;
    506; 508; 508; 508; 508; 508; 508; 508; 508; 508; 1181; 1188; 1089; 508; 1095; 1083; 1189; 1190;
    1181; 508; 508; 508; 508; 508; 508; 509; 509; 509; 509; 509; 509; 509; 509; 1089; 1189; 1190;
    509; 1082; 1079; 1191; 1192; 1274; 509; 509; 509; 509; 509; 509; 517; 517; 517; 517; 517; 517;
    517; 517; 517; 1191; 1192; 1274; 517; 1075; 1274; 1192; 1275; 1074; 517; 517; 517; 517; 517;
    517; 518; 518; 518; 518; 518; 518; 518; 518; 1225; 1071; 1275; 518; 1297; 1275; 1066; 1276;
    1225; 518; 518; 518; 518; 518; 518; 527; 527; 527; 527; 527; 527; 527; 527; 527; 1232; 1276;
    1306; 527; 1315; 1324; 1297; 1065; 1232; 527; 527; 527; 527; 527; 527; 529; 529; 529; 529; 529;
    529; 529; 529; 529; 1240; 1276; 1062; 529; 1306; 529; 1315; 1324; 1240; 529; 529; 529; 529; 529;
    529; 688; 688; 688; 688; 688; 688; 688; 694; 694; 694; 694; 694; 694; 694; 802; 759; 529; 569;
    569; 569; 569; 569; 569; 569; 1378; 1248; 1392; 1396; 569; 759; 1054; 1343; 802; 1248; 569; 569;
    569; 569; 569; 569; 571; 571; 571; 571; 571; 571; 571; 802; 1256; 1343; 1378; 571; 1392; 1396;
    1400; 759; 1256; 571; 571; 571; 571; 571; 571; 572; 572; 572; 572; 572; 572; 572; 572; 574; 574;
    574; 574; 574; 574; 574; 1288; 1337; 1400; 1404; 574; 1408; 1193; 1386; 1288; 1337; 574; 574;
    574; 574; 574; 574; 576; 576; 576; 576; 576; 576; 576; 576; 1193; 1386; 1053; 1050; 576; 1404;
    1416; 1408; 1425; 1193; 576; 576; 576; 576; 576; 576; 577; 577; 577; 577; 577; 577; 577; 577;
    578; 578; 578; 578; 578; 578; 578; 1384; 1416; 1042; 1425; 578; 1041; 1038; 1031; 1384; 1030;
    578; 578; 578; 578; 578; 578; 579; 579; 579; 579; 579; 579; 579; 579; 582; 582; 582; 582; 582;
    582; 582; 582; 582; 714; 760; 763; 582; 1027; 582; 1388; 1022; 764; 582; 582; 582; 582; 582;
    582; 760; 763; 1021; 714; 1018; 1017; 1014; 764; 1013; 1388; 724; 1010; 719; 1007; 725; 714;
    582; 585; 585; 585; 585; 585; 585; 585; 585; 585; 760; 763; 724; 585; 719; 585; 725; 764; 990;
    585; 585; 585; 585; 585; 585; 724; 719; 1004; 725; 731; 731; 731; 731; 731; 731; 731; 990; 774;
    775; 778; 888; 585; 591; 591; 591; 591; 591; 591; 591; 591; 591; 774; 775; 778; 591; 990; 591;
    1000; 888; 779; 591; 591; 591; 591; 591; 591; 772; 772; 772; 772; 772; 772; 772; 779; 1342; 888;
    983; 774; 775; 778; 873; 979; 591; 596; 596; 596; 596; 596; 596; 596; 596; 596; 1342; 972; 873;
    596; 971; 968; 1415; 779; 1342; 596; 596; 596; 596; 596; 596; 598; 598; 598; 598; 598; 598; 598;
    598; 598; 1415; 964; 963; 598; 873; 598; 960; 956; 955; 598; 598; 598; 598; 598; 598; 787; 787;
    787; 787; 787; 787; 787; 789; 789; 789; 789; 789; 789; 789; 874; 890; 598; 608; 608; 608; 608;
    608; 608; 608; 608; 608; 952; 948; 874; 608; 947; 944; 941; 890; 890; 608; 608; 608; 608; 608;
    608; 610; 610; 610; 610; 610; 610; 610; 610; 610; 940; 890; 937; 610; 874; 610; 933; 993; 807;
    610; 610; 610; 610; 610; 610; 793; 793; 793; 793; 793; 793; 793; 932; 929; 928; 993; 807; 925;
    877; 878; 885; 610; 621; 621; 621; 621; 621; 621; 621; 621; 621; 807; 877; 878; 621; 993; 921;
    917; 885; 916; 621; 621; 621; 621; 621; 621; 622; 622; 622; 622; 622; 622; 622; 885; 915; 912;
    909; 622; 877; 878; 906; 903; 902; 622; 622; 622; 622; 622; 622; 625; 625; 625; 625; 625; 625;
    625; 884; 883; 880; 876; 625; 886; 887; 891; 893; 1273; 625; 625; 625; 625; 625; 625; 832; 832;
    832; 832; 832; 832; 832; 886; 887; 891; 893; 1273; 625; 648; 875; 648; 648; 648; 648; 648; 648;
    648; 886; 887; 887; 891; 648; 893; 1273; 989; 992; 1093; 648; 648; 648; 648; 648; 648; 837; 837;
    837; 837; 837; 837; 837; 922; 923; 989; 992; 1093; 648; 649; 649; 649; 649; 649; 649; 649; 649;
    922; 923; 989; 992; 649; 1093; 872; 867; 863; 855; 649; 649; 649; 649; 649; 649; 841; 841; 841;
    841; 841; 841; 841; 851; 844; 840; 922; 923; 649; 650; 650; 650; 650; 650; 650; 650; 846; 846;
    846; 846; 846; 846; 846; 848; 848; 848; 848; 848; 848; 848; 852; 852; 852; 852; 852; 852; 852;
    858; 858; 858; 858; 858; 858; 858; 650; 651; 651; 651; 651; 651; 651; 651; 835; 830; 829; 828;
    651; 825; 822; 818; 796; 792; 651; 651; 651; 651; 651; 651; 653; 653; 653; 653; 653; 653; 653;
    653; 655; 655; 655; 655; 655; 655; 655; 655; 785; 784; 781; 777; 655; 776; 773; 770; 769; 766;
    655; 655; 655; 655; 655; 655; 656; 656; 656; 656; 656; 656; 656; 656; 658; 658; 658; 658; 658;
    658; 658; 762; 761; 758; 757; 658; 754; 750; 747; 746; 745; 658; 658; 658; 658; 658; 658; 659;
    659; 659; 659; 659; 659; 659; 659; 659; 744; 741; 738; 659; 735; 734; 707; 706; 930; 659; 659;
    659; 659; 659; 659; 660; 660; 660; 660; 660; 660; 660; 930; 703; 699; 698; 660; 695; 691; 687;
    680; 676; 660; 660; 660; 660; 660; 660; 662; 662; 662; 662; 662; 662; 662; 662; 662; 671; 930;
    666; 662; 665; 664; 661; 657; 931; 662; 662; 662; 662; 662; 662; 663; 663; 663; 663; 663; 663;
    663; 931; 647; 646; 642; 663; 641; 639; 638; 633; 623; 663; 663; 663; 663; 663; 663; 667; 667;
    667; 667; 667; 667; 667; 667; 619; 613; 931; 667; 612; 609; 605; 604; 601; 667; 667; 667; 667;
    667; 667; 669; 669; 669; 669; 669; 669; 669; 669; 669].
Definition yy_chk_3 : list Z :=
  [600; 597; 593; 669; 590; 589; 588; 587; 584; 669; 669; 669; 669; 669; 669; 670; 670; 670; 670;
    670; 670; 670; 670; 581; 580; 573; 670; 570; 568; 564; 560; 559; 670; 670; 670; 670; 670; 670;
    678; 678; 678; 678; 678; 678; 678; 678; 678; 558; 557; 553; 678; 552; 550; 549; 548; 547; 678;
    678; 678; 678; 678; 678; 679; 679; 679; 679; 679; 679; 679; 679; 546; 545; 544; 679; 543; 542;
    541; 540; 539; 679; 679; 679; 679; 679; 679; 689; 689; 689; 689; 689; 689; 689; 689; 689; 536;
    535; 534; 689; 532; 531; 528; 523; 519; 689; 689; 689; 689; 689; 689; 690; 690; 690; 690; 690;
    690; 690; 690; 515; 510; 505; 690; 504; 503; 499; 493; 492; 690; 690; 690; 690; 690; 690; 702;
    702; 702; 702; 702; 702; 702; 702; 702; 487; 486; 485; 702; 484; 483; 482; 481; 480; 702; 702;
    702; 702; 702; 702; 704; 704; 704; 704; 704; 704; 704; 704; 704; 479; 478; 477; 704; 475; 704;
    472; 471; 470; 704; 704; 704; 704; 704; 704; 860; 860; 860; 860; 860; 860; 860; 864; 864; 864;
    864; 864; 864; 864; 934; 935; 704; 726; 945; 726; 726; 726; 726; 726; 726; 726; 469; 468; 934;
    935; 726; 467; 945; 466; 464; 726; 726; 726; 726; 726; 726; 726; 728; 728; 728; 728; 728; 728;
    728; 463; 462; 461; 459; 728; 934; 935; 457; 456; 945; 728; 728; 728; 728; 728; 728; 730; 730;
    730; 730; 730; 730; 730; 455; 454; 453; 452; 730; 451; 1341; 449; 448; 447; 730; 730; 730; 730;
    730; 730; 732; 732; 732; 732; 732; 732; 732; 732; 1341; 444; 440; 436; 732; 435; 434; 431; 427;
    1341; 732; 732; 732; 732; 732; 732; 733; 733; 733; 733; 733; 733; 733; 733; 736; 736; 736; 736;
    736; 736; 736; 736; 736; 426; 423; 422; 736; 421; 736; 420; 417; 416; 736; 736; 736; 736; 736;
    736; 871; 871; 871; 871; 871; 871; 871; 943; 943; 943; 943; 943; 943; 943; 946; 407; 736; 739;
    739; 739; 739; 739; 739; 739; 739; 739; 404; 949; 946; 739; 402; 739; 401; 950; 961; 739; 739;
    739; 739; 739; 739; 949; 400; 399; 398; 397; 396; 950; 961; 395; 394; 393; 392; 1340; 946; 962;
    391; 739; 742; 742; 742; 742; 742; 742; 742; 742; 742; 949; 389; 962; 742; 1340; 742; 950; 961;
    965; 742; 742; 742; 742; 742; 742; 959; 959; 959; 959; 959; 959; 959; 965; 1340; 387; 386; 384;
    966; 962; 1072; 383; 742; 748; 748; 748; 748; 748; 748; 748; 748; 748; 966; 380; 1072; 748; 379;
    748; 377; 965; 1073; 748; 748; 748; 748; 748; 748; 974; 974; 974; 974; 974; 974; 974; 1073; 375;
    374; 373; 966; 1076; 1072; 1077; 370; 748; 753; 753; 753; 753; 753; 753; 753; 753; 753; 1076;
    369; 1077; 753; 367; 366; 365; 1073; 364; 753; 753; 753; 753; 753; 753; 755; 755; 755; 755; 755;
    755; 755; 755; 755; 362; 357; 1076; 755; 1077; 755; 356; 355; 352; 755; 755; 755; 755; 755; 755;
    976; 976; 976; 976; 976; 976; 976; 980; 980; 980; 980; 980; 980; 980; 1119; 348; 755; 765; 765;
    765; 765; 765; 765; 765; 765; 765; 346; 341; 1119; 765; 340; 337; 332; 331; 323; 765; 765; 765;
    765; 765; 765; 767; 767; 767; 767; 767; 767; 767; 767; 767; 985; 986; 1120; 767; 1119; 767; 321;
    320; 315; 767; 767; 767; 767; 767; 767; 313; 1120; 311; 985; 986; 1019; 1019; 1019; 1019; 1019;
    1019; 1019; 1125; 310; 985; 986; 767; 780; 780; 780; 780; 780; 780; 780; 780; 780; 1125; 1120;
    309; 780; 308; 307; 306; 305; 303; 780; 780; 780; 780; 780; 780; 782; 782; 782; 782; 782; 782;
    782; 782; 782; 987; 1126; 1125; 782; 302; 782; 301; 296; 1387; 782; 782; 782; 782; 782; 782;
    1126; 293; 292; 987; 1024; 1024; 1024; 1024; 1024; 1024; 1024; 1387; 291; 1129; 987; 288; 782;
    794; 794; 794; 794; 794; 794; 794; 794; 794; 1126; 1129; 285; 794; 1387; 284; 282; 280; 1130;
    794; 794; 794; 794; 794; 794; 795; 795; 795; 795; 795; 795; 795; 1130; 279; 278; 276; 795; 1129;
    272; 271; 269; 266; 795; 795; 795; 795; 795; 795; 811; 1138; 811; 811; 811; 811; 811; 811; 811;
    262; 1130; 261; 258; 811; 257; 1138; 255; 250; 811; 811; 811; 811; 811; 811; 811; 812; 812; 812;
    812; 812; 812; 812; 247; 245; 244; 242; 812; 239; 235; 231; 229; 1138; 812; 812; 812; 812; 812;
    812; 813; 813; 813; 813; 813; 813; 813; 813; 227; 226; 224; 223; 813; 222; 813; 221; 220; 219;
    813; 813; 813; 813; 813; 813; 1028; 1028; 1028; 1028; 1028; 1028; 1028; 1033; 1033; 1033; 1033;
    1033; 1033; 1033; 218; 1139; 813; 815; 815; 815; 815; 815; 815; 815; 216; 214; 212; 211; 815;
    1139; 209; 207; 206; 204; 815; 815; 815; 815; 815; 815; 816; 816; 816; 816; 816; 816; 816; 816;
    201; 200; 199; 197; 816; 195; 194; 1139; 191; 190; 816; 816; 816; 816; 816; 816; 817; 817; 817;
    817; 817; 817; 817; 817; 819; 819; 819; 819; 819; 819; 819; 188; 187; 186; 185; 819; 184; 183;
    182; 181; 180; 819; 819; 819; 819; 819; 819; 820; 820; 820; 820; 820; 820; 820; 820; 820; 179;
    177; 176; 820; 173; 172; 171; 170; 1142; 820; 820; 820; 820; 820; 820; 821; 821; 821; 821; 821;
    821; 821; 1142; 169; 168; 167; 821; 166; 164; 161; 160; 159; 821; 821; 821; 821; 821; 821; 823;
    823; 823; 823; 823; 823; 823; 823; 823; 158; 1142; 155; 823; 153; 144; 143; 142; 1143; 823; 823;
    823; 823; 823; 823; 824; 824; 824; 824; 824; 824; 824; 1143; 141; 140; 139; 824; 138; 136; 134;
    133; 131; 824; 824; 824; 824; 824; 824; 826; 826; 826; 826; 826; 826; 826; 826; 826; 129; 1143;
    127; 826; 126; 125; 124; 122; 1152; 826; 826; 826; 826; 826; 826; 827; 827; 827; 827; 827; 827;
    827; 1152; 121; 120; 119; 827; 118; 117; 115; 113; 112; 827; 827; 827; 827; 827; 827; 831; 831;
    831; 831; 831; 831; 831; 831; 111; 110; 1152; 831; 109; 108; 107; 106; 105; 831; 831; 831; 831;
    831; 831; 833; 833; 833; 833; 833; 833; 833; 833; 833; 103; 102; 95; 833; 94; 93; 91; 90; 89;
    833; 833; 833; 833; 833; 833; 834; 834; 834; 834; 834; 834; 834; 834; 88; 87; 86; 834; 85; 84;
    82; 81; 80; 834; 834; 834; 834; 834; 834; 842; 842; 842; 842; 842; 842; 842; 842; 842; 79; 78;
    77; 842; 76; 75; 74; 73; 72; 842; 842; 842; 842; 842; 842; 843; 843; 843; 843; 843; 843; 843;
    843; 71; 70; 69; 843; 67; 66; 65; 51; 43; 843; 843; 843; 843; 843; 843; 853; 853; 853; 853; 853;
    853; 853; 853; 853; 42; 40; 30; 853; 18; 10; 8; 3; 0; 853; 853; 853; 853; 853; 853; 854; 854;
    854; 854; 854; 854; 854; 854; 0; 0; 0; 854; 0; 0; 0; 0; 0; 854; 854; 854; 854; 854; 854; 865;
    865; 865; 865; 865; 865; 865; 865; 865; 0; 0; 0; 865; 0; 0; 0; 0; 0; 865; 865; 865; 865; 865;
    865; 866; 866; 866; 866; 866; 866; 866; 866; 0; 0; 0; 866; 0; 0; 0; 0; 0; 866; 866; 866; 866;
    866; 866; 879; 879; 879; 879; 879; 879; 879; 879; 879; 0; 0; 0; 879; 0; 0; 0; 0; 0; 879; 879;
    879; 879; 879; 879; 881; 881; 881; 881; 881; 881; 881; 881; 881; 0; 0; 0; 881; 0; 881; 0; 0; 0;
    881; 881; 881; 881; 881; 881; 1035; 1035; 1035; 1035; 1035; 1035; 1035; 1039; 1039; 1039; 1039;
    1039; 1039; 1039; 0; 0; 881; 898; 898; 898; 898; 898; 898; 898; 898; 898; 0; 0; 0; 0; 898; 0; 0;
    0; 0; 898; 898; 898; 898; 898; 898; 898; 899; 899; 899; 899; 899; 899; 899; 899; 900; 900; 900;
    900; 900; 900; 900; 900; 900; 1045; 1045; 1045; 1045; 1045; 1045; 1045; 0; 0; 900; 904; 904;
    904; 904; 904; 904; 904; 904; 904; 0; 0; 0; 904; 0; 904; 0; 0; 0; 904; 904; 904; 904; 904; 904;
    1047; 1047; 1047; 1047].
Definition yy_chk_4 : list Z :=
  [1047; 1047; 1047; 1051; 1051; 1051; 1051; 1051; 1051; 1051; 0; 0; 904; 907; 907; 907; 907; 907;
    907; 907; 907; 907; 0; 0; 0; 907; 0; 907; 0; 0; 0; 907; 907; 907; 907; 907; 907; 1057; 1057;
    1057; 1057; 1057; 1057; 1057; 1059; 1059; 1059; 1059; 1059; 1059; 1059; 0; 0; 907; 910; 910;
    910; 910; 910; 910; 910; 910; 910; 0; 0; 0; 910; 0; 910; 0; 0; 0; 910; 910; 910; 910; 910; 910;
    1063; 1063; 1063; 1063; 1063; 1063; 1063; 1070; 1070; 1070; 1070; 1070; 1070; 1070; 1090; 0;
    910; 913; 913; 913; 913; 913; 913; 913; 913; 913; 0; 1153; 1156; 913; 0; 913; 1090; 0; 0; 913;
    913; 913; 913; 913; 913; 1153; 1156; 1090; 1113; 1113; 1113; 1113; 1113; 1113; 1113; 0; 1157; 0;
    0; 0; 1166; 913; 918; 918; 918; 918; 918; 918; 918; 918; 1157; 1153; 1156; 918; 1166; 0; 0; 0;
    0; 918; 918; 918; 918; 918; 918; 919; 919; 919; 919; 919; 919; 919; 919; 919; 0; 0; 1157; 919;
    0; 919; 1166; 0; 0; 919; 919; 919; 919; 919; 919; 1136; 1136; 1136; 1136; 1136; 1136; 1136;
    1150; 1150; 1150; 1150; 1150; 1150; 1150; 1167; 0; 919; 924; 924; 924; 924; 924; 924; 924; 924;
    924; 0; 0; 1167; 924; 0; 0; 0; 0; 0; 924; 924; 924; 924; 924; 924; 926; 926; 926; 926; 926; 926;
    926; 926; 926; 0; 0; 0; 926; 1167; 926; 0; 0; 1170; 926; 926; 926; 926; 926; 926; 1164; 1164;
    1164; 1164; 1164; 1164; 1164; 1170; 0; 0; 0; 0; 1171; 0; 1215; 0; 926; 936; 936; 936; 936; 936;
    936; 936; 936; 936; 1171; 0; 1215; 936; 0; 0; 0; 1170; 0; 936; 936; 936; 936; 936; 936; 938;
    938; 938; 938; 938; 938; 938; 938; 938; 0; 0; 1171; 938; 1215; 938; 0; 0; 0; 938; 938; 938; 938;
    938; 938; 1177; 1177; 1177; 1177; 1177; 1177; 1177; 1179; 1179; 1179; 1179; 1179; 1179; 1179;
    1216; 0; 938; 951; 951; 951; 951; 951; 951; 951; 951; 951; 0; 0; 1216; 951; 0; 0; 0; 0; 0; 951;
    951; 951; 951; 951; 951; 953; 953; 953; 953; 953; 953; 953; 953; 953; 0; 0; 0; 953; 1216; 953;
    0; 0; 0; 953; 953; 953; 953; 953; 953; 1183; 1183; 1183; 1183; 1183; 1183; 1183; 1223; 1223;
    1223; 1223; 1223; 1223; 1223; 1263; 0; 953; 967; 967; 967; 967; 967; 967; 967; 967; 967; 0; 0;
    1263; 967; 0; 0; 0; 0; 1194; 967; 967; 967; 967; 967; 967; 969; 969; 969; 969; 969; 969; 969;
    969; 969; 1195; 0; 1194; 969; 1263; 969; 0; 0; 0; 969; 969; 969; 969; 969; 969; 1194; 0; 0;
    1195; 1228; 1228; 1228; 1228; 1228; 1228; 1228; 0; 0; 1264; 1195; 0; 969; 981; 981; 981; 981;
    981; 981; 981; 981; 981; 0; 1264; 0; 981; 0; 0; 0; 0; 1267; 981; 981; 981; 981; 981; 981; 982;
    982; 982; 982; 982; 982; 982; 1267; 0; 0; 0; 982; 1264; 0; 0; 0; 0; 982; 982; 982; 982; 982;
    982; 997; 997; 997; 997; 997; 997; 997; 997; 997; 0; 1267; 0; 0; 997; 0; 0; 0; 0; 997; 997; 997;
    997; 997; 997; 997; 998; 998; 998; 998; 998; 998; 998; 998; 999; 999; 999; 999; 999; 999; 999;
    999; 999; 1230; 1230; 1230; 1230; 1230; 1230; 1230; 0; 1268; 999; 1001; 1001; 1001; 1001; 1001;
    1001; 1001; 0; 0; 0; 0; 1001; 1268; 0; 0; 0; 0; 1001; 1001; 1001; 1001; 1001; 1001; 1002; 1002;
    1002; 1002; 1002; 1002; 1002; 1002; 1002; 0; 0; 0; 1002; 0; 0; 1268; 0; 1292; 1002; 1002; 1002;
    1002; 1002; 1002; 1003; 1003; 1003; 1003; 1003; 1003; 1003; 1292; 0; 0; 0; 1003; 0; 0; 0; 0; 0;
    1003; 1003; 1003; 1003; 1003; 1003; 1005; 1005; 1005; 1005; 1005; 1005; 1005; 1005; 1005; 0;
    1292; 0; 1005; 0; 0; 0; 0; 1293; 1005; 1005; 1005; 1005; 1005; 1005; 1006; 1006; 1006; 1006;
    1006; 1006; 1006; 1293; 0; 0; 0; 1006; 0; 0; 0; 0; 0; 1006; 1006; 1006; 1006; 1006; 1006; 1008;
    1008; 1008; 1008; 1008; 1008; 1008; 1008; 1008; 0; 1293; 0; 1008; 0; 0; 0; 0; 1300; 1008; 1008;
    1008; 1008; 1008; 1008; 1009; 1009; 1009; 1009; 1009; 1009; 1009; 1300; 0; 0; 0; 1009; 0; 0; 0;
    0; 0; 1009; 1009; 1009; 1009; 1009; 1009; 1011; 1011; 1011; 1011; 1011; 1011; 1011; 1011; 1011;
    0; 1300; 0; 1011; 0; 0; 0; 0; 1301; 1011; 1011; 1011; 1011; 1011; 1011; 1012; 1012; 1012; 1012;
    1012; 1012; 1012; 1301; 0; 0; 0; 1012; 0; 0; 0; 0; 0; 1012; 1012; 1012; 1012; 1012; 1012; 1015;
    1015; 1015; 1015; 1015; 1015; 1015; 1015; 1015; 0; 1301; 0; 1015; 0; 1015; 0; 0; 0; 1015; 1015;
    1015; 1015; 1015; 1015; 1236; 1236; 1236; 1236; 1236; 1236; 1236; 1238; 1238; 1238; 1238; 1238;
    1238; 1238; 1309; 0; 1015; 1020; 1020; 1020; 1020; 1020; 1020; 1020; 1020; 1020; 0; 0; 1309;
    1020; 0; 0; 0; 0; 0; 1020; 1020; 1020; 1020; 1020; 1020; 1029; 1029; 1029; 1029; 1029; 1029;
    1029; 1029; 1029; 0; 0; 0; 1029; 1309; 0; 0; 0; 0; 1029; 1029; 1029; 1029; 1029; 1029; 1040;
    1040; 1040; 1040; 1040; 1040; 1040; 1040; 1040; 0; 0; 0; 1040; 0; 0; 0; 0; 0; 1040; 1040; 1040;
    1040; 1040; 1040; 1052; 1052; 1052; 1052; 1052; 1052; 1052; 1052; 1052; 0; 0; 0; 1052; 0; 0; 0;
    0; 0; 1052; 1052; 1052; 1052; 1052; 1052; 1064; 1064; 1064; 1064; 1064; 1064; 1064; 1064; 1064;
    0; 0; 0; 1064; 0; 0; 0; 0; 0; 1064; 1064; 1064; 1064; 1064; 1064; 1078; 1078; 1078; 1078; 1078;
    1078; 1078; 1078; 1078; 0; 0; 0; 1078; 0; 0; 0; 0; 0; 1078; 1078; 1078; 1078; 1078; 1078; 1080;
    1080; 1080; 1080; 1080; 1080; 1080; 1080; 1080; 0; 0; 0; 1080; 0; 1080; 0; 0; 0; 1080; 1080;
    1080; 1080; 1080; 1080; 1244; 1244; 1244; 1244; 1244; 1244; 1244; 1246; 1246; 1246; 1246; 1246;
    1246; 1246; 0; 0; 1080; 1094; 1094; 1094; 1094; 1094; 1094; 1094; 1094; 1094; 1252; 1252; 1252;
    1252; 1252; 1252; 1252; 0; 1310; 1094; 1096; 1096; 1096; 1096; 1096; 1096; 1096; 1096; 0; 0; 0;
    1096; 1310; 0; 0; 0; 0; 1096; 1096; 1096; 1096; 1096; 1096; 1097; 1097; 1097; 1097; 1097; 1097;
    1097; 1097; 1097; 0; 0; 0; 1097; 0; 1097; 1310; 0; 0; 1097; 1097; 1097; 1097; 1097; 1097; 1254;
    1254; 1254; 1254; 1254; 1254; 1254; 1261; 1261; 1261; 1261; 1261; 1261; 1261; 0; 0; 1097; 1100;
    1100; 1100; 1100; 1100; 1100; 1100; 1100; 1100; 0; 0; 0; 1100; 0; 1100; 0; 0; 0; 1100; 1100;
    1100; 1100; 1100; 1100; 1286; 1286; 1286; 1286; 1286; 1286; 1286; 1298; 1298; 1298; 1298; 1298;
    1298; 1298; 0; 0; 1100; 1103; 1103; 1103; 1103; 1103; 1103; 1103; 1103; 1103; 0; 0; 0; 1103; 0;
    1103; 0; 0; 0; 1103; 1103; 1103; 1103; 1103; 1103; 1307; 1307; 1307; 1307; 1307; 1307; 1307;
    1316; 1316; 1316; 1316; 1316; 1316; 1316; 1318; 0; 1103; 1106; 1106; 1106; 1106; 1106; 1106;
    1106; 1106; 1106; 0; 1319; 1318; 1106; 0; 1106; 0; 0; 0; 1106; 1106; 1106; 1106; 1106; 1106;
    1319; 1325; 1325; 1325; 1325; 1325; 1325; 1325; 0; 0; 0; 0; 0; 1318; 1327; 0; 1106; 1109; 1109;
    1109; 1109; 1109; 1109; 1109; 1109; 1109; 1319; 1328; 1327; 1109; 0; 1109; 0; 0; 0; 1109; 1109;
    1109; 1109; 1109; 1109; 1328; 1333; 1333; 1333; 1333; 1333; 1333; 1333; 0; 0; 0; 0; 0; 1327;
    1352; 0; 1109; 1114; 1114; 1114; 1114; 1114; 1114; 1114; 1114; 1114; 1328; 0; 1352; 1114; 0; 0;
    0; 0; 0; 1114; 1114; 1114; 1114; 1114; 1114; 1121; 1121; 1121; 1121; 1121; 1121; 1121; 1121;
    1121; 0; 0; 0; 1121; 1352; 0; 0; 0; 0; 1121; 1121; 1121; 1121; 1121; 1121; 1131; 1131; 1131;
    1131; 1131; 1131; 1131; 1131; 1131; 0; 0; 0; 1131; 0; 0; 0; 0; 0; 1131; 1131; 1131; 1131; 1131;
    1131; 1144; 1144; 1144; 1144; 1144; 1144; 1144; 1144; 1144; 0; 0; 0; 1144; 0; 0; 0; 0; 0; 1144;
    1144; 1144; 1144; 1144; 1144; 1158; 1158; 1158; 1158; 1158; 1158; 1158; 1158; 1158; 0; 0; 0;
    1158; 0; 0; 0; 0; 0; 1158; 1158; 1158].
Definition yy_chk_5 : list Z :=
  [1158; 1158; 1158; 1172; 1172; 1172; 1172; 1172; 1172; 1172; 1172; 1172; 0; 0; 0; 1172; 0; 0; 0;
    0; 0; 1172; 1172; 1172; 1172; 1172; 1172; 1184; 1184; 1184; 1184; 1184; 1184; 1184; 1184; 1184;
    0; 0; 0; 1184; 0; 0; 0; 0; 0; 1184; 1184; 1184; 1184; 1184; 1184; 1196; 1196; 1196; 1196; 1196;
    1196; 1196; 1196; 1196; 0; 0; 0; 1196; 0; 1196; 0; 0; 1353; 1196; 1196; 1196; 1196; 1196; 1196;
    1335; 1335; 1335; 1335; 1335; 1335; 1335; 1353; 1358; 1358; 1358; 1358; 1358; 1358; 1358; 0;
    1196; 1200; 1200; 1200; 1200; 1200; 1200; 1200; 1200; 1200; 0; 0; 0; 1200; 0; 0; 0; 1353; 0;
    1200; 1200; 1200; 1200; 1200; 1200; 1203; 1203; 1203; 1203; 1203; 1203; 1203; 1203; 1203; 0; 0;
    0; 1203; 0; 0; 0; 0; 0; 1203; 1203; 1203; 1203; 1203; 1203; 1206; 1206; 1206; 1206; 1206; 1206;
    1206; 1206; 1206; 0; 0; 0; 1206; 0; 0; 0; 0; 0; 1206; 1206; 1206; 1206; 1206; 1206; 1209; 1209;
    1209; 1209; 1209; 1209; 1209; 1209; 1209; 0; 0; 0; 1209; 0; 0; 0; 0; 0; 1209; 1209; 1209; 1209;
    1209; 1209; 1212; 1212; 1212; 1212; 1212; 1212; 1212; 1212; 1212; 0; 0; 0; 1212; 0; 0; 0; 0; 0;
    1212; 1212; 1212; 1212; 1212; 1212; 1217; 1217; 1217; 1217; 1217; 1217; 1217; 1217; 1217; 0; 0;
    0; 1217; 0; 0; 0; 0; 0; 1217; 1217; 1217; 1217; 1217; 1217; 1269; 1269; 1269; 1269; 1269; 1269;
    1269; 1269; 1269; 0; 0; 0; 1269; 0; 0; 0; 0; 0; 1269; 1269; 1269; 1269; 1269; 1269; 1277; 1277;
    1277; 1277; 1277; 1277; 1277; 1277; 1277; 0; 0; 0; 1277; 0; 0; 0; 0; 0; 1277; 1277; 1277; 1277;
    1277; 1277; 1362; 1362; 1362; 1362; 1362; 1362; 1362; 1366; 1366; 1366; 1366; 1366; 1366; 1366;
    1370; 1370; 1370; 1370; 1370; 1370; 1370; 1374; 1374; 1374; 1374; 1374; 1374; 1374; 1379; 1379;
    1379; 1379; 1379; 1379; 1379; 1381; 1382; 1390; 1390; 1390; 1390; 1390; 1390; 1390; 0; 0; 0; 0;
    0; 1381; 1382; 1393; 1393; 1393; 1393; 1393; 1393; 1393; 1397; 1397; 1397; 1397; 1397; 1397;
    1397; 1401; 1401; 1401; 1401; 1401; 1401; 1401; 0; 0; 0; 1381; 1382; 1405; 1405; 1405; 1405;
    1405; 1405; 1405; 1409; 1409; 1409; 1409; 1409; 1409; 1409; 1412; 1412; 1412; 1412; 1412; 1412;
    1412; 1417; 1417; 1417; 1417; 1417; 1417; 1417; 1426; 1426; 1426; 1426; 1426; 1426; 1426; 1438;
    0; 0; 0; 0; 1438; 1438; 1438; 1439; 0; 1439; 1439; 1439; 1439; 1439; 1439; 1439; 1440; 0; 1440;
    1441; 1441; 1441; 1442; 1442; 1442; 1443; 1443; 1443; 1444; 1444; 1444; 1445; 1445; 1445; 1446;
    1446; 1446; 1447; 1447; 1447; 1448; 1448; 1448; 1449; 1449; 1449; 1450; 0; 1450; 1451; 1451;
    1451; 1452; 1452; 1452; 1453; 1453; 1453; 1454; 1454; 1454; 1455; 0; 1455; 1456; 1456; 1456;
    1457; 1457; 0; 0; 1457; 1458; 1458; 1458; 1459; 1459; 1459; 1460; 1460; 1460; 1461; 1461; 1461;
    1462; 1462; 1462; 1463; 1463; 1463; 1464; 1464; 1464; 1465; 1465; 1465; 1466; 1466; 1466; 1467;
    1467; 0; 0; 1467; 1468; 1468; 1468; 1469; 1469; 1469; 1470; 0; 1470; 1471; 1471; 1471; 1472;
    1472; 1472; 1473; 0; 1473; 1474; 1474; 1474; 1475; 1475; 1475; 1476; 1476; 1476; 1477; 1477;
    1477; 1478; 1478; 1478; 1479; 0; 1479; 1480; 0; 1480; 1481; 1481; 1481; 1482; 1482; 1482; 1483;
    0; 1483; 1484; 1484; 0; 0; 1484; 1485; 1485; 0; 0; 1485; 1486; 1486; 1486; 1487; 1487; 1487;
    1488; 1488; 0; 1488; 1489; 1489; 1489; 1490; 1490; 1490; 1491; 1491; 1491; 1492; 1492; 1492;
    1493; 1493; 1493; 1494; 1494; 1494; 1495; 1495; 1495; 1496; 1496; 0; 0; 1496; 1497; 1497; 1497;
    1498; 1498; 1498; 1499; 1499; 0; 1499; 1500; 1500; 0; 0; 1500; 1501; 1501; 0; 1501; 1502; 1502;
    1503; 1503; 0; 0; 1503; 1504; 1504; 1504; 1505; 1505; 1505; 1506; 1506; 0; 1506; 1507; 0; 1507;
    1508; 0; 1508; 1509; 1509; 1509; 1510; 1510; 1510; 1511; 0; 1511; 1512; 1512; 1512; 1513; 1513;
    1513; 1514; 1514; 1514; 1515; 1515; 1515; 1516; 1516; 1516; 1517; 1517; 1517; 1518; 0; 1518;
    1519; 0; 1519; 1520; 1520; 1520; 1521; 1521; 1521; 1522; 0; 1522; 1523; 0; 1523; 1524; 0; 1524;
    1525; 1525; 1525; 1526; 1526; 1526; 1527; 0; 1527; 1528; 0; 0; 1528; 1529; 1529; 0; 1529; 1530;
    1530; 0; 0; 1530; 1531; 1531; 0; 1531; 1532; 1532; 1533; 1533; 0; 0; 1533; 1534; 1534; 1534;
    1535; 1535; 1535; 1536; 1536; 0; 1536; 1537; 1537; 1537; 0; 1537; 1537; 1538; 1538; 1538; 1539;
    1539; 1539; 1540; 1540; 1540; 1541; 1541; 1541; 1542; 1542; 1542; 1543; 1543; 1543; 1544; 1544;
    1544; 1545; 1545; 1545; 1546; 1546; 0; 0; 1546; 1547; 1547; 1547; 1548; 1548; 1548; 1549; 1549;
    0; 1549; 1550; 1550; 0; 0; 1550; 1551; 1551; 0; 1551; 1552; 1552; 1553; 1553; 0; 0; 1553; 1554;
    1554; 1554; 1555; 1555; 1555; 1556; 1556; 0; 1556; 1557; 0; 0; 1557; 1558; 1558; 0; 1558; 1559;
    1559; 0; 0; 1559; 1560; 1560; 0; 1560; 1561; 1561; 1562; 1562; 0; 0; 1562; 1563; 1563; 1563;
    1564; 1564; 1564; 1565; 1565; 0; 1565; 1566; 0; 1566; 1567; 0; 1567; 1568; 0; 1568; 1569; 1569;
    1569; 1570; 1570; 1570; 1571; 0; 1571; 1572; 1572; 1572; 0; 1572; 1572; 1573; 1573; 1573; 1574;
    1574; 1574; 1575; 1575; 1575; 1576; 1576; 1576; 1577; 1577; 1577; 1578; 1578; 1578; 1579; 1579;
    1579; 1580; 0; 1580; 1581; 0; 1581; 1582; 1582; 1582; 1583; 1583; 1583; 1584; 0; 1584; 1585; 0;
    1585; 1586; 0; 1586; 1587; 1587; 1587; 1588; 1588; 1588; 1589; 0; 1589; 1590; 0; 1590; 1591; 0;
    1591; 1592; 0; 1592; 1593; 1593; 1593; 1594; 1594; 1594; 1595; 0; 1595; 1596; 0; 1596; 1597; 0;
    0; 1597; 1598; 1598; 0; 1598; 1599; 1599; 0; 0; 1599; 1600; 1600; 0; 1600; 1601; 1601; 1602;
    1602; 0; 0; 1602; 1603; 1603; 1603; 1604; 1604; 1604; 1605; 1605; 0; 1605; 1606; 1606; 1606; 0;
    1606; 1606; 1607; 1607; 1607; 1608; 1608; 1608; 1609; 1609; 1609; 1610; 1610; 1610; 1611; 1611;
    1611; 1612; 1612; 1612; 1613; 1613; 1613; 1614; 1614; 1614; 1615; 1615; 0; 0; 1615; 1616; 1616;
    1616; 1617; 1617; 1617; 1618; 1618; 0; 1618; 1619; 1619; 0; 0; 1619; 1620; 1620; 0; 1620; 1621;
    1621; 1622; 1622; 0; 0; 1622; 1623; 1623; 1623; 1624; 1624; 1624; 1625; 1625; 0; 1625; 1626; 0;
    0; 1626; 1627; 1627; 0; 1627; 1628; 1628; 0; 0; 1628; 1629; 1629; 0; 1629; 1630; 1630; 1631;
    1631; 0; 0; 1631; 1632; 1632; 1632; 1633; 1633; 1633; 1634; 1634; 0; 1634; 1635; 0; 1635; 1636;
    0; 0; 1636; 1637; 1637; 0; 1637; 1638; 1638; 0; 0; 1638; 1639; 1639; 0; 1639; 1640; 1640; 1641;
    1641; 0; 0; 1641; 1642; 1642; 1642; 1643; 1643; 1643; 1644; 1644; 0; 1644; 1645; 0; 1645; 1646;
    0; 1646; 1647; 0; 1647; 1648; 1648; 1648; 1649; 1649; 1649; 1650; 0; 1650; 1651; 1651; 1651; 0;
    1651; 1651; 1652; 1652; 1652; 1653; 1653; 1653; 1654; 1654; 1654; 1655; 1655; 1655; 1656; 1656;
    1656; 1657; 1657; 1657; 1658; 1658; 1658; 1659; 1659; 1659; 1660; 1660; 1660; 1661; 1661; 1661;
    1662; 0; 1662; 1663; 0; 1663; 1664; 1664; 1664; 1665; 1665; 1665; 1666; 1666; 1666; 1667; 0;
    1667; 1668; 0; 1668; 1669; 0; 1669; 1670; 1670; 1670; 1671; 1671; 1671; 1672; 1672; 1672; 1673;
    0; 1673; 1674; 0; 1674; 1675; 0; 1675; 1676; 0; 1676; 1677; 1677; 1677; 1678; 1678; 1678; 1679;
    1679; 1679; 1680; 0; 1680; 1681; 0; 1681; 1682; 0; 1682; 1683; 0; 1683; 1684; 1684; 1684; 1685;
    1685; 1685; 1686; 1686; 1686; 1687; 0; 1687; 1688; 0; 1688; 1689; 0; 0; 1689; 1690; 1690; 0;
    1690; 1691; 1691; 0; 0; 1691; 1692; 1692; 0; 1692; 1693; 1693; 1694; 1694; 0; 0; 1694; 1695;
    1695; 1695; 1696; 1696; 1696; 1697; 1697; 0; 1697; 1698; 1698; 1698; 0; 1698; 1698; 1699; 1699;
    1699; 1700; 1700; 1700; 1701; 1701; 1701; 1702; 1702; 1702; 1703; 1703; 1703; 1704; 1704; 1704;
    1705; 1705; 1705; 1706; 1706; 1706; 1707; 0; 1707; 1708; 1708; 1708; 1709; 1709; 0; 0; 1709;
    1710; 1710; 1710; 1711; 1711; 1711; 1712; 1712; 0; 1712; 1713; 1713; 0; 0; 1713; 1714; 1714; 0;
    1714; 1715; 1715; 1716; 1716; 0; 0; 1716; 1717; 1717; 1717; 1718; 1718; 1718; 1719; 1719; 0;
    1719; 1720; 0; 0; 1720; 1721; 1721; 0; 1721; 1722].
Definition yy_chk_6 : list Z :=
  [1722; 0; 0; 1722; 1723; 1723; 0; 1723; 1724; 1724; 1725; 1725; 0; 0; 1725; 1726; 1726; 1726;
    1727; 1727; 1727; 1728; 1728; 0; 1728; 1729; 0; 1729; 1730; 0; 0; 1730; 1731; 1731; 0; 1731;
    1732; 1732; 0; 0; 1732; 1733; 1733; 0; 1733; 1734; 1734; 1735; 1735; 0; 0; 1735; 1736; 1736;
    1736; 1737; 1737; 1737; 1738; 1738; 0; 1738; 1739; 0; 1739; 1740; 0; 0; 1740; 1741; 1741; 0;
    1741; 1742; 1742; 0; 0; 1742; 1743; 1743; 0; 1743; 1744; 1744; 1745; 1745; 0; 0; 1745; 1746;
    1746; 1746; 1747; 1747; 1747; 1748; 1748; 0; 1748; 1749; 0; 1749; 1750; 0; 1750; 1751; 0; 1751;
    1752; 1752; 1752; 1753; 0; 1753; 1754; 1754; 1754; 1755; 0; 1755; 1756; 1756; 1756; 0; 1756;
    1756; 1757; 0; 1757; 1758; 1758; 1758; 1759; 0; 1759; 1760; 1760; 1760; 1761; 0; 1761; 1762;
    1762; 1762; 1763; 0; 1763; 1764; 1764; 1764; 1765; 0; 1765; 1766; 1766; 1766; 1767; 0; 1767;
    1768; 1768; 1768; 1769; 1769; 0; 0; 1769; 1770; 1770; 1770; 1771; 1771; 1771; 1772; 1772; 1772;
    1773; 1773; 0; 1773; 1774; 1774; 1774; 1775; 0; 1775; 1776; 1776; 1776; 1777; 1777; 1777; 1778;
    0; 1778; 1779; 0; 1779; 1780; 1780; 1780; 1781; 1781; 1781; 1782; 0; 1782; 1783; 0; 1783; 1784;
    0; 1784; 1785; 1785; 1785; 1786; 1786; 1786; 1787; 0; 1787; 1788; 0; 1788; 1789; 0; 1789; 1790;
    1790; 1790; 1791; 1791; 1791; 1792; 0; 1792; 1793; 0; 1793; 1794; 0; 1794; 1795; 1795; 1795;
    1796; 1796; 1796; 1797; 0; 1797; 1798; 0; 0; 1798; 1799; 1799; 0; 1799; 1800; 1800; 0; 0; 1800;
    1801; 1801; 0; 1801; 1802; 1802; 1803; 1803; 0; 0; 1803; 1804; 1804; 1804; 1805; 0; 1805; 1806;
    1806; 0; 1806; 1807; 1807; 1807; 0; 1807; 1807; 1808; 1808; 1808; 1809; 1809; 1809; 1810; 0;
    1810; 1811; 0; 1811; 1812; 0; 1812; 1813; 0; 1813; 1814; 0; 1814; 1815; 0; 1815; 1816; 0; 1816;
    1817; 1817; 1817; 1818; 1818; 1818; 1819; 0; 1819; 1820; 1820; 0; 0; 1820; 1821; 1821; 0; 1821;
    1822; 1822; 1823; 0; 1823; 1824; 0; 0; 1824; 1825; 1825; 0; 1825; 1826; 1826; 0; 0; 1826; 1827;
    1827; 0; 1827; 1828; 1828; 1829; 0; 1829; 1830; 0; 1830; 1831; 0; 0; 1831; 1832; 1832; 0; 1832;
    1833; 1833; 0; 0; 1833; 1834; 1834; 0; 1834; 1835; 1835; 1836; 0; 1836; 1837; 0; 1837; 1838; 0;
    0; 1838; 1839; 1839; 0; 1839; 1840; 1840; 0; 0; 1840; 1841; 1841; 0; 1841; 1842; 1842; 1843; 0;
    1843; 1844; 0; 1844; 1845; 0; 0; 1845; 1846; 1846; 0; 1846; 1847; 1847; 0; 0; 1847; 1848; 1848;
    0; 1848; 1849; 1849; 1850; 0; 1850; 1851; 0; 1851; 1852; 0; 1852; 1853; 0; 1853; 1854; 1854;
    1854; 1855; 0; 1855; 1856; 1856; 1856; 0; 1856; 1856; 1857; 0; 1857; 1858; 0; 1858; 1859; 0;
    1859; 1860; 0; 1860; 1861; 0; 1861; 1862; 0; 1862; 1863; 0; 1863; 1864; 1864; 0; 0; 1864; 1865;
    1865; 0; 1865; 1866; 1866; 1867; 0; 1867; 1868; 0; 1868; 1869; 0; 1869; 1870; 0; 1870; 1871; 0;
    1871; 1872; 0; 1872; 1873; 0; 1873; 1874; 0; 1874; 1875; 0; 1875; 1876; 0; 1876; 1877; 0; 0;
    1877; 1878; 1878; 0; 0; 1878; 1879; 0; 1879; 1880; 0; 1880; 1881; 0; 1881; 1882; 0; 0; 1882;
    1883; 0; 0; 1883; 1884; 0; 0; 1884; 1885; 0; 0; 1885; 1886; 0; 0; 1886; 1887; 0; 1887; 1888; 0;
    1888; 1889; 0; 0; 1889; 1890; 0; 1890; 1891; 0; 1891; 1892; 0; 1892; 1893; 0; 1893; 1894; 0;
    1894; 1895; 0; 0; 1895; 1896; 0; 1896; 1897; 0; 1897; 1437; 1437; 1437; 1437; 1437; 1437; 1437;
    1437; 1437; 1437; 1437; 1437; 1437; 1437; 1437; 1437; 1437; 1437; 1437; 1437; 1437; 1437; 1437;
    1437; 1437; 1437; 1437; 1437; 1437; 1437; 1437; 1437; 1437; 1437; 1437; 1437; 1437; 1437; 1437;
    1437; 1437; 1437; 1437; 1437; 1437; 1437; 1437; 1437; 1437; 1437; 1437; 1437; 1437; 1437].
Definition yy_chk : table := [yy_chk_1; yy_chk_2; yy_chk_3; yy_chk_4; yy_chk_5; yy_chk_6].
