(* ===== verification/GrammarTab.v ===== *)
(** [grammar.c]: the numbers of the tokens and the tables of the parser that
    bison has generated, as the file has them. *)
From S2P Require Import Prelude.

(** ** Tokens *)

Definition DST := 258.
Definition SRC := 259.
Definition HOST := 260.
Definition GATEWAY := 261.
Definition NET := 262.
Definition NETMASK := 263.
Definition PORT := 264.
Definition PORTRANGE := 265.
Definition LESS := 266.
Definition GREATER := 267.
Definition PROTO := 268.
Definition PROTOCHAIN := 269.
Definition CBYTE := 270.
Definition ARP := 271.
Definition RARP := 272.
Definition IP := 273.
Definition SCTP := 274.
Definition TCP := 275.
Definition UDP := 276.
Definition ICMP := 277.
Definition IGMP := 278.
Definition IGRP := 279.
Definition PIM := 280.
Definition VRRP := 281.
Definition CARP := 282.
Definition ATALK := 283.
Definition AARP := 284.
Definition DECNET := 285.
Definition LAT := 286.
Definition SCA := 287.
Definition MOPRC := 288.
Definition MOPDL := 289.
Definition TK_BROADCAST := 290.
Definition TK_MULTICAST := 291.
Definition NUM := 292.
Definition INBOUND := 293.
Definition OUTBOUND := 294.
Definition PF_IFNAME := 295.
Definition PF_RSET := 296.
Definition PF_RNR := 297.
Definition PF_SRNR := 298.
Definition PF_REASON := 299.
Definition PF_ACTION := 300.
Definition TYPE := 301.
Definition SUBTYPE := 302.
Definition DIR := 303.
Definition ADDR1 := 304.
Definition ADDR2 := 305.
Definition ADDR3 := 306.
Definition ADDR4 := 307.
Definition RA := 308.
Definition TA := 309.
Definition LINK := 310.
Definition GEQ := 311.
Definition LEQ := 312.
Definition NEQ := 313.
Definition ID := 314.
Definition EID := 315.
Definition HID := 316.
Definition HID6 := 317.
Definition AID := 318.
Definition LSH := 319.
Definition RSH := 320.
Definition LEN := 321.
Definition IPV6 := 322.
Definition ICMPV6 := 323.
Definition AH := 324.
Definition ESP := 325.
Definition VLAN := 326.
Definition MPLS := 327.
Definition PPPOED := 328.
Definition PPPOES := 329.
Definition ISO := 330.
Definition ESIS := 331.
Definition CLNP := 332.
Definition ISIS := 333.
Definition L1 := 334.
Definition L2 := 335.
Definition IIH := 336.
Definition LSP := 337.
Definition SNP := 338.
Definition CSNP := 339.
Definition PSNP := 340.
Definition STP := 341.
Definition IPX := 342.
Definition NETBEUI := 343.
Definition LANE := 344.
Definition LLC := 345.
Definition METAC := 346.
Definition BCC := 347.
Definition SC := 348.
Definition ILMIC := 349.
Definition OAMF4EC := 350.
Definition OAMF4SC := 351.
Definition OAM := 352.
Definition OAMF4 := 353.
Definition CONNECTMSG := 354.
Definition METACONNECT := 355.
Definition VPI := 356.
Definition VCI := 357.
Definition RADIO := 358.
Definition FISU := 359.
Definition LSSU := 360.
Definition MSU := 361.
Definition SIO := 362.
Definition OPC := 363.
Definition DPC := 364.
Definition SLS := 365.
Definition AND := 366.
Definition OR := 367.
Definition UMINUS := 368.

(** ** Tables *)

Definition YYFINAL := 3.
Definition YYLAST := 700.
Definition YYNTOKENS := 129.
Definition YYUNDEFTOK := 2.
Definition YYMAXUTOK := 368.
Definition YYPACT_NINF := -193.
Definition YYTABLE_NINF := -42.

Definition yytranslate : list Z :=
  [0; 2; 2; 2; 2; 2; 2; 2; 2; 2; 2; 2; 2; 2; 2; 2; 2; 2; 2; 2; 2; 2; 2; 2; 2; 2; 2; 2; 2; 2; 2; 2;
    2; 113; 2; 2; 2; 2; 115; 2; 122; 121; 118; 116; 2; 117; 2; 119; 2; 2; 2; 2; 2; 2; 2; 2; 2; 2;
    128; 2; 125; 124; 123; 2; 2; 2; 2; 2; 2; 2; 2; 2; 2; 2; 2; 2; 2; 2; 2; 2; 2; 2; 2; 2; 2; 2; 2;
    2; 2; 2; 2; 126; 2; 127; 2; 2; 2; 2; 2; 2; 2; 2; 2; 2; 2; 2; 2; 2; 2; 2; 2; 2; 2; 2; 2; 2; 2; 2;
    2; 2; 2; 2; 2; 2; 114; 2; 2; 2; 2; 2; 2; 2; 2; 2; 2; 2; 2; 2; 2; 2; 2; 2; 2; 2; 2; 2; 2; 2; 2;
    2; 2; 2; 2; 2; 2; 2; 2; 2; 2; 2; 2; 2; 2; 2; 2; 2; 2; 2; 2; 2; 2; 2; 2; 2; 2; 2; 2; 2; 2; 2; 2;
    2; 2; 2; 2; 2; 2; 2; 2; 2; 2; 2; 2; 2; 2; 2; 2; 2; 2; 2; 2; 2; 2; 2; 2; 2; 2; 2; 2; 2; 2; 2; 2;
    2; 2; 2; 2; 2; 2; 2; 2; 2; 2; 2; 2; 2; 2; 2; 2; 2; 2; 2; 2; 2; 2; 2; 2; 2; 2; 2; 2; 2; 2; 2; 2;
    2; 2; 2; 2; 2; 2; 2; 2; 2; 2; 2; 1; 2; 3; 4; 5; 6; 7; 8; 9; 10; 11; 12; 13; 14; 15; 16; 17; 18;
    19; 20; 21; 22; 23; 24; 25; 26; 27; 28; 29; 30; 31; 32; 33; 34; 35; 36; 37; 38; 39; 40; 41; 42;
    43; 44; 45; 46; 47; 48; 49; 50; 51; 52; 53; 54; 55; 56; 57; 58; 59; 60; 61; 62; 63; 64; 65; 66;
    67; 68; 69; 70; 71; 72; 73; 74; 75; 76; 77; 78; 79; 80; 81; 82; 83; 84; 85; 86; 87; 88; 89; 90;
    91; 92; 93; 94; 95; 96; 97; 98; 99; 100; 101; 102; 103; 104; 105; 106; 107; 108; 109; 110; 111;
    112; 120].

Definition yyr1 : list Z :=
  [0; 129; 130; 130; 131; 132; 132; 132; 132; 132; 133; 134; 135; 135; 135; 136; 136; 136; 136; 136;
    136; 136; 136; 136; 137; 138; 139; 139; 139; 140; 140; 141; 141; 142; 142; 142; 142; 142; 142;
    143; 143; 143; 143; 143; 143; 143; 143; 143; 143; 143; 144; 144; 145; 145; 145; 145; 145; 145;
    145; 145; 145; 145; 145; 145; 146; 146; 146; 146; 147; 148; 148; 148; 148; 148; 148; 148; 148;
    148; 148; 148; 148; 148; 148; 148; 148; 148; 148; 148; 148; 148; 148; 148; 148; 148; 148; 148;
    148; 148; 148; 148; 148; 148; 148; 148; 148; 148; 148; 148; 149; 149; 149; 149; 149; 149; 149;
    149; 149; 149; 149; 149; 149; 149; 149; 150; 150; 150; 150; 150; 150; 151; 151; 151; 151; 152;
    152; 153; 153; 154; 155; 155; 156; 156; 157; 158; 158; 158; 159; 159; 159; 160; 160; 161; 161;
    161; 161; 161; 161; 161; 161; 161; 161; 161; 161; 161; 162; 162; 162; 162; 162; 163; 163; 164;
    164; 164; 164; 164; 164; 164; 164; 165; 165; 165; 165; 166; 166; 167; 167; 167; 167; 168; 169;
    169; 170; 170; 170; 171; 171; 171; 171; 172; 172; 172; 172; 173; 174; 174].

Definition yyr2 : list Z :=
  [0; 2; 2; 1; 0; 1; 3; 3; 3; 3; 1; 1; 1; 1; 3; 1; 3; 3; 1; 3; 1; 1; 1; 2; 1; 1; 1; 3; 3; 1; 1; 1;
    2; 3; 2; 2; 2; 2; 2; 2; 3; 1; 3; 3; 1; 1; 1; 2; 1; 2; 1; 0; 1; 1; 3; 3; 3; 3; 1; 1; 1; 1; 1; 1;
    1; 1; 1; 1; 1; 1; 1; 1; 1; 1; 1; 1; 1; 1; 1; 1; 1; 1; 1; 1; 1; 1; 1; 1; 1; 1; 1; 1; 1; 1; 1; 1;
    1; 1; 1; 1; 1; 1; 1; 1; 1; 1; 1; 1; 2; 2; 2; 2; 4; 1; 1; 2; 1; 2; 1; 1; 1; 1; 2; 2; 2; 2; 2; 2;
    2; 4; 2; 2; 2; 1; 1; 1; 1; 1; 1; 1; 1; 1; 1; 1; 1; 1; 1; 1; 1; 1; 1; 4; 6; 3; 3; 3; 3; 3; 3; 3;
    3; 2; 3; 1; 1; 1; 1; 1; 1; 1; 3; 1; 1; 1; 1; 1; 1; 1; 1; 1; 1; 1; 1; 1; 1; 1; 2; 2; 3; 1; 1; 3;
    1; 1; 1; 1; 1; 1; 1; 1; 2; 2; 3; 1; 1; 3].

Definition yydefact : list Z :=
  [4; 0; 51; 1; 0; 0; 0; 71; 72; 70; 73; 74; 75; 76; 77; 78; 79; 80; 81; 82; 83; 84; 85; 86; 88; 87;
    169; 113; 114; 0; 0; 0; 0; 0; 0; 69; 163; 89; 90; 91; 92; 116; 118; 119; 120; 93; 94; 103; 95;
    96; 97; 98; 99; 100; 102; 101; 104; 105; 106; 171; 172; 173; 174; 177; 178; 175; 176; 179; 180;
    181; 182; 183; 184; 107; 192; 193; 194; 195; 196; 197; 198; 24; 0; 25; 2; 51; 51; 5; 0; 31; 0;
    50; 44; 121; 0; 150; 149; 45; 46; 0; 48; 0; 110; 111; 0; 123; 124; 125; 126; 140; 141; 127; 142;
    128; 0; 115; 117; 0; 0; 161; 10; 11; 51; 51; 32; 0; 150; 149; 15; 21; 18; 20; 22; 39; 12; 0; 0;
    13; 53; 52; 64; 68; 65; 66; 67; 36; 37; 108; 109; 0; 0; 0; 58; 59; 60; 61; 62; 63; 34; 35; 38;
    122; 0; 144; 146; 148; 0; 0; 0; 0; 0; 0; 0; 0; 143; 145; 147; 0; 0; 189; 0; 0; 0; 47; 185; 203;
    0; 0; 0; 49; 199; 165; 164; 167; 168; 166; 0; 0; 0; 7; 51; 51; 6; 149; 9; 8; 40; 162; 170; 0; 0;
    0; 23; 26; 30; 0; 29; 0; 0; 0; 0; 133; 134; 130; 137; 131; 138; 139; 132; 33; 0; 159; 160; 158;
    157; 153; 154; 155; 156; 42; 43; 190; 0; 186; 187; 204; 0; 200; 201; 112; 149; 17; 16; 19; 14;
    0; 0; 57; 55; 56; 54; 0; 151; 0; 188; 0; 202; 0; 27; 28; 135; 136; 129; 0; 191; 205; 152].

Definition yydefgoto : list Z :=
  [-1; 1; 2; 125; 122; 123; 212; 134; 135; 117; 214; 215; 87; 88; 89; 90; 158; 159; 160; 118; 92;
    93; 161; 223; 272; 225; 228; 111; 113; 177; 178; 94; 95; 196; 96; 97; 98; 99; 183; 184; 242;
    100; 101; 189; 190; 246].

Definition yypact : list Z :=
  [-193; 25; 218; -193; -6; 15; 44; -193; -193; -193; -193; -193; -193; -193; -193; -193; -193;
    -193; -193; -193; -193; -193; -193; -193; -193; -193; -193; -193; -193; 18; 37; 74; 76; -22; 59;
    -193; -193; -193; -193; -193; -193; -20; -20; -193; -193; -193; -193; -193; -193; -193; -193;
    -193; -193; -193; -193; -193; -193; -193; -193; -193; -193; -193; -193; -193; -193; -193; -193;
    -193; -193; -193; -193; -193; -193; -193; -193; -193; -193; -193; -193; -193; -193; -193; 541;
    -193; -55; 434; 434; -193; -15; -193; 646; 11; -193; -193; 523; -193; -193; -193; -193; 48;
    -193; 52; -193; -193; -95; -193; -193; -193; -193; -193; -193; -193; -193; -193; -20; -193;
    -193; 541; -1; -193; -193; -193; 326; 326; -193; -53; 17; 28; -193; -193; -3; 34; -193; -193;
    -193; -15; -15; -193; -39; 36; -193; -193; -193; -193; -193; -193; -193; -193; -193; -21; 77;
    -16; -193; -193; -193; -193; -193; -193; 147; -193; -193; -193; 541; -193; -193; -193; 541; 541;
    541; 541; 541; 541; 541; 541; -193; -193; -193; 541; 541; -193; 118; 125; 126; -193; -193; -193;
    127; 130; 149; -193; -193; -193; -193; -193; -193; -193; 150; 28; 96; -193; 326; 326; -193; 3;
    -193; -193; -193; -193; -193; 128; 151; 153; -193; -193; 70; -55; 28; 188; 189; 191; 192; -193;
    -193; 154; -193; -193; -193; -193; -193; -193; -52; 66; 66; 152; 62; 40; 40; -193; -193; 96; 96;
    -193; -43; -193; -193; -193; -41; -193; -193; -193; -51; -193; -193; -193; -193; -15; -15; -193;
    -193; -193; -193; -10; -193; 159; -193; 118; -193; 127; -193; -193; -193; -193; -193; 73; -193;
    -193; -193].

Definition yypgoto : list Z :=
  [-193; -193; -193; 195; -13; -192; -87; -127; 6; -2; -193; -193; -81; -193; -193; -193; -193; 45;
    -193; 8; -193; -193; -193; -193; -193; -193; -193; -193; -193; -75; -67; -27; -84; -193; -35;
    -193; -193; -193; -193; -162; -193; -193; -193; -193; -172; -193].

Definition yytable : list Z :=
  [86; 133; 126; -13; 124; 209; 115; 116; 85; 213; 91; -41; 166; 167; 245; 109; 221; 26; 241; 191;
    192; 226; 26; 256; 181; 3; 187; 270; 193; 194; 195; 102; 182; 126; 188; 199; 204; 110; 222; 114;
    114; 202; 205; 227; 128; 129; 130; 131; 132; 271; 265; 127; 103; 137; 267; 119; 120; 121; 120;
    121; -29; -29; 168; 169; 170; 171; 172; 173; 206; 121; 208; 121; 217; 218; 213; 262; 263; 105;
    264; 197; 266; 104; 127; 86; 86; 179; 136; 203; 203; 185; 198; 85; 85; 91; 91; 275; 106; 180;
    81; 186; 137; 216; 83; 274; 163; 164; 165; 83; 163; 164; 165; 107; 114; 108; -13; -13; 210; 126;
    112; 124; 201; 201; -41; -41; -13; 162; 166; 167; 200; 200; 91; 91; -41; 136; 114; 230; 224;
    162; 207; 231; 232; 233; 234; 235; 236; 237; 238; 219; 220; 208; 239; 240; 140; 211; 142; 179;
    143; 144; 172; 173; 166; 167; 243; 244; 185; 203; 250; 247; 268; 269; 83; 174; 175; 176; 83;
    174; 175; 176; 170; 171; 172; 173; 170; 171; 172; 173; 248; 249; 252; 251; 253; 254; 257; 258;
    259; 260; 273; 84; 201; 86; 276; 261; 255; 229; 0; 0; 200; 200; 91; 91; 168; 169; 170; 171; 172;
    173; 166; 167; -3; 0; 137; 137; 0; 0; 0; 0; 0; 0; 0; 4; 5; 0; 0; 6; 7; 8; 9; 10; 11; 12; 13; 14;
    15; 16; 17; 18; 19; 20; 21; 22; 23; 24; 25; 136; 136; 26; 27; 28; 29; 30; 31; 32; 33; 34; 0; 0;
    0; 169; 170; 171; 172; 173; 0; 35; 0; 0; 0; 0; 0; 0; 0; 0; 0; 0; 36; 37; 38; 39; 40; 41; 42; 43;
    44; 45; 46; 47; 48; 49; 50; 51; 52; 53; 54; 55; 56; 57; 58; 59; 60; 61; 62; 63; 64; 65; 66; 67;
    68; 69; 70; 71; 72; 73; 74; 75; 76; 77; 78; 79; 80; 0; 0; 81; 0; 0; 0; 82; 0; 4; 5; 0; 83; 6; 7;
    8; 9; 10; 11; 12; 13; 14; 15; 16; 17; 18; 19; 20; 21; 22; 23; 24; 25; 0; 0; 26; 27; 28; 29; 30;
    31; 32; 33; 34; 0; 0; 0; 0; 0; 0; 0; 0; 0; 35; 0; 0; 0; 128; 129; 130; 131; 132; 0; 0; 36; 37;
    38; 39; 40; 41; 42; 43; 44; 45; 46; 47; 48; 49; 50; 51; 52; 53; 54; 55; 56; 57; 58; 59; 60; 61;
    62; 63; 64; 65; 66; 67; 68; 69; 70; 71; 72; 73; 74; 75; 76; 77; 78; 79; 80; 0; 0; 81; 0; 0; 0;
    82; 0; 4; 5; 0; 83; 6; 7; 8; 9; 10; 11; 12; 13; 14; 15; 16; 17; 18; 19; 20; 21; 22; 23; 24; 25;
    0; 0; 26; 27; 28; 29; 30; 31; 32; 33; 34; 0; 0; 0; 0; 0; 0; 0; 0; 0; 35; 0; 0; 0; 0; 0; 0; 0; 0;
    0; 0; 36; 37; 38; 39; 40; 41; 42; 43; 44; 45; 46; 47; 48; 49; 50; 51; 52; 53; 54; 55; 56; 57;
    58; 59; 60; 61; 62; 63; 64; 65; 66; 67; 68; 69; 70; 71; 72; 73; 74; 75; 76; 77; 78; 79; 80; 0;
    0; 81; 0; 0; 0; 82; 0; 0; 0; 0; 83; 7; 8; 9; 10; 11; 12; 13; 14; 15; 16; 17; 18; 19; 20; 21; 22;
    23; 24; 25; 0; 0; 26; 163; 164; 165; 0; 0; 0; 0; 0; 166; 167; 0; 0; 0; 0; 0; 0; 0; 35; 0; 0; 0;
    0; 0; 0; 0; 0; 0; 0; 36; 37; 38; 39; 40; 0; 0; 0; 0; 45; 46; 47; 48; 49; 50; 51; 52; 53; 54; 55;
    56; 57; 58; 0; 0; 0; 0; 0; 0; 0; 168; 169; 170; 171; 172; 173; 0; 73; 0; 174; 175; 176; 138;
    139; 140; 141; 142; 0; 143; 144; 0; 82; 145; 146; 0; 0; 83; 0; 0; 0; 0; 0; 0; 0; 0; 0; 0; 0; 0;
    0; 0; 0; 0; 0; 147; 148; 0; 0; 0; 0; 0; 0; 0; 0; 0; 149; 150; 151; 152; 153; 154; 155; 156; 157].

Definition yycheck : list Z :=
  [2; 88; 86; 0; 85; 8; 41; 42; 2; 136; 2; 0; 64; 65; 186; 37; 37; 37; 180; 114; 115; 37; 37; 215;
    99; 0; 101; 37; 123; 124; 125; 37; 99; 117; 101; 122; 123; 59; 59; 41; 42; 122; 123; 59; 59; 60;
    61; 62; 63; 59; 242; 86; 37; 88; 246; 82; 111; 112; 111; 112; 111; 112; 114; 115; 116; 117; 118;
    119; 121; 112; 121; 112; 111; 112; 201; 127; 128; 59; 121; 114; 121; 37; 117; 85; 86; 37; 88;
    122; 123; 37; 117; 85; 86; 85; 86; 267; 59; 99; 113; 101; 135; 136; 122; 265; 56; 57; 58; 122;
    56; 57; 58; 37; 114; 37; 111; 112; 119; 201; 59; 200; 122; 123; 111; 112; 121; 126; 64; 65; 122;
    123; 122; 123; 121; 135; 136; 162; 59; 126; 121; 166; 167; 168; 169; 170; 171; 172; 173; 111;
    112; 121; 177; 178; 5; 119; 7; 37; 9; 10; 118; 119; 64; 65; 37; 37; 37; 200; 201; 37; 255; 256;
    122; 123; 124; 125; 122; 123; 124; 125; 116; 117; 118; 119; 116; 117; 118; 119; 37; 37; 37; 61;
    37; 121; 4; 4; 3; 3; 37; 2; 200; 201; 127; 47; 215; 158; -1; -1; 200; 201; 200; 201; 114; 115;
    116; 117; 118; 119; 64; 65; 0; -1; 255; 256; -1; -1; -1; -1; -1; -1; -1; 11; 12; -1; -1; 15; 16;
    17; 18; 19; 20; 21; 22; 23; 24; 25; 26; 27; 28; 29; 30; 31; 32; 33; 34; 255; 256; 37; 38; 39;
    40; 41; 42; 43; 44; 45; -1; -1; -1; 115; 116; 117; 118; 119; -1; 55; -1; -1; -1; -1; -1; -1; -1;
    -1; -1; -1; 66; 67; 68; 69; 70; 71; 72; 73; 74; 75; 76; 77; 78; 79; 80; 81; 82; 83; 84; 85; 86;
    87; 88; 89; 90; 91; 92; 93; 94; 95; 96; 97; 98; 99; 100; 101; 102; 103; 104; 105; 106; 107; 108;
    109; 110; -1; -1; 113; -1; -1; -1; 117; -1; 11; 12; -1; 122; 15; 16; 17; 18; 19; 20; 21; 22; 23;
    24; 25; 26; 27; 28; 29; 30; 31; 32; 33; 34; -1; -1; 37; 38; 39; 40; 41; 42; 43; 44; 45; -1; -1;
    -1; -1; -1; -1; -1; -1; -1; 55; -1; -1; -1; 59; 60; 61; 62; 63; -1; -1; 66; 67; 68; 69; 70; 71;
    72; 73; 74; 75; 76; 77; 78; 79; 80; 81; 82; 83; 84; 85; 86; 87; 88; 89; 90; 91; 92; 93; 94; 95;
    96; 97; 98; 99; 100; 101; 102; 103; 104; 105; 106; 107; 108; 109; 110; -1; -1; 113; -1; -1; -1;
    117; -1; 11; 12; -1; 122; 15; 16; 17; 18; 19; 20; 21; 22; 23; 24; 25; 26; 27; 28; 29; 30; 31;
    32; 33; 34; -1; -1; 37; 38; 39; 40; 41; 42; 43; 44; 45; -1; -1; -1; -1; -1; -1; -1; -1; -1; 55;
    -1; -1; -1; -1; -1; -1; -1; -1; -1; -1; 66; 67; 68; 69; 70; 71; 72; 73; 74; 75; 76; 77; 78; 79;
    80; 81; 82; 83; 84; 85; 86; 87; 88; 89; 90; 91; 92; 93; 94; 95; 96; 97; 98; 99; 100; 101; 102;
    103; 104; 105; 106; 107; 108; 109; 110; -1; -1; 113; -1; -1; -1; 117; -1; -1; -1; -1; 122; 16;
    17; 18; 19; 20; 21; 22; 23; 24; 25; 26; 27; 28; 29; 30; 31; 32; 33; 34; -1; -1; 37; 56; 57; 58;
    -1; -1; -1; -1; -1; 64; 65; -1; -1; -1; -1; -1; -1; -1; 55; -1; -1; -1; -1; -1; -1; -1; -1; -1;
    -1; 66; 67; 68; 69; 70; -1; -1; -1; -1; 75; 76; 77; 78; 79; 80; 81; 82; 83; 84; 85; 86; 87; 88;
    -1; -1; -1; -1; -1; -1; -1; 114; 115; 116; 117; 118; 119; -1; 103; -1; 123; 124; 125; 3; 4; 5;
    6; 7; -1; 9; 10; -1; 117; 13; 14; -1; -1; 122; -1; -1; -1; -1; -1; -1; -1; -1; -1; -1; -1; -1;
    -1; -1; -1; -1; -1; 35; 36; -1; -1; -1; -1; -1; -1; -1; -1; -1; 46; 47; 48; 49; 50; 51; 52; 53;
    54].
