(* ===== verification/Scanner.v ===== *)
(** [scanner.c]: the scanner, that is the automaton that flex has generated and
    the actions of [scanner.l]. *)
From S2P Require Import Prelude CString CFile Bpf Gencode GenProto GenArth Names ScannerTab GrammarTab.

#[local] Open Scope Z_scope.
#[local] Open Scope c_scope.

(** ** The values of tokens

    [YYSTYPE] is a union: a member that was not the last one written is
    indeterminate, and so are the fields of [blk] that were not assigned. *)
Record blk := Blk {
  k_q : option qual;
  k_atmfieldtype : option Z;
  k_mtp3fieldtype : option Z;
  k_b : option nat }.

Inductive yystype :=
| Vi (i : Z)
| Ve (e : list byte)
| Vs (s : string)
| Va (a : arth)
| Vblk (b : blk)
| Vrblk (b : nat)
| Vjunk.

(** ** The automaton *)

Definition yy_start := 1.
Definition yy_jam_base := 7396.
Definition yy_states := 1438.
Definition YY_END_OF_BUFFER := 148.

(** The inner [while] loop and the transition: the chain of [yy_def] from a
    state has at most fourteen links. *)
Fixpoint yy_trans (fuel : nat) (state c : Z) : option Z :=
  match fuel with
  | O => None
  | S fuel =>
      base ← tab_get yy_base state;
      chk ← tab_get yy_chk (base + c);
      if chk =? state then tab_get yy_nxt (base + c)
      else
        state ← tab_get yy_def state;
        c ← (if yy_states <=? state then nthZ yy_meta c else Some c);
        yy_trans fuel state c
  end.
Definition def_depth : nat := 15.

(** The result of a match: the rule and the number of characters. *)
Inductive scanned := Matched (act : Z) (n : nat) | EndOfFile.

(** [yy_find_action]: a state that does not accept backs up to the last one
    that did. *)
Definition yy_find_action (state : Z) (n : nat) (last : option (Z * nat)) : option scanned :=
  act ← tab_get yy_accept state;
  if act =? 0 then
    '(state, n) ← last;
    act ← tab_get yy_accept state;
    Some (Matched act n)
  else Some (Matched act n).

(** A transition on a character: the next state and whether it ends the
    match. *)
Definition yy_step (state c : Z) : option (Z * bool) :=
  ec ← nthZ yy_ec c;
  next ← yy_trans def_depth state ec;
  base ← tab_get yy_base next;
  Some (next, base =? yy_jam_base).

(** The two end-of-buffer characters, which are 0, after the string: the
    automaton jams on the second and backs up to the first, which is the rule
    for the end of the buffer. *)
Definition yy_end_of_buffer (state : Z) : option bool :=
  '(next, jam) ← yy_step state 0;
  act ← tab_get yy_accept next;
  '(_, jam2) ← yy_step next 0;
  Some (negb jam && jam2 && (act =? YY_END_OF_BUFFER)).

(** [yy_match]: [n] characters have been read.  At the end of the buffer
    [yy_get_next_buffer] has no more to give: the match is what has been read,
    and the end of the file if that is nothing. *)
Fixpoint yy_match (state : Z) (input : string) (n : nat) (last : option (Z * nat)) : option scanned :=
  match input with
  | ""%string =>
      match yy_end_of_buffer state with
      | Some true => if (n =? 0)%nat then Some EndOfFile else yy_find_action state n last
      | _ => None
      end
  | String c input =>
      match tab_get yy_accept state, yy_step state (Z.of_nat (nat_of_ascii c)) with
      | Some act, Some (next, jam) =>
          let last := if act =? 0 then last else Some (state, n) in
          if jam then yy_find_action next (S n) last else yy_match next input (S n) last
      | _, _ => None
      end
  end.

(** ** The actions *)

(** [stoi]; the signed arithmetic wraps around. *)
Fixpoint stoi_loop (base : Z) (s : string) (n : Z) : Z :=
  match s with
  | ""%string => n
  | String c s => stoi_loop base s (i32 (n * base + xdtoi (char_val c)))
  end.
Definition stoi (s : string) : Z :=
  match s with
  | ""%string => 0
  | String c s1 =>
      if (c =? "0")%char then
        match s1 with
        | String d s2 =>
            if (d =? "x")%char || (d =? "X")%char then stoi_loop 16 s2 0 else stoi_loop 8 s1 0
        | ""%string => 0
        end
      else stoi_loop 10 s 0
  end.

(** The rules that return a token without a value, and those whose value is a
    number. *)
Definition scan_rules_1 : list (Z * Z) :=
  [(1, DST); (2, SRC); (3, LINK); (4, LINK); (5, ARP); (6, RARP); (7, IP); (8, SCTP); (9, TCP);
   (10, UDP); (11, ICMP); (12, IGMP); (13, IGRP); (14, PIM); (15, VRRP); (16, CARP); (17, RADIO);
   (18, IPV6); (19, ICMPV6); (20, AH); (21, ESP); (22, ATALK); (23, AARP); (24, DECNET); (25, LAT);
   (26, SCA); (27, MOPRC); (28, MOPDL); (29, ISO)].
Definition scan_rules_2 : list (Z * Z) :=
  [(30, ESIS); (31, ESIS); (32, ISIS); (33, ISIS); (34, L1); (35, L2); (36, IIH); (37, LSP);
   (38, SNP); (39, CSNP); (40, PSNP); (41, CLNP); (42, STP); (43, IPX); (44, NETBEUI); (45, HOST);
   (46, NET); (47, NETMASK); (48, PORT); (49, PORTRANGE); (50, PROTO); (52, GATEWAY); (53, TYPE);
   (54, SUBTYPE); (55, DIR); (56, ADDR1)].
Definition scan_rules_3 : list (Z * Z) :=
  [(57, ADDR2); (58, ADDR3); (59, ADDR4); (60, RA); (61, TA); (62, LESS); (63, GREATER);
   (64, CBYTE); (65, TK_BROADCAST); (66, TK_MULTICAST); (67, AND); (68, OR); (69, 33); (70, LEN);
   (71, INBOUND); (72, OUTBOUND); (73, VLAN); (74, MPLS); (75, PPPOED); (76, PPPOES); (77, LANE);
   (78, LLC); (79, METAC); (80, BCC); (81, OAM); (82, OAMF4); (83, OAMF4EC); (84, OAMF4SC);
   (85, SC)].
Definition scan_rules_4 : list (Z * Z) :=
  [(86, ILMIC); (87, VPI); (88, VCI); (89, CONNECTMSG); (90, METACONNECT); (91, PF_IFNAME);
   (92, PF_RSET); (93, PF_RNR); (94, PF_SRNR); (95, PF_REASON); (96, PF_ACTION); (97, FISU);
   (98, LSSU); (99, LSSU); (100, MSU); (101, SIO); (102, OPC); (103, DPC); (104, SLS); (107, GEQ);
   (108, LEQ); (109, NEQ); (110, 61); (111, LSH); (112, RSH)].
Definition scan_numbers : list (Z * Z) :=
  [(119, 0); (120, 1); (121, 0); (122, 3); (123, 4); (124, 5); (125, 8); (126, 9); (127, 10);
   (128, 11); (129, 12); (130, 13); (131, 14); (132, 15); (133, 16); (134, 17); (135, 18);
   (136, 13); (137, 0x01); (138, 0x02); (139, 0x04); (140, 0x08); (141, 0x10); (142, 0x20)].
Fixpoint assoc (l : list (Z * Z)) (k : Z) : option Z :=
  match l with
  | [] => None
  | (k', v) :: l => if k =? k' then Some v else assoc l k
  end.

(** What the action of a rule does: it returns a token, its value and nothing
    if it leaves [yylval] alone, or it goes on scanning, or it fails.
    [LexUndef] is undefined behaviour of the source; [LexStuck] is an entry that
    the tables do not have, or the end of the fuel. *)
Inductive lexed :=
| Token (t : Z) (v : option yystype)
| Skip
| LexError (msg : string)
| LexUndef
| LexStuck.

(** An address of [n] bytes, which the generator will read. *)
Definition ether_token (t : Z) (n : nat) (text : string) : lexed :=
  match pcap_ether_aton text with
  | Some e => if (n <=? length e)%nat then Token t (Some (Ve e)) else LexUndef
  | None => LexUndef
  end.

Definition yy_action (r : resolver) (act : Z) (text : string) : lexed :=
  match assoc (scan_rules_1 ++ scan_rules_2 ++ scan_rules_3 ++ scan_rules_4) act with
  | Some t => Token t None
  | None =>
      match assoc scan_numbers act with
      | Some n => Token NUM (Some (Vi n))
      | None =>
          if act =? 51 then Token PROTOCHAIN None
          else if (act =? 105) || (act =? 147) then Skip
          else if act =? 106 then
            match text with String c _ => Token (char_val c) None | ""%string => LexStuck end
          else if act =? 113 then ether_token AID 1 (String.substring 1 (String.length text) text)
          else if act =? 114 then ether_token EID 6 text
          else if act =? 115 then Token NUM (Some (Vi (stoi text)))
          else if act =? 116 then Token HID (Some (Vs text))
          else if act =? 117 then
            if is_ip6 r text then Token HID6 (Some (Vs text))
            else LexError (String.append "bogus IPv6 address " text)
          else if act =? 118 then LexError (String.append "bogus ethernet address " text)
          else if act =? 143 then Token ID (Some (Vs text))
          else if act =? 144 then Token ID (Some (Vs (String.substring 1 (String.length text) text)))
          else if act =? 145 then LexError (String.append "illegal token: " text)
          else if act =? 146 then
            LexError (String.append "illegal char '" (String.append (String.substring 0 1 text) "'"))
          else LexStuck
      end
  end.

(** [pcap_lex]: the token, 0 at the end, and the characters after it. *)
Fixpoint pcap_lex (r : resolver) (fuel : nat) (input : string) : lexed * string :=
  match fuel with
  | O => (LexStuck, input)
  | S fuel =>
      match yy_match yy_start input 0 None with
      | None => (LexStuck, input)
      | Some EndOfFile => (Token 0 None, input)
      | Some (Matched act n) =>
          let rest := String.substring n (String.length input - n) input in
          match yy_action r act (String.substring 0 n input) with
          | Skip => pcap_lex r fuel rest
          | l => (l, rest)
          end
      end
  end.
(** Every match has a character. *)
Definition lex (r : resolver) (input : string) : lexed * string := pcap_lex r (S (String.length input)) input.

(** [lex_init]: the buffer is the string up to its first NUL. *)
Fixpoint lex_init (buf : string) : string :=
  match buf with
  | ""%string => ""%string
  | String c s => if (nat_of_ascii c =? 0)%nat then ""%string else String c (lex_init s)
  end.
