(* ===== verification/Parser.v ===== *)
(** [grammar.c]: the parser that bison has generated, with the actions of
    [grammar.y]. *)
From S2P Require Import Prelude CString CFile Bpf Datalink GenConst Gencode GenLink GenProto GenArth GenMisc.
From S2P Require Import GenWlan Names GenName GenOffsets GrammarTab Scanner.

#[local] Open Scope Z_scope.
#[local] Open Scope c_scope.
#[local] Open Scope gen_scope.

(** ** 802.11 types *)

Definition ieee80211_types : list (string * Z) :=
  [ ("data"%string, IEEE80211_FC0_TYPE_DATA); ("mgt"%string, IEEE80211_FC0_TYPE_MGT);
    ("management"%string, IEEE80211_FC0_TYPE_MGT); ("ctl"%string, IEEE80211_FC0_TYPE_CTL);
    ("control"%string, IEEE80211_FC0_TYPE_CTL) ].
Definition ieee80211_mgt_subtypes : list (string * Z) :=
  [ ("assocreq"%string, IEEE80211_FC0_SUBTYPE_ASSOC_REQ);
    ("assoc-req"%string, IEEE80211_FC0_SUBTYPE_ASSOC_REQ);
    ("assocresp"%string, IEEE80211_FC0_SUBTYPE_ASSOC_RESP);
    ("assoc-resp"%string, IEEE80211_FC0_SUBTYPE_ASSOC_RESP);
    ("reassocreq"%string, IEEE80211_FC0_SUBTYPE_REASSOC_REQ);
    ("reassoc-req"%string, IEEE80211_FC0_SUBTYPE_REASSOC_REQ);
    ("reassocresp"%string, IEEE80211_FC0_SUBTYPE_REASSOC_RESP);
    ("reassoc-resp"%string, IEEE80211_FC0_SUBTYPE_REASSOC_RESP);
    ("probereq"%string, IEEE80211_FC0_SUBTYPE_PROBE_REQ);
    ("probe-req"%string, IEEE80211_FC0_SUBTYPE_PROBE_REQ);
    ("proberesp"%string, IEEE80211_FC0_SUBTYPE_PROBE_RESP);
    ("probe-resp"%string, IEEE80211_FC0_SUBTYPE_PROBE_RESP);
    ("beacon"%string, IEEE80211_FC0_SUBTYPE_BEACON);
    ("atim"%string, IEEE80211_FC0_SUBTYPE_ATIM);
    ("disassoc"%string, IEEE80211_FC0_SUBTYPE_DISASSOC);
    ("disassociation"%string, IEEE80211_FC0_SUBTYPE_DISASSOC);
    ("auth"%string, IEEE80211_FC0_SUBTYPE_AUTH);
    ("authentication"%string, IEEE80211_FC0_SUBTYPE_AUTH);
    ("deauth"%string, IEEE80211_FC0_SUBTYPE_DEAUTH);
    ("deauthentication"%string, IEEE80211_FC0_SUBTYPE_DEAUTH) ].
Definition ieee80211_ctl_subtypes : list (string * Z) :=
  [ ("ps-poll"%string, IEEE80211_FC0_SUBTYPE_PS_POLL); ("rts"%string, IEEE80211_FC0_SUBTYPE_RTS);
    ("cts"%string, IEEE80211_FC0_SUBTYPE_CTS); ("ack"%string, IEEE80211_FC0_SUBTYPE_ACK);
    ("cf-end"%string, IEEE80211_FC0_SUBTYPE_CF_END);
    ("cf-end-ack"%string, IEEE80211_FC0_SUBTYPE_CF_END_ACK) ].
Definition ieee80211_data_subtypes : list (string * Z) :=
  [ ("data"%string, IEEE80211_FC0_SUBTYPE_DATA);
    ("data-cf-ack"%string, IEEE80211_FC0_SUBTYPE_CF_ACK);
    ("data-cf-poll"%string, IEEE80211_FC0_SUBTYPE_CF_POLL);
    ("data-cf-ack-poll"%string, IEEE80211_FC0_SUBTYPE_CF_ACPL);
    ("null"%string, IEEE80211_FC0_SUBTYPE_NODATA);
    ("cf-ack"%string, IEEE80211_FC0_SUBTYPE_NODATA_CF_ACK);
    ("cf-poll"%string, IEEE80211_FC0_SUBTYPE_NODATA_CF_POLL);
    ("cf-ack-poll"%string, IEEE80211_FC0_SUBTYPE_NODATA_CF_ACPL);
    ("qos-data"%string, IEEE80211_FC0_SUBTYPE_QOS .| IEEE80211_FC0_SUBTYPE_DATA);
    ("qos-data-cf-ack"%string, IEEE80211_FC0_SUBTYPE_QOS .| IEEE80211_FC0_SUBTYPE_CF_ACK);
    ("qos-data-cf-poll"%string, IEEE80211_FC0_SUBTYPE_QOS .| IEEE80211_FC0_SUBTYPE_CF_POLL);
    ("qos-data-cf-ack-poll"%string, IEEE80211_FC0_SUBTYPE_QOS .| IEEE80211_FC0_SUBTYPE_CF_ACPL);
    ("qos"%string, IEEE80211_FC0_SUBTYPE_QOS .| IEEE80211_FC0_SUBTYPE_NODATA);
    ("qos-cf-poll"%string, IEEE80211_FC0_SUBTYPE_QOS .| IEEE80211_FC0_SUBTYPE_NODATA_CF_POLL);
    ("qos-cf-ack-poll"%string, IEEE80211_FC0_SUBTYPE_QOS .| IEEE80211_FC0_SUBTYPE_NODATA_CF_ACPL) ].
Definition ieee80211_type_subtypes : list (Z * list (string * Z)) :=
  [ (IEEE80211_FC0_TYPE_MGT, ieee80211_mgt_subtypes);
    (IEEE80211_FC0_TYPE_CTL, ieee80211_ctl_subtypes);
    (IEEE80211_FC0_TYPE_DATA, ieee80211_data_subtypes) ].

Fixpoint str2tok (str : string) (toks : list (string * Z)) : Z :=
  match toks with
  | [] => -1
  | (s, v) :: toks => if pcap_strcasecmp s str =? 0 then v else str2tok str toks
  end.

(** The loop of the rule [subtype: ID]. *)
Fixpoint subtypes_of (type : Z) (l : list (Z * list (string * Z))) : gen (list (string * Z)) :=
  match l with
  | [] => bpf_error "unknown 802.11 type"
  | (t, toks) :: l => if type =? t then ret toks else subtypes_of type l
  end.
(** The loop of the rule [type_subtype: ID]. *)
Fixpoint type_subtype_of (s : string) (l : list (Z * list (string * Z))) : gen Z :=
  match l with
  | [] => bpf_error "unknown 802.11 type name"
  | (t, toks) :: l =>
      let v := str2tok s toks in
      if v =? -1 then type_subtype_of s l else ret (v .| t)
  end.

Definition wlan_dir_of (s : string) : gen Z :=
  if pcap_strcasecmp s "nods" =? 0 then ret IEEE80211_FC1_DIR_NODS
  else if pcap_strcasecmp s "tods" =? 0 then ret IEEE80211_FC1_DIR_TODS
  else if pcap_strcasecmp s "fromds" =? 0 then ret IEEE80211_FC1_DIR_FROMDS
  else if pcap_strcasecmp s "dstods" =? 0 then ret IEEE80211_FC1_DIR_DSTODS
  else bpf_error "unknown 802.11 direction".

(** [pfreason_to_num] and [pfaction_to_num] of a build without [net/pfvar.h]. *)
Definition no_pf : gen Z := bpf_error "libpcap was compiled on a machine without pf support".

(** ** Reading and writing semantic values *)

Definition qerr : qual := Qual Q_UNDEF Q_UNDEF Q_UNDEF.

Definition as_i (v : yystype) : gen Z := match v with Vi i => ret i | _ => fail G_graph end.
Definition as_e (v : yystype) : gen (list byte) := match v with Ve e => ret e | _ => fail G_graph end.
Definition as_s (v : yystype) : gen string := match v with Vs s => ret s | _ => fail G_graph end.
Definition as_a (v : yystype) : gen arth := match v with Va a => ret a | _ => fail G_graph end.
Definition as_rblk (v : yystype) : gen nat := match v with Vrblk b => ret b | _ => fail G_graph end.
Definition to_blk (v : yystype) : blk := match v with Vblk b => b | _ => Blk None None None None end.
Definition defined {A} (o : option A) : gen A := match o with Some a => ret a | None => fail G_graph end.
Definition as_q (v : yystype) : gen qual := defined (k_q (to_blk v)).
Definition as_b (v : yystype) : gen nat := defined (k_b (to_blk v)).
Definition as_atm (v : yystype) : gen Z := defined (k_atmfieldtype (to_blk v)).
Definition as_mtp3 (v : yystype) : gen Z := defined (k_mtp3fieldtype (to_blk v)).

(** [$$.b = b; $$.q = q] and single assignments. *)
Definition set_q (v : yystype) (q : qual) : yystype :=
  Vblk (Blk (Some q) (k_atmfieldtype (to_blk v)) (k_mtp3fieldtype (to_blk v)) (k_b (to_blk v))).
Definition set_b (v : yystype) (b : nat) : yystype :=
  Vblk (Blk (k_q (to_blk v)) (k_atmfieldtype (to_blk v)) (k_mtp3fieldtype (to_blk v)) (Some b)).
Definition set_b_q (v : yystype) (b : nat) (q : qual) : yystype := set_q (set_b v b) q.
Definition set_atm (v : yystype) (t : Z) : yystype :=
  Vblk (Blk (k_q (to_blk v)) (Some t) (k_mtp3fieldtype (to_blk v)) (k_b (to_blk v))).
Definition set_mtp3 (v : yystype) (t : Z) : yystype :=
  Vblk (Blk (k_q (to_blk v)) (k_atmfieldtype (to_blk v)) (Some t) (k_b (to_blk v))).

(** ** The actions

    Those that set [$$] to a constant. *)
Definition const_rules_1 : list (Z * Z) :=
  [(51, Q_DEFAULT); (52, Q_SRC); (53, Q_DST); (54, Q_OR); (55, Q_OR); (56, Q_AND); (57, Q_AND);
   (58, Q_ADDR1); (59, Q_ADDR2); (60, Q_ADDR3); (61, Q_ADDR4); (62, Q_RA); (63, Q_TA); (64, Q_HOST);
   (65, Q_NET); (66, Q_PORT); (67, Q_PORTRANGE); (68, Q_GATEWAY); (69, Q_LINK); (70, Q_IP);
   (71, Q_ARP); (72, Q_RARP); (73, Q_SCTP); (74, Q_TCP); (75, Q_UDP); (76, Q_ICMP); (77, Q_IGMP);
   (78, Q_IGRP); (79, Q_PIM)].
Definition const_rules_2 : list (Z * Z) :=
  [(80, Q_VRRP); (81, Q_CARP); (82, Q_ATALK); (83, Q_AARP); (84, Q_DECNET); (85, Q_LAT);
   (86, Q_SCA); (87, Q_MOPDL); (88, Q_MOPRC); (89, Q_IPV6); (90, Q_ICMPV6); (91, Q_AH); (92, Q_ESP);
   (93, Q_ISO); (94, Q_ESIS); (95, Q_ISIS); (96, Q_ISIS_L1); (97, Q_ISIS_L2); (98, Q_ISIS_IIH);
   (99, Q_ISIS_LSP); (100, Q_ISIS_SNP); (101, Q_ISIS_PSNP); (102, Q_ISIS_CSNP); (103, Q_CLNP);
   (104, Q_STP); (105, Q_IPX); (106, Q_NETBEUI); (107, Q_RADIO)].
Definition const_rules_3 : list (Z * Z) :=
  [(143, BPF_JGT); (144, BPF_JGE); (145, BPF_JEQ); (146, BPF_JGT); (147, BPF_JGE); (148, BPF_JEQ)].
Definition const_rules_4 : list (Z * Z) :=
  [(164, 38); (165, 124); (166, 60); (167, 62); (168, 61)].
Definition const_rules_5 : list (Z * Z) :=
  [(171, A_LANE); (172, A_LLC); (173, A_METAC); (174, A_BCC); (175, A_OAMF4EC); (176, A_OAMF4SC);
   (177, A_SC); (178, A_ILMIC); (179, A_OAM); (180, A_OAMF4); (181, A_CONNECTMSG);
   (182, A_METACONNECT)].
Definition const_rules_6 : list (Z * Z) :=
  [(192, M_FISU); (193, M_LSSU); (194, M_MSU)].
Definition const_rules : list (Z * Z) :=
  const_rules_1 ++ const_rules_2 ++ const_rules_3 ++ const_rules_4 ++ const_rules_5 ++ const_rules_6.

Section Parser.
(** The resolver, [netmask], [snaplen], and whether the handle reads a
    savefile. *)
Context (r : resolver) (netmask snaplen : Z) (rfile : bool).

(** An action sees the value stack, its top first: [$k] of a rule with [n]
    symbols is the element [n - k], [$0] the element [n]; [$$] is [$1] before
    the action. *)
Section Actions.
Context (vs : list yystype) (yylen : nat).

Definition sv (k : nat) : yystype := default Vjunk (vs !! (yylen - k)%nat).
Definition yyval0 : yystype := match yylen with O => Vjunk | _ => sv 1 end.
(** [$-1] *)
Definition sv_below : yystype := default Vjunk (vs !! S yylen).

(** [gen_and($1.b, $3.b); $$ = $3;] and the same with [gen_or]. *)
Definition act_and : gen yystype :=
  b1 <- as_b (sv 1) ;; b3 <- as_b (sv 3) ;; gen_and b1 b3 ;; ret (sv 3).
Definition act_or : gen yystype :=
  b1 <- as_b (sv 1) ;; b3 <- as_b (sv 3) ;; gen_or b1 b3 ;; ret (sv 3).
Definition act_not : gen yystype :=
  b <- as_b (sv 2) ;; gen_not b ;; ret (sv 2).

(** [$$.b = g(q), $$.q = q] for the qualifiers before the rule. *)
Definition act_id (g : qual -> gen nat) : gen yystype :=
  q <- as_q (sv 0) ;; b <- g q ;; ret (set_b_q yyval0 b q).

(** The rule [nid: HID]. *)
Definition act_hid (s : string) (q : qual) : gen nat :=
  if q_addr q =? Q_PORT then bpf_error "'port' modifier applied to ip host"
  else if q_addr q =? Q_PORTRANGE then bpf_error "'portrange' modifier applied to ip host"
  else if q_addr q =? Q_PROTO then bpf_error "'proto' modifier applied to ip host"
  else if q_addr q =? Q_PROTOCHAIN then bpf_error "'protochain' modifier applied to ip host"
  else gen_ncode (Some s) 0 q.

(** The rules for [prog], [expr], [id], [nid], [pid] and [term]; [None] if the
    rule is not one of them. *)
Definition action_expr (yyn : Z) : option (gen yystype) :=
  match yyn with
  | 4 => Some (ret (set_q yyval0 qerr))
  | 6 | 7 | 27 => Some act_and
  | 8 | 9 | 28 => Some act_or
  | 10 | 11 | 24 | 25 => Some (ret (sv 0))
  | 13 | 29 => Some (n <- as_i (sv 1) ;; act_id (gen_ncode None (u32 n)))
  | 14 | 39 => Some (ret (sv 2))
  | 15 => Some (s <- as_s (sv 1) ;; act_id (gen_scode r s))
  | 16 => Some (s <- as_s (sv 1) ;; n <- as_i (sv 3) ;; act_id (gen_mcode s None n))
  | 17 => Some (s <- as_s (sv 1) ;; s3 <- as_s (sv 3) ;; act_id (gen_mcode s (Some s3) 0))
  | 18 => Some (s <- as_s (sv 1) ;; act_id (act_hid s))
  | 19 => Some (s <- as_s (sv 1) ;; n <- as_i (sv 3) ;; act_id (gen_mcode6 r s n))
  | 20 => Some (s <- as_s (sv 1) ;; act_id (gen_mcode6 r s 128))
  | 21 => Some (e <- as_e (sv 1) ;; act_id (gen_ecode e))
  | 22 => Some (e <- as_e (sv 1) ;; act_id (gen_acode e))
  | 23 | 32 => Some act_not
  | _ => None
  end.

(** [QSET]; the fields are [unsigned char]s. *)
Definition qset (p d a : Z) : yystype := set_q yyval0 (Qual (u8 a) (u8 p) (u8 d)).

(** [$$.b = g; $$.q = qerr]. *)
Definition act_term (g : gen nat) : gen yystype :=
  b <- g ;; ret (set_b_q yyval0 b qerr).

(** The rules for [head] and [rterm]. *)
Definition action_term (yyn : Z) : option (gen yystype) :=
  match yyn with
  | 33 => Some (p <- as_i (sv 1) ;; d <- as_i (sv 2) ;; a <- as_i (sv 3) ;; ret (qset p d a))
  | 34 => Some (p <- as_i (sv 1) ;; d <- as_i (sv 2) ;; ret (qset p d Q_DEFAULT))
  | 35 | 38 => Some (p <- as_i (sv 1) ;; a <- as_i (sv 2) ;; ret (qset p Q_DEFAULT a))
  | 36 => Some (p <- as_i (sv 1) ;; ret (qset p Q_DEFAULT Q_PROTO))
  | 37 => Some (p <- as_i (sv 1) ;; ret (qset p Q_DEFAULT Q_PROTOCHAIN))
  | 40 => Some (b <- as_b (sv 2) ;; q <- as_q (sv 1) ;; ret (set_b_q yyval0 b q))
  | 41 => Some (p <- as_i (sv 1) ;; act_term (gen_proto_abbrev p))
  | 42 => Some (op <- as_i (sv 2) ;; a0 <- as_a (sv 1) ;; a1 <- as_a (sv 3) ;;
                act_term (gen_relation op a0 a1 false))
  | 43 => Some (op <- as_i (sv 2) ;; a0 <- as_a (sv 1) ;; a1 <- as_a (sv 3) ;;
                act_term (gen_relation op a0 a1 true))
  | 44 => Some (b <- as_rblk (sv 1) ;; ret (set_b_q yyval0 b qerr))
  | 45 => Some (t <- as_i (sv 1) ;; act_term (gen_atmtype_abbrev t))
  | 46 => Some (t <- as_i (sv 1) ;; act_term (gen_atmmulti_abbrev t))
  | 47 | 49 | 188 | 202 => Some (b <- as_b (sv 2) ;; ret (set_b_q yyval0 b qerr))
  | 48 => Some (t <- as_i (sv 1) ;; act_term (gen_mtp2type_abbrev t))
  | _ => None
  end.

(** [gen_byteop] takes the operator as a character. *)
Definition byteop_of (op : Z) : option byteop :=
  if op =? 61 then Some OpEq else if op =? 60 then Some OpLt else if op =? 62 then Some OpGt
  else if op =? 124 then Some OpOr else if op =? 38 then Some OpAnd else None.

Definition act_rblk (g : gen nat) : gen yystype := b <- g ;; ret (Vrblk b).

(** The rules for [other], [pfvar] and [p80211]. *)
Definition action_other (yyn : Z) : option (gen yystype) :=
  let mask := IEEE80211_FC0_TYPE_MASK .| IEEE80211_FC0_SUBTYPE_MASK in
  match yyn with
  | 108 => Some (p <- as_i (sv 1) ;; act_rblk (gen_broadcast netmask p))
  | 109 => Some (p <- as_i (sv 1) ;; act_rblk (gen_multicast p))
  | 110 => Some (n <- as_i (sv 2) ;; act_rblk (gen_less n))
  | 111 => Some (n <- as_i (sv 2) ;; act_rblk (gen_greater n))
  | 112 => Some (idx <- as_i (sv 2) ;; c <- as_i (sv 3) ;; v <- as_i (sv 4) ;;
                 op <- match byteop_of c with Some op => ret op | None => fail G_abort end ;;
                 act_rblk (gen_byteop op idx v))
  | 113 => Some (act_rblk (gen_inbound rfile false))
  | 114 => Some (act_rblk (gen_inbound rfile true))
  | 115 => Some (n <- as_i (sv 2) ;; act_rblk (gen_vlan n))
  | 116 => Some (act_rblk (gen_vlan (-1)))
  | 117 => Some (n <- as_i (sv 2) ;; act_rblk (gen_mpls n))
  | 118 => Some (act_rblk (gen_mpls (-1)))
  | 119 => Some (act_rblk gen_pppoed)
  | 120 => Some (act_rblk gen_pppoes)
  | 121 => Some (b <- as_rblk (sv 1) ;; ret (Vrblk b))
  | 122 => Some (b <- as_rblk (sv 2) ;; ret (Vrblk b))
  | 123 => Some (act_rblk gen_pf_ifname)
  | 124 | 125 | 126 | 127 | 128 => Some (act_rblk gen_pf_other)
  | 129 => Some (t <- as_i (sv 2) ;; s <- as_i (sv 4) ;; act_rblk (gen_p80211_type (t .| s) mask))
  | 130 => Some (t <- as_i (sv 2) ;; act_rblk (gen_p80211_type t IEEE80211_FC0_TYPE_MASK))
  | 131 => Some (t <- as_i (sv 2) ;; act_rblk (gen_p80211_type t mask))
  | 132 => Some (d <- as_i (sv 2) ;; act_rblk (gen_p80211_fcdir d))
  | _ => None
  end.

Definition act_i (g : gen Z) : gen yystype := i <- g ;; ret (Vi i).

(** The rules for the names of 802.11 types and of PF reasons and actions. *)
Definition action_names (yyn : Z) : option (gen yystype) :=
  match yyn with
  | 134 => Some (s <- as_s (sv 1) ;;
                 let v := str2tok s ieee80211_types in
                 if v =? -1 then bpf_error "unknown 802.11 type name" else ret (Vi v))
  | 136 => Some (s <- as_s (sv 1) ;; t <- as_i sv_below ;;
                 toks <- subtypes_of t ieee80211_type_subtypes ;;
                 let v := str2tok s toks in
                 if v =? -1 then bpf_error "unknown 802.11 subtype name" else ret (Vi v))
  | 137 => Some (s <- as_s (sv 1) ;; act_i (type_subtype_of s ieee80211_type_subtypes))
  | 139 => Some (s <- as_s (sv 1) ;; act_i (wlan_dir_of s))
  | 140 => Some (i <- as_i (sv 1) ;; ret (Vi i))
  | 141 | 142 => Some (act_i no_pf)
  | _ => None
  end.

Definition act_a (g : gen arth) : gen yystype := a <- g ;; ret (Va a).
Definition act_arth (code : Z) : gen yystype :=
  a0 <- as_a (sv 1) ;; a1 <- as_a (sv 3) ;; act_a (gen_arth code a0 a1).

(** The rules for [arth], [narth] and [pnum]. *)
Definition action_arth (yyn : Z) : option (gen yystype) :=
  match yyn with
  | 149 => Some (n <- as_i (sv 1) ;; act_a (gen_loadi n))
  | 151 => Some (p <- as_i (sv 1) ;; a <- as_a (sv 3) ;; act_a (gen_load p a 1))
  | 152 => Some (p <- as_i (sv 1) ;; a <- as_a (sv 3) ;; n <- as_i (sv 5) ;; act_a (gen_load p a n))
  | 153 => Some (act_arth BPF_ADD)
  | 154 => Some (act_arth BPF_SUB)
  | 155 => Some (act_arth BPF_MUL)
  | 156 => Some (act_arth BPF_DIV)
  | 157 => Some (act_arth BPF_AND)
  | 158 => Some (act_arth BPF_OR)
  | 159 => Some (act_arth BPF_LSH)
  | 160 => Some (act_arth BPF_RSH)
  | 161 => Some (a <- as_a (sv 2) ;; act_a (gen_neg a))
  | 162 => Some (a <- as_a (sv 2) ;; ret (Va a))
  | 163 => Some (act_a gen_loadlen)
  | 170 => Some (i <- as_i (sv 2) ;; ret (Vi i))
  | _ => None
  end.

Definition one_of_atm (t : Z) : bool := one_of t [A_VPI; A_VCI].
Definition one_of_mtp3 (t : Z) : bool := one_of t [M_SIO; M_OPC; M_DPC; M_SLS].

(** [relop NUM] and [irelop NUM]. *)
Definition act_atm_rel (reverse : bool) : gen yystype :=
  t <- as_atm (sv 0) ;; v <- as_i (sv 2) ;; op <- as_i (sv 1) ;;
  b <- gen_atmfield_code t v (u32 op) reverse ;;
  ret (set_b yyval0 b).
Definition act_mtp3_rel (reverse : bool) : gen yystype :=
  t <- as_mtp3 (sv 0) ;; v <- as_i (sv 2) ;; op <- as_i (sv 1) ;;
  b <- gen_mtp3field_code t (u32 v) (u32 op) reverse ;;
  ret (set_b yyval0 b).

(** The rules for the fields of ATM cells and SS7 messages. *)
Definition action_field (yyn : Z) : option (gen yystype) :=
  match yyn with
  | 183 => Some (ret (set_atm yyval0 A_VPI))
  | 184 => Some (ret (set_atm yyval0 A_VCI))
  | 186 => Some (act_atm_rel false)
  | 187 => Some (act_atm_rel true)
  | 189 => Some (t <- as_atm (sv 0) ;; v <- as_i (sv 1) ;;
                 if one_of_atm t then
                   b <- gen_atmfield_code t v BPF_JEQ false ;; ret (set_b (set_atm yyval0 t) b)
                 else ret (set_atm yyval0 t))
  | 191 | 205 => Some act_or
  | 195 => Some (ret (set_mtp3 yyval0 M_SIO))
  | 196 => Some (ret (set_mtp3 yyval0 M_OPC))
  | 197 => Some (ret (set_mtp3 yyval0 M_DPC))
  | 198 => Some (ret (set_mtp3 yyval0 M_SLS))
  | 200 => Some (act_mtp3_rel false)
  | 201 => Some (act_mtp3_rel true)
  | 203 => Some (t <- as_mtp3 (sv 0) ;; v <- as_i (sv 1) ;;
                 if one_of_mtp3 t then
                   b <- gen_mtp3field_code t (u32 v) BPF_JEQ false ;; ret (set_b (set_mtp3 yyval0 t) b)
                 else ret (set_mtp3 yyval0 t))
  | _ => None
  end.

(** The first of the tables above that has the rule; the others have the
    default action. *)
Definition yyaction (yyn : Z) : gen yystype :=
  match assoc const_rules yyn with
  | Some i => ret (Vi i)
  | None =>
      match action_expr yyn with
      | Some g => g
      | None =>
          match action_term yyn with
          | Some g => g
          | None =>
              match action_other yyn with
              | Some g => g
              | None =>
                  match action_names yyn with
                  | Some g => g
                  | None =>
                      match action_arth yyn with
                      | Some g => g
                      | None => match action_field yyn with Some g => g | None => ret yyval0 end
                      end
                  end
              end
          end
      end
  end.
End Actions.

(** ** [yyparse] *)

Definition YYEMPTY := -2.
Definition YYEOF := 0.
Definition YYMAXDEPTH := 10000.

(** The stacks with their tops first, [yychar], [yylval], the input that is
    left, and [root]. *)
Record parser := Parser {
  ps_states : list Z; ps_vals : list yystype; ps_char : Z; ps_lval : yystype; ps_input : string;
  ps_root : option nat }.

Definition parser0 (input : string) : parser := Parser [0] [Vjunk] YYEMPTY Vjunk input None.

Inductive pstep := Accept | Continue (p : parser) | NoToken.

(** [yynewstate]: the stack grows up to its limit. *)
Definition push (p : parser) (state : Z) (v : yystype) : gen pstep :=
  if YYMAXDEPTH - 1 <=? lenZ (ps_states p) then bpf_error "memory exhausted"
  else
    ret (Continue (Parser (state :: ps_states p) (v :: ps_vals p) (ps_char p) (ps_lval p) (ps_input p)
                     (ps_root p))).

(** An index into a table is within its bounds. *)
Definition at_tab (t : list Z) (i : Z) : gen Z := defined (nthZ t i).

(** [yyreduce]; the action of rule 2 is [finish_parse($2.b)], which sets
    [root]. *)
Definition yyreduce (p : parser) (yyn : Z) : gen pstep :=
  n <- at_tab yyr2 yyn ;;
  let yylen := Z.to_nat n in
  root <- (if yyn =? 2 then
             b <- as_b (sv (ps_vals p) yylen 2) ;; root <- finish_parse snaplen b ;; ret (Some root)
           else ret (ps_root p)) ;;
  v <- yyaction (ps_vals p) yylen yyn ;;
  let states := drop yylen (ps_states p) in
  let vals := drop yylen (ps_vals p) in
  top <- defined (head states) ;;
  lhs <- at_tab yyr1 yyn ;;
  base <- at_tab yypgoto (lhs - YYNTOKENS) ;;
  let i := base + top in
  state <- (if (0 <=? i) && (i <=? YYLAST) then
              c <- at_tab yycheck i ;;
              if c =? top then at_tab yytable i else at_tab yydefgoto (lhs - YYNTOKENS)
            else at_tab yydefgoto (lhs - YYNTOKENS)) ;;
  push (Parser states vals (ps_char p) (ps_lval p) (ps_input p) root) state v.

(** [yydefault] *)
Definition yydefault (p : parser) (state : Z) : gen pstep :=
  yyn <- at_tab yydefact state ;;
  if yyn =? 0 then bpf_error "syntax error" else yyreduce p yyn.

(** The look-ahead token, read if there is none; [None] is a scanner that does
    not come to a token, an error or the end. *)
Definition look_ahead (p : parser) : gen (option parser) :=
  if ps_char p =? YYEMPTY then
    match lex r (ps_input p) with
    | (Token t v, rest) =>
        ret (Some (Parser (ps_states p) (ps_vals p) t (default (ps_lval p) v) rest (ps_root p)))
    | (LexError msg, _) => bpf_error msg
    | (LexUndef, _) => fail G_undef
    | _ => ret None
    end
  else ret (Some p).

(** The number of a token in the tables. *)
Definition yytoken_of (yychar : Z) : gen Z :=
  if yychar <=? YYEOF then ret YYEOF
  else if yychar <=? YYMAXUTOK then at_tab yytranslate yychar
  else ret YYUNDEFTOK.

(** [yyn = yytable[yyn]] and what follows, for a token that the state has an
    action on. *)
Definition yyact (p : parser) (i : Z) : gen pstep :=
  yyn <- at_tab yytable i ;;
  if yyn <=? 0 then
    if (yyn =? 0) || (yyn =? YYTABLE_NINF) then bpf_error "syntax error" else yyreduce p (- yyn)
  else if yyn =? YYFINAL then ret Accept
  else
    push (Parser (ps_states p) (ps_vals p) (if ps_char p =? YYEOF then YYEOF else YYEMPTY)
            (ps_lval p) (ps_input p) (ps_root p)) yyn (ps_lval p).

(** One turn of the automaton, from [yybackup] to the next [yynewstate]. *)
Definition yystep (p : parser) : gen pstep :=
  state <- defined (head (ps_states p)) ;;
  pact <- at_tab yypact state ;;
  if pact =? YYPACT_NINF then yydefault p state
  else
    l <- look_ahead p ;;
    match l with
    | None => ret NoToken
    | Some p =>
        yytoken <- yytoken_of (ps_char p) ;;
        let p := Parser (ps_states p) (ps_vals p) (if ps_char p <=? YYEOF then YYEOF else ps_char p)
                   (ps_lval p) (ps_input p) (ps_root p) in
        let i := pact + yytoken in
        c <- (if (i <? 0) || (YYLAST <? i) then ret (-1) else at_tab yycheck i) ;;
        if negb (c =? yytoken) then yydefault p state else yyact p i
    end.

(** The result is [root]; [None] in it is [NULL].  [None] for the whole is a run
    that does not end: the fuel has run out in the middle of the text, or the
    scanner gives no token. *)
Fixpoint yyparse_loop (fuel : nat) (p : parser) (s : gst) : option (gerror + (option nat * gst)) :=
  match fuel with
  | O => None
  | S fuel =>
      match yystep p s with
      | inl e => Some (inl e)
      | inr (Accept, s) => Some (inr (ps_root p, s))
      | inr (NoToken, _) => None
      | inr (Continue p, s) => yyparse_loop fuel p s
      end
  end.
End Parser.
