(* ===== verification/ScannerSpec.v ===== *)
(** The scanner of [scanner.c] never runs out of its tables: every text without
    a NUL has a next token, or an error, and a token takes characters. *)
From S2P Require Import Prelude CString CFile Names ScannerTab GrammarTab Scanner.

#[local] Open Scope Z_scope.

(** ** Tables as maps *)

Inductive trie := Leaf | Node (l : trie) (x : option Z) (r : trie).

Fixpoint find (t : trie) (p : positive) : option Z :=
  match t, p with
  | Leaf, _ => None
  | Node _ x _, xH => x
  | Node l _ _, xO p => find l p
  | Node _ _ r, xI p => find r p
  end.
Fixpoint put_in (p : positive) (x : Z) (t : trie) : trie :=
  match t, p with
  | Leaf, xH => Node Leaf (Some x) Leaf
  | Leaf, xO p => Node (put_in p x Leaf) None Leaf
  | Leaf, xI p => Node Leaf None (put_in p x Leaf)
  | Node l _ r, xH => Node l (Some x) r
  | Node l y r, xO p => Node (put_in p x l) y r
  | Node l y r, xI p => Node l y (put_in p x r)
  end.
Fixpoint index (p : positive) (l : list Z) : trie :=
  match l with [] => Leaf | x :: l => put_in p x (index (Pos.succ p) l) end.

Lemma find_put p q x t : find (put_in p x t) q = if (p =? q)%positive then Some x else find t q.
Proof.
  revert q t. induction p as [p IH|p IH|]; intros q [|l y r]; destruct q as [q|q|]; cbn [put_in find];
    rewrite ?IH; try done; by destruct (p =? q)%positive eqn:E; cbn [Pos.eqb]; rewrite E.
Qed.

Lemma find_index p l q :
  find (index p l) q = if (p <=? q)%positive then l !! (Pos.to_nat q - Pos.to_nat p)%nat else None.
Proof.
  revert p. induction l as [|x l IH]; intros p; cbn [index].
  - by destruct (p <=? q)%positive.
  - rewrite find_put, IH. destruct (Pos.eqb_spec p q) as [->|Hn].
    + rewrite Pos.leb_refl. by rewrite Nat.sub_diag.
    + destruct (Pos.leb_spec (Pos.succ p) q), (Pos.leb_spec p q); try lia; [|done].
      by replace (Pos.to_nat q - Pos.to_nat p)%nat with (S (Pos.to_nat q - Pos.to_nat (Pos.succ p))) by lia.
Qed.

Definition mapped (t : table) : trie := index 1 (concat t).
Definition get (m : trie) (i : Z) : option Z :=
  match i with Z0 => find m 1 | Zpos p => find m (Pos.succ p) | Zneg _ => None end.

Lemma tab_get_concat t i : tab_get t i = nthZ (concat t) i.
Proof.
  revert i. induction t as [|l t IH]; intros i; cbn [tab_get concat].
  - unfold nthZ. by destruct (i <? 0).
  - unfold nthZ, lenZ in *. destruct (Z.ltb_spec i (Z.of_nat (length l))).
    + destruct (Z.ltb_spec i 0); [done|]. by rewrite lookup_app_l by lia.
    + rewrite IH. destruct (Z.ltb_spec i 0); [lia|].
      destruct (Z.ltb_spec (i - Z.of_nat (length l)) 0); [lia|].
      rewrite lookup_app_r by lia. f_equal. lia.
Qed.

Lemma get_mapped t i : get (mapped t) i = tab_get t i.
Proof.
  rewrite tab_get_concat. unfold mapped, nthZ. destruct i as [|p|p]; cbn [get]; [| |done]; rewrite find_index.
  - reflexivity.
  - destruct (Pos.leb_spec 1 (Pos.succ p)); [|lia]. cbn. f_equal. lia.
Qed.

(** ** The transitions *)

(** [yy_trans] for any form of the tables. *)
Fixpoint trans_by (base chk nxt def : Z -> option Z) (fuel : nat) (state c : Z) : option Z :=
  match fuel with
  | O => None
  | S fuel =>
      b ← base state;
      k ← chk (b + c);
      if k =? state then nxt (b + c)
      else
        state ← def state;
        c ← (if yy_states <=? state then nthZ yy_meta c else Some c);
        trans_by base chk nxt def fuel state c
  end.

Lemma trans_by_eq fuel state c :
  trans_by (get (mapped yy_base)) (get (mapped yy_chk)) (get (mapped yy_nxt)) (get (mapped yy_def)) fuel state c =
  yy_trans fuel state c.
Proof.
  revert state c. induction fuel as [|fuel IH]; intros state c; [done|]. cbn [trans_by yy_trans].
  rewrite !get_mapped. destruct (tab_get yy_base state) as [b|]; [|reflexivity]. cbn [mbind option_bind].
  rewrite !get_mapped. destruct (tab_get yy_chk (b + c)) as [k|]; [|reflexivity]. cbn [mbind option_bind].
  destruct (k =? state); [reflexivity|]. destruct (tab_get yy_def state) as [d|]; [|reflexivity].
  cbn [mbind option_bind]. destruct (if _ : bool then _ else Some c) as [c'|]; [apply IH|reflexivity].
Qed.

(** States that the scanner can be in before a character; 3 is the one after
    the end of the buffer, and 1437 the jam. *)
Definition good (s : Z) : bool := (1 <=? s) && (s <? 1437) && negb (s =? 3).
Definition classes : list Z := seqZ 1 53.

Definition next_ok (base acc : Z -> option Z) (s next : Z) : bool :=
  (good next || (next =? 1437)) &&
  match base next, acc next with
  | Some _, Some a => (0 <=? a) && (a <? 148) && (negb (s =? yy_start) || negb (a =? 0))
  | _, _ => false
  end.
Definition trans_ok (base chk nxt def acc : Z -> option Z) (s : Z) : bool :=
  let trans := trans_by base chk nxt def def_depth in
  negb (good s) ||
  forallb (fun c => match trans s c with Some next => next_ok base acc s next | None => false end) classes &&
  match trans s 0 with Some next => next =? 3 | None => false end.
Definition scan_states : list Z := seqZ 1 1436.
Definition tables_ok : bool :=
  let base := mapped yy_base in let chk := mapped yy_chk in let nxt := mapped yy_nxt in
  let def := mapped yy_def in let acc := mapped yy_accept in
  forallb (trans_ok (get base) (get chk) (get nxt) (get def) (get acc)) scan_states.
Lemma scan_tables_ok : tables_ok = true.
Proof. vm_compute. reflexivity. Qed.

#[local] Opaque yy_base yy_chk yy_nxt yy_def yy_accept yy_ec.

Definition rule_of (a : Z) : Prop := 0 < a < 148.
(** A state that can be left, or the jam, and its rule. *)
Record reached (next a : Z) : Prop := {
  re_next : good next = true \/ next = 1437;
  re_base : is_Some (tab_get yy_base next);
  re_accept : tab_get yy_accept next = Some a;
  re_rule : a = 0 \/ rule_of a }.

Lemma trans_ok_of s : good s = true ->
  (forall c, 1 <= c < 54 -> exists next a, yy_trans def_depth s c = Some next /\ reached next a /\
     (s = yy_start -> a <> 0)) /\ yy_trans def_depth s 0 = Some 3.
Proof.
  intros Hs. assert (Hin : In s scan_states).
  { apply list_elem_of_In. unfold scan_states. rewrite elem_of_seqZ. unfold good in Hs. lia. }
  pose proof (proj1 (forallb_forall _ _) scan_tables_ok s Hin) as Hok. unfold trans_ok in Hok.
  rewrite Hs in Hok. cbn [negb orb] in Hok. apply andb_prop in Hok as [Hc H0]. split.
  - intros c Hr. rewrite forallb_forall in Hc. specialize (Hc c). rewrite trans_by_eq in Hc.
    unfold classes in Hc. rewrite <- list_elem_of_In, elem_of_seqZ in Hc. specialize (Hc ltac:(lia)).
    destruct (yy_trans def_depth s c) as [next|]; [|done]. unfold next_ok in Hc. rewrite !get_mapped in Hc.
    destruct (tab_get yy_base next) as [b|] eqn:Eb; [|by destruct (_ || _)].
    destruct (tab_get yy_accept next) as [a|] eqn:Ea; [|by destruct (_ || _)].
    apply andb_prop in Hc as [[Hg|Hg%Z.eqb_eq]%orb_prop Hc]; exists next, a; unfold yy_start in *;
      (split; [done|]; split; [|lia]; split; [tauto|by exists b|done|unfold rule_of; lia]).
  - rewrite trans_by_eq in H0. destruct (yy_trans def_depth s 0) as [next|]; [|done].
    f_equal. lia.
Qed.

Lemma class_of c : 1 <= c < 256 -> exists k, nthZ yy_ec c = Some k /\ 1 <= k < 54.
Proof.
  intros Hc. destruct c as [|p|]; [lia| |lia].
  assert (Hl : forallb (fun k => (1 <=? k) && (k <? 54)) (drop 1 yy_ec) = true) by (vm_compute; reflexivity).
  assert (He : length (drop 1 yy_ec) = 255%nat) by (vm_compute; reflexivity).
  destruct (lookup_lt_is_Some_2 (drop 1 yy_ec) (Pos.to_nat p - 1)) as [k Hk]; [rewrite He; lia|].
  exists k. split.
  - unfold nthZ. cbn. rewrite lookup_drop in Hk. rewrite <- Hk. f_equal. lia.
  - pose proof (proj1 (forallb_forall _ _) Hl k) as Hr.
    specialize (Hr ltac:(by apply list_elem_of_In, list_elem_of_lookup_2 with (Pos.to_nat p - 1)%nat)).
    cbn beta in Hr. lia.
Qed.

Lemma yy_step_ok s c : good s = true -> 1 <= c < 256 ->
  exists next jam a, yy_step s c = Some (next, jam) /\ reached next a /\ (s = yy_start -> a <> 0) /\
    (jam = false -> good next = true).
Proof.
  intros Hs Hc. destruct (class_of c Hc) as (k & Hk & Hr).
  destruct (proj1 (trans_ok_of s Hs) k Hr) as (next & a & Ht & Hn & Ha).
  unfold yy_step. rewrite Hk. cbn [mbind option_bind]. rewrite Ht. cbn [mbind option_bind].
  pose proof Hn as [Hg [b Hb] _ _]. rewrite Hb. cbn [mbind option_bind].
  exists next, (b =? yy_jam_base), a. split_and!; try done. intros Hj.
  destruct Hg as [Hg| ->]; [done|].
  assert (Hz : tab_get yy_base 1437 = Some yy_jam_base) by (vm_compute; reflexivity).
  rewrite Hb in Hz. injection Hz as ->. by rewrite Z.eqb_refl in Hj.
Qed.

Lemma yy_end_ok s : good s = true -> yy_end_of_buffer s = Some true.
Proof.
  intros Hs. unfold yy_end_of_buffer, yy_step.
  assert (He : nthZ yy_ec 0 = Some 0) by (vm_compute; reflexivity). rewrite He. cbn [mbind option_bind].
  rewrite (proj2 (trans_ok_of s Hs)). cbn [mbind option_bind]. vm_compute. reflexivity.
Qed.

(** ** Matches *)

Fixpoint no_nul (s : string) : bool :=
  match s with ""%string => true | String c s => negb (nat_of_ascii c =? 0)%nat && no_nul s end.

Lemma lex_init_no_nul buf : no_nul (lex_init buf) = true.
Proof.
  induction buf as [|c buf IH]; [done|]. cbn [lex_init]. destruct (nat_of_ascii c =? 0)%nat eqn:E; [done|].
  cbn [no_nul]. by rewrite E.
Qed.

Lemma char_range c : (nat_of_ascii c =? 0)%nat = false -> 1 <= Z.of_nat (nat_of_ascii c) < 256.
Proof. intros H%Nat.eqb_neq. pose proof (nat_ascii_bounded c). lia. Qed.

(** A state with its rule, after [n] characters of which the last match took
    [last]. *)
Record scanning (s : Z) (n : nat) (last : option (Z * nat)) (a : Z) : Prop := {
  sc_accept : tab_get yy_accept s = Some a;
  sc_rule : a = 0 \/ rule_of a;
  sc_last : forall st k, last = Some (st, k) ->
    (1 <= k <= n)%nat /\ exists a', tab_get yy_accept st = Some a' /\ rule_of a';
  sc_some : (1 <= n)%nat -> a = 0 -> is_Some last;
  sc_start : n = 0%nat -> s = yy_start /\ last = None }.

Lemma find_action_ok s n last a : scanning s n last a -> (1 <= n)%nat ->
  exists act k, yy_find_action s n last = Some (Matched act k) /\ (1 <= k <= n)%nat /\ rule_of act.
Proof.
  intros [Ha Hr Hl Hs _] Hn. unfold yy_find_action. rewrite Ha. cbn [mbind option_bind].
  destruct (Z.eqb_spec a 0) as [E|E].
  - destruct (Hs Hn E) as [[st k] ->]. destruct (Hl st k eq_refl) as (Hk & a' & Ha' & Hr').
    cbn [mbind option_bind]. rewrite Ha'. by exists a', k.
  - exists a, n. split_and!; [done|lia|lia|]. by destruct Hr.
Qed.

Lemma match_ok input s n last a :
  scanning s n last a -> good s = true -> no_nul input = true ->
  (n = 0%nat /\ input = ""%string /\ yy_match s input n last = Some EndOfFile) \/
  exists act k, yy_match s input n last = Some (Matched act k) /\
    (1 <= k <= n + String.length input)%nat /\ rule_of act.
Proof.
  revert s n last a. induction input as [|c input IH]; intros s n last a Hsc Hs Hz; cbn [yy_match].
  - rewrite (yy_end_ok s Hs). destruct (Nat.eqb_spec n 0) as [->|Hn]; [by left|]. right.
    destruct (find_action_ok s n last a Hsc ltac:(lia)) as (act & k & H1 & H2 & H3).
    exists act, k. split_and!; try done; cbn; lia.
  - right. cbn [no_nul] in Hz. apply andb_prop in Hz as [Hc Hz]. apply negb_true_iff, char_range in Hc.
    pose proof Hsc as [Ha Hr Hl Hso Hst]. rewrite Ha.
    destruct (yy_step_ok s _ Hs Hc) as (next & jam & a' & -> & [Hn Hb Ha' Hr'] & Ha0 & Hj).
    set (last' := if a =? 0 then last else Some (s, n)).
    assert (Hsc' : scanning next (S n) last' a').
    { split; [done|done| | |done].
      - unfold last'. intros st k Hk. destruct (Z.eqb_spec a 0) as [->|E].
        + destruct (Hl st k Hk) as [? ?]. split; [lia|done].
        + injection Hk as <- <-. split; [|exists a; by destruct Hr].
          destruct n; [|lia]. destruct (Hst eq_refl) as [-> _].
          assert (Hz0 : tab_get yy_accept yy_start = Some 0) by (vm_compute; reflexivity).
          rewrite Ha in Hz0. injection Hz0 as ->. done.
      - intros _ E. unfold last'. destruct (Z.eqb_spec a 0) as [->|]; [|by eexists].
        destruct n; [|apply Hso; [lia|done]]. destruct (Hst eq_refl) as [-> _]. by destruct (Ha0 eq_refl). }
    destruct jam.
    + destruct (find_action_ok _ _ _ _ Hsc' ltac:(lia)) as (act & k & H1 & H2 & H3).
      exists act, k. split_and!; try done; cbn [String.length]; lia.
    + destruct (IH next (S n) last' a' Hsc' (Hj eq_refl) Hz) as [[? _]|(act & k & H1 & H2 & H3)]; [done|].
      exists act, k. split_and!; try done; cbn [String.length]; lia.
Qed.

Lemma start_match input : no_nul input = true ->
  (input = ""%string /\ yy_match yy_start input 0 None = Some EndOfFile) \/
  exists act k, yy_match yy_start input 0 None = Some (Matched act k) /\
    (1 <= k <= String.length input)%nat /\ rule_of act.
Proof.
  intros Hz. destruct (match_ok input yy_start 0 None 0) as [(_ & ? & ?)|H]; [|by vm_compute|done|by left|by right].
  split; [by vm_compute|by left|done|lia|done].
Qed.

(** ** Tokens *)

(** The value that comes with a token. *)
Definition valued : list Z := [NUM; ID; HID; HID6; EID; AID].
Definition token_value (t : Z) (v : option yystype) : Prop :=
  match v with
  | None => t ∉ valued
  | Some (Vi _) => t = NUM
  | Some (Vs _) => t ∈ [ID; HID; HID6]
  | Some (Ve e) => t ∈ [EID; AID] /\ e <> []
  | Some _ => False
  end.

Definition plain_rules := scan_rules_1 ++ scan_rules_2 ++ scan_rules_3 ++ scan_rules_4.
Definition other_rules : list Z := [51; 105; 106; 113; 114; 115; 116; 117; 118; 143; 144; 145; 146; 147].

Lemma plain_rules_ok : forallb (fun '(_, t) => bool_decide (t ∉ valued)) plain_rules = true.
Proof. vm_compute. reflexivity. Qed.
Lemma rules_covered :
  forallb (fun a => match assoc plain_rules a, assoc scan_numbers a with
                    | None, None => bool_decide (a ∈ other_rules) | _, _ => true end) (seqZ 1 147) = true.
Proof. vm_compute. reflexivity. Qed.

Lemma assoc_In l k v : assoc l k = Some v -> In (k, v) l.
Proof.
  induction l as [|[k' v'] l IH]; cbn [assoc]; [done|]. destruct (Z.eqb_spec k k') as [->|]; [|by right; apply IH].
  intros [= ->]. by left.
Qed.

Lemma ether_token_ok t n text : t ∈ [EID; AID] -> (1 <= n)%nat ->
  match ether_token t n text with
  | Token t v => token_value t v
  | Skip | LexStuck => False
  | LexError _ | LexUndef => True
  end.
Proof.
  intros Ht Hn. unfold ether_token. destruct (pcap_ether_aton text) as [e|]; [|done].
  destruct (Nat.leb_spec n (length e)) as [Hl|]; [|done]. split; [done|]. intros ->. simpl in Hl. lia.
Qed.

Lemma char_val_small c : char_val c < 256.
Proof. unfold char_val. pose proof (swrap_range 8 ltac:(lia) (Z.of_nat (nat_of_ascii c))). cranges. lia. Qed.

Lemma yy_action_ok r act text : rule_of act -> text <> ""%string ->
  match yy_action r act text with
  | Token t v => token_value t v
  | LexStuck => False
  | LexError _ | LexUndef | Skip => True
  end.
Proof.
  intros Hr Ht. unfold yy_action. fold plain_rules. destruct (assoc plain_rules act) as [t|] eqn:E1.
  { apply assoc_In in E1. pose proof (proj1 (forallb_forall _ _) plain_rules_ok _ E1) as Hp.
    by apply bool_decide_eq_true in Hp. }
  destruct (assoc scan_numbers act) as [m|] eqn:E2; [done|].
  pose proof (proj1 (forallb_forall _ _) rules_covered act) as Hc. unfold rule_of in Hr.
  rewrite <- list_elem_of_In, elem_of_seqZ in Hc. specialize (Hc ltac:(lia)). cbn beta in Hc.
  rewrite E1, E2 in Hc. apply bool_decide_eq_true in Hc. clear E1 E2. unfold other_rules in Hc.
  repeat (apply elem_of_cons in Hc as [->|Hc]); [..|by apply elem_of_nil in Hc]; cbn -[ether_token stoi is_ip6 String.append String.substring];
    try done; try set_solver; try (by apply (bool_decide_unpack _));
    try match goal with
    | |- context [ether_token ?t ?n ?x] =>
        pose proof (ether_token_ok t n x ltac:(set_solver) ltac:(lia)); by destruct (ether_token t n x)
    end.
  - destruct text as [|c text]; [done|]. unfold token_value, valued. pose proof (char_val_small c).
    rewrite !elem_of_cons, elem_of_nil. unfold NUM, ID, HID, HID6, EID, AID. lia.
  - destruct (is_ip6 r text); [|done]. set_solver.
Qed.

Lemma length_substring n m s : (String.length (String.substring n m s) <= m)%nat.
Proof.
  revert n m. induction s as [|c s IH]; intros [|n] [|m]; cbn [String.substring String.length]; try lia.
  - pose proof (IH 0%nat m). lia.
  - apply IH.
  - apply IH.
Qed.
Lemma no_nul_substring n m s : no_nul s = true -> no_nul (String.substring n m s) = true.
Proof.
  revert n m. induction s as [|c s IH]; intros [|n] [|m] Hs; cbn [String.substring no_nul] in *; try done;
    apply andb_prop in Hs as [Hc Hs]; auto. rewrite Hc. cbn [andb]. auto.
Qed.
Lemma substring_nonempty n s : (1 <= n <= String.length s)%nat -> String.substring 0 n s <> ""%string.
Proof. intros Hn. destruct s as [|c s], n as [|n]; cbn in *; (lia || done). Qed.

(** What [pcap_lex] promises on a text without a NUL. *)
Definition lex_spec (input : string) (res : lexed * string) : Prop :=
  match res with
  | (Token t v, rest) =>
      token_value t v /\ no_nul rest = true /\ (String.length rest <= String.length input)%nat /\
      (0 < t -> (String.length rest < String.length input)%nat)
  | (LexError _, _) | (LexUndef, _) => True
  | _ => False
  end.

Lemma pcap_lex_ok r fuel input : no_nul input = true -> (String.length input < fuel)%nat ->
  lex_spec input (pcap_lex r fuel input).
Proof.
  revert input. induction fuel as [|fuel IH]; intros input Hz Hf; [lia|]. cbn [pcap_lex].
  destruct (start_match input Hz) as [(-> & ->)|(act & k & -> & Hk & Hr)].
  { split; [by apply (bool_decide_unpack _)|]. done. }
  pose proof (yy_action_ok r act (String.substring 0 k input) Hr (substring_nonempty _ _ Hk)) as Ha.
  set (rest := String.substring k _ input).
  assert (Hl : (String.length rest <= String.length input - k)%nat) by apply length_substring.
  assert (Hn : no_nul rest = true) by by apply no_nul_substring.
  destruct (yy_action r act _) as [t v| |msg| |]; try done.
  - split_and!; try done; [lia|]. intros _. lia.
  - specialize (IH rest Hn ltac:(lia)). unfold lex_spec in *.
    destruct (pcap_lex r fuel rest) as [[t v| |msg| |] rest']; try done.
    destruct IH as (H1 & H2 & H3 & H4). split_and!; try done; [lia|]. intros Ht. specialize (H4 Ht). lia.
Qed.

Lemma lex_ok r input : no_nul input = true -> lex_spec input (lex r input).
Proof. intros Hz. apply pcap_lex_ok; [done|]. lia. Qed.
