(* ===== verification/AutomatonTab.v ===== *)
(** The automaton of [grammar.c] as a graph: for every state the states below it
    on a stack, and, for the arguments about the parser, its weight, the least
    weight of a stack that it ends, and the type of its semantic value.  None of
    this is in the source; [Automaton] checks it against the tables. *)
From S2P Require Import Prelude.

#[local] Open Scope Z_scope.

(** What is known of a semantic value.  [Tnever] is no value at all, [Tin] an
    [int] of a list, [Tb] a [blk] with some of its fields: a block the value
    owns, a qualifier, an ATM field and an SS7 field. *)
Inductive vty :=
| Tnever | Tany | Tin (l : list Z) | Ti | Te | Ts | Ta | Tr | Tb (b q atm mtp : bool).

Definition below (s : Z) : list Z :=
  match s with
  | 1 | 2 => [0]
  | 4 | 5 | 6 | 27 | 28 | 29 | 30 | 31 | 32 | 33 | 34 | 41 | 42 | 43 | 44 | 59 | 60 | 61 | 62 |
    63 | 64 | 65 | 66 | 67 | 68 | 69 | 70 | 71 | 72 | 74 | 75 | 76 | 77 | 78 | 79 | 80 | 88 | 89 |
    90 | 91 | 92 | 93 | 94 | 97 | 98 | 99 | 100 | 101 => [2; 85; 86; 122; 123; 200; 201]
  | 7 | 8 | 9 | 10 | 11 | 12 | 13 | 14 | 15 | 16 | 17 | 18 | 19 | 20 | 21 | 22 | 23 | 24 | 25 |
    35 | 36 | 37 | 38 | 39 | 40 | 45 | 46 | 47 | 48 | 49 | 50 | 51 | 52 | 53 | 54 | 55 | 56 | 57 |
    58 | 73 | 82 =>
      [2; 82; 85; 86; 117; 122; 123; 162; 166; 167; 168; 169; 170; 171; 172; 173; 177; 178; 200;
       201]
  | 26 =>
      [2; 41; 42; 82; 85; 86; 88; 114; 117; 122; 123; 135; 136; 162; 166; 167; 168; 169; 170; 171;
       172; 173; 177; 178; 200; 201; 255; 256]
  | 81 => [2; 85; 86; 88; 122; 123; 135; 136; 200; 201; 255; 256]
  | 83 =>
      [2; 41; 42; 82; 85; 86; 88; 99; 101; 114; 117; 122; 123; 135; 136; 162; 166; 167; 168; 169;
       170; 171; 172; 173; 177; 178; 200; 201; 255; 256]
  | 84 => [2]
  | 85 => [2; 85; 86]
  | 86 => [2; 85; 86; 201]
  | 87 => [2; 86; 201]
  | 95 => [2; 82; 85; 122; 123; 162; 166; 167; 168; 169; 170; 171; 172; 173; 177; 178; 200]
  | 96 => [2; 82; 85; 162; 166; 167; 168; 169; 170; 171; 172; 173; 177; 178]
  | 102 => [4]
  | 103 => [5]
  | 104 => [6]
  | 105 => [29]
  | 106 => [30]
  | 107 => [31]
  | 108 => [32]
  | 109 | 110 | 111 => [33]
  | 112 | 113 => [34]
  | 114 => [41; 42; 114; 136]
  | 115 => [41]
  | 116 => [42]
  | 117 | 118 => [82; 117; 162; 166; 167; 168; 169; 170; 171; 172; 173; 177; 178]
  | 119 => [82]
  | 120 => [84; 125; 215]
  | 121 => [84; 125; 215; 242; 246]
  | 122 | 123 => [84; 125]
  | 124 => [85; 200]
  | 125 => [86; 201]
  | 126 => [86; 117; 201]
  | 127 => [86; 117]
  | 128 | 129 | 130 | 131 | 132 => [88; 122; 123; 135; 136; 200; 201; 255; 256]
  | 133 => [88]
  | 134 => [88; 122; 123; 135; 200; 255; 256]
  | 135 => [88; 135; 136; 255; 256]
  | 136 | 137 => [88; 135; 255; 256]
  | 138 | 139 | 141 | 145 | 146 | 147 | 148 | 149 | 150 | 151 | 152 | 153 | 154 | 155 | 156 |
    157 | 158 | 159 | 160 | 161 => [90]
  | 140 | 142 | 143 | 144 => [90; 158]
  | 162 => [91; 118]
  | 163 | 164 | 165 | 174 | 175 | 176 => [94; 99; 101]
  | 166 | 167 => [94; 198; 230; 233; 234; 239; 240]
  | 168 => [94; 198; 230; 239; 240]
  | 169 => [94; 198; 230; 233; 239; 240]
  | 170 | 171 => [94; 198; 230; 231; 232; 233; 234; 239; 240]
  | 172 | 173 => [94; 198; 230; 231; 232; 233; 234; 235; 236; 239; 240]
  | 177 | 178 => [94]
  | 179 => [99; 180; 265]
  | 180 | 181 | 182 | 183 | 184 => [99]
  | 185 => [101; 186; 267]
  | 186 | 187 | 188 | 189 | 190 => [101]
  | 191 | 192 | 193 | 194 | 195 | 196 => [104]
  | 197 => [114]
  | 198 => [117]
  | 199 | 202 => [122]
  | 200 => [122; 123; 200; 201]
  | 201 | 203 => [122; 123; 200]
  | 204 | 205 => [123]
  | 206 => [125]
  | 207 => [126]
  | 208 => [127; 197; 216; 250]
  | 209 | 210 => [130]
  | 211 => [131]
  | 212 => [135; 200]
  | 213 | 214 | 215 => [136; 201]
  | 216 => [136]
  | 217 | 218 => [138]
  | 219 | 220 => [139]
  | 221 | 222 | 223 => [149]
  | 224 | 225 => [150]
  | 226 | 227 | 228 => [151]
  | 229 => [158]
  | 230 => [162]
  | 231 => [166]
  | 232 => [167]
  | 233 => [168]
  | 234 => [169]
  | 235 => [170]
  | 236 => [171]
  | 237 => [172]
  | 238 => [173]
  | 239 => [177]
  | 240 => [178]
  | 241 | 242 => [180]
  | 243 => [181]
  | 244 => [182]
  | 245 | 246 => [186]
  | 247 => [187]
  | 248 => [188]
  | 249 => [196]
  | 250 => [201]
  | 251 => [209]
  | 252 => [210]
  | 253 => [211]
  | 254 => [214]
  | 255 | 256 => [215]
  | 257 => [217]
  | 258 => [218]
  | 259 => [219]
  | 260 => [220]
  | 261 => [223]
  | 262 | 263 => [230]
  | 264 | 265 => [242]
  | 266 | 267 => [246]
  | 268 => [255]
  | 269 => [256]
  | 270 | 271 | 272 => [261]
  | 273 => [263]
  | 274 => [265]
  | 275 => [267]
  | 276 => [273]
  | _ => []
  end.

Definition weight (s : Z) : Z :=
  match s with
  | 1 => (-4)
  | 2 | 87 | 90 | 124 | 202 | 205 => (-1)
  | 84 | 125 => (-2)
  | 85 | 86 | 91 | 95 | 96 | 97 | 98 | 99 | 100 | 101 | 111 | 113 | 114 | 115 | 116 | 117 | 118 |
    122 | 123 | 126 | 127 | 134 | 135 | 136 | 137 | 158 | 159 | 160 | 177 | 178 | 180 | 181 |
    182 | 184 | 186 | 187 | 188 | 190 | 196 | 197 | 200 | 201 | 203 | 213 | 216 | 223 | 225 |
    228 | 229 | 241 | 245 | 250 | 255 | 256 | 265 | 267 | 272 | 274 | 275 => 2
  | 88 | 89 | 215 => 0
  | 92 | 94 | 119 | 133 | 183 | 189 | 198 | 199 | 204 | 212 | 214 | 230 | 231 | 232 | 233 | 234 |
    235 | 236 | 237 | 238 | 239 | 240 | 242 | 246 | 268 | 269 => 1
  | 93 | 161 => 4
  | _ => 3
  end.

Definition least (s : Z) : Z :=
  match s with
  | 1 => (-4)
  | 2 | 88 | 89 | 122 | 123 | 125 => (-1)
  | 4 | 5 | 6 | 7 | 8 | 9 | 10 | 11 | 12 | 13 | 14 | 15 | 16 | 17 | 18 | 19 | 20 | 21 | 22 | 23 |
    24 | 25 | 26 | 27 | 28 | 29 | 30 | 31 | 32 | 33 | 34 | 35 | 36 | 37 | 38 | 39 | 40 | 41 | 42 |
    43 | 44 | 45 | 46 | 47 | 48 | 49 | 50 | 51 | 52 | 53 | 54 | 55 | 56 | 57 | 58 | 59 | 60 | 61 |
    62 | 63 | 64 | 65 | 66 | 67 | 68 | 69 | 70 | 71 | 72 | 73 | 74 | 75 | 76 | 77 | 78 | 79 | 80 |
    81 | 82 | 83 | 128 | 129 | 130 | 131 | 132 | 161 | 177 | 178 | 183 | 189 | 206 | 212 | 214 |
    229 => 2
  | 84 => (-3)
  | 85 | 86 | 91 | 95 | 96 | 97 | 98 | 99 | 100 | 101 | 134 | 135 | 136 | 137 | 138 | 139 | 140 |
    141 | 142 | 143 | 144 | 145 | 146 | 147 | 148 | 149 | 150 | 151 | 152 | 153 | 154 | 155 |
    156 | 157 | 200 | 201 | 203 | 215 => 1
  | 87 | 90 | 202 | 205 => (-2)
  | 93 | 114 | 119 | 126 | 127 | 163 | 164 | 165 | 166 | 167 | 168 | 169 | 170 | 171 | 172 | 173 |
    174 | 175 | 176 | 180 | 181 | 182 | 184 | 186 | 187 | 188 | 190 | 213 | 216 | 223 | 225 |
    228 | 239 | 240 | 250 | 255 | 256 => 3
  | 102 | 103 | 104 | 105 | 106 | 107 | 108 | 109 | 110 | 112 | 197 | 198 | 209 | 210 | 211 |
    230 | 241 | 245 | 254 => 5
  | 111 | 113 | 115 | 116 | 117 | 118 | 162 | 179 | 185 | 217 | 218 | 219 | 220 | 221 | 222 |
    224 | 226 | 227 | 231 | 232 | 233 | 234 | 235 | 236 | 237 | 238 | 242 | 246 | 268 | 269 => 4
  | 191 | 192 | 193 | 194 | 195 | 251 | 252 | 253 | 262 | 263 | 272 | 274 | 275 => 8
  | 196 | 257 | 258 | 259 | 260 | 264 | 266 => 7
  | 207 | 208 | 243 | 244 | 247 | 248 | 261 | 265 | 267 => 6
  | 249 => 10
  | 270 | 271 => 9
  | 273 => 11
  | 276 => 14
  | _ => 0
  end.

Definition kind (s : Z) : vty :=
  match s with
  | 1 | 2 | 85 | 86 | 88 | 122 | 123 | 135 | 136 | 200 | 201 | 255 | 256 =>
      Tb false true false false
  | 3 | 146 => Tnever
  | 26 | 96 | 102 | 103 | 104 | 107 | 108 | 109 | 111 | 113 | 115 | 116 | 127 | 137 | 179 | 185 |
    197 | 203 | 216 | 221 | 223 | 225 | 226 | 228 | 243 | 244 | 247 | 248 | 249 | 250 | 252 |
    253 | 270 | 272 | 273 => Ti
  | 84 | 87 | 89 | 124 | 125 | 133 | 134 | 199 | 202 | 204 | 205 | 212 | 213 | 214 | 215 | 268 |
    269 => Tb true true false false
  | 90 =>
      Tin [0; 1; 2; 3; 4; 5; 6; 7; 8; 9; 10; 11; 12; 13; 14; 15; 16; 17; 18; 19; 20; 21; 22; 23;
           24; 25; 26; 27; 28; 29; 30; 31; 32; 33; 36; 37; 38; 39; 40; 41]
  | 91 | 118 =>
      Tin [1; 2; 3; 4; 5; 6; 7; 8; 9; 10; 11; 12; 13; 14; 15; 16; 17; 18; 19; 20; 21; 22; 23; 24;
           25; 26; 27; 28; 29; 30; 31; 32; 33; 36; 37; 38; 39; 40; 41]
  | 92 | 93 | 161 => Tr
  | 94 | 95 | 119 | 126 | 198 | 230 | 231 | 232 | 233 | 234 | 235 | 236 | 237 | 238 | 239 | 240 =>
      Ta
  | 97 => Tin [22; 23; 24; 25; 26; 27; 30; 31]
  | 98 => Tin [28; 29; 70; 71]
  | 99 | 180 | 265 => Tb false false true false
  | 100 => Tin [22; 23; 24]
  | 101 | 186 | 267 => Tb false false false true
  | 105 | 106 | 110 | 112 | 128 | 130 | 131 | 222 | 224 | 227 | 251 | 271 => Ts
  | 129 | 132 => Te
  | 158 => Tin [1; 2; 3; 4; 5; 6; 7; 8; 9; 10]
  | 159 | 229 => Tin [1; 2; 3; 7]
  | 160 => Tin [4]
  | 177 | 178 | 181 | 182 | 187 | 188 => Tin [16; 32; 48]
  | 183 | 189 => Tb true false false false
  | 184 | 241 | 242 | 274 => Tb true false true false
  | 190 | 245 | 246 | 275 => Tb true false false true
  | 196 => Tin [38; 60; 61; 62; 124]
  | _ => Tany
  end.
