(* ===== verification/Automaton.v ===== *)
(** The checks of the parser's automaton: what the tables of [grammar.c] do is
    consistent with the states below each state, their weights and the types of
    their values. *)
From S2P Require Import Prelude Bpf BpfFilter GenConst Gencode GenLink GenProto GrammarTab Scanner Parser AutomatonTab.

#[local] Open Scope Z_scope.
#[local] Open Scope c_scope.

(** ** Types of semantic values *)

Definition isint (t : vty) : bool := match t with Tin _ | Ti => true | _ => false end.
Definition is_in (l : list Z) (t : vty) : bool := match t with Tin l' => forallb (fun x => one_of x l) l' | _ => false end.
Definition is_s (t : vty) : bool := match t with Ts => true | _ => false end.
Definition is_e (t : vty) : bool := match t with Te => true | _ => false end.
Definition is_a (t : vty) : bool := match t with Ta => true | _ => false end.
Definition is_r (t : vty) : bool := match t with Tr => true | _ => false end.
Definition has_b (t : vty) : bool := match t with Tb b _ _ _ => b | _ => false end.
Definition has_q (t : vty) : bool := match t with Tb _ q _ _ => q | _ => false end.
Definition has_atm (t : vty) : bool := match t with Tb _ _ a _ => a | _ => false end.
Definition has_mtp (t : vty) : bool := match t with Tb _ _ _ m => m | _ => false end.
Definition possible (t : vty) : bool := match t with Tnever => false | _ => true end.

Definition subty (t t' : vty) : bool :=
  match t, t' with
  | Tnever, _ | _, Tany => true
  | Tin l, Tin l' => forallb (fun x => one_of x l') l
  | Tin _, Ti | Ti, Ti | Te, Te | Ts, Ts | Ta, Ta | Tr, Tr => true
  | Tb b q a m, Tb b' q' a' m' => implb b' b && implb q' q && implb a' a && implb m' m
  | _, _ => false
  end.
Definition jointy (t t' : vty) : vty :=
  if subty t t' then t'
  else
    match t, t' with
    | _, Tnever => t
    | Tin l, Tin l' => Tin (l ++ l')
    | Ti, Tin _ => Ti
    | Tb b q a m, Tb b' q' a' m' => Tb (b && b') (q && q') (a && a') (m && m')
    | _, _ => Tany
    end.
Definition join_all (l : list vty) : vty := foldr jointy Tnever l.

(** ** The types of the rules

    The type of [$$], from those of the symbols of the rule, of [$0] and of
    [$-1]; there is none if the action needs a field that may be missing. *)
Section Rules.
Context (ty : nat -> vty) (ty0 ty_below : vty) (yyval : vty).

Definition need (b : bool) (t : vty) : option vty := if b then Some t else None.
(** A copy of a value does not own its block. *)
Definition copy (t : vty) : vty :=
  match t with Tb _ q a m => Tb false q a m | Ta | Tr => Tany | t => t end.

(** The fields that [$$] has before the action stay. *)
Definition with_b_q : vty := Tb true true (has_atm yyval) (has_mtp yyval).
Definition relops : list Z := [BPF_JGT; BPF_JGE; BPF_JEQ].

Definition expr_ty (n : Z) : option (option vty) :=
  match n with
  | 4 => Some (Some (Tb false true false false))
  | 6 | 7 | 27 | 8 | 9 | 28 => Some (need (has_b (ty 1) && has_b (ty 3)) (ty 3))
  | 10 | 11 | 24 | 25 => Some (Some (copy ty0))
  | 13 | 29 => Some (need (isint (ty 1) && has_q ty0) with_b_q)
  | 14 | 39 => Some (Some (ty 2))
  | 15 | 18 | 20 => Some (need (is_s (ty 1) && has_q ty0) with_b_q)
  | 16 | 19 => Some (need (is_s (ty 1) && isint (ty 3) && has_q ty0) with_b_q)
  | 17 => Some (need (is_s (ty 1) && is_s (ty 3) && has_q ty0) with_b_q)
  | 21 | 22 => Some (need (is_e (ty 1) && has_q ty0) with_b_q)
  | 23 | 32 => Some (need (has_b (ty 2)) (ty 2))
  | _ => None
  end.

(** The qualifiers of the grammar other than [protochain]. *)
Definition quals : list Z :=
  [Q_HOST; Q_NET; Q_PORT; Q_PORTRANGE; Q_GATEWAY; Q_PROTO].

Definition term_ty (n : Z) : option (option vty) :=
  let q := Tb false true (has_atm yyval) (has_mtp yyval) in
  match n with
  | 33 => Some (need (isint (ty 1) && isint (ty 2) && is_in quals (ty 3)) q)
  | 34 => Some (need (isint (ty 1) && isint (ty 2)) q)
  | 35 | 38 => Some (need (isint (ty 1) && is_in quals (ty 2)) q)
  | 36 => Some (need (isint (ty 1)) q)
  | 37 => Some (need (isint (ty 1)) (Tb false false (has_atm yyval) (has_mtp yyval)))
  | 40 => Some (need (has_b (ty 2) && has_q (ty 1)) with_b_q)
  | 41 | 45 | 46 | 48 => Some (need (isint (ty 1)) with_b_q)
  | 42 | 43 => Some (need (is_a (ty 1) && is_in relops (ty 2) && is_a (ty 3)) with_b_q)
  | 44 => Some (need (is_r (ty 1)) with_b_q)
  | 47 | 49 | 188 | 202 => Some (need (has_b (ty 2)) with_b_q)
  | _ => None
  end.

Definition other_ty (n : Z) : option (option vty) :=
  match n with
  | 108 | 109 => Some (need (isint (ty 1)) Tr)
  | 110 | 111 | 115 | 117 | 130 | 131 | 132 => Some (need (isint (ty 2)) Tr)
  | 112 => Some (need (isint (ty 2) && isint (ty 3) && isint (ty 4)) Tr)
  | 113 | 114 | 116 | 118 | 119 | 120 | 123 | 124 | 125 | 126 | 127 | 128 => Some (Some Tr)
  | 121 => Some (need (is_r (ty 1)) Tr)
  | 122 => Some (need (is_r (ty 2)) Tr)
  | 129 => Some (need (isint (ty 2) && isint (ty 4)) Tr)
  | _ => None
  end.

Definition names_ty (n : Z) : option (option vty) :=
  match n with
  | 134 | 137 | 139 => Some (need (is_s (ty 1)) Ti)
  | 136 => Some (need (is_s (ty 1) && isint ty_below) Ti)
  | 140 => Some (need (isint (ty 1)) Ti)
  | 141 | 142 => Some (Some Ti)
  | _ => None
  end.

Definition arth_ty (n : Z) : option (option vty) :=
  match n with
  | 149 => Some (need (isint (ty 1)) Ta)
  | 151 => Some (need (isint (ty 1) && is_a (ty 3)) Ta)
  | 152 => Some (need (isint (ty 1) && is_a (ty 3) && isint (ty 5)) Ta)
  | 153 | 154 | 155 | 156 | 157 | 158 | 159 | 160 => Some (need (is_a (ty 1) && is_a (ty 3)) Ta)
  | 161 | 162 => Some (need (is_a (ty 2)) Ta)
  | 163 => Some (Some Ta)
  | 170 => Some (need (isint (ty 2)) Ti)
  | _ => None
  end.

Definition field_ty (n : Z) : option (option vty) :=
  let b := has_b yyval in let q := has_q yyval in let a := has_atm yyval in let m := has_mtp yyval in
  match n with
  | 183 | 184 => Some (Some (Tb b q true m))
  | 186 | 187 => Some (need (has_atm ty0 && isint (ty 2) && is_in relops (ty 1)) (Tb true q a m))
  | 189 => Some (need (has_atm ty0 && isint (ty 1)) (Tb true q true m))
  | 191 | 205 => Some (need (has_b (ty 1) && has_b (ty 3)) (ty 3))
  | 195 | 196 | 197 | 198 => Some (Some (Tb b q a true))
  | 200 | 201 => Some (need (has_mtp ty0 && isint (ty 2) && is_in relops (ty 1)) (Tb true q a m))
  | 203 => Some (need (has_mtp ty0 && isint (ty 1)) (Tb true q a true))
  | _ => None
  end.

(** As in [yyaction]. *)
Definition rule_ty (n : Z) : option vty :=
  match assoc const_rules n with
  | Some i => Some (Tin [i])
  | None =>
      default (Some yyval)
        (from_option Some (from_option Some (from_option Some (from_option Some (from_option Some
          (field_ty n) (arth_ty n)) (names_ty n)) (other_ty n)) (term_ty n)) (expr_ty n))
  end.
End Rules.

(** ** The tables as a graph *)

Definition states : list Z := seqZ 0 277.
Definition is_state (s : Z) : bool := (0 <=? s) && (s <? 277).
Definition mem (x : Z) (l : list Z) : bool := one_of x l.

(** The rows of [yytable]: index, token and action. *)
Fixpoint cells (i : Z) (cs ts : list Z) : list (Z * Z * Z) :=
  match cs, ts with
  | c :: cs, t :: ts => (i, c, t) :: cells (i + 1) cs ts
  | _, _ => []
  end.
(** The actions on tokens of a state with the offset [pact]. *)
Definition actions (pact : Z) : list (Z * Z) :=
  omap (fun '(i, c, a) => if c =? i - pact then Some (c, a) else None) (cells 0 yycheck yytable).

Definition goto (n top : Z) : option Z :=
  lhs ← nthZ yyr1 n;
  base ← nthZ yypgoto (lhs - YYNTOKENS);
  other ← nthZ yydefgoto (lhs - YYNTOKENS);
  let i := base + top in
  if (0 <=? i) && (i <=? YYLAST) then
    c ← nthZ yycheck i;
    if c =? top then nthZ yytable i else Some other
  else Some other.

(** The states below those of a list, and the levels that a rule pops. *)
Definition add (x : Z) (l : list Z) : list Z := if mem x l then l else x :: l.
Definition under (l : list Z) : list Z := foldr (fun s acc => foldr add acc (below s)) [] l.
Fixpoint levels (ok : Z -> bool) (n : nat) (l : list Z) : list (list Z) * list Z :=
  match n with
  | O => ([], l)
  | S n => let '(ls, bases) := levels ok n (List.filter ok (under l)) in (l :: ls, bases)
  end.

(** A check of all that a state does, from one of the rules and one of the
    tokens. *)
Section Check.
Context (reduce : Z -> Z -> bool) (shift : Z -> Z -> Z -> bool).

Definition action_ok (s : Z) (ta : Z * Z) : bool :=
  let '(t, a) := ta in
  if a <=? 0 then (a =? 0) || (a =? YYTABLE_NINF) || reduce s (- a) else (a =? YYFINAL) || shift s t a.
Definition state_ok (s : Z) : bool :=
  match nthZ yypact s, nthZ yydefact s with
  | Some pact, Some d =>
      ((d =? 0) || reduce s d) && ((pact =? YYPACT_NINF) || forallb (action_ok s) (actions pact))
  | _, _ => false
  end.
End Check.

(** ** The weights *)

Definition weights (l : list Z) : Z := foldr (fun s acc => Z.min (weight s) acc) 100 l.
Definition popped (ls : list (list Z)) : Z := foldr (fun l acc => weights l + acc) 0 ls.

(** The two rules whose left side is [prog]. *)
Definition is_prog (n : Z) : bool := (n =? 2) || (n =? 3).

Definition base_ok (n : Z) (w : Z) (base : Z) : bool :=
  match goto n base with
  | Some q => is_state q && mem base (below q) && (weight q + 1 <=? w) && Bool.eqb (q =? 1) (is_prog n)
  | None => false
  end.
Definition reduce_ok (s n : Z) : bool :=
  match nthZ yyr2 n with
  | Some len =>
      let '(ls, bases) := levels (fun _ => true) (Z.to_nat len) [s] in
      forallb (fun l => negb (mem 0 l)) ls && forallb (base_ok n (popped ls)) bases
  | None => false
  end.
Definition shift_ok (s t q : Z) : bool :=
  negb (t =? YYEOF) && negb (q =? 1) && is_state q && mem s (below q) && (weight q <=? 3).
Definition least_ok (s : Z) : bool :=
  (-4 <=? least s) &&
  forallb (fun p => is_state p && (least s <=? least p + weight s)) (below s).

(** ** The types *)

Definition token_ty (c : Z) : vty :=
  if c =? NUM then Ti
  else if one_of c [ID; HID; HID6] then Ts
  else if one_of c [EID; AID] then Te
  else if c =? PROTOCHAIN then Tnever
  else Tany.
(** The same by the parser's own numbers of the tokens. *)
Definition symbol_ty (t : Z) : vty :=
  if t =? 37 then Ti
  else if one_of t [59; 61; 62] then Ts
  else if one_of t [60; 63] then Te
  else if t =? 14 then Tnever
  else Tany.

Definition has_value (s : Z) : bool := possible (kind s).
Definition kinds (l : list Z) : vty := join_all (map kind l).

Definition typed_base (n : Z) (ls : list (list Z)) (base : Z) : bool :=
  let ty k := nth (length ls - k) (map kinds ls) Tany in
  let yyval := if (length ls =? 0)%nat then Tany else ty 1%nat in
  match goto n base, rule_ty ty (kind base) (kinds (under [base])) yyval n with
  | Some q, Some t => subty t (kind q) && (negb (n =? 2) || has_b (ty 2%nat))
  | _, _ => false
  end.
Definition typed_reduce (s n : Z) : bool :=
  match nthZ yyr2 n with
  | Some len =>
      let '(ls, bases) := levels has_value (Z.to_nat len) [s] in
      forallb (typed_base n ls) bases
  | None => false
  end.
Definition typed_shift (s t q : Z) : bool := subty (symbol_ty t) (kind q).

(** The token [c] has the number [t] in the tables. *)
Fixpoint translate_ok (c : Z) (l : list Z) : bool :=
  match l with
  | [] => true
  | t :: l => subty (token_ty c) (symbol_ty t) && negb ((0 <? c) && (t =? 0)) && translate_ok (c + 1) l
  end.
