(* ===== verification/GencodeSpec.v ===== *)
(** What the combinators of [gencode.c] build: a flow graph that decides a
    boolean expression over the tests at its leaves. *)
From S2P Require Import Prelude Bpf BpfFilter Gencode.

#[local] Open Scope c_scope.
#[local] Open Scope gen_scope.

(** ** Expressions and the graphs that decide them *)

(** What a statement does: its code and its [k]. *)
Definition op_of (s : slist) : Z * Z := (sl_code s, sl_k s).

(** A leaf is the statements and the branch of a block. *)
Inductive bexp :=
| ELeaf (ss : list (Z * Z)) (code k : Z)
| EAnd (e1 e2 : bexp)
| EOr (e1 e2 : bexp)
| ENot (e : bexp).

(** The flags of a block that say whether a branch is a long one. *)
Definition flag (n : Z) : Prop := n = 0 \/ n = 1.

(** [graph h b e t f]: the blocks from [b] decide [e], going on at [t] if it
    holds and at [f] if it does not. *)
Inductive graph (h : heap) : nat -> bexp -> nat -> nat -> Prop :=
| graph_leaf b blk t f :
    h !! b = Some blk -> b_jt blk = Some t -> b_jf blk = Some f ->
    flag (b_longjt blk) -> flag (b_longjf blk) ->
    graph h b (ELeaf (map op_of (b_stmts blk)) (b_code blk) (b_k blk)) t f
| graph_and b e1 e2 m t f : graph h b e1 m f -> graph h m e2 t f -> graph h b (EAnd e1 e2) t f
| graph_or b e1 e2 m t f : graph h b e1 t m -> graph h m e2 t f -> graph h b (EOr e1 e2) t f
| graph_not b e t f : graph h b e f t -> graph h b (ENot e) t f.

(** ** Lists of incomplete blocks *)

(** The branch of a block that its [sense] does not select. *)
Definition unlink (b : block) : option nat := if b_sense b then b_jt b else b_jf b.

(** [chain h o l]: following the links from [o] visits the blocks [l]. *)
Fixpoint chain (h : heap) (o : option nat) (l : list nat) : Prop :=
  match l with
  | [] => o = None
  | c :: l => o = Some c /\ exists b, h !! c = Some b /\ chain h (link b) l
  end.

Lemma chain_ext h h' o l :
  (forall c b, c ∈ l -> h !! c = Some b -> exists b', h' !! c = Some b' /\ link b' = link b) ->
  chain h o l -> chain h' o l.
Proof.
  revert o. induction l as [|c l IH]; intros o Hx; [done|]. cbn. intros (-> & b & Hb & Hc).
  split; [done|]. destruct (Hx c b) as (b' & Hb' & Hl); [set_solver|done|].
  exists b'. split; [done|]. rewrite Hl. apply IH; [|done]. intros. apply Hx; [set_solver|done].
Qed.

Lemma link_with_link b t : link (with_link b t) = t.
Proof. destruct b as [? ? ? ? ? []]; done. Qed.
Lemma unlink_with_link b t : unlink (with_link b t) = unlink b.
Proof. destruct b as [? ? ? ? ? []]; done. Qed.
Lemma link_flip b : link (flip_sense b) = unlink b.
Proof. destruct b as [? ? ? ? ? []]; done. Qed.
Lemma unlink_flip b : unlink (flip_sense b) = link b.
Proof. destruct b as [? ? ? ? ? []]; done. Qed.

(** [backpatch] sets the link of every block of the list. *)
Lemma backpatch_spec fuel h o l target :
  chain h o l -> NoDup l -> (length l <= fuel)%nat ->
  exists h', backpatch fuel h o target = Some h' /\
    forall c, h' !! c = if decide (c ∈ l) then (fun b => with_link b (Some target)) <$> h !! c
                        else h !! c.
Proof.
  revert fuel h o. induction l as [|c l IH]; intros fuel h o Hc Hnd Hf; cbn in Hc.
  - subst. exists h. destruct fuel; split; done.
  - destruct Hc as (-> & b & Hb & Hc). apply NoDup_cons in Hnd as [Hn Hnd].
    destruct fuel as [|fuel]; simpl in Hf; [lia|]. cbn [backpatch]. rewrite Hb.
    destruct (IH fuel (<[c := with_link b (Some target)]> h) (link b)) as (h' & -> & Hh'); [|done|lia|].
    + eapply chain_ext; [|exact Hc]. intros d bd Hd Hbd. exists bd. split; [|done].
      by rewrite lookup_insert_ne by (intros ->; done).
    + exists h'. split; [done|]. intros d. rewrite Hh'. destruct (decide (d = c)) as [->|Hne].
      * rewrite decide_False, decide_True, lookup_insert_eq, Hb by set_solver. done.
      * rewrite lookup_insert_ne by done. destruct (decide (d ∈ l)); [by rewrite decide_True by set_solver|].
        by rewrite decide_False by set_solver.
Qed.

(** [merge] sets the link of the last block of a list, and joins two lists. *)
Lemma merge_spec fuel h b0 l b1 :
  chain h (Some b0) (b0 :: l) -> NoDup (b0 :: l) -> (S (length l) <= fuel)%nat ->
  exists h' z, merge fuel h b0 b1 = Some h' /\ z ∈ b0 :: l /\
    (forall c, h' !! c = if decide (c = z) then (fun b => with_link b (Some b1)) <$> h !! c
                         else h !! c) /\
    forall l', b1 ∉ b0 :: l -> chain h' (Some b1) l' -> chain h' (Some b0) (b0 :: l ++ l').
Proof.
  revert fuel b0. induction l as [|c l IH]; intros fuel b0 Hc Hnd Hf;
    (destruct fuel as [|fuel]; simpl in Hf; [lia|]); cbn in Hc;
    destruct Hc as (_ & b & Hb & Hc); cbn [merge]; rewrite Hb.
  - rewrite Hc. eexists _, b0. split; [done|]. split; [set_solver|].
    assert (Hl : forall c, <[b0:=with_link b (Some b1)]> h !! c =
      if decide (c = b0) then (fun b => with_link b (Some b1)) <$> h !! c else h !! c).
    { intros c. destruct (decide (c = b0)) as [->|]; [by rewrite lookup_insert_eq, Hb|].
      by rewrite lookup_insert_ne. }
    split; [exact Hl|]. intros l' Hn Hc'. split; [done|].
    exists (with_link b (Some b1)). rewrite lookup_insert_eq, link_with_link. done.
  - destruct Hc as (Hlk & Hc). rewrite Hlk. apply NoDup_cons in Hnd as [Hn Hnd].
    destruct (IH fuel c) as (h' & z & -> & Hz & Hh' & Hch); [by split|done|lia|].
    exists h', z. split; [done|]. split; [set_solver|]. split; [done|].
    intros l' Hn' Hc'. cbn [app]. split; [done|]. exists b. rewrite Hh'.
    rewrite decide_False by set_solver. split; [done|]. rewrite Hlk.
    apply Hch; [set_solver|done].
Qed.

(** ** Incomplete graphs

    [D] are the blocks of an incomplete graph with the pointer [p] that
    decides [e]; besides [p], the blocks [T] still lack the branch to take
    when [e] holds, and the blocks [F] the one to take when it does not. *)
Definition get (s : bool) (b : block) : option nat := if s then b_jf b else b_jt b.

Lemma get_link b : get (b_sense b) b = link b.
Proof. done. Qed.
Lemma get_unlink b : get (negb (b_sense b)) b = unlink b.
Proof. unfold get, unlink. by destruct (b_sense b). Qed.

(** What no step of the generator changes in a block that has its branch. *)
Definition b_rest (b : block) : Z * Z * Z := (b_k b, b_longjt b, b_longjf b).

(** [h'] has the blocks of [h] with the missing branches filled in. *)
Definition fits (h' h : heap) (D : gset nat) (p : nat) (T F : list nat) (t f : nat) : Prop :=
  forall c b, c ∈ D -> h !! c = Some b ->
  exists b', h' !! c = Some b' /\
    b_stmts b' = b_stmts b /\ b_code b' = b_code b /\ b_rest b' = b_rest b /\
    get (b_sense b) b' = (if decide (c = p \/ c ∈ T) then Some t
                          else if decide (c ∈ F) then Some f else link b) /\
    get (negb (b_sense b)) b' = (if decide (c = p) then Some f else unlink b).

Record opened (h : heap) (p : nat) (e : bexp) (D : gset nat) (T F : list nat) (b : block) : Prop :=
  Opened {
    op_block : h !! p = Some b;
    op_true : chain h (link b) T;
    op_false : chain h (unlink b) F;
    op_nodup : NoDup (p :: T ++ F);
    op_in : forall c, c ∈ p :: T ++ F -> c ∈ D;
    op_dom : forall c, c ∈ D -> is_Some (h !! c);
    op_fits : forall h' t f, fits h' h D p T F t f -> graph h' (b_head b) e t f }.

(** What an incomplete graph is does not depend on the other blocks. *)
Lemma opened_ext h h' p e D T F b :
  (forall c, c ∈ D -> h' !! c = h !! c) -> opened h p e D T F b -> opened h' p e D T F b.
Proof.
  intros Hx [Hb Ht Hf Hn Hi Hd Hg]. assert (Hc : forall o l, (forall c, c ∈ l -> c ∈ D) ->
    chain h o l -> chain h' o l).
  { intros o l Hl. apply chain_ext. intros c bc Hcl Hbc. exists bc. by rewrite Hx by auto. }
  split.
  - rewrite Hx; [done|]. apply Hi. by constructor.
  - apply Hc; [|done]. intros c Hcl. apply Hi. constructor. apply elem_of_app. by left.
  - apply Hc; [|done]. intros c Hcl. apply Hi. constructor. apply elem_of_app. by right.
  - done.
  - done.
  - intros c Hcd. rewrite Hx by done. by apply Hd.
  - intros h2 t f Hfit. apply Hg. intros c bc Hcd Hbc. apply Hfit; [done|]. by rewrite Hx.
Qed.

(** [new_block] and the assignments after it. *)
Lemma opened_leaf h p ss code k :
  h !! p = Some (Block ss code k None None false p 0 0 0) ->
  opened h p (ELeaf (map op_of ss) code k) {[p]} [] [] (Block ss code k None None false p 0 0 0).
Proof.
  intros Hp. split; try done.
  - by apply NoDup_singleton.
  - intros c. rewrite list_elem_of_singleton. set_solver.
  - intros c ->%elem_of_singleton. by rewrite Hp.
  - intros h' t f Hf. destruct (Hf p _ ltac:(set_solver) Hp) as (b' & Hb' & Hs & Hc & Hk & Ht & Hff).
    cbn in *. rewrite decide_True in Ht by auto. rewrite decide_True in Hff by auto. injection Hk as Hk Hlt Hlf.
    subst. apply graph_leaf; [done|done|done|by left|by left].
Qed.

(** [gen_not] *)
Lemma opened_not h p e D T F b :
  opened h p e D T F b ->
  opened (<[p := flip_sense b]> h) p (ENot e) D F T (flip_sense b).
Proof.
  intros [Hb Ht Hf Hn Hi Hd Hg]. pose proof Hn as Hn'. apply NoDup_cons in Hn' as [Hp _].
  assert (Hc : forall o l, (p ∉ l) -> chain h o l -> chain (<[p := flip_sense b]> h) o l).
  { intros o l Hl. apply chain_ext. intros c bc Hcl Hbc. exists bc.
    rewrite lookup_insert_ne by (intros ->; done). done. }
  rewrite elem_of_app in Hp.
  split.
  - apply lookup_insert_eq.
  - rewrite link_flip. apply Hc; tauto.
  - rewrite unlink_flip. apply Hc; tauto.
  - by rewrite (Permutation_app_comm F T).
  - intros c. rewrite (Permutation_app_comm F T). apply Hi.
  - intros c Hcd. destruct (decide (c = p)) as [->|]; [by rewrite lookup_insert_eq|].
    rewrite lookup_insert_ne by done. by apply Hd.
  - intros h' t f Hfit. apply graph_not. change (b_head (flip_sense b)) with (b_head b). apply Hg.
    intros c bc Hcd Hbc. destruct (decide (c = p)) as [->|Hne].
    + rewrite Hb in Hbc. injection Hbc as <-.
      destruct (Hfit p (flip_sense b) Hcd ltac:(apply lookup_insert_eq)) as (b' & H1 & H2 & H3 & H4 & H5 & H6).
      exists b'. split_and!; try done.
      * rewrite decide_True in H6 by auto. rewrite decide_True by auto. cbn in H6. by rewrite negb_involutive in H6.
      * rewrite decide_True in H5 by auto. exact H5.
    + destruct (Hfit c bc Hcd) as (b' & H1 & H2 & H3 & H4 & H5 & H6); [by rewrite lookup_insert_ne|].
      exists b'. split_and!; try done.
      * rewrite H5. assert (Hx : c ∈ T -> c ∈ F -> False).
        { intros HT HF. apply NoDup_cons in Hn as [_ (_ & Hn & _)%NoDup_app]. eapply Hn; eauto. }
        repeat (case_decide); tauto.
      * rewrite H6. by rewrite !decide_False by done.
Qed.

(** ** The steps of the generator *)

Definition set_heap (s : gst) (h : heap) : gst := Gst h (g_next s) (g_off s) (g_regs s).

Lemma update_eq s b f blk :
  g_heap s !! b = Some blk -> update b f s = inr (tt, set_heap s (<[b := f blk]> (g_heap s))).
Proof. intros Hb. unfold update, on_heap. by rewrite Hb. Qed.

Lemma get_block_eq s b blk : g_heap s !! b = Some blk -> get_block b s = inr (blk, s).
Proof. intros Hb. unfold get_block. by rewrite Hb. Qed.

Lemma bind_eq {A B} (g : gen A) (k : A -> gen B) s a s' :
  g s = inr (a, s') -> bind g k s = k a s'.
Proof. intros Hg. unfold bind. by rewrite Hg. Qed.

(** A list without repetitions is no longer than the heap is large. *)
Lemma chain_fuel (h : heap) l :
  NoDup l -> (forall c, c ∈ l -> is_Some (h !! c)) -> (length l <= S (base.size h))%nat.
Proof.
  intros Hn Hd. rewrite <- size_dom, <- (size_list_to_set (C := gset nat) l Hn).
  apply Nat.le_le_succ_r, subseteq_size. intros c Hc. apply elem_of_dom, Hd.
  by apply elem_of_list_to_set in Hc.
Qed.

Lemma backpatch_m_eq s p l target :
  chain (g_heap s) (Some p) l -> NoDup l -> (forall c, c ∈ l -> is_Some (g_heap s !! c)) ->
  exists h', backpatch_m p target s = inr (tt, set_heap s h') /\
    forall c, h' !! c = if decide (c ∈ l) then (fun b => with_link b (Some target)) <$> g_heap s !! c
                        else g_heap s !! c.
Proof.
  intros Hc Hn Hd. unfold backpatch_m, on_heap.
  destruct (backpatch_spec (S (base.size (g_heap s))) _ _ l target Hc Hn) as (h' & -> & Hh');
    [by apply chain_fuel|]. by exists h'.
Qed.

Lemma merge_m_eq s b0 l b1 :
  chain (g_heap s) (Some b0) (b0 :: l) -> NoDup (b0 :: l) ->
  (forall c, c ∈ b0 :: l -> is_Some (g_heap s !! c)) ->
  exists h' z, merge_m b0 b1 s = inr (tt, set_heap s h') /\ z ∈ b0 :: l /\
    (forall c, h' !! c = if decide (c = z) then (fun b => with_link b (Some b1)) <$> g_heap s !! c
                         else g_heap s !! c) /\
    forall l', b1 ∉ b0 :: l -> chain h' (Some b1) l' -> chain h' (Some b0) (b0 :: l ++ l').
Proof.
  intros Hc Hn Hd. unfold merge_m, on_heap.
  destruct (merge_spec (S (base.size (g_heap s))) _ b0 l b1 Hc Hn) as (h' & z & -> & H);
    [by apply (chain_fuel _ _ Hn Hd)|]. by exists h', z.
Qed.

(** ** [gen_and] and [gen_or] *)

(** A graph whose open ends on the true side have been led to [tg] and whose
    pointer has been turned over: the blocks of [p :: K] lack the branch to
    take when [e] does not hold. *)
Definition fits_false (h' h : heap) (D : gset nat) (p : nat) (K : list nat) (f : nat) : Prop :=
  forall c b, c ∈ D -> h !! c = Some b ->
  exists b', h' !! c = Some b' /\
    b_stmts b' = b_stmts b /\ b_code b' = b_code b /\ b_rest b' = b_rest b /\
    get (b_sense b) b' = (if decide (c ∈ p :: K) then Some f else link b) /\
    get (negb (b_sense b)) b' = unlink b.

Record patched (h : heap) (p : nat) (e : bexp) (D : gset nat) (K : list nat) (tg : nat) (b : block)
    : Prop := Patched {
  pa_block : h !! p = Some b;
  pa_chain : chain h (Some p) (p :: K);
  pa_nodup : NoDup (p :: K);
  pa_in : forall c, c ∈ p :: K -> c ∈ D;
  pa_dom : forall c, c ∈ D -> is_Some (h !! c);
  pa_fits : forall h' f, fits_false h' h D p K f -> graph h' (b_head b) e tg f }.

Lemma patched_ext h h' p e D K tg b :
  (forall c, c ∈ D -> h' !! c = h !! c) -> patched h p e D K tg b -> patched h' p e D K tg b.
Proof.
  intros Hx [Hb Hc Hn Hi Hd Hg]. split; try done.
  - rewrite Hx; [done|]. apply Hi. by constructor.
  - eapply chain_ext; [|exact Hc]. intros c bc Hcl Hbc. exists bc. by rewrite Hx by auto.
  - intros c Hcd. rewrite Hx by done. by apply Hd.
  - intros h2 f Hf. apply Hg. intros c bc Hcd Hbc. apply Hf; [done|]. by rewrite Hx.
Qed.

Lemma opened_patched h h1 p e D T F b tg :
  opened h p e D T F b ->
  (forall c, h1 !! c = if decide (c ∈ p :: T) then (fun b => with_link b (Some tg)) <$> h !! c
                       else h !! c) ->
  let x := flip_sense (with_link b (Some tg)) in
  patched (<[p := x]> h1) p e D F tg x.
Proof.
  intros [Hb Ht Hf Hn Hi Hd Hg] Hh1 x. pose proof Hn as (Hp & HTF)%NoDup_cons.
  apply NoDup_app in HTF as (_ & Hdj & HnF). rewrite elem_of_app in Hp.
  assert (Hother : forall c, c <> p -> c ∉ T -> <[p := x]> h1 !! c = h !! c).
  { intros c H1 H2. rewrite lookup_insert_ne, Hh1 by done.
    rewrite decide_False; [done|]. rewrite elem_of_cons. tauto. }
  assert (HT : forall c, c ∈ T -> <[p := x]> h1 !! c = (fun b => with_link b (Some tg)) <$> h !! c).
  { intros c H1. assert (c <> p) by (intros ->; tauto). rewrite lookup_insert_ne, Hh1 by done.
    rewrite decide_True; [done|]. by constructor. }
  split.
  - apply lookup_insert_eq.
  - cbn [chain]. split; [done|]. exists x. rewrite lookup_insert_eq. split; [done|].
    unfold x. rewrite link_flip, unlink_with_link. eapply chain_ext; [|exact Hf].
    intros c bc HcF Hbc. exists bc. rewrite Hother; [done|by intros ->; tauto|]. intros HcT. by apply (Hdj c).
  - apply NoDup_cons. tauto.
  - intros c Hc. apply Hi. rewrite elem_of_cons in Hc |- *. rewrite elem_of_app. tauto.
  - intros c Hc. destruct (Hd c Hc) as [bc Hbc].
    destruct (decide (c = p)) as [->|]; [by rewrite lookup_insert_eq|].
    destruct (decide (c ∈ T)); [by rewrite HT, Hbc|by rewrite Hother, Hbc].
  - intros h' f Hff. replace (b_head x) with (b_head b) by (by destruct b as [? ? ? ? ? []]).
    apply Hg. intros c bc Hc Hbc. destruct (decide (c = p)) as [->|Hne].
    + rewrite Hb in Hbc. injection Hbc as <-.
      destruct (Hff p x Hc ltac:(apply lookup_insert_eq)) as (b' & E1 & E2 & E3 & E4 & E5 & E6).
      exists b'. rewrite decide_True in E5 by constructor.
      unfold x in *. rewrite unlink_flip, link_with_link in E6.
      destruct b as [? ? ? ? ? []]; split_and!; try done; cbn in *; by rewrite decide_True by auto.
    + destruct (decide (c ∈ T)) as [HcT|HcT].
      * destruct (Hff c (with_link bc (Some tg)) Hc) as (b' & E1 & E2 & E3 & E4 & E5 & E6);
          [by rewrite HT, Hbc|].
        rewrite decide_False, link_with_link in E5
          by (rewrite elem_of_cons; intros [->|HcF]; [done|by apply (Hdj c)]).
        rewrite unlink_with_link in E6. exists b'.
        destruct bc as [? ? ? ? ? []]; split_and!; try done; cbn in *;
          by rewrite decide_True by auto.
      * destruct (Hff c bc Hc) as (b' & E1 & E2 & E3 & E4 & E5 & E6); [by rewrite Hother|].
        exists b'. split_and!; try done.
        -- rewrite E5. rewrite (decide_False (P := c = p \/ c ∈ T)) by tauto.
           destruct (decide (c ∈ F)); [by rewrite decide_True by (by constructor)|].
           rewrite decide_False; [done|]. rewrite elem_of_cons. tauto.
Qed.

(** [merge], and the new [head]: the open ends of the patched graph join those
    on the true side of the second one. *)
Lemma opened_merge h h1 b0 e0 D0 K x0 b1 e1 D1 T1 F1 blk1 z y :
  patched h b0 e0 D0 K (b_head blk1) x0 -> opened h b1 e1 D1 T1 F1 blk1 -> D0 ## D1 ->
  z ∈ b1 :: T1 ->
  (forall c, h1 !! c = if decide (c = z) then (fun b => with_link b (Some b0)) <$> h !! c
                       else h !! c) ->
  (forall l', b0 ∉ b1 :: T1 -> chain h1 (Some b0) l' -> chain h1 (Some b1) (b1 :: T1 ++ l')) ->
  h1 !! b1 = Some y ->
  opened (<[b1 := with_head y (b_head x0)]> h1) b1 (EOr (ENot e0) e1) (D0 ∪ D1)
         (T1 ++ b0 :: K) F1 (with_head y (b_head x0)).
Proof.
  intros [Ha Hc Hn Hi Hd Hg] [Hb Ht Hf Hn1 Hi1 Hd1 Hg1] HD Hz Hh1 Hch Hy.
  set (x1 := with_head y _). set (h2 := <[b1 := x1]> h1).
  assert (Hdisj : forall c, c ∈ b0 :: K -> c ∈ b1 :: T1 ++ F1 -> False).
  { intros c H1 H2. apply (HD c); [by apply Hi|by apply Hi1]. }
  pose proof Hn1 as (Hp & HTF)%NoDup_cons. apply NoDup_app in HTF as (HnT & HTF & HnF).
  assert (Hz1 : z ∈ b1 :: T1 ++ F1) by (rewrite elem_of_cons, elem_of_app in *; tauto).
  assert (Hyu : unlink y = unlink blk1 /\ b_sense y = b_sense blk1 /\ b_stmts y = b_stmts blk1 /\
                b_code y = b_code blk1 /\ b_rest y = b_rest blk1).
  { rewrite Hh1, Hb in Hy. destruct (decide (b1 = z)); simpl in Hy; injection Hy as <-; [|done].
    rewrite unlink_with_link. by destruct blk1 as [? ? ? ? ? []]. }
  destruct Hyu as (Hyu & Hys & Hyst & Hyc & Hyk).
  assert (H0 : forall c, c ∈ D0 -> h2 !! c = h !! c).
  { intros c Hc0. assert (c ∉ b1 :: T1 ++ F1) by (intros Hc1; apply (HD c); auto).
    unfold h2. rewrite lookup_insert_ne, Hh1, decide_False; [done|..]; intros ->; [done|].
    by apply H; constructor. }
  assert (Hother : forall c, c <> b1 -> c <> z -> h2 !! c = h !! c).
  { intros c H1 H2. unfold h2. rewrite lookup_insert_ne, Hh1 by done. by rewrite decide_False. }
  assert (Hchain : chain h1 (Some b1) (b1 :: T1 ++ b0 :: K)).
  { apply Hch.
    - intros H1. apply (Hdisj b0); [constructor|]. rewrite elem_of_cons, elem_of_app in *. tauto.
    - eapply chain_ext; [|exact Hc]. intros c bc Hc0 Hbc. exists bc.
      rewrite Hh1, decide_False; [done|]. intros ->. by apply (Hdisj z). }
  assert (HF1 : forall c, c ∈ F1 -> c <> b1 /\ c <> z).
  { intros c Hc1. split; intros ->; [apply Hp, elem_of_app; by right|].
    apply elem_of_cons in Hz as [->|Hz]; [apply Hp, elem_of_app; by right|]. by apply (HTF z). }
  split.
  - apply lookup_insert_eq.
  - destruct Hchain as (_ & y' & Hy' & Hchain). rewrite Hy in Hy'. injection Hy' as <-.
    replace (link x1) with (link y) by (by destruct y as [? ? ? ? ? []]).
    eapply chain_ext; [|exact Hchain]. intros c bc Hcl Hbc. exists bc. fold h2.
    unfold h2. rewrite lookup_insert_ne; [done|]. intros <-.
    apply elem_of_app in Hcl as [Hcl|Hcl]; [apply Hp, elem_of_app; by left|].
    apply (Hdisj b1); [done|constructor].
  - replace (unlink x1) with (unlink blk1) by (rewrite <- Hyu; by destruct y as [? ? ? ? ? []]).
    eapply chain_ext; [|exact Hf]. intros c bc Hcl Hbc. exists bc. fold h2.
    destruct (HF1 c Hcl). by rewrite Hother.
  - rewrite <- app_assoc, app_comm_cons. apply NoDup_app. split; [|split].
    + apply NoDup_cons. split; [|done]. intros H1. apply Hp, elem_of_app. by left.
    + intros c H1 H2. rewrite elem_of_app in H2. destruct H2 as [H2|H2].
      * apply (Hdisj c H2). rewrite elem_of_cons, elem_of_app in *. tauto.
      * destruct (HF1 c H2). apply elem_of_cons in H1 as [->|H1]; [done|]. by apply (HTF c).
    + apply NoDup_app. split; [done|]. split; [|done]. intros c H1 H2. apply (Hdisj c H1).
      rewrite elem_of_cons, elem_of_app. tauto.
  - intros c H1. rewrite elem_of_cons, !elem_of_app in H1. apply elem_of_union.
    destruct H1 as [->|[[H1|H1]|H1]].
    + right. apply Hi1. constructor.
    + right. apply Hi1. rewrite elem_of_cons, elem_of_app. tauto.
    + left. by apply Hi.
    + right. apply Hi1. rewrite elem_of_cons, elem_of_app. tauto.
  - intros c [H1|H1]%elem_of_union; fold h2; [rewrite H0 by done; auto|].
    destruct (decide (c = b1)) as [->|H2]; [unfold h2; by rewrite lookup_insert_eq|].
    unfold h2. rewrite lookup_insert_ne, Hh1 by done. destruct (Hd1 c H1) as [bc ->].
    by destruct (decide (c = z)).
  - intros h' t f Hfit. fold h2 in Hfit. change (b_head x1) with (b_head x0).
    apply graph_or with (m := b_head blk1); [apply graph_not, Hg|apply Hg1].
    + intros c bc H1 Hbc. assert (c <> b1) by (intros ->; apply (HD b1); [done|apply Hi1; constructor]).
      destruct (Hfit c bc) as (b' & E1 & E2 & E3 & E4 & E5 & E6); [set_solver|by rewrite H0|].
      exists b'. split_and!; try done; [|by rewrite decide_False in E6 by done].
      rewrite E5. destruct (decide (c ∈ b0 :: K)) as [H2|H2].
      * rewrite decide_True; [done|]. right. apply elem_of_app. by right.
      * rewrite !decide_False; [done| |].
        -- intros H3. apply (HD c); [done|]. apply Hi1. rewrite elem_of_cons, elem_of_app. tauto.
        -- intros [->|[H3|H3]%elem_of_app]; [done| |done].
           apply (HD c); [done|]. apply Hi1. rewrite elem_of_cons, elem_of_app. tauto.
    + intros c bc H1 Hbc. assert (HcK : c ∉ b0 :: K) by (intros H2; apply (HD c); auto).
      destruct (decide (c = b1)) as [->|H2].
      * rewrite Hb in Hbc. injection Hbc as <-.
        destruct (Hfit b1 x1) as (b' & E1 & E2 & E3 & E4 & E5 & E6);
          [set_solver|apply lookup_insert_eq|].
        change (b_sense x1) with (b_sense y) in *. rewrite Hys in *.
        exists b'. rewrite (decide_True (P := b1 = b1 \/ b1 ∈ T1)) by auto.
        rewrite decide_True in E5 by auto. rewrite decide_True in E6 by auto.
        split_and!; try done; (etransitivity; [eassumption|done]).
      * assert (Hc2 : exists b2, h2 !! c = Some b2 /\ b_stmts b2 = b_stmts bc /\ b_code b2 = b_code bc /\
           b_rest b2 = b_rest bc /\ b_sense b2 = b_sense bc /\ unlink b2 = unlink bc /\
           (c <> z -> link b2 = link bc)).
        { unfold h2. rewrite lookup_insert_ne, Hh1, Hbc by done. destruct (decide (c = z)).
          - exists (with_link bc (Some b0)). rewrite unlink_with_link.
            destruct bc as [? ? ? ? ? []]; by split_and!.
          - exists bc. by split_and!. }
        destruct Hc2 as (b2 & Hb2 & F2 & F3 & F4 & F5 & F6 & F7).
        destruct (Hfit c b2) as (b' & E1 & E2 & E3 & E4 & E5 & E6); [set_solver|done|].
        rewrite decide_False in E6 by done.
        exists b'. rewrite F2, F3, F4, F5, F6 in *.
        split_and!; try done. rewrite E5. destruct (decide (c ∈ T1)) as [H3|H3].
        -- rewrite !decide_True; [done|by auto|]. right. apply elem_of_app. by left.
        -- rewrite (decide_False (P := c = b1 \/ c ∈ T1)) by tauto.
           rewrite (decide_False (P := c = b1 \/ c ∈ T1 ++ b0 :: K)) by (rewrite elem_of_app; tauto).
           destruct (decide (c ∈ F1)); [done|]. apply F7. intros ->.
           rewrite elem_of_cons in Hz. tauto.
Qed.

(** Two expressions that the same graphs decide. *)
Lemma opened_graph h p e e' D T F b :
  (forall h c t f, graph h c e t f -> graph h c e' t f) ->
  opened h p e D T F b -> opened h p e' D T F b.
Proof. intros He [? ? ? ? ? ? Hg]. split; auto. Qed.

Lemma graph_not_inv h b e t f : graph h b (ENot e) t f -> graph h b e f t.
Proof. by inversion 1. Qed.

Lemma not_or_and h b e0 e1 t f :
  graph h b (ENot (EOr (ENot e0) (ENot e1))) t f -> graph h b (EAnd e0 e1) t f.
Proof.
  intros Hg%graph_not_inv. inversion Hg; subst.
  eapply graph_and; by apply graph_not_inv.
Qed.

Lemma not_not_or h b e0 e1 t f :
  graph h b (EOr (ENot (ENot e0)) e1) t f -> graph h b (EOr e0 e1) t f.
Proof.
  inversion 1; subst. eapply graph_or; [|done]. by do 2 apply graph_not_inv.
Qed.

Section Combine.
Context (s : gst) (b0 b1 : nat) (e0 e1 : bexp) (D0 D1 : gset nat) (T0 F0 T1 F1 : list nat)
        (blk0 blk1 : block).
Context (H0 : opened (g_heap s) b0 e0 D0 T0 F0 blk0) (H1 : opened (g_heap s) b1 e1 D1 T1 F1 blk1)
        (HD : D0 ## D1).

(** The first half of both: the open ends on the true side of [b0] are led to
    [b1]'s graph, and [b0] is turned over. *)
Lemma combine_first :
  exists h1 h, backpatch_m b0 (b_head blk1) s = inr (tt, set_heap s h1) /\
    update b0 flip_sense (set_heap s h1) = inr (tt, set_heap s h) /\
    let x := flip_sense (with_link blk0 (Some (b_head blk1))) in
    patched h b0 e0 D0 F0 (b_head blk1) x /\ opened h b1 e1 D1 T1 F1 blk1 /\
    forall c, c ∉ D0 -> h !! c = g_heap s !! c.
Proof using H0 H1 HD.
  pose proof H0 as [Hb Ht Hf Hn Hi Hd Hg].
  assert (HT : forall c, c ∈ b0 :: T0 -> c ∈ D0)
    by (intros c Hc; apply Hi; rewrite elem_of_cons, elem_of_app in *; tauto).
  destruct (backpatch_m_eq s b0 (b0 :: T0) (b_head blk1)) as (h1 & Hbp & Hh1).
  - by split; [|exists blk0].
  - apply NoDup_cons in Hn as [Hp (HnT & _)%NoDup_app]. apply NoDup_cons. split; [|done].
    intros Hp'. apply Hp, elem_of_app. by left.
  - intros c Hc. by apply Hd, HT.
  - pose proof (Hh1 b0) as Hx. rewrite decide_True, Hb in Hx by constructor.
    exists h1, (<[b0 := flip_sense (with_link blk0 (Some (b_head blk1)))]> h1). split; [done|].
    split; [exact (update_eq (set_heap s h1) _ _ _ Hx)|].
    assert (Hout : forall c, c ∉ D0 ->
      <[b0 := flip_sense (with_link blk0 (Some (b_head blk1)))]> h1 !! c = g_heap s !! c).
    { intros c Hc. rewrite lookup_insert_ne, Hh1, decide_False; [done|..].
      - intros Hc'. by apply Hc, HT.
      - intros <-. by apply Hc, HT; constructor. }
    split_and!; [by eapply opened_patched| |exact Hout].
    eapply opened_ext; [|exact H1]. intros c Hc. apply Hout. intros Hc'. by apply (HD c).
Qed.
End Combine.

(** The second half: [merge], up to the new head. *)
Lemma combine_second s b0 b1 e0 e1 D0 D1 K T1 F1 x0 blk1 :
  patched (g_heap s) b0 e0 D0 K (b_head blk1) x0 ->
  opened (g_heap s) b1 e1 D1 T1 F1 blk1 -> D0 ## D1 ->
  exists h y, merge_m b1 b0 s = inr (tt, set_heap s h) /\ h !! b0 = Some x0 /\ h !! b1 = Some y /\
    opened (<[b1 := with_head y (b_head x0)]> h) b1 (EOr (ENot e0) e1) (D0 ∪ D1)
           (T1 ++ b0 :: K) F1 (with_head y (b_head x0)) /\
    forall c, c ∉ D0 ∪ D1 -> h !! c = g_heap s !! c.
Proof.
  intros Ha H1 HD. pose proof Ha as [Hb0 _ _ Hia _ _]. pose proof H1 as [Hb Ht Hf Hn Hi Hd Hg].
  assert (HT : forall c, c ∈ b1 :: T1 -> c ∈ D1)
    by (intros c Hc; apply Hi; rewrite elem_of_cons, elem_of_app in *; tauto).
  destruct (merge_m_eq s b1 T1 b0) as (h1 & z & Hm & Hz & Hh1 & Hch).
  - by split; [|exists blk1].
  - apply NoDup_cons in Hn as [Hp (HnT & _)%NoDup_app]. apply NoDup_cons. split; [|done].
    intros Hp'. apply Hp, elem_of_app. by left.
  - intros c Hc. by apply Hd, HT.
  - assert (Hout : forall c, c ∉ D1 -> h1 !! c = g_heap s !! c).
    { intros c Hc. rewrite Hh1, decide_False; [done|]. intros ->. by apply Hc, HT. }
    pose proof (Hh1 b1) as Hy. rewrite Hb in Hy.
    assert (Hy' : exists y, h1 !! b1 = Some y) by (destruct (decide (b1 = z)); eauto).
    destruct Hy' as [y Hy']. exists h1, y. split; [done|]. split_and!.
    + rewrite Hout; [done|]. intros Hc. apply (HD b0); [|done]. apply Hia. constructor.
    + done.
    + by eapply opened_merge.
    + intros c Hc. apply Hout. set_solver.
Qed.

Lemma gen_or_spec s b0 b1 e0 e1 D0 D1 T0 F0 T1 F1 blk0 blk1 :
  opened (g_heap s) b0 e0 D0 T0 F0 blk0 -> opened (g_heap s) b1 e1 D1 T1 F1 blk1 -> D0 ## D1 ->
  exists h x1, gen_or b0 b1 s = inr (tt, set_heap s h) /\
    opened h b1 (EOr e0 e1) (D0 ∪ D1) (T1 ++ b0 :: T0) F1 x1 /\
    forall c, c ∉ D0 ∪ D1 -> h !! c = g_heap s !! c.
Proof.
  intros H0 H1 HD. unfold gen_or. pose proof (op_block _ _ _ _ _ _ _ H0) as Hb0.
  assert (Hin0 : b0 ∈ D0) by (apply (op_in _ _ _ _ _ _ _ H0); constructor).
  assert (Hin1 : b1 ∈ D1) by (apply (op_in _ _ _ _ _ _ _ H1); constructor).
  rewrite (bind_eq _ _ _ _ _ (update_eq _ _ _ _ Hb0)). apply opened_not in H0.
  set (s1 := set_heap s _).
  assert (H1' : opened (g_heap s1) b1 e1 D1 T1 F1 blk1).
  { eapply opened_ext; [|exact H1]. intros c Hc. cbn. rewrite lookup_insert_ne; [done|].
    intros <-. by apply (HD b0). }
  rewrite (bind_eq _ _ _ _ _ (get_block_eq s1 _ _ (op_block _ _ _ _ _ _ _ H1'))).
  destruct (combine_first s1 _ _ _ _ _ _ _ _ _ _ _ _ H0 H1' HD) as (h1 & h2 & E1 & E2 & Ha & H2 & Hout2).
  rewrite (bind_eq _ _ _ _ _ E1), (bind_eq _ _ _ _ _ E2).
  destruct (combine_second (set_heap s1 h2) _ _ _ _ _ _ _ _ _ _ _ Ha H2 HD)
    as (h3 & y & E3 & Hx & Hy & H3 & Hout3).
  rewrite (bind_eq _ _ _ _ _ E3), (bind_eq _ _ _ _ _ (get_block_eq (set_heap (set_heap s1 h2) h3) _ _ Hx)).
  rewrite (update_eq (set_heap (set_heap s1 h2) h3) _ _ y Hy).
  eexists _, _. split; [done|]. split.
  - eapply opened_graph; [|exact H3]. intros. by apply not_not_or.
  - intros c Hc. apply not_elem_of_union in Hc as [Hc0 Hc1]. cbn.
    rewrite lookup_insert_ne by (by intros <-). rewrite Hout3 by set_solver. cbn.
    rewrite Hout2 by done. cbn. by rewrite lookup_insert_ne by (by intros <-).
Qed.

Lemma gen_and_spec s b0 b1 e0 e1 D0 D1 T0 F0 T1 F1 blk0 blk1 :
  opened (g_heap s) b0 e0 D0 T0 F0 blk0 -> opened (g_heap s) b1 e1 D1 T1 F1 blk1 -> D0 ## D1 ->
  exists h x1, gen_and b0 b1 s = inr (tt, set_heap s h) /\
    opened h b1 (EAnd e0 e1) (D0 ∪ D1) T1 (F1 ++ b0 :: F0) x1 /\
    forall c, c ∉ D0 ∪ D1 -> h !! c = g_heap s !! c.
Proof.
  intros H0 H1 HD. unfold gen_and.
  assert (Hin0 : b0 ∈ D0) by (apply (op_in _ _ _ _ _ _ _ H0); constructor).
  assert (Hin1 : b1 ∈ D1) by (apply (op_in _ _ _ _ _ _ _ H1); constructor).
  rewrite (bind_eq _ _ _ _ _ (get_block_eq s _ _ (op_block _ _ _ _ _ _ _ H1))).
  destruct (combine_first s _ _ _ _ _ _ _ _ _ _ _ _ H0 H1 HD) as (h1 & h2 & E1 & E2 & Ha & H2 & Hout2).
  rewrite (bind_eq _ _ _ _ _ E1), (bind_eq _ _ _ _ _ E2). set (s2 := set_heap s h2) in *.
  rewrite (bind_eq _ _ _ _ _ (update_eq s2 _ _ _ (op_block _ _ _ _ _ _ _ H2))).
  apply opened_not in H2. set (s3 := set_heap s2 _).
  assert (Ha' : patched (g_heap s3) b0 e0 D0 F0 (b_head (flip_sense blk1))
                  (flip_sense (with_link blk0 (Some (b_head blk1))))).
  { eapply patched_ext; [|exact Ha]. intros c Hc. cbn. rewrite lookup_insert_ne; [done|].
    intros <-. by apply (HD b1). }
  destruct (combine_second s3 _ _ _ _ _ _ _ _ _ _ _ Ha' H2 HD)
    as (h4 & y & E4 & Hx & Hy & H4 & Hout4).
  rewrite (bind_eq _ _ _ _ _ E4), (bind_eq _ _ _ _ _ (update_eq (set_heap s3 h4) _ _ y Hy)).
  set (s5 := set_heap (set_heap s3 h4) (<[b1 := flip_sense y]> h4)).
  assert (Hx5 : g_heap s5 !! b0 = Some (flip_sense (with_link blk0 (Some (b_head blk1))))).
  { cbn. rewrite lookup_insert_ne; [done|]. intros <-. by apply (HD b1). }
  rewrite (bind_eq _ _ _ _ _ (get_block_eq s5 _ _ Hx5)).
  rewrite (update_eq s5 b1 _ (flip_sense y)) by apply lookup_insert_eq.
  apply opened_not in H4. cbn in H4. rewrite insert_insert_eq in H4.
  eexists _, _. split; [done|]. split.
  - eapply opened_graph; [|cbn; rewrite insert_insert_eq; exact H4].
    intros. by apply not_or_and.
  - intros c Hc. pose proof Hc as Hc'. apply not_elem_of_union in Hc as [Hc0 Hc1]. cbn.
    rewrite !lookup_insert_ne by (by intros <-). rewrite Hout4 by done. cbn.
    rewrite lookup_insert_ne by (by intros <-). by rewrite Hout2.
Qed.
