(* ===== verification/GenTriple.v ===== *)
(** A program logic for the code generator: what a generator adds to the
    incomplete flow graphs that its caller holds. *)
From S2P Require Import Prelude Bpf BpfFilter Gencode GencodeSpec.

#[local] Open Scope c_scope.
#[local] Open Scope gen_scope.

(** ** Incomplete graphs in a state

    [forest h l D] are the graphs of the pointers in [l], with disjoint sets of
    blocks whose union is [D]. *)
Fixpoint forest (h : heap) (l : list (nat * bexp)) (D : gset nat) : Prop :=
  match l with
  | [] => D = ∅
  | (p, e) :: l =>
      exists D1 D2 T F b, opened h p e D1 T F b /\ forest h l D2 /\ D1 ## D2 /\ D = D1 ∪ D2
  end.

Lemma forest_ext h h' l D :
  (forall c, c ∈ D -> h' !! c = h !! c) -> forest h l D -> forest h' l D.
Proof.
  revert D. induction l as [|[p e] l IH]; intros D Hx; [done|]. cbn.
  intros (D1 & D2 & T & F & b & Ho & Hl & Hd & ->). exists D1, D2, T, F, b.
  split_and!; try done.
  - eapply opened_ext; [|exact Ho]. set_solver.
  - apply IH; [|done]. set_solver.
Qed.

Lemma forest_swap h a b l D : forest h (a :: b :: l) D -> forest h (b :: a :: l) D.
Proof.
  destruct a as [pa ea], b as [pb eb]. cbn.
  intros (D1 & D2 & T & F & x & Ho & (D3 & D4 & T' & F' & x' & Ho' & Hl & Hd' & ->) & Hd & ->).
  exists D3, (D1 ∪ D4), T', F', x'. split; [done|]. split; [|split; set_solver].
  exists D1, D4, T, F, x. split_and!; set_solver.
Qed.

Lemma forest_perm h l l' D : l ≡ₚ l' -> forest h l D -> forest h l' D.
Proof.
  intros Hp. revert D. induction Hp as [|[p e] l l' _ IH|a b l|l1 l2 l3 _ IH1 _ IH2]; intros D.
  - done.
  - cbn. intros (D1 & D2 & T & F & b & Ho & Hl & Hd). exists D1, D2, T, F, b. split; [done|].
    split; [by apply IH|done].
  - apply forest_swap.
  - auto.
Qed.

(** Registers are below 16; [-1] stands for none. *)
Definition regs_ok (r : regs) : Prop :=
  0 <= curreg r < 16 /\ -1 <= reg_off_ll r < 16 /\ -1 <= reg_off_macpl r < 16.

(** A pointer, with what is known of the expression its graph decides. *)
Abbreviation owned := (nat * (bexp -> Prop))%type.
Definition known (x : nat * bexp) (y : owned) : Prop := x.1 = y.1 /\ y.2 x.2.

(** The graphs of [l] in a state, with no block beyond the next free address. *)
Definition holds (s : gst) (l : list owned) : Prop :=
  regs_ok (g_regs s) /\
  exists l0 D, Forall2 known l0 l /\ forest (g_heap s) l0 D /\
    (forall c, c ∈ D -> (c < g_next s)%nat) /\ forall c, is_Some (g_heap s !! c) -> (c < g_next s)%nat.

Lemma holds_perm s l l' : l ≡ₚ l' -> holds s l -> holds s l'.
Proof.
  intros Hp (Hr & l0 & D & Hk & Hf & Hlt). split; [done|]. apply Forall2_flip in Hk.
  destruct (Permutation_Forall2 Hp Hk) as (l1 & Hp1 & Hk1). exists l1, D.
  split; [by apply Forall2_flip|]. split; [|done]. by eapply forest_perm.
Qed.

Lemma holds_weaken s p (P P' : bexp -> Prop) l :
  (forall e, P e -> P' e) -> holds s ((p, P) :: l) -> holds s ((p, P') :: l).
Proof.
  intros HP (Hr & l0 & D & Hk & Hf). split; [done|]. exists l0, D. split; [|done].
  inversion Hk as [|x y l1 l2 [H1 H2] Hl]; subst. constructor; [|done]. split; [done|]. by apply HP.
Qed.

Lemma forest_prefix h l l' D : forest h (l ++ l') D -> exists D', D' ⊆ D /\ forest h l D'.
Proof.
  revert D. induction l as [|[p e] l IH]; intros D; cbn.
  - intros _. exists ∅. split; [set_solver|done].
  - intros (D1 & D2 & T & F & b & Ho & Hl & Hd & ->). destruct (IH D2 Hl) as (D3 & Hs & Hf).
    exists (D1 ∪ D3). split; [set_solver|]. exists D1, D3, T, F, b. split_and!; try done. set_solver.
Qed.

(** A graph that nobody needs any more may be forgotten. *)
Lemma holds_drop s l l' : l' ⊆+ l -> holds s l -> holds s l'.
Proof.
  intros [k Hp]%submseteq_Permutation Hs. apply (holds_perm _ _ _ Hp) in Hs.
  destruct Hs as (Hr & l0 & D & Hk & Hf & Hlt & Hn). split; [done|].
  apply Forall2_app_inv_r in Hk as (l1 & l2 & Hk1 & _ & ->). destruct (forest_prefix _ _ _ _ Hf) as (D' & HD & Hf').
  exists l1, D'. split_and!; try done. intros c Hc. apply Hlt. set_solver.
Qed.

(** ** Triples

    A generator run from a state with the graphs of [l] either ends with a
    result and graphs that satisfy [Q], or with an error that [E] allows; what
    [R] says of the layout stays true. *)

(** The graphs are those of [f]. *)
Definition exactly {A} (f : A -> list owned) : A -> list owned -> Prop := fun a l => l = f a.

Section Triple.
Context (E : gerror -> Prop) (R : layout -> Prop).

Definition triple {A} (l : list owned) (g : gen A) (Q : A -> list owned -> Prop) : Prop :=
  forall s, R (g_off s) -> holds s l ->
  match g s with
  | inr (a, s') => R (g_off s') /\ exists l', Q a l' /\ holds s' l'
  | inl e => E e
  end.

Lemma triple_ret {A} (a : A) l l' (Q : A -> list owned -> Prop) :
  Q a l' -> l ≡ₚ l' -> triple l (ret a) Q.
Proof using Type. intros HQ Hp s Ho Hs. split; [done|]. exists l'. split; [done|]. by eapply holds_perm. Qed.

Lemma triple_ret_exactly {A} (a : A) l f : l ≡ₚ f a -> triple l (ret a) (exactly f).
Proof using Type. by apply triple_ret. Qed.

Lemma triple_fail {A} e l (Q : A -> list owned -> Prop) : E e -> triple l (fail e) Q.
Proof using Type. by intros He s _ _. Qed.

Lemma triple_seq {A B} l (g : gen A) Q (k : A -> gen B) Q' :
  triple l g Q -> (forall a l', Q a l' -> triple l' (k a) Q') -> triple l (bind g k) Q'.
Proof using Type.
  intros Hg Hk s Ho Hs. unfold bind. specialize (Hg s Ho Hs).
  destruct (g s) as [e|[a s1]]; [done|]. destruct Hg as (Ho1 & l1 & HQ & Hs1). by apply (Hk a l1).
Qed.

Lemma triple_bind {A B} l (g : gen A) f (k : A -> gen B) Q :
  triple l g (exactly f) -> (forall a, triple (f a) (k a) Q) -> triple l (bind g k) Q.
Proof using Type. intros Hg Hk. eapply triple_seq; [exact Hg|]. by intros a l' ->. Qed.

Lemma triple_perm {A} l l' (g : gen A) Q : l ≡ₚ l' -> triple l' g Q -> triple l g Q.
Proof using Type. intros Hp Hg s Ho Hs. apply Hg; [done|]. by eapply holds_perm. Qed.

Lemma triple_drop {A} l l' (g : gen A) Q : l' ⊆+ l -> triple l' g Q -> triple l g Q.
Proof using Type. intros Hp Hg s Ho Hs. apply Hg; [done|]. by eapply holds_drop. Qed.

Lemma triple_post {A} l (g : gen A) f f' :
  triple l g (exactly f) -> (forall a s, holds s (f a) -> holds s (f' a)) -> triple l g (exactly f').
Proof using Type.
  intros Hg Hf s Ho Hs. specialize (Hg s Ho Hs). destruct (g s) as [e|[a s1]]; [done|].
  destruct Hg as (Ho1 & l1 & -> & Hs1). split; [done|]. exists (f' a). split; [done|]. by apply Hf.
Qed.

Lemma triple_weaken {A} l (g : gen A) (Q Q' : A -> list owned -> Prop) :
  triple l g Q -> (forall a l', Q a l' -> Q' a l') -> triple l g Q'.
Proof using Type.
  intros Hg HQ s Ho Hs. specialize (Hg s Ho Hs). destruct (g s) as [e|[a s1]]; [done|].
  destruct Hg as (Ho1 & l1 & H1 & Hs1). eauto.
Qed.

Lemma triple_get_off {A} l (k : layout -> gen A) Q :
  (forall o, R o -> triple l (k o) Q) -> triple l (bind get_off k) Q.
Proof using Type. intros Hk s Ho Hs. unfold bind, get_off. by apply Hk. Qed.

Lemma triple_get_regs {A} l (k : regs -> gen A) Q :
  (forall r, regs_ok r -> triple l (k r) Q) -> triple l (bind get_regs k) Q.
Proof using Type. intros Hk s Ho Hs. unfold bind, get_regs. pose proof Hs as [Hr _]. by apply Hk. Qed.

Lemma triple_set_off o l : R o -> triple l (set_off o) (exactly (fun _ => l)).
Proof using Type.
  intros Ho s _ (Hr & l0 & D & H). split; [done|]. exists l. split; [done|]. split; [done|]. by exists l0, D.
Qed.

Lemma triple_set_regs r l : regs_ok r -> triple l (set_regs r) (exactly (fun _ => l)).
Proof using Type.
  intros Hr s Ho (_ & l0 & D & H). split; [done|]. exists l. split; [done|]. split; [done|]. by exists l0, D.
Qed.

(** What [gen_and] and [gen_or] do to a forest. *)
Lemma holds_combine (op : bexp -> bexp -> bexp) (g : nat -> nat -> gen unit) p0 P0 p1 P1 l s :
  (forall s e0 e1 D0 D1 T0 F0 T1 F1 b0 b1,
     opened (g_heap s) p0 e0 D0 T0 F0 b0 -> opened (g_heap s) p1 e1 D1 T1 F1 b1 -> D0 ## D1 ->
     exists h T F x, g p0 p1 s = inr (tt, set_heap s h) /\ opened h p1 (op e0 e1) (D0 ∪ D1) T F x /\
       forall c, c ∉ D0 ∪ D1 -> h !! c = g_heap s !! c) ->
  holds s ((p0, P0) :: (p1, P1) :: l) ->
  exists h, g p0 p1 s = inr (tt, set_heap s h) /\
    holds (set_heap s h) ((p1, fun e => exists e0 e1, P0 e0 /\ P1 e1 /\ e = op e0 e1) :: l).
Proof using Type.
  intros Hg (Hr & l0 & D & Hk & Hf & Hlt & Hnext).
  inversion Hk as [|[q0 e0] y0 l1 l2 [H1 H2] Hk']; subst.
  inversion Hk' as [|[q1 e1] y1 l3 l4 [H3 H4] Hk'']; subst. cbn in H1, H2, H3, H4. subst q0 q1.
  destruct Hf as (D0 & D' & T0 & F0 & b0 & Hb0 & (D1 & D2 & T1 & F1 & b1 & Hb1 & Hl & Hd1 & ->) & Hd0 & ->).
  destruct (Hg s _ _ _ _ _ _ _ _ _ _ Hb0 Hb1) as (h & T & F & x & He & Hx & Hout); [set_solver|].
  exists h. split; [done|]. split; [done|]. exists ((p1, op e0 e1) :: l3), (D0 ∪ (D1 ∪ D2)). split_and!.
  - constructor; [|done]. split; [done|]. by exists e0, e1.
  - exists (D0 ∪ D1), D2. do 3 eexists. split; [exact Hx|]. split; [|set_solver].
    eapply forest_ext; [|exact Hl]. intros c Hc. apply Hout. set_solver.
  - done.
  - cbn. intros c Hc. destruct (decide (c ∈ D0 ∪ D1)); [apply Hlt; set_solver|].
    rewrite Hout in Hc by done. by apply Hnext.
Qed.

Lemma triple_and p0 P0 p1 P1 l :
  triple ((p0, P0) :: (p1, P1) :: l) (gen_and p0 p1)
    (exactly (fun _ => (p1, fun e => exists e0 e1, P0 e0 /\ P1 e1 /\ e = EAnd e0 e1) :: l)).
Proof using Type.
  intros s Ho Hs. destruct (holds_combine EAnd gen_and p0 P0 p1 P1 l s) as (h & -> & Hh); [|done|split; [done|]; by eexists].
  intros s' e0 e1 D0 D1 T0 F0 T1 F1 b0 b1 H0 H1 HD.
  destruct (gen_and_spec s' _ _ _ _ _ _ _ _ _ _ _ _ H0 H1 HD) as (h & x & He & Hx & Hout).
  by exists h, T1, (F1 ++ p0 :: F0), x.
Qed.

Lemma triple_or p0 P0 p1 P1 l :
  triple ((p0, P0) :: (p1, P1) :: l) (gen_or p0 p1)
    (exactly (fun _ => (p1, fun e => exists e0 e1, P0 e0 /\ P1 e1 /\ e = EOr e0 e1) :: l)).
Proof using Type.
  intros s Ho Hs. destruct (holds_combine EOr gen_or p0 P0 p1 P1 l s) as (h & -> & Hh); [|done|split; [done|]; by eexists].
  intros s' e0 e1 D0 D1 T0 F0 T1 F1 b0 b1 H0 H1 HD.
  destruct (gen_or_spec s' _ _ _ _ _ _ _ _ _ _ _ _ H0 H1 HD) as (h & x & He & Hx & Hout).
  by exists h, (T1 ++ p0 :: T0), F1, x.
Qed.

Lemma triple_not p P l :
  triple ((p, P) :: l) (gen_not p)
    (exactly (fun _ => (p, fun e => exists e0, P e0 /\ e = ENot e0) :: l)).
Proof using Type.
  intros s Ho (Hr & l0 & D & Hk & Hf & Hlt & Hnext).
  inversion Hk as [|[q0 e0] y0 l1 l2 [H1 H2] Hk']; subst. cbn in H1, H2. subst q0.
  destruct Hf as (D1 & D2 & T & F & b & H1 & Hl & Hd & ->).
  assert (Hp : p ∈ D1) by (apply (op_in _ _ _ _ _ _ _ H1); constructor).
  unfold gen_not. rewrite (update_eq s p flip_sense b (op_block _ _ _ _ _ _ _ H1)).
  split; [done|]. eexists. split; [reflexivity|]. split; [done|]. exists ((p, ENot e0) :: l1), (D1 ∪ D2). split_and!.
  - constructor; [|done]. split; [done|]. by exists e0.
  - exists D1, D2. do 3 eexists. split; [by apply opened_not|]. split; [|done].
    eapply forest_ext; [|exact Hl]. intros c Hc. cbn. apply lookup_insert_ne. set_solver.
  - done.
  - cbn. intros c Hc. destruct (decide (c = p)) as [->|]; [apply Hlt; set_solver|].
    rewrite lookup_insert_ne in Hc by done. by apply Hnext.
Qed.

Lemma triple_stmt {A} c k l (K : slist -> gen A) Q :
  (forall id, triple l (K (Slist id c (i32 k) None None)) Q) ->
  triple l (bind (new_stmt c k) K) Q.
Proof using Type.
  intros HK s Ho (Hr & l0 & D & Hk & Hf & Hlt & Hn). unfold bind, new_stmt. apply HK; [done|].
  split; [done|]. exists l0, D. split; [done|]. cbn. split; [done|].
  split; intros c' Hc; [apply Hlt in Hc|apply Hn in Hc]; lia.
Qed.

(** A new block, whose branches both are open. *)
Lemma triple_branch (code : Z) (ss : list slist) (k : Z) l (P : bexp -> Prop) :
  P (ELeaf (map op_of ss) code (i32 k)) ->
  triple l (new_branch code ss k) (exactly (fun b => (b, P) :: l)).
Proof using Type.
  intros HP s Ho (Hr & l0 & D & Hk & Hf & Hlt & Hn). unfold new_branch. unfold bind at 1, new_block.
  set (p := g_next s). set (b0 := Block [] code 0 None None false p 0 0 0).
  set (s1 := Gst _ _ _ _). unfold set_stmts, set_k.
  rewrite (bind_eq _ _ _ _ _ (update_eq s1 p _ b0 (lookup_insert_eq _ _ _))).
  set (s2 := set_heap s1 (<[p := with_stmts b0 ss]> (g_heap s1))).
  rewrite (bind_eq _ _ _ _ _ (update_eq s2 p _ _ (lookup_insert_eq _ _ _))).
  set (h := <[p := Block ss code (i32 k) None None false p 0 0 0]> (g_heap s2)).
  assert (Hp : h !! p = Some (Block ss code (i32 k) None None false p 0 0 0)) by apply lookup_insert_eq.
  assert (Hne : forall c, c <> p -> h !! c = g_heap s !! c)
    by (intros c Hc; unfold h; cbn; by rewrite !lookup_insert_ne).
  cbn [ret]. split; [done|]. eexists. split; [reflexivity|]. split; [done|].
  exists ((p, ELeaf (map op_of ss) code (i32 k)) :: l0), ({[p]} ∪ D). split_and!.
  - by constructor.
  - exists {[p]}, D. do 3 eexists. split; [by apply opened_leaf|]. split; [|split; [|done]].
    + eapply forest_ext; [|exact Hf]. intros c Hc. apply Hne. apply Hlt in Hc. unfold p. lia.
    + intros c ->%elem_of_singleton Hc. apply Hlt in Hc. unfold p in Hc. lia.
  - cbn. fold p. intros c [->%elem_of_singleton|Hc%Hlt]%elem_of_union; unfold p in *; lia.
  - cbn -[h]. fold p. intros c Hc. destruct (decide (c = p)) as [->|]; [lia|].
    change (is_Some (h !! c)) in Hc. rewrite Hne in Hc by done. apply Hn in Hc. unfold p. lia.
Qed.
End Triple.

(** ** Finding a graph among those that are held *)

Inductive pick (x : owned) : list owned -> list owned -> Prop :=
| pick_here l : pick x (x :: l) l
| pick_there y l l' : pick x l l' -> pick x (y :: l) (y :: l').

Lemma pick_perm x l l' : pick x l l' -> l ≡ₚ x :: l'.
Proof. induction 1 as [|y l l' _ IH]; [done|]. rewrite IH. constructor. Qed.

Create HintDb gen.
#[export] Hint Constructors pick : gen.
