(* ===== verification/Icode.v ===== *)
(** [optimize.c]: the conversion of a flow graph to the array form of a BPF
    program, [icode_to_fcode] and the functions below it. *)
From S2P Require Import Prelude CString CFile Bpf BpfFilter Gencode.

#[local] Open Scope string_scope.
#[local] Open Scope Z_scope.
#[local] Open Scope c_scope.

Definition NOP := -1.

(** [slength] *)
Definition slength (s : list slist) : Z :=
  Z.of_nat (length (List.filter (fun s => negb (sl_code s =? NOP)) s)).

(** ** [count_stmts]

    The set of marked blocks stands for the comparison of [mark] with
    [cur_mark]; it is empty after [unMarkAll]. *)
Fixpoint count_stmts (fuel : nat) (h : heap) (marked : gset nat) (p : option nat)
    : option (Z * gset nat) :=
  match p with
  | None => Some (0, marked)
  | Some b =>
      if bool_decide (b ∈ marked) then Some (0, marked)
      else
        match fuel, h !! b with
        | S fuel, Some blk =>
            match count_stmts fuel h ({[b]} ∪ marked) (b_jt blk) with
            | None => None
            | Some (n1, marked) =>
                match count_stmts fuel h marked (b_jf blk) with
                | None => None
                | Some (n2, marked) =>
                    Some (u32 (slength (b_stmts blk) + u32 (n1 + n2) + 1 + b_longjt blk + b_longjf blk),
                          marked)
                end
            end
        | _, _ => None
        end
  end.

(** ** [convert_code_r] *)

(** The program under construction: [c_fp] is the array at [fstart], zeroed
    by [memset], and [c_tail] is [ftail - fstart]. *)
Record conv := Conv {
  c_heap : heap; c_marked : gset nat; c_fp : list bpf_insn; c_tail : Z }.

(** [Retry] is the result 0: a branch has been marked to be a long one.
    [ConvUndef] is an access outside the array or to no block. *)
Inductive conv_result :=
| Converted (s : conv)
| Retry (s : conv)
| ConvError (msg : string)
| ConvUndef.

Definition zero_insn : bpf_insn := Insn 0 0 0 0.

(** A write to the array. *)
Definition put (i : Z) (x : bpf_insn) (fp : list bpf_insn) : option (list bpf_insn) :=
  if (0 <=? i) && (i <? lenZ fp) then Some (<[Z.to_nat i := x]> fp) else None.

(** The indices of the statement at address [tgt] in [offset[]]. *)
Fixpoint positions (offs : list slist) (i : Z) (tgt : nat) : list Z :=
  match offs with
  | [] => []
  | s :: offs => if (sl_id s =? tgt)%nat then i :: positions offs (i + 1) tgt
                 else positions offs (i + 1) tgt
  end.

Definition ljerr (what : string) (off : Z) : string :=
  what +:+ " for block-local relative jump: off=" +:+ fmt_d (i32 off).

(** The branches of the statement [s] at offset [off]: both 0 unless it is a
    jump within the block. *)
Definition local_branches (offs : list slist) (slen off : Z) (s : slist) : string + (Z * Z) :=
  if negb (BPF_CLASS (sl_code s) =? BPF_JMP) || (sl_code s =? (BPF_JMP .| BPF_JA)) then inr (0, 0)
  else if off =? u32 (slen - 2) then inr (0, 0)
  else
    match sl_jt s, sl_jf s with
    | Some t, Some f =>
        match positions offs 0 t, positions offs 0 f with
        | [i], [j] => inr (u8 (i - off - 1), u8 (j - off - 1))
        | _ :: _ :: _, _ | _, _ :: _ :: _ => inl (ljerr "multiple matches" off)
        | _, _ => inl (ljerr "no destination found" off)
        end
    | _, _ => inl (ljerr "no jmp destination" off)
    end.

(** The loop over the statements of a block: [dst] is the index written next. *)
Fixpoint emit_stmts (offs : list slist) (slen off dst : Z) (src : list slist) (fp : list bpf_insn)
    : option (string + list bpf_insn) :=
  match src with
  | [] => Some (inr fp)
  | s :: src =>
      if sl_code s =? NOP then emit_stmts offs slen off dst src fp
      else
        match local_branches offs slen off s with
        | inl e => Some (inl e)
        | inr (t, f) =>
            match put dst (Insn (u16 (sl_code s)) t f (u32 (sl_k s))) fp with
            | Some fp => emit_stmts offs slen (off + 1) (dst + 1) src fp
            | None => None
            end
        end
  end.

Definition with_longjt (b : block) : block :=
  Block (b_stmts b) (b_code b) (b_k b) (b_jt b) (b_jf b) (b_sense b) (b_head b)
        (b_longjt b + 1) (b_longjf b) (b_offset b).
Definition with_longjf (b : block) : block :=
  Block (b_stmts b) (b_code b) (b_k b) (b_jt b) (b_jf b) (b_sense b) (b_head b)
        (b_longjt b) (b_longjf b + 1) (b_offset b).
Definition with_offset (b : block) (n : Z) : block :=
  Block (b_stmts b) (b_code b) (b_k b) (b_jt b) (b_jf b) (b_sense b) (b_head b)
        (b_longjt b) (b_longjf b) n.

Definition set_heap_c (s : conv) (h : heap) : conv := Conv h (c_marked s) (c_fp s) (c_tail s).
Definition set_fp (s : conv) (fp : list bpf_insn) : conv := Conv (c_heap s) (c_marked s) fp (c_tail s).

(** The branch of a block and the long jumps after it, for branches that lead
    [off_t] and [off_f] instructions on: one that does not fit the [u_char]
    of the instruction goes through a jump of its own. *)
Definition branch_code (blk : block) (off_t off_f : Z) : list bpf_insn :=
  let '(jt, extrajmps, ljt) :=
    if 256 <=? off_t then (0, 1, [Insn (BPF_JMP .| BPF_JA) 0 0 (u32 (off_t - 1))])
    else (off_t, 0, []) in
  let '(jf, ljf) :=
    if 256 <=? off_f then
      (extrajmps, [Insn (BPF_JMP .| BPF_JA) 0 0 (u32 (off_f - (extrajmps + 1)))])
    else (off_f, []) in
  (Insn (u16 (b_code blk)) jt jf (u32 (b_k blk)) :: ljt ++ ljf)%list.

(** The writes of consecutive instructions. *)
Fixpoint puts (i : Z) (xs : list bpf_insn) (fp : list bpf_insn) : option (list bpf_insn) :=
  match xs with
  | [] => Some fp
  | x :: xs => match put i x fp with Some fp => puts (i + 1) xs fp | None => None end
  end.

(** The end of [convert_code_r]: the branch of [p], at index [dst] after the
    block's [slen] statements.  A branch found too long is marked, and the
    conversion starts again. *)
Definition emit_branch (s : conv) (p : nat) (blk : block) (slen dst : Z) : conv_result :=
  let finish xs :=
    match puts dst xs (c_fp s) with
    | Some fp => Converted (set_fp s fp)
    | None => ConvUndef
    end in
  match b_jt blk, b_jf blk with
  | None, _ => finish [Insn (u16 (b_code blk)) 0 0 (u32 (b_k blk))]
  | Some t, Some f =>
      match c_heap s !! t, c_heap s !! f with
      | Some bt, Some bf =>
          let off_t := u32 (b_offset bt - (b_offset blk + slen) - 1) in
          let off_f := u32 (b_offset bf - (b_offset blk + slen) - 1) in
          if (256 <=? off_t) && (b_longjt blk =? 0) then
            Retry (set_heap_c s (<[p := with_longjt blk]> (c_heap s)))
          else if (256 <=? off_f) && (b_longjf blk =? 0) then
            Retry (set_heap_c s (<[p := with_longjf blk]> (c_heap s)))
          else finish (branch_code blk off_t off_f)
      | _, _ => ConvUndef
      end
  | Some _, None => ConvUndef
  end.

Section Malloc.
(** Whether [malloc] and [calloc] of a size succeed. *)
Context (malloc_ok : Z -> bool).

(** The second half of [convert_code_r]: the block, whose successors have been
    converted, is given its place before them and written. *)
Definition finish_block (s : conv) (b : nat) (blk : block) : conv_result :=
  let slen := slength (b_stmts blk) in
  let dst := c_tail s - (slen + 1 + b_longjt blk + b_longjf blk) in
  let blk := with_offset blk (i32 dst) in
  let s := Conv (<[b := blk]> (c_heap s)) (c_marked s) (c_fp s) dst in
  if (0 <? slen) && negb (malloc_ok (8 * slen)) then ConvError "not enough core"
  else
    let offs := take (Z.to_nat slen) (b_stmts blk) in
    match emit_stmts offs slen 0 dst (b_stmts blk) (c_fp s) with
    | None => ConvUndef
    | Some (inl e) => ConvError e
    | Some (inr fp) => emit_branch (set_fp s fp) b blk slen (dst + slen)
    end.

(** [blk] is read before the recursive calls, which do not change it: [b] is
    marked. *)
Fixpoint convert_code_r (fuel : nat) (p : option nat) (s : conv) : conv_result :=
  match p with
  | None => Converted s
  | Some b =>
      if bool_decide (b ∈ c_marked s) then Converted s
      else
        match fuel, c_heap s !! b with
        | S fuel, Some blk =>
            match convert_code_r fuel (b_jf blk)
                    (Conv (c_heap s) ({[b]} ∪ c_marked s) (c_fp s) (c_tail s)) with
            | Converted s =>
                match convert_code_r fuel (b_jt blk) s with
                | Converted s =>
                    finish_block s b blk
                | r => r
                end
            | r => r
            end
        | _, _ => ConvUndef
        end
  end.

(** ** [icode_to_fcode]

    The [while] loop: every turn but the last marks a branch as long.  The
    depth of the recursions is bounded by the number of blocks. *)
Inductive fcode_result :=
| Fcode (fp : list bpf_insn) (lenp : Z)
| FcodeError (msg : string)
| FcodeUndef.

Definition sizeof_bpf_insn := 8.

Fixpoint icode_to_fcode (fuel : nat) (h : heap) (root : nat) : fcode_result :=
  match fuel with
  | O => FcodeUndef
  | S fuel =>
      let depth := S (base.size h) in
      match count_stmts depth h ∅ (Some root) with
      | None => FcodeUndef
      | Some (n, _) =>
          if negb (malloc_ok (sizeof_bpf_insn * n)) then FcodeError "malloc"
          else
            match convert_code_r depth (Some root)
                    (Conv h ∅ (repeat zero_insn (Z.to_nat n)) n) with
            | Converted s => Fcode (c_fp s) n
            | Retry s => icode_to_fcode fuel (c_heap s) root
            | ConvError e => FcodeError e
            | ConvUndef => FcodeUndef
            end
      end
  end.
End Malloc.

(** Each turn but the last sets one of the two flags of a block. *)
Definition fcode_fuel (h : heap) : nat := S (2 * base.size h).
