(* ===== verification/OptFlow.v ===== *)
(** [optimize.c]: the optimizer's view of the flow graph - the numbering of the
    blocks, their levels, the dominators of blocks and edges, the closure and
    the use of registers.

    The passes keep their results in fields of [struct block] that the next
    turn of [opt_loop] computes anew; here every pass returns its results as a
    map from addresses.  A set is the number whose bits its words hold. *)
From S2P Require Import Prelude CString CFile Bpf BpfFilter Gencode Icode.

#[local] Open Scope Z_scope.
#[local] Open Scope c_scope.

(** ** Results *)

(** [O_error] is [bpf_error], [O_abort] is [abort()], [O_undef] an access to
    something that is not there, or arithmetic that C leaves undefined, and
    [O_fuel] the end of the model's fuel. *)
Inductive oerror := O_error (msg : string) | O_abort | O_undef | O_fuel.
Abbreviation res A := (oerror + A)%type.

Definition rbind {A B} (r : res A) (k : A -> res B) : res B :=
  match r with inl e => inl e | inr a => k a end.
Definition some_of {A} (o : option A) : res A := match o with Some a => inr a | None => inl O_undef end.

Declare Scope opt_scope.
Notation "x <~ g ;; k" := (rbind g (fun x => k))
  (at level 100, g at next level, k at level 200, right associativity) : opt_scope.
Notation "' x <~ g ;; k" := (rbind g (fun x => k))
  (at level 100, x pattern, g at next level, k at level 200, right associativity) : opt_scope.
#[local] Open Scope opt_scope.

(** A loop over the elements of a list. *)
Fixpoint each {A S} (f : A -> S -> res S) (l : list A) (s : S) : res S :=
  match l with [] => inr s | x :: l => s <~ f x s ;; each f l s end.

(** ** Edges *)

(** The edge [b->et] is [(b, true)] and [b->ef] is [(b, false)]. *)
Abbreviation edge_of := (nat * bool)%type.
Definition out_edge (b : block) (s : bool) : option nat := if s then b_jt b else b_jf b.
Definition with_out (b : block) (s : bool) (t : option nat) : block := if s then with_jt b t else with_jf b t.
Definition succ (h : heap) (e : edge_of) : res (option nat) :=
  b <~ some_of (h !! e.1) ;; inr (out_edge b e.2).
Definition set_succ (h : heap) (e : edge_of) (t : option nat) : res heap :=
  b <~ some_of (h !! e.1) ;; inr (<[e.1 := with_out b e.2 t]> h).

(** Both successors of a block that has some. *)
Definition both (b : block) : res (option (nat * nat)) :=
  match b_jt b, b_jf b with
  | None, _ => inr None
  | Some t, Some f => inr (Some (t, f))
  | Some _, None => inl O_undef
  end.

(** ** [count_blocks] and [number_blks_r] *)

Fixpoint count_blocks (fuel : nat) (h : heap) (p : option nat) (marked : gset nat) : res (Z * gset nat) :=
  match p with
  | None => inr (0, marked)
  | Some b =>
      if bool_decide (b ∈ marked) then inr (0, marked)
      else
        match fuel with
        | O => inl O_fuel
        | S fuel =>
            blk <~ some_of (h !! b) ;;
            '(n1, marked) <~ count_blocks fuel h (b_jt blk) ({[b]} ∪ marked) ;;
            '(n2, marked) <~ count_blocks fuel h (b_jf blk) marked ;;
            inr (n1 + n2 + 1, marked)
        end
  end.

(** The array [blocks], in which a block's index is its [id]. *)
Fixpoint number_blks_r (fuel : nat) (h : heap) (p : option nat) (s : gset nat * list nat)
    : res (gset nat * list nat) :=
  match p with
  | None => inr s
  | Some b =>
      if bool_decide (b ∈ s.1) then inr s
      else
        match fuel with
        | O => inl O_fuel
        | S fuel =>
            blk <~ some_of (h !! b) ;;
            s <~ number_blks_r fuel h (b_jt blk) ({[b]} ∪ s.1, (s.2 ++ [b])%list) ;;
            number_blks_r fuel h (b_jf blk) s
        end
  end.

Definition ids (blocks : list nat) : gmap nat nat := list_to_map (imap (fun i b => (b, i)) blocks).

(** ** [find_levels] *)

(** The marked blocks, [b->level] and the array [levels] of lists. *)
Record leveled := Leveled { lv_marked : gset nat; lv_level : gmap nat nat; lv_levels : list (list nat) }.

Definition enter_level (b level : nat) (s : leveled) : res leveled :=
  if (level <? length (lv_levels s))%nat
  then inr (Leveled (lv_marked s) (<[b := level]> (lv_level s)) (alter (cons b) level (lv_levels s)))
  else inl O_undef.

Fixpoint find_levels_r (fuel : nat) (h : heap) (b : nat) (s : leveled) : res leveled :=
  if bool_decide (b ∈ lv_marked s) then inr s
  else
    match fuel with
    | O => inl O_fuel
    | S fuel =>
        blk <~ some_of (h !! b) ;;
        let s := Leveled ({[b]} ∪ lv_marked s) (lv_level s) (lv_levels s) in
        succs <~ both blk ;;
        match succs with
        | Some (t, f) =>
            s <~ find_levels_r fuel h t s ;;
            s <~ find_levels_r fuel h f s ;;
            lt <~ some_of (lv_level s !! t) ;;
            lf <~ some_of (lv_level s !! f) ;;
            enter_level b (Nat.max lt lf + 1) s
        | None => enter_level b 0 s
        end
    end.

Definition find_levels (h : heap) (n_blocks : nat) (root : nat) : res leveled :=
  find_levels_r (S (base.size h)) h root (Leveled ∅ ∅ (repeat [] n_blocks)).

(** The blocks from the level [top] down to the leaves, and from the first
    level above the leaves up to [top]. *)
Definition down (top : nat) (levels : list (list nat)) : list nat := concat (rev (take (S top) levels)).
Definition up (top : nat) (levels : list (list nat)) : list nat := concat (drop 1 (take (S top) levels)).

(** ** [find_dom] and [find_closure] *)

(** The bits that the words of a set have. *)
Definition words (n : nat) : Z := Z.of_nat n / 32 + 1.
Definition all_ones (n : nat) : Z := Z.ones (32 * words n).

(** A set of every block: missing entries stand for blocks that are not there. *)
Abbreviation sets := (gmap nat Z).
Definition SET_INSERT (m : sets) (b : nat) (i : nat) : res sets :=
  x <~ some_of (m !! b) ;; inr (<[b := Z.setbit x (Z.of_nat i)]> m).
Definition SET_MEMBER (x : Z) (i : nat) : bool := Z.testbit x (Z.of_nat i).
(** [SET_INTERSECT] and [SET_UNION] of the set of [a] with that of [b]. *)
Definition set_op (op : Z -> Z -> Z) (m : sets) (a b : nat) : res sets :=
  x <~ some_of (m !! a) ;; y <~ some_of (m !! b) ;; inr (<[a := op x y]> m).

(** One block of the loops of [find_dom] and [find_closure]. *)
Definition spread (op : Z -> Z -> Z) (h : heap) (id : gmap nat nat) (b : nat) (m : sets) : res sets :=
  i <~ some_of (id !! b) ;;
  m <~ SET_INSERT m b i ;;
  blk <~ some_of (h !! b) ;;
  succs <~ both blk ;;
  match succs with
  | None => inr m
  | Some (t, f) => m <~ set_op op m t b ;; set_op op m f b
  end.

Definition init_sets (blocks : list nat) (x : Z) : sets := list_to_map (map (fun b => (b, x)) blocks).

Definition find_dom (h : heap) (blocks : list nat) (lv : leveled) (root : nat) : res sets :=
  top <~ some_of (lv_level lv !! root) ;;
  each (spread Z.land h (ids blocks)) (down top (lv_levels lv))
       (<[root := 0]> (init_sets blocks (all_ones (length blocks)))).

Definition find_closure (h : heap) (blocks : list nat) (lv : leveled) (root : nat) : res sets :=
  top <~ some_of (lv_level lv !! root) ;;
  each (spread Z.lor h (ids blocks)) (down top (lv_levels lv)) (init_sets blocks 0).

(** ** [find_edom] *)

Abbreviation edge_sets := (gmap edge_of Z).

(** The array [edges]: the true branches of all blocks and then the false. *)
Definition edge_id (n_blocks i : nat) (s : bool) : nat := if s then i else n_blocks + i.
Definition edge_at (blocks : list nat) (k : nat) : option edge_of :=
  if (k <? length blocks)%nat then (fun b => (b, true)) <$> blocks !! k
  else (fun b => (b, false)) <$> blocks !! (k - length blocks)%nat.

Definition intersect_edge (m : edge_sets) (a b : edge_of) : res edge_sets :=
  x <~ some_of (m !! a) ;; y <~ some_of (m !! b) ;; inr (<[a := Z.land x y]> m).

Definition propedom (h : heap) (blocks : list nat) (e : edge_of) (m : edge_sets) : res edge_sets :=
  i <~ some_of (ids blocks !! e.1) ;;
  x <~ some_of (m !! e) ;;
  let m := <[e := Z.setbit x (Z.of_nat (edge_id (length blocks) i e.2))]> m in
  t <~ succ h e ;;
  match t with
  | None => inr m
  | Some t => m <~ intersect_edge m (t, true) e ;; intersect_edge m (t, false) e
  end.

Definition init_edges (blocks : list nat) (x : Z) : edge_sets :=
  list_to_map (flat_map (fun b => [((b, true), x); ((b, false), x)]) blocks).

Definition find_edom (h : heap) (blocks : list nat) (lv : leveled) (root : nat) : res edge_sets :=
  top <~ some_of (lv_level lv !! root) ;;
  each (fun b m => m <~ propedom h blocks (b, true) m ;; propedom h blocks (b, false) m)
       (down top (lv_levels lv))
       (<[(root, true) := 0]> (<[(root, false) := 0]> (init_edges blocks (all_ones (2 * length blocks))))).

(** ** The use of registers *)

Definition A_ATOM := BPF_MEMWORDS.
Definition X_ATOM := BPF_MEMWORDS + 1.
Definition N_ATOMS := BPF_MEMWORDS + 2.
Definition AX_ATOM := N_ATOMS.

Definition atomuse (code k : Z) : Z :=
  if code =? NOP then -1
  else
    let cls := BPF_CLASS code in
    if cls =? BPF_RET then
      if BPF_RVAL code =? BPF_A then A_ATOM else if BPF_RVAL code =? BPF_X then X_ATOM else -1
    else if (cls =? BPF_LD) || (cls =? BPF_LDX) then
      if BPF_MODE code =? BPF_IND then X_ATOM else if BPF_MODE code =? BPF_MEM then k else -1
    else if cls =? BPF_ST then A_ATOM
    else if cls =? BPF_STX then X_ATOM
    else if (cls =? BPF_JMP) || (cls =? BPF_ALU) then
      if BPF_SRC code =? BPF_X then AX_ATOM else A_ATOM
    else if BPF_MISCOP code =? BPF_TXA then X_ATOM else A_ATOM.

Definition atomdef (code k : Z) : Z :=
  if code =? NOP then -1
  else
    let cls := BPF_CLASS code in
    if (cls =? BPF_LD) || (cls =? BPF_ALU) then A_ATOM
    else if cls =? BPF_LDX then X_ATOM
    else if (cls =? BPF_ST) || (cls =? BPF_STX) then k
    else if cls =? BPF_MISC then if BPF_MISCOP code =? BPF_TAX then X_ATOM else A_ATOM
    else -1.

(** An [atomset]; the shift by [n] is defined for the 32 bits of a word. *)
Definition ATOMELEM (d n : Z) : bool := Z.testbit d n.
Definition add_atom (d n : Z) : res Z := if n <? 32 then inr (Z.setbit d n) else inl O_undef.

(** [def], [use] and [kill]. *)
Record local_ud := LocalUd { l_def : Z; l_use : Z; l_kill : Z }.

Definition use_atom (atom : Z) (u : local_ud) : local_ud :=
  if ATOMELEM (l_def u) atom then u else LocalUd (l_def u) (Z.setbit (l_use u) atom) (l_kill u).
Definition note_use (atom : Z) (u : local_ud) : res local_ud :=
  if atom <? 0 then inr u
  else if atom =? AX_ATOM then inr (use_atom A_ATOM (use_atom X_ATOM u))
  else if atom <? N_ATOMS then inr (use_atom atom u)
  else inl O_abort.
Definition note_def (atom : Z) (u : local_ud) : res local_ud :=
  if atom <? 0 then inr u
  else
    kill <~ (if ATOMELEM (l_use u) atom then inr (l_kill u) else add_atom (l_kill u) atom) ;;
    def <~ add_atom (l_def u) atom ;;
    inr (LocalUd def (l_use u) kill).
Definition stmt_ud (s : slist) (u : local_ud) : res local_ud :=
  if sl_code s =? NOP then inr u
  else
    u <~ note_use (atomuse (sl_code s) (sl_k s)) u ;;
    note_def (atomdef (sl_code s) (sl_k s)) u.

Definition compute_local_ud (b : block) : res local_ud :=
  u <~ each stmt_ud (b_stmts b) (LocalUd 0 0 0) ;;
  if BPF_CLASS (b_code b) =? BPF_JMP then note_use (atomuse (b_code b) (b_k b)) u else inr u.

(** [kill], [in_use] and [out_use] of a block. *)
Record ud := Ud { u_kill : Z; u_in : Z; u_out : Z }.

Definition flow_up (h : heap) (b : nat) (m : gmap nat ud) : res (gmap nat ud) :=
  blk <~ some_of (h !! b) ;;
  p <~ some_of (m !! b) ;;
  succs <~ both blk ;;
  match succs with
  | None => inl O_undef
  | Some (t, f) =>
      ut <~ some_of (m !! t) ;;
      uf <~ some_of (m !! f) ;;
      let out := u_out p .| (u_in ut .| u_in uf) in
      inr (<[b := Ud (u_kill p) (u_in p .| (Z.ldiff out (u_kill p))) out]> m)
  end.

Definition find_ud (h : heap) (lv : leveled) (root : nat) : res (gmap nat ud) :=
  top <~ some_of (lv_level lv !! root) ;;
  m <~ each (fun b m =>
               blk <~ some_of (h !! b) ;;
               u <~ compute_local_ud blk ;;
               inr (<[b := Ud (l_kill u) (l_use u) 0]> m)) (down top (lv_levels lv)) ∅ ;;
  each (flow_up h) (up top (lv_levels lv)) m.
