(* ===== verification/OptValue.v ===== *)
(** [optimize.c]: value numbering - the table of symbolic values, the
    evaluation and simplification of a statement, the peephole optimizer and
    the removal of dead stores. *)
From S2P Require Import Prelude CString CFile Bpf BpfFilter Gencode Icode OptFlow.

#[local] Open Scope Z_scope.
#[local] Open Scope c_scope.
#[local] Open Scope opt_scope.

(** ** The table of values *)

Record valnode := Valnode { vn_code : Z; vn_v0 : Z; vn_v1 : Z; vn_val : Z }.

(** [hashtbl], [curval], and [vmap]: the constant a value number stands for, if
    it does ([is_const]).  The nodes of [vnode_base] are those of the lists.
    [o_done] is the flag [done], which the passes only clear. *)
Record work := Work { hashtbl : gmap Z (list valnode); curval : Z; vmap : gmap Z Z; o_done : bool }.

Definition MODULUS := 213.
Definition init_val (w : work) : work := Work ∅ 0 ∅ (o_done w).
Definition not_done (w : work) : work := Work (hashtbl w) (curval w) (vmap w) false.

Definition hash_of (code v0 v1 : Z) : Z :=
  (Z.lxor (Z.lxor (u32 code) (u32 (v0 << 4))) (u32 (v1 << 8))) mod MODULUS.

Definition is_node (code v0 v1 : Z) (p : valnode) : bool :=
  (vn_code p =? code) && (vn_v0 p =? v0) && (vn_v1 p =? v1).

Definition F (code v0 v1 : Z) (w : work) : Z * work :=
  let h := hash_of code v0 v1 in
  let bucket := default [] (hashtbl w !! h) in
  match find (is_node code v0 v1) bucket with
  | Some p => (vn_val p, w)
  | None =>
      let val := curval w + 1 in
      let vm :=
        if (BPF_MODE code =? BPF_IMM) && ((BPF_CLASS code =? BPF_LD) || (BPF_CLASS code =? BPF_LDX))
        then <[val := v0]> (vmap w) else vmap w in
      (val, Work (<[h := Valnode code v0 v1 val :: bucket]> (hashtbl w)) val vm (o_done w))
  end.

(** [K(i)] *)
Definition K_ (i : Z) (w : work) : Z * work := F (BPF_LD .| BPF_IMM .| BPF_W) i 0 w.

Definition is_const (w : work) (v : Z) : bool := match vmap w !! v with Some _ => true | None => false end.
Definition const_val (w : work) (v : Z) : Z := default 0 (vmap w !! v).

(** ** A statement *)

Definition with_code (s : slist) (c : Z) : slist := Slist (sl_id s) c (sl_k s) (sl_jt s) (sl_jf s).
Definition with_k (s : slist) (k : Z) : slist := Slist (sl_id s) (sl_code s) (i32 k) (sl_jt s) (sl_jf s).

(** The array [val] of a block: the value numbers of the registers, 0 if
    nothing is known. *)
Abbreviation values := (list Z).
Definition val_at (val : values) (i : Z) : res Z := some_of (nthZ val i).
Definition set_val (val : values) (i v : Z) : res values :=
  _ <~ val_at val i ;; inr (<[Z.to_nat i := v]> val).

(** What a statement becomes, the values after it, and the table. *)
Abbreviation stmt_res := (slist * values * work)%type.

Definition vstore (s : slist) (val : values) (i newval : Z) (alter : bool) (w : work) : res stmt_res :=
  old <~ val_at val i ;;
  if alter && (old =? newval) then inr (with_code s NOP, val, w)
  else inr (s, <[Z.to_nat i := newval]> val, w).

(** [fold_op]: the operation on two constants becomes a load. *)
Definition fold_alu (op a b : Z) : res Z :=
  if op =? BPF_ADD then inr (u32 (a + b))
  else if op =? BPF_SUB then inr (u32 (a - b))
  else if op =? BPF_MUL then inr (u32 (a * b))
  else if op =? BPF_DIV then if b =? 0 then inl (O_error "division by zero") else inr (a / b)
  else if op =? BPF_AND then inr (a .& b)
  else if op =? BPF_OR then inr (a .| b)
  else if op =? BPF_LSH then if b <? 32 then inr (u32 (a << b)) else inl O_undef
  else if op =? BPF_RSH then if b <? 32 then inr (a >> b) else inl O_undef
  else if op =? BPF_NEG then inr (u32 (- a))
  else inl O_abort.

Definition fold_op (s : slist) (v0 v1 : Z) (w : work) : res (slist * work) :=
  a <~ fold_alu (BPF_OP (sl_code s)) (u32 (const_val w v0)) (u32 (const_val w v1)) ;;
  inr (with_code (with_k s a) (BPF_LD .| BPF_IMM), not_done w).

(** [val[i] = v] *)
Definition assign (s : slist) (val : values) (i v : Z) (w : work) : res stmt_res :=
  val <~ set_val val i v ;; inr (s, val, w).
(** [val[A_ATOM] = K(s->k)] *)
Definition assign_const (s : slist) (val : values) (w : work) : res stmt_res :=
  let '(v, w) := K_ (sl_k s) w in assign s val A_ATOM v w.

Definition is_op (op : Z) (l : list Z) : bool := existsb (Z.eqb op) l.

(** The cases of an operation with a constant, and with X. *)
Definition opt_alu_k (s : slist) (val : values) (alter : bool) (w : work) : res stmt_res :=
  let op := BPF_OP (sl_code s) in
  a <~ val_at val A_ATOM ;;
  let default_case :=
    let '(v, w) := K_ (sl_k s) w in
    let '(v, w) := F (sl_code s) a v w in
    assign s val A_ATOM v w in
  if alter && (sl_k s =? 0) && is_op op [BPF_ADD; BPF_LSH; BPF_RSH; BPF_OR] then inr (with_code s NOP, val, w)
  else if alter && (sl_k s =? 0) && is_op op [BPF_MUL; BPF_AND] then
    assign_const (with_code s (BPF_LD .| BPF_IMM)) val w
  else if alter && is_const w a then
    let '(v, w) := K_ (sl_k s) w in
    '(s, w) <~ fold_op s a v w ;;
    assign_const s val w
  else default_case.

Definition opt_alu_x (s : slist) (val : values) (alter : bool) (w : work) : res stmt_res :=
  let op := BPF_OP (sl_code s) in
  a <~ val_at val A_ATOM ;;
  x <~ val_at val X_ATOM ;;
  let default_case := let '(v, w) := F (sl_code s) a x w in assign s val A_ATOM v w in
  if alter && is_const w x then
    if is_const w a then
      '(s, w) <~ fold_op s a x w ;;
      assign_const s val w
    else
      let s := with_k (with_code s (BPF_ALU .| BPF_K .| op)) (const_val w x) in
      let '(v, w) := K_ (sl_k s) (not_done w) in
      let '(v, w) := F (sl_code s) a v w in
      assign s val A_ATOM v w
  else if alter && is_const w a && (const_val w a =? 0) then
    if is_op op [BPF_ADD; BPF_OR] then vstore (with_code s (BPF_MISC .| BPF_TXA)) val A_ATOM x alter w
    else if is_op op [BPF_MUL; BPF_DIV; BPF_AND; BPF_LSH; BPF_RSH] then
      let s := with_k (with_code s (BPF_LD .| BPF_IMM)) 0 in
      let '(v, w) := K_ (sl_k s) w in
      vstore s val A_ATOM v alter w
    else if op =? BPF_NEG then inr (with_code s NOP, val, w)
    else default_case
  else default_case.

(** [opt_stmt]: the labels of its cases are the codes of the filter machine;
    the statements without a case have no effect. *)
Definition opt_stmt (s : slist) (val : values) (alter : bool) (w : work) : res stmt_res :=
  let c := sl_code s in
  match decode c with
  | Some (LdAbs _) => let '(v, w) := F c (sl_k s) 0 w in vstore s val A_ATOM v alter w
  | Some (LdInd _) =>
      v <~ val_at val X_ATOM ;;
      if alter && is_const w v then
        let s := with_k (with_code s (BPF_LD .| BPF_ABS .| BPF_SIZE c)) (sl_k s + const_val w v) in
        let '(v, w) := F (sl_code s) (sl_k s) 0 w in
        vstore s val A_ATOM v alter (not_done w)
      else let '(v, w) := F c (sl_k s) v w in vstore s val A_ATOM v alter w
  | Some LdLen => let '(v, w) := F c 0 0 w in vstore s val A_ATOM v alter w
  | Some LdImm => let '(v, w) := K_ (sl_k s) w in vstore s val A_ATOM v alter w
  | Some LdxImm => let '(v, w) := K_ (sl_k s) w in vstore s val X_ATOM v alter w
  | Some LdxMsh => let '(v, w) := F c (sl_k s) 0 w in vstore s val X_ATOM v alter w
  | Some AluNeg =>
      a <~ val_at val A_ATOM ;;
      if alter && is_const w a then
        assign_const (with_k (with_code s (BPF_LD .| BPF_IMM)) (- const_val w a)) val w
      else let '(v, w) := F c a 0 w in assign s val A_ATOM v w
  | Some (AluOp _ K) => opt_alu_k s val alter w
  | Some (AluOp _ X) => opt_alu_x s val alter w
  | Some MiscTxa => x <~ val_at val X_ATOM ;; vstore s val A_ATOM x alter w
  | Some LdMem =>
      v <~ val_at val (sl_k s) ;;
      if alter && is_const w v
      then vstore (with_k (with_code s (BPF_LD .| BPF_IMM)) (const_val w v)) val A_ATOM v alter (not_done w)
      else vstore s val A_ATOM v alter w
  | Some MiscTax => a <~ val_at val A_ATOM ;; vstore s val X_ATOM a alter w
  | Some LdxMem =>
      v <~ val_at val (sl_k s) ;;
      if alter && is_const w v
      then vstore (with_k (with_code s (BPF_LDX .| BPF_IMM)) (const_val w v)) val X_ATOM v alter (not_done w)
      else vstore s val X_ATOM v alter w
  | Some StM => a <~ val_at val A_ATOM ;; vstore s val (sl_k s) a alter w
  | Some StxM => x <~ val_at val X_ATOM ;; vstore s val (sl_k s) x alter w
  | Some LdxLen | Some RetK | Some RetA | Some JmpJa | Some (JmpIf _ _) | None => inr (s, val, w)
  end.

(** The loop of [opt_blk] over the statements. *)
Fixpoint opt_stmts (l : list slist) (val : values) (alter : bool) (w : work)
    : res (list slist * values * work) :=
  match l with
  | [] => inr ([], val, w)
  | s :: l =>
      '(s, val, w) <~ opt_stmt s val alter w ;;
      '(l, val, w) <~ opt_stmts l val alter w ;;
      inr (s :: l, val, w)
  end.

(** ** [opt_peep] *)

(** [this_op]: the index of the next statement that is not deleted. *)
Fixpoint skip_nops (l : list slist) (i : nat) : option nat :=
  match l with
  | [] => None
  | s :: l => if sl_code s =? NOP then skip_nops l (S i) else Some i
  end.
Definition this_op (l : list slist) (i : nat) : option nat := skip_nops (drop i l) i.

Definition code_at (l : list slist) (i : nat) : Z := match l !! i with Some s => sl_code s | None => NOP end.
Definition k_at (l : list slist) (i : nat) : Z := match l !! i with Some s => sl_k s | None => 0 end.
Definition set_code (c : Z) (i : nat) (l : list slist) : list slist := alter (fun s => with_code s c) i l.

(** The statements with their values of [s] and [next]: the three rewritings of
    a turn, and the flag that says whether one of them applied. *)
Definition peep_st (l : list slist) (s next : nat) : list slist * bool :=
  if (code_at l s =? BPF_ST) && (code_at l next =? (BPF_LDX .| BPF_MEM)) && (k_at l s =? k_at l next)
  then (set_code (BPF_MISC .| BPF_TAX) next l, true) else (l, false).
Definition peep_imm (l : list slist) (s next : nat) : list slist * bool :=
  if (code_at l s =? (BPF_LD .| BPF_IMM)) && (code_at l next =? (BPF_MISC .| BPF_TAX))
  then (set_code (BPF_MISC .| BPF_TXA) next (set_code (BPF_LDX .| BPF_IMM) s l), true) else (l, false).

Definition peep_ild (out_use : Z) (l : list slist) (s next : nat) : list slist * bool :=
  if negb (code_at l s =? (BPF_LD .| BPF_IMM)) || ATOMELEM out_use X_ATOM then (l, false)
  else
    match (if code_at l next =? (BPF_LDX .| BPF_MSH .| BPF_B) then this_op l (S next) else Some next) with
    | None => (l, false)
    | Some add =>
        if negb (code_at l add =? (BPF_ALU .| BPF_ADD .| BPF_X)) then (l, false)
        else
          match this_op l (S add) with
          | None => (l, false)
          | Some tax =>
              if negb (code_at l tax =? (BPF_MISC .| BPF_TAX)) then (l, false)
              else
                match this_op l (S tax) with
                | None => (l, false)
                | Some ild =>
                    if negb ((BPF_CLASS (code_at l ild) =? BPF_LD) && (BPF_MODE (code_at l ild) =? BPF_IND))
                    then (l, false)
                    else
                      let l := alter (fun i => with_k i (sl_k i + k_at l s)) ild l in
                      (set_code NOP tax (set_code NOP add (set_code NOP s l)), true)
                end
          end
    end.

(** The [for] loop: the statements, [last], and whether anything changed. *)
Fixpoint peep_loop (fuel : nat) (out_use : Z) (l : list slist) (s last : nat) (changed : bool)
    : list slist * nat * bool :=
  match fuel with
  | O => (l, last, changed)
  | S fuel =>
      match this_op l s with
      | None => (l, last, changed)
      | Some s =>
          match this_op l (S s) with
          | None => (l, last, changed)
          | Some next =>
              let '(l, c1) := peep_st l s next in
              let '(l, c2) := peep_imm l s next in
              let '(l, c3) := peep_ild out_use l s next in
              peep_loop fuel out_use l next next (changed || c1 || c2 || c3)
          end
      end
  end.

Definition with_branch (b : block) (c k : Z) : block :=
  Block (b_stmts b) c (i32 k) (b_jt b) (b_jf b) (b_sense b) (b_head b) (b_longjt b) (b_longjf b) (b_offset b).
Definition opt_not (b : block) : block := with_jf (with_jt b (b_jf b)) (b_jt b).
Definition mark_done (changed : bool) (w : work) : work := if changed then not_done w else w.

(** The comparison at the end of the block, with the operation before it. *)
Definition peep_compare (out_use : Z) (val : values) (last : nat) (b : block) (w : work) : res (block * bool) :=
  if negb ((b_code b =? (BPF_JMP .| BPF_JEQ .| BPF_K)) && negb (ATOMELEM out_use A_ATOM)) then inr (b, false)
  else
    let l := b_stmts b in
    let c := code_at l last in
    let drop_last b := with_stmts b (set_code NOP last l) in
    if c =? (BPF_ALU .| BPF_SUB .| BPF_X) then
      x <~ val_at val X_ATOM ;;
      if is_const w x then inr (drop_last (with_branch b (b_code b) (b_k b + const_val w x)), true)
      else if b_k b =? 0 then inr (drop_last (with_branch b (BPF_JMP .| BPF_JEQ .| BPF_X) (b_k b)), true)
      else inr (b, false)
    else if c =? (BPF_ALU .| BPF_SUB .| BPF_K) then
      inr (drop_last (with_branch b (b_code b) (b_k b + k_at l last)), true)
    else if (c =? (BPF_ALU .| BPF_AND .| BPF_K)) && (b_k b =? 0) then
      inr (opt_not (drop_last (with_branch b (BPF_JMP .| BPF_K .| BPF_JSET) (k_at l last))), true)
    else inr (b, false).

Definition peep_jset (b : block) : block :=
  if negb (b_code b =? (BPF_JMP .| BPF_K .| BPF_JSET)) then b
  else
    let b := if b_k b =? 0 then with_jt b (b_jf b) else b in
    if u32 (b_k b) =? 0xffffffff then with_jf b (b_jt b) else b.

Definition peep_const_x (val : values) (b : block) (w : work) : res block :=
  x <~ val_at val X_ATOM ;;
  if is_const w x && (BPF_SRC (b_code b) =? BPF_X)
  then inr (with_branch b (Z.ldiff (b_code b) BPF_X) (const_val w x)) else inr b.

(** The outcome of a comparison of two constants. *)
Definition fold_test (op v k : Z) : res bool :=
  if op =? BPF_JEQ then inr (v =? k)
  else if op =? BPF_JGT then inr (u32 k <? u32 v)
  else if op =? BPF_JGE then inr (u32 k <=? u32 v)
  else if op =? BPF_JSET then inr (negb (v .& k =? 0))
  else inl O_abort.

Definition peep_const_a (val : values) (b : block) (w : work) : res (block * bool) :=
  a <~ val_at val A_ATOM ;;
  if is_const w a && (BPF_SRC (b_code b) =? BPF_K) then
    v <~ fold_test (BPF_OP (b_code b)) (const_val w a) (b_k b) ;;
    let changed := negb (bool_decide (b_jf b = b_jt b)) in
    inr (if v then with_jf b (b_jt b) else with_jt b (b_jf b), changed)
  else inr (b, false).

Definition opt_peep (out_use : Z) (val : values) (b : block) (w : work) : res (block * work) :=
  match b_stmts b with
  | [] => inr (b, w)
  | _ =>
      let '(l, last, c1) := peep_loop (length (b_stmts b)) out_use (b_stmts b) 0 0 false in
      '(b, c2) <~ peep_compare out_use val last (with_stmts b l) w ;;
      b <~ peep_const_x val (peep_jset b) w ;;
      '(b, c3) <~ peep_const_a val b w ;;
      inr (b, mark_done (c1 || c2 || c3) w)
  end.

(** ** [opt_deadstores]

    The branch is the statement after the last; [last] has the index of the
    store to each register that has not been used since. *)
Abbreviation last_stores := (list (option nat)).
Definition n_atoms : nat := Z.to_nat N_ATOMS.

Definition forget (atom : Z) (last : last_stores) : res last_stores :=
  _ <~ some_of (nthZ last atom) ;; inr (<[Z.to_nat atom := None]> last).

Definition deadstmt (l : list slist) (i : nat) (s : slist) (last : last_stores) (changed : bool)
    : res (list slist * last_stores * bool) :=
  let use := atomuse (sl_code s) (sl_k s) in
  let def := atomdef (sl_code s) (sl_k s) in
  last <~ (if use <? 0 then inr last
           else if use =? AX_ATOM then last <~ forget X_ATOM last ;; forget A_ATOM last
           else forget use last) ;;
  if def <? 0 then inr (l, last, changed)
  else
    old <~ some_of (nthZ last def) ;;
    let last := <[Z.to_nat def := Some i]> last in
    match old with
    | Some j => inr (set_code NOP j l, last, true)
    | None => inr (l, last, changed)
    end.

Fixpoint dead_loop (n : nat) (i : nat) (l : list slist) (last : last_stores) (changed : bool)
    : res (list slist * last_stores * bool) :=
  match n with
  | O => inr (l, last, changed)
  | S n =>
      s <~ some_of (l !! i) ;;
      '(l, last, changed) <~ deadstmt l i s last changed ;;
      dead_loop n (S i) l last changed
  end.

(** The last loop of [opt_deadstores], over the registers from [atom] on. *)
Fixpoint dead_at_end (out_use : Z) (last : last_stores) (atom : Z) (l : list slist) (changed : bool)
    : list slist * bool :=
  match last with
  | [] => (l, changed)
  | Some i :: last =>
      if ATOMELEM out_use atom then dead_at_end out_use last (atom + 1) l changed
      else dead_at_end out_use last (atom + 1) (set_code NOP i l) true
  | None :: last => dead_at_end out_use last (atom + 1) l changed
  end.

Definition branch_stmt (b : block) : slist := Slist 0 (b_code b) (b_k b) None None.

Definition opt_deadstores (out_use : Z) (b : block) (w : work) : res (block * work) :=
  let l := (b_stmts b ++ [branch_stmt b])%list in
  '(l, last, c) <~ dead_loop (length l) 0 l (repeat None n_atoms) false ;;
  let '(l, c) := dead_at_end out_use last 0 l c in
  s <~ some_of (list.last l) ;;
  inr (with_branch (with_stmts b (take (length (b_stmts b)) l)) (sl_code s) (sl_k s), mark_done c w).
