(* ===== verification/Optimize.v ===== *)
(** [optimize.c]: the optimizer's passes over the blocks - value numbering
    along the edges, the moving of branches, the pulling up of blocks, the
    sharing of equal blocks - and [bpf_optimize]. *)
From S2P Require Import Prelude CString CFile Bpf BpfFilter Gencode Icode OptFlow OptValue.

#[local] Open Scope string_scope.
#[local] Open Scope Z_scope.
#[local] Open Scope c_scope.
#[local] Open Scope opt_scope.

(** ** The state of a pass

    [f_val], [f_oval] and [f_code] are the fields [val], [oval] and [et.code]
    of the blocks; [ef.code] is the negative of [et.code]. *)
Record flow := Flow {
  f_heap : heap;
  f_work : work;
  f_val : gmap nat values;
  f_oval : gmap nat Z;
  f_code : gmap nat Z }.

Definition set_heap_f (s : flow) (h : heap) : flow := Flow h (f_work s) (f_val s) (f_oval s) (f_code s).
Definition clear_done (s : flow) : flow :=
  Flow (f_heap s) (not_done (f_work s)) (f_val s) (f_oval s) (f_code s).
Definition block_at (s : flow) (b : nat) : res block := some_of (f_heap s !! b).
Definition value_of (s : flow) (b : nat) (i : Z) : res Z := val <~ some_of (f_val s !! b) ;; val_at val i.

(** ** [find_inedges] *)

(** The list at [in_edges], the last edge linked first. *)
Abbreviation in_edges := (gmap nat (list edge_of)).

Definition link_inedge (h : heap) (e : edge_of) (m : in_edges) : res in_edges :=
  t <~ succ h e ;;
  child <~ some_of t ;;
  inr (<[child := e :: default [] (m !! child)]> m).

(** The blocks from the level [top] down to the one above the leaves. *)
Definition inner_down (top : nat) (levels : list (list nat)) : list nat :=
  concat (rev (drop 1 (take (S top) levels))).

Definition find_inedges (h : heap) (lv : leveled) (root : nat) : res in_edges :=
  top <~ some_of (lv_level lv !! root) ;;
  each (fun b m => m <~ link_inedge h (b, true) m ;; link_inedge h (b, false) m)
       (inner_down top (lv_levels lv)) ∅.

(** ** [opt_blk] *)

(** The values that all predecessors agree on. *)
Definition meet (val val' : values) : values := zip_with (fun x y => if x =? y then x else 0) val val'.

Fixpoint meet_preds (s : flow) (l : list edge_of) (val : values) : res values :=
  match l with
  | [] => inr val
  | e :: l => v <~ some_of (f_val s !! e.1) ;; meet_preds s l (meet val v)
  end.

Definition entry_values (s : flow) (preds : list edge_of) : res values :=
  match preds with
  | [] => inr (repeat 0 n_atoms)
  | e :: l => v <~ some_of (f_val s !! e.1) ;; meet_preds s l v
  end.

(** Whether the statements change neither A nor X, nor anything that is used;
    or the block returns. *)
Definition no_effect (do_stmts : bool) (out_use aval a xval x code : Z) : bool :=
  do_stmts && (((out_use =? 0) && negb (aval =? 0) && (a =? aval) && negb (xval =? 0) && (x =? xval))
               || (BPF_CLASS code =? BPF_RET)).

Definition opt_blk (uds : gmap nat ud) (ins : in_edges) (do_stmts : bool) (b : nat) (s : flow) : res flow :=
  blk <~ block_at s b ;;
  u <~ some_of (uds !! b) ;;
  val <~ entry_values s (default [] (ins !! b)) ;;
  aval <~ val_at val A_ATOM ;;
  xval <~ val_at val X_ATOM ;;
  '(l, val, w) <~ opt_stmts (b_stmts blk) val do_stmts (f_work s) ;;
  a <~ val_at val A_ATOM ;;
  x <~ val_at val X_ATOM ;;
  let blk := with_stmts blk l in
  '(blk, w) <~ (if no_effect do_stmts (u_out u) aval a xval x (b_code blk)
                then inr (with_stmts blk [], match l with [] => w | _ => not_done w end)
                else
                  '(blk, w) <~ opt_peep (u_out u) val blk w ;;
                  opt_deadstores (u_out u) blk w) ;;
  let '(oval, w) := if BPF_SRC (b_code blk) =? BPF_K then K_ (b_k blk) w else (x, w) in
  inr (Flow (<[b := blk]> (f_heap s)) w (<[b := val]> (f_val s)) (<[b := oval]> (f_oval s))
            (<[b := b_code blk]> (f_code s))).

(** ** [opt_j] *)

(** The loop over the registers. *)
Definition differ (use : Z) (v v' : values) : bool :=
  existsb (fun i => ATOMELEM use (Z.of_nat i) && negb (bool_decide (v !! i = v' !! i))) (seq 0 n_atoms).

Definition use_conflict (uds : gmap nat ud) (s : flow) (b sc : nat) : res bool :=
  u <~ some_of (uds !! sc) ;;
  if u_out u =? 0 then inr false
  else
    v <~ some_of (f_val s !! b) ;;
    v' <~ some_of (f_val s !! sc) ;;
    inr (differ (u_out u) v v').

(** Where the test of [child] leads after the edge [e]. *)
Definition fold_edge (s : flow) (child : nat) (e : edge_of) : res (option nat) :=
  code <~ some_of (f_code s !! e.1) ;;
  let sense := e.2 in
  c <~ block_at s child ;;
  if negb (b_code c =? code) then inr None
  else
    aval0 <~ value_of s child A_ATOM ;;
    oval0 <~ some_of (f_oval s !! child) ;;
    aval1 <~ value_of s e.1 A_ATOM ;;
    oval1 <~ some_of (f_oval s !! e.1) ;;
    if negb (aval0 =? aval1) then inr None
    else if oval0 =? oval1 then inr (if sense then b_jt c else b_jf c)
    else if sense && (code =? (BPF_JMP .| BPF_JEQ .| BPF_K)) then inr (b_jf c)
    else inr None.

(** The elements of a set, in the order of [ffs]. *)
Definition elements_of (n : nat) (x : Z) : list nat :=
  List.filter (fun k => Z.testbit x (Z.of_nat k)) (seq 0 (Z.to_nat (32 * words n))).

(** The first of the edges [ks] that tells where the successor [child] of [e]
    leads, without a conflict. *)
Fixpoint promote (uds : gmap nat ud) (blocks : list nat) (s : flow) (pred child : nat) (ks : list nat)
    : res (option nat) :=
  match ks with
  | [] => inr None
  | k :: ks =>
      e <~ some_of (edge_at blocks k) ;;
      target <~ fold_edge s child e ;;
      match target with
      | None => promote uds blocks s pred child ks
      | Some t =>
          c <~ use_conflict uds s pred t ;;
          if c then promote uds blocks s pred child ks else inr (Some t)
      end
  end.

(** The part of [opt_j] from [top] on. *)
Fixpoint opt_j_loop (fuel : nat) (uds : gmap nat ud) (edoms : edge_sets) (blocks : list nat) (e : edge_of)
    (s : flow) : res flow :=
  match fuel with
  | O => inl O_fuel
  | S fuel =>
      x <~ some_of (edoms !! e) ;;
      t <~ succ (f_heap s) e ;;
      child <~ some_of t ;;
      target <~ promote uds blocks s e.1 child (elements_of (2 * length blocks) x) ;;
      match target with
      | None => inr s
      | Some t =>
          h <~ set_succ (f_heap s) e (Some t) ;;
          let s := clear_done (set_heap_f s h) in
          bt <~ block_at s t ;;
          match b_jt bt with
          | Some _ => opt_j_loop fuel uds edoms blocks e s
          | None => inr s
          end
      end
  end.

Definition opt_j (uds : gmap nat ud) (edoms : edge_sets) (blocks : list nat) (e : edge_of) (s : flow) : res flow :=
  t <~ succ (f_heap s) e ;;
  child <~ some_of t ;;
  c <~ block_at s child ;;
  match b_jt c with
  | None => inr s
  | Some jt =>
      s <~ (if bool_decide (b_jt c = b_jf c) then
              conflict <~ use_conflict uds s e.1 jt ;;
              if conflict then inr s
              else h <~ set_succ (f_heap s) e (Some jt) ;; inr (clear_done (set_heap_f s h))
            else inr s) ;;
      opt_j_loop (S (base.size (f_heap s))) uds edoms blocks e s
  end.

(** ** [or_pullup] and [and_pullup]

    The two have the same text but for the exchange of [JT] and [JF]: the
    blocks of the chain have the branch [same] in common with [b], and go on
    along the other.  A [struct block **] is the edge whose successor it
    points to. *)
Section Pullup.
Context (doms : sets) (id : gmap nat nat) (same : bool).

(** The two loops down the chain; [None] is a [return]. *)
Fixpoint walk (fuel : nat) (stop : Z -> bool) (s : flow) (b : nat) (p : edge_of) (at_top : bool)
    : res (option (edge_of * bool)) :=
  match fuel with
  | O => inl O_fuel
  | S fuel =>
      t <~ succ (f_heap s) p ;;
      match t with
      | None => inr None
      | Some d =>
          x <~ succ (f_heap s) (d, same) ;;
          y <~ succ (f_heap s) (b, same) ;;
          if negb (bool_decide (x = y)) then inr None
          else
            dom <~ some_of (doms !! d) ;;
            i <~ some_of (id !! b) ;;
            if negb (SET_MEMBER dom i) then inr None
            else
              v <~ value_of s d A_ATOM ;;
              if stop v then inr (Some (p, at_top)) else walk fuel stop s b (d, negb same) false
      end
  end.

Fixpoint same_value (s : flow) (val : Z) (l : list edge_of) : res bool :=
  match l with
  | [] => inr true
  | e :: l => v <~ value_of s e.1 A_ATOM ;; if negb (val =? v) then inr false else same_value s val l
  end.

(** At the top of the chain, the predecessors point at the pulled up block. *)
Definition repoint (b pull : nat) (e : edge_of) (h : heap) : res heap :=
  t <~ succ h (e.1, true) ;;
  set_succ h (e.1, bool_decide (t = Some b)) (Some pull).

Definition pull_up (s : flow) (preds : list edge_of) (b : nat) (diffp : edge_of) (at_top : bool) (samep : edge_of)
    : res flow :=
  let h := f_heap s in
  p <~ succ h samep ;;
  pull <~ some_of p ;;
  next <~ succ h (pull, negb same) ;;
  h <~ set_succ h samep next ;;
  d <~ succ h diffp ;;
  h <~ set_succ h (pull, negb same) d ;;
  h <~ (if at_top then each (repoint b pull) preds h else set_succ h diffp (Some pull)) ;;
  inr (clear_done (set_heap_f s h)).

Definition pullup (ins : in_edges) (b : nat) (s : flow) : res flow :=
  match default [] (ins !! b) with
  | [] => inr s
  | e :: l =>
      val <~ value_of s e.1 A_ATOM ;;
      ok <~ same_value s val l ;;
      if negb ok then inr s
      else
        let fuel := S (base.size (f_heap s)) in
        t <~ succ (f_heap s) (e.1, true) ;;
        d <~ walk fuel (fun v => negb (v =? val)) s b (e.1, bool_decide (t = Some b)) true ;;
        match d with
        | None => inr s
        | Some (diffp, at_top) =>
            t <~ succ (f_heap s) diffp ;;
            d <~ some_of t ;;
            sp <~ walk fuel (fun v => v =? val) s b (d, negb same) false ;;
            match sp with
            | None => inr s
            | Some (samep, _) => pull_up s (e :: l) b diffp at_top samep
            end
        end
  end.
End Pullup.

Definition or_pullup (doms : sets) (id : gmap nat nat) := pullup doms id true.
Definition and_pullup (doms : sets) (id : gmap nat nat) := pullup doms id false.

(** ** [opt_blks] and [opt_loop] *)

Definition opt_blks (blocks : list nat) (lv : leveled) (doms : sets) (uds : gmap nat ud) (edoms : edge_sets)
    (root : nat) (do_stmts : bool) (h : heap) (w : work) : res (heap * work) :=
  maxlevel <~ some_of (lv_level lv !! root) ;;
  ins <~ find_inedges h lv root ;;
  s <~ each (opt_blk uds ins do_stmts) (down maxlevel (lv_levels lv)) (Flow h (init_val w) ∅ ∅ ∅) ;;
  if do_stmts then inr (f_heap s, f_work s)
  else
    let blks := up maxlevel (lv_levels lv) in
    s <~ each (fun p s => s <~ opt_j uds edoms blocks (p, true) s ;; opt_j uds edoms blocks (p, false) s) blks s ;;
    ins <~ find_inedges (f_heap s) lv root ;;
    s <~ each (fun p s => s <~ or_pullup doms (ids blocks) ins p s ;; and_pullup doms (ids blocks) ins p s) blks s ;;
    inr (f_heap s, f_work s).

Definition fresh_turn (w : work) : work := Work (hashtbl w) (curval w) (vmap w) true.

(** The [do] loop; [O_fuel] after [fuel] turns. *)
Fixpoint opt_loop (fuel : nat) (blocks : list nat) (root : nat) (do_stmts : bool) (h : heap) (w : work)
    : res (heap * work) :=
  match fuel with
  | O => inl O_fuel
  | S fuel =>
      lv <~ find_levels h (length blocks) root ;;
      doms <~ find_dom h blocks lv root ;;
      _ <~ find_closure h blocks lv root ;;
      uds <~ find_ud h lv root ;;
      edoms <~ find_edom h blocks lv root ;;
      '(h, w) <~ opt_blks blocks lv doms uds edoms root do_stmts h (fresh_turn w) ;;
      if o_done w then inr (h, w) else opt_loop fuel blocks root do_stmts h w
  end.

(** ** [intern_blocks] *)

(** The statements that [eq_slist] looks at. *)
Fixpoint strip_nops (l : list slist) : list slist :=
  match l with
  | [] => []
  | s :: l' => if sl_code s =? NOP then strip_nops l' else l
  end.
Fixpoint eq_slist (fuel : nat) (x y : list slist) : bool :=
  match fuel with
  | O => false
  | S fuel =>
      match strip_nops x, strip_nops y with
      | [], [] => true
      | a :: x, b :: y =>
          if negb (sl_code a =? sl_code b) || negb (sl_k a =? sl_k b) then false else eq_slist fuel x y
      | _, _ => false
      end
  end.

Definition eq_blk (b0 b1 : block) : bool :=
  (b_code b0 =? b_code b1) && (b_k b0 =? b_k b1) && bool_decide (b_jt b0 = b_jt b1) &&
  bool_decide (b_jf b0 = b_jf b1) && eq_slist (S (length (b_stmts b0))) (b_stmts b0) (b_stmts b1).

Fixpoint make_marks (fuel : nat) (h : heap) (p : nat) (marked : gset nat) : res (gset nat) :=
  if bool_decide (p ∈ marked) then inr marked
  else
    match fuel with
    | O => inl O_fuel
    | S fuel =>
        blk <~ some_of (h !! p) ;;
        let marked := {[p]} ∪ marked in
        if BPF_CLASS (b_code blk) =? BPF_RET then inr marked
        else
          t <~ some_of (b_jt blk) ;;
          f <~ some_of (b_jf blk) ;;
          marked <~ make_marks fuel h t marked ;;
          make_marks fuel h f marked
    end.

(** The field [link] of the blocks. *)
Abbreviation links := (gmap nat nat).

(** The loop over [j], and the loop over [i], for the blocks before the last,
    in the order of the code. *)
Fixpoint find_equal (h : heap) (marked : gset nat) (blk : block) (js : list nat) : res (option nat) :=
  match js with
  | [] => inr None
  | j :: js =>
      if negb (bool_decide (j ∈ marked)) then find_equal h marked blk js
      else
        b <~ some_of (h !! j) ;;
        if eq_blk blk b then inr (Some j) else find_equal h marked blk js
  end.

Fixpoint link_equals (h : heap) (marked : gset nat) (blocks : list nat) (m : links) : res links :=
  match blocks with
  | [] => inr m
  | i :: js =>
      m <~ link_equals h marked js m ;;
      if negb (bool_decide (i ∈ marked)) then inr m
      else
        blk <~ some_of (h !! i) ;;
        j <~ find_equal h marked blk js ;;
        match j with
        | None => inr m
        | Some j => inr (<[i := default j (m !! j)]> m)
        end
  end.

(** The last loop: the branches of all blocks are redirected. *)
Definition redirect (m : links) (p : nat) (s : heap * bool) : res (heap * bool) :=
  let '(h, changed) := s in
  blk <~ some_of (h !! p) ;;
  succs <~ both blk ;;
  match succs with
  | None => inr s
  | Some (t, f) =>
      let blk' := with_jf (with_jt blk (Some (default t (m !! t)))) (Some (default f (m !! f))) in
      inr (<[p := blk']> h, changed || bool_decide (is_Some (m !! t)) || bool_decide (is_Some (m !! f)))
  end.

Fixpoint intern_blocks (fuel : nat) (blocks : list nat) (root : nat) (h : heap) : res heap :=
  match fuel with
  | O => inl O_fuel
  | S fuel =>
      marked <~ make_marks (S (base.size h)) h root ∅ ;;
      m <~ link_equals h marked blocks ∅ ;;
      '(h, changed) <~ each (redirect m) blocks (h, false) ;;
      if changed then intern_blocks fuel blocks root h else inr h
  end.

(** Every turn but the last moves a branch to a block of a greater number. *)
Definition intern_fuel (blocks : list nat) : nat := S (2 * length blocks * length blocks).

(** ** [opt_root] *)

(** The [while] loop. *)
Fixpoint skip_root (fuel : nat) (h : heap) (b : nat) : res nat :=
  match fuel with
  | O => inl O_fuel
  | S fuel =>
      blk <~ some_of (h !! b) ;;
      if (BPF_CLASS (b_code blk) =? BPF_JMP) && bool_decide (b_jt blk = b_jf blk) then
        t <~ some_of (b_jt blk) ;;
        skip_root fuel h t
      else inr b
  end.

(** [sappend] follows the pointer to a list that is not empty. *)
Definition opt_root (h : heap) (root : nat) : res (heap * nat) :=
  blk <~ some_of (h !! root) ;;
  let s := b_stmts blk in
  let h := <[root := with_stmts blk []]> h in
  b <~ skip_root (S (base.size h)) h root ;;
  blk <~ some_of (h !! b) ;;
  l <~ (match b_stmts blk, s with
        | [], _ => inr s
        | _ :: _, [] => inl O_undef
        | tmp, _ => inr (s ++ tmp)%list
        end) ;;
  let l := if BPF_CLASS (b_code blk) =? BPF_RET then [] else l in
  inr (<[b := with_stmts blk l]> h, b).

(** ** [bpf_optimize] *)

Section Malloc.
Context (malloc_ok : Z -> bool).

(** The loop over [max_stmts]. *)
Definition max_stmts (h : heap) (blocks : list nat) : res Z :=
  each (fun b n => blk <~ some_of (h !! b) ;; inr (n + slength (b_stmts blk) + 1)) blocks 0.

Definition allocate (n : Z) : res unit := if malloc_ok n then inr tt else inl (O_error "malloc").

(** [opt_init]: the array [blocks].  The sizes are those of pointers, words,
    [struct vmapinfo] and [struct valnode]. *)
Definition opt_init (h : heap) (root : nat) : res (list nat) :=
  let depth := S (base.size h) in
  '(n, _) <~ count_blocks depth h (Some root) ∅ ;;
  _ <~ allocate (8 * n) ;;
  '(_, blocks) <~ number_blks_r depth h (Some root) (∅, []) ;;
  let n := Z.of_nat (length blocks) in
  _ <~ allocate (8 * (2 * n)) ;;
  _ <~ allocate (8 * n) ;;
  _ <~ allocate (2 * n * words (length blocks) * 4 + 2 * n * words (2 * length blocks) * 4) ;;
  max <~ max_stmts h blocks ;;
  let maxval := 3 * max in
  if malloc_ok (8 * maxval) && malloc_ok (32 * maxval) then inr blocks else inl (O_error "malloc").

(** [turns] bounds the turns of [opt_loop], which the code does not. *)
Definition bpf_optimize (turns : nat) (h : heap) (root : nat) : res (heap * nat) :=
  blocks <~ opt_init h root ;;
  '(h, w) <~ opt_loop turns blocks root false h (Work ∅ 0 ∅ true) ;;
  '(h, _) <~ opt_loop turns blocks root true h w ;;
  h <~ intern_blocks (intern_fuel blocks) blocks root h ;;
  opt_root h root.
End Malloc.
