(* ===== verification/Compile.v ===== *)
(** [gencode.c]: [pcap_compile], from the text of a filter to a program. *)
From S2P Require Import Prelude CString CFile PcapInt Pcap Bpf BpfFilter Gencode GenLink Icode.
From S2P Require Import Names GenOffsets Scanner GrammarTab Parser OptFlow OptValue Optimize.

#[local] Open Scope Z_scope.
#[local] Open Scope c_scope.

(** ** [pcap_parse]

    The number of turns the automaton may take for an input; every token has a
    character at least. *)
Definition parse_fuel (input : string) : nat := 4 * String.length input + 6.

Definition pcap_parse (r : resolver) (netmask snaplen : Z) (rfile : bool) (input : string) (s : gst)
    : option (gerror + (option nat * gst)) :=
  yyparse_loop r netmask snaplen rfile (parse_fuel input) (parser0 input) s.

(** ** [pcap_compile] *)

(** An input without an expression accepts every packet. *)
Definition compile_root (r : resolver) (netmask snaplen : Z) (rfile : bool) (input : string) (s : gst)
    : option (gerror + (nat * gst)) :=
  match pcap_parse r netmask snaplen rfile input s with
  | None => None
  | Some (inl e) => Some (inl e)
  | Some (inr (Some root, s)) => Some (inr (root, s))
  | Some (inr (None, s)) => Some (gen_retblk snaplen s)
  end.

(** [CompileError] is -1 with the message in [errbuf]; [CompileAbort] is
    [abort()]; [CompileUndef] is undefined behaviour; [CompileStuck] is an access
    to something that is not there, or the end of the model's fuel, and
    [CompileTurns] the end of the turns that the optimizer is given. *)
Inductive compile_result :=
| Compiled (bf_insns : program) (bf_len : Z)
| CompileError (errbuf : string)
| CompileAbort
| CompileUndef
| CompileTurns
| CompileStuck.

Section Compile.
Context (turns : nat) (malloc_ok : Z -> bool) (r : resolver).

(** The optimizer's part; an expression that no packet meets is an error. *)
Definition optimize_root (s : gst) (root : nat) : res (heap * nat) :=
  match bpf_optimize malloc_ok turns (g_heap s) root with
  | inl e => inl e
  | inr (h, root) =>
      match h !! root with
      | None => inl O_undef
      | Some b =>
          if (b_code b =? (BPF_RET .| BPF_K)) && (b_k b =? 0)
          then inl (O_error "expression rejects all packets")
          else inr (h, root)
      end
  end.

(** The end of [pcap_compile]. *)
Definition assemble (h : heap) (root : nat) : compile_result :=
  match icode_to_fcode malloc_ok (fcode_fuel h) h root with
  | Fcode fp len => Compiled fp len
  | FcodeError msg => CompileError msg
  | FcodeUndef => CompileStuck
  end.

(** [bpf_pcap->sf.rfile != NULL] is [rfile].  The state starts without blocks,
    and with the registers free. *)
Definition pcap_compile (p : pcap_t) (rfile : bool) (buf : option string) (optimize : bool) (mask : Z)
    : compile_result :=
  if negb (activated p) then CompileError "not-yet-activated pcap_t passed to pcap_compile"
  else if pcap_snapshot p =? 0 then CompileError "snaplen of 0 rejects all packets"
  else
    let input := lex_init (default ""%string buf) in
    match init_linktype (linktype p) (rfile && swapped (sf p)) with
    | inl (G_error msg) => CompileError msg
    | inl _ => CompileStuck
    | inr o =>
        match compile_root r mask (pcap_snapshot p) rfile input (Gst ∅ 0 o regs0) with
        | Some (inl (G_error msg)) => CompileError msg
        | Some (inl G_abort) => CompileAbort
        | Some (inl G_undef) => CompileUndef
        | Some (inl G_graph) | None => CompileStuck
        | Some (inr (root, s)) =>
            if optimize && negb (no_optimize s) then
              match optimize_root s root with
              | inr (h, root) => assemble h root
              | inl (O_error msg) => CompileError msg
              | inl O_abort => CompileAbort
              | inl O_fuel => CompileTurns
              | inl O_undef => CompileUndef
              end
            else assemble (g_heap s) root
        end
    end.

(** [pcap_compile_nopcap], when [pcap_open_dead] has its memory. *)
Definition pcap_compile_nopcap (snaplen_arg linktype_arg : Z) (buf : option string) (optimize : bool) (mask : Z)
    : compile_result :=
  pcap_compile (pcap_open_dead linktype_arg snaplen_arg) false buf optimize mask.
End Compile.
