(* ===== verification/IcodeSpec.v ===== *)
(** The conversion of a flow graph to a BPF program keeps its meaning: the
    program that [icode_to_fcode] makes of the graph of an expression decides
    that expression. *)
From S2P Require Import Prelude CFile Bpf BpfFilter BpfValidate Gencode GencodeSpec Icode.

#[local] Open Scope c_scope.

(** ** The meaning of statements and expressions *)

Section Meaning.
Context (p : list byte) (wirelen buflen : Z).

(** A sequence of statements, executed one after the other. *)
Fixpoint run_ops (ss : list (Z * Z)) (m : machine) : step_result :=
  match ss with
  | [] => Next m
  | (c, k) :: ss =>
      match decode (u16 c) with
      | None => Done (Faulted (Aborted (u16 c)))
      | Some o =>
          match exec (Insn (u16 c) 0 0 (u32 k)) p wirelen buflen m o with
          | Next m => run_ops ss m
          | r => r
          end
      end
  end.

(** An expression, evaluated from left to right as far as needed: the truth
    value, or the outcome of a run that ends before there is one, as when a
    load is out of the packet's bounds. *)
Fixpoint beval (e : bexp) (m : machine) : outcome + (bool * machine) :=
  match e with
  | ELeaf ss c k =>
      match run_ops ss m with
      | Done r => inl r
      | Next m =>
          match decode (u16 c) with
          | Some (JmpIf j s) => inr (test j (rA m) (operand m (Insn (u16 c) 0 0 (u32 k)) s), m)
          | _ => inl (Faulted (Aborted (u16 c)))
          end
      end
  | EAnd e1 e2 => match beval e1 m with inr (true, m) => beval e2 m | r => r end
  | EOr e1 e2 => match beval e1 m with inr (false, m) => beval e2 m | r => r end
  | ENot e => match beval e m with inr (v, m) => inr (negb v, m) | r => r end
  end.
End Meaning.

(** The leaves are made of statements that neither jump nor return, and that
    the checker accepts, and of branches. *)
Definition straight_op (o : opcode) : bool :=
  match o with RetK | RetA | JmpJa | JmpIf _ _ => false | _ => true end.
Definition straight_stmt (s : Z * Z) : Prop :=
  exists o, decode (u16 s.1) = Some o /\ straight_op o = true /\ u16 s.1 = s.1 /\
            bpf_validate_insn 0 0 (Insn (u16 s.1) 0 0 (u32 s.2)) = true.
Fixpoint straight (e : bexp) : Prop :=
  match e with
  | ELeaf ss c k =>
      Forall straight_stmt ss /\ (exists j s, decode (u16 c) = Some (JmpIf j s)) /\ u16 c = c
  | EAnd e1 e2 | EOr e1 e2 => straight e1 /\ straight e2
  | ENot e => straight e
  end.

Definition with_pc (m : machine) (pc : Z) : machine := Machine (rA m) (rX m) pc (rmem m).

Lemma with_loaded_pc r f g pc :
  (forall v, g v = match f v with Next m' => Next (with_pc m' (pc + 1)) | d => d end) ->
  with_loaded r g = match with_loaded r f with Next m' => Next (with_pc m' (pc + 1)) | d => d end.
Proof. intros Hf. destruct r; simpl; [done|apply Hf|done]. Qed.

(** A straight instruction goes to the next, and looks at no program counter. *)
Lemma exec_pc i p wirelen buflen m o pc :
  straight_op o = true ->
  exec i p wirelen buflen (with_pc m pc) o =
  match exec i p wirelen buflen m o with Next m' => Next (with_pc m' (pc + 1)) | d => d end.
Proof.
  destruct m as [A X pc0 mem]. intros Ho.
  destruct o; try discriminate Ho; cbn [exec]; try done.
  - by apply with_loaded_pc.
  - by apply with_loaded_pc.
  - destruct (_ <=? _); [done|]. by apply with_loaded_pc.
  - unfold mem_get. simpl. by destruct (nthZ mem (k i)).
  - unfold mem_get. simpl. by destruct (nthZ mem (k i)).
  - unfold mem_set. simpl. by destruct (nthZ mem (k i)).
  - unfold mem_set. simpl. by destruct (nthZ mem (k i)).
  - unfold operand, alu, setA. destruct a, s; cbn [rA rX rpc rmem with_pc];
      repeat match goal with |- context [if ?b then _ else _] => destruct b end; reflexivity.
Qed.

(** ** Runs *)

Section Leads.
Context (fp : list bpf_insn) (p : list byte) (wirelen buflen : Z).

(** The run from [m] ends with [o]. *)
Definition leads (m : machine) (o : outcome) : Prop :=
  exists fuel, run fuel fp p wirelen buflen m = Some o.

Lemma leads_next m m' o :
  step fp p wirelen buflen m = Next m' -> leads m' o -> leads m o.
Proof. intros Hs [n Hn]. exists (S n). simpl. by rewrite Hs. Qed.

Lemma leads_done m o : step fp p wirelen buflen m = Done o -> leads m o.
Proof. intros Hs. exists 1%nat. simpl. by rewrite Hs. Qed.

Lemma leads_pc m x y o : leads (with_pc m x) o -> x = y -> leads (with_pc m y) o.
Proof. by intros H <-. Qed.

(** The instructions [xs] are in the program from index [i] on. *)
Definition at_ (i : Z) (xs : list bpf_insn) : Prop :=
  0 <= i /\ forall j x, xs !! j = Some x -> fp !! (Z.to_nat i + j)%nat = Some x.

Lemma at_head i x xs : at_ i (x :: xs) -> nthZ fp i = Some x /\ at_ (i + 1) xs.
Proof.
  intros [Hi Hx]. split.
  - unfold nthZ. destruct (Z.ltb_spec i 0); [lia|]. rewrite <- (Nat.add_0_r (Z.to_nat i)). by apply Hx.
  - split; [lia|]. intros j y Hy. rewrite Z2Nat.inj_add, <- Nat.add_assoc by lia. by apply Hx.
Qed.

Lemma at_app i xs ys : at_ i (xs ++ ys) -> at_ i xs /\ at_ (i + lenZ xs) ys.
Proof.
  intros [Hi Hx]. unfold lenZ. split; split; try lia.
  - intros j x Hj. apply Hx. by apply lookup_app_l_Some.
  - intros j y Hj. rewrite Z2Nat.inj_add, Nat2Z.id, <- Nat.add_assoc by lia. apply Hx.
    rewrite lookup_app_r by lia. by replace (length xs + j - length xs)%nat with j by lia.
Qed.

(** The instruction of a statement. *)
Definition insn_of (s : Z * Z) : bpf_insn := Insn (u16 s.1) 0 0 (u32 s.2).

(** A block's statements do in the program what they mean. *)
Lemma leads_ops ss m pc o :
  Forall straight_stmt ss -> at_ pc (map insn_of ss) ->
  match run_ops p wirelen buflen ss m with
  | Next m' => leads (with_pc m' (pc + lenZ ss)) o
  | Done r => o = r
  end -> leads (with_pc m pc) o.
Proof.
  intros Hs. revert m pc. induction Hs as [|[c kk] ss (op & Hd & Hst & _ & _) Hs IH]; intros m pc Hat Hr.
  - simpl in Hr. unfold lenZ in Hr. simpl in Hr. by rewrite Z.add_0_r in Hr.
  - cbn [map] in Hat. apply at_head in Hat as [Hn Hat]. cbn [run_ops fst snd] in *.
    rewrite Hd in Hr. cbn [fst snd] in Hd.
    pose proof (exec_pc (insn_of (c, kk)) p wirelen buflen m op pc Hst) as He.
    unfold insn_of in He at 2. cbn [fst snd] in He.
    assert (Hstep : step fp p wirelen buflen (with_pc m pc) = 
      exec (insn_of (c, kk)) p wirelen buflen (with_pc m pc) op).
    { unfold step. cbn [rpc with_pc]. rewrite Hn. cbn [code insn_of fst]. by rewrite Hd. }
    rewrite He in Hstep. destruct (exec _ _ _ _ m op) as [m'|r].
    + eapply leads_next; [exact Hstep|]. apply (IH m' (pc + 1) Hat).
      destruct (run_ops p wirelen buflen ss m') as [m2|r]; [|exact Hr].
      revert Hr. unfold lenZ. cbn [length]. by replace (pc + 1 + Z.of_nat (length ss)) with
        (pc + Z.of_nat (S (length ss))) by lia.
    + subst. by apply leads_done.
Qed.

Lemma leads_ja pc kk m o :
  nthZ fp pc = Some (Insn (BPF_JMP .| BPF_JA) 0 0 kk) -> 0 <= kk < 2 ^ 31 ->
  leads (with_pc m (pc + 1 + kk)) o -> leads (with_pc m pc) o.
Proof.
  intros Hn Hk Hl. eapply leads_next; [|exact Hl]. unfold step. cbn [rpc with_pc]. rewrite Hn.
  change (decode _) with (Some JmpJa). cbn [exec jump k rpc with_pc rA rX rmem].
  rewrite swrap_id by clia. done.
Qed.
End Leads.

(** ** Blocks in a program *)

(** Where the branches of a block lead, counted from the one after it. *)
Definition branch_off (blk b' : block) : Z :=
  b_offset b' - (b_offset blk + lenZ (b_stmts blk)) - 1.

Definition bsize (blk : block) : Z :=
  slength (b_stmts blk) + 1 + b_longjt blk + b_longjf blk.

Definition block_insns (h : heap) (blk : block) (xs : list bpf_insn) : Prop :=
  match b_jt blk, b_jf blk with
  | None, None => xs = [Insn (u16 (b_code blk)) 0 0 (u32 (b_k blk))]
  | Some t, Some f =>
      exists bt bf, h !! t = Some bt /\ h !! f = Some bf /\
        b_offset blk + bsize blk <= b_offset bt /\ b_offset blk + bsize blk <= b_offset bf /\
        0 <= branch_off blk bt < 2 ^ 31 /\ 0 <= branch_off blk bf < 2 ^ 31 /\
        xs = branch_code blk (branch_off blk bt) (branch_off blk bf)
  | _, _ => False
  end.

(** The block [b] is in the program at its offset; the slots of long jumps
    that are not needed stay zero. *)
Definition placed (h : heap) (fp : list bpf_insn) (b : nat) : Prop :=
  exists blk xs n, h !! b = Some blk /\ block_insns h blk xs /\
    let ys := map (fun s => insn_of (op_of s)) (b_stmts blk) ++ xs ++ replicate n zero_insn in
    at_ fp (b_offset blk) ys /\ lenZ ys = bsize blk.

Section Placed.
Context (fp : list bpf_insn) (p : list byte) (wirelen buflen : Z).

Lemma leads_branch pc blk off_t off_f j s m o :
  at_ fp pc (branch_code blk off_t off_f) ->
  decode (u16 (b_code blk)) = Some (JmpIf j s) ->
  0 <= off_t < 2 ^ 31 -> 0 <= off_f < 2 ^ 31 ->
  leads fp p wirelen buflen
    (with_pc m (pc + 1 + if test j (rA m) (operand m (Insn (u16 (b_code blk)) 0 0 (u32 (b_k blk))) s)
                         then off_t else off_f)) o ->
  leads fp p wirelen buflen (with_pc m pc) o.
Proof.
  intros Hat Hd Ht Hf Hl. unfold branch_code in Hat.
  set (v := test _ _ _) in Hl.
  assert (Hstep : forall t f, nthZ fp pc = Some (Insn (u16 (b_code blk)) t f (u32 (b_k blk))) ->
    step fp p wirelen buflen (with_pc m pc) = Next (with_pc m (pc + 1 + if v then t else f))).
  { intros t f Hn. unfold step. cbn [rpc with_pc]. rewrite Hn. cbn [code]. rewrite Hd.
    cbn [exec]. unfold v, operand. by destruct s, (test _ _ _). }
  destruct (256 <=? off_t) eqn:Et, (256 <=? off_f) eqn:Ef; cbn [app] in Hat;
    apply at_head in Hat as [Hn Hat]; (eapply leads_next; [apply (Hstep _ _ Hn)|]).
  - apply at_head in Hat as [Hn1 [Hn2 _]%at_head]. destruct v.
    + eapply leads_ja; [rewrite Z.add_0_r; exact Hn1|cranges; rewrite uwrap_id by clia; lia|].
      rewrite uwrap_id by clia. by replace (pc + 1 + 0 + 1 + (off_t - 1)) with (pc + 1 + off_t) by lia.
    + eapply leads_ja; [exact Hn2|cranges; rewrite uwrap_id by clia; lia|].
      rewrite uwrap_id by clia. by replace (pc + 1 + 1 + 1 + (off_f - (1 + 1))) with (pc + 1 + off_f) by lia.
  - apply at_head in Hat as [Hn1 _]. destruct v; [|done].
    eapply leads_ja; [rewrite Z.add_0_r; exact Hn1|cranges; rewrite uwrap_id by clia; lia|].
    rewrite uwrap_id by clia. by replace (pc + 1 + 0 + 1 + (off_t - 1)) with (pc + 1 + off_t) by lia.
  - apply at_head in Hat as [Hn1 _]. destruct v; [done|].
    eapply leads_ja; [rewrite Z.add_0_r; exact Hn1|cranges; rewrite uwrap_id by clia; lia|].
    rewrite uwrap_id by clia. by replace (pc + 1 + 0 + 1 + (off_f - (0 + 1))) with (pc + 1 + off_f) by lia.
  - by destruct v.
Qed.

(** A set of blocks that contains the successors of its blocks. *)
Definition succs (blk : block) : list nat := option_list (b_jt blk) ++ option_list (b_jf blk).
Definition closed (h : heap) (C : gset nat) : Prop :=
  forall c blk d, c ∈ C -> h !! c = Some blk -> d ∈ succs blk -> d ∈ C.

Lemma graph_closed h C b e t f :
  closed h C -> graph h b e t f -> b ∈ C -> t ∈ C /\ f ∈ C.
Proof.
  intros Hc. induction 1 as [b blk t f Hb Ht Hf _ _|b e1 e2 m t f _ IH1 _ IH2|b e1 e2 m t f _ IH1 _ IH2|
                             b e t f _ IH]; intros Hin; [|naive_solver..].
  split; apply (Hc b blk); try done; unfold succs; rewrite Ht, Hf; set_solver.
Qed.

(** The blocks of a graph decide its expression in the program. *)
Lemma leads_graph h C b e t f m o blk bt bf :
  closed h C -> (forall c, c ∈ C -> placed h fp c) ->
  graph h b e t f -> straight e -> b ∈ C ->
  h !! b = Some blk -> h !! t = Some bt -> h !! f = Some bf ->
  match beval p wirelen buflen e m with
  | inr (v, m') => leads fp p wirelen buflen (with_pc m' (b_offset (if v then bt else bf))) o
  | inl r => o = r
  end ->
  leads fp p wirelen buflen (with_pc m (b_offset blk)) o.
Proof.
  intros Hc Hp Hg. revert m blk bt bf o.
  induction Hg as [b blk0 t f Hb Hjt Hjf Hlt Hlf|b e1 e2 x t f Hg1 IH1 Hg2 IH2|b e1 e2 x t f Hg1 IH1 Hg2 IH2|
                   b e t f Hg IH]; intros m blk bt bf o Hs Hin Hblk Ht Hf Hr.
  - rewrite Hb in Hblk. injection Hblk as ->. destruct Hs as (Hss & (j & s & Hd) & _).
    destruct (Hp b Hin) as (blk' & xs & n & Hb' & Hx & Hat & _). rewrite Hb in Hb'. injection Hb' as <-.
    unfold block_insns in Hx. rewrite Hjt, Hjf in Hx.
    destruct Hx as (bt' & bf' & Ht' & Hf' & _ & _ & Hot & Hof & ->).
    rewrite Ht in Ht'. rewrite Hf in Hf'. injection Ht' as <-. injection Hf' as <-.
    apply at_app in Hat as [Hat1 [Hat2 _]%at_app]. rewrite <- map_map in Hat1.
    eapply leads_ops; [exact Hss|exact Hat1|]. cbn [beval] in Hr.
    destruct (run_ops _ _ _ _ m) as [m'|r]; [|exact Hr]. rewrite Hd in Hr.
    unfold lenZ in Hat2 |- *. rewrite !length_map in *.
    eapply leads_branch; [exact Hat2|exact Hd|exact Hot|exact Hof|].
    unfold branch_off, lenZ. destruct (test _ _ _); (eapply leads_pc; [exact Hr|lia]).
  - destruct Hs as [Hs1 Hs2]. destruct (graph_closed _ _ _ _ _ _ Hc Hg1 Hin) as [Hx _].
    destruct (Hp x Hx) as (bx & _ & _ & Hbx & _). eapply IH1; eauto. cbn [beval] in Hr.
    destruct (beval _ _ _ e1 m) as [r|[[] m']]; [exact Hr| |exact Hr]. eapply IH2; eauto.
  - destruct Hs as [Hs1 Hs2]. destruct (graph_closed _ _ _ _ _ _ Hc Hg1 Hin) as [_ Hx].
    destruct (Hp x Hx) as (bx & _ & _ & Hbx & _). eapply IH1; eauto. cbn [beval] in Hr.
    destruct (beval _ _ _ e1 m) as [r|[[] m']]; [exact Hr|exact Hr|]. eapply IH2; eauto.
  - eapply IH; eauto. cbn [beval] in Hr.
    destruct (beval _ _ _ e m) as [r|[[] m']]; exact Hr.
Qed.
End Placed.

(** ** Writing a block *)

Lemma put_Some i x (fp : list bpf_insn) :
  0 <= i < lenZ fp -> put i x fp = Some (<[Z.to_nat i := x]> fp).
Proof.
  intros Hi. unfold put. destruct (Z.leb_spec 0 i); [|lia]. by destruct (Z.ltb_spec i (lenZ fp)); [|lia].
Qed.

Lemma puts_Some i xs fp :
  0 <= i -> i + lenZ xs <= lenZ fp ->
  exists fp', puts i xs fp = Some fp' /\ lenZ fp' = lenZ fp /\ at_ fp' i xs /\
    forall n, (n < Z.to_nat i \/ Z.to_nat i + length xs <= n)%nat -> fp' !! n = fp !! n.
Proof.
  revert i fp. induction xs as [|x xs IH]; intros i fp Hi Hl; unfold lenZ in Hl; simpl in Hl.
  - exists fp. split_and!; try done.
  - cbn [puts]. rewrite put_Some by (unfold lenZ; lia).
    destruct (IH (i + 1) (<[Z.to_nat i := x]> fp)) as (fp' & -> & Hl' & Hat & Hout);
      [lia|unfold lenZ; rewrite length_insert; lia|].
    unfold lenZ in *. rewrite length_insert in Hl'. rewrite Z2Nat.inj_add in Hout by lia.
    exists fp'. split_and!; [done|done| |].
    + split; [done|]. intros [|j] y Hy; simpl in Hy.
      * injection Hy as ->. rewrite Nat.add_0_r, Hout by lia.
        apply list_lookup_insert_eq. lia.
      * destruct Hat as [_ Hat]. specialize (Hat j y Hy). rewrite Z2Nat.inj_add in Hat by lia.
        by rewrite <- Nat.add_succ_comm, <- (Nat.add_1_r (Z.to_nat i)).
    + intros n Hn. simpl in Hn. rewrite Hout by lia. apply list_lookup_insert_ne. lia.
Qed.

Lemma at_ext fp fp' i xs :
  (forall n, (Z.to_nat i <= n)%nat -> fp' !! n = fp !! n) -> at_ fp i xs -> at_ fp' i xs.
Proof. intros Hx [Hi Ha]. split; [done|]. intros j x Hj. rewrite Hx by lia. by apply Ha. Qed.

Lemma puts_app i xs ys fp fp1 :
  puts i xs fp = Some fp1 -> puts i (xs ++ ys) fp = puts (i + lenZ xs) ys fp1.
Proof.
  revert i fp. induction xs as [|x xs IH]; intros i fp; cbn [puts app].
  - intros [= ->]. unfold lenZ. simpl. by rewrite Z.add_0_r.
  - destruct (put i x fp) as [fp2|]; [|done]. intros Hp. rewrite (IH _ _ Hp).
    f_equal. unfold lenZ. simpl length. lia.
Qed.

Lemma straight_not_jmp s : straight_stmt (op_of s) -> sl_code s <> NOP /\ BPF_CLASS (sl_code s) <> BPF_JMP.
Proof.
  destruct s as [id c kk t f]. unfold straight_stmt, op_of. cbn [fst snd sl_code].
  intros (o & Hd & Ho & Hc & _). apply decode_Some in Hd. rewrite Hc in Hd. subst c.
  opcode_cases o; done.
Qed.

Lemma straight_slength ss : Forall straight_stmt (map op_of ss) -> slength ss = lenZ ss.
Proof.
  unfold slength, lenZ. intros Hs. f_equal. induction ss as [|s ss IH]; [done|].
  cbn [map] in Hs. apply Forall_cons in Hs as [Hs Hss]. cbn [List.filter].
  apply straight_not_jmp in Hs as [Hn _]. destruct (Z.eqb_spec (sl_code s) NOP); [done|].
  simpl. by rewrite IH.
Qed.

(** The loop over straight statements writes their instructions. *)
Lemma emit_stmts_eq offs slen off dst ss fp :
  Forall straight_stmt (map op_of ss) ->
  emit_stmts offs slen off dst ss fp =
  (fun fp => inr fp) <$> puts dst (map (fun s => insn_of (op_of s)) ss) fp.
Proof.
  revert off dst fp. induction ss as [|s ss IH]; intros off dst fp Hs; [done|].
  cbn [map] in Hs. apply Forall_cons in Hs as [Hs Hss]. pose proof (straight_not_jmp s Hs) as [Hn Hj].
  cbn [emit_stmts map puts]. destruct (Z.eqb_spec (sl_code s) NOP); [done|].
  unfold local_branches. destruct (Z.eqb_spec (BPF_CLASS (sl_code s)) BPF_JMP); [done|]. cbn [negb orb].
  change (Insn (u16 (sl_code s)) 0 0 (u32 (sl_k s))) with (insn_of (op_of s)).
  destruct (put dst _ fp); [by apply IH|done].
Qed.

(** ** Sums over sets of blocks *)

Definition total (f : nat -> Z) (X : gset nat) : Z := foldr (fun c n => f c + n) 0 (elements X).

Lemma total_union f X Y : X ## Y -> total f (X ∪ Y) = total f X + total f Y.
Proof.
  intros HXY. unfold total.
  assert (Hp : elements (X ∪ Y) ≡ₚ elements X ++ elements Y) by by apply elements_disj_union.
  replace (foldr (fun c n => f c + n) 0 (elements (X ∪ Y)))
    with (foldr (fun c n => f c + n) 0 (elements X ++ elements Y)).
  2: { clear HXY. revert Hp. generalize (elements (X ∪ Y)), (elements X ++ elements Y).
       induction 1; simpl; lia. }
  rewrite foldr_app. generalize (elements X). intros l. induction l as [|c l IH]; simpl; lia.
Qed.

Lemma total_singleton f c : total f {[c]} = f c.
Proof. unfold total. rewrite elements_singleton. simpl. lia. Qed.

Lemma total_empty f : total f ∅ = 0.
Proof. unfold total. by rewrite elements_empty. Qed.

Lemma total_nonneg f X : (forall c, c ∈ X -> 0 <= f c) -> 0 <= total f X.
Proof.
  intros Hf. unfold total. assert (forall c, c ∈ elements X -> 0 <= f c) by set_solver.
  revert H. generalize (elements X). intros l. induction l as [|c l IH]; intros Hl; simpl; [lia|].
  pose proof (Hl c ltac:(constructor)). pose proof (IH ltac:(intros; apply Hl; by constructor)). lia.
Qed.

Lemma total_difference f X Y : Y ⊆ X -> total f X = total f Y + total f (X ∖ Y).
Proof.
  intros HY. rewrite <- total_union by set_solver. f_equal. apply leibniz_equiv.
  intros c. destruct (decide (c ∈ Y)); set_solver.
Qed.

(** ** [count_stmts] *)

Definition size_in (h : heap) (c : nat) : Z :=
  match h !! c with Some blk => bsize blk | None => 0 end.

(** What ends a block: a branch, or a return, which has no long jumps. *)
Definition good_branch (blk : block) : Prop :=
  match b_jt blk with
  | Some _ => exists j s, decode (u16 (b_code blk)) = Some (JmpIf j s)
  | None => (exists o, decode (u16 (b_code blk)) = Some o /\ (o = RetK \/ o = RetA)) /\
            b_longjt blk = 0 /\ b_longjf blk = 0
  end.

Definition good_block (blk : block) : Prop :=
  Forall straight_stmt (map op_of (b_stmts blk)) /\ flag (b_longjt blk) /\ flag (b_longjf blk) /\
  (is_Some (b_jt blk) <-> is_Some (b_jf blk)) /\ good_branch blk.

(** The blocks [C] are there, and lead to none outside. *)
Definition good_heap (h : heap) (C : gset nat) : Prop :=
  closed h C /\ forall c, c ∈ C -> exists blk, h !! c = Some blk /\ good_block blk.

Lemma size_in_pos h C c : good_heap h C -> c ∈ C -> 1 <= size_in h c.
Proof.
  intros [_ Hg] Hc. destruct (Hg c Hc) as (blk & Hb & _ & Ht & Hf & _). unfold size_in, bsize.
  rewrite Hb. unfold slength, flag in *. lia.
Qed.

Lemma total_le h C X : good_heap h C -> X ⊆ C -> 0 <= total (size_in h) X <= total (size_in h) C.
Proof.
  intros Hg HX. rewrite (total_difference _ C X HX).
  assert (Hp : forall Y, Y ⊆ C -> 0 <= total (size_in h) Y).
  { intros Y HY. apply total_nonneg. intros c Hc. pose proof (size_in_pos h C c Hg (HY c Hc)). lia. }
  pose proof (Hp X HX). pose proof (Hp (C ∖ X) ltac:(set_solver)). lia.
Qed.

(** Every marking of a block uses fuel up. *)
Lemma size_shrinks (C M : gset nat) b fuel :
  b ∈ C -> b ∉ M -> (base.size (C ∖ M) < S fuel)%nat -> (base.size (C ∖ ({[b]} ∪ M)) < fuel)%nat.
Proof.
  intros Hb Hn Hs. enough (base.size (C ∖ ({[b]} ∪ M)) < base.size (C ∖ M))%nat by lia.
  apply subset_size. set_solver.
Qed.

Lemma size_smaller (C M M' : gset nat) : M ⊆ M' -> (base.size (C ∖ M') <= base.size (C ∖ M))%nat.
Proof. intros HM. apply subseteq_size. set_solver. Qed.

Section Count.
Context (h : heap) (C : gset nat) (Hg : good_heap h C) (Hsmall : total (size_in h) C < 2 ^ 31).

Lemma count_stmts_spec fuel p M :
  (forall b, p = Some b -> b ∈ C) -> M ⊆ C -> (base.size (C ∖ M) < fuel)%nat ->
  exists n M', count_stmts fuel h M p = Some (n, M') /\ M ⊆ M' /\ (forall b, p = Some b -> b ∈ M') /\
    M' ⊆ C /\ n = total (size_in h) (M' ∖ M) /\
    (forall c blk d, c ∈ M' -> c ∉ M -> h !! c = Some blk -> d ∈ succs blk -> d ∈ M') /\
    forall X, closed h X -> (forall b, p = Some b -> b ∈ X) -> M' ⊆ M ∪ X.
Proof using Hg Hsmall.
  revert p M. induction fuel as [|fuel IH]; intros p M Hp HM Hf; [lia|].
  destruct p as [b|].
  2: { exists 0, M. split; [by destruct fuel|]. split_and!; try done; [|set_solver..].
       by rewrite difference_diag_L, total_empty. }
  pose proof (Hp b eq_refl) as Hb. cbn [count_stmts].
  case_bool_decide as HbM.
  { exists 0, M. split_and!; try done; [by intros ? [= <-]| |set_solver..].
    by rewrite difference_diag_L, total_empty. }
  destruct Hg as [Hcl Hgood]. destruct (Hgood b Hb) as (blk & Hblk & Hgb). rewrite Hblk.
  assert (Hsucc : forall d, d ∈ succs blk -> d ∈ C) by (intros d; by apply (Hcl b)).
  destruct (IH (b_jt blk) ({[b]} ∪ M)) as (n1 & M1 & -> & HM1 & Ht & HC1 & -> & Hs1 & Hmin1).
  { intros d Hd. apply Hsucc. unfold succs. rewrite Hd. set_solver. }
  { set_solver. }
  { by apply size_shrinks. }
  destruct (IH (b_jf blk) M1) as (n2 & M2 & -> & HM2 & Hff & HC2 & -> & Hs2 & Hmin2).
  { intros d Hd. apply Hsucc. unfold succs. rewrite Hd. set_solver. }
  { done. }
  { eapply Nat.le_lt_trans; [apply (size_smaller _ _ _ HM1)|by apply size_shrinks]. }
  eexists _, M2. split; [done|].
  assert (Hsum : total (size_in h) (M2 ∖ M) =
    bsize blk + total (size_in h) (M1 ∖ ({[b]} ∪ M)) + total (size_in h) (M2 ∖ M1)).
  { assert (Hb' : size_in h b = bsize blk) by (unfold size_in; by rewrite Hblk).
    rewrite <- Hb', <- (total_singleton (size_in h) b), <- !total_union by set_solver. f_equal.
    apply leibniz_equiv. intros c. destruct (decide (c ∈ M1)), (decide (c = b)); set_solver. }
  pose proof (total_le h C (M2 ∖ M) (conj Hcl Hgood) ltac:(set_solver)).
  pose proof (total_le h C (M1 ∖ ({[b]} ∪ M)) (conj Hcl Hgood) ltac:(set_solver)).
  pose proof (total_le h C (M2 ∖ M1) (conj Hcl Hgood) ltac:(set_solver)).
  split_and!.
  - set_solver.
  - intros ? [= <-]. set_solver.
  - done.
  - rewrite Hsum. unfold bsize. destruct Hgb as (_ & Hlt & Hlf & _). unfold bsize, flag, slength in *.
    rewrite (uwrap_id 32 (total _ _ + total _ _)) by clia. rewrite uwrap_id by clia. lia.
  - intros c blk' d Hc HcM Hblk' Hd. destruct (decide (c = b)) as [->|Hne].
    + rewrite Hblk in Hblk'. injection Hblk' as <-. unfold succs in Hd.
      apply elem_of_app in Hd as [Hd|Hd].
      * destruct (b_jt blk) as [t|]; [|set_solver]. simpl in Hd.
        apply list_elem_of_singleton in Hd as ->. apply HM2. by apply Ht.
      * destruct (b_jf blk) as [t|]; [|set_solver]. simpl in Hd.
        apply list_elem_of_singleton in Hd as ->. by apply Hff.
    + destruct (decide (c ∈ M1)) as [Hc1|Hc1]; [|by eapply Hs2].
      apply HM2. eapply Hs1; try done. set_solver.
  - intros X HX HbX. pose proof (HbX b eq_refl) as Hb'.
    assert (HsX : forall d, d ∈ succs blk -> d ∈ X) by (intros d; by apply (HX b)).
    pose proof (Hmin1 X HX) as Hm1. pose proof (Hmin2 X HX) as Hm2.
    assert (HA : M1 ⊆ {[b]} ∪ M ∪ X).
    { apply Hm1. intros d Hd. apply HsX. unfold succs. rewrite Hd. set_solver. }
    assert (HB : M2 ⊆ M1 ∪ X).
    { apply Hm2. intros d Hd. apply HsX. unfold succs. rewrite Hd. set_solver. }
    clear -HA HB Hb'. set_solver.
Qed.
End Count.

(** ** [convert_code_r] *)

Lemma at_app_intro fp i xs ys : at_ fp i xs -> at_ fp (i + lenZ xs) ys -> at_ fp i (xs ++ ys).
Proof.
  intros [Hi Hx] [_ Hy]. split; [done|]. intros j x Hj.
  apply lookup_app_Some in Hj as [Hj|[Hl Hj]]; [by apply Hx|]. apply Hy in Hj.
  unfold lenZ in Hj. rewrite Z2Nat.inj_add, Nat2Z.id in Hj by lia. rewrite <- Hj. f_equal. lia.
Qed.

Lemma length_branch_code blk off_t off_f :
  lenZ (branch_code blk off_t off_f) =
  1 + (if 256 <=? off_t then 1 else 0) + (if 256 <=? off_f then 1 else 0).
Proof. unfold branch_code. by destruct (256 <=? off_t), (256 <=? off_f). Qed.

(** The heaps differ in the offsets of blocks at most. *)
Definition eqv (h h0 : heap) : Prop :=
  forall c, match h0 !! c with
            | Some b0 => exists n, h !! c = Some (with_offset b0 n)
            | None => h !! c = None
            end.

(** A branch that was short has been marked as long. *)
Definition raised (h h0 : heap) (C : gset nat) : Prop :=
  exists c b0, c ∈ C /\ h0 !! c = Some b0 /\ is_Some (b_jt b0) /\
    ((b_longjt b0 = 0 /\ eqv h (<[c := with_longjt b0]> h0)) \/
     (b_longjf b0 = 0 /\ eqv h (<[c := with_longjf b0]> h0))).

Lemma eqv_insert_offset h h0 b b0 n :
  eqv h h0 -> h0 !! b = Some b0 -> eqv (<[b := with_offset b0 n]> h) h0.
Proof.
  intros He Hb c. destruct (decide (c = b)) as [->|Hne].
  - rewrite Hb, lookup_insert_eq. eauto.
  - rewrite lookup_insert_ne by done. apply He.
Qed.

Lemma eqv_insert h h0 c b n : eqv h h0 -> eqv (<[c := with_offset b n]> h) (<[c := b]> h0).
Proof.
  intros He d. destruct (decide (d = c)) as [->|Hne].
  - rewrite !lookup_insert_eq. eauto.
  - rewrite !lookup_insert_ne by done. apply He.
Qed.

Section Convert.
Context (h0 : heap) (C : gset nat) (Hg : good_heap h0 C).
Context (Hsmall : total (size_in h0) C < 2 ^ 31).

(** The blocks [P] have been converted; the program is written from
    [c_tail] on, and there is room for the other blocks of [C] before. *)
Record inv (s : conv) (P : gset nat) : Prop := Inv {
  i_heap : eqv (c_heap s) h0;
  i_marked : P ⊆ c_marked s;
  i_in : c_marked s ⊆ C;
  i_len : lenZ (c_fp s) = total (size_in h0) C;
  i_tail : c_tail s = total (size_in h0) (C ∖ P);
  i_placed : forall c, c ∈ P -> placed (c_heap s) (c_fp s) c;
  i_range : forall c blk, c ∈ P -> c_heap s !! c = Some blk ->
            c_tail s <= b_offset blk /\ b_offset blk + bsize blk <= total (size_in h0) C;
  i_succ : forall c blk d, c ∈ P -> h0 !! c = Some blk -> d ∈ succs blk -> d ∈ P;
  i_cover : forall i, c_tail s <= i < total (size_in h0) C ->
            exists c blk, c ∈ P /\ c_heap s !! c = Some blk /\
                          b_offset blk <= i < b_offset blk + bsize blk;
  i_zero : forall i, (i < Z.to_nat (c_tail s))%nat -> c_fp s !! i = Some zero_insn }.

(** What the conversion of a block [b] that has not been converted yet adds. *)
Section Finish.
Context (s : conv) (P : gset nat) (b : nat) (blk : block).
Context (Hi : inv s P) (HbC : b ∈ C) (HbP : b ∉ P) (Hbm : b ∈ c_marked s)
        (Hb : c_heap s !! b = Some blk) (Hsucc : forall d, d ∈ succs blk -> d ∈ P).

Let dst := c_tail s - bsize blk.
Let blk' := with_offset blk dst.
Let h' := <[b := blk']> (c_heap s).

Lemma finish_good : good_block blk /\ size_in h0 b = bsize blk /\ exists n b0, h0 !! b = Some b0 /\ blk = with_offset b0 n.
Proof using All.
  destruct Hg as [_ Hgood]. destruct (Hgood b HbC) as (b0 & Hb0 & Hg0).
  pose proof (i_heap _ _ Hi b) as He. rewrite Hb0 in He. destruct He as [n He].
  rewrite Hb in He. injection He as Heq. rewrite Heq. split; [done|].
  split; [unfold size_in; by rewrite Hb0|]. by exists n, b0.
Qed.

Lemma finish_dst : dst = total (size_in h0) (C ∖ ({[b]} ∪ P)) /\ 0 <= dst /\ c_tail s < 2 ^ 31.
Proof using All.
  destruct finish_good as (_ & Hsz & _). pose proof (i_tail _ _ Hi) as Ht.
  assert (Hd : dst = total (size_in h0) (C ∖ ({[b]} ∪ P))).
  { unfold dst. rewrite Ht, (total_difference _ (C ∖ P) {[b]}) by set_solver.
    rewrite total_singleton, Hsz. replace (C ∖ P ∖ {[b]}) with (C ∖ ({[b]} ∪ P)) by set_solver. lia. }
  split; [exact Hd|]. rewrite Hd, Ht. split; [|].
  - apply (total_le h0 C); [done|set_solver].
  - pose proof (total_le h0 C (C ∖ P) Hg ltac:(set_solver)). lia.
Qed.

Lemma finish_other c : c ∈ P -> h' !! c = c_heap s !! c.
Proof using All. intros Hc. unfold h'. apply lookup_insert_ne. by intros <-. Qed.

(** The instructions of the block are written in front of those of [P]. *)
Lemma finish_inv xs fp fp2 n :
  block_insns h' blk' xs ->
  let ys := map (fun s => insn_of (op_of s)) (b_stmts blk) ++ xs in
  lenZ ys + Z.of_nat n = bsize blk ->
  puts dst ys (c_fp s) = Some fp2 -> fp = fp2 ->
  inv (Conv h' (c_marked s) fp dst) ({[b]} ∪ P).
Proof using All.
  intros Hx ys Hn Hp ->. destruct finish_good as (Hgb & Hsz & m & b0 & Hb0 & Hblk).
  destruct finish_dst as (Hd & Hd0 & Hd1). pose proof (i_len _ _ Hi) as Hlen.
  assert (Hbs : dst + bsize blk = c_tail s) by (unfold dst; lia).
  pose proof (total_le h0 C (C ∖ P) Hg ltac:(set_solver)) as Htot. rewrite <- (i_tail _ _ Hi) in Htot.
  destruct (puts_Some dst ys (c_fp s)) as (fp' & Hp' & Hl' & Hat & Hout); [lia|lia|].
  rewrite Hp in Hp'. injection Hp' as <-.
  assert (Hafter : forall i, (Z.to_nat (c_tail s) <= i)%nat -> fp2 !! i = c_fp s !! i).
  { intros i Hi'. apply Hout. right. unfold lenZ in Hn. lia. }
  split; cbn [c_heap c_marked c_fp c_tail].
  - unfold h', blk'. rewrite Hblk.
    exact (eqv_insert_offset _ _ _ b0 dst (i_heap _ _ Hi) Hb0).
  - pose proof (i_marked _ _ Hi). set_solver.
  - apply (i_in _ _ Hi).
  - by rewrite Hl'.
  - exact Hd.
  - intros c [->%elem_of_singleton|Hc]%elem_of_union.
    + exists blk', xs, n. split; [apply lookup_insert_eq|]. split; [done|]. cbn [b_offset blk' with_offset b_stmts].
      rewrite app_assoc. fold ys. split.
      * apply at_app_intro; [done|]. split; [unfold lenZ; lia|]. intros j x Hj.
        apply lookup_replicate in Hj as [-> Hj]. unfold lenZ in *. rewrite Hout by lia.
        apply (i_zero _ _ Hi). lia.
      * unfold lenZ in *. rewrite length_app, length_replicate. unfold bsize in *. cbn. lia.
    + destruct (i_placed _ _ Hi c Hc) as (bc & xc & nc & Hbc & Hxc & Hatc & Hlc).
      exists bc, xc, nc. rewrite finish_other by done. split; [done|].
      pose proof (i_range _ _ Hi c bc Hc Hbc) as [Hr _]. split; [|split; [|done]].
      * pose proof (i_succ _ _ Hi c) as Hs. pose proof (i_heap _ _ Hi c) as He.
        destruct (h0 !! c) as [bc0|]; [|congruence]. destruct He as [nn He].
        rewrite Hbc in He. injection He as ->. specialize (Hs bc0).
        unfold block_insns in *. cbn [b_jt b_jf with_offset] in *. unfold succs in Hs.
        destruct (b_jt bc0) as [t|], (b_jf bc0) as [f|]; try done.
        destruct Hxc as (bt & bf & Ht & Hf & Hxc). exists bt, bf.
        rewrite !finish_other by (apply Hs; [done|done|set_solver]). done.
      * eapply at_ext; [|exact Hatc]. intros i Hii. apply Hafter. lia.
  - intros c bc [->%elem_of_singleton|Hc]%elem_of_union.
    + unfold h'. rewrite lookup_insert_eq. intros [= <-]. cbn [b_offset blk' with_offset].
      change (bsize blk') with (bsize blk). lia.
    + rewrite finish_other by done. intros Hbc. pose proof (i_range _ _ Hi c bc Hc Hbc).
      pose proof (size_in_pos h0 C b Hg HbC). lia.
  - intros c bc d [->%elem_of_singleton|Hc]%elem_of_union Hbc Hd'.
    + apply elem_of_union. right. apply Hsucc. rewrite Hb0 in Hbc. injection Hbc as <-. by subst blk.
    + apply elem_of_union. right. by eapply (i_succ _ _ Hi).
  - intros i Hii. destruct (Z_lt_le_dec i (c_tail s)) as [Hlt|Hge].
    + exists b, blk'. split; [set_solver|]. split; [apply lookup_insert_eq|].
      cbn [b_offset blk' with_offset]. change (bsize blk') with (bsize blk). lia.
    + destruct (i_cover _ _ Hi i ltac:(lia)) as (c & bc & Hc & Hbc & Hr).
      exists c, bc. rewrite finish_other by done. split; [set_solver|]. done.
  - intros i Hii. rewrite Hout by lia. apply (i_zero _ _ Hi).
    pose proof (size_in_pos h0 C b Hg HbC). lia.
Qed.

Context (malloc_ok : Z -> bool) (Hmalloc : forall n, malloc_ok n = true).

Lemma branch_parity (o1 o2 : option nat) :
  (is_Some o1 <-> is_Some o2) -> match o1, o2 with Some _, None | None, Some _ => False | _, _ => True end.
Proof using Type.
  intros [H1 H2]. destruct o1, o2; try done; [destruct H1|destruct H2]; by try eexists.
Qed.

Lemma bsize_pos c bc : c ∈ C -> c_heap s !! c = Some bc -> 1 <= bsize bc.
Proof using All.
  intros Hc Hbc. pose proof (size_in_pos h0 C c Hg Hc) as Hp. pose proof (i_heap _ _ Hi c) as He.
  unfold size_in in Hp. destruct (h0 !! c) as [b0|]; [|lia]. destruct He as [n He].
  rewrite Hbc in He. injection He as ->. exact Hp.
Qed.

Lemma finish_eq :
  finish_block malloc_ok s b blk =
  match puts dst (map (fun s => insn_of (op_of s)) (b_stmts blk)) (c_fp s) with
  | Some fp => emit_branch (Conv h' (c_marked s) fp dst) b blk' (lenZ (b_stmts blk))
                           (dst + lenZ (b_stmts blk))
  | None => ConvUndef
  end.
Proof using All.
  destruct finish_good as ((Hss & _) & _). destruct finish_dst as (_ & Hd0 & Hd1).
  unfold finish_block. rewrite Hmalloc, andb_false_r, emit_stmts_eq by done.
  rewrite (straight_slength _ Hss). 
  assert (Hdst : c_tail s - (lenZ (b_stmts blk) + 1 + b_longjt blk + b_longjf blk) = dst)
    by (unfold dst, bsize; by rewrite (straight_slength _ Hss)).
  rewrite Hdst, swrap_id by (pose proof (bsize_pos b blk HbC Hb); unfold dst in *; clia).
  cbn [c_fp]. by destruct (puts _ _ _).
Qed.

Lemma finish_block_ok :
  (exists s', finish_block malloc_ok s b blk = Converted s' /\ inv s' ({[b]} ∪ P) /\
              c_marked s' = c_marked s /\ c_heap s' = h' /\ c_tail s' = dst) \/
  (exists s', finish_block malloc_ok s b blk = Retry s' /\ raised (c_heap s') h0 C).
Proof using All.
  rewrite finish_eq. destruct finish_good as ((Hss & Hlt & Hlf & Hjj & _) & Hsz & m & b0 & Hb0 & Hblk).
  destruct finish_dst as (Hd & Hd0 & Hd1). pose proof (i_len _ _ Hi) as Hlen.
  pose proof (i_tail _ _ Hi) as Htail.
  pose proof (total_le h0 C (C ∖ P) Hg ltac:(set_solver)) as Htot. rewrite <- Htail in Htot.
  pose proof (size_in_pos h0 C b Hg HbC) as Hpos. rewrite Hsz in Hpos.
  assert (Hbs : dst + bsize blk = c_tail s) by (unfold dst; lia).
  assert (Hb1 : bsize blk = lenZ (b_stmts blk) + 1 + b_longjt blk + b_longjf blk)
    by (unfold bsize; by rewrite straight_slength).
  set (xs0 := map (fun s => insn_of (op_of s)) (b_stmts blk)).
  assert (Hx0 : lenZ xs0 = lenZ (b_stmts blk)) by (unfold xs0, lenZ; by rewrite length_map).
  unfold flag in *.
  destruct (puts_Some dst xs0 (c_fp s)) as (fp1 & Hp1 & Hl1 & _); [lia|lia|]. rewrite Hp1.
  assert (Hfin : forall xs, block_insns h' blk' xs -> lenZ xs <= 1 + b_longjt blk + b_longjf blk ->
    exists s', match puts (dst + lenZ (b_stmts blk)) xs fp1 with
               | Some fp => Converted (set_fp (Conv h' (c_marked s) fp1 dst) fp)
               | None => ConvUndef
               end = Converted s' /\ inv s' ({[b]} ∪ P) /\ c_marked s' = c_marked s /\
                    c_heap s' = h' /\ c_tail s' = dst).
  { intros xs Hxs Hlx. rewrite <- Hx0, <- (puts_app _ _ xs _ _ Hp1).
    destruct (puts_Some dst (xs0 ++ xs) (c_fp s)) as (fp2 & Hp2 & _);
      [lia|unfold lenZ in *; rewrite length_app; lia|].
    rewrite Hp2. eexists. split; [done|]. split; [|done].
    eapply (finish_inv xs fp2 fp2 (Z.to_nat (bsize blk - lenZ (xs0 ++ xs)))); try done.
    fold xs0. unfold lenZ in *. rewrite length_app. lia. }
  unfold emit_branch. cbn [c_fp c_heap].
  destruct (b_jt blk') as [t|] eqn:Ejt; destruct (b_jf blk') as [f|] eqn:Ejf.
  2, 3: exfalso; change (b_jt blk') with (b_jt blk) in Ejt; change (b_jf blk') with (b_jf blk) in Ejf;
    rewrite Ejt, Ejf in Hjj; by apply (branch_parity _ _ Hjj).
  2: { left. apply Hfin; [unfold block_insns; by rewrite Ejt, Ejf|]. unfold lenZ. simpl. lia. }
  assert (Hjt0 : is_Some (b_jt b0)) by (exists t; rewrite <- Ejt; unfold blk'; by rewrite Hblk).
  assert (HtP : t ∈ P) by (apply Hsucc; unfold succs; change (b_jt blk) with (b_jt blk'); rewrite Ejt; set_solver).
  assert (HfP : f ∈ P) by (apply Hsucc; unfold succs; change (b_jf blk) with (b_jf blk'); rewrite Ejf; set_solver).
  destruct (i_placed _ _ Hi t HtP) as (bt & _ & _ & Hbt & _).
  destruct (i_placed _ _ Hi f HfP) as (bf & _ & _ & Hbf & _).
  rewrite !finish_other, Hbt, Hbf by done.
  destruct (i_range _ _ Hi t bt HtP Hbt) as [Hrt Hrt']. destruct (i_range _ _ Hi f bf HfP Hbf) as [Hrf Hrf'].
  pose proof (i_marked _ _ Hi) as HPm. pose proof (i_in _ _ Hi) as HmC.
  pose proof (bsize_pos t bt (HmC _ (HPm _ HtP)) Hbt) as Hpt.
  pose proof (bsize_pos f bf (HmC _ (HPm _ HfP)) Hbf) as Hpf.
  assert (Hot : forall d, c_tail s <= b_offset d -> b_offset d + 1 <= total (size_in h0) C ->
    0 <= branch_off blk' d < 2 ^ 31 /\
    u32 (b_offset d - (b_offset blk' + lenZ (b_stmts blk)) - 1) = branch_off blk' d).
  { intros d Hd1' Hd2'. unfold branch_off. cbn [b_offset b_stmts blk' with_offset].
    unfold lenZ in *. split; [clia|]. apply uwrap_id; clia. }
  destruct (Hot bt Hrt ltac:(lia)) as [Hrot ->]. destruct (Hot bf Hrf ltac:(lia)) as [Hrof ->].
  change (b_longjt blk') with (b_longjt blk). change (b_longjf blk') with (b_longjf blk).
  assert (Hraise : forall mk : block -> block, (forall x n, mk (with_offset x n) = with_offset (mk x) n) ->
     eqv (<[b := mk blk']> h') (<[b := mk b0]> h0)).
  { intros mk Hmk. unfold h'. rewrite insert_insert_eq. replace blk' with (with_offset b0 dst) by (unfold blk'; by rewrite Hblk).
    rewrite (Hmk b0 dst). apply eqv_insert, (i_heap _ _ Hi). }
  destruct ((256 <=? branch_off blk' bt) && (b_longjt blk =? 0)) eqn:Et.
  { right. eexists. split; [done|]. exists b, b0. split; [done|]. split; [done|]. split; [done|]. left. split.
    - rewrite Hblk in Et. cbn in Et. lia.
    - exact (Hraise with_longjt ltac:(done)). }
  destruct ((256 <=? branch_off blk' bf) && (b_longjf blk =? 0)) eqn:Ef.
  { right. eexists. split; [done|]. exists b, b0. split; [done|]. split; [done|]. split; [done|]. right. split.
    - rewrite Hblk in Ef. cbn in Ef. lia.
    - exact (Hraise with_longjf ltac:(done)). }
  left. apply Hfin.
  - unfold block_insns. rewrite Ejt, Ejf. exists bt, bf. rewrite !finish_other by done.
    do 2 (split; [done|]). change (b_offset blk' + bsize blk') with (dst + bsize blk).
    do 2 (split; [lia|]). by do 2 (split; [done|]).
  - rewrite length_branch_code.
    destruct (256 <=? branch_off blk' bt), (256 <=? branch_off blk' bf); cbn [andb] in Et, Ef; lia.
Qed.
End Finish.
End Convert.
