(* ===== verification/OptValueSpec.v ===== *)
(** [optimize.c]: what the value numbers of the optimizer mean, and that the
    simplification of statements keeps the effect of those that complete. *)
From S2P Require Import Prelude CFile Bpf BpfFilter Gencode Icode IcodeSpec OptFlow OptValue.

#[local] Open Scope Z_scope.
#[local] Open Scope c_scope.
#[local] Open Scope opt_scope.

Lemma rbind_inr {A B} (r : res A) (k : A -> res B) b :
  rbind r k = inr b -> exists a, r = inr a /\ k a = inr b.
Proof. destruct r as [e|a]; [done|]. intros H. by exists a. Qed.
Lemma some_of_inr {A} (o : option A) a : some_of o = inr a -> o = Some a.
Proof. destruct o; [by intros [= ->]|done]. Qed.

Section Meaning.
Context (p : list byte) (wirelen buflen : Z).

(** ** Statements *)

(** The effect of a statement; the program counter plays no part. *)
Definition eff (s : slist) (m : machine) : step_result :=
  if sl_code s =? NOP then Next m
  else
    match decode (sl_code s) with
    | None => Done (Faulted (Aborted (sl_code s)))
    | Some o =>
        match exec (Insn (sl_code s) 0 0 (u32 (sl_k s))) p wirelen buflen m o with
        | Next m' => Next (with_pc m' (rpc m))
        | d => d
        end
    end.

(** A register, and its change. *)
Definition reg (m : machine) (i : Z) : option Z :=
  if i =? A_ATOM then Some (rA m) else if i =? X_ATOM then Some (rX m) else u32 <$> nthZ (rmem m) i.
Definition set_reg (m : machine) (i x : Z) : machine :=
  if i =? A_ATOM then Machine x (rX m) (rpc m) (rmem m)
  else if i =? X_ATOM then Machine (rA m) x (rpc m) (rmem m)
  else Machine (rA m) (rX m) (rpc m) (<[Z.to_nat i := i32 x]> (rmem m)).

Definition loaded (f : fetched) : option Z := match f with Loaded v => Some v | _ => None end.
Definition msh (k : Z) : option Z :=
  if buflen <=? u32 (i32 (u32 k)) then None
  else match extract B p (u32 k) with Loaded b => Some ((b .& 0xf) << 2) | _ => None end.
Definition alu_value (a : aluop) (s : src) (x y : Z) : option Z :=
  match alu (Machine x 0 0 []) a s y with Next m => Some (rA m) | Done _ => None end.

(** The value that a statement assigns, if it completes, and the register. *)
Definition stmt_value (o : opcode) (k : Z) (m : machine) : option Z :=
  match o with
  | LdAbs s => loaded (load s p buflen (i32 (u32 k)))
  | LdInd s => loaded (load s p buflen (i32 (u32 (rX m + u32 k))))
  | LdLen | LdxLen => Some wirelen
  | LdxMsh => msh k
  | LdImm | LdxImm => Some (u32 k)
  | LdMem | LdxMem => u32 <$> nthZ (rmem m) (u32 k)
  | StM => match nthZ (rmem m) (u32 k) with Some _ => Some (rA m) | None => None end
  | StxM => match nthZ (rmem m) (u32 k) with Some _ => Some (rX m) | None => None end
  | AluOp a s => alu_value a s (rA m) (match s with X => rX m | K => u32 k end)
  | AluNeg => Some (u32 (- rA m))
  | MiscTax => Some (rA m)
  | MiscTxa => Some (rX m)
  | RetK | RetA | JmpJa | JmpIf _ _ => None
  end.
Definition stmt_def (o : opcode) (k : Z) : Z :=
  match o with
  | LdxLen | LdxMsh | LdxImm | LdxMem | MiscTax => X_ATOM
  | StM | StxM => u32 k
  | _ => A_ATOM
  end.

Lemma alu_set m a s y :
  match alu m a s y with Next m' => Some m' | Done _ => None end =
  (fun x => Machine x (rX m) (rpc m + 1) (rmem m)) <$> alu_value a s (rA m) y.
Proof.
  unfold alu_value, alu, setA. destruct a, s; try destruct (y =? 0); try destruct (y <? 32); reflexivity.
Qed.

Lemma mem_index m i v : machine_ok m -> nthZ (rmem m) i = Some v -> 0 <= i < BPF_MEMWORDS.
Proof.
  intros (_ & _ & Hl & _) Hn. apply nthZ_Some_lt in Hn. rewrite Hl in Hn. by rewrite Z2Nat.id in Hn by done.
Qed.

(** A statement that completes assigns its value. *)
Lemma eff_value s m o m' : machine_ok m -> decode (sl_code s) = Some o -> straight_op o = true -> eff s m = Next m' ->
  exists x, stmt_value o (sl_k s) m = Some x /\ m' = set_reg m (stmt_def o (sl_k s)) x.
Proof.
  intros Hm Hd Ho. unfold eff. destruct (Z.eqb_spec (sl_code s) NOP) as [E|_].
  { rewrite E in Hd. by vm_compute in Hd. }
  rewrite Hd. destruct m as [A X pc mem].
  destruct o; try discriminate Ho; cbn [exec stmt_value stmt_def]; unfold abs_off, ind_off, msh, mem_get, mem_set, set_reg, setA, setX, operand;
    cbn [k rA rX rpc rmem]; try (intros [= <-]; eexists; by split).
  - destruct (load _ _ _ _); [done| |done]. intros [= <-]. eexists. by split.
  - destruct (load _ _ _ _); [done| |done]. intros [= <-]. eexists. by split.
  - destruct (_ <=? _); [done|]. destruct (extract _ _ _); [done| |done]. intros [= <-]. eexists. by split.
  - destruct (nthZ mem _) as [v|] eqn:E; [|done]. intros [= <-]. eexists. by split.
  - destruct (nthZ mem _) as [v|] eqn:E; [|done]. intros [= <-]. eexists. by split.
  - destruct (nthZ mem _) as [v|] eqn:E; [|done]. intros [= <-]. eexists. split; [done|].
    pose proof (mem_index _ _ _ Hm E) as Hi. unfold A_ATOM, X_ATOM.
    by rewrite !(proj2 (Z.eqb_neq _ _)) by lia.
  - destruct (nthZ mem _) as [v|] eqn:E; [|done]. intros [= <-]. eexists. split; [done|].
    pose proof (mem_index _ _ _ Hm E) as Hi. unfold A_ATOM, X_ATOM.
    by rewrite !(proj2 (Z.eqb_neq _ _)) by lia.
  - pose proof (alu_set (Machine A X pc mem) a s0 (match s0 with X => X | K => u32 (sl_k s) end)) as Ha.
    cbn [rA rX rpc rmem] in Ha.
    destruct s0, (alu _ _ _ _) as [m1|]; try done; destruct (alu_value _ _ _ _) as [x|]; try discriminate Ha;
      injection Ha as ->; intros [= <-]; eexists; by split.
Qed.

(** A statement that assigns a value completes. *)
Lemma value_eff s m o x : machine_ok m -> decode (sl_code s) = Some o -> straight_op o = true ->
  stmt_value o (sl_k s) m = Some x -> eff s m = Next (set_reg m (stmt_def o (sl_k s)) x).
Proof.
  intros Hm Hd Ho Hv. destruct (eff s m) as [m'|r] eqn:E.
  - by destruct (eff_value s m o m' Hm Hd Ho E) as (y & Hy & ->); congruence.
  - exfalso. revert E. unfold eff. destruct (Z.eqb_spec (sl_code s) NOP) as [_|_]; [done|]. rewrite Hd.
    destruct m as [A X pc mem].
    destruct o; try discriminate Ho; cbn [exec stmt_value stmt_def] in *; unfold abs_off, ind_off, msh, mem_get, mem_set, setA, setX, operand in *;
      cbn [k rA rX rpc rmem] in *; try done.
    + by destruct (load _ _ _ _).
    + by destruct (load _ _ _ _).
    + destruct (_ <=? _); [done|]. by destruct (extract _ _ _).
    + by destruct (nthZ mem _).
    + by destruct (nthZ mem _).
    + by destruct (nthZ mem _).
    + by destruct (nthZ mem _).
    + pose proof (alu_set (Machine A X pc mem) a s0 (match s0 with X => X | K => u32 (sl_k s) end)) as Ha.
      cbn [rA rX rpc rmem] in Ha. rewrite Hv in Ha. destruct s0; by destruct (alu _ _ _ _).
Qed.

(** ** Value numbers

    On a packet, a value number stands for the value of its node; for none, if
    a load of the node is out of the packet's bounds.  The number 0 stands for
    nothing. *)
Abbreviation meaning := (Z -> option Z).

Definition node_value (nu : meaning) (c v0 v1 : Z) : option Z :=
  match decode c with
  | Some (LdAbs s) => loaded (load s p buflen (i32 (u32 v0)))
  | Some (LdInd s) => x ← nu v1; loaded (load s p buflen (i32 (u32 (x + u32 v0))))
  | Some LdLen => Some wirelen
  | Some LdImm => Some (u32 v0)
  | Some LdxMsh => msh v0
  | Some AluNeg => x ← nu v0; Some (u32 (- x))
  | Some (AluOp a s) => x ← nu v0; y ← nu v1; alu_value a s x y
  | _ => None
  end.

(** The codes of nodes, and the value numbers that a node refers to. *)
Definition node_code (o : opcode) : bool :=
  match o with LdAbs _ | LdInd _ | LdLen | LdImm | LdxMsh | AluNeg | AluOp _ _ => true | _ => false end.
Definition node_args (c v0 v1 : Z) : list Z :=
  match decode c with
  | Some (LdInd _) => [v1]
  | Some AluNeg => [v0]
  | Some (AluOp _ _) => [v0; v1]
  | _ => []
  end.

(** The meaning of the numbers up to [n] stays. *)
Definition extends (n : Z) (nu nu' : meaning) : Prop := forall v, v <= n -> nu' v = nu v.

Definition node_ok (w : work) (nu : meaning) (x : valnode) : Prop :=
  1 <= vn_val x <= curval w /\ nu (vn_val x) = node_value nu (vn_code x) (vn_v0 x) (vn_v1 x) /\
  Forall (fun v => v <= curval w) (node_args (vn_code x) (vn_v0 x) (vn_v1 x)) /\
  (decode (vn_code x) = Some LdImm -> vmap w !! vn_val x = Some (vn_v0 x)).

Record table_ok (w : work) (nu : meaning) : Prop := {
  t_nodes : forall h l, hashtbl w !! h = Some l -> Forall (node_ok w nu) l;
  t_zero : nu 0 = None;
  t_curval : 0 <= curval w;
  t_const : forall v c, vmap w !! v = Some c -> 1 <= v <= curval w /\ nu v = Some (u32 c) }.

Lemma extends_trans n n' nu nu' nu'' : n <= n' -> extends n nu nu' -> extends n' nu' nu'' -> extends n nu nu''.
Proof using Type. intros Hn H1 H2 v Hv. rewrite H2 by lia. by apply H1. Qed.

Lemma node_value_ext n nu nu' c v0 v1 : extends n nu nu' -> Forall (fun v => v <= n) (node_args c v0 v1) ->
  node_value nu' c v0 v1 = node_value nu c v0 v1.
Proof using Type.
  unfold node_value, node_args. intros He Ha. destruct (decode c) as [[]|]; try done; rewrite !Forall_cons in Ha.
  - by rewrite He by apply Ha.
  - by rewrite !He by apply Ha.
  - by rewrite He by apply Ha.
Qed.

(** What [F] and [K] return: the number of the value, and the table with it. *)
Definition numbered (w : work) (nu : meaning) (val : option Z) (r : Z * work) : Prop :=
  exists nu', extends (curval w) nu nu' /\ table_ok r.2 nu' /\ nu' r.1 = val /\ 0 <= r.1 <= curval r.2 /\
    curval w <= curval r.2 /\ vmap w ⊆ vmap r.2.

Lemma F_ok w nu c v0 v1 o : table_ok w nu -> decode c = Some o -> node_code o = true ->
  Forall (fun v => v <= curval w) (node_args c v0 v1) -> numbered w nu (node_value nu c v0 v1) (F c v0 v1 w).
Proof using Type.
  intros Ht Hd Ho Ha. pose proof Ht as [Hn Hz Hc Hk]. unfold F. set (h := hash_of c v0 v1).
  assert (Hb : Forall (node_ok w nu) (default [] (hashtbl w !! h)))
    by (destruct (hashtbl w !! h) eqn:E; [by eapply Hn|constructor]).
  destruct (find _ _) as [x|] eqn:Ef.
  - apply List.find_some in Ef as [Hin Hx]. rewrite List.Forall_forall in Hb. destruct (Hb x Hin) as (H1 & H2 & _).
    unfold is_node in Hx. apply andb_true_iff in Hx as [[Hx1 Hx2]%andb_true_iff Hx3].
    apply Z.eqb_eq in Hx1, Hx2, Hx3. subst. exists nu. cbn [fst snd]. split_and!; try done; lia.
  - set (n := curval w + 1). exists (fun v => if v =? n then node_value nu c v0 v1 else nu v).
    assert (He : extends (curval w) nu (fun v => if v =? n then node_value nu c v0 v1 else nu v)).
    { intros v Hv. by rewrite (proj2 (Z.eqb_neq _ _)) by lia. }
    split; [done|]. cbn [fst snd curval vmap].
    set (vm := if _ && _ then _ else _).
    assert (Hvm : decode c = Some LdImm -> vm !! n = Some v0)
      by (intros ->%decode_Some; apply lookup_insert_eq).
    assert (Hsub : vmap w ⊆ vm).
    { unfold vm. destruct (_ && _); [|done]. apply insert_subseteq.
      destruct (vmap w !! n) as [z|] eqn:E; [|done]. apply Hk in E. lia. }
    assert (Hmono : forall tab x, node_ok w nu x -> node_ok (Work tab n vm (o_done w))
              (fun v => if v =? n then node_value nu c v0 v1 else nu v) x).
    { intros tab x (H1 & H2 & H3 & H4). split; [cbn [curval]; lia|]. rewrite (node_value_ext _ _ _ _ _ _ He H3), He by lia.
      split; [done|]. split.
      - eapply Forall_impl; [exact H3|]. cbn [curval]. intros; lia.
      - cbn [vmap]. intros Hl. eapply lookup_weaken; [by apply H4|done]. }
    split_and!.
    + split; cbn [hashtbl curval vmap].
      * intros h' l. rewrite lookup_insert_Some. intros [[<- <-]|[_ Hl]].
        -- constructor.
           ++ split_and!; cbn [vn_val vn_code vn_v0 vn_v1 curval]; [lia|lia| | |].
              ** rewrite Z.eqb_refl. symmetry. by apply (node_value_ext (curval w)).
              ** eapply Forall_impl; [exact Ha|]. cbn [curval]. intros; lia.
              ** exact Hvm.
           ++ eapply Forall_impl; [exact Hb|]. intros x Hx. by apply Hmono.
        -- eapply Forall_impl; [by eapply Hn|]. intros x Hx. by apply Hmono.
      * by rewrite (proj2 (Z.eqb_neq _ _)) by lia.
      * lia.
      * intros v cst. assert (Hold : vmap w !! v = Some cst -> 1 <= v <= n /\
          (if v =? n then node_value nu c v0 v1 else nu v) = Some (u32 cst)).
        { intros Hv. destruct (Hk _ _ Hv) as [Hr Hv']. split; [lia|]. by rewrite (proj2 (Z.eqb_neq _ _)) by lia. }
        unfold vm. destruct (_ && _) eqn:Ei; [|done]. rewrite lookup_insert_Some. intros [[<- <-]|[_ Hv]]; [|by apply Hold].
        split; [lia|]. rewrite Z.eqb_refl. apply decode_Some in Hd as ->.
        destruct o; try discriminate Ho; try destruct s; try destruct a; by vm_compute in Ei.
    + by rewrite Z.eqb_refl.
    + lia.
    + lia.
    + lia.
    + done.
Qed.

Lemma K_ok w nu i : table_ok w nu -> numbered w nu (Some (u32 i)) (K_ i w).
Proof using Type. intros Ht. exact (F_ok w nu (BPF_LD .| BPF_IMM .| BPF_W) i 0 LdImm Ht eq_refl eq_refl (List.Forall_nil _)). Qed.

(** The number that [K] returns is that of a constant. *)
Lemma K_const w nu i : table_ok w nu -> vmap (K_ i w).2 !! (K_ i w).1 = Some i.
Proof using Type.
  intros [Hn _ _ _]. unfold K_, F. destruct (find _ _) as [x|] eqn:Ef; [|apply lookup_insert_eq].
  assert (Hb : Forall (node_ok w nu) (default [] (hashtbl w !! hash_of (BPF_LD .| BPF_IMM .| BPF_W) i 0)))
    by (destruct (hashtbl w !! _) eqn:E; [by eapply Hn|constructor]).
  apply List.find_some in Ef as [Hin Hx]. rewrite List.Forall_forall in Hb. destruct (Hb x Hin) as (_ & _ & _ & H4).
  unfold is_node in Hx. apply andb_true_iff in Hx as [[Hx1 Hx2]%andb_true_iff _].
  apply Z.eqb_eq in Hx1, Hx2. cbn [fst snd]. rewrite H4; [by f_equal|]. by rewrite Hx1.
Qed.

(** ** Values of registers *)

Definition vals_ok (w : work) (val : values) : Prop :=
  length val = n_atoms /\ Forall (fun v => 0 <= v <= curval w) val.

(** The registers hold what the numbers other than 0 mean. *)
Definition agree (nu : meaning) (val : values) (m : machine) : Prop :=
  forall i v, nthZ val i = Some v -> v <> 0 -> nu v = reg m i.

(** Nothing unknown is read. *)
Definition known_at (val : values) (i : Z) : Prop := nthZ val i <> Some 0.
Definition known (val : values) (s : slist) : Prop :=
  let a := atomuse (sl_code s) (sl_k s) in
  if a =? AX_ATOM then known_at val A_ATOM /\ known_at val X_ATOM else known_at val a.

Lemma val_index w val i v : vals_ok w val -> nthZ val i = Some v -> 0 <= i < N_ATOMS /\ 0 <= v <= curval w.
Proof using Type.
  intros [Hl Hv] Hn. split; [apply nthZ_Some_lt in Hn; rewrite Hl in Hn; done|].
  rewrite Forall_forall in Hv. apply Hv. by eapply nthZ_elem_of.
Qed.

Lemma nthZ_insert {A} (l : list A) i j x y : 0 <= i -> nthZ (<[Z.to_nat i := x]> l) j = Some y ->
  (j = i /\ y = x) \/ (j <> i /\ nthZ l j = Some y).
Proof using Type.
  unfold nthZ. intros Hi. destruct (Z.ltb_spec j 0); [done|]. destruct (decide (j = i)) as [->|Hne].
  - intros [(_ & -> & _)|[? _]]%list_lookup_insert_Some; [by left|done].
  - rewrite list_lookup_insert_ne by lia. by right.
Qed.

Lemma vals_insert w val i v : vals_ok w val -> 0 <= v <= curval w -> vals_ok w (<[Z.to_nat i := v]> val).
Proof using Type. intros [Hl Hf] Hv. split; [by rewrite length_insert|]. by apply Forall_insert. Qed.

Lemma vals_mono w w' val : curval w <= curval w' -> vals_ok w val -> vals_ok w' val.
Proof using Type. intros Hc [Hl Hf]. split; [done|]. eapply Forall_impl; [exact Hf|]. cbn. lia. Qed.

Lemma agree_ext w nu nu' val m : vals_ok w val -> extends (curval w) nu nu' -> agree nu val m -> agree nu' val m.
Proof using Type.
  intros Hv He Ha i v Hn Hz. rewrite He; [by apply Ha|]. destruct (val_index _ _ _ _ Hv Hn); lia.
Qed.

Lemma reg_set_other m i j x : 0 <= i -> i <> j -> reg (set_reg m i x) j = reg m j.
Proof using Type.
  intros Hi Hne. unfold reg, set_reg. destruct (Z.eqb_spec i A_ATOM) as [->|]; cbn [rA rX rmem].
  { by rewrite (proj2 (Z.eqb_neq j _)) by lia. }
  destruct (Z.eqb_spec i X_ATOM) as [->|]; cbn [rA rX rmem].
  { destruct (j =? A_ATOM); [done|]. by rewrite (proj2 (Z.eqb_neq j _)) by lia. }
  destruct (j =? A_ATOM); [done|]. destruct (j =? X_ATOM); [done|]. f_equal. unfold nthZ.
  destruct (Z.ltb_spec j 0); [done|]. apply list_lookup_insert_ne. lia.
Qed.

(** A value that the register can hold. *)
Definition fits (m : machine) (i x : Z) : Prop := i = A_ATOM \/ i = X_ATOM \/ (is_u 32 x /\ is_Some (nthZ (rmem m) i)).

Lemma reg_set_same m i x : fits m i x -> reg (set_reg m i x) i = Some x.
Proof using Type.
  intros [->|[->|[Hx [y Hy]]]]; [done|done|]. unfold reg, set_reg.
  destruct (Z.eqb_spec i A_ATOM) as [->|]; [done|]. destruct (Z.eqb_spec i X_ATOM) as [->|]; [done|]. cbn [rmem].
  pose proof (nthZ_Some_lt _ _ _ Hy). unfold nthZ. destruct (Z.ltb_spec i 0); [lia|].
  rewrite list_lookup_insert_eq by lia. cbn. by rewrite uwrap_swrap, uwrap_id by (lia || done).
Qed.

Lemma set_reg_same m i x : machine_ok m -> reg m i = Some x -> set_reg m i x = m.
Proof using Type.
  intros (_ & _ & _ & Hm) Hr. unfold reg, set_reg in *. destruct m as [A X pc mem]; cbn [rA rX rpc rmem] in *.
  destruct (i =? A_ATOM); [by injection Hr as ->|]. destruct (i =? X_ATOM); [by injection Hr as ->|].
  destruct (nthZ mem i) as [y|] eqn:Ey; [|done]. injection Hr as <-. f_equal.
  rewrite Forall_forall in Hm. rewrite swrap_uwrap by lia. rewrite swrap_id by (lia || (apply Hm; by eapply nthZ_elem_of)).
  unfold nthZ in Ey. destruct (i <? 0); [done|]. by apply list_insert_id.
Qed.

Lemma agree_set nu val m i v x : 0 <= i -> nu v = Some x -> fits m i x -> agree nu val m ->
  agree nu (<[Z.to_nat i := v]> val) (set_reg m i x).
Proof using Type.
  intros Hi Hv Hf Ha j u Hj Hu. apply nthZ_insert in Hj as [[-> ->]|[Hne Hj]]; [| |done].
  - by rewrite reg_set_same.
  - rewrite reg_set_other by lia. by apply Ha.
Qed.

(** ** [opt_stmt] *)

(** What the result of a statement has to satisfy: the table keeps its meaning
    and extends it; and where the statement completes and reads nothing unknown,
    so does what it becomes, with the same effect, and the values agree after
    it. *)
Definition sound (w : work) (nu : meaning) (val : values) (s : slist) (r : stmt_res) : Prop :=
  exists nu', extends (curval w) nu nu' /\ table_ok r.2 nu' /\ vals_ok r.2 r.1.2 /\ curval w <= curval r.2 /\
    forall m m', machine_ok m -> agree nu val m -> known val s -> eff s m = Next m' ->
      eff r.1.1 m = Next m' /\ agree nu' r.1.2 m'.

(** What the new statement [s1], which assigns the value that [s] assigns, has
    to do with it; [num] is the number's meaning. *)
Definition same_effect (nu : meaning) (val : values) (s s1 : slist) (i : Z) (num : option Z) : Prop :=
  forall m m', machine_ok m -> agree nu val m -> known val s -> eff s m = Next m' ->
    exists x, num = Some x /\ m' = set_reg m i x /\ fits m i x /\ eff s1 m = Next m'.

Lemma sound_assign w nu val s s1 i num v w1 r : vals_ok w val -> numbered w nu num (v, w1) ->
  same_effect nu val s s1 i num -> assign s1 val i v w1 = inr r -> sound w nu val s r.
Proof using Type.
  intros Hv (nu' & He & Ht & Hnu & Hr & Hc & _) Hs. cbn [fst snd] in *. unfold assign, set_val, val_at. intros H.
  apply rbind_inr in H as (val' & H & [= <-]). apply rbind_inr in H as (old & Hold%some_of_inr & [= <-]).
  destruct (val_index _ _ _ _ Hv Hold) as [Hi _].
  exists nu'. cbn [fst snd]. split_and!; try done; [by apply vals_insert; [eapply vals_mono|]|].
  intros m m' Hm Ha Hk Hd. destruct (Hs m m' Hm Ha Hk Hd) as (x & -> & -> & Hf & ->). split; [done|].
  apply agree_set; try done; [lia|]. by eapply agree_ext.
Qed.

Lemma sound_vstore w nu val s s1 i num v w1 alter r : vals_ok w val -> numbered w nu num (v, w1) ->
  same_effect nu val s s1 i num -> vstore s1 val i v alter w1 = inr r -> sound w nu val s r.
Proof using Type.
  intros Hv Hnum Hs. unfold vstore, val_at. intros H. apply rbind_inr in H as (old & Hold & H).
  destruct (alter && (old =? v)) eqn:E.
  - injection H as <-. apply andb_true_iff in E as [_ ->%Z.eqb_eq]. apply some_of_inr in Hold.
    destruct Hnum as (nu' & He & Ht & Hnu & Hr & Hc & _). cbn [fst snd] in *.
    exists nu'. cbn [fst snd]. split_and!; try done; [by eapply vals_mono|].
    intros m m' Hm Ha Hk Hd. destruct (Hs m m' Hm Ha Hk Hd) as (x & -> & -> & Hf & _).
    assert (Ha' : agree nu' val m) by by eapply agree_ext.
    assert (Hz : v <> 0) by (intros ->; by rewrite (t_zero _ _ Ht) in Hnu).
    rewrite set_reg_same by (done || (rewrite <- Hnu; symmetry; by apply Ha')). by split.
  - injection H as <-. eapply sound_assign; [done|done|done|].
    unfold assign, set_val, val_at. by rewrite Hold.
Qed.

Lemma sound_nop w nu val s : table_ok w nu -> vals_ok w val ->
  (forall m m', machine_ok m -> agree nu val m -> known val s -> eff s m = Next m' -> m' = m) ->
  sound w nu val s (with_code s NOP, val, w).
Proof using Type.
  intros Ht Hv Hs. exists nu. cbn [fst snd]. split_and!; try done. intros m m' Hm Ha Hk Hd.
  rewrite (Hs m m' Hm Ha Hk Hd). by split.
Qed.

(** The new statement assigns the same value to the same register. *)
Lemma same_value_effect nu val s s1 o o1 i num : decode (sl_code s) = Some o -> straight_op o = true ->
  decode (sl_code s1) = Some o1 -> straight_op o1 = true ->
  i = stmt_def o (sl_k s) -> i = stmt_def o1 (sl_k s1) ->
  (forall m x, machine_ok m -> agree nu val m -> known val s -> stmt_value o (sl_k s) m = Some x ->
     num = Some x /\ stmt_value o1 (sl_k s1) m = Some x) ->
  same_effect nu val s s1 i num.
Proof using Type.
  intros Hd Ho Hd1 Ho1 Hi Hi1 Hv m m' Hm Ha Hk He. destruct (eff_value s m o m' Hm Hd Ho He) as (x & Hx & ->).
  destruct (Hv m x Hm Ha Hk Hx) as [Hn Hx1]. exists x. rewrite <- Hi. split_and!; try done.
  - subst i. unfold fits. destruct o; try discriminate Ho; cbn [stmt_def] in *; try (by left); try (by right; left);
      right; right; cbn [stmt_value] in Hx; destruct (nthZ _ _) eqn:E; try discriminate Hx; injection Hx as <-;
      (split; [apply Hm|by eexists]).
  - rewrite Hi1. by apply value_eff.
Qed.
Lemma self_effect nu val s o i num : decode (sl_code s) = Some o -> straight_op o = true ->
  i = stmt_def o (sl_k s) ->
  (forall m x, machine_ok m -> agree nu val m -> known val s -> stmt_value o (sl_k s) m = Some x -> num = Some x) ->
  same_effect nu val s s i num.
Proof using Type. intros Hd Ho Hi Hv. eapply same_value_effect; try done. intros m x Hm Ha Hk Hx. split; [by eapply Hv|done]. Qed.

Definition op_use (o : opcode) (k : Z) : Z :=
  match o with
  | RetA | StM | AluOp _ K | JmpIf _ K | AluNeg | MiscTax | JmpJa => A_ATOM
  | LdInd _ | StxM | MiscTxa => X_ATOM
  | AluOp _ X | JmpIf _ X => AX_ATOM
  | LdMem | LdxMem => k
  | _ => -1
  end.
Lemma atomuse_op c o k : decode c = Some o -> atomuse c k = op_use o k.
Proof using Type. intros ->%decode_Some. opcode_cases o; reflexivity. Qed.

Lemma known_use val s o : decode (sl_code s) = Some o -> known val s ->
  if op_use o (sl_k s) =? AX_ATOM then known_at val A_ATOM /\ known_at val X_ATOM else known_at val (op_use o (sl_k s)).
Proof using Type. unfold known. intros Hd. by rewrite (atomuse_op _ _ _ Hd). Qed.

Lemma agree_known nu val m i v : agree nu val m -> nthZ val i = Some v -> known_at val i -> nu v = reg m i.
Proof using Type. intros Ha Hn Hk. apply Ha; [done|]. intros ->. by apply Hk. Qed.

Lemma alu_value_src a s x y z : alu_value a s x y = Some z -> alu_value a K x y = Some z.
Proof using Type. unfold alu_value, alu, setA. destruct a, s; try done; destruct (y =? 0); done. Qed.

Lemma alu_value_u32 m a s y z : machine_ok m -> is_u 32 y -> alu_value a s (rA m) y = Some z -> is_u 32 z.
Proof using Type.
  intros Hm Hy Hz. pose proof (alu_ok m a s y Hm Hy) as Hr. pose proof (alu_set m a s y) as Ha. rewrite Hz in Ha.
  destruct (alu m a s y) as [m'|]; [|done]. injection Ha as ->. apply Hr.
Qed.

Lemma fold_alu_value c a s x y z z' : decode c = Some (AluOp a s) -> alu_value a s x y = Some z ->
  fold_alu (BPF_OP c) x y = inr z' -> z' = z.
Proof using Type.
  intros ->%decode_Some Hz Hf. assert (E : BPF_OP (opcode_bits (AluOp a s)) = alu_bits a) by (destruct a, s; reflexivity).
  rewrite E in Hf. revert Hf Hz. unfold alu_value, alu, setA.
  destruct a; unfold fold_alu; cbn; destruct s; repeat case_match; cbn [rA]; congruence.
Qed.

(** The registers that a statement reads have known values. *)
Lemma known_A val s o a : decode (sl_code s) = Some o -> known val s ->
  op_use o (sl_k s) = A_ATOM \/ op_use o (sl_k s) = AX_ATOM -> nthZ val A_ATOM = Some a -> known_at val A_ATOM.
Proof using Type.
  intros Hd Hk Hu _. pose proof (known_use _ _ _ Hd Hk) as H. destruct Hu as [E|E]; rewrite E in H; [done|apply H].
Qed.
Lemma known_X val s o x : decode (sl_code s) = Some o -> known val s ->
  op_use o (sl_k s) = X_ATOM \/ op_use o (sl_k s) = AX_ATOM -> nthZ val X_ATOM = Some x -> known_at val X_ATOM.
Proof using Type.
  intros Hd Hk Hu _. pose proof (known_use _ _ _ Hd Hk) as H. destruct Hu as [E|E]; rewrite E in H; [done|apply H].
Qed.

Lemma is_const_value w nu v : table_ok w nu -> is_const w v = true -> nu v = Some (u32 (const_val w v)).
Proof using Type.
  unfold is_const, const_val. intros Ht. destruct (vmap w !! v) eqn:E; [|done]. intros _. by apply (t_const _ _ Ht).
Qed.

(** A copy of a number that is in the table. *)
Lemma numbered_copy w nu val i v : table_ok w nu -> vals_ok w val -> nthZ val i = Some v -> numbered w nu (nu v) (v, w).
Proof using Type.
  intros Ht Hv Hn. destruct (val_index _ _ _ _ Hv Hn) as [_ Hr]. exists nu. cbn. split_and!; try done; lia.
Qed.

Lemma table_not_done w nu : table_ok w nu -> table_ok (not_done w) nu.
Proof using Type. intros [Hn Hz Hc Hk]. by split. Qed.

(** One node after another. *)
Lemma numbered_then w nu x1 v1 w1 x2 r2 : numbered w nu x1 (v1, w1) ->
  (forall nu1, extends (curval w) nu nu1 -> table_ok w1 nu1 -> nu1 v1 = x1 -> 0 <= v1 <= curval w1 ->
     curval w <= curval w1 -> numbered w1 nu1 x2 r2) ->
  numbered w nu x2 r2.
Proof using Type.
  intros (nu1 & He & Ht & Hv & Hr & Hc & Hm) H. cbn [fst snd] in *.
  destruct (H nu1 He Ht Hv Hr Hc) as (nu2 & He2 & Ht2 & Hv2 & Hr2 & Hc2 & Hm2).
  exists nu2. split_and!; try done; try lia; [by eapply extends_trans|by etrans].
Qed.

Section Alu.
Context (w : work) (nu : meaning) (val : values) (s : slist) (a : aluop) (src : Bpf.src).
Context (Ht : table_ok w nu) (Hv : vals_ok w val) (Hd : decode (sl_code s) = Some (AluOp a src)).

(** The node of the operation on A and the number [vb]. *)
Lemma alu_node va vb xb w1 : nthZ val A_ATOM = Some va -> numbered w nu xb (vb, w1) ->
  numbered w nu (x ← nu va; y ← xb; alu_value a src x y) (F (sl_code s) va vb w1).
Proof using Ht Hv Hd.
  intros Ha Hb. eapply numbered_then; [exact Hb|]. intros nu1 He Ht1 Hv1 Hr Hc.
  destruct (val_index _ _ _ _ Hv Ha) as [_ Hva].
  assert (E : (x ← nu va; y ← xb; alu_value a src x y) = node_value nu1 (sl_code s) va vb)
    by (unfold node_value; rewrite Hd, (He va), Hv1 by lia; done).
  rewrite E. eapply F_ok; [done|exact Hd|done|]. unfold node_args. rewrite Hd. repeat constructor; lia.
Qed.

Definition operand_of (m : machine) : Z := match src with X => rX m | K => u32 (sl_k s) end.

(** The default cases of both kinds of operation. *)
Lemma sound_alu_node va vb xb w1 r : nthZ val A_ATOM = Some va -> numbered w nu xb (vb, w1) ->
  (forall m, agree nu val m -> known val s -> xb = Some (operand_of m)) ->
  (let '(v, w) := F (sl_code s) va vb w1 in assign s val A_ATOM v w) = inr r -> sound w nu val s r.
Proof using Ht Hv Hd.
  intros Ha Hb Hx. pose proof (alu_node va vb xb w1 Ha Hb) as Hn. destruct (F _ _ _ _) as [v w2].
  apply sound_assign with (1 := Hv) (2 := Hn). apply (self_effect _ _ _ (AluOp a src)); [done..|].
  intros m x Hm Hag Hk Hs. cbn [stmt_value] in Hs.
  assert (HA : nu va = Some (rA m)).
  { rewrite (agree_known _ _ _ _ _ Hag Ha); [done|]. eapply known_A; [done|done| |done].
    destruct src; [by left|by right]. }
  rewrite HA, (Hx m Hag Hk). exact Hs.
Qed.

Lemma operand_u32 m : machine_ok m -> is_u 32 (operand_of m).
Proof using Type. clear. intros Hm. unfold operand_of. destruct src; [apply u32_ok|apply Hm]. Qed.

(** The operation on constants becomes a load of its value. *)
Lemma sound_fold va vb xb w1 s1 w2 r : nthZ val A_ATOM = Some va -> numbered w nu xb (vb, w1) ->
  is_const w va = true -> is_const w1 vb = true ->
  (forall m, agree nu val m -> known val s -> xb = Some (operand_of m)) ->
  fold_op s va vb w1 = inr (s1, w2) -> assign_const s1 val w2 = inr r -> sound w nu val s r.
Proof using Ht Hv Hd.
  intros Ha Hb Hca Hcb Hx. unfold fold_op. intros H Hr. apply rbind_inr in H as (y & Hy & [= <- <-]).
  unfold assign_const in Hr. cbn [sl_k with_code with_k] in Hr.
  pose proof Hb as (nu1 & He1 & Ht1 & Hv1 & Hr1 & Hc1 & Hm1). cbn [fst snd] in *.
  destruct (val_index _ _ _ _ Hv Ha) as [_ Hva].
  assert (Hn : numbered w nu (Some (u32 y)) (K_ (i32 y) (not_done w1))).
  { eapply numbered_then with (v1 := vb) (w1 := not_done w1).
    - exists nu1. cbn [fst snd curval vmap not_done]. split_and!; try done; try lia. by apply table_not_done.
    - intros nu2 _ Ht2 _ _ _. rewrite <- (uwrap_swrap 32 ltac:(lia) y). by apply K_ok. }
  destruct (K_ _ _) as [v w3]. apply sound_assign with (1 := Hv) (2 := Hn) (4 := Hr).
  eapply (same_value_effect _ _ _ _ (AluOp a src) LdImm); try done.
  intros m x Hm Hag Hk Hs. cbn [stmt_value] in Hs. fold (operand_of m) in Hs.
  assert (HA : nu va = Some (rA m)).
  { rewrite (agree_known _ _ _ _ _ Hag Ha); [done|]. eapply known_A; [done|done| |done].
    destruct src; [by left|by right]. }
  rewrite (is_const_value _ _ _ Ht Hca) in HA. injection HA as HA.
  pose proof (is_const_value _ _ _ Ht1 Hcb) as HB. rewrite Hv1, (Hx m Hag Hk) in HB. injection HB as HB.
  assert (Hca1 : const_val w1 va = const_val w va).
  { unfold const_val. unfold is_const in Hca. destruct (vmap w !! va) eqn:E; [|done].
    by rewrite (lookup_weaken _ _ _ _ E Hm1). }
  rewrite Hca1, HA, <- HB in Hy. rewrite (fold_alu_value _ _ _ _ _ _ _ Hd Hs Hy). cbn [stmt_value sl_k with_code with_k].
  rewrite uwrap_swrap by lia. rewrite uwrap_id; [done|]. by apply (alu_value_u32 m a src (operand_of m) x Hm (operand_u32 m Hm)).
Qed.

(** A statement whose value is already in A can go. *)
Lemma sound_alu_nop : (forall m x, machine_ok m -> alu_value a src (rA m) (operand_of m) = Some x -> x = rA m) ->
  sound w nu val s (with_code s NOP, val, w).
Proof using Ht Hv Hd.
  intros Hx. apply sound_nop; [done|done|]. intros m m' Hm _ _ He.
  destruct (eff_value s m (AluOp a src) m' Hm Hd eq_refl He) as (x & Hs & ->). cbn [stmt_value stmt_def] in *.
  apply set_reg_same; [done|]. cbn. by rewrite (Hx m x Hm Hs).
Qed.

(** A statement whose value is a constant becomes a load of it. *)
Lemma sound_alu_zero alter s1 r : sl_code s1 = (BPF_LD .| BPF_IMM) -> sl_k s1 = 0 ->
  (forall m x, machine_ok m -> agree nu val m -> known val s ->
     alu_value a src (rA m) (operand_of m) = Some x -> x = 0) ->
  assign_const s1 val w = inr r \/
  (let '(v, w) := K_ (sl_k s1) w in vstore s1 val A_ATOM v alter w) = inr r -> sound w nu val s r.
Proof using Ht Hv Hd.
  intros Hc Hk Hx Hr. pose proof (K_ok w nu (sl_k s1) Ht) as Hn.
  assert (Hs : same_effect nu val s s1 A_ATOM (Some (u32 (sl_k s1)))).
  { apply (same_value_effect _ _ _ _ (AluOp a src) LdImm); try done; [by rewrite Hc|].
    intros m x Hm Ha Hkn Hs. cbn [stmt_value] in *. by rewrite (Hx m x Hm Ha Hkn Hs), Hk. }
  unfold assign_const in Hr. destruct (K_ _ _) as [v w1]. destruct Hr as [Hr|Hr].
  - by eapply sound_assign.
  - by eapply sound_vstore.
Qed.
End Alu.

Lemma is_op_In o l : is_op o l = true -> In o l.
Proof using Type. unfold is_op. rewrite existsb_exists. intros (x & Hx & E). apply Z.eqb_eq in E. by subst. Qed.

Lemma op_bits a src : BPF_OP (opcode_bits (AluOp a src)) = alu_bits a.
Proof using Type. by destruct a, src. Qed.

Lemma opt_alu_k_sound w nu val s a alter r : table_ok w nu -> vals_ok w val ->
  decode (sl_code s) = Some (AluOp a K) -> opt_alu_k s val alter w = inr r -> sound w nu val s r.
Proof using Type.
  intros Ht Hv Hd. unfold opt_alu_k, val_at. intros H. apply rbind_inr in H as (va & Ha%some_of_inr & H).
  assert (Hop : BPF_OP (sl_code s) = alu_bits a) by (rewrite (decode_Some _ _ Hd); apply op_bits).
  pose proof (K_ok w nu (sl_k s) Ht) as Hk.
  assert (HA : forall m, machine_ok m -> 0 <= rA m < 2 ^ 32) by (intros m Hm; apply Hm).
  destruct (alter && (sl_k s =? 0) && is_op _ _) eqn:E1.
  { injection H as <-. apply andb_true_iff in E1 as [[_ Ek%Z.eqb_eq]%andb_true_iff Eo%is_op_In].
    rewrite Hop in Eo. eapply sound_alu_nop; try done. intros m x Hm. unfold operand_of, alu_value. rewrite Ek.
    specialize (HA m Hm). change (u32 0) with 0.
    destruct a; try (cbn in Eo; exfalso; vm_compute in Eo; intuition congruence); cbn [alu setA rA]; cbn; intros [= <-].
    - rewrite Z.add_0_r. by apply uwrap_id.
    - by rewrite Z.lor_0_r.
    - rewrite Z.shiftl_0_r. by apply uwrap_id.
    - done. }
  destruct (alter && (sl_k s =? 0) && is_op _ [BPF_MUL; BPF_AND]) eqn:E2.
  { apply andb_true_iff in E2 as [[_ Ek%Z.eqb_eq]%andb_true_iff Eo%is_op_In]. rewrite Hop in Eo.
    apply (sound_alu_zero w nu val s a K Ht Hv Hd true (with_code s (BPF_LD .| BPF_IMM)) r eq_refl Ek); [|by left].
    intros m x _ _ _. unfold operand_of, alu_value. rewrite Ek.
    change (u32 0) with 0. destruct a; try (cbn in Eo; exfalso; vm_compute in Eo; intuition congruence); cbn; intros [= <-].
    - by rewrite Z.mul_0_r.
    - by rewrite Z.land_0_r. }
  destruct (alter && is_const w va) eqn:E3.
  - apply andb_true_iff in E3 as [_ Ec]. destruct (K_ _ _) as [vk w1] eqn:EK.
    apply rbind_inr in H as ([s1 w2] & Hf & H).
    apply (sound_fold w nu val s a K Ht Hv Hd va vk (Some (u32 (sl_k s))) w1 s1 w2 r Ha Hk Ec); try done.
    unfold is_const. pose proof (K_const w nu (sl_k s) Ht) as Hc. rewrite EK in Hc. cbn in Hc. by rewrite Hc.
  - destruct (K_ _ _) as [vk w1] eqn:EK.
    by apply (sound_alu_node w nu val s a K Ht Hv Hd va vk (Some (u32 (sl_k s))) w1 r Ha Hk).
Qed.

(** A statement may first become another with the same effect. *)
Lemma sound_replace w nu val s s1 r :
  (forall m m', machine_ok m -> agree nu val m -> known val s -> eff s m = Next m' ->
     eff s1 m = Next m' /\ known val s1) ->
  sound w nu val s1 r -> sound w nu val s r.
Proof using Type.
  intros Hs (nu' & He & Ht & Hv & Hc & Hr). exists nu'. split_and!; try done.
  intros m m' Hm Ha Hk Hd. destruct (Hs m m' Hm Ha Hk Hd) as [H1 H2]. by apply Hr.
Qed.

Lemma alu_k_code c a src : decode c = Some (AluOp a src) -> decode (BPF_ALU .| BPF_K .| BPF_OP c) = Some (AluOp a K).
Proof using Type. intros ->%decode_Some. by destruct a, src. Qed.

Lemma opt_alu_x_sound w nu val s a alter r : table_ok w nu -> vals_ok w val ->
  decode (sl_code s) = Some (AluOp a X) -> opt_alu_x s val alter w = inr r -> sound w nu val s r.
Proof using Type.
  intros Ht Hv Hd. unfold opt_alu_x, val_at. intros H. apply rbind_inr in H as (va & Ha%some_of_inr & H).
  apply rbind_inr in H as (vx & Hx%some_of_inr & H).
  assert (Hop : BPF_OP (sl_code s) = alu_bits a) by (rewrite (decode_Some _ _ Hd); apply op_bits).
  pose proof (numbered_copy w nu val _ vx Ht Hv Hx) as Hn.
  assert (HX : forall m, agree nu val m -> known val s -> nu vx = Some (rX m)).
  { intros m Hag Hk. rewrite (agree_known _ _ _ _ _ Hag Hx); [done|]. eapply known_X; [done|done|by right|done]. }
  assert (HA : forall m, agree nu val m -> known val s -> nu va = Some (rA m)).
  { intros m Hag Hk. rewrite (agree_known _ _ _ _ _ Hag Ha); [done|]. eapply known_A; [done|done|by right|done]. }
  assert (Hnode : (let '(v, w) := F (sl_code s) va vx w in assign s val A_ATOM v w) = inr r -> sound w nu val s r)
    by (apply (sound_alu_node w nu val s a X Ht Hv Hd va vx (nu vx) w r Ha Hn); exact HX).
  destruct (alter && is_const w vx) eqn:E1.
  { apply andb_true_iff in E1 as [_ Ecx]. destruct (is_const w va) eqn:Eca.
    - apply rbind_inr in H as ([s1 w2] & Hf & H).
      by apply (sound_fold w nu val s a X Ht Hv Hd va vx (nu vx) w s1 w2 r Ha Hn Eca Ecx HX).
    - set (s1 := with_k _ _) in H. pose proof (alu_k_code _ _ _ Hd) as Hd1.
      apply (sound_replace w nu val s s1).
      + intros m m' Hm Hag Hk He. destruct (eff_value s m (AluOp a X) m' Hm Hd eq_refl He) as (x & Hv1 & ->).
        split.
        * apply (value_eff s1 m (AluOp a K) x Hm Hd1 eq_refl). cbn [stmt_value] in *. change (sl_k s1) with (i32 (const_val w vx)).
          pose proof (is_const_value _ _ _ Ht Ecx) as Hcx. rewrite (HX m Hag Hk) in Hcx. injection Hcx as Hcx.
          rewrite uwrap_swrap by lia. rewrite <- Hcx. by eapply alu_value_src.
        * unfold known. rewrite (atomuse_op _ _ _ Hd1). cbn. eapply known_A; [exact Hd|exact Hk|by right|exact Ha].
      + destruct (K_ (sl_k s1) (not_done w)) as [vk w1] eqn:EK.
        pose proof (K_ok (not_done w) nu (sl_k s1) (table_not_done _ _ Ht)) as Hkn. rewrite EK in Hkn.
        by apply (sound_alu_node (not_done w) nu val s1 a K (table_not_done _ _ Ht) Hv Hd1 va vk (Some (u32 (sl_k s1))) w1 r Ha Hkn). }
  destruct (alter && is_const w va && (const_val w va =? 0)) eqn:E2; [|by apply Hnode].
  apply andb_true_iff in E2 as [[_ Eca]%andb_true_iff Ez%Z.eqb_eq].
  assert (H0 : forall m, agree nu val m -> known val s -> rA m = 0).
  { intros m Hag Hk. pose proof (is_const_value _ _ _ Ht Eca) as Hca. rewrite (HA m Hag Hk), Ez in Hca. by injection Hca. }
  destruct (is_op _ [BPF_ADD; BPF_OR]) eqn:E3.
  { apply is_op_In in E3. rewrite Hop in E3. apply sound_vstore with (1 := Hv) (2 := Hn) (4 := H).
    eapply (same_value_effect _ _ _ _ (AluOp a X) MiscTxa); try done. intros m x Hm Hag Hk Hs.
    rewrite (HX m Hag Hk). cbn [stmt_value] in *. revert Hs. unfold alu_value. rewrite (H0 m Hag Hk).
    assert (Hux : u32 (rX m) = rX m) by (apply uwrap_id, Hm).
    destruct a; try (exfalso; vm_compute in E3; intuition congruence); cbn;
      rewrite ?Z.add_0_l, ?Z.lor_0_l, ?Hux; intros [= <-]; done. }
  destruct (is_op _ [BPF_MUL; BPF_DIV; BPF_AND; BPF_LSH; BPF_RSH]) eqn:E4.
  { apply is_op_In in E4. rewrite Hop in E4.
    eapply (sound_alu_zero w nu val s a X Ht Hv Hd alter _ r); [| | |right; exact H]; [done|done|].
    intros m x Hm Hag Hk. unfold alu_value. rewrite (H0 m Hag Hk).
    destruct a; try (exfalso; vm_compute in E4; intuition congruence); unfold alu, setA; cbn [rA operand_of];
      try destruct (rX m =? 0); try destruct (rX m <? 32); cbn [rA]; intros [= <-]; rewrite ?Zdiv.Zdiv_0_l, ?Z.shiftl_0_l, ?Z.shiftr_0_l; done. }
  destruct (Z.eqb_spec (BPF_OP (sl_code s)) BPF_NEG) as [E5|_]; [|by apply Hnode].
  rewrite Hop in E5. by destruct a.
Qed.

(** A load of a constant in the place of a statement. *)
Lemma sound_const w nu val s s1 o o1 i v w1 num alter r : vals_ok w val -> numbered w nu num (v, w1) ->
  decode (sl_code s) = Some o -> straight_op o = true -> i = stmt_def o (sl_k s) ->
  decode (sl_code s1) = Some o1 -> straight_op o1 = true -> i = stmt_def o1 (sl_k s1) ->
  (forall m x, machine_ok m -> agree nu val m -> known val s -> stmt_value o (sl_k s) m = Some x ->
     num = Some x /\ stmt_value o1 (sl_k s1) m = Some x) ->
  vstore s1 val i v alter w1 = inr r -> sound w nu val s r.
Proof using Type.
  intros Hv Hn Hd Ho Hi Hd1 Ho1 Hi1 Hx H. apply sound_vstore with (1 := Hv) (2 := Hn) (4 := H).
  by apply (same_value_effect nu val s s1 o o1).
Qed.

Lemma numbered_not_done w nu num v w1 : numbered w nu num (v, w1) -> numbered w nu num (v, not_done w1).
Proof using Type.
  intros (nu1 & H1 & H2 & H). exists nu1. split; [done|]. split; [by apply table_not_done|done].
Qed.

Lemma u32_add_u32 a b : u32 (u32 a + u32 b) = u32 (a + b).
Proof using Type. unfold uwrap. by rewrite <- Z.add_mod by lia. Qed.
Lemma u32_opp_u32 a : u32 (- u32 a) = u32 (- a).
Proof using Type. clear. unfold uwrap. rewrite <- (Z.sub_0_l (a mod _)), <- (Z.sub_0_l a). by rewrite Zminus_mod_idemp_r. Qed.

Lemma index_u32 w val i v : vals_ok w val -> nthZ val i = Some v -> u32 i = i.
Proof using Type.
  intros Hv Hn. destruct (val_index _ _ _ _ Hv Hn) as [Hi _]. apply uwrap_id.
  change N_ATOMS with 18 in Hi. unfold is_u. lia.
Qed.

(** A register of the scratch memory that a statement reads. *)
Lemma known_mem w nu val s o m v x : vals_ok w val -> machine_ok m -> agree nu val m -> known val s ->
  decode (sl_code s) = Some o -> op_use o (sl_k s) = sl_k s -> nthZ val (sl_k s) = Some v ->
  u32 <$> nthZ (rmem m) (u32 (sl_k s)) = Some x -> nu v = Some x.
Proof using Type.
  intros Hv Hm Ha Hk Hd Hu Hn Hx. destruct (val_index _ _ _ _ Hv Hn) as [Hi _].
  rewrite (index_u32 _ _ _ _ Hv Hn) in Hx. destruct (nthZ (rmem m) (sl_k s)) as [y|] eqn:E; [|done].
  pose proof (mem_index _ _ _ Hm E) as Hr. pose proof (known_use _ _ _ Hd Hk) as Hkn. rewrite Hu in Hkn.
  rewrite (proj2 (Z.eqb_neq _ _)) in Hkn by (change AX_ATOM with 18; change BPF_MEMWORDS with 16 in Hr; lia).
  rewrite (agree_known _ _ _ _ _ Ha Hn Hkn). unfold reg.
  rewrite !(proj2 (Z.eqb_neq _ _)) by (change A_ATOM with 16; change X_ATOM with 17; change BPF_MEMWORDS with 16 in Hr; lia).
  by rewrite E.
Qed.

Section Cases.
Context (w : work) (nu : meaning) (val : values) (s : slist) (o : opcode) (alter : bool) (r : stmt_res).
Context (Ht : table_ok w nu) (Hv : vals_ok w val) (Hd : decode (sl_code s) = Some o) (Ho : straight_op o = true).

(** The cases that enter a node for the statement, constants, and copies. *)
Lemma sound_node v0 v1 i : node_code o = true -> i = stmt_def o (sl_k s) ->
  Forall (fun v => v <= curval w) (node_args (sl_code s) v0 v1) ->
  (forall m x, machine_ok m -> agree nu val m -> known val s -> stmt_value o (sl_k s) m = Some x ->
     node_value nu (sl_code s) v0 v1 = Some x) ->
  (let '(v, w) := F (sl_code s) v0 v1 w in vstore s val i v alter w) = inr r \/
  (let '(v, w) := F (sl_code s) v0 v1 w in assign s val i v w) = inr r ->
  sound w nu val s r.
Proof using All.
  intros Hc Hi Ha Hx H. pose proof (F_ok _ _ _ _ _ _ Ht Hd Hc Ha) as Hn. destruct (F _ _ _ _) as [v w1].
  pose proof (self_effect nu val s o i _ Hd Ho Hi Hx) as He.
  destruct H as [H|H]; [by eapply sound_vstore|by eapply sound_assign].
Qed.

Lemma sound_K i : i = stmt_def o (sl_k s) -> (forall m, stmt_value o (sl_k s) m = Some (u32 (sl_k s))) ->
  (let '(v, w) := K_ (sl_k s) w in vstore s val i v alter w) = inr r -> sound w nu val s r.
Proof using All.
  intros Hi Hx H. pose proof (K_ok _ _ (sl_k s) Ht) as Hn. destruct (K_ _ _) as [v w1].
  eapply sound_vstore; [exact Hv|exact Hn| |exact H]. apply (self_effect nu val s o i); try done.
  intros m x _ _ _ Hs. by rewrite Hx in Hs.
Qed.

Lemma sound_copy j v i : nthZ val j = Some v -> i = stmt_def o (sl_k s) ->
  (forall m x, machine_ok m -> agree nu val m -> known val s -> stmt_value o (sl_k s) m = Some x -> nu v = Some x) ->
  vstore s val i v alter w = inr r -> sound w nu val s r.
Proof using All.
  intros Hj Hi Hx H. eapply sound_vstore; [exact Hv|by eapply numbered_copy| |exact H].
  by apply (self_effect nu val s o i).
Qed.

Lemma sound_mem v i c1 o1 : nthZ val (sl_k s) = Some v -> op_use o (sl_k s) = sl_k s ->
  (forall m, stmt_value o (sl_k s) m = u32 <$> nthZ (rmem m) (u32 (sl_k s))) -> i = stmt_def o (sl_k s) ->
  decode c1 = Some o1 -> straight_op o1 = true -> (forall k, i = stmt_def o1 k) ->
  (forall k m, stmt_value o1 k m = Some (u32 k)) ->
  (if alter && is_const w v
   then vstore (with_k (with_code s c1) (const_val w v)) val i v alter (not_done w)
   else vstore s val i v alter w) = inr r -> sound w nu val s r.
Proof using All.
  intros Hx Hu Hs Hi Hd1 Ho1 Hi1 Hs1 H. destruct (alter && is_const w v) eqn:E.
  - apply andb_true_iff in E as [_ Ec]. set (s1 := with_k _ _) in H.
    apply (sound_const w nu val s s1 o o1 i v (not_done w) (nu v) alter r Hv); try done;
      [by eapply numbered_not_done, numbered_copy|].
    intros m x Hm Hag Hk Hsv. rewrite Hs in Hsv.
    pose proof (known_mem _ _ _ _ _ _ _ _ Hv Hm Hag Hk Hd Hu Hx Hsv) as Hnu. split; [done|].
    rewrite (is_const_value _ _ _ Ht Ec) in Hnu. rewrite Hs1. change (sl_k s1) with (i32 (const_val w v)).
    by rewrite uwrap_swrap by lia.
  - apply (sound_copy _ _ _ Hx Hi); [|done]. intros m x Hm Hag Hk Hsv. rewrite Hs in Hsv.
    by apply (known_mem _ _ _ _ _ _ _ _ Hv Hm Hag Hk Hd Hu Hx).
Qed.

Lemma reads_A va m : nthZ val A_ATOM = Some va -> op_use o (sl_k s) = A_ATOM -> agree nu val m -> known val s ->
  nu va = Some (rA m).
Proof using Hd.
  intros Hx Hu Hag Hk. rewrite (agree_known _ _ _ _ _ Hag Hx); [done|]. eapply known_A; [done|done|by left|done].
Qed.
Lemma reads_X vx m : nthZ val X_ATOM = Some vx -> op_use o (sl_k s) = X_ATOM -> agree nu val m -> known val s ->
  nu vx = Some (rX m).
Proof using Hd.
  intros Hx Hu Hag Hk. rewrite (agree_known _ _ _ _ _ Hag Hx); [done|]. eapply known_X; [done|done|by left|done].
Qed.

(** A store to the scratch memory is in its range. *)
Lemma store_index v r' : vstore s val (sl_k s) v alter w = inr r' -> u32 (sl_k s) = sl_k s.
Proof using Hv. unfold vstore, val_at. intros (old & Hold%some_of_inr & _)%rbind_inr. by eapply index_u32. Qed.
End Cases.

Lemma opt_ind_sound w nu val s sz alter r vx : table_ok w nu -> vals_ok w val ->
  decode (sl_code s) = Some (LdInd sz) -> nthZ val X_ATOM = Some vx ->
  (if alter && is_const w vx
   then let s := with_k (with_code s (BPF_LD .| BPF_ABS .| BPF_SIZE (sl_code s))) (sl_k s + const_val w vx) in
        let '(v, w) := F (sl_code s) (sl_k s) 0 w in vstore s val A_ATOM v alter (not_done w)
   else let '(v, w) := F (sl_code s) (sl_k s) vx w in vstore s val A_ATOM v alter w) = inr r ->
  sound w nu val s r.
Proof using Type.
  intros Ht Hv Hd Hx H. destruct (val_index _ _ _ _ Hv Hx) as [_ Hr]. destruct (alter && is_const w vx) eqn:E.
  - apply andb_true_iff in E as [_ Ec]. set (s1 := with_k _ _) in H.
    assert (Hd1 : decode (sl_code s1) = Some (LdAbs sz)) by (cbn; rewrite (decode_Some _ _ Hd); by destruct sz).
    assert (Hn : numbered w nu (node_value nu (sl_code s1) (sl_k s1) 0) (F (sl_code s1) (sl_k s1) 0 w)).
    { eapply F_ok; [done|exact Hd1|done|]. unfold node_args. rewrite Hd1. constructor. }
    cbv zeta in H. destruct (F _ _ _ _) as [v w1]. apply numbered_not_done in Hn.
    apply (sound_const w nu val s s1 (LdInd sz) (LdAbs sz) A_ATOM v (not_done w1) _ alter r Hv Hn); try done.
    intros m x _ Hag Hk Hs. assert (E : stmt_value (LdAbs sz) (sl_k s1) m = Some x).
    { cbn [stmt_value] in *. pose proof (is_const_value _ _ _ Ht Ec) as Hcx.
      rewrite (reads_X nu val s (LdInd sz) Hd vx m Hx eq_refl Hag Hk) in Hcx. injection Hcx as Hcx.
      rewrite Hcx, u32_add_u32, Z.add_comm in Hs. change (sl_k s1) with (i32 (sl_k s + const_val w vx)).
      by rewrite uwrap_swrap by lia. }
    split; [|exact E]. unfold node_value. by rewrite Hd1.
  - apply (sound_node w nu val s (LdInd sz) alter r Ht Hv Hd eq_refl (sl_k s) vx A_ATOM); try done; [| |by left].
    + unfold node_args. rewrite Hd. repeat constructor. lia.
    + intros m x _ Hag Hk Hs. unfold node_value. rewrite Hd, (reads_X nu val s (LdInd sz) Hd vx m Hx eq_refl Hag Hk). exact Hs.
Qed.

Lemma opt_neg_sound w nu val s alter r va : table_ok w nu -> vals_ok w val ->
  decode (sl_code s) = Some AluNeg -> nthZ val A_ATOM = Some va ->
  (if alter && is_const w va
   then assign_const (with_k (with_code s (BPF_LD .| BPF_IMM)) (- const_val w va)) val w
   else let '(v, w) := F (sl_code s) va 0 w in assign s val A_ATOM v w) = inr r ->
  sound w nu val s r.
Proof using Type.
  intros Ht Hv Hd Hx H. destruct (val_index _ _ _ _ Hv Hx) as [_ Hr]. destruct (alter && is_const w va) eqn:E.
  - apply andb_true_iff in E as [_ Ec]. unfold assign_const in H. set (s1 := with_k _ _) in H.
    pose proof (K_ok w nu (sl_k s1) Ht) as Hn. destruct (K_ _ _) as [v w1].
    apply sound_assign with (1 := Hv) (2 := Hn) (4 := H).
    apply (same_value_effect nu val s s1 AluNeg LdImm); try done. intros m x _ Hag Hk Hs. cbn [stmt_value] in *.
    pose proof (is_const_value _ _ _ Ht Ec) as Hcx. rewrite (reads_A nu val s AluNeg Hd va m Hx eq_refl Hag Hk) in Hcx.
    injection Hcx as Hcx. rewrite Hcx, u32_opp_u32 in Hs. change (sl_k s1) with (i32 (- const_val w va)).
    by rewrite uwrap_swrap by lia.
  - apply (sound_node w nu val s AluNeg alter r Ht Hv Hd eq_refl va 0 A_ATOM); try done; [| |by right].
    + unfold node_args. rewrite Hd. repeat constructor. lia.
    + intros m x _ Hag Hk Hs. unfold node_value. rewrite Hd, (reads_A nu val s AluNeg Hd va m Hx eq_refl Hag Hk). exact Hs.
Qed.

(** What [opt_stmt] makes of a statement other than [ldx len]. *)
Lemma opt_stmt_sound w nu val s o alter r : table_ok w nu -> vals_ok w val ->
  decode (sl_code s) = Some o -> straight_op o = true -> o <> LdxLen ->
  opt_stmt s val alter w = inr r -> sound w nu val s r.
Proof using Type.
  intros Ht Hv Hd Ho Hlen. unfold opt_stmt. rewrite Hd.
  destruct o as [| |sz| | |sz| | | | | | | | |j src|a src| | |]; try discriminate Ho; try done; intros H;
    try (apply rbind_inr in H as (v & Hx%some_of_inr & H)).
  - eapply sound_node; try done; [| |by left; exact H]; unfold node_args, node_value; by rewrite Hd.
  - eapply sound_node; try done; [| |by left; exact H]; unfold node_args, node_value; by rewrite Hd.
  - by eapply opt_ind_sound.
  - eapply sound_node; try done; [| |by left; exact H]; unfold node_args, node_value; by rewrite Hd.
  - by eapply sound_K.
  - by eapply sound_K.
  - by apply (sound_mem w nu val s LdMem alter r Ht Hv Hd eq_refl v A_ATOM (BPF_LD .| BPF_IMM) LdImm).
  - by apply (sound_mem w nu val s LdxMem alter r Ht Hv Hd eq_refl v X_ATOM (BPF_LDX .| BPF_IMM) LdxImm).
  - apply (sound_copy w nu val s StM alter r Ht Hv Hd Ho _ v (sl_k s) Hx); [|intros m x Hm Hag Hk Hs|done].
    { symmetry. exact (store_index w val s alter Hv v r H). }
    rewrite (reads_A nu val s StM Hd v m Hx eq_refl Hag Hk).
    cbn [stmt_value] in Hs. destruct (nthZ (rmem m) _); [exact Hs|done].
  - apply (sound_copy w nu val s StxM alter r Ht Hv Hd Ho _ v (sl_k s) Hx); [|intros m x Hm Hag Hk Hs|done].
    { symmetry. exact (store_index w val s alter Hv v r H). }
    rewrite (reads_X nu val s StxM Hd v m Hx eq_refl Hag Hk).
    cbn [stmt_value] in Hs. destruct (nthZ (rmem m) _); [exact Hs|done].
  - destruct src; [by eapply opt_alu_k_sound|by eapply opt_alu_x_sound].
  - by eapply opt_neg_sound.
  - apply (sound_copy w nu val s MiscTax alter r Ht Hv Hd Ho _ v X_ATOM Hx); try done. intros m x Hm Hag Hk Hs.
    by rewrite (reads_A nu val s MiscTax Hd v m Hx eq_refl Hag Hk).
  - apply (sound_copy w nu val s MiscTxa alter r Ht Hv Hd Ho _ v A_ATOM Hx); try done. intros m x Hm Hag Hk Hs.
    by rewrite (reads_X nu val s MiscTxa Hd v m Hx eq_refl Hag Hk).
Qed.

(** ** The statements of a block *)

Fixpoint effs (l : list slist) (m : machine) : step_result :=
  match l with
  | [] => Next m
  | s :: l => match eff s m with Next m => effs l m | d => d end
  end.

(** Deleted statements, and those that do not jump, but for [ldx len]. *)
Definition plain (s : slist) : Prop :=
  sl_code s = NOP \/ exists o, decode (sl_code s) = Some o /\ straight_op o = true /\ o <> LdxLen.

(** No statement reads a register without a value number. *)
Fixpoint all_known (l : list slist) (val : values) (alter : bool) (w : work) : Prop :=
  match l with
  | [] => True
  | s :: l =>
      known val s /\
      match opt_stmt s val alter w with inr (_, val, w) => all_known l val alter w | inl _ => True end
  end.

Lemma eff_ok s m m' : is_u 32 wirelen -> machine_ok m -> eff s m = Next m' -> machine_ok m'.
Proof using Type.
  intros Hw Hm. unfold eff. destruct (sl_code s =? NOP); [by intros [= <-]|].
  destruct (decode (sl_code s)) as [o|] eqn:Hd; [|done].
  assert (Hi : insn_ok (Insn (sl_code s) 0 0 (u32 (sl_k s)))).
  { split_and!; cbn [code jt jf k]; [|unfold is_u; lia..|apply u32_ok]. rewrite (decode_Some _ _ Hd).
    clear. opcode_cases o; unfold is_u; vm_compute; intuition congruence. }
  pose proof (exec_ok _ p wirelen buflen m o Hi Hw Hm) as Hr.
  destruct (exec _ _ _ _ _ _) as [m1|]; [|done]. intros [= <-]. exact Hr.
Qed.

Lemma opt_stmt_plain w nu val s alter r : table_ok w nu -> vals_ok w val -> plain s ->
  opt_stmt s val alter w = inr r -> sound w nu val s r.
Proof using Type.
  intros Ht Hv [Hn|(o & Hd & Ho & Hl)]; [|by eapply opt_stmt_sound].
  unfold opt_stmt. rewrite Hn. cbn. intros [= <-]. exists nu. cbn [fst snd]. split_and!; try done.
  intros m m' _ Ha _. unfold eff. rewrite Hn. cbn. by intros [= <-].
Qed.

(** C16: Value numbering keeps the effect of the statements of a block: on a
    packet and in a state in which the known value numbers are the values of
    the registers, what [opt_stmts] makes of them, with or without altering
    them, has the same effect wherever all of them complete, provided that
    none reads a register without a value number.  The numbers it enters keep
    the meaning of the table, and afterwards they are the values of the
    registers again. *)
Theorem opt_stmts_sound w nu val l alter l' val' w' : is_u 32 wirelen ->
  table_ok w nu -> vals_ok w val -> Forall plain l -> all_known l val alter w ->
  opt_stmts l val alter w = inr (l', val', w') ->
  exists nu', extends (curval w) nu nu' /\ table_ok w' nu' /\ vals_ok w' val' /\
    forall m m', machine_ok m -> agree nu val m -> effs l m = Next m' ->
      effs l' m = Next m' /\ agree nu' val' m'.
Proof using Type.
  intros Hw. revert nu val w l' val' w'. induction l as [|s l IH]; intros nu val w l' val' w' Ht Hv Hl Hk H; cbn in H.
  - injection H as <- <- <-. exists nu. split_and!; try done. intros m m' _ Ha [= <-]. by split.
  - apply rbind_inr in H as ([[s1 val1] w1] & H1 & H). apply rbind_inr in H as ([[l2 val2] w2] & H2 & H).
    injection H as <- <- <-. apply Forall_cons in Hl as [Hs Hl]. cbn in Hk. rewrite H1 in Hk. destruct Hk as [Hk Hk2].
    destruct (opt_stmt_plain _ _ _ _ _ _ Ht Hv Hs H1) as (nu1 & He1 & Ht1 & Hv1 & Hc1 & Hr1). cbn [fst snd] in *.
    destruct (IH nu1 val1 w1 l2 val2 w2 Ht1 Hv1 Hl Hk2 H2) as (nu2 & He2 & Ht2 & Hv2 & Hr2).
    exists nu2. split; [by eapply extends_trans|]. split_and!; try done. intros m m' Hm Ha. cbn [effs].
    destruct (eff s m) as [m1|] eqn:E; [|done]. intros He. destruct (Hr1 m m1 Hm Ha Hk E) as [E1 Ha1].
    rewrite E1. apply Hr2; [by eapply eff_ok|done|done].
Qed.
End Meaning.

(** The code of [ether[14:2] + 0] with the index in X. *)
Definition sample_stmts : list slist :=
  [Slist 0 (BPF_LDX .| BPF_IMM) 2 None None; Slist 1 (BPF_LD .| BPF_IND .| BPF_H) 12 None None;
   Slist 2 (BPF_ALU .| BPF_ADD .| BPF_K) 0 None None; Slist 3 (BPF_MISC .| BPF_TAX) 0 None None].
Definition no_values : work := Work ∅ 0 ∅ true.

Lemma no_values_ok p wirelen buflen : table_ok p wirelen buflen no_values (fun _ => None).
Proof.
  split; try done; intros h l Hl; exfalso; revert Hl; cbn [hashtbl vmap no_values]; by rewrite lookup_empty.
Qed.

Lemma opt_stmts_sound_witness :
  let pkt := map byte.of_Z [0; 1; 2; 3; 4; 5; 6; 7; 8; 9; 10; 11; 12; 13; 14; 15; 16] in
  exists l' val' w' m', opt_stmts sample_stmts (repeat 0 n_atoms) true no_values = inr (l', val', w') /\
    map sl_code l' = [BPF_LDX .| BPF_IMM; BPF_LD .| BPF_ABS .| BPF_H; NOP; BPF_MISC .| BPF_TAX] /\
    effs pkt 17 17 l' (init_machine zero_mem) = Next m' /\ rX m' = 14 * 256 + 15.
Proof.
  intros pkt.
  destruct (opt_stmts sample_stmts (repeat 0 n_atoms) true no_values) as [e|[[l' val'] w']] eqn:E;
    [exfalso; by vm_compute in E|].
  assert (Hv : vals_ok no_values (repeat 0 n_atoms)) by (split; [done|by repeat constructor]).
  assert (Hl : Forall plain sample_stmts).
  { unfold sample_stmts. apply Forall_cons; split; [right; exists LdxImm; by split_and!|].
    apply Forall_cons; split; [right; exists (LdInd H); by split_and!|].
    apply Forall_cons; split; [right; exists (AluOp Add K); by split_and!|].
    apply Forall_cons; split; [right; exists MiscTax; by split_and!|done]. }
  assert (Hk : all_known sample_stmts (repeat 0 n_atoms) true no_values).
  { vm_compute. repeat split; intros [=]. }
  destruct (opt_stmts_sound pkt 17 17 no_values (fun _ => None) (repeat 0 n_atoms) sample_stmts true l' val' w')
    as (nu & _ & _ & _ & Hr); [done|apply no_values_ok|done..|].
  exists l', val', w', (Machine (14 * 256 + 15) (14 * 256 + 15) 0 zero_mem). split; [done|].
  assert (El : map sl_code l' = [BPF_LDX .| BPF_IMM; BPF_LD .| BPF_ABS .| BPF_H; NOP; BPF_MISC .| BPF_TAX]).
  { vm_compute in E. injection E as <- _ _. reflexivity. }
  split; [exact El|]. split; [|reflexivity].
  apply (Hr (init_machine zero_mem)); [split_and!; [done..|by repeat constructor]| |vm_compute; reflexivity].
  intros i v Hn Hz. exfalso. apply Hz. apply nthZ_elem_of in Hn. apply list_elem_of_In, repeat_spec in Hn. done.
Defined.
