(* ===== verification/IcodeCorrect.v ===== *)
(** [icode_to_fcode] succeeds on the flow graph of an expression: the recursion
    writes every block before its predecessors, the loop that looks for long
    branches ends, and the program is valid and decides the expression. *)
From S2P Require Import Prelude CFile Bpf BpfFilter BpfValidate Gencode GencodeSpec Icode IcodeSpec.

#[local] Open Scope c_scope.

(** ** The recursion of [convert_code_r] *)

(** [d] is where a branch of [b] leads. *)
Definition edge (h : heap) (d b : nat) : Prop := exists blk, h !! b = Some blk /\ d ∈ succs blk.

Lemma Acc_tc_irrefl {A} (R : A -> A -> Prop) x : Acc R x -> ~ tc R x x.
Proof.
  intros Ha. assert (Ht : Acc (tc R) x).
  { induction Ha as [x _ IH]. constructor. intros y Hy.
    induction Hy as [y x Hr|y z x Hr _ IHz]; [by apply IH|].
    apply (Acc_inv (IHz IH)). by apply tc_once. }
  clear Ha. induction Ht as [x _ IH]. intros Hx. by apply (IH x).
Qed.

Lemma succs_jt blk d : b_jt blk = Some d -> d ∈ succs blk.
Proof. unfold succs. intros ->. set_solver. Qed.
Lemma succs_jf blk d : b_jf blk = Some d -> d ∈ succs blk.
Proof. unfold succs. intros ->. set_solver. Qed.
Lemma elem_of_succs blk d : d ∈ succs blk -> b_jt blk = Some d \/ b_jf blk = Some d.
Proof. unfold succs. destruct (b_jt blk), (b_jf blk); set_solver. Qed.

Section Convert.
Context (h0 : heap) (C : gset nat) (Hg : good_heap h0 C) (Hsmall : total (size_in h0) C < 2 ^ 31).
Context (malloc_ok : Z -> bool) (Hmalloc : forall n, malloc_ok n = true).

(** The conversion of [p] in the state [s], with the blocks [P] converted,
    ends in [s'] with the blocks [P'] converted. *)
Record converted (p : option nat) (s s' : conv) (P P' : gset nat) : Prop := {
  d_inv : inv h0 C s' P';
  d_more : P ⊆ P';
  d_in : forall b, p = Some b -> b ∈ P';
  d_marked : forall c, c ∈ c_marked s' <-> c ∈ c_marked s \/ c ∈ P';
  d_open : forall q, q ∈ c_marked s -> q ∉ P -> q ∉ P';
  d_heap : forall c, c ∉ P' -> c_heap s' !! c = c_heap s !! c;
  d_head : forall b, p = Some b -> b ∉ c_marked s ->
           exists blk, c_heap s' !! b = Some blk /\ b_offset blk = c_tail s' }.

(** The blocks that are marked and not converted lead to [b]. *)
Definition path (s : conv) (P : gset nat) (b : nat) : Prop :=
  b ∈ C /\ Acc (edge h0) b /\ forall q, q ∈ c_marked s -> q ∉ P -> tc (edge h0) b q.

Lemma converted_none p s P :
  inv h0 C s P -> (forall b, p = Some b -> b ∈ c_marked s /\ path s P b) -> converted p s s P P.
Proof using Type.
  intros Hi Hp. split; try done.
  - intros b Hb. destruct (Hp b Hb) as (Hm & _ & Ha & Hq). destruct (decide (b ∈ P)) as [|Hn]; [done|].
    exfalso. apply (Acc_tc_irrefl _ _ Ha), Hq; done.
  - intros c. split; [by left|]. intros [|Hc]; [done|]. by apply (i_marked _ _ _ _ Hi).
  - intros b Hb Hn. by destruct (Hp b Hb) as (Hm & _).
Qed.

Lemma convert_ok fuel p s P :
  inv h0 C s P -> (forall b, p = Some b -> path s P b) ->
  (base.size (C ∖ c_marked s) < fuel)%nat ->
  (exists s' P', convert_code_r malloc_ok fuel p s = Converted s' /\ converted p s s' P P') \/
  (exists s', convert_code_r malloc_ok fuel p s = Retry s' /\ raised (c_heap s') h0 C).
Proof using Hg Hsmall Hmalloc.
  revert p s P. induction fuel as [|fuel IH]; intros p s P Hi Hp Hf; [lia|].
  destruct p as [b|]; [|left; by exists s, P; split; [|apply converted_none]].
  pose proof (Hp b eq_refl) as Hpb. cbn [convert_code_r]. case_bool_decide as Hbm.
  { left. exists s, P. split; [done|]. apply converted_none; [done|]. by intros ? [= <-]. }
  destruct Hpb as (HbC & Hacc & Hq).
  assert (HbP : b ∉ P) by (intros Hb; by apply Hbm, (i_marked _ _ _ _ Hi)).
  destruct Hg as [Hcl Hgood]. destruct (Hgood b HbC) as (b0 & Hb0 & _).
  pose proof (i_heap _ _ _ _ Hi b) as He. rewrite Hb0 in He. destruct He as [n Hb]. rewrite Hb.
  set (blk := with_offset b0 n) in *.
  assert (Hedge : forall d, d ∈ succs blk -> edge h0 d b) by (intros d Hd; by exists b0).
  assert (Hpath : forall d s' P', d ∈ succs blk ->
    (forall q, q ∈ c_marked s' -> q ∉ P' -> q = b \/ (q ∈ c_marked s /\ q ∉ P)) -> path s' P' d).
  { intros d s' P' Hd Hq'. split; [by apply (Hcl b b0 d)|]. split; [by apply (Acc_inv Hacc), Hedge|].
    intros q H1 H2. destruct (Hq' q H1 H2) as [->|[H3 H4]]; [by apply tc_once, Hedge|].
    eapply tc_l; [by apply Hedge|]. by apply Hq. }
  set (s1 := Conv _ ({[b]} ∪ c_marked s) _ _).
  assert (Hi1 : inv h0 C s1 P).
  { destruct Hi as [? ? ? ? ? ? ? ? ? ?]. split; try done; cbn; set_solver. }
  assert (Hf1 : (base.size (C ∖ c_marked s1) < fuel)%nat) by by apply size_shrinks.
  destruct (IH (b_jf blk) s1 P Hi1) as [(s2 & P2 & -> & H2)|(s2 & -> & H2)]; [|done| |].
  { intros d Hd%succs_jf. apply Hpath; [done|]. cbn. set_solver. }
  2: { right. by exists s2. }
  assert (Hm2 : forall q, q ∈ c_marked s2 -> q ∉ P2 -> q = b \/ (q ∈ c_marked s /\ q ∉ P)).
  { intros q [Hq1|]%(d_marked _ _ _ _ _ H2) Hq2; [|done]. pose proof (d_more _ _ _ _ _ H2). cbn in Hq1.
    set_solver. }
  destruct (IH (b_jt blk) s2 P2 (d_inv _ _ _ _ _ H2)) as [(s3 & P3 & -> & H3)|(s3 & -> & H3)].
  { intros d Hd%succs_jt. by apply Hpath. }
  { eapply Nat.le_lt_trans; [|exact Hf1]. apply size_smaller. intros c Hc.
    apply (d_marked _ _ _ _ _ H2). by left. }
  2: { right. by exists s3. }
  assert (Hb2 : b ∈ c_marked s2) by (apply (d_marked _ _ _ _ _ H2); cbn; set_solver).
  assert (HbP2 : b ∉ P2) by (apply (d_open _ _ _ _ _ H2); [cbn; set_solver|done]).
  assert (Hb3 : b ∈ c_marked s3) by (apply (d_marked _ _ _ _ _ H3); by left).
  assert (HbP3 : b ∉ P3) by by apply (d_open _ _ _ _ _ H3).
  assert (Hh3 : c_heap s3 !! b = Some blk)
    by (by rewrite (d_heap _ _ _ _ _ H3), (d_heap _ _ _ _ _ H2)).
  assert (HP23 : P2 ⊆ P3) by apply (d_more _ _ _ _ _ H3).
  assert (HP2 : P ⊆ P2) by apply (d_more _ _ _ _ _ H2).
  destruct (finish_block_ok h0 C (conj Hcl Hgood) Hsmall s3 P3 b blk (d_inv _ _ _ _ _ H3) HbC HbP3 Hb3 Hh3)
    with (malloc_ok := malloc_ok) as [(s4 & -> & Hi4 & Hm4 & Hh4 & Ht4)|H4].
  { intros d [Hd|Hd]%elem_of_succs; [by apply (d_in _ _ _ _ _ H3)|].
    apply HP23. by apply (d_in _ _ _ _ _ H2). }
  { done. }
  2: { right. exact H4. }
  left. exists s4, ({[b]} ∪ P3). split; [done|]. split.
  - done.
  - set_solver.
  - intros ? [= <-]. set_solver.
  - intros c. rewrite Hm4, (d_marked _ _ _ _ _ H3), (d_marked _ _ _ _ _ H2). cbn. set_solver.
  - intros q H1 H5. apply not_elem_of_union. split; [set_solver|].
    apply (d_open _ _ _ _ _ H3); [|apply (d_open _ _ _ _ _ H2); [cbn; set_solver|done]].
    apply (d_marked _ _ _ _ _ H2). left. cbn. set_solver.
  - intros c Hc. apply not_elem_of_union in Hc as [H1 H5]. rewrite Hh4.
    rewrite lookup_insert_ne by set_solver.
    rewrite (d_heap _ _ _ _ _ H3), (d_heap _ _ _ _ _ H2) by set_solver. done.
  - intros ? [= <-] _. rewrite Hh4, Ht4, lookup_insert_eq. by eexists.
Qed.
End Convert.

(** ** Valid programs *)

(** What is asked of the instruction [x] at index [i] of a program of [len]. *)
Definition fine (len i : Z) (x : bpf_insn) : Prop :=
  insn_ok x /\ ja_forward x = true /\ bpf_validate_insn len i x = true.

Lemma fine_straight len i s : straight_stmt s -> fine len i (insn_of s).
Proof.
  intros (o & Hd & Ho & Hc & Hv). unfold insn_of. split; [|split].
  - split_and!; cbn; (clia || (apply uwrap_range; lia)).
  - unfold ja_forward. cbn [code]. rewrite Hd. by destruct o.
  - apply (checked_validate_insn _ _ _ o); [done|].
    apply (validate_insn_checked _ _ _ o) in Hv; [|done]. by destruct o.
Qed.

Lemma fine_zero len i : fine len i zero_insn.
Proof. by split_and!. Qed.

Lemma fine_ret len i c k o : decode (u16 c) = Some o -> o = RetK \/ o = RetA ->
  fine len i (Insn (u16 c) 0 0 (u32 k)).
Proof.
  intros Hd Ho. split; [|split].
  - split_and!; cbn; (clia || (apply uwrap_range; lia)).
  - unfold ja_forward. cbn [code]. rewrite Hd. by destruct Ho as [->| ->].
  - eapply checked_validate_insn; [exact Hd|]. by destruct Ho as [->| ->].
Qed.

Lemma fine_ja len i d : 0 <= i -> 0 <= d -> i + 1 + d < len -> len < 2 ^ 31 ->
  fine len i (Insn (BPF_JMP .| BPF_JA) 0 0 (u32 d)).
Proof.
  intros Hi Hd Hl Hlen. assert (Hk : u32 d = d) by (apply uwrap_id; clia). rewrite Hk.
  change (BPF_JMP .| BPF_JA) with 5. split; [|split].
  - split_and!; cbn; clia.
  - unfold ja_forward. change (decode _) with (Some JmpJa). cbn. clia.
  - apply (checked_validate_insn _ _ _ JmpJa); [done|]. cbn [checked k].
    rewrite !uwrap_id by (rewrite ?uwrap_id; clia). lia.
Qed.

Lemma fine_jmp len i c t f k j s : decode (u16 c) = Some (JmpIf j s) ->
  0 <= i -> 0 <= t < 256 -> 0 <= f < 256 -> i + 1 + t < len -> i + 1 + f < len -> len < 2 ^ 31 ->
  fine len i (Insn (u16 c) t f (u32 k)).
Proof.
  intros Hd Hi Ht Hf Hl1 Hl2 Hlen. split; [|split].
  - split_and!; cbn; (clia || (apply uwrap_range; lia)).
  - unfold ja_forward. cbn [code]. by rewrite Hd.
  - eapply checked_validate_insn; [exact Hd|]. cbn [checked jt jf].
    rewrite !uwrap_id by (rewrite ?uwrap_id; clia). lia.
Qed.

Lemma fine_branch len i blk off_t off_f j s n x :
  decode (u16 (b_code blk)) = Some (JmpIf j s) -> 0 <= i -> 0 <= off_t -> 0 <= off_f ->
  i + 1 + off_t < len -> i + 1 + off_f < len -> len < 2 ^ 31 ->
  i + lenZ (branch_code blk off_t off_f) <= len ->
  branch_code blk off_t off_f !! n = Some x -> fine len (i + Z.of_nat n) x.
Proof.
  intros Hd Hi Ht Hf Hl1 Hl2 Hlen Hl3. rewrite length_branch_code in Hl3.
  unfold branch_code. destruct (Z.leb_spec 256 off_t), (Z.leb_spec 256 off_f); cbn [app];
    (destruct n as [|[|[|n]]]; simpl; intros [= <-] || intros Hn; try discriminate Hn);
    try (eapply fine_jmp; [exact Hd|lia..]); try (apply fine_ja; lia).
Qed.

Lemma validate_from_intro len i f :
  (forall n p, f !! n = Some p -> bpf_validate_insn len (i + Z.of_nat n) p = true) ->
  bpf_validate_from len i f = true.
Proof.
  revert i. induction f as [|p f IH]; intros i Hf; [done|]. simpl.
  pose proof (Hf 0%nat p eq_refl) as Hp. rewrite Z.add_0_r in Hp. rewrite Hp.
  apply IH. intros n q Hq. specialize (Hf (S n) q Hq).
  by replace (i + 1 + Z.of_nat n) with (i + Z.of_nat (S n)) by lia.
Qed.

(** ** What the turns of the loop keep *)

Definition shape (b : block) : list slist * Z * Z * option nat * option nat :=
  (b_stmts b, b_code b, b_k b, b_jt b, b_jf b).

(** Offsets may change, and branches become long. *)
Definition grown_block (b b' : block) : Prop :=
  shape b' = shape b /\ (flag (b_longjt b) -> flag (b_longjt b')) /\
  (flag (b_longjf b) -> flag (b_longjf b')) /\
  (b_jt b = None -> b_longjt b' = b_longjt b /\ b_longjf b' = b_longjf b).
Definition grown (h h' : heap) : Prop :=
  forall c b, h !! c = Some b -> exists b', h' !! c = Some b' /\ grown_block b b'.

Lemma eqv_grown h h0 : eqv h h0 -> grown h0 h.
Proof.
  intros He c b Hb. specialize (He c). rewrite Hb in He. destruct He as [n He].
  exists (with_offset b n). by repeat split.
Qed.

Lemma raised_grown h h0 C : raised h h0 C -> grown h0 h.
Proof.
  intros (c & b0 & _ & Hb0 & [t Ht] & Hr) d b Hb.
  assert (Hd : forall b1, grown_block b0 b1 -> eqv h (<[c := b1]> h0) ->
    exists b', h !! d = Some b' /\ grown_block b b').
  { intros b1 Hg He. specialize (He d). destruct (decide (d = c)) as [->|Hne].
    - rewrite lookup_insert_eq in He. destruct He as [n He]. rewrite Hb0 in Hb. injection Hb as <-.
      by exists (with_offset b1 n).
    - rewrite lookup_insert_ne, Hb in He by done. destruct He as [n He].
      exists (with_offset b n). by repeat split. }
  destruct Hr as [[Hz He]|[Hz He]]; (eapply Hd; [|exact He]);
    (split; [done|]); cbn; rewrite Hz, Ht; unfold flag; (split; [tauto|split; [tauto|done]]).
Qed.

Lemma shape_inj b b' : shape b' = shape b ->
  b_stmts b' = b_stmts b /\ b_code b' = b_code b /\ b_k b' = b_k b /\ b_jt b' = b_jt b /\ b_jf b' = b_jf b.
Proof. unfold shape. intros [= -> -> -> -> ->]. done. Qed.

Lemma shape_succs b b' : shape b' = shape b -> succs b' = succs b.
Proof. intros (_ & _ & _ & Ht & Hf)%shape_inj. unfold succs. by rewrite Ht, Hf. Qed.

Lemma grown_good h h' C : grown h h' -> good_heap h C -> good_heap h' C.
Proof.
  intros Hgr [Hcl Hgood]. split.
  - intros c b' d Hc Hb' Hd. destruct (Hgood c Hc) as (b & Hb & _).
    destruct (Hgr c b Hb) as (b2 & Hb2 & Hs & _). rewrite Hb' in Hb2. injection Hb2 as <-.
    apply (Hcl c b); [done|done|]. by rewrite <- (shape_succs _ _ Hs).
  - intros c Hc. destruct (Hgood c Hc) as (b & Hb & H1 & H2 & H3 & H4 & H5).
    destruct (Hgr c b Hb) as (b' & Hb' & Hs & F1 & F2 & F3). exists b'. split; [done|].
    apply shape_inj in Hs as (S1 & S2 & S3 & S4 & S5). unfold good_block, good_branch in *.
    rewrite S1, S2, S4, S5. split_and!; auto; try apply H4.
    destruct (b_jt b); [done|]. destruct (F3 eq_refl) as [-> ->]. done.
Qed.

Lemma grown_graph h h' b e t f : grown h h' -> graph h b e t f -> graph h' b e t f.
Proof.
  intros Hgr. induction 1 as [b blk t f Hb Ht Hf Hlt Hlf| | |]; [|by econstructor..].
  destruct (Hgr b blk Hb) as (b' & Hb' & Hs & F1 & F2 & _).
  apply shape_inj in Hs as (S1 & S2 & S3 & S4 & S5). rewrite <- S1, <- S2, <- S3.
  apply graph_leaf; [done|congruence|congruence|auto|auto].
Qed.

(** The block at [t] returns [v]. *)
Definition returns (h : heap) (t : nat) (v : Z) : Prop :=
  exists blk, h !! t = Some blk /\ shape blk = ([], BPF_RET .| BPF_K, v, None, None).

Lemma grown_returns h h' t v : grown h h' -> returns h t v -> returns h' t v.
Proof.
  intros Hgr (blk & Hb & Hs). destruct (Hgr t blk Hb) as (b' & Hb' & Hs' & _).
  exists b'. split; [done|]. by rewrite Hs'.
Qed.

(** ** The measure of the loop *)

Lemma total_ext f g X : (forall c, c ∈ X -> f c = g c) -> total f X = total g X.
Proof.
  intros Hf. unfold total. assert (H : forall c, c ∈ elements X -> f c = g c) by set_solver.
  revert H. generalize (elements X). intros l. induction l as [|c l IH]; intros Hl; simpl; [done|].
  rewrite (Hl c) by constructor. rewrite IH; [done|]. intros d Hd. apply Hl. by constructor.
Qed.

Lemma total_mono f g X : (forall c, c ∈ X -> f c <= g c) -> total f X <= total g X.
Proof.
  intros Hf. unfold total. assert (H : forall c, c ∈ elements X -> f c <= g c) by set_solver.
  revert H. generalize (elements X). intros l. induction l as [|c l IH]; intros Hl; simpl; [done|].
  pose proof (Hl c ltac:(constructor)). pose proof (IH ltac:(intros d Hd; apply Hl; by constructor)). lia.
Qed.

Lemma total_const n X : total (fun _ => n) X = n * Z.of_nat (base.size X).
Proof.
  unfold total. change (base.size X) with (length (elements X)).
  generalize (elements X). intros l. induction l as [|c l IH]; simpl; [lia|]. rewrite IH. lia.
Qed.

(** A function changed at one block. *)
Lemma total_change f g X c n :
  c ∈ X -> f c = g c + n -> (forall d, d ∈ X -> d <> c -> f d = g d) -> total f X = total g X + n.
Proof.
  intros Hc Hf Hd. rewrite !(total_difference _ X {[c]}) by set_solver. rewrite !total_singleton.
  rewrite (total_ext f g (X ∖ {[c]})) by set_solver. lia.
Qed.

Lemma total_union_le f X Y :
  (forall c, c ∈ Y -> 0 <= f c) -> total f (X ∪ Y) <= total f X + total f Y.
Proof.
  intros Hf. replace (X ∪ Y) with (X ∪ (Y ∖ X)).
  2: { apply leibniz_equiv. intros c. destruct (decide (c ∈ X)); set_solver. }
  rewrite total_union by set_solver. enough (total f (Y ∖ X) <= total f Y) by lia.
  rewrite (total_difference f Y (Y ∖ X)) by set_solver.
  pose proof (total_nonneg f (Y ∖ (Y ∖ X)) ltac:(set_solver)). lia.
Qed.

(** The branches of a block that are still short, and its size with none. *)
Definition slack (h : heap) (c : nat) : Z :=
  match h !! c with Some b => 2 - b_longjt b - b_longjf b | None => 0 end.
Definition msize (h : heap) (c : nat) : Z :=
  match h !! c with Some b => slength (b_stmts b) + 3 | None => 0 end.

Lemma slack_range h C c : good_heap h C -> c ∈ C -> 0 <= slack h c <= 2.
Proof.
  intros [_ Hg] Hc. destruct (Hg c Hc) as (b & Hb & _ & Ht & Hf & _). unfold slack, flag in *.
  rewrite Hb. lia.
Qed.

Lemma size_msize h C c : good_heap h C -> c ∈ C -> size_in h c <= msize h c.
Proof.
  intros [_ Hg] Hc. destruct (Hg c Hc) as (b & Hb & _ & Ht & Hf & _). unfold size_in, msize, bsize, flag in *.
  rewrite Hb. lia.
Qed.

Lemma grown_msize h h' C : good_heap h C -> grown h h' -> total (msize h') C = total (msize h) C.
Proof.
  intros [_ Hg] Hgr. apply total_ext. intros c Hc. destruct (Hg c Hc) as (b & Hb & _).
  destruct (Hgr c b Hb) as (b' & Hb' & Hs & _).
  unfold msize. rewrite Hb, Hb'. apply shape_inj in Hs as (-> & _). done.
Qed.

Lemma raised_slack h h' C V :
  good_heap h C -> V ⊆ C -> raised h' h V -> total (slack h) C = total (slack h') C + 1.
Proof.
  intros Hg HV (c & b0 & Hc & Hb0 & _ & Hr). apply (total_change _ _ _ c); [set_solver| |].
  - unfold slack. rewrite Hb0. destruct Hr as [[Hz He]|[Hz He]]; specialize (He c);
      rewrite lookup_insert_eq in He; destruct He as [n ->]; cbn; lia.
  - intros d Hd Hne. unfold slack. destruct Hg as [_ Hg]. destruct (Hg d Hd) as (b & Hb & _).
    rewrite Hb. destruct Hr as [[Hz He]|[Hz He]]; specialize (He d);
      rewrite lookup_insert_ne, Hb in He by done; by destruct He as [n ->].
Qed.

(** ** The loop of [icode_to_fcode] *)

Lemma graph_acc h b e t f :
  graph h b e t f -> Acc (edge h) t -> Acc (edge h) f -> Acc (edge h) b.
Proof.
  induction 1 as [b blk t f Hb Ht Hf _ _| | |]; intros Hat Haf; [|auto..].
  constructor. intros d (blk' & Hb' & Hd). rewrite Hb in Hb'. injection Hb' as <-.
  apply elem_of_succs in Hd as [Hd|Hd]; congruence.
Qed.

Lemma returns_acc h t v : returns h t v -> Acc (edge h) t.
Proof.
  intros (blk & Hb & Hs). constructor. intros d (blk' & Hb' & Hd). rewrite Hb in Hb'. injection Hb' as <-.
  injection Hs as _ _ _ Ht Hf. apply elem_of_succs in Hd as [Hd|Hd]; congruence.
Qed.

Section Loop.
Context (e : bexp) (root bt bf : nat) (vt vf : Z).

Record ready (h : heap) (C : gset nat) : Prop := {
  r_good : good_heap h C;
  r_root : root ∈ C;
  r_graph : graph h root e bt bf;
  r_true : returns h bt vt;
  r_false : returns h bf vf;
  r_size : total (msize h) C < 2 ^ 31 }.

(** The program [fp] is made of the blocks [V]. *)
Record image (h : heap) (V : gset nat) (fp : list bpf_insn) : Prop := {
  im_ready : ready h V;
  im_len : lenZ fp < 2 ^ 31;
  im_placed : forall c, c ∈ V -> placed h fp c;
  im_range : forall c blk, c ∈ V -> h !! c = Some blk ->
             0 <= b_offset blk /\ b_offset blk + bsize blk <= lenZ fp;
  im_cover : forall i, 0 <= i < lenZ fp ->
             exists c blk, c ∈ V /\ h !! c = Some blk /\ b_offset blk <= i < b_offset blk + bsize blk;
  im_first : exists blk, h !! root = Some blk /\ b_offset blk = 0 }.

Lemma ready_grown h h' C : ready h C -> grown h h' -> ready h' C.
Proof using Type.
  intros [Hg Hr Hgr Ht Hf Hs] H. split; try done.
  - by eapply grown_good.
  - by eapply grown_graph.
  - by eapply grown_returns.
  - by eapply grown_returns.
  - by rewrite (grown_msize _ _ _ Hg H).
Qed.

Lemma ready_sub h C V : ready h C -> V ⊆ C -> root ∈ V -> closed h V -> ready h V.
Proof using Type.
  intros [[Hcl Hg] Hr Hgr Ht Hf Hs] HV Hroot Hc. split; try done.
  - split; [done|]. intros c Hcv. by apply Hg, HV.
  - rewrite (total_difference _ C V HV) in Hs.
    pose proof (total_nonneg (msize h) (C ∖ V)) as Hn. enough (0 <= total (msize h) (C ∖ V)) by lia.
    apply Hn. intros c Hcv. unfold msize, slength. destruct (h !! c); lia.
Qed.

Lemma ready_size_in h C : ready h C -> total (size_in h) C < 2 ^ 31.
Proof using Type.
  intros [Hg _ _ _ _ Hs]. eapply Z.le_lt_trans; [|exact Hs]. apply total_mono.
  intros c Hc. by apply (size_msize h C).
Qed.

Lemma size_dom_le h C : good_heap h C -> (base.size C <= base.size h)%nat.
Proof using Type.
  intros [_ Hg]. rewrite <- (size_dom (D := gset nat) h). apply subseteq_size. intros c Hc.
  destruct (Hg c Hc) as (b & Hb & _). apply elem_of_dom. by eexists.
Qed.

Lemma inv_start h V n :
  good_heap h V -> n = total (size_in h) V -> inv h V (Conv h ∅ (repeat zero_insn (Z.to_nat n)) n) ∅.
Proof using Type.
  intros Hg ->. assert (Hn : 0 <= total (size_in h) V).
  { apply total_nonneg. intros c Hc. pose proof (size_in_pos h V c Hg Hc). lia. }
  split; cbn; try set_solver.
  - intros c. destruct (h !! c) as [b|] eqn:Hb; [|done]. exists (b_offset b). by destruct b.
  - unfold lenZ. rewrite repeat_length. lia.
  - by rewrite difference_empty_L.
  - lia.
  - intros i Hi. apply List.nth_error_repeat with (a := zero_insn) in Hi.
    rewrite <- Hi. clear Hi. generalize (repeat zero_insn (Z.to_nat (total (size_in h) V))).
    intros l. revert i. induction l as [|x l IH]; intros [|i]; try done. apply IH.
Qed.

Context (malloc_ok : Z -> bool) (Hmalloc : forall n, malloc_ok n = true).

(** One turn of the loop. *)
Lemma turn h C :
  ready h C ->
  exists n V, count_stmts (S (base.size h)) h ∅ (Some root) = Some (n, V) /\ V ⊆ C /\
  ((exists s, convert_code_r malloc_ok (S (base.size h)) (Some root)
                (Conv h ∅ (repeat zero_insn (Z.to_nat n)) n) = Converted s /\
              image (c_heap s) V (c_fp s) /\ lenZ (c_fp s) = n) \/
   exists s, convert_code_r malloc_ok (S (base.size h)) (Some root)
                (Conv h ∅ (repeat zero_insn (Z.to_nat n)) n) = Retry s /\ raised (c_heap s) h V).
Proof using Hmalloc.
  intros Hr. pose proof Hr as [Hg Hroot Hgr Ht Hf Hs].
  destruct (count_stmts_spec h C Hg (ready_size_in h C Hr) (S (base.size h)) (Some root) ∅)
    as (n & V & Hcount & _ & Hin & HV & Hn & Hcl & Hmin); [by intros ? [= <-]|set_solver| |].
  { rewrite difference_empty_L. pose proof (size_dom_le h C Hg). lia. }
  rewrite difference_empty_L in Hn. pose proof (Hin root eq_refl) as HrV.
  assert (HclV : closed h V) by (intros c blk d Hc; apply (Hcl c blk d Hc); set_solver).
  pose proof (ready_sub h C V Hr HV HrV HclV) as HrVs. pose proof (r_good _ _ HrVs) as HgV.
  exists n, V. split; [done|]. split; [done|].
  destruct (convert_ok h V HgV (ready_size_in h V HrVs) malloc_ok Hmalloc (S (base.size h)) (Some root)
    (Conv h ∅ (repeat zero_insn (Z.to_nat n)) n) ∅) as [(s & P & Hc & Hd)|H]; [|..|by right].
  { by apply inv_start. }
  { intros ? [= <-]. split; [done|]. split; [|set_solver].
    eapply graph_acc; [exact Hgr|by eapply returns_acc..]. }
  { cbn. rewrite difference_empty_L. pose proof (size_dom_le h V HgV). lia. }
  left. exists s. split; [done|]. destruct Hd as [Hi _ HrP _ _ _ Hhead].
  assert (HP : P = V).
  { apply leibniz_equiv. intros c. split.
    - intros Hc'. by apply (i_in _ _ _ _ Hi), (i_marked _ _ _ _ Hi).
    - intros HcV. assert (HX : V ⊆ ∅ ∪ P); [|set_solver]. apply Hmin; [|exact HrP].
      intros c' blk d Hc' Hb Hd. by apply (i_succ _ _ _ _ Hi c' blk). }
  subst P. pose proof (i_heap _ _ _ _ Hi) as He. pose proof (i_tail _ _ _ _ Hi) as Htail.
  rewrite difference_diag_L, total_empty in Htail. pose proof (i_len _ _ _ _ Hi) as Hlen.
  rewrite Hn. split; [|done]. split.
  - eapply ready_grown; [exact HrVs|]. by apply eqv_grown.
  - rewrite Hlen. by apply ready_size_in.
  - apply (i_placed _ _ _ _ Hi).
  - intros c blk Hc' Hb. rewrite Hlen, <- Htail. by apply (i_range _ _ _ _ Hi c).
  - intros i Hii. apply (i_cover _ _ _ _ Hi). lia.
  - destruct (Hhead root eq_refl) as (blk & Hb & Ho); [cbn; set_solver|]. exists blk. by rewrite Ho.
Qed.

(** Every turn but the last uses a short branch up. *)
Lemma loop_ok fuel h C :
  ready h C -> total (slack h) C < Z.of_nat fuel ->
  exists fp h' V, icode_to_fcode malloc_ok fuel h root = Fcode fp (lenZ fp) /\ image h' V fp.
Proof using Hmalloc.
  revert h. induction fuel as [|fuel IH]; intros h Hr Hf.
  { pose proof (total_nonneg (slack h) C) as Hn. exfalso. enough (0 <= total (slack h) C) by lia.
    apply Hn. intros c Hc. by apply (slack_range h C c (r_good _ _ Hr)). }
  destruct (turn h C Hr) as (n & V & Hcount & HV & Hturn). cbn [icode_to_fcode].
  rewrite Hcount, Hmalloc. cbn [negb].
  destruct Hturn as [(s & -> & Him & <-)|(s & -> & Hra)]; [by exists (c_fp s), (c_heap s), V|].
  assert (HraC : raised (c_heap s) h C).
  { destruct Hra as (c & b0 & Hc & Hra). exists c, b0. split; [by apply HV|done]. }
  apply IH.
  - eapply ready_grown; [exact Hr|]. by eapply raised_grown.
  - pose proof (raised_slack h (c_heap s) C C (r_good _ _ Hr) ltac:(done) HraC). lia.
Qed.
End Loop.

(** ** The program of an image *)

Section Image.
Context (e : bexp) (root bt bf : nat) (vt vf : Z) (h : heap) (V : gset nat) (fp : list bpf_insn).
Context (Him : image e root bt bf vt vf h V fp).

(** The instruction at [i] belongs to a block. *)
Lemma image_at i x :
  fp !! i = Some x ->
  exists c blk xs n j, c ∈ V /\ h !! c = Some blk /\ good_block blk /\ block_insns h blk xs /\
    0 <= b_offset blk /\ b_offset blk + bsize blk <= lenZ fp /\
    Z.of_nat i = b_offset blk + Z.of_nat j /\
    lenZ (b_stmts blk) + lenZ xs + Z.of_nat n = bsize blk /\
    (map (fun s => insn_of (op_of s)) (b_stmts blk) ++ xs ++ replicate n zero_insn) !! j = Some x.
Proof using Him.
  intros Hx. pose proof (lookup_lt_Some _ _ _ Hx) as Hi.
  destruct (im_cover _ _ _ _ _ _ _ _ _ Him (Z.of_nat i)) as (c & blk & Hc & Hb & Hr); [unfold lenZ; lia|].
  destruct (im_range _ _ _ _ _ _ _ _ _ Him c blk Hc Hb) as [Ho1 Ho2].
  destruct (im_placed _ _ _ _ _ _ _ _ _ Him c Hc) as (blk' & xs & n & Hb' & Hxs & [_ Hat] & Hl).
  rewrite Hb in Hb'. injection Hb' as <-.
  destruct (r_good _ _ _ _ _ _ _ _ (im_ready _ _ _ _ _ _ _ _ _ Him)) as [_ Hg].
  destruct (Hg c Hc) as (blk' & Hb' & Hgb). rewrite Hb in Hb'. injection Hb' as <-.
  set (ys := _ ++ _) in *. exists c, blk, xs, n, (i - Z.to_nat (b_offset blk))%nat.
  split_and!; try done; [lia| |].
  - rewrite <- Hl. unfold ys, lenZ. rewrite !length_app, length_map, length_replicate. lia.
  - destruct (lookup_lt_is_Some_2 ys (i - Z.to_nat (b_offset blk))) as [y Hy]; [unfold lenZ in *; lia|].
    fold ys. rewrite Hy. pose proof (Hat _ _ Hy) as Hx'.
    replace (Z.to_nat (b_offset blk) + (i - Z.to_nat (b_offset blk)))%nat with i in Hx' by lia. congruence.
Qed.

Lemma image_succ c blk d :
  c ∈ V -> h !! c = Some blk -> d ∈ succs blk ->
  exists bd, h !! d = Some bd /\ b_offset bd < lenZ fp.
Proof using Him.
  intros Hc Hb Hd. destruct (r_good _ _ _ _ _ _ _ _ (im_ready _ _ _ _ _ _ _ _ _ Him)) as [Hcl Hg].
  pose proof (Hcl c blk d Hc Hb Hd) as HdV. destruct (Hg d HdV) as (bd & Hbd & _). exists bd.
  split; [done|]. pose proof (im_range _ _ _ _ _ _ _ _ _ Him d bd HdV Hbd).
  pose proof (size_in_pos h V d (conj Hcl Hg) HdV) as Hp. unfold size_in in Hp. rewrite Hbd in Hp. lia.
Qed.

Lemma image_fine i x : fp !! i = Some x -> fine (lenZ fp) (Z.of_nat i) x.
Proof using Him.
  intros Hx. pose proof (im_len _ _ _ _ _ _ _ _ _ Him) as Hlen.
  destruct (image_at i x Hx) as (c & blk & xs & n & j & Hc & Hb & (Hss & Hlt & Hlf & _ & Hbr) & Hxs & Ho1 & Ho2 & Hi & Hl & Hj).
  unfold flag in *.
  apply lookup_app_Some in Hj as [Hj|[Hj1 Hj]].
  { rewrite list_lookup_fmap in Hj. destruct (b_stmts blk !! j) as [s|] eqn:Hs; [|done]. injection Hj as <-.
    apply fine_straight. rewrite Forall_map in Hss. exact (Forall_lookup_1 _ _ _ _ Hss Hs). }
  rewrite length_map in *. apply lookup_app_Some in Hj as [Hj|[_ Hj]].
  2: { apply lookup_replicate in Hj as [-> _]. apply fine_zero. }
  unfold block_insns in Hxs. unfold good_branch in Hbr.
  destruct (b_jt blk) as [t|] eqn:Et, (b_jf blk) as [f|] eqn:Ef; try done.
  - destruct Hbr as (jj & ss & Hd). destruct Hxs as (bt' & bf' & Ht & Hf & _ & _ & Hot & Hof & ->).
    destruct (image_succ c blk t Hc Hb (succs_jt _ _ Et)) as (bd & Hbd & Hrt).
    rewrite Ht in Hbd. injection Hbd as <-.
    destruct (image_succ c blk f Hc Hb (succs_jf _ _ Ef)) as (bd & Hbd & Hrf).
    rewrite Hf in Hbd. injection Hbd as <-.
    replace (Z.of_nat i) with (b_offset blk + lenZ (b_stmts blk) + Z.of_nat (j - length (b_stmts blk)))
      by (unfold lenZ; lia).
    unfold branch_off in *.
    eapply fine_branch; [exact Hd| | | | | | | |exact Hj]; unfold lenZ in *; lia.
  - subst xs. destruct Hbr as ((o & Hd & Ho) & _). replace (j - length (b_stmts blk))%nat with 0%nat in Hj.
    2: { apply lookup_lt_Some in Hj. simpl in Hj. lia. }
    injection Hj as <-. by eapply fine_ret.
Qed.

(** The block at the end leads nowhere, so it returns. *)
Lemma image_last x : last fp = Some x -> BPF_CLASS (code x) = BPF_RET.
Proof using Him.
  intros Hx. rewrite last_lookup in Hx. pose proof (lookup_lt_Some _ _ _ Hx) as Hi0.
  destruct (image_at _ x Hx) as (c & blk & xs & n & j & Hc & Hb & (Hss & Hlt & Hlf & _ & Hbr) & Hxs & Ho1 & Ho2 & Hi & Hl & Hj).
  unfold flag in *. assert (Hlen : length fp = S (pred (length fp))) by lia.
  pose proof (lookup_lt_Some _ _ _ Hj) as Hjl. rewrite !length_app, length_map, length_replicate in Hjl.
  unfold block_insns in Hxs. unfold good_branch in Hbr.
  destruct (b_jt blk) as [t|] eqn:Et, (b_jf blk) as [f|] eqn:Ef; try done.
  - exfalso. destruct Hxs as (bt' & bf' & Ht & Hf & Hot & _).
    destruct (image_succ c blk t Hc Hb (succs_jt _ _ Et)) as (bd & Hbd & Hrt).
    rewrite Ht in Hbd. injection Hbd as <-. unfold lenZ in *. lia.
  - destruct Hbr as ((o & Hd & Ho) & H1 & H2). subst xs. unfold bsize in *.
    rewrite straight_slength in * by done. unfold lenZ in *. simpl in *.
    assert (n = 0%nat) by lia. assert (j = length (b_stmts blk)) by lia. subst.
    rewrite lookup_app_r in Hj by (rewrite length_map; lia). rewrite length_map, Nat.sub_diag in Hj.
    injection Hj as <-. cbn [code]. apply decode_Some in Hd. rewrite Hd. by destruct Ho as [->| ->].
Qed.

Lemma image_valid :
  prog_ok fp /\ forallb ja_forward fp = true /\ bpf_validate fp = true.
Proof using Him.
  assert (Hfine : forall i x, fp !! i = Some x -> fine (lenZ fp) (Z.of_nat i) x) by apply image_fine.
  split; [|split].
  - apply Forall_lookup. intros i x Hx. apply (Hfine i x Hx).
  - apply List.forallb_forall. intros x Hx%list_elem_of_In.
    apply list_elem_of_lookup in Hx as [i Hx]. apply (Hfine i x Hx).
  - unfold bpf_validate.
    destruct (im_first _ _ _ _ _ _ _ _ _ Him) as (blk & Hb & Ho).
    pose proof (im_ready _ _ _ _ _ _ _ _ _ Him) as Hr.
    pose proof (im_range _ _ _ _ _ _ _ _ _ Him root blk (r_root _ _ _ _ _ _ _ _ Hr) Hb) as Hrg.
    pose proof (size_in_pos h V root (r_good _ _ _ _ _ _ _ _ Hr) (r_root _ _ _ _ _ _ _ _ Hr)) as Hp.
    unfold size_in in Hp. rewrite Hb in Hp. unfold lenZ in *.
    destruct (Z.ltb_spec (Z.of_nat (length fp)) 1); [lia|].
    rewrite validate_from_intro by (intros n p Hn; apply (Hfine n p Hn)).
    destruct (last fp) as [x|] eqn:Hx; [|by apply last_None in Hx as ->].
    rewrite (image_last x Hx). done.
Qed.

(** The verdict of the program: an expression that holds is answered with
    [vt], and one that does not with [vf]. *)
Definition verdict (r : outcome + (bool * machine)) : outcome :=
  match r with
  | inl o => o
  | inr (v, _) => Returned (u32 (if v then vt else vf))
  end.

Lemma leads_returns t v bd p wirelen buflen m :
  t ∈ V -> returns h t v -> h !! t = Some bd ->
  leads fp p wirelen buflen (with_pc m (b_offset bd)) (Returned (u32 v)).
Proof using Him.
  intros Ht (blk & Hb & Hs) Hbd. rewrite Hbd in Hb. injection Hb as <-.
  destruct (im_placed _ _ _ _ _ _ _ _ _ Him t Ht) as (blk & xs & n & Hb & Hxs & Hat & Hl).
  rewrite Hbd in Hb. injection Hb as <-. injection Hs as H1 H2 H3 H4 H5.
  unfold block_insns in Hxs. rewrite H4, H5 in Hxs. subst xs. rewrite H1, H2, H3 in Hat. cbn [map app] in Hat.
  apply at_head in Hat as [Hn _]. apply leads_done. unfold step. cbn [rpc with_pc]. rewrite Hn.
  cbn [code]. by change (decode _) with (Some RetK).
Qed.

Lemma image_run mem0 p wirelen buflen :
  straight e ->
  bpf_filter (S (length fp)) mem0 (Some fp) p wirelen buflen =
  Some (verdict (beval p wirelen buflen e (init_machine mem0))).
Proof using Him.
  intros Hs. destruct image_valid as (Hok & Hfwd & Hval).
  destruct (bpf_filter_terminates fp p wirelen buflen mem0 Hok Hval Hfwd) as [o Ho]. rewrite Ho. f_equal.
  cbn [bpf_filter] in Ho. pose proof (im_ready _ _ _ _ _ _ _ _ _ Him) as [[Hcl Hg] Hroot Hgr Ht Hf _].
  destruct (graph_closed h V root e bt bf Hcl Hgr Hroot) as [HbtV HbfV].
  destruct (Hg bt HbtV) as (dt & Hdt & _), (Hg bf HbfV) as (df & Hdf & _).
  destruct (im_first _ _ _ _ _ _ _ _ _ Him) as (blk & Hb & Hoff).
  assert (Hl : leads fp p wirelen buflen (with_pc (init_machine mem0) (b_offset blk))
                 (verdict (beval p wirelen buflen e (init_machine mem0)))).
  { eapply (leads_graph fp p wirelen buflen h V); try done; [apply (im_placed _ _ _ _ _ _ _ _ _ Him)|].
    destruct (beval _ _ _ e _) as [r|[[] m]]; cbn [verdict];
      [done|by apply (leads_returns bt)|by apply (leads_returns bf)]. }
  destruct Hl as [fuel Hl]. rewrite Hoff in Hl. change (with_pc _ 0) with (init_machine mem0) in Hl.
  apply (run_fuel_mono _ _ _ _ _ _ (fuel + S (length fp))) in Hl; [|lia].
  apply (run_fuel_mono _ _ _ _ _ _ (fuel + S (length fp))) in Ho; [|lia]. congruence.
Qed.
End Image.

(** ** Flow graphs of expressions *)

(** Room for the instructions of the leaves, with all their long jumps. *)
Fixpoint esize (e : bexp) : Z :=
  match e with
  | ELeaf ss _ _ => lenZ ss + 3
  | EAnd e1 e2 | EOr e1 e2 => esize e1 + esize e2
  | ENot e => esize e
  end.

(** The block at [t] is one of [gen_retblk]. *)
Definition ret_block (h : heap) (t : nat) (v : Z) : Prop :=
  exists blk, h !! t = Some blk /\ shape blk = ([], BPF_RET .| BPF_K, v, None, None) /\
              b_longjt blk = 0 /\ b_longjf blk = 0.

Lemma ret_block_returns h t v : ret_block h t v -> returns h t v.
Proof. intros (blk & H1 & H2 & _). by exists blk. Qed.

Lemma msize_nonneg h c : 0 <= msize h c.
Proof. unfold msize, slength. destruct (h !! c); lia. Qed.

Lemma graph_blocks h b e t f :
  graph h b e t f -> straight e ->
  exists D, b ∈ D /\ total (msize h) D <= esize e /\
    forall c, c ∈ D -> exists blk, h !! c = Some blk /\ good_block blk /\
      forall d, d ∈ succs blk -> d ∈ D \/ d = t \/ d = f.
Proof.
  assert (Hunion : forall D1 D2 n1 n2, total (msize h) D1 <= n1 -> total (msize h) D2 <= n2 ->
    total (msize h) (D1 ∪ D2) <= n1 + n2).
  { intros D1 D2 n1 n2 H1 H2. pose proof (total_union_le (msize h) D1 D2 ltac:(intros; apply msize_nonneg)).
    lia. }
  induction 1 as [b blk t f Hb Ht Hf Hlt Hlf|b e1 e2 m t f _ IH1 _ IH2|b e1 e2 m t f _ IH1 _ IH2|b e t f _ IH];
    intros Hs; cbn [straight esize] in *.
  - destruct Hs as (Hss & (j & s & Hd) & _). exists {[b]}. split; [set_solver|]. split.
    + rewrite total_singleton. unfold msize. rewrite Hb, straight_slength by done.
      unfold lenZ. rewrite length_map. lia.
    + intros c ->%elem_of_singleton. exists blk. split; [done|]. split.
      * unfold good_block, good_branch. rewrite Ht, Hf. split_and!; try done; by exists j, s.
      * intros d [Hd'|Hd']%elem_of_succs; right; [left|right]; congruence.
  - destruct Hs as [Hs1 Hs2]. destruct (IH1 Hs1) as (D1 & H1 & H2 & H3), (IH2 Hs2) as (D2 & H4 & H5 & H6).
    exists (D1 ∪ D2). split; [set_solver|]. split; [by apply Hunion|].
    intros c [Hc|Hc]%elem_of_union; [destruct (H3 c Hc) as (blk & Hb & Hg & Hd)|
                                     destruct (H6 c Hc) as (blk & Hb & Hg & Hd)];
      exists blk; (split; [done|]); (split; [done|]); intros d Hdd; destruct (Hd d Hdd) as [?|[->| ->]];
      set_solver.
  - destruct Hs as [Hs1 Hs2]. destruct (IH1 Hs1) as (D1 & H1 & H2 & H3), (IH2 Hs2) as (D2 & H4 & H5 & H6).
    exists (D1 ∪ D2). split; [set_solver|]. split; [by apply Hunion|].
    intros c [Hc|Hc]%elem_of_union; [destruct (H3 c Hc) as (blk & Hb & Hg & Hd)|
                                     destruct (H6 c Hc) as (blk & Hb & Hg & Hd)];
      exists blk; (split; [done|]); (split; [done|]); intros d Hdd; destruct (Hd d Hdd) as [?|[->| ->]];
      set_solver.
  - destruct (IH Hs) as (D & H1 & H2 & H3). exists D. split; [done|]. split; [done|].
    intros c Hc. destruct (H3 c Hc) as (blk & Hb & Hg & Hd). exists blk. split; [done|]. split; [done|].
    intros d Hdd. destruct (Hd d Hdd) as [?|[?|?]]; tauto.
Qed.

Lemma ret_block_good h t v :
  ret_block h t v -> exists blk, h !! t = Some blk /\ good_block blk /\ succs blk = [] /\ msize h t = 3.
Proof.
  intros (blk & Hb & Hs & Hlt & Hlf). injection Hs as H1 H2 H3 H4 H5. exists blk.
  split; [done|]. unfold good_block, good_branch, succs, msize, flag. rewrite Hb, H1, H2, H4, H5, Hlt, Hlf.
  split_and!; try done; auto. by exists RetK; split; [|left].
Qed.

(** The instructions that the blocks of a heap take at most. *)
Definition heap_size (h : heap) : Z := total (msize h) (dom h).
Lemma heap_size_bound h (C : gset nat) : (forall c, c ∈ C -> is_Some (h !! c)) -> total (msize h) C <= heap_size h.
Proof.
  intros HC. unfold heap_size. assert (Hs : C ⊆ dom h) by (intros c Hc; by apply elem_of_dom, HC).
  rewrite (total_difference (msize h) (dom h) C) by done.
  pose proof (total_nonneg (msize h) (dom h ∖ C) ltac:(intros; apply msize_nonneg)). lia.
Qed.

Lemma graph_ready h root e bt bf vt vf :
  graph h root e bt bf -> straight e -> ret_block h bt vt -> ret_block h bf vf ->
  esize e + 6 < 2 ^ 31 \/ heap_size h < 2 ^ 31 ->
  exists C, ready e root bt bf vt vf h C.
Proof.
  intros Hgr Hs Ht Hf Hsz. destruct (graph_blocks h root e bt bf Hgr Hs) as (D & Hroot & Hle & HD).
  destruct (ret_block_good h bt vt Ht) as (dt & Hdt & Hgt & Hst & Hmt).
  destruct (ret_block_good h bf vf Hf) as (df & Hdf & Hgf & Hsf & Hmf).
  assert (Hdom : forall c, c ∈ D ∪ ({[bt]} ∪ {[bf]}) -> is_Some (h !! c)).
  { intros c Hc. rewrite !elem_of_union, !elem_of_singleton in Hc.
    destruct Hc as [Hc|[->| ->]]; [|by eexists..]. destruct (HD c Hc) as (blk & Hb & _). by exists blk. }
  exists (D ∪ ({[bt]} ∪ {[bf]})). split.
  - split.
    + intros c blk d Hc Hb Hd. rewrite !elem_of_union, !elem_of_singleton in Hc. destruct Hc as [Hc|[->| ->]].
      * destruct (HD c Hc) as (blk' & Hb' & _ & Hd'). rewrite Hb in Hb'. injection Hb' as <-.
        destruct (Hd' d Hd) as [?|[->| ->]]; set_solver.
      * rewrite Hdt in Hb. injection Hb as <-. rewrite Hst in Hd. set_solver.
      * rewrite Hdf in Hb. injection Hb as <-. rewrite Hsf in Hd. set_solver.
    + intros c Hc. rewrite !elem_of_union, !elem_of_singleton in Hc.
      destruct Hc as [Hc|[->| ->]]; [|by eexists..].
      destruct (HD c Hc) as (blk & Hb & Hg & _). by exists blk.
  - set_solver.
  - done.
  - by apply ret_block_returns.
  - by apply ret_block_returns.
  - pose proof (total_union_le (msize h) D ({[bt]} ∪ {[bf]}) ltac:(intros; apply msize_nonneg)) as H1.
    pose proof (total_union_le (msize h) {[bt]} {[bf]} ltac:(intros; apply msize_nonneg)) as H2.
    pose proof (heap_size_bound _ _ Hdom). rewrite !total_singleton in H2. lia.
Qed.

Lemma slack_fuel h C : good_heap h C -> total (slack h) C < Z.of_nat (fcode_fuel h).
Proof.
  intros Hg. eapply Z.le_lt_trans; [apply (total_mono _ (fun _ => 2))|].
  - intros c Hc. by apply (slack_range h C).
  - rewrite total_const. pose proof (size_dom_le h C Hg). unfold fcode_fuel. lia.
Qed.

Lemma icode_to_fcode_ok malloc_ok h root e bt bf vt vf :
  (forall n, malloc_ok n = true) -> graph h root e bt bf -> straight e ->
  ret_block h bt vt -> ret_block h bf vf -> esize e + 6 < 2 ^ 31 \/ heap_size h < 2 ^ 31 ->
  exists fp, icode_to_fcode malloc_ok (fcode_fuel h) h root = Fcode fp (lenZ fp) /\
    prog_ok fp /\ bpf_validate fp = true /\
    forall mem0 p wirelen buflen,
      bpf_filter (S (length fp)) mem0 (Some fp) p wirelen buflen =
      Some (verdict vt vf (beval p wirelen buflen e (init_machine mem0))).
Proof.
  intros Hm Hgr Hs Ht Hf Hsz. destruct (graph_ready _ _ _ _ _ _ _ Hgr Hs Ht Hf Hsz) as [C Hr].
  destruct (loop_ok e root bt bf vt vf malloc_ok Hm (fcode_fuel h) h C Hr) as (fp & h' & V & Hc & Him).
  { apply slack_fuel, (r_good _ _ _ _ _ _ _ _ Hr). }
  destruct (image_valid _ _ _ _ _ _ _ _ _ Him) as (Hok & _ & Hval). exists fp. split_and!; try done.
  intros mem0 p wirelen buflen. by eapply image_run.
Qed.

(** C3: The flow graph of an expression is converted to a program that the
    checker accepts and that decides the expression: on every packet it answers
    what the graph's return block says, or ends as the evaluation of the
    expression does.  The conversion always succeeds, and no branch is lost
    however far its target is. *)
Theorem icode_to_fcode_correct malloc_ok h root e bt bf vt vf :
  (forall n, malloc_ok n = true) -> graph h root e bt bf -> straight e ->
  ret_block h bt vt -> ret_block h bf vf -> esize e + 6 < 2 ^ 31 ->
  exists fp, icode_to_fcode malloc_ok (fcode_fuel h) h root = Fcode fp (lenZ fp) /\
    prog_ok fp /\ bpf_validate fp = true /\
    forall mem0 p wirelen buflen,
      bpf_filter (S (length fp)) mem0 (Some fp) p wirelen buflen =
      Some (verdict vt vf (beval p wirelen buflen e (init_machine mem0))).
Proof. intros Hm Hgr Hs Ht Hf Hsz. apply (icode_to_fcode_ok _ h root e bt bf); auto. Qed.

Lemma icode_to_fcode_correct_witness :
  let h := <[0%nat := Block [Slist 3 0x28 12 None None] 0x15 0x800 (Some 1%nat) (Some 2%nat) false 0 0 0 0]>
    (<[1%nat := Block [] 6 96 None None false 1 0 0 0]>
    (<[2%nat := Block [] 6 0 None None false 2 0 0 0]> (∅ : heap))) in
  exists fp, icode_to_fcode (fun _ => true) (fcode_fuel h) h 0%nat = Fcode fp (lenZ fp) /\ bpf_validate fp = true.
Proof.
  intros h. destruct (icode_to_fcode_correct (fun _ => true) h 0%nat
    (ELeaf [(0x28, 12)] 0x15 0x800) 1%nat 2%nat 96 0) as (fp & H1 & _ & H2 & _).
  - done.
  - exact (graph_leaf h 0%nat _ 1%nat 2%nat eq_refl eq_refl eq_refl (or_introl eq_refl) (or_introl eq_refl)).
  - split; [|split; [by exists Jeq, K|done]]. constructor; [|constructor]. exists (LdAbs H). done.
  - exists (Block [] 6 96 None None false 1 0 0 0). split; [vm_compute; reflexivity|]. repeat split; reflexivity.
  - exists (Block [] 6 0 None None false 2 0 0 0). split; [vm_compute; reflexivity|]. repeat split; reflexivity.
  - vm_compute. reflexivity.
  - exists fp. split; assumption.
Defined.
