(* ===== verification/OptimizeSpec.v ===== *)
(** The optimizer's passes over the flow graph: what running a graph means, and
    that the sharing of equal blocks ([intern_blocks]) ends, keeps that meaning
    and leaves no two equal blocks. *)
From S2P Require Import Prelude CFile Bpf BpfFilter Gencode GencodeSpec Icode IcodeSpec IcodeCorrect OptFlow OptValue OptValueSpec Optimize.

#[local] Open Scope nat_scope.
#[local] Open Scope opt_scope.

(** ** Loops *)

(** A loop whose body keeps [P], and never fails where [P] holds, ends with a
    state that has [P]. *)
Lemma each_inr {A S} (P : S -> Prop) (f : A -> S -> res S) l s :
  (forall x s, x ∈ l -> P s -> exists s', f x s = inr s' /\ P s') ->
  P s -> exists s', each f l s = inr s' /\ P s'.
Proof.
  revert s. induction l as [|x l IH]; intros s Hf Hs; [by exists s|].
  destruct (Hf x s ltac:(by left) Hs) as (s1 & E1 & H1). cbn [each]. rewrite E1. cbn [rbind].
  apply IH; [|done]. intros y s2 Hy. apply Hf. by right.
Qed.

(** The same with the elements that have had their turn. *)
Lemma each_prefix {A S} (P : list A -> S -> Prop) (f : A -> S -> res S) l s s' :
  P [] s -> (forall l1 x l2 s s', l = (l1 ++ x :: l2)%list -> P l1 s -> f x s = inr s' -> P (l1 ++ [x])%list s') ->
  each f l s = inr s' -> P l s'.
Proof.
  intros H0 Hs. enough (H : forall l2 l1 s, l = (l1 ++ l2)%list -> P l1 s -> each f l2 s = inr s' -> P l s') by (by apply (H l [])).
  induction l2 as [|x l2 IH]; intros l1 s1 E Hp H; cbn [each] in H.
  - rewrite app_nil_r in E. subst l1. by injection H as <-.
  - apply rbind_inr in H as (s2 & H1 & H2). apply (IH (l1 ++ [x])%list s2); [by rewrite <- app_assoc| |done]. by eapply Hs.
Qed.

Lemma each_prefix_inr {A S} (P : list A -> S -> Prop) (f : A -> S -> res S) l s :
  P [] s -> (forall l1 x l2 s, l = l1 ++ x :: l2 -> P l1 s -> exists s', f x s = inr s' /\ P (l1 ++ [x]) s') ->
  exists s', each f l s = inr s' /\ P l s'.
Proof.
  intros H0 Hs. enough (H : forall l2 l1 s, l = l1 ++ l2 -> P l1 s -> exists s', each f l2 s = inr s' /\ P l s') by (by apply (H l [])).
  induction l2 as [|x l2 IH]; intros l1 s1 E Hp; cbn [each].
  - rewrite app_nil_r in E. subst l1. by exists s1.
  - destruct (Hs l1 x l2 s1 E Hp) as (s2 & -> & H2). cbn [rbind]. apply (IH (l1 ++ [x])); [by rewrite <- app_assoc|done].
Qed.

Lemma existsb_ext_in {A} (f g : A -> bool) l : (forall x, x ∈ l -> f x = g x) -> existsb f l = existsb g l.
Proof.
  induction l as [|x l IH]; intros Hf; [done|]. cbn [existsb]. rewrite Hf by by left.
  f_equal. apply IH. intros y Hy. apply Hf. by right.
Qed.

(** ** Running a flow graph *)

Section Run.
Context (p : list byte) (wirelen buflen : Z).

(** How a block ends after its statements: with an outcome, or at a successor. *)
Definition leave (blk : block) (m : machine) : outcome + option nat :=
  let i := Insn (b_code blk) 0 0 (u32 (b_k blk)) in
  match decode (b_code blk) with
  | Some (JmpIf j s) => inr (if test j (rA m) (operand m i s) then b_jt blk else b_jf blk)
  | Some o => match exec i p wirelen buflen m o with Done r => inl r | Next _ => inr None end
  | None => inl (Faulted (Aborted (b_code blk)))
  end.

(** The outcome of the run from block [b] on, through [fuel] blocks at most. *)
Fixpoint run_blocks (fuel : nat) (h : heap) (b : nat) (m : machine) : option outcome :=
  match fuel, h !! b with
  | S fuel, Some blk =>
      match effs p wirelen buflen (b_stmts blk) m with
      | Done o => Some o
      | Next m =>
          match leave blk m with
          | inl o => Some o
          | inr (Some t) => run_blocks fuel h t m
          | inr None => None
          end
      end
  | _, _ => None
  end.

(** The statements that are not deleted. *)
Definition active (l : list slist) : list (Z * Z) := map op_of (filter (fun s => sl_code s <> NOP) l).

Lemma active_cons s l : active (s :: l) = if (sl_code s =? NOP)%Z then active l else op_of s :: active l.
Proof.
  unfold active. rewrite filter_cons. destruct (Z.eqb_spec (sl_code s) NOP) as [E|E]; by case_decide.
Qed.

(** Only they matter to the effect of a list. *)
Lemma effs_active l l' m : active l = active l' -> effs p wirelen buflen l m = effs p wirelen buflen l' m.
Proof.
  assert (Hs : forall s l m, (sl_code s =? NOP)%Z = true -> effs p wirelen buflen (s :: l) m = effs p wirelen buflen l m).
  { intros s k mm Hs. cbn [effs]. unfold eff. by rewrite Hs. }
  assert (Hf : forall l m, effs p wirelen buflen l m =
    foldr (fun o k m => match eff p wirelen buflen (Slist 0 o.1 o.2 None None) m with Next m => k m | d => d end)
          Next (active l) m).
  { clear -Hs. induction l as [|s l IH]; intros m; [done|]. rewrite active_cons.
    destruct (sl_code s =? NOP)%Z eqn:E; [by rewrite Hs|]. cbn [effs foldr op_of fst snd].
    unfold eff at 2. cbn [sl_code sl_k]. fold (eff p wirelen buflen s m). by destruct (eff _ _ _ s m). }
  intros E. by rewrite !Hf, E.
Qed.

(** What [eq_blk] compares. *)
Definition content (b : block) : Z * Z * option nat * option nat * list (Z * Z) :=
  (b_code b, b_k b, b_jt b, b_jf b, active (b_stmts b)).

Lemma strip_active l : active (strip_nops l) = active l.
Proof. induction l as [|s l IH]; [done|]. rewrite active_cons. cbn [strip_nops]. destruct (_ =? _)%Z eqn:E; [done|]. by rewrite active_cons, E. Qed.

Lemma strip_cons l : match strip_nops l with [] => active l = [] | s :: l' => active l = op_of s :: active l' /\ length l' < length l end.
Proof.
  rewrite <- strip_active. induction l as [|s l IH]; [done|]. cbn [strip_nops]. destruct (_ =? _)%Z eqn:E.
  - destruct (strip_nops l); [done|]. destruct IH. split; [done|]. cbn [length]. lia.
  - rewrite active_cons, E. split; [done|]. cbn [length]. lia.
Qed.

Lemma eq_slist_spec fuel x y : length x < fuel -> eq_slist fuel x y = true <-> active x = active y.
Proof.
  revert x y. induction fuel as [|fuel IH]; intros x y Hf; [lia|]. cbn [eq_slist].
  pose proof (strip_cons x) as Hx. pose proof (strip_cons y) as Hy.
  destruct (strip_nops x) as [|a x'], (strip_nops y) as [|b y']; [..|destruct Hx as [-> Hx], Hy as [-> Hy]].
  - by rewrite Hx, Hy.
  - destruct Hy as [-> _]. rewrite Hx. split; intros [=].
  - destruct Hx as [-> _]. rewrite Hy. split; intros [=].
  - destruct (_ || _) eqn:E.
    + split; [done|]. intros [= E1 E2 _]. rewrite E1, E2, !Z.eqb_refl in E. done.
    + apply orb_false_iff in E as [E1 E2]. apply negb_false_iff, Z.eqb_eq in E1, E2.
      rewrite (IH x' y') by lia. unfold op_of. rewrite E1, E2. split; [by intros ->|]. intros H. by injection H.
Qed.

Lemma eq_blk_spec b0 b1 : eq_blk b0 b1 = true <-> content b0 = content b1.
Proof.
  unfold eq_blk, content. rewrite !andb_true_iff, !Z.eqb_eq, !bool_decide_eq_true, eq_slist_spec by lia.
  split; [by intros [[[[-> ->] ->] ->] ->]|]. intros H. by injection H.
Qed.

(** Blocks with the same content run alike. *)
Lemma run_content fuel h i j bi bj m : h !! i = Some bi -> h !! j = Some bj -> content bi = content bj ->
  run_blocks fuel h i m = run_blocks fuel h j m.
Proof.
  intros Hi Hj [= Ec Ek Et Ef Es]. destruct fuel; [done|]. cbn [run_blocks].
  rewrite Hi, Hj, (effs_active _ _ _ Es). unfold leave. by rewrite Ec, Ek, Et, Ef.
Qed.
End Run.

(** ** Flow graphs *)

(** The blocks [bs] return, or branch to blocks among [bs]. *)
Definition flow_block (bs : list nat) (blk : block) : Prop :=
  (BPF_CLASS (b_code blk) = BPF_RET /\ b_jt blk = None /\ b_jf blk = None) \/
  (BPF_CLASS (b_code blk) <> BPF_RET /\
   exists t f, b_jt blk = Some t /\ b_jf blk = Some f /\ t ∈ bs /\ f ∈ bs).
Definition flow_graph (h : heap) (bs : list nat) : Prop :=
  NoDup bs /\ forall b, b ∈ bs -> exists blk, h !! b = Some blk /\ flow_block bs blk.

Definition reachable (h : heap) (root b : nat) : Prop := rtc (fun x y => edge h y x) root b.

(** [make_marks] marks the blocks that can be reached. *)
Section Marks.
Context (h : heap) (bs : list nat) (Hg : flow_graph h bs).

Definition marks_more (M M' : gset nat) : Prop :=
  M ⊆ M' /\ M' ⊆ list_to_set bs /\ forall b c, b ∈ M' -> b ∉ M -> edge h c b -> c ∈ M'.

Lemma marks_more_trans M M' M'' b : marks_more ({[b]} ∪ M) M' -> marks_more M' M'' ->
  (forall c, edge h c b -> c ∈ M'') -> marks_more M M''.
Proof using Hg.
  intros (H1 & H2 & H3) (H4 & H5 & H6) Hb. split; [set_solver|]. split; [done|].
  intros x c Hx Hn He. destruct (decide (x = b)) as [->|Hne]; [by apply Hb|].
  destruct (decide (x ∈ M')) as [Hx'|Hx']; [apply H4; eapply H3; [done|set_solver|done]|by eapply H6].
Qed.

Lemma make_marks_ok fuel b M : b ∈ bs -> M ⊆ list_to_set bs ->
  (base.size (list_to_set bs ∖ M) < fuel)%nat ->
  exists M', make_marks fuel h b M = inr M' /\ b ∈ M' /\ marks_more M M'.
Proof using Hg.
  revert b M. induction fuel as [|fuel IH]; intros b M Hb HM Hf; [lia|]. cbn [make_marks].
  case_bool_decide as Hin; [exists M; split_and!; [done|done|split_and!; [done|done|set_solver]]|].
  destruct Hg as [_ Hg']. destruct (Hg' b Hb) as (blk & E & Hk). rewrite E. cbn [some_of rbind].
  assert (HM1 : {[b]} ∪ M ⊆ (list_to_set bs : gset nat)) by set_solver.
  destruct Hk as [(Hr & Ht & Hf')|(Hr & t & f & Ht & Hf' & Htb & Hfb)].
  - rewrite Hr, Z.eqb_refl. exists ({[b]} ∪ M). split_and!; [done|set_solver|]. split_and!; [set_solver|done|].
    intros x c Hx Hn (bx & Ex & Hc). assert (x = b) as -> by set_solver. simplify_eq.
    apply elem_of_succs in Hc. destruct Hc; congruence.
  - rewrite (proj2 (Z.eqb_neq _ _) Hr), Ht, Hf'. cbn [some_of rbind].
    destruct (IH t ({[b]} ∪ M) Htb HM1) as (M1 & -> & Ht1 & Hm1).
    { eapply size_shrinks; [set_solver|done|lia]. }
    cbn [rbind]. destruct (IH f M1 Hfb (proj1 (proj2 Hm1))) as (M2 & -> & Hf2 & Hm2).
    { eapply Nat.le_lt_trans; [apply (size_smaller _ ({[b]} ∪ M)), Hm1|eapply size_shrinks; [set_solver|done|lia]]. }
    exists M2. split_and!; [done| |].
    + apply Hm2, Hm1. set_solver.
    + eapply marks_more_trans; [done|done|]. intros c (bx & Ex & Hc). simplify_eq.
      apply elem_of_succs in Hc as [Hc|Hc]; simplify_eq; [by apply Hm2|done].
Qed.

Lemma flow_size : (base.size (list_to_set bs : gset nat) <= base.size h)%nat.
Proof using Hg.
  rewrite <- (size_dom (D := gset nat) h). apply subseteq_size. intros c Hc. apply elem_of_dom.
  destruct Hg as [_ Hg']. destruct (Hg' c) as (blk & E & _); [set_solver|by eexists].
Qed.

Lemma marks_reachable root : root ∈ bs -> exists M, make_marks (S (base.size h)) h root ∅ = inr M /\
  M ⊆ list_to_set bs /\ forall b, reachable h root b -> b ∈ M.
Proof using Hg.
  intros Hr. destruct (make_marks_ok (S (base.size h)) root ∅ Hr) as (M & E & HM & _ & Hs & Hc); [set_solver| |].
  { rewrite difference_empty_L. pose proof flow_size. lia. }
  exists M. split_and!; [done|done|]. apply rtc_ind_r; [done|].
  intros x y _ He Hx. eapply Hc; [exact Hx|set_solver|exact He].
Qed.
End Marks.

(** ** Links

    A block is linked to an equal one nearer to the end of the array. *)
Fixpoint rank (l : list nat) (b : nat) : nat :=
  match l with [] => 0 | x :: l => if bool_decide (x = b) then S (length l) else rank l b end.

Lemma rank_le l b : rank l b <= length l.
Proof. induction l as [|x l IH]; cbn [rank length]; [done|]. case_bool_decide; lia. Qed.

Lemma rank_pos l b : b ∈ l -> 0 < rank l b.
Proof. induction 1; cbn [rank]; case_bool_decide; try lia; done. Qed.

Lemma rank_inj l i j : i ∈ l -> rank l i = rank l j -> i = j.
Proof.
  induction l as [|x l IH]; intros Hi E; [by apply elem_of_nil in Hi|]. apply elem_of_cons in Hi. cbn [rank] in E.
  pose proof (rank_le l i). pose proof (rank_le l j). repeat case_bool_decide; try lia; try congruence.
  destruct Hi as [->|Hi]; [done|by apply IH].
Qed.

Section Links.
Context (h : heap) (marked : gset nat).

Lemma find_equal_ok blk js : (forall j, j ∈ js -> is_Some (h !! j)) ->
  exists o, find_equal h marked blk js = inr o /\
    match o with
    | Some j => j ∈ js /\ exists b, h !! j = Some b /\ content blk = content b
    | None => forall j b, j ∈ js -> j ∈ marked -> h !! j = Some b -> content blk <> content b
    end.
Proof using Type.
  induction js as [|j js IH]; intros Hj; cbn [find_equal].
  { exists None. split; [done|]. intros j b H%elem_of_nil. done. }
  destruct IH as (o & E & Ho); [intros k Hk; apply Hj; by right|].
  case_bool_decide as Hm; cbn [negb].
  - destruct (Hj j ltac:(by left)) as [b Eb]. rewrite Eb. cbn [some_of rbind]. destruct (eq_blk blk b) eqn:Eq.
    + exists (Some j). split; [done|]. split; [by left|]. exists b. split; [done|by apply eq_blk_spec].
    + rewrite E. exists o. split; [done|]. destruct o as [j'|].
      * destruct Ho as [Hj' Ho]. split; [by right|done].
      * intros j' b' [->|Hj']%elem_of_cons Hm' Eb' Hc; [|by eapply Ho].
        rewrite Eb in Eb'. injection Eb' as <-. apply eq_blk_spec in Hc. congruence.
  - rewrite E. exists o. split; [done|]. destruct o as [j'|].
    + destruct Ho as [Hj' Ho]. split; [by right|done].
    + intros j' b' [->|Hj']%elem_of_cons Hm' Eb'; [done|by eapply Ho].
Qed.

(** The links go to equal blocks of a lower rank, and the marked blocks without
    a link are all different. *)
Definition equals_block (i j : nat) : Prop :=
  exists bi bj, h !! i = Some bi /\ h !! j = Some bj /\ content bi = content bj.
Record linked (l : list nat) (m : links) : Prop := {
  link_lower i j : m !! i = Some j -> i ∈ l /\ j ∈ l /\ rank l j < rank l i /\ equals_block i j;
  link_distinct i j : i ∈ l -> j ∈ l -> i ∈ marked -> j ∈ marked -> m !! i = None -> m !! j = None ->
    equals_block i j -> i = j }.

Lemma equals_block_sym i j : equals_block i j -> equals_block j i.
Proof using Type. intros (bi & bj & Hi & Hj & E). by exists bj, bi. Qed.

Lemma rank_cons i l j : i ∉ l -> j ∈ l -> rank (i :: l) j = rank l j.
Proof using Type. intros Hi Hj. cbn [rank]. case_bool_decide; [by subst|done]. Qed.

(** A block more at the front, without a link. *)
Lemma linked_skip i l m : i ∉ l -> linked l m ->
  (forall j, j ∈ l -> i ∈ marked -> j ∈ marked -> ~ equals_block i j) -> linked (i :: l) m.
Proof using Type.
  intros Hi [H1 H2] Hn. split.
  - intros x y Hxy. destruct (H1 x y Hxy) as (Hx & Hy & Hr & He). rewrite !rank_cons by done.
    split_and!; [by right|by right|done|done].
  - intros x y [->|Hx]%elem_of_cons [->|Hy]%elem_of_cons Hmx Hmy Ex Ey He; [done|..|by eapply H2].
    + exfalso. by eapply Hn.
    + exfalso. eapply Hn; [exact Hx|done|done|by apply equals_block_sym].
Qed.

(** A block more at the front, linked to where the block [j] leads. *)
Lemma linked_link i j l m : i ∉ l -> linked l m -> j ∈ l -> equals_block i j ->
  linked (i :: l) (<[i := default j (m !! j)]> m).
Proof using Type.
  intros Hi [H1 H2] Hj He. split.
  - intros x y [[<- <-]|[Hne Hxy]]%lookup_insert_Some.
    + assert (Hd : default j (m !! j) ∈ l /\ equals_block i (default j (m !! j))).
      { destruct (m !! j) as [j'|] eqn:E; cbn [default]; [|done]. destruct (H1 j j' E) as (_ & Hj' & _ & He').
        split; [done|]. destruct He as (bi & bj & Ei & Ej & Ec), He' as (b1 & b2 & E1 & E2 & Ec').
        exists bi, b2. rewrite Ej in E1. injection E1 as <-. split_and!; [done|done|congruence]. }
      destruct Hd as [Hd He']. split_and!; [by left|by right| |done].
      rewrite rank_cons by done. cbn [rank]. rewrite bool_decide_true by done. pose proof (rank_le l (default j (m !! j))). lia.
    + destruct (H1 x y Hxy) as (Hx & Hy & Hr & He'). rewrite !rank_cons by done. split_and!; [by right|by right|done|done].
  - intros x y Hx Hy Hmx Hmy [Ex Hnx]%lookup_insert_None [Ey Hny]%lookup_insert_None He'.
    apply elem_of_cons in Hx as [->|Hx], Hy as [->|Hy]; try done. by eapply H2.
Qed.

Lemma link_equals_ok l : NoDup l -> (forall j, j ∈ l -> is_Some (h !! j)) ->
  exists m, link_equals h marked l ∅ = inr m /\ linked l m.
Proof using Type.
  induction 1 as [|i l Hi Hnd IH]; intros Hl; cbn [link_equals].
  { exists ∅. split; [done|]. split; [intros i j E; by rewrite lookup_empty in E|intros i j H%elem_of_nil; done]. }
  destruct IH as (m & -> & Hm); [intros j Hj; apply Hl; by right|]. cbn [rbind].
  case_bool_decide as Hmk; cbn [negb]; [|exists m; split; [done|by apply linked_skip]].
  destruct (Hl i ltac:(by left)) as [blk E]. rewrite E. cbn [some_of rbind].
  destruct (find_equal_ok blk l) as (o & -> & Ho); [intros j Hj; apply Hl; by right|]. cbn [rbind]. destruct o as [j|].
  - destruct Ho as (Hj & b & Eb & Hc). eexists. split; [done|]. apply linked_link; [done..|by exists blk, b].
  - exists m. split; [done|]. apply linked_skip; [done..|]. intros j Hj _ Hmj (bi & bj & Ei & Ej & Hc).
    rewrite E in Ei. injection Ei as <-. by eapply Ho.
Qed.
End Links.

(** ** Redirection *)

Section Redirect.
Context (m : links).

Definition follow (t : nat) : nat := default t (m !! t).
Definition relink (blk : block) : block :=
  match b_jt blk, b_jf blk with
  | Some t, Some f => with_jf (with_jt blk (Some (follow t))) (Some (follow f))
  | _, _ => blk
  end.
Definition moved (blk : block) : bool :=
  match b_jt blk, b_jf blk with
  | Some t, Some f => bool_decide (is_Some (m !! t)) || bool_decide (is_Some (m !! f))
  | _, _ => false
  end.
Definition moved_in (h : heap) (b : nat) : bool := match h !! b with Some blk => moved blk | None => false end.

Lemma redirect_ok bs h b blk c : h !! b = Some blk -> flow_block bs blk ->
  redirect m b (h, c) = inr (<[b := relink blk]> h, c || moved blk).
Proof using Type.
  intros E Hk. unfold redirect. rewrite E. cbn [some_of rbind]. unfold both, relink, moved.
  destruct Hk as [(_ & Ht & _)|(_ & t & f & -> & -> & _)]; [rewrite Ht|]; cbn [rbind].
  - by rewrite orb_false_r, insert_id.
  - by rewrite orb_assoc.
Qed.

Lemma redirects_ok bs l h c : NoDup l -> (forall b, b ∈ l -> exists blk, h !! b = Some blk /\ flow_block bs blk) ->
  exists h', each (redirect m) l (h, c) = inr (h', c || existsb (moved_in h) l) /\
    forall b, h' !! b = if decide (b ∈ l) then relink <$> h !! b else h !! b.
Proof using Type.
  intros Hnd. revert h c. induction Hnd as [|b l Hb Hnd IH]; intros h c Hl; cbn [each].
  - exists h. cbn [existsb]. rewrite orb_false_r. split; [done|]. intros x. by rewrite decide_False by apply not_elem_of_nil.
  - destruct (Hl b ltac:(by left)) as (blk & E & Hk). rewrite (redirect_ok bs h b blk c E Hk). cbn [rbind].
    destruct (IH (<[b := relink blk]> h) (c || moved blk)) as (h' & -> & Hh').
    { intros x Hx. rewrite lookup_insert_ne by (intros ->; done). apply Hl. by right. }
    exists h'. split.
    + f_equal. f_equal. cbn [existsb]. unfold moved_in at 2. rewrite E, <- orb_assoc. f_equal. f_equal.
      apply existsb_ext_in. intros x Hx. unfold moved_in. by rewrite lookup_insert_ne by (intros ->; done).
    + intros x. rewrite Hh'. destruct (decide (x = b)) as [->|Hne].
      * rewrite decide_False, decide_True, lookup_insert_eq, E by (done || by left). done.
      * rewrite lookup_insert_ne by done. destruct (decide (x ∈ l)) as [Hx|Hx].
        -- by rewrite decide_True by by right.
        -- rewrite decide_False; [done|]. rewrite elem_of_cons. tauto.
Qed.
End Redirect.

(** ** [intern_blocks] *)

(** The ranks of the branches of the blocks, which every turn but the last
    lowers. *)
Definition pot_of (bs : list nat) (o : option nat) : nat := match o with Some t => rank bs t | None => 0 end.
Definition pot_block (bs : list nat) (blk : block) : nat := pot_of bs (b_jt blk) + pot_of bs (b_jf blk).
Definition pot (bs : list nat) (h : heap) (l : list nat) : nat :=
  sum_list_with (fun b => match h !! b with Some blk => pot_block bs blk | None => 0 end) l.

Lemma pot_bound bs h l : pot bs h l <= 2 * length bs * length l.
Proof.
  assert (Ho : forall o, pot_of bs o <= length bs) by (intros [t|]; [apply rank_le|cbn; lia]).
  induction l as [|b l IH]; cbn [pot sum_list_with length]; [lia|]. fold (pot bs h l).
  assert (match h !! b with Some blk => pot_block bs blk | None => 0 end <= 2 * length bs); [|lia].
  destruct (h !! b) as [blk|]; [|lia]. unfold pot_block. pose proof (Ho (b_jt blk)). pose proof (Ho (b_jf blk)). lia.
Qed.

Section Turn.
Context (h h' : heap) (bs : list nat) (marked : gset nat) (m : links) (Hg : flow_graph h bs)
  (Hm : linked h marked bs m)
  (Hh' : forall b, h' !! b = if decide (b ∈ bs) then relink m <$> h !! b else h !! b).

Lemma follow_in t : t ∈ bs -> follow m t ∈ bs.
Proof using Hm.
  intros Ht. unfold follow. destruct (m !! t) as [u|] eqn:E; [|done]. by apply (link_lower _ _ _ _ Hm) in E as (_ & ? & _).
Qed.

Lemma follow_rank t : rank bs (follow m t) <= rank bs t /\ (is_Some (m !! t) -> rank bs (follow m t) < rank bs t).
Proof using Hm.
  unfold follow. destruct (m !! t) as [u|] eqn:E; cbn [default].
  - apply (link_lower _ _ _ _ Hm) in E as (_ & _ & Hr & _). cbn. lia.
  - split; [cbn; lia|]. intros [? [=]].
Qed.

Lemma relink_flow blk : flow_block bs blk -> flow_block bs (relink m blk).
Proof using Hm.
  intros [(Hc & Ht & Hf)|(Hc & t & f & Ht & Hf & Ht' & Hf')]; unfold relink; rewrite ?Ht, ?Hf; [left; done|].
  right. split; [done|]. exists (follow m t), (follow m f). split_and!; [done|done|by apply follow_in..].
Qed.

Lemma turn_lookup b blk : b ∈ bs -> h !! b = Some blk -> h' !! b = Some (relink m blk).
Proof using Hh'. intros Hb E. by rewrite Hh', decide_True, E. Qed.

Lemma turn_graph : flow_graph h' bs.
Proof using Hg Hh' Hm.
  destruct Hg as [Hnd Hk]. split; [done|]. intros b Hb. destruct (Hk b Hb) as (blk & E & Hf).
  exists (relink m blk). split; [by apply turn_lookup|by apply relink_flow].
Qed.

(** A block runs as before: a branch that moved leads to an equal block. *)
Lemma turn_run p wirelen buflen n b mm : b ∈ bs ->
  run_blocks p wirelen buflen n h' b mm = run_blocks p wirelen buflen n h b mm.
Proof using Hg Hh' Hm.
  revert b mm. induction n as [|n IH]; intros b mm Hb; [done|]. cbn [run_blocks].
  destruct (proj2 Hg b Hb) as (blk & E & Hk). rewrite (turn_lookup b blk Hb E), E.
  assert (Hr : forall t m1, t ∈ bs -> run_blocks p wirelen buflen n h' (follow m t) m1 = run_blocks p wirelen buflen n h t m1).
  { intros u m1 Hu. rewrite IH by by apply follow_in. unfold follow. destruct (m !! u) as [v|] eqn:Ev; [|done].
    apply (link_lower _ _ _ _ Hm) in Ev as (_ & _ & _ & bi & bj & Ei & Ej & Hc). symmetry. by eapply run_content. }
  unfold leave. destruct Hk as [(_ & Ht & Hf)|(_ & t & f & Ht & Hf & Ht' & Hf')]; unfold relink; rewrite ?Ht, ?Hf;
    cbn [with_jt with_jf b_stmts b_code b_k b_jt b_jf];
    (destruct (effs _ _ _ _ _); [|done]); (destruct (decode _) as [o|]; [|done]);
    destruct o; try (by destruct (exec _ _ _ _ _ _)); destruct (test _ _ _); by try apply Hr.
Qed.

Lemma relink_pot blk : flow_block bs blk ->
  pot_block bs (relink m blk) <= pot_block bs blk /\ (moved m blk = true -> pot_block bs (relink m blk) < pot_block bs blk).
Proof using Hm.
  intros [(_ & Ht & Hf)|(_ & t & f & Ht & Hf & _)]; unfold relink, moved, pot_block; rewrite ?Ht, ?Hf.
  { split; [cbn; rewrite ?Ht, ?Hf; cbn; lia|done]. }
  cbn [with_jt with_jf b_jt b_jf pot_of]. destruct (follow_rank t) as [H1 H2], (follow_rank f) as [H3 H4].
  split; [lia|]. intros [Hx%bool_decide_eq_true|Hx%bool_decide_eq_true]%orb_true_iff; [apply H2 in Hx|apply H4 in Hx]; lia.
Qed.

Lemma turn_pot l : (forall b, b ∈ l -> b ∈ bs) ->
  pot bs h' l <= pot bs h l /\ (existsb (moved_in m h) l = true -> pot bs h' l < pot bs h l).
Proof using Hg Hh' Hm.
  induction l as [|b l IH]; intros Hl; [done|]. cbn [pot sum_list_with existsb]. fold (pot bs h' l) (pot bs h l).
  destruct IH as [H1 H2]; [intros x Hx; apply Hl; by right|]. assert (Hb : b ∈ bs) by (apply Hl; by left).
  destruct (proj2 Hg b Hb) as (blk & E & Hk). unfold moved_in at 1. rewrite (turn_lookup b blk Hb E), E.
  destruct (relink_pot blk Hk) as [H3 H4]. split; [lia|]. intros [Hx|Hx]%orb_true_iff; [apply H4 in Hx|apply H2 in Hx]; lia.
Qed.
End Turn.

Lemma not_moved h m l b blk : existsb (moved_in m h) l = false -> b ∈ l -> h !! b = Some blk -> moved m blk = false.
Proof.
  intros Hx Hb E. apply not_true_iff_false in Hx. apply not_true_iff_false. intros Hm. apply Hx, existsb_exists.
  exists b. split; [by apply list_elem_of_In|]. unfold moved_in. by rewrite E.
Qed.

(** Without a move, no branch leads to a block that has a link. *)
Lemma unmoved h bs m b c : flow_graph h bs -> existsb (moved_in m h) bs = false -> b ∈ bs -> edge h c b ->
  c ∈ bs /\ m !! c = None.
Proof.
  intros [_ Hg] Hx Hb (blk & E & Hc). destruct (Hg b Hb) as (blk' & E' & Hk). simplify_eq.
  pose proof (not_moved h m bs b blk Hx Hb E) as Hm.
  apply elem_of_succs in Hc. unfold moved in Hm.
  destruct Hk as [(_ & Ht & Hf)|(_ & t & f & Ht & Hf & Ht' & Hf')]; rewrite Ht, Hf in *; [by destruct Hc|].
  apply orb_false_iff in Hm as [H1%bool_decide_eq_false H2%bool_decide_eq_false]. rewrite <- eq_None_not_Some in H1, H2.
  destruct Hc as [Hc|Hc]; by simplify_eq.
Qed.

(** No two blocks that can be reached are equal, but for the root. *)
Definition interned (h : heap) (root : nat) : Prop :=
  forall i j, reachable h root i -> reachable h root j -> i <> root -> j <> root -> equals_block h i j -> i = j.

Lemma reachable_step h root i : reachable h root i -> i <> root -> exists b, reachable h root b /\ edge h i b.
Proof. intros Hr Hne. apply rtc_inv_r in Hr as [->|(b & Hb & He)]; [done|by exists b]. Qed.

Lemma unmoved_interned h bs root marked m : flow_graph h bs -> root ∈ bs ->
  (forall b, reachable h root b -> b ∈ marked) -> marked ⊆ list_to_set bs ->
  linked h marked bs m -> existsb (moved_in m h) bs = false -> interned h root.
Proof.
  intros Hg Hr Hm Hs Hl Hx i j Hi Hj Hni Hnj He.
  destruct (reachable_step h root i Hi Hni) as (bi & Hbi & Hei), (reachable_step h root j Hj Hnj) as (bj & Hbj & Hej).
  assert (Hb : forall b, reachable h root b -> b ∈ bs) by (intros b Hb; apply Hm, Hs in Hb; set_solver).
  apply (link_distinct _ _ _ _ Hl); auto.
  - by apply (unmoved h bs m bi i Hg Hx (Hb bi Hbi)).
  - by apply (unmoved h bs m bj j Hg Hx (Hb bj Hbj)).
Qed.

Lemma intern_blocks_ok fuel h bs root : flow_graph h bs -> root ∈ bs -> pot bs h bs < fuel ->
  exists h', intern_blocks fuel bs root h = inr h' /\ flow_graph h' bs /\ interned h' root /\
    forall p wirelen buflen n m, run_blocks p wirelen buflen n h' root m = run_blocks p wirelen buflen n h root m.
Proof.
  revert h. induction fuel as [|fuel IH]; intros h Hg Hr Hf; [lia|]. cbn [intern_blocks].
  destruct (marks_reachable h bs Hg root Hr) as (marked & -> & Hs & Hm). cbn [rbind].
  destruct (link_equals_ok h marked bs (proj1 Hg)) as (m & -> & Hl).
  { intros j Hj. destruct (proj2 Hg j Hj) as (blk & E & _). by eexists. }
  cbn [rbind]. destruct (redirects_ok m bs bs h false (proj1 Hg) (proj2 Hg)) as (h' & -> & Hh'). cbn [rbind orb].
  pose proof (turn_graph h h' bs marked m Hg Hl Hh') as Hg'.
  pose proof (fun p wirelen buflen n mm => turn_run h h' bs marked m Hg Hl Hh' p wirelen buflen n root mm Hr) as Hrun.
  destruct (existsb (moved_in m h) bs) eqn:Ex.
  - destruct (IH h' Hg' Hr) as (h2 & E2 & Hg2 & Hi2 & Hr2).
    { pose proof (proj2 (turn_pot h h' bs marked m Hg Hl Hh' bs ltac:(done)) Ex). lia. }
    exists h2. split_and!; [done..|]. intros. rewrite Hr2. apply Hrun.
  - exists h'. split_and!; [done|done| |done].
    assert (h' = h) as ->; [|by eapply unmoved_interned].
    apply map_eq. intros b. rewrite Hh'. case_decide as Hb; [|done].
    destruct (proj2 Hg b Hb) as (blk & E & Hk). rewrite E. cbn [fmap option_fmap option_map]. f_equal.
    pose proof (not_moved h m bs b blk Ex Hb E) as Hn.
    unfold relink, moved, follow in *. destruct (b_jt blk) as [t|] eqn:Et; [|done]. destruct (b_jf blk) as [f|] eqn:Ef; [|done].
    apply orb_false_iff in Hn as [H1%bool_decide_eq_false H2%bool_decide_eq_false]. rewrite <- eq_None_not_Some in H1, H2.
    rewrite H1, H2. cbn [default from_option]. destruct blk. cbn in *. by subst.
Qed.

(** C17: On a flow graph the sharing of equal blocks ends within the turns that
    [intern_fuel] allows; the graph it leaves runs from the root as the given
    one does, on every packet and from every state, and of the blocks that it
    reaches from the root no two but the root have the same statements, the
    same branch and the same successors. *)
Theorem intern_blocks_correct h bs root : flow_graph h bs -> root ∈ bs ->
  exists h', intern_blocks (intern_fuel bs) bs root h = inr h' /\ flow_graph h' bs /\ interned h' root /\
    forall p wirelen buflen n m, run_blocks p wirelen buflen n h' root m = run_blocks p wirelen buflen n h root m.
Proof.
  intros Hg Hr. apply intern_blocks_ok; [done..|]. unfold intern_fuel. pose proof (pot_bound bs h bs). lia.
Qed.

(** [udp or ip6], with a return of its own at the end of each branch. *)
Definition sample_block (load : Z * Z) (c k : Z) (t f : option nat) : block :=
  Block (if (load.1 =? 0)%Z then [] else [Slist 0 load.1 load.2 None None]) c k t f false 0 0 0 0.
Definition sample_heap : heap := list_to_map
  [(0, sample_block (0x28, 12)%Z 0x15 0x800 (Some 1) (Some 2)); (1, sample_block (0x30, 23)%Z 0x15 17 (Some 3) (Some 4));
   (2, sample_block (0x28, 12)%Z 0x15 0x86dd (Some 5) (Some 6)); (3, sample_block (0, 0)%Z 6 65535 None None);
   (4, sample_block (0, 0)%Z 6 0 None None); (5, sample_block (0, 0)%Z 6 65535 None None);
   (6, sample_block (0, 0)%Z 6 0 None None)].

Lemma intern_blocks_correct_witness : exists h',
  intern_blocks (intern_fuel [0; 1; 3; 4; 2; 5; 6]) [0; 1; 3; 4; 2; 5; 6] 0 sample_heap = inr h' /\
  option_map b_jt (h' !! 1) = Some (Some 5) /\ option_map b_jf (h' !! 1) = Some (Some 6) /\ interned h' 0.
Proof.
  assert (Hg : flow_graph sample_heap [0; 1; 3; 4; 2; 5; 6]).
  { split; [repeat constructor; set_solver|]. intros b Hb. unfold flow_block.
    repeat (apply elem_of_cons in Hb as [->|Hb]; [eexists; split; [vm_compute; reflexivity|]; cbn [b_code b_jt b_jf]|]);
      [| | | | | | |by apply elem_of_nil in Hb];
      (left; split_and!; reflexivity) || (right; split; [by vm_compute|]; do 2 eexists; split_and!; [done|done|set_solver..]). }
  destruct (intern_blocks_correct sample_heap [0; 1; 3; 4; 2; 5; 6] 0 Hg ltac:(by left)) as (h' & E & _ & Hi & _).
  exists h'. split; [exact E|]. vm_compute in E. injection E as <-. split_and!; [reflexivity|reflexivity|exact Hi].
Defined.
