(* ===== verification/OptDeadSpec.v ===== *)
(** [optimize.c]: the removal of dead stores ([deadstmt], [opt_deadstores])
    keeps the registers that are used after a block, and where the block goes. *)
From S2P Require Import Prelude CFile Bpf BpfFilter Gencode Icode IcodeSpec OptFlow OptValue OptValueSpec OptimizeSpec.

#[local] Open Scope Z_scope.
#[local] Open Scope c_scope.
#[local] Open Scope opt_scope.

(** ** What statements read and assign *)

(** A statement reads the register [a]. *)
Definition reads (c k a : Z) : Prop :=
  a = atomuse c k \/ (atomuse c k = AX_ATOM /\ (a = A_ATOM \/ a = X_ATOM)).
Definition readsb (c k a : Z) : bool :=
  (a =? atomuse c k) || ((atomuse c k =? AX_ATOM) && ((a =? A_ATOM) || (a =? X_ATOM))).
Lemma readsb_spec c k a : readsb c k a = true <-> reads c k a.
Proof. unfold readsb, reads. rewrite !orb_true_iff, !andb_true_iff, orb_true_iff, !Z.eqb_eq. done. Qed.

Lemma atomdef_op c o k : decode c = Some o -> straight_op o = true -> 0 <= k < 2 ^ 32 -> atomdef c k = stmt_def o k.
Proof.
  intros ->%decode_Some Ho Hk. opcode_cases o; try discriminate Ho; try reflexivity;
    cbn [stmt_def]; rewrite uwrap_id by (unfold is_u; lia); reflexivity.
Qed.

(** An index of the scratch memory is the same unsigned. *)
Lemma u32_small k : is_i 32 k -> 0 <= u32 k < BPF_MEMWORDS -> u32 k = k.
Proof.
  unfold is_i. change BPF_MEMWORDS with 16. intros Hk Hb. destruct (Z.leb_spec 0 k); [apply uwrap_id; unfold is_u; lia|].
  exfalso. unfold uwrap in Hb. rewrite <- (Z.mod_unique k (2 ^ 32) (-1) (k + 2 ^ 32)) in Hb by lia. lia.
Qed.

Section Effects.
Context (p : list byte) (wirelen buflen : Z).

Lemma reg_mem m k : machine_ok m -> 0 <= k < BPF_MEMWORDS -> reg m k = u32 <$> nthZ (rmem m) k.
Proof using Type.
  intros _ Hk. unfold reg. change A_ATOM with 16. change X_ATOM with 17. change BPF_MEMWORDS with 16 in Hk.
  by rewrite !(proj2 (Z.eqb_neq _ _)) by lia.
Qed.

Lemma mem_out m k : machine_ok m -> BPF_MEMWORDS <= k -> nthZ (rmem m) k = None.
Proof using Type.
  intros (_ & _ & Hl & _) Hk. unfold nthZ. destruct (k <? 0); [done|]. apply lookup_ge_None. rewrite Hl. lia.
Qed.

(** The scratch memory of two machines has the same words. *)
Lemma mem_alike m m' k : machine_ok m -> machine_ok m' -> 0 <= k -> is_Some (nthZ (rmem m) k) -> is_Some (nthZ (rmem m') k).
Proof using Type.
  intros Hm (_ & _ & Hl & _) Hk [v Hv]. pose proof (mem_index _ _ _ Hm Hv). apply nthZ_is_Some. rewrite Hl.
  change BPF_MEMWORDS with 16 in *. lia.
Qed.

(** There are no registers but the [N_ATOMS]. *)
Lemma reg_everywhere m m' a : machine_ok m -> machine_ok m' -> (0 <= a < N_ATOMS -> reg m a = reg m' a) -> reg m a = reg m' a.
Proof using Type.
  intros Hm Hm' Ha. destruct (Z.lt_ge_cases a 0) as [Hn|Hn].
  { unfold reg. rewrite !(proj2 (Z.eqb_neq a _)) by (intros ->; by vm_compute in Hn). unfold nthZ.
    by rewrite (proj2 (Z.ltb_lt _ _)). }
  destruct (Z.lt_ge_cases a 18) as [Hb|Hb]; [by apply Ha|].
  unfold reg. change A_ATOM with 16. change X_ATOM with 17. rewrite !(proj2 (Z.eqb_neq a _)) by lia.
  by rewrite !mem_out by (done || (change BPF_MEMWORDS with 16; lia)).
Qed.

(** A statement assigns the same on machines that agree on what it reads. *)
Lemma value_same c o k m m' x : machine_ok m -> machine_ok m' -> decode c = Some o -> straight_op o = true ->
  is_i 32 k -> (forall a, reads c k a -> reg m a = reg m' a) ->
  stmt_value p wirelen buflen o k m = Some x -> stmt_value p wirelen buflen o k m' = Some x.
Proof using Type.
  intros Hm Hm' Hd Ho Hk Hr. unfold reads in Hr. rewrite (atomuse_op c o k Hd) in Hr.
  assert (HA : op_use o k = A_ATOM \/ op_use o k = AX_ATOM -> rA m = rA m').
  { intros H. assert (E : reg m A_ATOM = reg m' A_ATOM) by (apply Hr; destruct H as [->| ->]; auto). by injection E. }
  assert (HX : op_use o k = X_ATOM \/ op_use o k = AX_ATOM -> rX m = rX m').
  { intros H. assert (E : reg m X_ATOM = reg m' X_ATOM) by (apply Hr; destruct H as [->| ->]; auto). by injection E. }
  pose proof (u32_ok k) as [Hu _].
  assert (HM : op_use o k = k -> u32 <$> nthZ (rmem m) (u32 k) = Some x -> u32 <$> nthZ (rmem m') (u32 k) = Some x).
  { intros H Hx. destruct (nthZ (rmem m) (u32 k)) as [v|] eqn:Ev; [|done]. pose proof (mem_index _ _ _ Hm Ev) as Hb.
    pose proof (u32_small k Hk Hb) as Ek. rewrite Ek in *. rewrite <- (reg_mem m') by done. rewrite <- Hr by (left; done). by rewrite reg_mem, Ev. }
  assert (HS : forall y, match nthZ (rmem m) (u32 k) with Some _ => Some y | None => None end = Some x ->
                    match nthZ (rmem m') (u32 k) with Some _ => Some y | None => None end = Some x).
  { intros y. destruct (nthZ (rmem m) (u32 k)) eqn:Ev; [|done].
    destruct (mem_alike m m' (u32 k) Hm Hm' Hu ltac:(by eexists)) as [v' ->]. done. }
  destruct o; try discriminate Ho; cbn [stmt_value op_use] in *; try done; try (by apply HM);
    try (rewrite <- HA by auto); try (rewrite <- HX by auto); try done; try (by apply HS).
  destruct s; rewrite <- HA by auto; try (rewrite <- HX by auto); done.
Qed.

Lemma value_fits c o k m x : machine_ok m -> decode c = Some o -> straight_op o = true ->
  stmt_value p wirelen buflen o k m = Some x -> fits m (stmt_def o k) x.
Proof using Type.
  intros (HA & HX & _) _ Ho. unfold fits. destruct o; try discriminate Ho; cbn [stmt_value stmt_def]; intros H; auto.
  all: right; right; destruct (nthZ (rmem m) (u32 k)); [|done]; injection H as <-; split; [done|by eexists].
Qed.

(** A statement that completes assigns the register [atomdef]. *)
Lemma eff_def s o m m1 : machine_ok m -> decode (sl_code s) = Some o -> straight_op o = true -> is_i 32 (sl_k s) ->
  eff p wirelen buflen s m = Next m1 ->
  exists x, stmt_value p wirelen buflen o (sl_k s) m = Some x /\ 0 <= atomdef (sl_code s) (sl_k s) /\
    atomdef (sl_code s) (sl_k s) = stmt_def o (sl_k s) /\ m1 = set_reg m (atomdef (sl_code s) (sl_k s)) x.
Proof using Type.
  intros Hm Hd Ho Hk He. destruct (eff_value _ _ _ s m o m1 Hm Hd Ho He) as (x & Hx & ->). exists x. split; [done|].
  assert (E : 0 <= atomdef (sl_code s) (sl_k s) /\ atomdef (sl_code s) (sl_k s) = stmt_def o (sl_k s)).
  { revert Hx. rewrite (decode_Some _ _ Hd). clear Hd He.
    opcode_cases o; try discriminate Ho; cbn [stmt_value stmt_def]; intros Hx; try (split; [done|reflexivity]).
    all: destruct (nthZ (rmem m) (u32 (sl_k s))) as [v|] eqn:Ev; [|done];
      pose proof (mem_index _ _ _ Hm Ev) as Hb; pose proof (u32_small _ Hk Hb) as Ek; rewrite Ek in *;
      split; [change (0 <= sl_k s); lia|reflexivity]. }
  destruct E as [E1 E2]. by rewrite E2 in *.
Qed.
End Effects.

(** ** Deleted statements *)

(** The pending stores to the registers from [k] on that are not [live]. *)
Fixpoint killed (live : nat -> bool) (k : nat) (last : last_stores) (x : nat) : bool :=
  match last with
  | [] => false
  | o :: last => (bool_decide (o = Some x) && negb (live k)) || killed live (S k) last x
  end.
Lemma killed_spec live k last x :
  killed live k last x = true <-> exists a, last !! a = Some (Some x) /\ live (k + a)%nat = false.
Proof.
  revert k. induction last as [|o last IH]; intros k; cbn [killed].
  { split; [done|]. intros (a & Ha & _). by rewrite lookup_nil in Ha. }
  rewrite orb_true_iff, andb_true_iff, bool_decide_eq_true, negb_true_iff, IH. split.
  - intros [[-> Hl]|(a & Ha & Hl)]; [exists O; by rewrite Nat.add_0_r|exists (S a)].
    split; [done|]. by rewrite Nat.add_succ_r, <- Nat.add_succ_l.
  - intros ([|a] & Ha & Hl); [left|right; exists a].
    + rewrite Nat.add_0_r in Hl. by injection Ha as ->.
    + split; [done|]. by rewrite Nat.add_succ_l, <- Nat.add_succ_r.
Qed.

Definition trim (f : nat -> bool) (l : list slist) : list slist :=
  imap (fun i s => if f i then with_code s NOP else s) l.

Lemma trim_lookup f l i : trim f l !! i = (fun s => if f i then with_code s NOP else s) <$> l !! i.
Proof. apply list_lookup_imap. Qed.

Lemma trim_length f l : length (trim f l) = length l.
Proof. apply length_imap. Qed.

Lemma nop_lookup c j l i : set_code c j l !! i = (fun s => if decide (j = i) then with_code s c else s) <$> l !! i.
Proof.
  unfold set_code. destruct (decide (j = i)) as [->|Hne].
  - by rewrite list_lookup_alter_eq.
  - rewrite list_lookup_alter_ne by done. by destruct (l !! i).
Qed.

Lemma nop_lookup_ne c j l i : j <> i -> set_code c j l !! i = l !! i.
Proof. intros Hne. unfold set_code. by apply list_lookup_alter_ne. Qed.

Lemma trim_ext f g l : (forall i, (i < length l)%nat -> f i = g i) -> trim f l = trim g l.
Proof.
  intros Hf. apply list_eq. intros i. rewrite !trim_lookup. destruct (l !! i) eqn:E; [|done]. cbn.
  by rewrite Hf by by eapply lookup_lt_Some.
Qed.

Lemma dead_at_end_trim out_use last atom k l c : atom = Z.of_nat k ->
  (dead_at_end out_use last atom l c).1 = trim (killed (fun a => ATOMELEM out_use (Z.of_nat a)) k last) l.
Proof.
  revert atom k l c. induction last as [|o last IH]; intros atom k l c ->; cbn [dead_at_end killed].
  { apply list_eq. intros i. rewrite trim_lookup. cbn [fst]. by destruct (l !! i). }
  destruct o as [j|]; [destruct (ATOMELEM _ _) eqn:E|]; rewrite (IH _ (S k)) by lia.
  - apply trim_ext. intros i _. by destruct (bool_decide _).
  - apply list_eq. intros i. rewrite !trim_lookup, nop_lookup. cbn [negb]. rewrite andb_true_r. destruct (l !! i) as [s|]; [|done]. cbn.
    destruct (decide (j = i)) as [->|Hne]; [rewrite bool_decide_true by done|rewrite bool_decide_false by congruence]; cbn [orb]; [|done].
    by destruct (killed _ _ _ _).
  - apply trim_ext. intros i _. by rewrite bool_decide_false by done.
Qed.

(** ** [deadstmt] *)

Definition pending (last : last_stores) (a : nat) : Prop := exists j, last !! a = Some (Some j).

(** After its uses a statement's registers are not pending. *)
Definition after_uses (c k : Z) (last last' : last_stores) : Prop :=
  length last' = length last /\
  forall a j, last' !! a = Some (Some j) <-> last !! a = Some (Some j) /\ ~ reads c k (Z.of_nat a).

Lemma forget_ok atom last last' : forget atom last = inr last' ->
  length last' = length last /\ 0 <= atom /\
  forall a j, last' !! a = Some (Some j) <-> last !! a = Some (Some j) /\ Z.of_nat a <> atom.
Proof.
  unfold forget. intros (o & Ho%some_of_inr & [= <-])%rbind_inr. pose proof (nthZ_Some_lt _ _ _ Ho) as Hi.
  split; [by rewrite length_insert|]. split; [lia|]. intros a j. rewrite list_lookup_insert_Some. split.
  - intros [(_ & [=] & _)|[Hne Ha]]. split; [done|lia].
  - intros [Ha Hne]. right. split; [lia|done].
Qed.

Lemma uses_ok c k last last' :
  (if atomuse c k <? 0 then inr last
   else if atomuse c k =? AX_ATOM then last <~ forget X_ATOM last ;; forget A_ATOM last
   else forget (atomuse c k) last) = inr last' ->
  length last = n_atoms -> after_uses c k last last'.
Proof.
  unfold after_uses, reads. destruct (Z.ltb_spec (atomuse c k) 0) as [H|H].
  - intros [= <-] _. split; [done|]. intros a j. split; [|tauto]. intros Ha. split; [done|].
    intros [E|[E _]]; [lia|rewrite E in H; done].
  - destruct (Z.eqb_spec (atomuse c k) AX_ATOM) as [E|E].
    + intros (l1 & (Hl1 & _ & H1)%forget_ok & (Hl2 & _ & H2)%forget_ok)%rbind_inr Hn. split; [congruence|].
      intros a j. rewrite H2, H1, E. split.
      * intros [[Ha Hx] Hy]. split; [done|]. intros [Hz|[_ [Hz|Hz]]]; [|done..].
        pose proof (lookup_lt_Some _ _ _ Ha) as Hlt. rewrite Hn in Hlt. assert (Z.of_nat a = AX_ATOM) by congruence. revert H0. change AX_ATOM with 18. change n_atoms with 18%nat in Hlt. lia.
      * intros [Ha Hr]. split_and!; [done|..]; intros Hz; apply Hr; tauto.
    + intros (Hl & _ & H1)%forget_ok _. split; [done|]. intros a j. rewrite H1. split; intros [Ha Hn]; (split; [done|]).
      * intros [Hz|[Hz _]]; done.
      * intros Hz. apply Hn. by left.
Qed.

Lemma deadstmt_ok l i s last c l2 last2 c2 : length last = n_atoms -> deadstmt l i s last c = inr (l2, last2, c2) ->
  exists last1, after_uses (sl_code s) (sl_k s) last last1 /\
    let d := atomdef (sl_code s) (sl_k s) in
    if d <? 0 then l2 = l /\ last2 = last1
    else 0 <= d < Z.of_nat n_atoms /\ last2 = <[Z.to_nat d := Some i]> last1 /\
         l2 = match last1 !! Z.to_nat d with Some (Some j) => set_code NOP j l | _ => l end.
Proof.
  unfold deadstmt. intros Hn (last1 & H1 & H)%rbind_inr. apply uses_ok in H1; [|done]. exists last1. split; [done|]. cbn zeta.
  destruct (_ <? 0); [by injection H as <- <- <-|]. apply rbind_inr in H as (o & Ho%some_of_inr & H).
  pose proof (nthZ_Some_lt _ _ _ Ho) as Hd. destruct H1 as [Hl _]. rewrite Hl, Hn in Hd. unfold nthZ in Ho.
  destruct (_ <? 0); [done|]. rewrite Ho. destruct o as [j|]; by injection H as <- <- <-.
Qed.

(** The statements that the checker accepts, and their offsets. *)
Definition sane (s : slist) : Prop := plain s /\ is_i 32 (sl_k s).

Section Run.
Context (p : list byte) (wirelen buflen : Z) (Hw : is_u 32 wirelen).
Abbreviation run := (effs p wirelen buflen).

Lemma effs_app l1 l2 m : run (l1 ++ l2)%list m = match run l1 m with Next m => run l2 m | d => d end.
Proof using Type.
  revert m. induction l1 as [|s l1 IH]; intros m; [done|]. cbn [app effs]. by destruct (eff _ _ _ s m).
Qed.

Lemma effs_one s m : run [s] m = eff p wirelen buflen s m.
Proof using Type. cbn [effs]. by destruct (eff _ _ _ s m). Qed.

(** The statements before the [i]th have run: without the pending stores to
    registers that are not [live], the registers that are [live] or not pending
    are the same. *)
Record ran (orig : list slist) (i : nat) (l : list slist) (last : last_stores) : Prop := {
  ran_rest x : (i <= x)%nat -> l !! x = orig !! x;
  ran_last : length last = n_atoms;
  ran_before a j : last !! a = Some (Some j) -> (j < i)%nat;
  ran_same live m m1 : machine_ok m -> run (take i orig) m = Next m1 ->
    exists m1', run (take i (trim (killed live 0 last) l)) m = Next m1' /\ machine_ok m1 /\ machine_ok m1' /\
      forall a, (a < n_atoms)%nat -> (pending last a -> live a = true) -> reg m1 (Z.of_nat a) = reg m1' (Z.of_nat a) }.

Lemma ran_start orig : ran orig 0 orig (repeat None n_atoms).
Proof using Type.
  split; [done|by rewrite repeat_length| |].
  - intros a j Ha. apply list_elem_of_lookup_2, list_elem_of_In, repeat_spec in Ha. done.
  - intros live m m1 Hm [= <-]. exists m. by split_and!.
Qed.

Section Step.
Context (orig l : list slist) (i : nat) (s : slist) (last last1 : last_stores).
Context (Hr : ran orig i l last) (Hs : orig !! i = Some s) (Hu : after_uses (sl_code s) (sl_k s) last last1).

Lemma not_killed live : killed live 0 last i = false.
Proof using Hr.
  apply not_true_iff_false. intros (a & Ha & _)%killed_spec. apply (ran_before _ _ _ _ Hr) in Ha. lia.
Qed.

Lemma ran_nop : sl_code s = NOP -> ran orig (S i) l last1.
Proof using Hr Hs Hu.
  intros Hc. destruct Hu as [Hl Hu']. assert (Hn : forall k, atomuse (sl_code s) k = -1) by (intros k; by rewrite Hc).
  assert (Hu2 : forall a j, last1 !! a = Some (Some j) <-> last !! a = Some (Some j)).
  { intros a j. rewrite Hu'. unfold reads. rewrite Hn. split; [tauto|]. intros Ha. split; [done|]. intros [H|[H _]]; [lia|done]. }
  split.
  - intros x Hx. apply (ran_rest _ _ _ _ Hr). lia.
  - by rewrite Hl, (ran_last _ _ _ _ Hr).
  - intros a j Ha. apply Hu2, (ran_before _ _ _ _ Hr) in Ha. lia.
  - intros live m m1 Hm. rewrite (take_S_r _ _ _ Hs), effs_app. destruct (run (take i orig) m) as [m0|] eqn:E; [|done].
    rewrite effs_one. unfold eff. rewrite Hc, Z.eqb_refl. intros [= <-].
    destruct (ran_same _ _ _ _ Hr live m m0 Hm E) as (m1' & E' & Hok & Hok' & Ha).
    assert (Hk : forall x, killed live 0 last1 x = killed live 0 last x).
    { intros x. apply eq_true_iff_eq. rewrite !killed_spec. by setoid_rewrite Hu2. }
    exists m1'. split_and!; [|done|done|].
    + rewrite (trim_ext _ (killed live 0 last)) by (intros; apply Hk).
      erewrite take_S_r by (rewrite trim_lookup, (ran_rest _ _ _ _ Hr), Hs by lia; reflexivity).
      rewrite effs_app, E', effs_one, not_killed. unfold eff. by rewrite Hc, Z.eqb_refl.
    + intros a Hlt Hp. apply Ha; [done|]. intros [j Hj]. apply Hp. exists j. by apply Hu2.
Qed.

(** A statement that assigns: the pending store to its register is deleted, and
    its own becomes the pending one. *)
Context (o : opcode) (Hd : decode (sl_code s) = Some o) (Ho : straight_op o = true) (Hk : is_i 32 (sl_k s)).
Abbreviation d := (atomdef (sl_code s) (sl_k s)).
Definition deleted : list slist := match last1 !! Z.to_nat d with Some (Some j) => set_code NOP j l | _ => l end.
(** What is to be live before the statement. *)
Definition live_before (live : nat -> bool) (a : nat) : bool :=
  if decide (a = Z.to_nat d) then readsb (sl_code s) (sl_k s) (Z.of_nat a)
  else live a || readsb (sl_code s) (sl_k s) (Z.of_nat a).

Lemma trim_before live x : (x < i)%nat ->
  trim (killed live 0 (<[Z.to_nat d := Some i]> last1)) deleted !! x = trim (killed (live_before live) 0 last) l !! x.
Proof using Hr Hs Hu.
  intros Hx. rewrite !trim_lookup. destruct Hu as [_ Hu'].
  assert (Hdel : deleted !! x = (fun s => if bool_decide (last1 !! Z.to_nat d = Some (Some x)) then with_code s NOP else s) <$> l !! x).
  { unfold deleted. destruct (last1 !! Z.to_nat d) as [[j|]|].
    - rewrite nop_lookup. destruct (l !! x); [|done]. cbn. f_equal. destruct (decide (j = x)) as [->|Hne].
      + by rewrite bool_decide_true.
      + by rewrite bool_decide_false by congruence.
    - rewrite bool_decide_false by done. by destruct (l !! x).
    - rewrite bool_decide_false by done. by destruct (l !! x). }
  rewrite Hdel. destruct (l !! x) as [sx|]; [|done]. cbn.
  assert (E : killed (live_before live) 0 last x =
    bool_decide (last1 !! Z.to_nat d = Some (Some x)) || killed live 0 (<[Z.to_nat d := Some i]> last1) x).
  { apply eq_true_iff_eq. rewrite orb_true_iff, bool_decide_eq_true, !killed_spec. cbn [Nat.add]. unfold live_before. split.
    - intros (a & Ha & Hl). case_decide as Hda.
      + left. subst a. apply Hu'. split; [done|]. rewrite <- readsb_spec. congruence.
      + apply orb_false_iff in Hl as [Hl Hn]. right. exists a. split; [|done]. rewrite list_lookup_insert_ne by done.
        apply Hu'. split; [done|]. rewrite <- readsb_spec. congruence.
    - intros [Ha|(a & Ha & Hl)].
      + apply Hu' in Ha as [Ha Hn]. exists (Z.to_nat d). split; [done|]. rewrite decide_True by done.
        apply not_true_iff_false. intros Hx'%readsb_spec. by apply Hn.
      + apply list_lookup_insert_Some in Ha as [(_ & [= ->] & _)|[Hne Ha]]; [lia|]. apply Hu' in Ha as [Ha Hn].
        exists a. split; [done|]. rewrite decide_False by done. rewrite Hl. apply not_true_iff_false. intros Hx'%readsb_spec. by apply Hn. }
  rewrite E. by destruct (bool_decide _), (killed live _ _ _).
Qed.

Abbreviation last2 := (<[Z.to_nat d := Some i]> last1).

Lemma deleted_ne x : (i <= x)%nat -> deleted !! x = orig !! x.
Proof using Hr Hu.
  intros Hx. rewrite <- (ran_rest _ _ _ _ Hr x) by done. unfold deleted. destruct Hu as [_ Hu'].
  destruct (last1 !! Z.to_nat d) as [[j|]|] eqn:Ej; [|done..]. apply Hu' in Ej as [Ej _].
  apply (ran_before _ _ _ _ Hr) in Ej. by rewrite nop_lookup_ne by lia.
Qed.

(** The statement and those before it, with the stores that are deleted. *)
Lemma deleted_take live (Hdr : 0 <= d < Z.of_nat n_atoms) :
  take (S i) (trim (killed live 0 last2) deleted) =
  (take i (trim (killed (live_before live) 0 last) l) ++ [if live (Z.to_nat d) then s else with_code s NOP])%list.
Proof using Hr Hs Hu.
  assert (Hki : killed live 0 last2 i = negb (live (Z.to_nat d))).
  { apply eq_true_iff_eq. rewrite killed_spec, negb_true_iff. cbn [Nat.add]. destruct Hu as [Hl Hu']. split.
    - intros (a & [(-> & _)|[_ Hx2]]%list_lookup_insert_Some & Hla); [done|]. exfalso.
      apply Hu' in Hx2 as [Hx2 _]. apply (ran_before _ _ _ _ Hr) in Hx2. lia.
    - intros Hla. exists (Z.to_nat d). split; [|done]. apply list_lookup_insert_eq.
      rewrite Hl, (ran_last _ _ _ _ Hr). lia. }
  rewrite (take_S_r _ _ (if live (Z.to_nat d) then s else with_code s NOP)).
  - f_equal. apply list_eq. intros y. destruct (Nat.lt_ge_cases y i).
    + rewrite !lookup_take_lt by done. by apply trim_before.
    + by rewrite !lookup_take_ge by done.
  - rewrite trim_lookup, deleted_ne, Hs, Hki by lia. cbn. by destruct (live _).
Qed.

(** What the statement reads is the same. *)
Lemma reads_same live m m' : machine_ok m -> machine_ok m' ->
  (forall a, (a < n_atoms)%nat -> (pending last a -> live_before live a = true) -> reg m (Z.of_nat a) = reg m' (Z.of_nat a)) ->
  forall a, reads (sl_code s) (sl_k s) a -> reg m a = reg m' a.
Proof using Type.
  intros Hm Hm' Ha a Hra. apply (reg_everywhere m m' a Hm Hm'). intros Ha0. rewrite <- (Z2Nat.id a) by lia.
  apply Ha; [change N_ATOMS with 18 in Ha0; change n_atoms with 18%nat; lia|]. intros _. unfold live_before.
  rewrite Z2Nat.id by lia. apply readsb_spec in Hra. rewrite Hra, orb_true_r. by case_decide.
Qed.

(** The statement on machines that agree on what it reads. *)
Lemma op_same m m' m1 : machine_ok m -> machine_ok m' -> eff p wirelen buflen s m = Next m1 ->
  (forall a, reads (sl_code s) (sl_k s) a -> reg m a = reg m' a) ->
  exists x, 0 <= d /\ m1 = set_reg m d x /\ eff p wirelen buflen s m' = Next (set_reg m' d x) /\
    reg (set_reg m d x) d = Some x /\ reg (set_reg m' d x) d = Some x.
Proof using Hd Ho Hk.
  intros Hm Hm' He Ha. destruct (eff_def p wirelen buflen s o m m1 Hm Hd Ho Hk He) as (x & Hx & Hd0 & Hde & ->).
  pose proof (value_same p wirelen buflen _ o (sl_k s) m m' x Hm Hm' Hd Ho Hk Ha Hx) as Hx'.
  exists x. rewrite Hde in *. split_and!; [done|done| | |].
  - by apply value_eff.
  - apply reg_set_same. by eapply value_fits.
  - apply reg_set_same. by eapply value_fits.
Qed.

Lemma ran_op : 0 <= d < Z.of_nat n_atoms -> ran orig (S i) deleted last2.
Proof using Hr Hs Hu Hd Ho Hk Hw.
  intros Hdr. pose proof (ran_last _ _ _ _ Hr) as Hln. pose proof Hu as [Hl Hu']. split.
  - intros x Hx. apply deleted_ne. lia.
  - by rewrite length_insert, Hl.
  - intros a j [(_ & [= ->] & _)|[_ Ha]]%list_lookup_insert_Some; [lia|]. apply Hu' in Ha as [Ha _].
    apply (ran_before _ _ _ _ Hr) in Ha. lia.
  - intros live m m2 Hm. rewrite (take_S_r _ _ _ Hs), deleted_take, !effs_app by done.
    destruct (run (take i orig) m) as [m1|] eqn:E; [|done]. rewrite effs_one. intros He.
    destruct (ran_same _ _ _ _ Hr (live_before live) m m1 Hm E) as (m1' & -> & Hok & Hok' & Ha).
    pose proof (eff_ok p wirelen buflen s m1 m2 Hw Hok He) as Hok2.
    destruct (op_same m1 m1' m2 Hok Hok' He (reads_same live m1 m1' Hok Hok' Ha)) as (x & Hd0 & -> & He' & Hx & Hx').
    assert (Hother : forall a, (a < n_atoms)%nat -> a <> Z.to_nat d -> (pending last2 a -> live a = true) ->
                     reg m1 (Z.of_nat a) = reg m1' (Z.of_nat a)).
    { intros a Hlt Hne Hp. apply Ha; [done|]. intros [j Hj]. unfold live_before. rewrite decide_False by done.
      destruct (readsb _ _ (Z.of_nat a)) eqn:Er; [by rewrite orb_true_r|]. rewrite orb_false_r. apply Hp. exists j.
      rewrite list_lookup_insert_ne by done. apply Hu'. split; [done|]. rewrite <- readsb_spec. congruence. }
    rewrite effs_one. destruct (live (Z.to_nat d)) eqn:Eld.
    + exists (set_reg m1' d x). split_and!; [done|done|exact (eff_ok p wirelen buflen s m1' _ Hw Hok' He')|]. intros a Hlt Hp.
      destruct (decide (a = Z.to_nat d)) as [->|Hne]; [by rewrite Z2Nat.id, Hx, Hx' by done|].
      rewrite !reg_set_other by lia. by apply Hother.
    + exists m1'. split_and!; [unfold eff; cbn [with_code sl_code]; by rewrite Z.eqb_refl|done|done|]. intros a Hlt Hp.
      destruct (decide (a = Z.to_nat d)) as [->|Hne].
      * rewrite Hp in Eld; [done|]. exists i. apply list_lookup_insert_eq. rewrite Hl, Hln. lia.
      * rewrite reg_set_other by lia. by apply Hother.
Qed.
End Step.

(** A turn of the loops, and all of them. *)
Lemma ran_step orig l i s last c l2 last2 c2 : ran orig i l last -> orig !! i = Some s -> sane s ->
  deadstmt l i s last c = inr (l2, last2, c2) -> ran orig (S i) l2 last2.
Proof using Hw.
  intros Hr Hs [Hp Hk] H. apply deadstmt_ok in H as (last1 & Hu & H); [|apply Hr]. cbn zeta in H.
  destruct Hp as [Hc|(o & Hd & Ho & _)].
  - rewrite Hc in H. assert (Hdn : atomdef NOP (sl_k s) = -1) by done. rewrite Hdn in H. destruct H as [-> ->].
    by eapply ran_nop.
  - destruct (Z.ltb_spec (atomdef (sl_code s) (sl_k s)) 0) as [Hn|Hn].
    + destruct H as [-> ->], Hu as [Hl Hu']. split.
      * intros x Hx. apply (ran_rest _ _ _ _ Hr). lia.
      * by rewrite Hl, (ran_last _ _ _ _ Hr).
      * intros a j [Ha _]%Hu'. apply (ran_before _ _ _ _ Hr) in Ha. lia.
      * intros live m m2 Hm. rewrite (take_S_r _ _ _ Hs), effs_app. destruct (run (take i orig) m) as [m1|] eqn:E; [|done].
        destruct (ran_same _ _ _ _ Hr live m m1 Hm E) as (_ & _ & Hok & _). rewrite effs_one. intros He.
        destruct (eff_def p wirelen buflen s o m1 m2 Hok Hd Ho Hk He) as (x & _ & Hd0 & _). lia.
    + destruct H as (Hdr & -> & ->). by eapply ran_op.
Qed.

Lemma ran_loop orig n i l last c l2 last2 c2 : ran orig i l last -> Forall sane (take n (drop i orig)) ->
  dead_loop n i l last c = inr (l2, last2, c2) -> ran orig (i + n) l2 last2.
Proof using Hw.
  revert i l last c. induction n as [|n IH]; intros i l last c Hr Hf H; cbn [dead_loop] in H.
  { injection H as <- <- <-. by rewrite Nat.add_0_r. }
  apply rbind_inr in H as (s & Hs%some_of_inr & H). apply rbind_inr in H as ([[l1 last1] c1] & H1 & H).
  rewrite (ran_rest _ _ _ _ Hr) in Hs by done. rewrite (drop_S _ _ _ Hs) in Hf. cbn [take] in Hf. apply Forall_cons in Hf as [Hsn Hf].
  rewrite Nat.add_succ_r, <- Nat.add_succ_l. eapply IH; [by eapply ran_step|done|done].
Qed.
End Run.

Lemma dead_loop_app n1 n2 i l last c :
  dead_loop (n1 + n2) i l last c = ('(l, last, c) <~ dead_loop n1 i l last c ;; dead_loop n2 (i + n1) l last c).
Proof.
  revert i l last c. induction n1 as [|n1 IH]; intros i l last c; cbn [Nat.add dead_loop rbind]; [by rewrite Nat.add_0_r|].
  destruct (some_of (l !! i)) as [|s]; [done|]. cbn [rbind]. destruct (deadstmt _ _ _ _ _) as [|[[l1 last1] c1]]; [done|].
  cbn [rbind]. rewrite IH. by rewrite Nat.add_succ_r, Nat.add_succ_l.
Qed.

(** ** [opt_deadstores] *)

(** A branch on a comparison, or a return. *)
Definition ends_block (b : block) : Prop :=
  (exists j s, decode (b_code b) = Some (JmpIf j s)) \/ decode (b_code b) = Some RetK \/ decode (b_code b) = Some RetA.

Lemma branch_def b : ends_block b -> atomdef (b_code b) (b_k b) = -1 /\ b_code b <> NOP.
Proof.
  intros [(j & s & ->%decode_Some)|[->%decode_Some| ->%decode_Some]]; [destruct j, s; done|done|done].
Qed.

(** Where a block goes depends on what its branch reads. *)
Lemma leave_same p wirelen buflen b b' m m' : ends_block b ->
  b_code b' = b_code b -> u32 (b_k b') = u32 (b_k b) -> b_jt b' = b_jt b -> b_jf b' = b_jf b ->
  (forall a, reads (b_code b) (b_k b) a -> reg m a = reg m' a) ->
  leave p wirelen buflen b m = leave p wirelen buflen b' m'.
Proof.
  intros He Ec Ek Et Ef Ha. unfold leave. rewrite Ec, Ek, Et, Ef. unfold reads in Ha.
  assert (HA : (exists s, decode (b_code b) = Some (JmpIf s K)) \/ decode (b_code b) = Some RetA \/ (exists j, decode (b_code b) = Some (JmpIf j X)) -> rA m = rA m').
  { intros H. assert (E : reg m A_ATOM = reg m' A_ATOM); [|by injection E]. apply Ha.
    destruct H as [[j H]|[H|[j H]]]; rewrite (atomuse_op _ _ _ H); cbn [op_use]; auto. }
  destruct He as [(j & s & E)|[E|E]]; rewrite E.
  - assert (EA : rA m = rA m') by (apply HA; destruct s; eauto). rewrite EA. destruct s; [done|].
    assert (EX : reg m X_ATOM = reg m' X_ATOM) by (apply Ha; rewrite (atomuse_op _ _ _ E); cbn [op_use]; auto).
    injection EX as EX. unfold operand. by rewrite EX.
  - done.
  - cbn [exec]. by rewrite HA by auto.
Qed.

(** Before the branch, and after it has used its registers. *)
Lemma killed_branch out_use c k i last last1 x : length last = n_atoms -> after_uses c k last last1 ->
  (forall a j, last !! a = Some (Some j) -> (j < i)%nat) ->
  killed (fun a => ATOMELEM out_use (Z.of_nat a)) 0 last1 x =
  killed (fun a => ATOMELEM out_use (Z.of_nat a) || readsb c k (Z.of_nat a)) 0 last x.
Proof.
  intros Hn [_ Hu] Hb. apply eq_true_iff_eq. rewrite !killed_spec. cbn [Nat.add].
  split; intros (a & Ha & Hl); exists a.
  - apply Hu in Ha as [Ha Hr]. split; [done|]. rewrite Hl. cbn [orb]. apply not_true_iff_false. by intros ?%readsb_spec.
  - apply orb_false_iff in Hl as [Hl Hr]. split; [|done]. apply Hu. split; [done|]. rewrite <- readsb_spec. congruence.
Qed.

(** What [opt_deadstores] makes of a block. *)
Lemma deadstores_shape p wirelen buflen out_use b w b' w' : is_u 32 wirelen ->
  Forall sane (b_stmts b) -> ends_block b -> is_i 32 (b_k b) -> opt_deadstores out_use b w = inr (b', w') ->
  exists l last last', ran p wirelen buflen (b_stmts b ++ [branch_stmt b]) (length (b_stmts b)) l last /\
    after_uses (b_code b) (b_k b) last last' /\
    b' = with_stmts b (take (length (b_stmts b)) (trim (killed (fun a => ATOMELEM out_use (Z.of_nat a)) 0 last') l)).
Proof.
  intros Hw Hs He Hk H. unfold opt_deadstores in H. set (orig := (b_stmts b ++ [branch_stmt b])%list) in *.
  set (n := length (b_stmts b)) in *. replace (length orig) with (n + 1)%nat in H by (unfold orig, n; by rewrite length_app).
  rewrite dead_loop_app in H. apply rbind_inr in H as ([[l2 last2] c2] & H & H2).
  apply rbind_inr in H as ([[l1 last1] c1] & H1 & H). cbn [Nat.add dead_loop] in H.
  apply (ran_loop p wirelen buflen Hw orig) in H1; [|apply ran_start|].
  2: { unfold orig, n. rewrite drop_0, take_app_length. exact Hs. }
  cbn [Nat.add] in H1. apply rbind_inr in H as (s & Hl%some_of_inr & H). rewrite (ran_rest _ _ _ _ _ _ _ H1) in Hl by done.
  unfold orig in Hl. rewrite list_lookup_middle in Hl by done. injection Hl as <-.
  apply rbind_inr in H as ([[l3 last3] c3] & H3 & [= <- <- <-]). apply deadstmt_ok in H3 as (last' & Hu & H3); [|apply H1].
  cbn [branch_stmt sl_code sl_k] in *. destruct (branch_def b He) as [Hdef _]. rewrite Hdef in H3. destruct H3 as [-> ->].
  exists l1, last1, last'. split; [exact H1|]. split; [exact Hu|].
  pose proof (dead_at_end_trim out_use last' 0 0 l1 c3 eq_refl) as Ht. destruct (dead_at_end _ _ _ _ _) as [l4 c4].
  cbn [fst] in Ht. apply rbind_inr in H2 as (s & Hl%some_of_inr & [= <- _]).
  assert (Hn : l1 !! n = Some (branch_stmt b)).
  { rewrite (ran_rest _ _ _ _ _ _ _ H1) by done. unfold orig. by rewrite list_lookup_middle. }
  assert (Hlen : length l1 = S n).
  { apply lookup_lt_Some in Hn as Hlt. assert (Hge : l1 !! S n = None).
    { rewrite (ran_rest _ _ _ _ _ _ _ H1) by lia. apply lookup_ge_None. unfold orig, n. rewrite length_app. cbn [length]. lia. }
    apply lookup_ge_None in Hge. lia. }
  rewrite last_lookup, Ht in Hl. rewrite trim_length, Hlen in Hl. cbn [pred] in Hl.
  rewrite trim_lookup, Hn in Hl. destruct Hu as [_ Hu]. assert (Hk0 : killed (fun a => ATOMELEM out_use (Z.of_nat a)) 0 last' n = false).
  { apply not_true_iff_false. intros (a & [Ha _]%Hu & _)%killed_spec. apply (ran_before _ _ _ _ _ _ _ H1) in Ha. lia. }
  cbn in Hl. rewrite Hk0 in Hl. injection Hl as <-. cbn [branch_stmt sl_code sl_k]. rewrite Ht.
  destruct b as [st cd kk t f se hd lt lf off]. unfold with_branch. cbn [b_stmts b_code b_k with_stmts] in *. by rewrite swrap_id by (lia || done).
Qed.

(** The removal of dead stores leaves the branch of a block alone, and
    where the statements of the block complete, those that remain complete too,
    the registers used on exit from the block hold the same, and the block goes
    where it went. *)
Lemma deadstores_same p wirelen buflen out_use b w b' w' : is_u 32 wirelen ->
  Forall sane (b_stmts b) -> ends_block b -> is_i 32 (b_k b) -> opt_deadstores out_use b w = inr (b', w') ->
  (b_code b' = b_code b /\ b_k b' = b_k b /\ b_jt b' = b_jt b /\ b_jf b' = b_jf b) /\
  forall m m1, machine_ok m -> effs p wirelen buflen (b_stmts b) m = Next m1 ->
    exists m1', effs p wirelen buflen (b_stmts b') m = Next m1' /\
      (forall a, ATOMELEM out_use a = true -> reg m1 a = reg m1' a) /\
      leave p wirelen buflen b m1 = leave p wirelen buflen b' m1'.
Proof.
  intros Hw Hs He Hk H. destruct (deadstores_shape p wirelen buflen _ _ _ _ _ Hw Hs He Hk H) as (l & last & last' & Hr & Hu & ->).
  split; [done|]. intros m m1 Hm Hrun. cbn [with_stmts b_stmts].
  rewrite (trim_ext _ _ _ (fun x _ => killed_branch out_use _ _ _ _ _ x (ran_last _ _ _ _ _ _ _ Hr) Hu (ran_before _ _ _ _ _ _ _ Hr))).
  destruct (ran_same _ _ _ _ _ _ _ Hr (fun a => ATOMELEM out_use (Z.of_nat a) || readsb (b_code b) (b_k b) (Z.of_nat a)) m m1 Hm)
    as (m1' & Hrun' & Hok & Hok' & Ha); [by rewrite take_app_length|].
  assert (Hall : forall a, ATOMELEM out_use a || readsb (b_code b) (b_k b) a = true -> reg m1 a = reg m1' a).
  { intros a Hl. apply (reg_everywhere m1 m1' a Hok Hok'). change N_ATOMS with 18. intros Hb. rewrite <- (Z2Nat.id a) by lia.
    apply Ha; [change n_atoms with 18%nat; lia|]. intros _. by rewrite Z2Nat.id by lia. }
  exists m1'. split_and!; [exact Hrun'| |].
  - intros a Hl. apply Hall. by rewrite Hl.
  - apply leave_same; [done..|]. intros a Hra%readsb_spec. apply Hall. by rewrite Hra, orb_true_r.
Qed.
