(* ===== verification/OptFlowSpec.v ===== *)
(** [optimize.c]: what the passes over the flow graph compute - the levels of
    the blocks, and the order that they give. *)
From S2P Require Import Prelude CFile Bpf BpfFilter Gencode GencodeSpec Icode IcodeSpec IcodeCorrect OptFlow OptValue OptValueSpec Optimize OptimizeSpec.
From stdpp Require Import sorting.

#[local] Open Scope nat_scope.
#[local] Open Scope opt_scope.

(** ** [find_levels] *)

Section Levels.
Context (h : heap) (bs : list nat) (root : nat) (Hg : flow_graph h bs).

(** The level of a block, from those of its successors. *)
Definition level_rule (lv : gmap nat nat) (b k : nat) : Prop :=
  exists blk, h !! b = Some blk /\
    match b_jt blk, b_jf blk with
    | Some t, Some f => exists lt lf, lv !! t = Some lt /\ lv !! f = Some lf /\ k = Nat.max lt lf + 1
    | _, _ => k = 0
    end.

(** The levels of the blocks that are finished, while others may be marked. *)
Record levels_ok (s : leveled) : Prop := {
  lo_length : length (lv_levels s) = length bs;
  lo_marked b : b ∈ lv_marked s -> b ∈ bs /\ reachable h root b;
  lo_done b : is_Some (lv_level s !! b) -> b ∈ lv_marked s;
  lo_rule b k : lv_level s !! b = Some k -> level_rule (lv_level s) b k;
  lo_lists k l : lv_levels s !! k = Some l -> NoDup l /\ forall b, b ∈ l <-> lv_level s !! b = Some k;
  lo_in b k : lv_level s !! b = Some k -> k < length (lv_levels s);
  lo_bound b k : lv_level s !! b = Some k -> k < base.size (dom (D := gset nat) (lv_level s)) }.

Lemma level_rule_insert lv b k b' k' : lv !! b = None -> level_rule lv b' k' -> level_rule (<[b := k]> lv) b' k'.
Proof using Type.
  intros Hb (blk & E & H). exists blk. split; [done|]. destruct (b_jt blk) as [t|], (b_jf blk) as [f|]; try done.
  destruct H as (lt & lf & Ht & Hf & ->). exists lt, lf. rewrite !lookup_insert_ne by congruence. done.
Qed.

Lemma enter_level_ok s b k : levels_ok s -> b ∈ lv_marked s -> lv_level s !! b = None ->
  level_rule (lv_level s) b k -> k <= base.size (dom (D := gset nat) (lv_level s)) ->
  exists s', enter_level b k s = inr s' /\ levels_ok s' /\ lv_marked s' = lv_marked s /\
    lv_level s' = <[b := k]> (lv_level s).
Proof using Hg.
  intros [Hlen Hm Hd Hr Hl Hi Hb] Hbm Hbn Hk Hks.
  assert (Hsz : base.size (dom (D := gset nat) (<[b := k]> (lv_level s))) = S (base.size (dom (D := gset nat) (lv_level s)))).
  { rewrite dom_insert_L, size_union, size_singleton; [done|]. apply disjoint_singleton_l. by apply not_elem_of_dom. }
  assert (Hle : base.size (dom (D := gset nat) (<[b := k]> (lv_level s))) <= length bs).
  { rewrite <- (size_list_to_set (C := gset nat) bs) by apply Hg. apply subseteq_size. intros x Hx%elem_of_dom.
    apply elem_of_list_to_set. destruct Hx as [y [[<- _]|[_ Hx]]%lookup_insert_Some]; [by apply Hm|]. apply Hm, Hd. by eexists. }
  assert (Hlt : k < length (lv_levels s)) by lia.
  unfold enter_level. rewrite (proj2 (Nat.ltb_lt _ _) Hlt). eexists. split; [done|]. cbn [lv_marked lv_level]. split_and!; [|done|done].
  split; cbn [lv_levels lv_level lv_marked].
  - by rewrite length_alter.
  - done.
  - intros x [y [[<- _]|[_ Hx]]%lookup_insert_Some]; [done|]. apply Hd. by eexists.
  - intros x kx [[<- <-]|[_ Hx]]%lookup_insert_Some; apply level_rule_insert; auto.
  - intros j l. destruct (decide (j = k)) as [->|Hne].
    + rewrite list_lookup_alter_eq. destruct (lv_levels s !! k) as [l0|] eqn:E; [|done]. intros [= <-].
      destruct (Hl k l0 E) as [Hnd Hin]. split.
      * constructor; [|done]. rewrite Hin. congruence.
      * intros x. rewrite elem_of_cons, Hin, lookup_insert_Some. split; [intros [->|Hx]|intros [[-> _]|[_ Hx]]]; auto.
        right. split; [congruence|done].
    + rewrite list_lookup_alter_ne by done. intros E. destruct (Hl j l E) as [Hnd Hin]. split; [done|].
      intros x. rewrite Hin, lookup_insert_Some. split; [intros Hx; right; split; congruence|intros [[-> Hx]|[_ Hx]]; congruence].
  - intros x kx [[_ <-]|[_ Hx]]%lookup_insert_Some; rewrite length_alter; [done|by eapply Hi].
  - intros x kx. rewrite Hsz. intros [[_ <-]|[_ Hx%Hb]]%lookup_insert_Some; lia.
Qed.

(** Marking a block keeps the rest. *)
Lemma mark_ok b s : levels_ok s -> b ∈ bs -> reachable h root b ->
  levels_ok (Leveled ({[b]} ∪ lv_marked s) (lv_level s) (lv_levels s)).
Proof using Type.
  intros [Hlen Hm Hd Hr Hl Hi Hb] Hbs Hbr. split; cbn [lv_levels lv_level lv_marked]; try done.
  - intros x [->%elem_of_singleton|Hx]%elem_of_union; [done|by apply Hm].
  - intros x Hx. apply elem_of_union_r. by apply Hd.
Qed.

(** What a visit leaves: what was finished, and the marked blocks that were not. *)
Definition visited (s s' : leveled) : Prop :=
  lv_marked s ⊆ lv_marked s' /\ lv_level s ⊆ lv_level s' /\
  (forall x, x ∈ lv_marked s' -> x ∈ lv_marked s \/ is_Some (lv_level s' !! x)) /\
  (forall x, x ∈ lv_marked s -> lv_level s !! x = None -> lv_level s' !! x = None).

Lemma visited_trans s1 s2 s3 : visited s1 s2 -> visited s2 s3 -> visited s1 s3.
Proof using Hg.
  intros (H1 & H2 & H3 & H4) (H5 & H6 & H7 & H8). split_and!; [set_solver|by etransitivity| |].
  - intros x [[Hx|Hx]%H3|Hx]%H7; [by left|right|by right]. destruct Hx as [k Hk]. exists k. by eapply lookup_weaken.
  - intros x Hx Hn. apply H8; [by apply H1|by apply H4].
Qed.

Lemma visited_refl s : visited s s.
Proof using Type. split_and!; auto. Qed.

Abbreviation mark b s := (Leveled ({[b]} ∪ lv_marked s) (lv_level s) (lv_levels s)).

(** The end of a visit: the block gets its level. *)
Lemma finish_visit b k s s2 : b ∉ lv_marked s -> lv_level s !! b = None -> levels_ok s2 -> visited (mark b s) s2 ->
  level_rule (lv_level s2) b k -> k <= base.size (dom (D := gset nat) (lv_level s2)) ->
  exists s', enter_level b k s2 = inr s' /\ levels_ok s' /\ is_Some (lv_level s' !! b) /\ visited s s'.
Proof using Hg.
  intros Hnm Hn Hs2 (Hm & Hl & Hnew & Hold) Hrule Hks. cbn [lv_marked lv_level] in *.
  destruct (enter_level_ok s2 b k Hs2) as (s' & -> & Hs' & Em & El); [set_solver|apply Hold; [set_solver|done]|done|done|].
  exists s'. split; [done|]. split; [done|]. unfold visited. rewrite El, Em. split; [by rewrite lookup_insert_eq|]. split_and!.
  - set_solver.
  - etransitivity; [exact Hl|]. apply insert_subseteq. apply Hold; [set_solver|done].
  - intros x Hx. destruct (decide (x = b)) as [->|Hne]; [right; by rewrite lookup_insert_eq|].
    rewrite lookup_insert_ne by done. destruct (Hnew x Hx) as [[->%elem_of_singleton|Hx']%elem_of_union|Hx']; [done|by left|by right].
  - intros x Hx Hxn. rewrite lookup_insert_ne by (intros ->; done). apply Hold; [set_solver|done].
Qed.

Lemma level_rule_mono lv lv' b k : lv ⊆ lv' -> level_rule lv b k -> level_rule lv' b k.
Proof using Hg.
  intros Hs (blk & E & H). exists blk. split; [done|]. destruct (b_jt blk) as [t|], (b_jf blk) as [f|]; try done.
  destruct H as (lt & lf & Ht & Hf & ->). exists lt, lf. split_and!; [by eapply lookup_weaken..|done].
Qed.

Lemma find_levels_r_ok fuel b s : levels_ok s -> b ∈ bs -> reachable h root b -> Acc (edge h) b ->
  (forall x, x ∈ lv_marked s -> lv_level s !! x = None -> tc (edge h) b x) ->
  base.size (list_to_set bs ∖ lv_marked s) < fuel ->
  exists s', find_levels_r fuel h b s = inr s' /\ levels_ok s' /\ is_Some (lv_level s' !! b) /\ visited s s'.
Proof using Hg.
  revert b s. induction fuel as [|fuel IH]; intros b s Hs Hb Hrb Hacc Hstack Hf; [lia|]. cbn [find_levels_r].
  case_bool_decide as Hin.
  { exists s. split; [done|]. split; [done|]. split; [|apply visited_refl].
    destruct (lv_level s !! b) eqn:E; [by eexists|]. exfalso. eapply Acc_tc_irrefl; [exact Hacc|by apply Hstack]. }
  assert (Hn : lv_level s !! b = None).
  { apply eq_None_not_Some. intros Hx. by apply Hin, (lo_done _ Hs). }
  destruct (proj2 Hg b Hb) as (blk & E & Hk). rewrite E. cbn [some_of rbind]. pose proof (mark_ok b s Hs Hb Hrb) as Hs1.
  destruct Hk as [(_ & Et & Ef)|(_ & t & f & Et & Ef & Htb & Hfb)].
  { unfold both. rewrite Et. cbn [rbind]. apply finish_visit; [done|done|done|apply visited_refl| |].
    - exists blk. split; [done|]. by rewrite Et.
    - lia. }
  unfold both. rewrite Et, Ef. cbn [rbind].
  assert (Hchild : forall c s2, edge h c b -> c ∈ bs -> levels_ok s2 -> visited (mark b s) s2 ->
    exists s', find_levels_r fuel h c s2 = inr s' /\ levels_ok s' /\ is_Some (lv_level s' !! c) /\ visited s2 s').
  { intros c s2 Hc Hcb Hs2 (Hm & Hl & Hnew & Hold). apply IH; [done|done|by eapply rtc_r|by apply Hacc| |].
    - intros x Hx Hxn. destruct (Hnew x Hx) as [[->%elem_of_singleton|Hx']%elem_of_union|[k Hk]]; [by apply tc_once| |congruence].
      eapply tc_l; [exact Hc|]. apply Hstack; [done|]. by eapply lookup_weaken_None.
    - eapply Nat.le_lt_trans; [apply (size_smaller _ ({[b]} ∪ lv_marked s)), Hm|eapply size_shrinks; [set_solver|done|lia]]. }
  assert (Het : edge h t b) by (exists blk; split; [done|by apply succs_jt]).
  assert (Hef : edge h f b) by (exists blk; split; [done|by apply succs_jf]).
  destruct (Hchild t (mark b s) Het Htb Hs1) as (s2 & -> & Hs2 & [lt Hlt] & Hv2); [apply visited_refl|]. cbn [rbind].
  destruct (Hchild f s2 Hef Hfb Hs2 Hv2) as (s3 & -> & Hs3 & [lf Hlf] & Hv3). cbn [rbind].
  assert (Hlt3 : lv_level s3 !! t = Some lt) by (eapply lookup_weaken; [exact Hlt|apply Hv3]).
  rewrite Hlt3, Hlf. cbn [some_of rbind]. apply finish_visit; [done|done|done|by eapply visited_trans| |].
  - exists blk. split; [done|]. rewrite Et, Ef. by exists lt, lf.
  - pose proof (lo_bound _ Hs3 _ _ Hlt3). pose proof (lo_bound _ Hs3 _ _ Hlf). lia.
Qed.

Lemma find_levels_ok : root ∈ bs -> Acc (edge h) root ->
  exists lv, find_levels h (length bs) root = inr lv /\ levels_ok lv /\
    forall b, is_Some (lv_level lv !! b) <-> reachable h root b.
Proof using Hg.
  intros Hr Hacc. destruct (find_levels_r_ok (S (base.size h)) root (Leveled ∅ ∅ (repeat [] (length bs)))) as (lv & E & Hok & Hroot & Hv);
    [|done|apply rtc_refl|done|set_solver| |].
  - split; cbn [lv_marked lv_level lv_levels].
    + apply repeat_length.
    + set_solver.
    + intros b [k Hk]. by rewrite lookup_empty in Hk.
    + intros b k Hk. by rewrite lookup_empty in Hk.
    + intros k l Hl. apply list_elem_of_lookup_2, list_elem_of_In, repeat_spec in Hl as ->. split; [constructor|].
      intros b. rewrite lookup_empty. split; [by intros ?%elem_of_nil|done].
    + intros b k Hk. by rewrite lookup_empty in Hk.
    + intros b k Hk. by rewrite lookup_empty in Hk.
  - cbn [lv_marked]. rewrite difference_empty_L. pose proof (flow_size h bs Hg). lia.
  - exists lv. split; [exact E|]. split; [done|]. intros b. split; [intros H; by apply (lo_marked _ Hok), (lo_done _ Hok)|].
    revert b. apply rtc_ind_r; [done|]. intros x y _ (blk & Eb & Hy) [k Hk].
    destruct (lo_rule _ Hok x k Hk) as (blk' & Eb' & Hrule). simplify_eq. apply elem_of_succs in Hy.
    destruct (lo_marked _ Hok x (lo_done _ Hok x (ex_intro _ k Hk))) as [Hxb _].
    destruct (proj2 Hg x Hxb) as (blk2 & Eb2 & [(_ & Et & Ef)|(_ & t & f & Et & Ef & _)]); simplify_eq; rewrite Et, Ef in *.
    + by destruct Hy.
    + destruct Hrule as (lt & lf & Ht & Hf & _). destruct Hy; simplify_eq; by eexists.
Qed.
End Levels.

(** ** The order of the levels *)

(** Lists of blocks by level, joined from the leaves up and from the top down. *)
Section Join.
Context (L : list (list nat)) (key : nat -> nat).
Context (HL : forall k l, L !! k = Some l -> NoDup l /\ forall b, b ∈ l -> key b = k).

Lemma in_take n b : b ∈ concat (take n L) <-> exists k l, k < n /\ L !! k = Some l /\ b ∈ l.
Proof using Type.
  rewrite list_elem_of_In, in_concat. split.
  - intros (l & Hl & Hb). apply list_elem_of_In, list_elem_of_lookup in Hl as [k Hk]. apply lookup_take_Some in Hk as [Hk Hlt].
    exists k, l. by rewrite list_elem_of_In.
  - intros (k & l & Hlt & Hl & Hb). exists l. split; [|by apply list_elem_of_In]. apply list_elem_of_In, list_elem_of_lookup.
    exists k. by apply lookup_take_Some.
Qed.

Lemma in_rev_take n b : b ∈ concat (rev (take n L)) <-> b ∈ concat (take n L).
Proof using Type.
  rewrite !list_elem_of_In, !in_concat. split; intros (l & Hl & Hb); exists l; (split; [|done]); [by apply in_rev|by apply -> in_rev].
Qed.

Lemma key_lt n b : b ∈ concat (take n L) -> key b < n.
Proof using HL. intros (k & l & Hlt & Hl & Hb)%in_take. destruct (HL k l Hl) as [_ Hk]. by rewrite (Hk b Hb). Qed.

Lemma level_sorted (R : nat -> nat -> Prop) k l : L !! k = Some l -> (forall x y, key x = key y -> R x y) -> StronglySorted R l.
Proof using HL.
  intros Hl HR. destruct (HL k l Hl) as [_ Hk]. assert (Hs : forall l', (forall b, b ∈ l' -> key b = k) -> StronglySorted R l').
  { induction l' as [|x l' IH]; intros Hx; constructor; [apply IH; intros; apply Hx; by right|].
    apply Forall_forall. intros y Hy. apply HR. rewrite !Hx; [done|by right|by left]. }
  by apply Hs.
Qed.

Lemma up_sorted n : StronglySorted (fun x y => key x <= key y) (concat (take n L)) /\ NoDup (concat (take n L)).
Proof using HL.
  induction n as [|n [IH1 IH2]]; [rewrite take_0; split; constructor|].
  destruct (L !! n) as [l|] eqn:E.
  - rewrite (take_S_r _ _ _ E), concat_app. cbn [concat]. rewrite app_nil_r.
    assert (Hlt : forall x y, x ∈ concat (take n L) -> y ∈ l -> key x < key y).
    { intros x y Hx%key_lt Hy. destruct (HL n l E) as [_ Hk]. by rewrite (Hk y Hy). }
    split.
    + apply StronglySorted_app. split_and!; [|done|eapply level_sorted; [exact E|lia]]. intros x y Hx Hy. specialize (Hlt x y Hx Hy). lia.
    + apply NoDup_app. split_and!; [done| |by apply (HL n l E)]. intros x Hx Hx'. specialize (Hlt x x Hx Hx'). lia.
  - apply lookup_ge_None in E. by rewrite (take_ge L (S n)), <- (take_ge L n) by lia.
Qed.

Lemma down_sorted n : StronglySorted (fun x y => key y <= key x) (concat (rev (take n L))) /\ NoDup (concat (rev (take n L))).
Proof using HL.
  induction n as [|n [IH1 IH2]]; [rewrite take_0; split; constructor|].
  destruct (L !! n) as [l|] eqn:E.
  - rewrite (take_S_r _ _ _ E), rev_app_distr. cbn [rev app concat].
    assert (Hlt : forall x y, x ∈ concat (rev (take n L)) -> y ∈ l -> key x < key y).
    { intros x y Hx%in_rev_take%key_lt Hy. destruct (HL n l E) as [_ Hk]. by rewrite (Hk y Hy). }
    split.
    + apply StronglySorted_app. split_and!; [|eapply level_sorted; [exact E|lia]|done]. intros x y Hx Hy. specialize (Hlt y x Hy Hx). lia.
    + apply NoDup_app. split_and!; [by apply (HL n l E)| |done]. intros x Hx Hx'. specialize (Hlt x x Hx' Hx). lia.
  - apply lookup_ge_None in E. by rewrite (take_ge L (S n)), <- (take_ge L n) by lia.
Qed.

Lemma sorted_before (R : nat -> nat -> Prop) l1 b l2 c : StronglySorted R (l1 ++ b :: l2) -> c ∈ l1 ++ b :: l2 ->
  c <> b -> ~ R b c -> c ∈ l1.
Proof using Type.
  intros Hs Hc Hne Hn. apply elem_of_app in Hc as [Hc|Hc]; [done|]. apply elem_of_cons in Hc as [->|Hc]; [done|].
  exfalso. apply StronglySorted_app in Hs as (_ & _ & Hs). apply StronglySorted_cons in Hs as [Hs _].
  rewrite Forall_forall in Hs. by apply Hn, Hs.
Qed.
End Join.

(** The blocks that can be reached, each before those it leads to, and those
    that are no leaves, each after those it leads to. *)
Section Order.
Context (h : heap) (bs : list nat) (root : nat) (Hg : flow_graph h bs) (Hr : root ∈ bs) (lv : leveled).
Context (Hok : levels_ok h bs root lv) (Hall : forall b, is_Some (lv_level lv !! b) <-> reachable h root b).
Context (top : nat) (Htop : lv_level lv !! root = Some top).
Abbreviation key := (fun b => default 0 (lv_level lv !! b)).

Lemma levels_key k l : lv_levels lv !! k = Some l -> NoDup l /\ forall b, b ∈ l -> key b = k.
Proof using Hok.
  intros Hl. destruct (lo_lists _ _ _ _ Hok k l Hl) as [Hnd Hin]. split; [done|]. intros b Hb%Hin. by rewrite Hb.
Qed.

Lemma reachable_in b : reachable h root b -> b ∈ bs.
Proof using Hok Hall. intros H%Hall. by apply (lo_marked _ _ _ _ Hok), (lo_done _ _ _ _ Hok). Qed.

Lemma level_edge b c : reachable h root b -> edge h c b -> key c < key b.
Proof using Hok Hall Hg.
  intros Hb (blk & E & Hc). pose proof (reachable_in b Hb) as Hbs. apply Hall in Hb as [k Hk].
  destruct (lo_rule _ _ _ _ Hok b k Hk) as (blk' & E' & Hrule). simplify_eq. rewrite Hk. apply elem_of_succs in Hc.
  destruct (proj2 Hg b Hbs) as (blk2 & E2 & [(_ & Et & Ef)|(_ & t & f & Et & Ef & _)]); simplify_eq; rewrite Et, Ef in *; [by destruct Hc|].
  destruct Hrule as (lt & lf & Ht & Hf & ->). cbn. destruct Hc; simplify_eq; rewrite ?Ht, ?Hf; cbn; lia.
Qed.

Lemma level_top b : reachable h root b -> key b <= top.
Proof using Hok Hall Hg Htop.
  revert b. apply rtc_ind_r; [by rewrite Htop|]. intros x y Hx He IH. pose proof (level_edge x y Hx He). lia.
Qed.

Lemma in_levels b : reachable h root b -> b ∈ concat (take (S top) (lv_levels lv)).
Proof using Hok Hall Hg Htop.
  intros Hb. pose proof (level_top b Hb) as Ht. apply Hall in Hb as [k Hk]. cbn in Ht. rewrite Hk in Ht. cbn in Ht.
  pose proof (lo_in _ _ _ _ Hok b k Hk) as Hlt. apply lookup_lt_is_Some in Hlt as [l Hl]. apply in_take. exists k, l.
  split; [lia|]. split; [done|]. by apply (lo_lists _ _ _ _ Hok k l Hl).
Qed.

Lemma elem_of_down b : b ∈ down top (lv_levels lv) <-> reachable h root b.
Proof using Hok Hall Hg Htop.
  unfold down. rewrite in_rev_take. split; [|by apply in_levels]. intros (k & l & _ & Hl & Hb)%in_take.
  apply Hall. exists k. by apply (lo_lists _ _ _ _ Hok k l Hl).
Qed.

Lemma down_NoDup : NoDup (down top (lv_levels lv)).
Proof using Hok. eapply down_sorted, levels_key. Qed.

Lemma down_before l1 b l2 x : down top (lv_levels lv) = l1 ++ b :: l2 -> reachable h root x -> edge h b x -> x ∈ l1.
Proof using Hok Hall Hg Htop.
  intros E Hx He. pose proof (level_edge x b Hx He) as Hlt. cbn in Hlt.
  eapply (sorted_before (fun x y => key y <= key x) l1 b l2 x).
  - rewrite <- E. eapply down_sorted, levels_key.
  - rewrite <- E. by apply elem_of_down.
  - intros ->. lia.
  - lia.
Qed.

Lemma up_split : exists l0, lv_levels lv !! 0 = Some l0 /\ concat (take (S top) (lv_levels lv)) = l0 ++ up top (lv_levels lv).
Proof using Hok Htop.
  pose proof (lo_in _ _ _ _ Hok root top Htop) as Hlt. destruct (lv_levels lv) as [|l0 L] eqn:E; [cbn in Hlt; lia|].
  exists l0. split; [done|]. unfold up. done.
Qed.

Lemma elem_of_up b : b ∈ up top (lv_levels lv) <-> reachable h root b /\ 0 < key b.
Proof using Hok Hall Hg Htop.
  destruct up_split as (l0 & E0 & E). pose proof (proj2 (up_sorted _ key levels_key (S top))) as Hnd. rewrite E in Hnd.
  apply NoDup_app in Hnd as (_ & Hdis & _). split.
  - intros Hb. assert (Hr' : reachable h root b).
    { apply elem_of_down. unfold down. rewrite in_rev_take, E. apply elem_of_app. by right. }
    split; [done|]. apply Nat.neq_0_lt_0. intros Hk. apply Hall in Hr' as [k Hk']. rewrite Hk' in Hk. cbn in Hk. subst k.
    apply (Hdis b); [by apply (lo_lists _ _ _ _ Hok 0 l0 E0)|done].
  - intros [Hb Hk]. apply in_levels in Hb. rewrite E in Hb. apply elem_of_app in Hb as [Hb|Hb]; [|done].
    destruct (levels_key 0 l0 E0) as [_ H0]. specialize (H0 b Hb). cbn in H0. lia.
Qed.

Lemma up_NoDup : NoDup (up top (lv_levels lv)).
Proof using Hok Htop.
  destruct up_split as (l0 & E0 & E). pose proof (proj2 (up_sorted _ key levels_key (S top))) as Hnd. rewrite E in Hnd.
  by apply NoDup_app in Hnd as (_ & _ & ?).
Qed.

Lemma up_after l1 b l2 c : up top (lv_levels lv) = l1 ++ b :: l2 -> reachable h root b -> edge h c b -> 0 < key c -> c ∈ l1.
Proof using Hok Hall Hg Htop.
  intros E Hb He Hk. pose proof (level_edge b c Hb He) as Hlt. cbn in Hlt.
  eapply (sorted_before (fun x y => key x <= key y) l1 b l2 c).
  - rewrite <- E. destruct up_split as (l0 & _ & E'). pose proof (proj1 (up_sorted _ key levels_key (S top))) as Hs.
    rewrite E' in Hs. by apply StronglySorted_app in Hs as (_ & _ & ?).
  - rewrite <- E. apply elem_of_up. split; [by eapply rtc_r|done].
  - intros ->. lia.
  - lia.
Qed.
End Order.
