(* ===== verification/OptLiveSpec.v ===== *)
(** [optimize.c]: the use of registers ([compute_local_ud], [find_ud]), and that
    the removal of dead stores from the blocks of a flow graph keeps the
    verdict of the runs in which every statement completes. *)
From S2P Require Import Prelude CFile Bpf BpfFilter Gencode Icode IcodeSpec IcodeCorrect OptFlow OptValue OptValueSpec Optimize.
From S2P Require Import OptimizeSpec OptDeadSpec OptFlowSpec.

#[local] Open Scope Z_scope.
#[local] Open Scope c_scope.
#[local] Open Scope opt_scope.

(** ** The use of registers in a block *)

(** Machines agree on a set of registers. *)
Definition agrees (P : Z -> Prop) (m m' : machine) : Prop := forall a, P a -> reg m a = reg m' a.
Abbreviation has x := (fun a => ATOMELEM x a = true).

Lemma note_use_ok a u u' : note_use a u = inr u' ->
  l_def u' = l_def u /\ l_kill u' = l_kill u /\ (forall r, has (l_use u) r -> has (l_use u') r) /\
  forall r, 0 <= r -> r = a \/ (a = AX_ATOM /\ (r = A_ATOM \/ r = X_ATOM)) -> r = AX_ATOM \/ has (l_use u') r \/ has (l_def u) r.
Proof.
  assert (Hu : forall b u, 0 <= b -> l_def (use_atom b u) = l_def u /\ l_kill (use_atom b u) = l_kill u /\
    (forall r, has (l_use u) r -> has (l_use (use_atom b u)) r) /\ (has (l_use (use_atom b u)) b \/ has (l_def u) b)).
  { intros b v Hb. unfold use_atom, ATOMELEM. destruct (Z.testbit (l_def v) b) eqn:E; cbn [l_def l_use l_kill]; [split_and!; auto|].
    split_and!; [done|done| |left; by rewrite Z.setbit_eq]. intros r Hr. by rewrite Z.setbit_eqb, Hr, orb_true_r by done. }
  unfold note_use. destruct (Z.ltb_spec a 0) as [H|H].
  { intros [= <-]. split_and!; [done..|]. intros r Hr [->|[-> _]]; [lia|by left]. }
  destruct (Z.eqb_spec a AX_ATOM) as [->|Hne].
  - intros [= <-]. destruct (Hu X_ATOM u ltac:(done)) as (D1 & K1 & M1 & X1).
    destruct (Hu A_ATOM (use_atom X_ATOM u) ltac:(done)) as (D2 & K2 & M2 & X2). rewrite D1 in *. split_and!; [congruence|congruence|auto|].
    intros r _ [->|[_ [->| ->]]]; [by left|right; tauto|]. right. destruct X1 as [X1|X1]; [left; by apply M2|by right].
  - destruct (Z.ltb_spec a N_ATOMS); [|done]. intros [= <-]. destruct (Hu a u H) as (D1 & K1 & M1 & X1).
    split_and!; [done..|]. intros r _ [->|[-> _]]; [right; tauto|done].
Qed.

Lemma note_def_ok d u u' : note_def d u = inr u' ->
  l_use u' = l_use u /\ (forall r, has (l_def u) r -> has (l_def u') r) /\ (0 <= d -> has (l_def u') d) /\
  (forall r, has (l_def u') r -> has (l_def u) r \/ r = d) /\
  forall r, has (l_kill u') r -> has (l_kill u) r \/ has (l_def u') r.
Proof.
  unfold note_def. destruct (Z.ltb_spec d 0) as [H|H].
  { intros [= <-]. split_and!; auto. lia. }
  intros (k & Hk & (def & Hd & [= <-])%rbind_inr)%rbind_inr. cbn [l_use l_def l_kill].
  assert (Ha : forall x y, add_atom x d = inr y -> y = Z.setbit x d) by (unfold add_atom; intros x y; destruct (_ <? _); [by intros [= <-]|done]).
  apply Ha in Hd as ->. unfold ATOMELEM in *. split_and!; [done|..].
  - intros r Hr. by rewrite Z.setbit_eqb, Hr, orb_true_r.
  - intros _. by apply Z.setbit_eq.
  - intros r Hr. rewrite Z.setbit_eqb in Hr by done. apply orb_true_iff in Hr as [Hr%Z.eqb_eq|Hr]; [by right|by left].
  - intros r Hr. destruct (Z.testbit (l_use u) d); [injection Hk as <-; by left|]. apply Ha in Hk as ->.
    rewrite Z.setbit_eqb in Hr |- * by done. apply orb_true_iff in Hr as [Hr|Hr]; [right; by rewrite Hr|by left].
Qed.

Lemma stmt_ud_ok s u u' : stmt_ud s u = inr u' ->
  (forall r, has (l_use u) r -> has (l_use u') r) /\ (forall r, has (l_def u) r -> has (l_def u') r) /\
  ((forall r, has (l_kill u) r -> has (l_def u) r) -> forall r, has (l_kill u') r -> has (l_def u') r) /\
  (sl_code s <> NOP ->
    (forall r, 0 <= r < N_ATOMS -> reads (sl_code s) (sl_k s) r -> has (l_use u') r \/ has (l_def u) r) /\
    (forall r, has (l_def u') r -> has (l_def u) r \/ r = atomdef (sl_code s) (sl_k s)) /\
    (0 <= atomdef (sl_code s) (sl_k s) -> has (l_def u') (atomdef (sl_code s) (sl_k s)))).
Proof.
  unfold stmt_ud. destruct (Z.eqb_spec (sl_code s) NOP) as [E|E]; [intros [= <-]; split_and!; auto; done|].
  intros (u1 & (D1 & K1 & M1 & X1)%note_use_ok & (U2 & D2 & W2 & O2 & K2)%note_def_ok)%rbind_inr.
  rewrite U2, D1 in *. split_and!; [auto|auto| |].
  - intros Hk r [Hr|Hr]%K2; [|done]. apply D2, Hk. by rewrite <- K1.
  - intros _. split_and!; [|done|done]. intros r Hb Hr. destruct (X1 r ltac:(lia) Hr) as [->|H]; [|done].
    change AX_ATOM with N_ATOMS in Hb. lia.
Qed.

Lemma stmts_ud_mono l u u' : each stmt_ud l u = inr u' ->
  (forall r, has (l_use u) r -> has (l_use u') r) /\
  ((forall r, has (l_kill u) r -> has (l_def u) r) -> forall r, has (l_kill u') r -> has (l_def u') r).
Proof.
  revert u. induction l as [|s l IH]; intros u; cbn [each]; [by intros [= <-]|].
  intros (u1 & (M & _ & K & _)%stmt_ud_ok & [M' K']%IH)%rbind_inr. split; auto.
Qed.

(** The blocks that the code generator makes: the registers that their
    statements name are there. *)
Definition in_range (s : slist) : Prop :=
  atomuse (sl_code s) (sl_k s) <= AX_ATOM /\ atomdef (sl_code s) (sl_k s) < N_ATOMS.
Definition fine_block (b : block) : Prop :=
  Forall sane (b_stmts b) /\ Forall in_range (b_stmts b) /\ is_i 32 (b_k b) /\
  ((exists j s, decode (b_code b) = Some (JmpIf j s)) \/ decode (b_code b) = Some RetK).

Lemma fine_ends b : fine_block b -> ends_block b.
Proof. intros (_ & _ & _ & [H|H]); [by left|by right; left]. Qed.

Lemma branch_range b : fine_block b -> atomuse (b_code b) (b_k b) <= AX_ATOM /\ atomdef (b_code b) (b_k b) < 0.
Proof.
  intros Hf. rewrite (proj1 (branch_def b (fine_ends b Hf))). split; [|done]. destruct Hf as (_ & _ & _ & [(j & s & Hd)|Hd]);
    rewrite (atomuse_op _ _ _ Hd); [by destruct s|done].
Qed.

Lemma note_use_total a u : a <= AX_ATOM -> exists u', note_use a u = inr u'.
Proof.
  intros H. unfold note_use. destruct (a <? 0); [by eexists|]. destruct (Z.eqb_spec a AX_ATOM); [by eexists|].
  change AX_ATOM with N_ATOMS in *. rewrite (proj2 (Z.ltb_lt a N_ATOMS)) by lia. by eexists.
Qed.

Lemma note_def_total d u : d < N_ATOMS -> exists u', note_def d u = inr u'.
Proof.
  intros H. change N_ATOMS with 18 in H. unfold note_def, add_atom. destruct (d <? 0); [by eexists|].
  rewrite (proj2 (Z.ltb_lt d 32)) by lia. destruct (ATOMELEM _ _); by eexists.
Qed.

Lemma compute_local_ud_total b : fine_block b -> exists u, compute_local_ud b = inr u.
Proof.
  intros Hf. pose proof Hf as (_ & Hs & _). unfold compute_local_ud.
  destruct (each_inr (fun _ => True) stmt_ud (b_stmts b) (LocalUd 0 0 0)) as (u & -> & _); [|done|].
  - intros s u Hin _. rewrite Forall_forall in Hs. destruct (Hs s Hin) as [Hu Hd]. unfold stmt_ud.
    destruct (_ =? _); [by eexists|]. destruct (note_use_total _ u Hu) as [u1 ->]. cbn [rbind].
    destruct (note_def_total _ u1 Hd) as [u2 ->]. by eexists.
  - cbn [rbind]. destruct (_ =? _); [|by eexists]. apply note_use_total. by apply branch_range.
Qed.

Section Uses.
Context (p : list byte) (wirelen buflen : Z) (Hw : is_u 32 wirelen).

(** The statements compute the same on machines that agree on what they use. *)
Lemma stmts_use (P : Z -> Prop) l u u' m m' m1 : Forall sane l -> each stmt_ud l u = inr u' ->
  (forall r, has (l_use u') r -> P r) -> machine_ok m -> machine_ok m' ->
  agrees (fun r => P r \/ has (l_def u) r) m m' -> effs p wirelen buflen l m = Next m1 ->
  exists m1', effs p wirelen buflen l m' = Next m1' /\ machine_ok m1 /\ machine_ok m1' /\
    agrees (fun r => P r \/ has (l_def u') r) m1 m1'.
Proof using Hw.
  intros Hs. revert u m m'. induction Hs as [|s l [Hp Hk] Hs IH]; intros u m m' Hu HP Hm Hm' Ha He; cbn [each effs] in *.
  { injection Hu as <-. injection He as <-. by exists m'. }
  apply rbind_inr in Hu as (u1 & H1 & Hu). destruct (stmts_ud_mono _ _ _ Hu) as [Hmono _].
  destruct (eff p wirelen buflen s m) as [m2|] eqn:E2; [|done].
  destruct Hp as [Hc|(o & Hd & Ho & _)].
  - assert (Hnop : forall x, eff p wirelen buflen s x = Next x) by (intros x; unfold eff; by rewrite Hc, Z.eqb_refl).
    rewrite Hnop in E2 |- *. injection E2 as <-. unfold stmt_ud in H1. rewrite Hc, Z.eqb_refl in H1. injection H1 as <-. by apply (IH u m m').
  - apply stmt_ud_ok in H1 as (M1 & D1 & _ & H1). destruct H1 as (R1 & O1 & W1); [by intros Hc; rewrite Hc in Hd|].
    destruct (op_same p wirelen buflen s o Hd Ho Hk m m' m2 Hm Hm' E2) as (x & Hd0 & -> & E2' & Hx & Hx').
    { intros a Hra. apply (reg_everywhere m m' a Hm Hm'). intros Hb. apply Ha. destruct (R1 a Hb Hra); auto. }
    rewrite E2'. eapply (IH u1); [done|done|exact (eff_ok p wirelen buflen s m _ Hw Hm E2)|exact (eff_ok p wirelen buflen s m' _ Hw Hm' E2')| |exact He].
    intros r Hr. destruct (decide (r = atomdef (sl_code s) (sl_k s))) as [->|Hne]; [congruence|].
    rewrite !reg_set_other by congruence. apply Ha. destruct Hr as [Hr|Hr]; [by left|]. apply O1 in Hr as [Hr|Hr]; [by right|done].
Qed.

(** So does a block, given what is used after it and it does not assign first. *)
Lemma block_use b u out m m' m1 : fine_block b -> compute_local_ud b = inr u -> machine_ok m -> machine_ok m' ->
  agrees (fun r => has (l_use u) r \/ (has out r /\ ~ has (l_kill u) r)) m m' -> effs p wirelen buflen (b_stmts b) m = Next m1 ->
  exists m1', effs p wirelen buflen (b_stmts b) m' = Next m1' /\ machine_ok m1 /\ machine_ok m1' /\
    agrees (has out) m1 m1' /\ leave p wirelen buflen b m1 = leave p wirelen buflen b m1'.
Proof using Hw.
  intros Hf Hu Hm Hm' Ha He. unfold compute_local_ud in Hu. apply rbind_inr in Hu as (u0 & H0 & Hu).
  pose proof Hf as (Hs & _ & _ & Hbr).
  assert (Hnote : l_def u = l_def u0 /\ l_kill u = l_kill u0 /\ (forall r, has (l_use u0) r -> has (l_use u) r) /\
    forall r, 0 <= r < N_ATOMS -> reads (b_code b) (b_k b) r -> has (l_use u) r \/ has (l_def u0) r).
  { destruct Hbr as [(j & s & Hd)|Hd].
    - assert (Hc : BPF_CLASS (b_code b) = BPF_JMP) by (rewrite (decode_Some _ _ Hd); by destruct j, s).
      rewrite Hc, Z.eqb_refl in Hu. apply note_use_ok in Hu as (D & K & M & X). split_and!; [done..|].
      intros r Hr Hrr. destruct (X r ltac:(lia) Hrr) as [->|H]; [change AX_ATOM with N_ATOMS in Hr; lia|done].
    - assert (Hc : BPF_CLASS (b_code b) =? BPF_JMP = false) by (by rewrite (decode_Some _ _ Hd)).
      rewrite Hc in Hu. injection Hu as <-. split_and!; [done..|]. intros r Hr [E|[E _]]; exfalso; revert E;
        rewrite (atomuse_op _ _ _ Hd); cbn [op_use]; [lia|done]. }
  destruct Hnote as (ED & EK & HM & HR). destruct (stmts_ud_mono _ _ _ H0) as [_ HK].
  destruct (stmts_use (fun r => has (l_use u) r \/ (has out r /\ ~ has (l_kill u) r)) (b_stmts b) _ u0 m m' m1 Hs H0)
    as (m1' & E1 & Hok & Hok' & Ha1); [by left; apply HM|done|done| |done|].
  { intros r [Hr|Hr]; [by apply Ha|]. cbn [l_def] in Hr. unfold ATOMELEM in Hr. by rewrite Z.testbit_0_l in Hr. }
  exists m1'. split_and!; [done|done|done| |].
  - intros r Hr. apply Ha1. destruct (decide (ATOMELEM (l_kill u) r = true)) as [Hk|Hk]; [|by left; right].
    right. apply HK; [|by rewrite <- EK]. cbn [l_kill l_def]. done.
  - apply leave_same; [by apply fine_ends|done..|]. intros r Hr. apply (reg_everywhere m1 m1' r Hok Hok').
    intros Hb. apply Ha1. destruct (HR r Hb Hr); [by left; left|by right].
Qed.
End Uses.

(** ** [find_ud] *)

Section Find.
Context (h : heap) (bs : list nat) (root : nat) (Hg : flow_graph h bs) (Hr : root ∈ bs) (lv : leveled).
Context (Hok : levels_ok h bs root lv) (Hall : forall b, is_Some (lv_level lv !! b) <-> reachable h root b).

(** The sets of a block before the second loop, and after its turn. *)
Definition local_sets (b : nat) (u : ud) : Prop :=
  exists blk lu, h !! b = Some blk /\ compute_local_ud blk = inr lu /\ u = Ud (l_kill lu) (l_use lu) 0.
Definition flow_sets (m : gmap nat ud) (b : nat) (u : ud) : Prop :=
  exists blk lu, h !! b = Some blk /\ compute_local_ud blk = inr lu /\ u_kill u = l_kill lu /\
    u_in u = l_use lu .| Z.ldiff (u_out u) (l_kill lu) /\
    forall c, edge h c b -> exists uc, m !! c = Some uc /\ forall r, has (u_in uc) r -> has (u_out u) r.

Lemma find_ud_start top m : lv_level lv !! root = Some top ->
  each (fun b (m : gmap nat ud) => blk <~ some_of (h !! b) ;; u <~ compute_local_ud blk ;; inr (<[b := Ud (l_kill u) (l_use u) 0]> m))
       (down top (lv_levels lv)) (∅ : gmap nat ud) = inr m ->
  forall b, reachable h root b -> exists u, m !! b = Some u /\ local_sets b u.
Proof using Hok Hall Hg.
  intros Ht H. set (P := fun (l : list nat) (m : gmap nat ud) => forall b, b ∈ l -> exists u, m !! b = Some u /\ local_sets b u).
  assert (HP : P (down top (lv_levels lv)) m).
  { eapply (each_prefix P); [| |exact H].
    - intros b Hb%elem_of_nil. done.
    - intros l1 x l2 m1 m2 _ Hm (blk & E%some_of_inr & (lu & Elu & [= <-])%rbind_inr)%rbind_inr b Hb.
      destruct (decide (b = x)) as [->|Hne].
      + exists (Ud (l_kill lu) (l_use lu) 0). split; [apply lookup_insert_eq|]. by exists blk, lu.
      + rewrite lookup_insert_ne by done. apply Hm. apply elem_of_app in Hb as [Hb|Hb%list_elem_of_singleton]; done. }
  intros b Hb. apply HP. by eapply elem_of_down.
Qed.

(** The turn of a block. *)
Lemma flow_up_ok x blk lu m m' : h !! x = Some blk -> compute_local_ud blk = inr lu ->
  m !! x = Some (Ud (l_kill lu) (l_use lu) 0) -> (forall c, edge h c x -> c <> x) -> flow_up h x m = inr m' ->
  exists u, m' = <[x := u]> m /\ flow_sets m' x u.
Proof using Type.
  intros Eb Elu Em Hirr H. unfold flow_up in H. rewrite Eb, Em in H. cbn [some_of rbind] in H.
  apply rbind_inr in H as (succs & Hs & H). unfold both in Hs.
  destruct (b_jt blk) as [t|] eqn:Et; [|by injection Hs as <-]. destruct (b_jf blk) as [f|] eqn:Ef; [|done]. injection Hs as <-.
  apply rbind_inr in H as (ut & Hut%some_of_inr & (uf & Huf%some_of_inr & [= <-])%rbind_inr).
  eexists. split; [done|]. exists blk, lu. split_and!; [done..|]. intros c Hc. pose proof (Hirr c Hc) as Hne.
  rewrite lookup_insert_ne by done. destruct Hc as (blk' & Eb' & Hc). simplify_eq. cbn [u_in u_out]. unfold ATOMELEM.
  apply elem_of_succs in Hc as [Hc|Hc]; simplify_eq; eexists; (split; [done|]); intros r Hx;
    rewrite !Z.lor_spec, Hx, ?orb_true_r; done.
Qed.

Lemma find_ud_ok m : find_ud h lv root = inr m -> forall b, reachable h root b -> exists u, m !! b = Some u /\ flow_sets m b u.
Proof using Hok Hall Hg.
  unfold find_ud. intros (top & Ht%some_of_inr & (m0 & H0 & H)%rbind_inr)%rbind_inr.
  pose proof (find_ud_start top m0 Ht H0) as Hm0. clear H0.
  assert (Hirr : forall b, reachable h root b -> forall c, edge h c b -> c <> b).
  { intros b Hb c He ->. pose proof (level_edge h bs root Hg lv Hok Hall b b Hb He). lia. }
  set (P := fun (l : list nat) (m : gmap nat ud) => forall b, reachable h root b ->
    if decide (b ∈ l) then exists u, m !! b = Some u /\ flow_sets m b u else m !! b = m0 !! b).
  assert (HP : P (up top (lv_levels lv)) m).
  { eapply (each_prefix P); [| |exact H].
    - intros b _. by rewrite decide_False by apply not_elem_of_nil.
    - intros l1 x l2 m1 m2 El Hm1 Hx. pose proof (up_NoDup h bs root lv Hok top Ht) as Hnd. rewrite El in Hnd.
      apply NoDup_app in Hnd as (_ & Hxl & _). assert (Hxn : x ∉ l1) by (intros Hx'; eapply Hxl; [exact Hx'|by left]).
      assert (Hxu : reachable h root x /\ (0 < default 0 (lv_level lv !! x))%nat).
      { eapply (elem_of_up h bs root Hg lv Hok Hall top Ht). rewrite El. apply elem_of_app. right. by left. }
      destruct Hxu as [Hxr Hxk]. pose proof (Hm1 x Hxr) as Hmx. rewrite decide_False in Hmx by done.
      destruct (Hm0 x Hxr) as (u & Eu & blk & lu & Eb & Elu & ->). rewrite Eu in Hmx.
      destruct (flow_up_ok x blk lu m1 m2 Eb Elu Hmx (Hirr x Hxr) Hx) as (ux & -> & Hux).
      intros b Hb. case_decide as Hd.
      + apply elem_of_app in Hd as [Hd|Hd%list_elem_of_singleton]; [|subst b; exists ux; split; [apply lookup_insert_eq|done]].
        specialize (Hm1 b Hb). rewrite decide_True in Hm1 by done. destruct Hm1 as (ub & Eub & bb & lb & Ebb & Elb & Hk & Hi & He).
        exists ub. rewrite lookup_insert_ne by (intros ->; done). split; [done|]. exists bb, lb. split_and!; [done..|].
        intros c Hc. destruct (He c Hc) as (uc & Ec & Hcc). exists uc. split; [|done]. rewrite lookup_insert_ne; [done|].
        intros ->. apply list_elem_of_split in Hd as (la & lb' & ->). apply Hxn. apply elem_of_app. left.
        eapply (up_after h bs root Hg lv Hok Hall top Ht la b (lb' ++ c :: l2)); [by rewrite El, <- app_assoc|done..].
      + apply not_elem_of_app in Hd as [Hd Hd2]. rewrite lookup_insert_ne by (intros ->; apply Hd2; by left).
        specialize (Hm1 b Hb). by rewrite decide_False in Hm1. }
  intros b Hb. specialize (HP b Hb). cbn beta in HP. case_decide as Hd; [done|].
  destruct (Hm0 b Hb) as (u & E & blk & lu & Eb & Elu & ->).
  exists (Ud (l_kill lu) (l_use lu) 0). split; [by rewrite HP|]. exists blk, lu. split_and!; [done..| |].
  - cbn [u_in u_out]. by rewrite Z.ldiff_0_l, Z.lor_0_r.
  - intros c Hc. exfalso. apply Hd. eapply elem_of_up; [done..|]. split; [done|].
    pose proof (level_edge h bs root Hg lv Hok Hall b c Hb Hc). cbn in *. lia.
Qed.

(** The sets are computed. *)
Lemma find_ud_total : (forall b blk, reachable h root b -> h !! b = Some blk -> fine_block blk) ->
  exists m, find_ud h lv root = inr m.
Proof using Hok Hall Hg.
  intros Hf. destruct (proj2 (Hall root) (rtc_refl _ _)) as [top Ht]. unfold find_ud. rewrite Ht. cbn [some_of rbind].
  assert (Hin : forall b, reachable h root b -> exists blk, h !! b = Some blk /\ flow_block bs blk).
  { intros b Hb. apply Hg. by eapply reachable_in. }
  set (f := fun b (m : gmap nat ud) => _). destruct (each_inr (fun _ => True) f (down top (lv_levels lv)) (∅ : gmap nat ud)) as (m0 & E0 & _); [|done|].
  { intros b m Hb _. apply (elem_of_down h bs root Hg lv Hok Hall top Ht) in Hb. destruct (Hin b Hb) as (blk & E & _).
    destruct (compute_local_ud_total blk (Hf b blk Hb E)) as [u Hu]. unfold f. rewrite E. cbn [some_of rbind]. rewrite Hu.
    cbn [rbind]. by eexists. }
  rewrite E0. cbn [rbind]. pose proof (find_ud_start top m0 Ht E0) as Hm0.
  destruct (each_inr (fun m : gmap nat ud => forall b, reachable h root b -> is_Some (m !! b)) (flow_up h) (up top (lv_levels lv)) m0)
    as (m & E & _); [| |by eexists].
  - intros b m Hb Hm. apply (elem_of_up h bs root Hg lv Hok Hall top Ht) in Hb as [Hb Hk].
    destruct (Hin b Hb) as (blk & E & Hfl). destruct (Hm b Hb) as [u Hu]. unfold flow_up. rewrite E, Hu. cbn [some_of rbind].
    assert (Hc : forall c, edge h c b -> exists uc, m !! c = Some uc) by (intros c Hc; apply Hm; by eapply rtc_r).
    destruct Hfl as [(_ & Et & Ef)|(_ & t & f' & Et & Ef & _)].
    + exfalso. pose proof (proj2 (Hall b) Hb) as [k Ek]. destruct (lo_rule _ _ _ _ Hok b k Ek) as (blk' & E' & Hrule).
      simplify_eq. rewrite Et in Hrule. subst k. cbn in Hk. rewrite Ek in Hk. cbn in Hk. lia.
    + unfold both. rewrite Et, Ef. cbn [rbind].
      destruct (Hc t) as [ut ->]; [by exists blk; split; [|apply succs_jt]|].
      destruct (Hc f') as [uf ->]; [by exists blk; split; [|apply succs_jf]|]. cbn [some_of rbind]. eexists. split; [done|].
      intros x Hx. destruct (decide (x = b)) as [->|Hne]; [rewrite lookup_insert_eq; by eexists|].
      rewrite lookup_insert_ne by done. by apply Hm.
  - intros b Hb. destruct (Hm0 b Hb) as (u & Hu & _). by eexists.
Qed.
End Find.

(** ** [opt_deadstores] returns *)

Lemma forget_total a last : 0 <= a < N_ATOMS -> length last = n_atoms ->
  exists last', forget a last = inr last' /\ length last' = n_atoms.
Proof.
  intros Ha Hl. unfold forget. destruct (nthZ_is_Some last a) as [o ->]; [rewrite Hl; exact Ha|].
  eexists. split; [done|]. by rewrite length_insert.
Qed.

Lemma in_range_nop l j : Forall in_range l -> Forall in_range (set_code NOP j l).
Proof.
  intros Hl. apply Forall_lookup. intros x s Hs. rewrite nop_lookup in Hs. destruct (l !! x) as [s0|] eqn:E; [|done].
  injection Hs as <-. case_decide; [done|]. by eapply Forall_lookup_1.
Qed.

Lemma deadstmt_total l i s last c : in_range s -> Forall in_range l -> length last = n_atoms ->
  exists l' last' c', deadstmt l i s last c = inr (l', last', c') /\ Forall in_range l' /\ length last' = n_atoms /\
    length l' = length l.
Proof.
  intros [Hu Hd] Hl Hn. unfold deadstmt.
  assert (Huse : exists last1, (if atomuse (sl_code s) (sl_k s) <? 0 then inr last
     else if atomuse (sl_code s) (sl_k s) =? AX_ATOM then last <~ forget X_ATOM last ;; forget A_ATOM last
     else forget (atomuse (sl_code s) (sl_k s)) last) = inr last1 /\ length last1 = n_atoms).
  { destruct (Z.ltb_spec (atomuse (sl_code s) (sl_k s)) 0) as [H0|H0]; [by eexists|].
    destruct (Z.eqb_spec (atomuse (sl_code s) (sl_k s)) AX_ATOM) as [H1|H1].
    - destruct (forget_total X_ATOM last ltac:(done) Hn) as (l1 & -> & H2). cbn [rbind]. by apply forget_total.
    - apply forget_total; [change AX_ATOM with N_ATOMS in *; lia|done]. }
  destruct Huse as (last1 & -> & Hn1). cbn [rbind]. destruct (Z.ltb_spec (atomdef (sl_code s) (sl_k s)) 0) as [H0|H0]; [by eexists _, _, _|].
  destruct (nthZ_is_Some last1 (atomdef (sl_code s) (sl_k s))) as [o ->]; [rewrite Hn1; change (Z.of_nat n_atoms) with N_ATOMS; lia|].
  cbn [some_of rbind]. assert (Hlen : length (<[Z.to_nat (atomdef (sl_code s) (sl_k s)) := Some i]> last1) = n_atoms) by (by rewrite length_insert).
  destruct o as [j|]; do 3 eexists; (split; [done|]); split_and!; try done; [by apply in_range_nop|apply length_alter].
Qed.

Lemma dead_loop_total n i l last c : Forall in_range l -> length last = n_atoms -> (i + n <= length l)%nat ->
  exists l' last' c', dead_loop n i l last c = inr (l', last', c') /\ length l' = length l.
Proof.
  revert i l last c. induction n as [|n IH]; intros i l last c Hl Hn Hlen; cbn [dead_loop]; [by do 3 eexists|].
  destruct (lookup_lt_is_Some_2 l i) as [s Hs]; [lia|]. rewrite Hs. cbn [some_of rbind].
  destruct (deadstmt_total l i s last c) as (l1 & last1 & c1 & -> & Hl1 & Hn1 & Hlen1); [by eapply Forall_lookup_1|done|done|].
  cbn [rbind]. destruct (IH (S i) l1 last1 c1 Hl1 Hn1) as (l2 & last2 & c2 & -> & Hlen2); [lia|]. do 3 eexists. split; [done|]. congruence.
Qed.

Lemma opt_deadstores_total out_use b w : fine_block b -> exists b' w', opt_deadstores out_use b w = inr (b', w').
Proof.
  intros Hf. pose proof (branch_range b Hf) as [Hu Hd]. pose proof Hf as (_ & Hs & _). unfold opt_deadstores.
  set (l := (b_stmts b ++ [branch_stmt b])%list).
  destruct (dead_loop_total (length l) 0 l (repeat None n_atoms) false) as (l1 & last1 & c1 & -> & Hlen).
  - apply Forall_app. split; [done|]. apply Forall_singleton. split; [done|]. cbn [branch_stmt sl_code sl_k].
    change N_ATOMS with 18. lia.
  - by rewrite repeat_length.
  - done.
  - cbn [rbind]. pose proof (dead_at_end_trim out_use last1 0 0 l1 c1 eq_refl) as Ht.
    destruct (dead_at_end out_use last1 0 l1 c1) as [l2 c2]. cbn [fst] in Ht.
    destruct (last l2) as [s|] eqn:E; [by do 2 eexists|]. exfalso. apply last_None in E. rewrite E in Ht.
    assert (Hz : length (trim (killed (fun a => ATOMELEM out_use (Z.of_nat a)) 0 last1) l1) = length l) by (by rewrite trim_length).
    rewrite <- Ht in Hz. unfold l in Hz. rewrite length_app in Hz. cbn in Hz. lia.
Qed.

(** ** The pass over a graph *)

Section Pass.
Context (p : list byte) (wirelen buflen : Z) (Hw : is_u 32 wirelen).

(** The outcome of a run in which the statements of every block complete. *)
Fixpoint runs_through (fuel : nat) (h : heap) (b : nat) (m : machine) : option outcome :=
  match fuel, h !! b with
  | S fuel, Some blk =>
      match effs p wirelen buflen (b_stmts blk) m with
      | Done _ => None
      | Next m =>
          match leave p wirelen buflen blk m with
          | inl o => Some o
          | inr (Some t) => runs_through fuel h t m
          | inr None => None
          end
      end
  | _, _ => None
  end.

Lemma runs_through_run fuel h b m o : runs_through fuel h b m = Some o -> run_blocks p wirelen buflen fuel h b m = Some o.
Proof using Type.
  revert b m. induction fuel as [|fuel IH]; intros b m; [done|]. cbn [runs_through run_blocks].
  destruct (h !! b) as [blk|]; [|done]. destruct (effs _ _ _ _ _); [|done].
  destruct (leave _ _ _ _ _) as [o'|[t|]]; [done|apply IH|done].
Qed.

(** The blocks of a graph, some of them without their dead stores. *)
Definition cleaned (uds : gmap nat ud) (h h' : heap) (root : nat) : Prop :=
  forall b, reachable h root b -> exists blk blk', h !! b = Some blk /\ h' !! b = Some blk' /\
    (blk' = blk \/ exists u w w', uds !! b = Some u /\ opt_deadstores (u_out u) blk w = inr (blk', w')).

Lemma leave_edge blk m t : leave p wirelen buflen blk m = inr (Some t) -> t ∈ succs blk.
Proof using Type.
  unfold leave. destruct (decode _) as [o|]; [|done]. destruct o; try (by destruct (exec _ _ _ _ _ _)).
  destruct (test _ _ _); intros [= H]; [by apply succs_jt|by apply succs_jf].
Qed.

Lemma effs_ok l m m' : machine_ok m -> effs p wirelen buflen l m = Next m' -> machine_ok m'.
Proof using Hw.
  revert m. induction l as [|s l IH]; intros m Hm; cbn [effs]; [by intros [= <-]|].
  destruct (eff _ _ _ s m) as [m1|] eqn:E; [|done]. apply IH. by eapply eff_ok.
Qed.

Lemma cleaned_run h h' bs root lv uds : flow_graph h bs -> levels_ok h bs root lv ->
  (forall b, is_Some (lv_level lv !! b) <-> reachable h root b) ->
  (forall b blk, reachable h root b -> h !! b = Some blk -> fine_block blk) ->
  find_ud h lv root = inr uds -> cleaned uds h h' root ->
  forall fuel b m m' o u, reachable h root b -> uds !! b = Some u -> machine_ok m -> machine_ok m' ->
    agrees (has (u_in u)) m m' -> runs_through fuel h b m = Some o -> runs_through fuel h' b m' = Some o.
Proof using Hw.
  intros Hg Hok Hall Hf Hud Hc. pose proof (find_ud_ok h bs root Hg lv Hok Hall uds Hud) as Hflow.
  induction fuel as [|fuel IH]; intros b m m' o u Hb Eu Hm Hm' Ha; [done|]. cbn [runs_through].
  destruct (Hflow b Hb) as (u' & Eu' & blk & lu & Eb & Elu & Ek & Ei & Hsucc). rewrite Eu in Eu'. injection Eu' as <-.
  destruct (Hc b Hb) as (blk0 & blk' & Eb0 & Eb' & Hblk). rewrite Eb in Eb0. injection Eb0 as <-. rewrite Eb, Eb'.
  destruct (effs p wirelen buflen (b_stmts blk) m) as [m1|] eqn:E1; [|done].
  destruct (block_use p wirelen buflen Hw blk lu (u_out u) m m' m1 (Hf b blk Hb Eb) Elu Hm Hm') as (m1' & E1' & Hok1 & Hok1' & Ha1 & Hl1); [|done|].
  { intros r Hr. apply Ha. rewrite Ei. unfold ATOMELEM in *. rewrite Z.lor_spec, Z.ldiff_spec.
    destruct Hr as [Hr|[Hr Hn]]; [by rewrite Hr|]. rewrite Hr. apply not_true_is_false in Hn. by rewrite Hn, orb_true_r. }
  assert (Hclean : exists m2, effs p wirelen buflen (b_stmts blk') m' = Next m2 /\ machine_ok m2 /\ agrees (has (u_out u)) m1 m2 /\
     leave p wirelen buflen blk m1 = leave p wirelen buflen blk' m2).
  { destruct Hblk as [->|(u0 & w & w' & Eu0 & Hd)]; [by exists m1'|]. rewrite Eu in Eu0. injection Eu0 as <-.
    destruct (Hf b blk Hb Eb) as (Hs & _ & Hk & _).
    destruct (deadstores_same p wirelen buflen (u_out u) blk w blk' w' Hw Hs (fine_ends blk (Hf b blk Hb Eb)) Hk Hd) as [_ Hrun].
    destruct (Hrun m' m1' Hm' E1') as (m2 & E2 & Ha2 & Hl2). exists m2.
    split; [done|]. split; [exact (effs_ok _ m' m2 Hm' E2)|]. split; [|congruence]. intros r Hr. rewrite (Ha1 r Hr). by apply Ha2. }
  destruct Hclean as (m2 & -> & Hok2 & Ha2 & <-). destruct (leave p wirelen buflen blk m1) as [o'|[t|]] eqn:El; [done| |done].
  apply leave_edge in El. assert (He : edge h t b) by (by exists blk).
  destruct (Hsucc t He) as (ut & Eut & Hin). apply (IH t m1 m2 o ut); [eapply rtc_r; [exact Hb|exact He]|done|done|done|].
  intros r Hr. by apply Ha2, Hin.
Qed.
End Pass.

(** C18: On a flow graph without cycles the levels and the uses of registers are
    computed, the dead stores of every block are found, and when they are
    removed from any of its blocks, every run in which all statements complete
    ends as before, on every packet and from every state. *)
Theorem dead_stores_keep_verdicts h bs root : flow_graph h bs -> root ∈ bs -> Acc (edge h) root ->
  (forall b blk, reachable h root b -> h !! b = Some blk -> fine_block blk) ->
  exists lv uds, find_levels h (length bs) root = inr lv /\ find_ud h lv root = inr uds /\
    (forall b blk w, reachable h root b -> h !! b = Some blk ->
      exists u blk' w', uds !! b = Some u /\ opt_deadstores (u_out u) blk w = inr (blk', w')) /\
    forall h', cleaned uds h h' root -> forall p wirelen buflen fuel m o, is_u 32 wirelen -> machine_ok m ->
      runs_through p wirelen buflen fuel h root m = Some o -> runs_through p wirelen buflen fuel h' root m = Some o.
Proof.
  intros Hg Hr Hacc Hf. destruct (find_levels_ok h bs root Hg Hr Hacc) as (lv & El & Hok & Hall).
  destruct (find_ud_total h bs root Hg lv Hok Hall Hf) as [uds Eu]. exists lv, uds. split_and!; [done|done| |].
  - intros b blk w Hb Eb. destruct (find_ud_ok h bs root Hg lv Hok Hall uds Eu b Hb) as (u & Euu & _).
    destruct (opt_deadstores_total (u_out u) blk w (Hf b blk Hb Eb)) as (blk' & w' & E). by exists u, blk', w'.
  - intros h' Hc p wirelen buflen fuel m o Hw Hm Hrun.
    destruct (find_ud_ok h bs root Hg lv Hok Hall uds Eu root (rtc_refl _ _)) as (u & Euu & _).
    eapply (cleaned_run p wirelen buflen Hw h h' bs root lv uds Hg Hok Hall Hf Eu Hc fuel root m m o u);
      [apply rtc_refl|done|done|done|by intros r _|done].
Qed.

Lemma reachable_flow h bs root b : flow_graph h bs -> root ∈ bs -> reachable h root b -> b ∈ bs.
Proof.
  intros [_ Hg] Hr. revert b. apply rtc_ind_r; [done|]. intros x y _ (blk & E & Hy) Hx.
  destruct (Hg x Hx) as (blk' & E' & Hf). simplify_eq. apply elem_of_succs in Hy.
  destruct Hf as [(_ & Et & Ef)|(_ & t & f & Et & Ef & Ht & Hf)]; destruct Hy; by simplify_eq.
Qed.

Lemma cleaned_one h bs root uds b0 blk blk' u w w' : flow_graph h bs -> root ∈ bs -> h !! b0 = Some blk ->
  uds !! b0 = Some u -> opt_deadstores (u_out u) blk w = inr (blk', w') -> cleaned uds h (<[b0 := blk']> h) root.
Proof.
  intros Hg Hr Eb Eu Hd b Hb. apply (reachable_flow h bs root b Hg Hr) in Hb. destruct (proj2 Hg b Hb) as (bb & E & _).
  destruct (decide (b = b0)) as [->|Hne].
  - exists blk, blk'. rewrite lookup_insert_eq. split_and!; [done|done|]. right. by exists u, w, w'.
  - exists bb, bb. rewrite lookup_insert_ne by done. split_and!; [done|done|by left].
Qed.

(** [ld #5], [ldh \[12\]], [st M\[3\]] and two tests. *)
Definition dead_heap : heap := list_to_map
  [(0%nat, Block [Slist 0 (BPF_LD .| BPF_IMM) 5 None None; Slist 1 (BPF_LD .| BPF_ABS .| BPF_H) 12 None None; Slist 2 BPF_ST 3 None None]
        (BPF_JMP .| BPF_JEQ .| BPF_K) 0x800 (Some 1%nat) (Some 2%nat) false 0 0 0 0);
   (1%nat, Block [Slist 3 (BPF_LD .| BPF_ABS .| BPF_B) 23 None None] (BPF_JMP .| BPF_JEQ .| BPF_K) 17 (Some 3%nat) (Some 2%nat) false 0 0 0 0);
   (2%nat, Block [] (BPF_RET .| BPF_K) 0 None None false 0 0 0 0);
   (3%nat, Block [] (BPF_RET .| BPF_K) 65535 None None false 0 0 0 0)].

Lemma dead_heap_graph : flow_graph dead_heap [0; 1; 3; 2]%nat.
Proof.
  split; [repeat constructor; set_solver|]. intros b Hb. unfold flow_block.
  repeat (apply elem_of_cons in Hb as [->|Hb]; [eexists; split; [vm_compute; reflexivity|]; cbn [b_code b_jt b_jf]|]);
    [| | | |by apply elem_of_nil in Hb];
    (left; split_and!; reflexivity) || (right; split; [by vm_compute|]; do 2 eexists; split_and!; [done|done|set_solver..]).
Qed.

Lemma dead_heap_acc : Acc (edge dead_heap) 0%nat.
Proof.
  assert (H : forall b l, (succs <$> dead_heap !! b) = Some l -> Forall (Acc (edge dead_heap)) l -> Acc (edge dead_heap) b).
  { intros b l E Hl. constructor. intros y (blk & Eb & Hy). rewrite Eb in E. injection E as <-. rewrite Forall_forall in Hl. by apply Hl. }
  assert (H2 : Acc (edge dead_heap) 2%nat) by (apply (H _ []); [by vm_compute|done]).
  assert (H3 : Acc (edge dead_heap) 3%nat) by (apply (H _ []); [by vm_compute|done]).
  assert (H1 : Acc (edge dead_heap) 1%nat) by (apply (H _ [3; 2]%nat); [by vm_compute|by repeat (apply Forall_cons; split)]).
  apply (H _ [1; 2]%nat); [by vm_compute|by repeat (apply Forall_cons; split)].
Qed.

Lemma dead_heap_fine b blk : b ∈ [0; 1; 3; 2]%nat -> dead_heap !! b = Some blk -> fine_block blk.
Proof.
  assert (Hs : forall s o, decode (sl_code s) = Some o -> straight_op o = true -> o <> LdxLen -> is_i 32 (sl_k s) -> sane s).
  { intros s o H1 H2 H3 H4. split; [right; by exists o|done]. }
  intros Hb E. repeat (apply elem_of_cons in Hb as [->|Hb]; [vm_compute in E; injection E as <-|]); [| | | |by apply elem_of_nil in Hb];
    (split; [|split; [by repeat constructor|split; [done|]]]); cbn [b_stmts b_code]; try done;
    try (by right); try (left; by exists Jeq, K).
  - repeat (apply Forall_cons; split); [by apply (Hs _ LdImm)|by apply (Hs _ (LdAbs H))|by apply (Hs _ StM)|done].
  - apply Forall_singleton. by apply (Hs _ (LdAbs B)).
Qed.

Lemma dead_stores_keep_verdicts_witness :
  let pkt := map byte.of_Z (repeat 0 12 ++ [8; 0] ++ repeat 0 9 ++ [17])%list in
  exists u blk' w' h', opt_deadstores u (default (Block [] 0 0 None None false 0 0 0 0) (dead_heap !! 0%nat)) no_values = inr (blk', w') /\
    map sl_code (b_stmts blk') = [NOP; BPF_LD .| BPF_ABS .| BPF_H; NOP] /\ h' = <[0%nat := blk']> dead_heap /\
    runs_through pkt 24 24 3 h' 0 (init_machine zero_mem) = Some (Returned 65535).
Proof.
  intros pkt.
  destruct (dead_stores_keep_verdicts dead_heap [0; 1; 3; 2]%nat 0 dead_heap_graph ltac:(by left) dead_heap_acc) as (lv & uds & El & Eu & Hd & Hrun).
  { intros b blk Hb. apply dead_heap_fine. by eapply reachable_flow; [apply dead_heap_graph|left|]. }
  destruct (dead_heap !! 0%nat) as [blk|] eqn:Eb; [|by vm_compute in Eb].
  destruct (Hd 0%nat blk no_values (rtc_refl _ _) Eb) as (u & blk' & w' & Euu & E). cbn [default from_option].
  exists (u_out u), blk', w', (<[0%nat := blk']> dead_heap). split; [exact E|]. split; [|split; [done|]].
  - assert (Hu : u_out u = 0).
    { vm_compute in El. injection El as <-. vm_compute in Eu. injection Eu as <-. vm_compute in Euu. by injection Euu as <-. }
    rewrite Hu in E. vm_compute in Eb. injection Eb as <-. vm_compute in E. by injection E as <- _.
  - apply Hrun; [|done|split_and!; [done..|by repeat constructor]|by vm_compute].
    eapply cleaned_one; [apply dead_heap_graph|by left|exact Eb|exact Euu|exact E].
Defined.
