(* ===== verification/OptDomSpec.v ===== *)
(** [optimize.c]: [find_dom] computes the dominators of every block. *)
From S2P Require Import Prelude CFile Bpf BpfFilter Gencode Icode IcodeSpec IcodeCorrect OptFlow OptValue OptValueSpec Optimize.
From S2P Require Import OptimizeSpec OptFlowSpec OptLiveSpec.

#[local] Open Scope nat_scope.
#[local] Open Scope opt_scope.

Lemma in_snoc {A} (x y : A) l : x ∈ l ++ [y] <-> x ∈ l \/ x = y.
Proof. by rewrite elem_of_app, list_elem_of_singleton. Qed.

(** ** Numbers of blocks *)

Lemma ids_spec bs b i : NoDup bs -> ids bs !! b = Some i <-> bs !! i = Some b.
Proof.
  intros Hnd. unfold ids. rewrite <- elem_of_list_to_map.
  - rewrite elem_of_lookup_imap. split.
    + intros (j & x & [= -> ->] & H). done.
    + intros H. by exists i, b.
  - rewrite fmap_imap. replace (imap _ bs) with bs; [done|]. apply list_eq. intros j. rewrite list_lookup_imap.
    by destruct (bs !! j).
Qed.

Lemma init_sets_spec bs x b : b ∈ bs -> init_sets bs x !! b = Some x.
Proof.
  unfold init_sets. induction bs as [|a bs IH]; intros Hb; [by apply elem_of_nil in Hb|]. cbn [map list_to_map foldr].
  destruct (decide (a = b)) as [->|Hne]; [by rewrite lookup_insert_eq|]. rewrite lookup_insert_ne by done.
  apply elem_of_cons in Hb as [->|Hb]; [done|by apply IH].
Qed.

Lemma all_ones_bit n i : i < n -> Z.testbit (all_ones n) (Z.of_nat i) = true.
Proof.
  intros Hi. unfold all_ones, words. apply Z.ones_spec_low. split; [lia|].
  pose proof (Z.div_mod (Z.of_nat n) 32 ltac:(lia)). pose proof (Z.mod_pos_bound (Z.of_nat n) 32 ltac:(lia)). lia.
Qed.

(** ** Dominators *)

(** The blocks on a way from [x], in order. *)
Inductive walk (h : heap) (x : nat) : list nat -> nat -> Prop :=
| walk_start : walk h x [x] x
| walk_on l y z : walk h x l y -> edge h z y -> walk h x (l ++ [z]) z.

(** A block dominates those that cannot be reached without it. *)
Definition dominates (h : heap) (root d b : nat) : Prop := forall l, walk h root l b -> d ∈ l.

Lemma walk_reachable h x l y : walk h x l y -> reachable h x y.
Proof. induction 1; [apply rtc_refl|by eapply rtc_r]. Qed.
Lemma walk_last h x l y : walk h x l y -> y ∈ l.
Proof. destruct 1; [by left|]. apply elem_of_app. right. by left. Qed.

(** From the dominators of its predecessors those of a block. *)
Lemma dominates_step h root d b : dominates h root d b <->
  d = b \/ (b <> root /\ forall x, reachable h root x -> edge h b x -> dominates h root d x).
Proof.
  split.
  - intros Hd. destruct (decide (d = b)) as [|Hne]; [by left|]. right. split.
    + intros ->. apply Hne. by apply list_elem_of_singleton, Hd, walk_start.
    + intros x _ He l Hl. assert (H : d ∈ l ++ [b]) by (by eapply Hd, walk_on).
      apply elem_of_app in H as [H|H%list_elem_of_singleton]; done.
  - intros [->|[Hne Hx]] l Hl; [by eapply walk_last|]. destruct Hl as [|l x b Hl He]; [done|].
    apply elem_of_app. left. apply (Hx x); [by eapply walk_reachable|done|done].
Qed.

(** ** [find_dom] *)

(** The blocks that a block leads to. *)
Definition succs_of (h : heap) (b : nat) : list nat := match h !! b with Some blk => succs blk | None => [] end.
Lemma succs_of_edge h b c : c ∈ succs_of h b <-> edge h c b.
Proof.
  unfold succs_of, edge. destruct (h !! b) as [blk|]; split; [by exists blk|by intros (? & [= <-] & ?)|by intros ?%elem_of_nil|by intros (? & ? & _)].
Qed.

Section Dom.
Context (h : heap) (bs : list nat) (root : nat) (Hg : flow_graph h bs) (Hr : root ∈ bs) (Hacc : Acc (edge h) root).
Context (lv : leveled) (Hok : levels_ok h bs root lv) (Hall : forall b, is_Some (lv_level lv !! b) <-> reachable h root b).
Context (top : nat) (Htop : lv_level lv !! root = Some top).
Abbreviation order := (down top (lv_levels lv)).

(** The set of a block after the turns of the blocks [l]: those that dominate
    every predecessor that has had its turn. *)
Definition dom_so_far (l : list nat) (b d : nat) : Prop :=
  (b ∈ l /\ b = d) \/ (b <> root /\ forall x, x ∈ l -> edge h b x -> dominates h root d x).
Definition dom_inv (l : list nat) (m : sets) : Prop :=
  forall b, reachable h root b -> exists v, m !! b = Some v /\
    forall d i, bs !! i = Some d -> Z.testbit v (Z.of_nat i) = true <-> dom_so_far l b d.

Lemma edge_irrefl b c : reachable h root b -> edge h c b -> c <> b.
Proof using Hg Hok Hall. intros Hb He ->. pose proof (level_edge h bs root Hg lv Hok Hall b b Hb He). lia. Qed.

Lemma dom_start : dom_inv [] (<[root := 0%Z]> (init_sets bs (all_ones (length bs)))).
Proof using Hok Hall.
  intros b Hb. unfold dom_so_far. destruct (decide (b = root)) as [->|Hne].
  - exists 0%Z. rewrite lookup_insert_eq. split; [done|]. intros d i _. rewrite Z.testbit_0_l.
    split; [done|]. intros [[H%elem_of_nil _]|[H _]]; done.
  - exists (all_ones (length bs)). rewrite lookup_insert_ne by done. split.
    + apply init_sets_spec. by eapply reachable_in.
    + intros d i Hi. rewrite all_ones_bit by (by eapply lookup_lt_Some). split; [|done]. intros _. right. split; [done|].
      intros x H%elem_of_nil. done.
Qed.

(** The turn of a block gives its successors its set. *)
Lemma spread_ok b ib v m : reachable h root b -> ids bs !! b = Some ib -> m !! b = Some v ->
  (forall c, edge h c b -> is_Some (m !! c)) ->
  exists m', spread Z.land h (ids bs) b m = inr m' /\ m' !! b = Some (Z.setbit v (Z.of_nat ib)) /\
    forall x vx, x <> b -> m !! x = Some vx -> exists v', m' !! x = Some v' /\
      (edge h x b -> forall j, Z.testbit v' j = Z.testbit vx j && Z.testbit (Z.setbit v (Z.of_nat ib)) j) /\
      (~ edge h x b -> v' = vx).
Proof using Hg Hok Hall.
  intros Hb Hid Ev Hc. set (v1 := Z.setbit v (Z.of_nat ib)). unfold spread, SET_INSERT. rewrite Hid, Ev. cbn [some_of rbind]. fold v1.
  destruct (proj2 Hg b) as (blk & E & Hf); [by eapply reachable_in|]. rewrite E. cbn [some_of rbind].
  destruct Hf as [(_ & Et & Ef)|(_ & t & f & Et & Ef & _)].
  { unfold both. rewrite Et. cbn [rbind]. eexists. split; [done|]. rewrite lookup_insert_eq. split; [done|]. intros x vx Hx Ex.
    exists vx. rewrite lookup_insert_ne by done. split; [done|]. split; [|done]. intros (blk' & E' & H). simplify_eq.
    apply elem_of_succs in H as [H|H]; simplify_eq. }
  assert (Het : edge h t b) by (exists blk; split; [done|by apply succs_jt]).
  assert (Hef : edge h f b) by (exists blk; split; [done|by apply succs_jf]).
  pose proof (edge_irrefl b t Hb Het) as Htb. pose proof (edge_irrefl b f Hb Hef) as Hfb.
  destruct (Hc t Het) as [vt Evt], (Hc f Hef) as [vf Evf].
  unfold both, set_op. rewrite Et, Ef. cbn [rbind]. rewrite (lookup_insert_ne _ b t) by done. rewrite Evt, lookup_insert_eq. cbn [some_of rbind].
  assert (Eb2 : (<[t := Z.land vt v1]> (<[b := v1]> m)) !! b = Some v1) by (rewrite lookup_insert_ne by done; apply lookup_insert_eq).
  rewrite Eb2. assert (Ef2 : exists vf2, (<[t := Z.land vt v1]> (<[b := v1]> m)) !! f = Some vf2 /\
    forall j, Z.testbit vf2 j = if decide (f = t) then Z.testbit vt j && Z.testbit v1 j else Z.testbit vf j).
  { destruct (decide (f = t)) as [->|Hne]; [rewrite lookup_insert_eq|rewrite !lookup_insert_ne by done]; eexists; (split; [done|]);
      intros j; [by rewrite Z.land_spec|done]. }
  destruct Ef2 as (vf2 & -> & Hvf2). cbn [some_of rbind]. eexists. split; [done|].
  split; [by rewrite lookup_insert_ne|]. intros x vx Hx Ex.
  destruct (decide (x = f)) as [->|Hxf]; [|rewrite lookup_insert_ne by done; destruct (decide (x = t)) as [->|Hxt]].
  - eexists. split; [apply lookup_insert_eq|]. split; [|done]. intros _ j. rewrite Z.land_spec, Hvf2.
    case_decide; simplify_eq; [|done]. by rewrite <- andb_assoc, andb_diag.
  - eexists. split; [apply lookup_insert_eq|]. split; [|done]. intros _ j. simplify_eq. by rewrite Z.land_spec.
  - exists vx. rewrite !lookup_insert_ne by done. split; [done|]. split; [|done]. intros (blk' & E' & H). simplify_eq.
    apply elem_of_succs in H as [H|H]; simplify_eq.
Qed.

(** After the turns of its predecessors and its own. *)
Lemma dom_done l b d : reachable h root b -> (forall x, reachable h root x -> edge h b x -> x ∈ l) ->
  (forall x, x ∈ l -> reachable h root x) -> b ∈ l -> dom_so_far l b d <-> dominates h root d b.
Proof using Type.
  intros Hb Hpre Hl Hin. rewrite dominates_step. unfold dom_so_far. split.
  - intros [[_ ->]|[Hne H]]; [by left|]. right. split; [done|]. intros x Hx He. apply H; auto.
  - intros [->|[Hne H]]; [by left|]. right. split; [done|]. intros x Hx He. apply H; auto.
Qed.

Lemma dom_turn l1 b l2 m : order = l1 ++ b :: l2 -> dom_inv l1 m ->
  exists m', spread Z.land h (ids bs) b m = inr m' /\ dom_inv (l1 ++ [b]) m'.
Proof using Hg Hok Hall Htop.
  intros El Hm. assert (Hl : forall x, x ∈ l1 ++ b :: l2 -> reachable h root x).
  { intros x. rewrite <- El. by eapply elem_of_down. }
  assert (Hl1 : forall x, x ∈ l1 -> reachable h root x) by (intros x Hx; apply Hl, elem_of_app; by left).
  assert (Hb : reachable h root b) by (apply Hl, elem_of_app; right; by left).
  pose proof (down_NoDup h bs root lv Hok top) as Hnd. rewrite El in Hnd. apply NoDup_app in Hnd as (_ & Hnd & _).
  assert (Hbl : b ∉ l1) by (intros H; eapply Hnd; [exact H|by left]).
  assert (Hpre : forall x, reachable h root x -> edge h b x -> x ∈ l1) by (intros x; by eapply down_before).
  assert (Hbs : b ∈ bs) by (by eapply reachable_in). apply list_elem_of_lookup in Hbs as [ib Hib].
  destruct (Hm b Hb) as (v & Ev & Hv).
  destruct (spread_ok b ib v m Hb) as (m' & E & Eb' & Hx); [by apply ids_spec; [apply Hg|]|done| |].
  { intros c Hc. destruct (Hm c) as (vc & Ec & _); [by eapply rtc_r|by eexists]. }
  assert (Hv1 : forall d i, bs !! i = Some d -> Z.testbit (Z.setbit v (Z.of_nat ib)) (Z.of_nat i) = true <-> dominates h root d b).
  { intros d i Hi. rewrite Z.setbit_eqb, orb_true_iff, (Hv d i Hi), Z.eqb_eq, dominates_step by lia. unfold dom_so_far. split.
    - intros [H|[[H _]|[Hne H]]]; [left|done|right; split; [done|auto]].
      apply Nat2Z.inj in H as ->. congruence.
    - intros [->|[Hne H]]; [left|right; right; split; [done|auto]]. f_equal. eapply NoDup_lookup; [apply Hg|done|done]. }
  exists m'. split; [done|]. intros x Hxr. destruct (decide (x = b)) as [->|Hne].
  - eexists. split; [exact Eb'|]. intros d i Hi. rewrite (Hv1 d i Hi). symmetry. apply dom_done; [done| | |].
    + intros y Hy He. apply elem_of_app. left. by apply Hpre.
    + intros y [Hy|Hy%list_elem_of_singleton]%elem_of_app; [by apply Hl1|by subst].
    + apply elem_of_app. right. by left.
  - destruct (Hm x Hxr) as (vx & Evx & Hvx). destruct (Hx x vx Hne Evx) as (v' & Ev' & He & Hn). exists v'. split; [done|].
    intros d i Hi. unfold dom_so_far. setoid_rewrite in_snoc.
    assert (Hxb : x ∈ l1 -> ~ edge h x b).
    { intros Hx1 He'. apply list_elem_of_split in Hx1 as (la & lb & ->). apply Hbl, elem_of_app. left.
      eapply (down_before h bs root Hg lv Hok Hall top Htop la x (lb ++ b :: l2)); [by rewrite El, <- app_assoc|done|done]. }
    destruct (decide (x ∈ succs_of h b)) as [Hs|Hs]; rewrite succs_of_edge in Hs.
    + assert (Hx1 : x ∉ l1) by (intros Hx1; by apply Hxb). rewrite (He Hs), andb_true_iff, (Hvx d i Hi), (Hv1 d i Hi). unfold dom_so_far.
      split.
      * intros [[[H _]|[Hr' H]] Hd]; [done|]. right. split; [done|]. intros y [Hy| ->] Hye; [by apply H|done].
      * intros [[[H|H] _]|[Hr' H]]; [done|done|]. split; [right; split; [done|]; auto|]. apply H; auto.
    + rewrite (Hn Hs), (Hvx d i Hi). unfold dom_so_far. split.
      * intros [[H Hd]|[Hr' H]]; [left; auto|]. right. split; [done|]. intros y [Hy| ->] Hye; [by apply H|done].
      * intros [[[H|H] Hd]|[Hr' H]]; [left; auto|done|right; auto].
Qed.

Lemma find_dom_ok : exists m, find_dom h bs lv root = inr m /\ forall b d i, reachable h root b -> bs !! i = Some d ->
  exists v, m !! b = Some v /\ (SET_MEMBER v i = true <-> dominates h root d b).
Proof using Hg Hr Hok Hall Htop.
  unfold find_dom. rewrite Htop. cbn [some_of rbind].
  destruct (each_prefix_inr dom_inv (spread Z.land h (ids bs)) order _ dom_start) as (m & E & Hm).
  { intros l1 x l2 m El Hm. by eapply dom_turn. }
  exists m. split; [exact E|]. intros b d i Hb Hi. destruct (Hm b Hb) as (v & Ev & Hv). exists v. split; [done|].
  unfold SET_MEMBER. rewrite (Hv d i Hi). apply dom_done; [done| | |].
  - intros x Hx _. by eapply elem_of_down.
  - intros x. by eapply elem_of_down.
  - by eapply elem_of_down.
Qed.
End Dom.

(** C19: On a flow graph without cycles [find_levels] and [find_dom] return, and
    in the set of a block are the numbers of exactly those blocks that are on
    every way from the root to it. *)
Theorem find_dom_correct h bs root : flow_graph h bs -> root ∈ bs -> Acc (edge h) root ->
  exists lv m, find_levels h (length bs) root = inr lv /\ find_dom h bs lv root = inr m /\
    forall b d i, reachable h root b -> bs !! i = Some d ->
      exists v, m !! b = Some v /\ (SET_MEMBER v i = true <-> dominates h root d b).
Proof.
  intros Hg Hr Hacc. destruct (find_levels_ok h bs root Hg Hr Hacc) as (lv & El & Hok & Hall).
  destruct (proj2 (Hall root) (rtc_refl _ _)) as [top Ht].
  destruct (find_dom_ok h bs root Hg Hr lv Hok Hall top Ht) as (m & Em & H). by exists lv, m.
Qed.

(** In a graph of two tests and two returns the second test does not dominate
    the return that both lead to. *)
Lemma find_dom_correct_witness : exists lv m v,
  find_levels dead_heap 4 0 = inr lv /\ find_dom dead_heap [0; 1; 3; 2] lv 0 = inr m /\ m !! 2 = Some v /\
  dominates dead_heap 0 0 2 /\ ~ dominates dead_heap 0 1 2.
Proof.
  destruct (find_dom_correct dead_heap [0; 1; 3; 2] 0 dead_heap_graph ltac:(by left) dead_heap_acc) as (lv & m & El & Em & H).
  assert (Hr : reachable dead_heap 0 2).
  { apply rtc_once. eexists. split; [vm_compute; reflexivity|]. right. by left. }
  destruct (H 2 0 0 Hr eq_refl) as (v & Ev & H0), (H 2 1 1 Hr eq_refl) as (v' & Ev' & H1).
  exists lv, m, v. split; [exact El|]. split; [exact Em|]. split; [exact Ev|].
  rewrite Ev in Ev'. injection Ev' as <-.
  assert (Hv : SET_MEMBER v 0 = true /\ SET_MEMBER v 1 = false).
  { vm_compute in El. injection El as <-. vm_compute in Em. injection Em as <-. vm_compute in Ev. by injection Ev as <-. }
  destruct Hv as [Hv0 Hv1]. split; [by apply H0|]. rewrite <- H1, Hv1. done.
Defined.
