(* ===== verification/GenStraight.v ===== *)
(** Every test of the code generator is a flow graph of straight-line blocks:
    the statements neither jump nor return, and the program checker accepts
    them.  A generator ends with such a graph, or with an error; it never
    follows a pointer to no block. *)
From S2P Require Import Prelude Bpf BpfFilter BpfValidate Datalink GenConst.
From S2P Require Import Gencode GenLink GenProto GencodeSpec GenTriple Icode IcodeSpec.

#[local] Open Scope Z_scope.
#[local] Open Scope c_scope.
#[local] Open Scope gen_scope.

(** ** Rules for the shape of generators *)

Section Rules.
Context (E : gerror -> Prop) (R : layout -> Prop).
Abbreviation triple := (triple E R).

Lemma triple_assoc {A B C} l (g : gen A) (f : A -> gen B) (K : B -> gen C) Q :
  triple l (x <- g ;; y <- f x ;; K y) Q -> triple l (y <- (x <- g ;; f x) ;; K y) Q.
Proof using Type.
  intros H s Ho Hs. specialize (H s Ho Hs). unfold bind in *. by destruct (g s) as [e|[a s1]].
Qed.

Lemma triple_ret_bind {A B} l (a : A) (K : A -> gen B) Q :
  triple l (K a) Q -> triple l (x <- ret a ;; K x) Q.
Proof using Type. done. Qed.

Lemma triple_fail_bind {A B} l e (K : A -> gen B) Q : E e -> triple l (x <- fail e ;; K x) Q.
Proof using Type. intros He s _ _. done. Qed.

(** A set of graphs of the same kind, found by their pointers. *)
Context (P : bexp -> Prop).
Context (P_and : forall e0 e1, P e0 -> P e1 -> P (EAnd e0 e1)) (P_or : forall e0 e1, P e0 -> P e1 -> P (EOr e0 e1))
        (P_not : forall e, P e -> P (ENot e)).

Lemma triple_and_pick b0 b1 L L1 L2 :
  pick (b0, P) L L1 -> pick (b1, P) L1 L2 -> triple L (gen_and b0 b1) (exactly (fun _ => (b1, P) :: L2)).
Proof using P_and.
  intros H0%pick_perm H1%pick_perm. eapply triple_perm; [rewrite H0, H1; reflexivity|].
  eapply triple_post; [apply triple_and|]. intros ? s. apply holds_weaken.
  intros e (e0 & e1 & He0 & He1 & ->). auto.
Qed.

Lemma triple_or_pick b0 b1 L L1 L2 :
  pick (b0, P) L L1 -> pick (b1, P) L1 L2 -> triple L (gen_or b0 b1) (exactly (fun _ => (b1, P) :: L2)).
Proof using P_or.
  intros H0%pick_perm H1%pick_perm. eapply triple_perm; [rewrite H0, H1; reflexivity|].
  eapply triple_post; [apply triple_or|]. intros ? s. apply holds_weaken.
  intros e (e0 & e1 & He0 & He1 & ->). auto.
Qed.

Lemma triple_not_pick b L L1 :
  pick (b, P) L L1 -> triple L (gen_not b) (exactly (fun _ => (b, P) :: L1)).
Proof using P_not.
  intros H0%pick_perm. eapply triple_perm; [rewrite H0; reflexivity|].
  eapply triple_post; [apply triple_not|]. intros ? s. apply holds_weaken.
  intros e (e0 & He0 & ->). auto.
Qed.

Lemma triple_ret_pick b L L1 :
  pick (b, P) L L1 -> triple L (ret b) (exactly (fun b => (b, P) :: L1)).
Proof using Type. intros H0%pick_perm. by apply triple_ret_exactly. Qed.
End Rules.

(** ** The statements of loads *)

Definition not_graph (e : gerror) : Prop := e <> G_graph.

(** A generator that adds one graph to those of its caller; [R] is what it
    relies on of the layout, and [makes] is for those that do not change the
    layout. *)
Definition makes_in (R : layout -> Prop) (g : gen nat) : Prop :=
  forall l, triple not_graph R l g (exactly (fun b => (b, straight) :: l)).
Definition makes (g : gen nat) : Prop := forall R, makes_in R g.

Definition is_size (size : Z) : Prop := size = BPF_W \/ size = BPF_H \/ size = BPF_B.
Definition stmts_ok (ss : list slist) : Prop := Forall straight_stmt (map op_of ss).

(** A statement whose code the machine knows and whose constant it accepts. *)
Lemma straight_stmt_intro c k o :
  c = opcode_bits o -> straight_op o = true -> checked 0 0 (Insn c 0 0 (u32 k)) o -> straight_stmt (c, k).
Proof.
  intros -> Ho Hc. exists o. cbn [fst snd].
  assert (Hu : u16 (opcode_bits o) = opcode_bits o) by (by opcode_cases o).
  rewrite Hu. split; [apply decode_encode|]. split; [done|]. split; [done|].
  apply (checked_validate_insn _ _ _ o); [apply decode_encode|done].
Qed.

Ltac stmt_tac o := apply (straight_stmt_intro _ _ o); [reflexivity|reflexivity|exact I].

Lemma is_size_W : is_size BPF_W. Proof. by left. Qed.
Lemma is_size_H : is_size BPF_H. Proof. by right; left. Qed.
Lemma is_size_B : is_size BPF_B. Proof. by right; right. Qed.
#[export] Hint Resolve is_size_W is_size_H is_size_B : gen.

Lemma ld_abs_straight size k : is_size size -> straight_stmt (BPF_LD .| BPF_ABS .| size, k).
Proof. intros [->|[->| ->]]; [stmt_tac (LdAbs W)|stmt_tac (LdAbs H)|stmt_tac (LdAbs B)]. Qed.
Lemma ld_ind_straight size k : is_size size -> straight_stmt (BPF_LD .| BPF_IND .| size, k).
Proof. intros [->|[->| ->]]; [stmt_tac (LdInd W)|stmt_tac (LdInd H)|stmt_tac (LdInd B)]. Qed.
Lemma ldx_mem_straight n : 0 <= n < 16 -> straight_stmt (BPF_LDX .| BPF_MEM, i32 n).
Proof.
  intros Hn. apply (straight_stmt_intro _ _ LdxMem); [done|done|]. cbn [checked k].
  rewrite swrap_id, uwrap_id by clia. lia.
Qed.
Lemma ldx_msh_straight k : straight_stmt (BPF_LDX .| BPF_MSH .| BPF_B, k).
Proof. stmt_tac LdxMsh. Qed.
Lemma and_straight k : straight_stmt (BPF_ALU .| BPF_AND .| BPF_K, k).
Proof. stmt_tac (AluOp And K). Qed.
Lemma or_straight k : straight_stmt (BPF_ALU .| BPF_OR .| BPF_K, k).
Proof. stmt_tac (AluOp Or K). Qed.
Lemma lsh_straight k : straight_stmt (BPF_ALU .| BPF_LSH .| BPF_K, k).
Proof. stmt_tac (AluOp Lsh K). Qed.
Lemma add_x_straight k : straight_stmt (BPF_ALU .| BPF_ADD .| BPF_X, k).
Proof. stmt_tac (AluOp Add X). Qed.
Lemma tax_straight k : straight_stmt (BPF_MISC .| BPF_TAX, k).
Proof. stmt_tac MiscTax. Qed.
Lemma ld_imm_straight k : straight_stmt (BPF_LD .| BPF_IMM, k).
Proof. stmt_tac LdImm. Qed.
Lemma ld_len_straight k : straight_stmt (BPF_LD .| BPF_LEN, k).
Proof. stmt_tac LdLen. Qed.
#[export] Hint Resolve ld_abs_straight ld_ind_straight ldx_mem_straight ldx_msh_straight and_straight
  or_straight lsh_straight add_x_straight tax_straight ld_imm_straight ld_len_straight : gen.

Lemma stmts_nil : stmts_ok [].
Proof. by constructor. Qed.
Lemma stmts_cons id c k t f ss :
  straight_stmt (c, k) -> stmts_ok ss -> stmts_ok (Slist id c k t f :: ss).
Proof. intros. unfold stmts_ok. cbn [map]. by apply Forall_cons. Qed.
Lemma stmts_app s1 s2 : stmts_ok s1 -> stmts_ok s2 -> stmts_ok (s1 ++ s2).
Proof. unfold stmts_ok. rewrite map_app. intros. by apply Forall_app. Qed.
#[export] Hint Resolve stmts_nil stmts_cons stmts_app : gen.

(** ** Registers *)

Section Loads.
Context (E : gerror -> Prop) (E_error : forall m, E (G_error m)) (R : layout -> Prop).
Abbreviation triple := (triple E R).

Lemma alloc_reg_loop_spec n r m r' :
  regs_ok r -> alloc_reg_loop n r = Some (m, r') -> 0 <= m < 16 /\ regs_ok r'.
Proof using Type.
  revert r. induction n as [|n IH]; intros r Hr; [done|]. cbn [alloc_reg_loop].
  destruct Hr as (H1 & H2 & H3). destruct (nthZ _ _) as [[]|].
  - apply IH. split; [|done]. cbn. by apply Z.mod_pos_bound.
  - intros [= <- <-]. unfold regs_ok. cbn. lia.
  - intros [= <- <-]. unfold regs_ok. cbn. lia.
Qed.

Lemma triple_alloc_reg {A} l (K : Z -> gen A) Q :
  (forall n, 0 <= n < 16 -> triple l (K n) Q) -> triple l (bind alloc_reg K) Q.
Proof using E_error.
  intros HK. apply triple_assoc, triple_get_regs. intros r Hr.
  destruct (alloc_reg_loop _ r) as [[n r']|] eqn:Er; [|by apply triple_fail_bind].
  apply alloc_reg_loop_spec in Er as [Hn Hr']; [|done].
  apply triple_assoc. eapply triple_bind; [by apply triple_set_regs|]. intros [].
  apply triple_ret_bind. by apply HK.
Qed.

Lemma triple_need_off_ll {A} l (K : Z -> gen A) Q :
  (forall n, 0 <= n < 16 -> triple l (K n) Q) -> triple l (bind need_off_ll K) Q.
Proof using E_error.
  intros HK. apply triple_assoc, triple_get_regs. intros r (Hr1 & Hr2 & Hr3).
  destruct (Z.eqb_spec (reg_off_ll r) (-1)).
  - apply triple_assoc, triple_alloc_reg. intros n Hn. apply triple_assoc, triple_get_regs.
    intros r' (H1 & H2 & H3). apply triple_assoc.
    eapply triple_bind; [apply triple_set_regs; split_and!; cbn; lia|]. intros [].
    apply triple_ret_bind. by apply HK.
  - apply triple_ret_bind. apply HK. lia.
Qed.

(** Code that loads [X], if there is any. *)
Definition prefix_ok (s : option (list slist)) : Prop := match s with Some s => stmts_ok s | None => True end.

Lemma triple_llprefixlen {A} l (K : option (list slist) -> gen A) Q :
  (forall s, prefix_ok s -> triple l (K s) Q) -> triple l (bind gen_llprefixlen K) Q.
Proof using E_error.
  intros HK. apply triple_assoc, triple_get_off. intros o Ho. destruct (has_llprefix _).
  - apply triple_assoc, triple_assoc, triple_need_off_ll. intros n Hn.
    apply triple_assoc, triple_stmt. intros id. do 2 apply triple_ret_bind. apply HK. cbn. auto with gen.
  - apply triple_ret_bind. by apply HK.
Qed.

Lemma triple_off_macpl {A} l (K : option (list slist) -> gen A) Q :
  (forall s, prefix_ok s -> triple l (K s) Q) -> triple l (bind gen_off_macpl K) Q.
Proof using E_error.
  intros HK. apply triple_assoc, triple_get_off. intros o Ho. destruct (off_macpl_is_variable o).
  2: { apply triple_ret_bind. by apply HK. }
  apply triple_assoc, triple_get_regs. intros r (Hr1 & Hr2 & Hr3).
  assert (Hs : forall n, 0 <= n < 16 ->
    triple l (bind (s <- new_stmt (BPF_LDX .| BPF_MEM) n ;; ret (Some [s])) K) Q).
  { intros n Hn. apply triple_assoc, triple_stmt. intros id. apply triple_ret_bind. apply HK. cbn.
    auto with gen. }
  apply triple_assoc. destruct (Z.eqb_spec (reg_off_macpl r) (-1)).
  - apply triple_assoc, triple_alloc_reg. intros n Hn. apply triple_assoc, triple_get_regs.
    intros r' (H1 & H2 & H3). apply triple_assoc.
    eapply triple_bind; [apply triple_set_regs; split_and!; cbn; lia|]. intros [].
    apply triple_ret_bind. by apply Hs.
  - apply triple_ret_bind. apply Hs. lia.
Qed.

Lemma triple_loadx_iphdrlen {A} l (K : list slist -> gen A) Q :
  (forall s, stmts_ok s -> triple l (K s) Q) -> triple l (bind gen_loadx_iphdrlen K) Q.
Proof using E_error.
  intros HK. apply triple_assoc, triple_get_off. intros o Ho. apply triple_assoc, triple_off_macpl.
  intros [s|] Hs.
  - do 5 (apply triple_assoc, triple_stmt; intros ?). apply triple_ret_bind. apply HK. cbn in Hs. auto 10 with gen.
  - apply triple_assoc, triple_stmt. intros id. apply triple_ret_bind. apply HK. auto with gen.
Qed.

Lemma triple_load_llrel {A} l offset size (K : list slist -> gen A) Q : is_size size ->
  (forall s, stmts_ok s -> triple l (K s) Q) -> triple l (bind (gen_load_llrel offset size) K) Q.
Proof using E_error.
  intros Hsz HK. apply triple_assoc, triple_get_off. intros o Ho. apply triple_assoc, triple_llprefixlen.
  intros [s|] Hs; apply triple_assoc, triple_stmt; intros id; apply triple_ret_bind, HK; cbn in Hs; auto with gen.
Qed.

Lemma triple_load_macplrel {A} l offset size (K : list slist -> gen A) Q : is_size size ->
  (forall s, stmts_ok s -> triple l (K s) Q) -> triple l (bind (gen_load_macplrel offset size) K) Q.
Proof using E_error.
  intros Hsz HK. apply triple_assoc, triple_get_off. intros o Ho. apply triple_assoc, triple_off_macpl.
  intros [s|] Hs; apply triple_assoc, triple_stmt; intros id; apply triple_ret_bind, HK; cbn in Hs; auto with gen.
Qed.

Lemma triple_load_a {A} l offrel offset size (K : list slist -> gen A) Q : is_size size ->
  (forall s, stmts_ok s -> triple l (K s) Q) -> triple l (bind (gen_load_a offrel offset size) K) Q.
Proof using E_error.
  intros Hsz HK. apply triple_assoc, triple_get_off. intros o Ho.
  destruct offrel; try (by apply triple_load_macplrel).
  - apply triple_assoc, triple_stmt. intros id. apply triple_ret_bind, HK. auto with gen.
  - by apply triple_load_llrel.
  - apply triple_assoc, triple_loadx_iphdrlen. intros s Hs. apply triple_assoc, triple_stmt.
    intros id. apply triple_ret_bind, HK. auto with gen.
Qed.
End Loads.

(** ** Comparisons *)

(** The tests of the comparison functions. *)
Definition is_jtype (jtype : Z) : Prop :=
  jtype = BPF_JEQ \/ jtype = BPF_JGT \/ jtype = BPF_JGE \/ jtype = BPF_JSET.

Lemma straight_branch ss jtype k :
  stmts_ok ss -> is_jtype jtype -> straight (ELeaf (map op_of ss) (JMP jtype) k).
Proof.
  intros Hs Hj. split; [done|].
  destruct Hj as [->|[->|[->| ->]]]; (split; [|done]);
    [by exists Jeq, K|by exists Jgt, K|by exists Jge, K|by exists Jset, K].
Qed.

Lemma is_JEQ : is_jtype BPF_JEQ. Proof. unfold is_jtype. tauto. Qed.
Lemma is_JGT : is_jtype BPF_JGT. Proof. unfold is_jtype. tauto. Qed.
Lemma is_JGE : is_jtype BPF_JGE. Proof. unfold is_jtype. tauto. Qed.
Lemma is_JSET : is_jtype BPF_JSET. Proof. unfold is_jtype. tauto. Qed.
#[export] Hint Resolve is_JEQ is_JGT is_JGE is_JSET straight_branch : gen.

Abbreviation striple := (triple not_graph).

Lemma not_graph_error m : not_graph (G_error m). Proof. done. Qed.
Lemma not_graph_abort : not_graph G_abort. Proof. done. Qed.
Lemma not_graph_undef : not_graph G_undef. Proof. done. Qed.
#[export] Hint Resolve not_graph_error not_graph_abort not_graph_undef : gen.

Lemma striple_and R b0 b1 L L1 L2 :
  pick (b0, straight) L L1 -> pick (b1, straight) L1 L2 ->
  striple R L (gen_and b0 b1) (exactly (fun _ => (b1, straight) :: L2)).
Proof. apply triple_and_pick. by split. Qed.
Lemma striple_or R b0 b1 L L1 L2 :
  pick (b0, straight) L L1 -> pick (b1, straight) L1 L2 ->
  striple R L (gen_or b0 b1) (exactly (fun _ => (b1, straight) :: L2)).
Proof. apply triple_or_pick. by split. Qed.
Lemma striple_not R b L L1 :
  pick (b, straight) L L1 -> striple R L (gen_not b) (exactly (fun _ => (b, straight) :: L1)).
Proof. by apply triple_not_pick. Qed.

(** One step through a generator: the rules above, and what is known of the
    generators it calls. *)
Ltac gstep :=
  lazymatch goal with
  | |- makes _ => intros ? ?
  | |- makes_in _ _ => intros ?
  | |- triple _ _ _ (bind (bind _ _) _) _ => apply triple_assoc
  | |- triple _ _ _ (bind (ret _) _) _ => apply triple_ret_bind
  | |- triple _ _ _ (bind (fail _) _) _ => apply triple_fail_bind; auto with gen
  | |- triple _ _ _ (bind (bpf_error _) _) _ => apply triple_fail_bind; auto with gen
  | |- triple _ _ _ (bind get_off _) _ => apply triple_get_off; intros ? _
  | |- triple _ _ _ (bind (new_stmt _ _) _) _ => apply triple_stmt; intros ?
  | |- triple _ _ _ (bind (gen_load_a _ _ _) _) _ =>
      apply triple_load_a; [done|auto with gen|intros ? ?]
  | |- triple _ _ _ (bind (if ?c then _ else _) _) _ => destruct c eqn:?
  | |- triple _ _ _ (if ?c then _ else _) _ => destruct c eqn:?
  | |- triple _ _ _ (let '(_, _) := ?x in _) _ => destruct x eqn:?
  | |- triple _ _ _ (bind (gen_and _ _) _) _ =>
      eapply triple_bind; [eapply striple_and; solve [eauto with gen]|intros []]
  | |- triple _ _ _ (bind (gen_or _ _) _) _ =>
      eapply triple_bind; [eapply striple_or; solve [eauto with gen]|intros []]
  | |- triple _ _ _ (bind (gen_not _) _) _ =>
      eapply triple_bind; [eapply striple_not; solve [eauto with gen]|intros []]
  | |- triple _ _ _ (bind (new_branch _ _ _) _) _ =>
      eapply triple_bind; [apply triple_branch with (P := straight); solve [auto with gen]|intros ?]
  | |- triple _ _ _ (bind ?g _) _ =>
      eapply triple_bind; [let H := fresh in assert (H : makes g) by (auto with gen); apply H|intros ?]
  | |- triple _ _ _ (ret _) _ => eapply triple_ret_pick; solve [eauto with gen]
  | |- triple _ _ _ (fail _) _ => apply triple_fail; auto with gen
  | |- triple _ _ _ (bpf_error _) _ => apply triple_fail; auto with gen
  | |- triple _ _ _ (new_branch _ _ _) _ => apply triple_branch with (P := straight); solve [auto with gen]
  | |- triple _ _ _ ?g _ => let H := fresh in assert (H : makes g) by (auto with gen); apply H
  end.
Ltac gsteps := repeat gstep.

Lemma ncmp_straight offrel offset size mask jtype reverse v :
  is_size size -> is_jtype jtype -> makes (gen_ncmp offrel offset size mask jtype reverse v).
Proof. intros Hsz Hj. unfold gen_ncmp. gsteps. Qed.
#[export] Hint Resolve ncmp_straight : gen.

Lemma cmp_straight offrel offset size v : is_size size -> makes (gen_cmp offrel offset size v).
Proof. intros. unfold gen_cmp. auto with gen. Qed.
Lemma cmp_gt_straight offrel offset size v : is_size size -> makes (gen_cmp_gt offrel offset size v).
Proof. intros. unfold gen_cmp_gt. auto with gen. Qed.
Lemma cmp_ge_straight offrel offset size v : is_size size -> makes (gen_cmp_ge offrel offset size v).
Proof. intros. unfold gen_cmp_ge. auto with gen. Qed.
Lemma cmp_lt_straight offrel offset size v : is_size size -> makes (gen_cmp_lt offrel offset size v).
Proof. intros. unfold gen_cmp_lt. auto with gen. Qed.
Lemma cmp_le_straight offrel offset size v : is_size size -> makes (gen_cmp_le offrel offset size v).
Proof. intros. unfold gen_cmp_le. auto with gen. Qed.
Lemma mcmp_straight offrel offset size v mask : is_size size -> makes (gen_mcmp offrel offset size v mask).
Proof. intros. unfold gen_mcmp. auto with gen. Qed.
Lemma uncond_straight r : makes (gen_uncond r).
Proof. unfold gen_uncond. gsteps. Qed.
#[export] Hint Resolve cmp_straight cmp_gt_straight cmp_ge_straight cmp_lt_straight cmp_le_straight
  mcmp_straight uncond_straight : gen.
Lemma true_straight : makes gen_true. Proof. apply uncond_straight. Qed.
Lemma false_straight : makes gen_false. Proof. apply uncond_straight. Qed.
#[export] Hint Resolve true_straight false_straight : gen.

(** [gen_bcmp] makes no graph only if there are no bytes to compare. *)
Definition made (b : option nat) : list owned := match b with Some b => [(b, straight)] | None => [] end.

Lemma striple_and_next {A} R b tmp l (K : option nat -> gen A) Q :
  striple R ((tmp, straight) :: l) (K (Some tmp)) Q ->
  striple R ((tmp, straight) :: made b ++ l) (bind (and_next b tmp) K) Q.
Proof.
  intros HK. unfold and_next. apply triple_assoc. destruct b as [b|]; cbn [made app].
  - eapply triple_bind; [eapply striple_and; eauto with gen|]. intros []. by apply triple_ret_bind.
  - by do 2 apply triple_ret_bind.
Qed.

(** A loop of [gen_bcmp] makes a graph or leaves the bytes as they are. *)
Definition bcmp_progress (v : list byte) (r : option nat * list byte) : Prop := is_Some r.1 \/ r.2 = v.

Lemma bcmp_w_straight {A} R n offrel offset v v0 b l (K : option nat * list byte -> gen A) Q :
  bcmp_progress v0 (b, v) ->
  (forall r, bcmp_progress v0 r -> striple R (made r.1 ++ l) (K r) Q) ->
  striple R (made b ++ l) (bind (gen_bcmp_w n offrel offset v b) K) Q.
Proof.
  intros Hb HK. revert v b Hb. induction n as [|n IH]; intros v b Hb; cbn [gen_bcmp_w].
  - by apply triple_ret_bind, (HK (b, v)).
  - do 2 gstep. gstep. apply striple_and_next. apply (IH _ (Some _)). left. by eexists.
Qed.
Lemma bcmp_h_straight {A} R n offrel offset v v0 b l (K : option nat * list byte -> gen A) Q :
  bcmp_progress v0 (b, v) ->
  (forall r, bcmp_progress v0 r -> striple R (made r.1 ++ l) (K r) Q) ->
  striple R (made b ++ l) (bind (gen_bcmp_h n offrel offset v b) K) Q.
Proof.
  intros Hb HK. revert v b Hb. induction n as [|n IH]; intros v b Hb; cbn [gen_bcmp_h].
  - by apply triple_ret_bind, (HK (b, v)).
  - do 2 gstep. gstep. apply striple_and_next. apply (IH _ (Some _)). left. by eexists.
Qed.

Lemma bcmp_straight offrel offset v : v <> [] -> makes (b <- gen_bcmp offrel offset v ;; nonnull b).
Proof.
  intros Hv R l. unfold gen_bcmp. gstep. apply (bcmp_w_straight _ _ _ _ v v None); [by right|].
  intros [b1 v1] H1. gstep. apply (bcmp_h_straight _ _ _ _ v1 v b1); [done|].
  intros [b2 v2] H2. cbn [fst snd]. destruct v2 as [|x v2].
  - gstep. destruct H2 as [[b' E]|E]; cbn in E; [|by subst]. subst b2. cbn. by apply triple_ret_exactly.
  - do 2 gstep. apply striple_and_next. cbn. by apply triple_ret_exactly.
Qed.
#[export] Hint Resolve bcmp_straight : gen.

(** ** Link-layer protocols *)

#[export] Hint Extern 1 (_ <> []) => discriminate : gen.

(** A case of a [switch] that is split in several definitions. *)
Definition makes_opt (x : option (gen nat)) : Prop := match x with Some g => makes g | None => True end.

Lemma first_of_straight l k : Forall makes_opt l -> makes k -> makes (first_of l k).
Proof. intros Hl Hk. induction Hl as [|[g|] l Hg _ IH]; done. Qed.

(** Takes a [switch] apart. *)
Ltac cases :=
  repeat match goal with
  | |- makes_opt (if ?c then _ else _) => destruct c eqn:?
  | |- makes_opt (Some _) => cbn [makes_opt]
  | |- makes_opt None => exact I
  | |- makes (if ?c then _ else _) => destruct c eqn:?
  end.
Ltac straight_tac := cases; gsteps.

Lemma snap_straight orgcode ptype : makes (gen_snap orgcode ptype).
Proof. unfold gen_snap. auto with gen. Qed.
#[export] Hint Resolve snap_straight : gen.
Lemma llc_straight proto : makes (gen_llc_linktype proto).
Proof. unfold gen_llc_linktype. straight_tac. Qed.
Lemma frame_802_3_straight : makes gen_802_3.
Proof. unfold gen_802_3. straight_tac. Qed.
Lemma atalk_straight proto : makes (gen_atalk_snap proto).
Proof. unfold gen_atalk_snap. straight_tac. Qed.
#[export] Hint Resolve llc_straight frame_802_3_straight atalk_straight : gen.
Lemma ether_straight proto : makes (gen_ether_linktype proto).
Proof. unfold gen_ether_linktype. straight_tac. Qed.
Lemma ipnet_straight proto : makes (gen_ipnet_linktype proto).
Proof. unfold gen_ipnet_linktype. straight_tac. Qed.
Lemma sll_straight proto : makes (gen_linux_sll_linktype proto).
Proof. unfold gen_linux_sll_linktype. straight_tac. Qed.
Lemma data_frame_straight : makes gen_check_802_11_data_frame.
Proof. unfold gen_check_802_11_data_frame. straight_tac. Qed.
Lemma atmfield_straight field jvalue jtype reverse :
  is_jtype jtype -> makes (gen_atmfield_code field jvalue jtype reverse).
Proof. intros. unfold gen_atmfield_code. straight_tac. Qed.
Lemma mpls_straight proto : makes (gen_mpls_linktype proto).
Proof. unfold gen_mpls_linktype. straight_tac. Qed.
#[export] Hint Resolve ether_straight ipnet_straight sll_straight data_frame_straight atmfield_straight
  mpls_straight : gen.

Lemma linktype_1_straight o proto : makes_opt (linktype_1 o proto).
Proof. unfold linktype_1. straight_tac. Qed.
Lemma linktype_2_straight o proto : makes_opt (linktype_2 o proto).
Proof. unfold linktype_2. straight_tac. Qed.
Lemma linktype_3_straight o proto : makes_opt (linktype_3 o proto).
Proof. unfold linktype_3. straight_tac. Qed.
Lemma linktype_4_straight o proto : makes_opt (linktype_4 o proto).
Proof. unfold linktype_4. straight_tac. Qed.
#[export] Hint Resolve linktype_1_straight linktype_2_straight linktype_3_straight linktype_4_straight : gen.

Lemma linktype_straight proto : makes (gen_linktype proto).
Proof.
  unfold gen_linktype. straight_tac; (apply first_of_straight; [|straight_tac]);
  repeat first [apply Forall_nil_2|apply Forall_cons_2]; auto with gen.
Qed.
#[export] Hint Resolve linktype_straight : gen.

(** ** Hosts, ports and protocols *)

Lemma both_straight g0 g1 : makes g0 -> makes g1 -> makes (both g0 g1).
Proof. intros. unfold both. straight_tac. Qed.
Lemma either_straight g0 g1 : makes g0 -> makes g1 -> makes (either g0 g1).
Proof. intros. unfold either. straight_tac. Qed.
#[export] Hint Resolve both_straight either_straight : gen.
Lemma by_dir_straight dir src dst other :
  makes src -> makes dst -> makes other -> makes (by_dir dir src dst other).
Proof. intros. unfold by_dir. cases; auto with gen. Qed.
Lemma error_straight msg : makes (bpf_error msg).
Proof. intros R l. gsteps. Qed.
Lemma abort_straight : makes (fail G_abort).
Proof. intros R l. gsteps. Qed.
#[export] Hint Resolve by_dir_straight error_straight abort_straight : gen.

Lemma hostop_at_straight addr mask proto off : makes (gen_hostop_at addr mask proto off).
Proof. unfold gen_hostop_at. straight_tac. Qed.
Lemma hostop6_at_straight a m proto off : makes (gen_hostop6_at a m proto off).
Proof. unfold gen_hostop6_at. destruct a as [[[a0 a1] a2] a3], m as [[[m0 m1] m2] m3]. straight_tac. Qed.
Lemma dnhostop_at_straight addr sh lh : makes (gen_dnhostop_at addr sh lh).
Proof. unfold gen_dnhostop_at. straight_tac. Qed.
#[export] Hint Resolve hostop_at_straight hostop6_at_straight dnhostop_at_straight : gen.
Lemma hostop_straight addr mask dir proto so do_ : makes (gen_hostop addr mask dir proto so do_).
Proof. unfold gen_hostop. auto with gen. Qed.
Lemma hostop6_straight a m dir proto so do_ : makes (gen_hostop6 a m dir proto so do_).
Proof. unfold gen_hostop6. auto with gen. Qed.
Lemma dnhostop_straight addr dir : makes (gen_dnhostop addr dir).
Proof. unfold gen_dnhostop. apply by_dir_straight; cases; auto with gen. Qed.
Lemma bad_host_straight proto type : makes (bad_host_proto proto type).
Proof. unfold bad_host_proto. cases; auto with gen. Qed.
#[export] Hint Resolve hostop_straight hostop6_straight dnhostop_straight bad_host_straight : gen.
Lemma host_proto_straight addr mask proto dir type : makes (gen_host_proto addr mask proto dir type).
Proof. unfold gen_host_proto. cases; auto with gen. Qed.
#[export] Hint Resolve host_proto_straight : gen.
Lemma host_straight addr mask proto dir type : makes (gen_host addr mask proto dir type).
Proof. unfold gen_host. straight_tac. Qed.
Lemma host6_straight a m proto dir type : makes (gen_host6 a m proto dir type).
Proof. unfold gen_host6. cases; auto with gen. Qed.

Lemma wlan_dir_straight w dir : makes (wlan_dir w dir).
Proof. unfold wlan_dir. cases; auto with gen. Qed.
Lemma mac_straight off eaddr : eaddr <> [] -> makes (gen_mac off eaddr).
Proof. intros. unfold gen_mac. auto with gen. Qed.
#[export] Hint Resolve host_straight host6_straight wlan_dir_straight mac_straight : gen.
Lemma ehostop_straight eaddr dir : eaddr <> [] -> makes (gen_ehostop eaddr dir).
Proof. intros. unfold gen_ehostop. straight_tac. Qed.
Lemma fhostop_straight eaddr dir : eaddr <> [] -> makes (gen_fhostop eaddr dir).
Proof. intros. unfold gen_fhostop. auto with gen. Qed.
Lemma thostop_straight eaddr dir : eaddr <> [] -> makes (gen_thostop eaddr dir).
Proof. intros. unfold gen_thostop. auto with gen. Qed.
Lemma ipfchostop_straight eaddr dir : eaddr <> [] -> makes (gen_ipfchostop eaddr dir).
Proof. intros. unfold gen_ipfchostop. auto with gen. Qed.
Lemma ahostop_straight eaddr dir : eaddr <> [] -> makes (gen_ahostop eaddr dir).
Proof. intros. unfold gen_ahostop. auto with gen. Qed.
#[export] Hint Resolve ehostop_straight fhostop_straight thostop_straight ipfchostop_straight
  ahostop_straight : gen.

Lemma ipfrag_straight : makes gen_ipfrag.
Proof. unfold gen_ipfrag. straight_tac. Qed.
Lemma portrangeatom_straight offrel off v1 v2 : makes (gen_portrangeatom_at offrel off v1 v2).
Proof. unfold gen_portrangeatom_at. straight_tac. Qed.
#[export] Hint Resolve ipfrag_straight portrangeatom_straight : gen.
Lemma portop_straight atom proto dir : (forall off, makes (atom off)) -> makes (portop atom proto dir).
Proof. intros. unfold portop. straight_tac. Qed.
Lemma portop6_straight atom proto dir : (forall off, makes (atom off)) -> makes (portop6 atom proto dir).
Proof. intros. unfold portop6. straight_tac. Qed.
Lemma port_by_proto_straight op et ip_proto dir :
  (forall p d, makes (op p d)) -> makes (port_by_proto op et ip_proto dir).
Proof. intros. unfold port_by_proto. straight_tac. Qed.
#[export] Hint Resolve portop_straight portop6_straight : gen.
Lemma port_straight port ip_proto dir : makes (gen_port port ip_proto dir).
Proof. apply port_by_proto_straight. intros. apply portop_straight. intros. apply cmp_straight; auto with gen. Qed.
Lemma port6_straight port ip_proto dir : makes (gen_port6 port ip_proto dir).
Proof. apply port_by_proto_straight. intros. apply portop6_straight. intros. apply cmp_straight; auto with gen. Qed.
Lemma portrange_straight p1 p2 ip_proto dir : makes (gen_portrange p1 p2 ip_proto dir).
Proof. apply port_by_proto_straight. intros. apply portop_straight. intros. apply portrangeatom_straight. Qed.
Lemma portrange6_straight p1 p2 ip_proto dir : makes (gen_portrange6 p1 p2 ip_proto dir).
Proof. apply port_by_proto_straight. intros. apply portop6_straight. intros. apply portrangeatom_straight. Qed.
#[export] Hint Resolve port_straight port6_straight portrange_straight portrange6_straight : gen.

Lemma bad_proto_straight proto : makes (bad_proto proto).
Proof. unfold bad_proto. cases; auto with gen. Qed.
Lemma proto_ip_straight v : makes (gen_proto_ip v).
Proof. unfold gen_proto_ip. auto with gen. Qed.
Lemma proto_ip6_straight v : makes (gen_proto_ip6 v).
Proof. unfold gen_proto_ip6. straight_tac. Qed.
Lemma proto_iso_straight v : makes (gen_proto_iso v).
Proof. unfold gen_proto_iso. straight_tac. Qed.
#[export] Hint Resolve bad_proto_straight proto_ip_straight proto_ip6_straight proto_iso_straight : gen.
Lemma proto_isis_straight v : makes (gen_proto_isis v).
Proof. unfold gen_proto_isis. auto with gen. Qed.
#[export] Hint Resolve proto_isis_straight : gen.
Lemma proto_straight v proto dir : makes (gen_proto v proto dir).
Proof. unfold gen_proto. cases; auto with gen. Qed.
#[export] Hint Resolve proto_straight : gen.
Lemma proto_46_straight v : makes (gen_proto_46 v).
Proof. unfold gen_proto_46. straight_tac. Qed.
Lemma isis_more_straight R b vs l : striple R ((b, straight) :: l) (gen_isis_more b vs) (exactly (fun b => (b, straight) :: l)).
Proof. revert b. induction vs as [|v vs IH]; intros b; cbn [gen_isis_more]; gsteps; apply IH. Qed.
Lemma isis_pdus_straight v0 v1 vs : makes (gen_isis_pdus v0 v1 vs).
Proof. unfold gen_isis_pdus. gsteps. apply isis_more_straight. Qed.
#[export] Hint Resolve proto_46_straight isis_pdus_straight : gen.
Lemma abbrev_1_straight proto : makes_opt (proto_abbrev_1 proto).
Proof. unfold proto_abbrev_1. cases; auto with gen. Qed.
Lemma abbrev_2_straight proto : makes_opt (proto_abbrev_2 proto).
Proof. unfold proto_abbrev_2. cases; auto with gen. Qed.
Lemma proto_abbrev_straight proto : makes (gen_proto_abbrev proto).
Proof.
  apply first_of_straight; [|auto with gen].
  repeat first [apply Forall_nil_2|apply Forall_cons_2]; [apply abbrev_1_straight|apply abbrev_2_straight].
Qed.
#[export] Hint Resolve proto_abbrev_straight : gen.
