(* ===== verification/GenShape.v ===== *)
(** The shape of what the other generators make: arithmetic and relations,
    encapsulations, ATM and SS7, 802.11 addresses, names and numbers.  Like
    those of [GenStraight], they make graphs of straight-line blocks or end
    with an error. *)
From S2P Require Import Prelude Bpf BpfFilter BpfValidate Datalink GenConst Gencode GenLink GenProto.
From S2P Require Import GenArth GenMisc GenWlan Names GenName GencodeSpec GenTriple Icode IcodeSpec GenStraight.

#[local] Open Scope Z_scope.
#[local] Open Scope c_scope.
#[local] Open Scope gen_scope.

(** ** Lengths and bytes *)

Lemma len_straight jmp n : is_jtype jmp -> makes (gen_len jmp n).
Proof. intros. unfold gen_len. gsteps. Qed.
#[export] Hint Resolve len_straight : gen.
Lemma greater_straight n : makes (gen_greater n).
Proof. unfold gen_greater. auto with gen. Qed.
Lemma less_straight n : makes (gen_less n).
Proof. unfold gen_less. gsteps. Qed.
Lemma byteop_straight op idx val : makes (gen_byteop op idx val).
Proof. unfold gen_byteop. destruct op; gsteps. Qed.
#[export] Hint Resolve greater_straight less_straight byteop_straight : gen.

(** ** Arithmetic *)

Lemma ld_mem_straight n : 0 <= n < 16 -> straight_stmt (BPF_LD .| BPF_MEM, i32 n).
Proof.
  intros Hn. apply (straight_stmt_intro _ _ LdMem); [done|done|]. cbn [checked k].
  rewrite swrap_id, uwrap_id by clia. lia.
Qed.
Lemma st_straight n : 0 <= n < 16 -> straight_stmt (BPF_ST, i32 n).
Proof.
  intros Hn. apply (straight_stmt_intro _ _ StM); [done|done|]. cbn [checked k].
  rewrite swrap_id, uwrap_id by clia. lia.
Qed.
Lemma neg_straight k : straight_stmt (BPF_ALU .| BPF_NEG, k).
Proof. stmt_tac AluNeg. Qed.
#[export] Hint Resolve ld_mem_straight st_straight neg_straight : gen.

(** The operators of the grammar. *)
Definition is_aluop (code : Z) : Prop :=
  In code [BPF_ADD; BPF_SUB; BPF_MUL; BPF_DIV; BPF_AND; BPF_OR; BPF_LSH; BPF_RSH].
Lemma alu_x_straight code k : is_aluop code -> straight_stmt (BPF_ALU .| BPF_X .| code, k).
Proof.
  intros Hc. repeat destruct Hc as [<-|Hc];
    [stmt_tac (AluOp Add X)|stmt_tac (AluOp Sub X)|stmt_tac (AluOp Mul X)|stmt_tac (AluOp Div X)
    |stmt_tac (AluOp And X)|stmt_tac (AluOp Or X)|stmt_tac (AluOp Lsh X)|stmt_tac (AluOp Rsh X)|destruct Hc].
Qed.
Lemma sub_x_straight k : straight_stmt (BPF_ALU .| BPF_SUB .| BPF_X, k).
Proof. stmt_tac (AluOp Sub X). Qed.
#[export] Hint Resolve alu_x_straight sub_x_straight : gen.

(** A value in a register: its code is straight, its checks are a graph. *)
Definition arth_ok (a : arth) : Prop := stmts_ok (a_s a) /\ 0 <= a_regno a < 16.
Definition checks (a : arth) : list owned := made (a_b a).

(** A generator that takes the graphs [l] and leaves a value with its checks
    and the graphs [l']. *)
Definition arth_in (R : layout -> Prop) (l : list owned) (g : gen arth) (l' : list owned) : Prop :=
  triple not_graph R l g (fun a l1 => arth_ok a /\ l1 = checks a ++ l').

Section Arith.
Context (R : layout -> Prop).
Abbreviation triple := (triple not_graph R).

Lemma triple_free_reg {A} n l (K : unit -> gen A) Q : triple l (K tt) Q -> triple l (bind (free_reg n) K) Q.
Proof using Type.
  intros HK. unfold free_reg. apply triple_assoc, triple_get_regs. intros r (H1 & H2 & H3).
  eapply triple_bind; [by apply triple_set_regs|]. by intros [].
Qed.

Lemma triple_xfer_to_x {A} a l (K : list slist -> gen A) Q : arth_ok a ->
  (forall s, stmts_ok s -> triple l (K s) Q) -> triple l (bind (xfer_to_x a) K) Q.
Proof using Type. intros [_ Ha] HK. unfold xfer_to_x. do 3 gstep. apply HK. auto with gen. Qed.
Lemma triple_xfer_to_a {A} a l (K : list slist -> gen A) Q : arth_ok a ->
  (forall s, stmts_ok s -> triple l (K s) Q) -> triple l (bind (xfer_to_a a) K) Q.
Proof using Type. intros [_ Ha] HK. unfold xfer_to_a. do 3 gstep. apply HK. auto with gen. Qed.
Lemma triple_store_reg {A} n l (K : list slist -> gen A) Q : 0 <= n < 16 ->
  (forall s, stmts_ok s -> triple l (K s) Q) -> triple l (bind (store_reg n) K) Q.
Proof using Type. intros Hn HK. unfold store_reg. do 3 gstep. apply HK. auto with gen. Qed.

Lemma triple_add_to_x {A} a l (K : list slist -> gen A) Q : arth_ok a ->
  (forall s, stmts_ok s -> triple l (K s) Q) -> triple l (bind (add_to_x a) K) Q.
Proof using Type.
  intros Ha HK. unfold add_to_x. apply triple_assoc, triple_xfer_to_a; [done|]. intros s Hs.
  do 5 gstep. apply HK. auto with gen.
Qed.
Lemma triple_index_in_x {A} s a l (K : list slist -> gen A) Q : prefix_ok s -> arth_ok a ->
  (forall s, stmts_ok s -> triple l (K s) Q) -> triple l (bind (index_in_x s a) K) Q.
Proof using Type.
  intros Hs Ha HK. destruct s as [s|]; cbn [index_in_x].
  - apply triple_assoc, triple_add_to_x; [done|]. intros s' Hs'. gstep. apply HK. cbn in Hs. auto with gen.
  - by apply triple_xfer_to_x.
Qed.

Lemma triple_and_check {A} b0 b l (K : unit -> gen A) Q :
  triple ((b, straight) :: l) (K tt) Q ->
  triple ((b, straight) :: made b0 ++ l) (bind (and_check b0 b) K) Q.
Proof using Type.
  intros HK. destruct b0 as [b0|]; cbn [and_check made app].
  - eapply triple_bind; [eapply striple_and; eauto with gen|]. by intros [].
  - by gstep.
Qed.

(** The cases of [gen_load]. *)
Definition loads (a : arth) (l : list owned) (g : gen (option nat * list slist)) : Prop :=
  forall A (K : option nat * list slist -> gen A) Q,
    (forall b s, stmts_ok s -> triple (made b ++ l) (K (b, s)) Q) -> triple (checks a ++ l) (bind g K) Q.

Lemma load_radio_straight a size l : is_size size -> arth_ok a -> loads a l (gen_load_radio a size).
Proof using Type.
  intros Hs Ha A K Q HK. unfold gen_load_radio. gsteps. apply triple_xfer_to_x; [done|]. intros s Hs'.
  do 3 gstep. apply HK. auto with gen.
Qed.
Lemma load_link_straight a size l : is_size size -> arth_ok a -> loads a l (gen_load_link a size).
Proof using Type.
  intros Hs Ha A K Q HK. unfold gen_load_link. do 3 gstep. apply triple_llprefixlen; [done|]. intros s Hs1.
  gstep. apply triple_index_in_x; [done|done|]. intros s' Hs'. do 3 gstep. apply HK. auto with gen.
Qed.
Lemma load_net_straight proto a size l : is_size size -> arth_ok a -> loads a l (gen_load_net proto a size).
Proof using Type.
  intros Hs Ha A K Q HK. unfold gen_load_net. do 3 gstep. apply triple_off_macpl; [done|]. intros s Hs1.
  gstep. apply triple_index_in_x; [done|done|]. intros s' Hs'. do 5 gstep.
  apply triple_and_check. gstep. apply (HK (Some _)). auto with gen.
Qed.
Lemma load_tran_straight proto a size l : is_size size -> arth_ok a -> loads a l (gen_load_tran proto a size).
Proof using Type.
  intros Hs Ha A K Q HK. unfold gen_load_tran. do 3 gstep. apply triple_loadx_iphdrlen; [done|]. intros s Hs1.
  gstep. apply triple_add_to_x; [done|]. intros s' Hs'. do 8 gstep. gstep.
  apply triple_and_check. do 4 gstep. gstep. apply (HK (Some _)). auto with gen.
Qed.
End Arith.

Section Values.
Context (R : layout -> Prop).
Abbreviation triple := (triple not_graph R).

(** The end of a generator of a value. *)
Lemma triple_ret_arth a l L : arth_ok a -> L ≡ₚ checks a ++ l ->
  triple L (ret a) (fun a l1 => arth_ok a /\ l1 = checks a ++ l).
Proof using Type. intros Ha Hp. by apply triple_ret with (l' := checks a ++ l). Qed.

Lemma load_arth proto a size l : arth_ok a -> arth_in R (checks a ++ l) (gen_load proto a size) l.
Proof using Type.
  intros Ha. unfold arth_in, gen_load. apply triple_alloc_reg; [done|]. intros n Hn. apply triple_free_reg.
  assert (Hcase : forall sz, is_size sz ->
    triple (checks a ++ l)
      (r <- (if proto =? Q_RADIO then gen_load_radio a sz
        else if proto =? Q_LINK then gen_load_link a sz
        else if one_of proto [Q_IP; Q_ARP; Q_RARP; Q_ATALK; Q_DECNET; Q_SCA; Q_LAT; Q_MOPRC; Q_MOPDL; Q_IPV6]
        then gen_load_net proto a sz
        else if one_of proto [Q_SCTP; Q_TCP; Q_UDP; Q_ICMP; Q_IGMP; Q_IGRP; Q_PIM; Q_VRRP; Q_CARP]
        then gen_load_tran proto a sz
        else if proto =? Q_ICMPV6 then bpf_error "IPv6 upper-layer protocol is not supported by proto[x]"
        else bpf_error "unsupported index operation") ;;
       st <- store_reg n ;;
       ret (Arth r.1 (a_s a ++ r.2 ++ st) n)) (fun a l1 => arth_ok a /\ l1 = checks a ++ l)).
  { intros sz Hsz.
    assert (Hk : forall b s, stmts_ok s -> triple (made b ++ l)
      (st <- store_reg n ;; ret (Arth b (a_s a ++ s ++ st) n)) (fun a l1 => arth_ok a /\ l1 = checks a ++ l)).
    { intros b s Hs. apply triple_store_reg; [done|]. intros st Hst. apply triple_ret_arth; [|done].
      destruct Ha. split; cbn; auto with gen. }
    repeat match goal with |- context [if ?c then _ else _] => destruct c end;
      first [by apply triple_fail_bind|
             first [eapply load_radio_straight|eapply load_link_straight|eapply load_net_straight
                   |eapply load_tran_straight]; eauto]. }
  repeat match goal with |- context [if ?c =? ?d then ret _ else _] => destruct (c =? d) end;
    try (apply triple_ret_bind, Hcase; auto with gen); by apply triple_fail_bind.
Qed.

Lemma loadlen_arth l : arth_in R l gen_loadlen l.
Proof using Type.
  unfold arth_in, gen_loadlen. apply triple_alloc_reg; [done|]. intros n Hn. gstep.
  apply triple_store_reg; [done|]. intros st Hst. apply triple_ret_arth; [|done]. split; cbn; auto with gen.
Qed.
Lemma loadi_arth val l : arth_in R l (gen_loadi val) l.
Proof using Type.
  unfold arth_in, gen_loadi. apply triple_alloc_reg; [done|]. intros n Hn. gstep.
  apply triple_store_reg; [done|]. intros st Hst. apply triple_ret_arth; [|done]. split; cbn; auto with gen.
Qed.
Lemma neg_arth a l : arth_ok a -> arth_in R (checks a ++ l) (gen_neg a) l.
Proof using Type.
  intros Ha. unfold arth_in, gen_neg. apply triple_xfer_to_a; [done|]. intros s Hs. gstep.
  destruct Ha as [Ha1 Ha2]. apply triple_store_reg; [done|]. intros st Hst. apply triple_ret_arth; [|done].
  split; cbn; auto 10 with gen.
Qed.

(** The checks of the second operand are lost. *)
Lemma arth_arth code a0 a1 l : is_aluop code -> arth_ok a0 -> arth_ok a1 ->
  arth_in R (checks a0 ++ l) (gen_arth code a0 a1) l.
Proof using Type.
  intros Hc H0 H1. unfold arth_in, gen_arth. apply triple_xfer_to_x; [done|]. intros s0 Hs0.
  apply triple_xfer_to_a; [done|]. intros s1 Hs1. gstep. do 2 apply triple_free_reg.
  apply triple_alloc_reg; [done|]. intros n Hn. apply triple_store_reg; [done|]. intros st Hst.
  destruct H0, H1. apply triple_ret_arth; [|done]. split; cbn; auto 10 with gen.
Qed.
End Values.

(** ** Relations

    The block is made before its statements are complete: it is found again
    when they are set. *)
Lemma set_stmts_first {A} code ss (reversed : bool) (K : nat -> gen A) s :
  (b <- new_block code ;; (if reversed then gen_not b else ret tt) ;; set_stmts b ss ;; K b) s =
  (b <- new_branch code ss 0 ;; (if reversed then gen_not b else ret tt) ;; K b) s.
Proof.
  unfold new_branch, set_stmts, set_k, gen_not, update, on_heap, new_block, bind, ret.
  destruct reversed; cbn; repeat (rewrite lookup_insert_eq; cbn); by rewrite !insert_insert_eq.
Qed.

Lemma triple_equiv {A} E R l (g g' : gen A) Q :
  (forall s, g s = g' s) -> triple E R l g' Q -> triple E R l g Q.
Proof. intros He Hg s Ho Hs. rewrite He. by apply Hg. Qed.

Definition is_relop (code : Z) : Prop := code = BPF_JGT \/ code = BPF_JGE \/ code = BPF_JEQ.
Lemma straight_relation ss code : stmts_ok ss -> is_relop code ->
  straight (ELeaf (map op_of ss) (if code =? BPF_JEQ then JMP code else BPF_JMP .| code .| BPF_X) (i32 0)).
Proof.
  intros Hs Hc. split; [done|]. destruct Hc as [->|[->| ->]]; (split; [|done]);
    [by exists Jgt, X|by exists Jge, X|by exists Jeq, K].
Qed.

Lemma relation_straight R code a0 a1 reversed l : is_relop code -> arth_ok a0 -> arth_ok a1 ->
  triple not_graph R (checks a0 ++ checks a1 ++ l) (gen_relation code a0 a1 reversed)
    (exactly (fun b => (b, straight) :: l)).
Proof.
  intros Hc H0 H1. unfold gen_relation. apply triple_xfer_to_x; [done|]. intros s0 Hs0.
  apply triple_xfer_to_a; [done|]. intros s1 Hs1.
  assert (Hk : forall s2, stmts_ok s2 ->
    triple not_graph R (checks a0 ++ checks a1 ++ l)
      (b <- new_branch (if code =? BPF_JEQ then JMP code else BPF_JMP .| code .| BPF_X)
              (a_s a0 ++ a_s a1 ++ s0 ++ s1 ++ s2) 0 ;;
       (if reversed then gen_not b else ret tt) ;;
       free_reg (a_regno a0) ;;
       free_reg (a_regno a1) ;;
       tmp <- match a_b a0, a_b a1 with
              | Some b0, Some b1 => gen_and b0 b1 ;; ret (Some b1)
              | Some b0, None => ret (Some b0)
              | None, b1 => ret b1
              end ;;
       and_check tmp b ;;
       ret b) (exactly (fun b => (b, straight) :: l))).
  { intros s2 Hs2. eapply triple_bind.
    { apply triple_branch with (P := straight). apply straight_relation; [|done]. destruct H0, H1.
      auto 10 with gen. }
    intros b. cbn beta.
    assert (Hr : triple not_graph R ((b, straight) :: checks a0 ++ checks a1 ++ l)
      (if reversed then gen_not b else ret tt) (exactly (fun _ => (b, straight) :: checks a0 ++ checks a1 ++ l))).
    { destruct reversed; [eapply striple_not; eauto with gen|by apply triple_ret_exactly]. }
    eapply triple_bind; [exact Hr|]. intros []. do 2 apply triple_free_reg. unfold checks.
    destruct (a_b a0) as [b0|], (a_b a1) as [b1|]; cbn [made app]; gsteps; cbn [and_check]; gsteps. }
  destruct (code =? BPF_JEQ) eqn:Ej; repeat gstep;
    (eapply triple_equiv; [intros s; apply set_stmts_first|]); apply Hk; auto with gen.
Qed.

(** ** Tests of bits, multicast and direction *)

Lemma link_bits_straight offset k : makes (gen_link_bits offset k).
Proof. unfold gen_link_bits. gsteps. Qed.
#[export] Hint Resolve link_bits_straight : gen.
Lemma link_no_bits_straight offset k : makes (gen_link_no_bits offset k).
Proof. unfold gen_link_no_bits. gsteps. Qed.
Lemma mac_multicast_straight offset : makes (gen_mac_multicast offset).
Proof. unfold gen_mac_multicast. auto with gen. Qed.
#[export] Hint Resolve link_no_bits_straight mac_multicast_straight : gen.
Lemma wlan_multicast_straight : makes gen_wlan_multicast.
Proof. unfold gen_wlan_multicast. gsteps. Qed.
#[export] Hint Resolve wlan_multicast_straight : gen.
Lemma multicast_straight proto : makes (gen_multicast proto).
Proof. unfold gen_multicast. straight_tac. Qed.

Lemma outgoing_straight g dir : makes g -> makes (gen_outgoing g dir).
Proof. intros. unfold gen_outgoing. gsteps. Qed.
#[export] Hint Resolve outgoing_straight : gen.
Lemma inbound_straight rfile dir : makes (gen_inbound rfile dir).
Proof.
  intros R l. unfold gen_inbound. gsteps.
  eapply triple_seq; [apply loadi_arth|]. intros a ? [Ha ->].
  eapply triple_seq; [by apply load_arth|]. intros a0 ? [Ha0 ->].
  eapply triple_seq; [apply loadi_arth|]. intros a1 ? [Ha1 ->].
  eapply triple_perm; [|apply relation_straight; [by right; right|exact Ha0|exact Ha1]].
  rewrite !(assoc_L (++)). by rewrite (Permutation_app_comm (checks a1)).
Qed.
Lemma p80211_type_straight type mask : makes (gen_p80211_type type mask).
Proof. unfold gen_p80211_type. straight_tac. Qed.
Lemma p80211_fcdir_straight fcdir : makes (gen_p80211_fcdir fcdir).
Proof. unfold gen_p80211_fcdir. straight_tac. Qed.
Lemma acode_straight eaddr q : eaddr <> [] -> makes (gen_acode eaddr q).
Proof. intros. unfold gen_acode. straight_tac. Qed.
#[export] Hint Resolve multicast_straight inbound_straight p80211_type_straight p80211_fcdir_straight
  acode_straight : gen.

(** ** SS7 *)

Lemma mtp2type_straight type : makes (gen_mtp2type_abbrev type).
Proof. unfold gen_mtp2type_abbrev. straight_tac. Qed.
Lemma mtp3field_straight field jvalue jtype reverse :
  is_jtype jtype -> makes (gen_mtp3field_code field jvalue jtype reverse).
Proof. intros. unfold gen_mtp3field_code. straight_tac. Qed.
#[export] Hint Resolve mtp2type_straight mtp3field_straight : gen.

(** ** Encapsulations and ATM

    These change the layout, but never the link-layer type. *)
Definition by_linktype (R : layout -> Prop) : Prop :=
  forall o o', R o -> o_linktype o' = o_linktype o -> R o'.

Section Layout.
Context (R : layout -> Prop) (R_stable : by_linktype R).

Ltac set_off_tac :=
  eapply triple_bind;
    [apply triple_set_off; eapply R_stable; [eassumption|reflexivity]|intros []].

Lemma and_if_straight n b g L L1 : makes g -> pick (b, straight) L L1 ->
  triple not_graph R L (and_if n b g) (exactly (fun b => (b, straight) :: L1)).
Proof using Type.
  intros Hg Hb. unfold and_if. destruct (0 <=? n); [|gsteps].
  eapply triple_bind; [apply Hg|]. intros b1. gsteps.
Qed.

Lemma vlan_straight n : makes_in R (gen_vlan n).
Proof using R_stable.
  intros l. unfold gen_vlan. apply triple_get_off. intros o Ho. gsteps.
  eapply triple_bind; [apply and_if_straight; eauto with gen|]. intros b.
  set_off_tac. gsteps.
Qed.

Lemma mpls_test_straight n : makes_in R (gen_mpls n).
Proof using R_stable.
  intros l. unfold gen_mpls. apply triple_get_off. intros o Ho.
  eapply triple_bind with (f := fun b => (b, straight) :: l); [gsteps|]. intros b0.
  eapply triple_bind; [apply and_if_straight; eauto with gen|]. intros b.
  set_off_tac. gsteps.
Qed.

Lemma pppoed_straight : makes gen_pppoed.
Proof using Type. unfold gen_pppoed. auto with gen. Qed.
Lemma pppoes_straight : makes_in R gen_pppoes.
Proof using R_stable.
  intros l. unfold gen_pppoes. gstep. apply triple_get_off. intros o Ho. set_off_tac. gsteps.
Qed.

Lemma atm_only_straight what g : makes_in R g -> makes_in R (atm_only what g).
Proof using Type. intros Hg l. unfold atm_only. gsteps. apply Hg. Qed.
Lemma atm_circuit_straight vci : makes (gen_atm_circuit vci).
Proof using Type. unfold gen_atm_circuit. auto with gen. Qed.
Lemma atmtype_straight type : makes_in R (gen_atmtype_abbrev type).
Proof using R_stable.
  unfold gen_atmtype_abbrev.
  repeat match goal with |- makes_in R (if ?c then _ else _) => destruct c end;
    try (apply atm_only_straight, atm_circuit_straight); [| |intros l; gsteps];
    apply atm_only_straight; intros l; gstep; apply triple_get_off; intros o Ho; set_off_tac; gsteps.
Qed.
Lemma msg_straight type : makes (gen_msg_abbrev type).
Proof using Type. unfold gen_msg_abbrev. straight_tac. Qed.
Lemma or_msgs_straight types b l :
  triple not_graph R ((b, straight) :: l) (gen_or_msgs types b) (exactly (fun b => (b, straight) :: l)).
Proof using Type.
  revert b. induction types as [|t types IH]; intros b; cbn [gen_or_msgs]; [gsteps|].
  eapply triple_bind; [apply msg_straight|]. intros b0. gstep. apply IH.
Qed.
Lemma msgs_of_straight types circuit : makes_in R (gen_msgs_of types circuit).
Proof using R_stable.
  intros l. unfold gen_msgs_of. do 2 (eapply triple_bind; [apply msg_straight|]; intros ?). gstep.
  eapply triple_bind; [apply or_msgs_straight|]. intros b1.
  eapply triple_bind; [apply atmtype_straight|]. intros b2. gsteps.
Qed.
Lemma oamf4_straight : makes_in R gen_oamf4.
Proof using Type. unfold gen_oamf4. apply atm_only_straight. intros l. gsteps. Qed.
Lemma atmmulti_straight type : makes_in R (gen_atmmulti_abbrev type).
Proof using R_stable.
  unfold gen_atmmulti_abbrev.
  repeat match goal with |- makes_in R (if ?c then _ else _) => destruct c end;
    try (intros l; gsteps; fail); auto using atm_only_straight, oamf4_straight, msgs_of_straight.
Qed.
End Layout.
#[export] Hint Resolve pppoed_straight : gen.

(** ** 802.11 addresses *)

Lemma and_mac_straight R b offset eaddr L L1 : eaddr <> [] -> pick (b, straight) L L1 ->
  triple not_graph R L (and_mac b offset eaddr) (exactly (fun b => (b, straight) :: L1)).
Proof. intros He Hb. unfold and_mac. gsteps. Qed.

Lemma wlan_frame_straight R b offset eaddr l : eaddr <> [] ->
  triple not_graph R ((b, straight) :: l) (wlan_frame_types b offset eaddr)
    (exactly (fun b => (b, straight) :: l)).
Proof.
  intros He. unfold wlan_frame_types. gsteps.
  eapply triple_bind; [apply and_mac_straight; eauto with gen|]. intros b1. gsteps.
Qed.

Ltac mac_step := eapply triple_bind; [apply and_mac_straight; eauto with gen|intros ?].

Lemma wlan_src_straight eaddr : eaddr <> [] -> makes (gen_wlan_src eaddr).
Proof.
  intros He R l. unfold gen_wlan_src. gstep. mac_step. gstep. mac_step. do 3 gstep. gstep. mac_step. gstep.
  by apply wlan_frame_straight.
Qed.
Lemma wlan_dst_straight eaddr : eaddr <> [] -> makes (gen_wlan_dst eaddr).
Proof.
  intros He R l. unfold gen_wlan_dst. gstep. mac_step. gstep. mac_step. gstep. by apply wlan_frame_straight.
Qed.
Lemma not_mcmp_straight v mask : makes (gen_not_mcmp v mask).
Proof. unfold gen_not_mcmp. gsteps. Qed.
#[export] Hint Resolve wlan_src_straight wlan_dst_straight not_mcmp_straight : gen.
Lemma not_cts_ack_straight : makes gen_not_cts_ack.
Proof. unfold gen_not_cts_ack. gsteps. Qed.
#[export] Hint Resolve not_cts_ack_straight : gen.
Lemma wlanhostop_straight eaddr dir : eaddr <> [] -> makes (gen_wlanhostop eaddr dir).
Proof.
  intros He. unfold gen_wlanhostop. apply by_dir_straight; [auto with gen..|].
  cases; try (auto with gen; fail); intros R l; do 3 try gstep; by apply and_mac_straight; eauto with gen.
Qed.
#[export] Hint Resolve wlanhostop_straight : gen.

(** ** Names and numbers

    The loop of [gen_protochain] is not straight-line code: the qualifier is
    not [protochain]. *)
Definition no_chain (q : qual) : Prop := q_addr q <> Q_PROTOCHAIN.

Lemma port_proto_straight {A} R what proto l (K : Z -> gen A) Q :
  (forall p, triple not_graph R l (K p) Q) -> triple not_graph R l (bind (port_proto what proto) K) Q.
Proof. intros HK. unfold port_proto. repeat gstep; by try apply HK. Qed.

Lemma ncode_num_straight short v vlen q : no_chain q -> makes (gen_ncode_num short v vlen q).
Proof.
  intros Hq. unfold no_chain in Hq. unfold gen_ncode_num. cases; auto with gen; try lia.
  - destruct (short && _); [destruct (promote_net _ _ _)|]; auto with gen.
  - intros R l. apply port_proto_straight. intros p. gsteps.
  - intros R l. apply port_proto_straight. intros p. gsteps.
Qed.
#[export] Hint Resolve ncode_num_straight : gen.
Lemma ncode_straight s v q : no_chain q -> makes (gen_ncode s v q).
Proof.
  intros Hq. unfold gen_ncode. destruct s as [s|]; [|auto with gen].
  destruct (q_proto q =? Q_DECNET); [destruct (pcap_atodn s)|]; auto with gen.
Qed.

Lemma mcode_straight s1 s2 masklen q : makes (gen_mcode s1 s2 masklen q).
Proof.
  intros R l. unfold gen_mcode. destruct (pcap_atoin s1) as [nlen n].
  unfold gen_mcode_mask. destruct s2 as [s2|]; [destruct (pcap_atoin s2)|]; gsteps.
Qed.

Lemma lane_straight g : makes g -> makes (gen_lane g).
Proof. intros. unfold gen_lane. gsteps. Qed.
#[export] Hint Resolve lane_straight : gen.
Lemma mac_host_straight eaddr dir no_lane other : eaddr <> [] -> makes no_lane -> makes other ->
  makes (gen_mac_host eaddr dir no_lane other).
Proof. intros. unfold gen_mac_host. gsteps. Qed.
#[export] Hint Resolve mac_host_straight : gen.
Lemma ecode_straight eaddr q : eaddr <> [] -> makes (gen_ecode eaddr q).
Proof. intros. unfold gen_ecode. cases; auto with gen. Qed.
Lemma broadcast_straight netmask proto : makes (gen_broadcast netmask proto).
Proof. unfold gen_broadcast. straight_tac. Qed.
#[export] Hint Resolve ncode_straight mcode_straight ecode_straight broadcast_straight : gen.

Section Names.
(** The resolver gives no Ethernet address without bytes. *)
Context (r : resolver) (r_ether : forall name e, ether_hostton r name = Some e -> e <> []).

Lemma ether_host_straight what name g :
  (forall e, e <> [] -> makes (g e)) -> makes (with_ether_host r what name g).
Proof using r_ether.
  intros Hg. unfold with_ether_host, pcap_ether_hostton. destruct (ether_hostton r name) eqn:E; [|auto with gen].
  apply Hg. by apply r_ether in E.
Qed.
Lemma scode_link_straight name dir : makes (gen_scode_link r name dir).
Proof using r_ether.
  intros R l. unfold gen_scode_link. gsteps;
    first [apply lane_straight, ether_host_straight|apply ether_host_straight]; auto with gen.
Qed.
Lemma scode_addrs_straight R addrs tproto tproto6 dir addr b l :
  triple not_graph R (made b ++ l) (gen_scode_addrs addrs tproto tproto6 dir addr b)
    (exactly (fun b => made b ++ l)).
Proof using Type.
  revert b. induction addrs as [|a addrs IH]; intros b; cbn [gen_scode_addrs]; [by apply triple_ret_exactly|].
  assert (Hadd : forall g, makes g -> triple not_graph R (made b ++ l)
    (tmp <- g ;; match b with Some b => gen_or b tmp | None => ret tt end ;;
     gen_scode_addrs addrs tproto tproto6 dir addr (Some tmp)) (exactly (fun b => made b ++ l))).
  { intros g Hg. eapply triple_bind; [apply Hg|]. intros tmp. destruct b as [b|]; cbn [made app].
    - gstep. apply (IH (Some tmp)).
    - gstep. apply (IH (Some tmp)). }
  destruct a; [destruct (tproto =? _)|destruct (tproto6 =? _)|]; auto with gen.
Qed.
Lemma scode_host_straight name proto dir addr : makes (gen_scode_host r name proto dir addr).
Proof using Type.
  intros R l. unfold gen_scode_host. destruct (getaddrinfo r name) as [addrs|]; [|gsteps].
  gstep. destruct (if _ : bool then _ else _) as [tproto tproto6].
  eapply triple_bind; [apply (scode_addrs_straight R addrs _ _ _ _ None l)|].
  intros [b|]; cbn [made app]; gsteps.
Qed.
Lemma port_real_straight {A} R what name proto rp l (K : Z -> gen A) Q :
  (forall p, triple not_graph R l (K p) Q) -> triple not_graph R l (bind (port_real_proto what name proto rp) K) Q.
Proof using Type. intros HK. unfold port_real_proto. repeat gstep; by try apply HK. Qed.
Lemma check_port_straight {A} R port l (K : unit -> gen A) Q :
  triple not_graph R l (K tt) Q -> triple not_graph R l (bind (check_port port) K) Q.
Proof using Type. intros HK. unfold check_port. repeat gstep; by try apply HK. Qed.
Lemma scode_port_straight name proto dir : makes (gen_scode_port r name proto dir).
Proof using Type.
  intros R l. unfold gen_scode_port. gstep; [gsteps|].
  destruct (pcap_nametoport r name) as [[port rp]|]; [|gsteps].
  apply port_real_straight. intros p. apply check_port_straight. gsteps.
Qed.
Lemma scode_portrange_straight name proto dir : makes (gen_scode_portrange r name proto dir).
Proof using Type.
  intros R l. unfold gen_scode_portrange. gstep; [gsteps|].
  destruct (pcap_nametoportrange r name) as [[[p1 p2] rp]|]; [|gsteps].
  apply port_real_straight. intros p. do 2 apply check_port_straight. gsteps.
Qed.
Lemma scode_straight name q : no_chain q -> makes (gen_scode r name q).
Proof using r_ether.
  intros Hq. unfold no_chain in Hq. unfold gen_scode. cases; auto with gen.
  - destruct (promote_net _ _ _). auto with gen.
  - apply scode_link_straight.
  - apply scode_host_straight.
  - apply scode_port_straight.
  - apply scode_portrange_straight.
  - cbn [one_of existsb] in *. intros R l. unfold lookup_proto. gsteps; exfalso; lia.
Qed.
Lemma mcode6_straight s masklen q : makes (gen_mcode6 r s masklen q).
Proof using Type.
  unfold gen_mcode6.
  destruct (getaddrinfo r s) as [[|[] [|]]|]; repeat case_match; cases; auto with gen;
    intros R l; by apply triple_fail.
Qed.
End Names.
