(* ===== verification/ActionSpec.v ===== *)
(** The actions of [grammar.y] respect the types of semantic values: with
    values of the types that the automaton gives to the symbols of a rule, the
    action reads no field that is missing, and leaves a value of the type of
    its left side together with the graphs that the value stands for. *)
From S2P Require Import Prelude Bpf BpfFilter Datalink GenConst Gencode GenLink GenProto GenArth GenMisc GenWlan.
From S2P Require Import Names GenName GenOffsets GencodeSpec GenTriple IcodeSpec GenStraight GenShape.
From S2P Require Import GrammarTab Scanner Parser AutomatonTab Automaton.

#[local] Open Scope Z_scope.
#[local] Open Scope c_scope.
#[local] Open Scope gen_scope.

(** ** What the types mean *)

Definition has_ty (t : vty) (v : yystype) : Prop :=
  match t with
  | Tnever => False
  | Tany => True
  | Tin l => exists i, v = Vi i /\ one_of i l = true
  | Ti => exists i, v = Vi i
  | Te => exists e, v = Ve e /\ e <> []
  | Ts => exists s, v = Vs s
  | Ta => exists a, v = Va a /\ arth_ok a
  | Tr => exists b, v = Vrblk b
  | Tb b q a m =>
      exists k, v = Vblk k /\ (b = true -> is_Some (k_b k)) /\
        (q = true -> exists x, k_q k = Some x /\ no_chain x) /\
        (a = true -> exists x, k_atmfieldtype k = Some x /\ one_of_atm x = true) /\
        (m = true -> exists x, k_mtp3fieldtype k = Some x /\ one_of_mtp3 x = true)
  end.

(** The graphs that a value stands for. *)
Definition owns (t : vty) (v : yystype) : list owned :=
  match t, v with
  | Ta, Va a => checks a
  | Tr, Vrblk b => [(b, straight)]
  | Tb true _ _ _, Vblk k => made (k_b k)
  | _, _ => []
  end.

(** A type that says less, and stands for fewer graphs. *)
Definition below_ty (t t' : vty) : Prop := forall v, has_ty t v -> has_ty t' v /\ owns t' v ⊆+ owns t v.

Lemma below_refl t : below_ty t t.
Proof. intros v Hv. by split. Qed.
Lemma below_trans t1 t2 t3 : below_ty t1 t2 -> below_ty t2 t3 -> below_ty t1 t3.
Proof.
  intros H1 H2 v Hv. destruct (H1 v Hv) as [Hv2 Ho1]. destruct (H2 v Hv2) as [Hv3 Ho2].
  split; [done|]. by etransitivity.
Qed.
Lemma below_any t : below_ty t Tany.
Proof. intros v Hv. split; [done|]. by apply submseteq_nil_l. Qed.

Lemma one_of_iff x l : one_of x l = true <-> In x l.
Proof.
  unfold one_of. rewrite existsb_exists. split; [by intros (y & Hy & ->%Z.eqb_eq)|].
  intros Hx. exists x. by rewrite Z.eqb_refl.
Qed.

Lemma below_in l l' : forallb (fun x => one_of x l') l = true -> below_ty (Tin l) (Tin l').
Proof.
  intros Hl v (i & -> & Hi%one_of_iff). split; [|done]. exists i. split; [done|].
  by apply (proj1 (forallb_forall _ _) Hl).
Qed.
Lemma below_blk b q a m b' q' a' m' :
  implb b' b && implb q' q && implb a' a && implb m' m = true ->
  below_ty (Tb b q a m) (Tb b' q' a' m').
Proof.
  intros [[[Hb Hq]%andb_prop Ha]%andb_prop Hm]%andb_prop v (k & -> & H1 & H2 & H3 & H4). split.
  - exists k. split; [done|]. destruct b', q', a', m'; cbn in Hb, Hq, Ha, Hm; naive_solver.
  - destruct b'; cbn in Hb; [rewrite Hb; done|]. apply submseteq_nil_l.
Qed.

Lemma subty_below t t' : subty t t' = true -> below_ty t t'.
Proof.
  destruct t, t'; cbn [subty]; try discriminate; intros Hs;
    try apply below_any; try apply below_refl; try (by intros v []).
  - by apply below_in.
  - intros v (i & -> & _). split; [by exists i|done].
  - by apply below_blk.
Qed.

Lemma forallb_one_of l l1 l2 :
  (forall x, In x l -> In x l1 \/ In x l2) -> forallb (fun x => one_of x (l1 ++ l2)) l = true.
Proof. intros H. apply forallb_forall. intros x Hx. apply one_of_iff, in_app_iff. auto. Qed.

Lemma jointy_below t t' : below_ty t (jointy t t') /\ below_ty t' (jointy t t').
Proof.
  unfold jointy. destruct (subty t t') eqn:Es; [split; [by apply subty_below|apply below_refl]|].
  destruct t, t'; cbn [subty] in Es; try discriminate Es;
    split; try apply below_any; try apply below_refl; try (by intros v []); try (by apply subty_below).
  - apply below_in, forallb_one_of. auto.
  - apply below_in, forallb_one_of. auto.
  - apply below_blk. by destruct b, q, atm, mtp, b0, q0, atm0, mtp0.
  - apply below_blk. by destruct b, q, atm, mtp, b0, q0, atm0, mtp0.
Qed.

Lemma join_all_below t l : t ∈ l -> below_ty t (join_all l).
Proof.
  intros Ht. induction l as [|u l IH]; [by apply elem_of_nil in Ht|]. unfold join_all. cbn [foldr].
  fold (join_all l). apply elem_of_cons in Ht as [<-|Ht]; [apply jointy_below|].
  eapply below_trans; [by apply IH|apply jointy_below].
Qed.

(** ** Reading and writing values *)

Section Values.
Context (t : vty) (v : yystype) (Hv : has_ty t v).

Lemma as_i_ty : isint t = true -> exists i, as_i v = ret i.
Proof using Hv. destruct t; try done; intros _; [destruct Hv as (i & -> & _)|destruct Hv as (i & ->)]; by exists i. Qed.
Lemma as_in_ty l : is_in l t = true -> exists i, as_i v = ret i /\ In i l.
Proof using Hv.
  destruct t as [| |l'| | | | | |]; try done. destruct Hv as (i & -> & Hi%one_of_iff). intros Hl. exists i.
  split; [done|]. pose proof (proj1 (forallb_forall _ _) Hl i Hi) as H. by apply one_of_iff.
Qed.
Lemma as_s_ty : is_s t = true -> exists s, as_s v = ret s.
Proof using Hv. destruct t; try done; intros _. destruct Hv as (s & ->). by exists s. Qed.
Lemma as_e_ty : is_e t = true -> exists e, as_e v = ret e /\ e <> [].
Proof using Hv. destruct t; try done; intros _. destruct Hv as (e & -> & He). by exists e. Qed.
Lemma as_a_ty : is_a t = true -> exists a, as_a v = ret a /\ arth_ok a /\ owns t v = checks a.
Proof using Hv. destruct t; try done; intros _. destruct Hv as (a & -> & Ha). by exists a. Qed.
Lemma as_rblk_ty : is_r t = true -> exists b, as_rblk v = ret b /\ owns t v = [(b, straight)].
Proof using Hv. destruct t; try done; intros _. destruct Hv as (b & ->). by exists b. Qed.
Lemma as_b_ty : has_b t = true -> exists b, as_b v = ret b /\ owns t v = [(b, straight)].
Proof using Hv.
  destruct t as [| | | | | | | |[] q a m]; try done; intros _. destruct Hv as (k & -> & Hb & _).
  destruct (Hb eq_refl) as [b E]. exists b. unfold as_b. cbn [owns to_blk]. by rewrite E.
Qed.
Lemma as_q_ty : has_q t = true -> exists q, as_q v = ret q /\ no_chain q.
Proof using Hv.
  destruct t as [| | | | | | | |b [] a m]; try done; intros _. destruct Hv as (k & -> & _ & Hq & _).
  destruct (Hq eq_refl) as (q & E & Hn). exists q. unfold as_q. cbn [to_blk]. by rewrite E.
Qed.
Lemma as_atm_ty : has_atm t = true -> exists i, as_atm v = ret i /\ one_of_atm i = true.
Proof using Hv.
  destruct t as [| | | | | | | |b q [] m]; try done; intros _. destruct Hv as (k & -> & _ & _ & Ha & _).
  destruct (Ha eq_refl) as (i & E & Hn). exists i. unfold as_atm. cbn [to_blk]. by rewrite E.
Qed.
Lemma as_mtp3_ty : has_mtp t = true -> exists i, as_mtp3 v = ret i /\ one_of_mtp3 i = true.
Proof using Hv.
  destruct t as [| | | | | | | |b q a []]; try done; intros _. destruct Hv as (k & -> & _ & _ & _ & Hm).
  destruct (Hm eq_refl) as (i & E & Hn). exists i. unfold as_mtp3. cbn [to_blk]. by rewrite E.
Qed.

(** The fields that were there before an assignment. *)
Lemma fields_ty :
  (has_q t = true -> exists x, k_q (to_blk v) = Some x /\ no_chain x) /\
  (has_atm t = true -> exists x, k_atmfieldtype (to_blk v) = Some x /\ one_of_atm x = true) /\
  (has_mtp t = true -> exists x, k_mtp3fieldtype (to_blk v) = Some x /\ one_of_mtp3 x = true).
Proof using Hv. destruct t; cbn [has_q has_atm has_mtp]; try done. by destruct Hv as (k & -> & _ & H). Qed.
Lemma block_ty : has_b t = true -> is_Some (k_b (to_blk v)).
Proof using Hv. destruct t as [| | | | | | | |b q a m]; try done. cbn [has_b]. destruct Hv as (k & -> & H & _). done. Qed.

Lemma set_b_q_ty b x : no_chain x ->
  has_ty (with_b_q t) (set_b_q v b x) /\ owns (with_b_q t) (set_b_q v b x) = [(b, straight)].
Proof using Hv.
  intros Hx. split; [|done]. destruct fields_ty as (_ & Ha & Hm). eexists. split; [reflexivity|]. cbn.
  split_and!; try done. intros _. by exists x.
Qed.
Lemma set_q_ty x : no_chain x -> has_ty (Tb false true (has_atm t) (has_mtp t)) (set_q v x).
Proof using Hv.
  intros Hx. destruct fields_ty as (_ & Ha & Hm). eexists. split; [reflexivity|]. cbn.
  split_and!; try done. intros _. by exists x.
Qed.
Lemma set_any_q_ty x : has_ty (Tb false false (has_atm t) (has_mtp t)) (set_q v x).
Proof using Hv. destruct fields_ty as (_ & Ha & Hm). eexists. split; [reflexivity|]. cbn. by split_and!. Qed.
Lemma set_b_ty b : has_ty (Tb true (has_q t) (has_atm t) (has_mtp t)) (set_b v b).
Proof using Hv. destruct fields_ty as (Hq & Ha & Hm). eexists. split; [reflexivity|]. cbn. by split_and!. Qed.
Lemma set_atm_ty i : one_of_atm i = true -> has_ty (Tb (has_b t) (has_q t) true (has_mtp t)) (set_atm v i).
Proof using Hv.
  intros Hi. destruct fields_ty as (Hq & Ha & Hm). eexists. split; [reflexivity|]. cbn.
  split_and!; try done; [apply block_ty|]. intros _. by exists i.
Qed.
Lemma set_mtp3_ty i : one_of_mtp3 i = true -> has_ty (Tb (has_b t) (has_q t) (has_atm t) true) (set_mtp3 v i).
Proof using Hv.
  intros Hi. destruct fields_ty as (Hq & Ha & Hm). eexists. split; [reflexivity|]. cbn.
  split_and!; try done; [apply block_ty|]. intros _. by exists i.
Qed.
Lemma copy_ty : has_ty (copy t) v /\ owns (copy t) v = [].
Proof using Hv. destruct t; try done. split; [|done]. destruct Hv as (k & -> & _ & H). exists k. naive_solver. Qed.
End Values.

(** ** The actions *)

Fixpoint owned_by (tys : list vty) (vals : list yystype) : list owned :=
  match tys, vals with t :: tys, v :: vals => owns t v ++ owned_by tys vals | _, _ => [] end.

Lemma owned_by_at tys vals i t v :
  tys !! i = Some t -> vals !! i = Some v ->
  owned_by tys vals ≡ₚ owns t v ++ owned_by (delete i tys) (delete i vals).
Proof.
  revert tys vals. induction i as [|i IH]; intros [|t' tys] [|v' vals] Ht Hv; try done; cbn in *.
  - by simplify_eq.
  - rewrite (IH tys vals Ht Hv). by rewrite !(assoc_L (++)), (Permutation_app_comm (owns t' v')).
Qed.

Lemma yyval0_eq vs len : len <> 0%nat -> yyval0 vs len = sv vs len 1.
Proof. by destruct len. Qed.

Section Rule.
Context (r : resolver) (netmask : Z) (rfile : bool).
Context (r_ether : forall name e, ether_hostton r name = Some e -> e <> []).
Context (R : layout -> Prop) (R_stable : by_linktype R).

(** The symbols of the rule, [$0], and the values below. *)
Context (tys : list vty) (top : list yystype) (ty0 : vty) (v0 : yystype) (ty_below : vty) (rest : list yystype).
Context (Htop : Forall2 has_ty tys top) (H0 : has_ty ty0 v0).
Context (Hbelow : ty_below = Tnever \/ has_ty ty_below (default Vjunk (head rest))).

Context (len : nat) (Hlen : length tys = len).
Abbreviation vs := (top ++ v0 :: rest).
Definition ty (k : nat) : vty := nth (len - k) tys Tany.
Definition yyval_ty : vty := if (len =? 0)%nat then Tany else ty 1%nat.

Lemma length_top : length top = len.
Proof using Htop Hlen. by rewrite <- (Forall2_length _ _ _ Htop). Qed.

Lemma sv_at k : (1 <= k <= len)%nat ->
  tys !! (len - k)%nat = Some (ty k) /\ top !! (len - k)%nat = Some (sv vs len k).
Proof using Htop Hlen.
  intros Hk. unfold ty, sv. rewrite lookup_app_l by (rewrite length_top; lia).
  destruct (lookup_lt_is_Some_2 tys (len - k)) as [t Ht]; [lia|].
  destruct (lookup_lt_is_Some_2 top (len - k)) as [v Hv]; [rewrite length_top; lia|].
  rewrite Hv, Ht. split; [|done]. f_equal. symmetry. by apply nth_lookup_Some.
Qed.

Lemma sv_ty k : (1 <= k)%nat -> has_ty (ty k) (sv vs len k).
Proof using Htop Hlen.
  intros Hk. destruct (Nat.eq_dec len 0%nat) as [E|Hn].
  - unfold ty. replace (len - k)%nat with 0%nat by lia. destruct tys; [done|]. by simpl in Hlen; lia.
  - assert (He : (len - k = len - Nat.min k len)%nat) by lia. destruct (sv_at (Nat.min k len)) as [Ht Hv]; [lia|].
    unfold ty, sv in *. rewrite He. by apply (Forall2_lookup_lr _ _ _ _ _ _ Htop Ht Hv).
Qed.
Lemma sv0_ty : has_ty ty0 (sv vs len 0).
Proof using H0 Htop Hlen.
  unfold sv. rewrite Nat.sub_0_r, lookup_app_r by (rewrite length_top; lia). by rewrite length_top, Nat.sub_diag.
Qed.
Lemma sv_below_ty : isint ty_below = true -> has_ty ty_below (sv_below vs len).
Proof using Hbelow Htop Hlen.
  intros Hi. destruct Hbelow as [E|Hb]; [by rewrite E in Hi|]. unfold sv_below.
  rewrite lookup_app_r by (rewrite length_top; lia). rewrite length_top.
  replace (S len - len)%nat with 1%nat by lia. by destruct rest.
Qed.
Lemma yyval0_ty : has_ty yyval_ty (yyval0 vs len).
Proof using Htop Hlen.
  unfold yyval_ty, yyval0. pose proof (sv_ty 1 ltac:(lia)) as H. by destruct len.
Qed.

(** What the symbols stand for. *)
Lemma owned_one k : (1 <= k <= len)%nat -> owns (ty k) (sv vs len k) ⊆+ owned_by tys top.
Proof using Htop Hlen.
  intros Hk. destruct (sv_at k Hk) as [Ht Hv]. rewrite (owned_by_at _ _ _ _ _ Ht Hv). by apply submseteq_inserts_r.
Qed.
Lemma owned_two j k : (1 <= j < k)%nat -> (k <= len)%nat ->
  owns (ty j) (sv vs len j) ++ owns (ty k) (sv vs len k) ⊆+ owned_by tys top.
Proof using Htop Hlen.
  intros Hj Hk. destruct (sv_at j ltac:(lia)) as [Ht Hv], (sv_at k ltac:(lia)) as [Ht' Hv'].
  rewrite (owned_by_at _ _ _ _ _ Ht Hv). apply submseteq_skips_l.
  assert (Ht2 : delete (len - j)%nat tys !! (len - k)%nat = Some (ty k)) by (by rewrite list_lookup_delete_lt by lia).
  assert (Hv2 : delete (len - j)%nat top !! (len - k)%nat = Some (sv vs len k))
    by (by rewrite list_lookup_delete_lt by lia).
  rewrite (owned_by_at _ _ _ _ _ Ht2 Hv2). by apply submseteq_inserts_r.
Qed.

(** An action that leaves a value of the type [t], with its graphs in place of
    those of the symbols. *)
Definition leaves (t : vty) (l : list owned) (v : yystype) (l' : list owned) : Prop :=
  has_ty t v /\ l' = owns t v ++ l.
Definition typed (t : vty) (g : gen yystype) : Prop :=
  forall l, triple not_graph R (owned_by tys top ++ l) g (leaves t l).

Lemma typed_drop t g l0 :
  l0 ⊆+ owned_by tys top -> (forall l, triple not_graph R (l0 ++ l) g (leaves t l)) -> typed t g.
Proof using Type. intros Hl Hg l. eapply triple_drop; [|apply Hg]. by apply submseteq_skips_r. Qed.
Lemma typed_alone t g : (forall l, triple not_graph R l g (leaves t l)) -> typed t g.
Proof using Type. intros Hg. apply typed_drop with (l0 := []); [apply submseteq_nil_l|exact Hg]. Qed.
Lemma typed_ret t v : has_ty t v -> owns t v ⊆+ owned_by tys top -> typed t (ret v).
Proof using Type.
  intros Hv Ho. eapply typed_drop; [exact Ho|]. intros l. by apply triple_ret with (l' := owns t v ++ l).
Qed.
Lemma typed_ret_none t v : has_ty t v -> owns t v = [] -> typed t (ret v).
Proof using Type. intros Hv Ho. apply typed_ret; [done|]. rewrite Ho. apply submseteq_nil_l. Qed.

(** Reading a value. *)
Lemma typed_eq {A} t (g : gen A) a (K : A -> gen yystype) : g = ret a -> typed t (K a) -> typed t (bind g K).
Proof using Type. intros -> HK l. apply triple_ret_bind, HK. Qed.
Lemma typed_i t v u K : has_ty u v -> isint u = true -> (forall i, typed t (K i)) -> typed t (bind (as_i v) K).
Proof using Type. intros Hv Hu HK. destruct (as_i_ty _ _ Hv Hu) as (i & E). by eapply typed_eq. Qed.
Lemma typed_in t v u l K : has_ty u v -> is_in l u = true -> (forall i, In i l -> typed t (K i)) ->
  typed t (bind (as_i v) K).
Proof using Type. intros Hv Hu HK. destruct (as_in_ty _ _ Hv _ Hu) as (i & E & Hi). eapply typed_eq; [exact E|auto]. Qed.
Lemma typed_s t v u K : has_ty u v -> is_s u = true -> (forall i, typed t (K i)) -> typed t (bind (as_s v) K).
Proof using Type. intros Hv Hu HK. destruct (as_s_ty _ _ Hv Hu) as (i & E). by eapply typed_eq. Qed.
Lemma typed_e t v u K : has_ty u v -> is_e u = true -> (forall e, e <> [] -> typed t (K e)) -> typed t (bind (as_e v) K).
Proof using Type. intros Hv Hu HK. destruct (as_e_ty _ _ Hv Hu) as (i & E & Hi). eapply typed_eq; [exact E|auto]. Qed.
Lemma typed_q t v u K : has_ty u v -> has_q u = true -> (forall q, no_chain q -> typed t (K q)) -> typed t (bind (as_q v) K).
Proof using Type. intros Hv Hu HK. destruct (as_q_ty _ _ Hv Hu) as (i & E & Hi). eapply typed_eq; [exact E|auto]. Qed.
Lemma typed_atm t v u K : has_ty u v -> has_atm u = true -> (forall i, one_of_atm i = true -> typed t (K i)) ->
  typed t (bind (as_atm v) K).
Proof using Type. intros Hv Hu HK. destruct (as_atm_ty _ _ Hv Hu) as (i & E & Hi). eapply typed_eq; [exact E|auto]. Qed.
Lemma typed_mtp3 t v u K : has_ty u v -> has_mtp u = true -> (forall i, one_of_mtp3 i = true -> typed t (K i)) ->
  typed t (bind (as_mtp3 v) K).
Proof using Type. intros Hv Hu HK. destruct (as_mtp3_ty _ _ Hv Hu) as (i & E & Hi). eapply typed_eq; [exact E|auto]. Qed.

(** Making a graph. *)
Lemma typed_make t (g : gen nat) (K : nat -> yystype) :
  makes_in R g -> (forall b, has_ty t (K b) /\ owns t (K b) = [(b, straight)]) ->
  typed t (b <- g ;; ret (K b)).
Proof using Type.
  intros Hg HK. apply typed_alone. intros l. eapply triple_bind; [apply Hg|]. intros b. cbn beta.
  destruct (HK b) as [Ht Ho]. apply triple_ret with (l' := owns t (K b) ++ l); [done|]. by rewrite Ho.
Qed.
Lemma typed_id g : has_q ty0 = true -> (forall q, no_chain q -> makes_in R (g q)) ->
  typed (with_b_q yyval_ty) (act_id vs len g).
Proof using H0 Htop Hlen.
  intros Hq Hg. unfold act_id. eapply typed_q; [apply sv0_ty|done|]. intros q Hc.
  apply typed_make; [by apply Hg|]. intros b. apply set_b_q_ty; [apply yyval0_ty|done].
Qed.
Lemma typed_term g : makes_in R g -> typed (with_b_q yyval_ty) (act_term vs len g).
Proof using Htop Hlen.
  intros Hg. apply typed_make; [done|]. intros b. apply set_b_q_ty; [apply yyval0_ty|done].
Qed.
Lemma typed_rblk g : makes_in R g -> typed Tr (act_rblk g).
Proof using Type. intros Hg. apply typed_make; [done|]. intros b. split; [by exists b|done]. Qed.

(** Combining the graphs of two symbols. *)
Lemma typed_pair (op : nat -> nat -> gen unit) :
  (forall b0 b1 L L1 L2, pick (b0, straight) L L1 -> pick (b1, straight) L1 L2 ->
     triple not_graph R L (op b0 b1) (exactly (fun _ => (b1, straight) :: L2))) ->
  (3 <= len)%nat -> has_b (ty 1) = true -> has_b (ty 3) = true ->
  typed (ty 3) (b1 <- as_b (sv vs len 1) ;; b3 <- as_b (sv vs len 3) ;; op b1 b3 ;; ret (sv vs len 3)).
Proof using Htop Hlen.
  intros Hop Hl H1 H3. destruct (as_b_ty _ _ (sv_ty 1 ltac:(lia)) H1) as (b1 & E1 & O1).
  destruct (as_b_ty _ _ (sv_ty 3 ltac:(lia)) H3) as (b3 & E3 & O3).
  eapply typed_eq; [exact E1|]. eapply typed_eq; [exact E3|].
  eapply typed_drop; [apply (owned_two 1 3); lia|]. intros l. rewrite O1, O3. cbn [app].
  eapply triple_bind; [eapply Hop; eauto with gen|]. intros []. cbn beta.
  apply triple_ret with (l' := owns (ty 3) (sv vs len 3) ++ l); [|by rewrite O3]. split; [apply sv_ty; lia|done].
Qed.
Lemma typed_and : (3 <= len)%nat -> has_b (ty 1) = true -> has_b (ty 3) = true -> typed (ty 3) (act_and vs len).
Proof using Htop Hlen. intros. apply typed_pair; try done. intros. by eapply striple_and. Qed.
Lemma typed_or : (3 <= len)%nat -> has_b (ty 1) = true -> has_b (ty 3) = true -> typed (ty 3) (act_or vs len).
Proof using Htop Hlen. intros. apply typed_pair; try done. intros. by eapply striple_or. Qed.
Lemma typed_not : (2 <= len)%nat -> has_b (ty 2) = true -> typed (ty 2) (act_not vs len).
Proof using Htop Hlen.
  intros Hl H2. destruct (as_b_ty _ _ (sv_ty 2 ltac:(lia)) H2) as (b & E & O). unfold act_not.
  eapply typed_eq; [exact E|]. eapply typed_drop; [apply (owned_one 2); lia|]. intros l. rewrite O. cbn [app].
  eapply triple_bind; [eapply striple_not; eauto with gen|]. intros []. cbn beta.
  apply triple_ret with (l' := owns (ty 2) (sv vs len 2) ++ l); [|by rewrite O]. split; [apply sv_ty; lia|done].
Qed.

Lemma hid_straight s q : no_chain q -> makes (act_hid s q).
Proof using Type. intros Hq. unfold act_hid. cases; auto with gen. Qed.

Lemma makes_here g : makes g -> makes_in R g.
Proof using Type. intros Hg. apply Hg. Qed.
Lemma scode_here s q : no_chain q -> makes (gen_scode r s q).
Proof using r_ether. by apply scode_straight. Qed.
Lemma mcode6_here s n q : makes (gen_mcode6 r s n q).
Proof using Type. apply mcode6_straight. Qed.

(** ** The rules

    A rule is taken by its number: its length and its conditions become
    hypotheses. *)
Ltac rule_cases n H :=
  destruct n as [|n|n]; try discriminate H; repeat (destruct n as [n|n|]; try discriminate H).
Ltac rule_start Hg Ht Hr :=
  match type of Hr with ?a = _ => let v := eval vm_compute in a in change a with v in Hr end;
  injection Hr as Hr; apply (inj Some) in Hg; rewrite <- Hg; clear Hg; cbn in Ht; unfold need in Ht;
  try (let Hc := fresh "Hc" in
       match type of Ht with Some (if ?c then _ else _) = _ => destruct c eqn:Hc; [|discriminate Ht] end;
       rewrite ?andb_true_iff in Hc);
  destruct_and?;
  injection Ht as <-.
Ltac read_tac :=
  repeat first
    [eapply typed_i; [apply sv_ty; lia|eassumption|intros ?]
    |eapply typed_s; [apply sv_ty; lia|eassumption|intros ?]
    |eapply typed_e; [apply sv_ty; lia|eassumption|intros ? ?]
    |eapply typed_in; [apply sv_ty; lia|eassumption|intros ? ?]].

Lemma expr_typed n g t :
  action_expr r vs len n = Some g -> expr_ty ty ty0 yyval_ty n = Some (Some t) ->
  nthZ yyr2 n = Some (Z.of_nat len) -> typed t g.
Proof using All.
  intros Hg Ht Hr. rule_cases n Hg; rule_start Hg Ht Hr; read_tac;
    try (apply typed_and; [lia|assumption..]); try (apply typed_or; [lia|assumption..]);
    try (apply typed_not; [lia|assumption..]);
    try (apply typed_id; [assumption|]; intros; apply makes_here;
         auto using hid_straight, scode_here, mcode6_here with gen);
    try (apply typed_ret; [apply sv_ty; lia|apply owned_one; lia]);
    try (apply typed_ret_none; apply copy_ty, sv0_ty).
  apply typed_ret_none; [|done]. apply (set_q_ty Tany); done.
Qed.

Lemma quals_chain p d a : In a quals -> no_chain (Qual (u8 a) (u8 p) (u8 d)).
Proof using Type. intros Ha. unfold no_chain. cbn. repeat destruct Ha as [<-|Ha]; try done. Qed.
Lemma default_chain p d : no_chain (Qual (u8 Q_DEFAULT) (u8 p) (u8 d)).
Proof using Type. done. Qed.
Lemma relops_ok i : In i relops -> is_relop i.
Proof using Type. unfold relops, is_relop. intros [<-|[<-|[<-|[]]]]; auto. Qed.
Lemma relops_jtype i : In i relops -> is_jtype (u32 i).
Proof using Type. unfold relops, is_jtype. intros [<-|[<-|[<-|[]]]]; auto. Qed.

Lemma typed_relation op reversed : In op relops -> (3 <= len)%nat -> is_a (ty 1) = true -> is_a (ty 3) = true ->
  typed (with_b_q yyval_ty)
    (a0 <- as_a (sv vs len 1) ;; a1 <- as_a (sv vs len 3) ;; act_term vs len (gen_relation op a0 a1 reversed)).
Proof using Htop Hlen.
  intros Hop Hl H1 H3. destruct (as_a_ty _ _ (sv_ty 1 ltac:(lia)) H1) as (a1 & E1 & K1 & O1).
  destruct (as_a_ty _ _ (sv_ty 3 ltac:(lia)) H3) as (a3 & E3 & K3 & O3).
  eapply typed_eq; [exact E1|]. eapply typed_eq; [exact E3|].
  eapply typed_drop; [apply (owned_two 1 3); lia|]. intros l. rewrite O1, O3, <- (assoc_L (++)).
  unfold act_term. eapply triple_bind; [apply relation_straight; [by apply relops_ok|done|done]|]. intros b. cbn beta.
  destruct (set_b_q_ty _ _ yyval0_ty b qerr ltac:(done)) as [Ht Ho].
  apply triple_ret with (l' := owns (with_b_q yyval_ty) (set_b_q (yyval0 vs len) b qerr) ++ l); [done|]. by rewrite Ho.
Qed.

(** [$$.b = $k.b] *)
Lemma typed_take_b k q : (1 <= k <= len)%nat -> no_chain q -> has_b (ty k) = true ->
  typed (with_b_q yyval_ty) (b <- as_b (sv vs len k) ;; ret (set_b_q (yyval0 vs len) b q)).
Proof using Htop Hlen.
  intros Hk Hq Hb. destruct (as_b_ty _ _ (sv_ty k ltac:(lia)) Hb) as (b & E & O). eapply typed_eq; [exact E|].
  destruct (set_b_q_ty _ _ yyval0_ty b q Hq) as [Ht Ho]. apply typed_ret; [done|]. rewrite Ho, <- O. by apply owned_one.
Qed.

Lemma term_typed n g t :
  action_term vs len n = Some g -> term_ty ty yyval_ty n = Some (Some t) ->
  nthZ yyr2 n = Some (Z.of_nat len) -> typed t g.
Proof using All.
  intros Hg Ht Hr. rule_cases n Hg; rule_start Hg Ht Hr; read_tac;
    try (apply typed_term; first [by apply makes_here; auto with gen|by apply atmtype_straight
                                 |by apply atmmulti_straight]);
    try (apply typed_relation; [assumption|lia|assumption|assumption]);
    try (apply typed_take_b; [lia|done|assumption]);
    try (apply typed_ret_none; [|done];
         first [apply (set_q_ty _ _ yyval0_ty)|apply (set_any_q_ty _ _ yyval0_ty)];
         first [by apply quals_chain|by apply default_chain|done]).
  - destruct (as_rblk_ty _ _ (sv_ty 1 ltac:(lia)) ltac:(eassumption)) as (b & E & O). eapply typed_eq; [exact E|].
    destruct (set_b_q_ty _ _ yyval0_ty b qerr ltac:(done)) as [Ht Ho]. apply typed_ret; [done|]. rewrite Ho, <- O.
    apply owned_one. lia.
  - destruct (as_b_ty _ _ (sv_ty 2 ltac:(lia)) ltac:(eassumption)) as (b & E & O). eapply typed_eq; [exact E|].
    eapply typed_q; [apply (sv_ty 1); lia|assumption|]. intros q Hq.
    destruct (set_b_q_ty _ _ yyval0_ty b q Hq) as [Ht Ho]. apply typed_ret; [done|]. rewrite Ho, <- O.
    apply owned_one. lia.
Qed.

Lemma typed_fail {A} t e (K : A -> gen yystype) : not_graph e -> typed t (bind (fail e) K).
Proof using Type. intros He. apply typed_alone. intros l. by apply triple_fail_bind. Qed.
Lemma typed_error t msg : typed t (bpf_error msg).
Proof using Type. apply typed_alone. intros l. by apply triple_fail. Qed.
Lemma typed_same_rblk k : (1 <= k <= len)%nat -> is_r (ty k) = true ->
  typed Tr (b <- as_rblk (sv vs len k) ;; ret (Vrblk b)).
Proof using Htop Hlen.
  intros Hk Hr. destruct (as_rblk_ty _ _ (sv_ty k ltac:(lia)) Hr) as (b & E & O). eapply typed_eq; [exact E|].
  apply typed_ret; [by exists b|]. cbn [owns]. rewrite <- O. by apply owned_one.
Qed.

Lemma other_typed n g t :
  action_other netmask rfile vs len n = Some g -> other_ty ty n = Some (Some t) ->
  nthZ yyr2 n = Some (Z.of_nat len) -> typed t g.
Proof using All.
  intros Hg Ht Hr. rule_cases n Hg; rule_start Hg Ht Hr; read_tac;
    try (apply typed_rblk; first [by apply makes_here; auto with gen|by apply vlan_straight
                                 |by apply mpls_test_straight|by apply pppoes_straight]);
    try (apply typed_same_rblk; [lia|assumption]).
  destruct (byteop_of _); [|by apply typed_fail]. eapply typed_eq; [done|]. apply typed_rblk, makes_here. auto with gen.
Qed.

(** A generator of a number. *)
Definition numeric (g : gen Z) : Prop := (exists i, g = ret i) \/ exists msg, g = bpf_error msg.
Lemma typed_numeric g : numeric g -> typed Ti (act_i g).
Proof using Type.
  intros [[i ->]|[msg ->]]; [|by apply typed_fail]. eapply typed_eq; [done|]. apply typed_ret_none; [by exists i|done].
Qed.
Lemma type_subtype_numeric s l : numeric (type_subtype_of s l).
Proof using Type.
  induction l as [|[t toks] l IH]; cbn [type_subtype_of]; [right; by eexists|]. cbv zeta.
  destruct (str2tok s toks =? -1); [done|]. left. by eexists.
Qed.
Lemma wlan_dir_numeric s : numeric (wlan_dir_of s).
Proof using Type. unfold wlan_dir_of. repeat case_match; ((left; by eexists) || (right; by eexists)). Qed.
Lemma typed_subtypes t type l K :
  (forall toks, typed t (K toks)) -> typed t (bind (subtypes_of type l) K).
Proof using Type.
  intros HK. induction l as [|[t' toks] l IH]; cbn [subtypes_of]; [by apply typed_fail|].
  destruct (type =? t'); [by eapply typed_eq|done].
Qed.
Lemma typed_token s toks msg :
  typed Ti (let v := str2tok s toks in if v =? -1 then bpf_error msg else ret (Vi v)).
Proof using Type.
  cbv zeta. destruct (_ =? -1); [apply typed_error|]. apply typed_ret_none; [by eexists|done].
Qed.

Lemma names_typed n g t :
  action_names vs len n = Some g -> names_ty ty ty_below n = Some (Some t) ->
  nthZ yyr2 n = Some (Z.of_nat len) -> typed t g.
Proof using All.
  intros Hg Ht Hr. rule_cases n Hg; rule_start Hg Ht Hr; read_tac;
    try (apply typed_numeric; first [apply type_subtype_numeric|apply wlan_dir_numeric|by right; eexists]);
    try apply typed_token; try (by apply typed_ret_none; [eexists|]).
  eapply typed_i; [by apply sv_below_ty|done|]. intros ty'. apply typed_subtypes. intros toks. apply typed_token.
Qed.

(** A generator of a value, from the checks of another. *)
Lemma typed_value (g : gen arth) l0 : l0 ⊆+ owned_by tys top ->
  (forall l, arth_in R (l0 ++ l) g l) -> typed Ta (act_a g).
Proof using Type.
  intros Hl Hg. eapply typed_drop; [exact Hl|]. intros l. eapply triple_seq; [apply Hg|].
  intros a l' [Ha ->]. apply triple_ret with (l' := checks a ++ l); [|done]. split; [by exists a|done].
Qed.
Lemma typed_value_of k (g : arth -> gen arth) : (1 <= k <= len)%nat -> is_a (ty k) = true ->
  (forall a l, arth_ok a -> arth_in R (checks a ++ l) (g a) l) ->
  typed Ta (a <- as_a (sv vs len k) ;; act_a (g a)).
Proof using Htop Hlen.
  intros Hk Ha Hg. destruct (as_a_ty _ _ (sv_ty k ltac:(lia)) Ha) as (a & E & K & O). eapply typed_eq; [exact E|].
  eapply typed_value with (l0 := checks a); [rewrite <- O; by apply owned_one|]. intros l. by apply Hg.
Qed.
Lemma typed_arth code : is_aluop code -> (3 <= len)%nat -> is_a (ty 1) = true -> is_a (ty 3) = true ->
  typed Ta (act_arth vs len code).
Proof using Htop Hlen.
  intros Hop Hl H1 H3. destruct (as_a_ty _ _ (sv_ty 1 ltac:(lia)) H1) as (a1 & E1 & K1 & O1).
  destruct (as_a_ty _ _ (sv_ty 3 ltac:(lia)) H3) as (a3 & E3 & K3 & O3).
  eapply typed_eq; [exact E1|]. eapply typed_eq; [exact E3|].
  eapply typed_value with (l0 := checks a1); [rewrite <- O1; apply owned_one; lia|]. intros l. by apply arth_arth.
Qed.

Lemma arth_typed n g t :
  action_arth vs len n = Some g -> arth_ty ty n = Some (Some t) ->
  nthZ yyr2 n = Some (Z.of_nat len) -> typed t g.
Proof using All.
  intros Hg Ht Hr. rule_cases n Hg; rule_start Hg Ht Hr; read_tac;
    try (apply typed_arth; [by unfold is_aluop; cbn; tauto|lia|assumption|assumption]);
    try (by apply typed_ret_none; [eexists|]).
  - apply (typed_value_of 3 (fun a => gen_load _ a 1)); [lia|assumption|]. intros. by apply load_arth.
  - apply typed_value with (l0 := []); [apply submseteq_nil_l|]. intros l. apply loadlen_arth.
  - apply typed_value with (l0 := []); [apply submseteq_nil_l|]. intros l. apply loadi_arth.
  - apply (typed_value_of 2 gen_neg); [lia|assumption|]. intros. by apply neg_arth.
  - destruct (as_a_ty _ _ (sv_ty 2 ltac:(lia)) ltac:(eassumption)) as (a & E & K & O). eapply typed_eq; [exact E|].
    apply typed_ret; [by exists a|]. cbn [owns]. rewrite <- O. apply owned_one. lia.
  - destruct (as_a_ty _ _ (sv_ty 3 ltac:(lia)) ltac:(eassumption)) as (a & E & K & O). eapply typed_eq; [exact E|].
    read_tac. eapply typed_value with (l0 := checks a); [rewrite <- O; apply owned_one; lia|]. intros l. by apply load_arth.
Qed.

Lemma typed_set_b g v u : makes g -> has_ty u v ->
  typed (Tb true (has_q u) (has_atm u) (has_mtp u)) (b <- g ;; ret (set_b v b)).
Proof using Type.
  intros Hg Hv. apply typed_make; [by apply makes_here|]. intros b. split; [by apply set_b_ty|done].
Qed.

Lemma atm_rel_typed reverse : has_atm ty0 = true -> isint (ty 2) = true -> is_in relops (ty 1) = true ->
  typed (Tb true (has_q yyval_ty) (has_atm yyval_ty) (has_mtp yyval_ty)) (act_atm_rel vs len reverse).
Proof using H0 Htop Hlen.
  intros Ha H2 H1. eapply typed_atm; [apply sv0_ty|done|]. intros t _. read_tac.
  apply typed_set_b; [|apply yyval0_ty]. apply atmfield_straight. by apply relops_jtype.
Qed.
Lemma mtp3_rel_typed reverse : has_mtp ty0 = true -> isint (ty 2) = true -> is_in relops (ty 1) = true ->
  typed (Tb true (has_q yyval_ty) (has_atm yyval_ty) (has_mtp yyval_ty)) (act_mtp3_rel vs len reverse).
Proof using H0 Htop Hlen.
  intros Ha H2 H1. eapply typed_mtp3; [apply sv0_ty|done|]. intros t _. read_tac.
  apply typed_set_b; [|apply yyval0_ty]. apply mtp3field_straight. by apply relops_jtype.
Qed.

Lemma owned_yyval : owns yyval_ty (yyval0 vs len) ⊆+ owned_by tys top.
Proof using Htop Hlen.
  unfold yyval_ty. destruct (Nat.eqb_spec len 0) as [|Hn]; [apply submseteq_nil_l|].
  rewrite yyval0_eq by done. apply owned_one. lia.
Qed.
Lemma typed_set_atm i : one_of_atm i = true ->
  typed (Tb (has_b yyval_ty) (has_q yyval_ty) true (has_mtp yyval_ty)) (ret (set_atm (yyval0 vs len) i)).
Proof using Htop Hlen.
  intros Hi. pose proof yyval0_ty as Hv. apply typed_ret; [by apply set_atm_ty|].
  etransitivity; [|apply owned_yyval]. destruct yyval_ty as [| | | | | | | |[] q a m]; cbn [has_b owns]; try apply submseteq_nil_l.
  by destruct Hv as (k & -> & _).
Qed.
Lemma typed_set_mtp3 i : one_of_mtp3 i = true ->
  typed (Tb (has_b yyval_ty) (has_q yyval_ty) (has_atm yyval_ty) true) (ret (set_mtp3 (yyval0 vs len) i)).
Proof using Htop Hlen.
  intros Hi. pose proof yyval0_ty as Hv. apply typed_ret; [by apply set_mtp3_ty|].
  etransitivity; [|apply owned_yyval]. destruct yyval_ty as [| | | | | | | |[] q a m]; cbn [has_b owns]; try apply submseteq_nil_l.
  by destruct Hv as (k & -> & _).
Qed.

Lemma field_typed n g t :
  action_field vs len n = Some g -> field_ty ty ty0 yyval_ty n = Some (Some t) ->
  nthZ yyr2 n = Some (Z.of_nat len) -> typed t g.
Proof using All.
  intros Hg Ht Hr. rule_cases n Hg; rule_start Hg Ht Hr;
    try (apply typed_or; [lia|assumption..]); try (by apply atm_rel_typed); try (by apply mtp3_rel_typed).
  - by apply typed_set_atm.
  - eapply typed_mtp3; [apply sv0_ty|assumption|]. intros i Hi. read_tac. rewrite Hi.
    apply (typed_set_b _ (set_mtp3 (yyval0 vs len) i) (Tb (has_b yyval_ty) (has_q yyval_ty) (has_atm yyval_ty) true));
      [auto with gen|by apply set_mtp3_ty, Hi; apply yyval0_ty].
  - by apply typed_set_mtp3.
  - eapply typed_atm; [apply sv0_ty|assumption|]. intros i Hi. read_tac. rewrite Hi.
    apply (typed_set_b _ (set_atm (yyval0 vs len) i) (Tb (has_b yyval_ty) (has_q yyval_ty) true (has_mtp yyval_ty)));
      [auto with gen|by apply set_atm_ty, Hi; apply yyval0_ty].
  - by apply typed_set_mtp3.
  - by apply typed_set_mtp3.
  - by apply typed_set_mtp3.
  - by apply typed_set_atm.
Qed.

(** ** Every rule

    The groups of rules that have an action are those that have a type. *)
Definition same_group {A B} (x : option A) (y : option B) : Prop :=
  match x, y with Some _, Some _ | None, None => True | _, _ => False end.
Ltac group_tac n := destruct n as [|n|n]; try exact I; repeat (destruct n as [n|n|]; try exact I).

Lemma expr_group n : same_group (action_expr r vs len n) (expr_ty ty ty0 yyval_ty n).
Proof using Type. group_tac n. Qed.
Lemma term_group n : same_group (action_term vs len n) (term_ty ty yyval_ty n).
Proof using Type. group_tac n. Qed.
Lemma other_group n : same_group (action_other netmask rfile vs len n) (other_ty ty n).
Proof using Type. group_tac n. Qed.
Lemma names_group n : same_group (action_names vs len n) (names_ty ty ty_below n).
Proof using Type. group_tac n. Qed.
Lemma arth_group n : same_group (action_arth vs len n) (arth_ty ty n).
Proof using Type. group_tac n. Qed.
Lemma field_group n : same_group (action_field vs len n) (field_ty ty ty0 yyval_ty n).
Proof using Type. group_tac n. Qed.

Ltac next_group Ht act ty_of G L :=
  let g := fresh "g" in let o := fresh "o" in let Eg := fresh "Eg" in let Et := fresh "Et" in
  pose proof G; destruct act as [g|] eqn:Eg; destruct ty_of as [o|] eqn:Et;
  try (exfalso; assumption); [cbn in Ht; subst o; by apply (L _ _ _ Eg Et)|].

Lemma rule_typed n t :
  rule_ty ty ty0 ty_below yyval_ty n = Some t -> nthZ yyr2 n = Some (Z.of_nat len) ->
  typed t (yyaction r netmask rfile vs len n).
Proof using All.
  unfold rule_ty, yyaction. intros Ht Hr. destruct (assoc const_rules n) as [i|].
  { injection Ht as <-. apply typed_ret_none; [|done]. exists i. split; [done|]. unfold one_of. cbn. by rewrite Z.eqb_refl. }
  next_group Ht (action_expr r vs len n) (expr_ty ty ty0 yyval_ty n) (expr_group n) expr_typed.
  next_group Ht (action_term vs len n) (term_ty ty yyval_ty n) (term_group n) term_typed.
  next_group Ht (action_other netmask rfile vs len n) (other_ty ty n) (other_group n) other_typed.
  next_group Ht (action_names vs len n) (names_ty ty ty_below n) (names_group n) names_typed.
  next_group Ht (action_arth vs len n) (arth_ty ty n) (arth_group n) arth_typed.
  next_group Ht (action_field vs len n) (field_ty ty ty0 yyval_ty n) (field_group n) field_typed.
  cbn in Ht. injection Ht as <-. apply typed_ret; [apply yyval0_ty|apply owned_yyval].
Qed.
End Rule.
