(* ===== verification/GenFinish.v ===== *)
(** [finish_parse]: the branches that the graph of a filter still lacks lead
    to the blocks that accept and reject. *)
From S2P Require Import Prelude Bpf BpfFilter BpfValidate Datalink GenConst Gencode GenLink GenProto GenWlan GenOffsets GencodeSpec GenTriple.
From S2P Require Import Icode IcodeSpec IcodeCorrect GenStraight GenShape.

#[local] Open Scope Z_scope.
#[local] Open Scope c_scope.
#[local] Open Scope gen_scope.

(** ** The first block of a graph

    It is there already: the missing branches could be filled in. *)
Definition with_unlink (b : block) (t : option nat) : block := flip_sense (with_link (flip_sense b) t).
Definition filled (p : nat) (T F : list nat) (t f : nat) (c : nat) (b : block) : option block :=
  let b1 := if decide (c = p \/ c ∈ T) then with_link b (Some t)
            else if decide (c ∈ F) then with_link b (Some f) else b in
  Some (if decide (c = p) then with_unlink b1 (Some f) else b1).

Lemma head_there h p e D T F b : opened h p e D T F b -> is_Some (h !! b_head b).
Proof.
  intros Ho. set (h' := map_imap (filled p T F 0%nat 0%nat) h).
  assert (Hg : graph h' (b_head b) e 0%nat 0%nat).
  { apply (op_fits _ _ _ _ _ _ _ Ho). intros c x _ Hx. unfold h'. rewrite map_lookup_imap, Hx. cbn.
    eexists. split; [reflexivity|]. unfold get, link, unlink.
    destruct x as [ss code k jt jf [] hd lt lf off];
      repeat case_decide; cbn; split_and!; try done; tauto. }
  assert (Hd : forall x y t f, graph h' x y t f -> is_Some (h' !! x)).
  { intros x y t f. by induction 1. }
  destruct (Hd _ _ _ _ Hg) as [x Hx]. unfold h' in Hx. rewrite map_lookup_imap in Hx.
  destruct (h !! b_head b) as [y|]; [by exists y|done].
Qed.

(** ** The two return blocks *)

Definition returning (p : nat) (v : Z) : block := Block [] (BPF_RET .| BPF_K) (i32 v) None None false p 0 0 0.

Lemma retblk_eq v s :
  gen_retblk v s = inr (g_next s, Gst (<[g_next s := returning (g_next s) v]> (g_heap s)) (S (g_next s))
                                    (g_off s) (g_regs s)).
Proof.
  unfold gen_retblk, new_block. unfold bind at 1. unfold set_k.
  rewrite (bind_eq _ _ _ _ _ (update_eq (Gst _ _ _ _) _ _ _ (lookup_insert_eq _ _ _))).
  unfold ret, set_heap. cbn. by rewrite insert_insert_eq.
Qed.

(** The end of [finish_parse]. *)
Definition finish_graph (snaplen : Z) (p : nat) : gen nat :=
  t <- gen_retblk snaplen ;;
  backpatch_m p t ;;
  update p flip_sense ;;
  f <- gen_retblk 0 ;;
  backpatch_m p f ;;
  blk <- get_block p ;;
  ret (b_head blk).

Lemma ret_block_returning h p v : h !! p = Some (returning p v) -> ret_block h p (i32 v).
Proof. intros Hp. exists (returning p v). by split. Qed.

Lemma finish_graph_ok snaplen p e D T F b s :
  opened (g_heap s) p e D T F b ->
  (forall c, is_Some (g_heap s !! c) -> (c < g_next s)%nat) ->
  exists s' t f, finish_graph snaplen p s = inr (b_head b, s') /\ graph (g_heap s') (b_head b) e t f /\
    ret_block (g_heap s') t (i32 snaplen) /\ ret_block (g_heap s') f 0.
Proof.
  intros Ho Hnext. unfold finish_graph. set (t := g_next s). rewrite (bind_eq _ _ _ _ _ (retblk_eq _ _)).
  fold t. set (s1 := Gst _ _ _ _).
  assert (Hfresh : forall c, is_Some (g_heap s !! c) -> c <> t) by (intros c Hc; apply Hnext in Hc; unfold t; lia).
  assert (Ho1 : opened (g_heap s1) p e D T F b).
  { eapply opened_ext; [|exact Ho]. intros c Hc. cbn. apply lookup_insert_ne. intros <-.
    by apply (Hfresh t (op_dom _ _ _ _ _ _ _ Ho _ Hc)). }
  pose proof Ho1 as [Hb Ht Hf Hn Hi Hd Hg].
  pose proof Hn as [Hp (HnT & _)%NoDup_app]%NoDup_cons. rewrite elem_of_app in Hp.
  assert (HT : forall c, c ∈ p :: T -> c ∈ D)
    by (intros c Hc; apply Hi; rewrite elem_of_cons, elem_of_app in *; tauto).
  destruct (backpatch_m_eq s1 p (p :: T) t) as (h1 & E1 & Hh1);
    [by split; [|exists b]|apply NoDup_cons; tauto|intros c Hc; by apply Hd, HT|].
  rewrite (bind_eq _ _ _ _ _ E1). pose proof (Hh1 p) as Hx. rewrite decide_True, Hb in Hx by constructor.
  cbn [fmap option_fmap option_map] in Hx.
  rewrite (bind_eq _ _ _ _ _ (update_eq (set_heap s1 h1) p flip_sense _ Hx)).
  assert (Ha : patched (<[p:=flip_sense (with_link b (Some t))]> h1) p e D F t (flip_sense (with_link b (Some t))))
    by by eapply opened_patched.
  set (h2 := <[p:=flip_sense (with_link b (Some t))]> h1) in *. set (s2 := set_heap _ _).
  set (f := S t). assert (Ef : g_next s2 = f) by done.
  rewrite (bind_eq _ _ _ _ _ (retblk_eq _ _)), Ef. set (s3 := Gst _ _ _ _).
  assert (HtD : forall c, c ∈ D -> c <> t /\ c <> f).
  { intros c Hc. pose proof (op_dom _ _ _ _ _ _ _ Ho c Hc) as Hs%Hnext. unfold f, t. lia. }
  assert (Ha3 : patched (g_heap s3) p e D F t (flip_sense (with_link b (Some t)))).
  { eapply patched_ext; [|exact Ha]. intros c Hc. cbn. apply lookup_insert_ne. intros <-. by destruct (HtD _ Hc). }
  pose proof Ha3 as [Hb3 Hc3 Hn3 Hi3 Hd3 Hg3].
  destruct (backpatch_m_eq s3 p (p :: F) f Hc3 Hn3) as (h4 & E4 & Hh4); [intros c Hc; by apply Hd3, Hi3|].
  rewrite (bind_eq _ _ _ _ _ E4). pose proof (Hh4 p) as Hx4. rewrite decide_True, Hb3 in Hx4 by constructor.
  cbn [fmap option_fmap option_map] in Hx4.
  rewrite (bind_eq _ _ _ _ _ (get_block_eq (set_heap s3 h4) p _ Hx4)).
  assert (Hhead : forall x u, b_head (with_link x u) = b_head x) by (intros [? ? ? ? ? []] ?; done).
  rewrite Hhead. change (b_head (flip_sense ?x)) with (b_head x). rewrite Hhead.
  assert (Hout : forall c, c ∉ D -> h4 !! c = g_heap s3 !! c).
  { intros c Hc. rewrite Hh4, decide_False; [done|]. intros Hc'. by apply Hc, Hi3. }
  eexists _, t, f. split; [reflexivity|]. cbn [g_heap set_heap]. split_and!.
  - specialize (Hg3 h4 f). change (b_head (flip_sense ?x)) with (b_head x) in Hg3. rewrite Hhead in Hg3.
    apply Hg3. intros c x Hc Hxc. rewrite Hh4, Hxc. destruct (decide (c ∈ p :: F)).
    + eexists. split; [reflexivity|]. unfold get, link, unlink.
      destruct x as [? ? ? ? ? []]; by split_and!.
    + exists x. split_and!; try done. apply get_unlink.
  - apply ret_block_returning. rewrite Hout by (intros Hc; by destruct (HtD _ Hc)). cbn.
    rewrite lookup_insert_ne by (unfold f; lia). unfold h2.
    rewrite lookup_insert_ne by (intros <-; by destruct (HtD p (HT p ltac:(constructor)))).
    rewrite Hh1, decide_False by (intros Hc%HT; by destruct (HtD _ Hc)). cbn. apply lookup_insert_eq.
  - change 0 with (i32 0). apply ret_block_returning. rewrite Hout by (intros Hc; by destruct (HtD _ Hc)). cbn.
    apply lookup_insert_eq.
Qed.

(** ** [finish_parse] *)

(** A layout without 802.11 headers of variable length. *)
Definition no_wlan (o : layout) : Prop := is_wlan (o_linktype o) = false.
Lemma no_wlan_stable : by_linktype no_wlan.
Proof. intros o o' Ho E. unfold no_wlan. by rewrite E. Qed.

Lemma no_vloffsets o r : no_wlan o -> compute_vloffsets o r = [].
Proof.
  unfold no_wlan, compute_vloffsets. intros Hw. rewrite Hw. unfold load_llprefixlen.
  unfold is_wlan, one_of in *. cbn [existsb] in *. destruct (_ =? -1); [done|].
  repeat match goal with |- context [o_linktype o =? ?x] => destruct (o_linktype o =? x) eqn:?; cbn in *;
    rewrite ?orb_true_r in Hw; try discriminate Hw end; done.
Qed.

Lemma insert_nothing b blk s : no_wlan (g_off s) -> g_heap s !! b = Some blk ->
  insert_compute_vloffsets b s = inr (tt, s).
Proof.
  intros Hw Hb. unfold insert_compute_vloffsets, get_off, get_regs. unfold bind at 1. unfold bind at 1.
  rewrite (bind_eq _ _ _ _ _ (get_block_eq s b blk Hb)), no_vloffsets by done. cbn [new_stmts].
  unfold bind at 1. cbn [ret]. unfold set_stmts, prepend_stmts. cbn [zip_with app].
  rewrite (update_eq s b _ blk Hb). replace (with_stmts blk (b_stmts blk)) with blk by by destruct blk.
  rewrite insert_id by done. by destruct s.
Qed.

Lemma finish_parse_ok snaplen p l s : no_wlan (g_off s) -> holds s ((p, straight) :: l) ->
  exists s' root e t f, finish_parse snaplen p s = inr (root, s') /\ straight e /\
    graph (g_heap s') root e t f /\ ret_block (g_heap s') t (i32 snaplen) /\ ret_block (g_heap s') f 0.
Proof.
  intros Hw (_ & l0 & D & Hk & Hf & _ & Hnext). inversion Hk as [|[p0 e] y l1 l2 [Hp He] _]; subst.
  cbn in Hp, He. subst p0. destruct Hf as (D1 & D2 & T & F & b & Ho & _).
  unfold finish_parse. rewrite (bind_eq _ _ _ _ _ (get_block_eq s p b (op_block _ _ _ _ _ _ _ Ho))).
  destruct (head_there _ _ _ _ _ _ _ Ho) as [hd Hhd].
  rewrite (bind_eq _ _ _ _ _ (insert_nothing _ _ s Hw Hhd)).
  assert (Hppi : gen_ppi_dlt_check s = inr (None, s)).
  { unfold gen_ppi_dlt_check, get_off, bind. destruct (Z.eqb_spec (o_linktype (g_off s)) DLT_PPI) as [E|]; [|done].
    unfold no_wlan in Hw. by rewrite E in Hw. }
  rewrite (bind_eq _ _ _ _ _ Hppi). change (bind (ret tt) ?k s) with (k tt s).
  destruct (finish_graph_ok snaplen p e D1 T F b s Ho Hnext) as (s' & t & f & Hfin & Hg & Ht & Hff).
  exists s', (b_head b), e, t, f. by split_and!.
Qed.
