(* ===== verification/ParserSpec.v ===== *)
(** The parser of [grammar.c] comes to an end: the states on its stack follow
    the automaton, and every turn of [yyparse] lowers a measure of the stack
    and the input that is left. *)
From S2P Require Import Prelude CString CFile Bpf Gencode GenLink Names ScannerTab GrammarTab Scanner Parser.
From S2P Require Import GenOffsets ScannerSpec AutomatonTab Automaton Compile.

#[local] Open Scope Z_scope.
#[local] Open Scope c_scope.
#[local] Open Scope gen_scope.

(** ** What the checks say *)

Lemma mem_iff x l : mem x l = true <-> x ∈ l.
Proof.
  unfold mem, one_of. rewrite existsb_exists. split.
  - intros (y & Hy & ->%Z.eqb_eq). by apply list_elem_of_In.
  - intros Hx. exists x. split; [by apply list_elem_of_In|apply Z.eqb_refl].
Qed.

Lemma elem_of_states s : s ∈ states <-> 0 <= s < 277.
Proof. unfold states. rewrite elem_of_seqZ. lia. Qed.

Lemma forallb_elem {A} (f : A -> bool) l x : forallb f l = true -> x ∈ l -> f x = true.
Proof. rewrite forallb_forall. intros H Hx. by apply H, list_elem_of_In. Qed.

Lemma states_ok : forallb (state_ok reduce_ok shift_ok) states = true.
Proof. vm_compute. reflexivity. Qed.
Lemma leasts_ok : forallb least_ok states = true.
Proof. vm_compute. reflexivity. Qed.

Lemma length_yycheck : Z.of_nat (length yycheck) = 701.
Proof. vm_compute. reflexivity. Qed.
Lemma length_yytable : Z.of_nat (length yytable) = 701.
Proof. vm_compute. reflexivity. Qed.
Lemma length_yytranslate : Z.of_nat (length yytranslate) = 369.
Proof. vm_compute. reflexivity. Qed.
Lemma yytranslate_nonneg : forallb (fun t => 0 <=? t) yytranslate = true.
Proof. vm_compute. reflexivity. Qed.
#[local] Opaque yycheck yytable yypact yydefact yytranslate yyr1 yyr2 yypgoto yydefgoto.

Lemma state_of s : 0 <= s < 277 -> state_ok reduce_ok shift_ok s = true.
Proof. intros Hs%elem_of_states. by apply (forallb_elem _ _ _ states_ok). Qed.

Lemma least_of s : 0 <= s < 277 -> -4 <= least s.
Proof.
  intros Hs%elem_of_states. pose proof (forallb_elem _ _ _ leasts_ok Hs) as H.
  unfold least_ok in H. lia.
Qed.
Lemma least_below s p : 0 <= s < 277 -> p ∈ below s -> 0 <= p < 277 /\ least s <= least p + weight s.
Proof.
  intros Hs%elem_of_states Hp. pose proof (forallb_elem _ _ _ leasts_ok Hs) as H.
  unfold least_ok in H. apply andb_prop in H as [_ H]. apply (forallb_elem _ _ _ H) in Hp.
  unfold is_state in Hp. lia.
Qed.

(** ** The stack of states *)

Inductive stack : list Z -> Prop :=
| stack_bottom : stack [0]
| stack_push q p st : stack (p :: st) -> p ∈ below q -> 0 <= q < 277 -> stack (q :: p :: st).

Lemma stack_state q st : stack (q :: st) -> 0 <= q < 277.
Proof. inversion 1; [lia|done]. Qed.

Fixpoint potential (st : list Z) : Z :=
  match st with
  | q :: (_ :: _) as st => weight q + potential st
  | _ => 0
  end.

Lemma potential_push q p st : potential (q :: p :: st) = weight q + potential (p :: st).
Proof. done. Qed.

Lemma potential_least q st : stack (q :: st) -> least q <= potential (q :: st).
Proof.
  revert q. induction st as [|p st IH]; intros q; inversion 1; subst; [by vm_compute|].
  pose proof (least_below q p ltac:(done) ltac:(done)). rewrite potential_push. pose proof (IH p ltac:(done)). lia.
Qed.

(** ** What a rule pops *)

Lemma elem_of_add x y l : x ∈ add y l <-> x = y \/ x ∈ l.
Proof.
  unfold add. destruct (mem y l) eqn:E; [|by rewrite elem_of_cons].
  apply mem_iff in E. split; [by right|]. by intros [->|].
Qed.
Lemma elem_of_under l s p : s ∈ l -> p ∈ below s -> p ∈ under l.
Proof.
  intros Hs Hp. induction l as [|t l IH]; [by apply elem_of_nil in Hs|].
  unfold under. cbn [foldr]. fold (under l). apply elem_of_cons in Hs as [<-|Hs].
  - clear IH. revert Hp. generalize (below s). intros ps Hp. induction Hp as [x ps|x y ps _ IH]; cbn [foldr];
      apply elem_of_add; auto.
  - specialize (IH Hs). revert IH. clear. generalize (below t). intros ps Hu.
    induction ps as [|q ps IHp]; [done|]. cbn [foldr]. apply elem_of_add. auto.
Qed.

Lemma levels_elem ok n l ls bases s st :
  levels ok n l = (ls, bases) -> stack (s :: st) -> Forall (fun x => ok x = true) st -> s ∈ l ->
  (n <= length st)%nat ->
  Forall2 (fun x l => x ∈ l) (take n (s :: st)) ls /\
  exists base st', drop n (s :: st) = base :: st' /\ stack (base :: st') /\ base ∈ bases.
Proof.
  revert l ls bases s st. induction n as [|n IH]; intros l ls bases s st Hl Hst Hok Hs Hn; cbn [levels] in Hl.
  { injection Hl as <- <-. split; [constructor|]. by exists s, st. }
  destruct (levels ok n (List.filter ok (under l))) as [ls' b] eqn:El. injection Hl as <- <-.
  destruct st as [|p st]; [simpl in Hn; lia|]. inversion Hst; subst. inversion Hok; subst.
  destruct (IH _ _ _ p st El) as [Hf Hb]; [done|done| |simpl in *; lia|].
  - apply list_elem_of_In, filter_In. split; [|done]. apply list_elem_of_In. by apply (elem_of_under l s).
  - split; [by constructor|done].
Qed.

Lemma levels_deep n l ls bases s st :
  levels (fun _ => true) n l = (ls, bases) -> stack (s :: st) -> s ∈ l ->
  Forall (fun l => 0 ∉ l) ls -> (n <= length st)%nat.
Proof.
  revert l ls bases s st. induction n as [|n IH]; intros l ls bases s st Hl Hst Hs H0; [lia|].
  cbn [levels] in Hl. destruct (levels _ n _) as [ls' b] eqn:El. injection Hl as <- <-.
  inversion H0; subst. inversion Hst as [|q p st' Hst' Hp Hr]; subst; [done|]. simpl.
  apply le_n_S. eapply IH; [exact El|done| |done].
  apply list_elem_of_In, filter_In. split; [|done]. apply list_elem_of_In. by apply (elem_of_under l s).
Qed.

Lemma weights_le s l : s ∈ l -> weights l <= weight s.
Proof. induction 1 as [x l|x t l _ IH]; cbn [weights foldr]; [lia|]. unfold weights in IH. lia. Qed.

Lemma popped_potential n s st ls : (n <= length st)%nat ->
  Forall2 (fun x l => x ∈ l) (take n (s :: st)) ls ->
  popped ls + potential (drop n (s :: st)) <= potential (s :: st).
Proof.
  revert s st ls. induction n as [|n IH]; intros s st ls Hn Hf.
  { inversion Hf; subst. cbn [popped foldr drop]. lia. }
  destruct st as [|p st]; [simpl in Hn; lia|]. inversion Hf as [|? l ? ls' Hs Hf']; subst.
  apply weights_le in Hs. specialize (IH p st ls' ltac:(simpl in Hn; lia) Hf').
  change (popped (l :: ls')) with (weights l + popped ls'). cbn [drop]. rewrite potential_push. lia.
Qed.

(** The goto of a rule that the checks allow. *)
Record reduces (s : Z) (st : list Z) (n : Z) (len : nat) (base : Z) (st' : list Z) (q : Z) : Prop := {
  rd_len : exists z, nthZ yyr2 n = Some z /\ Z.to_nat z = len;
  rd_deep : (len <= length st)%nat;
  rd_drop : drop len (s :: st) = base :: st';
  rd_goto : goto n base = Some q;
  rd_stack : stack (q :: base :: st');
  rd_less : potential (q :: base :: st') + 1 <= potential (s :: st);
  rd_prog : (q =? 1) = is_prog n }.

Lemma reduce_spec s st n : stack (s :: st) -> reduce_ok s n = true ->
  exists len base st' q, reduces s st n len base st' q.
Proof.
  intros Hst Hok. unfold reduce_ok in Hok. destruct (nthZ yyr2 n) as [z|] eqn:Ez; [|done].
  destruct (levels _ (Z.to_nat z) [s]) as [ls bases] eqn:El. apply andb_prop in Hok as [H0 Hb].
  assert (Hs : s ∈ [s]) by set_solver.
  assert (Hd : (Z.to_nat z <= length st)%nat).
  { eapply levels_deep; [exact El|done|done|]. apply Forall_forall. intros l Hl Hz.
    pose proof (forallb_elem _ _ _ H0 Hl) as Hm. cbn beta in Hm. apply mem_iff in Hz. by rewrite Hz in Hm. }
  destruct (levels_elem _ _ _ _ _ s st El) as (Hf & base & st' & Hdr & Hst' & Hbase); [done| |done|done|].
  { by apply Forall_forall. }
  pose proof (forallb_elem _ _ _ Hb Hbase) as Hq. unfold base_ok in Hq.
  destruct (goto n base) as [q|] eqn:Eg; [|done].
  apply andb_prop in Hq as [[[Hq Hm%mem_iff]%andb_prop Hw]%andb_prop He].
  exists (Z.to_nat z), base, st', q. split; try done.
  - by exists z.
  - constructor; [done|done|]. unfold is_state in Hq. lia.
  - pose proof (popped_potential _ s st ls Hd Hf) as Hp. rewrite Hdr in Hp. rewrite potential_push. lia.
  - by apply eqb_prop.
Qed.

(** ** A turn

    What [yystep] decides to do before it changes the stacks. *)
Inductive move :=
| Wrong (msg : string)
| Undefined
| Missing
| Unread
| Reduce (p : parser) (n : Z)
| Shift (p : parser) (q : Z)
| Done.

Definition with_char (p : parser) (c : Z) : parser :=
  Parser (ps_states p) (ps_vals p) c (ps_lval p) (ps_input p) (ps_root p).

Section Turn.
Context (r : resolver) (netmask snaplen : Z) (rfile : bool).

Definition look (p : parser) : move + parser :=
  if ps_char p =? YYEMPTY then
    match lex r (ps_input p) with
    | (Token t v, rest) => inr (Parser (ps_states p) (ps_vals p) t (default (ps_lval p) v) rest (ps_root p))
    | (LexError msg, _) => inl (Wrong msg)
    | (LexUndef, _) => inl Undefined
    | _ => inl Unread
    end
  else inr p.
Definition token_of (c : Z) : option Z :=
  if c <=? YYEOF then Some YYEOF else if c <=? YYMAXUTOK then nthZ yytranslate c else Some YYUNDEFTOK.
Definition by_default (p : parser) (s : Z) : move :=
  match nthZ yydefact s with
  | Some d => if d =? 0 then Wrong "syntax error" else Reduce p d
  | None => Missing
  end.
Definition by_action (p : parser) (i : Z) : move :=
  match nthZ yytable i with
  | Some a =>
      if a <=? 0 then
        if (a =? 0) || (a =? YYTABLE_NINF) then Wrong "syntax error" else Reduce p (- a)
      else if a =? YYFINAL then Done else Shift p a
  | None => Missing
  end.
Definition at_token (p : parser) (s pact t : Z) : move :=
  match (if (pact + t <? 0) || (YYLAST <? pact + t) then Some (-1) else nthZ yycheck (pact + t)) with
  | Some c => if negb (c =? t) then by_default p s else by_action p (pact + t)
  | None => Missing
  end.
Definition move_of (p : parser) : move :=
  match head (ps_states p) with
  | Some s =>
      match nthZ yypact s with
      | Some pact =>
          if pact =? YYPACT_NINF then by_default p s
          else
            match look p with
            | inl m => m
            | inr p =>
                match token_of (ps_char p) with
                | Some t => at_token (with_char p (if ps_char p <=? YYEOF then YYEOF else ps_char p)) s pact t
                | None => Missing
                end
            end
      | None => Missing
      end
  | None => Missing
  end.

Definition shifted (p : parser) : parser := with_char p (if ps_char p =? YYEOF then YYEOF else YYEMPTY).

Definition run (m : move) : gen pstep :=
  match m with
  | Wrong msg => bpf_error msg
  | Undefined => fail G_undef
  | Missing => fail G_graph
  | Unread => ret NoToken
  | Reduce p n => yyreduce r netmask snaplen rfile p n
  | Shift p q => push (shifted p) q (ps_lval p)
  | Done => ret Accept
  end.

Lemma bind_defined {A B} (o : option A) (k : A -> gen B) s :
  bind (defined o) k s = match o with Some a => k a s | None => fail G_graph s end.
Proof using Type. by destruct o. Qed.

Lemma yydefault_move p q s : yydefault r netmask snaplen rfile p q s = run (by_default p q) s.
Proof using Type.
  unfold yydefault, by_default, at_tab. rewrite bind_defined. destruct (nthZ yydefact q) as [d|]; [|reflexivity].
  by destruct (d =? 0).
Qed.
Lemma yyact_move p i s : yyact r netmask snaplen rfile p i s = run (by_action p i) s.
Proof using Type.
  unfold yyact, by_action, at_tab. rewrite bind_defined. destruct (nthZ yytable i) as [a|]; [|reflexivity].
  destruct (a <=? 0); [by destruct ((a =? 0) || _)|]. by destruct (a =? YYFINAL).
Qed.

(** A turn is its move. *)
Lemma yystep_move p s : yystep r netmask snaplen rfile p s = run (move_of p) s.
Proof using Type.
  unfold yystep, move_of. rewrite bind_defined. destruct (head (ps_states p)) as [q|]; [|reflexivity].
  unfold at_tab at 1. rewrite bind_defined. destruct (nthZ yypact q) as [pact|]; [|reflexivity].
  destruct (pact =? YYPACT_NINF); [apply yydefault_move|].
  assert (Hl : forall k : option parser -> gen pstep, k None = ret NoToken -> bind (look_ahead r p) k s =
    match look p with inl m => run m s | inr p => k (Some p) s end).
  { intros k Hk. unfold bind, look_ahead, look. destruct (ps_char p =? YYEMPTY); [|reflexivity].
    destruct (lex r (ps_input p)) as [[] rest]; try reflexivity; cbn [ret]; by rewrite Hk. }
  rewrite Hl by done. destruct (look p) as [m|p'] eqn:El; [reflexivity|].
  assert (Ht : forall k : Z -> gen pstep, bind (yytoken_of (ps_char p')) k s =
    match token_of (ps_char p') with Some t => k t s | None => fail G_graph s end).
  { intros k. unfold yytoken_of, token_of, at_tab. destruct (ps_char p' <=? YYEOF); [reflexivity|].
    destruct (ps_char p' <=? YYMAXUTOK); [apply bind_defined|reflexivity]. }
  rewrite Ht. destruct (token_of (ps_char p')) as [t|]; [|reflexivity]. cbv zeta.
  fold (with_char p' (if ps_char p' <=? YYEOF then YYEOF else ps_char p')). unfold at_token.
  set (p'' := with_char _ _).
  assert (Hc : forall k : Z -> gen pstep, bind (if (pact + t <? 0) || (YYLAST <? pact + t) then ret (-1)
                               else at_tab yycheck (pact + t)) k s =
    match (if (pact + t <? 0) || (YYLAST <? pact + t) then Some (-1) else nthZ yycheck (pact + t)) with
    | Some c => k c s | None => fail G_graph s end).
  { intros k. destruct (_ || _); [reflexivity|apply bind_defined]. }
  rewrite Hc. destruct (if _ : bool then Some (-1) else _) as [c|]; [|reflexivity].
  destruct (negb (c =? t)); [apply yydefault_move|apply yyact_move].
Qed.
End Turn.

(** ** The moves follow the automaton *)

Lemma elem_of_cells cs ts i j c a :
  nthZ cs j = Some c -> nthZ ts j = Some a -> (i + j, c, a) ∈ cells i cs ts.
Proof.
  revert ts i j. induction cs as [|c0 cs IH]; intros ts i j Hc Ht.
  - apply nthZ_elem_of, elem_of_nil in Hc. done.
  - destruct ts as [|a0 ts]; [by apply nthZ_elem_of, elem_of_nil in Ht|]. cbn [cells].
    destruct (Z.eq_dec j 0) as [->|Hj].
    + injection Hc as ->. injection Ht as ->. rewrite Z.add_0_r. constructor.
    + apply list_elem_of_further. replace (i + j) with (i + 1 + (j - 1)) by lia.
      assert (Hn : forall (A : Type) (x : A) l y, nthZ (x :: l) j = Some y -> nthZ l (j - 1) = Some y).
      { intros A x l y Hy. pose proof (nthZ_Some_lt _ _ _ Hy). unfold nthZ in *.
        destruct (Z.ltb_spec j 0); [done|]. destruct (Z.ltb_spec (j - 1) 0); [lia|].
        replace (Z.to_nat j) with (S (Z.to_nat (j - 1))) in Hy by lia. done. }
      apply IH; [by apply Hn in Hc|by apply Hn in Ht].
Qed.

Lemma elem_of_actions pact t a :
  nthZ yycheck (pact + t) = Some t -> nthZ yytable (pact + t) = Some a -> (t, a) ∈ actions pact.
Proof.
  intros Hc Ht. unfold actions. apply list_elem_of_omap. exists (pact + t, t, a). split.
  - apply (elem_of_cells _ _ 0 (pact + t)); done.
  - by replace (pact + t - pact) with t by lia; rewrite Z.eqb_refl.
Qed.

(** [p'] is [p] after the look-ahead token has been read, if it was. *)
Definition clamped (p : parser) : parser := with_char p (if ps_char p <=? YYEOF then YYEOF else ps_char p).
Definition reads (r : resolver) (p p' : parser) : Prop :=
  p' = p \/ exists p1, look r p = inr p1 /\ p' = clamped p1.

(** The scanner gives no token. *)
Definition no_token (r : resolver) (input : string) : Prop :=
  match (lex r input).1 with Skip | LexStuck => True | _ => False end.

Lemma token_of_Some c : is_Some (token_of c).
Proof.
  unfold token_of. destruct (Z.leb_spec c YYEOF); [by eexists|].
  destruct (Z.leb_spec c YYMAXUTOK); [|by eexists]. apply nthZ_is_Some.
  rewrite length_yytranslate. unfold YYEOF, YYMAXUTOK in *. lia.
Qed.
Lemma token_of_nonneg c t : token_of c = Some t -> 0 <= t.
Proof.
  unfold token_of. destruct (c <=? YYEOF); [by intros [= <-]|]. destruct (c <=? YYMAXUTOK); [|by intros [= <-]].
  intros Ht. apply (nthZ_forallb _ _ _ _ yytranslate_nonneg) in Ht. lia.
Qed.
Lemma token_of_clamped p : token_of (ps_char (clamped p)) = token_of (ps_char p).
Proof.
  unfold clamped, with_char, token_of. cbn [ps_char].
  destruct (ps_char p <=? YYEOF) eqn:E; [done|]. by rewrite E.
Qed.

Section Moves.
Context (r : resolver) (reduce : Z -> Z -> bool) (shift : Z -> Z -> Z -> bool).

Lemma by_default_spec p s :
  state_ok reduce shift s = true ->
  match by_default p s with
  | Wrong _ => True
  | Reduce p' n => p' = p /\ reduce s n = true
  | _ => False
  end.
Proof using Type.
  unfold state_ok, by_default. destruct (nthZ yypact s) as [pact|]; [|done].
  destruct (nthZ yydefact s) as [d|]; [|done]. intros [H _]%andb_prop. by destruct (d =? 0).
Qed.

Definition fits_move (s t : Z) (p : parser) (m : move) : Prop :=
  match m with
  | Wrong _ | Undefined | Done => True
  | Reduce p' n => p' = p /\ reduce s n = true
  | Shift p' q => p' = p /\ shift s t q = true
  | Missing | Unread => False
  end.

Lemma at_token_spec p s pact t :
  nthZ yypact s = Some pact -> pact <> YYPACT_NINF -> 0 <= t -> state_ok reduce shift s = true ->
  fits_move s t p (at_token p s pact t).
Proof using Type.
  intros Hp Hn Ht Hs. unfold at_token.
  assert (Hd : fits_move s t p (by_default p s)).
  { pose proof (by_default_spec p s Hs) as Hd. by destruct (by_default p s). }
  destruct ((pact + t <? 0) || (YYLAST <? pact + t)) eqn:Er.
  { by rewrite (proj2 (Z.eqb_neq (-1) t)) by lia. }
  unfold YYLAST in Er. destruct (nthZ_is_Some yycheck (pact + t)) as [c Hc].
  { rewrite length_yycheck. lia. }
  rewrite Hc. destruct (Z.eqb_spec c t) as [->|]; [|exact Hd]. cbn [negb]. unfold by_action.
  destruct (nthZ_is_Some yytable (pact + t)) as [a Ha].
  { rewrite length_yytable. lia. }
  rewrite Ha. unfold state_ok in Hs. rewrite Hp in Hs. destruct (nthZ yydefact s) as [d|]; [|done].
  apply andb_prop in Hs as [_ Hs]. rewrite (proj2 (Z.eqb_neq _ _) Hn) in Hs. cbn [orb] in Hs.
  pose proof (forallb_elem _ _ _ Hs (elem_of_actions _ _ _ Hc Ha)) as Hact. unfold action_ok in Hact.
  destruct (a <=? 0).
  - destruct ((a =? 0) || (a =? YYTABLE_NINF)); [done|]. by split.
  - destruct (a =? YYFINAL); [done|]. by split.
Qed.

Lemma move_spec p s st :
  ps_states p = s :: st -> state_ok reduce shift s = true ->
  match move_of r p with
  | Wrong _ | Undefined | Done => True
  | Missing => False
  | Unread => ps_char p = YYEMPTY /\ no_token r (ps_input p)
  | Reduce p' n => reads r p p' /\ reduce s n = true
  | Shift p' q => (exists p1, look r p = inr p1 /\ p' = clamped p1) /\
      exists t, token_of (ps_char p') = Some t /\ shift s t q = true
  end.
Proof using Type.
  intros Hst Hs. unfold move_of. rewrite Hst. cbn [head].
  destruct (nthZ yypact s) as [pact|] eqn:Ep; [|unfold state_ok in Hs; by rewrite Ep in Hs].
  destruct (Z.eqb_spec pact YYPACT_NINF) as [|Hn].
  { pose proof (by_default_spec p s Hs) as Hd. destruct (by_default p s); try done.
    destruct Hd as [-> Hd]. split; [by left|done]. }
  destruct (look r p) as [m|p1] eqn:El.
  { unfold look, no_token in *. destruct (Z.eqb_spec (ps_char p) YYEMPTY); [|done].
    by destruct (lex r (ps_input p)) as [[] rest]; simplify_eq. }
  destruct (token_of_Some (ps_char p1)) as [t Et]. rewrite Et. fold (clamped p1).
  pose proof (at_token_spec (clamped p1) s pact t Ep Hn (token_of_nonneg _ _ Et) Hs) as Ha.
  assert (Hr : reads r p (clamped p1)) by (right; by exists p1).
  destruct (at_token (clamped p1) s pact t); cbn [fits_move] in Ha; try done.
  - destruct Ha as [-> Ha]. done.
  - destruct Ha as [-> Ha]. split; [by exists p1|]. exists t. split; [|done]. by rewrite token_of_clamped.
Qed.
End Moves.

(** ** The measure *)

Section Measure.
Context (r : resolver) (netmask snaplen : Z) (rfile : bool).
Abbreviation yyreduce := (yyreduce r netmask snaplen rfile).
Abbreviation yystep := (yystep r netmask snaplen rfile).

Lemma bind_cong {A B} (g : gen A) (k k' : A -> gen B) s :
  (forall a s, k a s = k' a s) -> bind g k s = bind g k' s.
Proof using Type. intros Hk. unfold bind. by destruct (g s) as [e|[a s1]]. Qed.

(** A reduction that the automaton allows is the two actions, and a push. *)
Definition reduce_root (vals : list yystype) (len : nat) (n : Z) (root : option nat) : gen (option nat) :=
  if n =? 2 then b <- as_b (sv vals len 2) ;; root <- finish_parse snaplen b ;; ret (Some root)
  else ret root.
Lemma yyreduce_eq p n s st len base st' q : ps_states p = s :: st -> reduces s st n len base st' q ->
  forall g, yyreduce p n g =
    (root <- reduce_root (ps_vals p) len n (ps_root p) ;;
     v <- yyaction r netmask rfile (ps_vals p) len n ;;
     push (Parser (base :: st') (drop len (ps_vals p)) (ps_char p) (ps_lval p) (ps_input p) root) q v) g.
Proof using Type.
  intros Hst [(z & Hz & Hl) Hd Hdr Hg _ _ _] g. unfold Parser.yyreduce, at_tab. rewrite bind_defined, Hz, Hl.
  cbv zeta. fold (reduce_root (ps_vals p) len n (ps_root p)).
  apply bind_cong. intros root g1. apply bind_cong. intros v g2. rewrite Hst, Hdr. cbn [head]. rewrite bind_defined.
  unfold goto in Hg. rewrite bind_defined. destruct (nthZ yyr1 n) as [lhs|]; [|discriminate Hg].
  cbn [mbind option_bind] in Hg. rewrite bind_defined.
  destruct (nthZ yypgoto (lhs - YYNTOKENS)) as [b|]; [|discriminate Hg]. cbn [mbind option_bind] in Hg.
  destruct (nthZ yydefgoto (lhs - YYNTOKENS)) as [o|]; [|discriminate Hg]. cbn [mbind option_bind] in Hg.
  destruct ((0 <=? b + base) && (b + base <=? YYLAST)).
  - destruct (nthZ yycheck (b + base)) as [c|]; [|discriminate Hg]. cbn [mbind option_bind] in Hg.
    unfold bind. cbn [defined ret]. destruct (c =? base); [rewrite Hg|injection Hg as ->]; reflexivity.
  - injection Hg as ->. reflexivity.
Qed.

Lemma push_Continue p q v g p' g' : push p q v g = inr (Continue p', g') ->
  g' = g /\ p' = Parser (q :: ps_states p) (v :: ps_vals p) (ps_char p) (ps_lval p) (ps_input p) (ps_root p).
Proof using Type. unfold push. destruct (_ <=? _); [done|]. by intros [= <- <-]. Qed.

Definition measure (p : parser) : Z :=
  potential (ps_states p) + 4 * Z.of_nat (String.length (ps_input p)) + (if 0 <? ps_char p then 4 else 0).

(** The parser is in a state of the automaton. *)
Record running (p : parser) : Prop := {
  rn_stack : stack (ps_states p);
  rn_input : no_nul (ps_input p) = true }.

Lemma running_state p : running p -> exists s st, ps_states p = s :: st /\ 0 <= s < 277.
Proof using Type.
  intros [Hs _]. destruct (ps_states p) as [|s st] eqn:E; [inversion Hs|]. exists s, st.
  split; [done|]. by eapply stack_state.
Qed.

Lemma reads_measure p p' : running p -> reads r p p' ->
  running p' /\ ps_states p' = ps_states p /\ ps_vals p' = ps_vals p /\ ps_root p' = ps_root p /\
  measure p' <= measure p.
Proof using Type.
  intros Hr [->|(p1 & Hl & ->)]; [split_and!; done || lia|].
  assert (Hc : forall c, (if 0 <? (if c <=? YYEOF then YYEOF else c) then 4 else 0) = if 0 <? c then 4 else 0).
  { intros c. unfold YYEOF. destruct (Z.leb_spec c 0), (Z.ltb_spec 0 c); try lia. done. }
  unfold look in Hl. destruct (Z.eqb_spec (ps_char p) YYEMPTY) as [He|].
  - destruct Hr as [Hs Hi]. pose proof (lex_ok r _ Hi) as Hlex. destruct (lex r (ps_input p)) as [[t v| |msg| |] rest];
      try discriminate Hl. destruct Hlex as (_ & Hn & Hle & Hlt). injection Hl as <-. unfold measure, clamped, with_char.
    cbn [ps_states ps_vals ps_root ps_char ps_input]. rewrite Hc, He. split_and!; try done.
    destruct (Z.ltb_spec 0 t) as [Ht|Ht]; [specialize (Hlt Ht)|]; cbn; lia.
  - injection Hl as <-. unfold measure, clamped, with_char. cbn [ps_states ps_vals ps_root ps_char ps_input].
    rewrite Hc. split_and!; try done. by destruct Hr.
Qed.

Lemma yystep_measure p g p' g' : running p -> yystep p g = inr (Continue p', g') ->
  running p' /\ measure p' + 1 <= measure p.
Proof using Type.
  intros Hr. destruct (running_state p Hr) as (s & st & Hst & Hs). rewrite yystep_move.
  pose proof (move_spec r reduce_ok shift_ok p s st Hst (state_of s Hs)) as Hm.
  destruct (move_of r p) as [msg| | | |p1 n|p1 q|]; try done.
  - destruct Hm as [Hp Hok]. destruct (reads_measure p p1 Hr Hp) as (Hr1 & Hst1 & _ & _ & Hm1).
    rewrite Hst in Hst1. destruct (reduce_spec s st n) as (len & base & st' & q & Hred); [|done|].
    { rewrite <- Hst1. apply Hr1. }
    cbn [run]. rewrite (yyreduce_eq _ _ _ _ _ _ _ _ Hst1 Hred). unfold bind at 1.
    destruct (reduce_root _ _ _ _ g) as [e|[root g1]]; [done|]. unfold bind.
    destruct (yyaction _ _ _ _ _ _ g1) as [e|[v g2]]; [done|].
    intros [_ ->]%push_Continue. pose proof (rd_less _ _ _ _ _ _ _ Hred) as Hless. split.
    + split; [apply Hred|apply Hr1].
    + unfold measure in *. cbn [ps_states ps_input ps_char] in *. rewrite Hst1 in Hm1. rewrite Hst in *. lia.
  - destruct Hm as (Hp & t & Ht & Hok). destruct (reads_measure p p1 Hr (or_intror Hp)) as (Hr1 & Hst1 & _ & _ & Hm1).
    rewrite Hst in Hst1. cbn [run]. intros [_ ->]%push_Continue. unfold shift_ok in Hok.
    apply andb_prop in Hok as [[[[Ht0 _]%andb_prop Hq]%andb_prop Hb%mem_iff]%andb_prop Hw].
    unfold is_state in Hq. unfold shifted, with_char, measure in *. cbn [ps_states ps_input ps_char] in *.
    rewrite Hst1 in *. split.
    + split; [|apply Hr1]. cbn. constructor; [|done|lia]. rewrite <- Hst1. apply Hr1.
    + rewrite potential_push, Hst in *. unfold token_of in Ht. destruct (Z.leb_spec (ps_char p1) YYEOF) as [Hle|Hgt].
      * injection Ht as <-. done.
      * unfold YYEOF, YYEMPTY in *. rewrite (proj2 (Z.ltb_lt 0 (ps_char p1))) in Hm1 by lia.
        rewrite (proj2 (Z.eqb_neq _ _)) by lia. cbn [Z.ltb Z.compare]. lia.
Qed.

Lemma measure_least p : running p -> -4 <= measure p.
Proof using Type.
  intros Hr. destruct (running_state p Hr) as (s & st & Hst & Hs). unfold measure.
  pose proof (least_of s Hs). pose proof (potential_least s st ltac:(rewrite <- Hst; apply Hr)).
  rewrite Hst. destruct (0 <? ps_char p); lia.
Qed.

(** The scanner comes to an end: a turn always has a token if it needs one. *)
Lemma yystep_token p g g' : running p -> yystep p g <> inr (NoToken, g').
Proof using Type.
  intros Hr. destruct (running_state p Hr) as (s & st & Hst & Hs). rewrite yystep_move.
  pose proof (move_spec r reduce_ok shift_ok p s st Hst (state_of s Hs)) as Hm.
  destruct (move_of r p) as [msg| | | |p1 n|p1 q|]; try done.
  - destruct Hm as [_ Hn]. pose proof (lex_ok r _ (rn_input _ Hr)) as Hlex. unfold no_token in Hn.
    by destruct (lex r (ps_input p)) as [[] ?].
  - destruct Hm as [Hp Hok]. destruct (reads_measure p p1 Hr Hp) as (Hr1 & Hst1 & _).
    rewrite Hst in Hst1. destruct (reduce_spec s st n) as (len & base & st' & q & Hred); [|done|].
    { rewrite <- Hst1. apply Hr1. }
    cbn [run]. rewrite (yyreduce_eq _ _ _ _ _ _ _ _ Hst1 Hred). unfold bind at 1.
    destruct (reduce_root _ _ _ _ g) as [e|[root g1]]; [done|]. unfold bind.
    destruct (yyaction _ _ _ _ _ _ g1) as [e|[v g2]]; [done|]. unfold push. by destruct (_ <=? _).
  - cbn [run]. unfold push. by destruct (_ <=? _).
Qed.

Lemma yyparse_loop_ends fuel p g : running p -> measure p + 4 < Z.of_nat fuel ->
  yyparse_loop r netmask snaplen rfile fuel p g <> None.
Proof using Type.
  revert p g. induction fuel as [|fuel IH]; intros p g Hr Hf.
  { pose proof (measure_least p Hr). lia. }
  cbn [yyparse_loop]. destruct (yystep p g) as [e|[[|p'|] g']] eqn:E; [done|done| |by apply yystep_token in E].
  destruct (yystep_measure _ _ _ _ Hr E) as [Hr' Hm]. apply IH; [done|lia].
Qed.

Lemma pcap_parse_ends input g : no_nul input = true -> pcap_parse r netmask snaplen rfile input g <> None.
Proof using Type.
  intros Hz. apply yyparse_loop_ends; [by split; [constructor|]|]. unfold measure, parse_fuel, parser0.
  cbn [ps_states ps_input ps_char potential]. unfold YYEMPTY. cbn [Z.ltb Z.compare]. lia.
Qed.
End Measure.
