(* ===== verification/CompileSpec.v ===== *)
(** [pcap_compile]: whatever the text of a filter, the scanner, the parser and
    the compiler end, and a program that it returns without the optimizer is one
    that the checker accepts and the filter machine runs to a verdict. *)
From S2P Require Import Prelude CString CFile PcapInt Pcap Bpf BpfFilter BpfValidate Datalink GenConst Gencode GenLink.
From S2P Require Import GenProto GenArth Names GenOffsets ScannerTab GrammarTab Scanner Parser Icode Compile.
From S2P Require Import GencodeSpec GenTriple IcodeSpec IcodeCorrect GenStraight GenShape GenFinish.
From S2P Require Import AutomatonTab Automaton ActionSpec ScannerSpec ParserSpec.

#[local] Open Scope Z_scope.
#[local] Open Scope c_scope.
#[local] Open Scope gen_scope.

(** ** The types of tokens *)

(** The tokens that the parser reads from a text, up to the end or an error. *)
Fixpoint tokens (r : resolver) (fuel : nat) (input : string) : list Z :=
  match fuel with
  | O => []
  | S fuel =>
      match lex r input with
      | (Token t _, rest) => t :: (if t <=? YYEOF then [] else tokens r fuel rest)
      | _ => []
      end
  end.
Definition no_protochain (r : resolver) (input : string) : Prop :=
  PROTOCHAIN ∉ tokens r (S (String.length input)) input.

Lemma tokens_enough r fuel fuel' input : no_nul input = true ->
  (String.length input < fuel)%nat -> (String.length input < fuel')%nat -> tokens r fuel input = tokens r fuel' input.
Proof.
  revert fuel' input. induction fuel as [|fuel IH]; intros [|fuel'] input Hz Hf Hf'; try lia. cbn [tokens].
  pose proof (lex_ok r input Hz) as Hl. destruct (lex r input) as [[t v| |msg| |] rest]; try done.
  destruct Hl as (_ & Hz' & _ & Hlt). f_equal. destruct (Z.leb_spec t YYEOF) as [|Ht]; [done|].
  specialize (Hlt ltac:(unfold YYEOF in Ht; lia)). apply IH; [done|lia|lia].
Qed.

Lemma tokens_more r fuel fuel' input t : (fuel <= fuel')%nat -> t ∈ tokens r fuel input -> t ∈ tokens r fuel' input.
Proof.
  revert fuel' input. induction fuel as [|fuel IH]; intros [|fuel'] input Hf; cbn [tokens]; try (lia || (by intros ?%elem_of_nil)).
  destruct (lex r input) as [[u v| |msg| |] rest]; try done. rewrite !elem_of_cons. intros [->|Hin]; [by left|right].
  destruct (u <=? YYEOF); [done|]. apply IH; [lia|done].
Qed.

Lemma token_type t v lval : token_value t v -> t <> PROTOCHAIN -> has_ty (token_ty t) (default lval v).
Proof.
  unfold token_ty. intros Hv Hp. destruct (Z.eqb_spec t NUM) as [->|Hnum].
  { destruct v as [[]|]; cbn in Hv; try done; try (by vm_compute in Hv); try (by exists i).
    all: set_unfold in Hv; unfold NUM, ID, HID, HID6, EID, AID in Hv; exfalso; naive_solver lia. }
  destruct (one_of t [ID; HID; HID6]) eqn:E1.
  { destruct v as [[]|]; cbn in Hv; try done; [|by exists s|].
    all: apply one_of_iff in E1; rewrite <- list_elem_of_In in E1; set_unfold in Hv; set_unfold in E1;
      unfold NUM, ID, HID, HID6, EID, AID in *; exfalso; naive_solver lia. }
  destruct (one_of t [EID; AID]) eqn:E2.
  { destruct v as [[]|]; cbn in Hv; try done; [by exists e; split; [|apply Hv]| |].
    all: apply one_of_iff in E2; rewrite <- list_elem_of_In in E2; set_unfold in Hv; set_unfold in E2;
      unfold NUM, ID, HID, HID6, EID, AID in *; exfalso; naive_solver lia. }
  by rewrite (proj2 (Z.eqb_neq _ _) Hp).
Qed.

Lemma translate_at c l i t : translate_ok c l = true -> nthZ l i = Some t -> subty (token_ty (c + i)) (symbol_ty t) = true.
Proof.
  revert c i. induction l as [|x l IH]; intros c i Hl Hi; [by apply nthZ_elem_of, elem_of_nil in Hi|].
  cbn [translate_ok] in Hl. apply andb_prop in Hl as [[Hs _]%andb_prop Hl].
  pose proof (nthZ_Some_lt _ _ _ Hi) as Hr. unfold nthZ in Hi. destruct (Z.ltb_spec i 0); [done|].
  destruct (Z.to_nat i) as [|k] eqn:E.
  - injection Hi as ->. by replace (c + i) with c by lia.
  - replace (c + i) with (c + 1 + (i - 1)) by lia. apply IH; [done|]. unfold nthZ.
    destruct (Z.ltb_spec (i - 1) 0); [lia|]. by replace (Z.to_nat (i - 1)) with k by lia.
Qed.
Lemma translate_tables : translate_ok 0 yytranslate = true.
Proof. vm_compute. reflexivity. Qed.

Lemma token_symbol c t : token_of c = Some t -> below_ty (token_ty c) (symbol_ty t).
Proof.
  unfold token_of. destruct (c <=? YYEOF); [intros [= <-]; apply below_any|].
  destruct (c <=? YYMAXUTOK); [|intros [= <-]; apply below_any].
  intros Ht. apply subty_below. by apply (translate_at 0 yytranslate).
Qed.
Lemma symbol_owns t v : owns (symbol_ty t) v = [].
Proof.
  unfold symbol_ty. destruct (t =? 37); [done|]. destruct (one_of t [59; 61; 62]); [done|].
  destruct (one_of t [60; 63]); [done|]. by destruct (t =? 14).
Qed.

(** ** Values on the stack *)

Lemma typed_states_ok :
  forallb (state_ok typed_reduce typed_shift) (List.filter has_value states) = true.
Proof. vm_compute. reflexivity. Qed.
Lemma typed_state s : 0 <= s < 277 -> has_value s = true -> state_ok typed_reduce typed_shift s = true.
Proof.
  intros Hs Hv. apply (forallb_elem _ _ _ typed_states_ok). apply list_elem_of_In, filter_In. split; [|done].
  by apply list_elem_of_In, elem_of_states.
Qed.
Lemma stack_zero st : stack (0 :: st) -> st = [].
Proof. inversion 1 as [|q p st' _ Hb _]; [done|]. by apply elem_of_nil in Hb. Qed.
Lemma stack_one st : stack (1 :: st) -> st = [0].
Proof.
  inversion 1 as [|q p st' Hst Hb _]; subst. change (below 1) with [0] in Hb.
  apply list_elem_of_singleton in Hb as ->. by apply stack_zero in Hst as ->.
Qed.
Lemma stack_single q : stack [q] -> q = 0.
Proof. by inversion 1. Qed.
Lemma kinds_under_zero : kinds (under [0]) = Tnever.
Proof. vm_compute. reflexivity. Qed.
Lemma finished_state_ok : state_ok (fun _ _ => false) (fun _ _ _ => false) 1 = true.
Proof. vm_compute. reflexivity. Qed.
#[local] Opaque yycheck yytable yypact yydefact yytranslate yyr1 yyr2 yypgoto yydefgoto kind below.

(** The values of a stack have the types of its states. *)
Definition valued_by (st : list Z) (vals : list yystype) : Prop := Forall2 (fun s v => has_ty (kind s) v) st vals.
Definition stack_owns (st : list Z) (vals : list yystype) : list owned := owned_by (map kind st) vals.

Lemma has_ty_value s v : has_ty (kind s) v -> has_value s = true.
Proof. unfold has_value. by destruct (kind s). Qed.
Lemma valued_states st vals : valued_by st vals -> Forall (fun s => has_value s = true) st.
Proof. induction 1; constructor; [by eapply has_ty_value|done]. Qed.

(** By levels instead of states. *)
Lemma levels_below (st : list Z) ls vals :
  Forall2 (fun x l => x ∈ l) st ls -> valued_by st vals ->
  Forall2 has_ty (map kinds ls) vals /\ owned_by (map kinds ls) vals ⊆+ stack_owns st vals.
Proof.
  intros Hl. revert vals. induction Hl as [|s l st ls Hs _ IH]; intros vals Hv; inversion Hv; subst; [by split|].
  destruct (IH _ ltac:(eassumption)) as [IH1 IH2]. cbn [map].
  destruct (join_all_below (kind s) (map kind l) ltac:(by apply list_elem_of_fmap_2) y ltac:(done)) as [Ht Ho].
  split; [by constructor|]. unfold stack_owns. cbn [map owned_by]. by apply submseteq_app.
Qed.

Lemma stack_owns_app st1 st2 v1 v2 : length st1 = length v1 ->
  stack_owns (st1 ++ st2) (v1 ++ v2) = stack_owns st1 v1 ++ stack_owns st2 v2.
Proof.
  unfold stack_owns. revert v1. induction st1 as [|s st1 IH]; intros [|v v1] Hl; try discriminate Hl; [done|].
  cbn. rewrite IH by (injection Hl; done). by rewrite (assoc_L (++)).
Qed.


(** ** Reductions *)

Section Compile.
Context (r : resolver) (netmask snaplen : Z) (rfile : bool).
Context (r_ether : forall name e, ether_hostton r name = Some e -> e <> []).

(** The symbols of a rule that the automaton reduces: their values and types. *)
Record symbols (s : Z) (st : list Z) (n : Z) (len : nat) (base : Z) (st' : list Z) (q : Z) (vals : list yystype)
    (ls : list (list Z)) (top : list yystype) (v0 : yystype) (rest : list yystype) : Prop := {
  sy_vals : vals = top ++ v0 :: rest;
  sy_drop : drop len vals = v0 :: rest;
  sy_length : length (map kinds ls) = len;
  sy_top : Forall2 has_ty (map kinds ls) top;
  sy_base : has_ty (kind base) v0;
  sy_below : kinds (under [base]) = Tnever \/ has_ty (kinds (under [base])) (default Vjunk (head rest));
  sy_rest : valued_by (base :: st') (v0 :: rest);
  sy_owns : owned_by (map kinds ls) top ++ stack_owns (base :: st') (v0 :: rest) ⊆+ stack_owns (s :: st) vals;
  sy_typed : typed_base n ls base = true }.

Lemma symbols_of s st n len base st' q vals :
  stack (s :: st) -> valued_by (s :: st) vals -> reduces s st n len base st' q -> typed_reduce s n = true ->
  exists ls top v0 rest, symbols s st n len base st' q vals ls top v0 rest.
Proof using Type.
  clear r_ether. intros Hst Hv [(z & Hz & Hlen) Hdeep Hdrop Hgoto Hstq _ _] Hty. unfold typed_reduce in Hty. rewrite Hz in Hty.
  rewrite Hlen in Hty. destruct (levels has_value len [s]) as [ls bases] eqn:El.
  assert (Hval : Forall (fun x => has_value x = true) st) by (apply valued_states in Hv; by inversion Hv).
  destruct (levels_elem _ _ _ _ _ s st El Hst Hval ltac:(set_solver) Hdeep) as (Hf & b & st2 & Hd & _ & Hb).
  rewrite Hdrop in Hd. injection Hd as <- <-.
  pose proof (Forall2_take _ _ _ len Hv) as Htk. pose proof (Forall2_drop _ _ _ len Hv) as Hdr. rewrite Hdrop in Hdr.
  destruct (drop len vals) as [|v0 rest] eqn:Ed; [inversion Hdr|].
  destruct (levels_below _ _ _ Hf Htk) as [Ht Ho].
  exists ls, (take len vals), v0, rest. split.
  - rewrite <- Ed. symmetry. apply take_drop.
  - done.
  - rewrite length_map. apply Forall2_length in Hf. rewrite length_take in Hf. simpl in Hf. lia.
  - done.
  - by inversion Hdr.
  - inversion Hstq as [|? ? ? Hst' _ _]; subst. inversion Hdr as [|? ? ? ? _ Hr]; subst.
    inversion Hst' as [|? p st2 _ Hp _]; subst; [left; apply kinds_under_zero|]. right.
    inversion Hr as [|? v ? rest' Hpv]; subst. cbn [head default].
    apply (join_all_below (kind p) (map kind (under [base])) ltac:(apply list_elem_of_fmap_2;
      by apply (elem_of_under [base] base); [constructor|]) v Hpv).
  - done.
  - assert (E1 : vals = take len vals ++ v0 :: rest) by (rewrite <- Ed; symmetry; apply take_drop).
    assert (E2 : s :: st = take len (s :: st) ++ base :: st') by (rewrite <- Hdrop; symmetry; apply take_drop).
    rewrite E2. replace (stack_owns _ vals) with (stack_owns (take len (s :: st) ++ base :: st') (take len vals ++ v0 :: rest))
      by (by rewrite <- E1). rewrite stack_owns_app; [by apply submseteq_skips_r|]. by apply Forall2_length in Htk.
  - by apply (forallb_elem _ _ _ Hty).
Qed.

Lemma reduce_action s st n len base st' q vals g :
  stack (s :: st) -> valued_by (s :: st) vals -> reduces s st n len base st' q -> typed_reduce s n = true ->
  no_wlan (g_off g) -> holds g (stack_owns (s :: st) vals) ->
  valued_by (base :: st') (drop len vals) /\
  match yyaction r netmask rfile vals len n g with
  | inl e => e <> G_graph
  | inr (v, g') =>
      no_wlan (g_off g') /\ has_ty (kind q) v /\ holds g' (owns (kind q) v ++ stack_owns (base :: st') (drop len vals))
  end.
Proof using r_ether.
  intros Hst Hv Hred Hty Hw Hh. destruct (symbols_of _ _ _ _ _ _ _ _ Hst Hv Hred Hty) as (ls & top & v0 & rest & Hs).
  pose proof Hs as [E Hd Hlen Htop Hbase Hbelow Hrest Ho Hok]. rewrite Hd. split; [done|].
  unfold typed_base in Hok. rewrite (rd_goto _ _ _ _ _ _ _ Hred) in Hok.
  destruct (rule_ty _ _ _ _ n) as [t|] eqn:Et; [|done]. apply andb_prop in Hok as [Hsub _].
  rewrite length_map in Hlen. rewrite Hlen in Et.
  assert (Hz : nthZ yyr2 n = Some (Z.of_nat len)).
  { destruct (rd_len _ _ _ _ _ _ _ Hred) as (z & Hz & <-). rewrite Hz. f_equal.
    assert (Hnn : forallb (fun x => 0 <=? x) yyr2 = true) by (vm_compute; reflexivity).
    pose proof (nthZ_forallb _ _ _ _ Hnn Hz) as Hp. cbn beta in Hp. lia. }
  assert (Hlen' : length (map kinds ls) = len) by by rewrite length_map.
  pose proof (rule_typed r netmask rfile r_ether no_wlan no_wlan_stable (map kinds ls) top (kind base) v0
    (kinds (under [base])) rest Htop Hbase Hbelow len Hlen' n t Et Hz (stack_owns (base :: st') (v0 :: rest)) g Hw
    (holds_drop _ _ _ Ho Hh)) as Ht.
  rewrite <- E in Ht. destruct (yyaction _ _ _ _ _ _ _) as [e|[v g']]; [exact Ht|].
  destruct Ht as (Hw' & l' & (Hvt & ->) & Hh'). destruct (subty_below _ _ Hsub v Hvt) as [Hv' Ho'].
  split_and!; try done. eapply holds_drop; [|exact Hh']. by apply submseteq_skips_r.
Qed.

(** The root of the graph of a filter that has been parsed. *)
Definition root_ok (root : option nat) (g : gst) : Prop :=
  match root with
  | Some b =>
      exists e t f, straight e /\ graph (g_heap g) b e t f /\
        ret_block (g_heap g) t (i32 snaplen) /\ ret_block (g_heap g) f 0
  | None => True
  end.

Lemma reduce_finish s st len base st' q vals g :
  stack (s :: st) -> valued_by (s :: st) vals -> reduces s st 2 len base st' q -> typed_reduce s 2 = true ->
  no_wlan (g_off g) -> holds g (stack_owns (s :: st) vals) ->
  exists root g', reduce_root snaplen vals len 2 None g = inr (Some root, g') /\ root_ok (Some root) g'.
Proof using Type.
  clear r_ether. intros Hst Hv Hred Hty Hw Hh.
  destruct (symbols_of _ _ _ _ _ _ _ _ Hst Hv Hred Hty) as (ls & top & v0 & rest & Hs).
  pose proof Hs as [E Hd Hlen Htop Hbase Hbelow Hrest Ho Hok].
  unfold typed_base in Hok. rewrite (rd_goto _ _ _ _ _ _ _ Hred) in Hok.
  destruct (rule_ty _ _ _ _ 2) as [t|]; [|done]. apply andb_prop in Hok as [_ Hb].
  cbn [Z.eqb Pos.eqb negb orb] in Hb. rewrite length_map in Hlen. rewrite Hlen in Hb.
  assert (Hl2 : len = 2%nat).
  { destruct (rd_len _ _ _ _ _ _ _ Hred) as (z & Hz & <-). by vm_compute in Hz; injection Hz as <-. }
  assert (Hlen' : length (map kinds ls) = len) by by rewrite length_map.
  pose proof (sv_ty (map kinds ls) top v0 rest Htop len Hlen' 2 ltac:(lia)) as Hsv.
  destruct (as_b_ty _ _ Hsv Hb) as (b & Eb & Ob). rewrite <- E in Eb, Ob.
  pose proof (owned_one (map kinds ls) top v0 rest Htop len Hlen' 2 ltac:(lia)) as Hone. rewrite <- E, Ob in Hone.
  assert (Hp : holds g [(b, straight)]).
  { eapply holds_drop; [|exact Hh]. etransitivity; [|exact Ho]. etransitivity; [exact Hone|].
    by apply submseteq_inserts_r. }
  destruct (finish_parse_ok snaplen b [] g Hw Hp) as (g' & root & e & t1 & f1 & Hf & He & Hg & H1 & H2).
  exists root, g'. unfold reduce_root. cbn [Z.eqb Pos.eqb]. rewrite Eb. split; [|by exists e, t1, f1].
  unfold bind, ret. by rewrite Hf.
Qed.

(** ** The parser's invariant *)

(** The look-ahead token has its type, and the ones after it are not
    [protochain]. *)
Record reading (p : parser) : Prop := {
  rg_token : ps_char p <> YYEMPTY -> exists t, token_of (ps_char p) = Some t /\ has_ty (symbol_ty t) (ps_lval p);
  rg_tokens : ps_char p <> YYEOF -> forall fuel, PROTOCHAIN ∉ tokens r fuel (ps_input p) }.

(** The parser in the midst of an expression, and after it. *)
Record live (p : parser) (g : gst) : Prop := {
  lv_running : running p;
  lv_reading : reading p;
  lv_values : valued_by (ps_states p) (ps_vals p);
  lv_root : ps_root p = None;
  lv_off : no_wlan (g_off g);
  lv_holds : holds g (stack_owns (ps_states p) (ps_vals p)) }.
Record finished (p : parser) (g : gst) : Prop := {
  fi_running : running p;
  fi_states : exists st, ps_states p = 1 :: st;
  fi_root : root_ok (ps_root p) g }.

Lemma reading_clamped p p1 : running p -> reading p -> look r p = inr p1 ->
  reading (clamped p1) /\ ps_states (clamped p1) = ps_states p /\ ps_vals (clamped p1) = ps_vals p /\
  ps_root (clamped p1) = ps_root p /\
  exists t, token_of (ps_char (clamped p1)) = Some t /\ has_ty (symbol_ty t) (ps_lval (clamped p1)).
Proof using Type.
  clear r_ether. intros [_ Hz] [Ht Hc] Hl. unfold look in Hl.
  assert (Hgoal : (exists t, token_of (ps_char p1) = Some t /\ has_ty (symbol_ty t) (ps_lval p1)) ->
    (0 < ps_char p1 -> forall fuel, PROTOCHAIN ∉ tokens r fuel (ps_input p1)) ->
    reading (clamped p1) /\
    exists t, token_of (ps_char (clamped p1)) = Some t /\ has_ty (symbol_ty t) (ps_lval (clamped p1))).
  { intros Htok Htoks. rewrite <- token_of_clamped in Htok. split; [|done]. split; [done|].
    unfold clamped, with_char. cbn [ps_char ps_input]. unfold YYEOF in *.
    destruct (Z.leb_spec (ps_char p1) 0); [done|]. intros _. by apply Htoks. }
  destruct (Z.eqb_spec (ps_char p) YYEMPTY) as [He|Hne].
  - pose proof (lex_ok r _ Hz) as Hlex. destruct (lex r (ps_input p)) as [[t v| |msg| |] rest] eqn:El; try discriminate Hl.
    injection Hl as <-. destruct Hlex as (Hv & _).
    assert (Htoks : forall fuel, PROTOCHAIN <> t /\ (0 < t -> PROTOCHAIN ∉ tokens r fuel rest)).
    { intros fuel. pose proof (Hc ltac:(by rewrite He) (S fuel)) as Hn. cbn [tokens] in Hn. rewrite El in Hn.
      apply not_elem_of_cons in Hn as [Hn1 Hn2]. split; [done|]. intros Hp.
      by rewrite (proj2 (Z.leb_gt t YYEOF) Hp) in Hn2. }
    destruct Hgoal as [H1 H2].
    + destruct (token_of_Some t) as [u Hu]. exists u. split; [done|]. cbn [ps_lval].
      apply (token_symbol t u Hu), token_type; [done|]. by destruct (Htoks 0%nat) as [? _]; congruence.
    + intros Hp fuel. by apply Htoks.
    + by split_and!.
  - injection Hl as <-. destruct Hgoal as [H1 H2]; [by apply Ht| |by split_and!].
    intros Hp. apply Hc. unfold YYEOF. lia.
Qed.

Lemma live_reads p p1 g : live p g -> reads r p p1 -> live p1 g.
Proof using Type.
  clear r_ether. intros Hlv [->|(p2 & Hl & ->)]; [done|]. destruct Hlv as [Hr Hrd Hv Hroot Hw Hh].
  destruct (reading_clamped _ _ Hr Hrd Hl) as (Hrd' & Es & Ev & Er & _).
  destruct (reads_measure r p (clamped p2) Hr (or_intror (ex_intro _ p2 (conj Hl eq_refl)))) as (Hr' & _).
  split; [done|done| | |done|]; by rewrite ?Es, ?Ev, ?Er.
Qed.

(** ** A turn keeps the invariant *)

Definition step_ok (p : parser) (res : gerror + (pstep * gst)) : Prop :=
  match res with
  | inl e => e <> G_graph
  | inr (Accept, g') => root_ok (ps_root p) g'
  | inr (Continue p', g') => live p' g' \/ finished p' g'
  | inr (NoToken, _) => False
  end.

Lemma push_ok p q v g p0 : (live (Parser (q :: ps_states p) (v :: ps_vals p) (ps_char p) (ps_lval p) (ps_input p) (ps_root p)) g \/
  finished (Parser (q :: ps_states p) (v :: ps_vals p) (ps_char p) (ps_lval p) (ps_input p) (ps_root p)) g) ->
  step_ok p0 (push p q v g).
Proof using Type. intros H. unfold push. by destruct (_ <=? _). Qed.

Lemma finished_step p g : finished p g -> step_ok p (yystep r netmask snaplen rfile p g).
Proof using Type.
  clear r_ether. intros [[Hst Hz] [st Es] Hroot]. rewrite yystep_move.
  pose proof (move_spec r _ _ p 1 st Es finished_state_ok) as Hm.
  destruct (move_of r p); cbn [run step_ok]; try done; try (by destruct Hm as (_ & _ & Hm)).
  - destruct Hm as [_ Hn]. pose proof (lex_ok r _ Hz) as Hl. unfold no_token in Hn.
    by destruct (lex r (ps_input p)) as [[] ?].
  - by destruct Hm.
  - by destruct Hm as (_ & ? & _ & ?).
Qed.

Lemma shift_live p1 q s st t g : live p1 g -> ps_states p1 = s :: st ->
  token_of (ps_char p1) = Some t -> has_ty (symbol_ty t) (ps_lval p1) ->
  shift_ok s t q = true -> typed_shift s t q = true ->
  live (Parser (q :: ps_states (shifted p1)) (ps_lval p1 :: ps_vals (shifted p1)) (ps_char (shifted p1))
          (ps_lval (shifted p1)) (ps_input (shifted p1)) (ps_root (shifted p1))) g.
Proof using Type.
  clear r_ether. intros [[Hst Hz] [_ Hc] Hv Hroot Hw Hh] Es Ht Hlv Hok Hty.
  unfold shift_ok in Hok. apply andb_prop in Hok as [[[[Ht0 _]%andb_prop Hq]%andb_prop Hb%mem_iff]%andb_prop _].
  unfold shifted, with_char. cbn [ps_states ps_vals ps_char ps_lval ps_input ps_root].
  assert (Hp0 : YYEOF < ps_char p1).
  { unfold token_of in Ht. destruct (Z.leb_spec (ps_char p1) YYEOF) as [|]; [|done]. by injection Ht as <-. }
  assert (Hne : ps_char p1 <> YYEOF) by lia. rewrite (proj2 (Z.eqb_neq _ _) Hne).
  destruct (subty_below _ _ Hty _ Hlv) as [Hq' Ho]. rewrite symbol_owns in Ho. apply submseteq_nil_r in Ho.
  split; try done.
  - split; [|done]. cbn [ps_states]. rewrite Es in *. constructor; [done|done|]. unfold is_state in Hq. lia.
  - split; [done|]. cbn [ps_char ps_input]. intros _. by apply Hc.
  - by constructor.
  - unfold stack_owns. cbn [ps_states ps_vals map owned_by]. by rewrite Ho.
Qed.

Lemma prog_action vals len n g : is_prog n = true -> yyaction r netmask rfile vals len n g = inr (yyval0 vals len, g).
Proof using Type. unfold is_prog. intros [->%Z.eqb_eq| ->%Z.eqb_eq]%orb_prop; reflexivity. Qed.

Lemma reduce_step p p0 g n s st : live p g -> ps_states p = s :: st ->
  reduce_ok s n = true -> typed_reduce s n = true ->
  step_ok p0 (yyreduce r netmask snaplen rfile p n g).
Proof using r_ether.
  intros [[Hst Hz] Hrd Hv Hroot Hw Hh] Es Hok Hty. rewrite Es in *.
  destruct (reduce_spec s st n Hst Hok) as (len & base & st' & q & Hred).
  rewrite (yyreduce_eq _ _ _ _ _ _ _ _ _ _ _ _ Es Hred). pose proof (rd_stack _ _ _ _ _ _ _ Hred) as Hstq.
  assert (Hrun : forall v root, running (Parser (q :: base :: st') (v :: drop len (ps_vals p)) (ps_char p) (ps_lval p)
    (ps_input p) root)) by (intros; by split).
  pose proof (rd_prog _ _ _ _ _ _ _ Hred) as Hprog. destruct (is_prog n) eqn:En.
  - assert (Hroot' : exists root g', reduce_root snaplen (ps_vals p) len n (ps_root p) g = inr (root, g') /\ root_ok root g').
    { unfold is_prog in En. apply orb_prop in En as [->%Z.eqb_eq| ->%Z.eqb_eq].
      - rewrite Hroot. destruct (reduce_finish _ _ _ _ _ _ _ _ Hst Hv Hred Hty Hw Hh) as (root & g' & E & H).
        by exists (Some root), g'.
      - exists (ps_root p), g. split; [done|]. by rewrite Hroot. }
    destruct Hroot' as (root & g' & E & H). rewrite (bind_eq _ _ _ _ _ E).
    rewrite (bind_eq _ _ _ _ _ (prog_action _ _ _ g' En)). apply push_ok. right.
    cbn [ps_states ps_vals ps_char ps_lval ps_input ps_root]. split; [apply Hrun| |done].
    cbn [ps_states]. apply Z.eqb_eq in Hprog as ->. by eexists.
  - assert (Er : reduce_root snaplen (ps_vals p) len n (ps_root p) g = inr (ps_root p, g)).
    { unfold reduce_root. unfold is_prog in En. by destruct (n =? 2). }
    rewrite (bind_eq _ _ _ _ _ Er). unfold bind.
    destruct (reduce_action _ _ _ _ _ _ _ _ g Hst Hv Hred Hty Hw Hh) as [Hv' Hact].
    destruct (yyaction r netmask rfile (ps_vals p) len n g) as [e|[v g']]; [exact Hact|].
    destruct Hact as (Hw' & Hq & Hh'). apply push_ok. left.
    cbn [ps_states ps_vals ps_char ps_lval ps_input ps_root].
    split; [apply Hrun|by destruct Hrd; split|by constructor|done..].
Qed.

Lemma live_step p g : live p g -> step_ok p (yystep r netmask snaplen rfile p g).
Proof using r_ether.
  intros Hl. pose proof Hl as [Hr Hrd Hv Hroot Hw Hh]. destruct (running_state p Hr) as (s & st & Es & Hs).
  assert (Hval : has_value s = true) by (rewrite Es in Hv; apply valued_states in Hv; by inversion Hv).
  rewrite yystep_move.
  pose proof (move_spec r _ _ p s st Es (state_of s Hs)) as Hm.
  pose proof (move_spec r _ _ p s st Es (typed_state s Hs Hval)) as Hm2.
  destruct (move_of r p) as [msg| | | |p1 n|p1 q|]; cbn [run]; try done.
  - destruct Hm as [_ Hn]. pose proof (lex_ok r _ (rn_input _ Hr)) as Hlex. unfold no_token in Hn.
    by destruct (lex r (ps_input p)) as [[] ?].
  - destruct Hm as [Hp Hok], Hm2 as [_ Hty]. apply (reduce_step p1 p g n s st); [by eapply live_reads| |done|done].
    destruct (reads_measure r p p1 Hr Hp) as (_ & -> & _). done.
  - destruct Hm as ((p2 & Hl2 & Ep) & t & Ht & Hok), Hm2 as (_ & t' & Ht' & Hty). rewrite Ht in Ht'. injection Ht' as <-.
    destruct (reading_clamped _ _ Hr Hrd Hl2) as (_ & Es1 & _ & _ & t' & Ht' & Hlv). rewrite <- Ep in *.
    rewrite Ht in Ht'. injection Ht' as <-. apply push_ok. left. rewrite Es in Es1.
    eapply shift_live; try done. eapply live_reads; [done|]. right. by exists p2.
  - cbn. by rewrite Hroot.
Qed.

(** ** [yyparse] *)

Definition parsed_ok (res : option (gerror + (option nat * gst))) : Prop :=
  match res with
  | None => True
  | Some (inl e) => e <> G_graph
  | Some (inr (root, g)) => root_ok root g
  end.

Lemma loop_live fuel p g : live p g \/ finished p g ->
  parsed_ok (yyparse_loop r netmask snaplen rfile fuel p g).
Proof using r_ether.
  revert p g. induction fuel as [|fuel IH]; intros p g Hi; [done|]. cbn [yyparse_loop].
  assert (Hs : step_ok p (yystep r netmask snaplen rfile p g))
    by (destruct Hi; [by apply live_step|by apply finished_step]).
  destruct (yystep r netmask snaplen rfile p g) as [e|[[|p'|] g']]; [done|done| |done]. by apply IH.
Qed.

Lemma pcap_parse_ok input g : no_nul input = true -> no_protochain r input -> no_wlan (g_off g) ->
  regs_ok (g_regs g) -> g_heap g = ∅ ->
  parsed_ok (pcap_parse r netmask snaplen rfile input g).
Proof using r_ether.
  intros Hz Hc Hw Hr Hh. apply loop_live. left. split; try done.
  - split; [constructor|done].
  - split; [done|]. intros _ fuel. cbn [ps_input parser0]. destruct (le_lt_dec fuel (String.length input)) as [Hle|Hlt].
    + intros Hin. apply Hc. apply (tokens_more r fuel); [lia|done].
    + rewrite (tokens_enough r fuel (S (String.length input))); [done|done|done|lia].
  - by repeat constructor.
  - split; [done|]. exists [], ∅. split; [constructor|]. split; [done|]. split; [set_solver|].
    intros c [b Hb]. by rewrite Hh, lookup_empty in Hb.
Qed.
End Compile.

(** ** [pcap_compile] *)

(** A program without an expression. *)
Lemma count_none fuel h m : count_stmts fuel h m None = Some (0, m).
Proof. by destruct fuel. Qed.
Lemma convert_none malloc_ok fuel s : convert_code_r malloc_ok fuel None s = Converted s.
Proof. by destruct fuel. Qed.

Lemma icode_ret malloc_ok h root v : (forall n, malloc_ok n = true) -> ret_block h root v ->
  icode_to_fcode malloc_ok (fcode_fuel h) h root = Fcode [Insn (BPF_RET .| BPF_K) 0 0 (u32 v)] 1.
Proof.
  intros Hm (blk & Hb & Hs & Ht & Hf). destruct blk as [ss c k jt jf sense hd lt lf off].
  unfold shape in Hs. cbn [b_stmts b_code b_k b_jt b_jf b_longjt b_longjf] in *. injection Hs as -> -> -> -> ->. subst lt lf.
  unfold fcode_fuel. cbn [icode_to_fcode]. cbn [count_stmts]. rewrite bool_decide_eq_false_2 by set_solver.
  rewrite Hb. cbn [b_stmts b_jt b_jf b_longjt b_longjf]. rewrite !count_none.
  change (u32 (slength [] + u32 (0 + 0) + 1 + 0 + 0)) with 1. rewrite Hm. cbn [negb]. cbn [convert_code_r c_marked].
  rewrite bool_decide_eq_false_2 by set_solver. cbn [c_heap]. rewrite Hb. cbn [b_jf b_jt]. rewrite !convert_none.
  reflexivity.
Qed.

(** C20: The scanner and the parser end on every text of a filter, whatever the
    state of the code generator.  Wherever it starts in a text the scanner
    comes to a token, leaving fewer characters unless the parser takes it for
    the end, to an error message, or to an undefined behaviour of the C code:
    it never loops or misses an entry of its tables.  And the parser's automaton accepts or fails within four turns for
    every character and six more, the fuel of the model; a scanner without a
    token would show as a run that does not end.  What is left is the chains
    of branches that the generator's routines walk: a chain without an end is
    a fault [G_graph] of the model, and [pcap_compile_valid] shows that there
    is none. *)
Theorem compile_ends r netmask snaplen rfile buf s :
  (match lex r (lex_init buf) with
   | (Token t _, rest) =>
       (String.length rest <= String.length (lex_init buf))%nat /\
       (t <= YYEOF \/ (String.length rest < String.length (lex_init buf))%nat)
   | (LexError _, _) | (LexUndef, _) => True
   | _ => False
   end) /\
  yyparse_loop r netmask snaplen rfile (4 * String.length (lex_init buf) + 6) (parser0 (lex_init buf)) s <> None /\
  compile_root r netmask snaplen rfile (lex_init buf) s <> None.
Proof.
  pose proof (pcap_parse_ends r netmask snaplen rfile _ s (lex_init_no_nul buf)) as He. split; [|split; [exact He|]].
  - pose proof (lex_ok r _ (lex_init_no_nul buf)) as Hl. destruct (lex r (lex_init buf)) as [[t v| |msg| |] rest]; try done.
    destruct Hl as (_ & _ & Hle & Hlt). split; [exact Hle|]. unfold YYEOF. destruct (Z.leb_spec t 0); [by left|right; auto].
  - unfold compile_root. by repeat case_match.
Qed.

(** What a compiled filter answers: the verdict of an expression, or the
    snapshot length for every packet. *)
Definition filters (snap : Z) (fp : program) : Prop :=
  (exists e, straight e /\ forall mem0 p wirelen buflen,
     bpf_filter (S (length fp)) mem0 (Some fp) p wirelen buflen =
     Some (verdict snap 0 (beval p wirelen buflen e (init_machine mem0)))) \/
  forall mem0 p wirelen buflen,
    bpf_filter (S (length fp)) mem0 (Some fp) p wirelen buflen = Some (Returned (u32 snap)).

Lemma init_linktype_ok lt swapped :
  match init_linktype lt swapped with
  | inl (G_error _) => True
  | inl _ => False
  | inr o => o_linktype o = lt
  end.
Proof.
  unfold init_linktype. set (o := layout0 lt swapped).
  assert (H1 : forall o', init_linktype_1 o = Some o' -> o_linktype o' = lt)
    by (unfold init_linktype_1; intros o'; cbv zeta; repeat case_match; intros [= <-]; reflexivity).
  assert (H2 : forall o', init_linktype_2 o = Some o' -> o_linktype o' = lt)
    by (unfold init_linktype_2; intros o'; cbv zeta; repeat case_match; intros [= <-]; reflexivity).
  destruct (init_linktype_1 o) as [o'|]; [by apply H1|]. destruct (init_linktype_2 o) as [o'|]; [by apply H2|done].
Qed.

(** The program that is a return alone. *)
Lemma ret_program v : prog_ok [Insn (BPF_RET .| BPF_K) 0 0 (u32 v)] /\
  bpf_validate [Insn (BPF_RET .| BPF_K) 0 0 (u32 v)] = true /\
  forall fuel mem0 p wirelen buflen,
    bpf_filter (S fuel) mem0 (Some [Insn (BPF_RET .| BPF_K) 0 0 (u32 v)]) p wirelen buflen = Some (Returned (u32 v)).
Proof.
  split; [|split; [reflexivity|]].
  - constructor; [|constructor]. change (BPF_RET .| BPF_K) with 6. split_and!; cbn [code jt jf k]; [unfold is_u; lia..|apply u32_ok].
  - reflexivity.
Qed.

Section Valid.
Context (malloc_ok : Z -> bool) (r : resolver) (mask : Z) (rfile : bool).
Context (malloc_all : forall n, malloc_ok n = true).
Context (r_ether : forall name e, ether_hostton r name = Some e -> e <> []).

Lemma compile_root_ends snaplen input s : no_nul input = true ->
  compile_root r mask snaplen rfile input s <> None.
Proof.
  clear. intros Hz. unfold compile_root. pose proof (pcap_parse_ends r mask snaplen rfile input s Hz) as He.
  by repeat case_match.
Qed.

(** The graph that a text compiles to. *)
Lemma compile_root_ok snaplen input o : no_nul input = true -> no_protochain r input -> no_wlan o ->
  match compile_root r mask snaplen rfile input (Gst ∅ 0 o regs0) with
  | None => False
  | Some (inl e) => e <> G_graph
  | Some (inr (root, s)) => root_ok snaplen (Some root) s \/ ret_block (g_heap s) root (i32 snaplen)
  end.
Proof using r_ether.
  intros Hz Hc Ho. pose proof (compile_root_ends snaplen input (Gst ∅ 0 o regs0) Hz) as He. unfold compile_root in *.
  pose proof (pcap_parse_ok r mask snaplen rfile r_ether input (Gst ∅ 0 o regs0) Hz Hc Ho) as Hp.
  specialize (Hp ltac:(by vm_compute) eq_refl).
  destruct (pcap_parse r mask snaplen rfile input (Gst ∅ 0 o regs0)) as [[e|[[root|] s]]|]; [done|by left| |done].
  rewrite retblk_eq. right. eexists. split; [apply lookup_insert_eq|done].
Qed.

(** The program of a graph that [compile_root] made. *)
Lemma graph_program snaplen root s :
  root_ok snaplen (Some root) s \/ ret_block (g_heap s) root (i32 snaplen) -> heap_size (g_heap s) < 2 ^ 31 ->
  exists fp, icode_to_fcode malloc_ok (fcode_fuel (g_heap s)) (g_heap s) root = Fcode fp (lenZ fp) /\
    prog_ok fp /\ bpf_validate fp = true /\ filters (i32 snaplen) fp.
Proof using malloc_all.
  clear r_ether. intros [(e & t & f & He & Hg & Ht & Hf)|Hret] Hs.
  - destruct (icode_to_fcode_ok malloc_ok (g_heap s) root e t f (i32 snaplen) 0 malloc_all Hg He Ht Hf (or_intror Hs))
      as (fp & E & Hok & Hv & Hr).
    exists fp. split_and!; try done. left. by exists e.
  - rewrite (icode_ret _ _ _ _ malloc_all Hret). destruct (ret_program (i32 snaplen)) as (Hok & Hv & Hr).
    refine (ex_intro _ _ (conj eq_refl (conj Hok (conj Hv (or_intror _))))). intros. apply Hr.
Qed.

(** C4: [pcap_compile] without the optimizer, on a link-layer type other than
    the 802.11 ones with radio headers, with memory available, for a text
    without the [protochain] keyword whose graph has fewer than [2^31] words:
    it ends with a program, a message, [abort()] or one of the undefined
    behaviours of the C code that the model marks, and it never follows a
    pointer to a block or a value that is not there nor takes a value of the
    parser for one of another type.  A program it returns is accepted by
    [bpf_validate] and decides an expression, with the snapshot length as its
    positive answer.  (With the optimizer a returned program need not be
    valid, see [optimizer_changes_filters].) *)
Theorem pcap_compile_valid turns p buf :
  is_wlan (linktype p) = false -> no_protochain r (lex_init (default ""%string buf)) ->
  (forall o root s, init_linktype (linktype p) (rfile && swapped (sf p)) = inr o ->
     compile_root r mask (pcap_snapshot p) rfile (lex_init (default ""%string buf)) (Gst ∅ 0 o regs0) = Some (inr (root, s)) ->
     heap_size (g_heap s) < 2 ^ 31) ->
  match pcap_compile turns malloc_ok r p rfile buf false mask with
  | Compiled fp len =>
      len = lenZ fp /\ prog_ok fp /\ bpf_validate fp = true /\ filters (i32 (pcap_snapshot p)) fp
  | CompileStuck => False
  | _ => True
  end.
Proof using malloc_all r_ether.
  intros Hw Hc Hs. unfold pcap_compile. destruct (activated p); [cbn [negb]|done].
  destruct (pcap_snapshot p =? 0); [done|]. cbv zeta.
  pose proof (init_linktype_ok (linktype p) (rfile && swapped (sf p))) as Hl.
  destruct (init_linktype (linktype p) (rfile && swapped (sf p))) as [[]|o]; try done.
  pose proof (compile_root_ok (pcap_snapshot p) (lex_init (default ""%string buf)) o (lex_init_no_nul _) Hc) as Hroot.
  specialize (Hroot ltac:(unfold no_wlan; by rewrite Hl)). specialize (Hs o).
  destruct (compile_root _ _ _ _ _ _) as [[[]|[root s]]|]; try (exact I || by destruct Hroot).
  destruct (graph_program _ _ _ Hroot (Hs root s eq_refl eq_refl)) as (fp & E & H). cbn [andb].
  unfold assemble. rewrite E. by split.
Qed.
End Valid.

(** A machine without name services. *)
Definition nameless : resolver :=
  Resolver (fun _ => None) (fun _ _ => None) (fun _ => None) (fun _ => None) (fun _ => None) (fun _ => false).

#[local] Transparent gmap_empty.
Lemma pcap_compile_valid_witness :
  exists fp, pcap_compile 0 (fun _ => true) nameless (pcap_open_dead DLT_EN10MB 65535) false
               (Some "port 4567 and udp"%string) false 0 = Compiled fp (lenZ fp) /\ bpf_validate fp = true.
Proof.
  pose proof (pcap_compile_valid (fun _ => true) nameless 0 false (fun _ => eq_refl)
    ltac:(intros ? ? [=]) 0%nat (pcap_open_dead DLT_EN10MB 65535) (Some "port 4567 and udp"%string) eq_refl) as H.
  assert (Hc : no_protochain nameless (lex_init "port 4567 and udp")).
  { apply (bool_decide_unpack _). vm_compute. exact I. }
  specialize (H Hc). assert (Hs : forall o root s, init_linktype DLT_EN10MB false = inr o ->
     compile_root nameless 0 65535 false (lex_init "port 4567 and udp") (Gst ∅ 0 o regs0) = Some (inr (root, s)) ->
     heap_size (g_heap s) < 2 ^ 31).
  { intros o root s Ho Hr.
    assert (E : match init_linktype DLT_EN10MB false with
                | inr o => match compile_root nameless 0 65535 false (lex_init "port 4567 and udp") (Gst ∅ 0 o regs0) with
                           | Some (inr (_, s)) => heap_size (g_heap s) <? 2 ^ 31
                           | _ => true
                           end
                | _ => true
                end = true) by (vm_compute; reflexivity).
    rewrite Ho, Hr in E. by apply Z.ltb_lt. }
  specialize (H Hs). revert H.
  assert (E : match pcap_compile 0 (fun _ => true) nameless (pcap_open_dead DLT_EN10MB 65535) false
                      (Some "port 4567 and udp"%string) false 0 with Compiled _ _ => true | _ => false end = true)
    by (vm_compute; reflexivity).
  destruct (pcap_compile _ _ _ _ _ _ _ _) as [fp len| | | | |]; try discriminate E.
  intros (-> & _ & Hv & _). exists fp. split; [reflexivity|exact Hv].
Defined.
