(* ===== verification/StockWire.v ===== *)
(** [common/global.h] and [client/main.cpp]: the stock records, their encoding
    on the wire and the datagrams the client sends. *)
From S2P Require Import Prelude CFile.
From Stdlib Require Import SpecFloat.

#[local] Open Scope c_scope.

(** ** Constants of [global.h] *)

Definition TEST_PORT := 4567.
Definition STOCK_COUNT := 10000.
Definition GROUP_STOCK := 20.
Definition LOOP_COUNT := 100.
Definition SERVER_STOCK := 400.
Definition PRICE_LIST_SIZE := 4096.

(** [500*LOOP_COUNT/4] *)
Definition SERVER_STOCK_COUNT := 500 * LOOP_COUNT / 4.

(** ** [class stock] *)

Record stock := Stock {
  id_ : Z; open_price_ : Z; close_price_ : Z; max_price_ : Z; min_price_ : Z }.

(** [writeInt]: each [char] written is the low byte of the shifted value. *)
Definition byte_of (v : Z) : byte := byte.of_Z (u8 (i8 v)).
Definition writeInt (val : Z) : list byte :=
  [byte_of (val >> 24); byte_of (val >> 16); byte_of (val >> 8); byte_of val].

Definition encode (s : stock) : list byte :=
  writeInt (id_ s) ++ writeInt (open_price_ s) ++ writeInt (close_price_ s)
  ++ writeInt (max_price_ s) ++ writeInt (min_price_ s).

(** [readInt] at [off]: the bytes are promoted to [int] and shifted. *)
Definition byte_at (off : nat) (b : list byte) : Z :=
  match b !! off with Some x => byte.unsigned x | None => 0 end.
Definition readInt (off : nat) (b : list byte) : Z :=
  i32 ((byte_at off b << 24) .| (byte_at (off + 1) b << 16)
       .| (byte_at (off + 2) b << 8) .| byte_at (off + 3) b).

(** [decode]: it reads 20 bytes, and so needs them to be there. *)
Definition decode (msg : list byte) : option stock :=
  if (20 <=? length msg)%nat then
    Some (Stock (readInt 0 msg) (readInt 4 msg) (readInt 8 msg) (readInt 12 msg) (readInt 16 msg))
  else None.

(** Every field is an [int]. *)
Definition stock_ok (s : stock) : Prop :=
  is_i 32 (id_ s) /\ is_i 32 (open_price_ s) /\ is_i 32 (close_price_ s) /\
  is_i 32 (max_price_ s) /\ is_i 32 (min_price_ s).

(** ** The client *)

(** [double] arithmetic: binary64, rounding to nearest. *)
Definition dbl := spec_float.
Definition d_mul : dbl -> dbl -> dbl := SFmul 53 1024.
Definition d_div : dbl -> dbl -> dbl := SFdiv 53 1024.
Definition d_add : dbl -> dbl -> dbl := SFadd 53 1024.
Definition d_of_int (z : Z) : dbl := binary_normalize 53 1024 z 0 false.

(** [(int) x] truncates; the values converted here are in range. *)
Definition d_to_int (x : dbl) : Z :=
  match x with
  | S754_finite s m e =>
      let v := if 0 <=? e then Z.pos m << e else Z.pos m >> - e in
      if s then - v else v
  | _ => 0
  end.

Definition RAND_MAX := 2147483647.

(** The constants [100.0] and [0.1], and [RAND_MAX+1.0]. *)
Definition d_100 : dbl := d_of_int 100.
Definition d_0_1 : dbl := d_div (d_of_int 1) (d_of_int 10).
Definition rand_range : dbl := d_add (d_of_int RAND_MAX) (d_of_int 1).

(** [(int)(100.0*rand()/(RAND_MAX+1.0))] and [(int)(open*0.1*rand()/(RAND_MAX+1.0))],
    for the value [r] that [rand] returns. *)
Definition rand_100 (r : Z) : Z := d_to_int (d_div (d_mul d_100 (d_of_int r)) rand_range).
Definition rand_tenth (open r : Z) : Z :=
  d_to_int (d_div (d_mul (d_mul (d_of_int open) d_0_1) (d_of_int r)) rand_range).

(** [stockGenerate]: [id] is the counter [stock_id], and [r1] to [r4] what the
    four calls of [rand] return. *)
Definition stockGenerate (id r1 r2 r3 r4 : Z) : stock * Z :=
  let open := rand_100 r1 + 30 in
  let min := open - rand_tenth open r2 in
  let max := open + rand_tenth open r3 in
  let close := open - rand_tenth open r4 in
  let close := if close <? min then min else close in
  (Stock id open close max min, id + 1).

(** One datagram of [udpClient]: the loop number, then [GROUP_STOCK] stocks;
    [rand] is the sequence of values [rand] will return. *)
Definition rands := nat -> Z.

Fixpoint group (n : nat) (id : Z) (k : nat) (rand : rands) : list byte * Z * nat :=
  match n with
  | O => ([], id, k)
  | S n =>
      let '(s, id) := stockGenerate id (rand k) (rand (k + 1)%nat) (rand (k + 2)%nat)
                        (rand (k + 3)%nat) in
      let '(b, id, k) := group n id (k + 4)%nat rand in
      (encode s ++ b, id, k)
  end.

Definition loop_bytes (lc : Z) : list byte :=
  [byte_of (lc >> 24); byte_of (lc >> 16); byte_of (lc >> 8); byte_of lc].

Definition datagram (lc id : Z) (k : nat) (rand : rands) : list byte * Z * nat :=
  let '(b, id, k) := group (Z.to_nat GROUP_STOCK) id k rand in
  (loop_bytes lc ++ b, id, k).

(** The datagrams of one round of [udpClient], [STOCK_COUNT/GROUP_STOCK] of
    them, and of all its rounds; [stock_id] starts at 0 in each. *)
Fixpoint round (n : nat) (lc id : Z) (k : nat) (rand : rands) : list (list byte) * nat :=
  match n with
  | O => ([], k)
  | S n =>
      let '(d, id, k) := datagram lc id k rand in
      let '(ds, k) := round n lc id k rand in (d :: ds, k)
  end.

Fixpoint udpClient (loops : nat) (lc : Z) (k : nat) (rand : rands) : list (list byte) :=
  match loops with
  | O => []
  | S loops =>
      let '(ds, k) := round (Z.to_nat (STOCK_COUNT / GROUP_STOCK)) lc 0 k rand in
      ds ++ udpClient loops (lc + 1) k rand
  end.

(** ** Lemmas *)

Lemma unsigned_byte_of v : byte.unsigned (byte_of v) = v mod 256.
Proof.
  unfold byte_of. rewrite byte.unsigned_of_Z. unfold byte.wrap.
  rewrite uwrap_swrap by lia. unfold uwrap. change (2 ^ 8) with 256. by rewrite Z.mod_mod by lia.
Qed.

Lemma length_encode s : length (encode s) = 20%nat.
Proof. reflexivity. Qed.

(** Reading back the four bytes of a value gives it as an [int]. *)
Lemma read_four v :
  i32 (((v >> 24) mod 256 << 24) .| ((v >> 16) mod 256 << 16) .| ((v >> 8) mod 256 << 8) .| v mod 256)
  = i32 v.
Proof.
  rewrite !Z.shiftr_div_pow2, !Z.shiftl_mul_pow2 by lia.
  pose proof (Z.mod_pos_bound v 256). pose proof (Z.mod_pos_bound (v / 2 ^ 8) 256).
  pose proof (Z.mod_pos_bound (v / 2 ^ 16) 256). pose proof (Z.mod_pos_bound (v / 2 ^ 24) 256).
  rewrite (lor_high_low _ _ 24) by lia.
  replace ((v / 2 ^ 24) mod 256 * 2 ^ 24 + (v / 2 ^ 16) mod 256 * 2 ^ 16)
    with (((v / 2 ^ 24) mod 256 * 2 ^ 8 + (v / 2 ^ 16) mod 256) * 2 ^ 16) by lia.
  rewrite (lor_high_low _ _ 16) by lia.
  replace (((v / 2 ^ 24) mod 256 * 2 ^ 8 + (v / 2 ^ 16) mod 256) * 2 ^ 16 + (v / 2 ^ 8) mod 256 * 2 ^ 8)
    with (((v / 2 ^ 24) mod 256 * 2 ^ 16 + (v / 2 ^ 16) mod 256 * 2 ^ 8 + (v / 2 ^ 8) mod 256) * 2 ^ 8)
    by lia.
  rewrite (lor_high_low _ _ 8) by lia.
  unfold swrap. change (2 ^ 24) with 16777216. change (2 ^ 16) with 65536 in *.
  change (2 ^ 32) with 4294967296. change (2 ^ (32 - 1)) with 2147483648. change (2 ^ 8) with 256 in *.
  Z.div_mod_to_equations. lia.
Qed.

(** The record an [int]-sized message can hold of [s]. *)
Definition int_stock (s : stock) : stock :=
  Stock (i32 (id_ s)) (i32 (open_price_ s)) (i32 (close_price_ s)) (i32 (max_price_ s))
        (i32 (min_price_ s)).

Lemma int_stock_ok s : stock_ok s -> int_stock s = s.
Proof.
  intros (Hi & Ho & Hc & Hx & Hn). unfold int_stock. rewrite !swrap_id by (done || lia).
  by destruct s.
Qed.

Lemma stock_decode_encode s rest : decode (encode s ++ rest) = Some (int_stock s).
Proof.
  unfold decode.
  assert ((20 <=? length (encode s ++ rest))%nat = true) as ->
    by (apply Nat.leb_le; rewrite length_app, length_encode; lia).
  unfold readInt, byte_at. cbn [encode writeInt app lookup list_lookup Nat.add].
  by rewrite !unsigned_byte_of, !read_four.
Qed.

Lemma group_S n id k rand :
  group (S n) id k rand =
  let '(s, id) := stockGenerate id (rand k) (rand (k + 1)%nat) (rand (k + 2)%nat) (rand (k + 3)%nat) in
  let '(b, id, k) := group n id (k + 4)%nat rand in (encode s ++ b, id, k).
Proof. done. Qed.

(** The stocks of a datagram, the [j]-th with the identifier [id + j]. *)
Definition generated (id : Z) (k : nat) (rand : rands) (j : nat) : stock :=
  (stockGenerate (id + Z.of_nat j) (rand (k + 4 * j)%nat) (rand (k + 4 * j + 1)%nat)
     (rand (k + 4 * j + 2)%nat) (rand (k + 4 * j + 3)%nat)).1.

Lemma group_spec n id k rand :
  group n id k rand =
  (flat_map encode (map (generated id k rand) (seq 0 n)), id + Z.of_nat n, (k + 4 * n)%nat).
Proof.
  revert id k. induction n as [|n IH]; intros id k.
  - simpl. by rewrite Z.add_0_r, Nat.add_0_r.
  - rewrite group_S. unfold stockGenerate at 1. cbv zeta beta iota. rewrite IH.
    cbn [seq map flat_map]. f_equal; [f_equal; [f_equal|lia]|lia].
    + unfold generated. cbn [fst]. unfold stockGenerate. cbn [fst].
      rewrite Z.add_0_r. by rewrite Nat.mul_0_r, Nat.add_0_r.
    + rewrite <- seq_shift, map_map. f_equal. apply map_ext. intros j. unfold generated.
      replace (id + 1 + Z.of_nat j) with (id + Z.of_nat (S j)) by lia.
      by replace (k + 4 + 4 * j)%nat with (k + 4 * S j)%nat by lia.
Qed.

(** Operations on numbers that are not negative give numbers that are not
    negative; what is not finite does not matter here. *)
Definition d_nonneg (x : dbl) : Prop :=
  match x with S754_finite s _ _ => s = false | _ => True end.

Lemma round_aux_nonneg mx ex lx : d_nonneg (binary_round_aux 53 1024 false mx ex lx).
Proof.
  unfold binary_round_aux. destruct (shr_fexp 53 1024 mx ex lx) as [m e].
  destruct (shr_fexp 53 1024 _ _ loc_Exact) as [m' e'].
  destruct (shr_m m'); simpl; try done. by destruct (_ <=? _).
Qed.

Lemma of_int_nonneg z : 0 <= z -> d_nonneg (d_of_int z).
Proof.
  unfold d_of_int, binary_normalize, binary_round. destruct z as [|m|m]; [done| |lia].
  intros _. case_match. apply round_aux_nonneg.
Qed.

Lemma mul_nonneg x y : d_nonneg x -> d_nonneg y -> d_nonneg (d_mul x y).
Proof.
  unfold d_mul, SFmul. destruct x as [s|s| |s m e], y as [s'|s'| |s' m' e']; simpl; try done;
    intros; subst; try done. apply round_aux_nonneg.
Qed.

Lemma div_nonneg x y : d_nonneg x -> d_nonneg y -> d_nonneg (d_div x y).
Proof.
  unfold d_div, SFdiv. destruct x as [s|s| |s m e], y as [s'|s'| |s' m' e']; simpl; try done;
    intros; subst; try done.
  destruct (SFdiv_core_binary _ _ _ _ _ _) as [[mz ez] lz]. apply round_aux_nonneg.
Qed.

Lemma to_int_nonneg x : d_nonneg x -> 0 <= d_to_int x.
Proof.
  destruct x as [s|s| |s m e]; simpl; try lia. intros ->.
  destruct (Z.leb_spec 0 e); [apply Z.shiftl_nonneg; lia|apply Z.shiftr_nonneg; lia].
Qed.

Lemma rand_range_nonneg : d_nonneg rand_range.
Proof. vm_compute. done. Qed.

Lemma rand_100_nonneg r : 0 <= r -> 0 <= rand_100 r.
Proof.
  intros. apply to_int_nonneg, div_nonneg; [|apply rand_range_nonneg].
  apply mul_nonneg; [done|by apply of_int_nonneg].
Qed.

Lemma rand_tenth_nonneg open r : 0 <= open -> 0 <= r -> 0 <= rand_tenth open r.
Proof.
  intros. apply to_int_nonneg, div_nonneg; [|apply rand_range_nonneg].
  apply mul_nonneg; [|by apply of_int_nonneg]. apply mul_nonneg; [by apply of_int_nonneg|done].
Qed.

(** ** Properties *)

(** C39: A stock survives the wire: what [decode] reads from the bytes of
    [encode], whatever follows them, is the stock, every field an [int]. *)
Theorem stock_wire_roundtrip s rest :
  stock_ok s -> length (encode s) = 20%nat /\ decode (encode s ++ rest) = Some s.
Proof. intros Hs. by rewrite stock_decode_encode, int_stock_ok. Qed.

Lemma stock_wire_roundtrip_witness :
  decode (encode (Stock 399 (-1) 2147483647 (-2147483648) 256)) =
  Some (Stock 399 (-1) 2147483647 (-2147483648) 256).
Proof.
  pose proof (stock_wire_roundtrip (Stock 399 (-1) 2147483647 (-2147483648) 256) []) as H.
  rewrite app_nil_r in H. apply H. unfold stock_ok. zcompute.
Defined.

(** The prices the client generates are in order for all values of
    [rand]: the minimum is at most the closing price, which is at most the
    opening price, which is at most the maximum and at least 30. *)
Theorem stockGenerate_ordered id r1 r2 r3 r4 :
  0 <= r1 -> 0 <= r2 -> 0 <= r3 -> 0 <= r4 ->
  let '(s, id') := stockGenerate id r1 r2 r3 r4 in
  id_ s = id /\ id' = id + 1 /\
  min_price_ s <= close_price_ s <= open_price_ s /\ open_price_ s <= max_price_ s /\
  30 <= open_price_ s.
Proof.
  intros H1 H2 H3 H4. unfold stockGenerate. cbn [id_ min_price_ close_price_ open_price_ max_price_].
  pose proof (rand_100_nonneg r1 H1) as Ho. set (open := rand_100 r1 + 30).
  pose proof (rand_tenth_nonneg open r2 ltac:(lia) H2).
  pose proof (rand_tenth_nonneg open r3 ltac:(lia) H3).
  pose proof (rand_tenth_nonneg open r4 ltac:(lia) H4).
  split_and!; try done; try lia; destruct (Z.ltb_spec (open - rand_tenth open r4) (open - rand_tenth open r2)); lia.
Qed.

Lemma stockGenerate_ordered_witness :
  let '(s, _) := stockGenerate 7 2147483647 1000000000 5 2000000000 in
  s = Stock 7 129 123 129 123 /\ min_price_ s <= close_price_ s.
Proof.
  pose proof (stockGenerate_ordered 7 2147483647 1000000000 5 2000000000
                ltac:(lia) ltac:(lia) ltac:(lia) ltac:(lia)) as H.
  assert (Hs : stockGenerate 7 2147483647 1000000000 5 2000000000 = (Stock 7 129 123 129 123, 8))
    by (vm_compute; reflexivity).
  rewrite Hs in H |- *. split; [done|]. apply H.
Defined.

(** A datagram is 404 bytes: the loop number, big-endian, then 20 stocks
    with consecutive identifiers, which decode one by one at the offsets
    [4 + 20 j]. *)
Theorem datagram_decodes lc id k rand :
  is_i 32 lc -> 0 <= id -> id + 20 <= 2 ^ 31 ->
  let '(b, id', k') := datagram lc id k rand in
  length b = 404%nat /\ id' = id + 20 /\ k' = (k + 80)%nat /\ readInt 0 b = lc /\
  forall j, (j < 20)%nat -> exists s, decode (drop (4 + 20 * j) b) = Some s /\ id_ s = id + Z.of_nat j.
Proof.
  intros Hlc Hid Hid'. unfold datagram. rewrite group_spec.
  change (Z.to_nat GROUP_STOCK) with 20%nat.
  assert (Hlen : forall l, length (flat_map encode l) = (20 * length l)%nat).
  { induction l as [|s l IH]; [done|]. cbn [flat_map]. rewrite length_app, IH, length_encode.
    simpl length. lia. }
  split_and!.
  - rewrite length_app, Hlen, length_map, length_seq. done.
  - done.
  - done.
  - unfold readInt, byte_at. cbn [loop_bytes app lookup list_lookup Nat.add].
    by rewrite !unsigned_byte_of, read_four, swrap_id.
  - intros j Hj. change (4 + 20 * j)%nat with (length (loop_bytes lc) + 20 * j)%nat.
    rewrite drop_app_add.
    assert (Hgen : forall l, drop (20 * j) (flat_map encode l) = flat_map encode (drop j l)).
    { clear. induction j as [|j IH]; intros l; [by rewrite !drop_0|].
      destruct l as [|s l]; [by rewrite !drop_nil|]. cbn [flat_map drop].
      replace (20 * S j)%nat with (length (encode s) + 20 * j)%nat by (rewrite length_encode; lia).
      by rewrite drop_app_add, IH. }
    rewrite Hgen, skipn_map, drop_seq.
    destruct (20 - j)%nat as [|n] eqn:En; [lia|]. cbn [seq map flat_map].
    eexists. split; [apply stock_decode_encode|]. cbn. rewrite swrap_id by clia. done.
Qed.

Lemma datagram_decodes_witness :
  let '(b, _, _) := datagram 258 380 0 (fun n => Z.of_nat n) in
  length b = 404%nat /\ readInt 0 b = 258 /\
  exists s, decode (drop (4 + 20 * 19) b) = Some s /\ id_ s = 399.
Proof.
  pose proof (datagram_decodes 258 380 0 (fun n => Z.of_nat n) ltac:(zcompute) ltac:(lia) ltac:(lia))
    as H.
  destruct (datagram 258 380 0 _) as [[b id'] k']. destruct H as (Hl & _ & _ & Hr & Hd).
  split_and!; [exact Hl|exact Hr|]. destruct (Hd 19%nat ltac:(lia)) as (s & Hs & Hi). by exists s.
Defined.
