(* ===== verification/StockServer.v ===== *)
(** [server/main.cpp]: the packet callback, the table of prices and the test
    that starts the computation. *)
From S2P Require Import Prelude CString CFile PcapInt StockWire.

#[local] Open Scope string_scope.
#[local] Open Scope Z_scope.
#[local] Open Scope c_scope.

(** ** Sizes of the headers *)

Definition sizeof_ether_header := 14.
Definition sizeof_ip := 20.
Definition sizeof_UDP_hdr := 8.
Definition IPPROTO_UDP := 17.

(** ** The state of the server

    [stockPriceMap], a [map<int, deque<int> >], is iterated in the order of its
    keys: it is the list of its entries in that order. *)

Definition stockPriceMap := list (Z * list Z).

Record server := Server {
  g_last_loop : Z;
  g_last_done_loop : Z;
  g_pFile : list byte;         (* what has been written to stocks.db *)
  g_ready : bool;
  g_priceMap : stockPriceMap;
  g_current_stocks : Z;
  g_stderr : list string }.    (* the messages printed *)

(** The initial state: [main] enters the stocks 0 to [SERVER_STOCK - 1]. *)
Definition init_server : server :=
  Server (-1) (-1) [] false (map (fun i => (Z.of_nat i, [])) (seq 0 (Z.to_nat SERVER_STOCK))) 0 [].

Definition with_prices (s : server) (ready : bool) (m : stockPriceMap) : server :=
  Server (g_last_loop s) (g_last_done_loop s) (g_pFile s) ready m (g_current_stocks s) (g_stderr s).
Definition with_current (s : server) (n : Z) : server :=
  Server (g_last_loop s) (g_last_done_loop s) (g_pFile s) (g_ready s) (g_priceMap s) n (g_stderr s).
Definition with_last_loop (s : server) (n : Z) : server :=
  Server n (g_last_done_loop s) (g_pFile s) (g_ready s) (g_priceMap s) (g_current_stocks s) (g_stderr s).
Definition with_file (s : server) (b : list byte) : server :=
  Server (g_last_loop s) (g_last_done_loop s) b (g_ready s) (g_priceMap s) (g_current_stocks s)
         (g_stderr s).
Definition with_message (s : server) (m : string) : server :=
  Server (g_last_loop s) (g_last_done_loop s) (g_pFile s) (g_ready s) (g_priceMap s)
         (g_current_stocks s) (g_stderr s ++ [m])%list.

(** [find] and [operator[]] on an entry that is there. *)
Definition find_price (id : Z) (m : stockPriceMap) : option (list Z) :=
  match List.find (fun e : Z * list Z => e.1 =? id) m with Some e => Some e.2 | None => None end.
Definition update_price (id : Z) (f : list Z -> list Z) (m : stockPriceMap) : stockPriceMap :=
  map (fun e : Z * list Z => if e.1 =? id then (e.1, f e.2) else e) m.

(** ** [allPriceOK] *)

(** The loop over the entries: a deque that is too long loses its oldest
    prices, one that is too short ends the loop. *)
Fixpoint trim_prices (m : stockPriceMap) : bool * stockPriceMap :=
  match m with
  | [] => (true, [])
  | (id, q) :: m =>
      let size := i32 (lenZ q) in
      if size <? PRICE_LIST_SIZE then (false, (id, q) :: m)
      else
        let q := if PRICE_LIST_SIZE <? size then drop (Z.to_nat (size - PRICE_LIST_SIZE)) q else q in
        let '(ok, m) := trim_prices m in (ok, (id, q) :: m)
  end.

Definition allPriceOK (s : server) : bool * server :=
  if g_ready s then (true, s)
  else let '(ok, m) := trim_prices (g_priceMap s) in (ok, with_prices s ok m).

(** ** [my_callback] *)

(** How the callback ends: it returns; it reads byte [off] of a packet that
    has not that many; or it has called [coefficient] on the prices, which
    ends the process with [abort]. *)
Inductive callback_result :=
| Returns (s : server)
| ReadsOutside (off : nat) (s : server)
| Computes (m : stockPriceMap) (s : server).

Definition timestamp_string (sec usec : Z) : string :=
  snprintf 256 (fmt_d (i32 sec) +:+ "." +:+ pad_zero 6 (i32 usec)).
Definition problem_pkt (h : pcap_pkthdr) (reason : string) : string :=
  timestamp_string (tv_sec h) (tv_usec h) +:+ ": " +:+ reason +:+ String "010" "".
Definition too_short (h : pcap_pkthdr) (truncated_hdr : string) : string :=
  "packet with timestamp " +:+ timestamp_string (tv_sec h) (tv_usec h)
  +:+ " is truncated and lacks a full " +:+ truncated_hdr +:+ String "010" "".

(** One stock of the datagram. *)
Definition handle_stock (loop_id : Z) (st : stock) (s : server) : callback_result :=
  match find_price (id_ st) (g_priceMap s) with
  | None => Returns s
  | Some _ =>
      let '(ok, s) := allPriceOK s in
      let m := if ok then update_price (id_ st) (drop 1) (g_priceMap s) else g_priceMap s in
      let s := with_prices s (g_ready s)
                 (update_price (id_ st) (fun q => q ++ [close_price_ st])%list m) in
      let s := with_current s (i32 (g_current_stocks s + 1)) in
      if g_current_stocks s =? SERVER_STOCK then
        let '(ok, s) := allPriceOK s in
        if ok then Computes (g_priceMap s) s else Returns (with_current s 0)
      else Returns s
  end.

(** The loop over the [GROUP_STOCK] stocks at [off]. *)
Fixpoint handle_group (n off : nat) (loop_id : Z) (packet : list byte) (s : server)
    : callback_result :=
  match n with
  | O => Returns s
  | S n =>
      match decode (drop off packet) with
      | None => ReadsOutside (length packet) s
      | Some st =>
          match handle_stock loop_id st s with
          | Returns s => handle_group n (off + 20) loop_id packet s
          | r => r
          end
      end
  end.

(** The payload, from the byte after the UDP header; [n] is the number of
    captured bytes that are left. *)
Definition handle_payload (packet : list byte) (n : Z) (s : server) : callback_result :=
  if (length packet <? 4)%nat then ReadsOutside (length packet) s
  else
    let loop_id := readInt 0 packet in
    let s := with_file s (g_pFile s ++ take (Z.to_nat (u64 n)) packet)%list in
    if g_last_done_loop s =? loop_id then Returns s
    else
      let s := if negb (loop_id =? g_last_loop s) then with_last_loop s loop_id else s in
      handle_group (Z.to_nat GROUP_STOCK) 4 loop_id packet s.

(** [packet] holds the [caplen] captured bytes.  The comparisons are made in
    [size_t], and with the header length in [unsigned int]. *)
Definition my_callback (s : server) (h : pcap_pkthdr) (packet : list byte) : callback_result :=
  let capture_len := i32 (caplen h) in
  if u64 capture_len <? sizeof_ether_header then
    Returns (with_message s (too_short h "Ethernet header"))
  else
    let packet := drop (Z.to_nat sizeof_ether_header) packet in
    let capture_len := i32 (capture_len - sizeof_ether_header) in
    if u64 capture_len <? sizeof_ip then Returns (with_message s (too_short h "IP header"))
    else
      let IP_header_length := (byte_at 0 packet .& 0xf) * 4 in
      if u32 capture_len <? IP_header_length then
        Returns (with_message s (too_short h "IP header with options"))
      else if negb (byte_at 9 packet =? IPPROTO_UDP) then
        Returns (with_message s (problem_pkt h "non-UDP packet"))
      else
        let packet := drop (Z.to_nat IP_header_length) packet in
        let capture_len := i32 (capture_len - IP_header_length) in
        if u64 capture_len <? sizeof_UDP_hdr then
          Returns (with_message s (too_short h "UDP header"))
        else
          handle_payload (drop (Z.to_nat sizeof_UDP_hdr) packet) (capture_len - sizeof_UDP_hdr) s.

(** What [pcap_loop] makes of a sequence of packets: at most
    [SERVER_STOCK_COUNT] of them reach the callback. *)
Fixpoint deliver (pkts : list (pcap_pkthdr * list byte)) (s : server) : callback_result :=
  match pkts with
  | [] => Returns s
  | (h, d) :: pkts =>
      match my_callback s h d with Returns s => deliver pkts s | r => r end
  end.

Definition pcapServer (pkts : list (pcap_pkthdr * list byte)) : callback_result :=
  deliver (take (Z.to_nat SERVER_STOCK_COUNT) pkts) init_server.

(** ** Lemmas on the price table *)

#[local] Close Scope string_scope.

(** The closing prices received for a stock, oldest first. *)
Definition history (sts : list stock) (id : Z) : list Z :=
  map close_price_ (List.filter (fun st => id_ st =? id) sts).

Lemma history_snoc sts st id :
  history (sts ++ [st]) id =
  (history sts id ++ if id_ st =? id then [close_price_ st] else [])%list.
Proof.
  unfold history. rewrite List.filter_app, map_app. f_equal. simpl.
  by destruct (id_ st =? id).
Qed.

(** Trimming keeps every property of entries that dropping old prices keeps;
    when it succeeds, every deque has exactly [PRICE_LIST_SIZE] prices. *)
Lemma trim_prices_ok (P : Z -> list Z -> Prop) m :
  (forall id q n, P id q -> P id (drop n q)) ->
  Forall (fun e : Z * list Z => P e.1 e.2 /\ lenZ e.2 < 2 ^ 31) m ->
  let '(ok, m') := trim_prices m in
  map fst m' = map fst m /\
  Forall (fun e : Z * list Z => P e.1 e.2 /\ lenZ e.2 < 2 ^ 31) m' /\
  (ok = true -> Forall (fun e : Z * list Z => lenZ e.2 = PRICE_LIST_SIZE) m').
Proof.
  intros HP. induction 1 as [|[id q] m [Hq Hl] Hm IH]; cbn [trim_prices]; [by split_and!|].
  cbn [fst snd] in *. assert (0 <= lenZ q) by (unfold lenZ; lia).
  rewrite swrap_id by clia. unfold PRICE_LIST_SIZE in *.
  destruct (Z.ltb_spec (lenZ q) 4096) as [|Hge].
  - split_and!; [done| |done]. by constructor.
  - destruct (trim_prices m) as [ok m']. destruct IH as (IH1 & IH2 & IH3).
    set (q' := if 4096 <? lenZ q then _ else q).
    assert (Hq' : P id q' /\ lenZ q' = 4096).
    { unfold q'. destruct (Z.ltb_spec 4096 (lenZ q)); [|split; [done|lia]].
      split; [by apply HP|]. unfold lenZ in *. rewrite length_drop. lia. }
    cbn [map fst]. split_and!; [by f_equal| |].
    + constructor; [|done]. cbn. destruct Hq' as [? ->]. split; [done|lia].
    + intros Hok. constructor; [tauto|by apply IH3].
Qed.

Lemma find_price_None id m : find_price id m = None -> Forall (fun e : Z * list Z => e.1 <> id) m.
Proof.
  unfold find_price. destruct (List.find _ m) as [e|] eqn:Hf; [done|]. intros _.
  apply List.Forall_forall. intros e He.
  pose proof (List.find_none _ _ Hf e He) as Hn. cbn in Hn. lia.
Qed.

Lemma update_price_keys id f m : map fst (update_price id f m) = map fst m.
Proof.
  unfold update_price. rewrite map_map. apply map_ext. intros e. by destruct (e.1 =? id).
Qed.

Lemma update_price_Forall (P Q : Z * list Z -> Prop) id f m :
  (forall e, P e -> Q (if e.1 =? id then (e.1, f e.2) else e)) ->
  Forall P m -> Forall Q (update_price id f m).
Proof.
  intros HPQ Hm. unfold update_price. apply List.Forall_map. eapply Forall_impl; [exact Hm|]. auto.
Qed.

(** ** The invariant

    After the stocks [sts] the table has the keys it started with, every deque
    holds the latest closing prices of its stock, and once the server is ready
    exactly [PRICE_LIST_SIZE] of them. *)
Definition entry_ok (sts : list stock) (id : Z) (q : list Z) : Prop :=
  q `suffix_of` history sts id.

Definition prices_ok (sts : list stock) (s : server) : Prop :=
  map fst (g_priceMap s) = map fst (g_priceMap init_server) /\
  Forall (fun e : Z * list Z => entry_ok sts e.1 e.2) (g_priceMap s) /\
  (g_ready s = true -> Forall (fun e : Z * list Z => lenZ e.2 = PRICE_LIST_SIZE) (g_priceMap s)).

Lemma entry_ok_drop sts id q n : entry_ok sts id q -> entry_ok sts id (drop n q).
Proof.
  unfold entry_ok. intros Hs. etransitivity; [|exact Hs]. exists (take n q). by rewrite take_drop.
Qed.

Lemma length_history sts id : (length (history sts id) <= length sts)%nat.
Proof. unfold history. rewrite length_map. apply List.filter_length_le. Qed.

Lemma entry_ok_length sts id q : entry_ok sts id q -> lenZ q <= Z.of_nat (length sts).
Proof.
  intros Hs. apply suffix_length in Hs. pose proof (length_history sts id). unfold lenZ. lia.
Qed.

Lemma allPriceOK_ok sts s :
  prices_ok sts s -> Z.of_nat (length sts) < 2 ^ 31 ->
  let '(ok, s') := allPriceOK s in
  prices_ok sts s' /\ g_ready s' = ok /\ g_last_done_loop s' = g_last_done_loop s /\
  g_current_stocks s' = g_current_stocks s.
Proof.
  intros (Hk & He & Hr) Hlen. unfold allPriceOK. destruct (g_ready s) eqn:Hready.
  - split_and!; try done. split_and!; try done. intros _. by apply Hr.
  - pose proof (trim_prices_ok (entry_ok sts) (g_priceMap s) (entry_ok_drop sts)) as Ht.
    destruct (trim_prices (g_priceMap s)) as [ok m].
    destruct Ht as (Hk' & He' & Hr').
    { eapply Forall_impl; [exact He|]. intros e Hok. split; [done|].
      apply entry_ok_length in Hok. lia. }
    split_and!; try done. split_and!; cbn [g_priceMap g_ready with_prices]; [by rewrite Hk'| |done].
    eapply Forall_impl; [exact He'|]. by intros e [? _].
Qed.

(** The table with the price of a stock, without its oldest one if all are
    there. *)
Definition stored (ok : bool) (st : stock) (s : server) : server :=
  let m := if ok then update_price (id_ st) (drop 1) (g_priceMap s) else g_priceMap s in
  let s := with_prices s (g_ready s) (update_price (id_ st) (fun q => q ++ [close_price_ st])%list m) in
  with_current s (i32 (g_current_stocks s + 1)).

Lemma handle_stock_eq loop_id st s :
  handle_stock loop_id st s =
  match find_price (id_ st) (g_priceMap s) with
  | None => Returns s
  | Some _ =>
      let '(ok, s) := allPriceOK s in
      let s := stored ok st s in
      if g_current_stocks s =? SERVER_STOCK then
        let '(ok, s) := allPriceOK s in if ok then Computes (g_priceMap s) s else Returns (with_current s 0)
      else Returns s
  end.
Proof. reflexivity. Qed.

Lemma stored_ok sts ok st s : prices_ok sts s -> g_ready s = ok -> prices_ok (sts ++ [st]) (stored ok st s).
Proof.
  intros (Hk & He & Hr) Hready. unfold stored. set (m := if ok then _ else _).
  split_and!; cbn [g_priceMap g_ready with_current with_prices].
  - rewrite update_price_keys. unfold m. destruct ok; by rewrite ?update_price_keys.
  - eapply (update_price_Forall (fun e => entry_ok sts e.1 e.2)).
    + intros e Hok. unfold entry_ok in *. rewrite (Z.eqb_sym e.1).
      destruct (id_ st =? e.1) eqn:E; cbn [fst snd]; rewrite history_snoc, E.
      * destruct Hok as [k ->]. exists k. by rewrite app_assoc.
      * by rewrite app_nil_r.
    + unfold m. destruct ok; [|done].
      eapply update_price_Forall; [|exact He]. intros e Hok.
      destruct (e.1 =? id_ st); [by apply entry_ok_drop|done].
  - intros Hr1. rewrite Hready in Hr1. unfold m. rewrite Hr1. rewrite Hr1 in Hready.
    specialize (Hr Hready).
    eapply (update_price_Forall (fun e => if e.1 =? id_ st
        then lenZ e.2 = PRICE_LIST_SIZE - 1 else lenZ e.2 = PRICE_LIST_SIZE)).
    + intros e Hl. destruct (e.1 =? id_ st); cbn [fst snd]; [|done].
      unfold lenZ in *. rewrite length_app. simpl length. lia.
    + eapply update_price_Forall; [|exact Hr]. intros e Hl.
      destruct (e.1 =? id_ st) eqn:E; cbn [fst snd]; rewrite E; [|done].
      unfold lenZ, PRICE_LIST_SIZE in *. rewrite length_drop. lia.
Qed.

Lemma handle_stock_ok sts loop_id st s :
  prices_ok sts s -> Z.of_nat (length sts) < 2 ^ 31 - 1 ->
  match handle_stock loop_id st s with
  | Returns s' => prices_ok (sts ++ [st]) s'
  | ReadsOutside _ _ => False
  | Computes m s' => prices_ok (sts ++ [st]) s' /\ g_ready s' = true /\ m = g_priceMap s'
  end.
Proof.
  intros Hs Hlen. rewrite handle_stock_eq.
  destruct (find_price (id_ st) (g_priceMap s)) as [q|] eqn:Hf.
  2: { destruct Hs as (Hk & He & Hr). apply find_price_None in Hf. split_and!; try done.
       eapply Forall_impl; [exact (proj2 (Forall_and _ _) (conj He Hf))|]. intros e [He' Hne].
       unfold entry_ok. rewrite history_snoc. destruct (Z.eqb_spec (id_ st) e.1); [congruence|].
       by rewrite app_nil_r. }
  pose proof (allPriceOK_ok sts s Hs ltac:(lia)) as Ha. destruct (allPriceOK s) as [ok s1].
  destruct Ha as (Hp1 & Hready & _ & _). pose proof (stored_ok sts ok st s1 Hp1 Hready) as Hs2.
  cbv zeta. set (s2 := stored ok st s1) in *.
  destruct (g_current_stocks s2 =? SERVER_STOCK); [|done].
  pose proof (allPriceOK_ok _ _ Hs2 ltac:(rewrite length_app; simpl length; lia)) as Ha.
  destruct (allPriceOK s2) as [ok2 s3]. destruct Ha as (Hs3 & Hready3 & _ & _).
  destruct ok2; [done|]. destruct Hs3 as (? & ? & ?). by split_and!.
Qed.

(** The state a callback leaves, and what a call of [coefficient] is given. *)
Definition state_of (r : callback_result) : server :=
  match r with Returns s | ReadsOutside _ s | Computes _ s => s end.

Definition computes_ready (r : callback_result) : Prop :=
  match r with Computes m s => g_ready s = true /\ m = g_priceMap s | _ => True end.

(** At most [n] more stocks have been taken in. *)
Definition takes_in (sts : list stock) (n : nat) (r : callback_result) : Prop :=
  computes_ready r /\
  exists sts', (length sts' <= n)%nat /\ prices_ok (sts ++ sts') (state_of r).

Lemma takes_in_none sts n r :
  prices_ok sts (state_of r) -> computes_ready r -> takes_in sts n r.
Proof. intros Hs Hr. split; [done|]. exists []. rewrite app_nil_r. split; [simpl; lia|done]. Qed.

Lemma handle_group_ok n off loop_id packet sts s :
  prices_ok sts s -> Z.of_nat (length sts + n) < 2 ^ 31 ->
  takes_in sts n (handle_group n off loop_id packet s).
Proof.
  revert off sts s. induction n as [|n IH]; intros off sts s Hs Hlen; cbn [handle_group].
  - by apply takes_in_none.
  - destruct (decode _) as [st|]; [|by apply takes_in_none].
    pose proof (handle_stock_ok sts loop_id st s Hs ltac:(lia)) as Hst.
    destruct (handle_stock loop_id st s) as [s1|off1 s1|m s1]; [|done|].
    + destruct (IH (off + 20)%nat (sts ++ [st]) s1 Hst) as [Hc (sts' & Hl & Hp)].
      { rewrite length_app. simpl length. lia. }
      split; [done|]. exists (st :: sts'). split; [simpl; lia|].
      by rewrite <- app_assoc in Hp.
    + destruct Hst as (Hp & Hr & Hm). split; [done|]. exists [st]. split; [simpl; lia|done].
Qed.

Lemma handle_payload_ok packet n sts s :
  prices_ok sts s -> Z.of_nat (length sts + 20) < 2 ^ 31 ->
  takes_in sts 20 (handle_payload packet n s).
Proof.
  intros Hs Hlen. unfold handle_payload.
  destruct (_ <? _)%nat; [by apply takes_in_none|].
  destruct (_ =? _); [by apply takes_in_none|].
  apply (handle_group_ok 20); [|done]. case_match; exact Hs.
Qed.

Lemma my_callback_ok sts s h packet :
  prices_ok sts s -> Z.of_nat (length sts + 20) < 2 ^ 31 ->
  takes_in sts 20 (my_callback s h packet).
Proof.
  intros Hs Hlen. unfold my_callback. cbv zeta.
  repeat (case_match; [by apply takes_in_none|]). by apply handle_payload_ok.
Qed.

Lemma deliver_ok pkts sts s :
  prices_ok sts s -> Z.of_nat (length sts + 20 * length pkts) < 2 ^ 31 ->
  takes_in sts (20 * length pkts) (deliver pkts s).
Proof.
  revert sts s. induction pkts as [|[h d] pkts IH]; intros sts s Hs Hlen; cbn [deliver].
  - by apply takes_in_none.
  - simpl length in *. pose proof (my_callback_ok sts s h d Hs ltac:(lia)) as [Hc (sts1 & Hl1 & Hp1)].
    destruct (my_callback s h d) as [s1|off1 s1|m s1]; cbn [state_of] in *.
    + destruct (IH (sts ++ sts1) s1 Hp1) as [Hc2 (sts2 & Hl2 & Hp2)];
        [rewrite length_app; lia|].
      split; [done|]. exists (sts1 ++ sts2). rewrite app_assoc, length_app. split; [lia|done].
    + split; [done|]. exists sts1. split; [lia|done].
    + split; [done|]. exists sts1. split; [lia|done].
Qed.

Lemma init_prices_ok : prices_ok [] init_server.
Proof.
  split_and!; [done| |done]. apply List.Forall_map, List.Forall_forall. intros i _.
  by exists [].
Qed.

(** ** What the limit on the packets means *)

(** The number of prices of all histories together. *)
Lemma history_total sts ids :
  NoDup ids -> (sum_list_with (fun id => length (history sts id)) ids <= length sts)%nat.
Proof.
  intros Hids. induction sts as [|st sts IH].
  - clear. induction ids; simpl; [lia|done].
  - etransitivity; [|simpl; apply le_n_S, IH]. clear IH.
    assert (Hh : forall id, length (history (st :: sts) id)
              = ((if Z.eqb (id_ st) id then 1 else 0) + length (history sts id))%nat)
      by (intros id; unfold history; simpl; by destruct (id_ st =? id)).
    assert (Hone : (sum_list_with (fun id => if Z.eqb (id_ st) id then 1 else 0)%nat ids <= 1)%nat).
    { clear Hh. induction Hids as [|id ids Hn Hids IH]; simpl; [lia|].
      destruct (Z.eqb_spec (id_ st) id) as [->|]; [|exact IH].
      enough (sum_list_with (fun i => if Z.eqb id i then 1 else 0)%nat ids = 0%nat) by lia.
      clear -Hn. induction ids as [|i ids IH]; [done|]. apply not_elem_of_cons in Hn as [Hi Hn].
      simpl. destruct (Z.eqb_spec id i); [done|]. simpl. by apply IH. }
    assert (Hsum : (sum_list_with (fun id => length (history (st :: sts) id)) ids
      = sum_list_with (fun id => if Z.eqb (id_ st) id then 1 else 0)%nat ids
        + sum_list_with (fun id => length (history sts id)) ids)%nat).
    { clear -Hh. induction ids as [|id ids IH]; [done|]. cbn [sum_list_with]. rewrite IH, Hh. lia. }
    rewrite Hsum. lia.
Qed.

Lemma sum_at_least {A} (f : A -> nat) n l :
  Forall (fun x => (n <= f x)%nat) l -> (n * length l <= sum_list_with f l)%nat.
Proof. induction 1; simpl; lia. Qed.

Lemma entries_total sts (m : stockPriceMap) n :
  NoDup (map fst m) ->
  Forall (fun e : Z * list Z => e.2 `suffix_of` history sts e.1) m ->
  Forall (fun e : Z * list Z => (n <= length e.2)%nat) m ->
  (n * length m <= length sts)%nat.
Proof.
  intros Hnd Hs Hn. etransitivity; [|by apply (history_total sts (map fst m))].
  rewrite <- (length_map fst m). apply sum_at_least. apply List.Forall_map.
  eapply Forall_impl; [exact (proj2 (Forall_and _ _) (conj Hs Hn))|].
  intros [id q] [Hsuf Hlen]. apply suffix_length in Hsuf. simpl in *. lia.
Qed.

(** C30: The server never computes a coefficient: [pcap_loop] is told to stop
    after [SERVER_STOCK_COUNT] = 12500 packets, which hold at most 250000
    prices, while the computation waits for [PRICE_LIST_SIZE] prices of each
    of [SERVER_STOCK] stocks, 1638400 of them. *)
Theorem server_never_computes pkts :
  SERVER_STOCK_COUNT * GROUP_STOCK < SERVER_STOCK * PRICE_LIST_SIZE /\
  forall m s, pcapServer pkts <> Computes m s.
Proof.
  split; [reflexivity|]. intros m s Hc.
  set (ps := take (Z.to_nat SERVER_STOCK_COUNT) pkts).
  assert (Hps : Z.of_nat (length ps) <= 12500).
  { unfold ps. rewrite length_take. change SERVER_STOCK_COUNT with 12500. lia. }
  destruct (deliver_ok ps [] init_server init_prices_ok ltac:(simpl length; lia))
    as [Hcr (sts & Hl & Hk & He & Hr)].
  unfold pcapServer in Hc. fold ps in Hc. rewrite Hc in Hcr, Hk, He, Hr.
  destruct Hcr as [Hready ->]. cbn [state_of app] in *. specialize (Hr Hready).
  assert (Hlen : length (g_priceMap s) = 400%nat).
  { rewrite <- (length_map fst), Hk, length_map. unfold init_server. cbn [g_priceMap].
    by rewrite length_map, length_seq. }
  assert (Hnd : NoDup (map fst (g_priceMap s))).
  { rewrite Hk. unfold init_server. cbn [g_priceMap]. rewrite map_map. cbn [fst].
    apply NoDup_fmap; [intros ? ?; lia|apply NoDup_seq]. }
  pose proof (entries_total sts (g_priceMap s) (Z.to_nat 4096) Hnd He) as Htot.
  rewrite Hlen in Htot. enough (Z.to_nat 4096 * 400 <= length sts)%nat by lia.
  apply Htot. eapply Forall_impl; [exact Hr|]. intros e Hlen4. unfold lenZ, PRICE_LIST_SIZE in Hlen4.
  lia.
Qed.

(** ** Frames *)

(** An Ethernet frame that carries a UDP datagram over IPv4. *)
Record frame := Frame { fr_eth : list byte; fr_ip : list byte; fr_udp : list byte; fr_data : list byte }.

Definition frame_bytes (f : frame) : list byte := fr_eth f ++ fr_ip f ++ fr_udp f ++ fr_data f.

Definition frame_ok (f : frame) (h : pcap_pkthdr) : Prop :=
  lenZ (fr_eth f) = 14 /\ lenZ (fr_ip f) = (byte_at 0 (fr_ip f) .& 0xf) * 4 /\
  20 <= lenZ (fr_ip f) /\ byte_at 9 (fr_ip f) = IPPROTO_UDP /\ lenZ (fr_udp f) = 8 /\
  caplen h = lenZ (frame_bytes f) /\ caplen h < 2 ^ 31.

Lemma byte_at_app i a b : (i < length a)%nat -> byte_at i (a ++ b) = byte_at i a.
Proof. intros. unfold byte_at. by rewrite lookup_app_l. Qed.

(** The callback reaches the payload of such a frame. *)
Lemma my_callback_frame s h f :
  frame_ok f h -> my_callback s h (frame_bytes f) = handle_payload (fr_data f) (lenZ (fr_data f)) s.
Proof.
  destruct f as [e ip u d]. unfold frame_ok, frame_bytes.
  cbn [fr_eth fr_ip fr_udp fr_data]. intros (He & Hip & Hge & H9 & Hu & Hc & Hlt).
  assert (Hc' : caplen h = 22 + lenZ ip + lenZ d)
    by (unfold lenZ in *; rewrite Hc, !length_app; lia).
  assert (Hd : 0 <= lenZ d) by (unfold lenZ; lia).
  assert (Hhl : 0 <= (byte_at 0 ip .& 0xf) * 4 <= 60).
  { change 0xf with (Z.ones 4). rewrite Z.land_ones by lia.
    pose proof (Z.mod_pos_bound (byte_at 0 ip) (2 ^ 4)). lia. }
  unfold my_callback. cbv zeta.
  unfold sizeof_ether_header, sizeof_ip, sizeof_UDP_hdr.
  rewrite (drop_app_length' e) by (unfold lenZ in He; lia).
  rewrite !byte_at_app by (unfold lenZ in Hge; lia). rewrite <- Hip, H9.
  rewrite (drop_app_length' ip) by (unfold lenZ; lia).
  rewrite (drop_app_length' u) by (unfold lenZ in Hu; lia).
  rewrite (swrap_id 32 ltac:(lia) (caplen h)) by clia.
  rewrite (swrap_id 32 ltac:(lia) (caplen h - 14)) by clia.
  rewrite (swrap_id 32 ltac:(lia) (caplen h - 14 - lenZ ip)) by clia.
  rewrite !(uwrap_id 64), (uwrap_id 32) by clia.
  destruct (Z.ltb_spec (caplen h) 14); [lia|].
  destruct (Z.ltb_spec (caplen h - 14) 20); [lia|].
  destruct (Z.ltb_spec (caplen h - 14) (lenZ ip)); [lia|].
  change (negb (IPPROTO_UDP =? IPPROTO_UDP)) with false. cbv iota.
  destruct (Z.ltb_spec (caplen h - 14 - lenZ ip) 8); [lia|].
  f_equal. lia.
Qed.

(** The stocks of a datagram, handled in order. *)
Fixpoint handle_stocks (loop_id : Z) (sts : list stock) (s : server) : callback_result :=
  match sts with
  | [] => Returns s
  | st :: sts =>
      match handle_stock loop_id st s with
      | Returns s => handle_stocks loop_id sts s
      | r => r
      end
  end.

Lemma handle_group_stocks loop_id pre sts s :
  handle_group (length sts) (length pre) loop_id (pre ++ flat_map encode sts) s
  = handle_stocks loop_id (map int_stock sts) s.
Proof.
  revert pre s. induction sts as [|st sts IH]; intros pre s; cbn [length handle_group]; [done|].
  rewrite drop_app_length. cbn [flat_map map handle_stocks]. rewrite stock_decode_encode.
  destruct (handle_stock loop_id (int_stock st) s) as [s1| |]; [|done|done].
  rewrite <- (IH (pre ++ encode st)). rewrite length_app, length_encode, <- app_assoc. done.
Qed.

(** The callback on a frame with a datagram of 20 stocks. *)
Lemma callback_stocks s h f lc sts :
  frame_ok f h -> fr_data f = loop_bytes lc ++ flat_map encode sts -> length sts = 20%nat ->
  is_i 32 lc -> g_last_done_loop s <> lc ->
  my_callback s h (frame_bytes f) =
  handle_stocks lc (map int_stock sts) (with_last_loop (with_file s (g_pFile s ++ fr_data f)) lc).
Proof.
  intros Hf Hd Hlen Hlc Hdone. rewrite my_callback_frame by done.
  unfold handle_payload. rewrite (uwrap_id 64).
  2: { destruct Hf as (_ & _ & _ & _ & _ & Hc & Hlt). unfold frame_bytes, lenZ in *.
       rewrite !length_app in Hc. clia. }
  unfold lenZ. rewrite Nat2Z.id, take_ge by lia. rewrite Hd.
  assert (Hr : readInt 0 (loop_bytes lc ++ flat_map encode sts) = lc).
  { unfold readInt, byte_at. cbn [loop_bytes app lookup list_lookup Nat.add].
    by rewrite !unsigned_byte_of, read_four, swrap_id. }
  rewrite Hr. cbn [loop_bytes app length Nat.ltb Nat.leb]. cbv zeta.
  cbn [g_last_done_loop with_file g_last_loop].
  destruct (Z.eqb_spec (g_last_done_loop s) lc); [done|].
  change (Z.to_nat GROUP_STOCK) with 20%nat. rewrite <- Hlen at 1.
  rewrite (handle_group_stocks lc (loop_bytes lc) sts).
  f_equal. destruct (Z.eqb_spec lc (g_last_loop s)) as [->|]; done.
Qed.

(** C27: From client to server: the callback on a captured frame with one of
    the client's datagrams, unless that round has been dealt with, appends the
    datagram to the file, records the loop number and handles exactly the 20
    stocks that the client generated, in order. *)
Theorem client_datagram_handled s h f lc id k rand id' k' :
  frame_ok f h -> datagram lc id k rand = (fr_data f, id', k') ->
  is_i 32 lc -> g_last_done_loop s <> lc ->
  my_callback s h (frame_bytes f) =
  handle_stocks lc (map int_stock (map (generated id k rand) (seq 0 20)))
    (with_last_loop (with_file s (g_pFile s ++ fr_data f)) lc).
Proof.
  intros Hf Hd Hlc Hdone. unfold datagram in Hd. rewrite group_spec in Hd. injection Hd as Hd _ _.
  apply callback_stocks; [done|symmetry; exact Hd|by rewrite length_map, length_seq|done|done].
Qed.

(** A frame on the loopback device, with an IP header of 20 bytes. *)
Definition zbytes (n : nat) : list byte := repeat (byte.of_Z 0) n.
Definition lo_frame (d : list byte) : frame :=
  Frame (zbytes 14) (byte.of_Z 0x45 :: zbytes 8 ++ [byte.of_Z 17] ++ zbytes 10) (zbytes 8) d.
Definition frame_hdr (f : frame) : pcap_pkthdr :=
  Pkthdr 0 0 (lenZ (frame_bytes f)) (lenZ (frame_bytes f)).

Lemma lo_frame_ok d : lenZ d < 2 ^ 30 -> frame_ok (lo_frame d) (frame_hdr (lo_frame d)).
Proof.
  intros Hd. unfold frame_ok, frame_hdr. cbn [caplen].
  split; [done|]. split; [vm_compute; reflexivity|]. split; [zcompute|].
  split; [vm_compute; reflexivity|]. split; [done|]. split; [done|].
  unfold frame_bytes, lenZ in *. rewrite !length_app. cbn [fr_eth fr_ip fr_udp fr_data lo_frame].
  unfold zbytes. cbn [length repeat app]. lia.
Qed.

(** The datagram the client sends first in its round 3. *)
Definition first_datagram : list byte := (datagram 3 0 0 (fun n => Z.of_nat n * 1000003)).1.1.

Lemma first_datagram_eq :
  datagram 3 0 0 (fun n => Z.of_nat n * 1000003) = (first_datagram, 20, 80%nat).
Proof. vm_compute. reflexivity. Qed.

Lemma client_datagram_handled_witness :
  let f := lo_frame first_datagram in
  my_callback init_server (frame_hdr f) (frame_bytes f) =
  handle_stocks 3 (map int_stock (map (generated 0 0 (fun n => Z.of_nat n * 1000003)) (seq 0 20)))
    (with_last_loop (with_file init_server first_datagram) 3).
Proof.
  apply (client_datagram_handled init_server (frame_hdr (lo_frame first_datagram))
           (lo_frame first_datagram) 3 0 0 (fun n => Z.of_nat n * 1000003) 20 80).
  - apply lo_frame_ok. vm_compute. reflexivity.
  - apply first_datagram_eq.
  - zcompute.
  - discriminate.
Defined.

Lemma handle_stock_not_outside loop_id st s k s' : handle_stock loop_id st s <> ReadsOutside k s'.
Proof. unfold handle_stock. repeat case_match; done. Qed.

Lemma handle_group_inside n off loop_id packet s k s' :
  (off + 20 * n <= length packet)%nat -> handle_group n off loop_id packet s <> ReadsOutside k s'.
Proof.
  revert off s. induction n as [|n IH]; intros off s Hl; cbn [handle_group]; [done|].
  unfold decode. destruct (Nat.leb_spec 20 (length (drop off packet))) as [Hd|Hd];
    rewrite length_drop in Hd; [|lia].
  destruct (handle_stock _ _ s) as [s1|k1 s1|m s1] eqn:Hs; [apply IH; lia| |done].
  by apply handle_stock_not_outside in Hs.
Qed.

Lemma handle_group_short n off loop_id packet s s' :
  (length packet < off + 20 * n)%nat -> (0 < n)%nat ->
  handle_group n off loop_id packet s <> Returns s'.
Proof.
  revert off s. induction n as [|n IH]; intros off s Hl Hn; cbn [handle_group]; [lia|].
  unfold decode. destruct (Nat.leb_spec 20 (length (drop off packet))) as [Hd|Hd];
    rewrite length_drop in Hd; [|done].
  destruct (handle_stock _ _ s) as [s1|k1 s1|m s1]; [|done|done].
  apply IH; lia.
Qed.

(** C31: The callback trusts the sender for the length of the payload.  On a
    captured UDP frame with 404 bytes of payload or more it stays inside them;
    with fewer it returns normally only if it has the four bytes of the number
    of a round and that is the round dealt with last, -1 at the start;
    otherwise it reads beyond the captured bytes, or the computation starts
    before it gets there. *)
Theorem my_callback_bounds s h f :
  frame_ok f h ->
  (404 <= lenZ (fr_data f) -> forall k s', my_callback s h (frame_bytes f) <> ReadsOutside k s') /\
  (lenZ (fr_data f) < 404 ->
   ((exists s', my_callback s h (frame_bytes f) = Returns s') <->
    4 <= lenZ (fr_data f) /\ readInt 0 (fr_data f) = g_last_done_loop s)).
Proof.
  intros Hf. rewrite my_callback_frame by done. unfold handle_payload, lenZ.
  destruct (Nat.ltb_spec (length (fr_data f)) 4) as [Hlt|Hge].
  { split; [lia|]. intros _. split; [by intros [s' Hs]|intros [? _]; lia]. }
  cbv zeta. cbn [g_last_done_loop with_file].
  destruct (Z.eqb_spec (g_last_done_loop s) (readInt 0 (fr_data f))) as [He|Hne].
  { split; [done|]. intros _. split; [split; [lia|done]|eauto]. }
  change (Z.to_nat GROUP_STOCK) with 20%nat. split.
  - intros Hl k s'. apply handle_group_inside. lia.
  - intros Hl. split; [|intros [_ ?]; congruence]. intros [s' Hs].
    apply handle_group_short in Hs; [done|lia..].
Qed.

Lemma my_callback_bounds_witness :
  let f := lo_frame (zbytes 10) in
  frame_ok f (frame_hdr f) /\
  match my_callback init_server (frame_hdr f) (frame_bytes f) with Returns _ => False | _ => True end.
Proof.
  pose proof (lo_frame_ok (zbytes 10) ltac:(reflexivity)) as Hf. split; [exact Hf|].
  pose proof (proj1 (proj2 (my_callback_bounds init_server (frame_hdr (lo_frame (zbytes 10)))
    (lo_frame (zbytes 10)) Hf) ltac:(reflexivity))) as H.
  destruct (my_callback _ _ _) as [s'|k s'|m s'] eqn:E; [|exact I|exact I].
  destruct (H (ex_intro _ s' eq_refl)) as [_ Hd]. discriminate Hd.
Defined.
