(* ===== verification/StockLive.v ===== *)
(** [server/main.cpp] over many packets: the table of prices is the end of the
    sequence of prices received, and what the server waits for does happen -
    once enough prices of every stock have arrived, the computation starts. *)
From S2P Require Import Prelude CString CFile PcapInt StockWire StockServer.

#[local] Open Scope Z_scope.
#[local] Open Scope c_scope.

(** ** Stocks *)

(** The stocks of the table, of which the server keeps prices. *)
Definition traded (st : stock) : bool := (0 <=? id_ st) && (id_ st <? SERVER_STOCK).
Definition count_traded (sts : list stock) : Z := lenZ (List.filter traded sts).

(** Enough prices of every stock. *)
Definition full (sts : list stock) : Prop :=
  forall id, 0 <= id < SERVER_STOCK -> PRICE_LIST_SIZE <= lenZ (history sts id).

(** Every deque has the prices received, as many as it is to hold at least. *)
Definition deque_kept (sts : list stock) (e : Z * list Z) : Prop :=
  Z.min PRICE_LIST_SIZE (lenZ (history sts e.1)) <= lenZ e.2.
Definition kept (sts : list stock) (s : server) : Prop :=
  prices_ok sts s /\ Forall (deque_kept sts) (g_priceMap s) /\ 0 <= g_current_stocks s < SERVER_STOCK /\
  g_last_done_loop s = -1.

Lemma trim_prices_kept sts m : Forall (fun e : Z * list Z => deque_kept sts e /\ lenZ e.2 < 2 ^ 31) m ->
  Forall (deque_kept sts) (trim_prices m).2 /\
  (Forall (fun e : Z * list Z => PRICE_LIST_SIZE <= lenZ (history sts e.1)) m -> (trim_prices m).1 = true).
Proof.
  induction 1 as [|[id q] m [Hk Hl] Hm [IH1 IH2]]; cbn [trim_prices]; [done|]. cbn [fst snd] in *.
  assert (Hq : 0 <= lenZ q) by (unfold lenZ; lia). rewrite swrap_id by clia.
  destruct (Z.ltb_spec (lenZ q) PRICE_LIST_SIZE) as [Hlt|Hge].
  - cbn [fst snd]. split; [constructor; [done|]|].
    + eapply Forall_impl; [exact Hm|]. by intros e [? _].
    + intros Hf. apply Forall_cons in Hf as [Hf _]. unfold deque_kept in Hk. cbn [fst snd] in *. lia.
  - destruct (trim_prices m) as [ok m'] eqn:E. cbn [fst snd] in *. split.
    + constructor; [|done]. unfold deque_kept in *. cbn [fst snd] in *. case_match; [|lia].
      unfold lenZ in *. rewrite length_drop. unfold PRICE_LIST_SIZE in *. lia.
    + intros Hf. apply Forall_cons in Hf as [_ Hf]. auto.
Qed.

(** A table that is ready has all the prices that it is to hold. *)
Lemma ready_kept sts s : prices_ok sts s -> g_ready s = true -> Forall (deque_kept sts) (g_priceMap s).
Proof.
  intros (_ & _ & Hr) H. eapply Forall_impl; [exact (Hr H)|]. intros e He. unfold deque_kept. rewrite He. lia.
Qed.

Lemma keys_in sts s : prices_ok sts s -> Forall (fun e : Z * list Z => 0 <= e.1 < SERVER_STOCK) (g_priceMap s).
Proof.
  intros (Hk & _ & _).
  assert (Ha : Forall (fun id => 0 <= id < SERVER_STOCK) (map fst (g_priceMap s))).
  { rewrite Hk. apply (bool_decide_unpack _). vm_compute. exact I. }
  exact (proj1 (Forall_fmap _ _ _) Ha).
Qed.

Lemma allPriceOK_kept sts s : prices_ok sts s -> Forall (deque_kept sts) (g_priceMap s) -> Z.of_nat (length sts) < 2 ^ 31 ->
  let r := allPriceOK s in
  prices_ok sts r.2 /\ Forall (deque_kept sts) (g_priceMap r.2) /\ g_ready r.2 = r.1 /\
  g_last_done_loop r.2 = g_last_done_loop s /\ g_current_stocks r.2 = g_current_stocks s /\ (full sts -> r.1 = true).
Proof.
  intros Hp Hk Hl r. pose proof (allPriceOK_ok sts s Hp Hl) as Ha. subst r. pose proof Hp as (_ & He & _).
  assert (Hm : Forall (fun e : Z * list Z => deque_kept sts e /\ lenZ e.2 < 2 ^ 31) (g_priceMap s)).
  { apply Forall_and. split; [done|]. eapply Forall_impl; [exact He|]. intros e H%entry_ok_length. lia. }
  pose proof (trim_prices_kept sts _ Hm) as [Ht1 Ht2]. unfold allPriceOK in *.
  destruct (g_ready s) eqn:Er; [by split_and!|]. destruct (trim_prices (g_priceMap s)) as [ok m]. cbn [fst snd] in *.
  destruct Ha as (Hp' & Hr' & Hd' & Hc'). split; [done|]. split; [done|]. split; [done|]. split; [done|]. split; [done|].
  intros Hf. apply Ht2. eapply Forall_impl; [exact (keys_in sts s Hp)|]. intros e. apply Hf.
Qed.

(** ** A stock, a datagram, a sequence of them *)

Lemma full_more sts sts' : full sts -> full (sts ++ sts').
Proof.
  intros Hf id Hid. specialize (Hf id Hid). unfold history, lenZ in *. rewrite List.filter_app, map_app, length_app. lia.
Qed.

(** What is left to be done when a callback returns: the prices are kept, and
    once there are enough of every stock each one is counted. *)
Definition counts (sts new : list stock) (s : server) (r : callback_result) : Prop :=
  match r with
  | Returns s' => kept (sts ++ new) s' /\ (full sts -> g_current_stocks s' = g_current_stocks s + count_traded new)
  | ReadsOutside _ _ => False
  | Computes _ _ => True
  end.

Lemma find_price_traded sts s id : prices_ok sts s -> 0 <= id < SERVER_STOCK -> find_price id (g_priceMap s) <> None.
Proof.
  intros (Hk & _ & _) Hid Hf. apply find_price_None in Hf.
  assert (Hin : id ∈ map fst (g_priceMap s)).
  { rewrite Hk. change (g_priceMap init_server) with (map (fun i => (Z.of_nat i, @nil Z)) (seq 0 400)). rewrite map_map.
    cbn [fst]. apply list_elem_of_In, in_map_iff. exists (Z.to_nat id). split; [lia|]. apply in_seq.
    change SERVER_STOCK with 400 in Hid. lia. }
  apply list_elem_of_In, in_map_iff in Hin as (e & <- & He). rewrite Forall_forall in Hf. apply (Hf e); [|done].
  by apply list_elem_of_In.
Qed.

Lemma find_price_None_history sts st s : find_price (id_ st) (g_priceMap s) = None ->
  Forall (fun e : Z * list Z => history (sts ++ [st]) e.1 = history sts e.1) (g_priceMap s).
Proof.
  intros Hf%find_price_None. eapply Forall_impl; [exact Hf|]. intros e Hne. cbn beta in Hne.
  rewrite history_snoc. destruct (Z.eqb_spec (id_ st) e.1); [congruence|]. apply app_nil_r.
Qed.

(** A stock that is not in the table changes nothing. *)
Lemma untraded_kept sts st s : kept sts s -> find_price (id_ st) (g_priceMap s) = None -> kept (sts ++ [st]) s.
Proof.
  intros (Hp & Hk & Hc) Ef. pose proof (find_price_None_history sts st s Ef) as Hh. pose proof Hp as (Hkeys & He & Hr).
  split; [split_and!; try done|split; [|done]];
    (eapply Forall_impl; [exact (proj2 (Forall_and _ _) (conj (proj2 (Forall_and _ _) (conj He Hk)) Hh))|]);
    intros e [[Hee Hek] Hhe]; unfold entry_ok, deque_kept in *; by rewrite Hhe.
Qed.

Lemma find_price_Some_traded sts st s q : prices_ok sts s -> find_price (id_ st) (g_priceMap s) = Some q -> traded st = true.
Proof.
  intros Hp Hf. pose proof (keys_in sts s Hp) as Hk. rewrite List.Forall_forall in Hk. unfold find_price in Hf.
  destruct (List.find _ _) as [e|] eqn:E; [|done]. apply List.find_some in E as [Hin He]. specialize (Hk e Hin).
  unfold traded. cbn beta in He. lia.
Qed.

(** A price more in the table. *)
Lemma stored_kept sts ok st s : prices_ok sts s -> Forall (deque_kept sts) (g_priceMap s) -> g_ready s = ok ->
  Forall (deque_kept (sts ++ [st])) (g_priceMap (stored ok st s)).
Proof.
  intros Hp Hk Hr. destruct ok.
  { apply ready_kept; [by apply stored_ok|exact Hr]. }
  unfold stored. cbn [g_priceMap with_current with_prices]. eapply update_price_Forall; [|exact Hk].
  intros e He. unfold deque_kept in *. rewrite (Z.eqb_sym e.1).
  destruct (id_ st =? e.1) eqn:E; cbn [fst snd]; rewrite history_snoc, E; unfold lenZ in *; rewrite ?length_app; cbn [length]; lia.
Qed.

Lemma handle_stock_counts sts lc st s : kept sts s -> Z.of_nat (length sts) < 2 ^ 31 - 1 ->
  counts sts [st] s (handle_stock lc st s).
Proof.
  intros Hs Hl. pose proof Hs as (Hp & Hk & Hc & Hd). rewrite handle_stock_eq.
  pose proof (allPriceOK_kept sts s Hp Hk ltac:(lia)) as Ha.
  destruct (find_price (id_ st) (g_priceMap s)) as [q|] eqn:Ef.
  2: { split; [by apply untraded_kept|]. intros _. unfold count_traded. cbn [List.filter]. destruct (traded st) eqn:Et.
       - by apply (find_price_traded sts s (id_ st) Hp) in Ef; [|unfold traded in Et; lia].
       - unfold lenZ. cbn. lia. }
  assert (Hone : count_traded [st] = 1) by (unfold count_traded; cbn [List.filter]; by rewrite (find_price_Some_traded sts st s q Hp Ef)).
  destruct (allPriceOK s) as [ok s1]. cbn [fst snd] in Ha. destruct Ha as (Hp1 & Hk1 & Hr1 & Hd1 & Hcur & Hfull).
  pose proof (stored_ok sts ok st s1 Hp1 Hr1) as Hp2. pose proof (stored_kept sts ok st s1 Hp1 Hk1 Hr1) as Hk2.
  assert (Hcur2 : g_current_stocks (stored ok st s1) = g_current_stocks s + 1).
  { unfold stored. cbn [with_current with_prices g_current_stocks]. rewrite Hcur. apply swrap_id; [lia|].
    change SERVER_STOCK with 400 in Hc. unfold is_i. lia. }
  assert (Hd2 : g_last_done_loop (stored ok st s1) = -1) by (by rewrite <- Hd, <- Hd1).
  cbv zeta. set (s2 := stored ok st s1) in *. destruct (Z.eqb_spec (g_current_stocks s2) SERVER_STOCK) as [E|E].
  - pose proof (allPriceOK_kept _ _ Hp2 Hk2 ltac:(rewrite length_app; simpl length; lia)) as Ha2.
    destruct (allPriceOK s2) as [ok2 s3]. cbn [fst snd] in Ha2. destruct Ha2 as (Hp3 & Hk3 & _ & Hd3 & _ & Hf3).
    destruct ok2; [done|]. split.
    + split; [exact Hp3|]. split; [exact Hk3|]. split; [done|]. by rewrite <- Hd2, <- Hd3.
    + intros Hf. by specialize (Hf3 (full_more sts [st] Hf)).
  - split; [|intros _; lia]. split; [done|]. split; [done|]. split; [lia|done].
Qed.

Lemma handle_stocks_counts lc new sts s : kept sts s -> Z.of_nat (length sts + length new) < 2 ^ 31 - 1 ->
  counts sts new s (handle_stocks lc new s).
Proof.
  revert sts s. induction new as [|st new IH]; intros sts s Hs Hl; cbn [handle_stocks length] in *.
  { split; [by rewrite app_nil_r|]. intros _. unfold count_traded, lenZ. cbn. lia. }
  pose proof (handle_stock_counts sts lc st s Hs ltac:(lia)) as H1.
  destruct (handle_stock lc st s) as [s1| |]; [|done|done]. destruct H1 as [Hk1 Hc1].
  specialize (IH (sts ++ [st]) s1 Hk1 ltac:(rewrite length_app; simpl length; lia)).
  destruct (handle_stocks lc new s1) as [s2| |]; [|done|done]. destruct IH as [Hk2 Hc2].
  rewrite <- app_assoc in Hk2. split; [exact Hk2|]. intros Hf. rewrite (Hc2 (full_more sts [st] Hf)), (Hc1 Hf).
  unfold count_traded, lenZ. cbn [List.filter]. destruct (traded st); cbn [length]; lia.
Qed.

(** A captured frame with a datagram: the number of a round and 20 stocks. *)
Definition carries (pkt : pcap_pkthdr * list byte) (d : Z * list stock) : Prop :=
  exists f, frame_ok f pkt.1 /\ pkt.2 = frame_bytes f /\ fr_data f = (loop_bytes d.1 ++ flat_map encode d.2)%list /\
    length d.2 = 20%nat /\ is_i 32 d.1 /\ d.1 <> -1.
Definition stocks_of (ds : list (Z * list stock)) : list stock := flat_map (fun d => map int_stock d.2) ds.

Lemma deliver_counts pkts ds sts s : kept sts s -> Forall2 carries pkts ds ->
  Z.of_nat (length sts + length (stocks_of ds)) < 2 ^ 31 - 1 -> counts sts (stocks_of ds) s (deliver pkts s).
Proof.
  intros Hs Hf. revert sts s Hs. induction Hf as [|[h b] [lc new] pkts ds Hc Hf IH]; intros sts s Hs Hl;
    cbn [deliver stocks_of flat_map snd] in *.
  { split; [by rewrite app_nil_r|]. intros _. unfold count_traded, lenZ. cbn. lia. }
  fold (stocks_of ds) in *. destruct Hc as (f & Hok & Hb & Hd & H20 & Hi & Hne). cbn [fst snd] in *. subst b.
  rewrite length_app in Hl. rewrite (callback_stocks s h f lc new) by (done || (destruct Hs as (_ & _ & _ & ->); congruence)).
  set (s0 := with_last_loop _ _). assert (Hs0 : kept sts s0) by exact Hs.
  pose proof (handle_stocks_counts lc (map int_stock new) sts s0 Hs0 ltac:(lia)) as H1.
  destruct (handle_stocks lc _ s0) as [s1| |]; [|done|done]. destruct H1 as [Hk1 Hc1].
  specialize (IH (sts ++ map int_stock new) s1 Hk1 ltac:(rewrite length_app; lia)).
  destruct (deliver pkts s1) as [s2| |]; [|done|done]. destruct IH as [Hk2 Hc2].
  rewrite <- app_assoc in Hk2. split; [exact Hk2|]. intros Hfl. rewrite (Hc2 (full_more sts _ Hfl)), (Hc1 Hfl).
  change (g_current_stocks s0) with (g_current_stocks s). unfold count_traded, lenZ. rewrite List.filter_app, length_app. lia.
Qed.

Lemma deliver_app p1 p2 s : deliver (p1 ++ p2) s = match deliver p1 s with Returns s => deliver p2 s | r => r end.
Proof.
  revert s. induction p1 as [|[h b] p1 IH]; intros s; [done|]. cbn [app deliver]. by destruct (my_callback s h b).
Qed.

Lemma init_kept : kept [] init_server.
Proof.
  split; [apply init_prices_ok|]. split; [|by split]. apply Forall_forall. intros e _.
  unfold deque_kept, lenZ. cbn. lia.
Qed.

(** ** The stocks that packets bring

    What the callback takes out of a packet, said without its steps: the
    payload of a UDP datagram over Ethernet and IP whose headers have been
    captured, and the stocks of it, up to 20, whose bytes have been. *)

(** A packet as the capture library hands it over. *)
Definition captured (pkt : pcap_pkthdr * list byte) : Prop :=
  caplen pkt.1 = lenZ pkt.2 /\ lenZ pkt.2 < 2 ^ 31.

Definition ip_header_length (d : list byte) : Z := 4 * (byte_at 14 d .& 0xf).
Definition udp_payload (d : list byte) : option (list byte) :=
  let hl := ip_header_length d in
  if (34 <=? lenZ d) && (byte_at 23 d =? IPPROTO_UDP) && (14 + hl + 8 <=? lenZ d)
  then Some (drop (Z.to_nat (14 + hl + 8)) d) else None.

Fixpoint payload_stocks (n off : nat) (p : list byte) : list stock :=
  match n with
  | O => []
  | S n => match StockWire.decode (drop off p) with
           | Some st => st :: payload_stocks n (off + 20) p
           | None => []
           end
  end.

(** The stocks of a packet; the number -1 of a round marks what has been dealt
    with. *)
Definition received_in (pkt : pcap_pkthdr * list byte) : list stock :=
  match udp_payload pkt.2 with
  | Some p => if (4 <=? length p)%nat && negb (readInt 0 p =? -1) then payload_stocks 20 4 p else []
  | None => []
  end.
Definition all_received (pkts : list (pcap_pkthdr * list byte)) : list stock := flat_map received_in pkts.

Lemma my_callback_payload s h d :
  captured (h, d) ->
  match udp_payload d with
  | Some p => my_callback s h d = handle_payload p (lenZ p) s
  | None => exists msg, my_callback s h d = Returns (with_message s msg)
  end.
Proof.
  intros [Hc Hl]. cbn [fst snd] in *. unfold udp_payload, ip_header_length, my_callback. rewrite Hc.
  assert (H0 : 0 <= lenZ d) by (unfold lenZ; lia). cbv zeta.
  unfold sizeof_ether_header, sizeof_ip, sizeof_UDP_hdr.
  assert (Hb : forall i, byte_at i (drop (Z.to_nat 14) d) = byte_at (14 + i) d)
    by (intros i; unfold byte_at; by rewrite lookup_drop).
  rewrite !Hb. change (14 + 0)%nat with 14%nat. change (14 + 9)%nat with 23%nat.
  assert (Hh : 0 <= byte_at 14 d .& 0xf <= 15).
  { change 0xf with (Z.ones 4). rewrite Z.land_ones by lia.
    pose proof (Z.mod_pos_bound (byte_at 14 d) (2 ^ 4)). change (Z.ones 4) with 15. lia. }
  set (w := byte_at 14 d .& 0xf) in *.
  rewrite (swrap_id 32 ltac:(lia) (lenZ d)) by clia. rewrite (uwrap_id 64 (lenZ d)) by clia.
  destruct (Z.ltb_spec (lenZ d) 14).
  { replace (34 <=? lenZ d) with false by lia. simpl. eauto. }
  rewrite (swrap_id 32 ltac:(lia) (lenZ d - 14)) by clia.
  rewrite (uwrap_id 64 (lenZ d - 14)), (uwrap_id 32 (lenZ d - 14)) by clia.
  destruct (Z.ltb_spec (lenZ d - 14) 20).
  { replace (34 <=? lenZ d) with false by lia. simpl. eauto. }
  replace (34 <=? lenZ d) with true by lia. rewrite andb_true_l.
  destruct (Z.ltb_spec (lenZ d - 14) (w * 4)).
  { replace (14 + 4 * w + 8 <=? lenZ d) with false by lia. rewrite andb_false_r. eauto. }
  destruct (byte_at 23 d =? IPPROTO_UDP); simpl negb; cbv iota; [|simpl; eauto].
  rewrite (swrap_id 32 ltac:(lia) (lenZ d - 14 - w * 4)) by clia.
  rewrite (uwrap_id 64 (lenZ d - 14 - w * 4)) by clia.
  rewrite andb_true_l.
  destruct (Z.ltb_spec (lenZ d - 14 - w * 4) 8).
  { replace (14 + 4 * w + 8 <=? lenZ d) with false by lia. eauto. }
  replace (14 + 4 * w + 8 <=? lenZ d) with true by lia. rewrite !drop_drop.
  replace (Z.to_nat 14 + (Z.to_nat (w * 4) + Z.to_nat 8))%nat with (Z.to_nat (14 + 4 * w + 8)) by lia.
  f_equal. unfold lenZ in *. rewrite length_drop. lia.
Qed.

(** ** The window

    After the stocks [sts] every deque holds the latest closing prices of its
    stock, at least as many as it is to hold. *)
Definition window (sts : list stock) (s : server) : Prop :=
  prices_ok sts s /\ Forall (deque_kept sts) (g_priceMap s) /\ g_last_done_loop s = -1.

(** Of [new] stocks to be taken in, all have been if the callback returns, and
    otherwise the first ones. *)
Definition windowed (sts new : list stock) (r : callback_result) : Prop :=
  exists got rest, new = got ++ rest /\ window (sts ++ got) (state_of r) /\ computes_ready r /\
    match r with Returns _ => rest = [] | _ => True end.

Lemma windowed_none sts new r : window sts (state_of r) -> computes_ready r ->
  match r with Returns _ => new = [] | _ => True end -> windowed sts new r.
Proof. intros Hw Hc Hn. exists [], new. rewrite app_nil_r. by split_and!. Qed.

Lemma windowed_bind sts a b r k :
  windowed sts a r -> (forall s, r = Returns s -> window (sts ++ a) s -> windowed (sts ++ a) b (k s)) ->
  windowed sts (a ++ b)
    (match r with
     | Returns s => k s | ReadsOutside off s => ReadsOutside off s | Computes m s => Computes m s
     end).
Proof.
  intros (got & rest & -> & Hw & Hc & Hr) Hk. destruct r as [s|off s|m s].
  - subst rest. rewrite app_nil_r in *. destruct (Hk s eq_refl Hw) as (got2 & rest2 & -> & Hw2 & Hc2 & Hr2).
    exists (got ++ got2), rest2. rewrite <- !app_assoc in *. by split_and!.
  - exists got, (rest ++ b). by rewrite <- app_assoc.
  - exists got, (rest ++ b). by rewrite <- app_assoc.
Qed.

Lemma handle_stock_window sts lc st s :
  window sts s -> Z.of_nat (length sts) < 2 ^ 31 - 1 -> windowed sts [st] (handle_stock lc st s).
Proof.
  intros (Hp & Hk & Hd) Hl. pose proof (handle_stock_ok sts lc st s Hp Hl) as Hok.
  pose proof (allPriceOK_kept sts s Hp Hk ltac:(lia)) as Ha. rewrite handle_stock_eq in *.
  destruct (find_price (id_ st) (g_priceMap s)) as [q|] eqn:Ef.
  2: { exists [st], []. split_and!; try done. split_and!; [done| |done].
       pose proof (find_price_None_history sts st s Ef) as Hh.
       eapply Forall_impl; [exact (proj2 (Forall_and _ _) (conj Hk Hh))|]. intros e [He Hhe].
       unfold deque_kept. by rewrite Hhe. }
  destruct (allPriceOK s) as [ok s1]. cbn [fst snd] in Ha. destruct Ha as (Hp1 & Hk1 & Hr1 & Hd1 & _).
  pose proof (stored_ok sts ok st s1 Hp1 Hr1) as Hp2. pose proof (stored_kept sts ok st s1 Hp1 Hk1 Hr1) as Hk2.
  assert (Hd2 : g_last_done_loop (stored ok st s1) = -1) by (by rewrite <- Hd, <- Hd1).
  cbv zeta in *. set (s2 := stored ok st s1) in *. destruct (g_current_stocks s2 =? SERVER_STOCK).
  2: { exists [st], []. by split_and!. }
  pose proof (allPriceOK_kept _ _ Hp2 Hk2 ltac:(rewrite length_app; simpl length; lia)) as Ha2.
  destruct (allPriceOK s2) as [ok2 s3]. cbn [fst snd] in Ha2. destruct Ha2 as (Hp3 & Hk3 & _ & Hd3 & _).
  assert (g_last_done_loop s3 = -1) by congruence.
  exists [st], []. destruct ok2; split_and!; try done; by destruct Hok as (_ & ? & ?).
Qed.

Lemma handle_group_window n off lc p sts s :
  window sts s -> Z.of_nat (length sts + n) < 2 ^ 31 ->
  windowed sts (payload_stocks n off p) (handle_group n off lc p s).
Proof.
  revert off sts s. induction n as [|n IH]; intros off sts s Hs Hl; cbn [handle_group payload_stocks].
  { by apply windowed_none. }
  destruct (StockWire.decode _) as [st|]; [|by apply windowed_none].
  apply (windowed_bind sts [st] (payload_stocks n (off + 20) p) (handle_stock lc st s)
           (handle_group n (off + 20) lc p)); [apply handle_stock_window; [done|lia]|].
  intros s1 _ Hw. apply IH; [done|]. rewrite length_app. simpl length. lia.
Qed.

Lemma length_payload_stocks n off p : (length (payload_stocks n off p) <= n)%nat.
Proof.
  revert off. induction n as [|n IH]; intros off; cbn [payload_stocks]; [done|].
  destruct (StockWire.decode _); simpl; [|lia]. specialize (IH (off + 20)%nat). lia.
Qed.

Lemma length_received_in pkt : (length (received_in pkt) <= 20)%nat.
Proof.
  unfold received_in. destruct (udp_payload _) as [p|]; [|simpl; lia].
  destruct (_ && _); [apply length_payload_stocks|simpl; lia].
Qed.

Lemma my_callback_window sts s pkt :
  window sts s -> captured pkt -> Z.of_nat (length sts + 20) < 2 ^ 31 ->
  windowed sts (received_in pkt) (my_callback s pkt.1 pkt.2).
Proof.
  destruct pkt as [h d]. intros Hs Hc Hl. pose proof (my_callback_payload s h d Hc) as Hm.
  unfold received_in. cbn [fst snd]. destruct (udp_payload d) as [p|].
  2: { destruct Hm as [msg ->]. apply windowed_none; [exact Hs|done..]. }
  rewrite Hm. unfold handle_payload. rewrite Nat.leb_antisym.
  destruct (length p <? 4)%nat; [by apply windowed_none|]. simpl negb. rewrite andb_true_l. cbv zeta.
  cbn [g_last_done_loop with_file]. assert (Hd : g_last_done_loop s = -1) by apply Hs. rewrite Hd.
  rewrite (Z.eqb_sym (-1)). destruct (readInt 0 p =? -1); [apply windowed_none; [exact Hs|done..]|].
  apply (handle_group_window 20); [|done]. case_match; exact Hs.
Qed.

Lemma deliver_window pkts sts s :
  window sts s -> Forall captured pkts -> Z.of_nat (length sts + 20 * length pkts) < 2 ^ 31 ->
  windowed sts (all_received pkts) (deliver pkts s).
Proof.
  intros Hs Hc. revert sts s Hs. induction Hc as [|[h d] pkts Hpk Hc IH]; intros sts s Hs Hl.
  { by apply windowed_none. }
  cbn [deliver all_received flat_map length] in *. fold (all_received pkts).
  apply (windowed_bind sts (received_in (h, d)) (all_received pkts) (my_callback s h d) (deliver pkts));
    [apply (my_callback_window sts s (h, d)); [done..|lia]|].
  intros s1 _ Hw. apply IH; [done|]. rewrite length_app. pose proof (length_received_in (h, d)). lia.
Qed.

(** C26: The window of prices.  [all_received] decodes the stocks that packets
    bring, 20 at most from each UDP datagram.  Whatever packets are captured
    (fewer than [2^31] stocks), if the callback returns from all of them the
    table has taken in all stocks received, and if a packet is too short or
    the computation starts, the first ones of them.  The table then has the
    stocks 0 to 399, and the deque of each is the end of the sequence of the
    closing prices received for it: all of them, or at least the last 4096.
    When the computation starts it is exactly the last 4096. *)
Theorem price_window pkts :
  Forall captured pkts -> Z.of_nat (20 * length pkts) < 2 ^ 31 ->
  let r := deliver pkts init_server in
  exists sts rest, all_received pkts = sts ++ rest /\
    match r with Returns _ => rest = [] | _ => True end /\
    map fst (g_priceMap (state_of r)) = map Z.of_nat (seq 0 400) /\
    Forall (fun e : Z * list Z => e.2 `suffix_of` history sts e.1 /\
              Z.min PRICE_LIST_SIZE (lenZ (history sts e.1)) <= lenZ e.2) (g_priceMap (state_of r)) /\
    match r with
    | Computes m s => m = g_priceMap s /\ Forall (fun e : Z * list Z => lenZ e.2 = PRICE_LIST_SIZE) m
    | _ => True
    end.
Proof.
  intros Hcap Hlen r. assert (Hw : window [] init_server) by (destruct init_kept as (? & ? & _ & ?); by split_and!).
  destruct (deliver_window pkts [] init_server Hw Hcap Hlen) as (got & rest & Hrec & Hgot & Hc & Hr).
  fold r in Hgot, Hc, Hr. destruct Hgot as ((Hk & He & Hready) & Hd & _). exists got, rest. cbn [app] in *.
  split_and!; [done|done| | |].
  - rewrite Hk. change (g_priceMap init_server) with (map (fun i => (Z.of_nat i, @nil Z)) (seq 0 400)).
    by rewrite map_map.
  - apply Forall_and. by split.
  - destruct r as [s|off s|m s]; try done. destruct Hc as [Hrs ->]. split; [done|by apply Hready].
Qed.

(** C28: What the server waits for happens.  Let datagrams arrive in captured
    frames, each with a round other than -1 and 20 stocks of any ids, fewer
    than [2^31 - 1] in all: if first datagrams bring 4096 prices of each of the
    400 stocks of the table, in any order, and then further ones bring 400
    stocks of the table more, the computation starts, as long as it is not cut
    short by the number of packets.  Other stocks, as the client sends them
    too, do not count. *)
Theorem server_computes pkts1 ds1 pkts2 ds2 :
  Forall2 carries pkts1 ds1 -> Forall2 carries pkts2 ds2 -> full (stocks_of ds1) ->
  SERVER_STOCK <= count_traded (stocks_of ds2) -> Z.of_nat (length (stocks_of (ds1 ++ ds2))) < 2 ^ 31 - 1 ->
  exists m s, deliver (pkts1 ++ pkts2) init_server = Computes m s.
Proof.
  intros H1 H2 Hf Hn Hl. unfold stocks_of in Hl. rewrite flat_map_app in Hl. fold (stocks_of ds1) (stocks_of ds2) in Hl.
  rewrite length_app in Hl. rewrite deliver_app.
  pose proof (deliver_counts pkts1 ds1 [] init_server init_kept H1 ltac:(cbn [length]; lia)) as Hc1.
  destruct (deliver pkts1 init_server) as [s1| |m s]; [|done|by exists m, s]. destruct Hc1 as [Hk1 _].
  pose proof (deliver_counts pkts2 ds2 _ s1 Hk1 H2 ltac:(cbn [app]; lia)) as Hc2.
  destruct (deliver pkts2 s1) as [s2| |m s]; [|done|by exists m, s]. exfalso. destruct Hc2 as [(_ & _ & Hcur & _) Hc2].
  specialize (Hc2 Hf). destruct Hk1 as (_ & _ & Hcur1 & _). lia.
Qed.

(** A client that sends a price of 100 for every stock in each of 4097 rounds. *)
Definition round_of_100 (k : Z) : list (Z * list stock) :=
  map (fun g => (k, map (fun i => Stock (Z.of_nat (20 * g + i)) 100 100 100 100) (seq 0 20))) (seq 0 20).
Definition rounds_of_100 (n : nat) : list (Z * list stock) := flat_map (fun k => round_of_100 (Z.of_nat k)) (seq 0 n).
Definition frame_of (d : Z * list stock) : pcap_pkthdr * list byte :=
  let f := lo_frame (loop_bytes d.1 ++ flat_map encode d.2) in (frame_hdr f, frame_bytes f).

Lemma frame_carries d : length d.2 = 20%nat -> is_i 32 d.1 -> d.1 <> -1 -> carries (frame_of d) d.
Proof.
  intros H20 Hi Hne. exists (lo_frame (loop_bytes d.1 ++ flat_map encode d.2)). split_and!; try done.
  apply lo_frame_ok. unfold lenZ. rewrite length_app.
  assert (H : forall l, length (flat_map encode l) = (20 * length l)%nat).
  { induction l as [|s l IH]; [done|]. cbn [flat_map length]. rewrite length_app, IH, length_encode. lia. }
  rewrite H, H20. cbn [loop_bytes length]. lia.
Qed.

Lemma rounds_carry n : Z.of_nat n < 2 ^ 31 -> Forall2 carries (map frame_of (rounds_of_100 n)) (rounds_of_100 n).
Proof.
  intros Hn. apply Forall2_fmap_l, Forall_Forall2_diag, Forall_forall. intros d Hd.
  apply list_elem_of_In, in_flat_map in Hd as (k & Hk%in_seq & Hd). unfold round_of_100 in Hd.
  apply in_map_iff in Hd as (g & <- & _). apply frame_carries; cbn [fst snd]; [by rewrite length_map, length_seq|unfold is_i; lia|lia].
Qed.

Definition stocks_of_100 : list stock := stocks_of (round_of_100 0).
Lemma stocks_of_round k : stocks_of (round_of_100 k) = stocks_of_100.
Proof.
  unfold stocks_of_100, stocks_of, round_of_100. rewrite !flat_map_concat_map, !map_map. reflexivity.
Qed.

Lemma stocks_of_rounds (P : list stock -> nat -> Prop) n : P [] 0%nat ->
  (forall l n, P l n -> P (stocks_of_100 ++ l) (S n)) -> P (stocks_of (rounds_of_100 n)) n.
Proof.
  intros H0 HS. unfold rounds_of_100. generalize 0%nat at 1. induction n as [|n IH]; intros a; [exact H0|].
  cbn [seq flat_map]. unfold stocks_of. rewrite flat_map_app. fold (stocks_of (round_of_100 (Z.of_nat a))).
  rewrite stocks_of_round. apply HS, IH.
Qed.

Lemma history_of_100 id : 0 <= id < SERVER_STOCK -> 1 <= lenZ (history stocks_of_100 id).
Proof.
  intros Hid. assert (Ha : forallb (fun i => 1 <=? lenZ (history stocks_of_100 (Z.of_nat i))) (seq 0 400) = true)
    by (vm_compute; reflexivity).
  rewrite forallb_forall in Ha. rewrite <- (Z2Nat.id id) by lia. apply Z.leb_le, Ha, in_seq.
  unfold SERVER_STOCK in Hid. lia.
Qed.

Lemma history_app (a b : list stock) id : lenZ (history (a ++ b) id) = lenZ (history a id) + lenZ (history b id).
Proof. unfold history, lenZ. rewrite List.filter_app, map_app, length_app. lia. Qed.

Lemma rounds_history id n : 0 <= id < SERVER_STOCK -> Z.of_nat n <= lenZ (history (stocks_of (rounds_of_100 n)) id).
Proof.
  intros Hid. pose proof (history_of_100 id Hid) as H1.
  apply (stocks_of_rounds (fun l n => Z.of_nat n <= lenZ (history l id))); [reflexivity || discriminate|]. intros l k IH.
  rewrite history_app. revert H1 IH. generalize (lenZ (history stocks_of_100 id)) (lenZ (history l id)). lia.
Qed.

Lemma rounds_full n : PRICE_LIST_SIZE <= Z.of_nat n -> full (stocks_of (rounds_of_100 n)).
Proof. intros Hn id Hid. exact (Z.le_trans _ _ _ Hn (rounds_history id n Hid)). Qed.

Lemma rounds_length n : Z.of_nat (length (stocks_of (rounds_of_100 n))) = 400 * Z.of_nat n.
Proof.
  apply (stocks_of_rounds (fun l n => Z.of_nat (length l) = 400 * Z.of_nat n)); [reflexivity|]. intros l k Hl.
  assert (H : length stocks_of_100 = 400%nat) by (vm_compute; reflexivity).
  rewrite length_app, H. lia.
Qed.

Lemma rounds_app n m : stocks_of (rounds_of_100 n ++ rounds_of_100 m) = stocks_of (rounds_of_100 n) ++ stocks_of (rounds_of_100 m).
Proof. apply flat_map_app. Qed.

Lemma one_round_traded : SERVER_STOCK <= count_traded (stocks_of (rounds_of_100 1)).
Proof. vm_compute. discriminate. Qed.

Lemma server_computes_witness :
  exists m s, deliver (map frame_of (rounds_of_100 (Z.to_nat PRICE_LIST_SIZE)) ++ map frame_of (rounds_of_100 1)) init_server = Computes m s.
Proof.
  assert (Hn : Z.of_nat (Z.to_nat PRICE_LIST_SIZE) = 4096) by (rewrite Z2Nat.id; reflexivity || discriminate).
  revert Hn. generalize (Z.to_nat PRICE_LIST_SIZE). intros n Hn.
  apply (server_computes _ (rounds_of_100 n) _ (rounds_of_100 1)).
  - apply rounds_carry. rewrite Hn. reflexivity.
  - apply rounds_carry. reflexivity.
  - apply rounds_full. rewrite Hn. discriminate.
  - exact one_round_traded.
  - rewrite rounds_app, length_app, Nat2Z.inj_add, !rounds_length, Hn. reflexivity.
Defined.

(** One datagram of the client: its 20 stocks are received, and each deque has
    the closing price of its stock. *)
Lemma price_window_witness :
  let pkt := (frame_hdr (lo_frame first_datagram), frame_bytes (lo_frame first_datagram)) in
  all_received [pkt] = map int_stock (map (generated 0 0 (fun n => Z.of_nat n * 1000003)) (seq 0 20)) /\
  exists sts rest, all_received [pkt] = sts ++ rest /\
    Forall (fun e : Z * list Z => e.2 `suffix_of` history sts e.1)
      (g_priceMap (state_of (deliver [pkt] init_server))).
Proof.
  set (pkt := (_, _)). split; [vm_compute; reflexivity|].
  destruct (price_window [pkt]) as (sts & rest & Hr & _ & _ & Hs & _).
  - repeat constructor; vm_compute; reflexivity.
  - reflexivity.
  - exists sts, rest. split; [exact Hr|]. eapply Forall_impl; [exact Hs|]. by intros e [? _].
Defined.
