(* ===== verification/StockFilter.v ===== *)
(** The filter of the stock server, [server/main.cpp] ([pcapServer]): the
    program that [pcap_compile] makes of the text of [filter_exp], and the
    packets that the filter machine accepts with it; and filters of which the
    optimizer changes what they accept. *)
From S2P Require Import Prelude CString CFile PcapInt Pcap Bpf BpfFilter BpfValidate Datalink GenConst Gencode GenLink Names.
From S2P Require Import Scanner GrammarTab Parser Icode OptFlow OptValue Optimize Compile StockWire StockServer.

#[local] Open Scope Z_scope.
#[local] Open Scope c_scope.

Definition filter_exp : string := "port 4567 and udp".
(** The snapshot length that [pcapServer] opens the device with. *)
Definition BUFSIZ := 8192.

(** ** The program *)

Definition server_compiles (optimize : bool) : compile_result :=
  pcap_compile 3 (fun _ => true)
    (Resolver (fun _ => None) (fun _ _ => None) (fun _ => None) (fun _ => None) (fun _ => None) (fun _ => false))
    (pcap_open_dead DLT_EN10MB BUFSIZ) false (Some filter_exp) optimize 0.
Definition program_of (r : compile_result) : program := match r with Compiled fp _ => fp | _ => [] end.

Definition server_program : program := Eval vm_compute in program_of (server_compiles false).
Definition optimized_program : program := Eval vm_compute in program_of (server_compiles true).

(** ** The packets *)

(** Two octets in network order, and one, where the packet has them. *)
Definition half (p : list byte) (off : Z) : option Z := be_combine <$> sub off 2 p.
Definition octet (p : list byte) (off : Z) : option Z := be_combine <$> sub off 1 p.
Definition equals (o : option Z) (v : Z) : bool := match o with Some x => x =? v | None => false end.

(** An Ethernet frame with a UDP datagram from or to port 4567: over IPv6
    without extension headers, or over IPv4 in the first fragment. *)
Definition udp6_4567 (p : list byte) : bool :=
  (equals (octet p 20) 17 && (equals (half p 54) 4567 || equals (half p 56) 4567))%bool.
Definition udp4_4567 (p : list byte) : bool :=
  match octet p 14, half p 20 with
  | Some vhl, Some frag =>
      let hlen := (vhl .& 0xf) * 4 in
      (equals (octet p 23) 17 && (frag .& 0x1fff =? 0) && (equals (half p (hlen + 14)) 4567 || equals (half p (hlen + 16)) 4567))%bool
  | _, _ => false
  end.
Definition server_accepts (p : list byte) : bool :=
  if equals (half p 12) 0x86dd then udp6_4567 p
  else if equals (half p 12) 0x800 then udp4_4567 p
  else false.

(** ** Loads *)

Lemma load_half p off : 0 <= off < 2 ^ 31 ->
  load H p (lenZ p) off = match half p off with Some v => Loaded v | None => Short end.
Proof.
  intros Ho. unfold load, BpfFilter.too_short, extract, half, sub, lenZ. cbn [size_bytes].
  rewrite (uwrap_id 64) by clia. destruct (Z.ltb_spec (Z.of_nat (length p)) (off + 2)).
  - by rewrite (proj2 (Z.leb_gt (off + 2) _)), andb_false_r by lia.
  - rewrite !(proj2 (Z.leb_le _ _)) by lia. done.
Qed.

Lemma load_octet p off : 0 <= off < 2 ^ 31 ->
  load B p (lenZ p) off = match octet p off with Some v => Loaded v | None => Short end.
Proof.
  intros Ho. unfold load, BpfFilter.too_short, extract, octet, sub, lenZ. cbn [size_bytes].
  rewrite (uwrap_id 32) by clia. destruct (Z.leb_spec (Z.of_nat (length p)) off).
  - by rewrite (proj2 (Z.leb_gt (off + 1) _)), andb_false_r by lia.
  - rewrite !(proj2 (Z.leb_le _ _)) by lia. done.
Qed.

Lemma octet_range p off v : octet p off = Some v -> 0 <= v < 256.
Proof.
  unfold octet, sub. case_match; [|done]. cbn [fmap option_fmap option_map]. intros [= <-].
  pose proof (be_combine_bound (take (Z.to_nat 1) (drop (Z.to_nat off) p))) as Hb. rewrite length_take in Hb.
  assert (2 ^ (8 * Z.of_nat (Z.to_nat 1 `min` length (drop (Z.to_nat off) p))) <= 2 ^ 8) by (apply Z.pow_le_mono_r; lia).
  lia.
Qed.

Lemma half_short p a b v : half p a = None -> half p b = Some v -> 0 <= a <= b -> False.
Proof.
  unfold half, sub. intros Ha Hb Hab. destruct (_ && _) eqn:E in Ha; [done|]. destruct (_ && _) eqn:E' in Hb; [|done]. lia.
Qed.

(** The header length, as [BPF_MSH] computes it. *)
Lemma header_length v : 0 <= v < 256 -> (v .& 0xf) << 2 = (v .& 0xf) * 4 /\ 0 <= (v .& 0xf) * 4 <= 60.
Proof.
  intros Hv. rewrite Z.shiftl_mul_pow2 by lia. split; [done|]. change 0xf with (Z.ones 4).
  rewrite Z.land_ones by lia. pose proof (Z.mod_pos_bound v (2 ^ 4)). lia.
Qed.

(** One instruction of the program. *)
Lemma run_step f n i o p wirelen buflen m :
  nthZ f (rpc m) = Some i -> Bpf.decode (code i) = Some o ->
  run (S n) f p wirelen buflen m =
  match exec i p wirelen buflen m o with Done r => Some r | Next m' => run n f p wirelen buflen m' end.
Proof. intros Hi Ho. cbn [run]. unfold step. by rewrite Hi, Ho. Qed.

(** The header length of a packet whose first network octet is [v]. *)
Lemma msh_step i p m v : abs_off i = 14 -> k i = 14 -> octet p 14 = v ->
  exec i p (lenZ p) (lenZ p) m LdxMsh =
  match v with Some v => setX m ((v .& 0xf) * 4) | None => Done (Returned 0) end.
Proof.
  intros Ha Hk Hv. pose proof (load_octet p 14 ltac:(lia)) as Hl. unfold load, BpfFilter.too_short in Hl.
  cbn [exec]. rewrite Ha, Hk. destruct (_ <=? _).
  - rewrite Hv in Hl. by destruct v.
  - rewrite Hl, Hv. destruct v as [v|]; [|done]. cbn [with_loaded]. by rewrite (proj1 (header_length v (octet_range _ _ _ Hv))).
Qed.

(** The steps of the program: loads at an offset that the program knows, the
    header length, loads after the header, and tests. *)
Lemma half_step i p m off v : abs_off i = off -> 0 <= off < 2 ^ 31 -> half p off = v ->
  exec i p (lenZ p) (lenZ p) m (LdAbs H) = match v with Some v => setA m v | None => Done (Returned 0) end.
Proof. intros Ho Hr <-. cbn [exec]. rewrite Ho, load_half by done. by destruct (half p off). Qed.
Lemma octet_step i p m off v : abs_off i = off -> 0 <= off < 2 ^ 31 -> octet p off = v ->
  exec i p (lenZ p) (lenZ p) m (LdAbs B) = match v with Some v => setA m v | None => Done (Returned 0) end.
Proof. intros Ho Hr <-. cbn [exec]. rewrite Ho, load_octet by done. by destruct (octet p off). Qed.
Lemma ind_step i p m off v : rX m + k i = off -> 0 <= off < 2 ^ 31 -> half p off = v ->
  exec i p (lenZ p) (lenZ p) m (LdInd H) = match v with Some v => setA m v | None => Done (Returned 0) end.
Proof.
  intros Ho Hr <-. cbn [exec]. unfold ind_off. rewrite Ho, (uwrap_id 32), (swrap_id 32) by clia.
  rewrite load_half by done. by destruct (half p off).
Qed.
Lemma test_step i p m j b : test j (rA m) (k i) = b ->
  exec i p (lenZ p) (lenZ p) m (JmpIf j K) = jump m (if b then jt i else jf i).
Proof. by intros <-. Qed.

Ltac known_or_case x E :=
  match goal with
  | H : x = _ |- _ => rewrite H
  | _ => destruct x eqn:E
  end.
Ltac next_insn :=
  match goal with
  | |- context [run (S ?n) ?f ?p ?w ?b ?m] =>
      let pc := eval vm_compute in (rpc m) in
      let i := eval vm_compute in (nthZ f pc) in
      match i with
      | Some ?i =>
          let o := eval vm_compute in (Bpf.decode (code i)) in
          match o with
          | Some ?o =>
              rewrite (run_step f n i o p w b m eq_refl eq_refl);
              let E := fresh "E" in
              let off := eval vm_compute in (k i) in
              match o with
              | LdAbs H => rewrite (half_step i p m off _ eq_refl ltac:(lia) eq_refl); known_or_case (half p off) E
              | LdAbs B => rewrite (octet_step i p m off _ eq_refl ltac:(lia) eq_refl); known_or_case (octet p off) E
              | LdxMsh => rewrite (msh_step i p m _ eq_refl eq_refl eq_refl); known_or_case (octet p 14) E
              | LdInd H =>
                  match goal with
                  | H : octet p 14 = Some ?v |- _ => pose proof (proj2 (header_length v (octet_range _ _ _ H)))
                  end;
                  rewrite (ind_step i p m (rX m + off) _ eq_refl ltac:(cbn [rX]; lia) eq_refl);
                  cbn [rX]; match goal with |- context [half p ?o] => known_or_case (half p o) E end
              | JmpIf ?j K =>
                  rewrite (test_step i p m j _ eq_refl); cbn [test rA k];
                  match goal with |- context [jump _ (if ?b then _ else _)] => known_or_case b E end
              | _ => cbn [exec]
              end
          end
      end
  end; cbn [setA setX jump rA rX rpc rmem jt jf k negb].

(** Every path of a program ends with the verdict of [server_accepts]. *)
Ltac run_paths :=
  unfold bpf_filter, init_machine, server_accepts, udp6_4567, udp4_4567, equals;
  repeat next_insn; try done; rewrite ?Z.eqb_eq, ?Z.eqb_neq in *; try (exfalso; lia);
  repeat match goal with
         | |- context [?x =? ?y] => destruct (Z.eqb_spec x y)
         | |- context [match ?o with Some _ => _ | None => _ end] => destruct o eqn:?
         end; first [done|exfalso; lia|exfalso; eauto using half_short with lia].

(** The programs on a packet that is captured whole. *)
Lemma server_run mem0 p :
  bpf_filter 67 mem0 (Some server_program) p (lenZ p) (lenZ p) =
  Some (Returned (if server_accepts p then BUFSIZ else 0)).
Proof. run_paths. Qed.
Lemma optimized_run mem0 p :
  bpf_filter 25 mem0 (Some optimized_program) p (lenZ p) (lenZ p) =
  Some (Returned (if server_accepts p then BUFSIZ else 0)).
Proof. run_paths. Qed.

(** ** From the text to the verdict *)

(** C5: The filter that the server installs: on an Ethernet device, whatever
    the name services and the address given as the netmask, [pcap_compile]
    turns [filter_exp] into a program of 66 instructions, and with the
    optimizer, which ends in three turns, into one of 24.  With either the
    filter machine accepts a packet that is captured whole exactly if it is a
    UDP datagram from or to port 4567, over IPv6 or in the first fragment of an
    IPv4 datagram. *)
Theorem server_filter_correct r p net :
  activated p = true -> pcap_snapshot p = BUFSIZ -> linktype p = DLT_EN10MB ->
  exists fp fp', pcap_compile 3 (fun _ => true) r p false (Some filter_exp) false net = Compiled fp 66 /\
    pcap_compile 3 (fun _ => true) r p false (Some filter_exp) true net = Compiled fp' 24 /\
    forall mem0 d,
      bpf_filter 67 mem0 (Some fp) d (lenZ d) (lenZ d) = Some (Returned (if server_accepts d then BUFSIZ else 0)) /\
      bpf_filter 25 mem0 (Some fp') d (lenZ d) (lenZ d) = Some (Returned (if server_accepts d then BUFSIZ else 0)).
Proof.
  intros Ha Hs Hl. exists server_program, optimized_program. split; [|split].
  - unfold pcap_compile. rewrite Ha, Hs, Hl. cbn [andb]. vm_compute. reflexivity.
  - unfold pcap_compile. rewrite Ha, Hs, Hl. cbn [andb]. vm_compute. reflexivity.
  - intros mem0 d. split; [apply server_run|apply optimized_run].
Qed.

(** An Ethernet frame with a datagram to port 4567. *)
Definition sample_frame : list byte :=
  map byte.of_Z (repeat 0 12 ++ [8; 0; 0x45; 0; 0; 50; 0; 0; 0; 0; 64; 17] ++ repeat 0 10 ++
                 [0; 9; 0x11; 0xd7; 0; 30; 0; 0] ++ repeat 0 22).

Lemma server_filter_correct_witness :
  exists fp, server_compiles true = Compiled fp 24 /\
    bpf_filter 25 zero_mem (Some fp) sample_frame 64 64 = Some (Returned BUFSIZ).
Proof.
  destruct (server_filter_correct
    (Resolver (fun _ => None) (fun _ _ => None) (fun _ => None) (fun _ => None) (fun _ => None) (fun _ => false))
    (pcap_open_dead DLT_EN10MB BUFSIZ) 0 eq_refl eq_refl eq_refl) as (fp0 & fp & H0 & Hc & Hf). clear H0.
  exists fp. split; [exact Hc|]. change 64 with (lenZ sample_frame).
  rewrite (proj2 (Hf zero_mem sample_frame)). vm_compute. reflexivity.
Defined.

(** ** Filters that the optimizer changes *)

Section Changed.
Context (r : resolver) (h : pcap_t) (net : Z) (h_on : activated h = true) (h_snap : pcap_snapshot h = 65535)
        (h_type : linktype h = DLT_EN10MB).

Definition ethernet_filter (text : string) (optimize : bool) : compile_result :=
  pcap_compile 9 (fun _ => true) r h false (Some text) optimize net.

Lemma ethernet_filter_eq text optimize :
  ethernet_filter text optimize =
  pcap_compile 9 (fun _ => true) r (pcap_open_dead DLT_EN10MB 65535) false (Some text) optimize net.
Proof using h_on h_snap h_type. unfold ethernet_filter, pcap_compile. by rewrite h_on, h_snap, h_type. Qed.
End Changed.

(** A machine without name services, and a handle. *)
Definition no_names : resolver :=
  Resolver (fun _ => None) (fun _ _ => None) (fun _ => None) (fun _ => None) (fun _ => None) (fun _ => false).
Definition sample_filter : string -> bool -> compile_result :=
  ethernet_filter no_names (pcap_open_dead DLT_EN10MB 65535) 0.

(** Scratch memory in a known state. *)
Lemma mem_set_at m idx v w : nthZ (rmem m) idx = Some w ->
  mem_set m idx v = Next (Machine (rA m) (rX m) (rpc m + 1) (<[Z.to_nat idx := i32 v]> (rmem m))).
Proof. intros Hw. unfold mem_set. by rewrite Hw. Qed.
Lemma mem_get_at m idx f w : nthZ (rmem m) idx = Some w -> mem_get m idx f = f (u32 w).
Proof. intros Hw. unfold mem_get. by rewrite Hw. Qed.
Lemma stored_loaded v : 0 <= v < 2 ^ 32 -> u32 (i32 v) = v.
Proof. intros Hv. rewrite uwrap_swrap by lia. by apply uwrap_id. Qed.
Lemma ind_octet_step i p m off v : rX m + k i = off -> 0 <= off < 2 ^ 31 -> octet p off = v ->
  exec i p (lenZ p) (lenZ p) m (LdInd B) = match v with Some v => setA m v | None => Done (Returned 0) end.
Proof.
  intros Ho Hr <-. cbn [exec]. unfold ind_off. rewrite Ho, (uwrap_id 32), (swrap_id 32) by clia.
  rewrite load_octet by done. by destruct (octet p off).
Qed.

Lemma land_full v : 0 <= v < 2 ^ 32 -> v .& 4294967295 = v.
Proof. intros Hv. change 4294967295 with (Z.ones 32). rewrite Z.land_ones by lia. by apply Z.mod_small. Qed.
Lemma sub_zero v : 0 <= v < 2 ^ 32 -> u32 (v - 0) = v.
Proof. intros Hv. rewrite Z.sub_0_r. by apply uwrap_id. Qed.

(** The steps of programs with arithmetic. *)
Ltac octet_ranges :=
  repeat match goal with
         | H : octet _ _ = Some ?v |- _ =>
             match goal with
             | _ : 0 <= v < 256 |- _ => fail 1
             | _ => pose proof (octet_range _ _ _ H)
             end
         end.
Ltac next_arith :=
  match goal with
  | |- context [run (S ?n) ?f ?p ?w ?b ?m] =>
      let pc := eval vm_compute in (rpc m) in
      let i := eval vm_compute in (nthZ f pc) in
      match i with
      | Some ?i =>
          let o := eval vm_compute in (Bpf.decode (code i)) in
          match o with
          | Some (LdInd B) =>
              rewrite (run_step f n i (LdInd B) p w b m eq_refl eq_refl);
              let off := eval vm_compute in (rX m + k i) in
              rewrite (ind_octet_step i p m off _ eq_refl ltac:(lia) eq_refl);
              let E := fresh "E" in known_or_case (octet p off) E
          | Some (LdAbs _) => fail 1
          | Some LdxMsh => fail 1
          | Some (JmpIf _ _) => fail 1
          | Some ?o =>
              rewrite (run_step f n i o p w b m eq_refl eq_refl); cbn [exec];
              first [erewrite mem_set_at by reflexivity | erewrite mem_get_at by reflexivity | idtac];
              octet_ranges; rewrite ?stored_loaded by (cbn [rA rX k]; lia); cbn [alu rA rX];
              rewrite ?land_full by lia; rewrite ?sub_zero by lia; rewrite ?Z.div_0_l by lia;
              try match goal with |- context [match (if ?x =? 0 then _ else _) with _ => _ end] => destruct (Z.eqb_spec x 0) end
          end
      end
  end; cbn [setA setX jump operand rA rX rpc rmem jt jf k negb].

(** The verdict on a packet that is captured whole. *)
Definition says (mem0 : list Z) (f : program) (d : list byte) : option outcome :=
  bpf_filter (S (length f)) mem0 (Some f) d (lenZ d) (lenZ d).

Ltac run_arith :=
  unfold says, bpf_filter, init_machine, equals;
  match goal with |- context [run ?n ?f ?p] => let n' := eval vm_compute in n in change (run n f p) with (run n' f p) end;
  repeat first [next_arith|next_insn]; cbn [operand rX k] in *;
  repeat match goal with |- context [?x =? ?y] => destruct (Z.eqb_spec x y) end; first [done|exfalso; lia].

Definition plain_and : program := Eval vm_compute in program_of (sample_filter "ip[8] & 0xffffffff = 0" false).
Definition opt_and : program := Eval vm_compute in program_of (sample_filter "ip[8] & 0xffffffff = 0" true).
Definition plain_div : program := Eval vm_compute in program_of (sample_filter "0 / ip[8] = 0" false).
Definition opt_div : program := Eval vm_compute in program_of (sample_filter "0 / ip[8] = 0" true).
Definition plain_len : program := Eval vm_compute in program_of (sample_filter "len / 0 = 0" false).
Definition opt_len : program := Eval vm_compute in program_of (sample_filter "len / 0 = 0" true).
Definition plain_three : program := Eval vm_compute in program_of (sample_filter "3 / 0 = 0" false).

Section Packet.
Context (m0 m1 m2 m3 : Z) (m : list Z) (d : list byte) (Hd : lenZ d < 2 ^ 32).
Abbreviation mem0 := (m0 :: m1 :: m2 :: m3 :: m).

Lemma plain_and_says : says mem0 plain_and d =
  Some (Returned (if equals (half d 12) 0x800 && equals (octet d 22) 0 then 65535 else 0)).
Proof using Type. clear Hd. run_arith. Qed.
Lemma opt_and_says : says mem0 opt_and d = Some (Returned 0).
Proof using Type. clear Hd. run_arith. Qed.
Lemma plain_div_says : says mem0 plain_div d =
  Some (Returned (match octet d 22 with Some v => if v =? 0 then 0 else 65535 | None => 0 end)).
Proof using Type. clear Hd. run_arith. Qed.
Lemma opt_div_says : says mem0 opt_div d = Some (Returned 65535).
Proof using Type. clear Hd. run_arith. Qed.
Lemma plain_len_says : says mem0 plain_len d = Some (Returned 0).
Proof using Hd. assert (0 <= lenZ d) by (unfold lenZ; lia). run_arith. Qed.
Lemma plain_three_says : says mem0 plain_three d = Some (Returned 0).
Proof using Type. clear Hd. run_arith. Qed.
End Packet.

(** C23: Four filters that the optimizer changes, on an Ethernet device with a
    snapshot length of 65535, whatever the name services and the address given
    as the netmask, and what they answer to a packet [d] that is captured
    whole and has fewer than [2^32] bytes, from any contents of the scratch
    memory.  [ip[8] & 0xffffffff = 0] accepts the IPv4 packets whose time to live is 0;
    optimized, it takes the test it makes of that for one that always succeeds
    and rejects every packet.  [0 / ip[8] = 0] accepts the packets that have
    the byte, if it is not 0; optimized, it accepts every packet.
    [len / 0 = 0] rejects every packet; the optimizer makes a program of it
    that [bpf_validate] refuses.  [3 / 0 = 0] rejects every packet too, and the
    optimizer refuses it.  All other programs are valid. *)
Theorem optimizer_changes_filters r h net :
  activated h = true -> pcap_snapshot h = 65535 -> linktype h = DLT_EN10MB ->
  exists f_and f_and' f_div f_div' f_len f_len' f_three,
    (ethernet_filter r h net "ip[8] & 0xffffffff = 0" false = Compiled f_and 21 /\
     ethernet_filter r h net "ip[8] & 0xffffffff = 0" true = Compiled f_and' 5) /\
    (ethernet_filter r h net "0 / ip[8] = 0" false = Compiled f_div 19 /\
     ethernet_filter r h net "0 / ip[8] = 0" true = Compiled f_div' 1) /\
    (ethernet_filter r h net "len / 0 = 0" false = Compiled f_len 16 /\
     ethernet_filter r h net "len / 0 = 0" true = Compiled f_len' 5) /\
    (ethernet_filter r h net "3 / 0 = 0" false = Compiled f_three 16 /\
     ethernet_filter r h net "3 / 0 = 0" true = CompileError "division by zero") /\
    map bpf_validate [f_and; f_and'; f_div; f_div'; f_len; f_len'; f_three]
      = [true; true; true; true; true; false; true] /\
    forall mem0 d, length mem0 = 16%nat -> lenZ d < 2 ^ 32 ->
      says mem0 f_and d =
        Some (Returned (if equals (half d 12) 0x800 && equals (octet d 22) 0 then 65535 else 0)) /\
      says mem0 f_and' d = Some (Returned 0) /\
      says mem0 f_div d =
        Some (Returned (match octet d 22 with Some v => if v =? 0 then 0 else 65535 | None => 0 end)) /\
      says mem0 f_div' d = Some (Returned 65535) /\
      says mem0 f_len d = Some (Returned 0) /\
      says mem0 f_three d = Some (Returned 0).
Proof.
  intros Ha Hs Hl. exists plain_and, opt_and, plain_div, opt_div, plain_len, opt_len, plain_three.
  rewrite !(ethernet_filter_eq r h net Ha Hs Hl).
  do 4 (split; [split; vm_compute; reflexivity|]). split; [vm_compute; reflexivity|].
  intros mem0 d Hm Hd. do 4 (destruct mem0 as [|? mem0]; [discriminate Hm|]). split_and!;
    auto using plain_and_says, opt_and_says, plain_div_says, opt_div_says, plain_len_says, plain_three_says.
Qed.

Lemma optimizer_changes_filters_witness :
  exists f f', sample_filter "0 / ip[8] = 0" false = Compiled f 19 /\ sample_filter "0 / ip[8] = 0" true = Compiled f' 1 /\
    says zero_mem f sample_frame = Some (Returned 65535) /\ says zero_mem f [] = Some (Returned 0) /\
    says zero_mem f' [] = Some (Returned 65535).
Proof.
  destruct (optimizer_changes_filters no_names (pcap_open_dead DLT_EN10MB 65535) 0 eq_refl eq_refl eq_refl)
    as (f1 & f2 & f & f' & f3 & f4 & f5 & _ & [H1 H2] & _ & _ & _ & H).
  destruct (H zero_mem [] eq_refl eq_refl) as (_ & _ & He & He' & _).
  destruct (H zero_mem sample_frame eq_refl eq_refl) as (_ & _ & Hs & _).
  exists f, f'. split; [exact H1|]. split; [exact H2|]. rewrite He, He', Hs. vm_compute. by split_and!.
Defined.
