(* ===== verification/Coefficient.v ===== *)
(** [server/coefficient.cu]: the CUDA kernels, the coefficient of two stocks
    and the search for the smallest one. *)
From S2P Require Import Prelude CFile StockWire StockServer.
From Stdlib Require Import SpecFloat.

#[local] Close Scope Z_scope.

(** ** Launch configuration *)

Definition THREAD_NUM : nat := 8.
Definition BLOCK_NUM : nat := 1.
Definition ARRAY_LENGTH : nat := Z.to_nat PRICE_LIST_SIZE.

(** ** The kernels

    They are written for any type of numbers: [mac t a b] is [t += a*b], which
    the compiler may or may not contract to one rounding. *)

Section Kernels.
Context {F : Type} (zero : F) (add : F -> F -> F) (mac : F -> F -> F -> F).

(** The first loop of a kernel: thread [tid] of a launch of [stride] threads
    goes through the elements [tid], [tid + stride], ...; [acc t i] adds the
    element [i]'s term.  A step advances by at least one, so the array's
    length is enough fuel. *)
Fixpoint strided (fuel : nat) (acc : F -> nat -> F) (stride tid : nat) (temp : F) : F :=
  match fuel with
  | O => temp
  | S fuel =>
      if (tid <? ARRAY_LENGTH)%nat then strided fuel acc stride (tid + stride) (acc temp tid)
      else temp
  end.

Definition elem (a : list F) (i : nat) : F := nth i a zero.

(** The shared [cache] after the first barrier: one partial sum per thread. *)
Definition partials (acc : F -> nat -> F) : list F :=
  map (fun tid => strided ARRAY_LENGTH acc (THREAD_NUM * BLOCK_NUM) tid zero) (seq 0 THREAD_NUM).

(** ** The reduction

    Between two barriers every thread [t < i] executes
    [cache[t] += cache[t+1]]: two reads and a write that other threads'
    accesses may come between.  A schedule is a list of such accesses. *)
Inductive access := ReadOwn | ReadNext | Write.

(** What a thread has read, and whether it has written. *)
Record thread := Thread { t_own : option F; t_next : option F; t_written : bool }.

Definition fresh : thread := Thread None None false.

Definition access_step (i : nat) (st : list F * list thread) (e : nat * access)
    : list F * list thread :=
  let '(cache, ts) := st in
  let '(t, a) := e in
  if (t <? i)%nat then
    match ts !! t with
    | None => st
    | Some th =>
        match a with
        | ReadOwn =>
            match t_own th with
            | None => (cache, <[t := Thread (Some (elem cache t)) (t_next th) (t_written th)]> ts)
            | Some _ => st
            end
        | ReadNext =>
            match t_next th with
            | None =>
                (cache, <[t := Thread (t_own th) (Some (elem cache (t + 1))) (t_written th)]> ts)
            | Some _ => st
            end
        | Write =>
            match t_own th, t_next th, t_written th with
            | Some x, Some y, false => (<[t := add x y]> cache,
                                     <[t := Thread (t_own th) (t_next th) true]> ts)
            | _, _, _ => st
            end
        end
    end
  else st.

Definition run_phase (i : nat) (sched : list (nat * access)) (cache : list F)
    : list F * list thread :=
  fold_left (access_step i) sched (cache, repeat fresh THREAD_NUM).

(** The schedule lets every thread finish its statement. *)
Definition complete (i : nat) (st : list F * list thread) : bool :=
  forallb t_written (take i st.2).

(** The loop: [i] is halved until it is 0; one schedule per round. *)
Fixpoint reduce (i : nat) (scheds : list (list (nat * access))) (cache : list F)
    : bool * list F :=
  match scheds with
  | [] => ((i =? 0)%nat, cache)
  | s :: scheds =>
      let st := run_phase i s cache in
      let '(ok, c) := reduce (i / 2) scheds st.1 in (complete i st && ok, c)
  end.

(** [output[0]] of a kernel whose reduction runs as scheduled. *)
Definition kernel (scheds : list (list (nat * access))) (acc : F -> nat -> F) : F :=
  elem (reduce (THREAD_NUM / 2) scheds (partials acc)).2 0.

Definition dot_acc (a b : list F) (temp : F) (i : nat) : F := mac temp (elem a i) (elem b i).
Definition sumSquare_acc (a : list F) (temp : F) (i : nat) : F := mac temp (elem a i) (elem a i).
Definition sum_acc (a : list F) (temp : F) (i : nat) : F := add temp (elem a i).

Definition dot scheds (a b : list F) : F := kernel scheds (dot_acc a b).
Definition sumSquare scheds (a : list F) : F := kernel scheds (sumSquare_acc a).
Definition sum scheds (a : list F) : F := kernel scheds (sum_acc a).

(** The schedule of threads that run in lockstep, as those of a warp do:
    all read, then all write. *)
Definition lockstep_phase (i : nat) : list (nat * access) :=
  map (fun t => (t, ReadOwn)) (seq 0 i) ++ map (fun t => (t, ReadNext)) (seq 0 i)
  ++ map (fun t => (t, Write)) (seq 0 i).
Definition lockstep : list (list (nat * access)) :=
  [lockstep_phase 4; lockstep_phase 2; lockstep_phase 1].

(** ** The coefficient of two arrays *)

Context (sub mul div : F -> F -> F) (sqrt fabs : F -> F) (of_int : Z -> F).

Definition array_length : F := of_int PRICE_LIST_SIZE.

(** The host adds up the [BLOCK_NUM] outputs. *)
Definition host_sum (o : F) : F := add zero o.

(** The five launches may be scheduled differently. *)
Definition coefficient_single (l : nat -> list (list (nat * access))) (a b : list F) : F :=
  let dot := host_sum (dot (l 0) a b) in
  let sum_x := host_sum (sum (l 1) a) in
  let sum_y := host_sum (sum (l 2) b) in
  let sum_y_2 := host_sum (sum (l 3) b) in
  let sum_x_2 := host_sum (sum (l 4) a) in
  let fenzi := div (sub dot (mul sum_x sum_y)) array_length in
  let fenmu := sqrt (mul (sub sum_x_2 (div (mul sum_x sum_x) array_length))
                         (sub sum_y_2 (div (mul sum_y sum_y) array_length))) in
  div fenzi fenmu.

(** ** The search *)

Context (ltb : F -> F -> bool).

(** [min_cof], and [stock_x] and [stock_y], which start uninitialized. *)
Record search := Search { min_cof : F; stock_xy : option (nat * nat) }.

Definition search_pair (val : nat -> nat -> F) (s : search) (ij : nat * nat) : search :=
  let v := fabs (val ij.1 ij.2) in
  if ltb v (min_cof s) then Search v (Some ij) else s.

(** The pairs in the order of the two loops. *)
Definition pairs (loop : nat) : list (nat * nat) :=
  flat_map (fun i => map (fun j => (i, j)) (seq (i + 1) (loop - (i + 1)))) (seq 0 loop).

Definition search_min (one : F) (val : nat -> nat -> F) (loop : nat) : search :=
  fold_left (search_pair val) (pairs loop) (Search one None).

(** The copy of a deque to an array of [ARRAY_LENGTH] numbers: it needs that
    many prices. *)
Definition load_prices (q : list Z) : option (list F) :=
  if (ARRAY_LENGTH <=? length q)%nat then Some (map of_int (take ARRAY_LENGTH q)) else None.

(** [coefficient], up to the message it prints: [None] when it reads outside
    a deque. *)
Definition coefficient (l : nat -> nat -> nat -> list (list (nat * access))) (data : stockPriceMap)
    : option search :=
  match mapM (fun i => match find_price (Z.of_nat i) data with
                       | Some q => load_prices q
                       | None => None
                       end) (seq 0 (Z.to_nat SERVER_STOCK)) with
  | None => None
  | Some arrays =>
      Some (search_min (of_int 1)
              (fun i j => coefficient_single (l i j) (nth i arrays []) (nth j arrays []))
              (Z.to_nat SERVER_STOCK))
  end.
End Kernels.

(** ** The reduction only looks at the first five partial sums *)

Section Ignores.
Context {F : Type} (zero : F) (add : F -> F -> F).

Definition agree5 (c c' : list F) : Prop := forall j, (j <= 4)%nat -> c !! j = c' !! j.

Lemma elem_agree c c' j : agree5 c c' -> (j <= 4)%nat -> elem zero c j = elem zero c' j.
Proof using Type. intros Hc Hj. unfold elem. rewrite !nth_lookup. by rewrite Hc. Qed.

Lemma insert_agree c c' t v : agree5 c c' -> agree5 (<[t := v]> c) (<[t := v]> c').
Proof using Type.
  intros Hc j Hj. pose proof (Hc j Hj) as He. destruct (decide (t = j)) as [->|Hne].
  - destruct (c' !! j) as [x|] eqn:Hx; rewrite ?Hx in He.
    + by rewrite !list_lookup_insert_eq by (eapply lookup_lt_Some; eassumption).
    + rewrite !list_insert_ge by (by apply lookup_ge_None). congruence.
  - by rewrite !list_lookup_insert_ne.
Qed.

Lemma access_step_agree i c c' ts e :
  (i <= 4)%nat -> agree5 c c' ->
  agree5 (access_step zero add i (c, ts) e).1 (access_step zero add i (c', ts) e).1 /\
  (access_step zero add i (c, ts) e).2 = (access_step zero add i (c', ts) e).2.
Proof using Type.
  intros Hi Hc. destruct e as [t a]. unfold access_step.
  destruct (Nat.ltb_spec t i); [|done]. destruct (ts !! t) as [th|]; [|done].
  destruct a; [destruct (t_own th)|destruct (t_next th)|]; simpl; try done.
  - by rewrite (elem_agree c c') by (done || lia).
  - by rewrite (elem_agree c c' (t + 1)) by (done || lia).
  - destruct (t_own th), (t_next th), (t_written th); try done. simpl. auto using insert_agree.
Qed.

Lemma run_phase_agree i sched c c' :
  (i <= 4)%nat -> agree5 c c' ->
  agree5 (run_phase zero add i sched c).1 (run_phase zero add i sched c').1.
Proof using Type.
  intros Hi. unfold run_phase. generalize (repeat (@fresh F) THREAD_NUM).
  revert c c'. induction sched as [|e sched IH]; intros c c' ts Hc; [done|]. cbn [fold_left].
  destruct (access_step_agree i c c' ts e Hi Hc) as [H1 H2].
  destruct (access_step zero add i (c, ts) e) as [c1 ts1],
           (access_step zero add i (c', ts) e) as [c1' ts1']. simpl in *. subst. by apply IH.
Qed.

Lemma reduce_agree i scheds c c' :
  (i <= 4)%nat -> agree5 c c' ->
  agree5 (reduce zero add i scheds c).2 (reduce zero add i scheds c').2.
Proof using Type.
  revert i c c'. induction scheds as [|s scheds IH]; intros i c c' Hi Hc; [done|]. cbn [reduce].
  assert (Hi2 : (i / 2 <= 4)%nat) 
    by (etransitivity; [apply (Nat.Div0.div_le_mono i 4 2 Hi)|vm_compute; lia]).
  pose proof (run_phase_agree i s c c' Hi Hc) as H1.
  destruct (run_phase zero add i s c) as [c1 ts1], (run_phase zero add i s c') as [c1' ts1'].
  cbn [fst snd] in *. specialize (IH (i / 2)%nat c1 c1' Hi2 H1).
  destruct (reduce zero add (i / 2) scheds c1), (reduce zero add (i / 2) scheds c1'). exact IH.
Qed.

(** Terms that agree on the elements of a thread give it the same sum. *)
Lemma strided_agree fuel (acc acc' : F -> nat -> F) tid temp :
  (forall t i, (i mod 8 = tid mod 8)%nat -> acc t i = acc' t i) ->
  strided fuel acc 8 tid temp = strided fuel acc' 8 tid temp.
Proof using Type.
  revert tid temp. induction fuel as [|fuel IH]; intros tid temp Ha; cbn [strided]; [done|].
  destruct (tid <? ARRAY_LENGTH)%nat; [|done]. rewrite Ha by done. apply IH.
  intros t i Hi. apply Ha. rewrite Hi.
  replace (tid + 8)%nat with (tid + 1 * 8)%nat by lia. apply Nat.Div0.mod_add.
Qed.

Lemma kernel_agree scheds (acc acc' : F -> nat -> F) :
  (forall t i, (i mod 8 <= 4)%nat -> acc t i = acc' t i) ->
  kernel zero add scheds acc = kernel zero add scheds acc'.
Proof using Type.
  intros Ha. unfold kernel. apply elem_agree; [|lia]. apply reduce_agree; [done|].
  intros j Hj. unfold partials. rewrite !list_lookup_fmap.
  rewrite lookup_seq_lt by (unfold THREAD_NUM; lia). cbn [fmap option_fmap option_map Nat.add].
  f_equal. apply strided_agree. intros t i Hi. apply Ha. rewrite Hi, Nat.mod_small; lia.
Qed.
End Ignores.

(** ** The reduction in lockstep *)

Section Lockstep.
Context {F : Type} (zero : F) (add : F -> F -> F).

Lemma reduce_lockstep c0 c1 c2 c3 c4 c5 c6 c7 :
  let '(ok, c) := reduce zero add 4 lockstep [c0; c1; c2; c3; c4; c5; c6; c7] in
  ok = true /\
  elem zero c 0 = add (add (add c0 c1) (add c1 c2)) (add (add c1 c2) (add c2 c3)).
Proof using Type. vm_compute. done. Qed.

Lemma kernel_lockstep (acc : F -> nat -> F) :
  let c t := strided ARRAY_LENGTH acc 8 t zero in
  kernel zero add lockstep acc
  = add (add (add (c 0%nat) (c 1%nat)) (add (c 1%nat) (c 2%nat)))
        (add (add (c 1%nat) (c 2%nat)) (add (c 2%nat) (c 3%nat))).
Proof using Type.
  intros c. unfold kernel, partials. cbn [seq map THREAD_NUM BLOCK_NUM Nat.mul Nat.add].
  pose proof (reduce_lockstep (c 0%nat) (c 1%nat) (c 2%nat) (c 3%nat) (c 4%nat) (c 5%nat)
                (c 6%nat) (c 7%nat)) as H.
  change (THREAD_NUM / 2)%nat with 4%nat.
  destruct (reduce zero add 4 lockstep _) as [ok l]. apply H.
Qed.
End Lockstep.

(** ** The search *)

Section Search.
Context {F : Type} (fabs : F -> F) (ltb : F -> F -> bool).
Context (Hirr : forall x, ltb x x = false)
        (Htrans : forall x y z, ltb x y = true -> ltb y z = true -> ltb x z = true).
Context (val : nat -> nat -> F) (one : F).

Definition cost (ij : nat * nat) : F := fabs (val ij.1 ij.2).

(** What is known after the pairs [l]. *)
Definition search_ok (l : list (nat * nat)) (s : search) : Prop :=
  (forall ij, In ij l -> ltb (cost ij) (min_cof s) = false) /\
  match stock_xy s with
  | None => min_cof s = one
  | Some ij => In ij l /\ min_cof s = cost ij /\ ltb (cost ij) one = true
  end.

Lemma search_pairs_ok l :
  search_ok l (fold_left (search_pair fabs ltb val) l (Search one None)).
Proof using Hirr Htrans.
  enough (H : forall done s, search_ok done s ->
            search_ok (done ++ l) (fold_left (search_pair fabs ltb val) l s))
    by (apply (H []); by split).
  induction l as [|ij l IH]; intros dn s [Hmin Hxy]; [by rewrite app_nil_r|].
  cbn [fold_left]. replace (dn ++ ij :: l) with ((dn ++ [ij]) ++ l) by (by rewrite <- app_assoc).
  apply IH. unfold search_pair. fold (cost ij).
  destruct (ltb (cost ij) (min_cof s)) eqn:Hlt; split; cbn [min_cof stock_xy].
  - intros ij' [Hin|[->|[]]]%in_app_or; [|by apply Hirr].
    destruct (ltb (cost ij') (cost ij)) eqn:Hlt'; [|done].
    by rewrite <- (Hmin ij' Hin), (Htrans _ _ _ Hlt' Hlt).
  - split; [by apply in_or_app; right; left|]. split; [done|].
    destruct (stock_xy s) as [xy|]; [|by rewrite <- Hxy].
    destruct Hxy as (_ & Hm & Hone). rewrite Hm in Hlt. eauto.
  - intros ij' [Hin|[->|[]]]%in_app_or; auto.
  - destruct (stock_xy s); [|done]. destruct Hxy as (Hin & ? & ?).
    split; [by apply in_or_app; left|done].
Qed.
End Search.

Lemma in_pairs loop i j : In (i, j) (pairs loop) <-> (i < j < loop)%nat.
Proof.
  unfold pairs. rewrite List.in_flat_map. split.
  - intros (i' & Hi & Hj). apply List.in_map_iff in Hj as (j' & [= -> ->] & Hj).
    apply List.in_seq in Hi, Hj. lia.
  - intros [Hij Hj]. exists i. split; [apply List.in_seq; lia|].
    apply List.in_map_iff. exists j. split; [done|]. apply List.in_seq. lia.
Qed.

(** ** Single precision *)

Definition flt := spec_float.
Definition f_zero : flt := S754_zero false.
Definition f_add : flt -> flt -> flt := SFadd 24 128.
Definition f_sub : flt -> flt -> flt := SFsub 24 128.
Definition f_mul : flt -> flt -> flt := SFmul 24 128.
Definition f_div : flt -> flt -> flt := SFdiv 24 128.
Definition f_sqrt : flt -> flt := SFsqrt 24 128.
Definition f_of_int (z : Z) : flt := binary_normalize 24 128 z 0 false.

(** [temp += a*b] rounded twice. *)
Definition f_mac (t a b : flt) : flt := f_add t (f_mul a b).

(** [<] on single-precision numbers, infinities and NaNs included. *)
Definition flt_lt (x y : flt) : Prop := SFcompare x y = Some Lt.

Lemma SFltb_lt x y : SFltb x y = true <-> flt_lt x y.
Proof. unfold SFltb, flt_lt. by destruct (SFcompare x y) as [[]|]. Qed.

(** A key that orders the numbers: sign, exponent and mantissa. *)
Definition flt_key (x : flt) : Z * Z * Z :=
  match x with
  | S754_zero _ => (0, 0, 0)
  | S754_infinity true => (-2, 0, 0)
  | S754_infinity false => (2, 0, 0)
  | S754_nan => (0, 0, 0)
  | S754_finite true m e => (-1, - e, - Z.pos m)
  | S754_finite false m e => (1, e, Z.pos m)
  end%Z.

Definition key_lt (k k' : Z * Z * Z) : Prop :=
  let '(a, b, c) := k in
  let '(a', b', c') := k' in (a < a' \/ (a = a' /\ (b < b' \/ (b = b' /\ c < c'))))%Z.

Lemma flt_lt_key x y :
  flt_lt x y <-> x <> S754_nan /\ y <> S754_nan /\ key_lt (flt_key x) (flt_key y).
Proof.
  unfold flt_lt, key_lt.
  destruct x as [s|[]| |[] m e], y as [s'|[]| |[] m' e']; cbn;
    try (split; [intros [=]; split_and!; (done || lia) | intros (? & ? & ?); (done || lia)]);
    change (Pos.compare_cont Eq m m') with (m ?= m')%positive;
    destruct (Z.compare_spec e e'), (Pos.compare_spec m m'); cbn;
    (split; [intros [=]; split_and!; (done || lia) | intros (_ & _ & ?); first [done | exfalso; lia]]).
Qed.

Lemma SFltb_irrefl x : SFltb x x = false.
Proof.
  destruct (SFltb x x) eqn:E; [|done]. apply SFltb_lt, flt_lt_key in E as (_ & _ & E).
  destruct (flt_key x) as [[a b] c]. unfold key_lt in E. lia.
Qed.

Lemma SFltb_trans x y z : SFltb x y = true -> SFltb y z = true -> SFltb x z = true.
Proof.
  rewrite !SFltb_lt, !flt_lt_key. intros (Hx & _ & H1) (_ & Hz & H2). split_and!; [done|done|].
  destruct (flt_key x) as [[a b] c], (flt_key y) as [[a' b'] c'], (flt_key z) as [[a'' b''] c''].
  unfold key_lt in *. lia.
Qed.

Definition f_coefficient_single : (nat -> list (list (nat * access))) -> list flt -> list flt -> flt :=
  coefficient_single f_zero f_add f_mac f_sub f_mul f_div f_sqrt f_of_int.
Definition f_search_min (val : nat -> nat -> flt) (loop : nat) : search :=
  search_min SFabs SFltb (f_of_int 1) val loop.

(** ** Properties *)

(** C29: Three of every eight prices do not matter: however the threads of the
    five launches are scheduled, the result of [coefficient_single] depends
    only on the elements whose index modulo 8 is at most 4, because the
    reduction adds a thread's neighbour where it should add the thread [i]
    places on. *)
Theorem kernels_ignore_elements {F} zero add mac sub mul div sqrt of_int scheds (a a' b b' : list F) :
  (forall i, (i mod 8 <= 4)%nat -> elem zero a i = elem zero a' i) ->
  (forall i, (i mod 8 <= 4)%nat -> elem zero b i = elem zero b' i) ->
  coefficient_single zero add mac sub mul div sqrt of_int scheds a b
  = coefficient_single zero add mac sub mul div sqrt of_int scheds a' b' /\
  sumSquare zero add mac (scheds 0%nat) a = sumSquare zero add mac (scheds 0%nat) a'.
Proof.
  intros Ha Hb.
  assert (Hs : forall l c c', (forall i, (i mod 8 <= 4)%nat -> elem zero c i = elem zero c' i) ->
            sum zero add l c = sum zero add l c').
  { intros l c c' Hc. apply kernel_agree. intros t i Hi. unfold sum_acc. by rewrite Hc. }
  assert (Hd : dot zero add mac (scheds 0%nat) a b = dot zero add mac (scheds 0%nat) a' b').
  { apply kernel_agree. intros t i Hi. unfold dot_acc. by rewrite Ha, Hb. }
  split.
  - unfold coefficient_single. by rewrite Hd, !(Hs _ a a' Ha), !(Hs _ b b' Hb).
  - apply kernel_agree. intros t i Hi. unfold sumSquare_acc. by rewrite Ha.
Qed.

(** An array whose element 5 is large, and the array of zeros. *)
Definition spike : list Z := map (fun i => if (i =? 5)%nat then 1000%Z else 0%Z) (seq 0 8).

Lemma kernels_ignore_elements_witness :
  sumSquare 0%Z Z.add (fun t a b => t + a * b)%Z lockstep spike
  = sumSquare 0%Z Z.add (fun t a b => t + a * b)%Z lockstep [].
Proof.
  apply (kernels_ignore_elements 0%Z Z.add (fun t a b => t + a * b)%Z Z.sub Z.mul Z.div Z.sqrt
           (fun z => z) (fun _ => lockstep) spike [] [] []); [|done].
  intros i Hi. unfold elem.
  do 8 (destruct i as [|i]; [first [reflexivity | exfalso; simpl in Hi; lia]|]). by destruct i.
Defined.

Lemma lockstep_weights c0 c1 c2 c3 :
  (((c0 + c1) + (c1 + c2)) + ((c1 + c2) + (c2 + c3)) = c0 + 3 * c1 + 3 * c2 + c3)%Z.
Proof. lia. Qed.

(** What the reduction computes when the threads run in lockstep: of the
    eight partial sums of a launch only the first four enter, weighted 1, 3, 3
    and 1, so that [sum] is the sum of the array when the partial sums are
    equal and in general not; and other schedules of the same round, since it
    is a race, leave other results. *)
Theorem sum_lockstep (a : list Z) :
  let c t := strided ARRAY_LENGTH (sum_acc 0%Z Z.add a) 8 t 0%Z in
  sum 0%Z Z.add lockstep a = (c 0%nat + 3 * c 1%nat + 3 * c 2%nat + c 3%nat)%Z /\
  ((forall t, (t < 8)%nat -> c t = c 0%nat) ->
   sum 0%Z Z.add lockstep a
   = (c 0%nat + c 1%nat + c 2%nat + c 3%nat + c 4%nat + c 5%nat + c 6%nat + c 7%nat)%Z) /\
  (let one_by_one ts := flat_map (fun t => [(t, ReadOwn); (t, ReadNext); (t, Write)]) ts in
   let st := run_phase 0%Z Z.add 4 (one_by_one [0; 1; 2; 3]%nat) [1; 2; 3; 4; 5; 6; 7; 8]%Z in
   let st' := run_phase 0%Z Z.add 4 (one_by_one [3; 2; 1; 0]%nat) [1; 2; 3; 4; 5; 6; 7; 8]%Z in
   complete 4 st = true /\ complete 4 st' = true /\
   elem 0%Z st.1 0 = 3%Z /\ elem 0%Z st'.1 0 = 15%Z).
Proof.
  intros c.
  assert (Hk : sum 0%Z Z.add lockstep a = (c 0%nat + 3 * c 1%nat + 3 * c 2%nat + c 3%nat)%Z).
  { unfold sum. pose proof (kernel_lockstep 0%Z Z.add (sum_acc 0%Z Z.add a)) as H.
    cbv zeta in H. rewrite H. apply lockstep_weights. }
  clearbody c. split; [exact Hk|]. split; [|clear; vm_compute; split_and!; reflexivity].
  intros Heq. rewrite Hk. clear Hk.
  rewrite (Heq 1), (Heq 2), (Heq 3), (Heq 4), (Heq 5), (Heq 6), (Heq 7) by lia. lia.
Qed.

Lemma sum_lockstep_witness :
  let a := repeat 5%Z ARRAY_LENGTH in sum 0%Z Z.add lockstep a = 20480%Z.
Proof.
  intros a. destruct (sum_lockstep a) as (_ & H & _).
  etransitivity; [apply H|vm_compute; reflexivity].
  intros t Ht. do 8 (destruct t as [|t]; [vm_compute; reflexivity|]). lia.
Defined.

(** C32: The search finds the smallest coefficient: no pair of stocks has a
    smaller absolute value, NaNs aside, than the one it reports, which is that
    of the pair it reports; if it has no pair to report, its two stocks not
    having been assigned, then no pair has an absolute value below 1. *)
Theorem search_min_spec val loop :
  let s := f_search_min val loop in
  (forall i j, (i < j < loop)%nat -> SFltb (SFabs (val i j)) (min_cof s) = false) /\
  match stock_xy s with
  | Some (x, y) => (x < y < loop)%nat /\ min_cof s = SFabs (val x y) /\
                   SFltb (min_cof s) (f_of_int 1) = true
  | None => min_cof s = f_of_int 1
  end.
Proof.
  intros s.
  pose proof (search_pairs_ok SFabs SFltb SFltb_irrefl SFltb_trans val (f_of_int 1) (pairs loop))
    as [Hmin Hxy].
  change (fold_left _ _ _) with s in Hmin, Hxy. split.
  - intros i j Hij. apply (Hmin (i, j)), in_pairs, Hij.
  - destruct (stock_xy s) as [[x y]|]; [|exact Hxy].
    destruct Hxy as (Hin & Hm & Hlt). rewrite Hm. by apply in_pairs in Hin.
Qed.

Lemma search_none val loop :
  (forall i j, SFltb (SFabs (val i j)) (f_of_int 1) = false) ->
  f_search_min val loop = Search (f_of_int 1) None.
Proof.
  intros Hv. unfold f_search_min, search_min.
  induction (pairs loop) as [|ij l IH]; [done|]. cbn [fold_left].
  unfold search_pair at 2. cbn [min_cof]. by rewrite Hv.
Qed.

(** The coefficient of a series with itself is not 1: for a stock whose
    price is always 100, in single precision and in lockstep, it is
    -1.0098..., because the sums of squares are plain sums and the mean is
    taken of the whole numerator; since its absolute value is above 1, the
    search over any number of such stocks reports no pair. *)
Theorem self_coefficient_above_one loop :
  let a := repeat (f_of_int 100) ARRAY_LENGTH in
  f_coefficient_single (fun _ => lockstep) a a = S754_finite true 8471273 (-23) /\
  f_search_min (fun _ _ => f_coefficient_single (fun _ => lockstep) a a) loop
  = Search (f_of_int 1) None.
Proof.
  intros a.
  assert (Hc : f_coefficient_single (fun _ => lockstep) a a = S754_finite true 8471273 (-23))
    by (vm_compute; reflexivity).
  split; [exact Hc|]. rewrite Hc. apply search_none. intros. vm_compute. reflexivity.
Qed.
